(* ===== verification/_CoqProject ===== *)
-Q . S2P
Prelude.v
Safe.v
Popcount.v
UndoDb.v
Raw.v
Asset.v
Authority.v
Objects.v
Pricing.v
Database.v
Ledger.v
Vesting.v
Balance.v
Evaluator.v
Sample.v
Referral.v
Cursor.v
GameZone.v
Exchange.v
Financial.v
Transfer.v
Market.v
Fills.v
Margin.v
Settle.v
Book.v
Rounds.v
Settlement.v
Clearing.v
Feeds.v
MarketOps.v
AssetOps.v
Schedule.v
ForkDb.v
Upkeep.v
Matrix.v
Poc.v
GreatRace.v
Race.v
Withdraw.v
Budget.v
Votes.v
Maintenance.v
Chain.v
Transaction.v
