(* ===== verification/Prelude.v ===== *)
(** * crowdwiz-core: a verification library

    A model, with proofs, of the transaction processing core of the CrowdWiz
    node (a descendant of BitShares), written in C++ under
    [src/libraries/chain], [src/libraries/db] and [src/libraries/fc].

    ** The program

    A block is a sequence of transactions, a transaction a sequence of
    operations.  Every operation has a structure with a [validate] function
    ([chain/protocol/*.cpp]) and an evaluator with [do_evaluate], which checks
    it against the state, and [do_apply], which changes the state
    ([chain/*_evaluator.cpp]).  A template ([chain/evaluator.cpp]) wraps them
    with the fee.  A transaction is signed by the authorities its operations
    require ([protocol/transaction.cpp]).  The state is an object database
    ([libraries/db]): one index of objects per type, changed only through create,
    modify and remove, which an undo log records so that an exception rolls
    everything back.  Around the operations, each block pays fees out along the
    line of referrers, ends bets and lotteries, closes matrices and cancels or
    settles what has expired ([chain/db_update.cpp]); at every maintenance the chain
    counts votes, elects witnesses and committee, pays its workers and ends the
    intervals of the great race ([chain/db_maint.cpp]).

    ** The files

    Foundations:
    - Prelude.v: results, a record update notation, loops that may throw, sums
      over finite maps, boolean reflection, inversion of monadic code.
    - Safe.v: [fc::safe<int64_t>], [fc::uint128], unsigned widths, percentages,
      seconds ([fc/include/fc/safe.hpp], [uint128.hpp], [time.hpp]).
    - Popcount.v: the number of bits of a 128-bit integer.
    - UndoDb.v: the undo log ([db/undo_database.cpp]), over any number of
      tables, refined to a stack of snapshots.
    - Raw.v: the packing of lengths and byte strings ([fc/io/raw.hpp]).
    - Asset.v: amounts and prices ([protocol/asset.hpp], [protocol/asset.cpp]).
    - Authority.v: authorities and signatures ([protocol/authority.hpp],
      [protocol/transaction.cpp]).
    - Objects.v, Database.v: the objects of the chain, the index operations and
      the database record; the time and number of the head block; hard forks.
    - Pricing.v: call prices, the limit of the squeeze, target collateral ratios
      ([protocol/asset.cpp], [market_object.cpp]).
    - Ledger.v: the abstract specification of the economic operations: what
      the chain holds of every asset against what it has issued.
    - Cursor.v: loops over an ordered index whose body moves the current object.

    Operations:
    - Vesting.v: vesting balances ([vesting_balance_object.cpp]).
    - Balance.v: account balances, cashback, repayment of credits
      ([db_balance.cpp]).
    - Evaluator.v: the evaluation template, fees, white lists.
    - Sample.v: a small state on which the theorems are instantiated.
    - Referral.v: volumes, compression, the leader bonus, the distribution of
      fees, status upgrades and changes of referrer ([account_object.cpp],
      [account_evaluator.cpp]).
    - GameZone.v: bets, lotteries, the matrix ([gamezone_evaluator.cpp]).
    - Exchange.v: the P2P exchange ([exchange_evaluator.cpp]).
    - Financial.v: credits, pledges, approved transfers, mass payments
      ([financial_evaluator.cpp]).
    - Transfer.v: transfers and vesting operations ([transfer_evaluator.cpp],
      [vesting_balance_evaluator.cpp]).
    - AssetOps.v: issuing, reserving, fee pools, options, feed producers,
      settlement ([asset_evaluator.cpp]).
    - MarketOps.v: limit orders, positions, bids ([market_evaluator.cpp]).
    - Poc.v: votes, staking and its rewards, the exchange of silver
      ([poc_evaluator.cpp]).
    - GreatRace.v: teams, invitations, votes and bets ([greatrace_evaluator.cpp]).
    - Withdraw.v: withdraw permissions ([withdraw_permission_evaluator.cpp]).

    The market engine ([db_market.cpp], [db_update.cpp], [asset_object.cpp]):
    - Market.v: fills, cancellations and matches; Fills.v: their effect on the
      books.
    - Margin.v: margin calls, global settlement, bids and the revival of an
      asset; Settle.v: their effect on the books.
    - Book.v: a new order against the book; Rounds.v: how long its loops go on.
    - Settlement.v, Clearing.v: limit orders that expire, settlement orders that
      are due, and the loop over them.
    - Feeds.v: the median of the feeds, feeds that expire, core exchange rates.

    Blocks and maintenance:
    - Schedule.v: slots, the shuffle of the witnesses, headers of blocks
      ([db_witness_schedule.cpp], [protocol/block.cpp], [db_block.cpp]).
    - ForkDb.v: the fork database and the push of a block
      ([fork_database.cpp], [db_block.cpp]).
    - Upkeep.v, Matrix.v: what every block does after its transactions
      ([db_update.cpp]).
    - Race.v: the end of an interval of the great race ([db_maint.cpp]).
    - Budget.v: the budget of an interval, the workers, the share of gold
      ([db_maint.cpp]).
    - Votes.v: candidates, the tally, the elections ([db_maint.cpp],
      [vote_count.hpp], [witness_evaluator.cpp] and its siblings).
    - Maintenance.v: the walk over the accounts, ratings, the votes on the
      interest of stakes, the clocks ([db_maint.cpp]).
    - Chain.v, Transaction.v: sequences of operations, the dispatch by tag, the
      application of a transaction and the transactions that may not come back
      ([db_block.cpp], [db_update.cpp]).

    ** How the code is modelled

    An operation that can throw is a function into [result]; the state is
    passed explicitly, and a throw keeps no state because the enclosing undo
    session discards it (UndoDb.v proves that it does).  A C++ reference into
    the database follows the object through later changes; the model reads the
    object again where the code reads through the reference after a change.
    Integers are of type [Z]; [share_type] is checked arithmetic that throws,
    and unsigned fields wrap modulo their width.  Rational numbers, and the
    128- and 256-bit products of the market, are exact where the code's
    types hold every value.  Each operation is a record of
    its fields and an instance of the class [Evaluator] (Evaluator.v), whose
    members are the C++ functions of the same name.

    What is left out on purpose: the identifier an evaluator returns; log
    macros and [assert]; the memo and file payloads, which are opaque strings (a
    length is the length of their packed bytes); indices that only answer
    queries of clients; fields no modelled operation reads or writes, such as
    urls and signing keys.  An ordered [flat_map] is a list in the order of its
    keys; a walk along a secondary index is a walk along the objects sorted by its
    key, and a lookup takes the first object of its range, by identifier.

    What the source only calls is an argument: the fee schedule, the hash of a
    transaction, the recovery of a key from a signature, the addresses of a
    key, the order the partial sorts of the standard library leave among
    equals.  So are the names of the accounts and the list of assets that a past
    hard fork has matched again, which the modelled operations only read.

    ** What the theorems show

    - Values: [imbalance] of Ledger.v is what the accounts, vesting balances,
      pending fees, orders and escrows hold of an asset minus its supply.  [flow]
      says by how much a run changes it; the instances of [Flows] give the flow of
      every primitive, and an operation is [Conserving] when its flow is zero.
      [start_evaluate_balanced] shows that the template keeps the books
      balanced for every conserving operation, [transaction_balanced] that a
      transaction of any length does when each of its operations is
      [books_neutral], as all but five kinds are; the operations that do not
      conserve value have a theorem with their exact flow.  What a conserving
      operation relies on is [chain_ok]: the data of an asset are its own, symbols
      and market fees are in order, an asset that is not settled has no settlement
      fund and one that is has a price in its backing asset, positions are backed by
      that asset, no expired transfer is left, and the market's rounding is that of
      the hard fork of 2018; every operation keeps it.
    - Transactions: an accepted transaction satisfies the authorities it needs
      and none of its signatures is useless, and the signatures a wallet is asked
      for are accepted; no transaction is applied twice while duplicates are checked.
    - Market: a new order leaves a book that does not cross; its loops end when
      no position has a target ratio and can go on for ever when one has; the debt
      a called position covers brings it back to its target; a global settlement
      closes every position; settlement orders that are due are settled up to the
      volume the asset allows.  The median of the feeds counts only those alive.
    - Assets: what the issuer may change is what the permissions allow; a
      settlement pays at the settlement price.
    - Rewards: fees are paid out in full up to rounding, the leader bonus is
      bounded, the searches along the line of referrers end.
    - Staking: a stake issues no more than the evaluator reserved, rewards every
      referrer once, and matures in full.
    - Functions: what transfers, withdrawals, disputes and rooms do, on every
      branch; what is allowed stays allowed; packing round trips.  A withdraw
      permission never gives out more than its limit in a period.
    - Schedule: slots and seconds correspond, every round gives every witness a
      slot, a header built for its slot is accepted and moves the chain on.
    - Blocks: the loops of every block end and settle exactly what is due; the
      last irreversible block has its quorum; the succession of matrices ends,
      unless a matrix has no blocks.
    - Great race: an account is in one team, whatever operations come; every bet
      is settled once; the ranks are those the volumes of the teams deserve.
    - Maintenance: every account with a vote or pending fees is walked once; the
      tally is the sum of the stakes that voted; the elected are those with the
      most votes; the interest of stakes stays in its range; the budget never
      exceeds what the reserve releases, and the holders of gold share by what
      they hold.
    - Dialogues: the operations of the exchange refine the states of an order.
    - Forks: the fork database keeps the window below its highest block; a node
      that switches forks, when the history it keeps reaches below the fork point
      throughout, ends on the new head or exactly where it was.
    - Undo: the undo log implements snapshots, whatever is created, modified or
      removed in nested sessions.

    ** Bounds

    A recursion that is not structural takes fuel, the value [out_of_fuel]
    stands for a loop that goes on, and a theorem shows that it does not happen.
    - [referral_fuel] (256) bounds the recursions along the line of referrers,
      which the code bounds by 8-bit level parameters ([terminates_process_fees],
      for parameters below 255).
    - A loop over an index has the square of its size ([scan_fuel], Cursor.v);
      the removal of settled objects, the loop over the bets, the loops over expired
      permissions and transactions and the walk over the accounts have the size of
      their table; the expiration of feeds has twice that number.
    - [shrink_fuel] (128) halvings bring a product of 128-bit fractions into its
      format; [search_fuel] (64) halvings close the interval of the target search,
      which 63-bit amounts bound, and [forward_fuel] (100) is the constant of the
      code.
    - [while_loop] n goes round at most [2 ^ n] times: [book_rounds] (128) for the
      rounds of a new order, of which each uses up an amount of 63 bits or a
      position, [settle_rounds] (64) for the settlement of one asset, the number of
      settlement orders for the loop from asset to asset, and [bonus_loop_rounds]
      (32) for a loop that counts up to at most the largest [int].
    - The succession of matrices has [matrix_fuel] (Matrix.v).  The climb along a
      fork has the higher block number ([fetch_branch_from]), the removal of blocks
      the number of states the undo database keeps ([pop_to]).
    - The weighing of authorities goes down to the recursion depth the code
      allows.  In [rank_range] of Race.v the throw stands for an iterator that
      runs past the end of the index; [gr_rank_gap] has a state where it does.

    ** Not modelled

    The creation and update of accounts and of assets, proposals, the claims of
    genesis balances, confidential transfers, special authorities, buybacks and
    fee-backed assets, the one-time fixes past hard forks made at maintenance, and the
    order in which [perform_chain_maintenance] calls its parts; the files of
    the block log and the queue of pending transactions; networking, the API, the
    wallet and the plugins. *)

From stdpp Require Export prelude gmap strings list fin_maps.

#[export] Set Default Goal Selector "!".
#[global] Open Scope Z_scope.

Declare Scope chain_scope.
Delimit Scope chain_scope with chain.
#[global] Open Scope chain_scope.

(** ** Exceptions and results

    Every operation of the node either completes or throws an [fc::exception];
    a throw abandons the enclosing undo session, so the model keeps no state
    next to an error.  Two values are not exceptions of the node:
    [undefined_behaviour] stands for a step the language leaves undefined (an
    access out of range, the increment of an erased iterator, the overflow of a
    signed counter), [out_of_fuel] for a loop that goes on. *)
Inductive exn : Type :=
  | assert_exception
  | overflow_exception
  | underflow_exception
  | divide_by_zero_exception
  | transfer_from_account_not_whitelisted
  | transfer_to_account_not_whitelisted
  | transfer_restricted_transfer_asset
  | override_transfer_not_permitted
  | insufficient_fee
  | may_not_deposit_vested
  | undo_database_exception
  | unlinkable_block_exception
  | black_swan_exception
  | asset_reserve_invalid_on_mia
  | insufficient_feeds
  | call_order_update_unfilled_margin_call
  | invalid_committee_approval
  | tx_missing_other_auth
  | tx_missing_owner_auth
  | tx_missing_active_auth
  | tx_irrelevant_sig
  | tx_duplicate_sig
  | undefined_behaviour
  | out_of_fuel.

#[export] Instance exn_eq_dec : EqDecision exn.
Proof. solve_decision. Defined.

Inductive result (A : Type) : Type :=
  | Ok (a : A)
  | Err (e : exn).
Arguments Ok {A} a.
Arguments Err {A} e.

#[export] Instance result_ret : MRet result := λ A, @Ok A.
#[export] Instance result_bind : MBind result := λ A B k m,
  match m with Ok a => k a | Err e => Err e end.
#[export] Instance result_fmap : FMap result := λ A B f m,
  match m with Ok a => Ok (f a) | Err e => Err e end.

(** [FC_ASSERT(b)] throws [fc::assert_exception] when [b] is false. *)
Definition GRAPHENE_ASSERT (b : bool) (e : exn) : result unit :=
  if b then Ok tt else Err e.
Definition FC_ASSERT (b : bool) : result unit := GRAPHENE_ASSERT b assert_exception.

Definition from_option_exn {A} (e : exn) (o : option A) : result A :=
  match o with Some a => Ok a | None => Err e end.

Definition ok_or {A} (x : A) (m : result A) : A :=
  match m with Ok a => a | Err _ => x end.

Definition is_ok {A} (m : result A) : bool :=
  match m with Ok _ => true | Err _ => false end.

(** A left-to-right effectful fold, the model of a range-for loop whose body
    may throw. *)
Fixpoint foldM {A S : Type} (f : S → A → result S) (s : S) (l : list A) : result S :=
  match l with
  | [] => Ok s
  | x :: l' => s' ← f s x; foldM f s' l'
  end.

(** A [while] loop that goes round at most [2 ^ n] times; [inl] is a state that
    goes on, [inr] the result. *)
Fixpoint while_loop {S R : Type} (n : nat) (body : S → result (S + R)) (s : S) : result (S + R) :=
  match n with
  | O => body s
  | Datatypes.S n =>
      r ← while_loop n body s;
      match r with inl s => while_loop n body s | inr x => Ok (inr x) end
  end.
Definition loop_result {S R : Type} (r : S + R) : result R :=
  match r with inl _ => Err out_of_fuel | inr x => Ok x end.
#[global] Arguments while_loop : simpl never.

(** ** Record update

    [x <| p := v |>] is [x] with field [p] replaced; a record declares one
    [Eta] expansion and the setters of its fields are computed from it. *)
Class Eta (R : Type) := eta_of : R → R.
Class Setter {R T : Type} (p : R → T) := over : (T → T) → R → R.
Arguments over {R T} p {_} _ _ /.

Ltac derive_setter p :=
  match type of p with
  | ?R → ?T =>
    let inst := constr:(_ : Eta R) in
    let h := (match inst with ?c => c end) in
    let e := eval unfold h in h in
    match (eval pattern p in e) with
    | ?G _ =>
      let s := eval cbv beta in
        (fun (f : T → T) (x : R) => G (fun y => f (p y)) x) in
      exact (s : Setter p)
    end
  end.

#[export] Hint Extern 1 (Setter ?p) => derive_setter p : typeclass_instances.

Notation "x <| p := v |>" := (over p (λ _, v) x)
  (at level 1, p at level 100, v at level 100, left associativity,
   format "x  <| p  :=  v |>") : chain_scope.
Notation "x <| p ::= f |>" := (over p f x)
  (at level 1, p at level 100, f at level 100, left associativity,
   format "x  <| p  ::=  f |>") : chain_scope.

(** ** Sums over finite maps *)
Definition msum {K V : Type} `{Countable K} (f : K → V → Z) (m : gmap K V) : Z :=
  map_fold (λ k v acc, f k v + acc) 0 m.

(** The sum of [f] over a list. *)
Fixpoint lsum {A : Type} (f : A → Z) (l : list A) : Z :=
  match l with [] => 0 | x :: l' => f x + lsum f l' end.

(** Comparisons stay folded under [cbn], as the code writes them. *)
#[global] Arguments Z.eqb : simpl never.
#[global] Arguments Z.leb : simpl never.
#[global] Arguments Z.ltb : simpl never.

(** ** Lemmas *)
Section result_lemmas.
Context {A B : Type}.

Lemma Ok_bind (a : A) (k : A → result B) : (Ok a ≫= k) = k a.
Proof. reflexivity. Qed.

Lemma bind_Ok (m : result A) (k : A → result B) (b : B) :
  (m ≫= k) = Ok b ↔ ∃ a, m = Ok a ∧ k a = Ok b.
Proof.
  destruct m as [a|e]; cbn; split; [by eauto|by intros (? & [= ->] & ?)|done|].
  by intros (? & [=] & _).
Qed.

Lemma fmap_Ok (f : A → B) (m : result A) (b : B) :
  f <$> m = Ok b ↔ ∃ a, m = Ok a ∧ b = f a.
Proof.
  destruct m as [a|e]; cbn; split; [intros [= <-]; eauto|by intros (? & [= ->] & ->)|done|].
  by intros (? & [=] & _).
Qed.

Lemma Ok_inj (a b : A) : Ok a = Ok b → a = b.
Proof. congruence. Qed.

Lemma GRAPHENE_ASSERT_Ok b e u : GRAPHENE_ASSERT b e = Ok u ↔ b = true.
Proof. destruct b, u; cbn; intuition congruence. Qed.

Lemma FC_ASSERT_Ok b u : FC_ASSERT b = Ok u ↔ b = true.
Proof. apply GRAPHENE_ASSERT_Ok. Qed.

Lemma from_option_Ok e (o : option A) a : from_option_exn e o = Ok a ↔ o = Some a.
Proof. destruct o; cbn; intuition congruence. Qed.
End result_lemmas.

Create Rewrite HintDb fc_bool.
#[export] Hint Rewrite Z.eqb_eq Z.eqb_neq Z.leb_le Z.leb_gt Z.ltb_lt Z.ltb_ge andb_true_iff
  orb_true_iff andb_false_iff orb_false_iff negb_true_iff negb_false_iff
  bool_decide_eq_true bool_decide_eq_false : fc_bool.

(** [propify] turns boolean conditions of the code into propositions. *)
Ltac propify := autorewrite with fc_bool in *.

(** [inv_step]/[inv_ok] invert a successful run of monadic code. *)
Ltac inv_step :=
  match goal with
  | H : Ok ?a = Ok ?b |- _ => apply Ok_inj in H; try subst
  | H : Some ?a = Some ?b |- _ => apply Some_inj in H; try subst
  | H : true = false |- _ => discriminate H
  | H : false = true |- _ => discriminate H
  | H : ?x = true |- _ => is_var x; subst x
  | H : Err _ = Ok _ |- _ => discriminate H
  | H : mret _ = Ok _ |- _ => unfold mret, result_ret in H
  | H : mbind _ _ = Ok _ |- _ => apply bind_Ok in H as (? & ? & ?)
  | H : fmap _ _ = Ok _ |- _ => apply fmap_Ok in H as (? & ? & ?)
  | H : FC_ASSERT _ = Ok _ |- _ => apply FC_ASSERT_Ok in H
  | H : GRAPHENE_ASSERT _ _ = Ok _ |- _ => apply GRAPHENE_ASSERT_Ok in H
  | H : from_option_exn _ _ = Ok _ |- _ => apply from_option_Ok in H
  | H : (if ?b then _ else _) = Ok _ |- _ => destruct b eqn:?
  | H : (match ?o with Some _ => _ | None => _ end) = Ok _ |- _ => destruct o eqn:?
  | H : ?x = (_, _) |- _ => is_var x; subst x
  | H : (_, _) = (_, _) |- _ => injection H; clear H; intros; subst
  | H : (let '(_, _) := ?x in _) = Ok _ |- _ => destruct x eqn:?
  | x : unit |- _ => destruct x
  | x : _ * _ |- _ => destruct x
  | H : _ ∧ _ |- _ => destruct H
  end.
Ltac inv_ok := repeat (inv_step; cbn beta iota in *).

(** Two runs of the same computation have the same result. *)
Ltac same_ok :=
  repeat match goal with
  | H1 : ?x = Ok _, H2 : ?x = Ok _ |- _ => rewrite H1 in H2; injection H2; clear H2; intros; subst
  | H1 : ?x = Some _, H2 : ?x = Some _ |- _ => rewrite H1 in H2; injection H2; clear H2; intros; subst
  end.

Section foldM_lemmas.
Context {A S : Type} (f : S → A → result S).

Lemma foldM_inv (P : S → Prop) l s s' :
  (∀ s x s', P s → f s x = Ok s' → P s') → P s → foldM f s l = Ok s' → P s'.
Proof.
  intros Hf. revert s. induction l as [|x l IH]; cbn; intros s Hs H; inv_ok; [done|].
  eapply IH; [|done]. by eapply Hf.
Qed.

(** A quantity that every iteration changes by a known amount. *)
Lemma foldM_measure (g : S → Z) (w : A → Z) l s s' :
  (∀ s x s', x ∈ l → f s x = Ok s' → g s' = g s + w x) →
  foldM f s l = Ok s' → g s' = g s + lsum w l.
Proof.
  revert s. induction l as [|x l IH]; cbn; intros s Hf H; inv_ok; [lia|].
  match goal with Hx : f s x = Ok ?s1, Hl : foldM f ?s1 l = Ok s' |- _ =>
    pose proof (Hf _ _ _ (list_elem_of_here _ _) Hx);
    pose proof (IH s1 (λ a y b Hy, Hf a y b (list_elem_of_further _ _ _ Hy)) Hl) end.
  lia.
Qed.

Lemma foldM_app l1 l2 s : foldM f s (l1 ++ l2) = (s' ← foldM f s l1; foldM f s' l2).
Proof. revert s. induction l1 as [|x l1 IH]; intros s; cbn; [done|]. destruct (f s x); cbn; auto. Qed.
End foldM_lemmas.

Section while_lemmas.
Context {S R : Type} (body : S → result (S + R)).

(** A loop invariant, with what it gives at the end. *)
Lemma while_inv (P : S → Prop) (Q : R → Prop) n s r :
  (∀ s r, P s → body s = Ok r → match r with inl s' => P s' | inr x => Q x end) →
  P s → while_loop n body s = Ok r → match r with inl s' => P s' | inr x => Q x end.
Proof.
  intros Hb. revert s r. induction n as [|n IH]; intros s r Hs H; [by eapply Hb|].
  change (while_loop (Datatypes.S n) body s) with
    (r ← while_loop n body s; match r with inl s => while_loop n body s | inr x => Ok (inr x) end) in H.
  apply bind_Ok in H as (r1 & H1 & H). specialize (IH s r1 Hs H1) as Hr1. destruct r1 as [s1|x]; [by eapply IH|].
  by injection H as <-.
Qed.

(** A loop throws what its body throws on a state it comes to. *)
Lemma while_Err (P : S → Prop) n s e :
  (∀ s s', P s → body s = Ok (inl s') → P s') → P s → while_loop n body s = Err e → ∃ s', P s' ∧ body s' = Err e.
Proof.
  intros Hb. revert s. induction n as [|n IH]; intros s Hs H; [by exists s|].
  change (while_loop (Datatypes.S n) body s) with
    (r ← while_loop n body s; match r with inl s => while_loop n body s | inr x => Ok (inr x) end) in H.
  destruct (while_loop n body s) as [[s1|x]|e1] eqn:E; cbn in H; [|discriminate H|].
  - apply (IH s1); [|exact H]. apply (while_inv P (λ _, True) n s (inl s1)); [|exact Hs|exact E].
    intros t r Ht Hr. destruct r; [by eapply Hb|done].
  - injection H as <-. by apply IH in E.
Qed.

(** A measure that decreases bounds the number of rounds ... *)
Lemma while_ends (P : S → Prop) (μ : S → Z) n s r :
  (∀ s s', P s → body s = Ok (inl s') → P s' ∧ 0 ≤ μ s' < μ s) →
  P s → μ s < 2 ^ Z.of_nat n → while_loop n body s = Ok r → match r with inl s' => False | inr _ => True end.
Proof.
  intros Hb Hs Hlt H.
  assert (Hk : ∀ n s s', P s → while_loop n body s = Ok (inl s') → P s' ∧ 0 ≤ μ s' ∧ μ s' + 2 ^ Z.of_nat n ≤ μ s).
  { clear n s r Hs Hlt H. intros n. induction n as [|n IH]; intros s s' Hs H.
    - destruct (Hb _ _ Hs H). split; [done|]. change (2 ^ Z.of_nat 0) with 1. lia.
    - change (while_loop (Datatypes.S n) body s) with
        (r ← while_loop n body s; match r with inl s => while_loop n body s | inr x => Ok (inr x) end) in H.
      apply bind_Ok in H as ([s1|x] & H1 & H); [|done].
      destruct (IH _ _ Hs H1) as (P1 & ? & ?). destruct (IH _ _ P1 H) as (P2 & ? & ?). split; [done|].
      rewrite Nat2Z.inj_succ, Z.pow_succ_r by lia. lia. }
  destruct r as [s'|x]; [|done]. destruct (Hk _ _ _ Hs H) as (_ & ? & ?). lia.
Qed.

(** ... and a loop whose body never ends does not end. *)
Lemma while_spins (P : S → Prop) n s :
  (∀ s, P s → ∃ s', body s = Ok (inl s') ∧ P s') → P s → ∃ s', while_loop n body s = Ok (inl s') ∧ P s'.
Proof.
  intros Hb. revert s. induction n as [|n IH]; intros s Hs; [by apply Hb|].
  change (while_loop (Datatypes.S n) body s) with
    (r ← while_loop n body s; match r with inl s => while_loop n body s | inr x => Ok (inr x) end).
  destruct (IH s Hs) as (s1 & -> & Hs1). cbn. by apply IH.
Qed.
End while_lemmas.

Section msum_lemmas.
Context {K V : Type} `{Countable K}.
Implicit Types (m : gmap K V) (f : K → V → Z).

Lemma msum_empty f : msum f ∅ = 0.
Proof. apply map_fold_empty. Qed.

Lemma msum_insert_None f m k v : m !! k = None → msum f (<[k:=v]> m) = f k v + msum f m.
Proof. intros Hk. unfold msum. rewrite map_fold_insert_L; [done|intros; lia|done]. Qed.

Lemma msum_delete f m k v : m !! k = Some v → msum f (delete k m) = msum f m - f k v.
Proof.
  intros Hk. rewrite <-(insert_delete_id m k v Hk) at 2.
  rewrite msum_insert_None; [lia|apply lookup_delete_eq].
Qed.

Lemma msum_insert_Some f m k v v' :
  m !! k = Some v → msum f (<[k:=v']> m) = msum f m - f k v + f k v'.
Proof.
  intros Hk. rewrite <-insert_delete_eq.
  rewrite msum_insert_None; [|apply lookup_delete_eq].
  rewrite (msum_delete _ _ _ _ Hk). lia.
Qed.

Lemma msum_insert f m k v' :
  msum f (<[k:=v']> m) = msum f m - from_option (f k) 0 (m !! k) + f k v'.
Proof.
  destruct (m !! k) as [v|] eqn:Hk; cbn.
  - by rewrite (msum_insert_Some _ _ _ _ _ Hk).
  - rewrite msum_insert_None by done. lia.
Qed.

Lemma msum_ext f g m : (∀ k v, m !! k = Some v → f k v = g k v) → msum f m = msum g m.
Proof.
  intros Hfg. induction m as [|k v m Hk IH] using map_ind; [by rewrite !msum_empty|].
  rewrite !msum_insert_None by done. rewrite IH.
  - f_equal. apply Hfg. apply lookup_insert_eq.
  - intros k' v' Hk'. apply Hfg. rewrite lookup_insert_ne; [done|naive_solver].
Qed.

Lemma msum_none f m : (∀ k v, m !! k = Some v → f k v = 0) → msum f m = 0.
Proof.
  intros Hf. induction m as [|k v m Hk IH] using map_ind; [apply msum_empty|].
  rewrite msum_insert_None, (Hf k v), IH; [done| |apply lookup_insert_eq|done].
  intros k' v' Hk'. apply Hf. rewrite lookup_insert_ne; [done|naive_solver].
Qed.

Lemma msum_nonneg f m : (∀ k v, m !! k = Some v → 0 ≤ f k v) → 0 ≤ msum f m.
Proof.
  intros Hf. induction m as [|k v m Hk IH] using map_ind; [by rewrite msum_empty|].
  rewrite msum_insert_None by done.
  assert (0 ≤ f k v) by (apply Hf, lookup_insert_eq).
  enough (0 ≤ msum f m) by lia. apply IH. intros k' v' Hk'. apply Hf.
  rewrite lookup_insert_ne; [done|naive_solver].
Qed.

Lemma msum_lookup_le f m k v :
  (∀ k v, m !! k = Some v → 0 ≤ f k v) → m !! k = Some v → f k v ≤ msum f m.
Proof.
  intros Hf Hk. rewrite <-(insert_delete_id m k v Hk).
  rewrite msum_insert_None by apply lookup_delete_eq.
  enough (0 ≤ msum f (delete k m)) by lia. apply msum_nonneg.
  intros k' v' Hk'. apply Hf. by apply lookup_delete_Some in Hk' as [_ ?].
Qed.
End msum_lemmas.

Lemma lsum_app {A} (f : A → Z) l1 l2 : lsum f (l1 ++ l2) = lsum f l1 + lsum f l2.
Proof. induction l1; cbn; lia. Qed.

Lemma filter_all {A} (P : A → Prop) `{∀ x, Decision (P x)} l : Forall P l → filter P l = l.
Proof. induction 1 as [|x l Hx _ IH]; [done|]. rewrite filter_cons_True by done. by rewrite IH. Qed.
Lemma lsum_const {A} c (l : list A) : lsum (λ _, c) l = c * Z.of_nat (length l).
Proof. induction l; cbn; lia. Qed.

Lemma msum_list_to_map {K V} `{Countable K} (f : K → V → Z) (l : list (K * V)) :
  NoDup l.*1 → msum f (list_to_map l) = lsum (λ kv, f kv.1 kv.2) l.
Proof.
  induction l as [|[k v] l IH]; cbn; intros Hnd; [apply msum_empty|].
  apply NoDup_cons in Hnd as [Hk Hnd]. rewrite msum_insert_None; [by rewrite IH|].
  by apply not_elem_of_list_to_map.
Qed.

(** A loop whose iterations touch distinct keys: at the key of [x] the state
    goes from [w] to [g x w], every other key keeps its value, and the frame [F]
    holds between the first and the last state. *)
Section pointwise_loops.
Context {S A W : Type} (key : A → Z) (view : S → Z → W) (g : A → W → W) (F : S → S → Prop).

Definition touches (s : S) (x : A) (s' : S) : Prop :=
view s' (key x) = g x (view s (key x)) ∧ (∀ k, k ≠ key x → view s' k = view s k) ∧ F s s'.

Lemma foldM_pointwise (f : S → A → result S) (pre : A → W → Prop) `{!PreOrder F} :
(∀ s x, pre x (view s (key x)) → ∃ s', f s x = Ok s' ∧ touches s x s') →
∀ l s, NoDup (key <$> l) → (∀ x, x ∈ l → pre x (view s (key x))) →
∃ s', foldM f s l = Ok s' ∧ F s s' ∧
  (∀ x, x ∈ l → view s' (key x) = g x (view s (key x))) ∧
  (∀ k, k ∉ key <$> l → view s' k = view s k).
Proof.
intros Hf l. induction l as [|x l IH]; intros s Hnd Hpre.
{ exists s. split; [done|]. split; [reflexivity|]. split; [by intros x Hx%elem_of_nil|done]. }
apply NoDup_cons in Hnd as [Hx Hnd].
destruct (Hf s x) as (s1 & Hs1 & Hk & Ho & HF); [apply Hpre; set_solver|].
assert (Hne : ∀ y, y ∈ l → key y ≠ key x).
{ intros y Hy Heq. apply Hx. rewrite <-Heq. by apply list_elem_of_fmap_2. }
destruct (IH s1 Hnd) as (s2 & Hs2 & HF2 & Hin & Hout).
{ intros y Hy. rewrite Ho by auto. apply Hpre. set_solver. }
exists s2. cbn. rewrite Hs1. cbn. split; [done|]. split; [by etrans|]. split.
- intros y [->|Hy]%elem_of_cons; [rewrite Hout by done; done|].
  rewrite Hin, Ho by auto. done.
- intros k Hk'%not_elem_of_cons. destruct Hk'. rewrite Hout, Ho by done. done.
Qed.

Lemma foldl_pointwise (f : S → A → S) `{!PreOrder F} :
(∀ s x, touches s x (f s x)) →
∀ l s, NoDup (key <$> l) → F s (foldl f s l) ∧
  (∀ x, x ∈ l → view (foldl f s l) (key x) = g x (view s (key x))) ∧
  (∀ k, k ∉ key <$> l → view (foldl f s l) k = view s k).
Proof.
intros Hf l s Hnd.
destruct (foldM_pointwise (λ s x, Ok (f s x)) (λ _ _, True)) with (l := l) (s := s)
  as (s' & Hs' & H); [by eauto|done|done|].
enough (s' = foldl f s l) as <- by done. clear -Hs'. revert s Hs'.
induction l as [|x l IH]; cbn; intros s H; [congruence|by apply IH].
Qed.
End pointwise_loops.

Create HintDb chain.
#[export] Hint Resolve msum_empty : chain.
