(* ===== verification/Safe.v ===== *)
(** * Machine integers

    [share_type] is [fc::safe<int64_t>]: a 64-bit signed integer whose
    operators throw instead of wrapping.  Percentages are taken in
    [fc::uint128].  Plain C++ unsigned fields wrap modulo their width. *)
From S2P Require Import Prelude.

(** ** Widths *)
Definition int64_max : Z := 9223372036854775807.
Definition int64_min : Z := -9223372036854775808.
Definition uint128_mod : Z := 340282366920938463463374607431768211456.
Definition uint64_mod : Z := 18446744073709551616.

Definition u8 (z : Z) : Z := z `mod` 256.
Definition u16 (z : Z) : Z := z `mod` 65536.
Definition u32 (z : Z) : Z := z `mod` 4294967296.
Definition u64 (z : Z) : Z := z `mod` uint64_mod.

(** Conversion of any integer to [int64_t] (two's complement). *)
Definition to_int64 (z : Z) : Z := (z + 9223372036854775808) `mod` uint64_mod - 9223372036854775808.

Definition in_int64 (z : Z) : Prop := int64_min ≤ z ≤ int64_max.
#[export] Instance in_int64_dec z : Decision (in_int64 z).
Proof. unfold in_int64. apply _. Defined.

(** ** fc::safe<int64_t> *)
Definition safe_add (a b : Z) : result Z :=
  if (0 <? b) && (int64_max - b <? a) then Err overflow_exception
  else if (b <? 0) && (a <? int64_min - b) then Err underflow_exception
  else Ok (a + b).

Definition safe_sub (a b : Z) : result Z :=
  if (0 <? b) && (a <? int64_min + b) then Err underflow_exception
  else if (b <? 0) && (int64_max + b <? a) then Err overflow_exception
  else Ok (a - b).

Definition safe_mul (a b : Z) : result Z :=
  if 0 <? a then
    if 0 <? b then
      if int64_max `quot` b <? a then Err overflow_exception else Ok (a * b)
    else
      if b <? int64_min `quot` a then Err underflow_exception else Ok (a * b)
  else
    if 0 <? b then
      if a <? int64_min `quot` b then Err underflow_exception else Ok (a * b)
    else
      if negb (a =? 0) && (b <? int64_max `quot` a) then Err overflow_exception else Ok (a * b).

Definition safe_div (a b : Z) : result Z :=
  if b =? 0 then Err divide_by_zero_exception
  else if (a =? int64_min) && (b =? -1) then Err overflow_exception
  else Ok (a `quot` b).

Definition safe_mod (a b : Z) : result Z :=
  if b =? 0 then Err divide_by_zero_exception
  else if (a =? int64_min) && (b =? -1) then Err overflow_exception
  else Ok (a `rem` b).

Definition safe_neg (a : Z) : result Z :=
  if a =? int64_min then Err overflow_exception else Ok (- a).

(** ** fc::uint128 *)

(** [uint128( int64_t )] sign-extends. *)
Definition uint128_of_int64 (z : Z) : Z := z `mod` uint128_mod.
Definition uint128_mul (a b : Z) : Z := (a * b) `mod` uint128_mod.
Definition uint128_add (a b : Z) : Z := (a + b) `mod` uint128_mod.
Definition uint128_sub (a b : Z) : Z := (a - b) `mod` uint128_mod.
Definition to_uint64 (r : Z) : result Z :=
  if r <? uint64_mod then Ok r else Err assert_exception.

Definition GRAPHENE_100_PERCENT : Z := 10000.
Definition GRAPHENE_1_PERCENT : Z := 100.
Definition GRAPHENE_BLOCKCHAIN_PRECISION : Z := 100000.
Definition GRAPHENE_MAX_SHARE_SUPPLY : Z := 1000000000000000.

(** [p] hundredths of a percent of [a], rounded down: the body shared by
    [cut_fee] and its copies in the evaluators. *)
Definition percent_of (a p : Z) : result Z :=
  if (a =? 0) || (p =? 0) then Ok 0
  else if p =? GRAPHENE_100_PERCENT then Ok a
  else
    r ← to_uint64 (uint128_mul (uint128_of_int64 a) p `div` GRAPHENE_100_PERCENT);
    Ok (to_int64 r).

(** ** fc::time_point_sec *)
Definition time_add (t s : Z) : Z := u32 (t + s).

#[global] Arguments safe_add : simpl never.
#[global] Arguments safe_sub : simpl never.
#[global] Arguments safe_mul : simpl never.
#[global] Arguments safe_neg : simpl never.
#[global] Arguments percent_of : simpl never.
#[global] Arguments to_int64 : simpl never.
#[global] Arguments u32 : simpl never.

(** ** Lemmas *)
Lemma u32_small z : 0 ≤ z < 4294967296 → u32 z = z.
Proof. apply Z.mod_small. Qed.

Lemma u64_small z : 0 ≤ z < uint64_mod → u64 z = z.
Proof. apply Z.mod_small. Qed.

Section safe.
Implicit Types a b c : Z.

Lemma safe_add_Ok a b c : safe_add a b = Ok c → c = a + b.
Proof. unfold safe_add. by repeat case_match; intros [=]. Qed.

Lemma safe_sub_Ok a b c : safe_sub a b = Ok c → c = a - b.
Proof. unfold safe_sub. by repeat case_match; intros [=]. Qed.

Lemma safe_mul_Ok a b c : safe_mul a b = Ok c → c = a * b.
Proof. unfold safe_mul. by repeat case_match; intros [=]. Qed.

Lemma safe_neg_Ok a c : safe_neg a = Ok c → c = - a.
Proof. unfold safe_neg. by repeat case_match; intros [=]. Qed.

Lemma safe_div_Ok a b c : safe_div a b = Ok c → c = a `quot` b ∧ b ≠ 0.
Proof.
  unfold safe_div. destruct (Z.eqb_spec b 0); [done|].
  by case_match; intros [= <-].
Qed.

Lemma safe_add_range a b :
  in_int64 a → in_int64 b → (in_int64 (a + b) ↔ safe_add a b = Ok (a + b)).
Proof.
  unfold in_int64, safe_add, int64_max, int64_min. intros ??.
  repeat case_match; propify; split; intros; try done; lia.
Qed.

Lemma safe_sub_range a b :
  in_int64 a → in_int64 b → (in_int64 (a - b) ↔ safe_sub a b = Ok (a - b)).
Proof.
  unfold in_int64, safe_sub, int64_max, int64_min. intros ??.
  repeat case_match; propify; split; intros; try done; lia.
Qed.

Lemma safe_add_in a b :
  in_int64 a → in_int64 b → in_int64 (a + b) → safe_add a b = Ok (a + b).
Proof. intros. by apply safe_add_range. Qed.

Lemma safe_sub_in a b :
  in_int64 a → in_int64 b → in_int64 (a - b) → safe_sub a b = Ok (a - b).
Proof. intros. by apply safe_sub_range. Qed.

Lemma safe_neg_range a : in_int64 a → (in_int64 (- a) ↔ safe_neg a = Ok (- a)).
Proof.
  unfold in_int64, safe_neg, int64_max, int64_min. intros ?.
  repeat case_match; propify; split; intros; try done; lia.
Qed.
End safe.

(** The C++ quotient truncates; on the ranges of the overflow tests it bounds
    the product exactly. *)
Lemma quot_pos_bound m a b : 0 < b → 0 ≤ m → (m `quot` b < a ↔ m < a * b).
Proof.
  intros Hb Hm. rewrite Z.quot_div_nonneg by lia.
  pose proof (Z.mod_pos_bound m b Hb). pose proof (Z.div_mod m b ltac:(lia)). nia.
Qed.

Lemma quot_neg_pos_bound m a b : 0 < b → m ≤ 0 → (a < m `quot` b ↔ a * b < m).
Proof.
  intros Hb Hm. replace m with (- (- m)) by lia.
  rewrite Z.quot_opp_l by lia. rewrite Z.quot_div_nonneg by lia.
  pose proof (Z.mod_pos_bound (- m) b Hb). pose proof (Z.div_mod (- m) b ltac:(lia)). nia.
Qed.

Lemma quot_pos_neg_bound m a b : a < 0 → 0 ≤ m → (b < m `quot` a ↔ m < a * b).
Proof.
  intros Ha Hm. replace a with (- (- a)) by lia.
  rewrite Z.quot_opp_r by lia. rewrite Z.quot_div_nonneg by lia.
  pose proof (Z.mod_pos_bound m (- a) ltac:(lia)). pose proof (Z.div_mod m (- a) ltac:(lia)). nia.
Qed.

Lemma safe_mul_exact a b :
  in_int64 a → in_int64 b →
  safe_mul a b = (if bool_decide (in_int64 (a * b)) then Ok (a * b)
                  else if 0 <? a * b then Err overflow_exception else Err underflow_exception).
Proof.
  unfold in_int64, safe_mul. intros Ha Hb.
  pose proof (quot_pos_bound int64_max a b) as H1.
  pose proof (quot_neg_pos_bound int64_min b a) as H2.
  pose proof (quot_neg_pos_bound int64_min a b) as H3.
  pose proof (quot_pos_neg_bound int64_max a b) as H4.
  unfold int64_max, int64_min in *.
  destruct (Z.ltb_spec 0 a); destruct (Z.ltb_spec 0 b);
    repeat case_match; propify; try done; exfalso; nia.
Qed.

Section percent.
Implicit Types a p r : Z.

Lemma to_int64_id z : in_int64 z → to_int64 z = z.
Proof. unfold to_int64, in_int64, int64_max, int64_min, uint64_mod. intros. rewrite Z.mod_small; lia. Qed.

(** Percentages above a hundred are exact while the result is an amount. *)
Lemma percent_of_exact a p :
  0 ≤ a ≤ int64_max → 0 ≤ p → (a * p) `div` GRAPHENE_100_PERCENT ≤ int64_max →
  percent_of a p = Ok ((a * p) `div` GRAPHENE_100_PERCENT).
Proof.
  unfold percent_of, int64_max, GRAPHENE_100_PERCENT. intros Ha Hp Hr.
  destruct (Z.eqb_spec a 0) as [->|]; [done|].
  destruct (Z.eqb_spec p 0) as [->|]; cbn [orb]; [by rewrite Z.mul_0_r|].
  destruct (Z.eqb_spec p 10000) as [->|]; [by rewrite Z.div_mul|].
  pose proof (Z.mod_pos_bound (a * p) 10000 ltac:(lia)).
  pose proof (Z.div_mod (a * p) 10000 ltac:(lia)).
  unfold uint128_mul, uint128_of_int64, to_uint64, uint128_mod, uint64_mod.
  rewrite (Z.mod_small a) by lia. rewrite (Z.mod_small (a * p)) by nia.
  assert (0 ≤ (a * p) `div` 10000) by (apply Z.div_pos; nia).
  destruct (Z.ltb_spec ((a * p) `div` 10000) 18446744073709551616); [cbn|lia].
  f_equal. apply to_int64_id. unfold in_int64, int64_max, int64_min. lia.
Qed.

Lemma percent_of_nonneg a p :
  0 ≤ a ≤ int64_max → 0 ≤ p ≤ GRAPHENE_100_PERCENT →
  percent_of a p = Ok ((a * p) `div` GRAPHENE_100_PERCENT).
Proof.
  intros Ha Hp. apply percent_of_exact; [done|lia|]. unfold GRAPHENE_100_PERCENT in *.
  apply Z.div_le_upper_bound; nia.
Qed.

Lemma percent_of_Ok_bound a p r :
  0 ≤ a ≤ int64_max → 0 ≤ p ≤ GRAPHENE_100_PERCENT → percent_of a p = Ok r →
  0 ≤ r ≤ a ∧ GRAPHENE_100_PERCENT * r ≤ a * p < GRAPHENE_100_PERCENT * (r + 1).
Proof.
  intros Ha Hp. rewrite percent_of_nonneg by done. intros [= <-].
  unfold GRAPHENE_100_PERCENT in *.
  pose proof (Z.mod_pos_bound (a * p) 10000 ltac:(lia)).
  pose proof (Z.div_mod (a * p) 10000 ltac:(lia)).
  nia.
Qed.

(** A negative amount is rejected, whatever the percentage taken. *)
Lemma percent_of_negative a p :
  int64_min ≤ a < 0 → 0 < p < GRAPHENE_100_PERCENT → percent_of a p = Err assert_exception.
Proof.
  unfold percent_of, GRAPHENE_100_PERCENT, int64_min. intros Ha Hp.
  destruct (Z.eqb_spec a 0); [lia|]. destruct (Z.eqb_spec p 0); [lia|]. cbn [orb].
  destruct (Z.eqb_spec p 10000); [lia|].
  unfold uint128_mul, uint128_of_int64, to_uint64.
  replace ((a `mod` uint128_mod * p) `mod` uint128_mod) with (uint128_mod + a * p).
  - unfold uint128_mod, uint64_mod.
    destruct (Z.ltb_spec ((340282366920938463463374607431768211456 + a * p) `div` 10000)
                18446744073709551616) as [Hlt|]; [|done].
    exfalso.
    pose proof (Z.mod_pos_bound (340282366920938463463374607431768211456 + a * p) 10000 ltac:(lia)).
    pose proof (Z.div_mod (340282366920938463463374607431768211456 + a * p) 10000 ltac:(lia)). nia.
  - rewrite Zmult_mod_idemp_l. unfold uint128_mod.
    rewrite <-(Z.mod_add (a * p) 1) by lia. rewrite Z.mod_small; nia.
Qed.
End percent.

#[export] Hint Resolve safe_add_Ok safe_sub_Ok safe_mul_Ok safe_neg_Ok : chain.

(** Inversion of checked arithmetic: replaces results by exact values. *)
Ltac inv_safe :=
  repeat match goal with
  | H : safe_add _ _ = Ok _ |- _ => apply safe_add_Ok in H; try subst
  | H : safe_sub _ _ = Ok _ |- _ => apply safe_sub_Ok in H; try subst
  | H : safe_mul _ _ = Ok _ |- _ => apply safe_mul_Ok in H; try subst
  | H : safe_neg _ = Ok _ |- _ => apply safe_neg_Ok in H; try subst
  end.

(** Goals [in_int64 _] by linear arithmetic. *)
Ltac solve_int64 := unfold in_int64, int64_max, int64_min in *; lia.

(** ** Termination

    A loop that would go on throws [out_of_fuel]; no operation on integers does. *)
Definition terminates {A} (m : result A) : Prop := m ≠ Err out_of_fuel.

Lemma terminates_bind {A B} (m : result A) (k : A → result B) :
  terminates m → (∀ a, m = Ok a → terminates (k a)) → terminates (m ≫= k).
Proof. unfold terminates. destruct m as [a|e]; cbn; [auto|congruence]. Qed.

Lemma terminates_fmap {A B} (f : A → B) (m : result A) : terminates m → terminates (f <$> m).
Proof. unfold terminates. destruct m; cbn; congruence. Qed.

Create HintDb terminates.
Ltac terminates_step :=
  match goal with
  | |- terminates (_ ≫= _) => apply terminates_bind; [|intros ? ?]
  | |- terminates (_ <$> _) => apply terminates_fmap
  | |- terminates (Ok _) => discriminate
  | |- terminates (Err _) => discriminate
  | |- terminates (let '(_, _) := ?x in _) => destruct x
  | |- terminates (if ?b then _ else _) => destruct b eqn:?
  | |- terminates (match ?o with _ => _ end) => destruct o
  | |- terminates _ => solve [auto with terminates]
  end.
Ltac solve_terminates := repeat (cbn beta iota; terminates_step).

Lemma terminates_option {A} e (o : option A) : e ≠ out_of_fuel → terminates (from_option_exn e o).
Proof. intros H. destruct o; cbn; unfold terminates; congruence. Qed.
Lemma terminates_assert b : terminates (FC_ASSERT b).
Proof. by destruct b. Qed.
Lemma terminates_safe_add a b : terminates (safe_add a b).
Proof. unfold safe_add, terminates. by repeat case_match. Qed.
Lemma terminates_safe_sub a b : terminates (safe_sub a b).
Proof. unfold safe_sub, terminates. by repeat case_match. Qed.
Lemma terminates_safe_neg a : terminates (safe_neg a).
Proof. unfold safe_neg, terminates. by case_match. Qed.
Lemma terminates_safe_mul a b : terminates (safe_mul a b).
Proof. unfold safe_mul, terminates. by repeat case_match. Qed.
#[export] Hint Resolve terminates_option terminates_assert terminates_safe_add terminates_safe_sub
  terminates_safe_neg terminates_safe_mul : terminates.
#[export] Hint Extern 0 (_ ≠ out_of_fuel) => discriminate : terminates.
Lemma terminates_while {S R} (body : S → result (S + R)) (P : S → Prop) n s :
  (∀ s, P s → terminates (body s) ∧ ∀ s', body s = Ok (inl s') → P s') → P s → terminates (while_loop n body s).
Proof.
  intros Hb Hs. assert (terminates (while_loop n body s) ∧ ∀ s', while_loop n body s = Ok (inl s') → P s') as [? _]; [|done].
  revert s Hs. induction n as [|n IH]; intros s Hs; [by apply Hb|].
  change (while_loop (Datatypes.S n) body s) with (r ← while_loop n body s; match r with inl s => while_loop n body s | inr x => Ok (inr x) end).
  destruct (IH s Hs) as [T HP]. split.
  - apply terminates_bind; [done|]. intros [s1|x] H; [|discriminate]. by apply IH, HP.
  - intros s' H. apply bind_Ok in H as ([s1|x] & H1 & H); [|done]. by apply (IH s1 (HP _ H1)).
Qed.
