(* ===== verification/Popcount.v ===== *)
(** * The number of bits of a 128-bit integer

    [uint128::popcount] ([fc/src/uint128.cpp]) adds neighbouring fields of 1, 2,
    4, ... bits in parallel; it measures how many of the last 128 slots were
    filled. *)
From S2P Require Import Prelude Safe.

Definition popcount_masks : list Z :=
  [6148914691236517205; 3689348814741910323; 1085102592571150095; 71777214294589695; 281470681808895; 4294967295].

(** One round adds the neighbouring fields of [w] bits. *)
Definition popcount_round (w x m : Z) : Z := u64 (Z.land x m + Z.land (Z.shiftr x w) m).
Fixpoint popcount_rounds (w : Z) (masks : list Z) (x : Z) : Z :=
  match masks with
  | [] => x
  | m :: masks => popcount_rounds (w + w) masks (popcount_round w x m)
  end.
Definition popcount_64 (x : Z) : Z := popcount_rounds 1 popcount_masks x `mod` 256.
Definition popcount (x : Z) : Z := (popcount_64 (u64 x) + popcount_64 (Z.shiftr x 64)) `mod` 256.

(** The lowest [n] bits, the lowest first. *)
Fixpoint bits (n : nat) (x : Z) : list Z := match n with O => [] | S n => Z.b2z (Z.odd x) :: bits n (Z.div2 x) end.

(** ** Lemmas *)
Section popcount_lemmas.
(** The value of a list of digits, and every second digit of a list. *)
Fixpoint digits (B : Z) (l : list Z) : Z := match l with [] => 0 | d :: l => d + B * digits B l end.
Fixpoint evens (l : list Z) : list Z := match l with x :: _ :: l => x :: evens l | _ => l end.
(** The sums of neighbouring digits. *)
Fixpoint pairs (l : list Z) : list Z := match l with x :: y :: l => x + y :: pairs l | _ => l end.

Lemma land_split n a b c e :
  0 ≤ n → 0 ≤ a < 2 ^ n → 0 ≤ c < 2 ^ n →
  Z.land (a + 2 ^ n * b) (c + 2 ^ n * e) = Z.land a c + 2 ^ n * Z.land b e.
Proof.
  intros Hn Ha Hc. set (u := a + _). set (v := c + _).
  assert (∀ p q, 0 ≤ p < 2 ^ n → (p + 2 ^ n * q) `mod` 2 ^ n = p ∧ Z.shiftr (p + 2 ^ n * q) n = q) as E.
  { intros p q Hp. rewrite Z.shiftr_div_pow2, (Z.mul_comm (2 ^ n) q) by lia. split.
    - by rewrite Z.mod_add, Z.mod_small by lia.
    - by rewrite Z.div_add, Z.div_small by lia. }
  destruct (E a b Ha) as [Ma Sa]. destruct (E c e Hc) as [Mc Sc]. fold u in Ma, Sa. fold v in Mc, Sc.
  rewrite (Z.div_mod (Z.land u v) (2 ^ n)) by lia.
  rewrite <-(Z.shiftr_div_pow2 (Z.land u v)), Z.shiftr_land, Sa, Sc by lia.
  rewrite <-(Z.land_ones (Z.land u v)) by lia.
  replace (Z.land (Z.land u v) (Z.ones n)) with (Z.land (Z.land u (Z.ones n)) (Z.land v (Z.ones n))).
  - rewrite !Z.land_ones, Ma, Mc by lia. lia.
  - apply Z.bits_inj'. intros k Hk. rewrite !Z.land_spec. by destruct (Z.testbit u k), (Z.testbit v k), (Z.testbit (Z.ones n) k).
Qed.

Lemma digits_bounds B l : 0 < B → Forall (λ d, 0 ≤ d < B) l → 0 ≤ digits B l < B ^ Z.of_nat (length l).
Proof.
  intros HB Hl. induction Hl as [|d l Hd _ IH]; cbn [digits length]; [cbn; lia|].
  rewrite Nat2Z.inj_succ, Z.pow_succ_r by lia. nia.
Qed.

(** A mask of alternating fields keeps every second digit. *)
Lemma land_evens w k l :
  0 < w → Forall (λ d, 0 ≤ d < 2 ^ w) l → (length l ≤ 2 * k)%nat →
  Z.land (digits (2 ^ w) l) (digits (2 ^ (w + w)) (replicate k (2 ^ w - 1))) = digits (2 ^ (w + w)) (evens l).
Proof.
  intros Hw. assert (0 < 2 ^ w) as HB by lia. revert l. induction k as [|k IH]; intros l Hl Hk.
  { destruct l; [done|cbn in Hk; lia]. }
  assert (2 ^ w ≤ 2 ^ (w + w)) as HBB by (apply Z.pow_le_mono_r; lia).
  assert (∀ x y, 0 ≤ x < 2 ^ w → Z.land (x + 2 ^ w * y) (2 ^ w - 1) = x) as Hlow.
  { intros x y Hx. replace (2 ^ w - 1) with (Z.ones w) by (rewrite Z.ones_equiv; lia).
    by rewrite Z.land_ones, Z.mul_comm, Z.mod_add, Z.mod_small by lia. }
  destruct l as [|x [|y l]]; cbn [replicate digits evens].
  - by rewrite Z.land_0_l.
  - apply Forall_cons in Hl as [Hx _]. replace (x + 2 ^ w * 0) with (x + 2 ^ (w + w) * 0) by lia.
    rewrite land_split by lia. rewrite Z.land_0_l. pose proof (Hlow x 0 Hx) as E. rewrite Z.mul_0_r, Z.add_0_r in E. lia.
  - apply Forall_cons in Hl as [Hx Hl]. apply Forall_cons in Hl as [Hy Hl].
    replace (x + 2 ^ w * (y + 2 ^ w * digits (2 ^ w) l)) with (x + 2 ^ w * y + 2 ^ (w + w) * digits (2 ^ w) l)
      by (rewrite Z.pow_add_r by lia; lia).
    rewrite land_split, Hlow, IH by (try done; rewrite ?Z.pow_add_r by lia; cbn in Hk; nia). done.
Qed.

Lemma shiftr_digits w x l : 0 < w → 0 ≤ x < 2 ^ w → Z.shiftr (digits (2 ^ w) (x :: l)) w = digits (2 ^ w) l.
Proof.
  intros Hw Hx. cbn [digits]. rewrite Z.shiftr_div_pow2, Z.mul_comm, Z.div_add, Z.div_small by lia. lia.
Qed.

Lemma digits_pairs B l : Nat.Even (length l) → digits B (evens l) + digits B (evens (tail l)) = digits B (pairs l) ∧ lsum id (pairs l) = lsum id l.
Proof.
  induction l as [l IH] using (induction_ltof1 _ length); unfold ltof in IH. destruct l as [|x [|y l]]; intros He; cbn.
  - done.
  - destruct He as [m Hm]. cbn in Hm. lia.
  - destruct (IH l) as [H1 H2]; [cbn; lia|destruct He as [m Hm]; exists (m - 1)%nat; cbn in Hm; lia|].
    unfold id in *. destruct l as [|z l]; cbn in *; lia.
Qed.

Lemma pairs_bounds w l : 0 < w → Forall (λ d, 0 ≤ d < 2 ^ w) l → Nat.Even (length l) → Forall (λ d, 0 ≤ d < 2 ^ (w + w)) (pairs l).
Proof.
  intros Hw. assert (2 ≤ 2 ^ w) by (change 2 with (2 ^ 1) at 1; apply Z.pow_le_mono_r; lia).
  induction l as [l IH] using (induction_ltof1 _ length); unfold ltof in IH. destruct l as [|x [|y l]]; intros Hl He; cbn.
  - constructor.
  - destruct He as [m Hm]. cbn in Hm. lia.
  - apply Forall_cons in Hl as [Hx Hl]. apply Forall_cons in Hl as [Hy Hl]. constructor.
    + rewrite Z.pow_add_r by lia. nia.
    + apply IH; [cbn; lia|done|]. destruct He as [m Hm]. exists (m - 1)%nat. cbn in Hm. lia.
Qed.

(** One round: the fields double, and the sum of the digits stays. *)
Lemma popcount_round_digits w k l :
  0 < w → Forall (λ d, 0 ≤ d < 2 ^ w) l → length l = (2 * k)%nat → (w + w) * Z.of_nat k = 64 →
  popcount_round w (digits (2 ^ w) l) (digits (2 ^ (w + w)) (replicate k (2 ^ w - 1))) = digits (2 ^ (w + w)) (pairs l).
Proof.
  intros Hw Hl Hk H64. unfold popcount_round. rewrite land_evens by (try done; lia).
  assert (Z.shiftr (digits (2 ^ w) l) w = digits (2 ^ w) (tail l)) as ->.
  { destruct l as [|x l]; [by rewrite Z.shiftr_0_l|]. apply Forall_cons in Hl as [? _]. by apply shiftr_digits. }
  rewrite land_evens; [|done| |].
  - assert (Nat.Even (length l)) as He by (exists k; lia). rewrite (proj1 (digits_pairs _ _ He)). apply u64_small.
    destruct (digits_bounds (2 ^ (w + w)) (pairs l)) as [H0 H1]; [lia|by apply pairs_bounds|]. split; [done|].
    assert (length (pairs l) = k) as Hlen.
    { clear -Hk. revert l Hk. induction k as [|k IH]; intros [|x [|y l]] Hk; cbn in *; try lia. f_equal. apply IH. lia. }
    rewrite Hlen, <-Z.pow_mul_r, H64 in H1 by lia. exact H1.
  - destruct l; [done|]. by apply Forall_cons in Hl as [_ ?].
  - destruct l; cbn in *; lia.
Qed.

Lemma pairs_length k l : length l = (2 * k)%nat → length (pairs l) = k.
Proof. revert l. induction k as [|k IH]; intros [|x [|y l]] Hk; cbn in *; try lia. f_equal. apply IH. lia. Qed.

(** The masks of the last [r] rounds, from fields of [w] bits on. *)
Fixpoint masks_from (w : Z) (r : nat) : list Z :=
  match r with O => [] | S r => digits (2 ^ (w + w)) (replicate (2 ^ r) (2 ^ w - 1)) :: masks_from (w + w) r end.

Lemma popcount_rounds_digits r w l :
  0 < w → Forall (λ d, 0 ≤ d < 2 ^ w) l → length l = (2 ^ r)%nat → w * Z.of_nat (2 ^ r) = 64 →
  popcount_rounds w (masks_from w r) (digits (2 ^ w) l) = lsum id l.
Proof.
  revert w l. induction r as [|r IH]; intros w l Hw Hl Hr H64; cbn [masks_from popcount_rounds].
  - destruct l as [|x [|y l]]; cbn in *; try lia.
  - rewrite Nat.pow_succ_r' in Hr, H64. assert (Nat.Even (length l)) as He by (eexists; exact Hr).
    rewrite popcount_round_digits by (try done; lia). rewrite IH.
    + exact (proj2 (digits_pairs 0 l He)).
    + lia.
    + by apply pairs_bounds.
    + by apply pairs_length.
    + lia.
Qed.

Lemma digits_bits n x : 0 ≤ x < 2 ^ Z.of_nat n → digits 2 (bits n x) = x.
Proof.
  revert x. induction n as [|n IH]; intros x Hx; cbn [bits digits]; [cbn in Hx; lia|].
  rewrite Nat2Z.inj_succ, Z.pow_succ_r in Hx by lia.
  pose proof (Z.div2_odd x). rewrite IH; [|rewrite Z.div2_div; split; [apply Z.div_pos; lia|apply Z.div_lt_upper_bound; lia]].
  rewrite Z.add_comm. unfold Z.b2z in *. lia.
Qed.
Lemma bits_range n x : Forall (λ d, 0 ≤ d < 2) (bits n x).
Proof. revert x. induction n as [|n IH]; intros x; cbn; constructor; [by destruct (Z.odd x)|done]. Qed.
Lemma bits_length n x : length (bits n x) = n.
Proof. revert x. induction n as [|n IH]; intros x; cbn; auto. Qed.
Lemma bits_sum n x : 0 ≤ lsum id (bits n x) ≤ Z.of_nat n.
Proof. revert x. induction n as [|n IH]; intros x; cbn [bits lsum]; [lia|]. specialize (IH (Z.div2 x)). change (id (Z.b2z (Z.odd x))) with (Z.b2z (Z.odd x)). destruct (Z.odd x); cbn [Z.b2z]; lia. Qed.

(** The parallel additions count the bits that are set. *)
Lemma popcount_64_bits x : 0 ≤ x < uint64_mod → popcount_64 x = lsum id (bits 64 x).
Proof.
  intros Hx. unfold popcount_64.
  assert (popcount_masks = masks_from 1 6) as -> by (vm_compute; reflexivity).
  rewrite <-(digits_bits 64 x) at 1 by exact Hx. change 2 with (2 ^ 1) at 1.
  rewrite popcount_rounds_digits; [|lia|apply bits_range|apply bits_length|reflexivity].
  apply Z.mod_small. pose proof (bits_sum 64 x). lia.
Qed.

Lemma bits_app n m x : bits (n + m) x = bits n x ++ bits m (Z.shiftr x (Z.of_nat n)).
Proof.
  revert x. induction n as [|n IH]; intros x; cbn [bits app Nat.add]; [by rewrite Z.shiftr_0_r|].
  f_equal. rewrite IH. f_equal. f_equal. rewrite Z.div2_spec, Z.shiftr_shiftr by lia. f_equal. lia.
Qed.
Lemma bits_mod n x : bits n (x `mod` 2 ^ Z.of_nat n) = bits n x.
Proof.
  revert x. induction n as [|n IH]; intros x; cbn [bits]; [done|].
  rewrite Nat2Z.inj_succ. f_equal.
  - f_equal. rewrite <-!Z.bit0_odd. apply Z.mod_pow2_bits_low. lia.
  - rewrite <-IH, <-(IH (Z.div2 x)). f_equal. apply Z.bits_inj'. intros k Hk.
    destruct (Z.lt_ge_cases k (Z.of_nat n)).
    + rewrite !Z.mod_pow2_bits_low, !Z.div2_spec, !Z.shiftr_spec by lia. apply Z.mod_pow2_bits_low. lia.
    + rewrite !Z.mod_pow2_bits_high by lia. done.
Qed.

Lemma popcount_bits x : 0 ≤ x < uint128_mod → popcount x = lsum id (bits 128 x).
Proof.
  intros Hx. unfold popcount. unfold uint128_mod in Hx.
  rewrite !popcount_64_bits.
  - change 128%nat with (64 + 64)%nat. rewrite bits_app, lsum_app. unfold u64. rewrite (bits_mod 64).
    change (Z.of_nat 64) with 64. apply Z.mod_small.
    pose proof (bits_sum 64 x). pose proof (bits_sum 64 (Z.shiftr x 64)). lia.
  - rewrite Z.shiftr_div_pow2 by lia. split; [apply Z.div_pos; lia|apply Z.div_lt_upper_bound; [lia|]]. exact (proj2 Hx).
  - apply Z.mod_pos_bound. unfold uint64_mod. lia.
Qed.

Lemma bits_testbit n x : bits n x = (λ i, Z.b2z (Z.testbit x (Z.of_nat i))) <$> seq 0 n.
Proof.
  revert x. induction n as [|n IH]; intros x; cbn [bits seq fmap list_fmap]; [done|].
  rewrite <-Z.bit0_odd. f_equal. rewrite IH, <-fmap_S_seq, <-list_fmap_compose. apply list_fmap_ext.
  intros i y _. cbn. rewrite Z.div2_spec, Z.shiftr_spec by lia. do 2 f_equal. lia.
Qed.
End popcount_lemmas.

(** ** Property *)

(** The parallel additions of [popcount] count the bits of any 128-bit
    integer that are set. *)
Theorem popcount_exact x (Hx : 0 ≤ x < uint128_mod) :
  popcount x = lsum (λ i, Z.b2z (Z.testbit x (Z.of_nat i))) (seq 0 128).
Proof.
  rewrite popcount_bits, bits_testbit by done. generalize (seq 0 128). intros l.
  induction l as [|i l IH]; cbn; [done|]. by rewrite IH.
Qed.

Lemma popcount_exact_witness :
  popcount (2 ^ 100 + 5) = 3 ∧
  popcount (2 ^ 100 + 5) = lsum (λ i, Z.b2z (Z.testbit (2 ^ 100 + 5) (Z.of_nat i))) (seq 0 128).
Proof. split; [vm_compute; reflexivity|]. apply (popcount_exact (2 ^ 100 + 5)). vm_compute. split; congruence. Defined.
