(* ===== verification/UndoDb.v ===== *)
(** * The undo database

    [libraries/db]: the tables of the object database with their observers, the
    log of undo states, and the sessions built on it.  An object is its content
    [V]; its identifier is the 64-bit number of [object_id_type] (space and type
    in the upper 16 bits, instance in the lower 48).  Iteration over an unordered
    container is iteration over the elements of a map or set; the theorems hold
    for every content, and the order is shown not to matter.

    The abstract specification is a stack of snapshots: opening a session saves
    the tables, undoing a session or popping a commit puts the last saved tables
    back, merging forgets the last saved tables. *)
From S2P Require Import Prelude Safe.

(** [object_id_type(space, type, 0)] of an identifier. *)
Definition index_id (id : Z) : Z := Z.shiftl (Z.shiftr id 48) 48.

Module undo_database.
Section undo_database.
Context {V : Type}.

Record object_tables : Type := Tables { t_objects : gmap Z V; t_next_ids : gmap Z Z }.

Record undo_state : Type := UndoState {
  old_values : gmap Z V; old_index_next_ids : gmap Z Z; new_ids : gset Z; removed : gmap Z V }.

(** [u_stack] lists the deque from its back to its front. *)
Record object_database : Type := ObjectDb {
  u_tables : object_tables; u_stack : list undo_state; u_active_sessions : Z; u_disabled : bool;
  u_max_size : nat }.

#[export] Instance eta_tables : Eta object_tables := λ x, Tables x.(t_objects) x.(t_next_ids).
#[export] Instance eta_undo_state : Eta undo_state := λ x,
  UndoState x.(old_values) x.(old_index_next_ids) x.(new_ids) x.(removed).
#[export] Instance eta_object_database : Eta object_database := λ x,
  ObjectDb x.(u_tables) x.(u_stack) x.(u_active_sessions) x.(u_disabled) x.(u_max_size).

Definition empty_state : undo_state := UndoState ∅ ∅ ∅ ∅.

Definition enable (d : object_database) : object_database := d <| u_disabled := false |>.
Definition disable (d : object_database) : object_database := d <| u_disabled := true |>.

(** *** Observers *)
Definition with_back (d : object_database) (f : undo_state → undo_state) : object_database :=
  if d.(u_disabled) then d else
  match d.(u_stack) with
  | [] => d <| u_stack := [f empty_state] |>
  | st :: sts => d <| u_stack := f st :: sts |>
  end.

Definition create_state (id : Z) (st : undo_state) : undo_state :=
  UndoState st.(old_values)
    match st.(old_index_next_ids) !! index_id id with
    | None => <[index_id id := id]> st.(old_index_next_ids)
    | Some _ => st.(old_index_next_ids)
    end
    ({[id]} ∪ st.(new_ids)) st.(removed).

Definition modify_state (id : Z) (v : V) (st : undo_state) : undo_state :=
  if decide (id ∈ st.(new_ids)) then st else
  match st.(old_values) !! id with
  | Some _ => st
  | None => st <| old_values := <[id := v]> st.(old_values) |>
  end.

Definition remove_state (id : Z) (v : V) (st : undo_state) : undo_state :=
  if decide (id ∈ st.(new_ids)) then st <| new_ids := st.(new_ids) ∖ {[id]} |> else
  match st.(old_values) !! id with
  | Some w => st <| removed := <[id := w]> st.(removed) |> <| old_values := delete id st.(old_values) |>
  | None =>
    match st.(removed) !! id with
    | Some _ => st
    | None => st <| removed := <[id := v]> st.(removed) |>
    end
  end.

Definition on_create (d : object_database) (id : Z) : object_database := with_back d (create_state id).
Definition on_modify (d : object_database) (id : Z) (v : V) : object_database := with_back d (modify_state id v).
Definition on_remove (d : object_database) (id : Z) (v : V) : object_database := with_back d (remove_state id v).

(** *** Tables *)
Definition get_object (d : object_database) (id : Z) : result V :=
  from_option_exn assert_exception (d.(u_tables).(t_objects) !! id).

Definition set_objects (d : object_database) (m : gmap Z V) : object_database :=
  d <| u_tables := d.(u_tables) <| t_objects := m |> |>.

Definition insert (d : object_database) (id : Z) (v : V) : result object_database :=
  _ ← from_option_exn assert_exception (d.(u_tables).(t_next_ids) !! index_id id);
  _ ← FC_ASSERT (bool_decide (d.(u_tables).(t_objects) !! id = None));
  Ok (on_create (set_objects d (<[id := v]> d.(u_tables).(t_objects))) id).

Definition create (d : object_database) (table : Z) (v : V) : result object_database :=
  id ← from_option_exn assert_exception (d.(u_tables).(t_next_ids) !! table);
  _ ← FC_ASSERT (bool_decide (d.(u_tables).(t_objects) !! id = None));
  Ok (on_create
      (d <| u_tables := Tables (<[id := v]> d.(u_tables).(t_objects))
                          (<[table := u64 (id + 1)]> d.(u_tables).(t_next_ids)) |>) id).

(** A lambda that throws has still changed the object: [f] gives the content the
    object is left with, whether or not the exception goes on. *)
Definition modify (d : object_database) (id : Z) (f : V → V) : result object_database :=
  v ← get_object d id;
  Ok (set_objects (on_modify d id v) (<[id := f v]> d.(u_tables).(t_objects))).

Definition remove (d : object_database) (id : Z) : result object_database :=
  v ← get_object d id;
  Ok (set_objects (on_remove d id v) (delete id d.(u_tables).(t_objects))).

Definition set_next_id (d : object_database) (table id : Z) : result object_database :=
  _ ← from_option_exn assert_exception (d.(u_tables).(t_next_ids) !! table);
  Ok (d <| u_tables := d.(u_tables) <| t_next_ids := <[table := id]> d.(u_tables).(t_next_ids) |> |>).

(** *** Sessions *)
Record session : Type := Session { apply_undo : bool; disable_on_exit : bool }.

Definition start_undo_session (d : object_database) (force_enable : bool) : session * object_database :=
  if d.(u_disabled) && negb force_enable then (Session true false, d) else
  let d1 := if force_enable then enable d else d in
  (Session true (d.(u_disabled) && force_enable),
   d1 <| u_stack := empty_state :: take d.(u_max_size) d.(u_stack) |>
      <| u_active_sessions := u32 (d.(u_active_sessions) + 1) |>).

(** The loops that [undo] and [pop_commit] share. *)
Definition restore (d : object_database) (st : undo_state) : result object_database :=
  d ← foldM (λ d '(id, v), modify d id (λ _, v)) d (map_to_list st.(old_values));
  d ← foldM (λ d id, remove d id) d (elements st.(new_ids));
  d ← foldM (λ d '(table, id), set_next_id d table id) d (map_to_list st.(old_index_next_ids));
  foldM (λ d '(id, v), insert d id v) d (map_to_list st.(removed)).

Definition undo (d : object_database) : result object_database :=
  _ ← FC_ASSERT (negb d.(u_disabled));
  _ ← FC_ASSERT (0 <? d.(u_active_sessions));
  match d.(u_stack) with
  | [] => Err undo_database_exception
  | st :: sts =>
    d' ← restore (disable d) st;
    Ok (enable (d' <| u_stack := sts |>) <| u_active_sessions := d.(u_active_sessions) - 1 |>)
  end.

Definition merge_old_value (prev : undo_state) (x : Z * V) : undo_state :=
  let '(id, v) := x in
  if decide (id ∈ prev.(new_ids)) then prev else
  match prev.(old_values) !! id with
  | Some _ => prev
  | None => prev <| old_values := <[id := v]> prev.(old_values) |>
  end.

Definition merge_new_id (prev : undo_state) (id : Z) : undo_state :=
  prev <| new_ids := {[id]} ∪ prev.(new_ids) |>.

Definition merge_next_id (prev : undo_state) (x : Z * Z) : undo_state :=
  let '(table, id) := x in
  match prev.(old_index_next_ids) !! table with
  | None => prev <| old_index_next_ids := <[table := id]> prev.(old_index_next_ids) |>
  | Some _ => prev
  end.

Definition merge_removed (prev : undo_state) (x : Z * V) : undo_state :=
  let '(id, v) := x in
  if decide (id ∈ prev.(new_ids)) then prev <| new_ids := prev.(new_ids) ∖ {[id]} |> else
  match prev.(old_values) !! id with
  | Some w => prev <| removed := <[id := w]> prev.(removed) |> <| old_values := delete id prev.(old_values) |>
  | None => prev <| removed := <[id := v]> prev.(removed) |>
  end.

Definition merge_states (prev st : undo_state) : undo_state :=
  let p1 := foldl merge_old_value prev (map_to_list st.(old_values)) in
  let p2 := foldl merge_new_id p1 (elements st.(new_ids)) in
  let p3 := foldl merge_next_id p2 (map_to_list st.(old_index_next_ids)) in
  foldl merge_removed p3 (map_to_list st.(removed)).

Definition merge (d : object_database) : result object_database :=
  _ ← FC_ASSERT (0 <? d.(u_active_sessions));
  let less := d <| u_active_sessions := d.(u_active_sessions) - 1 |> in
  match d.(u_stack) with
  | [_] => if d.(u_active_sessions) =? 1 then Ok (less <| u_stack := [] |>) else Err assert_exception
  | st :: prev :: sts => Ok (less <| u_stack := merge_states prev st :: sts |>)
  | [] => Err assert_exception
  end.

Definition commit (d : object_database) : result object_database :=
  _ ← FC_ASSERT (0 <? d.(u_active_sessions));
  Ok (d <| u_active_sessions := d.(u_active_sessions) - 1 |>).

Definition pop_commit (d : object_database) : result object_database :=
  _ ← FC_ASSERT (d.(u_active_sessions) =? 0);
  match d.(u_stack) with
  | [] => Err assert_exception
  | st :: sts => d' ← restore (disable d) st; Ok (enable (d' <| u_stack := sts |>))
  end.

(** *** The handle a caller holds: its methods and its destructor *)
Definition session_commit (s : session) (d : object_database) : result (session * object_database) :=
  d' ← commit d; Ok (Session false s.(disable_on_exit), d').

Definition session_undo (s : session) (d : object_database) : result (session * object_database) :=
  d' ← (if s.(apply_undo) then undo d else Ok d); Ok (Session false s.(disable_on_exit), d').

Definition session_merge (s : session) (d : object_database) : result (session * object_database) :=
  d' ← (if s.(apply_undo) then merge d else Ok d); Ok (Session false s.(disable_on_exit), d').

Definition session_end (s : session) (d : object_database) : result object_database :=
  d' ← (if s.(apply_undo) then undo d else Ok d);
  Ok (if s.(disable_on_exit) then disable d' else d').

(** ** The specification: a stack of snapshots *)
Record snapshots : Type := Snapshots {
  s_current : object_tables; s_saved : list object_tables; s_sessions : Z; s_max : nat }.

Inductive command : Type :=
  | Create (table : Z) (v : V) | Modify (id : Z) (v : V) | Remove (id : Z)
  | Start | Undo | Merge | Commit | PopCommit.

Definition exec (d : object_database) (c : command) : result object_database :=
  match c with
  | Create table v => create d table v
  | Modify id v => modify d id (λ _, v)
  | Remove id => remove d id
  | Start => Ok (start_undo_session d false).2
  | Undo => undo d
  | Merge => merge d
  | Commit => commit d
  | PopCommit => pop_commit d
  end.

(** A change outside any session is recorded against the tables it found. *)
Definition change_to (s : snapshots) (t : object_tables) : snapshots :=
  Snapshots t (match s.(s_saved) with [] => [s.(s_current)] | l => l end) s.(s_sessions) s.(s_max).

Definition spec_exec (s : snapshots) (c : command) : option snapshots :=
  let '(Snapshots (Tables objects next) saved n max) := s in
  match c with
  | Create table v =>
    id ← next !! table;
    if decide (objects !! id = None)
    then Some (change_to s (Tables (<[id := v]> objects) (<[table := u64 (id + 1)]> next))) else None
  | Modify id v => _ ← objects !! id; Some (change_to s (Tables (<[id := v]> objects) next))
  | Remove id => _ ← objects !! id; Some (change_to s (Tables (delete id objects) next))
  | Start => Some (Snapshots (Tables objects next) (Tables objects next :: take max saved) (u32 (n + 1)) max)
  | Undo =>
    match saved with
    | old :: l => if decide (0 < n) then Some (Snapshots old l (n - 1) max) else None
    | [] => None
    end
  | Merge =>
    match saved with
    | [_] => if decide (n = 1) then Some (Snapshots (Tables objects next) [] (n - 1) max) else None
    | _ :: l => if decide (0 < n) then Some (Snapshots (Tables objects next) l (n - 1) max) else None
    | [] => None
    end
  | Commit => if decide (0 < n) then Some (Snapshots (Tables objects next) saved (n - 1) max) else None
  | PopCommit =>
    match saved with
    | old :: l => if decide (n = 0) then Some (Snapshots old l n max) else None
    | [] => None
    end
  end.

(** ** What an undo state records

    The relation of an object to a state, as the comment of [merge] has it. *)
Inductive change : Type := Nop | New | Upd (v : V) | Del (v : V).

Definition holds (st : undo_state) (id : Z) (c : change) : Prop :=
  match c with
  | Nop => (id ∉ st.(new_ids)) ∧ st.(old_values) !! id = None ∧ st.(removed) !! id = None
  | New => id ∈ st.(new_ids) ∧ st.(old_values) !! id = None ∧ st.(removed) !! id = None
  | Upd v => (id ∉ st.(new_ids)) ∧ st.(old_values) !! id = Some v ∧ st.(removed) !! id = None
  | Del v => (id ∉ st.(new_ids)) ∧ st.(old_values) !! id = None ∧ st.(removed) !! id = Some v
  end.

(** The entry of the merged state, from the 4x4 matrix of the comment; the
    combinations it calls N/A have no entry. *)
Definition compose (a b : change) : option change :=
  match a, b with
  | New, New => None
  | New, Upd _ => Some New
  | New, Del _ => Some Nop
  | New, Nop => Some New
  | Upd _, New => None
  | Upd x, Upd _ => Some (Upd x)
  | Upd x, Del _ => Some (Del x)
  | Upd x, Nop => Some (Upd x)
  | Del x, Nop => Some (Del x)
  | Del _, _ => None
  | Nop, b => Some b
  end.

(** [c] is what happened to an object between an old and a current content. *)
Definition explains (c : change) (old cur : option V) : Prop :=
  match c with
  | Nop => cur = old
  | New => old = None ∧ is_Some cur
  | Upd v => old = Some v ∧ is_Some cur
  | Del v => old = Some v ∧ cur = None
  end.

Record records (old cur : object_tables) (st : undo_state) : Prop := {
  rec_objects : ∀ id, ∃ c, holds st id c ∧ explains c (old.(t_objects) !! id) (cur.(t_objects) !! id);
  rec_fresh : ∀ id n, id ∈ st.(new_ids) → old.(t_next_ids) !! index_id id = Some n → n ≤ id;
  rec_next_ids : ∀ table, match st.(old_index_next_ids) !! table with
    | Some n => old.(t_next_ids) !! table = Some n ∧ is_Some (cur.(t_next_ids) !! table)
    | None => cur.(t_next_ids) !! table = old.(t_next_ids) !! table
    end }.

(** Identifiers are given out in increasing order, each table within its own. *)
Record ids_ok (t : object_tables) : Prop := {
  ids_next : ∀ table n, t.(t_next_ids) !! table = Some n → index_id n = table;
  ids_used : ∀ id, is_Some (t.(t_objects) !! id) →
    ∃ n, t.(t_next_ids) !! index_id id = Some n ∧ id < n }.

Definition ids_le (t t' : object_tables) : Prop :=
  ∀ table n, t.(t_next_ids) !! table = Some n → ∃ n', t'.(t_next_ids) !! table = Some n' ∧ n ≤ n'.

Fixpoint backs (cur : object_tables) (sts : list undo_state) (olds : list object_tables) : Prop :=
  match sts, olds with
  | [], [] => True
  | st :: sts, old :: olds => records old cur st ∧ ids_ok old ∧ ids_le old cur ∧ backs old sts olds
  | _, _ => False
  end.

(** The refinement relation. *)
Record refines (d : object_database) (s : snapshots) : Prop := {
  ref_tables : d.(u_tables) = s.(s_current);
  ref_sessions : d.(u_active_sessions) = s.(s_sessions);
  ref_max : d.(u_max_size) = s.(s_max);
  ref_enabled : d.(u_disabled) = false;
  ref_ids : ids_ok s.(s_current);
  ref_saved : backs s.(s_current) d.(u_stack) s.(s_saved) }.

(** ** Lemmas *)
Lemma records_empty t : records t t empty_state.
Proof.
  split.
  - intros id. exists Nop. split; [|done]. split; [set_solver|by cbn; rewrite !lookup_empty].
  - intros id n []%elem_of_empty.
  - intros table. cbn. by rewrite lookup_empty.
Qed.

Lemma ids_le_refl t : ids_le t t.
Proof. intros table n H. exists n. split; [done|lia]. Qed.

Lemma ids_le_trans t1 t2 t3 : ids_le t1 t2 → ids_le t2 t3 → ids_le t1 t3.
Proof.
  intros H1 H2 table n H. destruct (H1 _ _ H) as (n' & H' & ?).
  destruct (H2 _ _ H') as (n'' & ? & ?). exists n''. split; [done|lia].
Qed.

(** *** The observers keep the record *)
Lemma records_modify old cur st id v w :
  cur.(t_objects) !! id = Some v → records old cur st →
  records old (Tables (<[id := w]> cur.(t_objects)) cur.(t_next_ids)) (modify_state id v st).
Proof.
  intros Hv [Ho Hf Hn]. split.
  - clear Hf Hn. intros k. destruct (Ho k) as (c & Hc & He). unfold modify_state.
    destruct (decide (k = id)) as [->|Hk].
    + cbn. rewrite lookup_insert_eq. rewrite Hv in He.
      destruct c; cbn in Hc, He; destruct Hc as (Hc1 & Hc2 & Hc3).
      * exists (Upd v). rewrite decide_False, Hc2 by done. cbn. rewrite lookup_insert_eq. eauto.
      * exists New. rewrite decide_True by done. naive_solver.
      * exists (Upd v0). rewrite decide_False, Hc2 by done. naive_solver.
      * naive_solver.
    + exists c. cbn. rewrite lookup_insert_ne by done. split; [|done].
      destruct (decide _); [done|]. destruct (old_values st !! id) eqn:?; [done|].
      destruct c; cbn in *; rewrite lookup_insert_ne by done; done.
  - intros k n. unfold modify_state. destruct (decide _); [apply Hf|].
    destruct (old_values st !! id); apply Hf.
  - intros table. specialize (Hn table). unfold modify_state.
    destruct (decide _); [done|]. by destruct (old_values st !! id).
Qed.

Lemma records_remove old cur st id v :
  cur.(t_objects) !! id = Some v → records old cur st →
  records old (Tables (delete id cur.(t_objects)) cur.(t_next_ids)) (remove_state id v st).
Proof.
  intros Hv [Ho Hf Hn]. split.
  - clear Hf Hn. intros k. destruct (Ho k) as (c & Hc & He). unfold remove_state.
    destruct (decide (k = id)) as [->|Hk].
    + cbn. rewrite lookup_delete_eq. rewrite Hv in He.
      destruct c; cbn in Hc, He; destruct Hc as (Hc1 & Hc2 & Hc3).
      * exists (Del v). rewrite decide_False, Hc2, Hc3 by done. cbn. rewrite lookup_insert_eq. eauto.
      * exists Nop. rewrite decide_True by done. cbn. set_solver.
      * exists (Del v0). rewrite decide_False, Hc2 by done. cbn. rewrite lookup_insert_eq, lookup_delete_eq.
        naive_solver.
      * naive_solver.
    + exists c. cbn. rewrite lookup_delete_ne by done. split; [|done].
      destruct (decide _); [destruct c; cbn in *; set_solver|].
      destruct (old_values st !! id) eqn:?;
        [destruct c; cbn in *; rewrite lookup_insert_ne, lookup_delete_ne by done; done|].
      destruct (removed st !! id); [done|].
      destruct c; cbn in *; rewrite lookup_insert_ne by done; done.
  - intros k n Hk. apply Hf. unfold remove_state in Hk.
    destruct (decide _); [by apply elem_of_difference in Hk as []|].
    destruct (old_values st !! id); [done|]. by destruct (removed st !! id).
  - intros table. specialize (Hn table). unfold remove_state.
    destruct (decide _); [done|]. destruct (old_values st !! id); [done|]. by destruct (removed st !! id).
Qed.

Lemma records_create old cur st table id v n :
  cur.(t_next_ids) !! table = Some id → cur.(t_objects) !! id = None →
  ids_ok cur → ids_ok old → ids_le old cur → records old cur st →
  records old (Tables (<[id := v]> cur.(t_objects)) (<[table := n]> cur.(t_next_ids))) (create_state id st).
Proof.
  intros Hid Hnone Hcur Hold Hle [Ho Hf Hn]. pose proof (ids_next _ Hcur _ _ Hid) as Hix. split.
  - intros k. destruct (Ho k) as (c & Hc & He). cbn. destruct (decide (k = id)) as [->|Hk].
    + exists New. rewrite lookup_insert_eq. rewrite Hnone in He.
      destruct c; cbn in Hc, He |- *; destruct Hc as (Hc1 & Hc2 & Hc3).
      * rewrite <-He. split_and!; [by apply elem_of_union_l, elem_of_singleton|done..|by eauto].
      * by destruct He as [_ []].
      * by destruct He as [_ []].
      * exfalso. destruct He as [He _]. destruct (ids_used _ Hold id) as (m & Hm & ?); [by eauto|].
        destruct (Hle _ _ Hm) as (m' & Hm' & ?). rewrite Hix in Hm'. same_ok. lia.
    + exists c. rewrite lookup_insert_ne by done. split; [|done].
      assert (Hmem : k ∈ {[id]} ∪ st.(new_ids) ↔ k ∈ st.(new_ids)) by (clear -Hk; set_solver).
      by destruct c; cbn in Hc |- *; rewrite Hmem.
  - intros k m [->%elem_of_singleton|Hk]%elem_of_union Hm; [|by eapply Hf].
    destruct (Hle _ _ Hm) as (m' & Hm' & ?). rewrite Hix in Hm'. same_ok. lia.
  - intros t. specialize (Hn t). cbn. rewrite Hix. destruct (decide (t = table)) as [->|Ht].
    + rewrite lookup_insert_eq. destruct (old_index_next_ids st !! table) eqn:Hs.
      * rewrite Hs. destruct Hn. by eauto.
      * rewrite lookup_insert_eq. rewrite <-Hn. by eauto.
    + rewrite lookup_insert_ne by done. destruct (old_index_next_ids st !! table); [done|].
      by rewrite lookup_insert_ne.
Qed.

Lemma ids_ok_create t table id v :
  t.(t_next_ids) !! table = Some id → index_id (u64 (id + 1)) = table → u64 (id + 1) = id + 1 → ids_ok t →
  ids_ok (Tables (<[id := v]> t.(t_objects)) (<[table := u64 (id + 1)]> t.(t_next_ids))).
Proof.
  intros Hid Hfit Heq [Hn Hu]. pose proof (Hn _ _ Hid) as Hix. split; cbn.
  - intros k n. destruct (decide (k = table)) as [->|Hk]; [rewrite lookup_insert_eq; by intros [= <-]|].
    rewrite lookup_insert_ne by done. apply Hn.
  - intros k Hk. destruct (decide (index_id k = table)) as [<-|Hix'].
    + rewrite lookup_insert_eq. exists (u64 (id + 1)). split; [done|]. rewrite Heq.
      destruct (decide (k = id)) as [->|Hne]; [lia|]. rewrite lookup_insert_ne in Hk by done.
      destruct (Hu k Hk) as (n & Hn' & ?). same_ok. lia.
    + rewrite lookup_insert_ne by done. apply Hu. rewrite lookup_insert_ne in Hk; [done|congruence].
Qed.

Lemma ids_ok_objects t m :
  (∀ id, is_Some (m !! id) → is_Some (t.(t_objects) !! id)) → ids_ok t → ids_ok (Tables m t.(t_next_ids)).
Proof. intros Hm [Hn Hu]. split; [done|]. intros id Hid. by apply Hu, Hm. Qed.

(** *** Restoring *)
Record quiet (d d' : object_database) : Prop := {
  q_disabled : d'.(u_disabled) = d.(u_disabled);
  q_stack : d.(u_disabled) = true → d'.(u_stack) = d.(u_stack);
  q_active : d'.(u_active_sessions) = d.(u_active_sessions);
  q_max : d'.(u_max_size) = d.(u_max_size) }.

#[local] Instance quiet_preorder : PreOrder quiet.
Proof.
  split; [by intros d; split|]. intros d1 d2 d3 [H1 H2 H3 H4] [K1 K2 K3 K4].
  split; [by rewrite K1|intros Hd; rewrite K2, H2; [done..|by rewrite H1]|by rewrite K3|by rewrite K4].
Qed.

Definition quiet_objects (d d' : object_database) : Prop :=
  quiet d d' ∧ d'.(u_tables).(t_next_ids) = d.(u_tables).(t_next_ids).
Definition quiet_next_ids (d d' : object_database) : Prop :=
  quiet d d' ∧ d'.(u_tables).(t_objects) = d.(u_tables).(t_objects).

#[local] Instance quiet_objects_preorder : PreOrder quiet_objects.
Proof.
  split; [by intros d; split|]. intros d1 d2 d3 [H1 H2] [K1 K2]. split; [by etrans|by rewrite K2, H2].
Qed.
#[local] Instance quiet_next_ids_preorder : PreOrder quiet_next_ids.
Proof.
  split; [by intros d; split|]. intros d1 d2 d3 [H1 H2] [K1 K2]. split; [by etrans|by rewrite K2, H2].
Qed.

Lemma quiet_with_back d f : quiet d (with_back d f).
Proof.
  unfold with_back. destruct (u_disabled d) eqn:Hd; [done|].
  destruct (u_stack d); split; cbn; congruence.
Qed.

Lemma tables_with_back d f : (with_back d f).(u_tables) = d.(u_tables).
Proof. unfold with_back. destruct (u_disabled d); [done|]. by destruct (u_stack d). Qed.

Definition object_at (d : object_database) (id : Z) : option V := d.(u_tables).(t_objects) !! id.

Lemma modify_loop (m : gmap Z V) d :
  (∀ id, is_Some (m !! id) → is_Some (object_at d id)) →
  ∃ d', foldM (λ d '(id, v), modify d id (λ _, v)) d (map_to_list m) = Ok d' ∧ quiet_objects d d' ∧
    ∀ id, object_at d' id = match m !! id with Some v => Some v | None => object_at d id end.
Proof.
  intros Hm.
  destruct (foldM_pointwise fst object_at (λ x _, Some x.2) quiet_objects
    (λ d '(id, v), modify d id (λ _, v)) (λ _ w, is_Some w)) with (l := map_to_list m) (s := d)
    as (d' & Hd' & HF & Hin & Hout).
  - intros s [id v] [w Hw]. cbn in *. unfold modify, get_object. unfold object_at in Hw. rewrite Hw. cbn.
    eexists. split; [done|]. unfold touches, quiet_objects, object_at, on_modify. cbn. split_and!.
    + by rewrite lookup_insert_eq.
    + intros k Hk. by rewrite lookup_insert_ne.
    + etrans; [apply (quiet_with_back s (modify_state id w))|by split].
    + cbn. by rewrite tables_with_back.
  - apply NoDup_fst_map_to_list.
  - intros [id v] Hx%elem_of_map_to_list. cbn. apply Hm. by eauto.
  - exists d'. split_and!; [done..|]. intros id. destruct (m !! id) as [v|] eqn:Hv.
    + apply (Hin (id, v)). by apply elem_of_map_to_list.
    + apply Hout. intros ([k v] & -> & Hx%elem_of_map_to_list)%list_elem_of_fmap. cbn in Hv. by rewrite Hx in Hv.
Qed.

Lemma remove_loop (X : gset Z) d :
  (∀ id, id ∈ X → is_Some (object_at d id)) →
  ∃ d', foldM (λ d id, remove d id) d (elements X) = Ok d' ∧ quiet_objects d d' ∧
    ∀ id, object_at d' id = if decide (id ∈ X) then None else object_at d id.
Proof.
  intros Hm.
  destruct (foldM_pointwise id object_at (λ _ _, None) quiet_objects
    (λ d id, remove d id) (λ _ w, is_Some w)) with (l := elements X) (s := d)
    as (d' & Hd' & HF & Hin & Hout).
  - intros s k [w Hw]. cbn in *. unfold remove, get_object. unfold object_at in Hw. rewrite Hw. cbn.
    eexists. split; [done|]. unfold touches, quiet_objects, object_at, on_remove. cbn. split_and!.
    + by rewrite lookup_delete_eq.
    + intros k' Hk. by rewrite lookup_delete_ne.
    + etrans; [apply (quiet_with_back s (remove_state k w))|by split].
    + cbn. by rewrite tables_with_back.
  - rewrite list_fmap_id. apply NoDup_elements.
  - intros k Hk%elem_of_elements. by apply Hm.
  - exists d'. split_and!; [done..|]. intros k. destruct (decide (k ∈ X)) as [Hk|Hk].
    + apply (Hin k). by apply elem_of_elements.
    + apply Hout. by rewrite list_fmap_id, elem_of_elements.
Qed.

Definition next_id_at (d : object_database) (table : Z) : option Z := d.(u_tables).(t_next_ids) !! table.

Lemma next_id_loop (m : gmap Z Z) d :
  (∀ table, is_Some (m !! table) → is_Some (next_id_at d table)) →
  ∃ d', foldM (λ d '(table, id), set_next_id d table id) d (map_to_list m) = Ok d' ∧ quiet_next_ids d d' ∧
    ∀ table, next_id_at d' table = match m !! table with Some v => Some v | None => next_id_at d table end.
Proof.
  intros Hm.
  destruct (foldM_pointwise fst next_id_at (λ x _, Some x.2) quiet_next_ids
    (λ d '(table, id), set_next_id d table id) (λ _ w, is_Some w)) with (l := map_to_list m) (s := d)
    as (d' & Hd' & HF & Hin & Hout).
  - intros s [k v] [w Hw]. cbn in *. unfold set_next_id. unfold next_id_at in Hw. rewrite Hw. cbn.
    eexists. split; [done|]. unfold touches, quiet_next_ids, next_id_at. cbn. split_and!.
    + by rewrite lookup_insert_eq.
    + intros k' Hk. by rewrite lookup_insert_ne.
    + by split.
    + done.
  - apply NoDup_fst_map_to_list.
  - intros [k v] Hx%elem_of_map_to_list. cbn. apply Hm. by eauto.
  - exists d'. split_and!; [done..|]. intros k. destruct (m !! k) as [v|] eqn:Hv.
    + apply (Hin (k, v)). by apply elem_of_map_to_list.
    + apply Hout. intros ([k' v] & -> & Hx%elem_of_map_to_list)%list_elem_of_fmap. cbn in Hv. by rewrite Hx in Hv.
Qed.

Lemma insert_loop (m : gmap Z V) d :
  (∀ id, is_Some (m !! id) → object_at d id = None ∧ is_Some (next_id_at d (index_id id))) →
  ∃ d', foldM (λ d '(id, v), insert d id v) d (map_to_list m) = Ok d' ∧ quiet_objects d d' ∧
    ∀ id, object_at d' id = match m !! id with Some v => Some v | None => object_at d id end.
Proof.
  intros Hm.
  destruct (foldM_pointwise fst (λ d id, (object_at d id, next_id_at d (index_id id)))
    (λ x w, (Some x.2, w.2)) quiet_objects
    (λ d '(id, v), insert d id v) (λ _ w, w.1 = None ∧ is_Some w.2)) with (l := map_to_list m) (s := d)
    as (d' & Hd' & HF & Hin & Hout).
  - intros s [k v] [Hn [w Hw]]. cbn in *. unfold insert. unfold next_id_at in Hw. rewrite Hw.
    unfold object_at in Hn. cbn. rewrite bool_decide_true by done. cbn.
    eexists. split; [done|]. unfold touches, quiet_objects, object_at, next_id_at, on_create. cbn.
    rewrite !tables_with_back. cbn. split_and!.
    + by rewrite lookup_insert_eq.
    + intros k' Hk. by rewrite lookup_insert_ne.
    + etrans; [|apply quiet_with_back]. by split.
    + done.
  - apply NoDup_fst_map_to_list.
  - intros [k v] Hx%elem_of_map_to_list. cbn. apply Hm. by eauto.
  - exists d'. split_and!; [done..|]. intros k. destruct (m !! k) as [v|] eqn:Hv.
    + specialize (Hin (k, v)). apply elem_of_map_to_list in Hv. by specialize (Hin Hv) as [= ->].
    + assert (Hk : k ∉ (map_to_list m).*1).
      { intros ([k' v] & -> & Hx%elem_of_map_to_list)%list_elem_of_fmap. cbn in Hv. by rewrite Hx in Hv. }
      by specialize (Hout k Hk) as [= ->].
Qed.

Lemma tables_eq t t' :
  (∀ id, t.(t_objects) !! id = t'.(t_objects) !! id) →
  (∀ table, t.(t_next_ids) !! table = t'.(t_next_ids) !! table) → t = t'.
Proof. destruct t, t'. cbn. intros H1 H2. f_equal; by apply map_eq. Qed.

(** Restoring the back of the stack brings the recorded tables back, and
    touches nothing else. *)
Lemma restore_records d st old :
  d.(u_disabled) = true → records old d.(u_tables) st → ids_ok old →
  restore d st = Ok (d <| u_tables := old |>).
Proof.
  intros Hdis [Ho _ Hn] Hold. unfold restore.
  destruct (modify_loop st.(old_values) d) as (d1 & -> & [Q1 N1] & H1).
  { intros id [v Hv]. destruct (Ho id) as (c & Hc & He). destruct c; cbn in *; naive_solver. }
  cbn. destruct (remove_loop st.(new_ids) d1) as (d2 & -> & [Q2 N2] & H2).
  { intros id Hid. rewrite H1. destruct (Ho id) as (c & Hc & He). unfold object_at.
    destruct c; cbn in *; destruct Hc as (? & -> & _); naive_solver. }
  cbn. destruct (next_id_loop st.(old_index_next_ids) d2) as (d3 & -> & [Q3 N3] & H3).
  { intros table [v Hv]. specialize (Hn table). rewrite Hv in Hn. unfold next_id_at. rewrite N2, N1. by destruct Hn. }
  assert (Hnext : ∀ table, next_id_at d3 table = old.(t_next_ids) !! table).
  { intros table. rewrite H3. specialize (Hn table). unfold next_id_at. rewrite N2, N1.
    destruct (old_index_next_ids st !! table); [by destruct Hn|done]. }
  assert (Hobj : ∀ id, object_at d3 id =
      if decide (id ∈ st.(new_ids)) then None else
      match st.(old_values) !! id with Some v => Some v | None => object_at d id end).
  { intros id. unfold object_at at 1. rewrite N3. fold (object_at d2 id). by rewrite H2, H1. }
  cbn. destruct (insert_loop st.(removed) d3) as (d4 & -> & [Q4 N4] & H4).
  { intros id [v Hv]. destruct (Ho id) as (c & Hc & He). destruct c; cbn in *; [naive_solver..|].
    destruct Hc as (? & Hu & Hr). rewrite Hobj, decide_False, Hu by done. split; [naive_solver|].
    rewrite Hnext. destruct (ids_used _ Hold id) as (n & -> & _); [naive_solver|by eauto]. }
  f_equal. assert (Q : quiet d d4) by (by repeat (etrans; [eassumption|])).
  assert (Ht : u_tables d4 = old).
  { apply tables_eq.
    - intros id. fold (object_at d4 id). rewrite H4, Hobj. destruct (Ho id) as (c & Hc & He).
      destruct c; cbn in Hc, He; destruct Hc as (Hc1 & -> & ->);
        try rewrite decide_False by done; try rewrite decide_True by done;
        unfold object_at; naive_solver.
    - intros table. rewrite N4. apply Hnext. }
  destruct Q as [D1 D2 D3 D4]. specialize (D2 Hdis). destruct d, d4; cbn in *. congruence.
Qed.

(** *** Merging *)
Definition status_eq (st : undo_state) (id : Z) : bool * option V * option V :=
  (bool_decide (id ∈ st.(new_ids)), st.(old_values) !! id, st.(removed) !! id).

Definition encode (c : change) : bool * option V * option V :=
  match c with
  | Nop => (false, None, None) | New => (true, None, None)
  | Upd v => (false, Some v, None) | Del v => (false, None, Some v)
  end.

Lemma holds_status st id c : holds st id c ↔ status_eq st id = encode c.
Proof.
  unfold status_eq. destruct c; cbn; split.
  all: try (intros (? & -> & ->); first [by rewrite bool_decide_false|by rewrite bool_decide_true]).
  all: intros [= Hb Ho Hr]; apply bool_decide_eq_true in Hb || apply bool_decide_eq_false in Hb; done.
Qed.

Definition same_next_ids (s s' : undo_state) : Prop := s'.(old_index_next_ids) = s.(old_index_next_ids).
#[local] Instance same_next_ids_preorder : PreOrder same_next_ids.
Proof. split; [done|]. intros s1 s2 s3 H1 H2. unfold same_next_ids in *. congruence. Qed.

Definition same_status (s s' : undo_state) : Prop := ∀ id, status_eq s' id = status_eq s id.
#[local] Instance same_status_preorder : PreOrder same_status.
Proof. split; [done|]. intros s1 s2 s3 H1 H2 id. by rewrite H2, H1. Qed.

Definition step_upd (x : Z * V) (w : bool * option V * option V) : bool * option V * option V :=
  let '(n, o, r) := w in
  if n then w else match o with Some _ => w | None => (n, Some x.2, r) end.
Definition step_del (x : Z * V) (w : bool * option V * option V) : bool * option V * option V :=
  let '(n, o, r) := w in
  if n then (false, o, r) else match o with Some v => (n, None, Some v) | None => (n, o, Some x.2) end.

Lemma touches_upd s x : touches fst status_eq step_upd same_next_ids s x (merge_old_value s x).
Proof.
  destruct x as [id v]. unfold touches, merge_old_value, status_eq, step_upd. cbn.
  destruct (decide (id ∈ s.(new_ids))) as [Hn|Hn].
  - by rewrite bool_decide_true.
  - rewrite (bool_decide_false (id ∈ s.(new_ids))) by done. destruct (old_values s !! id) eqn:Ho.
    + by rewrite Ho, bool_decide_false.
    + cbn. rewrite lookup_insert_eq, bool_decide_false by done. split_and!; [done| |done].
      intros k Hk. by rewrite lookup_insert_ne.
Qed.

Lemma touches_new s id :
  touches (λ x, x) status_eq (λ _ w, (true, w.1.2, w.2)) same_next_ids s id (merge_new_id s id).
Proof.
  unfold touches, merge_new_id, status_eq. cbn. split_and!; [|intros k Hk|done].
  - by rewrite bool_decide_true by set_solver.
  - assert (k ∈ {[id]} ∪ s.(new_ids) ↔ k ∈ s.(new_ids)) by (clear -Hk; set_solver).
    by rewrite (bool_decide_ext _ (k ∈ s.(new_ids))).
Qed.

Lemma touches_del s x : touches fst status_eq step_del same_next_ids s x (merge_removed s x).
Proof.
  destruct x as [id v]. unfold touches, merge_removed, status_eq, step_del. cbn.
  destruct (decide (id ∈ s.(new_ids))) as [Hn|Hn].
  - rewrite (bool_decide_true (id ∈ s.(new_ids))) by done. cbn. rewrite bool_decide_false by set_solver.
    split_and!; [done| |done]. intros k Hk.
    assert (k ∈ s.(new_ids) ∖ {[id]} ↔ k ∈ s.(new_ids)) by (clear -Hk; set_solver).
    by rewrite (bool_decide_ext _ (k ∈ s.(new_ids))).
  - rewrite (bool_decide_false (id ∈ s.(new_ids))) by done. destruct (old_values s !! id) eqn:Ho; cbn.
    + rewrite lookup_insert_eq, lookup_delete_eq, bool_decide_false by done. split_and!; [done| |done].
      intros k Hk. by rewrite lookup_insert_ne, lookup_delete_ne.
    + rewrite lookup_insert_eq, Ho, bool_decide_false by done. split_and!; [done| |done].
      intros k Hk. by rewrite lookup_insert_ne.
Qed.

(** A loop over a map, seen at one identifier. *)
Lemma foldl_map_status {A} (f : undo_state → Z * A → undo_state) g (m : gmap Z A) s :
  (∀ s x, touches fst status_eq g same_next_ids s x (f s x)) →
  same_next_ids s (foldl f s (map_to_list m)) ∧
  ∀ id, status_eq (foldl f s (map_to_list m)) id =
    match m !! id with Some v => g (id, v) (status_eq s id) | None => status_eq s id end.
Proof.
  intros Hf. destruct (foldl_pointwise fst status_eq g same_next_ids f Hf (map_to_list m) s) as (HF & Hin & Hout).
  { apply NoDup_fst_map_to_list. }
  split; [done|]. intros id. destruct (m !! id) as [v|] eqn:Hv.
  - apply (Hin (id, v)). by apply elem_of_map_to_list.
  - apply Hout. intros ([k v] & -> & Hx%elem_of_map_to_list)%list_elem_of_fmap. cbn in Hv. by rewrite Hx in Hv.
Qed.

Lemma merge_next_loop (m : gmap Z Z) s :
  same_status s (foldl merge_next_id s (map_to_list m)) ∧
  ∀ table, (foldl merge_next_id s (map_to_list m)).(old_index_next_ids) !! table =
    match s.(old_index_next_ids) !! table with Some n => Some n | None => m !! table end.
Proof.
  destruct (foldl_pointwise fst (λ s k, s.(old_index_next_ids) !! k)
    (λ x w, match w with Some n => Some n | None => Some x.2 end) same_status merge_next_id)
    with (l := map_to_list m) (s := s) as (HF & Hin & Hout).
  - intros s' [k v]. unfold touches, merge_next_id. destruct (old_index_next_ids s' !! k) eqn:Hk; cbn.
    + by rewrite Hk.
    + rewrite lookup_insert_eq, Hk. split_and!; [done| |done]. intros k' ?. by rewrite lookup_insert_ne.
  - apply NoDup_fst_map_to_list.
  - split; [done|]. intros table. destruct (m !! table) as [v|] eqn:Hv.
    + apply (Hin (table, v)). by apply elem_of_map_to_list.
    + rewrite Hout; [by destruct (old_index_next_ids s !! table)|].
      intros ([k v] & -> & Hx%elem_of_map_to_list)%list_elem_of_fmap. cbn in Hv. by rewrite Hx in Hv.
Qed.

Lemma merge_new_loop (X : gset Z) s :
  same_next_ids s (foldl merge_new_id s (elements X)) ∧
  ∀ id, status_eq (foldl merge_new_id s (elements X)) id =
    if decide (id ∈ X) then (true, (status_eq s id).1.2, (status_eq s id).2) else status_eq s id.
Proof.
  destruct (foldl_pointwise (λ x, x) status_eq (λ _ w, (true, w.1.2, w.2)) same_next_ids merge_new_id)
    with (l := elements X) (s := s) as (HF & Hin & Hout); [apply touches_new|rewrite list_fmap_id; apply NoDup_elements|].
  split; [done|]. intros id. destruct (decide (id ∈ X)) as [Hid|Hid].
  - apply (Hin id). by apply elem_of_elements.
  - apply Hout. by rewrite list_fmap_id, elem_of_elements.
Qed.

Lemma merge_states_holds prev st id a b c :
  holds prev id a → holds st id b → compose a b = Some c → holds (merge_states prev st) id c.
Proof.
  rewrite !holds_status. intros Ha Hb Hc. unfold merge_states.
  destruct (foldl_map_status _ _ st.(removed)
    (foldl merge_next_id (foldl merge_new_id (foldl merge_old_value prev (map_to_list st.(old_values)))
       (elements st.(new_ids))) (map_to_list st.(old_index_next_ids))) touches_del) as [_ ->].
  destruct (merge_next_loop st.(old_index_next_ids)
    (foldl merge_new_id (foldl merge_old_value prev (map_to_list st.(old_values))) (elements st.(new_ids)))) as [-> _].
  destruct (merge_new_loop st.(new_ids) (foldl merge_old_value prev (map_to_list st.(old_values)))) as [_ ->].
  destruct (foldl_map_status _ _ st.(old_values) prev touches_upd) as [_ ->].
  rewrite Ha. apply holds_status in Hb.
  destruct b; cbn in Hb; destruct Hb as (Hb1 & -> & ->);
    first [rewrite decide_False by done|rewrite decide_True by done]; by destruct a; cbn in *; simplify_eq.
Qed.

Lemma compose_explains old mid cur a b c :
  compose a b = Some c → explains a old mid → explains b mid cur → explains c old cur.
Proof.
  destruct a, b; cbn; intros Hc; simplify_eq; cbn.
  all: repeat first [intros [? ?]|intros ?]; subst; eauto; by destruct mid, cur.
Qed.

(** The combinations the matrix calls N/A do not occur. *)
Lemma compose_total old mid cur a b :
  explains a old mid → explains b mid cur → (b = New → is_Some old → is_Some mid) →
  is_Some (compose a b).
Proof.
  destruct a, b; cbn; intros Ha Hb Hf; try by eauto.
  all: exfalso; destruct Ha, Hb; subst; try done.
  all: try (by destruct Hf as []; eauto); by eapply is_Some_None.
Qed.

Lemma merge_states_records old mid cur prev st :
  ids_ok old → ids_le old mid → records old mid prev → records mid cur st →
  records old cur (merge_states prev st).
Proof.
  intros Hold Hle [Ho1 Hf1 Hn1] [Ho2 Hf2 Hn2].
  assert (Hall : ∀ id, ∃ a b c, holds prev id a ∧ holds st id b ∧ compose a b = Some c ∧
    holds (merge_states prev st) id c ∧ explains c (t_objects old !! id) (t_objects cur !! id)).
  { intros id. destruct (Ho1 id) as (a & Ha & Ea), (Ho2 id) as (b & Hb & Eb).
    destruct (compose_total _ _ _ _ _ Ea Eb) as [c Hc].
    - intros -> Hid. exfalso. destruct (ids_used _ Hold id Hid) as (n & Hn & ?).
      destruct (Hle _ _ Hn) as (n' & Hn' & ?). destruct Hb as [Hb _]. specialize (Hf2 _ _ Hb Hn'). lia.
    - exists a, b, c. split_and!; [done..| |by eapply compose_explains]. by eapply merge_states_holds. }
  split.
  - intros id. destruct (Hall id) as (a & b & c & _ & _ & _ & ? & ?). by exists c.
  - intros id n Hid Hn. destruct (Hall id) as (a & b & c & Ha & Hb & Hc & Hm & _).
    destruct (Hle _ _ Hn) as (n' & Hn' & ?).
    destruct c; [by destruct Hm as [[] _]| |by destruct Hm as [[] _]..].
    destruct a; cbn in Hc; [|by apply (Hf1 id); [apply Ha|]|by destruct b|by destruct b].
    injection Hc as ->. destruct Hb as [Hb _]. specialize (Hf2 _ _ Hb Hn'). lia.
  - intros table. specialize (Hn1 table). specialize (Hn2 table). unfold merge_states.
    rewrite (proj1 (foldl_map_status _ _ st.(removed) _ touches_del)).
    rewrite (proj2 (merge_next_loop _ _)), (proj1 (merge_new_loop _ _)).
    rewrite (proj1 (foldl_map_status _ _ st.(old_values) _ touches_upd)).
    destruct (old_index_next_ids prev !! table) as [n|], (old_index_next_ids st !! table) as [m|].
    + destruct Hn1, Hn2. done.
    + destruct Hn1. by rewrite Hn2.
    + destruct Hn2. by rewrite <-Hn1.
    + congruence.
Qed.

(** ** The refinement *)
Lemma refines_change d s t f d' :
  refines d s → ids_ok t → ids_le s.(s_current) t →
  (∀ old st, ids_ok old → ids_le old s.(s_current) → records old s.(s_current) st → records old t (f st)) →
  d' = (with_back d f) <| u_tables := t |> → refines d' (change_to s t).
Proof.
  intros [Ht Hn Hm He Hok Hb] Hok' Hle Hf ->. unfold with_back. rewrite He.
  destruct (u_stack d) as [|st sts], (s_saved s) as [|old olds] eqn:Hs; cbn in Hb; try done.
  - split; cbn; try done. rewrite Hs. cbn. split_and!; [|done..].
    apply Hf; [done|apply ids_le_refl|apply records_empty].
  - destruct Hb as (Hr & Ho & Hl & Hb). split; cbn; try done. rewrite Hs. cbn.
    split_and!; [by apply Hf|done|by eapply ids_le_trans|done].
Qed.

Lemma backs_take n cur sts olds : backs cur sts olds → backs cur (take n sts) (take n olds).
Proof.
  revert cur sts olds. induction n as [|n IH]; intros cur [|st sts] [|old olds]; cbn; try done.
  intros (? & ? & ? & ?). split_and!; auto.
Qed.

(** A table has room for one more instance. *)
Definition fits (d : object_database) (c : command) : bool :=
  match c with
  | Create table _ =>
    match d.(u_tables).(t_next_ids) !! table with
    | Some id => (index_id (u64 (id + 1)) =? table) && (u64 (id + 1) =? id + 1)
    | None => true
    end
  | _ => true
  end.

Definition matches (d : result object_database) (s : option snapshots) : Prop :=
  match d, s with
  | Ok d, Some s => refines d s
  | Err _, None => True
  | _, _ => False
  end.

Lemma create_refines d s table v :
  refines d s → fits d (Create table v) = true → matches (create d table v) (spec_exec s (Create table v)).
Proof.
  intros H Hfit. pose proof H as [Ht Hn Hm He Hok Hb]. destruct s as [[objs next] saved n max]. cbn in *.
  unfold create. rewrite Ht in Hfit |- *. cbn in *. destruct (next !! table) as [id|] eqn:Hid; cbn; [|done].
  propify. destruct Hfit as [Hix Heq].
  destruct (decide (objs !! id = None)) as [Hnone|Hnone];
    [rewrite bool_decide_true by done|by rewrite bool_decide_false]. cbn.
  eapply (refines_change d _ (Tables (<[id := v]> objs) (<[table := u64 (id + 1)]> next)) (create_state id));
    [exact H|..]; cbn.
  - by apply (ids_ok_create (Tables objs next)).
  - intros k m Hk. cbn in *. destruct (decide (k = table)) as [->|]; [rewrite lookup_insert_eq|].
    2: { rewrite lookup_insert_ne by done. eauto using Z.le_refl. }
    rewrite Hid in Hk. injection Hk as <-. exists (u64 (id + 1)). split; [done|lia].
  - intros old st Ho Hl Hr. by apply (records_create old (Tables objs next)).
  - unfold on_create, with_back. rewrite He. cbn. rewrite He. by destruct (u_stack d).
Qed.

Lemma modify_refines d s id v :
  refines d s → matches (modify d id (λ _, v)) (spec_exec s (Modify id v)).
Proof.
  intros H. pose proof H as [Ht Hn Hm He Hok Hb]. destruct s as [[objs next] saved n max]. cbn in *.
  unfold modify, get_object. rewrite Ht. cbn. destruct (objs !! id) as [w|] eqn:Hid; cbn; [|done].
  eapply (refines_change d _ (Tables (<[id := v]> objs) next) (modify_state id w)); [exact H|..]; cbn.
  - apply (ids_ok_objects (Tables objs next) (<[id := v]> objs)); [|done]. cbn. intros k [x Hx].
    destruct (decide (k = id)) as [->|]; [by eauto|]. rewrite lookup_insert_ne in Hx by done. by eauto.
  - exact (ids_le_refl (Tables objs next)).
  - intros old st _ _ Hr. by apply (records_modify old (Tables objs next) st id w v).
  - unfold on_modify, set_objects. rewrite tables_with_back, Ht. cbn. done.
Qed.

Lemma remove_refines d s id : refines d s → matches (remove d id) (spec_exec s (Remove id)).
Proof.
  intros H. pose proof H as [Ht Hn Hm He Hok Hb]. destruct s as [[objs next] saved n max]. cbn in *.
  unfold remove, get_object. rewrite Ht. cbn. destruct (objs !! id) as [w|] eqn:Hid; cbn; [|done].
  eapply (refines_change d _ (Tables (delete id objs) next) (remove_state id w)); [exact H|..]; cbn.
  - apply (ids_ok_objects (Tables objs next) (delete id objs)); [|done]. cbn. intros k [x Hx].
    apply lookup_delete_Some in Hx as [_ Hx]. by eauto.
  - exact (ids_le_refl (Tables objs next)).
  - intros old st _ _ Hr. by apply (records_remove old (Tables objs next) st id w).
  - unfold on_remove, set_objects. rewrite tables_with_back, Ht. cbn. done.
Qed.

Lemma undo_refines d s : refines d s → matches (undo d) (spec_exec s Undo).
Proof.
  intros H. pose proof H as [Ht Hn Hm He Hok Hb]. destruct s as [[objs next] saved n max]. cbn in *.
  unfold undo. rewrite He, Hn. cbn.
  destruct (u_stack d) as [|st sts], saved as [|old olds]; try done.
  { by destruct (0 <? n). }
  destruct (Z.ltb_spec 0 n), (decide (0 < n)); try lia; cbn; [|done].
  destruct Hb as (Hr & Ho & Hl & Hb).
  rewrite (restore_records (disable d) st old); [|done|by cbn; rewrite Ht|done]. by split.
Qed.

Lemma pop_commit_refines d s : refines d s → matches (pop_commit d) (spec_exec s PopCommit).
Proof.
  intros H. pose proof H as [Ht Hn Hm He Hok Hb]. destruct s as [[objs next] saved n max]. cbn in *.
  unfold pop_commit. rewrite Hn.
  destruct (u_stack d) as [|st sts], saved as [|old olds]; try done.
  { by destruct (n =? 0). }
  destruct (Z.eqb_spec n 0), (decide (n = 0)); try lia; cbn; [|done].
  destruct Hb as (Hr & Ho & Hl & Hb).
  rewrite (restore_records (disable d) st old); [|done|by cbn; rewrite Ht|done]. by split.
Qed.

Lemma merge_refines d s : refines d s → matches (merge d) (spec_exec s Merge).
Proof.
  intros H. pose proof H as [Ht Hn Hm He Hok Hb]. destruct s as [[objs next] saved n max]. cbn in *.
  unfold merge. rewrite Hn.
  destruct (u_stack d) as [|st [|prev sts]], saved as [|mid [|old olds]]; try done;
    try (by destruct Hb as (_ & _ & _ & [])).
  - by destruct (0 <? n).
  - destruct (Z.ltb_spec 0 n), (Z.eqb_spec n 1), (decide (n = 1)); try lia; cbn; try done.
  - destruct (Z.ltb_spec 0 n), (decide (0 < n)); try lia; cbn; [|done].
    destruct Hb as (Hr & Ho & Hl & Hr' & Ho' & Hl' & Hb). split; cbn; try done.
    split_and!; [by eapply merge_states_records|done|by eapply ids_le_trans|done].
Qed.

Lemma start_refines d s : refines d s → refines (start_undo_session d false).2
  (Snapshots s.(s_current) (s.(s_current) :: take s.(s_max) s.(s_saved)) (u32 (s.(s_sessions) + 1)) s.(s_max)).
Proof.
  intros H. pose proof H as [Ht Hn Hm He Hok Hb]. unfold start_undo_session. rewrite He. cbn.
  split; cbn; try done; [by rewrite Hn|]. rewrite Hm.
  split_and!; [apply records_empty|done|apply ids_le_refl|by apply backs_take].
Qed.

Lemma exec_refines d s c : refines d s → fits d c = true → matches (exec d c) (spec_exec s c).
Proof.
  intros H Hfit. destruct c; cbn [exec].
  - by apply create_refines.
  - by apply modify_refines.
  - by apply remove_refines.
  - destruct s as [[objs next] saved n max]. apply (start_refines _ _ H).
  - by apply undo_refines.
  - by apply merge_refines.
  - pose proof H as [Ht Hn Hm He Hok Hb]. destruct s as [[objs next] saved n max]. cbn in *.
    unfold commit. rewrite Hn. destruct (Z.ltb_spec 0 n), (decide (0 < n)); try lia; cbn; [by split|done].
  - by apply pop_commit_refines.
Qed.

(** ** Whole sessions *)
Fixpoint exec_all (d : object_database) (cs : list command) : result object_database :=
  match cs with
  | [] => Ok d
  | c :: cs => d' ← exec d c; exec_all d' cs
  end.

Fixpoint spec_exec_all (s : snapshots) (cs : list command) : option snapshots :=
  match cs with
  | [] => Some s
  | c :: cs => s' ← spec_exec s c; spec_exec_all s' cs
  end.

Fixpoint all_fit (d : object_database) (cs : list command) : bool :=
  match cs with
  | [] => true
  | c :: cs => fits d c && match exec d c with Ok d' => all_fit d' cs | Err _ => true end
  end.

(** [session n cs]: [cs] opens and closes its own sessions, at most [n] deep;
    inside, transactions change objects, and nested sessions are undone or merged. *)
Inductive closed : nat → list command → Prop :=
  | closed_nil n : closed n []
  | closed_create n table v cs : closed n cs → closed n (Create table v :: cs)
  | closed_modify n id v cs : closed n cs → closed n (Modify id v :: cs)
  | closed_remove n id cs : closed n cs → closed n (Remove id :: cs)
  | closed_undo n cs1 cs2 : closed n cs1 → closed (S n) cs2 → closed (S n) (Start :: cs1 ++ Undo :: cs2)
  | closed_merge n cs1 cs2 : closed n cs1 → closed (S n) cs2 → closed (S n) (Start :: cs1 ++ Merge :: cs2).

Lemma spec_exec_all_app s cs1 cs2 :
  spec_exec_all s (cs1 ++ cs2) = s' ← spec_exec_all s cs1; spec_exec_all s' cs2.
Proof.
  revert s. induction cs1 as [|c cs1 IH]; intros s; cbn; [done|].
  destruct (spec_exec s c); cbn; [apply IH|done].
Qed.

(** Opening a session and running [cs] inside it, when [cs] itself is closed. *)
Lemma take_start (k max : nat) (t : object_tables) saved :
  take (S k) (t :: take max saved) = t :: take (k `min` max) saved.
Proof. cbn. by rewrite take_take. Qed.

(** A closed run leaves the sessions it was started in, and their snapshots as
    far back as the log reaches. *)
Lemma closed_saved n cs s s' :
  closed n cs → s.(s_saved) ≠ [] → 0 < s.(s_sessions) → (n ≤ s.(s_max))%nat →
  s.(s_sessions) + Z.of_nat n < 4294967296 → spec_exec_all s cs = Some s' →
  s'.(s_sessions) = s.(s_sessions) ∧ s'.(s_max) = s.(s_max) ∧
  ∃ k, s'.(s_saved) = take k s.(s_saved) ∧ (s.(s_max) < k + n)%nat.
Proof.
  intros Hc. revert s s'. induction Hc; intros [[objs next] [|old olds] m max] s'; cbn [s_saved s_sessions s_max];
    intros Hl Hm Hmax Hk H; try done; cbn in H.
  - injection H as <-. cbn. split_and!; [done..|]. exists (S (length olds `max` max)).
    split; [rewrite take_ge; [done|cbn; lia]|lia].
  - destruct (next !! table) as [id|]; cbn in H; [|done]. destruct (decide _); cbn in H; [|done].
    by apply IHHc in H.
  - destruct (objs !! id); cbn in H; [|done]. by apply IHHc in H.
  - destruct (objs !! id); cbn in H; [|done]. by apply IHHc in H.
  - rewrite spec_exec_all_app in H. rewrite u32_small in H by lia.
    destruct (spec_exec_all _ cs1) as [[[o1 n1] sv1 m1 max1]|] eqn:H1; [|done].
    apply IHHc1 in H1; cbn [s_saved s_sessions s_max] in *; [|done|lia..].
    destruct H1 as (-> & -> & [|k1] & -> & ?); [lia|]. rewrite take_start in H. cbn in H.
    rewrite decide_True in H by lia. destruct (k1 `min` max)%nat eqn:Hmin; [lia|].
    apply IHHc2 in H; cbn [s_saved s_sessions s_max]; [|done|lia..].
    destruct H as (-> & -> & k2 & -> & ?).
    cbn [s_saved s_sessions s_max] in *. split_and!; [lia|done|]. exists (k2 `min` S n0)%nat. rewrite <-take_take. split; [done|lia].
  - rewrite spec_exec_all_app in H. rewrite u32_small in H by lia.
    destruct (spec_exec_all _ cs1) as [[[o1 n1] sv1 m1 max1]|] eqn:H1; [|done].
    apply IHHc1 in H1; cbn [s_saved s_sessions s_max] in *; [|done|lia..].
    destruct H1 as (-> & -> & [|k1] & -> & ?); [lia|]. rewrite take_start in H. cbn in H.
    destruct (k1 `min` max)%nat eqn:Hmin; [lia|]. cbn in H. rewrite decide_True in H by lia.
    apply IHHc2 in H; cbn [s_saved s_sessions s_max]; [|done|lia..].
    destruct H as (-> & -> & k2 & -> & ?).
    cbn [s_saved s_sessions s_max] in *. split_and!; [lia|done|]. exists (k2 `min` S n0)%nat. rewrite <-take_take. split; [done|lia].
Qed.

Lemma exec_all_refines d s cs :
  refines d s → all_fit d cs = true → matches (exec_all d cs) (spec_exec_all s cs).
Proof.
  revert d s. induction cs as [|c cs IH]; intros d s H Hfit; [done|].
  cbn in Hfit. apply andb_true_iff in Hfit as [Hf Hfit]. cbn. pose proof (exec_refines d s c H Hf) as Hc.
  destruct (exec d c) as [d1|], (spec_exec s c) as [s1|]; cbn in *; try done. by apply IH.
Qed.

(** C11. The undo database is a stack of snapshots: whatever is created, changed,
    removed, started, undone, merged, committed or popped, the log it keeps
    behaves as if every session had copied the whole object database: the same
    commands succeed, and they leave the same objects, the same identifiers to
    give out and the same sessions.  (A table must have room for one more of its
    2^48 instances.) *)
Theorem undo_refines_snapshots d s cs :
  refines d s → all_fit d cs = true → matches (exec_all d cs) (spec_exec_all s cs).
Proof. apply exec_all_refines. Qed.

(** C12. A session that is not committed leaves no trace: whatever its
    transactions created, changed and removed, whatever sessions were nested in
    it and undone or merged, and even when the log had to forget its oldest
    states meanwhile, ending it succeeds and brings back every object, every next
    identifier and the number of open sessions. *)
Theorem aborted_session_leaves_no_trace d s n cs d1 :
  refines d s → 0 ≤ d.(u_active_sessions) → closed n cs → (n ≤ d.(u_max_size))%nat →
  d.(u_active_sessions) + Z.of_nat n < 4294967295 →
  all_fit d (Start :: cs) = true → exec_all d (Start :: cs) = Ok d1 →
  ∃ d2, session_end (start_undo_session d false).1 d1 = Ok d2 ∧
    d2.(u_tables) = d.(u_tables) ∧ d2.(u_active_sessions) = d.(u_active_sessions) ∧ d2.(u_disabled) = false.
Proof.
  intros H Hact Hc Hn Hsess Hfit Hrun. cbn in Hfit. destruct H as [Ht Hs Hm He Hok Hb] eqn:HH. clear HH.
  pose proof (start_refines d s H) as H1.
  pose proof (exec_all_refines _ _ cs H1 Hfit) as H2. cbn in Hrun. rewrite Hrun in H2.
  destruct (spec_exec_all _ cs) as [s1|] eqn:Hspec; [|done].
  apply (closed_saved n) in Hspec; cbn [s_saved s_sessions s_max] in *; try done.
  all: rewrite ?u32_small in * by lia; try lia.
  destruct Hspec as (Hs1 & Hm1 & k & Hk & Hk'). destruct k as [|k]; [lia|]. cbn in H2, Hk.
  pose proof (undo_refines d1 s1 H2) as H3. destruct s1 as [[objs next] saved m max]. cbn in *. subst.
  rewrite decide_True in H3 by lia. unfold start_undo_session, session_end. rewrite He. cbn.
  destruct (undo d1) as [d2|]; [|done]. destruct H3 as [Ht3 Hs3 Hm3 He3 _ _]. cbn in *.
  exists d2. split_and!; [done|congruence|lia|done].
Qed.
End undo_database.
End undo_database.

(** ** A small database *)
Import undo_database.
Definition sample_tables : object_tables (V := Z) :=
  Tables (<[0 := 10]> (<[1 := 20]> ∅)) (<[0 := 2]> ∅).
Definition sample_undo_db : object_database (V := Z) := ObjectDb sample_tables [] 0 false 2.
Definition sample_snapshots : snapshots (V := Z) := Snapshots sample_tables [] 0 2.

Lemma sample_refines : refines sample_undo_db sample_snapshots.
Proof.
  split; try done. split.
  - intros table n H. change (<[0 := 2]> (∅ : gmap Z Z) !! table = Some n) in H.
    apply lookup_insert_Some in H as [[<- <-]|[_ H]]; [done|]. by rewrite lookup_empty in H.
  - intros id [v H]. exists 2. change (<[0 := 10]> (<[1 := 20]> (∅ : gmap Z Z)) !! id = Some v) in H.
    apply lookup_insert_Some in H as [[<- _]|[_ H]]; [by split|].
    apply lookup_insert_Some in H as [[<- _]|[_ H]]; [by split|]. by rewrite lookup_empty in H.
Qed.

Definition sample_commands : list (command (V := Z)) :=
  [Create 0 7; Modify 0 5; Start; Remove 1; Modify 2 8; Merge; Start; Remove 0; Undo].

Lemma undo_refines_snapshots_witness :
  matches (exec_all sample_undo_db (Start :: sample_commands ++ [Commit; PopCommit]))
    (spec_exec_all sample_snapshots (Start :: sample_commands ++ [Commit; PopCommit])).
Proof.
  apply undo_refines_snapshots; [apply sample_refines|vm_compute; reflexivity].
Defined.

Lemma aborted_session_witness : ∃ d1 d2,
  exec_all sample_undo_db (Start :: sample_commands) = Ok d1 ∧
  session_end (start_undo_session sample_undo_db false).1 d1 = Ok d2 ∧ d2.(u_tables) = sample_tables.
Proof.
  destruct (exec_all sample_undo_db (Start :: sample_commands)) as [d1|] eqn:E; [|exfalso; vm_compute in E; discriminate E].
  destruct (aborted_session_leaves_no_trace sample_undo_db sample_snapshots 1 sample_commands d1)
    as (d2 & H2 & Ht & _).
  - apply sample_refines.
  - cbn. lia.
  - repeat constructor. apply (closed_merge 0 [Remove 1; Modify 2 8]); [repeat constructor|].
    apply (closed_undo 0 [Remove 0] []); repeat constructor.
  - cbn. lia.
  - cbn. lia.
  - vm_compute. reflexivity.
  - exact E.
  - exists d1, d2. auto.
Defined.
