(* ===== verification/Raw.v ===== *)
(** * Packed sizes and variable-length integers

    [fc/io/raw.hpp]: the encoding of lengths ([unsigned_int], seven bits per
    byte, least significant first), of strings, and the packed sizes the
    [validate] functions bound.  A memo is represented by its packed bytes. *)
From S2P Require Import Prelude Safe.

Definition MAX_ARRAY_ALLOC_SIZE : Z := 10485760.

(** [pack( s, unsigned_int )]: [fuel] bounds the bytes written; a 64-bit value
    needs at most ten. *)
Fixpoint pack_unsigned_int_loop (fuel : nat) (val : Z) : list Z :=
  match fuel with
  | O => []
  | S fuel =>
      let b := Z.land val 127 in
      let val' := Z.shiftr val 7 in
      Z.lor b (Z.shiftl (if 0 <? val' then 1 else 0) 7)
        :: (if val' =? 0 then [] else pack_unsigned_int_loop fuel val')
  end.
Definition pack_unsigned_int (v : Z) : list Z := pack_unsigned_int_loop 10 v.

(** [unpack( s, unsigned_int )]: [v] is the value read so far, [by] the shift. *)
Fixpoint unpack_unsigned_int_loop (v by_ : Z) (s : list Z) : result (Z * list Z) :=
  match s with
  | [] => Err assert_exception
  | b :: s' =>
      if (64 <=? by_) || ((by_ =? 63) && (1 <? b)) then Err overflow_exception
      else
        let v' := Z.lor v (u64 (Z.shiftl (Z.land b 127) by_)) in
        if Z.land b 128 =? 0 then Ok (v', s') else unpack_unsigned_int_loop v' (by_ + 7) s'
  end.
Definition unpack_unsigned_int (s : list Z) : result (Z * list Z) := unpack_unsigned_int_loop 0 0 s.

(** Strings and [vector<char>]: the length, then the bytes.  [_max_depth] is what
    is left of the nesting depth, [FC_PACK_MAX_DEPTH] (1000) at the outermost value. *)
Definition pack_bytes (_max_depth : Z) (value : list Z) : result (list Z) :=
  _ ← FC_ASSERT (0 <? _max_depth);
  Ok (pack_unsigned_int (Z.of_nat (length value)) ++ value).

Definition unpack_bytes (_max_depth : Z) (s : list Z) : result (list Z * list Z) :=
  _ ← FC_ASSERT (0 <? _max_depth);
  '(size, s') ← unpack_unsigned_int s;
  _ ← FC_ASSERT (size <? MAX_ARRAY_ALLOC_SIZE);
  if Z.of_nat (length s') <? size then Err assert_exception
  else Ok (take (Z.to_nat size) s', drop (Z.to_nat size) s').

(** [pack_size] of a string, of a memo and of an optional memo. *)
Definition pack_size_string (s : string) : Z :=
  Z.of_nat (length (pack_unsigned_int (Z.of_nat (String.length s)))) + Z.of_nat (String.length s).
Definition pack_size_memo (m : string) : Z := Z.of_nat (String.length m).
Definition pack_size_opt_memo (m : option string) : Z :=
  match m with Some m => 1 + pack_size_memo m | None => 1 end.

(** ** Lemmas *)
Lemma lor_shiftl_add acc x k :
  0 ≤ k → 0 ≤ acc < 2 ^ k → Z.lor acc (Z.shiftl x k) = acc + x * 2 ^ k.
Proof.
  intros Hk Hacc. assert (Z.land acc (Z.shiftl x k) = 0) as Hl.
  { apply Z.bits_inj'. intros n Hn. rewrite Z.land_spec, Z.bits_0.
    destruct (Z.lt_ge_cases n k).
    - rewrite Z.shiftl_spec_low by done. apply andb_false_r.
    - destruct (Z.eq_dec acc 0) as [->|]; [by rewrite Z.bits_0|].
      assert (Z.log2 acc < k) by (apply Z.log2_lt_pow2; lia).
      by rewrite (Z.bits_above_log2 acc) by lia. }
  rewrite <-(Z.shiftl_mul_pow2 x k) by done. rewrite Z.add_nocarry_lxor by done. symmetry. by apply Z.lxor_lor.
Qed.

Lemma land_127 v : Z.land v 127 = v `mod` 128.
Proof. by apply (Z.land_ones v 7). Qed.

Lemma byte_value v (more : bool) :
  0 ≤ v → Z.lor (Z.land v 127) (Z.shiftl (if more then 1 else 0) 7) = v `mod` 128 + (if more then 128 else 0).
Proof.
  intros Hv. rewrite land_127. pose proof (Z.mod_pos_bound v 128 ltac:(lia)).
  rewrite lor_shiftl_add by lia. destruct more; lia.
Qed.

(** A byte with its continuation bit, taken apart again. *)
Lemma byte_parts x (more : bool) :
  0 ≤ x < 128 →
  Z.land (x + (if more then 128 else 0)) 127 = x ∧
  (Z.land (x + (if more then 128 else 0)) 128 =? 0) = negb more.
Proof.
  intros Hx. split.
  - rewrite land_127. destruct more; [|rewrite Z.add_0_r; by apply Z.mod_small].
    pose proof (Z.mod_add x 1 128 ltac:(done)) as E. rewrite Z.mul_1_l in E. rewrite E.
    apply Z.mod_small; lia.
  - replace (x + (if more then 128 else 0)) with (Z.lor x (Z.shiftl (if more then 1 else 0) 7))
      by (rewrite lor_shiftl_add by lia; destruct more; lia).
    change 128 with (Z.shiftl 1 7). rewrite Z.land_lor_distr_l, <-Z.shiftl_land.
    assert (Z.land x (Z.shiftl 1 7) = 0) as ->.
    { apply Z.bits_inj'. intros n Hn. rewrite Z.land_spec, Z.bits_0.
      destruct (Z.lt_ge_cases n 7); [rewrite Z.shiftl_spec_low by done; apply andb_false_r|].
      destruct (Z.eq_dec x 0) as [->|]; [by rewrite Z.bits_0|].
      assert (Z.log2 x < 7) by (apply Z.log2_lt_pow2; lia).
      by rewrite (Z.bits_above_log2 x) by lia. }
    by destruct more.
Qed.

Lemma unpack_pack_loop fuel val v k rest :
  0 ≤ k → 7 * k < 64 → 0 ≤ v < 2 ^ (7 * k) → 0 ≤ val → val * 2 ^ (7 * k) < 2 ^ 64 →
  val < 2 ^ (7 * Z.of_nat fuel) →  (0 < fuel)%nat →
  unpack_unsigned_int_loop v (7 * k) (pack_unsigned_int_loop fuel val ++ rest)
  = Ok (v + val * 2 ^ (7 * k), rest).
Proof.
  revert val v k. induction fuel as [|fuel IH]; intros val v k Hk Hk64 Hv Hval Hval64 Hfuel Hpos; [lia|].
  cbn [pack_unsigned_int_loop]. rewrite byte_value by done. rewrite Z.shiftr_div_pow2 by lia.
  change (2 ^ 7) with 128.
  set (q := val `div` 128). set (r := val `mod` 128).
  assert (0 ≤ r < 128) as Hr by (apply Z.mod_pos_bound; lia).
  assert (val = 128 * q + r) as Hqr by (apply Z.div_mod; lia).
  assert (0 ≤ q) as Hq by (apply Z.div_pos; lia).
  assert (0 < 2 ^ (7 * k)) as Hp by (apply Z.pow_pos_nonneg; lia).
  destruct (byte_parts r (0 <? q) Hr) as [Hlow Hhigh].
  cbn [app unpack_unsigned_int_loop]. rewrite Hlow, Hhigh.
  assert ((64 <=? 7 * k) || ((7 * k =? 63) && (1 <? r + (if 0 <? q then 128 else 0))) = false) as ->.
  { apply orb_false_iff. split; [lia|]. apply andb_false_iff.
    destruct (Z.eqb_spec (7 * k) 63) as [E|]; [right|by left]. rewrite E in Hval64.
    change (2 ^ 64) with (2 * 2 ^ 63) in Hval64.
    assert (val < 2) by lia. apply Z.ltb_ge. destruct (Z.ltb_spec 0 q); lia. }
  assert (Z.lor v (u64 (Z.shiftl r (7 * k))) = v + r * 2 ^ (7 * k)) as ->.
  { unfold u64. rewrite Z.shiftl_mul_pow2 by lia. rewrite Z.mod_small.
    - rewrite <-Z.shiftl_mul_pow2 by lia. rewrite lor_shiftl_add by lia. by rewrite Z.shiftl_mul_pow2 by lia.
    - change uint64_mod with (2 ^ 64). nia. }
  destruct (Z.ltb_spec 0 q) as [Hq0|Hq0]; cbn [negb]; destruct (Z.eqb_spec q 0); [lia| | |lia].
  -
    assert (2 ^ (7 * (k + 1)) = 2 ^ (7 * k) * 128) as Hpow
      by (replace (7 * (k + 1)) with (7 * k + 7) by lia; rewrite Z.pow_add_r by lia; lia).
    replace (7 * k + 7) with (7 * (k + 1)) by lia.
    assert (7 * k < 57) as Hk57.
    { destruct (Z.lt_ge_cases (7 * k) 57) as [|Hge]; [done|].
      assert (2 ^ 57 ≤ 2 ^ (7 * k)) by (apply Z.pow_le_mono_r; lia).
      assert (2 ^ 64 = 2 ^ 57 * 128) by done. nia. }
    assert (2 ^ (7 * Z.of_nat (S fuel)) = 2 ^ (7 * Z.of_nat fuel) * 128) as Efuel
      by (replace (7 * Z.of_nat (S fuel)) with (7 * Z.of_nat fuel + 7) by lia; rewrite Z.pow_add_r by lia; lia).
    assert (fuel ≠ 0%nat) by (intros ->; change (2 ^ (7 * Z.of_nat 1)) with 128 in Hfuel; lia).
    rewrite IH; rewrite ?Hpow; try lia; try nia. f_equal. f_equal. nia.
  - assert (q = 0) as Hq00 by lia. f_equal. f_equal. nia.
Qed.

Lemma unpack_pack_unsigned_int v rest :
  0 ≤ v < uint64_mod → unpack_unsigned_int (pack_unsigned_int v ++ rest) = Ok (v, rest).
Proof.
  intros Hv. unfold unpack_unsigned_int, pack_unsigned_int. unfold uint64_mod in Hv.
  change 0 with (7 * 0) at 2.
  rewrite unpack_pack_loop; change (2 ^ (7 * 0)) with 1; change (2 ^ 64) with 18446744073709551616;
    change (2 ^ (7 * Z.of_nat 10)) with 1180591620717411303424; try lia.
  f_equal. f_equal. lia.
Qed.

(** ** Properties of the encoding *)

(** C25. Byte strings survive the wire: wherever the nesting depth lets them be packed,
    unpacking what was packed gives back the bytes and leaves the rest of the
    stream untouched, for every length below the allocation limit of the decoder;
    with no depth left neither direction goes through. *)
Theorem unpack_pack_bytes depth depth' value rest
  (Hl : Z.of_nat (length value) < MAX_ARRAY_ALLOC_SIZE) :
  (0 < depth → 0 < depth' →
    ∃ packed, pack_bytes depth value = Ok packed ∧ unpack_bytes depth' (packed ++ rest) = Ok (value, rest)) ∧
  (depth ≤ 0 → pack_bytes depth value = Err assert_exception ∧ unpack_bytes depth rest = Err assert_exception).
Proof.
  split.
  - intros H H'. unfold pack_bytes, unpack_bytes.
    rewrite (proj2 (Z.ltb_lt 0 depth) H), (proj2 (Z.ltb_lt 0 depth') H'). eexists. split; [done|].
    cbn [FC_ASSERT GRAPHENE_ASSERT mbind result_bind]. rewrite <-app_assoc.
    rewrite unpack_pack_unsigned_int by (unfold MAX_ARRAY_ALLOC_SIZE, uint64_mod in *; lia).
    cbn [mbind result_bind]. rewrite (proj2 (Z.ltb_lt _ _) Hl). cbn [FC_ASSERT GRAPHENE_ASSERT mbind result_bind].
    rewrite length_app. destruct (Z.ltb_spec (Z.of_nat (length value + length rest)) (Z.of_nat (length value))); [lia|].
    by rewrite Nat2Z.id, take_app_length, drop_app_length.
  - intros H. unfold pack_bytes, unpack_bytes. by rewrite (proj2 (Z.ltb_ge 0 depth) H).
Qed.

Lemma unpack_pack_bytes_witness :
  ∃ packed, pack_bytes 1 (replicate 300 65) = Ok packed ∧ unpack_bytes 1000 (packed ++ [1; 2; 3]) = Ok (replicate 300 65, [1; 2; 3]).
Proof. apply (unpack_pack_bytes 1 1000 (replicate 300 65) [1; 2; 3]); [vm_compute; reflexivity|lia|lia]. Defined.
