(* ===== verification/Asset.v ===== *)
(** * Assets and prices

    [protocol/asset.hpp] and [protocol/asset.cpp]: amounts tagged with their
    asset, exchange rates between two assets, and the conversions between them.
    128-bit intermediate products wrap modulo [2^128] as the fixed-width
    unsigned integers of the source do. *)
From S2P Require Import Prelude Safe.

(** The core asset is [asset_id_type()], instance 0. *)
Definition CORE : Z := 0.
(** The accounts of the genesis block with a meaning of their own. *)
Definition GRAPHENE_COMMITTEE_ACCOUNT : Z := 0.
Definition GRAPHENE_WITNESS_ACCOUNT : Z := 1.
Definition GRAPHENE_RELAXED_COMMITTEE_ACCOUNT : Z := 2.
Definition GRAPHENE_NULL_ACCOUNT : Z := 3.
Definition GRAPHENE_TEMP_ACCOUNT : Z := 4.

Record asset : Type := Asset { amount : Z; asset_id : Z }.

#[export] Instance asset_eq_dec : EqDecision asset.
Proof. solve_decision. Defined.

(** ** Operators on assets; each checks that the asset ids agree. *)
Definition asset_add (a b : asset) : result asset :=
  _ ← FC_ASSERT (a.(asset_id) =? b.(asset_id));
  s ← safe_add a.(amount) b.(amount);
  Ok (Asset s a.(asset_id)).

Definition asset_sub (a b : asset) : result asset :=
  _ ← FC_ASSERT (a.(asset_id) =? b.(asset_id));
  s ← safe_sub a.(amount) b.(amount);
  Ok (Asset s a.(asset_id)).

Definition asset_neg (a : asset) : result asset :=
  s ← safe_neg a.(amount);
  Ok (Asset s a.(asset_id)).

Definition asset_eqb (a b : asset) : bool :=
  (a.(asset_id) =? b.(asset_id)) && (a.(amount) =? b.(amount)).

Definition asset_lt (a b : asset) : result bool :=
  _ ← FC_ASSERT (a.(asset_id) =? b.(asset_id));
  Ok (a.(amount) <? b.(amount)).

(** [a <= b] is [!(b < a)], [a >= b] is [!(a < b)]. *)
Definition asset_le (a b : asset) : result bool := negb <$> asset_lt b a.
Definition asset_ge (a b : asset) : result bool := negb <$> asset_lt a b.

(** ** Prices *)
Record price : Type := Price { base : asset; quote : asset }.

#[export] Instance price_eq_dec : EqDecision price.
Proof. solve_decision. Defined.

Definition price_inv (p : price) : price := Price p.(quote) p.(base).

(** [uint128_t( x ) * y] on 64-bit operands. *)
Definition mul128 (x y : Z) : Z := (x * y) `mod` uint128_mod.

Definition price_eqb (a b : price) : bool :=
  (a.(base).(asset_id) =? b.(base).(asset_id)) &&
  (a.(quote).(asset_id) =? b.(quote).(asset_id)) &&
  (mul128 b.(quote).(amount) a.(base).(amount) =? mul128 a.(quote).(amount) b.(base).(amount)).

Definition price_ltb (a b : price) : bool :=
  if a.(base).(asset_id) <? b.(base).(asset_id) then true
  else if b.(base).(asset_id) <? a.(base).(asset_id) then false
  else if a.(quote).(asset_id) <? b.(quote).(asset_id) then true
  else if b.(quote).(asset_id) <? a.(quote).(asset_id) then false
  else mul128 b.(quote).(amount) a.(base).(amount) <? mul128 a.(quote).(amount) b.(base).(amount).

(** One leg of [operator *]: [x * num / den], rounded down. *)
Definition scale_down (x num den : Z) : result Z :=
  _ ← FC_ASSERT (0 <? den);
  let r := mul128 x num `div` den in
  _ ← FC_ASSERT (r <=? GRAPHENE_MAX_SHARE_SUPPLY);
  Ok r.

Definition scale_up (x num den : Z) : result Z :=
  _ ← FC_ASSERT (0 <? den);
  let r := ((mul128 x num + den - 1) `mod` uint128_mod) `div` den in
  _ ← FC_ASSERT (r <=? GRAPHENE_MAX_SHARE_SUPPLY);
  Ok r.

Definition asset_mul_with (scale : Z → Z → Z → result Z) (a : asset) (p : price) : result asset :=
  if a.(asset_id) =? p.(base).(asset_id) then
    r ← scale a.(amount) p.(quote).(amount) p.(base).(amount);
    Ok (Asset r p.(quote).(asset_id))
  else if a.(asset_id) =? p.(quote).(asset_id) then
    r ← scale a.(amount) p.(base).(amount) p.(quote).(amount);
    Ok (Asset r p.(base).(asset_id))
  else Err assert_exception.

Definition asset_mul (a : asset) (p : price) : result asset := asset_mul_with scale_down a p.
Definition multiply_and_round_up (a : asset) (p : price) : result asset := asset_mul_with scale_up a p.

Definition make_price (b q : asset) : result price :=
  _ ← FC_ASSERT (negb (b.(asset_id) =? q.(asset_id)));
  Ok (Price b q).

Definition price_max (b q : Z) : result price :=
  make_price (Asset GRAPHENE_MAX_SHARE_SUPPLY b) (Asset 1 q).
Definition price_min (b q : Z) : result price :=
  make_price (Asset 1 b) (Asset GRAPHENE_MAX_SHARE_SUPPLY q).

Definition price_is_null (p : price) : bool :=
  (p.(base).(asset_id) =? CORE) && (p.(quote).(asset_id) =? CORE).

Definition price_validate (p : price) : result unit :=
  _ ← FC_ASSERT (0 <? p.(base).(amount));
  _ ← FC_ASSERT (0 <? p.(quote).(amount));
  FC_ASSERT (negb (p.(base).(asset_id) =? p.(quote).(asset_id))).

Record price_feed : Type := PriceFeed {
  pf_settlement_price : price;
  pf_core_exchange_rate : price;
  pf_maintenance_collateral_ratio : Z;
  pf_maximum_short_squeeze_ratio : Z }.
#[export] Instance price_feed_eq_dec : EqDecision price_feed.
Proof. solve_decision. Defined.
(** [price()]: two zero amounts of the core asset. *)
Definition null_price : price := Price (Asset 0 CORE) (Asset 0 CORE).

(** A price between two positive 64-bit amounts. *)
Definition wf_price (p : price) : Prop :=
  0 < p.(base).(amount) ≤ int64_max ∧ 0 < p.(quote).(amount) ≤ int64_max.
#[export] Instance wf_price_dec p : Decision (wf_price p).
Proof. unfold wf_price. apply _. Defined.

(** The order the source intends: lexicographic on the pair of assets, then
    by the value of the ratio. *)
Definition price_key_lt (a b : price) : Prop :=
  a.(base).(asset_id) < b.(base).(asset_id) ∨
  a.(base).(asset_id) = b.(base).(asset_id) ∧
    (a.(quote).(asset_id) < b.(quote).(asset_id) ∨
     a.(quote).(asset_id) = b.(quote).(asset_id) ∧
     a.(base).(amount) * b.(quote).(amount) < b.(base).(amount) * a.(quote).(amount)).

#[global] Arguments asset_add : simpl never.
#[global] Arguments asset_sub : simpl never.
#[global] Arguments asset_neg : simpl never.
#[global] Arguments asset_le : simpl never.
#[global] Arguments asset_ge : simpl never.

(** ** Lemmas *)
Lemma mul128_small x y : 0 ≤ x ≤ int64_max → 0 ≤ y ≤ int64_max → mul128 x y = x * y.
Proof. unfold mul128, uint128_mod, int64_max. intros. apply Z.mod_small. nia. Qed.

Lemma asset_eqb_eq a b : asset_eqb a b = true ↔ a = b.
Proof.
  destruct a, b. unfold asset_eqb. cbn. rewrite andb_true_iff, !Z.eqb_eq. naive_solver.
Qed.
#[export] Hint Rewrite asset_eqb_eq : fc_bool.

Lemma asset_neg_Ok a b : asset_neg a = Ok b → b = Asset (- a.(amount)) a.(asset_id).
Proof. unfold asset_neg. intros. inv_ok. by inv_safe. Qed.

Lemma asset_ge_Ok a b : asset_ge a b = Ok true → a.(asset_id) = b.(asset_id) ∧ b.(amount) ≤ a.(amount).
Proof.
  unfold asset_ge, asset_lt. intros H. inv_ok. propify.
  match goal with H : true = negb _ |- _ => symmetry in H end. propify. lia.
Qed.

Lemma scale_down_Ok x num den r :
  0 ≤ x ≤ int64_max → 0 ≤ num ≤ int64_max → scale_down x num den = Ok r →
  0 < den ∧ 0 ≤ r ≤ GRAPHENE_MAX_SHARE_SUPPLY ∧ den * r ≤ x * num < den * (r + 1).
Proof.
  unfold scale_down. intros Hx Hn H. inv_ok. propify.
  rewrite mul128_small in * by done.
  pose proof (Z.mod_pos_bound (x * num) den ltac:(lia)).
  pose proof (Z.div_mod (x * num) den ltac:(lia)).
  assert (0 ≤ (x * num) `div` den) by (apply Z.div_pos; nia). nia.
Qed.

Lemma scale_up_Ok x num den r :
  0 ≤ x ≤ int64_max → 0 ≤ num ≤ int64_max → den ≤ int64_max → scale_up x num den = Ok r →
  0 < den ∧ 0 ≤ r ≤ GRAPHENE_MAX_SHARE_SUPPLY ∧ den * (r - 1) < x * num ≤ den * r.
Proof.
  unfold scale_up. intros Hx Hn Hd H. inv_ok. propify.
  rewrite mul128_small in * by done.
  rewrite (Z.mod_small (x * num + den - 1)) in *
    by (unfold uint128_mod, int64_max in *; nia).
  pose proof (Z.mod_pos_bound (x * num + den - 1) den ltac:(lia)).
  pose proof (Z.div_mod (x * num + den - 1) den ltac:(lia)).
  assert (0 ≤ (x * num + den - 1) `div` den) by (apply Z.div_pos; nia). nia.
Qed.

Section price_order.
Implicit Types a b c : price.

(** Cross products are exact on well-formed prices. *)
Lemma cross_small a b :
  wf_price a → wf_price b →
  mul128 b.(quote).(amount) a.(base).(amount) = b.(quote).(amount) * a.(base).(amount).
Proof. intros [] []. apply mul128_small; lia. Qed.

Lemma price_ltb_spec a b : wf_price a → wf_price b → (price_ltb a b = true ↔ price_key_lt a b).
Proof.
  intros Ha Hb. unfold price_ltb, price_key_lt.
  rewrite (cross_small a b Ha Hb), (cross_small b a Hb Ha).
  repeat case_match; propify; split; intros; try lia; try done.
Qed.

Lemma price_key_lt_trans a b c :
  wf_price a → wf_price b → wf_price c → price_key_lt a b → price_key_lt b c → price_key_lt a c.
Proof.
  unfold wf_price, price_key_lt. intros [Ha1 Ha2] [Hb1 Hb2] [Hc1 Hc2] H1 H2.
  destruct H1 as [?|[? [?|[? H1]]]]; destruct H2 as [?|[? [?|[? H2]]]]; try lia.
  right. split; [lia|]. right. split; [lia|].
  destruct a as [[ab ?] [aq ?]], b as [[bb ?] [bq ?]], c as [[cb ?] [cq ?]]. cbn in *.
  (* ab/aq < bb/bq < cb/cq *)
  assert (ab * bq * cq < bb * aq * cq) by nia.
  assert (bb * cq * aq < cb * bq * aq) by nia.
  assert (bq * (ab * cq) < bq * (cb * aq)) by nia. nia.
Qed.
End price_order.

(** ** Termination *)
Lemma terminates_asset_lt a b : terminates (asset_lt a b).
Proof. unfold asset_lt. solve_terminates. Qed.
#[export] Hint Resolve terminates_asset_lt : terminates.
Lemma terminates_asset_ops a b :
  terminates (asset_neg a) ∧ terminates (asset_ge a b) ∧ terminates (asset_le a b) ∧
  terminates (asset_add a b) ∧ terminates (asset_sub a b).
Proof. unfold asset_neg, asset_ge, asset_le, asset_add, asset_sub. split_and!; solve_terminates. Qed.
#[export] Hint Extern 1 (terminates (asset_neg ?a)) => apply (terminates_asset_ops a a) : terminates.
#[export] Hint Extern 1 (terminates (asset_ge ?a ?b)) => apply (terminates_asset_ops a b) : terminates.
#[export] Hint Extern 1 (terminates (asset_add ?a ?b)) => apply (terminates_asset_ops a b) : terminates.
Lemma terminates_scale x y z : terminates (scale_down x y z) ∧ terminates (scale_up x y z).
Proof. unfold scale_down, scale_up. split; solve_terminates. Qed.
Lemma terminates_asset_mul a p : terminates (asset_mul a p) ∧ terminates (multiply_and_round_up a p).
Proof. unfold asset_mul, multiply_and_round_up, asset_mul_with. split; solve_terminates; apply terminates_scale. Qed.
#[export] Hint Extern 1 (terminates (asset_mul ?a ?p)) => apply (terminates_asset_mul a p) : terminates.
#[export] Hint Extern 1 (terminates (multiply_and_round_up ?a ?p)) => apply (terminates_asset_mul a p) : terminates.
#[export] Hint Extern 1 (terminates (asset_sub ?a ?b)) => apply (terminates_asset_ops a b) : terminates.
#[export] Hint Extern 1 (terminates (asset_le ?a ?b)) => apply (terminates_asset_ops a b) : terminates.
