(* ===== verification/Authority.v ===== *)
(** * Authorities

    [protocol/authority.hpp], [protocol/transaction.cpp]: an authority is a set of
    weighted keys, addresses and accounts; a transaction must be signed such that
    the authority of every account its operations require is satisfied, and no
    signature may be useless.  Keys and addresses are numbers (instances of the
    hashes the source packs them into); the addresses of a key and the accounts'
    authorities are parameters of a section. *)
From stdpp Require Import sorting.
From S2P Require Import Prelude Safe Asset.

(** The maps of an authority are lists in key order, as [flat_map] keeps them. *)
Record authority : Type := AuthorityOf {
  weight_threshold : Z;
  account_auths : list (Z * Z);
  key_auths : list (Z * Z);
  address_auths : list (Z * Z) }.

Definition auths (a : authority) : list (Z * Z) := a.(account_auths) ++ a.(key_auths) ++ a.(address_auths).
Definition is_impossible (a : authority) : bool :=
  u64 (lsum snd (auths a)) <? a.(weight_threshold).
Definition null_authority : authority := AuthorityOf 1 [(GRAPHENE_NULL_ACCOUNT, 1)] [] [].
Definition add_authority_accounts (result : gset Z) (a : authority) : gset Z :=
  foldl (λ r x, {[x.1]} ∪ r) result a.(account_auths).

(** ** The state of the verification *)
Record sign_state : Type := SignState {
  provided_address_sigs : option (gmap Z Z);   (* built at the first address *)
  provided_signatures : gmap Z bool;
  approved_by : gset Z }.
#[export] Instance eta_sign_state : Eta sign_state := λ x,
  SignState x.(provided_address_sigs) x.(provided_signatures) x.(approved_by).

(** What operations require. *)
Record required_authorities : Type := Required {
  required_active : gset Z;
  required_owner : gset Z;
  required_other : list authority }.

#[export] Instance eta_required_authorities : Eta required_authorities := λ x,
  Required x.(required_active) x.(required_owner) x.(required_other).

Definition in_order (s : gset Z) : list Z := merge_sort Z.le (elements s).

Section sign_state.
Context (addresses_of : Z → list Z) (get_active get_owner : Z → result (option authority)) (available_keys : gset Z).

Definition signed_by_key (s : sign_state) (k : Z) : sign_state * bool :=
  let mark := s <| provided_signatures := <[k := true]> s.(provided_signatures) |> in
  match s.(provided_signatures) !! k with
  | None => if bool_decide (k ∈ available_keys) then (mark, true) else (s, false)
  | Some _ => (mark, true)
  end.

(** The five addresses of each key: the last key with an address keeps it. *)
Definition add_addresses (m : gmap Z Z) (k : Z) : gmap Z Z := foldl (λ m a, <[a := k]> m) m (addresses_of k).
Definition address_sigs (keys : gset Z) : gmap Z Z := foldl add_addresses ∅ (in_order keys).

Definition signed_by_address (s : sign_state) (a : Z) : sign_state * bool :=
  let provided := match s.(provided_address_sigs) with
                  | Some m => m | None => address_sigs (dom s.(provided_signatures)) end in
  let s := s <| provided_address_sigs := Some provided |> in
  let mark k := (s <| provided_signatures := <[k := true]> s.(provided_signatures) |>, true) in
  match provided !! a with
  | None =>
      match address_sigs available_keys !! a with
      | Some k => if bool_decide (k ∈ available_keys) then mark k else (s, false)
      | None => (s, false)
      end
  | Some k => mark k
  end.

(** One of the three loops of [check_authority]: the weights of the members
    that vote are added until the threshold is reached. *)
Fixpoint weigh (vote : sign_state → Z → result (sign_state * bool)) (threshold : Z) (l : list (Z * Z)) (s : sign_state)
    (total_weight : Z) : result (sign_state * Z * bool) :=
  match l with
  | [] => Ok (s, total_weight, false)
  | (x, w) :: l =>
      '(s1, ok) ← vote s x;
      if ok : bool then
        let total_weight := u32 (total_weight + w) in
        if threshold <=? total_weight then Ok (s1, total_weight, true) else weigh vote threshold l s1 total_weight
      else weigh vote threshold l s1 total_weight
  end.

(** [n] is how deep the accounts may still be followed: [max_recursion - depth]. *)
Fixpoint check_authority (n : nat) (s : sign_state) (au : option authority) : result (sign_state * bool) :=
  match au with
  | None => Ok (s, false)
  | Some auth =>
      '(s1, t1, done) ← weigh (λ s k, Ok (signed_by_key s k)) auth.(weight_threshold) auth.(key_auths) s 0;
      if done : bool then Ok (s1, true) else
      '(s2, t2, done) ← weigh (λ s a, Ok (signed_by_address s a)) auth.(weight_threshold) auth.(address_auths) s1 t1;
      if done : bool then Ok (s2, true) else
      '(s3, t3, done) ← weigh (λ s a,
          if bool_decide (a ∈ s.(approved_by)) then Ok (s, true)
          else match n with
               | O => Ok (s, false)
               | S n =>
                   active ← get_active a;
                   '(s', ok) ← check_authority n s active;
                   Ok (if ok : bool then (s' <| approved_by ::= union {[a]} |>, true) else (s', false))
               end) auth.(weight_threshold) auth.(account_auths) s2 t2;
      if done : bool then Ok (s3, true) else Ok (s3, auth.(weight_threshold) <=? t3)
  end.

Definition check_account (max_recursion : nat) (s : sign_state) (id : Z) : result (sign_state * bool) :=
  if bool_decide (id ∈ s.(approved_by)) then Ok (s, true)
  else active ← get_active id; check_authority max_recursion s active.

(** Drops what was not used; whether there was any. *)
Definition remove_unused_signatures (s : sign_state) : sign_state * bool :=
  (s <| provided_signatures := filter (λ x, x.2 = true) s.(provided_signatures) |>,
   bool_decide (map_Exists (λ _ used, used = false) s.(provided_signatures))).

Definition start_state (sigs : gset Z) : sign_state :=
  SignState None (gset_to_gmap false sigs) {[GRAPHENE_TEMP_ACCOUNT]}.

Definition check_other (max_recursion : nat) (s : sign_state) (auth : authority) : result sign_state :=
  '(s, ok) ← check_authority max_recursion s (Some auth); _ ← GRAPHENE_ASSERT ok tx_missing_other_auth; Ok s.
Definition check_owner (max_recursion : nat) (owner_approvals : gset Z) (s : sign_state) (id : Z) : result sign_state :=
  if bool_decide (id ∈ owner_approvals) then Ok s
  else
    owner ← get_owner id;
    '(s, ok) ← check_authority max_recursion s owner; _ ← GRAPHENE_ASSERT ok tx_missing_owner_auth; Ok s.
Definition try_active (max_recursion : nat) (s : sign_state) (id : Z) : result (sign_state * bool) :=
  '(s, ok) ← check_account max_recursion s id;
  if ok : bool then Ok (s, true)
  else owner ← get_owner id; check_authority max_recursion s owner.
Definition check_active (max_recursion : nat) (s : sign_state) (id : Z) : result sign_state :=
  '(s, ok) ← try_active max_recursion s id; _ ← GRAPHENE_ASSERT ok tx_missing_active_auth; Ok s.

End sign_state.

(** ** What the operations of a transaction require *)
Section verify_authority.
Context (addresses_of : Z → list Z) (get_active get_owner : Z → result (option authority)).
Context {OP : Type} (operation_get_required_authorities : OP → required_authorities).

Definition get_required_authorities (ops : list OP) : required_authorities :=
  foldl (λ r op, let q := operation_get_required_authorities op in
    Required (r.(required_active) ∪ q.(required_active)) (r.(required_owner) ∪ q.(required_owner))
      (r.(required_other) ++ q.(required_other))) (Required ∅ ∅ []) ops.

Definition verify_authority (ops : list OP) (sigs : gset Z) (max_recursion_depth : nat) (allow_committee : bool)
    (active_approvals owner_approvals : gset Z) : result unit :=
  let r := get_required_authorities ops in
  _ ← (if allow_committee then Ok tt
       else GRAPHENE_ASSERT (negb (bool_decide (GRAPHENE_COMMITTEE_ACCOUNT ∈ r.(required_active)))) invalid_committee_approval);
  let s := (start_state sigs) <| approved_by ::= union (active_approvals ∪ owner_approvals) |> in
  s ← foldM (check_other addresses_of get_active ∅ max_recursion_depth) s r.(required_other);
  s ← foldM (check_owner addresses_of get_active get_owner ∅ max_recursion_depth owner_approvals) s (in_order r.(required_owner));
  s ← foldM (check_active addresses_of get_active get_owner ∅ max_recursion_depth) s (in_order r.(required_active));
  GRAPHENE_ASSERT (negb (remove_unused_signatures s).2) tx_irrelevant_sig.

(** ** Which signatures a wallet has to add

    The keys it has are [available_keys]; those that are needed and not yet
    there are the result. *)
Definition get_required_signatures (available_keys : gset Z) (ops : list OP) (signature_keys : gset Z) (max_recursion_depth : nat) : result (gset Z) :=
  let r := get_required_authorities ops in
  let r := r <| required_active := r.(required_active) ∖ r.(required_owner) |> in
  let s := start_state signature_keys in
  s ← foldM (λ s auth, fst <$> check_authority addresses_of get_active available_keys max_recursion_depth s (Some auth)) s r.(required_other);
  s ← foldM (λ s id, owner ← get_owner id; fst <$> check_authority addresses_of get_active available_keys max_recursion_depth s owner) s (in_order r.(required_owner));
  s ← foldM (λ s id, fst <$> try_active addresses_of get_active get_owner available_keys max_recursion_depth s id) s (in_order r.(required_active));
  let s := (remove_unused_signatures s).1 in
  Ok (filter (λ k, k ∈ available_keys ∧ k ∉ signature_keys) (dom s.(provided_signatures))).

(** Each key in turn is left out where the verification does without it. *)
Definition drop_key (ops : list OP) (max_recursion : nat) (result : gset Z) (k : Z) : Prelude.result (gset Z) :=
  let erased := result ∖ {[k]} in
  match verify_authority ops erased max_recursion false ∅ ∅ with
  | Ok _ => Ok erased
  | Err e =>
      if bool_decide (e ∈ [tx_missing_owner_auth; tx_missing_active_auth; tx_missing_other_auth]) then Ok ({[k]} ∪ erased) else Err e
  end.
Definition minimize_required_signatures (available_keys : gset Z) (ops : list OP) (signature_keys : gset Z) (max_recursion : nat) :
    result (gset Z) :=
  s ← get_required_signatures available_keys ops signature_keys max_recursion;
  foldM (drop_key ops max_recursion) s (in_order s).
End verify_authority.

(** ** The reference: who an authority is satisfied by

    Without the order of the loops, their early exits, the memory of approved
    accounts and the marks on signatures. *)
Definition weight (p : Z → bool) (l : list (Z * Z)) : Z := lsum (λ x, if p x.1 then x.2 else 0) l.

Section reference.
Context (addresses_of : Z → list Z) (get_active : Z → result (option authority)).

Definition has_address (keys : gset Z) (a : Z) : bool := existsb (λ k, bool_decide (a ∈ addresses_of k)) (elements keys).

Fixpoint satisfied (keys approved : gset Z) (n : nat) (au : option authority) : bool :=
  match au with
  | None => false
  | Some auth =>
      auth.(weight_threshold) <=? weight (λ k, bool_decide (k ∈ keys)) auth.(key_auths) + weight (has_address keys) auth.(address_auths)
        + weight (λ a, bool_decide (a ∈ approved) ||
                         match n with
                         | O => false
                         | S n => match get_active a with Ok active => satisfied keys approved n active | Err _ => false end
                         end) auth.(account_auths)
  end.

(** The keys an authority speaks of, at most [n] accounts away. *)
Fixpoint relevant (n : nat) (au : option authority) (k : Z) : Prop :=
  match au with
  | None => False
  | Some auth =>
      k ∈ auth.(key_auths).*1 ∨ (∃ a, a ∈ auth.(address_auths).*1 ∧ a ∈ addresses_of k) ∨
      match n with
      | O => False
      | S n => ∃ a active, a ∈ auth.(account_auths).*1 ∧ get_active a = Ok active ∧ relevant n active k
      end
  end.
End reference.

(** The widths of the C++ fields, and a sum of weights that fits in 32 bits. *)
Definition auth_wf (a : authority) : Prop :=
  0 ≤ a.(weight_threshold) ∧ Forall (λ x, 0 ≤ x.2) (auths a) ∧ lsum snd (auths a) < 2 ^ 32.
Definition auth_wf_opt (au : option authority) : Prop := match au with Some a => auth_wf a | None => True end.

(** [ev P]: [P] from some number on. *)
Definition ev (P : nat → Prop) : Prop := ∃ m0, ∀ m, (m0 ≤ m)%nat → P m.
Lemma ev_all (P : nat → Prop) : (∀ m, P m) → ev P.
Proof. intros H. by exists 0%nat. Qed.
Lemma ev_and (P Q R : nat → Prop) : ev P → ev Q → (∀ m, P m → Q m → R m) → ev R.
Proof. intros [m1 H1] [m2 H2] H. exists (m1 + m2)%nat. intros m Hm. apply H; [apply H1|apply H2]; lia. Qed.
Lemma ev_impl (P R : nat → Prop) : ev P → (∀ m, P m → R m) → ev R.
Proof. intros [m1 H1] H. exists m1. auto. Qed.

(** ** The weighing loops *)
Lemma weight_mono p q l : Forall (λ x, 0 ≤ x.2) l → (∀ x, x ∈ l.*1 → p x = true → q x = true) → weight p l ≤ weight q l.
Proof.
  unfold weight. induction 1 as [|[x w] l Hw Hl IH]; intros H; cbn in *; [lia|].
  specialize (IH (λ y Hy, H y (proj2 (elem_of_cons _ _ _) (or_intror Hy)))). pose proof (H x (proj2 (elem_of_cons _ _ _) (or_introl eq_refl))) as Hx.
  destruct (p x); [rewrite Hx by done|destruct (q x)]; lia.
Qed.
Lemma weight_le p l : Forall (λ x, 0 ≤ x.2) l → 0 ≤ weight p l ≤ lsum snd l.
Proof. unfold weight. induction 1 as [|[x w] l Hw Hl IH]; cbn in *; [lia|]. destruct (p x); lia. Qed.

Section weigh.
Context (vote : sign_state → Z → result (sign_state * bool)) (threshold : Z) (I : sign_state → Prop).

Lemma weigh_inv (R : relation sign_state) `{!PreOrder R} l s t s' t' r :
  (∀ s x s' b, x ∈ l.*1 → I s → vote s x = Ok (s', b) → I s' ∧ R s s') → I s → weigh vote threshold l s t = Ok (s', t', r) → I s' ∧ R s s'.
Proof using Type.
  revert s t. induction l as [|[x w] l IH]; intros s t Hv Hs H; cbn in H; [injection H as <- <- <-; by split|].
  apply bind_Ok in H as ([s1 ok] & H1 & H). apply Hv in H1 as [I1 R1]; [|set_solver|done].
  assert (∀ t, weigh vote threshold l s1 t = Ok (s', t', r) → I s' ∧ R s s') as Hgo.
  { intros t0 H0. destruct (IH s1 t0 (λ s x s' b Hx, Hv s x s' b (proj2 (elem_of_cons _ _ _) (or_intror Hx))) I1 H0) as [I2 R2].
    split; [done|by etransitivity]. }
  destruct ok; [|by eapply Hgo]. cbv zeta in H. destruct (_ <=? _); [injection H as <- <- <-; by split|by eapply Hgo].
Qed.

Lemma weigh_sound (P : nat → Z → bool) l s t s' t' r :
  (∀ s x s' b, x ∈ l.*1 → I s → vote s x = Ok (s', b) → I s' ∧ (b = true → ev (λ m, P m x = true))) →
  Forall (λ x, 0 ≤ x.2) l → 0 ≤ t → I s → weigh vote threshold l s t = Ok (s', t', r) →
  0 ≤ t' ∧ (r = true → threshold ≤ t') ∧ ev (λ m, t' ≤ t + weight (P m) l).
Proof using Type.
  unfold weight. revert s t. induction l as [|[x w] l IH]; intros s t Hv Hw Ht Hs H; cbn in H.
  { injection H as <- <- <-. split; [done|]. split; [done|]. apply ev_all. cbn. lia. }
  apply Forall_cons in Hw as [Hw0 Hw]. cbn in Hw0. pose proof (weight_le) as Hle. unfold weight in Hle.
  apply bind_Ok in H as ([s1 ok] & H1 & H). apply Hv in H1 as [I1 P1]; [|set_solver|done].
  pose proof (IH s1) as IH1. specialize (λ t, IH1 t (λ s x s' b Hx, Hv s x s' b (proj2 (elem_of_cons _ _ _) (or_intror Hx))) Hw).
  assert (0 ≤ u32 (t + w) ≤ t + w) as Hu by (unfold u32; split; [apply Z.mod_pos_bound; lia|apply Z.mod_le; lia]).
  destruct ok; cbv zeta in H; [specialize (P1 eq_refl); destruct (Z.leb_spec threshold (u32 (t + w)))|].
  - injection H as <- <- <-. split; [lia|]. split; [done|]. apply (ev_impl _ _ P1). intros m Hm. cbn. rewrite Hm.
    pose proof (Hle (P m) l Hw). lia.
  - apply IH1 in H as (A & B & C); [|lia|done]. split; [done|]. split; [done|].
    apply (ev_and _ _ _ P1 C). intros m Hm Hm'. cbn. rewrite Hm. lia.
  - apply IH1 in H as (A & B & C); [|lia|done]. split; [done|]. split; [done|]. apply (ev_impl _ _ C). intros m Hm. cbn.
    destruct (P m x); lia.
Qed.

Lemma weigh_complete (Q : Z → bool) l s t s' t' r :
  (∀ s x s' b, x ∈ l.*1 → I s → vote s x = Ok (s', b) → I s' ∧ (Q x = true → b = true)) →
  Forall (λ x, 0 ≤ x.2) l → 0 ≤ t → t + lsum snd l < 2 ^ 32 → I s → weigh vote threshold l s t = Ok (s', t', r) →
  t' ≤ t + lsum snd l ∧ (r = true ∨ t + weight Q l ≤ t').
Proof using Type.
  unfold weight. revert s t. induction l as [|[x w] l IH]; intros s t Hv Hw Ht Hb Hs H; cbn in H.
  { injection H as <- <- <-. cbn. lia. }
  apply Forall_cons in Hw as [Hw0 Hw]. cbn in Hw0, Hb. pose proof (weight_le (λ _, false) l Hw) as Hle.
  apply bind_Ok in H as ([s1 ok] & H1 & H). apply Hv in H1 as [I1 Q1]; [|set_solver|done].
  pose proof (IH s1) as IH1. specialize (λ t, IH1 t (λ s x s' b Hx, Hv s x s' b (proj2 (elem_of_cons _ _ _) (or_intror Hx))) Hw).
  assert (u32 (t + w) = t + w) as Hu by (unfold u32; apply Z.mod_small; lia).
  destruct ok; cbv zeta in H; [rewrite Hu in H; destruct (Z.leb_spec threshold (t + w))|].
  - injection H as <- <- <-. cbn. split; [lia|by left].
  - apply IH1 in H as (A & B); [|lia..|done]. cbn. split; [lia|]. destruct B; [by left|right]. destruct (Q x); lia.
  - apply IH1 in H as (A & B); [|lia..|done]. cbn. split; [lia|]. destruct B; [by left|right].
    destruct (Q x); [by specialize (Q1 eq_refl)|]. lia.
Qed.
End weigh.

(** ** How the state of the verification grows *)
Record later (s s' : sign_state) : Prop := {
  lt_approved : s.(approved_by) ⊆ s'.(approved_by);
  lt_used : ∀ k, s.(provided_signatures) !! k = Some true → s'.(provided_signatures) !! k = Some true }.
#[export] Instance later_preorder : PreOrder later.
Proof. split; [by split|]. intros s1 s2 s3 [A1 A2] [B1 B2]. split; [set_solver|auto]. Qed.

(** Nothing but [P] is marked on the way. *)
Definition marks (P : Z → Prop) (s s' : sign_state) : Prop :=
  ∀ k, s'.(provided_signatures) !! k = Some true → s.(provided_signatures) !! k = Some true ∨ P k.
#[export] Instance marks_preorder P : PreOrder (marks P).
Proof. split; [by left|]. intros s1 s2 s3 A B k H. destruct (B k H) as [H'|]; [by apply A|by right]. Qed.

(** ** Signatures of addresses *)
Section signatures.
Context (addresses_of : Z → list Z).

Lemma add_addresses_lookup m k a :
  add_addresses addresses_of m k !! a = if bool_decide (a ∈ addresses_of k) then Some k else m !! a.
Proof using Type.
  unfold add_addresses. revert m. induction (addresses_of k) as [|b l IH]; intros m; cbn [foldl]; [done|]. rewrite IH.
  destruct (decide (a ∈ l)); [rewrite !bool_decide_true by set_solver; reflexivity|]. rewrite (bool_decide_false (a ∈ l)) by done.
  destruct (decide (a = b)) as [->|]; [rewrite lookup_insert_eq, bool_decide_true; [done|set_solver]|].
  rewrite lookup_insert_ne by done. rewrite bool_decide_false; [done|set_solver].
Qed.

Lemma in_order_elem k s : k ∈ in_order s ↔ k ∈ s.
Proof using Type. unfold in_order. by rewrite merge_sort_Permutation, elem_of_elements. Qed.

Lemma added_addresses_Some l m a k :
  foldl (add_addresses addresses_of) m l !! a = Some k → (k ∈ l ∧ a ∈ addresses_of k) ∨ m !! a = Some k.
Proof using Type.
  revert m. induction l as [|x l IH]; intros m H; cbn [foldl] in H; [by right|]. apply IH in H as [[H Ha]|H]; [left; set_solver|].
  rewrite add_addresses_lookup in H. case_bool_decide; [injection H as <-; left; set_solver|by right].
Qed.
Lemma address_sigs_Some keys a k : address_sigs addresses_of keys !! a = Some k → k ∈ keys ∧ a ∈ addresses_of k.
Proof using Type.
  unfold address_sigs. rewrite <-(in_order_elem k). intros H. apply added_addresses_Some in H as [H|H]; [done|by rewrite lookup_empty in H].
Qed.

Lemma address_sigs_is_Some keys a k : k ∈ keys → a ∈ addresses_of k → is_Some (address_sigs addresses_of keys !! a).
Proof using Type.
  intros Hk Ha. unfold address_sigs. apply in_order_elem in Hk. assert (k ∈ in_order keys ∨ is_Some ((∅ : gmap Z Z) !! a)) as H by by left.
  revert H. generalize (∅ : gmap Z Z) as m. generalize (in_order keys) as l. induction l as [|x l IH]; intros m H; cbn [foldl].
  { destruct H as [H|H]; [set_solver|done]. }
  apply IH. destruct H as [H|H].
  - apply elem_of_cons in H as [->|H]; [right|by left]. rewrite add_addresses_lookup, bool_decide_true by done. eauto.
  - right. rewrite add_addresses_lookup. case_bool_decide; eauto.
Qed.

Lemma has_address_true keys a : has_address addresses_of keys a = true ↔ ∃ k, k ∈ keys ∧ a ∈ addresses_of k.
Proof using Type.
  unfold has_address. rewrite existsb_exists. split.
  - intros (k & Hk & H). apply list_elem_of_In, elem_of_elements in Hk. apply bool_decide_eq_true in H. eauto.
  - intros (k & Hk & H). exists k. split; [by apply list_elem_of_In, elem_of_elements|by apply bool_decide_eq_true].
Qed.

Context (available : gset Z).

(** The keys that count: provided with the transaction, or available to sign it. *)
Record state_ok (sigs : gset Z) (s : sign_state) : Prop := {
  so_sigs : sigs ⊆ dom s.(provided_signatures);
  so_dom : dom s.(provided_signatures) ⊆ sigs ∪ available;
  so_found : ∀ m a k, s.(provided_address_sigs) = Some m → m !! a = Some k → k ∈ dom s.(provided_signatures) ∧ a ∈ addresses_of k;
  so_known : ∀ m a k, s.(provided_address_sigs) = Some m → k ∈ sigs → a ∈ addresses_of k → is_Some (m !! a) }.

Definition mark (s : sign_state) (k : Z) : sign_state := s <| provided_signatures := <[k := true]> s.(provided_signatures) |>.
Lemma mark_spec sigs s k : state_ok sigs s → k ∈ sigs ∪ available →
  state_ok sigs (mark s k) ∧ later s (mark s k) ∧ marks (eq k) s (mark s k).
Proof.
  intros [A B C D] Hk. split; [|split].
  - split; cbn; rewrite ?dom_insert_L; [set_solver|set_solver| |done]. intros m a k' Hm Ha. destruct (C m a k' Hm Ha). split; [set_solver|done].
  - split; [done|]. intros k' H. cbn. destruct (decide (k = k')) as [->|]; [by rewrite lookup_insert_eq|by rewrite lookup_insert_ne].
  - intros k' H. cbn in H. apply lookup_insert_Some in H as [[-> _]|[_ H]]; auto.
Qed.

Lemma signed_by_key_spec sigs s k s' b :
  state_ok sigs s → signed_by_key available s k = (s', b) →
  state_ok sigs s' ∧ later s s' ∧ marks (eq k) s s' ∧ s'.(approved_by) = s.(approved_by) ∧ b = bool_decide (k ∈ sigs ∪ available).
Proof.
  intros Hs H. unfold signed_by_key in H. fold (mark s k) in H.
  assert (k ∈ sigs ∪ available → (mark s k, true) = (s', b) → state_ok sigs s' ∧ later s s' ∧ marks (eq k) s s' ∧
    s'.(approved_by) = s.(approved_by) ∧ b = bool_decide (k ∈ sigs ∪ available)) as Hm.
  { intros Hk [= <- <-]. destruct (mark_spec _ _ _ Hs Hk) as (? & ? & ?). by rewrite bool_decide_true. }
  destruct (_ !! k) eqn:E; [apply Hm; [|exact H]; apply (so_dom _ _ Hs); by apply elem_of_dom|].
  destruct (bool_decide_reflect (k ∈ available)); [apply Hm; [set_solver|exact H]|]. injection H as <- <-. split; [done|]. split; [done|]. split; [reflexivity|]. split; [done|].
  rewrite bool_decide_false; [done|]. apply not_elem_of_dom in E. pose proof (so_sigs _ _ Hs). set_solver.
Qed.

Lemma signed_by_address_spec sigs s a s' b :
  state_ok sigs s → signed_by_address addresses_of available s a = (s', b) →
  state_ok sigs s' ∧ later s s' ∧ marks (λ k, a ∈ addresses_of k) s s' ∧ s'.(approved_by) = s.(approved_by) ∧
  b = has_address addresses_of (sigs ∪ available) a.
Proof.
  intros Hs H. unfold signed_by_address in H. set (m := match s.(provided_address_sigs) with Some m => m | None => _ end) in H.
  set (s1 := s <| provided_address_sigs := Some m |>) in *.
  assert (state_ok sigs s1) as Hs1.
  { destruct Hs as [A B C D]. split; [exact A|exact B| |]; intros m' a' k Hm; cbn in Hm; apply Some_inj in Hm as <-; subst m; cbn;
      destruct (provided_address_sigs s) as [m0|] eqn:E.
    - intros H0. by apply (C m0).
    - apply address_sigs_Some.
    - intros Hk Ha. by apply (D m0 _ k).
    - intros Hk Ha. apply (address_sigs_is_Some _ _ k); [by apply A|done]. }
  assert (∀ k, k ∈ sigs ∪ available → a ∈ addresses_of k → (mark s1 k, true) = (s', b) → state_ok sigs s' ∧ later s s' ∧
    marks (λ k, a ∈ addresses_of k) s s' ∧ s'.(approved_by) = s.(approved_by) ∧ b = has_address addresses_of (sigs ∪ available) a) as Hm.
  { intros k Hk Ha [= <- <-]. destruct (mark_spec _ _ _ Hs1 Hk) as (? & [L1 L2] & Hmk). split; [done|]. split; [by split|].
    split; [intros k' Hk'; destruct (Hmk k' Hk') as [|<-]; auto|]. split; [done|]. symmetry. apply has_address_true. eauto. }
  destruct (m !! a) as [k|] eqn:E.
  { destruct (so_found _ _ Hs1 _ _ _ eq_refl E). apply (Hm k); [by apply (so_dom _ _ Hs1)|done|exact H]. }
  destruct (address_sigs addresses_of available !! a) as [k|] eqn:E2.
  { apply address_sigs_Some in E2 as [Hk Ha]. rewrite bool_decide_true in H by done. apply (Hm k); [set_solver|done|exact H]. }
  injection H as <- <-. split; [done|]. split; [done|]. split; [by left|]. split; [done|]. symmetry. apply not_true_iff_false. intros Ht.
  apply has_address_true in Ht as (k & Hk & Ha). apply elem_of_union in Hk as [Hk|Hk].
  - destruct (so_known _ _ Hs1 _ _ _ eq_refl Hk Ha) as [x Hx]. congruence.
  - destruct (address_sigs_is_Some _ _ _ Hk Ha) as [x Hx]. congruence.
Qed.
End signatures.

Lemma weigh_spec vote thr (I : sign_state → Prop) (R : relation sign_state) `{!PreOrder R} (P : nat → Z → bool) (Q : Z → bool) l s t s' t' r :
  (∀ s x s' b, x ∈ l.*1 → I s → vote s x = Ok (s', b) →
     I s' ∧ R s s' ∧ (b = true → ev (λ m, P m x = true)) ∧ (Q x = true → b = true)) →
  Forall (λ x, 0 ≤ x.2) l → 0 ≤ t → t + lsum snd l < 2 ^ 32 → I s → weigh vote thr l s t = Ok (s', t', r) →
  I s' ∧ R s s' ∧ 0 ≤ t' ≤ t + lsum snd l ∧ (r = true → thr ≤ t') ∧ ev (λ m, t' ≤ t + weight (P m) l) ∧ (r = true ∨ t + weight Q l ≤ t').
Proof.
  intros Hv Hw Ht Hb Hs H.
  destruct (weigh_inv vote thr I R l s t s' t' r) as [I' R']; [intros; edestruct Hv as (? & ? & _); by eauto|done..|].
  destruct (weigh_sound vote thr I P l s t s' t' r) as (A & B & C); [intros; edestruct Hv as (? & _ & ? & _); by eauto|done..|].
  destruct (weigh_complete vote thr I Q l s t s' t' r) as (D & E); [intros; edestruct Hv as (? & _ & _ & ?); by eauto|done..|].
  done.
Qed.

(** ** The check and the reference *)
Section check.
Context (addresses_of : Z → list Z) (get_active : Z → result (option authority)) (available : gset Z).
Context (active_wf : ∀ a au, get_active a = Ok (Some au) → auth_wf au).
Context (sigs approved0 : gset Z).
#[local] Notation keys := (sigs ∪ available).
#[local] Notation satisfied := (satisfied addresses_of get_active keys).
#[local] Notation relevant := (relevant addresses_of get_active).

Definition account_ok (approved : gset Z) (n : nat) (a : Z) : bool :=
  bool_decide (a ∈ approved) ||
  match n with O => false | S n => match get_active a with Ok active => satisfied approved n active | Err _ => false end end.
Lemma satisfied_eq approved n auth : satisfied approved n (Some auth) =
  (auth.(weight_threshold) <=? weight (λ k, bool_decide (k ∈ keys)) auth.(key_auths) + weight (has_address addresses_of keys) auth.(address_auths)
     + weight (account_ok approved n) auth.(account_auths)).
Proof using Type. by destruct n. Qed.

Lemma satisfied_mono approved approved' n n' au :
  auth_wf_opt au → approved ⊆ approved' → (n ≤ n')%nat → satisfied approved n au = true → satisfied approved' n' au = true.
Proof using active_wf.
  intros Hwf Ha. revert n' au Hwf. induction n as [|n IH]; intros n' [auth|] Hwf Hn; rewrite ?satisfied_eq; try done; intros H%Z.leb_le;
    apply Z.leb_le; (etransitivity; [exact H|]); apply Z.add_le_mono_l;
    (apply weight_mono; [destruct Hwf as (_ & Hw & _); unfold auths in Hw; apply Forall_app in Hw; apply Hw|]); intros a _; unfold account_ok;
    intros Hx%orb_prop; apply orb_true_iff; rewrite !bool_decide_eq_true in *; (destruct Hx as [Hx|Hx]; [left; set_solver|]).
  - done.
  - right. destruct n' as [|n']; [lia|]. destruct (get_active a) as [au|] eqn:E; [|done]. apply IH; [|lia|done].
    destruct au; [by eapply active_wf|done].
Qed.

Definition approved_sound (s : sign_state) : Prop := ∀ a, a ∈ s.(approved_by) → ev (λ m, account_ok approved0 m a = true).
Definition moved (P : Z → Prop) (s s' : sign_state) : Prop := later s s' ∧ marks P s s'.
#[export] Instance moved_preorder P : PreOrder (moved P).
Proof using Type.
  split; [intros s; split; reflexivity|]. intros s1 s2 s3 [A1 A2] [B1 B2]. split; [by etransitivity|by etransitivity].
Qed.
Lemma moved_weaken (P Q : Z → Prop) s s' : (∀ k, P k → Q k) → moved P s s' → moved Q s s'.
Proof using Type. intros H [A B]. split; [done|]. intros k Hk. destruct (B k Hk); auto. Qed.

(** What holds while the check runs, and what it shows. *)
Definition running (s : sign_state) : Prop := state_ok addresses_of available sigs s ∧ approved_sound s.
Definition checked (n : nat) (s : sign_state) (au : option authority) (s' : sign_state) (b : bool) : Prop :=
  running s' ∧ moved (relevant n au) s s' ∧ (b = true → ev (λ m, satisfied approved0 m au = true)) ∧
  (satisfied s.(approved_by) n au = true → b = true).

(** The vote of an account, given the check of its authority. *)
Definition account_vote (n : nat) (s : sign_state) (a : Z) : result (sign_state * bool) :=
  if bool_decide (a ∈ s.(approved_by)) then Ok (s, true)
  else match n with
       | O => Ok (s, false)
       | S n =>
           active ← get_active a;
           '(s', ok) ← check_authority addresses_of get_active available n s active;
           Ok (if ok : bool then (s' <| approved_by ::= union {[a]} |>, true) else (s', false))
       end.

Definition check_sound (n : nat) : Prop := ∀ s au s' b,
  auth_wf_opt au → running s → check_authority addresses_of get_active available n s au = Ok (s', b) → checked n s au s' b.

Lemma account_vote_spec n s a s' b :
  (∀ m, n = S m → check_sound m) → running s → account_vote n s a = Ok (s', b) →
  running s' ∧ moved (λ k, ∃ m active, n = S m ∧ get_active a = Ok active ∧ relevant m active k) s s' ∧
  (b = true → ev (λ m, account_ok approved0 m a = true)) ∧ (account_ok s.(approved_by) n a = true → b = true).
Proof using active_wf.
  intros IH Hs H. unfold account_vote in H. destruct (bool_decide_reflect (a ∈ s.(approved_by))) as [Ha|Ha].
  { injection H as <- <-. split; [done|]. split; [reflexivity|]. split; [intros _; by apply Hs|done]. }
  unfold account_ok at 2. rewrite (bool_decide_false _ Ha). destruct n as [|n]; [by injection H as <- <-|]. specialize (IH n eq_refl).
  apply bind_Ok in H as (active & Hac & H). apply bind_Ok in H as ([s1 ok] & H1 & H). rewrite Hac. cbn [orb].
  assert (auth_wf_opt active) as Hwf by (destruct active; [by eapply active_wf|done]).
  destruct (IH _ _ _ _ Hwf Hs H1) as ([So Ap] & [L M] & S1 & C1). destruct ok; injection H as <- <-; cbn.
  - assert (ev (λ m, account_ok approved0 m a = true)) as Hev.
    { destruct (S1 eq_refl) as [m0 Hm]. exists (S m0). intros [|m] Hle; [lia|]. unfold account_ok. rewrite Hac, Hm by lia. apply orb_true_r. }
    split; [|split; [|done]].
    + split; [by destruct So|]. intros x Hx. cbn in Hx. apply elem_of_union in Hx as [Hx|Hx]; [by apply elem_of_singleton in Hx as ->|by apply Ap].
    + split; [destruct L; split; [cbn; set_solver|done]|]. intros k Hk. destruct (M k Hk); [by left|right]. eauto.
  - split; [done|]. split; [|done]. split; [done|]. intros k Hk. destruct (M k Hk); [by left|right]. eauto.
Qed.

Lemma check_authority_eq n s auth : check_authority addresses_of get_active available n s (Some auth) =
  ('(s1, t1, done) ← weigh (λ s k, Ok (signed_by_key available s k)) auth.(weight_threshold) auth.(key_auths) s 0;
   if done : bool then Ok (s1, true) else
   '(s2, t2, done) ← weigh (λ s a, Ok (signed_by_address addresses_of available s a)) auth.(weight_threshold) auth.(address_auths) s1 t1;
   if done : bool then Ok (s2, true) else
   '(s3, t3, done) ← weigh (account_vote n) auth.(weight_threshold) auth.(account_auths) s2 t2;
   if done : bool then Ok (s3, true) else Ok (s3, auth.(weight_threshold) <=? t3)).
Proof using Type. by destruct n. Qed.

Definition kept (P : Z → Prop) (s s' : sign_state) : Prop := moved P s s' ∧ s'.(approved_by) = s.(approved_by).
#[local] Instance kept_preorder (P : Z → Prop) : PreOrder (kept P).
Proof using Type. split; [intros s; split; reflexivity|]. intros s1 s2 s3 [A1 A2] [B1 B2]. split; [by etransitivity|congruence]. Qed.
Lemma key_vote_spec n auth s k s' b :
  k ∈ auth.(key_auths).*1 → running s → Ok (signed_by_key available s k) = Ok (s', b) →
  running s' ∧ kept (relevant n (Some auth)) s s' ∧
  (b = true → ev (λ _, bool_decide (k ∈ keys) = true)) ∧ (bool_decide (k ∈ keys) = true → b = true).
Proof using Type.
  intros Hk [Hs Ha] H. apply Ok_inj in H. destruct (signed_by_key_spec addresses_of available sigs s k s' b Hs H) as (So & L & M & Ap & ->).
  split; [split; [done|]; unfold approved_sound; by rewrite Ap|]. split; [split; [|done]|].
  - split; [done|]. intros k' Hk'. destruct (M k' Hk') as [|<-]; [by left|right]. destruct n; by left.
  - split; [|done]. intros E. by apply ev_all.
Qed.
Lemma address_vote_spec n auth s a s' b :
  a ∈ auth.(address_auths).*1 → running s → Ok (signed_by_address addresses_of available s a) = Ok (s', b) →
  running s' ∧ kept (relevant n (Some auth)) s s' ∧
  (b = true → ev (λ _, has_address addresses_of keys a = true)) ∧ (has_address addresses_of keys a = true → b = true).
Proof using Type.
  intros Hk [Hs Ha] H. apply Ok_inj in H. destruct (signed_by_address_spec addresses_of available sigs s a s' b Hs H) as (So & L & M & Ap & ->).
  split; [split; [done|]; unfold approved_sound; by rewrite Ap|]. split; [split; [|done]|].
  - split; [done|]. intros k' Hk'. destruct (M k' Hk') as [|H']; [by left|right]. destruct n; right; left; eauto.
  - split; [|done]. intros E. by apply ev_all.
Qed.

Lemma account_step_spec n auth s0 : (∀ m, (m < n)%nat → check_sound m) → ∀ s a s' b, a ∈ auth.(account_auths).*1 →
  running s ∧ s0.(approved_by) ⊆ s.(approved_by) → account_vote n s a = Ok (s', b) →
  (running s' ∧ s0.(approved_by) ⊆ s'.(approved_by)) ∧ moved (relevant n (Some auth)) s s' ∧
  (b = true → ev (λ m, account_ok approved0 m a = true)) ∧ (account_ok s0.(approved_by) n a = true → b = true).
Proof using active_wf.
  intros IH s a s' b Ha [Hs H0] H. apply account_vote_spec in H as (I & M & S & C); [|intros m ->; apply IH; lia|done].
  split; [|split; [|split; [done|]]].
  - split; [done|]. destruct M as [[L _] _]. set_solver.
  - eapply moved_weaken; [|exact M]. intros k (m & active & -> & Hac & Hk). cbn. right; right. eauto.
  - intros Hq. apply C. unfold account_ok in *. apply orb_prop in Hq as [Hq|Hq]; apply orb_true_iff.
    + left. apply bool_decide_eq_true in Hq. apply bool_decide_eq_true. set_solver.
    + right. destruct n as [|n]; [done|]. destruct (get_active a) as [au|] eqn:E; [|done].
      apply (satisfied_mono s0.(approved_by) _ n n); [|done|lia|done]. destruct au; [by eapply active_wf|done].
Qed.


Lemma check_authority_sound n : check_sound n.
Proof using active_wf.
  induction n as [n IH] using (well_founded_induction Nat.lt_wf_0). intros s [auth|] s' b Hwf Hs H;
    [|destruct n; injection H as <- <-; (split; [done|]; split; [reflexivity|done])].
  rewrite check_authority_eq in H. destruct Hwf as (Ht & Hw & Hsum). unfold auths in Hw, Hsum.
  rewrite !Forall_app in Hw. rewrite !lsum_app in Hsum. destruct Hw as (Wa & Wk & Wd).
  pose proof (weight_le (λ _, false) _ Wa) as Pa. pose proof (weight_le (λ _, false) _ Wk) as Pk. pose proof (weight_le (λ _, false) _ Wd) as Pd.
  apply bind_Ok in H as ([[s1 t1] r1] & H1 & H).
  destruct (weigh_spec _ _ running (kept (relevant n (Some auth))) (λ _ k, bool_decide (k ∈ keys)) (λ k, bool_decide (k ∈ keys)) auth.(key_auths) s 0 s1 t1 r1
    (λ s x s' b, key_vote_spec n auth s x s' b) Wk ltac:(lia) ltac:(lia) Hs H1) as (I1 & [R1 A1] & B1 & T1 & S1 & C1).
  unfold checked. rewrite satisfied_eq.
  assert (∀ m, satisfied approved0 m (Some auth) = (auth.(weight_threshold) <=? weight (λ k, bool_decide (k ∈ keys)) auth.(key_auths)
    + weight (has_address addresses_of keys) auth.(address_auths) + weight (account_ok approved0 m) auth.(account_auths))) as Eq by (intros; apply satisfied_eq).
  pose proof (λ p, weight_le p _ Wa) as La. pose proof (λ p, weight_le p _ Wd) as Ld.
  destruct r1.
  { injection H as <- <-. split; [done|]. split; [done|]. split; [|done]. intros _. apply (ev_impl _ _ S1). intros m Hm. rewrite Eq.
    apply Z.leb_le. cbn beta in *. pose proof (La (account_ok approved0 m)). pose proof (Ld (has_address addresses_of keys)). specialize (T1 eq_refl). lia. }
  apply bind_Ok in H as ([[s2 t2] r2] & H2 & H).
  destruct (weigh_spec _ _ running (kept (relevant n (Some auth))) (λ _, has_address addresses_of keys) (has_address addresses_of keys) auth.(address_auths) s1 t1 s2 t2 r2
    (λ s x s' b, address_vote_spec n auth s x s' b) Wd ltac:(lia) ltac:(lia) I1 H2) as (I2 & [R2 A2] & B2 & T2 & S2 & C2).
  assert (moved (relevant n (Some auth)) s s2) as R12 by (by etransitivity).
  destruct r2.
  { injection H as <- <-. split; [done|]. split; [done|]. split; [|done]. intros _. apply (ev_and _ _ _ S1 S2). intros m Hm Hm'. rewrite Eq.
    apply Z.leb_le. cbn beta in *. pose proof (La (account_ok approved0 m)). specialize (T2 eq_refl). lia. }
  apply bind_Ok in H as ([[s3 t3] r3] & H3 & H). assert (s.(approved_by) ⊆ s2.(approved_by)) as Hsub by (by rewrite A2, A1).
  destruct (weigh_spec _ _ (λ x, running x ∧ s.(approved_by) ⊆ x.(approved_by)) (moved (relevant n (Some auth))) (account_ok approved0)
    (account_ok s.(approved_by) n) auth.(account_auths) s2 t2 s3 t3 r3 (account_step_spec n auth s IH) Wa ltac:(lia) ltac:(lia) (conj I2 Hsub) H3)
    as ([I3 _] & R3 & B3 & T3 & S3 & C3).
  assert (moved (relevant n (Some auth)) s s3) as R by (by etransitivity).
  assert (∀ m, t3 ≤ t2 + weight (account_ok approved0 m) auth.(account_auths) → t2 ≤ t1 + weight (has_address addresses_of keys) auth.(address_auths) →
    auth.(weight_threshold) ≤ t3 → t1 ≤ 0 + weight (λ k, bool_decide (k ∈ keys)) auth.(key_auths) → satisfied approved0 m (Some auth) = true) as Hfin.
  { intros m M1 M2 M3 M4. rewrite Eq. apply Z.leb_le. lia. }
  destruct S1 as [m1 S1], S2 as [m2 S2], S3 as [m3 S3].
  assert (auth.(weight_threshold) ≤ t3 → ev (λ m, satisfied approved0 m (Some auth) = true)) as Hev.
  { intros Hge. exists (m1 + m2 + m3)%nat. intros m Hm. apply Hfin; [apply S3; lia|apply (S2 m2); lia|done|apply (S1 m1); lia]. }
  destruct r3; injection H as <- <-; (split; [done|]; split; [done|]); [split; [intros _; by apply Hev, T3|done]|].
  split; [intros Hge%Z.leb_le; by apply Hev|]. intros Hq%Z.leb_le. apply Z.leb_le. destruct C1, C2, C3; try done. lia.
Qed.
End check.

(** ** verify_authority *)
Lemma foldM_Forall {A S} (f : S → A → result S) (I : S → Prop) (Q : A → Prop) l s s' :
  (∀ s x s', x ∈ l → I s → f s x = Ok s' → I s' ∧ Q x) → I s → foldM f s l = Ok s' → I s' ∧ ∀ x, x ∈ l → Q x.
Proof.
  revert s. induction l as [|x l IH]; intros s Hf Hs H; cbn in H; [injection H as <-; split; [done|set_solver]|].
  apply bind_Ok in H as (s1 & H1 & H). apply Hf in H1 as [I1 Q1]; [|set_solver|done].
  destruct (IH s1) as [I' Q']; [intros; eapply Hf; [set_solver|done..]|done..|]. split; [done|]. intros y Hy. apply elem_of_cons in Hy as [->|]; auto.
Qed.
Lemma foldM_total {A S} (f : S → A → result S) (I : S → Prop) l s :
  (∀ s x, x ∈ l → I s → ∃ s', f s x = Ok s' ∧ I s') → I s → ∃ s', foldM f s l = Ok s' ∧ I s'.
Proof.
  revert s. induction l as [|x l IH]; intros s Hf Hs; cbn; [eauto|]. destruct (Hf s x) as (s1 & -> & I1); [set_solver|done|].
  cbn. apply IH; [|done]. intros; eapply Hf; [set_solver|done].
Qed.

Section verify.
Context (addresses_of : Z → list Z) (get_active get_owner : Z → result (option authority)).
Context (active_wf : ∀ a au, get_active a = Ok (Some au) → auth_wf au) (owner_wf : ∀ a au, get_owner a = Ok (Some au) → auth_wf au).

(** What the reference says of an authority, whatever the depth. *)
Definition authorized_by (keys approved : gset Z) (au : option authority) : Prop :=
  ∃ n, satisfied addresses_of get_active keys approved n au = true.

Context (available sigs approved0 : gset Z) (n : nat).
#[local] Notation running := (running addresses_of get_active available sigs approved0).
#[local] Notation authorized := (authorized_by (sigs ∪ available) approved0).
#[local] Notation check := (check_authority addresses_of get_active available n).

Section needed.
Context (needed : option authority → Prop).
Definition on_the_way (s0 s : sign_state) : Prop :=
  running s ∧ moved (λ k, ∃ au, needed au ∧ relevant addresses_of get_active n au k) s0 s ∧ approved0 ⊆ s.(approved_by).

Lemma check_on_the_way s0 s au s' b :
  auth_wf_opt au → needed au → on_the_way s0 s → check s au = Ok (s', b) →
  on_the_way s0 s' ∧ (b = true → authorized au) ∧ (satisfied addresses_of get_active (sigs ∪ available) approved0 n au = true → b = true).
Proof using All.
  intros Hwf Hn (Hs & M & Ap) H. destruct (check_authority_sound _ _ _ active_wf _ _ _ _ _ _ _ Hwf Hs H) as (Hs' & M' & S & C). split; [|split].
  - split; [done|]. split; [|destruct M' as [[L _] _]; set_solver]. etransitivity; [exact M|]. eapply moved_weaken; [|exact M']. eauto.
  - intros Hb. destruct (S Hb) as [m Hm]. exists m. by apply Hm.
  - intros Hq. apply C. by eapply satisfied_mono; [done..|].
Qed.

Definition active_ok (id : Z) : Prop :=
  id ∈ approved0 ∨ (∃ au, get_active id = Ok au ∧ authorized au) ∨ (∃ au, get_owner id = Ok au ∧ authorized au).
Lemma approved_authorized s id : running s → id ∈ s.(approved_by) → id ∈ approved0 ∨ ∃ au, get_active id = Ok au ∧ authorized au.
Proof using Type.
  intros [_ Ha] Hid. destruct (Ha _ Hid) as [m Hm]. specialize (Hm (S m) (Nat.le_succ_diag_r m)). unfold account_ok in Hm.
  apply orb_prop in Hm as [Hm|Hm]; [left; by apply bool_decide_eq_true in Hm|right].
  destruct (get_active id) as [au|] eqn:E; [|done]. exists au. split; [done|]. by exists m.
Qed.
Lemma wf_active id au : get_active id = Ok au → auth_wf_opt au.
Proof using active_wf. intros E. destruct au; [by eapply active_wf|done]. Qed.
Lemma wf_owner id au : get_owner id = Ok au → auth_wf_opt au.
Proof using owner_wf. intros E. destruct au; [by eapply owner_wf|done]. Qed.

Lemma try_active_on_the_way s0 s id s' b :
  (∀ au, get_active id = Ok au → needed au) → (∀ au, get_owner id = Ok au → needed au) →
  on_the_way s0 s → try_active addresses_of get_active get_owner available n s id = Ok (s', b) →
  on_the_way s0 s' ∧ (b = true → active_ok id).
Proof using active_wf owner_wf.
  intros Na No Hs H. unfold try_active, check_account in H. apply bind_Ok in H as ([s1 ok] & H1 & H).
  assert (on_the_way s0 s1 ∧ (ok = true → active_ok id)) as [Hs1 Hok].
  { destruct (bool_decide_reflect (id ∈ s.(approved_by))) as [Hid|_].
    - injection H1 as <- <-. split; [done|]. intros _. destruct (approved_authorized s id) as [|(au & E & Hau)]; [apply Hs|done|by left|]. right; left; eauto.
    - apply bind_Ok in H1 as (au & E & H1). destruct (check_on_the_way _ _ _ _ _ (wf_active _ _ E) (Na _ E) Hs H1) as (? & S & _). split; [done|].
      intros Hb. right; left; eauto. }
  destruct ok; [injection H as <- <-; auto|]. apply bind_Ok in H as (au & E & H).
  destruct (check_on_the_way _ _ _ _ _ (wf_owner _ _ E) (No _ E) Hs1 H) as (? & S & _). split; [done|]. intros Hb. right; right; eauto.
Qed.
End needed.
End verify.

(** A check that is asserted to have succeeded. *)
Ltac assert_ok H :=
  let s := fresh in let b := fresh in let H2 := fresh in
  apply bind_Ok in H as ([s b] & H & H2); apply bind_Ok in H2 as (? & ->%GRAPHENE_ASSERT_Ok & [= ->]).

Lemma started addresses_of get_active active_approvals owner_approvals sigs max needed :
  let s := (start_state sigs) <| approved_by ::= union (active_approvals ∪ owner_approvals) |> in
  on_the_way addresses_of get_active ∅ sigs (active_approvals ∪ owner_approvals ∪ {[GRAPHENE_TEMP_ACCOUNT]}) max needed s s.
Proof.
  cbv zeta. split; [|split; [reflexivity|done]]. split.
  - split; cbn; rewrite ?dom_gset_to_gmap; [set_solver|set_solver|done|done].
  - intros a Ha. cbn in Ha. apply ev_all. intros m. unfold account_ok. by rewrite bool_decide_true.
Qed.

(** What the required authorities of a transaction are, as authorities. *)
Definition needed_by (get_active get_owner : Z → result (option authority)) (r : required_authorities) (au : option authority) : Prop :=
  (∃ a, au = Some a ∧ a ∈ r.(required_other)) ∨ (∃ id, id ∈ r.(required_owner) ∧ get_owner id = Ok au) ∨
  (∃ id, id ∈ r.(required_active) ∧ (get_active id = Ok au ∨ get_owner id = Ok au)).


(** ** When the lookups succeed, the check does *)
Lemma weigh_total vote thr l s t : (∀ s x, ∃ r, vote s x = Ok r) → ∃ r, weigh vote thr l s t = Ok r.
Proof.
  intros Hv. revert s t. induction l as [|[x w] l IH]; intros s t; cbn; [eauto|]. destruct (Hv s x) as [[s1 ok] ->]. cbn.
  destruct ok; [|apply IH]. destruct (_ <=? _); [eauto|apply IH].
Qed.
Lemma check_authority_total addresses_of get_active available n s au :
  (∀ a, ∃ x, get_active a = Ok x) → ∃ r, check_authority addresses_of get_active available n s au = Ok r.
Proof.
  intros Ha. revert s au. induction n as [n IH] using (well_founded_induction Nat.lt_wf_0). intros s [auth|]; [|destruct n; cbn; eauto].
  rewrite check_authority_eq.
  edestruct (weigh_total (λ s k, Ok (signed_by_key available s k))) as [[[s1 t1] r1] ->]; [eauto|]. cbn. destruct r1; [eauto|].
  edestruct (weigh_total (λ s a, Ok (signed_by_address addresses_of available s a))) as [[[s2 t2] r2] ->]; [eauto|]. cbn. destruct r2; [eauto|].
  edestruct (weigh_total (account_vote addresses_of get_active available n)) as [[[s3 t3] r3] ->]; [|cbn; destruct r3; eauto].
  intros s' a. unfold account_vote. destruct (bool_decide _); [eauto|]. destruct n as [|n]; [eauto|]. destruct (Ha a) as [x ->]. cbn.
  destruct (IH n ltac:(lia) s' x) as [[s4 b] ->]. cbn. destruct b; eauto.
Qed.

(** Nothing more is asked than what the reference says: when keys and approvals
    satisfy every required authority within the depth, the verification can only
    reject the transaction for a useless signature. *)
Theorem verify_authority_complete {OP} (required : OP → required_authorities) addresses_of get_active get_owner ops sigs max
  (allow_committee : bool) active_approvals owner_approvals
  (Hactive : ∀ a au, get_active a = Ok (Some au) → auth_wf au) (Howner : ∀ a au, get_owner a = Ok (Some au) → auth_wf au)
  (Hother : Forall auth_wf (get_required_authorities required ops).(required_other))
  (Hfound : ∀ a, (∃ x, get_active a = Ok x) ∧ (∃ x, get_owner a = Ok x)) :
  let r := get_required_authorities required ops in
  let approved := active_approvals ∪ owner_approvals ∪ {[GRAPHENE_TEMP_ACCOUNT]} in
  let sat au := ∃ x, au = Ok x ∧ satisfied addresses_of get_active sigs approved max x = true in
  (allow_committee = true ∨ GRAPHENE_COMMITTEE_ACCOUNT ∉ r.(required_active)) →
  (∀ a, a ∈ r.(required_other) → sat (Ok (Some a))) →
  (∀ id, id ∈ r.(required_owner) → id ∈ owner_approvals ∨ sat (get_owner id)) →
  (∀ id, id ∈ r.(required_active) → id ∈ approved ∨ sat (get_active id) ∨ sat (get_owner id)) →
  verify_authority addresses_of get_active get_owner required ops sigs max allow_committee active_approvals owner_approvals
    ∈ [Ok tt; Err tx_irrelevant_sig].
Proof.
  cbv zeta. intros Hcom Ho Hw Ha. unfold verify_authority. cbv zeta. set (r := get_required_authorities required ops) in *.
  set (approved := active_approvals ∪ owner_approvals ∪ {[GRAPHENE_TEMP_ACCOUNT]}) in *. set (s0 := (start_state sigs) <| approved_by ::= _ |>).
  set (on := on_the_way addresses_of get_active ∅ sigs approved max (λ _, True) s0).
  pose proof (started addresses_of get_active active_approvals owner_approvals sigs max (λ _, True) : on s0) as Hs0.
  assert (∀ s au, auth_wf_opt au → on s → ∃ s' b, check_authority addresses_of get_active ∅ max s au = Ok (s', b) ∧ on s' ∧
    (satisfied addresses_of get_active sigs approved max au = true → b = true)) as Hc.
  { intros s au Hau Hs. destruct (check_authority_total addresses_of get_active ∅ max s au) as [[s' b] H]; [apply Hfound|]. exists s', b. split; [done|].
    destruct (check_on_the_way addresses_of get_active get_owner Hactive Howner ∅ sigs approved max _ _ _ _ _ _ Hau I Hs H) as (A & _ & B).
    split; [done|]. by rewrite union_empty_r_L in B. }
  assert ((if allow_committee then Ok tt else GRAPHENE_ASSERT (negb (bool_decide (GRAPHENE_COMMITTEE_ACCOUNT ∈ r.(required_active)))) invalid_committee_approval)
    = Ok tt) as ->.
  { destruct allow_committee; [done|]. destruct Hcom as [|Hcom]; [done|]. by rewrite bool_decide_false. }
  cbn [mbind result_bind].
  destruct (foldM_total (check_other addresses_of get_active ∅ max) on r.(required_other) s0) as (s1 & -> & I1); [|done|].
  { intros s a Hin Hs. rewrite Forall_forall in Hother. destruct (Hc s (Some a) (Hother a Hin) Hs) as (s' & b & H & I' & Hb).
    destruct (Ho a Hin) as (x & [= <-] & Hx). unfold check_other. rewrite H. cbn. rewrite (Hb Hx). cbn. eauto. }
  cbn [mbind result_bind].
  destruct (foldM_total (check_owner addresses_of get_active get_owner ∅ max owner_approvals) on (in_order r.(required_owner)) s1) as (s2 & -> & I2); [|done|].
  { intros s id Hin%in_order_elem Hs. unfold check_owner. destruct (bool_decide_reflect (id ∈ owner_approvals)); [eauto|].
    destruct (Hw id Hin) as [|(x & E & Hx)]; [done|]. rewrite E. cbn.
    destruct (Hc s x (wf_owner get_owner Howner _ _ E) Hs) as (s' & b & -> & I' & Hb). cbn. rewrite (Hb Hx). cbn. eauto. }
  cbn [mbind result_bind].
  destruct (foldM_total (check_active addresses_of get_active get_owner ∅ max) on (in_order r.(required_active)) s2) as (s3 & -> & I3); [|done|].
  { intros s id Hin%in_order_elem Hs. unfold check_active, try_active, check_account.
    destruct (bool_decide_reflect (id ∈ s.(approved_by))) as [Hid|Hid]; [cbn; eauto|].
    destruct (proj1 (Hfound id)) as [x E]. rewrite E. cbn. destruct (Hc s x (wf_active get_active Hactive _ _ E) Hs) as (s' & b & -> & I' & Hb). cbn.
    destruct b; [cbn; eauto|]. destruct (Ha id Hin) as [Hap|[(y & E' & Hy)|(y & E' & Hy)]].
    - destruct Hs as (_ & _ & Hsub). by apply Hsub in Hap.
    - replace y with x in Hy by congruence. by apply Hb in Hy.
    - rewrite E'. cbn. destruct (Hc s' y (wf_owner get_owner Howner _ _ E') I') as (s4 & b & -> & I4 & Hb'). cbn. rewrite (Hb' Hy). cbn. eauto. }
  cbn [mbind result_bind]. destruct (negb _); set_solver.
Qed.

(** ** A run with the keys it used *)
Definition used (s : sign_state) : gset Z := dom (filter (λ x, x.2 = true) s.(provided_signatures)).
Lemma elem_of_used s k : k ∈ used s ↔ s.(provided_signatures) !! k = Some true.
Proof.
  unfold used. rewrite elem_of_dom. split.
  - intros [b H]. by apply map_lookup_filter_Some in H as [H [= ->]].
  - intros H. exists true. by apply map_lookup_filter_Some.
Qed.
Lemma later_used s s' : later s s' → used s ⊆ used s'.
Proof. intros [_ H] k. rewrite !elem_of_used. apply H. Qed.

Lemma signed_by_key_used available s k s' : signed_by_key available s k = (s', true) → k ∈ used s'.
Proof.
  unfold signed_by_key. rewrite elem_of_used. destruct (_ !! k); [|destruct (bool_decide _); [|done]]; intros [= <-]; apply lookup_insert_eq.
Qed.
Lemma signed_by_address_used addresses_of available sigs s a s' :
  state_ok addresses_of available sigs s → signed_by_address addresses_of available s a = (s', true) → ∃ k, a ∈ addresses_of k ∧ k ∈ used s'.
Proof.
  intros Hs H. setoid_rewrite elem_of_used. unfold signed_by_address in H. destruct (provided_address_sigs s) as [m|] eqn:Em.
  - destruct (m !! a) as [k|] eqn:E.
    + injection H as <-. exists k. split; [by destruct (so_found _ _ _ _ Hs m a k Em E)|apply lookup_insert_eq].
    + destruct (address_sigs _ available !! a) as [k|] eqn:E2; [|done]. destruct (bool_decide _); [|done]. injection H as <-. exists k.
      split; [apply address_sigs_Some in E2; apply E2|apply lookup_insert_eq].
  - destruct (address_sigs _ (dom _) !! a) as [k|] eqn:E.
    + injection H as <-. exists k. split; [apply address_sigs_Some in E; apply E|apply lookup_insert_eq].
    + destruct (address_sigs _ available !! a) as [k|] eqn:E2; [|done]. destruct (bool_decide _); [|done]. injection H as <-. exists k.
      split; [apply address_sigs_Some in E2; apply E2|apply lookup_insert_eq].
Qed.

Lemma foldM_advances {A} (I : sign_state → Prop) (f : sign_state → A → result sign_state) l s s' :
  (∀ x s s', x ∈ l → I s → f s x = Ok s' → I s' ∧ later s s') → I s → foldM f s l = Ok s' → I s' ∧ later s s'.
Proof.
  revert s. induction l as [|x l IH]; intros s Hf Hs H; cbn in H; [injection H as <-; by split|].
  apply bind_Ok in H as (s1 & H1 & H). destruct (Hf x s s1) as [I1 L1]; [set_solver|done..|].
  destruct (IH s1) as [I2 L2]; [intros y t t' Hy; apply Hf; set_solver|done..|]. split; [done|by etransitivity].
Qed.

Section simulation.
Context (addresses_of : Z → list Z) (get_active : Z → result (option authority)).
Context (available sigs : gset Z).
Definition advances (vote : sign_state → Z → result (sign_state * bool)) (x : Z) : Prop := ∀ s s' b,
  state_ok addresses_of available sigs s → vote s x = Ok (s', b) → state_ok addresses_of available sigs s' ∧ later s s'.
Lemma key_advances k : advances (λ s k, Ok (signed_by_key available s k)) k.
Proof. intros s s' b Hs H. apply Ok_inj in H. by destruct (signed_by_key_spec _ _ _ _ _ _ _ Hs H) as (? & ? & _). Qed.
Lemma address_advances a : advances (λ s a, Ok (signed_by_address addresses_of available s a)) a.
Proof. intros s s' b Hs H. apply Ok_inj in H. by destruct (signed_by_address_spec _ _ _ _ _ _ _ Hs H) as (? & ? & _). Qed.
Lemma weigh_advances vote thr l s t s' t' r :
  (∀ x, x ∈ l.*1 → advances vote x) → state_ok addresses_of available sigs s → weigh vote thr l s t = Ok (s', t', r) →
  state_ok addresses_of available sigs s' ∧ later s s'.
Proof. intros Hv. apply (weigh_inv vote thr _ later). intros s1 x s2 b Hx. by apply Hv. Qed.

Lemma vote_advances n a : (∀ m, n = S m → ∀ s au s' b, state_ok addresses_of available sigs s →
    check_authority addresses_of get_active available m s au = Ok (s', b) → state_ok addresses_of available sigs s' ∧ later s s') →
  advances (account_vote addresses_of get_active available n) a.
Proof.
  intros IH s s' b Hs H. unfold account_vote in H. destruct (bool_decide _); [by injection H as <- <-|]. destruct n as [|n]; [by injection H as <- <-|].
  apply bind_Ok in H as (active & _ & H). apply bind_Ok in H as ([s1 ok] & H1 & H). destruct (IH n eq_refl _ _ _ _ Hs H1) as [So [L1 L2]].
  destruct ok; injection H as <- <-; [|done]. split; [by destruct So|]. split; [cbn; set_solver|done].
Qed.
Lemma check_advances n s au s' b : state_ok addresses_of available sigs s →
  check_authority addresses_of get_active available n s au = Ok (s', b) → state_ok addresses_of available sigs s' ∧ later s s'.
Proof.
  revert s au s' b. induction n as [n IH] using (well_founded_induction Nat.lt_wf_0). intros s [auth|] s' b Hs H;
    [|destruct n; injection H as <- <-; by split].
  rewrite check_authority_eq in H. apply bind_Ok in H as ([[s1 t1] r1] & H1 & H).
  destruct (weigh_advances _ _ _ _ _ _ _ _ (λ x _, key_advances x) Hs H1) as [Hs1 L1]. destruct r1; [by injection H as <- <-|].
  apply bind_Ok in H as ([[s2 t2] r2] & H2 & H). destruct (weigh_advances _ _ _ _ _ _ _ _ (λ x _, address_advances x) Hs1 H2) as [Hs2 L2].
  destruct r2; [injection H as <- <-; split; [done|by etransitivity]|]. apply bind_Ok in H as ([[s3 t3] r3] & H3 & H).
  assert (∀ x, x ∈ auth.(account_auths).*1 → advances (account_vote addresses_of get_active available n) x) as Hv
    by (intros x _; apply vote_advances; intros m ->; apply IH; lia).
  destruct (weigh_advances _ _ _ _ _ _ _ _ Hv Hs2 H3) as [Hs3 L3].
  destruct r3; injection H as <- <-; (split; [done|]); do 2 (etransitivity; [eassumption|]); done.
Qed.


Context (addresses_inj : ∀ a k k', a ∈ addresses_of k → a ∈ addresses_of k' → k = k').
Context (kept_keys : gset Z) (kept_known : kept_keys ⊆ sigs ∪ available).

(** The run with all the keys and the run with those that are kept. *)
Record alike (s z : sign_state) : Prop := {
  al_first : state_ok addresses_of available sigs s;
  al_second : state_ok addresses_of ∅ kept_keys z;
  al_approved : z.(approved_by) = s.(approved_by);
  al_used : used s ⊆ used z }.

Definition simulates (vote1 vote2 : sign_state → Z → result (sign_state * bool)) (x : Z) : Prop := ∀ s z s' b,
  alike s z → vote1 s x = Ok (s', b) → used s' ⊆ kept_keys → ∃ z', vote2 z x = Ok (z', b) ∧ alike s' z'.

Lemma key_simulates k : simulates (λ s k, Ok (signed_by_key available s k)) (λ s k, Ok (signed_by_key ∅ s k)) k.
Proof.
  intros s z s' b [A1 A2 A3 A4] H. apply Ok_inj in H. destruct (signed_by_key_spec addresses_of _ _ _ _ _ _ A1 H) as (S1 & L1 & M1 & P1 & B1).
  intros Hu. destruct (signed_by_key ∅ z k) as [z' b'] eqn:E.
  destruct (signed_by_key_spec addresses_of _ _ _ _ _ _ A2 E) as (S2 & L2 & M2 & P2 & B2).
  assert (b' = b) as ->.
  { subst b b'. apply bool_decide_ext. split; [set_solver|]. intros Hk. rewrite (bool_decide_true _ Hk) in H.
    apply signed_by_key_used in H. set_solver. }
  exists z'. split; [done|]. split; [done|done|congruence|]. intros k' Hk'. apply elem_of_used in Hk'.
  destruct (M1 k' Hk') as [H'|<-].
  - apply (later_used _ _ L2), A4. by apply elem_of_used.
  - destruct b; [by apply signed_by_key_used in E|]. unfold signed_by_key in H.
    destruct (_ !! k) eqn:E'; [done|]. destruct (bool_decide _); [done|]. injection H as <-. congruence.
Qed.

Lemma address_simulates a : simulates (λ s a, Ok (signed_by_address addresses_of available s a)) (λ s a, Ok (signed_by_address addresses_of ∅ s a)) a.
Proof.
  intros s z s' b [A1 A2 A3 A4] H. apply Ok_inj in H. destruct (signed_by_address_spec addresses_of _ _ _ _ _ _ A1 H) as (S1 & L1 & M1 & P1 & B1).
  intros Hu. destruct (signed_by_address addresses_of ∅ z a) as [z' b'] eqn:E.
  destruct (signed_by_address_spec addresses_of _ _ _ _ _ _ A2 E) as (S2 & L2 & M2 & P2 & B2).
  assert (b' = b) as ->.
  { apply eq_bool_prop_intro. split; intros Hb%Is_true_true; apply Is_true_true.
    - rewrite B2 in Hb. apply has_address_true in Hb as (k & Hk & Ha). rewrite B1. apply has_address_true. exists k. split; [set_solver|done].
    - rewrite Hb in H. destruct (signed_by_address_used _ _ _ _ _ _ A1 H) as (k & Ha & Hk). rewrite B2. apply has_address_true.
      exists k. split; [set_solver|done]. }
  exists z'. split; [done|]. split; [done|done|congruence|]. intros k' Hk'. apply elem_of_used in Hk' as Hk''.
  destruct (M1 k' Hk'') as [H'|Ha]; [apply (later_used _ _ L2), A4; by apply elem_of_used|].
  destruct b.
  - destruct (signed_by_address_used _ _ _ _ _ _ A2 E) as (k & Ha' & Hk). by rewrite (addresses_inj _ _ _ Ha Ha').
  - symmetry in B1. apply not_true_iff_false in B1. destruct B1. apply has_address_true. exists k'. split; [set_solver|done].
Qed.

Lemma weigh_simulates vote1 vote2 thr l s z t s' t' r :
  (∀ x, x ∈ l.*1 → advances vote1 x ∧ simulates vote1 vote2 x) → alike s z → weigh vote1 thr l s t = Ok (s', t', r) →
  used s' ⊆ kept_keys → ∃ z', weigh vote2 thr l z t = Ok (z', t', r) ∧ alike s' z'.
Proof.
  revert s z t. induction l as [|[x w] l IH]; intros s z t Hv Ha H Hu; cbn in H.
  { injection H as <- <- <-. exists z. by split. }
  apply bind_Ok in H as ([s1 ok] & H1 & H). destruct (Hv x ltac:(set_solver)) as [Adv Sim].
  destruct (Adv _ _ _ (al_first _ _ Ha) H1) as [Hs1 L1].
  assert (∀ y, y ∈ l.*1 → advances vote1 y ∧ simulates vote1 vote2 y) as Hv' by (intros; apply Hv; set_solver).
  assert (later s1 s') as L2.
  { assert (∀ t, weigh vote1 thr l s1 t = Ok (s', t', r) → later s1 s') as Hgo
      by (intros t0 H0; by apply (weigh_advances _ _ _ _ _ _ _ _ (λ y Hy, proj1 (Hv' y Hy)) Hs1 H0)).
    destruct ok; [|by apply Hgo in H]. cbv zeta in H. destruct (_ <=? _); [by injection H as <- <- <-|by apply Hgo in H]. }
  destruct (Sim _ _ _ _ Ha H1) as (z1 & E1 & A1); [apply later_used in L2; set_solver|]. cbn. rewrite E1. cbn.
  destruct ok; cbv zeta in *; [destruct (_ <=? _)|]; [injection H as <- <- <-; eauto|by eapply IH|by eapply IH].
Qed.

Lemma vote_simulates n a : (∀ m, n = S m → ∀ s z au s' b, alike s z → check_authority addresses_of get_active available m s au = Ok (s', b) →
    used s' ⊆ kept_keys → ∃ z', check_authority addresses_of get_active ∅ m z au = Ok (z', b) ∧ alike s' z') →
  simulates (account_vote addresses_of get_active available n) (account_vote addresses_of get_active ∅ n) a.
Proof.
  intros IH s z s' b Ha H Hu. unfold account_vote in *. rewrite (al_approved _ _ Ha).
  destruct (bool_decide _); [injection H as <- <-; eauto|]. destruct n as [|n]; [injection H as <- <-; eauto|].
  apply bind_Ok in H as (active & -> & H). apply bind_Ok in H as ([s1 ok] & H1 & H). cbn.
  destruct (IH n eq_refl _ _ _ _ _ Ha H1) as (z1 & E & A); [destruct ok; injection H as <- <-; exact Hu|]. rewrite E. cbn.
  destruct ok; injection H as <- <-; [|eauto]. eexists. split; [done|]. destruct A as [[] [] C D]. split; [done|done|cbn; by rewrite C|done].
Qed.

Lemma check_simulates n s z au s' b : alike s z → check_authority addresses_of get_active available n s au = Ok (s', b) →
  used s' ⊆ kept_keys → ∃ z', check_authority addresses_of get_active ∅ n z au = Ok (z', b) ∧ alike s' z'.
Proof.
  revert s z au s' b. induction n as [n IH] using (well_founded_induction Nat.lt_wf_0). intros s z [auth|] s' b Ha H Hu;
    [|destruct n; injection H as <- <-; cbn; eauto].
  rewrite check_authority_eq in H |- *. apply bind_Ok in H as ([[s1 t1] r1] & H1 & H).
  destruct (weigh_advances _ _ _ _ _ _ _ _ (λ x _, key_advances x) (al_first _ _ Ha) H1) as [Hs1 L1].
  pose proof (λ Hu, weigh_simulates _ _ _ _ _ _ _ _ _ _ (λ x _, conj (key_advances x) (key_simulates x)) Ha H1 Hu) as V1.
  destruct r1.
  { injection H as <- <-. destruct V1 as (z1 & -> & A1); [done|]. cbn. eauto. }
  apply bind_Ok in H as ([[s2 t2] r2] & H2 & H). destruct (weigh_advances _ _ _ _ _ _ _ _ (λ x _, address_advances x) Hs1 H2) as [Hs2 L2].
  pose proof (λ z1 A1 Hu, weigh_simulates _ _ _ _ _ z1 _ _ _ _ (λ x _, conj (address_advances x) (address_simulates x)) A1 H2 Hu) as V2.
  destruct r2.
  { injection H as <- <-. apply later_used in L2. destruct V1 as (z1 & -> & A1); [set_solver|]. cbn. destruct (V2 z1 A1 Hu) as (z2 & -> & A2). cbn. eauto. }
  apply bind_Ok in H as ([[s3 t3] r3] & H3 & H).
  assert (∀ x, x ∈ auth.(account_auths).*1 → advances (account_vote addresses_of get_active available n) x) as Hv
    by (intros x _; apply vote_advances; intros m ->; apply check_advances).
  destruct (weigh_advances _ _ _ _ _ _ _ _ Hv Hs2 H3) as [Hs3 L3]. apply later_used in L2, L3.
  assert (s3 = s') as -> by (by destruct r3; injection H as <- <-).
  destruct V1 as (z1 & -> & A1); [set_solver|]. cbn. destruct (V2 z1 A1) as (z2 & -> & A2); [set_solver|]. cbn.
  destruct (weigh_simulates _ (account_vote addresses_of get_active ∅ n) _ _ _ _ _ _ _ _
    (λ x Hx, conj (Hv x Hx) (vote_simulates n x ltac:(intros m ->; apply IH; lia))) A2 H3 Hu) as (z3 & -> & A3). cbn.
  destruct r3; injection H as <-; eauto.
Qed.

Context (get_owner : Z → result (option authority)).
Lemma try_active_advances n s id s' b : state_ok addresses_of available sigs s →
  try_active addresses_of get_active get_owner available n s id = Ok (s', b) → state_ok addresses_of available sigs s' ∧ later s s'.
Proof.
  intros Hs H. unfold try_active, check_account in H. apply bind_Ok in H as ([s1 ok] & H1 & H).
  assert (state_ok addresses_of available sigs s1 ∧ later s s1) as [Hs1 L1].
  { destruct (bool_decide _); [by injection H1 as <- <-|]. apply bind_Ok in H1 as (au & _ & H1). by apply (check_advances _ _ _ _ _ Hs) in H1. }
  destruct ok; [by injection H as <- <-|]. apply bind_Ok in H as (au & _ & H). apply (check_advances _ _ _ _ _ Hs1) in H as [? ?].
  split; [done|by etransitivity].
Qed.
Lemma try_active_simulates n s z id s' b : alike s z → try_active addresses_of get_active get_owner available n s id = Ok (s', b) →
  used s' ⊆ kept_keys → ∃ z', try_active addresses_of get_active get_owner ∅ n z id = Ok (z', b) ∧ alike s' z'.
Proof.
  intros Ha H Hu. unfold try_active, check_account in *. rewrite (al_approved _ _ Ha). apply bind_Ok in H as ([s1 ok] & H1 & H).
  destruct (bool_decide _).
  { injection H1 as <- <-. injection H as <- <-. cbn. eauto. }
  apply bind_Ok in H1 as (au & -> & H1). cbn. destruct (check_advances _ _ _ _ _ (al_first _ _ Ha) H1) as [Hs1 L1].
  destruct ok.
  { injection H as <- <-. destruct (check_simulates _ _ _ _ _ _ Ha H1 Hu) as (z1 & -> & A1). cbn. eauto. }
  apply bind_Ok in H as (ow & -> & H). destruct (check_advances _ _ _ _ _ Hs1 H) as [_ L2]. apply later_used in L2.
  destruct (check_simulates _ _ _ _ _ _ Ha H1) as (z1 & -> & A1); [set_solver|]. cbn. by apply (check_simulates _ _ _ _ _ _ A1 H).
Qed.

Lemma foldM_simulates {A} (I : sign_state → Prop) (f1 f2 : sign_state → A → result sign_state) l s z s' :
  (∀ x s s', x ∈ l → I s → f1 s x = Ok s' → I s' ∧ later s s') →
  (∀ x s z s', x ∈ l → I s → alike s z → f1 s x = Ok s' → used s' ⊆ kept_keys → ∃ z', f2 z x = Ok z' ∧ alike s' z') →
  I s → alike s z → foldM f1 s l = Ok s' → used s' ⊆ kept_keys → ∃ z', foldM f2 z l = Ok z' ∧ alike s' z'.
Proof.
  intros Hadv Hsim. revert s z. induction l as [|x l IH]; intros s z Hs Ha H Hu; cbn in H |- *; [injection H as <-; eauto|].
  apply bind_Ok in H as (s1 & H1 & H). destruct (Hadv x s s1) as [I1 L1]; [set_solver|done..|].
  assert (∀ y, y ∈ l → y ∈ x :: l) as Hin by set_solver.
  destruct (foldM_advances I f1 l s1 s' (λ y t t' Hy, Hadv y t t' (Hin y Hy)) I1 H) as [_ L2]. apply later_used in L2.
  destruct (Hsim x s z s1) as (z1 & -> & A1); [set_solver|done..|set_solver|]. cbn.
  apply (IH (λ y t t' Hy, Hadv y t t' (Hin y Hy)) (λ y t z t' Hy, Hsim y t z t' (Hin y Hy)) s1 z1 I1 A1 H Hu).
Qed.
End simulation.

(** The state [get_required_signatures] ends in, before the unused signatures are dropped. *)
Section wallet.
Context {OP : Type} (required : OP → required_authorities) (addresses_of : Z → list Z) (get_active get_owner : Z → result (option authority)).
Context (available sigs : gset Z) (ops : list OP) (max : nat).
Context (addresses_inj : ∀ a k k', a ∈ addresses_of k → a ∈ addresses_of k' → k = k').
Context (active_wf : ∀ a au, get_active a = Ok (Some au) → auth_wf au) (owner_wf : ∀ a au, get_owner a = Ok (Some au) → auth_wf au).
Let r := get_required_authorities required ops.
Let sat au := ∃ x, au = Ok x ∧ satisfied addresses_of get_active (sigs ∪ available) {[GRAPHENE_TEMP_ACCOUNT]} max x = true.
Let on := on_the_way addresses_of get_active available sigs {[GRAPHENE_TEMP_ACCOUNT]} max (λ _, True) (start_state sigs).
Context (kept_keys : gset Z) (kept_known : kept_keys ⊆ sigs ∪ available).
Let like := alike addresses_of available sigs kept_keys.

Lemma wallet_check s au s' b : auth_wf_opt au → on s → check_authority addresses_of get_active available max s au = Ok (s', b) →
  on s' ∧ later s s' ∧ (sat (Ok au) → b = true).
Proof.
  intros Hwf Hs H. destruct (check_on_the_way addresses_of get_active get_owner active_wf owner_wf available sigs _ _ _ _ _ _ _ _ Hwf I Hs H) as (A & _ & C).
  split; [done|]. split; [destruct Hs as [[Hs _] _]; eapply check_advances; [exact Hs|exact H]|]. intros (x & [= <-] & Hx). by apply C.
Qed.
Lemma wallet_active s id s' b : on s → try_active addresses_of get_active get_owner available max s id = Ok (s', b) →
  on s' ∧ later s s' ∧ (id = GRAPHENE_TEMP_ACCOUNT ∨ sat (get_active id) ∨ sat (get_owner id) → b = true).
Proof.
  intros Hs H. unfold try_active, check_account in H. apply bind_Ok in H as ([s1 ok] & H1 & H).
  assert (on s1 ∧ later s s1 ∧ (id = GRAPHENE_TEMP_ACCOUNT ∨ sat (get_active id) → ok = true)) as (O1 & L1 & B1).
  { destruct (bool_decide_reflect (id ∈ s.(approved_by))) as [Hid|Hid]; [by injection H1 as <- <-|].
    apply bind_Ok in H1 as (au & E & H1). destruct (wallet_check _ _ _ _ (wf_active get_active active_wf _ _ E) Hs H1) as (A & B & C).
    split; [done|]. split; [done|]. intros [->|(x & E' & Hx)]; [destruct Hid; by apply (proj2 (proj2 Hs)), elem_of_singleton|].
    apply C. exists x. split; [congruence|done]. }
  destruct ok; [by injection H as <- <-|]. apply bind_Ok in H as (ow & E & H).
  destruct (wallet_check _ _ _ _ (wf_owner get_owner owner_wf _ _ E) O1 H) as (A & B & C). split; [done|]. split; [by etransitivity|].
  intros Hq. apply C. destruct Hq as [Hq|[Hq|(x & E' & Hx)]]; [by specialize (B1 (or_introl Hq))|by specialize (B1 (or_intror Hq))|].
  exists x. split; [congruence|done].
Qed.

(** Each step of the wallet's run, and the assertion of the verification it answers. *)
Lemma other_steps a s s' : auth_wf a → on s → fst <$> check_authority addresses_of get_active available max s (Some a) = Ok s' →
  (on s' ∧ later s s') ∧ (sat (Ok (Some a)) → ∀ z, like s z → used s' ⊆ kept_keys →
    ∃ z', check_other addresses_of get_active ∅ max z a = Ok z' ∧ like s' z').
Proof.
  intros Hwf Hs H. apply fmap_Ok in H as ([s1 b] & H & ->). destruct (wallet_check _ (Some a) _ _ Hwf Hs H) as (A & B & C). split; [done|].
  intros Hsat z Hz Hu. destruct (check_simulates _ _ _ _ addresses_inj _ kept_known _ _ _ _ _ _ Hz H Hu) as (z' & E & A').
  exists z'. unfold check_other. rewrite E, (C Hsat). by split.
Qed.
Lemma owner_steps id s s' : on s → (owner ← get_owner id; fst <$> check_authority addresses_of get_active available max s owner) = Ok s' →
  (on s' ∧ later s s') ∧ (sat (get_owner id) → ∀ z, like s z → used s' ⊆ kept_keys →
    ∃ z', check_owner addresses_of get_active get_owner ∅ max ∅ z id = Ok z' ∧ like s' z').
Proof.
  intros Hs H. apply bind_Ok in H as (ow & E & H). apply fmap_Ok in H as ([s1 b] & H & ->).
  destruct (wallet_check _ _ _ _ (wf_owner get_owner owner_wf _ _ E) Hs H) as (A & B & C). split; [done|].
  intros Hsat z Hz Hu. destruct (check_simulates _ _ _ _ addresses_inj _ kept_known _ _ _ _ _ _ Hz H Hu) as (z' & E' & A').
  exists z'. unfold check_owner. rewrite bool_decide_false by set_solver. rewrite E in Hsat |- *. cbn. rewrite E', (C Hsat). by split.
Qed.
Lemma active_steps id s s' : on s → fst <$> try_active addresses_of get_active get_owner available max s id = Ok s' →
  (on s' ∧ later s s') ∧ (id = GRAPHENE_TEMP_ACCOUNT ∨ sat (get_active id) ∨ sat (get_owner id) → ∀ z, like s z → used s' ⊆ kept_keys →
    ∃ z', check_active addresses_of get_active get_owner ∅ max z id = Ok z' ∧ like s' z').
Proof.
  intros Hs H. apply fmap_Ok in H as ([s1 b] & H & ->). destruct (wallet_active _ _ _ _ Hs H) as (A & B & C). split; [done|].
  intros Hsat z Hz Hu. destruct (try_active_simulates _ _ _ _ addresses_inj _ kept_known _ _ _ _ _ _ _ Hz H Hu) as (z' & E & A').
  exists z'. unfold check_active. rewrite E, (C Hsat). by split.
Qed.

Lemma wallet_starts : on (start_state sigs) ∧ like (start_state sigs) ((start_state kept_keys) <| approved_by ::= union (∅ ∪ ∅) |>).
Proof.
  split; [|split].
  - split; [|split; [reflexivity|done]]. split; [split; cbn; rewrite ?dom_gset_to_gmap; [set_solver|set_solver|done|done]|].
    intros a Ha. cbn in Ha. apply ev_all. intros m. unfold account_ok. by rewrite bool_decide_true.
  - split; cbn; rewrite ?dom_gset_to_gmap; [set_solver|set_solver|done|done].
  - split; cbn; rewrite ?dom_gset_to_gmap; [set_solver|set_solver|done|done].
  - cbn. set_solver.
  - intros k Hk. apply elem_of_used in Hk. cbn in Hk. by apply lookup_gset_to_gmap_Some in Hk as [_ [=]].
Qed.

Lemma kept_accepted s z : like s z → used s = kept_keys → negb (remove_unused_signatures z).2 = true.
Proof.
  intros [A B _ D] Hu. apply negb_true_iff, bool_decide_eq_false. intros (k & b & Hb & ->).
  assert (k ∈ kept_keys) as Hk by (pose proof (so_dom _ _ _ _ B k (elem_of_dom_2 _ _ _ Hb)); set_solver).
  rewrite <-Hu in Hk. apply D, elem_of_used in Hk. congruence.
Qed.
End wallet.

(** What a wallet is told to sign with is enough and not too much: when the keys it
    has and the signatures there are satisfy what the operations require, the signatures
    that count, together with the computed ones, pass the verification of the chain. *)
Theorem required_signatures_accepted {OP} (required : OP → required_authorities) addresses_of get_active get_owner available ops sigs max res
  (Hinj : ∀ a k k', a ∈ addresses_of k → a ∈ addresses_of k' → k = k')
  (Hactive : ∀ a au, get_active a = Ok (Some au) → auth_wf au) (Howner : ∀ a au, get_owner a = Ok (Some au) → auth_wf au) :
  let r := get_required_authorities required ops in
  let sat au := ∃ x, au = Ok x ∧ satisfied addresses_of get_active (sigs ∪ available) {[GRAPHENE_TEMP_ACCOUNT]} max x = true in
  Forall auth_wf r.(required_other) → r.(required_owner) ## r.(required_active) → GRAPHENE_COMMITTEE_ACCOUNT ∉ r.(required_active) →
  (∀ a, a ∈ r.(required_other) → sat (Ok (Some a))) → (∀ id, id ∈ r.(required_owner) → sat (get_owner id)) →
  (∀ id, id ∈ r.(required_active) → id = GRAPHENE_TEMP_ACCOUNT ∨ sat (get_active id) ∨ sat (get_owner id)) →
  get_required_signatures addresses_of get_active get_owner required available ops sigs max = Ok res →
  res ⊆ available ∖ sigs ∧ ∃ useful, useful ⊆ sigs ∧
    verify_authority addresses_of get_active get_owner required ops (useful ∪ res) max false ∅ ∅ = Ok tt.
Proof.
  cbv zeta. set (r := get_required_authorities required ops). intros Hwf Hdisj Hcom Ho Hw Ha H. unfold get_required_signatures in H. cbv zeta in H. fold r in H.
  apply bind_Ok in H as (s1 & H1 & H). apply bind_Ok in H as (s2 & H2 & H). apply bind_Ok in H as (s3 & H3 & H). apply Ok_inj in H. cbn in H1, H2, H3.
  replace (r.(required_active) ∖ r.(required_owner)) with r.(required_active) in H3 by set_solver.
  rewrite Forall_forall in Hwf. set (on := on_the_way addresses_of get_active available sigs {[GRAPHENE_TEMP_ACCOUNT]} max (λ _, True) (start_state sigs)).
  pose proof (λ kept Hk a s s', other_steps addresses_of get_active get_owner available sigs max Hinj Hactive Howner kept Hk a s s') as Sother.
  pose proof (λ kept Hk id s s', owner_steps addresses_of get_active get_owner available sigs max Hinj Hactive Howner kept Hk id s s') as Sowner.
  pose proof (λ kept Hk id s s', active_steps addresses_of get_active get_owner available sigs max Hinj Hactive Howner kept Hk id s s') as Sactive.
  pose proof (λ kept Hk, wallet_starts addresses_of get_active get_owner available sigs max Hinj Hactive Howner kept Hk) as Sstart.
  pose proof (empty_subseteq (sigs ∪ available)) as He. assert (on (start_state sigs)) as O0 by by apply (Sstart ∅ He).
  assert (on s1 ∧ later (start_state sigs) s1) as [O1 L1] by (eapply (foldM_advances on); [|exact O0|exact H1]; intros a s s' Hin Hs Hx; by apply (Sother ∅ He a s s' (Hwf a Hin))).
  assert (on s2 ∧ later s1 s2) as [O2 L2] by (eapply (foldM_advances on); [|exact O1|exact H2]; intros id s s' _ Hs Hx; by apply (Sowner ∅ He id s s')).
  assert (on s3 ∧ later s2 s3) as [O3 L3] by (eapply (foldM_advances on); [|exact O2|exact H3]; intros id s s' _ Hs Hx; by apply (Sactive ∅ He id s s')).
  set (kept := used s3).
  assert (kept ⊆ sigs ∪ available) as Hk.
  { intros k Hk%elem_of_used. apply (so_dom _ _ _ _ (proj1 (proj1 O3))). by apply elem_of_dom_2 in Hk. }
  assert (res = filter (λ k, k ∈ available ∧ k ∉ sigs) kept) as -> by (by rewrite <-H).
  split; [clear; set_solver|]. exists (kept ∩ sigs). split; [clear; set_solver|].
  replace (kept ∩ sigs ∪ _) with kept.
  2:{ apply set_eq. intros k. rewrite elem_of_union, elem_of_intersection, elem_of_filter. specialize (Hk k). rewrite elem_of_union in Hk.
      clear -Hk. destruct (decide (k ∈ sigs)); naive_solver. }
  unfold verify_authority. cbv zeta. fold r. rewrite bool_decide_false by done. cbn [negb]. change (GRAPHENE_ASSERT true invalid_committee_approval) with (Ok tt). rewrite Ok_bind.
  apply later_used in L2, L3. set (like := alike addresses_of available sigs kept).
  pose proof (proj2 (Sstart kept Hk) : like _ _) as A0.
  destruct (foldM_simulates _ get_active _ _ Hinj kept Hk get_owner on _ (check_other addresses_of get_active ∅ max) _ _ _ _
    (λ a s s' Hin Hs Hx, proj1 (Sother kept Hk a s s' (Hwf a Hin) Hs Hx))
    (λ a s z s' Hin Hs Hz Hx, proj2 (Sother kept Hk a s s' (Hwf a Hin) Hs Hx) (Ho a Hin) z Hz) O0 A0 H1) as (z1 & -> & A1); [by etransitivity|].
  rewrite Ok_bind.
  destruct (foldM_simulates _ get_active _ _ Hinj kept Hk get_owner on _ (check_owner addresses_of get_active get_owner ∅ max ∅) _ _ _ _
    (λ id s s' _ Hs Hx, proj1 (Sowner kept Hk id s s' Hs Hx))
    (λ id s z s' Hin Hs Hz Hx, proj2 (Sowner kept Hk id s s' Hs Hx) (Hw id (proj1 (in_order_elem _ _) Hin)) z Hz) O1 A1 H2) as (z2 & -> & A2); [done|].
  rewrite Ok_bind.
  destruct (foldM_simulates _ get_active _ _ Hinj kept Hk get_owner on _ (check_active addresses_of get_active get_owner ∅ max) _ _ _ _
    (λ id s s' _ Hs Hx, proj1 (Sactive kept Hk id s s' Hs Hx))
    (λ id s z s' Hin Hs Hz Hx, proj2 (Sactive kept Hk id s s' Hs Hx) (Ha id (proj1 (in_order_elem _ _) Hin)) z Hz) O2 A2 H3) as (z3 & -> & A3); [done|].
  rewrite Ok_bind.
  rewrite (kept_accepted _ get_active get_owner _ _ max Hinj Hactive Howner kept Hk _ _ A3 eq_refl). done.
Qed.

(** The minimised set still verifies, and contains no key but those computed first. *)
Theorem minimize_required_signatures_verifies {OP} (required : OP → required_authorities) addresses_of get_active get_owner available ops sigs max s res
  (Hs : get_required_signatures addresses_of get_active get_owner required available ops sigs max = Ok s)
  (Hv : verify_authority addresses_of get_active get_owner required ops s max false ∅ ∅ = Ok tt)
  (H : minimize_required_signatures addresses_of get_active get_owner required available ops sigs max = Ok res) :
  res ⊆ s ∧ verify_authority addresses_of get_active get_owner required ops res max false ∅ ∅ = Ok tt.
Proof.
  unfold minimize_required_signatures in H. rewrite Hs, Ok_bind in H.
  assert (∀ l t t', l ⊆ in_order s → t ⊆ s ∧ verify_authority addresses_of get_active get_owner required ops t max false ∅ ∅ = Ok tt →
    (∀ k, k ∈ l → NoDup l → k ∈ t) → NoDup l →
    foldM (drop_key addresses_of get_active get_owner required ops max) t l = Ok t' →
    t' ⊆ s ∧ verify_authority addresses_of get_active get_owner required ops t' max false ∅ ∅ = Ok tt) as Hgo.
  2:{ apply (Hgo (in_order s) s res); [done|done| | |done].
      - intros k Hk _. by apply in_order_elem.
      - unfold in_order. rewrite merge_sort_Permutation. apply NoDup_elements. }
  induction l as [|k l IH]; intros t t' Hl [Ht Hvt] Hin Hnd Hf; cbn in Hf; [injection Hf as <-; by split|].
  apply bind_Ok in Hf as (t1 & H1 & Hf). assert (k ∈ t) as Hkt by (apply Hin; [set_solver|done]). apply NoDup_cons in Hnd as Hnd'.
  apply (IH t1); [set_solver| | |apply Hnd'|exact Hf].
  - unfold drop_key in H1. cbv zeta in H1. destruct (verify_authority _ _ _ _ _ (t ∖ _) _ _ _ _) as [[]|e] eqn:E.
    + injection H1 as <-. split; [set_solver|done].
    + destruct (bool_decide _); [|done]. injection H1 as <-. replace ({[k]} ∪ t ∖ {[k]}) with t; [done|].
      rewrite union_comm_L, difference_union_L. set_solver.
  - intros k' Hk' _. assert (k' ∈ t) as Hk't by (apply Hin; [set_solver|done]).
    assert (k' ≠ k) by (intros ->; by apply (proj1 Hnd')). unfold drop_key in H1. cbv zeta in H1.
    destruct (verify_authority _ _ _ _ _ (t ∖ _) _ _ _ _); [injection H1 as <-; set_solver|].
    destruct (bool_decide _); [injection H1 as <-; set_solver|done].
Qed.

(** ** Instances *)
Definition sample_active (a : Z) : result (option authority) :=
  Ok (if a =? 10 then Some (AuthorityOf 2 [] [(1, 1); (2, 1)] [])
      else if a =? 11 then Some (AuthorityOf 3 [(10, 2)] [(3, 1)] [(50, 1)])
      else None).
Definition sample_owner (a : Z) : result (option authority) := Ok (if a =? 10 then Some (AuthorityOf 1 [] [(7, 1)] []) else None).
Definition sample_addresses (k : Z) : list Z := [5 * k + 100; 5 * k + 101; 5 * k + 102; 5 * k + 103; 5 * k + 104].
Definition sample_required (op : Z) : required_authorities := Required {[op]} ∅ [].

Lemma sample_authorities a au : (sample_active a = Ok (Some au) → auth_wf au) ∧ (sample_owner a = Ok (Some au) → auth_wf au).
Proof.
  unfold sample_active, sample_owner. split; (destruct (a =? 10); [|try destruct (a =? 11)]; intros [=]); subst;
    (split; [cbn; lia|]); (split; [cbn; repeat constructor; cbn; lia|cbn; lia]).
Qed.
Lemma sample_addresses_inj a k k' : a ∈ sample_addresses k → a ∈ sample_addresses k' → k = k'.
Proof. unfold sample_addresses. intros H H'. repeat (apply elem_of_cons in H as [H|H]); repeat (apply elem_of_cons in H' as [H'|H']); set_solver by lia. Qed.


Lemma verify_authority_complete_witness :
  verify_authority sample_addresses sample_active sample_owner sample_required [11] {[1; 2; 3; 9]} 2 false ∅ ∅ ∈ [Ok tt; Err tx_irrelevant_sig].
Proof.
  apply verify_authority_complete.
  - intros a au. apply sample_authorities.
  - intros a au. apply sample_authorities.
  - constructor.
  - intros a. unfold sample_active, sample_owner. eauto.
  - right. set_solver.
  - intros a H. cbn in H. set_solver.
  - intros id H. cbn in H. set_solver.
  - intros id H. right. left. replace id with 11 by set_solver. eexists. split; [reflexivity|]. vm_compute. reflexivity.
Defined.

Lemma required_signatures_accepted_witness :
  ∃ useful, useful ⊆ {[3]} ∧
    verify_authority sample_addresses sample_active sample_owner sample_required [11] (useful ∪ {[1; 2]}) 2 false ∅ ∅ = Ok tt.
Proof.
  destruct (get_required_signatures sample_addresses sample_active sample_owner sample_required {[1; 2; 4; 8]} [11] {[3]} 2) as [res|] eqn:E;
    [|exfalso; vm_compute in E; discriminate E].
  assert (res = {[1; 2]}) as -> by (vm_compute in E; injection E as <-; vm_compute; reflexivity).
  refine (proj2 (required_signatures_accepted sample_required sample_addresses sample_active sample_owner {[1; 2; 4; 8]} [11] {[3]} 2 _
    sample_addresses_inj (λ a au, proj1 (sample_authorities a au)) (λ a au, proj2 (sample_authorities a au)) _ _ _ _ _ _ E)).
  - constructor.
  - set_solver.
  - cbn. set_solver.
  - intros a H. cbn in H. set_solver.
  - intros id H. cbn in H. set_solver.
  - intros id H. right. left. replace id with 11 by set_solver. eexists. split; [reflexivity|]. vm_compute. reflexivity.
Defined.
