(* ===== verification/Objects.v ===== *)
(** * The object database

    [libraries/db] keeps one index per object type: a map from instance
    numbers to objects and the next free instance.  This file holds the index
    operations, the objects of the chain the modelled components read and
    write (each field under its C++ name, prefixed by its record), and the
    [database] record that groups the indices.  Opaque payloads ([memo_data])
    are strings; the statistics object of an account is stored under the
    account's own instance number. *)
From S2P Require Import Prelude Safe Asset Authority.

(** ** generic_index / primary_index *)
Record index (V : Type) : Type := Index { objs : gmap Z V; next_id : Z }.
Arguments Index {V} objs next_id.
Arguments objs {V} i.
Arguments next_id {V} i.

Definition index_empty {V} : index V := Index ∅ 0.

(** [index::get] throws when the object is missing. *)
Definition index_get {V} (i : index V) (id : Z) : result V :=
  from_option_exn assert_exception (i.(objs) !! id).

(** [create] takes the next instance; inserting an existing key violates
    uniqueness. *)
Definition index_create {V} (i : index V) (v : V) : result (Z * index V) :=
  match i.(objs) !! i.(next_id) with
  | Some _ => Err assert_exception
  | None => Ok (i.(next_id), Index (<[i.(next_id) := v]> i.(objs)) (i.(next_id) + 1))
  end.

(** [modify(get(id), f)], where the lambda may throw. *)
Definition index_modify {V} (i : index V) (id : Z) (f : V → result V) : result (index V) :=
  v ← index_get i id;
  v' ← f v;
  Ok (Index (<[id := v']> i.(objs)) i.(next_id)).

(** [remove(get(id))]. *)
Definition index_remove {V} (i : index V) (id : Z) : result (index V) :=
  _ ← index_get i id;
  Ok (Index (delete id i.(objs)) i.(next_id)).

(** ** Accounts *)

(** The votes are vote identifiers: the type in the lower 8 bits, the instance above
    ([protocol/vote.hpp]). *)
Record account_options : Type := AccountOptions {
  opt_voting_account : Z;
  opt_num_witness : Z;
  opt_num_committee : Z;
  opt_votes : gset Z }.
Definition vote_instance (id : Z) : Z := Z.shiftr id 8.

Record account_object : Type := Account {
  acc_referrer : Z;
  acc_whitelisting_accounts : gset Z;
  acc_whitelisted_accounts : gset Z;
  acc_blacklisting_accounts : gset Z;
  acc_cashback_vb : option Z;
  acc_allowed_assets : option (gset Z);
  acc_referral_levels : Z;
  acc_referral_status_type : Z;
  acc_referral_status_paid_fee : Z;
  acc_referral_status_expiration_date : Z;
  acc_status_denominator : Z;
  acc_gr_team : option Z;
  acc_owner : authority;
  acc_active : authority;
  acc_membership_expiration_date : Z;
  acc_apostolos : bool;
  acc_last_gr_rank : Z;
  acc_options : account_options }.

Definition active_referral_status (a : account_object) (now : Z) : Z :=
  if now <=? a.(acc_referral_status_expiration_date) then a.(acc_referral_status_type) else 0.

(** [account_object::is_member] *)
Definition is_basic_account (a : account_object) (now : Z) : bool := a.(acc_membership_expiration_date) <? now.
Definition is_member (a : account_object) (now : Z) : bool := negb (is_basic_account a now).

Record account_statistics_object : Type := Statistics {
  st_total_core_in_orders : Z;
  st_has_cashback_vb : bool;
  st_lifetime_fees_paid : Z;
  st_pending_fees : Z;
  st_pending_vested_fees : Z;
  st_personal_volume_in_period : Z;
  st_network_volume_in_period : Z;
  st_last_pv_update_date : Z;
  st_last_nv_update_date : Z;
  st_matrix : Z;
  st_matrix_active_levels : Z;
  st_matrix_cells_opened : Z;
  st_matrix_rooms_opened : Z;
  st_lottery_goods_rating : Z;
  st_p2p_complete_deals : Z;
  st_p2p_canceled_deals : Z;
  st_p2p_arbitrage_loose : Z;
  st_p2p_deals_volume : Z;
  st_p2p_banned : Z;
  st_p2p_gateway_active : bool;
  st_p2p_first_month_rating : Z;
  st_p2p_current_month_rating : Z;
  st_first_month_income : Z;
  st_second_month_income : Z;
  st_third_month_income : Z;
  st_current_month_income : Z;
  st_last_period_gr : Z;
  st_current_period_gr : Z;
  st_total_credit : Z;
  st_allowed_to_repay : Z;
  st_credit_repaid : Z;
  st_creditor : Z;
  st_poc3_vote : Z;
  st_poc6_vote : Z;
  st_poc12_vote : Z;
  st_had_staking : bool;
  st_core_in_balance : Z;
  st_is_voting : bool }.

(** A fresh statistics object, with the member initialisers of the class. *)
Definition new_statistics : account_statistics_object :=
  Statistics 0 false 0 0 0 0 0 0 0 0 1 0 0 0 0 0 0 0 0 true 0 0 0 0 0 0 0 0 0 0 0 0 0 0 0 false 0 false.

Record account_balance_object : Type := AccountBalance {
  abo_balance : Z;
  abo_maintenance_flag : bool }.

(** ** Assets *)
Record asset_object : Type := AssetObject {
  ao_symbol : string;
  ao_issuer : Z;
  ao_max_supply : Z;
  ao_flags : Z;
  ao_whitelist_authorities : gset Z;
  ao_blacklist_authorities : gset Z;
  ao_core_exchange_rate : price;
  ao_dynamic_asset_data_id : Z;
  ao_market_fee_percent : Z;
  ao_max_market_fee : Z;
  ao_whitelist_markets : gset Z;
  ao_blacklist_markets : gset Z;
  ao_bitasset_data_id : option Z;
  ao_precision : Z;
  ao_issuer_permissions : Z }.

(** [asset_issuer_permission_flags] of [protocol/types.hpp]. *)
Definition charge_market_fee_flag : Z := 1.
Definition override_authority_flag : Z := 4.
Definition transfer_restricted_flag : Z := 8.
Definition is_transfer_restricted (a : asset_object) : bool :=
  negb (Z.land a.(ao_flags) transfer_restricted_flag =? 0).
Definition can_override (a : asset_object) : bool :=
  negb (Z.land a.(ao_flags) override_authority_flag =? 0).

Definition charges_market_fees (a : asset_object) : bool :=
  negb (Z.land a.(ao_flags) charge_market_fee_flag =? 0).
Definition is_market_issued (a : asset_object) : bool := bool_decide (is_Some a.(ao_bitasset_data_id)).

Record asset_dynamic_data_object : Type := DynamicData {
  dd_current_supply : Z;
  dd_accumulated_fees : Z;
  dd_fee_pool : Z }.

(** ** Market issued assets *)
Record bitasset_options : Type := BitassetOptions {
  bo_feed_lifetime_sec : Z;
  bo_minimum_feeds : Z;
  bo_force_settlement_delay_sec : Z;
  bo_force_settlement_offset_percent : Z;
  bo_maximum_force_settlement_volume : Z;
  bo_short_backing_asset : Z }.

Record asset_bitasset_data_object : Type := BitassetData {
  bd_asset_id : Z;
  bd_options : bitasset_options;
  bd_feeds : gmap Z (Z * price_feed);
  bd_current_feed : price_feed;
  bd_current_feed_publication_time : Z;
  bd_is_prediction_market : bool;
  bd_force_settled_volume : Z;
  bd_settlement_price : price;
  bd_settlement_fund : Z;
  bd_asset_cer_updated : bool;
  bd_feed_cer_updated : bool }.
Definition has_settlement (b : asset_bitasset_data_object) : bool := negb (price_is_null b.(bd_settlement_price)).

(** ** The order book *)
Record limit_order_object : Type := LimitOrder {
  lo_expiration : Z;
  lo_seller : Z;
  lo_for_sale : Z;
  lo_sell_price : price;
  lo_deferred_fee : Z;
  lo_deferred_paid_fee : asset }.
Definition amount_for_sale (o : limit_order_object) : asset := Asset o.(lo_for_sale) o.(lo_sell_price).(base).(asset_id).
Definition sell_asset_id (o : limit_order_object) : Z := o.(lo_sell_price).(base).(asset_id).
Definition receive_asset_id (o : limit_order_object) : Z := o.(lo_sell_price).(quote).(asset_id).

Record call_order_object : Type := CallOrder {
  cl_borrower : Z;
  cl_collateral : Z;
  cl_debt : Z;
  cl_call_price : price;
  cl_target_collateral_ratio : option Z }.
Definition debt_type (c : call_order_object) : Z := c.(cl_call_price).(quote).(asset_id).
Definition collateral_type (c : call_order_object) : Z := c.(cl_call_price).(base).(asset_id).
Definition get_collateral (c : call_order_object) : asset := Asset c.(cl_collateral) (collateral_type c).
Definition get_debt (c : call_order_object) : asset := Asset c.(cl_debt) (debt_type c).

Record force_settlement_object : Type := ForceSettlement {
  fs_owner : Z;
  fs_balance : asset;
  fs_settlement_date : Z }.

Record collateral_bid_object : Type := CollateralBid {
  cb_bidder : Z;
  cb_inv_swan_price : price }.

(** ** Vesting balances *)
Record linear_vesting_policy : Type := LinearPolicy {
  lv_begin_timestamp : Z;
  lv_vesting_cliff_seconds : Z;
  lv_vesting_duration_seconds : Z;
  lv_begin_balance : Z }.

Record cdd_vesting_policy : Type := CddPolicy {
  cdd_vesting_seconds : Z;
  cdd_coin_seconds_earned : Z;
  cdd_start_claim : Z;
  cdd_coin_seconds_earned_last_update : Z }.

Inductive vesting_policy : Type :=
  | linear (p : linear_vesting_policy)
  | cdd (p : cdd_vesting_policy).

Record vesting_balance_object : Type := VestingBalance {
  vb_owner : Z;
  vb_balance : asset;
  vb_policy : vesting_policy }.

Record witness_object : Type := Witness {
  wit_witness_account : Z;
  wit_last_aslot : Z;
  wit_pay_vb : option Z;
  wit_last_confirmed_block_num : Z;
  wit_total_missed : Z;
  wit_vote_id : Z;
  wit_total_votes : Z }.

(** ** Committee members and workers *)
Record committee_member_object : Type := CommitteeMember {
  cm_committee_member_account : Z;
  cm_vote_id : Z;
  cm_total_votes : Z }.

Inductive worker_type : Type :=
  | refund_worker (total_burned : Z)
  | vesting_balance_worker (balance : Z)
  | burn_worker (total_burned : Z).

Record worker_object : Type := Worker {
  wk_worker_account : Z;
  wk_work_begin_date : Z;
  wk_work_end_date : Z;
  wk_daily_pay : Z;
  wk_worker : worker_type;
  wk_name : string;
  wk_url : string;
  wk_vote_for : Z;
  wk_vote_against : Z;
  wk_total_votes_for : Z;
  wk_total_votes_against : Z }.

(** ** Withdraw permissions *)
Record withdraw_permission_object : Type := WithdrawPermission {
  wp_withdraw_from_account : Z;
  wp_authorized_account : Z;
  wp_withdrawal_limit : asset;
  wp_withdrawal_period_sec : Z;
  wp_period_start_time : Z;
  wp_expiration : Z;
  wp_claimed_this_period : Z }.

(** ** P2P exchange *)
Record p2p_adv_object : Type := P2pAdv {
  pa_p2p_gateway : Z;
  pa_adv_type : bool;
  pa_adv_description : string;
  pa_max_cwd : Z;
  pa_min_cwd : Z;
  pa_price : Z;
  pa_black_list : gset Z;
  pa_status : Z;
  pa_min_p2p_complete_deals : Z;
  pa_min_account_status : Z;
  pa_timelimit_for_approve : Z;
  pa_timelimit_for_reply : Z;
  pa_geo : string;
  pa_currency : string }.

Record p2p_order_object : Type := P2pOrder {
  po_p2p_adv : Z;
  po_order_type : bool;
  po_amount : asset;
  po_price : Z;
  po_currency : string;
  po_p2p_gateway : Z;
  po_p2p_client : Z;
  po_status : Z;
  po_time_for_approve : Z;
  po_time_for_reply : Z;
  po_payment_details : option string;
  po_file_hash : option string;
  po_arbitrage_initiator : option Z }.

(** ** Credits, pledges, approved transfers *)
Record credit_offer_object : Type := CreditOffer {
  co_creditor : Z;
  co_min_income : Z;
  co_credit_amount : asset;
  co_repay_amount : asset }.

Record pledge_offer_object : Type := PledgeOffer {
  pl_creator : Z;
  pl_debitor : Z;
  pl_creditor : Z;
  pl_pledge_amount : asset;
  pl_credit_amount : asset;
  pl_repay_amount : asset;
  pl_pledge_days : Z;
  pl_expiration : Z;
  pl_status : Z }.

Record approved_transfer_object : Type := ApprovedTransfer {
  at_from : Z;
  at_to : Z;
  at_arbitr : Z;
  at_amount : asset;
  at_expiration : Z;
  at_status : Z }.

(** ** Game zone *)
Record flipcoin_object : Type := Flipcoin {
  fl_bettor : Z;
  fl_caller : option Z;
  fl_winner : option Z;
  fl_bet : asset;
  fl_nonce : Z;
  fl_expiration : Z;
  fl_status : Z }.

Record lottery_goods_object : Type := LotteryGoods {
  lg_owner : Z;
  lg_participants : list Z;
  lg_total_participants : Z;
  lg_ticket_price : asset;
  lg_expiration : Z;
  lg_latency_sec : Z;
  lg_status : Z;
  lg_img_url : string;
  lg_description : string;
  lg_winner : option Z;
  lg_winner_contacts : option string }.

(** The eight [matrix_level_N_*] fields are lists indexed by the level. *)
Record matrix_object : Type := Matrix {
  mx_start_block_number : Z;
  mx_finish_block_number : Z;
  mx_status : Z;
  mx_amount : Z;
  mx_total_amount : Z;
  mx_last_120k_amount : Z;
  mx_level_price : list Z;
  mx_level_prize : list Z;
  mx_level_cells : list Z }.

Record matrix_rooms_object : Type := MatrixRoom {
  mr_matrix : Z;
  mr_matrix_player : Z;
  mr_matrix_level : Z;
  mr_total_cells : Z;
  mr_status : Z;
  mr_cells : list Z }.

(** ** The great race

    The [players] of a team are a [flat_set], the bets of a bet object two maps from
    the bettors to their stakes.  The seven [gr_*_volume] fields of a vote and of the
    dynamic properties are a list, iron to master, and the eight [gr_*_reward] fields
    another: iron to diamond, elite, master. *)
Record gr_team_object : Type := GrTeam {
  gr_interval_2_volume : Z;
  gr_interval_4_volume : Z;
  gr_interval_6_volume : Z;
  gr_interval_9_volume : Z;
  gr_interval_11_volume : Z;
  gr_interval_13_volume : Z;
  gr_first_half_volume : Z;
  gr_second_half_volume : Z;
  gr_total_volume : Z;
  gr_name : string;
  gr_description : string;
  gr_logo : string;
  gr_captain : Z;
  gr_players : gset Z;
  gr_last_gr_rank : Z }.

Record gr_invite_object : Type := GrInvite {
  gi_captain : Z;
  gi_player : Z;
  gi_team : Z }.

Record gr_votes_object : Type := GrVotes {
  gv_player : Z;
  gv_volumes : list Z;
  gv_rewards : list Z }.

Record gr_range_bet_object : Type := GrRangeBet {
  rb_team : Z;
  rb_lower_rank : Z;
  rb_upper_rank : Z;
  rb_total_prize : Z;
  rb_total_true_bets : Z;
  rb_total_false_bets : Z;
  rb_true_bets : gmap Z Z;
  rb_false_bets : gmap Z Z }.

Record gr_team_bet_object : Type := GrTeamBet {
  tb_team1 : Z;
  tb_team2 : Z;
  tb_total_prize : Z;
  tb_total_team1_bets : Z;
  tb_total_team2_bets : Z;
  tb_team1_bets : gmap Z Z;
  tb_team2_bets : gmap Z Z }.

(** ** Global properties *)
Record chain_parameters : Type := ChainParameters {
  cp_cashback_vesting_period_seconds : Z;
  cp_witness_pay_per_block : Z;
  cp_witness_pay_vesting_seconds : Z;
  cp_ref_percent_of_fee : list Z;      (* ref_01_percent_of_fee .. ref_08_percent_of_fee *)
  cp_status_levels : list Z;           (* status_levels_00 .. _04 *)
  cp_status_denominator : list Z;      (* status_denominator_00 .. _04 *)
  cp_denominator : bool;
  cp_denominator_bonus_level : Z;
  cp_nv_levels : Z;
  cp_min_nv_status : Z;
  cp_compression_levels : Z;
  cp_compression : bool;
  cp_cashback : bool;
  cp_min_not_compressed : Z;
  cp_compression_limit : Z;
  cp_referral_statistic_seconds : Z;
  cp_root_account : Z;
  cp_nv_level_threshold : list Z;      (* nv_level_threshold_01 .. _08 *)
  cp_nv_level_reward : list Z;         (* nv_level_reward_01 .. _08 *)
  cp_block_interval : Z;
  cp_maintenance_skip_slots : Z;
  cp_max_authority_depth : Z;
  cp_maximum_time_until_expiration : Z;
  cp_maximum_asset_whitelist_authorities : Z;
  cp_maximum_asset_feed_publishers : Z;
  cp_maintenance_interval : Z;
  cp_worker_budget_per_day : Z;
  cp_count_non_member_votes : bool;
  cp_maximum_witness_count : Z;
  cp_maximum_committee_count : Z }.

Record staking_parameters : Type := StakingParameters {
  sp_poc_gcwd : Z;
  sp_poc_ref : list Z;                 (* poc_ref_01 .. poc_ref_08 *)
  sp_poc_status_levels : list Z;       (* poc_status_levels_00 .. _04 *)
  sp_poc_status_denominator : list Z;  (* poc_status_denominator_00 .. _04 *)
  sp_poc3_min_amount : Z;
  sp_poc6_min_amount : Z;
  sp_poc12_min_amount : Z;
  sp_poc_vote_duration : Z;
  sp_poc_vote_interval_days : Z;
  sp_poc_min_votes : Z;
  sp_poc_filter_percent : Z }.

Record gamezone_parameters : Type := GamezoneParameters {
  gz_matrix_lasts_blocks : Z;
  gz_matrix_idle_blocks : Z;
  gz_matrix_level_cells : list Z;
  gz_matrix_level_price : list Z;
  gz_matrix_level_prize : list Z;
  gz_lottery_goods_total_participants : Z;
  gz_lottery_goods_expiration : Z;
  gz_flipcoin_min_bet_amount : Z }.

Record greatrace_chain_parameters : Type := GreatraceParameters {
  gr_vote_duration : Z;
  gr_min_team_status : Z;
  gr_min_team_volume : Z;
  gr_min_gr_bet : Z;
  gr_min_vote_last_rank : Z;
  gr_intervals : list Z;               (* interval_1 .. interval_14 *)
  gr_apostolos_reward : Z }.

(** [immutable_parameters] of the chain properties. *)
Record chain_property_object : Type := ChainProperties {
  im_min_committee_member_count : Z;
  im_min_witness_count : Z }.

Record global_property_object : Type := GlobalProperties {
  gpo_parameters : chain_parameters;
  gpo_staking_parameters : staking_parameters;
  gpo_gamezone_parameters : gamezone_parameters;
  gpo_greatrace_parameters : greatrace_chain_parameters;
  gpo_next_available_vote_id : Z;
  gpo_active_committee_members : list Z;
  gpo_active_witnesses : list Z }.

Record dynamic_global_property_object : Type := DynamicGlobalProperties {
  dgp_head_block_number : Z;
  dgp_head_block_id : list Z;          (* the 40 hexadecimal digits of the id *)
  dgp_time : Z;
  dgp_witness_budget : Z;
  dgp_gcwd_price : Z;
  dgp_end_poc_vote_time : Z;
  dgp_poc3_percent : Z;
  dgp_poc6_percent : Z;
  dgp_poc12_percent : Z;
  dgp_current_gr_interval : Z;
  dgp_last_irreversible_block_num : Z;
  dgp_current_witness : Z;
  dgp_recently_missed_count : Z;
  dgp_current_aslot : Z;
  dgp_recent_slots_filled : Z;
  dgp_dynamic_flags : Z;
  dgp_next_maintenance_time : Z;
  dgp_next_monthly_maintenance_time : Z;
  dgp_last_budget_time : Z;
  dgp_next_poc_vote_time : Z;
  dgp_poc_vote_is_active : bool;
  dgp_next_gr_interval_time : Z;
  dgp_gr_bet_interval_time : Z;
  dgp_end_gr_vote_time : Z;
  dgp_gr_vote_is_active : bool;
  dgp_gr_volumes : list Z;             (* gr_iron_volume .. gr_master_volume *)
  dgp_gr_rewards : list Z;             (* gr_iron_reward .. gr_elite_reward, gr_master_reward *)
  dgp_gr_top3_reward : Z }.

(** The budget of a maintenance interval ([budget_record_object.hpp]). *)
Record budget_record : Type := BudgetRecord {
  br_time_since_last_budget : Z;
  br_from_initial_reserve : Z;
  br_from_accumulated_fees : Z;
  br_from_unused_witness_budget : Z;
  br_requested_witness_budget : Z;
  br_total_budget : Z;
  br_witness_budget : Z;
  br_worker_budget : Z;
  br_leftover_worker_funds : Z;
  br_supply_delta : Z }.
Record budget_record_object : Type := BudgetRecordObject {
  bro_time : Z;
  bro_record : budget_record }.

(** Virtual operations recorded by [push_applied_operation]. *)
Inductive applied_operation : Type :=
  | credit_total_repay_op (debitor creditor : Z) (repay_amount : asset)
  | autocancel_p2p_order_op (p2p_order p2p_gateway p2p_client : Z)
  | autorefund_p2p_order_op (p2p_order p2p_gateway p2p_client : Z) (amt : asset) (refund_to : Z)
  | flipcoin_cancel_op (flipcoin bettor : Z) (bet : asset)
  | flipcoin_win_op (flipcoin winner : Z) (payout referral_payout : asset)
  | flipcoin_loose_op (flipcoin looser : Z) (bet : asset)
  | pledge_offer_auto_repay_op (pledge_offer debitor creditor : Z) (pledge credit repay : asset)
  | approved_transfer_cancel_op (ato from to arbitr : Z) (amt : asset)
  | lottery_goods_win_op (lot winner : Z)
  | lottery_goods_loose_op (lot looser : Z)
  | lottery_goods_refund_op (lot participant : Z) (ticket_price : asset)
  | matrix_cell_filled_op (player room level cell_player : Z)
  | matrix_room_closed_op (player room level : Z) (level_reward : Z)
  | mass_payment_pay_op (from to : Z) (amt : asset)
  | poc_staking_referal_op (referrer account level : Z) (reward : asset)
  | fill_order_op (order account : Z) (pays receives fee : asset) (fill_price : price) (is_maker : bool)
  | limit_order_cancel_virtual_op (order fee_paying_account : Z) (fee : asset)
  | asset_settle_cancel_op (settlement account : Z) (amt : asset)
  | bid_collateral_virtual_op (bidder : Z) (additional_collateral debt_covered : asset)
  | execute_bid_op (bidder : Z) (collateral debt : asset)
  | gr_pay_top_reward_op (captain team interval : Z) (amt : asset)
  | gr_pay_rank_reward_op (captain team rank : Z) (amt : asset)
  | gr_assign_rank_op (player team rank : Z)
  | gr_apostolos_op (player team : Z)
  | gr_range_bet_win_op (bet team lower_rank upper_rank place : Z) (total_bets total_wins bettor_part reward : asset) (bettor : Z)
  | gr_range_bet_loose_op (bet team lower_rank upper_rank place bettor : Z)
  | gr_range_bet_cancel_op (bet team lower_rank upper_rank place : Z) (payback : asset) (bettor : Z)
  | gr_team_bet_win_op (bet team1 team2 winner : Z) (total_bets total_wins bettor_part reward : asset) (bettor : Z)
  | gr_team_bet_loose_op (bet team1 team2 winner bettor : Z)
  | gr_team_bet_cancel_op (bet team1 team2 winner : Z) (payback : asset) (bettor : Z).

(** ** The database *)
Record database : Type := Database {
  d_accounts : index account_object;
  d_statistics : gmap Z account_statistics_object;
  d_balances : gmap (Z * Z) account_balance_object;
  d_assets : index asset_object;
  d_dynamic_data : gmap Z asset_dynamic_data_object;
  d_vesting : index vesting_balance_object;
  d_witnesses : index witness_object;
  d_p2p_advs : index p2p_adv_object;
  d_p2p_orders : index p2p_order_object;
  d_credit_offers : index credit_offer_object;
  d_pledge_offers : index pledge_offer_object;
  d_approved_transfers : index approved_transfer_object;
  d_flipcoins : index flipcoin_object;
  d_lotteries : index lottery_goods_object;
  d_matrices : index matrix_object;
  d_rooms : index matrix_rooms_object;
  d_gr_teams : index gr_team_object;
  d_gr_invites : index gr_invite_object;
  d_gr_votes : index gr_votes_object;
  d_gr_range_bets : index gr_range_bet_object;
  d_gr_team_bets : index gr_team_bet_object;
  d_committee_members : index committee_member_object;
  d_workers : index worker_object;
  d_withdraw_permissions : index withdraw_permission_object;
  d_budget_records : index budget_record_object;
  d_chain_properties : chain_property_object;
  d_limit_orders : index limit_order_object;
  d_call_orders : index call_order_object;
  d_settlements : index force_settlement_object;
  d_collateral_bids : index collateral_bid_object;
  d_bitasset_data : index asset_bitasset_data_object;
  d_gpo : global_property_object;
  d_dgpo : dynamic_global_property_object;
  d_witness_schedule : list Z;         (* current_shuffled_witnesses *)
  d_applied : list applied_operation }.

(** ** Eta expansions, from which the field setters are derived *)
#[export] Instance eta_account_options : Eta account_options := λ x,
  AccountOptions (opt_voting_account x) (opt_num_witness x) (opt_num_committee x) (opt_votes x).
#[export] Instance eta_account_object : Eta account_object := λ x,
  Account (acc_referrer x) (acc_whitelisting_accounts x) (acc_whitelisted_accounts x)
    (acc_blacklisting_accounts x) (acc_cashback_vb x) (acc_allowed_assets x)
    (acc_referral_levels x) (acc_referral_status_type x) (acc_referral_status_paid_fee x)
    (acc_referral_status_expiration_date x) (acc_status_denominator x) (acc_gr_team x)
    (acc_owner x) (acc_active x) (acc_membership_expiration_date x) (acc_apostolos x)
    (acc_last_gr_rank x) (acc_options x).
#[export] Instance eta_account_statistics_object : Eta account_statistics_object := λ x,
  Statistics (st_total_core_in_orders x) (st_has_cashback_vb x) (st_lifetime_fees_paid x)
    (st_pending_fees x) (st_pending_vested_fees x) (st_personal_volume_in_period x)
    (st_network_volume_in_period x) (st_last_pv_update_date x) (st_last_nv_update_date x)
    (st_matrix x) (st_matrix_active_levels x) (st_matrix_cells_opened x)
    (st_matrix_rooms_opened x) (st_lottery_goods_rating x) (st_p2p_complete_deals x)
    (st_p2p_canceled_deals x) (st_p2p_arbitrage_loose x) (st_p2p_deals_volume x) (st_p2p_banned x)
    (st_p2p_gateway_active x) (st_p2p_first_month_rating x) (st_p2p_current_month_rating x)
    (st_first_month_income x) (st_second_month_income x) (st_third_month_income x)
    (st_current_month_income x) (st_last_period_gr x) (st_current_period_gr x) (st_total_credit x)
    (st_allowed_to_repay x) (st_credit_repaid x) (st_creditor x) (st_poc3_vote x) (st_poc6_vote x)
    (st_poc12_vote x) (st_had_staking x) (st_core_in_balance x) (st_is_voting x).
#[export] Instance eta_account_balance_object : Eta account_balance_object := λ x,
  AccountBalance (abo_balance x) (abo_maintenance_flag x).
#[export] Instance eta_asset_object : Eta asset_object := λ x,
  AssetObject (ao_symbol x) (ao_issuer x) (ao_max_supply x) (ao_flags x)
    (ao_whitelist_authorities x) (ao_blacklist_authorities x) (ao_core_exchange_rate x)
    (ao_dynamic_asset_data_id x) (ao_market_fee_percent x) (ao_max_market_fee x)
    (ao_whitelist_markets x) (ao_blacklist_markets x) (ao_bitasset_data_id x)
    (ao_precision x) (ao_issuer_permissions x).
#[export] Instance eta_bitasset_options : Eta bitasset_options := λ x,
  BitassetOptions (bo_feed_lifetime_sec x) (bo_minimum_feeds x) (bo_force_settlement_delay_sec x)
    (bo_force_settlement_offset_percent x) (bo_maximum_force_settlement_volume x)
    (bo_short_backing_asset x).
#[export] Instance eta_asset_bitasset_data_object : Eta asset_bitasset_data_object := λ x,
  BitassetData (bd_asset_id x) (bd_options x) (bd_feeds x) (bd_current_feed x)
    (bd_current_feed_publication_time x) (bd_is_prediction_market x) (bd_force_settled_volume x)
    (bd_settlement_price x) (bd_settlement_fund x) (bd_asset_cer_updated x) (bd_feed_cer_updated x).
#[export] Instance eta_limit_order_object : Eta limit_order_object := λ x,
  LimitOrder (lo_expiration x) (lo_seller x) (lo_for_sale x) (lo_sell_price x) (lo_deferred_fee x)
    (lo_deferred_paid_fee x).
#[export] Instance eta_call_order_object : Eta call_order_object := λ x,
  CallOrder (cl_borrower x) (cl_collateral x) (cl_debt x) (cl_call_price x)
    (cl_target_collateral_ratio x).
#[export] Instance eta_force_settlement_object : Eta force_settlement_object := λ x,
  ForceSettlement (fs_owner x) (fs_balance x) (fs_settlement_date x).
#[export] Instance eta_asset_dynamic_data_object : Eta asset_dynamic_data_object := λ x,
  DynamicData (dd_current_supply x) (dd_accumulated_fees x) (dd_fee_pool x).
#[export] Instance eta_linear_vesting_policy : Eta linear_vesting_policy := λ x,
  LinearPolicy (lv_begin_timestamp x) (lv_vesting_cliff_seconds x) (lv_vesting_duration_seconds x)
    (lv_begin_balance x).
#[export] Instance eta_cdd_vesting_policy : Eta cdd_vesting_policy := λ x,
  CddPolicy (cdd_vesting_seconds x) (cdd_coin_seconds_earned x) (cdd_start_claim x)
    (cdd_coin_seconds_earned_last_update x).
#[export] Instance eta_vesting_balance_object : Eta vesting_balance_object := λ x,
  VestingBalance (vb_owner x) (vb_balance x) (vb_policy x).
#[export] Instance eta_witness_object : Eta witness_object := λ x,
  Witness (wit_witness_account x) (wit_last_aslot x) (wit_pay_vb x)
    (wit_last_confirmed_block_num x) (wit_total_missed x)
    (wit_vote_id x) (wit_total_votes x).
#[export] Instance eta_committee_member_object : Eta committee_member_object := λ x,
  CommitteeMember (cm_committee_member_account x) (cm_vote_id x) (cm_total_votes x).
#[export] Instance eta_worker_object : Eta worker_object := λ x,
  Worker (wk_worker_account x) (wk_work_begin_date x) (wk_work_end_date x) (wk_daily_pay x)
    (wk_worker x) (wk_name x) (wk_url x) (wk_vote_for x) (wk_vote_against x)
    (wk_total_votes_for x) (wk_total_votes_against x).
#[export] Instance eta_withdraw_permission_object : Eta withdraw_permission_object := λ x,
  WithdrawPermission (wp_withdraw_from_account x) (wp_authorized_account x) (wp_withdrawal_limit x)
    (wp_withdrawal_period_sec x) (wp_period_start_time x) (wp_expiration x) (wp_claimed_this_period x).
#[export] Instance eta_p2p_adv_object : Eta p2p_adv_object := λ x,
  P2pAdv (pa_p2p_gateway x) (pa_adv_type x) (pa_adv_description x) (pa_max_cwd x) (pa_min_cwd x)
    (pa_price x) (pa_black_list x) (pa_status x) (pa_min_p2p_complete_deals x)
    (pa_min_account_status x) (pa_timelimit_for_approve x) (pa_timelimit_for_reply x) (pa_geo x)
    (pa_currency x).
#[export] Instance eta_p2p_order_object : Eta p2p_order_object := λ x,
  P2pOrder (po_p2p_adv x) (po_order_type x) (po_amount x) (po_price x) (po_currency x)
    (po_p2p_gateway x) (po_p2p_client x) (po_status x) (po_time_for_approve x)
    (po_time_for_reply x) (po_payment_details x) (po_file_hash x) (po_arbitrage_initiator x).
#[export] Instance eta_credit_offer_object : Eta credit_offer_object := λ x,
  CreditOffer (co_creditor x) (co_min_income x) (co_credit_amount x) (co_repay_amount x).
#[export] Instance eta_pledge_offer_object : Eta pledge_offer_object := λ x,
  PledgeOffer (pl_creator x) (pl_debitor x) (pl_creditor x) (pl_pledge_amount x)
    (pl_credit_amount x) (pl_repay_amount x) (pl_pledge_days x) (pl_expiration x) (pl_status x).
#[export] Instance eta_approved_transfer_object : Eta approved_transfer_object := λ x,
  ApprovedTransfer (at_from x) (at_to x) (at_arbitr x) (at_amount x) (at_expiration x)
    (at_status x).
#[export] Instance eta_flipcoin_object : Eta flipcoin_object := λ x,
  Flipcoin (fl_bettor x) (fl_caller x) (fl_winner x) (fl_bet x) (fl_nonce x) (fl_expiration x)
    (fl_status x).
#[export] Instance eta_lottery_goods_object : Eta lottery_goods_object := λ x,
  LotteryGoods (lg_owner x) (lg_participants x) (lg_total_participants x) (lg_ticket_price x)
    (lg_expiration x) (lg_latency_sec x) (lg_status x) (lg_img_url x) (lg_description x)
    (lg_winner x) (lg_winner_contacts x).
#[export] Instance eta_matrix_object : Eta matrix_object := λ x,
  Matrix (mx_start_block_number x) (mx_finish_block_number x) (mx_status x) (mx_amount x)
    (mx_total_amount x) (mx_last_120k_amount x) (mx_level_price x) (mx_level_prize x)
    (mx_level_cells x).
#[export] Instance eta_matrix_rooms_object : Eta matrix_rooms_object := λ x,
  MatrixRoom (mr_matrix x) (mr_matrix_player x) (mr_matrix_level x) (mr_total_cells x)
    (mr_status x) (mr_cells x).
#[export] Instance eta_gr_team_object : Eta gr_team_object := λ x,
  GrTeam (gr_interval_2_volume x) (gr_interval_4_volume x) (gr_interval_6_volume x)
    (gr_interval_9_volume x) (gr_interval_11_volume x) (gr_interval_13_volume x)
    (gr_first_half_volume x) (gr_second_half_volume x) (gr_total_volume x) (gr_name x)
    (gr_description x) (gr_logo x) (gr_captain x) (gr_players x) (gr_last_gr_rank x).
#[export] Instance eta_gr_range_bet_object : Eta gr_range_bet_object := λ x,
  GrRangeBet (rb_team x) (rb_lower_rank x) (rb_upper_rank x) (rb_total_prize x)
    (rb_total_true_bets x) (rb_total_false_bets x) (rb_true_bets x) (rb_false_bets x).
#[export] Instance eta_gr_team_bet_object : Eta gr_team_bet_object := λ x,
  GrTeamBet (tb_team1 x) (tb_team2 x) (tb_total_prize x) (tb_total_team1_bets x)
    (tb_total_team2_bets x) (tb_team1_bets x) (tb_team2_bets x).
#[export] Instance eta_chain_parameters : Eta chain_parameters := λ x,
  ChainParameters (cp_cashback_vesting_period_seconds x) (cp_witness_pay_per_block x)
    (cp_witness_pay_vesting_seconds x) (cp_ref_percent_of_fee x) (cp_status_levels x)
    (cp_status_denominator x) (cp_denominator x) (cp_denominator_bonus_level x)
    (cp_nv_levels x) (cp_min_nv_status x) (cp_compression_levels x) (cp_compression x)
    (cp_cashback x) (cp_min_not_compressed x) (cp_compression_limit x)
    (cp_referral_statistic_seconds x) (cp_root_account x) (cp_nv_level_threshold x)
    (cp_nv_level_reward x) (cp_block_interval x) (cp_maintenance_skip_slots x) (cp_max_authority_depth x)
    (cp_maximum_time_until_expiration x) (cp_maximum_asset_whitelist_authorities x) (cp_maximum_asset_feed_publishers x)
    (cp_maintenance_interval x) (cp_worker_budget_per_day x) (cp_count_non_member_votes x)
    (cp_maximum_witness_count x) (cp_maximum_committee_count x).
#[export] Instance eta_staking_parameters : Eta staking_parameters := λ x,
  StakingParameters (sp_poc_gcwd x) (sp_poc_ref x) (sp_poc_status_levels x)
    (sp_poc_status_denominator x) (sp_poc3_min_amount x) (sp_poc6_min_amount x)
    (sp_poc12_min_amount x) (sp_poc_vote_duration x) (sp_poc_vote_interval_days x)
    (sp_poc_min_votes x) (sp_poc_filter_percent x).
#[export] Instance eta_gamezone_parameters : Eta gamezone_parameters := λ x,
  GamezoneParameters (gz_matrix_lasts_blocks x) (gz_matrix_idle_blocks x)
    (gz_matrix_level_cells x) (gz_matrix_level_price x) (gz_matrix_level_prize x)
    (gz_lottery_goods_total_participants x) (gz_lottery_goods_expiration x)
    (gz_flipcoin_min_bet_amount x).
#[export] Instance eta_greatrace_chain_parameters : Eta greatrace_chain_parameters := λ x,
  GreatraceParameters (gr_vote_duration x) (gr_min_team_status x) (gr_min_team_volume x)
    (gr_min_gr_bet x) (gr_min_vote_last_rank x) (gr_intervals x) (gr_apostolos_reward x).
#[export] Instance eta_global_property_object : Eta global_property_object := λ x,
  GlobalProperties (gpo_parameters x) (gpo_staking_parameters x) (gpo_gamezone_parameters x)
    (gpo_greatrace_parameters x) (gpo_next_available_vote_id x) (gpo_active_committee_members x)
    (gpo_active_witnesses x).
#[export] Instance eta_dynamic_global_property_object : Eta dynamic_global_property_object := λ x,
  DynamicGlobalProperties (dgp_head_block_number x) (dgp_head_block_id x) (dgp_time x)
    (dgp_witness_budget x) (dgp_gcwd_price x) (dgp_end_poc_vote_time x) (dgp_poc3_percent x)
    (dgp_poc6_percent x) (dgp_poc12_percent x) (dgp_current_gr_interval x)
    (dgp_last_irreversible_block_num x) (dgp_current_witness x) (dgp_recently_missed_count x)
    (dgp_current_aslot x) (dgp_recent_slots_filled x) (dgp_dynamic_flags x)
    (dgp_next_maintenance_time x) (dgp_next_monthly_maintenance_time x) (dgp_last_budget_time x)
    (dgp_next_poc_vote_time x) (dgp_poc_vote_is_active x) (dgp_next_gr_interval_time x)
    (dgp_gr_bet_interval_time x) (dgp_end_gr_vote_time x) (dgp_gr_vote_is_active x)
    (dgp_gr_volumes x) (dgp_gr_rewards x) (dgp_gr_top3_reward x).
#[export] Instance eta_database : Eta database := λ x,
  Database (d_accounts x) (d_statistics x) (d_balances x) (d_assets x) (d_dynamic_data x)
    (d_vesting x) (d_witnesses x) (d_p2p_advs x) (d_p2p_orders x) (d_credit_offers x)
    (d_pledge_offers x) (d_approved_transfers x) (d_flipcoins x) (d_lotteries x) (d_matrices x)
    (d_rooms x) (d_gr_teams x) (d_gr_invites x) (d_gr_votes x) (d_gr_range_bets x)
    (d_gr_team_bets x) (d_committee_members x) (d_workers x) (d_withdraw_permissions x)
    (d_budget_records x) (d_chain_properties x) (d_limit_orders x) (d_call_orders x) (d_settlements x)
    (d_collateral_bids x) (d_bitasset_data x) (d_gpo x) (d_dgpo x) (d_witness_schedule x)
    (d_applied x).
