(* ===== verification/Pricing.v ===== *)
(** * The prices of margin positions

    [protocol/asset.cpp] and [market_object.cpp]: the price at which a position is
    called, the limit of the squeeze, and how much debt a called position has to
    cover to get back to its target ratio.  Ratios are [boost::rational] fractions
    in lowest terms; the 128- and 256-bit integers of the source hold all of their
    products. *)
From S2P Require Import Prelude Safe Asset Objects.

Definition GRAPHENE_COLLATERAL_RATIO_DENOM : Z := 1000.

(** ** Fractions *)
Definition normalize (n d : Z) : Z * Z := let g := Z.gcd n d * Z.sgn d in (n `div` g, d `div` g).
Definition rational (n d : Z) : result (Z * Z) :=
  if d =? 0 then Err divide_by_zero_exception else Ok (normalize n d).
Definition rational_mul (x y : Z * Z) : Z * Z := normalize (x.1 * y.1) (x.2 * y.2).

(** Halving both terms until they fit. *)
Fixpoint shrink (half : Z → Z) (fuel : nat) (cp : Z * Z) : result (Z * Z) :=
  if (GRAPHENE_MAX_SHARE_SUPPLY <? cp.1) || (GRAPHENE_MAX_SHARE_SUPPLY <? cp.2) then
    match fuel with
    | O => Err out_of_fuel
    | S fuel => cp ← rational (half cp.1) (half cp.2); shrink half fuel cp
    end
  else Ok cp.
Definition shrink_fuel : nat := 128.

(** ** The call price and the squeeze price *)
Definition call_price (debt collateral : asset) (collateral_ratio : Z) : result price :=
  swan ← rational debt.(amount) collateral.(amount);
  ratio ← rational collateral_ratio GRAPHENE_COLLATERAL_RATIO_DENOM;
  cp ← shrink (λ n, Z.shiftr n 1 + 1) shrink_fuel (rational_mul swan ratio);
  make_price (Asset cp.2 collateral.(asset_id)) (Asset cp.1 debt.(asset_id)).

Definition max_short_squeeze_price (f : price_feed) : result price :=
  let p := f.(pf_settlement_price) in
  sp ← rational p.(base).(amount) p.(quote).(amount);
  ratio ← rational GRAPHENE_COLLATERAL_RATIO_DENOM f.(pf_maximum_short_squeeze_ratio);
  cp ← shrink (λ n, Z.shiftr n 1 + Z.land n 1) shrink_fuel (rational_mul sp ratio);
  make_price (Asset cp.1 p.(base).(asset_id)) (Asset cp.2 p.(quote).(asset_id)).

Definition price_gtb (a b : price) : bool := price_ltb b a.
Definition price_leb (a b : price) : bool := negb (price_ltb b a).

(** ** get_max_debt_to_cover

    In the section both prices are collateral over debt, as the code makes them;
    an amount of collateral is written [pay], one of debt [cover]. *)
Section cover.
Context (c : call_order_object) (mp fp : price) (tcr : Z).

Definition cover_by (pay : Z) : result Z := amount <$> asset_mul (Asset pay (collateral_type c)) mp.
Definition pay_for (cover : Z) : result Z := amount <$> multiply_and_round_up (Asset cover (debt_type c)) mp.

(** The position that is left is not called any more. *)
Definition enough (pay cover : Z) : result bool :=
  new_debt ← asset_sub (get_debt c) (Asset cover (debt_type c));
  new_collateral ← asset_sub (get_collateral c) (Asset pay (collateral_type c));
  new_call_price ← call_price new_debt new_collateral tcr;
  Ok (price_gtb new_call_price fp).

Record bounds : Type := Bounds {
  min_to_pay : Z; min_to_cover : Z; max_to_pay : Z; max_to_cover : Z; max_is_ok : bool }.

(** The mean of the bounds, stabilised. *)
Definition mean (s : bounds) : result (Z * Z) :=
  if mp.(base).(amount) <? mp.(quote).(amount) then
    sum ← safe_add s.(min_to_pay) s.(max_to_pay);
    sum ← safe_add sum 1;
    let to_pay := sum `quot` 2 in
    if to_pay =? s.(max_to_pay) then Ok (to_pay, s.(max_to_cover))
    else
      to_cover ← cover_by to_pay;
      if s.(max_to_cover) <=? to_cover then Ok (s.(max_to_pay), s.(max_to_cover))
      else
        to_pay ← pay_for to_cover;
        _ ← FC_ASSERT (to_pay <? s.(max_to_pay));
        Ok (to_pay, to_cover)
  else
    sum ← safe_add s.(min_to_cover) s.(max_to_cover);
    let to_cover := sum `quot` 2 in
    if to_cover =? s.(max_to_cover) then Ok (s.(max_to_pay), to_cover)
    else
      to_pay ← pay_for to_cover;
      if s.(max_to_pay) <=? to_pay then Ok (s.(max_to_pay), s.(max_to_cover))
      else
        to_cover ← cover_by to_pay;
        if s.(max_to_cover) <=? to_cover then Ok (s.(max_to_pay), s.(max_to_cover))
        else Ok (to_pay, to_cover).

(** Past a bound, the maximum is used. *)
Definition clamp (s : bounds) (m : Z * Z) : Z * Z :=
  if (m.1 <=? s.(min_to_pay)) || (m.2 <=? s.(min_to_cover)) || (s.(max_to_pay) <? m.1) || (s.(max_to_cover) <? m.2)
  then (s.(max_to_pay), s.(max_to_cover)) else m.

Definition in_position (pay cover : Z) : result unit :=
  FC_ASSERT ((pay <? c.(cl_collateral)) && (cover <? c.(cl_debt))).

(** The binary search: the amount to cover, or where the search forward starts. *)
Fixpoint search (fuel : nat) (s : bounds) : result (Z + Z * Z) :=
  m ← mean s;
  let '(to_pay, to_cover) := clamp s m in
  if (to_pay =? s.(max_to_pay)) && (s.(max_is_ok) || (to_pay =? c.(cl_collateral))) then Ok (inl to_cover)
  else
    _ ← in_position to_pay to_cover;
    good ← enough to_pay to_cover;
    if to_pay =? s.(max_to_pay) then Ok (if good : bool then inl to_cover else inr (to_pay, to_cover))
    else
      match fuel with
      | O => Err out_of_fuel
      | S fuel =>
          search fuel (if good : bool then Bounds s.(min_to_pay) s.(min_to_cover) to_pay to_cover true
                       else Bounds to_pay to_cover s.(max_to_pay) s.(max_to_cover) s.(max_is_ok))
      end.

(** The search forward, in steps of growing size. *)
Fixpoint forward (fuel : nat) (d2 d3 to_pay to_cover : Z) : result Z :=
  let next (to_pay to_cover : Z) : result Z :=
    _ ← in_position to_pay to_cover;
    good ← enough to_pay to_cover;
    if good : bool then Ok to_cover
    else match fuel with O => Err out_of_fuel | S fuel => forward fuel d3 (u64 (d2 + d3)) to_pay to_cover end in
  if mp.(quote).(amount) <? mp.(base).(amount) then
    to_pay ← safe_add to_pay (to_int64 d2);
    if c.(cl_collateral) <=? to_pay then Ok c.(cl_debt)
    else
      to_cover ← cover_by to_pay;
      if c.(cl_debt) <=? to_cover then Ok c.(cl_debt)
      else
        to_pay ← pay_for to_cover;
        if c.(cl_collateral) <=? to_pay then Ok c.(cl_debt) else next to_pay to_cover
  else
    to_cover ← safe_add to_cover (to_int64 d2);
    if c.(cl_debt) <=? to_cover then Ok c.(cl_debt)
    else
      to_pay ← pay_for to_cover;
      if c.(cl_collateral) <=? to_pay then Ok c.(cl_debt)
      else
        to_cover ← cover_by to_pay;
        if c.(cl_debt) <=? to_cover then Ok c.(cl_debt) else next to_pay to_cover.

Definition search_fuel : nat := 64.
Definition forward_fuel : nat := 100.

(** The upper bound, when the first guess [to_pay], [to_cover] is too small. *)
Definition upper_bound (to_cover_amt : Z) : result (Z * Z) :=
  max_to_pay ← (if to_cover_amt =? c.(cl_debt) then Ok c.(cl_collateral) else pay_for to_cover_amt);
  let max_to_pay := if c.(cl_collateral) <? max_to_pay then c.(cl_collateral) else max_to_pay in
  max_to_cover ← (if max_to_pay =? c.(cl_collateral) then Ok c.(cl_debt) else cover_by max_to_pay);
  Ok (if c.(cl_debt) <=? max_to_cover then (c.(cl_collateral), c.(cl_debt)) else (max_to_pay, max_to_cover)).

Definition cover_target : result Z :=
  let mp_debt := mp.(quote).(amount) in let mp_coll := mp.(base).(amount) in
  let fp_debt := fp.(quote).(amount) in let fp_coll := fp.(base).(amount) in
  let numerator := fp_coll * mp_debt * c.(cl_debt) * tcr
                   - fp_debt * mp_debt * c.(cl_collateral) * GRAPHENE_COLLATERAL_RATIO_DENOM in
  let denominator := fp_coll * mp_debt * tcr - fp_debt * mp_coll * GRAPHENE_COLLATERAL_RATIO_DENOM in
  if numerator <? 0 then Ok 0
  else if denominator <=? 0 then Ok c.(cl_debt)
  else if c.(cl_debt) <=? numerator `div` denominator then Ok c.(cl_debt)
  else
    to_pay ← asset_mul (Asset (numerator `div` denominator) (debt_type c)) mp;
    to_cover ← cover_by to_pay.(amount);
    to_pay ← pay_for to_cover;
    if (c.(cl_debt) <=? to_cover) || (c.(cl_collateral) <=? to_pay) then Ok c.(cl_debt)
    else
      good ← enough to_pay to_cover;
      if good : bool then Ok to_cover
      else
        let to_cover_amt := Z.min ((numerator + fp_coll * mp_debt * tcr) `div` denominator + 1) c.(cl_debt) in
        '(max_to_pay, max_to_cover) ← upper_bound to_cover_amt;
        if (max_to_pay <=? to_pay) || (max_to_cover <=? to_cover) then Ok c.(cl_debt)
        else
          r ← search search_fuel (Bounds to_pay to_cover max_to_pay max_to_cover false);
          match r with
          | inl covered => Ok covered
          | inr (to_pay, to_cover) => forward forward_fuel 1 1 to_pay to_cover
          end.
End cover.

(** Both prices turned to collateral over debt. *)
Definition in_format (c : call_order_object) (p : price) : result price :=
  let p := if negb (p.(base).(asset_id) =? collateral_type c) then price_inv p else p in
  _ ← FC_ASSERT ((p.(base).(asset_id) =? collateral_type c) && (p.(quote).(asset_id) =? debt_type c));
  Ok p.

Definition get_max_debt_to_cover (c : call_order_object) (match_price feed_price : price)
    (maintenance_collateral_ratio : Z) : result Z :=
  feed_price ← in_format c feed_price;
  if price_gtb c.(cl_call_price) feed_price then Ok 0
  else
    match c.(cl_target_collateral_ratio) with
    | None => Ok c.(cl_debt)
    | Some target =>
        match_price ← in_format c match_price;
        cover_target c match_price feed_price (Z.max target maintenance_collateral_ratio)
    end.

#[global] Arguments call_price : simpl never.
#[global] Arguments normalize : simpl never.
#[global] Arguments get_max_debt_to_cover : simpl never.

(** ** Fractions stay small *)
Lemma normalize_bounds n d m : 0 ≤ n ≤ m → 0 < d ≤ m → 0 ≤ (normalize n d).1 ≤ m ∧ 0 < (normalize n d).2 ≤ m.
Proof.
  intros Hn Hd. unfold normalize. cbn. rewrite Z.sgn_pos, Z.mul_1_r by lia.
  assert (0 < Z.gcd n d) as Hg by (pose proof (Z.gcd_nonneg n d); destruct (Z.eq_dec (Z.gcd n d) 0) as [E|]; [apply Z.gcd_eq_0_r in E|]; lia).
  destruct (Z.gcd_divide_r n d) as [k Hk]. split.
  - split; [apply Z.div_pos; lia|]. etransitivity; [apply Z.div_le_upper_bound with (q := n); nia|lia].
  - rewrite Hk at 1 3. rewrite Z.div_mul by lia. nia.
Qed.

Lemma shrink_ends half k fuel cp :
  (∀ n, 0 ≤ n → n `div` 2 ≤ half n ≤ n `div` 2 + 1) → (∀ n, 0 < n → 0 < half n) → (k ≤ fuel)%nat →
  0 ≤ cp.1 ≤ 2 ^ (Z.of_nat k + 48) + 2 → 0 < cp.2 ≤ 2 ^ (Z.of_nat k + 48) + 2 →
  ∃ r, shrink half fuel cp = Ok r ∧ 0 ≤ r.1 ≤ GRAPHENE_MAX_SHARE_SUPPLY ∧ 0 < r.2 ≤ GRAPHENE_MAX_SHARE_SUPPLY.
Proof.
  intros Hhalf Hpos. revert k cp. induction fuel as [|fuel IH]; intros k cp Hk H1 H2; cbn;
    destruct (orb _ _) eqn:E; propify.
  - assert (k = 0)%nat as -> by lia. change (2 ^ (Z.of_nat 0 + 48)) with (2 ^ 48) in *. unfold GRAPHENE_MAX_SHARE_SUPPLY in E. lia.
  - exists cp. split; [done|]. lia.
  - destruct k as [|k].
    { change (2 ^ (Z.of_nat 0 + 48)) with (2 ^ 48) in *. unfold GRAPHENE_MAX_SHARE_SUPPLY in E. lia. }
    pose proof (Hhalf cp.1 ltac:(lia)) as B1. pose proof (Hhalf cp.2 ltac:(lia)) as B2. pose proof (Hpos cp.2 ltac:(lia)) as P2.
    unfold rational. destruct (Z.eqb_spec (half cp.2) 0); [lia|]. cbn.
    replace (Z.of_nat (S k) + 48) with (Z.of_nat k + 48 + 1) in H1, H2 by lia. rewrite Z.pow_add_r, Z.pow_1_r in H1, H2 by lia.
    set (M := 2 ^ (Z.of_nat k + 48)) in *.
    assert (cp.1 `div` 2 ≤ M + 1) by (apply Z.div_le_upper_bound; lia).
    assert (cp.2 `div` 2 ≤ M + 1) by (apply Z.div_le_upper_bound; lia).
    assert (0 ≤ cp.1 `div` 2) by (apply Z.div_pos; lia).
    pose proof (normalize_bounds (half cp.1) (half cp.2) (M + 2) ltac:(lia) ltac:(lia)) as [N1 N2].
    apply (IH k); [lia|exact N1|exact N2].
  - exists cp. split; [done|]. lia.
Qed.

(** The call price of a position exists and is a price within the share supply. *)
Lemma call_price_total debt collateral tcr :
  0 ≤ debt.(amount) ≤ int64_max → 0 < collateral.(amount) ≤ int64_max → 0 ≤ tcr < 65536 →
  debt.(asset_id) ≠ collateral.(asset_id) →
  ∃ p, call_price debt collateral tcr = Ok p ∧ p.(base).(asset_id) = collateral.(asset_id) ∧
    p.(quote).(asset_id) = debt.(asset_id) ∧ 0 < p.(base).(amount) ≤ GRAPHENE_MAX_SHARE_SUPPLY ∧
    0 ≤ p.(quote).(amount) ≤ GRAPHENE_MAX_SHARE_SUPPLY.
Proof.
  intros Hd Hc Ht Hne. unfold call_price, rational. destruct (Z.eqb_spec collateral.(amount) 0); [lia|].
  change (GRAPHENE_COLLATERAL_RATIO_DENOM =? 0) with false. cbn [result_bind mbind].
  pose proof (normalize_bounds debt.(amount) collateral.(amount) int64_max Hd Hc) as [A1 A2].
  pose proof (normalize_bounds tcr GRAPHENE_COLLATERAL_RATIO_DENOM 65536 ltac:(lia)
                ltac:(unfold GRAPHENE_COLLATERAL_RATIO_DENOM; lia)) as [B1 B2].
  set (x := normalize debt.(amount) _) in *. set (y := normalize tcr _) in *.
  destruct (shrink_ends (λ n, Z.shiftr n 1 + 1) 80 shrink_fuel (rational_mul x y)) as (r & -> & R1 & R2).
  - intros k Hk. rewrite Z.shiftr_div_pow2 by lia. change (2 ^ 1) with 2. lia.
  - intros k Hk. rewrite Z.shiftr_div_pow2 by lia. change (2 ^ 1) with 2. pose proof (Z.div_pos k 2). lia.
  - unfold shrink_fuel. lia.
  - apply (normalize_bounds (x.1 * y.1) (x.2 * y.2)); change (2 ^ (Z.of_nat 80 + 48)) with (2 ^ 128); unfold int64_max in *; nia.
  - apply (normalize_bounds (x.1 * y.1) (x.2 * y.2)); change (2 ^ (Z.of_nat 80 + 48)) with (2 ^ 128); unfold int64_max in *; nia.
  - unfold make_price. cbn. destruct (Z.eqb_spec collateral.(asset_id) debt.(asset_id)); [congruence|]. cbn.
    eexists. split; [done|]. cbn. split_and!; try done; lia.
Qed.

(** Halving keeps both terms positive. *)
Lemma shrink_pos half fuel cp r :
  (∀ n, 0 < n → 0 < half n) → 0 < cp.1 → 0 < cp.2 → shrink half fuel cp = Ok r →
  0 < r.1 ≤ GRAPHENE_MAX_SHARE_SUPPLY ∧ 0 < r.2 ≤ GRAPHENE_MAX_SHARE_SUPPLY.
Proof.
  intros Hpos. revert cp. induction fuel as [|fuel IH]; intros cp H1 H2 H; cbn in H; destruct (orb _ _) eqn:E.
  - done.
  - injection H as <-. propify. lia.
  - apply bind_Ok in H as (x & Hx & H). unfold rational in Hx. destruct (_ =? 0); [done|]. injection Hx as <-.
    pose proof (Hpos _ H1) as P1. pose proof (Hpos _ H2) as P2. apply IH in H; [done| |]; unfold normalize; cbn;
      rewrite Z.sgn_pos, Z.mul_1_r by lia.
    + apply Z.div_str_pos. split; [|apply Z.divide_pos_le; [lia|apply Z.gcd_divide_l]].
      pose proof (Z.gcd_nonneg (half cp.1) (half cp.2)). destruct (Z.eq_dec (Z.gcd (half cp.1) (half cp.2)) 0) as [E0|]; [apply Z.gcd_eq_0_l in E0|]; lia.
    + apply Z.div_str_pos. split; [|apply Z.divide_pos_le; [lia|apply Z.gcd_divide_r]].
      pose proof (Z.gcd_nonneg (half cp.1) (half cp.2)). destruct (Z.eq_dec (Z.gcd (half cp.1) (half cp.2)) 0) as [E0|]; [apply Z.gcd_eq_0_l in E0|]; lia.
  - injection H as <-. propify. lia.
Qed.
Lemma normalize_pos n d : 0 < n → 0 < d → 0 < (normalize n d).1 ∧ 0 < (normalize n d).2.
Proof.
  intros Hn Hd. unfold normalize. cbn. rewrite Z.sgn_pos, Z.mul_1_r by lia.
  pose proof (Z.gcd_nonneg n d). assert (Z.gcd n d ≠ 0) by (intros E0; apply Z.gcd_eq_0_l in E0; lia).
  split; apply Z.div_str_pos; (split; [lia|apply Z.divide_pos_le; [lia|]]); [apply Z.gcd_divide_l|apply Z.gcd_divide_r].
Qed.
(** The limit of the squeeze is a price of the same market. *)
Lemma squeeze_price_ok f p :
  wf_price f.(pf_settlement_price) → 0 < f.(pf_maximum_short_squeeze_ratio) → max_short_squeeze_price f = Ok p →
  wf_price p ∧ p.(base).(asset_id) = f.(pf_settlement_price).(base).(asset_id) ∧
  p.(quote).(asset_id) = f.(pf_settlement_price).(quote).(asset_id) ∧ p.(base).(asset_id) ≠ p.(quote).(asset_id).
Proof.
  intros [[B1 B2] [Q1 Q2]] Hr H. unfold max_short_squeeze_price, rational in H.
  destruct (Z.eqb_spec f.(pf_settlement_price).(quote).(amount) 0); [done|].
  destruct (Z.eqb_spec f.(pf_maximum_short_squeeze_ratio) 0); [done|]. cbn [mbind result_bind] in H.
  apply bind_Ok in H as (cp & Hcp & H). unfold make_price in H. cbn in H. apply bind_Ok in H as (u & Hu & [= <-]).
  apply FC_ASSERT_Ok in Hu. propify. cbn.
  destruct (normalize_pos _ _ B1 Q1) as [N1 N2]. destruct (normalize_pos GRAPHENE_COLLATERAL_RATIO_DENOM _ ltac:(unfold GRAPHENE_COLLATERAL_RATIO_DENOM; lia) Hr) as [N3 N4].
  apply shrink_pos in Hcp as [S1 S2].
  - unfold wf_price. cbn. unfold GRAPHENE_MAX_SHARE_SUPPLY, int64_max in *. split; [lia|done].
  - intros k Hk. rewrite Z.shiftr_div_pow2 by lia. change (2 ^ 1) with 2. change 1 with (Z.ones 1) at 1. rewrite Z.land_ones by lia.
    change (2 ^ 1) with 2. pose proof (Z.div_mod k 2 ltac:(lia)). pose proof (Z.mod_pos_bound k 2 ltac:(lia)). lia.
  - apply normalize_pos; nia.
  - apply normalize_pos; nia.
Qed.

(** ** Covering and paying are adjoint

    Rounded down one way and up the other, the two conversions at a price
    [collateral / debt] form a Galois connection. *)
Definition position_ok (c : call_order_object) : Prop :=
  0 < c.(cl_debt) ≤ GRAPHENE_MAX_SHARE_SUPPLY ∧ 0 < c.(cl_collateral) ≤ GRAPHENE_MAX_SHARE_SUPPLY ∧
  debt_type c ≠ collateral_type c.
#[export] Instance position_ok_dec c : Decision (position_ok c).
Proof. unfold position_ok. apply _. Defined.
Definition price_of (c : call_order_object) (p : price) : Prop :=
  wf_price p ∧ p.(base).(asset_id) = collateral_type c ∧ p.(quote).(asset_id) = debt_type c.

Section cover_laws.
Context (c : call_order_object) (mp fp : price) (tcr : Z).
Context (Hc : position_ok c) (Hmp : price_of c mp).
#[local] Notation b := (mp.(base).(amount)).
#[local] Notation q := (mp.(quote).(amount)).
#[local] Notation pay_of := (pay_for c mp).
#[local] Notation cover_of := (cover_by c mp).

Lemma cover_by_Ok pay r : 0 ≤ pay ≤ int64_max → cover_of pay = Ok r →
  0 ≤ r ≤ GRAPHENE_MAX_SHARE_SUPPLY ∧ b * r ≤ pay * q < b * (r + 1).
Proof using Hmp.
  destruct Hmp as ((Hb & Hq) & Eb & Eq). intros Hp H. unfold cover_by, asset_mul, asset_mul_with in H. cbn in H.
  rewrite Eb, Z.eqb_refl in H. inv_ok. cbn in *.
  match goal with H : scale_down _ _ _ = Ok _ |- _ => apply scale_down_Ok in H as (_ & ? & ?); [done|lia|lia] end.
Qed.
Lemma pay_for_Ok x r : 0 ≤ x ≤ int64_max → pay_of x = Ok r →
  0 ≤ r ≤ GRAPHENE_MAX_SHARE_SUPPLY ∧ q * (r - 1) < x * b ≤ q * r.
Proof using Hmp Hc.
  destruct Hmp as ((Hb & Hq) & Eb & Eq). destruct Hc as (_ & _ & Hne). intros Hp H.
  unfold pay_for, multiply_and_round_up, asset_mul_with in H. cbn in H.
  rewrite Eb, Eq, Z.eqb_refl in H. destruct (Z.eqb_spec (debt_type c) (collateral_type c)); [done|]. inv_ok. cbn in *.
  match goal with H : scale_up _ _ _ = Ok _ |- _ => apply scale_up_Ok in H as (_ & ? & ?); [done|lia|lia|lia] end.
Qed.
Lemma pay_for_eq x r : 0 ≤ x ≤ int64_max → r ≤ GRAPHENE_MAX_SHARE_SUPPLY → q * (r - 1) < x * b ≤ q * r → pay_of x = Ok r.
Proof using Hmp Hc.
  destruct Hmp as ((Hb & Hq) & Eb & Eq). destruct Hc as (_ & _ & Hne). intros Hp Hr H.
  unfold pay_for, multiply_and_round_up, asset_mul_with. cbn.
  rewrite Eb, Eq, Z.eqb_refl. destruct (Z.eqb_spec (debt_type c) (collateral_type c)); [done|].
  unfold scale_up. rewrite mul128_small by lia. rewrite Z.mod_small by (unfold uint128_mod, int64_max in *; nia).
  assert ((x * b + q - 1) `div` q = r) as -> by (symmetry; apply Z.div_unique with (r := x * b + q - 1 - q * r); lia).
  assert (0 <? q = true) as -> by (apply Z.ltb_lt; lia). assert (r <=? GRAPHENE_MAX_SHARE_SUPPLY = true) as -> by (apply Z.leb_le; lia).
  done.
Qed.

Lemma max_supply_int64 : GRAPHENE_MAX_SHARE_SUPPLY ≤ int64_max.
Proof. unfold GRAPHENE_MAX_SHARE_SUPPLY, int64_max. lia. Qed.

(** What was paid for an amount buys at least it, and is the price of what it buys. *)
Lemma pay_cover_pay x p x' : 0 ≤ x ≤ int64_max → pay_of x = Ok p → cover_of p = Ok x' → x ≤ x' ∧ pay_of x' = Ok p.
Proof using Hmp Hc.
  intros Hx Hp Hx'. pose proof max_supply_int64. destruct Hmp as ((Hb & Hq) & _).
  apply pay_for_Ok in Hp as [Hp1 Hp2]; [|done]. apply cover_by_Ok in Hx' as [Hx1 Hx2]; [|lia].
  assert (x ≤ x') by nia. split; [done|]. apply pay_for_eq; [lia|lia|nia].
Qed.
(** The coarser side of the price determines the finer one. *)
Lemma cover_pay_stable y x y' : b ≤ q → 0 ≤ y ≤ int64_max → cover_of y = Ok x → pay_of x = Ok y' → y' = y.
Proof using Hmp Hc.
  intros Hbq Hy Hx Hy'. pose proof max_supply_int64. destruct Hmp as ((Hb & Hq) & _).
  apply cover_by_Ok in Hx as [Hx1 Hx2]; [|done]. apply pay_for_Ok in Hy' as [Hy1 Hy2]; [|lia]. nia.
Qed.
Lemma pay_cover_stable x y x' : q ≤ b → 0 ≤ x ≤ int64_max → pay_of x = Ok y → cover_of y = Ok x' → x' = x.
Proof using Hmp Hc.
  intros Hbq Hy Hx Hy'. pose proof max_supply_int64. destruct Hmp as ((Hb & Hq) & _).
  apply pay_for_Ok in Hx as [Hx1 Hx2]; [|done]. apply cover_by_Ok in Hy' as [Hy1 Hy2]; [|lia]. nia.
Qed.

(** ** The search *)

(** A point is the whole position, or an amount with its price. *)
Definition whole (m : Z * Z) : Prop := m = (c.(cl_collateral), c.(cl_debt)).
Definition priced (m : Z * Z) : Prop := m.1 < c.(cl_collateral) ∧ m.2 < c.(cl_debt) ∧ pay_of m.2 = Ok m.1.
Definition covers (r : Z) : Prop :=
  r = c.(cl_debt) ∨ ∃ pay, priced (pay, r) ∧ enough c fp tcr pay r = Ok true.

Record bounds_ok (s : bounds) : Prop := {
  bk_pay : 0 ≤ s.(min_to_pay) < s.(max_to_pay);
  bk_cover : 0 ≤ s.(min_to_cover) < s.(max_to_cover);
  bk_max : whole (s.(max_to_pay), s.(max_to_cover)) ∨ priced (s.(max_to_pay), s.(max_to_cover));
  bk_good : s.(max_is_ok) = true → covers s.(max_to_cover) }.
(** The side that is halved. *)
Definition width (s : bounds) : Z :=
  if b <? q then s.(max_to_pay) - s.(min_to_pay) else s.(max_to_cover) - s.(min_to_cover).

Lemma bounds_small s : bounds_ok s → s.(max_to_pay) ≤ c.(cl_collateral) ∧ s.(max_to_cover) ≤ c.(cl_debt).
Proof. intros [_ _ [H|(H1 & H2 & _)] _]; [by injection H as -> ->|cbn in *; lia]. Qed.

Lemma clamp_max s : bounds_ok s → clamp s (s.(max_to_pay), s.(max_to_cover)) = (s.(max_to_pay), s.(max_to_cover)).
Proof. unfold clamp. by destruct (orb _ _). Qed.
Lemma clamp_inside s m :
  clamp s m = (s.(max_to_pay), s.(max_to_cover)) ∨ clamp s m = m ∧ s.(min_to_pay) < m.1 ∧ s.(min_to_cover) < m.2.
Proof. unfold clamp. destruct (orb _ _) eqn:E; propify; [by left|right]. split; [done|lia]. Qed.

Lemma halve x y : 0 ≤ x < y → x ≤ (x + y) `quot` 2 ≤ y ∧ 2 * ((x + y) `quot` 2) ≤ x + y < 2 * ((x + y) `quot` 2) + 2.
Proof.
  intros H. rewrite Z.quot_div_nonneg by lia. pose proof (Z.div_mod (x + y) 2 ltac:(lia)).
  pose proof (Z.mod_pos_bound (x + y) 2 ltac:(lia)). lia.
Qed.

(** The mean is the maximum, or a priced point below it that halves the interval. *)
Lemma mean_Ok s m :
  bounds_ok s → mean c mp s = Ok m →
  m = (s.(max_to_pay), s.(max_to_cover)) ∨
  (m.1 < s.(max_to_pay) ∧ m.2 < s.(max_to_cover) ∧ pay_of m.2 = Ok m.1 ∧
   2 * (if b <? q then m.1 - s.(min_to_pay) else m.2 - s.(min_to_cover)) ≤ width s + 1 ∧
   2 * (if b <? q then s.(max_to_pay) - m.1 else s.(max_to_cover) - m.2) ≤ width s + 1).
Proof using Hmp Hc.
  intros Hs H. pose proof (bounds_small s Hs) as [Hp Hcv]. destruct Hs as [B1 B2 _ _]. pose proof max_supply_int64.
  destruct Hc as ((D1 & D2) & (C1 & C2) & _). unfold mean in H. unfold width.
  destruct (Z.ltb_spec b q) as [Hbq|Hbq]; inv_ok; inv_safe; propify; cbn [fst snd].
  - left. by f_equal.
  - by left.
  - right.
    pose proof (halve s.(min_to_pay) (s.(max_to_pay) + 1) ltac:(lia)) as Hh. rewrite Z.add_assoc in Hh.
    set (y := (_ + 1) `quot` 2) in *.
    match goal with A : cover_of y = Ok ?x, P : pay_of ?x = Ok ?y' |- _ =>
      pose proof (cover_pay_stable y x y' ltac:(lia) ltac:(lia) A P); subst y'; rename P into Hpay end.
    split_and!; [lia|lia|done|lia|lia].
  - left. by f_equal.
  - by left.
  - by left.
  - right.
    pose proof (halve s.(min_to_cover) s.(max_to_cover) ltac:(lia)) as Hh. set (x := (_ + _) `quot` 2) in *.
    match goal with P : pay_of x = Ok ?y, A : cover_of ?y = Ok ?x' |- _ =>
      pose proof (pay_cover_stable x y x' ltac:(lia) ltac:(lia) P A); subst x'; rename P into Hpay end.
    split_and!; [lia|lia|done|lia|lia].
Qed.

Lemma enough_ends pay x : priced (pay, x) → 0 ≤ pay → 0 ≤ x → 0 ≤ tcr < 65536 → terminates (enough c fp tcr pay x).
Proof using Hc.
  intros (H1 & H2 & _) Hp Hx Ht. cbn in *. pose proof max_supply_int64. destruct Hc as ((D1 & D2) & (C1 & C2) & Hne). unfold enough.
  apply terminates_bind; [auto with terminates|]. intros nd Hnd. apply terminates_bind; [auto with terminates|]. intros nc Hnc.
  unfold asset_sub in Hnd, Hnc. inv_ok. inv_safe. cbn in *.
  destruct (call_price_total (Asset (c.(cl_debt) - x) (debt_type c)) (Asset (c.(cl_collateral) - pay) (collateral_type c)) tcr)
    as (p & -> & _); cbn; [lia|lia|done|done|discriminate].
Qed.
Lemma mean_ends s : terminates (mean c mp s).
Proof. unfold mean, pay_for, cover_by. solve_terminates. Qed.

Lemma in_position_Ok m u : whole m ∨ priced m → in_position c m.1 m.2 = Ok u → priced m.
Proof using Hc.
  intros [->|H] Hi; [|done]. unfold in_position in Hi. apply FC_ASSERT_Ok in Hi. propify. cbn in Hi. lia.
Qed.

(** A round of the search ends it, or goes on within half of the interval. *)
Lemma search_round s m :
  bounds_ok s → mean c mp s = Ok m →
  let p := clamp s m in
  (p = (s.(max_to_pay), s.(max_to_cover)) ∨
   (s.(min_to_pay) < p.1 < s.(max_to_pay) ∧ s.(min_to_cover) < p.2 < s.(max_to_cover) ∧ priced p ∧ 1 < width s ∧
    ∀ good, (good = true → covers p.2) →
      let s' := if good : bool then Bounds s.(min_to_pay) s.(min_to_cover) p.1 p.2 true
                else Bounds p.1 p.2 s.(max_to_pay) s.(max_to_cover) s.(max_is_ok) in
      bounds_ok s' ∧ 2 * width s' ≤ width s + 1)).
Proof using Hmp Hc.
  intros Hs Hm p. subst p. pose proof (bounds_small s Hs) as [Hp Hcv]. destruct (clamp_inside s m) as [->|(-> & L1 & L2)]; [by left|].
  destruct (mean_Ok s m Hs Hm) as [->|(U1 & U2 & Hpr & W1 & W2)]; [by left|]. right.
  assert (priced m) as Hpm by (split; [lia|split; [lia|done]]).
  split; [lia|]. split; [lia|]. split; [done|]. split; [unfold width in *; destruct (b <? q); lia|].
  intros good Hg. pose proof Hs as [B1 B2 B3 B4]. destruct good; (split; [split; cbn; [lia|lia| |]|unfold width in *; cbn; destruct (b <? q); lia]).
  - right. by destruct m.
  - intros _. by apply Hg.
  - done.
  - done.
Qed.

Definition search_post (fuel : nat) (s : bounds) (r : result (Z + Z * Z)) : Prop :=
  match r with
  | Ok (inl r) => 0 < r ≤ c.(cl_debt) ∧ covers r
  | Ok (inr m) => priced m ∧ 0 ≤ m.1 ∧ 0 ≤ m.2
  | Err e => width s ≤ 2 ^ Z.of_nat fuel → e ≠ out_of_fuel
  end.
Lemma post_bind {A} (m : result A) k fuel s :
  terminates m → (∀ a, m = Ok a → search_post fuel s (k a)) → search_post fuel s (m ≫= k).
Proof. intros Ht H. destruct m as [a|e]; cbn; [by apply H|]. intros _ ->. by apply Ht. Qed.

Lemma search_spec fuel s :
  bounds_ok s → 0 ≤ tcr < 65536 → search_post fuel s (search c mp fp tcr fuel s).
Proof using Hmp Hc.
  intros Hs Ht. revert s Hs. induction fuel as [|fuel IH]; intros s Hs; cbn [search];
    (apply post_bind; [apply mean_ends|]; intros m Hm; pose proof (search_round s m Hs Hm) as Hround; cbv zeta in Hround;
     pose proof (bounds_small s Hs) as [Hsp Hsc]; pose proof Hs as [B1 B2 B3 B4];
     destruct (clamp s m) as [p x]; cbn [fst snd] in *;
     destruct (andb _ _) eqn:Edone; [|apply post_bind; [apply terminates_assert|]; intros u Hu;
       assert (priced (p, x)) as Hpx by (apply (in_position_Ok (p, x) u); [|done]; destruct Hround as [[= -> ->]|(_ & _ & ? & _)]; [done|by right]);
       assert (0 ≤ p ∧ 0 ≤ x) as [Hp0 Hx0] by (destruct Hround as [[= -> ->]|(? & ? & _)]; lia);
       apply post_bind; [by apply enough_ends|]; intros good Hgood;
       assert (good = true → covers x) as Hcov by (intros ->; right; by exists p);
       destruct (Z.eqb_spec p s.(max_to_pay)) as [E|E]; [destruct good; cbn|]]).
  - destruct Hround as [[= -> ->]|(L1 & L2 & _)]; [|propify; lia]. split; [lia|].
    propify. destruct Edone as [_ [Hok|Hall]]; [by apply B4|]. left. destruct B3 as [[= _ ->]|(Hlt & _)]; [done|cbn in Hlt; lia].
  - destruct Hround as [[= -> ->]|(L1 & L2 & _)]; [|lia]. split; [lia|by apply Hcov].
  - done.
  - destruct Hround as [[= -> ->]|(L1 & L2 & _ & Hw & _)]; [done|]. cbn. lia.
  - destruct Hround as [[= -> ->]|(L1 & L2 & _)]; [|propify; lia]. split; [lia|].
    propify. destruct Edone as [_ [Hok|Hall]]; [by apply B4|]. left. destruct B3 as [[= _ ->]|(Hlt & _)]; [done|cbn in Hlt; lia].
  - destruct Hround as [[= -> ->]|(L1 & L2 & _)]; [|lia]. split; [lia|by apply Hcov].
  - done.
  - destruct Hround as [[= -> ->]|(L1 & L2 & _ & Hw & Hnext)]; [done|].
    destruct (Hnext good Hcov) as [Hs' Hw']. pose proof (IH _ Hs') as Hpost. unfold search_post in *.
    destruct (search _ _ _ _ _ _) as [[r|m']|e].
    + exact Hpost.
    + exact Hpost.
    + intros Hwid. apply Hpost. rewrite Nat2Z.inj_succ, Z.pow_succ_r in Hwid by lia. lia.
Qed.

(** ** The search forward *)
Definition forward_post (r : result Z) : Prop :=
  match r with Ok r => 0 ≤ r ≤ c.(cl_debt) ∧ covers r | Err e => e ≠ out_of_fuel end.
Lemma forward_bind {A} (m : result A) k :
  terminates m → (∀ a, m = Ok a → forward_post (k a)) → forward_post (m ≫= k).
Proof. intros Ht H. destruct m as [a|e]; cbn; [by apply H|]. intros ->. by apply Ht. Qed.
Lemma forward_all : forward_post (Ok c.(cl_debt)).
Proof using Hc. destruct Hc as ((D1 & D2) & _). split; [lia|by left]. Qed.

Lemma forward_check k pay cover :
  priced (pay, cover) → 0 ≤ pay → 0 ≤ cover → 0 ≤ tcr < 65536 → forward_post k →
  forward_post (_ ← in_position c pay cover; good ← enough c fp tcr pay cover; if good : bool then Ok cover else k).
Proof using Hc.
  intros Hpr Hp0 Hc0 Ht Hk. apply forward_bind; [apply terminates_assert|]. intros ? _.
  apply forward_bind; [by apply enough_ends|]. intros [] Hg; [|done].
  pose proof Hpr as (Hpr1 & Hpr2 & _). cbn in Hpr1, Hpr2. split; [lia|right; by exists pay].
Qed.

Definition forward_next (fuel : nat) (d2 d3 pay cover : Z) : result Z :=
  match fuel with O => Err out_of_fuel | S fuel => forward c mp fp tcr fuel d3 (u64 (d2 + d3)) pay cover end.
Lemma forward_unfold fuel d2 d3 p x :
  forward c mp fp tcr fuel d2 d3 p x =
    let next pay cover := (_ ← in_position c pay cover; good ← enough c fp tcr pay cover;
                           if good : bool then Ok cover else forward_next fuel d2 d3 pay cover) in
    if q <? b then
      p ← safe_add p (to_int64 d2);
      if c.(cl_collateral) <=? p then Ok c.(cl_debt)
      else x ← cover_of p; if c.(cl_debt) <=? x then Ok c.(cl_debt)
           else p ← pay_of x; if c.(cl_collateral) <=? p then Ok c.(cl_debt) else next p x
    else
      x ← safe_add x (to_int64 d2);
      if c.(cl_debt) <=? x then Ok c.(cl_debt)
      else p ← pay_of x; if c.(cl_collateral) <=? p then Ok c.(cl_debt)
           else x ← cover_of p; if c.(cl_debt) <=? x then Ok c.(cl_debt) else next p x.
Proof. by destruct fuel. Qed.

(** One step stops when the position is used up, checks a priced point
    otherwise. *)
Lemma forward_step fuel d2 d3 p x :
  0 ≤ p → 0 ≤ x → 0 < d2 ≤ 4 * GRAPHENE_MAX_SHARE_SUPPLY → 0 ≤ tcr < 65536 →
  (∀ p' x', 0 ≤ p' → 0 ≤ x' → d2 < GRAPHENE_MAX_SHARE_SUPPLY →
     forward_post (forward_next fuel d2 d3 p' x')) →
  forward_post (forward c mp fp tcr fuel d2 d3 p x).
Proof using Hmp Hc.
  intros Hp Hx Hd2 Ht Hnext. pose proof Hc as ((D1 & D2) & (C1 & C2) & _). pose proof max_supply_int64.
  assert (to_int64 d2 = d2) as Hi by (apply to_int64_id; unfold in_int64, int64_min, int64_max, GRAPHENE_MAX_SHARE_SUPPLY in *; lia).
  rewrite forward_unfold, Hi. cbv zeta. destruct (q <? b).
  - apply forward_bind; [auto with terminates|]. intros y Hy. inv_safe. destruct (Z.leb_spec c.(cl_collateral) (p + d2)); [apply forward_all|].
    apply forward_bind; [unfold cover_by; solve_terminates|]. intros z Hz. destruct (Z.leb_spec c.(cl_debt) z); [apply forward_all|].
    apply forward_bind; [unfold pay_for; solve_terminates|]. intros v Hv. destruct (Z.leb_spec c.(cl_collateral) v); [apply forward_all|].
    pose proof (cover_by_Ok (p + d2) z ltac:(lia) Hz) as [Z1 _]. pose proof (pay_for_Ok z v ltac:(lia) Hv) as [V1 _].
    apply forward_check; [split; cbn; [lia|split; [lia|done]]|lia|lia|done|]. apply Hnext; lia.
  - apply forward_bind; [auto with terminates|]. intros y Hy. inv_safe. destruct (Z.leb_spec c.(cl_debt) (x + d2)); [apply forward_all|].
    apply forward_bind; [unfold pay_for; solve_terminates|]. intros z Hz. destruct (Z.leb_spec c.(cl_collateral) z); [apply forward_all|].
    apply forward_bind; [unfold cover_by; solve_terminates|]. intros v Hv. destruct (Z.leb_spec c.(cl_debt) v); [apply forward_all|].
    pose proof (pay_for_Ok (x + d2) z ltac:(lia) Hz) as [Z1 _]. pose proof (cover_by_Ok z v ltac:(lia) Hv) as [V1 _].
    pose proof (pay_cover_pay (x + d2) z v ltac:(lia) Hz Hv) as [_ Hpr].
    apply forward_check; [split; cbn; [lia|split; [lia|done]]|lia|lia|done|]. apply Hnext; lia.
Qed.

(** The steps grow by half each time. *)
Lemma forward_spec fuel d2 d3 p x :
  0 ≤ p → 0 ≤ x → 0 ≤ tcr < 65536 → 1 ≤ d2 ≤ d3 → d3 ≤ 2 * d2 → d3 ≤ 4 * GRAPHENE_MAX_SHARE_SUPPLY →
  3 * GRAPHENE_MAX_SHARE_SUPPLY * 2 ^ Z.of_nat fuel ≤ (d2 + d3) * 3 ^ Z.of_nat fuel →
  forward_post (forward c mp fp tcr fuel d2 d3 p x).
Proof using Hmp Hc.
  intros Hp Hx Ht. revert d2 d3 p x Hp Hx. induction fuel as [|fuel IH]; intros d2 d3 p x Hp Hx Hd H2 H4 Hg;
    (apply forward_step; [done|done|lia|done|]; intros p' x' Hp' Hx' Hlt; cbn [forward_next]).
  - change (2 ^ Z.of_nat 0) with 1 in Hg. change (3 ^ Z.of_nat 0) with 1 in Hg. lia.
  - rewrite u64_small by (unfold uint64_mod, GRAPHENE_MAX_SHARE_SUPPLY in *; lia).
    apply IH; [done|done|lia|lia|lia|]. rewrite Nat2Z.inj_succ, !Z.pow_succ_r in Hg by lia.
    assert (0 < 3 ^ Z.of_nat fuel) by (apply Z.pow_pos_nonneg; lia). nia.
Qed.

(** ** The target *)
#[local] Arguments forward : simpl never.
#[local] Arguments search : simpl never.
Lemma upper_bound_Ok x m :
  0 ≤ x ≤ c.(cl_debt) → upper_bound c mp x = Ok m → whole m ∨ priced m ∧ 0 ≤ m.1.
Proof using Hmp Hc.
  intros Hx H. pose proof Hc as ((D1 & D2) & (C1 & C2) & _). pose proof max_supply_int64. unfold upper_bound in H.
  apply bind_Ok in H as (y & Hy & H). cbv zeta in H.
  destruct (Z.ltb_spec c.(cl_collateral) y) as [Hlt|Hge].
  - rewrite Z.eqb_refl in H. cbn in H. rewrite Z.leb_refl in H. left. by injection H as <-.
  - destruct (Z.eqb_spec y c.(cl_collateral)) as [E|E]; cbn in H.
    { rewrite Z.leb_refl in H. left. by injection H as <-. }
    apply bind_Ok in H as (z & Hz & H). destruct (Z.leb_spec c.(cl_debt) z); injection H as <-; [by left|right].
    destruct (Z.eqb_spec x c.(cl_debt)); [injection Hy as Hy; congruence|].
    pose proof (pay_for_Ok x y ltac:(lia) Hy) as [Y1 _]. pose proof (pay_cover_pay x y z ltac:(lia) Hy Hz) as [_ Hpr].
    split; [|cbn; lia]. split; cbn; [lia|split; [lia|done]].
Qed.

Lemma terminates_upper_bound x : terminates (upper_bound c mp x).
Proof. unfold upper_bound, pay_for, cover_by. solve_terminates. Qed.

(** The position is above the target at the feed price. *)
Definition above_target : Prop :=
  fp.(base).(amount) * c.(cl_debt) * tcr < fp.(quote).(amount) * c.(cl_collateral) * GRAPHENE_COLLATERAL_RATIO_DENOM.
Definition target_post (r : result Z) : Prop :=
  match r with
  | Ok r => 0 ≤ r ≤ c.(cl_debt) ∧ (r = 0 ∧ above_target ∨ covers r)
  | Err e => e ≠ out_of_fuel
  end.
Lemma target_bind {A} (m : result A) k :
  terminates m → (∀ a, m = Ok a → target_post (k a)) → target_post (m ≫= k).
Proof. intros Ht H. destruct m as [a|e]; cbn; [by apply H|]. intros ->. by apply Ht. Qed.
Lemma target_forward r : forward_post r → target_post r.
Proof. destruct r; cbn; tauto. Qed.

(** The search between a point that is too small and the upper bound. *)
Lemma cover_between p x x1 :
  priced (p, x) → 0 ≤ p → 0 ≤ x → 0 ≤ tcr < 65536 → 0 ≤ x1 ≤ c.(cl_debt) →
  target_post ('(max_to_pay, max_to_cover) ← upper_bound c mp x1;
    if (max_to_pay <=? p) || (max_to_cover <=? x) then Ok c.(cl_debt)
    else r ← search c mp fp tcr search_fuel (Bounds p x max_to_pay max_to_cover false);
         match r with inl covered => Ok covered
                    | inr (to_pay, to_cover) => forward c mp fp tcr forward_fuel 1 1 to_pay to_cover end).
Proof using Hmp Hc.
  intros Hpr Hp Hx Ht Hx1. pose proof Hc as ((D1 & D2) & (C1 & C2) & _).
  apply target_bind; [apply terminates_upper_bound|]. intros [y z] Hu. apply upper_bound_Ok in Hu; [|done].
  destruct (orb _ _) eqn:E; [by apply target_forward, forward_all|]. propify.
  assert (bounds_ok (Bounds p x y z false)) as Hb.
  { split; cbn; [lia|lia| |done]. destruct Hu as [Hw|[Hw _]]; [by left|by right]. }
  pose proof (search_spec search_fuel _ Hb Ht) as Hs. pose proof (bounds_small _ Hb) as [S1 S2]. cbn in S1, S2.
  destruct (search _ _ _ _ _ _) as [[r|[y' z']]|e]; cbn in Hs |- *.
  - split; [lia|]. right. apply Hs.
  - apply target_forward, forward_spec; try lia. vm_compute. discriminate.
  - apply Hs. unfold width, search_fuel. cbn [max_to_pay min_to_pay max_to_cover min_to_cover]. change (Z.of_nat 64) with 64.
    unfold GRAPHENE_MAX_SHARE_SUPPLY in *. destruct (_ <? _); lia.
Qed.

Lemma cover_target_spec : wf_price fp → 0 ≤ tcr < 65536 → target_post (cover_target c mp fp tcr).
Proof using Hmp Hc.
  intros (F1 & F2) Ht. pose proof Hc as ((D1 & D2) & (C1 & C2) & Hne). pose proof Hmp as ((M1 & M2) & Eb & Eq).
  pose proof max_supply_int64. unfold cover_target. set (n := _ - _). set (den := _ - _).
  destruct (Z.ltb_spec n 0) as [Hn|Hn].
  { split; [lia|]. left. split; [done|]. unfold above_target. unfold n in Hn. nia. }
  destruct (Z.leb_spec den 0) as [Hden|Hden]; [by apply target_forward, forward_all|].
  destruct (Z.leb_spec c.(cl_debt) (n `div` den)) as [Hq|Hq]; [by apply target_forward, forward_all|].
  assert (0 ≤ n `div` den) as Hq0 by (apply Z.div_pos; lia).
  apply target_bind; [auto with terminates|]. intros a Ha.
  assert (0 ≤ a.(amount) ≤ int64_max) as Ha1.
  { unfold asset_mul, asset_mul_with in Ha. cbn in Ha. rewrite Eb, Eq, Z.eqb_refl in Ha.
    destruct (Z.eqb_spec (debt_type c) (collateral_type c)); [done|]. inv_ok. cbn.
    match goal with H : scale_down _ _ _ = Ok _ |- _ => apply scale_down_Ok in H as (_ & ? & _); lia end. }
  apply target_bind; [unfold cover_by; solve_terminates|]. intros x Hx. pose proof (cover_by_Ok a.(amount) x Ha1 Hx) as [X1 _].
  apply target_bind; [unfold pay_for; solve_terminates|]. intros p Hp. pose proof (pay_for_Ok x p ltac:(lia) Hp) as [P1 _].
  destruct (orb _ _) eqn:E; [by apply target_forward, forward_all|]. propify.
  assert (priced (p, x)) as Hpr by (split; cbn; [lia|split; [lia|done]]).
  apply target_bind; [apply enough_ends; [done|lia|lia|done]|]. intros [] Hg.
  { split; [lia|]. right. right. by exists p. }
  apply cover_between; [done|lia|lia|done|]. split; [|lia].
  apply Z.min_glb; [|lia]. assert (0 ≤ (n + fp.(base).(amount) * q * tcr) `div` den) by (apply Z.div_pos; [nia|lia]). lia.
Qed.
End cover_laws.

Lemma in_format_Ok c p p' : in_format c p = Ok p' → wf_price p → price_of c p'.
Proof.
  unfold in_format. intros H Hw. inv_ok. propify. split; [|done]. case_match; [|done]. unfold wf_price in *. cbn. tauto.
Qed.
Lemma terminates_in_format c p : terminates (in_format c p).
Proof. unfold in_format. solve_terminates. Qed.

(** The amount is a part of the debt, and it is found. *)
Lemma max_debt_spec c match_price feed_price mcr :
  position_ok c → wf_price match_price → wf_price feed_price → 0 ≤ mcr < 65536 →
  (∀ t, c.(cl_target_collateral_ratio) = Some t → 0 ≤ t < 65536) →
  match get_max_debt_to_cover c match_price feed_price mcr with
  | Ok r => 0 ≤ r ≤ c.(cl_debt)
  | Err e => e ≠ out_of_fuel
  end.
Proof.
  intros Hc Hm Hf Hmcr Ht. unfold get_max_debt_to_cover. pose proof (terminates_in_format c feed_price) as Tf.
  pose proof (terminates_in_format c match_price) as Tm. destruct (in_format c feed_price) as [fp|e] eqn:Efp; cbn; [|intros ->; by apply Tf].
  pose proof Hc as ((D1 & D2) & _). destruct (price_gtb _ fp); [lia|].
  destruct (cl_target_collateral_ratio c) as [t|] eqn:Et; [|lia].
  destruct (in_format c match_price) as [mp|e] eqn:Emp; cbn; [|intros ->; by apply Tm].
  pose proof (in_format_Ok _ _ _ Emp Hm) as Hmp. destruct (in_format_Ok _ _ _ Efp Hf) as [Hfp _].
  pose proof (cover_target_spec c mp fp (Z.max t mcr) Hc Hmp Hfp ltac:(specialize (Ht t eq_refl); lia)) as Hp.
  destruct (cover_target _ _ _ _); [apply Hp|done].
Qed.
Lemma max_debt_bounds c match_price feed_price mcr r :
  position_ok c → wf_price match_price → wf_price feed_price → 0 ≤ mcr < 65536 →
  (∀ t, c.(cl_target_collateral_ratio) = Some t → 0 ≤ t < 65536) →
  get_max_debt_to_cover c match_price feed_price mcr = Ok r → 0 ≤ r ≤ c.(cl_debt).
Proof. intros Hc Hm Hf Hmcr Ht H. pose proof (max_debt_spec c _ _ _ Hc Hm Hf Hmcr Ht) as Hs. by rewrite H in Hs. Qed.

(** The computation of a call price ends, whatever the assets. *)
Lemma terminates_call_price debt collateral tcr :
  0 ≤ debt.(amount) ≤ int64_max → 0 ≤ collateral.(amount) ≤ int64_max → 0 ≤ tcr < 65536 → terminates (call_price debt collateral tcr).
Proof.
  intros Hd Hc Ht. destruct (Z.eq_dec collateral.(amount) 0) as [E|E].
  { unfold call_price, rational. rewrite E. discriminate. }
  destruct (call_price_total (Asset debt.(amount) 1) (Asset collateral.(amount) 0) tcr) as (p & Hp & _); [done|cbn; lia|done|done|].
  unfold call_price in *. cbn [amount asset_id] in *. destruct (rational debt.(amount) collateral.(amount)); [|done].
  destruct (rational tcr _); [|done]. cbn [mbind result_bind] in *. destruct (shrink _ _ _); [|done]. cbn [mbind result_bind] in *.
  unfold make_price. solve_terminates.
Qed.

(** C8. A called position is asked to cover at most its debt; what is asked is
    nothing if the feed protects the position or it is above its target, and
    otherwise brings the rest of the position out of the call at the target ratio,
    paid for at the match price, unless it is the whole debt.  The searches end. *)
Theorem max_debt_reaches_target c match_price feed_price mcr
  (Hc : position_ok c) (Hm : wf_price match_price) (Hf : wf_price feed_price) (Hmcr : 0 ≤ mcr < 65536)
  (Ht : ∀ t, c.(cl_target_collateral_ratio) = Some t → 0 ≤ t < 65536) :
  match get_max_debt_to_cover c match_price feed_price mcr with
  | Ok r =>
      0 ≤ r ≤ c.(cl_debt) ∧
      (r = c.(cl_debt) ∨
       ∃ mp fp, in_format c feed_price = Ok fp ∧
         (r = 0 ∧ price_gtb c.(cl_call_price) fp = true ∨
          ∃ target, c.(cl_target_collateral_ratio) = Some target ∧ in_format c match_price = Ok mp ∧
            let tcr := Z.max target mcr in
            (r = 0 ∧ above_target c fp tcr ∨
             ∃ pay, pay_for c mp r = Ok pay ∧ pay < c.(cl_collateral) ∧ enough c fp tcr pay r = Ok true)))
  | Err e => e ≠ out_of_fuel
  end.
Proof.
  unfold get_max_debt_to_cover. pose proof (terminates_in_format c feed_price) as Tf. pose proof (terminates_in_format c match_price) as Tm.
  destruct (in_format c feed_price) as [fp|e] eqn:Efp; cbn; [|intros ->; by apply Tf].
  pose proof Hc as ((D1 & D2) & _). destruct (price_gtb _ fp) eqn:Eg.
  { split; [lia|]. right. exists match_price, fp. split; [done|]. by left. }
  destruct (cl_target_collateral_ratio c) as [t|]; [|split; [lia|by left]].
  destruct (in_format c match_price) as [mp|e] eqn:Emp; cbn; [|intros ->; by apply Tm].
  pose proof (in_format_Ok _ _ _ Emp Hm) as Hmp. destruct (in_format_Ok _ _ _ Efp Hf) as [Hfp _].
  pose proof (cover_target_spec c mp fp (Z.max t mcr) Hc Hmp Hfp ltac:(specialize (Ht t eq_refl); lia)) as H.
  destruct (cover_target _ _ _ _) as [r|e]; [|done]. destruct H as [Hr Hcase]. split; [done|].
  destruct Hcase as [[-> Ha]|[->|(pay & Hpr & He)]]; [right|by left|right];
    (exists mp, fp; split; [done|]; right; exists t; split; [done|]; split; [done|]); [by left|right].
  exists pay. destruct Hpr as (P1 & P2 & P3). done.
Qed.

(** A position at 150 percent, called at 175, whose owner would keep 170. *)
Definition sample_position : call_order_object :=
  CallOrder 6 150000 100000 (Price (Asset 6 0) (Asset 7 1)) (Some 1700).
Definition sample_match_price : price := Price (Asset 100 1) (Asset 105 0).
Definition sample_feed_price : price := Price (Asset 100 1) (Asset 100 0).

Lemma max_debt_reaches_target_witness :
  get_max_debt_to_cover sample_position sample_match_price sample_feed_price 1750 = Ok 35715 ∧
  ∃ pay, pay_for sample_position (price_inv sample_match_price) 35715 = Ok pay ∧ pay < 150000 ∧
    enough sample_position (price_inv sample_feed_price) 1750 pay 35715 = Ok true.
Proof.
  split; [vm_compute; reflexivity|].
  pose proof (max_debt_reaches_target sample_position sample_match_price sample_feed_price 1750) as H.
  destruct (get_max_debt_to_cover _ _ _ _) as [r|e] eqn:E; [|exfalso; vm_compute in E; discriminate E].
  assert (r = 35715) as -> by (vm_compute in E; injection E as <-; reflexivity).
  destruct H as [_ [H|(mp & fp & Hfp & [[H _]|(t & Ht & Hmp & [[H _]|H])])]];
    [split; split_and?; vm_compute; congruence|split; vm_compute; split; congruence|split; vm_compute; split; congruence|lia
    |intros t [= <-]; lia|vm_compute in H; discriminate H|discriminate H|discriminate H|].
  vm_compute in Hfp, Hmp, Ht. injection Hfp as <-. injection Hmp as <-. injection Ht as <-. exact H.
Defined.
