(* ===== verification/Database.v ===== *)
(** * Database accessors

    The getters and mutators of [chain::database] the evaluators call, with
    the exceptions they throw, and their effect on the database record. *)
From S2P Require Import Prelude Safe Asset Objects.

(** ** Hard forks (hardfork.d)

    Each constant is the activation time in seconds, or the block number. *)
Definition HARDFORK_23_TIME : Z := 1512747600.
Definition HARDFORK_413_TIME : Z := 1446652800.
Definition HARDFORK_415_TIME : Z := 1446652800.
Definition HARDFORK_419_TIME : Z := 1446652800.
Definition HARDFORK_436_TIME : Z := 1450288800.
Definition HARDFORK_445_TIME : Z := 1450288800.
Definition HARDFORK_480_TIME : Z := 1450378800.
Definition HARDFORK_555_TIME : Z := 1456250400.
Definition HARDFORK_572_TIME : Z := 1456250400.
Definition HARDFORK_533_TIME : Z := 1456250400.
Definition HARDFORK_607_TIME : Z := 1458752400.
Definition HARDFORK_615_TIME : Z := 1458752400.
Definition HARDFORK_CORE_216_TIME : Z := 1512747600.
Definition HARDFORK_CORE_184_TIME : Z := 1532008920.
Definition HARDFORK_CORE_188_TIME : Z := 1532008920.
Definition HARDFORK_CORE_199_TIME : Z := 1532008920.
Definition HARDFORK_CORE_338_TIME : Z := 1532008920.
Definition HARDFORK_CORE_342_TIME : Z := 1532008920.
Definition HARDFORK_CORE_343_TIME : Z := 1532008920.
Definition HARDFORK_CORE_453_TIME : Z := 1532008920.
Definition HARDFORK_CORE_583_TIME : Z := 1532008920.
Definition HARDFORK_CORE_604_TIME : Z := 1532008920.
Definition HARDFORK_CORE_606_TIME : Z := 1532008920.
Definition HARDFORK_CORE_625_TIME : Z := 1532008920.
Definition HARDFORK_CORE_834_TIME : Z := 1532008920.
Definition HARDFORK_CORE_868_890_TIME : Z := 1532008920.
Definition HARDFORK_CORE_922_931_TIME : Z := 1532008920.
Definition HARDFORK_CORE_935_TIME : Z := 1532008920.
Definition HARDFORK_CORE_942_TIME : Z := 1532008920.
Definition HARDFORK_CWD1_TIME : Z := 1562096537.
Definition HARDFORK_CWD2_TIME : Z := 1571857200.
Definition HARDFORK_CWD3_TIME : Z := 1582041681.
Definition HARDFORK_CWD4_TIME : Z := 1588255200.
Definition HARDFORK_CWD5_TIME : Z := 1594717200.
Definition HARDFORK_CWD6_TIME : Z := 1605780000.
Definition HARDFORK_CWD7_TIME : Z := 1623088800.
Definition HARDFORK_CORE_144_TIME : Z := 1680480000.
Definition HARDFORK_CORE_145_TIME : Z := 1680674400.
Definition HARDFORK_CORE_1480_BLOCK_NUM : Z := 24940000.
Definition HARDFORK_CORE_1481_BLOCK_NUM : Z := 26571000.
Definition HARDFORK_CORE_1482_BLOCK_NUM : Z := 36655000.

(** ** Getters (db_getter.cpp, object_database.hpp) *)
Definition head_block_time (d : database) : Z := d.(d_dgpo).(dgp_time).
Definition head_block_num (d : database) : Z := d.(d_dgpo).(dgp_head_block_number).
Definition next_maintenance_time (d : database) : Z := d.(d_dgpo).(dgp_next_maintenance_time).
Definition head_block_id (d : database) : list Z := d.(d_dgpo).(dgp_head_block_id).

Definition get_account (d : database) (id : Z) : result account_object := index_get d.(d_accounts) id.
Definition get_asset (d : database) (id : Z) : result asset_object := index_get d.(d_assets) id.

Definition get_statistics (d : database) (owner : Z) : result account_statistics_object :=
  from_option_exn assert_exception (d.(d_statistics) !! owner).
Definition get_account_stats_by_owner := get_statistics.

Definition get_dynamic_data (d : database) (id : Z) : result asset_dynamic_data_object :=
  from_option_exn assert_exception (d.(d_dynamic_data) !! id).

(** The dynamic data of the core asset is instance 0. *)
Definition get_core_dynamic_data (d : database) : result asset_dynamic_data_object :=
  get_dynamic_data d 0.

(** ** Mutators *)
Definition modify_account (d : database) (id : Z) (f : account_object → result account_object) :
    result database :=
  i ← index_modify d.(d_accounts) id f;
  Ok (d <| d_accounts := i |>).

Definition modify_statistics (d : database) (owner : Z)
    (f : account_statistics_object → result account_statistics_object) : result database :=
  s ← get_statistics d owner;
  s' ← f s;
  Ok (d <| d_statistics := <[owner := s']> d.(d_statistics) |>).

Definition modify_dynamic_data (d : database) (id : Z)
    (f : asset_dynamic_data_object → result asset_dynamic_data_object) : result database :=
  x ← get_dynamic_data d id;
  x' ← f x;
  Ok (d <| d_dynamic_data := <[id := x']> d.(d_dynamic_data) |>).

Definition push_applied_operation (d : database) (op : applied_operation) : database :=
  d <| d_applied := d.(d_applied) ++ [op] |>.

(** [dd.current_supply += delta] and [addo.accumulated_fees += delta]. *)
Definition add_supply (d : database) (id delta : Z) : result database :=
  modify_dynamic_data d id (λ x,
    s ← safe_add x.(dd_current_supply) delta;
    Ok (x <| dd_current_supply := s |>)).

Definition sub_supply (d : database) (id delta : Z) : result database :=
  modify_dynamic_data d id (λ x,
    s ← safe_sub x.(dd_current_supply) delta;
    Ok (x <| dd_current_supply := s |>)).

Definition add_accumulated_fees (d : database) (id delta : Z) : result database :=
  modify_dynamic_data d id (λ x,
    s ← safe_add x.(dd_accumulated_fees) delta;
    Ok (x <| dd_accumulated_fees := s |>)).

(** ** Lemmas *)
Section index_lemmas.
Context {V : Type}.
Implicit Types (i : index V) (v : V).

Lemma index_get_Ok i id v : index_get i id = Ok v ↔ i.(objs) !! id = Some v.
Proof. apply from_option_Ok. Qed.

Lemma index_create_Ok i v id i' :
  index_create i v = Ok (id, i') →
  id = i.(next_id) ∧ i.(objs) !! id = None ∧ i' = Index (<[id:=v]> i.(objs)) (id + 1).
Proof. unfold index_create. case_match; [done|]. by intros [= <- <-]. Qed.

Lemma index_modify_Ok i id f i' :
  index_modify i id f = Ok i' →
  ∃ v v', i.(objs) !! id = Some v ∧ f v = Ok v' ∧ i' = Index (<[id:=v']> i.(objs)) i.(next_id).
Proof.
  unfold index_modify, index_get. intros H. inv_ok. eauto.
Qed.

Lemma index_remove_Ok i id i' :
  index_remove i id = Ok i' →
  ∃ v, i.(objs) !! id = Some v ∧ i' = Index (delete id i.(objs)) i.(next_id).
Proof. unfold index_remove, index_get. intros H. inv_ok. eauto. Qed.
End index_lemmas.

Lemma modify_account_Ok d id f d' :
  modify_account d id f = Ok d' →
  ∃ a a', d.(d_accounts).(objs) !! id = Some a ∧ f a = Ok a' ∧
    d' = d <| d_accounts := Index (<[id:=a']> d.(d_accounts).(objs)) d.(d_accounts).(next_id) |>.
Proof.
  unfold modify_account. intros H. inv_ok.
  match goal with H : index_modify _ _ _ = Ok _ |- _ => apply index_modify_Ok in H as (a & a' & ? & ? & ->) end.
  eauto.
Qed.

Lemma modify_statistics_Ok d o f d' :
  modify_statistics d o f = Ok d' →
  ∃ s s', d.(d_statistics) !! o = Some s ∧ f s = Ok s' ∧
    d' = d <| d_statistics := <[o:=s']> d.(d_statistics) |>.
Proof. unfold modify_statistics, get_statistics. intros H. inv_ok. eauto. Qed.

Lemma modify_dynamic_data_Ok d id f d' :
  modify_dynamic_data d id f = Ok d' →
  ∃ x x', d.(d_dynamic_data) !! id = Some x ∧ f x = Ok x' ∧
    d' = d <| d_dynamic_data := <[id:=x']> d.(d_dynamic_data) |>.
Proof. unfold modify_dynamic_data, get_dynamic_data. intros H. inv_ok. eauto. Qed.

(** ** Termination of the accessors *)
Lemma terminates_get_account d id : terminates (get_account d id).
Proof. unfold get_account, index_get. solve_terminates. Qed.
Lemma terminates_get_statistics d id : terminates (get_statistics d id).
Proof. unfold get_statistics. solve_terminates. Qed.
#[export] Hint Resolve terminates_get_account terminates_get_statistics : terminates.

Lemma terminates_modify_statistics d o f : (∀ s, terminates (f s)) → terminates (modify_statistics d o f).
Proof. intros Hf. unfold modify_statistics. solve_terminates. Qed.
Lemma terminates_modify_dynamic_data d o f : (∀ s, terminates (f s)) → terminates (modify_dynamic_data d o f).
Proof. intros Hf. unfold modify_dynamic_data, get_dynamic_data. solve_terminates. Qed.
Lemma terminates_index_modify {V} (i : index V) k f : (∀ s, terminates (f s)) → terminates (index_modify i k f).
Proof. intros Hf. unfold index_modify, index_get. solve_terminates. Qed.
Lemma terminates_modify_account d o f : (∀ s, terminates (f s)) → terminates (modify_account d o f).
Proof. intros Hf. unfold modify_account. apply terminates_bind; [by apply terminates_index_modify|done]. Qed.
#[export] Hint Extern 1 (terminates (modify_statistics _ _ _)) =>
  apply terminates_modify_statistics; intros ?; solve_terminates : terminates.
#[export] Hint Extern 1 (terminates (modify_account _ _ _)) =>
  apply terminates_modify_account; intros ?; solve_terminates : terminates.
#[export] Hint Extern 1 (terminates (index_modify _ _ _)) =>
  apply terminates_index_modify; intros ?; solve_terminates : terminates.
Lemma terminates_index_get {V} (i : index V) id : terminates (index_get i id).
Proof. unfold index_get. solve_terminates. Qed.
Lemma terminates_index_remove {V} (i : index V) id : terminates (index_remove i id).
Proof. unfold index_remove, index_get. solve_terminates. Qed.
#[export] Hint Resolve terminates_index_get terminates_index_remove : terminates.
Lemma terminates_foldM {A S} (f : S → A → result S) l s : (∀ s x, terminates (f s x)) → terminates (foldM f s l).
Proof. intros Hf. revert s. induction l as [|x l IH]; intros s; cbn; [discriminate|]. apply terminates_bind; auto. Qed.
