(* ===== verification/Ledger.v ===== *)
(** * The ledger: what the chain holds against what it has issued

    The abstract specification the economic operations implement.
    [database::debug_dump] (db_debug.cpp) adds up, per asset, the balances of
    the accounts, the vesting balances, the accumulated fees and the fee pools,
    and compares the total with the current supply.  [held] extends that sum
    with the places where this chain keeps funds in escrow: pending fees, the
    part of a cashback set aside for a credit, P2P orders, pledges, approved
    transfers, bets (those of the great race too), lottery tickets, the pot of the active matrix, limit orders
    with their deferred fees, the collateral of debts and bids, settlement orders
    and funds, and the budget of the witnesses, which is part of the supply.  An operation
    conserves value when it leaves [imbalance] unchanged. *)
From S2P Require Import Prelude Safe Asset Objects Database.

(** ** What each object holds *)
Definition at_id (k a z : Z) : Z := if k =? a then z else 0.
Definition of_asset (a : Z) (x : asset) : Z := at_id x.(asset_id) a x.(amount).
Definition core_only (a z : Z) : Z := at_id CORE a z.

Definition stat_held (s : account_statistics_object) : Z :=
  s.(st_pending_fees) + s.(st_pending_vested_fees) + (s.(st_allowed_to_repay) - s.(st_credit_repaid)).

Definition balance_held (a : Z) (k : Z * Z) (b : account_balance_object) : Z :=
  at_id k.2 a b.(abo_balance).

Definition dyn_held (a k : Z) (x : asset_dynamic_data_object) : Z :=
  at_id k a x.(dd_accumulated_fees) + core_only a x.(dd_fee_pool).
Definition dyn_supply (a k : Z) (x : asset_dynamic_data_object) : Z :=
  at_id k a x.(dd_current_supply).

(** A buy order ([order_type] true) escrows the gateway's funds from the call
    on; a sell order takes the client's funds only when it is created. *)
Definition order_held (o : p2p_order_object) : asset :=
  if o.(po_order_type) && (o.(po_status) =? 1) then Asset 0 o.(po_amount).(asset_id) else o.(po_amount).

Definition pledge_held (p : pledge_offer_object) : asset :=
  if p.(pl_status) =? 1 then p.(pl_pledge_amount) else Asset 0 CORE.
(** A transfer that has expired (status 2) is refunded before it is removed. *)
Definition transfer_held (t : approved_transfer_object) : asset :=
  if t.(at_status) =? 2 then Asset 0 CORE else t.(at_amount).
Definition flipcoin_held (f : flipcoin_object) : asset :=
  if f.(fl_status) =? 0 then f.(fl_bet)
  else if f.(fl_status) =? 1 then Asset (2 * f.(fl_bet).(amount)) f.(fl_bet).(asset_id)
  else Asset 0 CORE.
Definition lottery_held (l : lottery_goods_object) : asset :=
  if l.(lg_status) <? 3
  then Asset (l.(lg_ticket_price).(amount) * Z.of_nat (length l.(lg_participants))) l.(lg_ticket_price).(asset_id)
  else Asset 0 CORE.
Definition matrix_held (m : matrix_object) : Z := if m.(mx_status) =? 0 then m.(mx_amount) else 0.

(** The stakes on both sides of a bet. *)
Definition range_bet_held (b : gr_range_bet_object) : Z :=
  msum (λ _ z, z) b.(rb_true_bets) + msum (λ _ z, z) b.(rb_false_bets).
Definition team_bet_held (b : gr_team_bet_object) : Z :=
  msum (λ _ z, z) b.(tb_team1_bets) + msum (λ _ z, z) b.(tb_team2_bets).

(** A limit order keeps what it sells and the fee it will owe: the core taken from
    the fee pool and, next to it, what was paid in another asset. *)
Definition limit_held (a : Z) (o : limit_order_object) : Z :=
  of_asset a (amount_for_sale o) + core_only a o.(lo_deferred_fee) + of_asset a o.(lo_deferred_paid_fee).
Definition fund_held (b : asset_bitasset_data_object) : asset :=
  Asset b.(bd_settlement_fund) b.(bd_options).(bo_short_backing_asset).

(** ** Totals *)
Definition isum {V} (f : V → Z) (i : index V) : Z := msum (λ _, f) i.(objs).

Definition supply (d : database) (a : Z) : Z := msum (dyn_supply a) d.(d_dynamic_data).

Definition held (d : database) (a : Z) : Z :=
  msum (balance_held a) d.(d_balances)
  + isum (λ v, of_asset a v.(vb_balance)) d.(d_vesting)
  + msum (dyn_held a) d.(d_dynamic_data)
  + core_only a (msum (λ _, stat_held) d.(d_statistics))
  + isum (λ o, of_asset a (order_held o)) d.(d_p2p_orders)
  + isum (λ o, of_asset a (pledge_held o)) d.(d_pledge_offers)
  + isum (λ o, of_asset a (transfer_held o)) d.(d_approved_transfers)
  + isum (λ o, of_asset a (flipcoin_held o)) d.(d_flipcoins)
  + isum (λ o, of_asset a (lottery_held o)) d.(d_lotteries)
  + core_only a (isum matrix_held d.(d_matrices))
  + core_only a (isum range_bet_held d.(d_gr_range_bets))
  + core_only a (isum team_bet_held d.(d_gr_team_bets))
  + isum (limit_held a) d.(d_limit_orders)
  + isum (λ o, of_asset a (get_collateral o)) d.(d_call_orders)
  + isum (λ o, of_asset a o.(fs_balance)) d.(d_settlements)
  + isum (λ o, of_asset a o.(cb_inv_swan_price).(base)) d.(d_collateral_bids)
  + isum (λ o, of_asset a (fund_held o)) d.(d_bitasset_data)
  + core_only a d.(d_dgpo).(dgp_witness_budget).

Definition imbalance (d : database) (a : Z) : Z := held d a - supply d a.

(** The books balance: the chain's own consistency check, extended to the
    escrows. *)
Definition balanced (d : database) : Prop := ∀ a, held d a = supply d a.

(** ** The invariant of the books, and flows

    A credit that is not running owes nothing, and the committee (account 0)
    is never repaid by hand; no account balance is negative; P2P orders,
    bets and tickets are in the core asset; only buy orders wait for a call; a
    lottery that is sold out has sold all its tickets; the fees limit orders defer are not
    negative. *)
Definition wf_credit (s : account_statistics_object) : Prop :=
  (s.(st_total_credit) = 0 → s.(st_allowed_to_repay) = 0 ∧ s.(st_credit_repaid) = 0) ∧
  (s.(st_creditor) = 0 → s.(st_credit_repaid) = 0).

Definition order_ok (o : p2p_order_object) : Prop :=
  o.(po_amount).(asset_id) = CORE ∧ (o.(po_status) = 1 → o.(po_order_type) = true).
Definition lottery_ok (l : lottery_goods_object) : Prop :=
  l.(lg_ticket_price).(asset_id) = CORE ∧
  (l.(lg_status) = 1 ∨ l.(lg_status) = 2 → Z.of_nat (length l.(lg_participants)) = l.(lg_total_participants)).

Definition limit_ok (o : limit_order_object) : Prop := 0 ≤ o.(lo_deferred_fee) ∧ 0 ≤ o.(lo_deferred_paid_fee).(amount).

Record ledger_ok (d : database) : Prop := {
  lok_balances : map_Forall (λ _ b, 0 ≤ b.(abo_balance)) d.(d_balances);
  lok_credits : map_Forall (λ _ s, wf_credit s) d.(d_statistics);
  lok_orders : map_Forall (λ _ o, order_ok o) d.(d_p2p_orders).(objs);
  lok_flipcoins : map_Forall (λ _ f, f.(fl_bet).(asset_id) = CORE) d.(d_flipcoins).(objs);
  lok_lotteries : map_Forall (λ _ l, lottery_ok l) d.(d_lotteries).(objs);
  lok_limit_orders : map_Forall (λ _ o, limit_ok o) d.(d_limit_orders).(objs) }.

(** [flow d d' x]: going from [d] to [d'] keeps the invariant and brings [x a]
    of asset [a] into the books that were not accounted for before. *)
Definition flow (d d' : database) (x : Z → Z) : Prop :=
  ledger_ok d → ledger_ok d' ∧ ∀ a, imbalance d' a = imbalance d a + x a.

(** An operation moves value without creating or destroying any. *)
Definition conserves (d d' : database) : Prop := flow d d' (λ _, 0).

(** The interface between the components: what a successful run of an
    operation brings into the books. *)
Class Flows (P : Prop) (d d' : database) (x : Z → Z) : Prop := flows : P → flow d d' x.
#[export] Hint Mode Flows + - - - : typeclass_instances.

(** A change of an account's statistics that brings [x] into the books. *)
Definition stat_change (f : account_statistics_object → result account_statistics_object) (x : Z) : Prop :=
  ∀ s s', wf_credit s → f s = Ok s' → wf_credit s' ∧ stat_held s' = stat_held s + x.
Class StatNeutral (f : account_statistics_object → result account_statistics_object) : Prop :=
  stat_neutral : stat_change f 0.

#[export] Instance conserves_preorder : PreOrder conserves.
Proof.
  split.
  - intros d H. split; [done|]. intros a. lia.
  - intros d1 d2 d3 H1 H2 Hd. destruct (H1 Hd) as [Hd2 E1]. destruct (H2 Hd2) as [Hd3 E2].
    split; [done|]. intros a. rewrite E2, E1. lia.
Qed.

(** ** Lemmas *)
Lemma isum_modify {V} (g : V → Z) i id v v' :
  i.(objs) !! id = Some v →
  isum g (Index (<[id:=v']> i.(objs)) i.(next_id)) = isum g i - g v + g v'.
Proof. intros H. unfold isum. cbn. by rewrite (msum_insert_Some _ _ _ _ _ H). Qed.

Lemma isum_create {V} (g : V → Z) i id v n :
  i.(objs) !! id = None → isum g (Index (<[id:=v]> i.(objs)) n) = isum g i + g v.
Proof. intros H. unfold isum. cbn. rewrite msum_insert_None by done. lia. Qed.

Lemma isum_remove {V} (g : V → Z) i id v n :
  i.(objs) !! id = Some v → isum g (Index (delete id i.(objs)) n) = isum g i - g v.
Proof. intros H. unfold isum. cbn. by rewrite (msum_delete _ _ _ _ H). Qed.

Lemma msum_diff {K V} `{Countable K} (g : K → V → Z) (m : gmap K V) k v v' :
  m !! k = Some v → msum g (<[k:=v']> m) - msum g m = g k v' - g k v.
Proof. intros Hk. rewrite (msum_insert_Some _ _ _ _ _ Hk). lia. Qed.

(** Each table contributes independently. *)
Ltac imb_table := intros; unfold imbalance, held, supply, core_only, at_id; cbn; repeat case_match; lia.

Section imbalance_lemmas.
Implicit Types (d : database) (a : Z).

Lemma imb_balances d m a :
  imbalance (d <| d_balances := m |>) a
  = imbalance d a + (msum (balance_held a) m - msum (balance_held a) d.(d_balances)).
Proof. imb_table. Qed.
Lemma imb_vesting d i a :
  imbalance (d <| d_vesting := i |>) a
  = imbalance d a + (isum (λ v, of_asset a v.(vb_balance)) i
                     - isum (λ v, of_asset a v.(vb_balance)) d.(d_vesting)).
Proof. imb_table. Qed.
Lemma imb_dynamic_data d m a :
  imbalance (d <| d_dynamic_data := m |>) a
  = imbalance d a + (msum (dyn_held a) m - msum (dyn_held a) d.(d_dynamic_data))
    - (msum (dyn_supply a) m - msum (dyn_supply a) d.(d_dynamic_data)).
Proof. imb_table. Qed.
Lemma imb_statistics d m a :
  imbalance (d <| d_statistics := m |>) a
  = imbalance d a + core_only a (msum (λ _, stat_held) m - msum (λ _, stat_held) d.(d_statistics)).
Proof. imb_table. Qed.
Lemma imb_p2p_orders d i a :
  imbalance (d <| d_p2p_orders := i |>) a
  = imbalance d a + (isum (λ o, of_asset a (order_held o)) i
                     - isum (λ o, of_asset a (order_held o)) d.(d_p2p_orders)).
Proof. imb_table. Qed.
Lemma imb_pledge_offers d i a :
  imbalance (d <| d_pledge_offers := i |>) a
  = imbalance d a + (isum (λ o, of_asset a (pledge_held o)) i
                     - isum (λ o, of_asset a (pledge_held o)) d.(d_pledge_offers)).
Proof. imb_table. Qed.
Lemma imb_approved_transfers d i a :
  imbalance (d <| d_approved_transfers := i |>) a
  = imbalance d a + (isum (λ o, of_asset a (transfer_held o)) i
                     - isum (λ o, of_asset a (transfer_held o)) d.(d_approved_transfers)).
Proof. imb_table. Qed.
Lemma imb_flipcoins d i a :
  imbalance (d <| d_flipcoins := i |>) a
  = imbalance d a + (isum (λ o, of_asset a (flipcoin_held o)) i
                     - isum (λ o, of_asset a (flipcoin_held o)) d.(d_flipcoins)).
Proof. imb_table. Qed.
Lemma imb_lotteries d i a :
  imbalance (d <| d_lotteries := i |>) a
  = imbalance d a + (isum (λ o, of_asset a (lottery_held o)) i
                     - isum (λ o, of_asset a (lottery_held o)) d.(d_lotteries)).
Proof. imb_table. Qed.
Lemma imb_matrices d i a :
  imbalance (d <| d_matrices := i |>) a
  = imbalance d a + core_only a (isum matrix_held i - isum matrix_held d.(d_matrices)).
Proof. imb_table. Qed.
Lemma imb_gr_range_bets d i a :
  imbalance (d <| d_gr_range_bets := i |>) a
  = imbalance d a + core_only a (isum range_bet_held i - isum range_bet_held d.(d_gr_range_bets)).
Proof. imb_table. Qed.
Lemma imb_gr_team_bets d i a :
  imbalance (d <| d_gr_team_bets := i |>) a
  = imbalance d a + core_only a (isum team_bet_held i - isum team_bet_held d.(d_gr_team_bets)).
Proof. imb_table. Qed.
Lemma imb_limit_orders d i a :
  imbalance (d <| d_limit_orders := i |>) a
  = imbalance d a + (isum (limit_held a) i - isum (limit_held a) d.(d_limit_orders)).
Proof. imb_table. Qed.
Lemma imb_call_orders d i a :
  imbalance (d <| d_call_orders := i |>) a
  = imbalance d a + (isum (λ o, of_asset a (get_collateral o)) i
                     - isum (λ o, of_asset a (get_collateral o)) d.(d_call_orders)).
Proof. imb_table. Qed.
Lemma imb_settlements d i a :
  imbalance (d <| d_settlements := i |>) a
  = imbalance d a + (isum (λ o, of_asset a o.(fs_balance)) i - isum (λ o, of_asset a o.(fs_balance)) d.(d_settlements)).
Proof. imb_table. Qed.
Lemma imb_collateral_bids d i a :
  imbalance (d <| d_collateral_bids := i |>) a
  = imbalance d a + (isum (λ o, of_asset a o.(cb_inv_swan_price).(base)) i
                     - isum (λ o, of_asset a o.(cb_inv_swan_price).(base)) d.(d_collateral_bids)).
Proof. imb_table. Qed.
Lemma imb_bitasset_data d i a :
  imbalance (d <| d_bitasset_data := i |>) a
  = imbalance d a + (isum (λ o, of_asset a (fund_held o)) i - isum (λ o, of_asset a (fund_held o)) d.(d_bitasset_data)).
Proof. imb_table. Qed.
Lemma imb_accounts d i a : imbalance (d <| d_accounts := i |>) a = imbalance d a.
Proof. imb_table. Qed.
Lemma imb_witnesses d i a : imbalance (d <| d_witnesses := i |>) a = imbalance d a.
Proof. imb_table. Qed.
Lemma imb_p2p_advs d i a : imbalance (d <| d_p2p_advs := i |>) a = imbalance d a.
Proof. imb_table. Qed.
Lemma imb_credit_offers d i a : imbalance (d <| d_credit_offers := i |>) a = imbalance d a.
Proof. imb_table. Qed.
Lemma imb_rooms d i a : imbalance (d <| d_rooms := i |>) a = imbalance d a.
Proof. imb_table. Qed.
Lemma imb_gr_teams d i a : imbalance (d <| d_gr_teams := i |>) a = imbalance d a.
Proof. imb_table. Qed.
Lemma imb_gr_invites d i a : imbalance (d <| d_gr_invites := i |>) a = imbalance d a.
Proof. imb_table. Qed.
Lemma imb_gr_votes d i a : imbalance (d <| d_gr_votes := i |>) a = imbalance d a.
Proof. imb_table. Qed.
Lemma imb_committee_members d i a : imbalance (d <| d_committee_members := i |>) a = imbalance d a.
Proof. imb_table. Qed.
Lemma imb_workers d i a : imbalance (d <| d_workers := i |>) a = imbalance d a.
Proof. imb_table. Qed.
Lemma imb_withdraw_permissions d i a : imbalance (d <| d_withdraw_permissions := i |>) a = imbalance d a.
Proof. imb_table. Qed.
Lemma imb_budget_records d i a : imbalance (d <| d_budget_records := i |>) a = imbalance d a.
Proof. imb_table. Qed.
Lemma imb_gpo d i a : imbalance (d <| d_gpo := i |>) a = imbalance d a.
Proof. imb_table. Qed.
Lemma imb_dgpo d g a :
  imbalance (d <| d_dgpo := g |>) a
  = imbalance d a + core_only a (g.(dgp_witness_budget) - d.(d_dgpo).(dgp_witness_budget)).
Proof. imb_table. Qed.
Lemma imb_applied d i a : imbalance (d <| d_applied := i |>) a = imbalance d a.
Proof. imb_table. Qed.
Lemma imb_push d op a : imbalance (push_applied_operation d op) a = imbalance d a.
Proof. apply imb_applied. Qed.

End imbalance_lemmas.

Lemma imbalance_eq d a : imbalance d a = held d a - supply d a.
Proof. reflexivity. Qed.
#[global] Opaque imbalance.

(** Pointwise reasoning on flows. *)
Ltac flow_arith :=
  intros; unfold of_asset, core_only, at_id, CORE in *; cbn in *; subst;
  repeat case_match; cbn [amount asset_id] in *; propify; subst; lia.

Section flow_lemmas.
Implicit Types (d : database) (x y : Z → Z).

Lemma flow_refl d : flow d d (λ _, 0).
Proof. intros H. split; [done|]. intros. lia. Qed.

Lemma flow_trans d1 d2 d3 x y : flow d1 d2 x → flow d2 d3 y → flow d1 d3 (λ a, x a + y a).
Proof.
  intros H1 H2 Hd. destruct (H1 Hd) as [Hd2 E1]. destruct (H2 Hd2) as [Hd3 E2].
  split; [done|]. intros a. rewrite E2, E1. lia.
Qed.

Lemma flow_ext d d' x y : flow d d' x → (∀ a, x a = y a) → flow d d' y.
Proof. intros H E Hd. destruct (H Hd) as [? I]. split; [done|]. intros a. by rewrite I, E. Qed.

Lemma flow_balanced d d' : conserves d d' → ledger_ok d → balanced d → balanced d'.
Proof.
  intros Hc Hd Hb a. destruct (Hc Hd) as [_ E]. specialize (E a). specialize (Hb a).
  rewrite !imbalance_eq in E. lia.
Qed.

(** Tables the invariant does not speak about. *)
Lemma flow_table d d' x :
  d'.(d_balances) = d.(d_balances) → d'.(d_statistics) = d.(d_statistics) →
  d'.(d_p2p_orders) = d.(d_p2p_orders) → d'.(d_flipcoins) = d.(d_flipcoins) →
  d'.(d_lotteries) = d.(d_lotteries) → d'.(d_limit_orders) = d.(d_limit_orders) →
  (∀ a, imbalance d' a = imbalance d a + x a) → flow d d' x.
Proof. intros Hb Hs Ho Hf Hl Hm E [H1 H2 H3 H4 H5 H6]. split; [|done]. split; by rewrite ?Hb, ?Hs, ?Ho, ?Hf, ?Hl, ?Hm. Qed.

(** The change at the statistics object found there ... *)
Lemma flow_modify_statistics_at d o f d' c :
  modify_statistics d o f = Ok d' →
  (∀ s s', d.(d_statistics) !! o = Some s → wf_credit s → f s = Ok s' →
     wf_credit s' ∧ stat_held s' = stat_held s + c) →
  flow d d' (λ a, core_only a c).
Proof.
  intros H Hf [Hb Hc Ho Hfl Hlo Hlim]. apply modify_statistics_Ok in H as (s & s' & Hs & Hs' & ->).
  destruct (Hf s s' Hs (Hc o s Hs) Hs') as [Hwf' Heq]. split.
  - split; [done|by apply map_Forall_insert_2|done..].
  - intros a. rewrite imb_statistics. rewrite (msum_diff _ _ _ _ _ Hs). rewrite Heq. flow_arith.
Qed.

(** ... or at any. *)
Lemma flow_modify_statistics d o f d' c :
  modify_statistics d o f = Ok d' → stat_change f c → flow d d' (λ a, core_only a c).
Proof. intros H Hf. apply (flow_modify_statistics_at _ _ _ _ _ H). intros s s' _. apply Hf. Qed.

Lemma flow_modify_dynamic_data_at d k f d' x :
  modify_dynamic_data d k f = Ok d' →
  (∀ a s s', d.(d_dynamic_data) !! k = Some s → f s = Ok s' →
     dyn_held a k s' - dyn_supply a k s' = dyn_held a k s - dyn_supply a k s + x a) →
  flow d d' x.
Proof.
  intros H Hf. apply modify_dynamic_data_Ok in H as (s & s' & Hs & Hs' & ->).
  apply flow_table; [done..|]. intros a. specialize (Hf a s s' Hs Hs').
  rewrite imb_dynamic_data. rewrite !(msum_diff _ _ _ _ _ Hs). lia.
Qed.
Lemma flow_modify_dynamic_data d k f d' x :
  modify_dynamic_data d k f = Ok d' →
  (∀ a s s', f s = Ok s' →
     dyn_held a k s' - dyn_supply a k s' = dyn_held a k s - dyn_supply a k s + x a) →
  flow d d' x.
Proof. intros H Hf. apply (flow_modify_dynamic_data_at _ _ _ _ _ H). intros a s s' _. apply Hf. Qed.
End flow_lemmas.

Ltac solve_stat :=
  let s := fresh "s" in let Hwf := fresh "Hwf" in let Hs := fresh "Hs" in
  intros s ? Hwf Hs; cbn beta in Hs; inv_ok; inv_safe;
  (split; [exact Hwf|unfold stat_held; cbn; lia]).
#[export] Hint Extern 0 (StatNeutral _) => unfold StatNeutral; solve_stat : typeclass_instances.

(** The rules for a dynamic data object. *)
Ltac solve_dyn :=
  intros; cbn beta in *; inv_ok; inv_safe; unfold dyn_held, dyn_supply, of_asset, core_only, at_id, CORE; cbn;
  repeat case_match; propify; lia.

Section flow_instances.
Implicit Types (d : database).

#[export] Instance flows_modify_statistics d o f d' `{!StatNeutral f} :
  Flows (modify_statistics d o f = Ok d') d d' (λ _, 0).
Proof.
  intros H. eapply flow_ext; [by eapply flow_modify_statistics|]. flow_arith.
Qed.

#[export] Instance flows_modify_account d o f d' :
  Flows (modify_account d o f = Ok d') d d' (λ _, 0).
Proof.
  intros H. apply modify_account_Ok in H as (? & ? & ? & ? & ->). apply flow_table; [done..|].
  intros a. rewrite imb_accounts. lia.
Qed.

#[export] Instance flows_add_supply d k z d' :
  Flows (add_supply d k z = Ok d') d d' (λ a, - at_id k a z).
Proof. intros H. eapply flow_modify_dynamic_data; [exact H|]. solve_dyn. Qed.

#[export] Instance flows_sub_supply d k z d' :
  Flows (sub_supply d k z = Ok d') d d' (λ a, at_id k a z).
Proof. intros H. eapply flow_modify_dynamic_data; [exact H|]. solve_dyn. Qed.

#[export] Instance flows_add_accumulated_fees d k z d' :
  Flows (add_accumulated_fees d k z = Ok d') d d' (λ a, at_id k a z).
Proof. intros H. eapply flow_modify_dynamic_data; [exact H|]. solve_dyn. Qed.
End flow_instances.

(** The flow of a table change is the change of the table's total. *)
Section table_flows.
Implicit Types (d : database) (x : Z → Z).

Ltac table E L := intros E; apply flow_table; [done..|]; intros a; rewrite L, ?E; lia.

Lemma flow_vesting d i x :
  (∀ a, isum (λ v, of_asset a v.(vb_balance)) i
        = isum (λ v, of_asset a v.(vb_balance)) d.(d_vesting) + x a) →
  flow d (d <| d_vesting := i |>) x.
Proof. table E imb_vesting. Qed.
Lemma flow_pledge_offers d i x :
  (∀ a, isum (λ o, of_asset a (pledge_held o)) i
        = isum (λ o, of_asset a (pledge_held o)) d.(d_pledge_offers) + x a) →
  flow d (d <| d_pledge_offers := i |>) x.
Proof. table E imb_pledge_offers. Qed.
Lemma flow_approved_transfers d i x :
  (∀ a, isum (λ o, of_asset a (transfer_held o)) i
        = isum (λ o, of_asset a (transfer_held o)) d.(d_approved_transfers) + x a) →
  flow d (d <| d_approved_transfers := i |>) x.
Proof. table E imb_approved_transfers. Qed.
Lemma flow_flipcoins d i x :
  (map_Forall (λ _ f, f.(fl_bet).(asset_id) = CORE) d.(d_flipcoins).(objs) →
   map_Forall (λ _ f, f.(fl_bet).(asset_id) = CORE) i.(objs)) →
  (∀ a, isum (λ o, of_asset a (flipcoin_held o)) i
        = isum (λ o, of_asset a (flipcoin_held o)) d.(d_flipcoins) + x a) →
  flow d (d <| d_flipcoins := i |>) x.
Proof.
  intros Hc E [H1 H2 H3 H4 H5 H6]. split; [split; [done|done|done|by apply Hc|done..]|].
  intros a. rewrite imb_flipcoins, E. lia.
Qed.
Lemma flow_lotteries d i x :
  (map_Forall (λ _ l, lottery_ok l) d.(d_lotteries).(objs) → map_Forall (λ _ l, lottery_ok l) i.(objs)) →
  (∀ a, isum (λ o, of_asset a (lottery_held o)) i
        = isum (λ o, of_asset a (lottery_held o)) d.(d_lotteries) + x a) →
  flow d (d <| d_lotteries := i |>) x.
Proof.
  intros Hc E [H1 H2 H3 H4 H5 H6]. split; [split; [done|done|done|done|by apply Hc|done]|].
  intros a. rewrite imb_lotteries, E. lia.
Qed.
Lemma flow_matrices d i z :
  isum matrix_held i = isum matrix_held d.(d_matrices) + z →
  flow d (d <| d_matrices := i |>) (λ a, core_only a z).
Proof.
  intros E. apply flow_table; [done..|]. intros a. rewrite imb_matrices, E. flow_arith.
Qed.
Lemma flow_gr_range_bets d i z :
  isum range_bet_held i = isum range_bet_held d.(d_gr_range_bets) + z →
  flow d (d <| d_gr_range_bets := i |>) (λ a, core_only a z).
Proof.
  intros E. apply flow_table; [done..|]. intros a. rewrite imb_gr_range_bets, E. flow_arith.
Qed.
Lemma flow_gr_team_bets d i z :
  isum team_bet_held i = isum team_bet_held d.(d_gr_team_bets) + z →
  flow d (d <| d_gr_team_bets := i |>) (λ a, core_only a z).
Proof.
  intros E. apply flow_table; [done..|]. intros a. rewrite imb_gr_team_bets, E. flow_arith.
Qed.
Lemma flow_p2p_orders d i x :
  (map_Forall (λ _ o, order_ok o) d.(d_p2p_orders).(objs) →
   map_Forall (λ _ o, order_ok o) i.(objs)) →
  (∀ a, isum (λ o, of_asset a (order_held o)) i
        = isum (λ o, of_asset a (order_held o)) d.(d_p2p_orders) + x a) →
  flow d (d <| d_p2p_orders := i |>) x.
Proof.
  intros Hc E [H1 H2 H3 H4 H5 H6]. split; [split; [done|done|by apply Hc|done..]|].
  intros a. rewrite imb_p2p_orders, E. lia.
Qed.
Lemma flow_limit_orders d i x :
  (map_Forall (λ _ o, limit_ok o) d.(d_limit_orders).(objs) → map_Forall (λ _ o, limit_ok o) i.(objs)) →
  (∀ a, isum (limit_held a) i = isum (limit_held a) d.(d_limit_orders) + x a) →
  flow d (d <| d_limit_orders := i |>) x.
Proof.
  intros Hc E [H1 H2 H3 H4 H5 H6]. split; [split; [done..|by apply Hc]|].
  intros a. rewrite imb_limit_orders, E. lia.
Qed.
Lemma flow_call_orders d i x :
  (∀ a, isum (λ o, of_asset a (get_collateral o)) i
        = isum (λ o, of_asset a (get_collateral o)) d.(d_call_orders) + x a) →
  flow d (d <| d_call_orders := i |>) x.
Proof. table E imb_call_orders. Qed.
Lemma flow_settlements d i x :
  (∀ a, isum (λ o, of_asset a o.(fs_balance)) i = isum (λ o, of_asset a o.(fs_balance)) d.(d_settlements) + x a) →
  flow d (d <| d_settlements := i |>) x.
Proof. table E imb_settlements. Qed.
Lemma flow_collateral_bids d i x :
  (∀ a, isum (λ o, of_asset a o.(cb_inv_swan_price).(base)) i
        = isum (λ o, of_asset a o.(cb_inv_swan_price).(base)) d.(d_collateral_bids) + x a) →
  flow d (d <| d_collateral_bids := i |>) x.
Proof. table E imb_collateral_bids. Qed.
Lemma flow_bitasset_data d i x :
  (∀ a, isum (λ o, of_asset a (fund_held o)) i = isum (λ o, of_asset a (fund_held o)) d.(d_bitasset_data) + x a) →
  flow d (d <| d_bitasset_data := i |>) x.
Proof. table E imb_bitasset_data. Qed.

Ltac neutral L := apply flow_table; [done..|]; intros a; rewrite L; lia.
Lemma flow_witnesses d i : flow d (d <| d_witnesses := i |>) (λ _, 0).
Proof. neutral imb_witnesses. Qed.
Lemma flow_p2p_advs d i : flow d (d <| d_p2p_advs := i |>) (λ _, 0).
Proof. neutral imb_p2p_advs. Qed.
Lemma flow_credit_offers d i : flow d (d <| d_credit_offers := i |>) (λ _, 0).
Proof. neutral imb_credit_offers. Qed.
Lemma flow_rooms d i : flow d (d <| d_rooms := i |>) (λ _, 0).
Proof. neutral imb_rooms. Qed.
Lemma flow_gr_teams d i : flow d (d <| d_gr_teams := i |>) (λ _, 0).
Proof. neutral imb_gr_teams. Qed.
Lemma flow_gr_invites d i : flow d (d <| d_gr_invites := i |>) (λ _, 0).
Proof. neutral imb_gr_invites. Qed.
Lemma flow_gr_votes d i : flow d (d <| d_gr_votes := i |>) (λ _, 0).
Proof. neutral imb_gr_votes. Qed.
Lemma flow_committee_members d i : flow d (d <| d_committee_members := i |>) (λ _, 0).
Proof. neutral imb_committee_members. Qed.
Lemma flow_workers d i : flow d (d <| d_workers := i |>) (λ _, 0).
Proof. neutral imb_workers. Qed.
Lemma flow_withdraw_permissions d i : flow d (d <| d_withdraw_permissions := i |>) (λ _, 0).
Proof. neutral imb_withdraw_permissions. Qed.
Lemma flow_budget_records d i : flow d (d <| d_budget_records := i |>) (λ _, 0).
Proof. neutral imb_budget_records. Qed.
Lemma flow_gpo d g : flow d (d <| d_gpo := g |>) (λ _, 0).
Proof. neutral imb_gpo. Qed.
Lemma flow_dgpo d g z :
  g.(dgp_witness_budget) = d.(d_dgpo).(dgp_witness_budget) + z →
  flow d (d <| d_dgpo := g |>) (λ a, core_only a z).
Proof. intros E. apply flow_table; [done..|]. intros a. rewrite imb_dgpo, E. flow_arith. Qed.
End table_flows.

(** Removing, creating and modifying an object of a table that holds funds. *)
Section object_flows.
Context {V : Type} (get : database → index V) (set_ : index V → database → database) (held_in : V → asset).
Hypothesis Hset : ∀ d i x,
  (∀ a, isum (λ v, of_asset a (held_in v)) i = isum (λ v, of_asset a (held_in v)) (get d) + x a) →
  flow d (set_ i d) x.

Lemma flow_index_create d v id i :
  index_create (get d) v = Ok (id, i) → flow d (set_ i d) (λ a, of_asset a (held_in v)).
Proof using Hset.
  intros H. apply index_create_Ok in H as (-> & Hn & ->). apply Hset. intros a. by rewrite isum_create.
Qed.
Lemma flow_index_remove d id i v :
  index_remove (get d) id = Ok i → index_get (get d) id = Ok v →
  flow d (set_ i d) (λ a, - of_asset a (held_in v)).
Proof using Hset.
  intros H Hv. apply index_remove_Ok in H as (v' & Hv' & ->). apply index_get_Ok in Hv. same_ok.
  apply Hset. intros a. rewrite (isum_remove _ _ _ _ _ Hv'). lia.
Qed.
Lemma flow_index_modify d id f i :
  index_modify (get d) id f = Ok i →
  ∃ v v', index_get (get d) id = Ok v ∧ f v = Ok v' ∧
    flow d (set_ i d) (λ a, of_asset a (held_in v') - of_asset a (held_in v)).
Proof using Hset.
  intros H. apply index_modify_Ok in H as (v & v' & Hv & Hf & ->). exists v, v'.
  split; [by apply index_get_Ok|]. split; [done|]. apply Hset. intros a.
  rewrite (isum_modify _ _ _ _ _ Hv). lia.
Qed.
End object_flows.

Lemma flow_push d op : flow d (push_applied_operation d op) (λ _, 0).
Proof. apply flow_table; [done..|]. intros a. rewrite imb_push. lia. Qed.

(** [flow_steps] turns every run of a known operation into its flow and chains
    the flows; [solve_flow] closes a goal [flow d d' x] from the chain, filling
    in the neutral record updates between the runs. *)
Ltac neutral_of d :=
  lazymatch d with
  | over d_p2p_advs (λ _, ?i) ?d0 => pose proof (flow_p2p_advs d0 i)
  | over d_credit_offers (λ _, ?i) ?d0 => pose proof (flow_credit_offers d0 i)
  | over d_rooms (λ _, ?i) ?d0 => pose proof (flow_rooms d0 i)
  | over d_gr_teams (λ _, ?i) ?d0 => pose proof (flow_gr_teams d0 i)
  | over d_witnesses (λ _, ?i) ?d0 => pose proof (flow_witnesses d0 i)
  | over d_gr_invites (λ _, ?i) ?d0 => pose proof (flow_gr_invites d0 i)
  | over d_gr_votes (λ _, ?i) ?d0 => pose proof (flow_gr_votes d0 i)
  | over d_committee_members (λ _, ?i) ?d0 => pose proof (flow_committee_members d0 i)
  | over d_workers (λ _, ?i) ?d0 => pose proof (flow_workers d0 i)
  | over d_withdraw_permissions (λ _, ?i) ?d0 => pose proof (flow_withdraw_permissions d0 i)
  | over d_budget_records (λ _, ?i) ?d0 => pose proof (flow_budget_records d0 i)
  | push_applied_operation ?d0 ?op => pose proof (flow_push d0 op)
  end.
Ltac flow_chain :=
  repeat match goal with
  | F1 : flow ?d1 ?d2 _, F2 : flow ?d2 ?d3 _ |- _ =>
      let F := fresh "F" in
      pose proof (flow_trans _ _ _ _ _ F1 F2) as F; clear F1 F2
  end.
Ltac flow_steps :=
  repeat match goal with
  | H : ?P |- _ => lazymatch P with _ = Ok _ => idtac end; apply (flows (P:=P)) in H
  end;
  flow_chain;
  repeat match goal with F : flow ?d _ _ |- _ => neutral_of d; flow_chain end.
Ltac solve_flow :=
  try lazymatch goal with |- flow _ ?d' _ => neutral_of d' end;
  flow_steps;
  lazymatch goal with
  | F : flow ?d ?d' _ |- flow ?d ?d' _ => apply (flow_ext _ _ _ _ F); cbn beta; flow_arith
  | |- flow ?d ?d _ => eapply flow_ext; [apply flow_refl|flow_arith]
  end.
