(* ===== verification/Vesting.v ===== *)
(** * Vesting balances

    [vesting_balance_object.hpp] and [vesting_balance_object.cpp]: the linear
    policy with a cliff and the coin-days policy, the static variant that
    dispatches between them and the balance object built on it.  The C
    [assert]s of the source are not part of a release build; the theorems
    below show that the conditions they state hold. *)
From S2P Require Import Prelude Safe Asset Objects.

Record vesting_policy_context : Type := Context_ {
  ctx_balance : asset;
  ctx_now : Z;
  ctx_amount : asset }.

Definition sum_below_max_shares (a b : asset) : result bool :=
  if a.(amount) <=? GRAPHENE_MAX_SHARE_SUPPLY then
    if b.(amount) <=? GRAPHENE_MAX_SHARE_SUPPLY then
      s ← safe_add a.(amount) b.(amount);
      Ok (s <=? GRAPHENE_MAX_SHARE_SUPPLY)
    else Ok false
  else Ok false.

(** ** Linear vesting with a cliff *)
Module linear_vesting.
(** The vested part of the initial balance after [elapsed] seconds. *)
Definition total_vested (p : linear_vesting_policy) (elapsed : Z) : result Z :=
  if elapsed <? p.(lv_vesting_duration_seconds) then
    r ← to_uint64 (uint128_mul (uint128_of_int64 p.(lv_begin_balance)) elapsed
                     `div` p.(lv_vesting_duration_seconds));
    Ok (to_int64 r)
  else Ok p.(lv_begin_balance).

Definition get_allowed_withdraw (p : linear_vesting_policy) (ctx : vesting_policy_context) :
    result asset :=
  if p.(lv_begin_timestamp) <? ctx.(ctx_now) then
    let elapsed := ctx.(ctx_now) - p.(lv_begin_timestamp) in
    if p.(lv_vesting_cliff_seconds) <=? elapsed then
      vested ← total_vested p elapsed;
      withdrawn ← safe_sub p.(lv_begin_balance) ctx.(ctx_balance).(amount);
      allowed ← safe_sub vested withdrawn;
      Ok (Asset allowed ctx.(ctx_balance).(asset_id))
    else Ok (Asset 0 ctx.(ctx_balance).(asset_id))
  else Ok (Asset 0 ctx.(ctx_balance).(asset_id)).

Definition is_deposit_allowed (p : linear_vesting_policy) (ctx : vesting_policy_context) :
    result bool :=
  if ctx.(ctx_amount).(asset_id) =? ctx.(ctx_balance).(asset_id)
  then sum_below_max_shares ctx.(ctx_amount) ctx.(ctx_balance)
  else Ok false.

Definition is_deposit_vested_allowed (p : linear_vesting_policy) (ctx : vesting_policy_context) :
    result bool := Ok false.

Definition is_withdraw_allowed (p : linear_vesting_policy) (ctx : vesting_policy_context) :
    result bool :=
  if ctx.(ctx_amount).(asset_id) =? ctx.(ctx_balance).(asset_id)
  then allowed ← get_allowed_withdraw p ctx; asset_le ctx.(ctx_amount) allowed
  else Ok false.

Definition on_deposit (p : linear_vesting_policy) (ctx : vesting_policy_context) :
    result linear_vesting_policy := Ok p.
Definition on_deposit_vested (p : linear_vesting_policy) (ctx : vesting_policy_context) :
    result linear_vesting_policy := Err may_not_deposit_vested.
Definition on_withdraw (p : linear_vesting_policy) (ctx : vesting_policy_context) :
    result linear_vesting_policy := Ok p.
End linear_vesting.

(** ** Coin-days vesting *)
Module cdd_vesting.
(** [std::max(vesting_seconds, 1u)] *)
Definition period (p : cdd_vesting_policy) : Z := p.(cdd_vesting_seconds) `max` 1.

Definition compute_coin_seconds_earned (p : cdd_vesting_policy) (ctx : vesting_policy_context) : Z :=
  let delta_seconds := ctx.(ctx_now) - p.(cdd_coin_seconds_earned_last_update) in
  let delta_coin_seconds :=
    uint128_mul (uint128_of_int64 ctx.(ctx_balance).(amount)) (uint128_of_int64 delta_seconds) in
  let cap := uint128_mul (uint128_of_int64 ctx.(ctx_balance).(amount)) (period p) in
  uint128_add p.(cdd_coin_seconds_earned) delta_coin_seconds `min` cap.

Definition update_coin_seconds_earned (p : cdd_vesting_policy) (ctx : vesting_policy_context) :
    cdd_vesting_policy :=
  p <| cdd_coin_seconds_earned := compute_coin_seconds_earned p ctx |>
    <| cdd_coin_seconds_earned_last_update := ctx.(ctx_now) |>.

Definition get_allowed_withdraw (p : cdd_vesting_policy) (ctx : vesting_policy_context) :
    result asset :=
  if ctx.(ctx_now) <=? p.(cdd_start_claim) then Ok (Asset 0 ctx.(ctx_balance).(asset_id))
  else
    r ← to_uint64 (compute_coin_seconds_earned p ctx `div` period p);
    Ok (Asset (to_int64 r) ctx.(ctx_balance).(asset_id)).

Definition on_deposit (p : cdd_vesting_policy) (ctx : vesting_policy_context) :
    result cdd_vesting_policy := Ok (update_coin_seconds_earned p ctx).

Definition on_deposit_vested (p : cdd_vesting_policy) (ctx : vesting_policy_context) :
    result cdd_vesting_policy :=
  p' ← on_deposit p ctx;
  Ok (p' <| cdd_coin_seconds_earned ::=
        λ e, uint128_add e (uint128_of_int64 (to_int64 (ctx.(ctx_amount).(amount) * period p))) |>).

Definition on_withdraw (p : cdd_vesting_policy) (ctx : vesting_policy_context) :
    result cdd_vesting_policy :=
  let p' := update_coin_seconds_earned p ctx in
  let needed := uint128_mul (uint128_of_int64 ctx.(ctx_amount).(amount)) (period p) in
  Ok (p' <| cdd_coin_seconds_earned ::= λ e, uint128_sub e needed |>).

Definition is_deposit_allowed (p : cdd_vesting_policy) (ctx : vesting_policy_context) :
    result bool :=
  if ctx.(ctx_amount).(asset_id) =? ctx.(ctx_balance).(asset_id)
  then sum_below_max_shares ctx.(ctx_amount) ctx.(ctx_balance)
  else Ok false.

Definition is_deposit_vested_allowed (p : cdd_vesting_policy) (ctx : vesting_policy_context) :
    result bool := is_deposit_allowed p ctx.

Definition is_withdraw_allowed (p : cdd_vesting_policy) (ctx : vesting_policy_context) :
    result bool :=
  allowed ← get_allowed_withdraw p ctx; asset_le ctx.(ctx_amount) allowed.
End cdd_vesting.

(** ** The static variant: one visitor per operation *)
Definition policy_get_allowed_withdraw (p : vesting_policy) (ctx : vesting_policy_context) :=
  match p with
  | linear p => linear_vesting.get_allowed_withdraw p ctx
  | cdd p => cdd_vesting.get_allowed_withdraw p ctx
  end.
Definition policy_is_withdraw_allowed (p : vesting_policy) (ctx : vesting_policy_context) :=
  match p with
  | linear p => linear_vesting.is_withdraw_allowed p ctx
  | cdd p => cdd_vesting.is_withdraw_allowed p ctx
  end.
Definition policy_is_deposit_allowed (p : vesting_policy) (ctx : vesting_policy_context) :=
  match p with
  | linear p => linear_vesting.is_deposit_allowed p ctx
  | cdd p => cdd_vesting.is_deposit_allowed p ctx
  end.
Definition policy_is_deposit_vested_allowed (p : vesting_policy) (ctx : vesting_policy_context) :=
  match p with
  | linear p => linear_vesting.is_deposit_vested_allowed p ctx
  | cdd p => cdd_vesting.is_deposit_vested_allowed p ctx
  end.
Definition policy_on_deposit (p : vesting_policy) (ctx : vesting_policy_context) : result vesting_policy :=
  match p with
  | linear p => linear <$> linear_vesting.on_deposit p ctx
  | cdd p => cdd <$> cdd_vesting.on_deposit p ctx
  end.
Definition policy_on_deposit_vested (p : vesting_policy) (ctx : vesting_policy_context) :
    result vesting_policy :=
  match p with
  | linear p => linear <$> linear_vesting.on_deposit_vested p ctx
  | cdd p => cdd <$> cdd_vesting.on_deposit_vested p ctx
  end.
Definition policy_on_withdraw (p : vesting_policy) (ctx : vesting_policy_context) : result vesting_policy :=
  match p with
  | linear p => linear <$> linear_vesting.on_withdraw p ctx
  | cdd p => cdd <$> cdd_vesting.on_withdraw p ctx
  end.

(** ** vesting_balance_object *)
Section vesting_balance.
Implicit Types (vbo : vesting_balance_object) (now : Z) (amt : asset).

Definition vbo_is_deposit_allowed vbo now amt : result bool :=
  policy_is_deposit_allowed vbo.(vb_policy) (Context_ vbo.(vb_balance) now amt).

Definition vbo_is_deposit_vested_allowed vbo now amt : result bool :=
  policy_is_deposit_vested_allowed vbo.(vb_policy) (Context_ vbo.(vb_balance) now amt).

Definition vbo_is_withdraw_allowed vbo now amt : result bool :=
  policy_is_withdraw_allowed vbo.(vb_policy) (Context_ vbo.(vb_balance) now amt).

Definition vbo_deposit vbo now amt : result vesting_balance_object :=
  p ← policy_on_deposit vbo.(vb_policy) (Context_ vbo.(vb_balance) now amt);
  b ← asset_add vbo.(vb_balance) amt;
  Ok (vbo <| vb_policy := p |> <| vb_balance := b |>).

Definition vbo_deposit_vested vbo now amt : result vesting_balance_object :=
  p ← policy_on_deposit_vested vbo.(vb_policy) (Context_ vbo.(vb_balance) now amt);
  b ← asset_add vbo.(vb_balance) amt;
  Ok (vbo <| vb_policy := p |> <| vb_balance := b |>).

Definition vbo_withdraw vbo now amt : result vesting_balance_object :=
  p ← policy_on_withdraw vbo.(vb_policy) (Context_ vbo.(vb_balance) now amt);
  b ← asset_sub vbo.(vb_balance) amt;
  Ok (vbo <| vb_policy := p |> <| vb_balance := b |>).

Definition vbo_get_allowed_withdraw vbo now : result asset :=
  policy_get_allowed_withdraw vbo.(vb_policy) (Context_ vbo.(vb_balance) now (Asset 0 CORE)).
End vesting_balance.

(** ** Well-formedness

    What the object maintains: machine ranges, and the bound each policy
    promises between the balance and its own state. *)
Definition wf_linear (p : linear_vesting_policy) (balance : asset) : Prop :=
  0 ≤ p.(lv_begin_timestamp) ∧ 0 ≤ p.(lv_vesting_cliff_seconds) ∧
  0 ≤ p.(lv_vesting_duration_seconds) < 4294967296 ∧
  0 ≤ balance.(amount) ≤ int64_max ∧ 0 ≤ p.(lv_begin_balance) ≤ int64_max.

Definition wf_cdd (p : cdd_vesting_policy) (balance : asset) : Prop :=
  0 ≤ p.(cdd_vesting_seconds) < 4294967296 ∧
  0 ≤ balance.(amount) ≤ int64_max ∧
  0 ≤ p.(cdd_coin_seconds_earned) ≤ balance.(amount) * cdd_vesting.period p ∧
  0 ≤ p.(cdd_coin_seconds_earned_last_update) < 4294967296.

Definition wf_vbo (vbo : vesting_balance_object) : Prop :=
  match vbo.(vb_policy) with
  | linear p => wf_linear p vbo.(vb_balance)
  | cdd p => wf_cdd p vbo.(vb_balance)
  end.

#[global] Arguments cdd_vesting.on_withdraw : simpl never.
#[global] Arguments cdd_vesting.on_deposit : simpl never.
#[global] Arguments cdd_vesting.on_deposit_vested : simpl never.
#[global] Arguments cdd_vesting.compute_coin_seconds_earned : simpl never.
#[global] Arguments cdd_vesting.is_withdraw_allowed : simpl never.
#[global] Arguments linear_vesting.is_withdraw_allowed : simpl never.

(** The clock of the chain does not run backwards. *)
Definition after_last_update (vbo : vesting_balance_object) (now : Z) : Prop :=
  now < 4294967296 ∧
  match vbo.(vb_policy) with
  | linear _ => 0 ≤ now
  | cdd p => p.(cdd_coin_seconds_earned_last_update) ≤ now
  end.

(** ** Lemmas *)
Section cdd_lemmas.
Implicit Types (p : cdd_vesting_policy) (ctx : vesting_policy_context).

Lemma period_pos p : 0 < cdd_vesting.period p.
Proof. unfold cdd_vesting.period. lia. Qed.

(** On a well-formed policy no 128-bit operation wraps. *)
Lemma compute_coin_seconds_earned_exact p ctx :
  wf_cdd p ctx.(ctx_balance) →
  p.(cdd_coin_seconds_earned_last_update) ≤ ctx.(ctx_now) < 4294967296 →
  cdd_vesting.compute_coin_seconds_earned p ctx =
    (p.(cdd_coin_seconds_earned) +
       ctx.(ctx_balance).(amount) * (ctx.(ctx_now) - p.(cdd_coin_seconds_earned_last_update)))
      `min` (ctx.(ctx_balance).(amount) * cdd_vesting.period p).
Proof.
  unfold wf_cdd, cdd_vesting.compute_coin_seconds_earned, uint128_mul, uint128_of_int64, uint128_add.
  intros (Hv & Hb & He & Hl) Hn.
  assert (1 ≤ cdd_vesting.period p < 4294967296) by (unfold cdd_vesting.period; lia).
  unfold uint128_mod, int64_max in *.
  rewrite (Z.mod_small (ctx.(ctx_balance).(amount))) by lia.
  rewrite (Z.mod_small (ctx.(ctx_now) - _)) by lia.
  rewrite (Z.mod_small (_ * (ctx.(ctx_now) - _))) by nia.
  rewrite (Z.mod_small (_ * cdd_vesting.period p)) by nia.
  rewrite Z.mod_small by nia. done.
Qed.

Lemma cdd_earned_bounds p ctx :
  wf_cdd p ctx.(ctx_balance) →
  p.(cdd_coin_seconds_earned_last_update) ≤ ctx.(ctx_now) < 4294967296 →
  0 ≤ cdd_vesting.compute_coin_seconds_earned p ctx
    ≤ ctx.(ctx_balance).(amount) * cdd_vesting.period p.
Proof.
  intros Hwf Hn. rewrite compute_coin_seconds_earned_exact by done.
  destruct Hwf as (Hv & Hb & He & Hl). nia.
Qed.

(** The amount the policy releases is the whole number of earned periods,
    and never exceeds the balance. *)
Lemma cdd_allowed_Ok p ctx :
  wf_cdd p ctx.(ctx_balance) →
  p.(cdd_coin_seconds_earned_last_update) ≤ ctx.(ctx_now) < 4294967296 →
  ∃ w, cdd_vesting.get_allowed_withdraw p ctx = Ok (Asset w ctx.(ctx_balance).(asset_id)) ∧
       0 ≤ w ≤ ctx.(ctx_balance).(amount) ∧
       w * cdd_vesting.period p ≤ cdd_vesting.compute_coin_seconds_earned p ctx.
Proof.
  intros Hwf Hn. pose proof (cdd_earned_bounds p ctx Hwf Hn) as He.
  pose proof (period_pos p) as Hp. destruct Hwf as (Hv & Hb & _ & Hl).
  unfold cdd_vesting.get_allowed_withdraw.
  destruct (Z.leb_spec ctx.(ctx_now) p.(cdd_start_claim)).
  { exists 0. split; [done|]. lia. }
  set (e := cdd_vesting.compute_coin_seconds_earned p ctx) in *.
  set (v := cdd_vesting.period p) in *.
  pose proof (Z.mul_div_le e v Hp).
  assert (0 ≤ e `div` v) by (apply Z.div_pos; lia).
  assert (e `div` v ≤ ctx.(ctx_balance).(amount)) by (apply Z.div_le_upper_bound; lia).
  unfold to_uint64. unfold uint64_mod, int64_max in *.
  destruct (Z.ltb_spec (e `div` v) 18446744073709551616); [|lia]. cbn.
  exists (e `div` v). rewrite to_int64_id by (unfold in_int64, int64_max, int64_min; lia).
  split; [done|]. lia.
Qed.
End cdd_lemmas.

Section linear_lemmas.
Implicit Types (p : linear_vesting_policy) (ctx : vesting_policy_context).

Lemma total_vested_Ok p b elapsed :
  wf_linear p b → 0 < elapsed →
  ∃ v, linear_vesting.total_vested p elapsed = Ok v ∧ 0 ≤ v ≤ p.(lv_begin_balance) ∧
       (elapsed < p.(lv_vesting_duration_seconds) →
        v = (p.(lv_begin_balance) * elapsed) `div` p.(lv_vesting_duration_seconds)).
Proof.
  intros (Ht & Hc & Hd & Hb & Hm) He. unfold linear_vesting.total_vested, int64_max in *.
  destruct (Z.ltb_spec elapsed p.(lv_vesting_duration_seconds)).
  - unfold uint128_mul, uint128_of_int64, to_uint64, uint128_mod, uint64_mod.
    rewrite (Z.mod_small p.(lv_begin_balance)) by lia. rewrite Z.mod_small by nia.
    set (q := _ `div` _).
    assert (0 ≤ q) by (apply Z.div_pos; nia).
    assert (q ≤ p.(lv_begin_balance)) by (apply Z.div_le_upper_bound; nia).
    destruct (Z.ltb_spec q 18446744073709551616); [|lia]. cbn.
    exists q. rewrite to_int64_id by (unfold in_int64, int64_max, int64_min; lia).
    split; [done|]. split; [lia|done].
  - eexists. split; [done|]. split; [lia|lia].
Qed.

Lemma total_vested_mono p b e1 e2 v1 v2 :
  wf_linear p b → 0 < e1 ≤ e2 →
  linear_vesting.total_vested p e1 = Ok v1 → linear_vesting.total_vested p e2 = Ok v2 → v1 ≤ v2.
Proof.
  intros Hwf He H1 H2.
  destruct (total_vested_Ok p b e1 Hwf) as (w1 & Hw1 & Hr1 & Hq1); [lia|].
  destruct (total_vested_Ok p b e2 Hwf) as (w2 & Hw2 & Hr2 & Hq2); [lia|].
  rewrite H1 in Hw1. rewrite H2 in Hw2. injection Hw1 as ->. injection Hw2 as ->.
  destruct (Z.lt_ge_cases e2 p.(lv_vesting_duration_seconds)).
  - rewrite Hq1, Hq2 by lia. destruct Hwf as (?&?&?&?&?). apply Z.div_le_mono; nia.
  - clear Hq2. unfold linear_vesting.total_vested in H2.
    destruct (Z.ltb_spec e2 p.(lv_vesting_duration_seconds)); [lia|]. injection H2 as <-. lia.
Qed.
End linear_lemmas.

(** A policy that allows a withdrawal never allows more than the balance:
    what the source states as [assert((amount <= balance) || (!result))]. *)
Lemma withdraw_allowed_le_balance vbo now amt :
  wf_vbo vbo → after_last_update vbo now →
  vbo_is_withdraw_allowed vbo now amt = Ok true →
  amt.(asset_id) = vbo.(vb_balance).(asset_id) ∧ amt.(amount) ≤ vbo.(vb_balance).(amount).
Proof.
  destruct vbo as [o b [p|p]];
    unfold wf_vbo, after_last_update, vbo_is_withdraw_allowed; cbn; intros Hwf [Hnow Hlast] H.
  - unfold linear_vesting.is_withdraw_allowed in H. inv_ok; propify; try done.
    cbn in *. split; [done|].
    match goal with H : asset_le _ _ = Ok _ |- _ => unfold asset_le, asset_lt in H end. inv_ok.
    match goal with H : true = negb _ |- _ => symmetry in H end. propify.
    match goal with H : linear_vesting.get_allowed_withdraw _ _ = _ |- _ =>
      unfold linear_vesting.get_allowed_withdraw in H end.
    pose proof Hwf as (? & ? & ? & ? & ?).
    inv_ok; inv_safe; cbn in *; propify; try lia.
    destruct (total_vested_Ok p b (now - p.(lv_begin_timestamp)) Hwf) as (v & Hv & ? & _); [lia|].
    same_ok. lia.
  - unfold cdd_vesting.is_withdraw_allowed in H. inv_ok.
    destruct (cdd_allowed_Ok p (Context_ b now amt) Hwf) as (w & Hw & Hb & _); [cbn; lia|].
    same_ok. cbn in *. unfold asset_le, asset_lt in *. inv_ok.
    match goal with H : true = negb _ |- _ => symmetry in H end. propify. cbn in *. lia.
Qed.

Lemma asset_le_true a b : asset_le a b = Ok true ↔ a.(asset_id) = b.(asset_id) ∧ a.(amount) ≤ b.(amount).
Proof.
  unfold asset_le, asset_lt. split.
  - intros H. inv_ok. match goal with H : true = negb _ |- _ => symmetry in H end. propify. lia.
  - intros [H1 H2]. rewrite H1, Z.eqb_refl. cbn. f_equal. propify. lia.
Qed.

Lemma asset_sub_same a b :
  a.(asset_id) = b.(asset_id) → 0 ≤ b.(amount) ≤ a.(amount) → a.(amount) ≤ int64_max →
  asset_sub a b = Ok (Asset (a.(amount) - b.(amount)) a.(asset_id)).
Proof.
  intros H1 H2 H3. unfold asset_sub. rewrite H1, Z.eqb_refl. cbn.
  by rewrite safe_sub_in by solve_int64.
Qed.

(** The coin-days a withdrawal consumes were earned. *)
Lemma cdd_withdraw_exact p ctx :
  wf_cdd p ctx.(ctx_balance) →
  p.(cdd_coin_seconds_earned_last_update) ≤ ctx.(ctx_now) < 4294967296 →
  0 ≤ ctx.(ctx_amount).(amount) ≤ ctx.(ctx_balance).(amount) →
  ctx.(ctx_amount).(amount) * cdd_vesting.period p ≤ cdd_vesting.compute_coin_seconds_earned p ctx →
  cdd_vesting.on_withdraw p ctx =
    Ok (p <| cdd_coin_seconds_earned :=
               cdd_vesting.compute_coin_seconds_earned p ctx
                 - ctx.(ctx_amount).(amount) * cdd_vesting.period p |>
          <| cdd_coin_seconds_earned_last_update := ctx.(ctx_now) |>).
Proof.
  intros Hwf Hn Ha He. pose proof (cdd_earned_bounds p ctx Hwf Hn) as Hb.
  destruct Hwf as (Hv & Hbal & _ & _).
  assert (1 ≤ cdd_vesting.period p < 4294967296) by (unfold cdd_vesting.period; lia).
  unfold cdd_vesting.on_withdraw, cdd_vesting.update_coin_seconds_earned. destruct p; cbn in *.
  unfold uint128_sub, uint128_mul, uint128_of_int64, uint128_mod, int64_max in *.
  rewrite (Z.mod_small (ctx.(ctx_amount).(amount))) by lia.
  rewrite (Z.mod_small (_ * _)) by nia. rewrite Z.mod_small by nia. done.
Qed.

(** A coin-days policy allows exactly the whole periods earned. *)
Lemma cdd_allowed_iff p ctx :
  wf_cdd p ctx.(ctx_balance) →
  p.(cdd_coin_seconds_earned_last_update) ≤ ctx.(ctx_now) < 4294967296 →
  0 < ctx.(ctx_amount).(amount) →
  cdd_vesting.is_withdraw_allowed p ctx = Ok true ↔
    p.(cdd_start_claim) < ctx.(ctx_now) ∧
    ctx.(ctx_amount).(asset_id) = ctx.(ctx_balance).(asset_id) ∧
    ctx.(ctx_amount).(amount) * cdd_vesting.period p ≤ cdd_vesting.compute_coin_seconds_earned p ctx.
Proof.
  intros Hwf Hn Ha. pose proof (cdd_earned_bounds p ctx Hwf Hn) as Hb.
  pose proof (period_pos p) as Hp. destruct Hwf as (Hv & Hbal & _ & _).
  unfold cdd_vesting.is_withdraw_allowed, cdd_vesting.get_allowed_withdraw.
  destruct (Z.leb_spec ctx.(ctx_now) p.(cdd_start_claim)); cbn [mbind result_bind].
  { rewrite asset_le_true. cbn. lia. }
  set (e := cdd_vesting.compute_coin_seconds_earned p ctx) in *.
  set (v := cdd_vesting.period p) in *.
  assert (e `div` v ≤ ctx.(ctx_balance).(amount)) by (apply Z.div_le_upper_bound; lia).
  assert (0 ≤ e `div` v) by (apply Z.div_pos; lia).
  unfold to_uint64, uint64_mod, int64_max in *.
  destruct (Z.ltb_spec (e `div` v) 18446744073709551616); [|lia]. cbn [mbind result_bind].
  rewrite to_int64_id by (unfold in_int64, int64_max, int64_min; lia).
  rewrite asset_le_true. cbn.
  pose proof (Z.mul_div_le e v Hp). pose proof (Z.div_le_lower_bound e v ctx.(ctx_amount).(amount) Hp).
  split; [intros [? ?]; split_and!; [lia|done|nia]|intros (? & ? & ?); split; [done|]].
  match goal with H : _ → _ ≤ _ `div` _ |- _ => apply H end. lia.
Qed.

Lemma linear_allowed_iff p ctx v :
  linear_vesting.total_vested p (ctx.(ctx_now) - p.(lv_begin_timestamp)) = Ok v →
  wf_linear p ctx.(ctx_balance) → 0 < ctx.(ctx_amount).(amount) → 0 ≤ v ≤ p.(lv_begin_balance) →
  linear_vesting.is_withdraw_allowed p ctx = Ok true ↔
    p.(lv_begin_timestamp) < ctx.(ctx_now) ∧
    p.(lv_vesting_cliff_seconds) ≤ ctx.(ctx_now) - p.(lv_begin_timestamp) ∧
    ctx.(ctx_amount).(asset_id) = ctx.(ctx_balance).(asset_id) ∧
    ctx.(ctx_amount).(amount) ≤ v - (p.(lv_begin_balance) - ctx.(ctx_balance).(amount)).
Proof.
  intros Hv (? & ? & ? & ? & ?) Ha Hr.
  unfold linear_vesting.is_withdraw_allowed, linear_vesting.get_allowed_withdraw.
  destruct (Z.eqb_spec ctx.(ctx_amount).(asset_id) ctx.(ctx_balance).(asset_id)) as [Hid|]; [|split; [done|naive_solver]].
  destruct (Z.ltb_spec p.(lv_begin_timestamp) ctx.(ctx_now)); cbn [mbind result_bind];
    [|rewrite asset_le_true; cbn; lia].
  destruct (Z.leb_spec p.(lv_vesting_cliff_seconds) (ctx.(ctx_now) - p.(lv_begin_timestamp)));
    cbn [mbind result_bind]; [|rewrite asset_le_true; cbn; lia].
  rewrite Hv. cbn [mbind result_bind].
  rewrite safe_sub_in by solve_int64. cbn [mbind result_bind].
  rewrite safe_sub_in by solve_int64. cbn [mbind result_bind].
  rewrite asset_le_true. cbn. naive_solver.
Qed.

(** A withdrawal that the policy allows succeeds, takes exactly the
    requested amount, never more than the balance, keeps the owner and leaves
    a well-formed object: no 128-bit subtraction wraps and the coin-days left
    stay within the cap of the remaining balance. *)
Lemma vbo_withdraw_total vbo now amt
  (Hwf : wf_vbo vbo) (Hnow : after_last_update vbo now) (Hamt : 0 < amt.(amount))
  (Hallowed : vbo_is_withdraw_allowed vbo now amt = Ok true) :
  ∃ vbo', vbo_withdraw vbo now amt = Ok vbo' ∧
    vbo'.(vb_owner) = vbo.(vb_owner) ∧
    vbo'.(vb_balance) = Asset (vbo.(vb_balance).(amount) - amt.(amount)) vbo.(vb_balance).(asset_id) ∧
    0 ≤ vbo'.(vb_balance).(amount) ∧ wf_vbo vbo' ∧ after_last_update vbo' now.
Proof.
  pose proof (withdraw_allowed_le_balance vbo now amt Hwf Hnow Hallowed) as [Hid Hle].
  destruct vbo as [o b [p|p]];
    unfold wf_vbo, after_last_update, vbo_is_withdraw_allowed, vbo_withdraw in *; cbn in *.
  - destruct Hwf as (? & ? & ? & ? & ?). rewrite asset_sub_same by lia. cbn.
    eexists. split; [done|]. cbn. unfold wf_linear. cbn. split_and!; try done; lia.
  - destruct Hnow as [Hn Hl].
    pose proof (cdd_earned_bounds p (Context_ b now amt) Hwf) as Hb. cbn in Hb.
    apply cdd_allowed_iff in Hallowed as (_ & _ & He); [|done|cbn; lia|done]. cbn in He.
    rewrite cdd_withdraw_exact; [|done|cbn; lia|cbn; lia|done]. cbn [fmap result_fmap mbind result_bind].
    destruct Hwf as (? & ? & ? & ?). rewrite asset_sub_same by lia. cbn [mbind result_bind].
    eexists. split; [done|]. unfold wf_cdd, cdd_vesting.period in *. destruct p; cbn in *.
    split_and!; try done; lia.
Qed.

(** ** Properties of vesting balances *)

(** C23. What vests stays vested: a withdrawal allowed now is allowed at every
    later time, as long as the object is not touched. *)
Theorem vbo_withdraw_allowed_mono vbo now later amt
  (Hwf : wf_vbo vbo) (Hnow : after_last_update vbo now) (Hlater : now ≤ later < 4294967296)
  (Hamt : 0 < amt.(amount)) (Hallowed : vbo_is_withdraw_allowed vbo now amt = Ok true) :
  vbo_is_withdraw_allowed vbo later amt = Ok true.
Proof.
  destruct vbo as [o b [p|p]];
    unfold wf_vbo, after_last_update, vbo_is_withdraw_allowed in *; cbn in *.
  - assert (p.(lv_begin_timestamp) < now) as Hstart.
    { unfold linear_vesting.is_withdraw_allowed, linear_vesting.get_allowed_withdraw in Hallowed.
      cbn in Hallowed. inv_ok; propify; try done. rewrite asset_le_true in *. cbn in *. lia. }
    destruct (total_vested_Ok p b (now - p.(lv_begin_timestamp)) Hwf) as (v & Hv & Hr & _); [lia|].
    destruct (total_vested_Ok p b (later - p.(lv_begin_timestamp)) Hwf) as (v' & Hv' & Hr' & _); [lia|].
    assert (0 < now - p.(lv_begin_timestamp) ≤ later - p.(lv_begin_timestamp)) as Helapsed by lia.
    pose proof (total_vested_mono p b _ _ _ _ Hwf Helapsed Hv Hv') as Hle.
    apply (linear_allowed_iff p (Context_ b now amt) v) in Hallowed; [|done..].
    apply (linear_allowed_iff p (Context_ b later amt) v'); [done..|]. cbn in *.
    destruct Hallowed as (? & ? & ? & ?). split_and!; [lia|lia|done|lia].
  - destruct Hnow as [Hn Hl].
    apply (cdd_allowed_iff p (Context_ b now amt)) in Hallowed; [|done|cbn; lia|done].
    apply (cdd_allowed_iff p (Context_ b later amt)); [done|cbn; lia|done|].
    rewrite compute_coin_seconds_earned_exact in * by (done || cbn; lia). cbn in *.
    destruct Hallowed as (? & ? & ?), Hwf as (? & ? & ? & ?). split_and!; [lia|done|nia].
Qed.

Lemma vbo_withdraw_allowed_mono_witness :
  let v := VestingBalance 7 (Asset 1000 0) (linear (LinearPolicy 0 10 1000 1000)) in
  vbo_is_withdraw_allowed v 200 (Asset 150 0) = Ok true ∧
  vbo_is_withdraw_allowed v 5000 (Asset 150 0) = Ok true.
Proof.
  split; [reflexivity|].
  apply (vbo_withdraw_allowed_mono (VestingBalance 7 (Asset 1000 0) (linear (LinearPolicy 0 10 1000 1000)))
           200 5000 (Asset 150 0)).
  - unfold wf_vbo, wf_linear, int64_max; cbn; lia.
  - unfold after_last_update; cbn; lia.
  - lia.
  - cbn; lia.
  - reflexivity.
Defined.

(** Withdrawing at the time of the last update spends earned coin-days only. *)
Lemma cdd_earned_at_update p b now a :
  wf_cdd p b → p.(cdd_coin_seconds_earned_last_update) = now → now < 4294967296 →
  cdd_vesting.compute_coin_seconds_earned p (Context_ b now a) = p.(cdd_coin_seconds_earned).
Proof.
  intros Hwf <- Hn. rewrite compute_coin_seconds_earned_exact by (done || cbn; lia). cbn.
  destruct Hwf as (? & ? & ? & ?). lia.
Qed.

(** Coin-days are additive: two withdrawals in the same block leave the
    same object as one withdrawal of the sum. *)
Theorem cdd_withdraw_split o b p now a1 a2
  (Hwf : wf_cdd p b) (Hnow : p.(cdd_coin_seconds_earned_last_update) ≤ now < 4294967296)
  (H1 : 0 < a1) (H2 : 0 < a2)
  (Hallowed : vbo_is_withdraw_allowed (VestingBalance o b (cdd p)) now (Asset (a1 + a2) b.(asset_id)) = Ok true) :
  (v ← vbo_withdraw (VestingBalance o b (cdd p)) now (Asset a1 b.(asset_id));
   vbo_withdraw v now (Asset a2 b.(asset_id)))
  = vbo_withdraw (VestingBalance o b (cdd p)) now (Asset (a1 + a2) b.(asset_id)).
Proof.
  pose proof (withdraw_allowed_le_balance _ _ _ (Hwf : wf_vbo (VestingBalance o b (cdd p)))
                (conj (proj2 Hnow) (proj1 Hnow)) Hallowed) as [_ Hle]. cbn in Hle.
  unfold vbo_is_withdraw_allowed in Hallowed. cbn in Hallowed.
  apply cdd_allowed_iff in Hallowed as (_ & _ & He); [|done|cbn; lia|cbn; lia]. cbn in He.
  pose proof (period_pos p) as Hp.
  pose proof (cdd_earned_bounds p (Context_ b now (Asset (a1 + a2) b.(asset_id))) Hwf) as Hb. cbn in Hb.
  specialize (Hb Hnow). set (e := cdd_vesting.compute_coin_seconds_earned p (Context_ b now (Asset 0 0))).
  assert (∀ a, cdd_vesting.compute_coin_seconds_earned p (Context_ b now a) = e) as Hall by done.
  rewrite Hall in He, Hb.
  unfold vbo_withdraw. cbn.
  pose proof Hwf as (Hv & Hbal & Hearn & Hlast).
  rewrite (cdd_withdraw_exact p (Context_ b now (Asset a1 _))); [|done|cbn; lia|cbn; lia|cbn; rewrite Hall; nia].
  rewrite (cdd_withdraw_exact p (Context_ b now (Asset (a1 + a2) _))); [|done|cbn; lia|cbn; lia|cbn; rewrite Hall; nia].
  rewrite !Hall. cbn [fmap result_fmap mbind result_bind].
  rewrite (asset_sub_same b (Asset a1 _)) by (cbn; lia).
  rewrite (asset_sub_same b (Asset (a1 + a2) _)) by (cbn; lia). cbn.
  set (p' := CddPolicy _ _ _ _).
  set (b' := Asset (b.(amount) - a1) b.(asset_id)).
  assert (wf_cdd p' b') as Hwf'.
  { unfold wf_cdd, p', b', cdd_vesting.period in *. cbn in *. split_and!; try done; nia. }
  assert (cdd_vesting.compute_coin_seconds_earned p' (Context_ b' now (Asset a2 b.(asset_id)))
            = p'.(cdd_coin_seconds_earned)) as Hc by (apply cdd_earned_at_update; [done|done|lia]).
  rewrite (cdd_withdraw_exact p'); [|done|cbn; lia|unfold b'; cbn; lia|rewrite Hc; unfold p', cdd_vesting.period in *; cbn in *; nia].
  rewrite Hc. cbn. rewrite (asset_sub_same b') by (unfold b'; cbn; lia). cbn.
  unfold p', b', cdd_vesting.period. cbn.
  f_equal. f_equal; [f_equal; lia|]. f_equal. f_equal. nia.
Qed.

Lemma cdd_withdraw_split_witness :
  let v := VestingBalance 7 (Asset 1000 0) (cdd (CddPolicy 100 0 0 50)) in
  vbo_is_withdraw_allowed v 100 (Asset (200 + 150) 0) = Ok true ∧
  (w ← vbo_withdraw v 100 (Asset 200 0); vbo_withdraw w 100 (Asset 150 0))
  = vbo_withdraw v 100 (Asset (200 + 150) 0).
Proof.
  split; [reflexivity|].
  apply (cdd_withdraw_split 7 (Asset 1000 0) (CddPolicy 100 0 0 50) 100 200 150).
  - unfold wf_cdd, cdd_vesting.period, int64_max; cbn; lia.
  - cbn; lia.
  - lia.
  - lia.
  - reflexivity.
Defined.
