(* ===== verification/Balance.v ===== *)
(** * Account balances and deposits

    [db_balance.cpp]: the one gate through which every account balance
    changes, the lazily created vesting balances that receive rewards, the
    cashback deposit with its credit repayment, and the witness pay. *)
From S2P Require Import Prelude Safe Asset Objects Database Ledger Vesting.

(** ** get_balance, adjust_balance *)
Definition get_balance (d : database) (owner asset_id : Z) : asset :=
  match d.(d_balances) !! (owner, asset_id) with
  | None => Asset 0 asset_id
  | Some abo => Asset abo.(abo_balance) asset_id
  end.

(** [account_balance_object::adjust_balance] *)
Definition abo_adjust_balance (b : account_balance_object) (delta : asset) : result account_balance_object :=
  s ← safe_add b.(abo_balance) delta.(amount);
  let b' := b <| abo_balance := s |> in
  Ok (if delta.(asset_id) =? CORE then b' <| abo_maintenance_flag := true |> else b').

Definition adjust_balance (d : database) (account : Z) (delta : asset) : result database :=
  if delta.(amount) =? 0 then Ok d
  else
    match d.(d_balances) !! (account, delta.(asset_id)) with
    | None =>
        _ ← FC_ASSERT (0 <? delta.(amount));
        Ok (d <| d_balances ::= <[(account, delta.(asset_id)) :=
                AccountBalance delta.(amount) (delta.(asset_id) =? CORE)]> |>)
    | Some abo =>
        _ ← (if delta.(amount) <? 0 then
               minus_delta ← asset_neg delta;
               enough ← asset_ge (Asset abo.(abo_balance) delta.(asset_id)) minus_delta;
               FC_ASSERT enough
             else Ok tt);
        abo' ← abo_adjust_balance abo delta;
        Ok (d <| d_balances ::= <[(account, delta.(asset_id)) := abo']> |>)
    end.

(** [adjust_balance( account, -delta )] *)
Definition debit (d : database) (account : Z) (delta : asset) : result database :=
  minus_delta ← asset_neg delta;
  adjust_balance d account minus_delta.

(** ** Lazily created vesting balances *)

(** The vesting balance the deposit goes to, when the one given still fits. *)
Definition reusable_vbo (d : database) (ovbid : option Z) (req_vesting_seconds req_owner : Z) :
    result (option Z) :=
  match ovbid with
  | None => Ok None
  | Some vbid =>
      vbo ← index_get d.(d_vesting) vbid;
      match vbo.(vb_policy) with
      | cdd p =>
          Ok (if (vbo.(vb_owner) =? req_owner) && (p.(cdd_vesting_seconds) =? req_vesting_seconds)
              then Some vbid else None)
      | linear _ => Ok None
      end
  end.

Definition deposit_lazy_vesting (d : database) (ovbid : option Z) (amount req_vesting_seconds req_owner : Z)
    (require_vesting : bool) : result (option Z * database) :=
  if amount =? 0 then Ok (None, d)
  else
    let now := head_block_time d in
    fits ← reusable_vbo d ovbid req_vesting_seconds req_owner;
    match fits with
    | Some vbid =>
        i ← index_modify d.(d_vesting) vbid (λ vbo,
               if require_vesting then vbo_deposit vbo now (Asset amount CORE)
               else vbo_deposit_vested vbo now (Asset amount CORE));
        Ok (None, d <| d_vesting := i |>)
    | None =>
        let coin_seconds :=
          if require_vesting then 0 else uint128_of_int64 (to_int64 (amount * req_vesting_seconds)) in
        '(vbid, i) ← index_create d.(d_vesting)
          (VestingBalance req_owner (Asset amount CORE) (cdd (CddPolicy req_vesting_seconds coin_seconds 0 now)));
        Ok (Some vbid, d <| d_vesting := i |>)
    end.

(** ** Cashback *)

Definition is_blockchain_account (acct : Z) : bool :=
  (acct =? GRAPHENE_COMMITTEE_ACCOUNT) || (acct =? GRAPHENE_WITNESS_ACCOUNT) ||
  (acct =? GRAPHENE_RELAXED_COMMITTEE_ACCOUNT) || (acct =? GRAPHENE_NULL_ACCOUNT) ||
  (acct =? GRAPHENE_TEMP_ACCOUNT).

(** The debt is covered: pay the creditor (or burn, for a credit of the
    committee) and clear the credit. *)
Definition close_credit (d : database) (acct : Z) (stats : account_statistics_object) : result database :=
  d1 ← (if stats.(st_creditor) =? GRAPHENE_COMMITTEE_ACCOUNT then
          d1 ← sub_supply d 0 stats.(st_total_credit);
          Ok (push_applied_operation d1
                (credit_total_repay_op acct stats.(st_creditor) (Asset stats.(st_total_credit) CORE)))
        else
          rest ← safe_sub stats.(st_total_credit) stats.(st_credit_repaid);
          d1 ← adjust_balance d stats.(st_creditor) (Asset rest CORE);
          Ok (push_applied_operation d1
                (credit_total_repay_op acct stats.(st_creditor) (Asset rest CORE))));
  modify_statistics d1 acct (λ aso,
    Ok (aso <| st_allowed_to_repay := 0 |> <| st_total_credit := 0 |>
            <| st_credit_repaid := 0 |> <| st_creditor := 0 |>)).

(** The credit step: [None] when the whole amount was set aside for the debt,
    otherwise what is left of the amount. *)
Definition repay_credit (d : database) (acct amount : Z) : result (database * option Z) :=
  stats ← get_statistics d acct;
  if (0 <? stats.(st_total_credit)) && (HARDFORK_CWD5_TIME <=? head_block_time d) then
    credit ← safe_sub stats.(st_total_credit) stats.(st_allowed_to_repay);
    if amount <? credit then
      d1 ← modify_statistics d acct (λ aso,
             r ← safe_add aso.(st_allowed_to_repay) amount;
             Ok (aso <| st_allowed_to_repay := r |>));
      Ok (d1, None)
    else
      rest ← safe_sub amount credit;
      d1 ← close_credit d acct stats;
      Ok (d1, Some rest)
  else Ok (d, Some amount).

Definition deposit_cashback (d : database) (acct amount : Z) (require_vesting count_income : bool) :
    result database :=
  if amount =? 0 then Ok d
  else
    d1 ← (if count_income then
            modify_statistics d acct (λ aso,
              s ← safe_add aso.(st_current_month_income) amount;
              Ok (aso <| st_current_month_income := s |>))
          else Ok d);
    '(d2, rest) ← repay_credit d1 acct amount;
    match rest with
    | None => Ok d2
    | Some amount =>
        if is_blockchain_account acct then sub_supply d2 0 amount
        else
          acct_obj ← get_account d2 acct;
          '(new_vbid, d3) ← deposit_lazy_vesting d2 acct_obj.(acc_cashback_vb) amount
             d2.(d_gpo).(gpo_parameters).(cp_cashback_vesting_period_seconds) acct require_vesting;
          match new_vbid with
          | None => Ok d3
          | Some vbid =>
              d4 ← modify_account d3 acct (λ a, Ok (a <| acc_cashback_vb := Some vbid |>));
              modify_statistics d4 acct (λ aso, Ok (aso <| st_has_cashback_vb := true |>))
          end
    end.

(** ** Witness pay *)
Definition deposit_witness_pay (d : database) (wit amount : Z) : result database :=
  if amount =? 0 then Ok d
  else
    w ← index_get d.(d_witnesses) wit;
    '(new_vbid, d1) ← deposit_lazy_vesting d w.(wit_pay_vb) amount
        d.(d_gpo).(gpo_parameters).(cp_witness_pay_vesting_seconds) w.(wit_witness_account) true;
    match new_vbid with
    | None => Ok d1
    | Some vbid =>
        i ← index_modify d1.(d_witnesses) wit (λ w, Ok (w <| wit_pay_vb := Some vbid |>));
        Ok (d1 <| d_witnesses := i |>)
    end.

#[global] Arguments adjust_balance : simpl never.
#[global] Arguments debit : simpl never.

(** ** Lemmas *)

(** The balance of every account in every asset, after a change of one. *)
Lemma get_balance_insert d k abo o i :
  get_balance (d <| d_balances := <[k := abo]> d.(d_balances) |>) o i =
  if decide ((o, i) = k) then Asset abo.(abo_balance) i else get_balance d o i.
Proof.
  unfold get_balance. cbn. case_decide as E.
  - subst k. by rewrite lookup_insert_eq.
  - by rewrite lookup_insert_ne.
Qed.

Lemma get_balance_id d o i : (get_balance d o i).(asset_id) = i.
Proof. unfold get_balance. by case_match. Qed.

(** What a successful adjustment does, on all its branches. *)
Lemma adjust_balance_Ok d acc delta d' :
  adjust_balance d acc delta = Ok d' →
  d' = d ∧ delta.(amount) = 0 ∨
  ∃ abo, d' = d <| d_balances := <[(acc, delta.(asset_id)) := abo]> d.(d_balances) |> ∧
    abo.(abo_balance) = (get_balance d acc delta.(asset_id)).(amount) + delta.(amount) ∧
    (0 ≤ abo.(abo_balance) ∨ 0 < delta.(amount)).
Proof.
  unfold adjust_balance, get_balance. intros H. inv_ok; propify; [by left|right..].
  - match goal with H : asset_neg _ = Ok _ |- _ => apply asset_neg_Ok in H as -> end.
    match goal with H : asset_ge _ _ = Ok true |- _ => apply asset_ge_Ok in H as [_ ?] end.
    unfold abo_adjust_balance in *. inv_ok. inv_safe.
    eexists. split; [reflexivity|]. case_match; cbn in *; lia.
  - unfold abo_adjust_balance in *. inv_ok. inv_safe.
    eexists. split; [reflexivity|]. case_match; cbn in *; lia.
  - eexists. split; [reflexivity|]. cbn. lia.
Qed.

(** The balances after an adjustment, however it was made. *)
Lemma adjust_balance_get d acc delta d' o i :
  adjust_balance d acc delta = Ok d' →
  (get_balance d' o i).(amount) = (get_balance d o i).(amount)
    + (if decide ((o, i) = (acc, delta.(asset_id))) then delta.(amount) else 0).
Proof.
  intros H. apply adjust_balance_Ok in H as [[-> Hz]|(abo & -> & Hb & _)].
  - case_decide; lia.
  - rewrite get_balance_insert. case_decide as E; [injection E as -> ->; cbn|]; lia.
Qed.

Lemma get_balance_nonneg d o i : ledger_ok d → 0 ≤ (get_balance d o i).(amount).
Proof.
  intros [Hb _ _ _ _]. unfold get_balance. case_match eqn:E; cbn; [by apply (Hb _ _ E)|lia].
Qed.

Lemma msum_balance d acc i a abo :
  msum (balance_held a) (<[(acc, i) := abo]> d.(d_balances)) =
  msum (balance_held a) d.(d_balances)
    + at_id i a (abo.(abo_balance) - (get_balance d acc i).(amount)).
Proof.
  rewrite msum_insert. unfold get_balance. case_match; cbn; unfold balance_held; cbn;
    unfold at_id; repeat case_match; lia.
Qed.

#[export] Instance flows_adjust_balance d acc delta d' :
  Flows (adjust_balance d acc delta = Ok d') d d' (λ a, of_asset a delta).
Proof.
  intros H Hd. apply adjust_balance_Ok in H as [[-> Hz]|(abo & -> & Hb & Hpos)].
  - split; [done|]. intros a. flow_arith.
  - pose proof (get_balance_nonneg d acc delta.(asset_id) Hd). destruct Hd as [Hbal Hcr Hor Hfl Hlo]. split.
    + split; [|done..]. cbn. apply map_Forall_insert_2; [lia|done].
    + intros a. rewrite imb_balances, msum_balance, Hb. flow_arith.
Qed.

Lemma debit_Ok d acc delta d' :
  debit d acc delta = Ok d' → adjust_balance d acc (Asset (- delta.(amount)) delta.(asset_id)) = Ok d'.
Proof.
  unfold debit. intros H. inv_ok.
  by match goal with H : asset_neg _ = Ok _ |- _ => apply asset_neg_Ok in H as -> end.
Qed.

Lemma debit_get d acc x d' o i :
  debit d acc x = Ok d' →
  (get_balance d' o i).(amount) = (get_balance d o i).(amount) - (if decide ((o, i) = (acc, x.(asset_id))) then x.(amount) else 0).
Proof.
  unfold debit. intros H. apply bind_Ok in H as (m & Hm & H). apply asset_neg_Ok in Hm as ->. rewrite (adjust_balance_get _ _ _ _ _ _ H). cbn. case_decide; lia.
Qed.
Lemma same_balances d d' o i : d'.(d_balances) = d.(d_balances) → get_balance d' o i = get_balance d o i.
Proof. unfold get_balance. by intros ->. Qed.

(** Frames: the tables an operation writes. *)
Lemma adjust_balance_frame d acc delta d' :
  adjust_balance d acc delta = Ok d' → d' = d <| d_balances := d'.(d_balances) |>.
Proof. intros H. apply adjust_balance_Ok in H as [[-> _]|(? & -> & _)]; [by destruct d|done]. Qed.
Lemma debit_frame d acc delta d' :
  debit d acc delta = Ok d' → d' = d <| d_balances := d'.(d_balances) |>.
Proof. intros H. eapply adjust_balance_frame. by apply debit_Ok. Qed.
Lemma modify_statistics_frame d o f d' :
  modify_statistics d o f = Ok d' → d' = d <| d_statistics := d'.(d_statistics) |>.
Proof. intros H. by apply modify_statistics_Ok in H as (? & ? & _ & _ & ->). Qed.
Lemma modify_dynamic_data_frame d k f d' :
  modify_dynamic_data d k f = Ok d' → d' = d <| d_dynamic_data := d'.(d_dynamic_data) |>.
Proof. intros H. by apply modify_dynamic_data_Ok in H as (? & ? & _ & _ & ->). Qed.

#[export] Instance flows_debit d acc delta d' :
  Flows (debit d acc delta = Ok d') d d' (λ a, - of_asset a delta).
Proof. intros H. apply debit_Ok in H. solve_flow. Qed.

(** [keep_frame p L] records that the runs whose frame is [L] keep the table [p];
    [keep p] does so for the operations of this file. *)
Ltac keep_eq p H L d d' :=
  lazymatch goal with
  | _ : p d' = p d |- _ => fail
  | _ => let E := fresh "Hkeep" in pose proof (f_equal p (L _ _ _ _ H) : p d' = p d) as E
  end.
Ltac keep p :=
  repeat match goal with
  | H : adjust_balance ?d _ _ = Ok ?d' |- _ => keep_eq p H adjust_balance_frame d d'
  | H : debit ?d _ _ = Ok ?d' |- _ => keep_eq p H debit_frame d d'
  | H : modify_statistics ?d _ _ = Ok ?d' |- _ => keep_eq p H modify_statistics_frame d d'
  | H : modify_dynamic_data ?d _ _ = Ok ?d' |- _ => keep_eq p H modify_dynamic_data_frame d d'
  end.

(** Deposits add the amount, in the core asset. *)
Lemma vbo_deposit_Ok v now amt v' (vested : bool) :
  (if vested then vbo_deposit v now amt else vbo_deposit_vested v now amt) = Ok v' →
  v'.(vb_owner) = v.(vb_owner) ∧ v.(vb_balance).(asset_id) = amt.(asset_id) ∧
  v'.(vb_balance) = Asset (v.(vb_balance).(amount) + amt.(amount)) amt.(asset_id).
Proof.
  unfold vbo_deposit, vbo_deposit_vested, asset_add. intros H. inv_ok; propify; inv_safe; cbn;
    split_and!; congruence.
Qed.

#[export] Instance flows_deposit_lazy_vesting d o amt secs owner rv o' d' :
  Flows (deposit_lazy_vesting d o amt secs owner rv = Ok (o', d')) d d' (λ a, core_only a amt).
Proof.
  intros H. unfold deposit_lazy_vesting in H. inv_ok; propify; subst; [solve_flow|..].
  - match goal with H : index_modify _ _ _ = Ok _ |- _ =>
      apply index_modify_Ok in H as (v & v' & Hv & Hd & ->) end.
    apply vbo_deposit_Ok in Hd as (_ & Hid & Hb). apply flow_vesting. intros a.
    rewrite (isum_modify _ _ _ _ _ Hv), Hb. unfold of_asset. cbn in *. rewrite Hid. flow_arith.
  - match goal with H : index_create _ _ = Ok _ |- _ => apply index_create_Ok in H as (-> & Hn & ->) end.
    apply flow_vesting. intros a. rewrite isum_create by done. flow_arith.
Qed.

(** Closing a credit pays out what was set aside, and what is missing. *)
Lemma flow_close_credit d acct stats d' :
  get_statistics d acct = Ok stats → close_credit d acct stats = Ok d' →
  flow d d' (λ a, core_only a (stats.(st_total_credit) - stats.(st_allowed_to_repay))).
Proof.
  intros Hs H Hd. pose proof Hd as [_ Hcr _ _ _]. apply from_option_Ok in Hs.
  destruct (Hcr _ _ Hs) as [_ Hcom]. cbv beta in Hcom.
  set (clear := λ aso, Ok (aso <| st_allowed_to_repay := 0 |> <| st_total_credit := 0 |>
                            <| st_credit_repaid := 0 |> <| st_creditor := 0 |>)) in H.
  assert (∀ d1, d1.(d_statistics) = d.(d_statistics) → modify_statistics d1 acct clear = Ok d' →
          flow d1 d' (λ a, core_only a (stats.(st_credit_repaid) - stats.(st_allowed_to_repay)))) as Hclear.
  { intros d1 Hd1 Hm. apply (flow_modify_statistics_at _ _ _ _ _ Hm).
    rewrite Hd1. intros s s' Hs1 _ Hs'. same_ok. unfold clear in Hs'. inv_ok.
    split; [by split|]. unfold stat_held. cbn. lia. }
  revert Hd. change (flow d d' (λ a, core_only a (stats.(st_total_credit) - stats.(st_allowed_to_repay)))).
  unfold close_credit in H. inv_ok; propify.
  - specialize (Hcom ltac:(done)).
    match goal with Hm : modify_statistics (push_applied_operation ?d1 ?op) _ _ = _ |- _ =>
      pose proof (flow_push d1 op); apply Hclear in Hm end.
    + solve_flow.
    + match goal with H : sub_supply _ _ _ = Ok _ |- _ => apply modify_dynamic_data_Ok in H as (?&?&?&?&->) end. done.
  - match goal with Hm : modify_statistics (push_applied_operation ?d1 ?op) _ _ = _ |- _ =>
      pose proof (flow_push d1 op); apply Hclear in Hm end.
    + inv_safe. solve_flow.
    + match goal with H : adjust_balance _ _ _ = Ok _ |- _ =>
        apply adjust_balance_Ok in H as [[-> _]|(?&->&_)] end; done.
Qed.

(** Whatever part of the amount goes to a credit stays in the books. *)
Lemma flow_repay_credit d acct amt d' rest :
  repay_credit d acct amt = Ok (d', rest) → flow d d' (λ a, core_only a (amt - default 0 rest)).
Proof.
  unfold repay_credit. intros H. apply bind_Ok in H as (stats & Hs & H). inv_ok; propify.
  - match goal with Hm : modify_statistics _ _ _ = Ok _ |- _ =>
      apply (flow_modify_statistics_at _ _ _ _ _ Hm) end.
    intros s s' Hs' Hwf Hf. apply from_option_Ok in Hs. same_ok. inv_ok. inv_safe.
    destruct Hwf as [? ?]. split; [split; cbn; lia|]. unfold stat_held. cbn. lia.
  - match goal with Hm : close_credit _ _ _ = Ok _ |- _ =>
      pose proof (flow_close_credit _ _ _ _ Hs Hm) as F end.
    inv_safe. apply (flow_ext _ _ _ _ F). flow_arith.
  - eapply flow_ext; [apply flow_refl|]. flow_arith.
Qed.

#[export] Instance flows_deposit_cashback d acct amt rv ci d' :
  Flows (deposit_cashback d acct amt rv ci = Ok d') d d' (λ a, core_only a amt).
Proof.
  intros H. unfold deposit_cashback in H.
  destruct (Z.eqb_spec amt 0) as [->|]; [inv_ok; solve_flow|].
  apply bind_Ok in H as (d1 & H1 & H).
  assert (flow d d1 (λ _, 0)) as F1 by (clear H; destruct ci; inv_ok; solve_flow).
  clear H1. apply bind_Ok in H as ([d2 rest] & H2 & H). apply flow_repay_credit in H2.
  destruct rest as [rest|]; cbn in *; inv_ok; solve_flow.
Qed.

#[export] Instance flows_deposit_witness_pay d wit amt d' :
  Flows (deposit_witness_pay d wit amt = Ok d') d d' (λ a, core_only a amt).
Proof.
  intros H. unfold deposit_witness_pay in H. inv_ok; propify; subst; [solve_flow| |solve_flow].
  match goal with |- flow d (over d_witnesses (λ _, ?i) ?d1) _ =>
    pose proof (flow_witnesses d1 i) as F end.
  solve_flow.
Qed.

(** ** What no deposit changes

    The parameters and the clock of the chain, of the accounts everything but
    the link to the cashback balance, and the fees that are still to be paid out. *)
Definition standing (a : account_object) : account_object := a <| acc_cashback_vb := None |>.
Definition standings (d : database) : gmap Z account_object := standing <$> d.(d_accounts).(objs).

Definition pending (s : account_statistics_object) : Z * Z := (s.(st_pending_fees), s.(st_pending_vested_fees)).
Definition pendings (d : database) : gmap Z (Z * Z) := pending <$> d.(d_statistics).

Definition same_globals (d d' : database) : Prop :=
  d'.(d_gpo) = d.(d_gpo) ∧ d'.(d_dgpo) = d.(d_dgpo) ∧ standings d' = standings d ∧ pendings d' = pendings d ∧
  d'.(d_flipcoins) = d.(d_flipcoins).

Class KeepsPending (f : account_statistics_object → result account_statistics_object) : Prop :=
  keeps_pending : ∀ s s', f s = Ok s' → pending s' = pending s.
#[export] Hint Extern 0 (KeepsPending _) =>
  let s := fresh "s" in let H := fresh "H" in
  intros s ? H; cbn beta in H; inv_ok; reflexivity : typeclass_instances.
Class Globals (P : Prop) (d d' : database) : Prop := globals : P → same_globals d d'.
#[export] Hint Mode Globals + - - : typeclass_instances.

#[export] Instance same_globals_preorder : PreOrder same_globals.
Proof. split; [done|]. intros d1 d2 d3 (? & ? & ? & ? & ?) (? & ? & ? & ? & ?). split_and!; congruence. Qed.

Ltac solve_globals :=
  repeat match goal with
  | H : ?P |- _ => lazymatch P with _ = Ok _ => idtac end; apply (globals (P:=P)) in H
  end;
  unfold same_globals, standings, pendings, push_applied_operation in *; destruct_and?; cbn in *; split_and!; congruence.

#[export] Instance globals_adjust_balance d acc delta d' : Globals (adjust_balance d acc delta = Ok d') d d'.
Proof. intros H. by rewrite (adjust_balance_frame _ _ _ _ H). Qed.
#[export] Instance globals_debit d acc delta d' : Globals (debit d acc delta = Ok d') d d'.
Proof. intros H. by rewrite (debit_frame _ _ _ _ H). Qed.
#[export] Instance globals_modify_statistics d o f d' `{!KeepsPending f} :
  Globals (modify_statistics d o f = Ok d') d d'.
Proof.
  intros H. apply modify_statistics_Ok in H as (s & s' & Hs & Hf & ->). split_and!; [done..| |done].
  unfold pendings. cbn. rewrite fmap_insert, (keeps_pending _ _ Hf). apply insert_id. by rewrite lookup_fmap, Hs.
Qed.
#[export] Instance globals_modify_dynamic_data d k f d' : Globals (modify_dynamic_data d k f = Ok d') d d'.
Proof. intros H. by rewrite (modify_dynamic_data_frame _ _ _ _ H). Qed.
#[export] Instance globals_sub_supply d k z d' : Globals (sub_supply d k z = Ok d') d d'.
Proof. apply globals_modify_dynamic_data. Qed.
#[export] Instance globals_add_supply d k z d' : Globals (add_supply d k z = Ok d') d d'.
Proof. apply globals_modify_dynamic_data. Qed.
#[export] Instance globals_add_fees d k z d' : Globals (add_accumulated_fees d k z = Ok d') d d'.
Proof. apply globals_modify_dynamic_data. Qed.
#[export] Instance globals_modify_cashback_vb d o v d' :
  Globals (modify_account d o (λ a, Ok (a <| acc_cashback_vb := v |>)) = Ok d') d d'.
Proof.
  intros H. apply modify_account_Ok in H as (a & a' & Ha & [= <-] & ->). split_and!; [done..| |done|done].
  unfold standings. cbn. rewrite fmap_insert. apply insert_id. by rewrite lookup_fmap, Ha.
Qed.
#[export] Instance globals_deposit_lazy_vesting d o amt secs owner rv o' d' :
  Globals (deposit_lazy_vesting d o amt secs owner rv = Ok (o', d')) d d'.
Proof. intros H. unfold deposit_lazy_vesting in H. inv_ok; solve_globals. Qed.
#[export] Instance globals_repay_credit d acct amt d' rest :
  Globals (repay_credit d acct amt = Ok (d', rest)) d d'.
Proof. intros H. unfold repay_credit, close_credit in H. inv_ok; solve_globals. Qed.
#[export] Instance globals_deposit_cashback d acct amt rv ci d' :
  Globals (deposit_cashback d acct amt rv ci = Ok d') d d'.
Proof. intros H. unfold deposit_cashback in H. inv_ok; solve_globals. Qed.

(** The adjustments that succeed, and the balances they leave. *)
Lemma adjust_balance_total d acc delta :
  let b := (get_balance d acc delta.(asset_id)).(amount) + delta.(amount) in
  in_int64 (get_balance d acc delta.(asset_id)).(amount) → 0 ≤ b ≤ int64_max →
  in_int64 delta.(amount) →
  ∃ d', adjust_balance d acc delta = Ok d' ∧
    ∀ o i, get_balance d' o i =
      if decide ((o, i) = (acc, delta.(asset_id))) then Asset b i else get_balance d o i.
Proof.
  intros b Hb Hr Hdelta. subst b. unfold adjust_balance.
  destruct (Z.eqb_spec delta.(amount) 0) as [Hz|Hz].
  { exists d. split; [done|]. intros o i. case_decide as E; [|done]. injection E as -> ->.
    rewrite Hz, Z.add_0_r. pose proof (get_balance_id d acc delta.(asset_id)).
    by destruct (get_balance d acc delta.(asset_id)); cbn in *; subst. }
  unfold get_balance in Hb, Hr |- * at 1. destruct (d.(d_balances) !! _) as [abo|] eqn:Hl; cbn in Hb, Hr.
  - assert ((if delta.(amount) <? 0 then
               minus_delta ← asset_neg delta;
               enough ← asset_ge (Asset abo.(abo_balance) delta.(asset_id)) minus_delta;
               FC_ASSERT enough
             else Ok tt) = Ok tt) as ->.
    { destruct (Z.ltb_spec delta.(amount) 0); [|done]. unfold asset_neg, safe_neg.
      destruct (Z.eqb_spec delta.(amount) int64_min); [solve_int64|]. cbn [mbind result_bind].
      unfold asset_ge, asset_lt. cbn. rewrite Z.eqb_refl. cbn.
      destruct (Z.ltb_spec abo.(abo_balance) (- delta.(amount))); [lia|done]. }
    cbn [mbind result_bind]. unfold abo_adjust_balance. rewrite safe_add_in by solve_int64.
    cbn [mbind result_bind]. eexists. split; [done|]. intros o i.
    etransitivity; [apply get_balance_insert|]. case_decide as E; [|done]. injection E as -> ->.
    unfold get_balance. rewrite Hl. by case_match.
  - destruct (Z.ltb_spec 0 delta.(amount)); [|lia]. cbn [FC_ASSERT GRAPHENE_ASSERT mbind result_bind].
    eexists. split; [done|]. intros o i. etransitivity; [apply get_balance_insert|].
    case_decide as E; [|done]. injection E as -> ->.
    unfold get_balance. by rewrite Hl.
Qed.

Lemma adjust_balance_Err d acc delta :
  let b := (get_balance d acc delta.(asset_id)).(amount) + delta.(amount) in
  0 ≤ (get_balance d acc delta.(asset_id)).(amount) ≤ int64_max → in_int64 delta.(amount) →
  b < 0 ∨ int64_max < b → ∃ e, adjust_balance d acc delta = Err e.
Proof.
  intros b Hb Hd Hr. destruct (adjust_balance d acc delta) as [d'|e] eqn:H; [|by exists e]. exfalso.
  subst b. unfold adjust_balance, get_balance in *.
  destruct (d.(d_balances) !! _) eqn:Hl; cbn in *; inv_ok; propify; try solve_int64.
  - match goal with H : asset_neg _ = Ok _ |- _ => apply asset_neg_Ok in H as -> end.
    match goal with H : asset_ge _ _ = Ok true |- _ => apply asset_ge_Ok in H as [_ ?] end. cbn in *. lia.
  - unfold abo_adjust_balance, safe_add in *. inv_ok; propify; cbn in *; try done; lia.
Qed.

Lemma debit_total d acc delta :
  let b := (get_balance d acc delta.(asset_id)).(amount) - delta.(amount) in
  in_int64 (get_balance d acc delta.(asset_id)).(amount) → 0 ≤ b ≤ int64_max → 0 ≤ delta.(amount) ≤ int64_max →
  ∃ d', debit d acc delta = Ok d' ∧
    ∀ o i, get_balance d' o i =
      if decide ((o, i) = (acc, delta.(asset_id))) then Asset b i else get_balance d o i.
Proof.
  intros b Hb Hr Hd. unfold debit, asset_neg, safe_neg.
  destruct (Z.eqb_spec delta.(amount) int64_min); [solve_int64|]. cbn [mbind result_bind].
  apply (adjust_balance_total d acc (Asset (- delta.(amount)) delta.(asset_id))); cbn; solve_int64.
Qed.

(** ** Properties of balances *)

(** C22. [adjust_balance] is exact: it succeeds if and only if the new balance
    fits between zero and the largest 64-bit amount, then changes the balance
    of that account in that asset by the requested amount and no other
    balance, and it never leaves a negative balance behind. *)
Theorem adjust_balance_correct d acc delta
  (Hd : ledger_ok d) (Hb : (get_balance d acc delta.(asset_id)).(amount) ≤ int64_max)
  (Hdelta : in_int64 delta.(amount)) :
  let b := (get_balance d acc delta.(asset_id)).(amount) + delta.(amount) in
  if decide (0 ≤ b ≤ int64_max) then
    ∃ d', adjust_balance d acc delta = Ok d' ∧ ledger_ok d' ∧
      ∀ o i, get_balance d' o i =
        if decide ((o, i) = (acc, delta.(asset_id))) then Asset b i else get_balance d o i
  else ∃ e, adjust_balance d acc delta = Err e.
Proof.
  intros b. pose proof (get_balance_nonneg d acc delta.(asset_id) Hd). case_decide as Hr.
  - destruct (adjust_balance_total d acc delta) as (d' & H1 & H2); [solve_int64|done|done|].
    exists d'. split; [done|]. split; [|done]. by apply (flows H1 Hd).
  - apply adjust_balance_Err; [lia|done|lia].
Qed.

(** A cashback deposit of any size, to any account, in any credit state,
    puts exactly its amount into the books of the core asset: what it credits,
    sets aside for the debt, pays to the creditor or burns adds up. *)
Theorem deposit_cashback_accounted d acct amt require_vesting count_income d'
  (Hd : ledger_ok d) (H : deposit_cashback d acct amt require_vesting count_income = Ok d') :
  ledger_ok d' ∧ ∀ a, imbalance d' a = imbalance d a + (if CORE =? a then amt else 0).
Proof. exact (flows H Hd). Qed.

(** ** Termination *)
Lemma terminates_adjust_balance d acc delta : terminates (adjust_balance d acc delta).
Proof. unfold adjust_balance, abo_adjust_balance. solve_terminates. Qed.
Lemma terminates_sub_supply d k z : terminates (sub_supply d k z).
Proof. unfold sub_supply. apply terminates_modify_dynamic_data. intros s. solve_terminates. Qed.
#[export] Hint Resolve terminates_adjust_balance terminates_sub_supply : terminates.
