(* ===== verification/Evaluator.v ===== *)
(** * Evaluating an operation

    [evaluator.hpp] and [evaluator.cpp]: the template every operation goes
    through.  The fee is prepared and checked, [do_evaluate] checks the
    operation, the fee is converted through the pool of its asset and paid
    into the statistics of the fee payer, [do_apply] changes the state, and
    the fee is taken from the payer's balance.  [is_authorized_asset] is the
    white-list check the fee and the transfers share.

    The class [Evaluator] is the interface of an operation; [Conserving]
    states what a component promises about its operations, and the theorem of
    this file shows that the template then keeps the books balanced. *)
From S2P Require Import Prelude Safe Asset Objects Database Ledger Balance.

(** ** is_authorized_asset *)
Definition white_list : Z := 2.

Definition _is_authorized_asset (d : database) (acct : account_object) (id : Z) (asset_obj : asset_object) : bool :=
  if match acct.(acc_allowed_assets) with Some s => negb (bool_decide (id ∈ s)) | None => false end
  then false
  else if existsb (λ id, bool_decide (id ∈ asset_obj.(ao_blacklist_authorities)))
            (elements acct.(acc_blacklisting_accounts))
  then false
  else if (HARDFORK_415_TIME <? head_block_time d)
            && (Z.of_nat (size asset_obj.(ao_whitelist_authorities)) =? 0)
  then true
  else existsb (λ id, bool_decide (id ∈ asset_obj.(ao_whitelist_authorities)))
         (elements acct.(acc_whitelisting_accounts)).

Definition is_authorized_asset (d : database) (acct : account_object) (id : Z) (asset_obj : asset_object) : bool :=
  let fast_check := (Z.land asset_obj.(ao_flags) white_list =? 0)
                    && match acct.(acc_allowed_assets) with Some _ => false | None => true end in
  if fast_check then true else _is_authorized_asset d acct id asset_obj.

(** ** The interface of an operation *)
Class Evaluator (OP : Type) : Type := {
  fee_payer : OP → Z;
  fee : OP → asset;
  validate : OP → result unit;
  do_evaluate : database → OP → result unit;
  do_apply : database → OP → result database }.

Record transaction_evaluation_state : Type := EvaluationState {
  skip_fee : bool;
  skip_fee_schedule_check : bool }.

(** ** Fees *)

(** Returns [core_fee_paid]. *)
Definition prepare_fee (d : database) (account_id : Z) (fee : asset) : result Z :=
  _ ← FC_ASSERT (0 <=? fee.(amount));
  acct ← get_account d account_id;
  _ ← get_statistics d account_id;
  fee_asset ← get_asset d fee.(asset_id);
  fee_asset_dyn_data ← get_dynamic_data d fee_asset.(ao_dynamic_asset_data_id);
  _ ← (if HARDFORK_419_TIME <? head_block_time d
       then FC_ASSERT (is_authorized_asset d acct fee.(asset_id) fee_asset) else Ok tt);
  if fee.(asset_id) =? CORE then Ok fee.(amount)
  else
    fee_from_pool ← asset_mul fee fee_asset.(ao_core_exchange_rate);
    _ ← FC_ASSERT (fee_from_pool.(asset_id) =? CORE);
    _ ← FC_ASSERT (fee_from_pool.(amount) <=? fee_asset_dyn_data.(dd_fee_pool));
    Ok fee_from_pool.(amount).

Definition convert_fee (st : transaction_evaluation_state) (d : database) (fee : asset) (core_fee_paid : Z) :
    result database :=
  if st.(skip_fee) then Ok d
  else if fee.(asset_id) =? CORE then Ok d
  else
    fee_asset ← get_asset d fee.(asset_id);
    modify_dynamic_data d fee_asset.(ao_dynamic_asset_data_id) (λ x,
      acc ← safe_add x.(dd_accumulated_fees) fee.(amount);
      pool ← safe_sub x.(dd_fee_pool) core_fee_paid;
      Ok (x <| dd_accumulated_fees := acc |> <| dd_fee_pool := pool |>)).

(** [account_statistics_object::pay_fee] *)
Definition stat_pay_fee (core_fee : Z) (s : account_statistics_object) : result account_statistics_object :=
  p ← safe_add s.(st_pending_vested_fees) core_fee;
  Ok (s <| st_pending_vested_fees := p |>).

Definition pay_fee (st : transaction_evaluation_state) (d : database) (payer core_fee_paid : Z) : result database :=
  if st.(skip_fee) then Ok d else modify_statistics d payer (stat_pay_fee core_fee_paid).

(** ** The template *)
Section template.
Context {OP : Type} `{!Evaluator OP}.

(** [evaluator::evaluate]; the fee schedule is the argument [required_fee]. *)
Definition evaluate (st : transaction_evaluation_state) (required_fee : Z) (d : database) (op : OP) : result Z :=
  core_fee_paid ← prepare_fee d (fee_payer op) (fee op);
  _ ← (if st.(skip_fee_schedule_check) then Ok tt
       else GRAPHENE_ASSERT (required_fee <=? core_fee_paid) insufficient_fee);
  _ ← do_evaluate d op;
  Ok core_fee_paid.

(** [evaluator::apply] *)
Definition apply (st : transaction_evaluation_state) (d : database) (op : OP) (core_fee_paid : Z) : result database :=
  d1 ← convert_fee st d (fee op) core_fee_paid;
  d2 ← pay_fee st d1 (fee_payer op) core_fee_paid;
  d3 ← do_apply d2 op;
  debit d3 (fee_payer op) (fee op).

(** [generic_evaluator::start_evaluate] with [apply] set, after the
    operation's own [validate] has passed. *)
Definition start_evaluate (st : transaction_evaluation_state) (required_fee : Z) (d : database) (op : OP) :
    result database :=
  _ ← validate op;
  core_fee_paid ← evaluate st required_fee d op;
  apply st d op core_fee_paid.
End template.

(** ** What the fee changes before [do_apply] runs *)
Definition same_but_fees (d d1 : database) : Prop :=
  ∃ m1 m2, d1 = d <| d_statistics := m1 |> <| d_dynamic_data := m2 |> ∧
    ∀ o s1, m1 !! o = Some s1 →
      ∃ s p, d.(d_statistics) !! o = Some s ∧ s1 = s <| st_pending_vested_fees := p |>.

(** The dynamic data of an asset carries the asset's own instance number,
    symbols are unique: only the core asset is called CWD, and the market fee is a
    percentage with a maximum; no expired transfer is left after a block; an asset
    that is not settled has no settlement fund, a margin position is backed by the
    backing asset of its debt, the chain is past the hard fork of 2018 that
    corrected the rounding of the market, and the data of a bitasset name their asset
    and settle it in its backing asset. *)
Definition market_fee_ok (a : asset_object) : Prop :=
  0 ≤ a.(ao_market_fee_percent) ≤ GRAPHENE_100_PERCENT ∧ 0 ≤ a.(ao_max_market_fee).
Definition assets_ok (d : database) : Prop :=
  map_Forall (λ id a, a.(ao_dynamic_asset_data_id) = id ∧ (a.(ao_symbol) = "CWD" → id = CORE) ∧ market_fee_ok a)
    d.(d_assets).(objs).

Definition funds_ok (d : database) : Prop :=
  map_Forall (λ _ b, has_settlement b = false → b.(bd_settlement_fund) = 0) d.(d_bitasset_data).(objs).
Definition backing_of (d : database) (a : Z) : option Z :=
  o ← d.(d_assets).(objs) !! a; i ← o.(ao_bitasset_data_id); b ← d.(d_bitasset_data).(objs) !! i;
  Some b.(bd_options).(bo_short_backing_asset).
Definition backed (d : database) : Prop :=
  map_Forall (λ _ c, backing_of d (debt_type c) = Some (collateral_type c)) d.(d_call_orders).(objs).

Definition modern (d : database) : Prop := HARDFORK_CORE_342_TIME < next_maintenance_time d.
#[export] Instance modern_dec d : Decision (modern d).
Proof. unfold modern. apply _. Defined.

Definition settled_price_ok (b : asset_bitasset_data_object) : Prop :=
  has_settlement b = true →
  b.(bd_settlement_price).(base).(asset_id) = b.(bd_asset_id) ∧ b.(bd_settlement_price).(quote).(asset_id) = b.(bd_options).(bo_short_backing_asset).
#[export] Instance settled_price_ok_dec b : Decision (settled_price_ok b).
Proof. unfold settled_price_ok. apply _. Defined.
Definition bitasset_of (d : database) (o : asset_object) : option asset_bitasset_data_object :=
  i ← o.(ao_bitasset_data_id); d.(d_bitasset_data).(objs) !! i.
Definition link_ok (d : database) (a : Z) (o : asset_object) : Prop :=
  match bitasset_of d o with Some b => b.(bd_asset_id) = a ∧ settled_price_ok b | None => True end.
#[export] Instance link_ok_dec d a o : Decision (link_ok d a o).
Proof. unfold link_ok. destruct (bitasset_of d o); apply _. Defined.
Definition linked (d : database) : Prop := map_Forall (link_ok d) d.(d_assets).(objs).

Record chain_ok (d : database) : Prop := {
  co_assets : assets_ok d;
  co_transfers : map_Forall (λ _ t, t.(at_status) ≠ 2) d.(d_approved_transfers).(objs);
  co_funds : funds_ok d;
  co_backed : backed d;
  co_modern : modern d;
  co_linked : linked d }.

Class Conserving (OP : Type) `{!Evaluator OP} : Prop :=
  conserving : ∀ d d1 (op : OP) d', chain_ok d → same_but_fees d d1 →
    validate op = Ok tt → do_evaluate d op = Ok tt → do_apply d1 op = Ok d' → conserves d1 d'.

(** The operation leaves the chain such that the next one conserves value too,
    and the clock where it is. *)
Definition clock (d : database) : Z * Z := (head_block_time d, next_maintenance_time d).
Class Steady (OP : Type) `{!Evaluator OP} : Prop :=
  steady : ∀ d d1 (op : OP) d', chain_ok d → same_but_fees d d1 →
    validate op = Ok tt → do_evaluate d op = Ok tt → do_apply d1 op = Ok d' → chain_ok d' ∧ clock d' = clock d1.

(** An operation that passes its checks, on the state the fee leaves. *)
Definition performs {OP} `{!Evaluator OP} (d : database) (op : OP) (d' : database) : Prop :=
  ∃ d1, same_but_fees d d1 ∧ validate op = Ok tt ∧ do_evaluate d op = Ok tt ∧ do_apply d1 op = Ok d'.

(** ** Lemmas *)
Lemma performs_run {OP} `{!Evaluator OP} d (op : OP) d' :
  validate op = Ok tt → do_evaluate d op = Ok tt → do_apply d op = Ok d' → performs d op d'.
Proof.
  intros H1 H2 H3. exists d. split; [|done]. exists d.(d_statistics), d.(d_dynamic_data). split; [by destruct d|].
  intros o s Hs. exists s, s.(st_pending_vested_fees). split; [done|]. by destruct s.
Qed.
Lemma fee_chain_ok d d1 : same_but_fees d d1 → chain_ok d → chain_ok d1.
Proof. intros (m1 & m2 & -> & _) [A B C D E F]. split; [exact A|exact B|exact C|exact D|exact E|exact F]. Qed.

Lemma convert_fee_flow st d f c d1 :
  assets_ok d → skip_fee st = false → convert_fee st d f c = Ok d1 →
  (f.(asset_id) = CORE → c = f.(amount)) →
  flow d d1 (λ a, of_asset a f - core_only a c) ∧ d1 = d <| d_dynamic_data := d1.(d_dynamic_data) |>.
Proof.
  intros Ha Hst H Hcore. unfold convert_fee in H. rewrite Hst in H. inv_ok; propify.
  - specialize (Hcore ltac:(done)). subst. split; [|by destruct d1].
    eapply flow_ext; [apply flow_refl|]. flow_arith.
  - match goal with H : get_asset _ _ = Ok _ |- _ => apply index_get_Ok in H; apply Ha in H as [H _]; cbn in H; rewrite H in * end.
    split.
    + eapply flow_modify_dynamic_data; [done|]. solve_dyn.
    + match goal with H : modify_dynamic_data _ _ _ = Ok _ |- _ =>
        apply modify_dynamic_data_Ok in H as (?&?&?&?&->) end. done.
Qed.

Lemma pay_fee_flow st d p c d1 :
  skip_fee st = false → pay_fee st d p c = Ok d1 →
  flow d d1 (λ a, core_only a c) ∧ same_but_fees d d1.
Proof.
  intros Hst H. unfold pay_fee in H. rewrite Hst in H. split.
  - eapply flow_modify_statistics; [done|]. intros s s' Hwf Hs.
    unfold stat_pay_fee in Hs. inv_ok. inv_safe. split; [exact Hwf|unfold stat_held; cbn; lia].
  - apply modify_statistics_Ok in H as (s & s' & Hs & Hs' & ->). unfold stat_pay_fee in Hs'. inv_ok.
    exists (<[p := s <| st_pending_vested_fees := x |>]> d.(d_statistics)), d.(d_dynamic_data).
    split; [done|]. intros o s1 Ho. apply lookup_insert_Some in Ho as [[<- <-]|[_ Ho]]; [eauto|].
    exists s1, s1.(st_pending_vested_fees). by destruct s1.
Qed.

Lemma prepare_fee_Ok d p f c :
  prepare_fee d p f = Ok c → 0 ≤ f.(amount) ∧ (f.(asset_id) = CORE → c = f.(amount)).
Proof. unfold prepare_fee. intros H. inv_ok; propify; split; try done; congruence. Qed.

(** The fee leaves the tables the operations work on alone. *)
Section same_but_fees.
Context (d d1 : database) (H : same_but_fees d d1).

Lemma sbf_table {T} (p : database → T) :
  (∀ d m, p (d <| d_statistics := m |>) = p d) → (∀ d m, p (d <| d_dynamic_data := m |>) = p d) →
  p d1 = p d.
Proof using H. intros H1 H2. destruct H as (m1 & m2 & -> & _). by rewrite H2, H1. Qed.

Lemma sbf_statistics o s1 :
  get_statistics d1 o = Ok s1 →
  ∃ s p, get_statistics d o = Ok s ∧ s1 = s <| st_pending_vested_fees := p |>.
Proof using H.
  destruct H as (m1 & m2 & -> & Hs). intros Ho. apply from_option_Ok in Ho. cbn in Ho.
  destruct (Hs _ _ Ho) as (s & p & Hl & ->). exists s, p. split; [|done]. by apply from_option_Ok.
Qed.
End same_but_fees.

(** [sbf f Hs]: the accessor [f] sees the same before and after the fee. *)
Ltac sbf p Hs := pose proof (sbf_table _ _ Hs p (λ _ _, eq_refl) (λ _ _, eq_refl)).

(** Opens the conservation of an operation. *)
Ltac open_conserving :=
  let d := fresh "d" in let d1 := fresh "d1" in let op := fresh "op" in let d' := fresh "d'" in
  let Ha := fresh "Ha" in let Hval := fresh "Hval" in let Heval := fresh "Heval" in
  let H := fresh "H" in let Hst := fresh "Hst" in
  intros d d1 op d' Ha Hst Hval Heval H; unfold conserves; cbn in Hval, Heval, H.

Lemma same_but_fees_dyn d m d2 :
  same_but_fees (d <| d_dynamic_data := m |>) d2 → same_but_fees d d2.
Proof. intros (m1 & m2 & -> & H). by exists m1, m2. Qed.

(** The fee comes into the books before the operation runs, and out of the payer's balance after it. *)
Lemma start_evaluate_Ok {OP} `{!Evaluator OP} st req d op d' :
  skip_fee st = false → assets_ok d → start_evaluate st req d op = Ok d' →
  ∃ d2 d3, flow d d2 (λ a, of_asset a (fee op)) ∧ same_but_fees d d2 ∧ validate op = Ok tt ∧ do_evaluate d op = Ok tt ∧
    do_apply d2 op = Ok d3 ∧ debit d3 (fee_payer op) (fee op) = Ok d'.
Proof.
  intros Hst Ha H. unfold start_evaluate, evaluate, apply in H.
  apply bind_Ok in H as ([] & Hval & H). apply bind_Ok in H as (c & He & H).
  apply bind_Ok in He as (c' & Hp & He). apply bind_Ok in He as (? & _ & He).
  apply bind_Ok in He as ([] & Heval & He). apply Ok_inj in He as ->.
  apply bind_Ok in H as (d1 & H1 & H). apply bind_Ok in H as (d2 & H2 & H).
  apply bind_Ok in H as (d3 & H3 & H4).
  apply prepare_fee_Ok in Hp as [_ Hcore].
  destruct (convert_fee_flow _ _ _ _ _ Ha Hst H1 Hcore) as [F1 E1].
  destruct (pay_fee_flow _ _ _ _ _ Hst H2) as [F2 S2].
  rewrite E1 in S2. apply same_but_fees_dyn in S2. exists d2, d3. split; [|done].
  eapply flow_ext; [exact (flow_trans _ _ _ _ _ F1 F2)|]. intros a. cbn beta. lia.
Qed.
Lemma start_evaluate_flow {OP} `{!Evaluator OP, !Conserving OP} st req d op d' :
  skip_fee st = false → chain_ok d → start_evaluate st req d op = Ok d' → conserves d d'.
Proof.
  intros Hst Ha H. apply start_evaluate_Ok in H as (d2 & d3 & F2 & S2 & Hval & Heval & H3 & H4); [|done|by apply co_assets].
  pose proof (conserving _ _ _ _ Ha S2 Hval Heval H3) as F3. apply (flows (P := debit _ _ _ = Ok _)) in H4.
  eapply flow_ext; [exact (flow_trans _ _ _ _ _ F2 (flow_trans _ _ _ _ _ F3 H4))|]. intros a. cbn beta. lia.
Qed.

(** ** Property of the template *)

(** C1. Every operation whose own effect conserves value is evaluated and
    applied, its fee converted, paid and charged, without creating or
    destroying value: if the books of every asset balance before, they balance
    after. *)
Theorem start_evaluate_balanced {OP} `{!Evaluator OP, !Conserving OP} st req d op d'
  (Hst : skip_fee st = false) (Ha : chain_ok d) (Hd : ledger_ok d) (Hb : balanced d)
  (H : start_evaluate st req d op = Ok d') :
  ledger_ok d' ∧ balanced d'.
Proof.
  pose proof (start_evaluate_flow st req d op d' Hst Ha H) as F.
  split; [by apply F|]. by eapply flow_balanced.
Qed.
