(* ===== verification/Sample.v ===== *)
(** * A concrete chain state

    A small database on which the theorems of the library are instantiated:
    the blockchain's own accounts, three users, the core asset, a user-issued
    asset (instance 1 is the GCWD of the source) and funds for the users. *)
From S2P Require Import Prelude Safe Asset Authority Objects Database Ledger.

Definition sample_account (referrer : Z) : account_object :=
  Account referrer ∅ ∅ ∅ None None 8 4 0 4000000000 10000 None
    (AuthorityOf 1 [] [(1, 1)] []) (AuthorityOf 1 [] [(2, 1)] []) 4294967295 false 0
    (AccountOptions 5 0 0 ∅).

Definition sample_parameters : chain_parameters :=
  ChainParameters 7776000 1000 86400 [5000; 1000; 500; 500; 500; 500; 500; 500] [10; 3; 5; 7; 8]
    [10000; 7000; 8000; 9000; 10000] false 4 8 1
    8 true true 3 100 7776000 5 (replicate 8 1000) (replicate 8 100) 3 3 2 86400 10 10
    86400 1000 true 11 11.

Definition sample_staking : staking_parameters :=
  StakingParameters 100 (replicate 8 100) [1; 2; 4; 6; 8] [5000; 6000; 7000; 8000; 10000] 100 100 100 86400 90 3 1000.

Definition sample_gamezone : gamezone_parameters :=
  GamezoneParameters 100 10 [5; 5; 5; 5; 5; 5; 5; 5] (replicate 8 1000) (replicate 8 4000) 10 86400 100.

Definition sample_greatrace : greatrace_chain_parameters :=
  GreatraceParameters 86400 4 0 10 7 [7; 21; 7; 21; 7; 21; 7; 7; 21; 7; 21; 7; 21; 7] 0.

Definition sample_statistics : gmap Z account_statistics_object :=
  list_to_map ((λ k, (k, new_statistics)) <$> [0; 1; 2; 3; 4; 5; 6; 7; 8]).

Definition sample_asset (id : Z) : asset_object :=
  AssetObject (if id =? 0 then "CWD" else "UIA") 3 GRAPHENE_MAX_SHARE_SUPPLY 0 ∅ ∅ (Price (Asset 1 0) (Asset 1 id)) id 0 0 ∅ ∅ None 5 0.

Definition sample_db : database :=
  Database
    (Index (list_to_map ((λ k, (k, sample_account 5)) <$> [0; 1; 2; 3; 4; 5; 6; 7; 8])) 9)
    sample_statistics
    (list_to_map [((6, 0), AccountBalance 1000000 true); ((7, 0), AccountBalance 500000 true);
                  ((7, 1), AccountBalance 40 false); ((8, 0), AccountBalance 300000 true)])
    (Index (list_to_map ((λ k, (k, sample_asset k)) <$> [0; 1; 2; 3; 4])) 5)
    (list_to_map [(0, DynamicData 1800000 0 0); (1, DynamicData 40 0 0); (2, DynamicData 0 0 0);
                  (3, DynamicData 0 0 0); (4, DynamicData 0 0 0)])
    index_empty index_empty index_empty index_empty index_empty index_empty index_empty index_empty
    index_empty index_empty index_empty index_empty
    index_empty index_empty index_empty index_empty index_empty index_empty index_empty index_empty
    (ChainProperties 3 3)
    index_empty index_empty index_empty index_empty index_empty
    (GlobalProperties sample_parameters sample_staking sample_gamezone sample_greatrace 0 [] [])
    (DynamicGlobalProperties 40000000 [] 1650000000 0 100000 0 0 0 0 0 0 0 0 41000000 0 0 1650100000
      1651000000 1650000000 1655000000 false 1650200000 1650100000 0 false
      [450; 900; 2700; 5000; 9000; 12500; 25000] [200; 400; 1200; 3000; 6000; 10000; 25000; 25000] 1000)
    [] [].

#[export] Instance wf_credit_dec s : Decision (wf_credit s).
Proof. unfold wf_credit. apply _. Defined.

#[export] Instance order_ok_dec o : Decision (order_ok o).
Proof. unfold order_ok. apply _. Defined.
#[export] Instance limit_ok_dec o : Decision (limit_ok o).
Proof. unfold limit_ok. apply _. Defined.
#[export] Instance lottery_ok_dec l : Decision (lottery_ok l).
Proof. unfold lottery_ok. apply _. Defined.

Lemma sample_ledger_ok : ledger_ok sample_db.
Proof. split; by apply (bool_decide_unpack _). Qed.

Lemma sample_balanced : balanced sample_db.
Proof.
  intros a. unfold held, supply, isum. cbn [d_balances d_vesting d_dynamic_data d_statistics
    d_p2p_orders d_pledge_offers d_approved_transfers d_flipcoins d_lotteries d_matrices d_gr_range_bets d_gr_team_bets
    d_limit_orders d_call_orders d_settlements d_collateral_bids d_bitasset_data sample_db
    index_empty objs].
  rewrite !msum_empty. unfold sample_statistics.
  rewrite !msum_list_to_map by (apply (bool_decide_unpack _); reflexivity).
  unfold balance_held, dyn_held, dyn_supply, core_only, at_id, CORE, stat_held. cbn.
  destruct (Z.eqb_spec 0 a), (Z.eqb_spec 1 a), (Z.eqb_spec 2 a); repeat case_match; lia.
Qed.

(** ** A market

    Asset 2 is backed by the core asset, at one core unit for one of it.  Account 7
    offers core for it at two prices, account 8 owes it with too little collateral,
    and account 6 sells it. *)
Definition market_feed : price_feed := PriceFeed (Price (Asset 100 2) (Asset 100 0)) (Price (Asset 1 2) (Asset 1 0)) 1750 1100.
Definition market_bitasset : asset_bitasset_data_object :=
  BitassetData 2 (BitassetOptions 86400 1 3600 0 2000 0) ∅ market_feed 1650000000 false 0 null_price 0 false false.
Definition market_db : database :=
  sample_db
    <| d_assets := Index (<[2 := (sample_asset 2) <| ao_bitasset_data_id := Some 0 |>]> sample_db.(d_assets).(objs)) 5 |>
    <| d_dynamic_data := <[2 := DynamicData 2500 0 0]> sample_db.(d_dynamic_data) |>
    <| d_bitasset_data := Index {[ 0 := market_bitasset ]} 1 |>
    <| d_limit_orders := Index (list_to_map
         [(0, LimitOrder 1700000000 7 120 (Price (Asset 120 0) (Asset 100 2)) 0 (Asset 0 0));
          (1, LimitOrder 1700000000 7 106 (Price (Asset 106 0) (Asset 100 2)) 0 (Asset 0 0));
          (2, LimitOrder 1700000000 6 1500 (Price (Asset 100 2) (Asset 105 0)) 5 (Asset 0 0))]) 3 |>
    <| d_call_orders := Index {[ 0 := CallOrder 8 1600 1000 (Price (Asset 32 0) (Asset 35 2)) None ]} 1 |>.
