(* ===== verification/Referral.v ===== *)
(** * The referral system

    [account_object.cpp] and [account_status_upgrade] of
    [account_evaluator.cpp]: personal and network volumes that decay over time,
    the compressed line of referrers, the leader bonus paid along it, and the
    distribution of the fees an account has paid.

    [fuel] bounds the recursion along the line of referrers; [referral_fuel] is
    enough for every setting of the 8-bit level parameters but the largest
    ([terminates_process_fees]). *)
From S2P Require Import Prelude Safe Asset Objects Database Ledger Vesting Balance Evaluator Sample.

Definition cut_fee (a p : Z) : result Z := percent_of a p.

Definition parameters (d : database) : chain_parameters := d.(d_gpo).(gpo_parameters).

(** ** Volumes *)

(** [v * seconds / referral_statistic_seconds] in 64-bit unsigned arithmetic,
    where [seconds] is the time since [last_update]. *)
Definition decrease_vol (d : database) (v last_update : Z) : result Z :=
  let period := (parameters d).(cp_referral_statistic_seconds) in
  let seconds := u64 (head_block_time d - last_update) in
  if period =? 0 then Err divide_by_zero_exception
  else Ok (to_int64 (u64 (v * seconds) `div` period)).

Definition decayed (d : database) (v last_update : Z) : result Z :=
  dec ← decrease_vol d v last_update;
  if (dec <? v) && negb (last_update =? 0) then safe_sub v dec else Ok 0.

Definition get_pv (d : database) (s : account_statistics_object) : result Z :=
  decayed d s.(st_personal_volume_in_period) s.(st_last_pv_update_date).
Definition get_nv (d : database) (s : account_statistics_object) : result Z :=
  decayed d s.(st_network_volume_in_period) s.(st_last_nv_update_date).

Definition update_pv (d : database) (acct volume : Z) : result database :=
  a ← get_account d acct;
  s ← get_statistics d acct;
  current_pv ← get_pv d s;
  modify_statistics d acct (λ s,
    v ← (if 0 <? active_referral_status a (head_block_time d)
         then safe_add current_pv volume else Ok current_pv);
    Ok (s <| st_personal_volume_in_period := v |> <| st_last_pv_update_date := head_block_time d |>)).

(** ** The line of referrers *)
Definition referral_fuel : nat := 256.

(** The [do]-[while] of [next_rewardable], from [ref] with [compressed] steps made. *)
Fixpoint compress (fuel : nat) (d : database) (ref compressed : Z) : result Z :=
  match fuel with
  | O => Err out_of_fuel
  | S fuel =>
    let params := parameters d in
    a ← get_account d ref;
    let ref' := a.(acc_referrer) in
    r ← get_account d ref';
    let compressed' := u8 (compressed + 1) in
    let status := active_referral_status r (head_block_time d) in
    let within := (compressed' <=? params.(cp_compression_levels)) && (params.(cp_root_account) <? ref') in
    go_on ← (if within then
               if status =? 0 then Ok true
               else
                 s ← get_statistics d ref';
                 pv ← get_pv d s;
                 Ok ((pv <=? params.(cp_compression_limit)) && (status <? params.(cp_min_not_compressed)))
             else Ok false);
    if go_on : bool then compress fuel d ref' compressed' else Ok ref'
  end.

Definition next_rewardable (d : database) (a : Z) : result Z :=
  let params := parameters d in
  if a <=? params.(cp_root_account) then Ok params.(cp_root_account)
  else if params.(cp_compression) then
    ref ← compress referral_fuel d a 0;
    Ok (if ref <? params.(cp_root_account) then params.(cp_root_account) else ref)
  else
    acc ← get_account d a; Ok acc.(acc_referrer).

(** ** The leader bonus *)

(** The highest of the eight levels reached that pays more than the line has
    paid so far. *)
Fixpoint leader_reward (levels : list (Z * Z)) (nv max_reward_level : Z) : option Z :=
  match levels with
  | [] => None
  | (threshold, reward) :: levels =>
    if (threshold <=? nv) && (max_reward_level <? reward) then Some reward
    else leader_reward levels nv max_reward_level
  end.

Definition leader_levels (params : chain_parameters) : list (Z * Z) :=
  reverse (zip params.(cp_nv_level_threshold) params.(cp_nv_level_reward)).

(** Whether the account earns a bonus, how much, and the level the line has
    been paid up to afterwards. *)
Definition leader_cut (d : database) (acct volume max_reward_level : Z) (paid : gset Z) : result (Z * Z) :=
  let params := parameters d in
  a ← get_account d acct;
  s ← get_statistics d acct;
  let nv := s.(st_network_volume_in_period) in
  if (params.(cp_min_nv_status) <=? active_referral_status a (head_block_time d)) &&
     (nth 0 params.(cp_nv_level_threshold) 0 <=? nv) &&
     ((head_block_num d <? HARDFORK_CORE_1480_BLOCK_NUM) || negb (bool_decide (acct ∈ paid))) then
    match leader_reward (leader_levels params) nv max_reward_level with
    | Some reward =>
      cut ← cut_fee volume (u16 (reward - max_reward_level)); Ok (cut, reward)
    | None => Ok (0, max_reward_level)
    end
  else Ok (0, max_reward_level).

Definition count_nv (d : database) (acct volume : Z) : result database :=
  a ← get_account d acct;
  s ← get_statistics d acct;
  current_nv ← get_nv d s;
  modify_statistics d acct (λ s,
    v ← (if (parameters d).(cp_min_nv_status) <=? active_referral_status a (head_block_time d)
         then safe_add current_nv volume else Ok current_nv);
    Ok (s <| st_network_volume_in_period := v |> <| st_last_nv_update_date := head_block_time d |>)).

Fixpoint update_nv (fuel : nat) (d : database) (acct volume level max_reward_level : Z) (paid : gset Z) :
    result database :=
  match fuel with
  | O => Err out_of_fuel
  | S fuel =>
    d1 ← count_nv d acct volume;
    '(cut, max') ← leader_cut d1 acct volume max_reward_level paid;
    d2 ← (if 0 <? cut then
            if head_block_num d1 <? HARDFORK_CORE_1480_BLOCK_NUM then deposit_cashback d1 acct cut false true
            else adjust_balance d1 GRAPHENE_NULL_ACCOUNT (Asset cut CORE)
          else Ok d1);
    let paid' := if 0 <? cut then {[acct]} ∪ paid else paid in
    let level' := u8 (level + 1) in
    if (level' <=? (parameters d2).(cp_nv_levels)) && ((parameters d2).(cp_root_account) <? acct) then
      ref ← next_rewardable d2 acct;
      _ ← get_account d2 ref;
      update_nv fuel d2 ref volume level' max' paid'
    else Ok d2
  end.

(** ** The distribution of fees *)
Definition GRAPHENE_DEFAULT_BURN_PERCENT_OF_FEE : Z := 20 * GRAPHENE_1_PERCENT.
Definition GRAPHENE_DEFAULT_CUT_LINEAR_BONUS : Z := 40 * GRAPHENE_1_PERCENT.

(** [pay_out_fees] threads what is left for the network, the volume withheld
    by the denominators, and the accounts already paid. *)
Record payout : Type := Payout {
  po_db : database; po_network_cut : Z; po_denominator_volume : Z; po_accounts_set : gset Z }.

#[export] Instance eta_payout : Eta payout := λ x,
  Payout x.(po_db) x.(po_network_cut) x.(po_denominator_volume) x.(po_accounts_set).

(** The share of a referrer after the denominators: the share and the withheld
    volume. *)
Definition denominate (d : database) (ref : account_object) (fee_cut withheld : Z) : result (Z * Z) :=
  let params := parameters d in
  if params.(cp_denominator) then
    '(fee_cut, withheld) ←
      (if ref.(acc_status_denominator) <? GRAPHENE_100_PERCENT then
         held_back ← cut_fee fee_cut (GRAPHENE_100_PERCENT - ref.(acc_status_denominator));
         withheld' ← safe_add withheld held_back;
         fee_cut' ← cut_fee fee_cut ref.(acc_status_denominator);
         Ok (fee_cut', withheld')
       else Ok (fee_cut, withheld));
    if (active_referral_status ref (head_block_time d) =? params.(cp_denominator_bonus_level)) && (0 <? withheld) then
      total ← safe_add fee_cut withheld; Ok (total, 0)
    else Ok (fee_cut, withheld)
  else Ok (fee_cut, withheld).

(** Before block 24940000 the referrer gets the whole share; then a fifth is
    sent to the null account; from block 26571000 two fifths leave the supply. *)
Definition pay_reward (d : database) (ref fee_cut : Z) (require_vesting : bool) : result (Z * database) :=
  if head_block_num d <? HARDFORK_CORE_1480_BLOCK_NUM then
    d' ← deposit_cashback d ref fee_cut require_vesting true; Ok (fee_cut, d')
  else if head_block_num d <? HARDFORK_CORE_1481_BLOCK_NUM then
    withdraw ← cut_fee fee_cut GRAPHENE_DEFAULT_BURN_PERCENT_OF_FEE;
    reward ← cut_fee fee_cut (GRAPHENE_100_PERCENT - GRAPHENE_DEFAULT_BURN_PERCENT_OF_FEE);
    d1 ← adjust_balance d GRAPHENE_NULL_ACCOUNT (Asset withdraw CORE);
    d2 ← deposit_cashback d1 ref reward require_vesting true; Ok (reward, d2)
  else
    on_reserve ← cut_fee fee_cut GRAPHENE_DEFAULT_CUT_LINEAR_BONUS;
    d1 ← sub_supply d 0 on_reserve;
    reward ← cut_fee fee_cut (GRAPHENE_100_PERCENT - GRAPHENE_DEFAULT_CUT_LINEAR_BONUS);
    d2 ← deposit_cashback d1 ref reward require_vesting true; Ok (reward, d2).

(** The great race counts the rewards of the first line, in its even intervals
    of each half. *)
Definition count_gr_team (interval reward : Z) (t : gr_team_object) : result gr_team_object :=
  let first f g := v ← safe_add (f t) reward; h ← safe_add t.(gr_first_half_volume) reward;
                   total ← safe_add t.(gr_total_volume) reward; Ok (g v h total) in
  let second f g := v ← safe_add (f t) reward; h ← safe_add t.(gr_second_half_volume) reward;
                    total ← safe_add t.(gr_total_volume) reward; Ok (g v h total) in
  if interval =? 2 then first gr_interval_2_volume (λ v h total,
    t <| gr_interval_2_volume := v |> <| gr_first_half_volume := h |> <| gr_total_volume := total |>)
  else if interval =? 4 then first gr_interval_4_volume (λ v h total,
    t <| gr_interval_4_volume := v |> <| gr_first_half_volume := h |> <| gr_total_volume := total |>)
  else if interval =? 6 then first gr_interval_6_volume (λ v h total,
    t <| gr_interval_6_volume := v |> <| gr_first_half_volume := h |> <| gr_total_volume := total |>)
  else if interval =? 9 then second gr_interval_9_volume (λ v h total,
    t <| gr_interval_9_volume := v |> <| gr_second_half_volume := h |> <| gr_total_volume := total |>)
  else if interval =? 11 then second gr_interval_11_volume (λ v h total,
    t <| gr_interval_11_volume := v |> <| gr_second_half_volume := h |> <| gr_total_volume := total |>)
  else second gr_interval_13_volume (λ v h total,
    t <| gr_interval_13_volume := v |> <| gr_second_half_volume := h |> <| gr_total_volume := total |>).

Definition gr_interval_active (interval : Z) : bool :=
  (interval =? 2) || (interval =? 4) || (interval =? 6) || (interval =? 9) || (interval =? 11) || (interval =? 13).

Definition gr_reward (d : database) (ref reward : Z) (team : option Z) : result database :=
  let interval := d.(d_dgpo).(dgp_current_gr_interval) in
  if gr_interval_active interval then
    d1 ← modify_statistics d ref (λ s,
           v ← safe_add s.(st_current_period_gr) reward; Ok (s <| st_current_period_gr := v |>));
    match team with
    | Some t => i ← index_modify d1.(d_gr_teams) t (count_gr_team interval reward); Ok (d1 <| d_gr_teams := i |>)
    | None => Ok d1
    end
  else Ok d.

(** The reward of the referrer at level [n] (1 to 8). *)
Definition pay_ref (core_fee_total : Z) (require_vesting : bool) (n : Z) (ref : Z) (st : payout) : result payout :=
  let d := st.(po_db) in
  let percent := nth (Z.to_nat (n - 1)) (parameters d).(cp_ref_percent_of_fee) 0 in
  a ← get_account d ref;
  if (0 <? percent) && (0 <? st.(po_network_cut)) && (n <=? a.(acc_referral_levels)) then
    fee_cut ← cut_fee core_fee_total percent;
    '(fee_cut, withheld) ← denominate d a fee_cut st.(po_denominator_volume);
    '(reward, d1) ← pay_reward d ref fee_cut require_vesting;
    d2 ← (if n =? 1 then gr_reward d1 ref reward a.(acc_gr_team) else Ok d1);
    network_cut ← safe_sub st.(po_network_cut) fee_cut;
    Ok (Payout d2 network_cut withheld ({[ref]} ∪ st.(po_accounts_set)))
  else Ok st.

(** The eight nested levels, from level [n] on. *)
Fixpoint pay_refs (core_fee_total : Z) (require_vesting : bool) (levels : list Z) (prev ref : Z) (st : payout) :
    result payout :=
  match levels with
  | [] => Ok st
  | n :: levels =>
    let d := st.(po_db) in
    if (negb (prev =? ref) || ((n =? 1) && (parameters d).(cp_cashback))) &&
       ((head_block_num d <? HARDFORK_CORE_1480_BLOCK_NUM) || negb (bool_decide (ref ∈ st.(po_accounts_set)))) then
      st' ← pay_ref core_fee_total require_vesting n ref st;
      match levels with
      | [] => Ok st'
      | _ =>
        next ← next_rewardable st'.(po_db) ref;
        _ ← get_account st'.(po_db) next;
        pay_refs core_fee_total require_vesting levels ref next st'
      end
    else Ok st
  end.

Definition pay_out_fees (d : database) (account core_fee_total : Z) (require_vesting : bool) : result database :=
  a ← get_account d account;
  ref_01 ← (if (parameters d).(cp_cashback) && (0 <? active_referral_status a (head_block_time d))
            then Ok account else next_rewardable d account);
  _ ← get_account d ref_01;
  st ← pay_refs core_fee_total require_vesting [1; 2; 3; 4; 5; 6; 7; 8] account ref_01
         (Payout d core_fee_total 0 ∅);
  add_accumulated_fees st.(po_db) 0 st.(po_network_cut).

Definition process_fees (d : database) (account : Z) : result database :=
  s ← get_statistics d account;
  if (0 <? s.(st_pending_fees)) || (0 <? s.(st_pending_vested_fees)) then
    d1 ← (if 0 <? s.(st_pending_fees) then pay_out_fees d account s.(st_pending_fees) true else Ok d);
    s1 ← get_statistics d1 account;
    d2 ← (if 0 <? s1.(st_pending_vested_fees)
          then pay_out_fees d1 account s1.(st_pending_vested_fees) false else Ok d1);
    modify_statistics d2 account (λ s,
      fees ← safe_add s.(st_pending_fees) s.(st_pending_vested_fees);
      paid ← safe_add s.(st_lifetime_fees_paid) fees;
      Ok (s <| st_lifetime_fees_paid := paid |> <| st_pending_fees := 0 |> <| st_pending_vested_fees := 0 |>))
  else Ok d.

(** ** account_status_upgrade

    The fee of the operation buys a status for 365 days; it counts as volume of
    the referrer's line, whatever asset it is paid in. *)
Record account_status_upgrade_operation : Type := StatusUpgradeOp {
  su_fee : asset; su_account_to_upgrade : Z; su_referral_status_type : Z }.

Definition account_status_upgrade_validate (op : account_status_upgrade_operation) : result unit :=
  _ ← FC_ASSERT (0 <=? op.(su_fee).(amount));
  _ ← FC_ASSERT (0 <? op.(su_referral_status_type));
  FC_ASSERT (op.(su_referral_status_type) <=? 4).

Definition account_status_upgrade_do_evaluate (d : database) (o : account_status_upgrade_operation) : result unit :=
  account ← get_account d o.(su_account_to_upgrade);
  FC_ASSERT (account.(acc_referral_status_type) <=? o.(su_referral_status_type)).

Definition day : Z := 86400.

(** The days the unused part of the old status is worth at the new fee. *)
Definition bonus_days (a : account_object) (now fee_value : Z) : result Z :=
  let last_days := (a.(acc_referral_status_expiration_date) - now) `quot` day in
  if now <? a.(acc_referral_status_expiration_date) then
    per_day ← safe_div a.(acc_referral_status_paid_fee) 365;
    paid_last ← safe_mul per_day last_days;
    worth ← safe_mul paid_last 365;
    worth_days ← safe_div worth fee_value;
    safe_add 0 worth_days
  else Ok 0.

(** The loop that copies the days into an unsigned integer: its counter [i] is an
    [int], whose increment past the largest value is undefined. *)
Definition INT_MAX : Z := 2147483647.
Definition bonus_round (bonus : Z) (s : Z * Z) : result (Z * Z + Z) :=
  let '(i, uintbonus) := s in
  if i <? bonus then
    if i =? INT_MAX then Err undefined_behaviour else Ok (inl (i + 1, u64 (uintbonus + 1)))
  else Ok (inr uintbonus).
Definition bonus_loop_rounds : nat := 32.
Definition count_bonus (bonus : Z) : result Z :=
  r ← while_loop bonus_loop_rounds (bonus_round bonus) (0, 0); loop_result r.

(** [t + fc::days(n)]: the sum is taken in microseconds, a signed 64-bit integer, and
    cut to the seconds of a [time_point_sec]. *)
Definition add_days (t n : Z) : result Z :=
  if (t + n * day) * 1000000 <=? int64_max then Ok (time_add t (n * day)) else Err undefined_behaviour.

Definition upgrade_status (params : chain_parameters) (now : Z) (o : account_status_upgrade_operation)
    (a : account_object) : result account_object :=
  let fee_value := o.(su_fee).(amount) in
  let status := o.(su_referral_status_type) in
  a1 ← (if (status =? a.(acc_referral_status_type)) && (now <? a.(acc_referral_status_expiration_date))
        then Ok (a <| acc_referral_status_expiration_date := time_add a.(acc_referral_status_expiration_date) (365 * day) |>)
        else
          bonus ← bonus_days a now fee_value;
          let expiration := time_add now (365 * day) in
          expiration' ← (if 0 <? bonus then uintbonus ← count_bonus bonus; add_days expiration uintbonus
                         else Ok expiration);
          Ok (a <| acc_referral_status_type := status |>
                <| acc_referral_status_expiration_date := expiration' |>));
  let a2 := a1 <| acc_referral_status_paid_fee := fee_value |> in
  Ok (if (1 <=? status) && (status <=? 4)
      then a2 <| acc_referral_levels := nth (Z.to_nat status) params.(cp_status_levels) 0 |>
              <| acc_status_denominator := nth (Z.to_nat status) params.(cp_status_denominator) 0 |>
      else a2).

Definition account_status_upgrade_do_apply (d : database) (o : account_status_upgrade_operation) : result database :=
  account ← get_account d o.(su_account_to_upgrade);
  let ref_01 := account.(acc_referrer) in
  let fee_value := o.(su_fee).(amount) in
  _ ← get_account d ref_01;
  d1 ← update_pv d ref_01 fee_value;
  d2 ← update_nv referral_fuel d1 ref_01 fee_value 1 0 ∅;
  d3 ← process_fees d2 o.(su_account_to_upgrade);
  modify_account d3 o.(su_account_to_upgrade) (upgrade_status (parameters d3) (head_block_time d3) o).

#[export] Instance account_status_upgrade_evaluator : Evaluator account_status_upgrade_operation := {|
  fee_payer := su_account_to_upgrade; fee := su_fee; validate := account_status_upgrade_validate;
  do_evaluate := account_status_upgrade_do_evaluate; do_apply := account_status_upgrade_do_apply |}.

(** ** change_referrer *)
Record change_referrer_operation : Type := ChangeReferrerOp {
  cr_fee : asset; cr_account_id : Z; cr_new_referrer : Z }.

Definition change_referrer_validate (op : change_referrer_operation) : result unit :=
  FC_ASSERT (0 <=? op.(cr_fee).(amount)).

(** The loop check: [false] when the account is met on the line of [acc], at
    most [n] referrers up and before the line leaves the root. *)
Fixpoint line_avoids (n : nat) (d : database) (account_id : Z) (acc : account_object) : result bool :=
  match n with
  | O => Ok true
  | S n =>
    next ← get_account d acc.(acc_referrer);
    if acc.(acc_referrer) =? account_id then Ok false
    else if next.(acc_referrer) <? (parameters d).(cp_root_account) then Ok true
    else line_avoids n d account_id next
  end.

Definition change_referrer_do_evaluate (d : database) (o : change_referrer_operation) : result unit :=
  account ← get_account d o.(cr_account_id);
  _ ← FC_ASSERT (negb (o.(cr_new_referrer) <? (parameters d).(cp_root_account)));
  _ ← FC_ASSERT (negb (o.(cr_new_referrer) =? account.(acc_referrer)));
  _ ← FC_ASSERT (negb (o.(cr_account_id) =? o.(cr_new_referrer)));
  _ ← FC_ASSERT (HARDFORK_CWD7_TIME <=? head_block_time d);
  if HARDFORK_CORE_1480_BLOCK_NUM <? head_block_num d then
    tmp_acc ← get_account d o.(cr_new_referrer);
    ok ← line_avoids (Z.to_nat (parameters d).(cp_compression_levels)) d o.(cr_account_id) tmp_acc;
    FC_ASSERT ok
  else Ok tt.

Definition change_referrer_do_apply (d : database) (o : change_referrer_operation) : result database :=
  d1 ← process_fees d o.(cr_account_id);
  modify_account d1 o.(cr_account_id) (λ a, Ok (a <| acc_referrer := o.(cr_new_referrer) |>)).

#[export] Instance change_referrer_evaluator : Evaluator change_referrer_operation := {|
  fee_payer := cr_account_id; fee := cr_fee; validate := change_referrer_validate;
  do_evaluate := change_referrer_do_evaluate; do_apply := change_referrer_do_apply |}.

(** ** Volumes carry no value *)
#[export] Instance flows_update_pv d acct vol d' : Flows (update_pv d acct vol = Ok d') d d' (λ _, 0).
Proof. intros H. unfold update_pv in H. inv_ok. solve_flow. Qed.
#[export] Instance flows_count_nv d acct vol d' : Flows (count_nv d acct vol = Ok d') d d' (λ _, 0).
Proof. intros H. unfold count_nv in H. inv_ok. solve_flow. Qed.
#[export] Instance globals_count_nv d acct vol d' : Globals (count_nv d acct vol = Ok d') d d'.
Proof. intros H. unfold count_nv in H. inv_ok; solve_globals. Qed.

(** ** The leader bonus telescopes *)
Lemma leader_reward_Some levels nv max r :
  leader_reward levels nv max = Some r → max < r ∧ r ∈ levels.*2.
Proof.
  induction levels as [|[t w] levels IH]; cbn; [done|]. case_match eqn:E.
  - intros [= <-]. propify. split; [tauto|]. apply list_elem_of_here.
  - intros H. destruct (IH H). split; [done|]. by apply list_elem_of_further.
Qed.

(** The percentages of the levels never exceed [R] hundredths of a percent. *)
Definition rewards_below (params : chain_parameters) (R : Z) : Prop :=
  Forall (λ r, 0 ≤ r ≤ R) params.(cp_nv_level_reward) ∧ R ≤ GRAPHENE_100_PERCENT.

Lemma leader_levels_below params R r :
  rewards_below params R → r ∈ (leader_levels params).*2 → 0 ≤ r ≤ R.
Proof.
  intros [Hr _] Hin. rewrite Forall_forall in Hr. apply Hr.
  apply list_elem_of_fmap in Hin as ([t r'] & -> & Hin). unfold leader_levels in Hin.
  rewrite elem_of_reverse in Hin. by apply elem_of_zip_r in Hin.
Qed.

Lemma leader_cut_Ok d acct vol max paid cut max' R :
  leader_cut d acct vol max paid = Ok (cut, max') →
  0 ≤ vol ≤ int64_max → 0 ≤ max ≤ R → rewards_below (parameters d) R →
  0 ≤ cut ∧ max ≤ max' ≤ R ∧ GRAPHENE_100_PERCENT * cut ≤ vol * (max' - max).
Proof.
  unfold leader_cut. intros H Hvol Hmax HR. inv_ok; [|lia..].
  match goal with Hl : leader_reward _ _ _ = Some _, Hc : cut_fee _ _ = Ok _ |- _ =>
    apply leader_reward_Some in Hl as [Hlt Hin]; unfold cut_fee in Hc;
    apply (leader_levels_below _ R) in Hin; [|done]; destruct HR as [_ HR];
    unfold u16, GRAPHENE_100_PERCENT in *; rewrite Z.mod_small in Hc by lia;
    apply percent_of_Ok_bound in Hc; [|done|unfold GRAPHENE_100_PERCENT; lia] end.
  unfold GRAPHENE_100_PERCENT in *. lia.
Qed.

Lemma update_nv_flow fuel d acct vol level max paid d' R :
  update_nv fuel d acct vol level max paid = Ok d' →
  0 ≤ vol ≤ int64_max → 0 ≤ max ≤ R → rewards_below (parameters d) R →
  ∃ bonus, 0 ≤ bonus ∧ GRAPHENE_100_PERCENT * bonus ≤ vol * (R - max) ∧
    flow d d' (λ a, core_only a bonus).
Proof.
  revert d acct level max paid.
  induction fuel as [|fuel IH]; intros d acct level max paid H Hvol Hmax HR; [done|]. cbn in H.
  apply bind_Ok in H as (d1 & H1 & H). apply bind_Ok in H as ([cut max'] & Hc & H).
  apply bind_Ok in H as (d2 & H2 & H).
  pose proof (globals (P:=count_nv d acct vol = Ok d1) H1) as G1. apply flows in H1.
  apply (leader_cut_Ok _ _ _ _ _ _ _ R) in Hc; [|done..|by unfold parameters; rewrite (proj1 G1)].
  destruct Hc as (Hcut & Hmax' & Hbound).
  assert (flow d1 d2 (λ a, core_only a cut) ∧ same_globals d1 d2) as [F2 G2].
  { clear H1 H. destruct (Z.ltb_spec 0 cut); [destruct (head_block_num d1 <? HARDFORK_CORE_1480_BLOCK_NUM)|];
      cbn in H2; inv_ok; (split; [|solve_globals]); [solve_flow..|].
    replace cut with 0 by lia. solve_flow. }
  clear H2. assert (parameters d2 = parameters d) as Hp by (unfold parameters; by rewrite (proj1 G2), (proj1 G1)).
  case_match.
  - apply bind_Ok in H as (ref & _ & H). apply bind_Ok in H as (? & _ & H).
    apply IH in H as (bonus & Hb & Hbb & F); [|lia|lia|by rewrite Hp].
    exists (cut + bonus). split; [lia|]. split; [lia|]. solve_flow.
  - inv_ok. exists cut. split; [done|]. split; [nia|]. solve_flow.
Qed.

(** ** Fees are paid out in full, up to rounding *)

(** Shares are percentages, and so are the denominators of the accounts. *)
Record fees_wf (d : database) : Prop := {
  fw_percents : Forall (λ p, 0 ≤ p ≤ GRAPHENE_100_PERCENT) (parameters d).(cp_ref_percent_of_fee);
  fw_denominators : map_Forall (λ _ a, 0 ≤ a.(acc_status_denominator)) (standings d) }.

Lemma fees_wf_globals d d' : same_globals d d' → fees_wf d → fees_wf d'.
Proof. intros (Hp & _ & Ha & _) [H1 H2]. split; unfold parameters in *; rewrite ?Hp, ?Ha; done. Qed.

Lemma fees_wf_percent d n : fees_wf d → 0 ≤ nth n (parameters d).(cp_ref_percent_of_fee) 0 ≤ GRAPHENE_100_PERCENT.
Proof.
  intros [H _]. destruct (nth_in_or_default n (parameters d).(cp_ref_percent_of_fee) 0) as [Hin| ->].
  - rewrite Forall_forall in H. apply H. by apply list_elem_of_In.
  - unfold GRAPHENE_100_PERCENT. lia.
Qed.

Lemma fees_wf_account d id a : fees_wf d → get_account d id = Ok a → 0 ≤ a.(acc_status_denominator).
Proof.
  intros [_ H] Ha. apply index_get_Ok in Ha. apply (H id (standing a)). unfold standings.
  by rewrite lookup_fmap, Ha.
Qed.

(** A share, and what is withheld of it, are amounts. *)
Definition amount_ok (z : Z) : Prop := 0 ≤ z ≤ int64_max.

Lemma cut_fee_amount a p r :
  amount_ok a → 0 ≤ p ≤ GRAPHENE_100_PERCENT → cut_fee a p = Ok r → amount_ok r.
Proof. intros Ha Hp H. unfold amount_ok in *. apply percent_of_Ok_bound in H; [lia|done..]. Qed.

Lemma safe_add_amount a b r : amount_ok a → amount_ok b → safe_add a b = Ok r → amount_ok r.
Proof.
  intros Ha Hb H. pose proof H as H'. apply safe_add_Ok in H as ->. apply safe_add_range in H'.
  all: unfold amount_ok in *; solve_int64.
Qed.

Lemma denominate_Ok d ref cut withheld cut' withheld' :
  denominate d ref cut withheld = Ok (cut', withheld') →
  amount_ok cut → amount_ok withheld → 0 ≤ ref.(acc_status_denominator) →
  amount_ok cut' ∧ amount_ok withheld'.
Proof.
  intros H Hc Hw Hd. unfold denominate in H. destruct (cp_denominator _); [|by inv_ok].
  apply bind_Ok in H as ([cut1 withheld1] & H1 & H).
  assert (amount_ok cut1 ∧ amount_ok withheld1) as [Hc1 Hw1].
  { clear H. inv_ok; propify; [|done]. unfold GRAPHENE_100_PERCENT in *. split.
    - eapply cut_fee_amount; [exact Hc| |eassumption]. unfold GRAPHENE_100_PERCENT. lia.
    - eapply safe_add_amount; [exact Hw| |eassumption]. eapply cut_fee_amount; [exact Hc| |eassumption].
      unfold GRAPHENE_100_PERCENT. lia. }
  clear H1. inv_ok; [|done]. split; [by eapply safe_add_amount; [..|eassumption]|]. by unfold amount_ok, int64_max.
Qed.

(** Two complementary percentages lose at most one unit to rounding. *)
Lemma cut_fee_split a p r s :
  amount_ok a → 0 ≤ p ≤ GRAPHENE_100_PERCENT →
  cut_fee a p = Ok r → cut_fee a (GRAPHENE_100_PERCENT - p) = Ok s → a - 1 ≤ r + s ≤ a.
Proof.
  intros Ha Hp Hr Hs. unfold amount_ok, GRAPHENE_100_PERCENT in *.
  apply percent_of_Ok_bound in Hr; [|done|unfold GRAPHENE_100_PERCENT; lia].
  apply percent_of_Ok_bound in Hs; [|done|unfold GRAPHENE_100_PERCENT; lia].
  unfold GRAPHENE_100_PERCENT in *. lia.
Qed.

(** [lossy d d' x n]: [x] comes into the books less at most [n] units of core;
    nothing was lost before the rewards were split. *)
Definition lossy (d d' : database) (x : Z) (n : Z) : Prop :=
  same_globals d d' ∧ ∃ loss, 0 ≤ loss ≤ n ∧
  (head_block_num d < HARDFORK_CORE_1480_BLOCK_NUM → loss = 0) ∧
  flow d d' (λ a, core_only a (x - loss)).

Lemma lossy_refl d : lossy d d 0 0.
Proof. split; [done|]. exists 0. split; [lia|]. split; [done|]. solve_flow. Qed.

Lemma lossy_trans d1 d2 d3 x y n m : lossy d1 d2 x n → lossy d2 d3 y m → lossy d1 d3 (x + y) (n + m).
Proof.
  intros [G1 (l1 & ? & E1 & F1)] [G2 (l2 & ? & E2 & F2)]. split; [by etrans|].
  exists (l1 + l2). split; [lia|]. split; [|solve_flow].
  intros Hb. rewrite E1 by done. apply E2. unfold head_block_num in *. by rewrite (proj1 (proj2 G1)).
Qed.

Lemma lossy_weaken d d' x y n m : lossy d d' x n → x = y → n ≤ m → lossy d d' y m.
Proof. intros [G (l & ? & E & F)] <- ?. split; [done|]. exists l. split; [lia|done]. Qed.

Lemma cut_percents : 0 ≤ GRAPHENE_DEFAULT_BURN_PERCENT_OF_FEE ≤ GRAPHENE_100_PERCENT.
Proof. by vm_compute. Qed.
Lemma bonus_percents : 0 ≤ GRAPHENE_DEFAULT_CUT_LINEAR_BONUS ≤ GRAPHENE_100_PERCENT.
Proof. by vm_compute. Qed.

Lemma pay_reward_lossy d ref cut rv reward d' :
  pay_reward d ref cut rv = Ok (reward, d') → amount_ok cut → lossy d d' cut 1.
Proof.
  intros H Hcut. unfold pay_reward in H.
  destruct (Z.ltb_spec (head_block_num d) HARDFORK_CORE_1480_BLOCK_NUM) as [|Hfork];
    [|destruct (head_block_num d <? HARDFORK_CORE_1481_BLOCK_NUM)]; inv_ok.
  - split; [solve_globals|]. exists 0. split; [lia|]. split; [done|]. solve_flow.
  - match goal with H1 : cut_fee cut _ = Ok ?r, H2 : cut_fee cut (_ - _) = Ok ?s |- _ =>
      pose proof (cut_fee_split cut _ r s Hcut cut_percents H1 H2) as Hs;
      split; [solve_globals|]; exists (cut - (r + s)) end.
    split; [lia|]. split; [lia|]. solve_flow.
  - match goal with H1 : cut_fee cut _ = Ok ?r, H2 : cut_fee cut (_ - _) = Ok ?s |- _ =>
      pose proof (cut_fee_split cut _ r s Hcut bonus_percents H1 H2) as Hs;
      split; [solve_globals|]; exists (cut - (r + s)) end.
    split; [lia|]. split; [lia|]. solve_flow.
Qed.

Lemma gr_reward_neutral d ref reward team d' :
  gr_reward d ref reward team = Ok d' → same_globals d d' ∧ flow d d' (λ _, 0).
Proof. intros H. unfold gr_reward in H. inv_ok; (split; [solve_globals|solve_flow]). Qed.

Lemma pay_ref_lossy F rv n ref st st' :
  pay_ref F rv n ref st = Ok st' → amount_ok F → amount_ok st.(po_denominator_volume) → fees_wf st.(po_db) →
  amount_ok st'.(po_denominator_volume) ∧
  lossy st.(po_db) st'.(po_db) (st.(po_network_cut) - st'.(po_network_cut)) 1.
Proof.
  intros H HF Hw Hwf. unfold pay_ref in H. apply bind_Ok in H as (a & Ha & H).
  case_match; [|inv_ok; split; [done|]; eapply lossy_weaken; [apply lossy_refl|lia..]].
  apply bind_Ok in H as (cut & Hcut & H). apply bind_Ok in H as ([cut' withheld] & Hden & H).
  apply bind_Ok in H as ([reward d1] & Hpay & H). apply bind_Ok in H as (d2 & Hgr & H).
  apply bind_Ok in H as (net & Hnet & H). injection H as <-. apply safe_sub_Ok in Hnet as ->. cbn.
  apply cut_fee_amount in Hcut; [|done|by apply fees_wf_percent].
  apply denominate_Ok in Hden; [|done..|by eapply fees_wf_account]. destruct Hden as [Hcut' Hw'].
  split; [done|]. apply pay_reward_lossy in Hpay; [|done].
  eapply lossy_weaken; [eapply lossy_trans; [exact Hpay|]|..].
  - instantiate (1 := 0). instantiate (1 := 0).
    assert (same_globals d1 d2 ∧ flow d1 d2 (λ _, 0)) as [G Fl].
    { destruct (n =? 1); [by eapply gr_reward_neutral|]. inv_ok. split; [done|solve_flow]. }
    split; [done|]. exists 0. split; [lia|]. split; [done|]. solve_flow.
  - lia.
  - lia.
Qed.

Lemma pay_refs_lossy F rv levels prev ref st st' :
  pay_refs F rv levels prev ref st = Ok st' → amount_ok F → amount_ok st.(po_denominator_volume) →
  fees_wf st.(po_db) →
  lossy st.(po_db) st'.(po_db) (st.(po_network_cut) - st'.(po_network_cut)) (Z.of_nat (length levels)).
Proof.
  revert prev ref st. induction levels as [|n levels IH]; intros prev ref st H HF Hw Hwf; cbn in H.
  { inv_ok. eapply lossy_weaken; [apply lossy_refl|cbn; lia..]. }
  case_match; [|inv_ok; eapply lossy_weaken; [apply lossy_refl|lia..]].
  apply bind_Ok in H as (st1 & H1 & H). apply pay_ref_lossy in H1 as [Hw1 L1]; [|done..].
  destruct levels as [|m levels].
  - inv_ok. eapply lossy_weaken; [exact L1|cbn; lia..].
  - apply bind_Ok in H as (next & _ & H). apply bind_Ok in H as (? & _ & H).
    apply IH in H; [|done..|by eapply fees_wf_globals; [apply L1|]].
    eapply lossy_weaken; [eapply lossy_trans; [exact L1|exact H]|lia|cbn [length]; lia].
Qed.

Lemma pay_out_fees_lossy d acct F rv d' :
  pay_out_fees d acct F rv = Ok d' → amount_ok F → fees_wf d → lossy d d' F 8.
Proof.
  intros H HF Hwf. unfold pay_out_fees in H. apply bind_Ok in H as (a & _ & H).
  apply bind_Ok in H as (r & _ & H). apply bind_Ok in H as (? & _ & H). apply bind_Ok in H as (st & H1 & H).
  apply pay_refs_lossy in H1; [|done|by unfold amount_ok, int64_max; cbn|done]. cbn in H1.
  eapply lossy_weaken; [eapply lossy_trans; [exact H1|]|..].
  - split; [solve_globals|]. exists 0. split; [instantiate (1 := 0); lia|]. split; [done|].
    instantiate (1 := st.(po_network_cut)). apply flows in H. eapply flow_ext; [exact H|]. flow_arith.
  - lia.
  - lia.
Qed.

(** ** Termination *)
Lemma terminates_cut_fee a p : terminates (cut_fee a p).
Proof. unfold cut_fee, percent_of, to_uint64, terminates. by repeat (case_match; cbn). Qed.
#[export] Hint Resolve terminates_cut_fee : terminates.

Lemma terminates_vbo_deposit v now amt : terminates (vbo_deposit v now amt) ∧ terminates (vbo_deposit_vested v now amt).
Proof.
  unfold vbo_deposit, vbo_deposit_vested, policy_on_deposit, policy_on_deposit_vested,
    linear_vesting.on_deposit, linear_vesting.on_deposit_vested, cdd_vesting.on_deposit_vested, cdd_vesting.on_deposit,
    cdd_vesting.update_coin_seconds_earned.
  split; solve_terminates.
Qed.

Lemma terminates_deposit_lazy_vesting d o amt secs owner rv : terminates (deposit_lazy_vesting d o amt secs owner rv).
Proof.
  unfold deposit_lazy_vesting, reusable_vbo, index_get, index_create. solve_terminates.
  apply terminates_index_modify. intros v. destruct rv; apply terminates_vbo_deposit.
Qed.
#[export] Hint Resolve terminates_deposit_lazy_vesting : terminates.

Lemma terminates_deposit_cashback d acct amt rv ci : terminates (deposit_cashback d acct amt rv ci).
Proof. unfold deposit_cashback, repay_credit, close_credit. solve_terminates. Qed.
#[export] Hint Resolve terminates_deposit_cashback : terminates.

Lemma terminates_decayed d v t : terminates (decayed d v t).
Proof. unfold decayed, decrease_vol. solve_terminates. Qed.
#[export] Hint Resolve terminates_decayed : terminates.

Lemma terminates_volumes d s : terminates (get_pv d s) ∧ terminates (get_nv d s).
Proof. split; apply terminates_decayed. Qed.
#[export] Hint Extern 1 (terminates (get_pv ?d ?s)) => apply (terminates_volumes d s) : terminates.
#[export] Hint Extern 1 (terminates (get_nv ?d ?s)) => apply (terminates_volumes d s) : terminates.

(** The search for a referrer makes at most [compression_levels + 1] steps: its
    8-bit counter does not wrap before the levels are used up. *)
Lemma compress_terminates fuel d ref c :
  let levels := (parameters d).(cp_compression_levels) in
  levels < 255 → 0 ≤ c ≤ levels → levels < c + Z.of_nat fuel → terminates (compress fuel d ref c).
Proof.
  cbn zeta. revert ref c. induction fuel as [|fuel IH]; intros ref c Hl Hc Hf; [lia|]. cbn [compress].
  assert (u8 (c + 1) = c + 1) as -> by (apply Z.mod_small; lia).
  apply terminates_bind; [solve_terminates|intros a _]. apply terminates_bind; [solve_terminates|intros r _].
  destruct (_ && _) eqn:Hw; [|discriminate]. propify.
  apply terminates_bind; [solve_terminates|intros [] _]; [|discriminate]. apply IH; lia.
Qed.

(** The levels are 8-bit; the largest value would let the counters wrap. *)
Record levels_wf (d : database) : Prop := {
  lw_compression : 0 ≤ (parameters d).(cp_compression_levels) < 255;
  lw_nv : 0 ≤ (parameters d).(cp_nv_levels) < 255 }.

Lemma levels_wf_globals d d' : same_globals d d' → levels_wf d → levels_wf d'.
Proof. intros (Hp & _) [H1 H2]. split; unfold parameters in *; by rewrite Hp. Qed.

Lemma next_rewardable_terminates d a : levels_wf d → terminates (next_rewardable d a).
Proof.
  intros [Hc _]. unfold next_rewardable. solve_terminates.
  apply compress_terminates; unfold referral_fuel; lia.
Qed.

Lemma terminates_leader_cut d acct vol max paid : terminates (leader_cut d acct vol max paid).
Proof. unfold leader_cut. solve_terminates. Qed.
Lemma terminates_count_nv d acct vol : terminates (count_nv d acct vol).
Proof. unfold count_nv. solve_terminates. Qed.
#[export] Hint Resolve terminates_leader_cut terminates_count_nv : terminates.

Lemma update_nv_terminates_from fuel d acct vol level max paid :
  levels_wf d → 0 ≤ level < 255 → (parameters d).(cp_nv_levels) ≤ level + Z.of_nat fuel - 1 → (0 < fuel)%nat →
  terminates (update_nv fuel d acct vol level max paid).
Proof.
  revert d acct level max paid.
  induction fuel as [|fuel IH]; intros d acct level max paid Hwf Hl Hf Hpos; [lia|]. cbn [update_nv].
  apply terminates_bind; [solve_terminates|intros d1 H1].
  apply terminates_bind; [solve_terminates|intros [cut max'] _].
  apply terminates_bind; [solve_terminates|intros d2 H2].
  assert (same_globals d d2) as G.
  { etrans; [exact (globals H1)|]. clear H1. inv_ok; solve_globals. }
  clear H1 H2. assert (u8 (level + 1) = level + 1) as -> by (apply Z.mod_small; lia).
  destruct (_ && _) eqn:Hw; [|discriminate]. propify.
  pose proof (levels_wf_globals _ _ G Hwf) as Hwf2.
  assert (parameters d2 = parameters d) as Hp by (unfold parameters; by rewrite (proj1 G)). rewrite Hp in *.
  apply terminates_bind; [by apply next_rewardable_terminates|intros ref _].
  apply terminates_bind; [solve_terminates|intros ? _].
  destruct Hwf as [_ Hn]. apply IH; [done|rewrite ?Hp; lia|rewrite ?Hp; lia|lia].
Qed.

#[export] Instance globals_pay_reward d ref cut rv reward d' :
  Globals (pay_reward d ref cut rv = Ok (reward, d')) d d'.
Proof. intros H. unfold pay_reward in H. inv_ok; solve_globals. Qed.

Lemma globals_pay_ref F rv n ref st st' :
  pay_ref F rv n ref st = Ok st' → same_globals st.(po_db) st'.(po_db).
Proof.
  intros H. unfold pay_ref in H. apply bind_Ok in H as (a & _ & H). case_match; [|by inv_ok].
  apply bind_Ok in H as (cut & _ & H). apply bind_Ok in H as ([? ?] & _ & H).
  apply bind_Ok in H as ([reward d1] & Hpay & H). apply bind_Ok in H as (d2 & Hgr & H).
  apply bind_Ok in H as (net & _ & H). injection H as <-. cbn.
  etrans; [exact (globals Hpay)|]. destruct (n =? 1); [by eapply gr_reward_neutral|]. by inv_ok.
Qed.

Lemma globals_pay_refs F rv levels prev ref st st' :
  pay_refs F rv levels prev ref st = Ok st' → same_globals st.(po_db) st'.(po_db).
Proof.
  revert prev ref st. induction levels as [|n levels IH]; intros prev ref st H; cbn in H; [by inv_ok|].
  case_match; [|by inv_ok]. apply bind_Ok in H as (st1 & H1%globals_pay_ref & H).
  destruct levels as [|m levels]; [by inv_ok|].
  apply bind_Ok in H as (next & _ & H). apply bind_Ok in H as (? & _ & H). etrans; [exact H1|by eapply IH].
Qed.

#[export] Instance globals_pay_out_fees d acct F rv d' : Globals (pay_out_fees d acct F rv = Ok d') d d'.
Proof.
  intros H. unfold pay_out_fees in H. apply bind_Ok in H as (a & _ & H).
  apply bind_Ok in H as (r & _ & H). apply bind_Ok in H as (? & _ & H). apply bind_Ok in H as (st & H1 & H).
  apply globals_pay_refs in H1. etrans; [exact H1|]. solve_globals.
Qed.

(** [process_fees] pays both kinds of fees and clears them. *)
Lemma process_fees_lossy d acct s d' :
  process_fees d acct = Ok d' → get_statistics d acct = Ok s → fees_wf d →
  amount_ok s.(st_pending_fees) → amount_ok s.(st_pending_vested_fees) →
  (∃ loss, 0 ≤ loss ≤ 16 ∧ (head_block_num d < HARDFORK_CORE_1480_BLOCK_NUM → loss = 0) ∧
     flow d d' (λ a, core_only a (- loss))) ∧
  ∃ s', get_statistics d' acct = Ok s' ∧ s'.(st_pending_fees) = 0 ∧ s'.(st_pending_vested_fees) = 0.
Proof.
  intros H Hs Hwf Hp Hv. unfold process_fees in H. rewrite Hs in H. cbn [mbind result_bind] in H.
  destruct (_ || _) eqn:Hb.
  2: { inv_ok. propify. unfold amount_ok in *. split.
       - exists 0. split; [lia|]. split; [done|]. solve_flow.
       - exists s. split; [done|lia]. }
  apply bind_Ok in H as (d1 & H1 & H). apply bind_Ok in H as (s1 & Hs1 & H). apply bind_Ok in H as (d2 & H2 & H3).
  assert (lossy d d1 s.(st_pending_fees) 8) as L1.
  { clear H2 H3 Hs1. destruct (Z.ltb_spec 0 s.(st_pending_fees)); [by eapply pay_out_fees_lossy|].
    inv_ok. unfold amount_ok in *. eapply lossy_weaken; [apply lossy_refl|lia..]. }
  pose proof L1 as [G1 _].
  assert (∀ d' s', same_globals d d' → get_statistics d' acct = Ok s' → pending s' = pending s) as Hpend.
  { intros d0 s0 (_ & _ & _ & Hg & _) H0. apply from_option_Ok in H0, Hs. unfold pendings in Hg.
    apply (f_equal (lookup acct)) in Hg. rewrite !lookup_fmap, H0, Hs in Hg. by apply Some_inj in Hg. }
  pose proof (Hpend _ _ G1 Hs1) as E1. injection E1 as Ep1 Ev1. rewrite Ev1 in H2.
  assert (lossy d1 d2 s.(st_pending_vested_fees) 8) as L2.
  { clear H1 H3. destruct (Z.ltb_spec 0 s.(st_pending_vested_fees)).
    - eapply pay_out_fees_lossy; [done|done|by eapply fees_wf_globals].
    - inv_ok. unfold amount_ok in *. eapply lossy_weaken; [apply lossy_refl|lia..]. }
  pose proof (lossy_trans _ _ _ _ _ _ _ L1 L2) as [G (loss & Hl & Hl0 & F)].
  pose proof (flow_modify_statistics_at _ _ _ _ (- (s.(st_pending_fees) + s.(st_pending_vested_fees))) H3) as F3.
  apply modify_statistics_Ok in H3 as (s2 & s3 & Hs2 & Hs3 & ->). clear H1 H2.
  pose proof (Hpend d2 s2 G (proj2 (from_option_Ok _ _ _) Hs2)) as E2. injection E2 as Ep2 Ev2. split.
  - exists loss. split; [lia|]. split; [done|]. eapply flow_ext; [eapply flow_trans; [exact F|apply F3]|].
    + intros s4 s5 Hs4 Hcr H. same_ok. inv_ok. inv_safe. split; [exact Hcr|]. unfold stat_held. cbn. lia.
    + flow_arith.
  - inv_ok. eexists. split; [by apply from_option_Ok, lookup_insert_eq|done].
Qed.

(** ** Upgrading a status *)
#[export] Instance globals_update_pv d acct vol d' : Globals (update_pv d acct vol = Ok d') d d'.
Proof. intros H. unfold update_pv in H. inv_ok; solve_globals. Qed.

#[export] Instance globals_update_nv fuel d acct vol level max paid d' :
  Globals (update_nv fuel d acct vol level max paid = Ok d') d d'.
Proof.
  unfold Globals. revert d acct level max paid.
  induction fuel as [|fuel IH]; intros d acct level max paid H; [done|]. cbn in H.
  apply bind_Ok in H as (d1 & H1 & H). apply bind_Ok in H as ([cut max'] & _ & H).
  apply bind_Ok in H as (d2 & H2 & H).
  assert (same_globals d d2) as G. { etrans; [exact (globals H1)|]. clear H1 H. inv_ok; solve_globals. }
  case_match; [|by inv_ok]. apply bind_Ok in H as (ref & _ & H). apply bind_Ok in H as (? & _ & H).
  etrans; [exact G|by eapply IH].
Qed.

Lemma pendings_statistics d d' acct s :
  same_globals d d' → get_statistics d acct = Ok s →
  ∃ s', get_statistics d' acct = Ok s' ∧ pending s' = pending s.
Proof.
  intros (_ & _ & _ & Hg & _) H. apply from_option_Ok in H. unfold pendings in Hg.
  apply (f_equal (lookup acct)) in Hg. rewrite !lookup_fmap, H in Hg. cbn in Hg.
  destruct (d_statistics d' !! acct) as [s'|] eqn:E; [|done]. apply Some_inj in Hg.
  exists s'. split; [by apply from_option_Ok|done].
Qed.

Lemma status_upgrade_flow d o s d' R :
  account_status_upgrade_do_apply d o = Ok d' → 0 ≤ o.(su_fee).(amount) ≤ int64_max → fees_wf d → 0 ≤ R →
  rewards_below (parameters d) R → get_statistics d o.(su_account_to_upgrade) = Ok s →
  amount_ok s.(st_pending_fees) → amount_ok s.(st_pending_vested_fees) →
  ∃ bonus loss, 0 ≤ bonus ∧ GRAPHENE_100_PERCENT * bonus ≤ o.(su_fee).(amount) * R ∧ 0 ≤ loss ≤ 16 ∧
    flow d d' (λ a, core_only a (bonus - loss)).
Proof.
  intros H Hfee Hwf HR0 HR Hs Hp Hv. unfold account_status_upgrade_do_apply in H.
  apply bind_Ok in H as (a & _ & H). apply bind_Ok in H as (r & _ & H).
  apply bind_Ok in H as (d1 & H1 & H). apply bind_Ok in H as (d2 & H2 & H). apply bind_Ok in H as (d3 & H3 & H).
  pose proof (globals H1) as G1. pose proof (globals H2) as G2.
  assert (parameters d1 = parameters d) as Hp1 by (unfold parameters; by rewrite (proj1 G1)).
  apply (update_nv_flow _ _ _ _ _ _ _ _ R) in H2 as (bonus & Hb & Hbb & F2); [|done|lia|by rewrite Hp1].
  assert (same_globals d d2) as G by (by etrans).
  destruct (pendings_statistics _ _ _ _ G Hs) as (s2 & Hs2 & E2). injection E2 as Ep Ev.
  apply (process_fees_lossy _ _ s2) in H3 as [(loss & Hl & _ & F3) _];
    [|done|by eapply fees_wf_globals|by rewrite Ep|by rewrite Ev].
  exists bonus, loss. split; [done|]. split; [lia|]. split; [lia|]. solve_flow.
Qed.

(** ** Nothing runs out of fuel *)
Lemma terminates_pay_ref F rv n ref st : terminates (pay_ref F rv n ref st).
Proof.
  unfold pay_ref. apply terminates_bind; [solve_terminates|intros a _]. case_match; [|discriminate].
  apply terminates_bind; [solve_terminates|intros cut _].
  apply terminates_bind; [unfold denominate; solve_terminates|intros [cut' w] _].
  apply terminates_bind; [unfold pay_reward; solve_terminates|intros [reward d1] _].
  apply terminates_bind; [|intros d2 _; solve_terminates].
  unfold gr_reward. solve_terminates. apply terminates_index_modify. intros t.
  unfold count_gr_team. cbv zeta. solve_terminates.
Qed.

Lemma terminates_pay_refs F rv levels prev ref st : levels_wf st.(po_db) → terminates (pay_refs F rv levels prev ref st).
Proof.
  revert prev ref st. induction levels as [|n levels IH]; intros prev ref st Hwf; cbn [pay_refs]; [discriminate|].
  case_match; [|discriminate]. apply terminates_bind; [apply terminates_pay_ref|intros st1 H1%globals_pay_ref].
  destruct levels as [|m levels]; [discriminate|]. apply (levels_wf_globals _ _ H1) in Hwf.
  apply terminates_bind; [by apply next_rewardable_terminates|intros next _].
  apply terminates_bind; [solve_terminates|intros ? _]. by apply IH.
Qed.

Lemma terminates_pay_out_fees d acct F rv : levels_wf d → terminates (pay_out_fees d acct F rv).
Proof.
  intros Hwf. unfold pay_out_fees. apply terminates_bind; [solve_terminates|intros a _].
  apply terminates_bind; [case_match; [discriminate|by apply next_rewardable_terminates]|intros r _].
  apply terminates_bind; [solve_terminates|intros ? _].
  apply terminates_bind; [by apply terminates_pay_refs|intros st _].
  apply terminates_modify_dynamic_data. intros s. solve_terminates.
Qed.

Lemma terminates_process_fees d acct : levels_wf d → terminates (process_fees d acct).
Proof.
  intros Hwf. unfold process_fees. apply terminates_bind; [solve_terminates|intros s _]. case_match; [|discriminate].
  apply terminates_bind; [case_match; [by apply terminates_pay_out_fees|discriminate]|intros d1 H1].
  assert (same_globals d d1) as G1 by (inv_ok; solve_globals).
  apply terminates_bind; [solve_terminates|intros s1 _].
  apply terminates_bind; [|intros d2 _; solve_terminates].
  destruct (0 <? s1.(st_pending_vested_fees)); [apply terminates_pay_out_fees; by eapply levels_wf_globals|discriminate].
Qed.

(** The loop over the days ends: with their number, or in the overflow of its counter. *)
Definition counted (bonus : Z) (s : Z * Z) : Prop := 0 ≤ s.1 ≤ INT_MAX ∧ s.1 ≤ bonus ∧ s.2 = s.1.
Lemma bonus_round_counted bonus s :
  counted bonus s →
  match bonus_round bonus s with
  | Ok (inl s') => counted bonus s' ∧ s'.1 = s.1 + 1
  | Ok (inr x) => x = bonus ∧ bonus ≤ INT_MAX
  | Err e => e = undefined_behaviour ∧ INT_MAX < bonus
  end.
Proof.
  destruct s as [i u]. unfold counted, bonus_round. cbn. intros (Hi & Hb & ->).
  destruct (Z.ltb_spec i bonus); [|lia]. destruct (Z.eqb_spec i INT_MAX); [split; [done|lia]|]. cbn.
  unfold u64. rewrite Z.mod_small; [lia|unfold INT_MAX, uint64_mod in *; lia].
Qed.
Lemma count_bonus_eq bonus :
  0 ≤ bonus → count_bonus bonus = if bonus <=? INT_MAX then Ok bonus else Err undefined_behaviour.
Proof.
  intros Hb. unfold count_bonus.
  assert (counted bonus (0, 0)) as H0 by (unfold counted, INT_MAX; cbn; lia).
  pose proof (bonus_round_counted bonus) as Hr. destruct (while_loop bonus_loop_rounds (bonus_round bonus) (0, 0)) as [r|e] eqn:E.
  - assert (match r with inl s => counted bonus s | inr x => x = bonus ∧ bonus ≤ INT_MAX end) as HQ.
    { eapply (while_inv _ (counted bonus) (λ x, x = bonus ∧ bonus ≤ INT_MAX)); [|exact H0|exact E].
      intros s r' Hs Hr'. specialize (Hr s Hs). rewrite Hr' in Hr. destruct r'; tauto. }
    assert (match r with inl _ => False | inr _ => True end) as HE.
    { eapply (while_ends _ (counted bonus) (λ s, INT_MAX - s.1)); [|exact H0| |exact E]; [|change (2 ^ Z.of_nat bonus_loop_rounds) with 4294967296; cbn; unfold INT_MAX; lia].
      intros s s' Hs Hs'. specialize (Hr s Hs). rewrite Hs' in Hr. destruct Hr as [Hc Hi]. split; [done|].
      unfold counted in *. lia. }
    destruct r as [|x]; [done|]. destruct HQ as [-> HQ]. cbn. by rewrite (proj2 (Z.leb_le _ _) HQ).
  - assert (e = undefined_behaviour ∧ INT_MAX < bonus) as [-> Hlt].
    { destruct (while_Err _ (counted bonus) _ _ _ (λ s s' Hs Hs', ltac:(specialize (Hr s Hs); rewrite Hs' in Hr; tauto)) H0 E)
        as (s & Hs & He). specialize (Hr s Hs). by rewrite He in Hr. }
    cbn. by rewrite (proj2 (Z.leb_gt _ _) Hlt).
Qed.

Lemma terminates_add_days t n : terminates (add_days t n).
Proof. unfold add_days. case_match; discriminate. Qed.
Lemma terminates_upgrade_status params now o a : terminates (upgrade_status params now o a).
Proof.
  unfold upgrade_status, bonus_days. cbv zeta. assert (∀ x y, terminates (safe_div x y)) as Hd.
  { intros x y. unfold safe_div, terminates. by repeat case_match. }
  apply terminates_bind; [|intros; discriminate]. case_match; [discriminate|].
  apply terminates_bind; [case_match; [|discriminate];
    repeat (apply terminates_bind; [first [apply Hd|solve_terminates]|intros ? _]); solve_terminates|intros bonus _].
  apply terminates_bind; [|intros; discriminate]. destruct (Z.ltb_spec 0 bonus); [|discriminate].
  apply terminates_bind; [|intros; apply terminates_add_days].
  rewrite count_bonus_eq by lia. case_match; discriminate.
Qed.

(** ** Properties of the referral system *)

(** C14. Paying out the fees of an account pays out all of them: the pending
    fees are cleared, and what the referrers, the creditors, the reserve and
    the network receive adds up to them but for rounding, at most sixteen units
    of the core asset, none before block 24940000. *)
Theorem process_fees_pays_out d acct s d'
  (Hd : ledger_ok d) (Hwf : fees_wf d) (Hs : get_statistics d acct = Ok s)
  (Hp : amount_ok s.(st_pending_fees)) (Hv : amount_ok s.(st_pending_vested_fees))
  (H : process_fees d acct = Ok d') :
  ledger_ok d' ∧
  (∃ loss, 0 ≤ loss ≤ 16 ∧ (head_block_num d < HARDFORK_CORE_1480_BLOCK_NUM → loss = 0) ∧
     ∀ a, imbalance d' a = imbalance d a - (if CORE =? a then loss else 0)) ∧
  ∃ s', get_statistics d' acct = Ok s' ∧ s'.(st_pending_fees) = 0 ∧ s'.(st_pending_vested_fees) = 0.
Proof.
  destruct (process_fees_lossy _ _ _ _ H Hs Hwf Hp Hv) as [(loss & Hl & Hl0 & F) Hs'].
  destruct (F Hd) as [Hd' E]. split; [done|]. split; [|done]. exists loss. split; [done|]. split; [done|].
  intros a. rewrite E. flow_arith.
Qed.

(** C15. The leader bonus is bounded: an upgrade whose fee is [v] brings at
    most the largest reward percentage of [v] into the books of the core
    asset, however long the line of referrers and however the volumes are
    spread along it. *)
Theorem status_upgrade_bonus_bounded d o s d' R
  (Hd : ledger_ok d) (Hwf : fees_wf d) (HR0 : 0 ≤ R) (HR : rewards_below (parameters d) R)
  (Hval : account_status_upgrade_validate o = Ok tt) (Hfee : o.(su_fee).(amount) ≤ int64_max)
  (Hs : get_statistics d o.(su_account_to_upgrade) = Ok s)
  (Hp : amount_ok s.(st_pending_fees)) (Hv : amount_ok s.(st_pending_vested_fees))
  (H : account_status_upgrade_do_apply d o = Ok d') :
  ledger_ok d' ∧
  (∀ a, a ≠ CORE → imbalance d' a = imbalance d a) ∧
  imbalance d CORE - 16 ≤ imbalance d' CORE ≤ imbalance d CORE + (o.(su_fee).(amount) * R) `div` GRAPHENE_100_PERCENT.
Proof.
  unfold account_status_upgrade_validate in Hval. inv_ok; propify.
  destruct (status_upgrade_flow _ _ s _ R H) as (bonus & loss & Hb & Hbb & Hl & F); [done..|].
  destruct (F Hd) as [Hd' E]. split; [done|]. split.
  - intros a Ha. rewrite E. unfold core_only, at_id. case_match; propify; [congruence|lia].
  - rewrite E. unfold core_only, at_id. rewrite Z.eqb_refl. unfold GRAPHENE_100_PERCENT in *.
    assert (bonus ≤ (o.(su_fee).(amount) * R) `div` 10000) by (apply Z.div_le_lower_bound; lia). lia.
Qed.

(** An upgrade never runs out of fuel: the searches along the line of
    referrers, the leader bonus and the eight levels of rewards end within the
    bounds of the model whatever the referral graph, cycles included, as long
    as the 8-bit level parameters are below their largest value; the loop over the
    bonus days ends with their number as long as it fits its counter. *)
Theorem status_upgrade_terminates d o (Hwf : levels_wf d) :
  account_status_upgrade_do_apply d o ≠ Err out_of_fuel ∧
  ∀ bonus, 0 ≤ bonus → count_bonus bonus = if bonus <=? INT_MAX then Ok bonus else Err undefined_behaviour.
Proof.
  split; [|exact count_bonus_eq]. change (terminates (account_status_upgrade_do_apply d o)). unfold account_status_upgrade_do_apply.
  apply terminates_bind; [solve_terminates|intros a _]. apply terminates_bind; [solve_terminates|intros r _].
  apply terminates_bind; [unfold update_pv; solve_terminates|intros d1 H1].
  apply globals in H1. apply (levels_wf_globals _ _ H1) in Hwf.
  apply terminates_bind; [|intros d2 H2].
  { destruct Hwf as [? Hn]. apply update_nv_terminates_from; [done|lia|unfold referral_fuel; lia|unfold referral_fuel; lia]. }
  apply globals in H2. apply (levels_wf_globals _ _ H2) in Hwf.
  apply terminates_bind; [by apply terminates_process_fees|intros d3 _].
  apply terminates_modify_account. intros x. apply terminates_upgrade_status.
Qed.

(** The [k]-th referrer above an account. *)
Fixpoint nth_referrer (k : nat) (d : database) (id : Z) : option Z :=
  match k with
  | O => Some id
  | S k => a ← d.(d_accounts).(objs) !! id; nth_referrer k d a.(acc_referrer)
  end.

Lemma line_avoids_sound n d account_id id a k :
  line_avoids n d account_id a = Ok true → d.(d_accounts).(objs) !! id = Some a → (k < n)%nat →
  (∀ j r b, (0 < j ≤ k)%nat → nth_referrer j d id = Some r → d.(d_accounts).(objs) !! r = Some b →
     (parameters d).(cp_root_account) ≤ b.(acc_referrer)) →
  nth_referrer (S k) d id ≠ Some account_id.
Proof.
  revert id a k. induction n as [|n IH]; intros id a k H Ha Hk Hroot; [lia|]. cbn [line_avoids] in H.
  apply bind_Ok in H as (b & Hb & H). apply index_get_Ok in Hb.
  destruct (Z.eqb_spec a.(acc_referrer) account_id) as [|Hne]; [done|].
  cbn [nth_referrer]. rewrite Ha. cbn. destruct k as [|k]; [cbn; congruence|].
  destruct (Z.ltb_spec b.(acc_referrer) (parameters d).(cp_root_account)) as [Hlt|_].
  - specialize (Hroot 1%nat a.(acc_referrer) b). cbn in Hroot. rewrite Ha in Hroot. cbn in Hroot.
    specialize (Hroot ltac:(lia) eq_refl Hb). lia.
  - apply (IH _ b); [done|done|lia|]. intros j r c Hj Hr Hc. apply (Hroot (S j) r c); [lia| |done].
    cbn. by rewrite Ha.
Qed.

(** C24. A change of referrer closes no loop that the line can meet: an
    accepted new referrer is neither the account itself nor referred by it
    through up to [compression_levels] referrers above the root. *)
Theorem change_referrer_no_loop d o new k
  (Hfork : HARDFORK_CORE_1480_BLOCK_NUM < head_block_num d)
  (Heval : change_referrer_do_evaluate d o = Ok tt)
  (Hnew : d.(d_accounts).(objs) !! o.(cr_new_referrer) = Some new)
  (Hk : (k ≤ Z.to_nat (parameters d).(cp_compression_levels))%nat)
  (Hroot : ∀ j r b, (0 < j < k)%nat → nth_referrer j d o.(cr_new_referrer) = Some r →
     d.(d_accounts).(objs) !! r = Some b → (parameters d).(cp_root_account) ≤ b.(acc_referrer)) :
  nth_referrer k d o.(cr_new_referrer) ≠ Some o.(cr_account_id).
Proof.
  unfold change_referrer_do_evaluate in Heval. inv_ok; propify; [|lia].
  destruct k as [|k]; [cbn; congruence|].
  match goal with Hg : get_account _ o.(cr_new_referrer) = Ok _ |- _ => apply index_get_Ok in Hg end. same_ok.
  eapply line_avoids_sound; [done|done|lia|]. intros j r b Hj. apply Hroot. lia.
Qed.

(** ** Witnesses *)
Definition fee_statistics : account_statistics_object :=
  new_statistics <| st_pending_fees := 3333 |> <| st_pending_vested_fees := 777 |>.
Definition fee_db : database :=
  sample_db <| d_statistics := <[7 := fee_statistics]> sample_db.(d_statistics) |>
            <| d_accounts := Index (<[7 := sample_account 6]> sample_db.(d_accounts).(objs)) 9 |>.

Lemma fee_db_ledger_ok : ledger_ok fee_db.
Proof. split; by apply (bool_decide_unpack _). Qed.
Lemma fee_db_fees_wf : fees_wf fee_db.
Proof. split; by apply (bool_decide_unpack _). Qed.

Lemma process_fees_pays_out_witness :
  is_ok (process_fees fee_db 7) = true ∧
  let d' := ok_or fee_db (process_fees fee_db 7) in
  ledger_ok d' ∧
  (∃ loss, 0 ≤ loss ≤ 16 ∧ (head_block_num fee_db < HARDFORK_CORE_1480_BLOCK_NUM → loss = 0) ∧
     ∀ a, imbalance d' a = imbalance fee_db a - (if CORE =? a then loss else 0)) ∧
  ∃ s', get_statistics d' 7 = Ok s' ∧ s'.(st_pending_fees) = 0 ∧ s'.(st_pending_vested_fees) = 0.
Proof.
  split; [vm_compute; reflexivity|].
  apply (process_fees_pays_out fee_db 7 fee_statistics);
    [exact fee_db_ledger_ok|exact fee_db_fees_wf|vm_compute; reflexivity|unfold amount_ok, int64_max; cbn; lia..|].
  destruct (process_fees fee_db 7) eqn:E; [reflexivity|]. exfalso. vm_compute in E. discriminate E.
Defined.

Definition sample_upgrade : account_status_upgrade_operation := StatusUpgradeOp (Asset 100000 0) 7 4.

Lemma status_upgrade_bonus_bounded_witness :
  is_ok (account_status_upgrade_do_apply fee_db sample_upgrade) = true ∧
  let d' := ok_or fee_db (account_status_upgrade_do_apply fee_db sample_upgrade) in
  ledger_ok d' ∧
  (∀ a, a ≠ CORE → imbalance d' a = imbalance fee_db a) ∧
  imbalance fee_db CORE - 16 ≤ imbalance d' CORE ≤ imbalance fee_db CORE + (100000 * 100) `div` GRAPHENE_100_PERCENT.
Proof.
  split; [vm_compute; reflexivity|].
  apply (status_upgrade_bonus_bounded fee_db sample_upgrade fee_statistics _ 100);
    [exact fee_db_ledger_ok|exact fee_db_fees_wf|lia| |reflexivity|unfold int64_max; cbn; lia
    |vm_compute; reflexivity|unfold amount_ok, int64_max; cbn; lia..|].
  - split; [by apply (bool_decide_unpack _)|unfold GRAPHENE_100_PERCENT; lia].
  - destruct (account_status_upgrade_do_apply fee_db sample_upgrade) eqn:E; [reflexivity|].
    exfalso. vm_compute in E. discriminate E.
Defined.

Lemma status_upgrade_terminates_witness :
  account_status_upgrade_do_apply fee_db sample_upgrade ≠ Err out_of_fuel ∧
  ∀ bonus, 0 ≤ bonus → count_bonus bonus = if bonus <=? INT_MAX then Ok bonus else Err undefined_behaviour.
Proof. apply (status_upgrade_terminates fee_db sample_upgrade). split; vm_compute; split; congruence. Defined.

Lemma change_referrer_no_loop_witness : nth_referrer 2 fee_db 8 ≠ Some 7.
Proof.
  apply (change_referrer_no_loop fee_db (ChangeReferrerOp (Asset 0 0) 7 8) (sample_account 5) 2).
  - vm_compute. reflexivity.
  - vm_compute. reflexivity.
  - vm_compute. reflexivity.
  - vm_compute. lia.
  - intros j r b Hj Hr Hb. assert (j = 1%nat) as -> by lia. vm_compute in Hr. injection Hr as <-.
    vm_compute in Hb. injection Hb as <-. vm_compute. discriminate.
Defined.
