(* ===== verification/Cursor.v ===== *)
(** * Loops over an ordered index whose body moves the current object

    [db_update.cpp] walks the secondary index of a table, ordered by
    expiration, from [upper_bound(1)] to [lower_bound(head_time)], and its body
    sets the expiration of the object under the iterator to zero.  The
    modification moves the object, and with it the iterator, behind the objects
    that already have expiration zero, so that the next increment starts over.
    This file models such a loop ([scan]) and shows, once for all tables, that it
    ends, that it leaves no object behind, and that what every iteration preserves
    it preserves.

    The index keeps objects of equal expiration in the order in which they came
    there; the model takes their identifiers. *)
From S2P Require Import Prelude.

(** The order of a composite key. *)
Definition pair_ltb (x y : Z * Z) : bool := (x.1 <? y.1) || ((x.1 =? y.1) && (x.2 <? y.2)).

Section cursor.
Context {V : Type} (key : V → Z).

(** The first position that satisfies [p]. *)
Definition least (p : Z * Z → bool) (m : gmap Z V) : option (Z * Z) :=
  map_fold (λ id v acc,
    if p (key v, id) then
      match acc with
      | Some b => if pair_ltb (key v, id) b then Some (key v, id) else acc
      | None => Some (key v, id)
      end
    else acc) None m.

Context {S : Type} (get : S → gmap Z V) (body : S → Z → result S) (hi : Z).

(** What follows the object [id], found at the key [e], when the iteration
    leaves it at the key [e']: the next of the same key, or, if it has moved, what
    follows the last object of its new key. *)
Definition after (e id e' : Z) (k : Z * Z) : bool :=
  if e' =? e then pair_ltb (e, id) k else e' <? k.1.

(** From the position [itr] to [lower_bound(hi)]. *)
Fixpoint scan (fuel : nat) (s : S) (itr : option (Z * Z)) : result S :=
  match itr with
  | Some (e, id) =>
    if e <? hi then
      match fuel with
      | O => Err out_of_fuel
      | Datatypes.S fuel =>
        s' ← body s id;
        v ← from_option_exn assert_exception (get s' !! id);
        scan fuel s' (least (after e id (key v)) (get s'))
      end
    else Ok s
  | None => Ok s
  end.

Definition scan_fuel (s : S) : nat := let n := size (get s) in (n + 1) * (n + 1).

(** From [upper_bound(1)] to [lower_bound(hi)]. *)
Definition scan_expired (s : S) : result S := scan (scan_fuel s) s (least (λ k, 1 <? k.1) (get s)).

(** The last position of an index ordered by [key] and identifier. *)
Definition greatest (m : gmap Z V) : option (Z * Z) :=
  map_fold (λ id v acc,
    match acc with
    | Some b => if pair_ltb b (key v, id) then Some (key v, id) else acc
    | None => Some (key v, id)
    end) None m.

(** [while( !idx.empty() && idx.rbegin()->status == st ) remove( *idx.rbegin() )] *)
Fixpoint drain (fuel : nat) (st : Z) (s : S) : result S :=
  match greatest (get s) with
  | Some (e, id) =>
    if e =? st then
      match fuel with
      | O => Err out_of_fuel
      | Datatypes.S fuel => s' ← body s id; drain fuel st s'
      end
    else Ok s
  | None => Ok s
  end.

(** ** Lemmas *)
Lemma least_spec p m :
  match least p m with
  | Some (e, id) => ∃ v, m !! id = Some v ∧ key v = e ∧ p (e, id) = true ∧
      ∀ j w, m !! j = Some w → p (key w, j) = true → pair_ltb (key w, j) (e, id) = false
  | None => ∀ j w, m !! j = Some w → p (key w, j) = false
  end.
Proof.
  unfold least. apply (map_fold_weak_ind (λ (acc : option (Z * Z)) (m : gmap Z V),
    match acc with
    | Some (e, id) => ∃ v, m !! id = Some v ∧ key v = e ∧ p (e, id) = true ∧
        ∀ j w, m !! j = Some w → p (key w, j) = true → pair_ltb (key w, j) (e, id) = false
    | None => ∀ j w, m !! j = Some w → p (key w, j) = false
    end)).
  - intros j w. by rewrite lookup_empty.
  - intros id v m' acc Hn IH. destruct (p (key v, id)) eqn:Hp.
    + assert (∀ b, (∀ j w, m' !! j = Some w → p (key w, j) = true → pair_ltb (key w, j) b = false) →
        pair_ltb (key v, id) b = true →
        ∀ j w, <[id:=v]> m' !! j = Some w → p (key w, j) = true → pair_ltb (key w, j) (key v, id) = false) as Hnew.
      { intros b Hb Hlt j w [[<- <-]|[_ Hj]]%lookup_insert_Some Hpj; unfold pair_ltb in *; cbn in *.
        - rewrite !Z.ltb_irrefl, Z.eqb_refl. done.
        - specialize (Hb _ _ Hj Hpj). cbn in Hb. propify. lia. }
      destruct acc as [[e j]|].
      * destruct (pair_ltb (key v, id) (e, j)) eqn:Hlt.
        -- exists v. destruct IH as (? & ? & ? & ? & Hmin). split; [apply lookup_insert_eq|].
           split; [done|]. split; [done|]. by apply (Hnew (e, j)).
        -- destruct IH as (w & Hw & <- & Hpj & Hmin). exists w.
           split; [rewrite lookup_insert_ne; [done|congruence]|]. split; [done|]. split; [done|].
           intros k u [[<- <-]|[_ Hk]]%lookup_insert_Some Hpk; [done|by apply Hmin].
      * exists v. split; [apply lookup_insert_eq|]. split; [done|]. split; [done|].
        intros j w [[<- <-]|[_ Hj]]%lookup_insert_Some Hpj; [unfold pair_ltb; cbn; by rewrite !Z.ltb_irrefl, Z.eqb_refl|].
        by rewrite (IH _ _ Hj) in Hpj.
    + destruct acc as [[e j]|].
      * destruct IH as (w & Hw & <- & Hpj & Hmin). exists w.
        split; [rewrite lookup_insert_ne; [done|congruence]|]. split; [done|]. split; [done|].
        intros k u [[<- <-]|[_ Hk]]%lookup_insert_Some Hpk; [congruence|by apply Hmin].
      * intros k u [[<- <-]|[_ Hk]]%lookup_insert_Some; [done|by apply IH].
Qed.

Lemma greatest_spec m :
  match greatest m with
  | Some (e, id) => ∃ v, m !! id = Some v ∧ key v = e ∧ ∀ j w, m !! j = Some w → key w ≤ e
  | None => ∀ j, m !! j = None
  end.
Proof.
  unfold greatest. apply (map_fold_weak_ind (λ (acc : option (Z * Z)) (m : gmap Z V),
    match acc with
    | Some (e, id) => ∃ v, m !! id = Some v ∧ key v = e ∧ ∀ j w, m !! j = Some w → key w ≤ e
    | None => ∀ j, m !! j = None
    end)).
  - intros j. apply lookup_empty.
  - intros id v m' acc Hn IH. destruct acc as [[e j]|].
    + destruct IH as (w & Hw & <- & Hmax). destruct (pair_ltb (key w, j) (key v, id)) eqn:Hlt;
        unfold pair_ltb in Hlt; cbn in Hlt; propify.
      * exists v. split; [apply lookup_insert_eq|]. split; [done|].
        intros k u [[<- <-]|[_ Hk]]%lookup_insert_Some; [lia|]. specialize (Hmax _ _ Hk). lia.
      * exists w. split; [rewrite lookup_insert_ne; [done|congruence]|]. split; [done|].
        intros k u [[<- <-]|[_ Hk]]%lookup_insert_Some; [lia|]. by apply (Hmax _ _ Hk).
    + exists v. split; [apply lookup_insert_eq|]. split; [done|].
      intros k u [[<- <-]|[_ Hk]]%lookup_insert_Some; [done|]. by rewrite IH in Hk.
Qed.

(** Removing the last objects of a status: what the removals preserve, the end
    of the loop, and that no object of the status is left when it is the last
    one. *)
Lemma drain_preserves (R : S → S → Prop) `{!PreOrder R} fuel st s s' :
  (∀ s id v s', get s !! id = Some v → key v = st → body s id = Ok s' → R s s') →
  drain fuel st s = Ok s' → R s s'.
Proof.
  intros Hb. revert s. induction fuel as [|fuel IH]; intros s H; cbn in H;
    pose proof (greatest_spec (get s)) as Hg; destruct (greatest (get s)) as [[e id]|]; try (by inv_ok);
    (destruct (Z.eqb_spec e st) as [->|]; [|by inv_ok]).
  apply bind_Ok in H as (s1 & H1 & H). destruct Hg as (v & Hv & Hk & _). etrans; [by eapply Hb|by apply IH].
Qed.

Lemma drain_filters fuel st s :
  (∀ s id, body s id ≠ Err out_of_fuel) →
  (∀ s id s', body s id = Ok s' → get s' = delete id (get s)) →
  (∀ j w, get s !! j = Some w → key w ≤ st) → (size (get s) ≤ fuel)%nat →
  drain fuel st s ≠ Err out_of_fuel ∧
  ∀ s', drain fuel st s = Ok s' → get s' = filter (λ x, key x.2 ≠ st) (get s).
Proof.
  intros Ht Hb. revert s. induction fuel as [|fuel IH]; intros s Hle Hf; cbn [drain];
    pose proof (greatest_spec (get s)) as Hg; destruct (greatest (get s)) as [[e id]|].
  2,4: split; [done|]; intros s' [= <-]; symmetry; apply map_filter_id; intros j w Hj; by rewrite Hg in Hj.
  all: destruct Hg as (v & Hv & Hk & Hmax); destruct (Z.eqb_spec e st) as [->|Hne].
  2,4: split; [done|]; intros s' [= <-]; symmetry; apply map_filter_id; intros j w Hj; cbn;
    specialize (Hmax _ _ Hj); specialize (Hle _ _ Hv); lia.
  { exfalso. assert (size (get s) = 0%nat) as Hz%map_size_empty_inv by lia. by rewrite Hz, lookup_empty in Hv. }
  destruct (body s id) as [s1|ex] eqn:Hs1; [|split; [|done]; cbn; intros [= ->]; by apply (Ht s id)].
  pose proof (Hb _ _ _ Hs1) as E. cbn [mbind result_bind].
  assert (size (get s) ≠ 0%nat) by (intros Hz%map_size_empty_inv; by rewrite Hz, lookup_empty in Hv).
  destruct (IH s1) as [H1 H2].
  { intros j w Hj. rewrite E in Hj. apply lookup_delete_Some in Hj as [_ Hj]. by apply (Hle j). }
  { rewrite E, map_size_delete_Some by (by exists v). lia. }
  split; [done|]. intros s' Hs'. rewrite (H2 _ Hs'), E, map_filter_delete. apply delete_id.
  apply map_lookup_filter_None. right. intros w Hw. cbn. replace w with v by congruence. tauto.
Qed.

(** What every iteration preserves. *)
Lemma scan_preserves (R : S → S → Prop) `{!PreOrder R} fuel s itr s' :
  (∀ s id s', body s id = Ok s' → R s s') → scan fuel s itr = Ok s' → R s s'.
Proof.
  intros Hb. revert s itr. induction fuel as [|fuel IH]; intros s [[e id]|] H; cbn in H.
  all: try (case_match; [|by inv_ok]); try by inv_ok.
  apply bind_Ok in H as (s1 & H1 & H). apply bind_Ok in H as (v & _ & H). etrans; [by eapply Hb|by eapply IH].
Qed.

(** ** The loop ends and is complete

    [todo] says which objects are waiting for the loop: an iteration moves them
    to the front and they are done; the others keep their place. *)
Section complete.
Context (todo : V → bool) (Inv : S → Prop).
Hypothesis body_terminates : ∀ s id, body s id ≠ Err out_of_fuel.
Hypothesis body_spec : ∀ s id v s', Inv s → get s !! id = Some v → key v < hi → body s id = Ok s' →
  Inv s' ∧ ∃ v', get s' = <[id := v']> (get s) ∧ todo v' = false ∧ if todo v then key v' ≤ 1 else key v' = key v.

Definition left_todo (m : gmap Z V) : nat := size (filter (λ x, x.2 = true) (todo <$> m)).
Definition from_here (c : Z * Z) (m : gmap Z V) : nat := size (filter (λ x, pair_ltb (x.2, x.1) c = false) (key <$> m)).

Lemma left_todo_done m id v v' :
  m !! id = Some v → todo v = true → todo v' = false → (left_todo (<[id := v']> m) < left_todo m)%nat.
Proof.
  intros Hv Ht Ht'. unfold left_todo. rewrite fmap_insert, Ht'. rewrite map_filter_insert_False by done.
  rewrite map_filter_delete.
  assert (filter (λ x, x.2 = true) (todo <$> m) !! id = Some true) as Hf.
  { apply map_lookup_filter_Some. rewrite lookup_fmap, Hv. cbn. by rewrite Ht. }
  rewrite map_size_delete_Some by (by exists true).
  assert (size (filter (λ x, x.2 = true) (todo <$> m)) ≠ 0%nat); [|lia].
  intros Hz%map_size_empty_inv. rewrite Hz, lookup_empty in Hf. done.
Qed.

Lemma left_todo_same m id v v' : m !! id = Some v → todo v' = todo v → left_todo (<[id := v']> m) = left_todo m.
Proof.
  intros Hv Ht. unfold left_todo. rewrite fmap_insert, Ht, insert_id; [done|]. by rewrite lookup_fmap, Hv.
Qed.

Lemma from_here_le c m : (from_here c m ≤ size m)%nat.
Proof. unfold from_here. rewrite <-(map_size_fmap key m). apply map_subseteq_size, map_filter_subseteq. Qed.

Lemma from_here_same c m id v v' : m !! id = Some v → key v' = key v → from_here c (<[id := v']> m) = from_here c m.
Proof.
  intros Hv Hk. unfold from_here. rewrite fmap_insert, Hk, insert_id; [done|]. by rewrite lookup_fmap, Hv.
Qed.

Lemma from_here_next m id v e j w :
  m !! id = Some v → m !! j = Some w → key w = e → pair_ltb (key v, id) (e, j) = true →
  (from_here (e, j) m < from_here (key v, id) m)%nat.
Proof.
  intros Hv Hw <- Hlt. unfold from_here. apply map_subset_size. apply map_subset_alt. split.
  - apply map_subseteq_spec. intros k u Hk. apply map_lookup_filter_Some in Hk as [Hk Hp].
    apply map_lookup_filter_Some. split; [done|]. unfold pair_ltb in *. cbn in *. propify. lia.
  - exists id. split.
    + apply map_lookup_filter_None. right. intros u Hu ?. rewrite lookup_fmap, Hv in Hu. injection Hu as <-.
      cbn in *. congruence.
    + exists (key v). apply map_lookup_filter_Some. rewrite lookup_fmap, Hv. split; [done|].
      unfold pair_ltb. cbn. by rewrite !Z.ltb_irrefl, Z.eqb_refl.
Qed.

Definition nothing_left (m : gmap Z V) : Prop := ∀ j w, m !! j = Some w → todo w = true → 1 < key w → hi ≤ key w.

Lemma scan_complete fuel s itr :
  Inv s →
  match itr with
  | Some c => (∃ v, get s !! c.2 = Some v ∧ key v = c.1) ∧
      (∀ j w, get s !! j = Some w → todo w = true → 1 < key w → pair_ltb (key w, j) c = false) ∧
      (left_todo (get s) * (size (get s) + 1) + from_here c (get s) ≤ fuel)%nat
  | None => ∀ j w, get s !! j = Some w → todo w = true → key w ≤ 1
  end →
  scan fuel s itr ≠ Err out_of_fuel ∧ ∀ s', scan fuel s itr = Ok s' → Inv s' ∧ nothing_left (get s').
Proof using body_spec body_terminates.
  revert s itr. induction fuel as [|fuel IH]; intros s [[e id]|] HI H; cbn [scan].
  2,4: split; [done|]; intros s' [= <-]; split; [done|]; intros j w Hj Ht Hk; specialize (H j w Hj Ht); lia.
  all: destruct H as ((v & Hv & He) & Hmin & Hfuel); cbn [fst snd] in *; destruct (Z.ltb_spec e hi) as [Hlt|Hge];
    [|split; [done|]; intros s' [= <-]; split; [done|]; intros j w Hj Ht Hk; specialize (Hmin j w Hj Ht Hk);
      unfold pair_ltb in Hmin; cbn in Hmin; propify; lia].
  { exfalso. assert (from_here (e, id) (get s) ≠ 0%nat); [|lia]. intros Hz%map_size_empty_inv.
    apply (f_equal (lookup id)) in Hz. rewrite lookup_empty in Hz. apply map_lookup_filter_None in Hz as [Hz|Hz].
    - by rewrite lookup_fmap, Hv in Hz.
    - apply (Hz (key v)); [by rewrite lookup_fmap, Hv|]. subst. unfold pair_ltb. cbn.
      by rewrite !Z.ltb_irrefl, Z.eqb_refl. }
  destruct (body s id) as [s1|ex] eqn:Hb; [|split; [|done]; cbn; intros [= ->]; by apply (body_terminates s id)].
  cbn [mbind result_bind]. destruct (body_spec _ _ _ _ HI Hv ltac:(lia) Hb) as [HI1 Hspec].
  assert (∃ v1, get s1 !! id = Some v1 ∧ size (get s1) = size (get s) ∧
    (∀ j w, get s1 !! j = Some w → todo w = true → 1 < key w → after e id (key v1) (key w, j) = true) ∧
    (∀ c', (∃ w, get s1 !! c'.2 = Some w ∧ key w = c'.1) → after e id (key v1) c' = true →
       (left_todo (get s1) * (size (get s) + 1) + from_here c' (get s1) ≤ fuel)%nat))
    as (v1 & Hv1 & Hsize & Hafter & Hfuel1).
  { destruct Hspec as (v' & Hs1 & Ht' & Hk'). exists v'. rewrite Hs1. split; [apply lookup_insert_eq|].
    split; [by rewrite map_size_insert_Some by (by exists v)|]. destruct (todo v) eqn:Ht; split.
    - intros j w [[<- <-]|[Hne Hj]]%lookup_insert_Some Htw Hk; [congruence|].
      unfold after, pair_ltb. case_match; cbn; propify; lia.
    - intros c' _ _. pose proof (left_todo_done _ _ _ _ Hv Ht Ht').
      pose proof (from_here_le c' (<[id:=v']> (get s))) as Hle.
      rewrite map_size_insert_Some in Hle by (by exists v). nia.
    - intros j w [[<- <-]|[Hne Hj]]%lookup_insert_Some Htw Hk; [congruence|].
      specialize (Hmin j w Hj Htw Hk). rewrite Hk', He. unfold after, pair_ltb in *. rewrite Z.eqb_refl.
      cbn in *. propify. lia.
    - intros [e' j] (w & Hw & Hk) Hlt'. rewrite (from_here_same _ _ _ _ _ Hv Hk').
      rewrite (left_todo_same _ _ _ _ Hv (eq_trans Ht' (eq_sym Ht))).
      enough (from_here (e', j) (get s) < from_here (e, id) (get s))%nat by lia.
      rewrite Hk', He in Hlt'. unfold after in Hlt'. rewrite Z.eqb_refl, <-He in Hlt'. rewrite <-He. cbn in Hw, Hk.
      apply lookup_insert_Some in Hw as [[<- <-]|[Hne Hw]].
      + apply (from_here_next _ _ _ _ _ v); [done|done|congruence|done].
      + by apply (from_here_next _ _ _ _ _ w). }
  rewrite Hv1. cbn [from_option_exn mbind result_bind]. apply IH; [done|].
  pose proof (least_spec (after e id (key v1)) (get s1)) as Hl.
  destruct (least (after e id (key v1)) (get s1)) as [[e' j]|].
  - destruct Hl as (w & Hw & Hk & Hp & Hleast). split; [by exists w|]. split.
    + intros k u Hu Htu Hku. apply Hleast; [done|]. by apply Hafter.
    + rewrite Hsize. apply Hfuel1; [by exists w|done].
  - intros j w Hj Htw. destruct (Z.le_gt_cases (key w) 1); [done|].
    pose proof (Hafter _ _ Hj Htw ltac:(lia)). by rewrite (Hl _ _ Hj) in *.
Qed.

(** The loop of the code ends and leaves nothing to do before [hi]. *)
Lemma scan_expired_complete s :
  Inv s → scan_expired s ≠ Err out_of_fuel ∧ ∀ s', scan_expired s = Ok s' → Inv s' ∧ nothing_left (get s').
Proof using body_spec body_terminates.
  intros HI. unfold scan_expired. apply scan_complete; [done|]. pose proof (least_spec (λ k, 1 <? k.1) (get s)) as Hl.
  destruct (least _ (get s)) as [[e id]|].
  - destruct Hl as (v & Hv & Hk & _ & Hmin). split; [by exists v|]. split.
    + intros j w Hj _ Hw. apply Hmin; [done|]. cbn. propify. lia.
    + assert (left_todo (get s) ≤ size (get s))%nat.
      { unfold left_todo. rewrite <-(map_size_fmap todo (get s)). apply map_subseteq_size, map_filter_subseteq. }
      pose proof (from_here_le (e, id) (get s)). unfold scan_fuel. nia.
  - intros j w Hj _. specialize (Hl _ _ Hj). cbn in Hl. propify. lia.
Qed.
End complete.

(** ** What the loop does

    An object that waits is settled, once; every other object stays. *)
Section settling.
Context (todo : V → bool) (Inv : S → Prop) (settled : V → V → Prop).
Hypothesis body_terminates : ∀ s id, body s id ≠ Err out_of_fuel.
Hypothesis settled_done : ∀ v v', settled v v' → todo v' = false ∧ key v' ≤ 1.
Hypothesis body_settles : ∀ s id v s', Inv s → get s !! id = Some v → body s id = Ok s' →
  Inv s' ∧ ∃ v', get s' = <[id := v']> (get s) ∧ if todo v then settled v v' else v' = v.

Definition stays_or_settled (v v' : V) : Prop := v' = v ∨ (todo v = true ∧ settled v v').
Definition settles (m m' : gmap Z V) : Prop :=
  map_Forall2 (λ _, stays_or_settled) m m' ∧ nothing_left todo m'.

Lemma settles_step (m m1 : gmap Z V) id v1 v' :
  map_Forall2 (λ _, stays_or_settled) m m1 → m1 !! id = Some v1 → (if todo v1 then settled v1 v' else v' = v1) →
  map_Forall2 (λ _, stays_or_settled) m (<[id := v']> m1).
Proof using settled_done.
  intros Hm Hv Hs. pose proof (Hm id) as Hid. rewrite Hv in Hid. inversion Hid as [v ? Hvv E |]. symmetry in E.
  rewrite <-(insert_id m id v) by done. apply map_Forall2_insert_2; [|done].
  destruct Hvv as [-> | [Ht Hv1]].
  - destruct (todo v) eqn:Ht; [by right|by left].
  - rewrite (proj1 (settled_done _ _ Hv1)) in Hs. subst. by right.
Qed.

Lemma scan_expired_settles s :
  Inv s → scan_expired s ≠ Err out_of_fuel ∧ ∀ s', scan_expired s = Ok s' → Inv s' ∧ settles (get s) (get s').
Proof using body_settles body_terminates settled_done.
  intros HI. destruct (scan_expired_complete todo
    (λ s1, Inv s1 ∧ map_Forall2 (λ _, stays_or_settled) (get s) (get s1)) body_terminates) with s as [H1 H2].
  - intros s1 id v s2 [HI1 Hm] Hv _ Hb. destruct (body_settles _ _ _ _ HI1 Hv Hb) as (HI2 & v' & E & Hs).
    split; [split; [done|]; rewrite E; by eapply settles_step|]. exists v'. split; [done|].
    destruct (todo v) eqn:Ht; [by apply (settled_done v)|by subst].
  - split; [done|]. intros id. destruct (get s !! id); constructor. by left.
  - split; [done|]. intros s' Hs'. destruct (H2 _ Hs') as [[??] ?]. done.
Qed.

(** Nothing that does not wait is touched, and what is new was settled. *)
Lemma settles_stays (m m' : gmap Z V) id v : settles m m' → m !! id = Some v → todo v = false → m' !! id = Some v.
Proof.
  intros [Hm _] Hv Ht. specialize (Hm id). rewrite Hv in Hm. inversion Hm as [? v' [-> | [??]] E |]; congruence.
Qed.

Lemma settles_origin (m m' : gmap Z V) id v' :
  settles m m' → m' !! id = Some v' → ∃ v, m !! id = Some v ∧ stays_or_settled v v'.
Proof. intros [Hm _] Hv. specialize (Hm id). rewrite Hv in Hm. inversion Hm. eauto. Qed.
End settling.
End cursor.
