(* ===== verification/GameZone.v ===== *)
(** * Bets, lotteries and the matrix

    [gamezone_evaluator.cpp] and [protocol/gamezone.cpp]: heads or tails
    between two accounts, lotteries of goods, and the matrix, a queue of rooms
    whose cells are filled by the players who enter after.  The upkeep that
    ends the games at every block is in Upkeep.v. *)
From S2P Require Import Prelude Safe Raw Asset Objects Database Ledger Vesting Balance Evaluator Sample Referral.

Definition gamezone (d : database) : gamezone_parameters := d.(d_gpo).(gpo_gamezone_parameters).

(** ** flipcoin_bet, flipcoin_call *)
Record flipcoin_bet_operation : Type := FlipcoinBetOp {
  fb_fee : asset; fb_bettor : Z; fb_bet : asset; fb_nonce : Z }.

Definition flipcoin_bet_validate (op : flipcoin_bet_operation) : result unit :=
  _ ← FC_ASSERT (0 <=? op.(fb_fee).(amount)); FC_ASSERT (0 <? op.(fb_bet).(amount)).

Definition flipcoin_bet_do_evaluate (d : database) (op : flipcoin_bet_operation) : result unit :=
  _ ← get_account d op.(fb_bettor);
  _ ← get_asset d op.(fb_bet).(asset_id);
  _ ← FC_ASSERT (op.(fb_bet).(asset_id) =? CORE);
  _ ← (if HARDFORK_CWD5_TIME <=? head_block_time d
       then FC_ASSERT ((gamezone d).(gz_flipcoin_min_bet_amount) <=? op.(fb_bet).(amount)) else Ok tt);
  FC_ASSERT (op.(fb_bet).(amount) <=? (get_balance d op.(fb_bettor) op.(fb_bet).(asset_id)).(amount)).

Definition flipcoin_bet_do_apply (d : database) (op : flipcoin_bet_operation) : result database :=
  d1 ← debit d op.(fb_bettor) op.(fb_bet);
  '(_, i) ← index_create d1.(d_flipcoins)
    (Flipcoin op.(fb_bettor) None None op.(fb_bet) op.(fb_nonce) (time_add (head_block_time d1) 3600) 0);
  Ok (d1 <| d_flipcoins := i |>).

#[export] Instance flipcoin_bet_evaluator : Evaluator flipcoin_bet_operation := {|
  fee_payer := fb_bettor; fee := fb_fee; validate := flipcoin_bet_validate;
  do_evaluate := flipcoin_bet_do_evaluate; do_apply := flipcoin_bet_do_apply |}.

Record flipcoin_call_operation : Type := FlipcoinCallOp {
  fc_fee : asset; fc_flipcoin : Z; fc_caller : Z; fc_bet : asset }.

Definition flipcoin_call_validate (op : flipcoin_call_operation) : result unit :=
  _ ← FC_ASSERT (0 <=? op.(fc_fee).(amount)); FC_ASSERT (0 <=? op.(fc_bet).(amount)).

Definition flipcoin_call_do_evaluate (d : database) (op : flipcoin_call_operation) : result unit :=
  flipcoin ← index_get d.(d_flipcoins) op.(fc_flipcoin);
  _ ← get_account d op.(fc_caller);
  _ ← get_asset d op.(fc_bet).(asset_id);
  _ ← FC_ASSERT (op.(fc_bet).(amount) <=? (get_balance d op.(fc_caller) op.(fc_bet).(asset_id)).(amount));
  _ ← FC_ASSERT (flipcoin.(fl_status) =? 0);
  _ ← FC_ASSERT (head_block_time d <=? flipcoin.(fl_expiration));
  FC_ASSERT (flipcoin.(fl_bet).(amount) =? op.(fc_bet).(amount)).

Definition flipcoin_call_do_apply (d : database) (op : flipcoin_call_operation) : result database :=
  d1 ← debit d op.(fc_caller) op.(fc_bet);
  i ← index_modify d1.(d_flipcoins) op.(fc_flipcoin) (λ f,
        Ok (f <| fl_status := 1 |> <| fl_caller := Some op.(fc_caller) |>
              <| fl_expiration := time_add (head_block_time d1) 10 |>));
  Ok (d1 <| d_flipcoins := i |>).

#[export] Instance flipcoin_call_evaluator : Evaluator flipcoin_call_operation := {|
  fee_payer := fc_caller; fee := fc_fee; validate := flipcoin_call_validate;
  do_evaluate := flipcoin_call_do_evaluate; do_apply := flipcoin_call_do_apply |}.

(** ** Lotteries of goods *)
Record lottery_goods_create_lot_operation : Type := LotteryCreateOp {
  lc_fee : asset; lc_owner : Z; lc_total_participants : Z; lc_ticket_price : asset; lc_latency_sec : Z;
  lc_img_url : string; lc_description : string }.

Definition lottery_goods_create_lot_validate (op : lottery_goods_create_lot_operation) : result unit :=
  _ ← FC_ASSERT (0 <=? op.(lc_fee).(amount));
  _ ← FC_ASSERT (0 <? op.(lc_ticket_price).(amount));
  _ ← FC_ASSERT (pack_size_string op.(lc_img_url) <? 257);
  FC_ASSERT (pack_size_string op.(lc_description) <? 2001).

(** The account whose white list admits owners before [HARDFORK_CWD4_TIME]. *)
Definition lottery_admin : Z := 27.

Definition lottery_goods_create_lot_do_evaluate (d : database) (op : lottery_goods_create_lot_operation) :
    result unit :=
  _ ← FC_ASSERT ((0 <? op.(lc_total_participants)) &&
        (op.(lc_total_participants) <=? (gamezone d).(gz_lottery_goods_total_participants)));
  _ ← FC_ASSERT ((0 <? op.(lc_latency_sec)) && (op.(lc_latency_sec) <=? 100));
  _ ← FC_ASSERT (op.(lc_ticket_price).(asset_id) =? CORE);
  if HARDFORK_CWD4_TIME <=? head_block_time d then
    owner ← get_account d op.(lc_owner);
    FC_ASSERT (owner.(acc_referral_status_type) =? 4)
  else
    admin ← get_account d lottery_admin;
    _ ← get_account d op.(lc_owner);
    FC_ASSERT (bool_decide (op.(lc_owner) ∈ admin.(acc_whitelisted_accounts))).

Definition lottery_goods_create_lot_do_apply (d : database) (op : lottery_goods_create_lot_operation) :
    result database :=
  let expiration :=
    if HARDFORK_CWD4_TIME <=? head_block_time d
    then time_add (head_block_time d) (gamezone d).(gz_lottery_goods_expiration)
    else time_add HARDFORK_CWD4_TIME 2592000 in
  '(_, i) ← index_create d.(d_lotteries)
    (LotteryGoods op.(lc_owner) [] op.(lc_total_participants) op.(lc_ticket_price) expiration op.(lc_latency_sec)
       0 op.(lc_img_url) op.(lc_description) None None);
  Ok (d <| d_lotteries := i |>).

#[export] Instance lottery_goods_create_lot_evaluator : Evaluator lottery_goods_create_lot_operation := {|
  fee_payer := lc_owner; fee := lc_fee; validate := lottery_goods_create_lot_validate;
  do_evaluate := lottery_goods_create_lot_do_evaluate; do_apply := lottery_goods_create_lot_do_apply |}.

Record lottery_goods_buy_ticket_operation : Type := LotteryBuyTicketOp {
  lb_fee : asset; lb_lot_id : Z; lb_participant : Z; lb_ticket_price : asset }.

Definition lottery_goods_buy_ticket_validate (op : lottery_goods_buy_ticket_operation) : result unit :=
  _ ← FC_ASSERT (0 <=? op.(lb_fee).(amount)); FC_ASSERT (0 <? op.(lb_ticket_price).(amount)).

Definition cut_fee_gamezone (a p : Z) : result Z := percent_of a p.
Definition lottery_goods_buy_ticket_calculate_fee (lottery_goods_fee_percent : Z)
    (op : lottery_goods_buy_ticket_operation) : result Z :=
  cut_fee_gamezone op.(lb_ticket_price).(amount) lottery_goods_fee_percent.

Definition get_lottery (d : database) (id : Z) : result lottery_goods_object := index_get d.(d_lotteries) id.
Definition modify_lottery (d : database) (id : Z) (f : lottery_goods_object → result lottery_goods_object) :
    result database :=
  i ← index_modify d.(d_lotteries) id f; Ok (d <| d_lotteries := i |>).

Definition lottery_goods_buy_ticket_do_evaluate (d : database) (op : lottery_goods_buy_ticket_operation) :
    result unit :=
  _ ← get_asset d op.(lb_ticket_price).(asset_id);
  _ ← get_account d op.(lb_participant);
  lot_obj ← get_lottery d op.(lb_lot_id);
  _ ← FC_ASSERT (op.(lb_ticket_price).(asset_id) =? CORE);
  _ ← FC_ASSERT (op.(lb_ticket_price).(amount)
        <=? (get_balance d op.(lb_participant) op.(lb_ticket_price).(asset_id)).(amount));
  _ ← FC_ASSERT (lot_obj.(lg_status) =? 0);
  _ ← FC_ASSERT (Z.of_nat (length lot_obj.(lg_participants)) <? lot_obj.(lg_total_participants));
  FC_ASSERT (lot_obj.(lg_ticket_price).(amount) =? op.(lb_ticket_price).(amount)).

(** The last ticket closes the sale. *)
Definition add_participant (participant now : Z) (l : lottery_goods_object) : lottery_goods_object :=
  let l' := l <| lg_participants := l.(lg_participants) ++ [participant] |> in
  if l'.(lg_total_participants) <=? Z.of_nat (length l'.(lg_participants))
  then l' <| lg_status := 1 |> <| lg_expiration := time_add now l'.(lg_latency_sec) |>
  else l'.

Definition lottery_goods_buy_ticket_do_apply (d : database) (op : lottery_goods_buy_ticket_operation) :
    result database :=
  lot_obj ← get_lottery d op.(lb_lot_id);
  d1 ← (if HARDFORK_CWD2_TIME <=? head_block_time d
        then update_pv d op.(lb_participant) lot_obj.(lg_ticket_price).(amount) else Ok d);
  d2 ← debit d1 op.(lb_participant) op.(lb_ticket_price);
  modify_lottery d2 op.(lb_lot_id) (λ l, Ok (add_participant op.(lb_participant) (head_block_time d2) l)).

#[export] Instance lottery_goods_buy_ticket_evaluator : Evaluator lottery_goods_buy_ticket_operation := {|
  fee_payer := lb_participant; fee := lb_fee; validate := lottery_goods_buy_ticket_validate;
  do_evaluate := lottery_goods_buy_ticket_do_evaluate; do_apply := lottery_goods_buy_ticket_do_apply |}.

Record lottery_goods_send_contacts_operation : Type := LotterySendContactsOp {
  ls_fee : asset; ls_lot_id : Z; ls_winner : Z; ls_owner : Z; ls_winner_contacts : string }.

Definition lottery_goods_send_contacts_validate (op : lottery_goods_send_contacts_operation) : result unit :=
  FC_ASSERT (0 <=? op.(ls_fee).(amount)).

Definition lottery_goods_send_contacts_do_evaluate (d : database) (op : lottery_goods_send_contacts_operation) :
    result unit :=
  lot_obj ← get_lottery d op.(ls_lot_id);
  _ ← FC_ASSERT (bool_decide (lot_obj.(lg_winner) = Some op.(ls_winner)));
  _ ← FC_ASSERT (lot_obj.(lg_owner) =? op.(ls_owner));
  FC_ASSERT (bool_decide (lot_obj.(lg_winner_contacts) = None)).

Definition lottery_goods_send_contacts_do_apply (d : database) (op : lottery_goods_send_contacts_operation) :
    result database :=
  modify_lottery d op.(ls_lot_id) (λ l, Ok (l <| lg_winner_contacts := Some op.(ls_winner_contacts) |>)).

#[export] Instance lottery_goods_send_contacts_evaluator : Evaluator lottery_goods_send_contacts_operation := {|
  fee_payer := ls_winner; fee := ls_fee; validate := lottery_goods_send_contacts_validate;
  do_evaluate := lottery_goods_send_contacts_do_evaluate; do_apply := lottery_goods_send_contacts_do_apply |}.

Record lottery_goods_confirm_delivery_operation : Type := LotteryConfirmOp {
  ld_fee : asset; ld_lot_id : Z; ld_winner : Z; ld_owner : Z }.

Definition lottery_goods_confirm_delivery_validate (op : lottery_goods_confirm_delivery_operation) : result unit :=
  FC_ASSERT (0 <=? op.(ld_fee).(amount)).

Definition lottery_goods_confirm_delivery_do_evaluate (d : database) (op : lottery_goods_confirm_delivery_operation) :
    result unit :=
  lot_obj ← get_lottery d op.(ld_lot_id);
  _ ← FC_ASSERT (lot_obj.(lg_status) =? 2);
  _ ← FC_ASSERT (bool_decide (lot_obj.(lg_winner) = Some op.(ld_winner)));
  FC_ASSERT (lot_obj.(lg_owner) =? op.(ld_owner)).

Definition lottery_goods_confirm_delivery_do_apply (d : database) (op : lottery_goods_confirm_delivery_operation) :
    result database :=
  lot_obj ← get_lottery d op.(ld_lot_id);
  profit ← safe_mul lot_obj.(lg_ticket_price).(amount) lot_obj.(lg_total_participants);
  d1 ← adjust_balance d lot_obj.(lg_owner) (Asset profit lot_obj.(lg_ticket_price).(asset_id));
  d2 ← modify_lottery d1 op.(ld_lot_id) (λ l, Ok (l <| lg_status := 3 |>));
  _ ← get_account d2 op.(ld_owner);
  modify_statistics d2 op.(ld_owner) (λ s, Ok (s <| st_lottery_goods_rating := u32 (s.(st_lottery_goods_rating) + 1) |>)).

#[export] Instance lottery_goods_confirm_delivery_evaluator : Evaluator lottery_goods_confirm_delivery_operation := {|
  fee_payer := ld_winner; fee := ld_fee; validate := lottery_goods_confirm_delivery_validate;
  do_evaluate := lottery_goods_confirm_delivery_do_evaluate;
  do_apply := lottery_goods_confirm_delivery_do_apply |}.

(** ** matrix_open_room *)
Record matrix_open_room_operation : Type := MatrixOpenRoomOp {
  mo_fee : asset; mo_matrix_id : Z; mo_player : Z; mo_matrix_level : Z; mo_level_price : asset }.

Definition matrix_open_room_validate (op : matrix_open_room_operation) : result unit :=
  _ ← FC_ASSERT (0 <=? op.(mo_fee).(amount));
  _ ← FC_ASSERT (0 <=? op.(mo_level_price).(amount));
  _ ← FC_ASSERT (1 <=? op.(mo_matrix_level));
  FC_ASSERT (op.(mo_matrix_level) <=? 8).

Definition matrix_open_room_calculate_fee (matrix_fee_percent : Z) (op : matrix_open_room_operation) : result Z :=
  cut_fee_gamezone op.(mo_level_price).(amount) matrix_fee_percent.

Definition get_matrix (d : database) (id : Z) : result matrix_object := index_get d.(d_matrices) id.
Definition modify_matrix (d : database) (id : Z) (f : matrix_object → result matrix_object) : result database :=
  i ← index_modify d.(d_matrices) id f; Ok (d <| d_matrices := i |>).

(** The entry of a level in one of the per-level fields. *)
Definition at_level (level : Z) (l : list Z) : Z := nth (Z.to_nat (level - 1)) l 0.

(** The first room of an index range: the secondary indices end with the id. *)
Definition find_room (d : database) (p : matrix_rooms_object → bool) : option Z :=
  map_fold (λ id r acc, if p r then Some (match acc with Some j => Z.min id j | None => id end) else acc)
    None d.(d_rooms).(objs).

Definition by_matrix_player_status (matrix player status : Z) (r : matrix_rooms_object) : bool :=
  (r.(mr_matrix) =? matrix) && (r.(mr_matrix_player) =? player) && (r.(mr_status) =? status).
Definition by_matrix_level_player_status (matrix player level status : Z) (r : matrix_rooms_object) : bool :=
  by_matrix_player_status matrix player status r && (r.(mr_matrix_level) =? level).
Definition by_matrix_level_status (matrix level status : Z) (r : matrix_rooms_object) : bool :=
  (r.(mr_matrix) =? matrix) && (r.(mr_matrix_level) =? level) && (r.(mr_status) =? status).

(** A level the status of the account gives. *)
Definition status_level (a : account_object) (level : Z) : Z :=
  if level <? a.(acc_referral_status_type) * 2 then u8 (a.(acc_referral_status_type) * 2) else level.

Definition matrix_open_room_do_evaluate (d : database) (op : matrix_open_room_operation) : result unit :=
  matrix ← get_matrix d op.(mo_matrix_id);
  player ← get_account d op.(mo_player);
  player_stats ← get_statistics d op.(mo_player);
  let level := op.(mo_matrix_level) in
  let current_level := status_level player player_stats.(st_matrix_active_levels) in
  let playing := player_stats.(st_matrix) =? op.(mo_matrix_id) in
  _ ← FC_ASSERT (matrix.(mx_start_block_number) <=? head_block_num d);
  _ ← FC_ASSERT (head_block_num d <=? matrix.(mx_finish_block_number));
  _ ← (if playing && (0 <? player_stats.(st_matrix_rooms_opened))
       then FC_ASSERT (level <=? current_level)
       else FC_ASSERT ((level <=? current_level) || (level =? 1)));
  let player_room_status := if playing && (2 <=? player_stats.(st_matrix_cells_opened)) then 1 else 0 in
  _ ← FC_ASSERT (bool_decide (find_room d
        (by_matrix_level_player_status op.(mo_matrix_id) op.(mo_player) level player_room_status) = None));
  _ ← (if player.(acc_referral_status_type) =? 0
       then FC_ASSERT (bool_decide (find_room d
              (by_matrix_player_status op.(mo_matrix_id) op.(mo_player) player_room_status) = None))
       else Ok tt);
  _ ← FC_ASSERT (op.(mo_level_price).(asset_id) =? CORE);
  _ ← (if (1 <=? level) && (level <=? 8)
       then FC_ASSERT (at_level level matrix.(mx_level_price) =? op.(mo_level_price).(amount)) else Ok tt);
  FC_ASSERT (op.(mo_level_price).(amount) <=? (get_balance d op.(mo_player) CORE).(amount)).

(** The payment goes into the pot. *)
Definition add_to_pot (price head_block : Z) (m : matrix_object) : result matrix_object :=
  amount ← safe_add m.(mx_amount) price;
  total ← safe_add m.(mx_total_amount) price;
  last ← (if u32 (m.(mx_finish_block_number) - 120000) <? head_block
          then safe_add m.(mx_last_120k_amount) price else Ok m.(mx_last_120k_amount));
  Ok (m <| mx_amount := amount |> <| mx_total_amount := total |> <| mx_last_120k_amount := last |>).

(** From the fourth hard fork on the later matrices open their cells at once. *)
Definition open_cells (d : database) (op : matrix_open_room_operation) : bool :=
  (HARDFORK_CWD4_TIME <=? head_block_time d) && (2 <? op.(mo_matrix_id)).

(** The first room of a player in this matrix resets the counters. *)
Definition enter_matrix (d : database) (op : matrix_open_room_operation) : result database :=
  player ← get_account d op.(mo_player);
  stats ← get_statistics d op.(mo_player);
  if negb (stats.(st_matrix) =? op.(mo_matrix_id)) || (stats.(st_matrix_rooms_opened) =? 0) then
    modify_statistics d op.(mo_player) (λ s,
      Ok (s <| st_matrix := op.(mo_matrix_id) |> <| st_matrix_active_levels := status_level player 1 |>
            <| st_matrix_cells_opened := (if open_cells d op then 2 else 0) |> <| st_matrix_rooms_opened := 0 |>))
  else Ok d.

Definition open_rooms_of (d : database) (matrix player : Z) : database :=
  d <| d_rooms := Index ((λ r, if by_matrix_player_status matrix player 0 r then r <| mr_status := 1 |> else r)
                           <$> d.(d_rooms).(objs)) d.(d_rooms).(next_id) |>.

(** The second player of a referrer opens the cells of the referrer's rooms. *)
Definition count_cells (s : account_statistics_object) : result account_statistics_object :=
  Ok (s <| st_matrix_cells_opened := u8 (s.(st_matrix_cells_opened) + 1) |>).

Definition open_referrer_cells (d : database) (op : matrix_open_room_operation) (ref_01 : Z) : result database :=
  s ← get_statistics d ref_01;
  d1 ← (if (s.(st_matrix) =? op.(mo_matrix_id)) && (s.(st_matrix_cells_opened) =? 1) then
          d1 ← modify_statistics d ref_01 count_cells;
          Ok (open_rooms_of d1 op.(mo_matrix_id) ref_01)
        else Ok d);
  s1 ← get_statistics d1 ref_01;
  if (s1.(st_matrix) =? op.(mo_matrix_id)) && (0 <? s1.(st_matrix_rooms_opened)) &&
     (s1.(st_matrix_cells_opened) =? 0)
  then modify_statistics d1 ref_01 count_cells else Ok d1.

Definition room_to_fill (d : database) (op : matrix_open_room_operation) (ref_01 : Z) : result (option Z) :=
  let others := find_room d (by_matrix_level_status op.(mo_matrix_id) op.(mo_matrix_level) 1) in
  if open_cells d op then Ok others
  else
    s ← get_statistics d ref_01;
    let room_status := if 2 <=? s.(st_matrix_cells_opened) then 1 else 0 in
    Ok (match find_room d (by_matrix_level_player_status op.(mo_matrix_id) ref_01 op.(mo_matrix_level) room_status) with
        | Some r => Some r
        | None => others
        end).

(** The last cell closes the room, pays its player and raises the player's level. *)
Definition close_room (d : database) (op : matrix_open_room_operation) (room winner : Z) : result database :=
  matrix ← get_matrix d op.(mo_matrix_id);
  let level_prize := at_level op.(mo_matrix_level) matrix.(mx_level_prize) in
  d1 ← adjust_balance d winner (Asset level_prize CORE);
  d2 ← modify_matrix (push_applied_operation d1 (matrix_room_closed_op winner room op.(mo_matrix_level) level_prize))
         op.(mo_matrix_id) (λ m, v ← safe_sub m.(mx_amount) level_prize; Ok (m <| mx_amount := v |>));
  _ ← get_account d2 winner;
  stats ← get_statistics d2 winner;
  let winner_active_levels := if 8 <? u8 (op.(mo_matrix_level) + 1) then 8 else u8 (op.(mo_matrix_level) + 1) in
  if stats.(st_matrix_active_levels) <? winner_active_levels then
    modify_statistics d2 winner (λ s, Ok (s <| st_matrix_active_levels := winner_active_levels |>))
  else Ok d2.

Definition fill_room (d : database) (op : matrix_open_room_operation) (room : Z) : result database :=
  r ← index_get d.(d_rooms) room;
  let r1 := r <| mr_cells := r.(mr_cells) ++ [op.(mo_player)] |> in
  let d1 := push_applied_operation d
              (matrix_cell_filled_op r.(mr_matrix_player) room op.(mo_matrix_level) op.(mo_player)) in
  '(r2, d2) ← (if r1.(mr_total_cells) <=? Z.of_nat (length r1.(mr_cells)) then
                 d2 ← close_room d1 op room r1.(mr_matrix_player);
                 Ok (r1 <| mr_status := 2 |>, d2)
               else Ok (r1, d1));
  i ← index_modify d2.(d_rooms) room (λ _, Ok r2);
  Ok (d2 <| d_rooms := i |>).

Definition open_room (d : database) (op : matrix_open_room_operation) : result database :=
  matrix ← get_matrix d op.(mo_matrix_id);
  stats ← get_statistics d op.(mo_player);
  let new_room_status := if 2 <=? stats.(st_matrix_cells_opened) then 1 else 0 in
  '(_, i) ← index_create d.(d_rooms)
    (MatrixRoom op.(mo_matrix_id) op.(mo_player) op.(mo_matrix_level)
       (at_level op.(mo_matrix_level) matrix.(mx_level_cells)) new_room_status []);
  modify_statistics (d <| d_rooms := i |>) op.(mo_player) (λ s,
    Ok (s <| st_matrix_rooms_opened := u16 (s.(st_matrix_rooms_opened) + 1) |>)).

Definition matrix_open_room_do_apply (d : database) (op : matrix_open_room_operation) : result database :=
  _ ← get_matrix d op.(mo_matrix_id);
  d1 ← debit d op.(mo_player) (Asset op.(mo_level_price).(amount) CORE);
  d2 ← (if HARDFORK_CWD2_TIME <=? head_block_time d
        then update_pv d1 op.(mo_player) op.(mo_level_price).(amount) else Ok d1);
  d3 ← modify_matrix d2 op.(mo_matrix_id) (add_to_pot op.(mo_level_price).(amount) (head_block_num d2));
  player ← get_account d3 op.(mo_player);
  let ref_01 := player.(acc_referrer) in
  _ ← get_account d3 ref_01;
  d4 ← enter_matrix d3 op;
  d5 ← open_referrer_cells d4 op ref_01;
  target ← room_to_fill d5 op ref_01;
  d6 ← match target with Some room => fill_room d5 op room | None => Ok d5 end;
  open_room d6 op.

#[export] Instance matrix_open_room_evaluator : Evaluator matrix_open_room_operation := {|
  fee_payer := mo_player; fee := mo_fee; validate := matrix_open_room_validate;
  do_evaluate := matrix_open_room_do_evaluate; do_apply := matrix_open_room_do_apply |}.

(** ** Escrows of the games *)
Lemma flow_create_flipcoin d f id i :
  f.(fl_bet).(asset_id) = CORE → index_create d.(d_flipcoins) f = Ok (id, i) →
  flow d (d <| d_flipcoins := i |>) (λ a, of_asset a (flipcoin_held f)).
Proof.
  intros Hf H. apply index_create_Ok in H as (-> & Hn & ->). apply flow_flipcoins.
  - intros Hall. by apply map_Forall_insert_2.
  - intros a. by rewrite isum_create.
Qed.

Lemma flow_modify_flipcoin d id g i :
  index_modify d.(d_flipcoins) id g = Ok i → (∀ f f', g f = Ok f' → f'.(fl_bet) = f.(fl_bet)) →
  ∃ f f', d.(d_flipcoins).(objs) !! id = Some f ∧ g f = Ok f' ∧
    flow d (d <| d_flipcoins := i |>) (λ a, of_asset a (flipcoin_held f') - of_asset a (flipcoin_held f)).
Proof.
  intros H Hg. apply index_modify_Ok in H as (f & f' & Hf & Hg' & ->). exists f, f'.
  split; [done|]. split; [done|]. apply flow_flipcoins.
  - intros Hall. apply map_Forall_insert_2; [|done]. rewrite (Hg _ _ Hg'). by apply (Hall _ _ Hf).
  - intros a. rewrite (isum_modify _ _ _ _ _ Hf). lia.
Qed.

Lemma flow_remove_flipcoin d id f i :
  index_remove d.(d_flipcoins) id = Ok i → d.(d_flipcoins).(objs) !! id = Some f →
  flow d (d <| d_flipcoins := i |>) (λ a, - of_asset a (flipcoin_held f)).
Proof.
  intros H Hf. apply index_remove_Ok in H as (f' & Hf' & ->). same_ok. apply flow_flipcoins.
  - intros Hall. by apply map_Forall_delete.
  - intros a. rewrite (isum_remove _ _ _ _ _ Hf'). lia.
Qed.

Lemma flow_modify_lottery d id g d' l :
  modify_lottery d id g = Ok d' → d.(d_lotteries).(objs) !! id = Some l →
  (∀ l', lottery_ok l → g l = Ok l' → lottery_ok l') →
  ∃ l', g l = Ok l' ∧ flow d d' (λ a, of_asset a (lottery_held l') - of_asset a (lottery_held l)).
Proof.
  intros H Hl Hok. unfold modify_lottery in H. apply bind_Ok in H as (i & Hi & H). apply Ok_inj in H as <-.
  apply index_modify_Ok in Hi as (l0 & l' & Hl0 & Hg & ->). same_ok. exists l'. split; [done|]. apply flow_lotteries.
  - intros Hall. apply map_Forall_insert_2; [|done]. apply Hok; [|done]. by apply (Hall _ _ Hl0).
  - intros a. rewrite (isum_modify _ _ _ _ _ Hl0). lia.
Qed.

(** The lottery a bet of the caller finds after the debit. *)
Lemma get_lottery_frame d d' id : d'.(d_lotteries) = d.(d_lotteries) → get_lottery d' id = get_lottery d id.
Proof. unfold get_lottery. by intros ->. Qed.

(** The status of a matrix, which the steps of a player never change. *)
Definition pot (d : database) (id st : Z) : Prop := ∃ m, d.(d_matrices).(objs) !! id = Some m ∧ m.(mx_status) = st.
Definition in_pot (st z : Z) : Z := if st =? 0 then z else 0.

Lemma pot_frame d d' id st : d'.(d_matrices) = d.(d_matrices) → pot d id st → pot d' id st.
Proof. unfold pot. by intros ->. Qed.

Lemma flow_modify_matrix d id f d' st z :
  modify_matrix d id f = Ok d' → pot d id st →
  (∀ m m', f m = Ok m' → m'.(mx_status) = m.(mx_status) ∧ m'.(mx_amount) = m.(mx_amount) + z) →
  flow d d' (λ a, core_only a (in_pot st z)) ∧ pot d' id st.
Proof.
  intros H (m & Hm & Hst) Hf. unfold modify_matrix in H. apply bind_Ok in H as (i & Hi & H). apply Ok_inj in H as <-.
  apply index_modify_Ok in Hi as (m0 & m' & Hm0 & Hg & ->). same_ok. destruct (Hf _ _ Hg) as [Hs Ha]. split.
  - apply flow_matrices. rewrite (isum_modify _ _ _ _ _ Hm0). unfold matrix_held, in_pot. rewrite Hs, Ha.
    case_match; lia.
  - exists m'. cbn. rewrite lookup_insert_eq. by rewrite Hs.
Qed.

#[export] Instance flows_enter_matrix d op d' : Flows (enter_matrix d op = Ok d') d d' (λ _, 0).
Proof. intros H. unfold enter_matrix in H. inv_ok; solve_flow. Qed.

Lemma flow_open_rooms_of d matrix player : flow d (open_rooms_of d matrix player) (λ _, 0).
Proof. apply flow_rooms. Qed.

#[export] Instance stat_neutral_count_cells : StatNeutral count_cells.
Proof. intros s s' Hwf H. unfold count_cells in H. inv_ok. split; [exact Hwf|unfold stat_held; cbn; lia]. Qed.

#[export] Instance flows_open_referrer_cells d op ref d' :
  Flows (open_referrer_cells d op ref = Ok d') d d' (λ _, 0).
Proof.
  intros H. unfold open_referrer_cells, open_rooms_of in H. inv_ok; try solve_flow.
Qed.

(** These steps write neither the matrices nor the lotteries. *)
Lemma player_step_frame d d' :
  (∃ op, enter_matrix d op = Ok d') ∨ (∃ op ref, open_referrer_cells d op ref = Ok d') ∨
  (∃ op, open_room d op = Ok d') ∨ (∃ acct v, update_pv d acct v = Ok d') →
  d'.(d_matrices) = d.(d_matrices) ∧ d'.(d_lotteries) = d.(d_lotteries).
Proof.
  intros [(op & H)|[(op & ref & H)|[(op & H)|(acct & v & H)]]];
    unfold enter_matrix, open_referrer_cells, open_room, update_pv, open_rooms_of in H; inv_ok; keep d_matrices; keep d_lotteries; cbn in *; split; congruence.
Qed.

Lemma flow_close_room d op room winner d' st :
  close_room d op room winner = Ok d' → pot d op.(mo_matrix_id) st →
  ∃ prize, flow d d' (λ a, core_only a (prize - in_pot st prize)) ∧ pot d' op.(mo_matrix_id) st.
Proof.
  intros H Hpot. unfold close_room in H. apply bind_Ok in H as (m & _ & H).
  apply bind_Ok in H as (d1 & H1 & H). apply bind_Ok in H as (d2 & H2 & H).
  apply bind_Ok in H as (w & _ & H). apply bind_Ok in H as (s & _ & H).
  set (prize := at_level _ _) in *. exists prize.
  apply (flow_modify_matrix _ _ _ _ st (- prize)) in H2 as [F2 Hpot2].
  - assert (flow d2 d' (λ _, 0) ∧ d'.(d_matrices) = d2.(d_matrices)) as [F3 E].
    { clear F2 H1. inv_ok; [|split; [solve_flow|done]]. keep d_matrices. split; [solve_flow|done]. }
    split; [|by eapply pot_frame]. clear H. unfold in_pot in *. case_match; solve_flow.
  - eapply pot_frame; [|exact Hpot]. cbn. by keep d_matrices.
  - clear H. intros m0 m' Hf. inv_ok. inv_safe. cbn. split; [done|lia].
Qed.

Lemma flow_fill_room d op room d' st :
  fill_room d op room = Ok d' → pot d op.(mo_matrix_id) st →
  ∃ prize, flow d d' (λ a, core_only a (prize - in_pot st prize)) ∧ pot d' op.(mo_matrix_id) st.
Proof.
  intros H Hpot. unfold fill_room in H. apply bind_Ok in H as (r & _ & H).
  apply bind_Ok in H as ([r2 d2] & H2 & H). apply bind_Ok in H as (i & Hi & H). apply Ok_inj in H as <-.
  case_match.
  - apply bind_Ok in H2 as (d3 & H3 & H2). injection H2 as _ <-.
    apply (flow_close_room _ _ _ _ _ st) in H3 as (prize & F & Hp); [|exact Hpot].
    exists prize. split; [|exact Hp]. solve_flow.
  - injection H2 as _ <-. exists 0. split; [|exact Hpot]. unfold in_pot. case_match; solve_flow.
Qed.

#[export] Instance flows_open_room d op d' : Flows (open_room d op = Ok d') d d' (λ _, 0).
Proof. intros H. unfold open_room in H. inv_ok. solve_flow. Qed.

Lemma flow_matrix_open_room d op d' st :
  matrix_open_room_do_apply d op = Ok d' → pot d op.(mo_matrix_id) st →
  ∃ prize, flow d d' (λ a, core_only a (prize - op.(mo_level_price).(amount)
                                         - in_pot st (prize - op.(mo_level_price).(amount)))) ∧
    pot d' op.(mo_matrix_id) st.
Proof.
  intros H Hpot. unfold matrix_open_room_do_apply in H. apply bind_Ok in H as (m & _ & H).
  apply bind_Ok in H as (d1 & H1 & H). apply bind_Ok in H as (d2 & H2 & H). apply bind_Ok in H as (d3 & H3 & H).
  apply bind_Ok in H as (p & _ & H). apply bind_Ok in H as (r & _ & H).
  apply bind_Ok in H as (d4 & H4 & H). apply bind_Ok in H as (d5 & H5 & H).
  apply bind_Ok in H as (target & _ & H). apply bind_Ok in H as (d6 & H6 & H).
  assert (d2.(d_matrices) = d1.(d_matrices) ∧ flow d1 d2 (λ _, 0)) as [E2 F2].
  { clear H H1 H3 H4 H5 H6 Hpot. case_match; [|inv_ok; split; [done|solve_flow]].
    split; [apply player_step_frame; eauto 10|solve_flow]. } clear H2.
  assert (pot d2 op.(mo_matrix_id) st) as Hp2.
  { eapply pot_frame; [|exact Hpot]. keep d_matrices. congruence. }
  apply (flow_modify_matrix _ _ _ _ st op.(mo_level_price).(amount)) in H3 as [F3 Hp3]; [|done|].
  2: { intros m0 m' Hf. unfold add_to_pot in Hf. clear H6. inv_ok; inv_safe; done. }
  assert (pot d5 op.(mo_matrix_id) st) as Hp5.
  { eapply pot_frame; [|exact Hp3]. rewrite (proj1 (player_step_frame d4 d5 ltac:(eauto))).
    apply (player_step_frame d3 d4). eauto. }
  assert (∃ prize, flow d5 d6 (λ a, core_only a (prize - in_pot st prize)) ∧ pot d6 op.(mo_matrix_id) st)
    as (prize & F6 & Hp6).
  { clear -H6 Hp5. destruct target; [by eapply flow_fill_room|]. inv_ok. exists 0. split; [|done].
    unfold in_pot. case_match; solve_flow. }
  clear H6. exists prize. split.
  - clear Hpot. unfold in_pot in *. case_match; solve_flow.
  - eapply pot_frame; [|exact Hp6]. apply (player_step_frame d6 d'). eauto.
Qed.

(** ** The operations conserve value *)
#[export] Instance flipcoin_bet_conserving : Conserving flipcoin_bet_operation.
Proof.
  open_conserving. unfold flipcoin_bet_do_apply in H. unfold flipcoin_bet_do_evaluate in Heval.
  assert (op.(fb_bet).(asset_id) = CORE) as Hc by (clear H; inv_ok; propify; done). clear Heval.
  apply bind_Ok in H as (d2 & H2 & H). apply bind_Ok in H as ([id i] & Hi & H). apply Ok_inj in H as <-.
  apply flow_create_flipcoin in Hi; [|done]. cbn in Hi. unfold flipcoin_held in Hi. cbn in Hi. solve_flow.
Qed.

#[export] Instance lottery_goods_create_lot_conserving : Conserving lottery_goods_create_lot_operation.
Proof.
  open_conserving. unfold lottery_goods_create_lot_do_apply in H.
  unfold lottery_goods_create_lot_do_evaluate in Heval.
  assert (op.(lc_ticket_price).(asset_id) = CORE) as Hc.
  { clear H. inv_ok; propify; done. } clear Heval.
  apply bind_Ok in H as ([id i] & Hi & H). apply Ok_inj in H as <-.
  apply index_create_Ok in Hi as (-> & Hn & ->). apply flow_lotteries.
  - intros Hall. apply map_Forall_insert_2; [|done]. split; [done|by intros [?|?]].
  - intros a. rewrite isum_create by done. unfold lottery_held. cbn. flow_arith.
Qed.

Lemma lottery_sbf d d1 id : same_but_fees d d1 → get_lottery d id = get_lottery d1 id.
Proof. intros Hs. unfold get_lottery. sbf d_lotteries Hs. congruence. Qed.

(** A ticket adds its price to what the lottery holds. *)
Lemma add_participant_ok who now l :
  lottery_ok l → l.(lg_status) = 0 → Z.of_nat (length l.(lg_participants)) < l.(lg_total_participants) →
  lottery_ok (add_participant who now l) ∧
  ∀ a, of_asset a (lottery_held (add_participant who now l)) =
       of_asset a (lottery_held l) + of_asset a l.(lg_ticket_price).
Proof.
  intros [Hc _] Hs Hlt. unfold add_participant, lottery_ok, lottery_held. cbn.
  destruct (Z.leb_spec l.(lg_total_participants) (Z.of_nat (length (l.(lg_participants) ++ [who])))) as [Hle|Hgt];
    cbn; rewrite ?Hs; cbn; rewrite length_app in *; cbn in *; (split; [split; [done|lia]|]).
  all: flow_arith.
Qed.

#[export] Instance lottery_goods_buy_ticket_conserving : Conserving lottery_goods_buy_ticket_operation.
Proof.
  open_conserving. unfold lottery_goods_buy_ticket_do_apply in H. unfold lottery_goods_buy_ticket_do_evaluate in Heval.
  apply bind_Ok in H as (l & Hl & H). apply bind_Ok in H as (d2 & H2 & H). apply bind_Ok in H as (d3 & H3 & H).
  assert (d2.(d_lotteries) = d1.(d_lotteries) ∧ flow d1 d2 (λ _, 0)) as [E2 F2].
  { clear H3 H Heval. case_match; [|inv_ok; split; [done|solve_flow]].
    split; [apply player_step_frame; eauto 10|solve_flow]. } clear H2.
  assert (op.(lb_ticket_price).(asset_id) = CORE ∧ l.(lg_status) = 0 ∧
          Z.of_nat (length l.(lg_participants)) < l.(lg_total_participants) ∧
          l.(lg_ticket_price).(amount) = op.(lb_ticket_price).(amount)) as (Hc & Hs & Hlt & Hp).
  { clear H H3. rewrite (lottery_sbf _ _ _ Hst) in Heval. inv_ok. same_ok. propify. done. } clear Heval.
  intros Hd1. assert (lottery_ok l) as Hok by (apply index_get_Ok in Hl; by apply (lok_lotteries _ Hd1 _ _ Hl)).
  destruct (add_participant_ok op.(lb_participant) (head_block_time d3) l Hok Hs Hlt) as [Hok' Hheld].
  pose proof Hok as [Hlc _]. revert Hd1.
  change (flow d1 d' (λ _, 0)).
  assert (d_lotteries d3 = d_lotteries d1) as E3 by (keep d_lotteries; congruence).
  apply (flow_modify_lottery _ _ _ _ l) in H as (l' & Hl' & F);
    [|rewrite E3; by apply index_get_Ok|intros l' _ [= <-]; done]. apply Ok_inj in Hl' as <-.
  assert (flow d3 d' (λ a, of_asset a l.(lg_ticket_price))) as F3.
  { eapply flow_ext; [exact F|]. intros a. cbn beta. rewrite Hheld. lia. } clear F Hheld E3.
  solve_flow.
Qed.

#[export] Instance lottery_goods_send_contacts_conserving : Conserving lottery_goods_send_contacts_operation.
Proof.
  open_conserving. unfold lottery_goods_send_contacts_do_apply in H.
  assert (∃ l, d1.(d_lotteries).(objs) !! op.(ls_lot_id) = Some l) as [l Hl].
  { unfold lottery_goods_send_contacts_do_evaluate in Heval. rewrite (lottery_sbf _ _ _ Hst) in Heval.
    apply bind_Ok in Heval as (l & Hl & _). exists l. by apply index_get_Ok. }
  destruct (flow_modify_lottery _ _ _ _ l H) as (l' & Hl' & F); [done|by intros l' Hok [= <-]|].
  apply Ok_inj in Hl' as <-. eapply flow_ext; [exact F|]. intros a. cbn beta. unfold lottery_held. cbn. lia.
Qed.

#[export] Instance lottery_goods_confirm_delivery_conserving : Conserving lottery_goods_confirm_delivery_operation.
Proof.
  open_conserving. unfold lottery_goods_confirm_delivery_do_apply in H.
  unfold lottery_goods_confirm_delivery_do_evaluate in Heval.
  apply bind_Ok in H as (l & Hl & H). apply bind_Ok in H as (profit & Hp & H). apply bind_Ok in H as (d2 & H2 & H).
  apply bind_Ok in H as (d3 & H3 & H). apply bind_Ok in H as (o & _ & H).
  assert (l.(lg_status) = 2) as Hs.
  { rewrite (lottery_sbf _ _ _ Hst) in Heval. clear H H2 H3 Hp. inv_ok. same_ok. by propify. } clear Heval.
  intros Hd1. assert (lottery_ok l) as [Hc Hfull] by (apply index_get_Ok in Hl; by apply (lok_lotteries _ Hd1 _ _ Hl)).
  specialize (Hfull (or_intror Hs)). revert Hd1. change (flow d1 d' (λ _, 0)).
  apply (flow_modify_lottery _ _ _ _ l) in H3 as (l' & Hl' & F).
  - apply Ok_inj in Hl' as <-. inv_safe.
    assert (flow d2 d3 (λ a, - of_asset a (Asset (l.(lg_ticket_price).(amount) * l.(lg_total_participants))
                               l.(lg_ticket_price).(asset_id)))) as F3.
    { eapply flow_ext; [exact F|]. intros a. unfold lottery_held. cbn. rewrite Hs, Hfull. flow_arith. }
    clear F. solve_flow.
  - assert (d_lotteries d2 = d_lotteries d1) as -> by (keep d_lotteries; done). by apply index_get_Ok.
  - intros l' [? ?] [= <-]. split; [done|by intros [?|?]].
Qed.

(** ** The first room of a range *)
Lemma find_room_spec d p :
  match find_room d p with
  | Some id => ∃ r, d.(d_rooms).(objs) !! id = Some r ∧ p r = true ∧
                 ∀ j r', d.(d_rooms).(objs) !! j = Some r' → p r' = true → id ≤ j
  | None => ∀ j r', d.(d_rooms).(objs) !! j = Some r' → p r' = false
  end.
Proof.
  unfold find_room. generalize (d.(d_rooms).(objs)). intros m.
  apply (map_fold_weak_ind (λ (acc : option Z) (m : gmap Z matrix_rooms_object),
    match acc with
    | Some id => ∃ r, m !! id = Some r ∧ p r = true ∧ ∀ j r', m !! j = Some r' → p r' = true → id ≤ j
    | None => ∀ j r', m !! j = Some r' → p r' = false
    end)).
  - intros j r'. by rewrite lookup_empty.
  - intros id r m' acc Hn IH. destruct (p r) eqn:Hp.
    + destruct acc as [j|].
      * destruct IH as (rj & Hj & Hpj & Hmin). destruct (Z.le_ge_cases id j) as [Hle|Hle].
        -- rewrite Z.min_l by done. exists r. split; [apply lookup_insert_eq|]. split; [done|].
           intros k r' [[<- _]|[_ Hk]]%lookup_insert_Some Hpk; [done|]. specialize (Hmin _ _ Hk Hpk). lia.
        -- rewrite Z.min_r by done. exists rj. split; [rewrite lookup_insert_ne; [done|congruence]|]. split; [done|].
           intros k r' [[<- _]|[_ Hk]]%lookup_insert_Some Hpk; [done|]. by apply (Hmin _ _ Hk).
      * exists r. split; [apply lookup_insert_eq|]. split; [done|].
        intros k r' [[<- _]|[_ Hk]]%lookup_insert_Some Hpk; [done|]. by rewrite (IH _ _ Hk) in Hpk.
    + destruct acc as [j|].
      * destruct IH as (rj & Hj & Hpj & Hmin). exists rj. split; [rewrite lookup_insert_ne; [done|congruence]|].
        split; [done|]. intros k r' [[_ <-]|[_ Hk]]%lookup_insert_Some Hpk; [congruence|]. by apply (Hmin _ _ Hk).
      * intros k r' [[_ <-]|[_ Hk]]%lookup_insert_Some; [done|by apply (IH _ _ Hk)].
Qed.

(** A room is open until its last cell is filled; it closes exactly then. *)
Definition room_ok (r : matrix_rooms_object) : Prop :=
  (r.(mr_status) < 2 ∧ Z.of_nat (length r.(mr_cells)) < Z.max 1 r.(mr_total_cells)) ∨
  (r.(mr_status) = 2 ∧ Z.of_nat (length r.(mr_cells)) = Z.max 1 r.(mr_total_cells)).
Definition rooms_ok (d : database) : Prop := map_Forall (λ _ r, room_ok r) d.(d_rooms).(objs).

Lemma rooms_frame d d' : d'.(d_rooms) = d.(d_rooms) → rooms_ok d → rooms_ok d'.
Proof. unfold rooms_ok. by intros ->. Qed.

Lemma close_room_rooms d op room winner d' : close_room d op room winner = Ok d' → d'.(d_rooms) = d.(d_rooms).
Proof.
  intros H. unfold close_room, modify_matrix in H. inv_ok; keep d_rooms; cbn in *; congruence.
Qed.

Lemma fill_room_ok d op room r d' :
  fill_room d op room = Ok d' → d.(d_rooms).(objs) !! room = Some r → r.(mr_status) < 2 → rooms_ok d → rooms_ok d'.
Proof.
  intros H Hr Hs Hok. unfold fill_room, index_get in H. rewrite Hr in H. cbn [from_option_exn mbind result_bind] in H.
  apply bind_Ok in H as ([r2 d2] & H2 & H). apply bind_Ok in H as (i & Hi & H). apply Ok_inj in H as <-.
  apply index_modify_Ok in Hi as (r3 & ? & Hr3 & [= <-] & ->).
  destruct (Hok _ _ Hr) as [[_ Hlt]|[? _]]; [|lia].
  assert (d2.(d_rooms) = d.(d_rooms) ∧ room_ok r2) as [E Hr2].
  { clear Hr3. cbv zeta in H2. destruct (Z.leb_spec (mr_total_cells (r <| mr_cells := mr_cells r ++ [mo_player op] |>))
      (Z.of_nat (length (mr_cells (r <| mr_cells := mr_cells r ++ [mo_player op] |>))))) as [Hle|Hgt].
    - apply bind_Ok in H2 as (d3 & H3%close_room_rooms & H2). injection H2 as <- <-. split; [done|].
      right. cbn in *. rewrite length_app in *. cbn in *. lia.
    - injection H2 as <- <-. split; [done|]. left. cbn in *. rewrite length_app in *. cbn in *. lia. }
  unfold rooms_ok. cbn. rewrite E. by apply map_Forall_insert_2.
Qed.

Lemma open_rooms_of_ok d matrix player : rooms_ok d → rooms_ok (open_rooms_of d matrix player).
Proof.
  intros Hok id r. cbn. rewrite lookup_fmap. intros Hr. apply fmap_Some in Hr as (r0 & Hr0 & ->).
  specialize (Hok _ _ Hr0). cbv beta in Hok. unfold by_matrix_player_status. case_match; [|done].
  propify. unfold room_ok in *. cbn. lia.
Qed.

Lemma room_to_fill_open d op ref room :
  room_to_fill d op ref = Ok (Some room) →
  ∃ r, d.(d_rooms).(objs) !! room = Some r ∧ r.(mr_status) < 2 ∧ r.(mr_matrix) = op.(mo_matrix_id) ∧ r.(mr_matrix_level) = op.(mo_matrix_level).
Proof.
  intros H. pose proof (find_room_spec d (by_matrix_level_status (mo_matrix_id op) (mo_matrix_level op) 1)) as Ho.
  unfold room_to_fill in H. destruct (open_cells d op).
  - injection H as H. rewrite H in Ho. destruct Ho as (r & Hr & Hp & _). exists r. split; [done|].
    unfold by_matrix_level_status in Hp. propify. split_and!; lia.
  - apply bind_Ok in H as (s & _ & H). injection H as H.
    pose proof (find_room_spec d (by_matrix_level_player_status (mo_matrix_id op) ref (mo_matrix_level op)
      (if 2 <=? st_matrix_cells_opened s then 1 else 0))) as Hl.
    destruct (find_room d (by_matrix_level_player_status _ _ _ _)).
    + injection H as ->. destruct Hl as (r & Hr & Hp & _). exists r. split; [done|].
      unfold by_matrix_level_player_status, by_matrix_player_status in Hp. propify. split_and!; [case_match; lia|lia..].
    + rewrite H in Ho. destruct Ho as (r & Hr & Hp & _). exists r. split; [done|].
      unfold by_matrix_level_status in Hp. propify. split_and!; lia.
Qed.

Lemma matrix_open_room_rooms_ok d op d' :
  matrix_open_room_do_apply d op = Ok d' → rooms_ok d → rooms_ok d'.
Proof.
  intros H Hok. unfold matrix_open_room_do_apply in H. apply bind_Ok in H as (m & _ & H).
  apply bind_Ok in H as (d1 & H1 & H). apply bind_Ok in H as (d2 & H2 & H). apply bind_Ok in H as (d3 & H3 & H).
  apply bind_Ok in H as (p & _ & H). apply bind_Ok in H as (r & _ & H).
  apply bind_Ok in H as (d4 & H4 & H). apply bind_Ok in H as (d5 & H5 & H).
  apply bind_Ok in H as (target & Ht & H). apply bind_Ok in H as (d6 & H6 & H).
  assert (rooms_ok d5) as Hok5.
  { assert (rooms_ok d4) as Hok4.
    { eapply rooms_frame; [|exact Hok]. clear H H5 H6 Ht. unfold modify_matrix, update_pv, enter_matrix in *.
      inv_ok; keep d_rooms; cbn in *; congruence. }
    clear -H5 Hok4. unfold open_referrer_cells in H5. inv_ok; keep d_rooms.
    all: repeat first [assumption | apply open_rooms_of_ok | eapply rooms_frame; [eassumption|]]. }
  assert (rooms_ok d6) as Hok6.
  { destruct target as [room|]; [|clear -H6 Hok5; by inv_ok].
    destruct (room_to_fill_open _ _ _ _ Ht) as (r0 & Hr0 & Hs & _). by eapply fill_room_ok. }
  clear -H Hok6. unfold open_room in H. inv_ok. keep d_rooms.
  match goal with Hc : index_create _ _ = Ok _ |- _ => apply index_create_Ok in Hc as (-> & _ & ->) end.
  eapply rooms_frame; [eassumption|]. cbn. unfold rooms_ok. cbn. apply map_Forall_insert_2; [|done].
  left. cbn. case_match; lia.
Qed.

(** ** What opening a room does to the rooms, the pot and the balances

    [rooms_of] are the rooms but for their status. *)
Definition rooms_of (d : database) : gmap Z matrix_rooms_object := (λ r, r <| mr_status := 0 |>) <$> d.(d_rooms).(objs).
Definition add_cell (who : Z) (r : matrix_rooms_object) : matrix_rooms_object := r <| mr_cells := r.(mr_cells) ++ [who] |>.

(** The room whose last cell is filled. *)
Definition room_closed (d : database) (filled : option Z) : option matrix_rooms_object :=
  k ← filled; r ← rooms_of d !! k; if r.(mr_total_cells) <=? Z.of_nat (length r.(mr_cells)) + 1 then Some r else None.
Definition prize_of (op : matrix_open_room_operation) (m : matrix_object) (closed : option matrix_rooms_object) : Z :=
  match closed with Some _ => at_level op.(mo_matrix_level) m.(mx_level_prize) | None => 0 end.
(** What account [a] is paid of asset [i]. *)
Definition prize_to (op : matrix_open_room_operation) (m : matrix_object) (closed : option matrix_rooms_object) (a i : Z) : Z :=
  match closed with
  | Some r => if decide ((a, i) = (r.(mr_matrix_player), CORE)) then prize_of op m closed else 0
  | None => 0
  end.

(** The steps around the payment. *)
Definition same_games (d d' : database) : Prop :=
  d'.(d_balances) = d.(d_balances) ∧ d'.(d_matrices) = d.(d_matrices) ∧ rooms_of d' = rooms_of d ∧
  d'.(d_rooms).(next_id) = d.(d_rooms).(next_id).
#[export] Instance same_games_preorder : PreOrder same_games.
Proof. split; [done|]. intros d1 d2 d3 (? & ? & ? & ?) (? & ? & ? & ?). split_and!; congruence. Qed.

Lemma same_games_step d d' :
  d'.(d_balances) = d.(d_balances) → d'.(d_matrices) = d.(d_matrices) → d'.(d_rooms) = d.(d_rooms) → same_games d d'.
Proof. intros ? ? E. unfold same_games, rooms_of. rewrite E. done. Qed.
Lemma update_pv_games d acct v d' : update_pv d acct v = Ok d' → same_games d d'.
Proof.
  intros H. unfold update_pv in H. inv_ok; keep d_balances; keep d_matrices; keep d_rooms; by apply same_games_step.
Qed.
Lemma enter_matrix_games d op d' : enter_matrix d op = Ok d' → same_games d d'.
Proof.
  intros H. unfold enter_matrix in H. inv_ok; [|reflexivity].
  keep d_balances; keep d_matrices; keep d_rooms; by apply same_games_step.
Qed.
Lemma open_rooms_of_games d matrix player : same_games d (open_rooms_of d matrix player).
Proof.
  split; [done|]. split; [done|]. split; [|done]. unfold rooms_of. cbn. rewrite <-map_fmap_compose. apply map_fmap_ext.
  intros k r _. cbn. by case_match.
Qed.
Lemma open_referrer_cells_games d op ref d' : open_referrer_cells d op ref = Ok d' → same_games d d'.
Proof.
  assert (∀ x y, modify_statistics x ref count_cells = Ok y → same_games x y) as Hs.
  { intros x y H. keep d_balances; keep d_matrices; keep d_rooms; by apply same_games_step. }
  intros H. unfold open_referrer_cells in H. apply bind_Ok in H as (s & _ & H). apply bind_Ok in H as (d1 & H1 & H).
  apply bind_Ok in H as (s1 & _ & H). transitivity d1; [clear H|case_match; [by apply Hs|by injection H as <-]].
  case_match; [|by injection H1 as <-]. apply bind_Ok in H1 as (d2 & H2 & [= <-]).
  transitivity d2; [by apply Hs|apply open_rooms_of_games].
Qed.

(** A room that is filled: one cell more, and when it was the last one the prize of its
    level goes from the pot to its player. *)
Lemma fill_room_pays d op room d' m :
  fill_room d op room = Ok d' → d.(d_matrices).(objs) !! op.(mo_matrix_id) = Some m →
  let closed := room_closed d (Some room) in
  rooms_of d' = alter (add_cell op.(mo_player)) room (rooms_of d) ∧ d'.(d_rooms).(next_id) = d.(d_rooms).(next_id) ∧
  (∃ m', d'.(d_matrices).(objs) !! op.(mo_matrix_id) = Some m' ∧ m'.(mx_amount) = m.(mx_amount) - prize_of op m closed ∧
     m'.(mx_level_cells) = m.(mx_level_cells)) ∧
  ∀ a i, (get_balance d' a i).(amount) = (get_balance d a i).(amount) + prize_to op m closed a i.
Proof.
  intros H Hm. unfold fill_room in H. apply bind_Ok in H as (r & Hr & H). apply index_get_Ok in Hr. cbv zeta in H.
  apply bind_Ok in H as ([r2 d2] & H2 & H). apply bind_Ok in H as (i & Hi & [= <-]).
  apply index_modify_Ok in Hi as (r3 & ? & Hr3 & [= <-] & ->).
  assert (rooms_of d !! room = Some (r <| mr_status := 0 |>)) as Er by (unfold rooms_of; by rewrite lookup_fmap, Hr).
  assert (∀ x, x.(d_rooms) = d.(d_rooms) → r2 <| mr_status := 0 |> = add_cell op.(mo_player) (r <| mr_status := 0 |>) →
    rooms_of (x <| d_rooms := Index (<[room := r2]> x.(d_rooms).(objs)) x.(d_rooms).(next_id) |>)
      = alter (add_cell op.(mo_player)) room (rooms_of d)) as Hrooms.
  { intros x Ex E2.
    assert (rooms_of (x <| d_rooms := Index (<[room := r2]> x.(d_rooms).(objs)) x.(d_rooms).(next_id) |>)
      = <[room := r2 <| mr_status := 0 |>]> (rooms_of x)) as -> by apply fmap_insert.
    assert (rooms_of x = rooms_of d) as -> by (unfold rooms_of; by rewrite Ex). rewrite E2.
    apply map_eq. intros k. destruct (decide (k = room)) as [->|Hne].
    - by rewrite lookup_insert_eq, lookup_alter_eq, Er.
    - by rewrite lookup_insert_ne, lookup_alter_ne by congruence. }
  assert (room_closed d (Some room) = if r.(mr_total_cells) <=? Z.of_nat (length r.(mr_cells)) + 1
          then Some (r <| mr_status := 0 |>) else None) as Ec by (unfold room_closed; cbn; rewrite Er; done).
  cbn in H2. rewrite length_app in H2. cbn [length] in H2. rewrite Nat2Z.inj_add in H2. cbn [Z.of_nat Pos.of_succ_nat] in H2.
  rewrite Ec. clear Ec. destruct (_ <=? _).
  2: { injection H2 as <- <-. cbn [prize_of prize_to]. split; [by apply Hrooms|]. split; [done|].
       split; [exists m; split; [exact Hm|split; [lia|done]]|]. intros a j. rewrite Z.add_0_r. done. }
  apply bind_Ok in H2 as (d3 & H3 & [= <- <-]). cbn [prize_of prize_to].
  pose proof (close_room_rooms _ _ _ _ _ H3) as R3. cbn in R3. unfold close_room in H3.
  apply bind_Ok in H3 as (m0 & Hm0 & H3). apply index_get_Ok in Hm0. cbn in Hm0. rewrite Hm in Hm0. injection Hm0 as <-.
  cbv zeta in H3. set (prize := at_level _ _) in *. apply bind_Ok in H3 as (d4 & H4 & H3). apply bind_Ok in H3 as (d5 & H5 & H3).
  unfold modify_matrix in H5. apply bind_Ok in H5 as (j & Hj & E5). apply Ok_inj in E5 as <-.
  apply index_modify_Ok in Hj as (m1 & m2 & Hm1 & Hm2 & ->). pose proof (adjust_balance_frame _ _ _ _ H4) as E4. cbn in Hm1. rewrite E4 in Hm1. cbn in Hm1. rewrite Hm in Hm1. injection Hm1 as <-.
  apply bind_Ok in Hm2 as (v & Hv & [= <-]). apply safe_sub_Ok in Hv as ->.
  apply bind_Ok in H3 as (? & _ & H3). apply bind_Ok in H3 as (ws & _ & H3). set (d6 := _ <| d_matrices := _ |>) in H3.
  assert (d3.(d_matrices) = d6.(d_matrices) ∧ d3.(d_balances) = d6.(d_balances)) as [M3 B3].
  { destruct (_ <? _); [|by injection H3 as <-]. keep d_matrices. keep d_balances. done. }
  split; [by apply Hrooms|]. split; [cbn; by rewrite R3|]. split.
  - eexists. split; [cbn; rewrite M3; cbn; apply lookup_insert_eq|]. done.
  - intros a k. pose proof (adjust_balance_get _ _ _ _ a k H4) as G. unfold get_balance in G |- *. cbn [d_balances] in *. cbn.
    rewrite B3. cbn. exact G.
Qed.

Lemma open_room_adds d op d' m :
  open_room d op = Ok d' → d.(d_matrices).(objs) !! op.(mo_matrix_id) = Some m →
  let new := d.(d_rooms).(next_id) in
  rooms_of d !! new = None ∧
  rooms_of d' = <[new := MatrixRoom op.(mo_matrix_id) op.(mo_player) op.(mo_matrix_level)
                           (at_level op.(mo_matrix_level) m.(mx_level_cells)) 0 []]> (rooms_of d) ∧
  d'.(d_balances) = d.(d_balances) ∧ d'.(d_matrices) = d.(d_matrices).
Proof.
  intros H Hm. unfold open_room in H. apply bind_Ok in H as (m0 & Hm0 & H). apply index_get_Ok in Hm0. rewrite Hm in Hm0. injection Hm0 as <-.
  apply bind_Ok in H as (s & _ & H). cbv zeta in H. apply bind_Ok in H as ([id i] & Hi & H).
  apply index_create_Ok in Hi as (-> & Hn & ->). pose proof (modify_statistics_frame _ _ _ _ H) as E. split.
  - unfold rooms_of. by rewrite lookup_fmap, Hn.
  - rewrite E. cbn. split; [|done]. unfold rooms_of. cbn. by rewrite fmap_insert.
Qed.

Lemma matrix_open_room_pays d op d' :
  matrix_open_room_do_apply d op = Ok d' →
  ∃ m m' filled new, d.(d_matrices).(objs) !! op.(mo_matrix_id) = Some m ∧ d'.(d_matrices).(objs) !! op.(mo_matrix_id) = Some m' ∧
    rooms_of d !! new = None ∧
    (∀ k, filled = Some k → ∃ r, rooms_of d !! k = Some r ∧ r.(mr_matrix) = op.(mo_matrix_id) ∧ r.(mr_matrix_level) = op.(mo_matrix_level)) ∧
    rooms_of d' = <[new := MatrixRoom op.(mo_matrix_id) op.(mo_player) op.(mo_matrix_level)
                             (at_level op.(mo_matrix_level) m.(mx_level_cells)) 0 []]>
                    (from_option (λ k, alter (add_cell op.(mo_player)) k (rooms_of d)) (rooms_of d) filled) ∧
    m'.(mx_amount) = m.(mx_amount) + op.(mo_level_price).(amount) - prize_of op m (room_closed d filled) ∧
    ∀ a i, (get_balance d' a i).(amount) = (get_balance d a i).(amount)
      - (if decide ((a, i) = (op.(mo_player), CORE)) then op.(mo_level_price).(amount) else 0)
      + prize_to op m (room_closed d filled) a i.
Proof.
  intros H. unfold matrix_open_room_do_apply in H. apply bind_Ok in H as (m & Hm & H). apply index_get_Ok in Hm.
  apply bind_Ok in H as (d1 & H1 & H). apply bind_Ok in H as (d2 & H2 & H). apply bind_Ok in H as (d3 & H3 & H).
  apply bind_Ok in H as (p & _ & H). cbv zeta in H. apply bind_Ok in H as (r & _ & H).
  apply bind_Ok in H as (d4 & H4 & H). apply bind_Ok in H as (d5 & H5 & H). apply bind_Ok in H as (filled & Ht & H).
  apply bind_Ok in H as (d6 & H6 & H).
  assert (same_games d1 d2) as G2.
  { clear -H2. destruct (HARDFORK_CWD2_TIME <=? _); [by eapply update_pv_games|by injection H2 as <-]. }
  pose proof (debit_frame _ _ _ _ H1) as E1. pose proof (λ a i, debit_get _ _ _ _ a i H1) as B1. cbn [amount asset_id] in B1.
  unfold modify_matrix in H3. apply bind_Ok in H3 as (j & Hj & [= <-]). apply index_modify_Ok in Hj as (m1 & m2 & Hm1 & Hm2 & ->).
  destruct G2 as (Ba2 & M2 & R2 & N2). rewrite M2, E1 in Hm1. cbn in Hm1. rewrite Hm in Hm1. injection Hm1 as <-.
  assert (m2.(mx_amount) = m.(mx_amount) + op.(mo_level_price).(amount) ∧ m2.(mx_level_cells) = m.(mx_level_cells) ∧
          m2.(mx_level_prize) = m.(mx_level_prize)) as (A2 & C2 & P2).
  { unfold add_to_pot in Hm2. clear H H5 H6. inv_ok; inv_safe; done. }
  apply enter_matrix_games in H4. apply open_referrer_cells_games in H5.
  pose proof (transitivity H4 H5) as (Ba5 & M5 & R5 & N5). cbn in Ba5, M5, N5.
  assert (rooms_of d5 = rooms_of d) as R by (rewrite R5; change (rooms_of d2 = rooms_of d); rewrite R2; unfold rooms_of; by rewrite E1).
  assert (d5.(d_matrices).(objs) !! op.(mo_matrix_id) = Some m2) as Hm5 by (rewrite M5; apply lookup_insert_eq).
  assert (∀ a i, (get_balance d5 a i).(amount) = (get_balance d a i).(amount)
      - (if decide ((a, i) = (op.(mo_player), CORE)) then op.(mo_level_price).(amount) else 0)) as B5.
  { intros a i. rewrite <-B1. f_equal. apply same_balances. by rewrite Ba5. }
  assert (∀ c a i, prize_of op m2 c = prize_of op m c ∧ prize_to op m2 c a i = prize_to op m c a i) as HP
    by (intros; unfold prize_to, prize_of; by rewrite P2).
  assert (rooms_of d6 = from_option (λ k, alter (add_cell op.(mo_player)) k (rooms_of d)) (rooms_of d) filled ∧
    (∃ m', d6.(d_matrices).(objs) !! op.(mo_matrix_id) = Some m' ∧ m'.(mx_level_cells) = m.(mx_level_cells) ∧
       m'.(mx_amount) = m.(mx_amount) + op.(mo_level_price).(amount) - prize_of op m (room_closed d filled)) ∧
    ∀ a i, (get_balance d6 a i).(amount) = (get_balance d5 a i).(amount) + prize_to op m (room_closed d filled) a i)
    as (R6 & (m' & Hm' & C' & A') & B6).
  { assert (room_closed d5 filled = room_closed d filled) as Ec by (unfold room_closed; by rewrite R).
    destruct filled as [k|]; cbn [from_option].
    - destruct (fill_room_pays _ _ _ _ _ H6 Hm5) as (Rf & _ & (m' & Hm' & Am & Cm) & Bf). rewrite Ec in Am, Bf. rewrite Rf, R.
      split; [done|]. split; [exists m'; split; [done|split; [congruence|]]; rewrite Am, A2; by rewrite (proj1 (HP _ 0 0))|].
      intros a i. rewrite Bf. by rewrite (proj2 (HP _ a i)).
    - injection H6 as <-. split; [done|]. split; [exists m2; cbn; split; [done|split; [done|lia]]|]. intros a i. cbn. lia. }
  destruct (open_room_adds _ _ _ _ H Hm') as (Hn & Rn & Bn & Mn). exists m, m', filled, (d6.(d_rooms).(next_id)).
  split; [done|]. split; [by rewrite Mn|]. split.
  { rewrite R6 in Hn. destruct filled as [k|]; cbn [from_option] in Hn; [|done]. apply lookup_alter_None in Hn. exact Hn. }
  split.
  { intros k ->. destruct (room_to_fill_open _ _ _ _ Ht) as (r0 & Hr0 & _ & ? & ?). exists (r0 <| mr_status := 0 |>).
    split; [|done]. rewrite <-R. unfold rooms_of. by rewrite lookup_fmap, Hr0. }
  split; [by rewrite Rn, R6, C'|]. split; [done|]. intros a i. rewrite <-B5, <-B6. f_equal. by apply same_balances.
Qed.

(** ** Properties of the games *)

(** C21. The call of a bet compares amounts, not assets: the books of every
    asset change by the difference between the bet and what the caller pays, so
    that a caller who pays in another asset than the bet leaves the escrow
    of the bet unbacked by its amount, and no other call does. *)
Theorem flipcoin_call_books d op f d' (Hd : ledger_ok d)
  (Hf : d.(d_flipcoins).(objs) !! op.(fc_flipcoin) = Some f) (Heval : flipcoin_call_do_evaluate d op = Ok tt)
  (H : flipcoin_call_do_apply d op = Ok d') :
  ledger_ok d' ∧
  (op.(fc_bet).(asset_id) = f.(fl_bet).(asset_id) → ∀ a, imbalance d' a = imbalance d a) ∧
  (op.(fc_bet).(asset_id) ≠ f.(fl_bet).(asset_id) →
     imbalance d' f.(fl_bet).(asset_id) = imbalance d f.(fl_bet).(asset_id) + f.(fl_bet).(amount) ∧
     imbalance d' op.(fc_bet).(asset_id) = imbalance d op.(fc_bet).(asset_id) - f.(fl_bet).(amount)).
Proof.
  assert (f.(fl_status) = 0 ∧ f.(fl_bet).(amount) = op.(fc_bet).(amount)) as [Hs Ha].
  { unfold flipcoin_call_do_evaluate in Heval. clear H. inv_ok. propify.
    match goal with Hg : index_get _ _ = Ok _ |- _ => apply index_get_Ok in Hg end. by same_ok. }
  clear Heval. unfold flipcoin_call_do_apply in H. apply bind_Ok in H as (d1 & H1 & H).
  apply bind_Ok in H as (i & Hi & H). apply Ok_inj in H as <-. keep d_flipcoins.
  destruct (flow_modify_flipcoin _ _ _ _ Hi) as (f0 & f' & Hf0 & Hf' & F); [by intros ? ? [= <-]|].
  assert (f0 = f) as -> by congruence. injection Hf' as <-. clear Hf0 Hf Hi Hkeep.
  assert (flow d (d1 <| d_flipcoins := i |>) (λ a, of_asset a f.(fl_bet) - of_asset a op.(fc_bet))) as [Hd' E];
    [|exact Hd|].
  { apply flows in H1. eapply flow_ext; [eapply flow_trans; [exact H1|exact F]|]. cbn.
    unfold flipcoin_held. cbn. rewrite Hs. flow_arith. }
  split; [done|]. split; [intros Heq a|intros Hne; split]; rewrite E; unfold of_asset, at_id; rewrite ?Heq, ?Z.eqb_refl, ?Ha.
  - case_match; lia.
  - destruct (Z.eqb_spec op.(fc_bet).(asset_id) f.(fl_bet).(asset_id)); [congruence|lia].
  - destruct (Z.eqb_spec f.(fl_bet).(asset_id) op.(fc_bet).(asset_id)); [congruence|lia].
Qed.

(** Opening a room moves the price into the pot and a prize at most out of
    it, without creating or destroying value, as long as the matrix is
    running. *)
Theorem matrix_open_room_accounted d op m d' (Hd : ledger_ok d)
  (Hm : d.(d_matrices).(objs) !! op.(mo_matrix_id) = Some m) (Hs : m.(mx_status) = 0)
  (H : matrix_open_room_do_apply d op = Ok d') :
  ledger_ok d' ∧ (∀ a, imbalance d' a = imbalance d a) ∧
  ∃ m', d'.(d_matrices).(objs) !! op.(mo_matrix_id) = Some m' ∧ m'.(mx_status) = 0.
Proof.
  destruct (flow_matrix_open_room d op d' 0 H) as (prize & F & Hp); [by exists m|].
  destruct (F Hd) as [Hd' E]. split; [done|]. split; [|done]. intros a. rewrite E. unfold in_pot. flow_arith.
Qed.

(** Whether a matrix has been closed makes no difference to who may enter
    it: the checks of a new room read the window of blocks, never the status. *)
Theorem closed_matrix_still_admits d op status d2
  (Hd2 : d2 = d <| d_matrices := Index ((λ m, m <| mx_status := status |>) <$> d.(d_matrices).(objs))
                                   d.(d_matrices).(next_id) |>)
  (Heval : matrix_open_room_do_evaluate d op = Ok tt) : matrix_open_room_do_evaluate d2 op = Ok tt.
Proof.
  subst d2. unfold matrix_open_room_do_evaluate, get_matrix, index_get in *. cbn [objs d_matrices over].
  unfold get_account, index_get, get_statistics, get_balance, find_room, head_block_num in *. cbn in *.
  rewrite lookup_fmap. destruct (objs (d_matrices d) !! mo_matrix_id op) as [m|]; [|done]. exact Heval.
Qed.

(** C20. Opening a room.  Every room stays either open with a free cell or closed and full.
    One room is added for the player, and at most one other room, of the same matrix and
    level, gets the player in its next cell; no other room changes but for its status.  The player pays the price
    into the pot of the matrix.  When the cell is the last one of its room, the prize of
    the level goes from the pot to the player of that room; otherwise nobody is paid;
    no other balance moves. *)
Theorem matrix_rooms_invariant d op d' (Hok : rooms_ok d) (H : matrix_open_room_do_apply d op = Ok d') :
  rooms_ok d' ∧
  ∃ m m' filled new, d.(d_matrices).(objs) !! op.(mo_matrix_id) = Some m ∧ d'.(d_matrices).(objs) !! op.(mo_matrix_id) = Some m' ∧
    rooms_of d !! new = None ∧
    (∀ k, filled = Some k → ∃ r, rooms_of d !! k = Some r ∧ r.(mr_matrix) = op.(mo_matrix_id) ∧ r.(mr_matrix_level) = op.(mo_matrix_level)) ∧
    rooms_of d' = <[new := MatrixRoom op.(mo_matrix_id) op.(mo_player) op.(mo_matrix_level)
                             (at_level op.(mo_matrix_level) m.(mx_level_cells)) 0 []]>
                    (from_option (λ k, alter (add_cell op.(mo_player)) k (rooms_of d)) (rooms_of d) filled) ∧
    m'.(mx_amount) = m.(mx_amount) + op.(mo_level_price).(amount) - prize_of op m (room_closed d filled) ∧
    ∀ a i, (get_balance d' a i).(amount) = (get_balance d a i).(amount)
      - (if decide ((a, i) = (op.(mo_player), CORE)) then op.(mo_level_price).(amount) else 0)
      + prize_to op m (room_closed d filled) a i.
Proof. split; [by eapply matrix_open_room_rooms_ok|by apply matrix_open_room_pays]. Qed.

(** ** Witnesses *)
Definition sample_matrix (status : Z) : matrix_object :=
  Matrix 39999000 40000000 status 5000 5000 0 (replicate 8 1000) (replicate 8 4000) (replicate 8 1).

Definition game_db : database :=
  sample_db
    <| d_flipcoins := Index {[ 0 := Flipcoin 6 None None (Asset 40 0) 1 1650003000 0 ]} 1 |>
    <| d_matrices := Index {[ 3 := sample_matrix 0 ]} 4 |>
    <| d_rooms := Index {[ 0 := MatrixRoom 3 6 1 1 1 [] ]} 1 |>.

Lemma game_db_ledger_ok : ledger_ok game_db.
Proof. split; by apply (bool_decide_unpack _). Qed.

(** Account 7 answers a bet of 40 CWD with 40 units of a user-issued asset. *)
Lemma flipcoin_call_books_witness :
  let op := FlipcoinCallOp (Asset 0 0) 0 7 (Asset 40 1) in
  let d' := ok_or game_db (flipcoin_call_do_apply game_db op) in
  ledger_ok d' ∧
  (1 = 0 → ∀ a, imbalance d' a = imbalance game_db a) ∧
  (1 ≠ 0 → imbalance d' 0 = imbalance game_db 0 + 40 ∧ imbalance d' 1 = imbalance game_db 1 - 40).
Proof.
  apply (flipcoin_call_books game_db (FlipcoinCallOp (Asset 0 0) 0 7 (Asset 40 1))
           (Flipcoin 6 None None (Asset 40 0) 1 1650003000 0)).
  - exact game_db_ledger_ok.
  - reflexivity.
  - vm_compute. reflexivity.
  - destruct (flipcoin_call_do_apply game_db _) eqn:E; [reflexivity|]. exfalso. vm_compute in E. discriminate E.
Defined.

Definition sample_open_room : matrix_open_room_operation := MatrixOpenRoomOp (Asset 100 0) 3 8 1 (Asset 1000 0).

Lemma matrix_open_room_accounted_witness :
  is_ok (matrix_open_room_do_apply game_db sample_open_room) = true ∧
  let d' := ok_or game_db (matrix_open_room_do_apply game_db sample_open_room) in
  ledger_ok d' ∧ (∀ a, imbalance d' a = imbalance game_db a) ∧
  ∃ m', d'.(d_matrices).(objs) !! 3 = Some m' ∧ m'.(mx_status) = 0.
Proof.
  split; [vm_compute; reflexivity|].
  apply (matrix_open_room_accounted game_db sample_open_room (sample_matrix 0));
    [exact game_db_ledger_ok|reflexivity|reflexivity|].
  destruct (matrix_open_room_do_apply game_db sample_open_room) eqn:E; [reflexivity|].
  exfalso. vm_compute in E. discriminate E.
Defined.

Lemma closed_matrix_still_admits_witness :
  matrix_open_room_do_evaluate
    (game_db <| d_matrices := Index ((λ m, m <| mx_status := 1 |>) <$> game_db.(d_matrices).(objs)) 4 |>)
    sample_open_room = Ok tt.
Proof. apply (closed_matrix_still_admits game_db sample_open_room 1); [reflexivity|vm_compute; reflexivity]. Defined.

Lemma matrix_rooms_invariant_witness :
  let d' := ok_or game_db (matrix_open_room_do_apply game_db sample_open_room) in
  rooms_ok d' ∧ (mr_status <$> d'.(d_rooms).(objs) !! 0) = Some 2 ∧
  ∃ m filled, prize_to sample_open_room m (room_closed game_db filled) 6 0 = 4000.
Proof.
  destruct (matrix_rooms_invariant game_db sample_open_room (ok_or game_db (matrix_open_room_do_apply game_db sample_open_room)))
    as (Hok & m & m' & filled & new & _ & _ & _ & _ & _ & _ & Hb).
  - apply map_Forall_singleton. left. cbn. lia.
  - destruct (matrix_open_room_do_apply game_db sample_open_room) eqn:E; [reflexivity|].
    exfalso. vm_compute in E. discriminate E.
  - split; [exact Hok|]. split; [vm_compute; reflexivity|]. exists m, filled. specialize (Hb 6 0).
    set (p := prize_to _ _ _ _ _) in *. clearbody p. rewrite decide_False in Hb by (vm_compute; congruence).
    assert ((get_balance (ok_or game_db (matrix_open_room_do_apply game_db sample_open_room)) 6 0).(amount)
      = (get_balance game_db 6 0).(amount) + 4000) as E by (vm_compute; reflexivity). lia.
Defined.
