(* ===== verification/Exchange.v ===== *)
(** * P2P exchange

    [exchange_evaluator.cpp] and [protocol/exchange.cpp]: gateways advertise,
    clients open orders against the advertisements, the party that sells core
    has its funds put in escrow, and the order is paid, released, cancelled or
    disputed before an arbitrator.

    [order_type] is true when the client buys core from the gateway.  Status of
    an order: 1 opened, 2 called (funds in escrow), 3 paid, 4 disputed,
    5 dispute answered. *)
From S2P Require Import Prelude Safe Raw Asset Objects Database Ledger Balance Evaluator Sample.

Definition cut_fee_exchange (a p : Z) : result Z := percent_of a p.

(** The account whose white list names the arbitrators. *)
Definition admin_whitelist : Z := 3334.
Definition check_arbitr (d : database) (arbitr : Z) : result unit :=
  admin ← get_account d admin_whitelist;
  FC_ASSERT (bool_decide (arbitr ∈ admin.(acc_whitelisted_accounts))).

Definition get_p2p_adv (d : database) (id : Z) : result p2p_adv_object := index_get d.(d_p2p_advs) id.
Definition get_p2p_order (d : database) (id : Z) : result p2p_order_object := index_get d.(d_p2p_orders) id.

Definition modify_p2p_adv (d : database) (id : Z) (f : p2p_adv_object → result p2p_adv_object) : result database :=
  i ← index_modify d.(d_p2p_advs) id f; Ok (d <| d_p2p_advs := i |>).
Definition modify_p2p_order (d : database) (id : Z) (f : p2p_order_object → result p2p_order_object) :
    result database :=
  i ← index_modify d.(d_p2p_orders) id f; Ok (d <| d_p2p_orders := i |>).
Definition remove_p2p_order (d : database) (id : Z) : result database :=
  i ← index_remove d.(d_p2p_orders) id; Ok (d <| d_p2p_orders := i |>).

(** ** Advertisements *)
Record p2p_adv_fields : Type := AdvFields {
  af_adv_type : bool; af_adv_description : string; af_max_cwd : Z; af_min_cwd : Z; af_price : Z;
  af_currency : string; af_min_p2p_complete_deals : Z; af_min_account_status : Z;
  af_timelimit_for_reply : Z; af_timelimit_for_approve : Z; af_geo : string }.

(** The checks [create] and [edit] share, in their order. *)
Definition adv_fields_validate (f : p2p_adv_fields) : result unit :=
  _ ← FC_ASSERT (3600 <=? f.(af_timelimit_for_approve));
  _ ← FC_ASSERT (3600 <=? f.(af_timelimit_for_reply));
  _ ← FC_ASSERT (10 <=? pack_size_string f.(af_adv_description));
  _ ← FC_ASSERT (pack_size_string f.(af_adv_description) <? 257);
  _ ← FC_ASSERT (pack_size_string f.(af_geo) <? 65);
  _ ← FC_ASSERT (pack_size_string f.(af_currency) <? 20);
  _ ← FC_ASSERT (0 <? f.(af_max_cwd));
  _ ← FC_ASSERT (0 <? f.(af_min_cwd));
  _ ← FC_ASSERT (f.(af_min_cwd) <=? f.(af_max_cwd));
  _ ← FC_ASSERT (0 <? f.(af_price));
  _ ← FC_ASSERT (0 <=? f.(af_min_account_status));
  _ ← FC_ASSERT (f.(af_min_account_status) <=? 4);
  FC_ASSERT (0 <=? f.(af_min_p2p_complete_deals)).

Record create_p2p_adv_operation : Type := CreateAdvOp {
  ca_fee : asset; ca_p2p_gateway : Z; ca_fields : p2p_adv_fields }.

Definition create_p2p_adv_validate (op : create_p2p_adv_operation) : result unit :=
  _ ← FC_ASSERT (0 <=? op.(ca_fee).(amount)); adv_fields_validate op.(ca_fields).

Definition create_p2p_adv_do_evaluate (d : database) (op : create_p2p_adv_operation) : result unit :=
  let head_time := head_block_time d in
  from_account ← get_account d op.(ca_p2p_gateway);
  _ ← FC_ASSERT (from_account.(acc_referral_status_type) =? 4);
  FC_ASSERT (head_time <=? from_account.(acc_referral_status_expiration_date)).

Definition create_p2p_adv_do_apply (d : database) (op : create_p2p_adv_operation) : result database :=
  let f := op.(ca_fields) in
  '(_, i) ← index_create d.(d_p2p_advs)
    (P2pAdv op.(ca_p2p_gateway) f.(af_adv_type) f.(af_adv_description) f.(af_max_cwd) f.(af_min_cwd)
       f.(af_price) ∅ 1 f.(af_min_p2p_complete_deals) f.(af_min_account_status)
       f.(af_timelimit_for_approve) f.(af_timelimit_for_reply) f.(af_geo) f.(af_currency));
  Ok (d <| d_p2p_advs := i |>).

#[export] Instance create_p2p_adv_evaluator : Evaluator create_p2p_adv_operation := {|
  fee_payer := ca_p2p_gateway; fee := ca_fee; validate := create_p2p_adv_validate;
  do_evaluate := create_p2p_adv_do_evaluate; do_apply := create_p2p_adv_do_apply |}.

Record edit_p2p_adv_operation : Type := EditAdvOp {
  ea_fee : asset; ea_p2p_adv : Z; ea_p2p_gateway : Z; ea_status : Z; ea_fields : p2p_adv_fields }.

Definition edit_p2p_adv_validate (op : edit_p2p_adv_operation) : result unit :=
  _ ← FC_ASSERT (0 <=? op.(ea_fee).(amount));
  _ ← FC_ASSERT (0 <=? op.(ea_status));
  _ ← FC_ASSERT (op.(ea_status) <=? 1);
  adv_fields_validate op.(ea_fields).

Definition edit_p2p_adv_do_evaluate (d : database) (op : edit_p2p_adv_operation) : result unit :=
  adv ← get_p2p_adv d op.(ea_p2p_adv);
  FC_ASSERT (adv.(pa_p2p_gateway) =? op.(ea_p2p_gateway)).

Definition edit_p2p_adv_do_apply (d : database) (op : edit_p2p_adv_operation) : result database :=
  let f := op.(ea_fields) in
  modify_p2p_adv d op.(ea_p2p_adv) (λ obj,
    Ok (P2pAdv op.(ea_p2p_gateway) f.(af_adv_type) f.(af_adv_description) f.(af_max_cwd) f.(af_min_cwd)
          f.(af_price) obj.(pa_black_list) op.(ea_status) f.(af_min_p2p_complete_deals)
          f.(af_min_account_status) f.(af_timelimit_for_approve) f.(af_timelimit_for_reply) f.(af_geo)
          f.(af_currency))).

#[export] Instance edit_p2p_adv_evaluator : Evaluator edit_p2p_adv_operation := {|
  fee_payer := ea_p2p_gateway; fee := ea_fee; validate := edit_p2p_adv_validate;
  do_evaluate := edit_p2p_adv_do_evaluate; do_apply := edit_p2p_adv_do_apply |}.

Record clear_p2p_adv_black_list_operation : Type := ClearBlackListOp {
  cb_fee : asset; cb_p2p_adv : Z; cb_p2p_gateway : Z }.

Definition clear_p2p_adv_black_list_do_evaluate (d : database) (op : clear_p2p_adv_black_list_operation) :
    result unit :=
  adv ← get_p2p_adv d op.(cb_p2p_adv);
  FC_ASSERT (adv.(pa_p2p_gateway) =? op.(cb_p2p_gateway)).

Definition clear_p2p_adv_black_list_do_apply (d : database) (op : clear_p2p_adv_black_list_operation) :
    result database :=
  modify_p2p_adv d op.(cb_p2p_adv) (λ obj, Ok (obj <| pa_black_list := ∅ |>)).

#[export] Instance clear_p2p_adv_black_list_evaluator : Evaluator clear_p2p_adv_black_list_operation := {|
  fee_payer := cb_p2p_gateway; fee := cb_fee; validate := λ op, FC_ASSERT (0 <=? op.(cb_fee).(amount));
  do_evaluate := clear_p2p_adv_black_list_do_evaluate; do_apply := clear_p2p_adv_black_list_do_apply |}.

Record remove_from_p2p_adv_black_list_operation : Type := RemoveBlackListOp {
  rb_fee : asset; rb_p2p_adv : Z; rb_p2p_gateway : Z; rb_blacklisted : Z }.

Definition remove_from_p2p_adv_black_list_do_evaluate (d : database)
    (op : remove_from_p2p_adv_black_list_operation) : result unit :=
  adv ← get_p2p_adv d op.(rb_p2p_adv);
  FC_ASSERT (adv.(pa_p2p_gateway) =? op.(rb_p2p_gateway)).

Definition remove_from_p2p_adv_black_list_do_apply (d : database)
    (op : remove_from_p2p_adv_black_list_operation) : result database :=
  modify_p2p_adv d op.(rb_p2p_adv) (λ obj, Ok (obj <| pa_black_list ::= λ l, l ∖ {[ op.(rb_blacklisted) ]} |>)).

#[export] Instance remove_from_p2p_adv_black_list_evaluator : Evaluator remove_from_p2p_adv_black_list_operation := {|
  fee_payer := rb_p2p_gateway; fee := rb_fee; validate := λ op, FC_ASSERT (0 <=? op.(rb_fee).(amount));
  do_evaluate := remove_from_p2p_adv_black_list_do_evaluate;
  do_apply := remove_from_p2p_adv_black_list_do_apply |}.

(** ** Orders *)
Record create_p2p_order_operation : Type := CreateOrderOp {
  cro_fee : asset; cro_p2p_adv : Z; cro_amount : asset; cro_price : Z; cro_p2p_gateway : Z;
  cro_p2p_client : Z; cro_payment_details : option string }.

Definition create_p2p_order_validate (op : create_p2p_order_operation) : result unit :=
  _ ← FC_ASSERT (0 <=? op.(cro_fee).(amount));
  _ ← FC_ASSERT (0 <? op.(cro_amount).(amount));
  _ ← FC_ASSERT (0 <? op.(cro_price));
  _ ← FC_ASSERT (negb (op.(cro_p2p_gateway) =? op.(cro_p2p_client)));
  match op.(cro_payment_details) with
  | Some _ =>
      _ ← FC_ASSERT (pack_size_opt_memo op.(cro_payment_details) <? 1000);
      FC_ASSERT (10 <=? pack_size_opt_memo op.(cro_payment_details))
  | None => Ok tt
  end.

(** The open orders of a client, with one gateway or with all of them. *)
Definition orders_by_client_gateway (d : database) (client gateway : Z) : Z :=
  Z.of_nat (size (filter (λ kv : Z * p2p_order_object,
    kv.2.(po_p2p_client) = client ∧ kv.2.(po_p2p_gateway) = gateway) d.(d_p2p_orders).(objs))).
Definition orders_by_client (d : database) (client : Z) : Z :=
  Z.of_nat (size (filter (λ kv : Z * p2p_order_object, kv.2.(po_p2p_client) = client) d.(d_p2p_orders).(objs))).

(** How many orders an account of that status may have open. *)
Definition order_limit (status_type : Z) : Z :=
  if status_type =? 1 then 2 else if status_type =? 2 then 3 else if status_type =? 3 then 4
  else if status_type =? 4 then 5 else 1.

Definition create_p2p_order_do_evaluate (d : database) (op : create_p2p_order_operation) : result unit :=
  client ← get_account d op.(cro_p2p_client);
  _ ← get_account d op.(cro_p2p_gateway);
  let id := op.(cro_amount).(asset_id) in
  asset_type ← get_asset d id;
  let head_time := head_block_time d in
  _ ← FC_ASSERT (bool_decide (asset_type.(ao_symbol) = "CWD"));
  client_stats ← get_account_stats_by_owner d op.(cro_p2p_client);
  _ ← FC_ASSERT (client_stats.(st_p2p_banned) <? head_time);
  gateway_stats ← get_account_stats_by_owner d op.(cro_p2p_gateway);
  _ ← FC_ASSERT gateway_stats.(st_p2p_gateway_active);
  _ ← FC_ASSERT (orders_by_client_gateway d op.(cro_p2p_client) op.(cro_p2p_gateway) =? 0);
  let total_open_orders := orders_by_client d op.(cro_p2p_client) in
  _ ← (if head_time <=? client.(acc_referral_status_expiration_date)
       then FC_ASSERT (total_open_orders <? order_limit client.(acc_referral_status_type))
       else FC_ASSERT (total_open_orders =? 0));
  adv ← get_p2p_adv d op.(cro_p2p_adv);
  _ ← FC_ASSERT (adv.(pa_status) =? 1);
  _ ← FC_ASSERT (adv.(pa_p2p_gateway) =? op.(cro_p2p_gateway));
  _ ← FC_ASSERT (adv.(pa_price) =? op.(cro_price));
  _ ← (if negb adv.(pa_adv_type) then
         _ ← FC_ASSERT (op.(cro_amount).(amount) <=? (get_balance d op.(cro_p2p_client) id).(amount));
         FC_ASSERT (bool_decide (is_Some op.(cro_payment_details)))
       else FC_ASSERT (op.(cro_amount).(amount) <=? (get_balance d op.(cro_p2p_gateway) id).(amount)));
  _ ← (if 0 <? adv.(pa_min_account_status) then
         _ ← FC_ASSERT (adv.(pa_min_account_status) <=? client.(acc_referral_status_type));
         FC_ASSERT (head_time <=? client.(acc_referral_status_expiration_date))
       else Ok tt);
  _ ← FC_ASSERT (adv.(pa_min_p2p_complete_deals) <=? client_stats.(st_p2p_complete_deals));
  _ ← FC_ASSERT ((op.(cro_amount).(amount) <=? adv.(pa_max_cwd)) && (adv.(pa_min_cwd) <=? op.(cro_amount).(amount)));
  FC_ASSERT (negb (bool_decide (op.(cro_p2p_client) ∈ adv.(pa_black_list)))).

Definition create_p2p_order_do_apply (d : database) (op : create_p2p_order_operation) : result database :=
  adv ← get_p2p_adv d op.(cro_p2p_adv);
  let head_time := head_block_time d in
  '(_, i) ← index_create d.(d_p2p_orders)
    (P2pOrder op.(cro_p2p_adv) adv.(pa_adv_type) op.(cro_amount) adv.(pa_price) adv.(pa_currency)
       adv.(pa_p2p_gateway) op.(cro_p2p_client)
       (if adv.(pa_adv_type) then 1 else 2)
       (if adv.(pa_adv_type) then time_add head_time adv.(pa_timelimit_for_approve) else 0)
       (if adv.(pa_adv_type) then 0 else time_add head_time adv.(pa_timelimit_for_reply))
       op.(cro_payment_details) None None);
  let d1 := d <| d_p2p_orders := i |> in
  if negb adv.(pa_adv_type) then debit d1 op.(cro_p2p_client) op.(cro_amount) else Ok d1.

#[export] Instance create_p2p_order_evaluator : Evaluator create_p2p_order_operation := {|
  fee_payer := cro_p2p_client; fee := cro_fee; validate := create_p2p_order_validate;
  do_evaluate := create_p2p_order_do_evaluate; do_apply := create_p2p_order_do_apply |}.

Record cancel_p2p_order_operation : Type := CancelOrderOp {
  cno_fee : asset; cno_p2p_gateway : Z; cno_p2p_client : Z; cno_p2p_order : Z; cno_blacklist : bool }.

Definition cancel_p2p_order_do_evaluate (d : database) (op : cancel_p2p_order_operation) : result unit :=
  o ← get_p2p_order d op.(cno_p2p_order);
  _ ← FC_ASSERT (o.(po_p2p_gateway) =? op.(cno_p2p_gateway));
  if o.(po_order_type) then FC_ASSERT (o.(po_status) =? 1) else FC_ASSERT (o.(po_status) =? 2).

(** The counters of a gateway whose order was cancelled. *)
Definition count_canceled (s : account_statistics_object) : result account_statistics_object :=
  let s := s <| st_p2p_canceled_deals ::= λ n, u32 (n + 1) |> in
  Ok (if 0 <? s.(st_p2p_current_month_rating) then s <| st_p2p_current_month_rating ::= λ n, n - 1 |> else s).

Definition cancel_p2p_order_do_apply (d : database) (op : cancel_p2p_order_operation) : result database :=
  o ← get_p2p_order d op.(cno_p2p_order);
  d1 ← (if op.(cno_blacklist)
        then modify_p2p_adv d o.(po_p2p_adv) (λ obj, Ok (obj <| pa_black_list ::= λ l, {[ o.(po_p2p_client) ]} ∪ l |>))
        else Ok d);
  d2 ← modify_statistics d1 o.(po_p2p_gateway) count_canceled;
  d3 ← (if negb o.(po_order_type) then adjust_balance d2 o.(po_p2p_client) o.(po_amount) else Ok d2);
  remove_p2p_order d3 op.(cno_p2p_order).

#[export] Instance cancel_p2p_order_evaluator : Evaluator cancel_p2p_order_operation := {|
  fee_payer := cno_p2p_gateway; fee := cno_fee; validate := λ op, FC_ASSERT (0 <=? op.(cno_fee).(amount));
  do_evaluate := cancel_p2p_order_do_evaluate; do_apply := cancel_p2p_order_do_apply |}.

Record call_p2p_order_operation : Type := CallOrderOp {
  clo_fee : asset; clo_p2p_order : Z; clo_p2p_gateway : Z; clo_p2p_client : Z; clo_amount : asset;
  clo_price : Z; clo_payment_details : string }.

Definition call_p2p_order_validate (op : call_p2p_order_operation) : result unit :=
  _ ← FC_ASSERT (0 <=? op.(clo_fee).(amount));
  _ ← FC_ASSERT (0 <? op.(clo_amount).(amount));
  _ ← FC_ASSERT (0 <? op.(clo_price));
  _ ← FC_ASSERT (10 <=? pack_size_memo op.(clo_payment_details));
  FC_ASSERT (pack_size_memo op.(clo_payment_details) <? 1000).

Definition call_p2p_order_do_evaluate (d : database) (op : call_p2p_order_operation) : result unit :=
  o ← get_p2p_order d op.(clo_p2p_order);
  _ ← FC_ASSERT o.(po_order_type);
  _ ← FC_ASSERT (o.(po_status) =? 1);
  _ ← FC_ASSERT (o.(po_p2p_gateway) =? op.(clo_p2p_gateway));
  _ ← FC_ASSERT (o.(po_price) =? op.(clo_price));
  _ ← FC_ASSERT (asset_eqb o.(po_amount) op.(clo_amount));
  _ ← get_account d o.(po_p2p_gateway);
  _ ← get_asset d o.(po_amount).(asset_id);
  FC_ASSERT (o.(po_amount).(amount) <=? (get_balance d o.(po_p2p_gateway) o.(po_amount).(asset_id)).(amount)).

Definition call_p2p_order_do_apply (d : database) (op : call_p2p_order_operation) : result database :=
  o ← get_p2p_order d op.(clo_p2p_order);
  adv ← get_p2p_adv d o.(po_p2p_adv);
  let head_time := head_block_time d in
  d1 ← modify_p2p_order d op.(clo_p2p_order) (λ obj,
         Ok (obj <| po_status := 2 |> <| po_time_for_reply := time_add head_time adv.(pa_timelimit_for_reply) |>
                 <| po_time_for_approve := 0 |> <| po_payment_details := Some op.(clo_payment_details) |>));
  debit d1 op.(clo_p2p_gateway) o.(po_amount).

#[export] Instance call_p2p_order_evaluator : Evaluator call_p2p_order_operation := {|
  fee_payer := clo_p2p_gateway; fee := clo_fee; validate := call_p2p_order_validate;
  do_evaluate := call_p2p_order_do_evaluate; do_apply := call_p2p_order_do_apply |}.

Record payment_p2p_order_operation : Type := PaymentOrderOp {
  pyo_fee : asset; pyo_p2p_order : Z; pyo_paying_account : Z; pyo_recieving_account : Z;
  pyo_file_hash : option string }.

(** The second size check runs whether or not there is a file hash. *)
Definition payment_p2p_order_validate (op : payment_p2p_order_operation) : result unit :=
  _ ← FC_ASSERT (0 <=? op.(pyo_fee).(amount));
  _ ← (if bool_decide (is_Some op.(pyo_file_hash))
       then FC_ASSERT (10 <=? pack_size_opt_memo op.(pyo_file_hash)) else Ok tt);
  FC_ASSERT (pack_size_opt_memo op.(pyo_file_hash) <? 1000).

Definition payment_p2p_order_do_evaluate (d : database) (op : payment_p2p_order_operation) : result unit :=
  o ← get_p2p_order d op.(pyo_p2p_order);
  _ ← FC_ASSERT (o.(po_status) =? 2);
  if o.(po_order_type) then FC_ASSERT (o.(po_p2p_client) =? op.(pyo_paying_account))
  else FC_ASSERT (o.(po_p2p_gateway) =? op.(pyo_paying_account)).

Definition payment_p2p_order_do_apply (d : database) (op : payment_p2p_order_operation) : result database :=
  modify_p2p_order d op.(pyo_p2p_order) (λ obj,
    let obj := obj <| po_status := 3 |> <| po_time_for_reply := 0 |> in
    Ok (match op.(pyo_file_hash) with Some _ => obj <| po_file_hash := op.(pyo_file_hash) |> | None => obj end)).

#[export] Instance payment_p2p_order_evaluator : Evaluator payment_p2p_order_operation := {|
  fee_payer := pyo_paying_account; fee := pyo_fee; validate := payment_p2p_order_validate;
  do_evaluate := payment_p2p_order_do_evaluate; do_apply := payment_p2p_order_do_apply |}.

Record release_p2p_order_operation : Type := ReleaseOrderOp {
  rlo_fee : asset; rlo_p2p_order : Z; rlo_paying_account : Z; rlo_recieving_account : Z }.

Definition release_p2p_order_do_evaluate (d : database) (op : release_p2p_order_operation) : result unit :=
  o ← get_p2p_order d op.(rlo_p2p_order);
  _ ← FC_ASSERT (2 <=? o.(po_status));
  if o.(po_order_type) then
    _ ← FC_ASSERT (o.(po_p2p_client) =? op.(rlo_paying_account));
    FC_ASSERT (o.(po_p2p_gateway) =? op.(rlo_recieving_account))
  else
    _ ← FC_ASSERT (o.(po_p2p_gateway) =? op.(rlo_paying_account));
    FC_ASSERT (o.(po_p2p_client) =? op.(rlo_recieving_account)).

(** A completed deal of the given volume. *)
Definition count_complete (volume : Z) (s : account_statistics_object) : result account_statistics_object :=
  v ← safe_add s.(st_p2p_deals_volume) volume;
  Ok (s <| st_p2p_complete_deals ::= λ n, u32 (n + 1) |>
        <| st_p2p_current_month_rating ::= λ n, u32 (n + 1) |> <| st_p2p_deals_volume := v |>).

Definition release_p2p_order_do_apply (d : database) (op : release_p2p_order_operation) : result database :=
  o ← get_p2p_order d op.(rlo_p2p_order);
  d1 ← (if o.(po_order_type) then adjust_balance d o.(po_p2p_client) o.(po_amount)
        else adjust_balance d o.(po_p2p_gateway) o.(po_amount));
  d2 ← modify_statistics d1 o.(po_p2p_gateway) (count_complete o.(po_amount).(amount));
  d3 ← modify_statistics d2 o.(po_p2p_client) (count_complete o.(po_amount).(amount));
  remove_p2p_order d3 op.(rlo_p2p_order).

#[export] Instance release_p2p_order_evaluator : Evaluator release_p2p_order_operation := {|
  fee_payer := rlo_recieving_account; fee := rlo_fee; validate := λ op, FC_ASSERT (0 <=? op.(rlo_fee).(amount));
  do_evaluate := release_p2p_order_do_evaluate; do_apply := release_p2p_order_do_apply |}.

(** ** Disputes *)
Record open_p2p_dispute_operation : Type := OpenDisputeOp {
  odp_fee : asset; odp_p2p_order : Z; odp_account : Z; odp_defendant : Z; odp_arbitr : Z;
  odp_contact_details : string }.

Definition open_p2p_dispute_validate (op : open_p2p_dispute_operation) : result unit :=
  _ ← FC_ASSERT (0 <=? op.(odp_fee).(amount));
  _ ← FC_ASSERT (10 <=? pack_size_memo op.(odp_contact_details));
  FC_ASSERT (pack_size_memo op.(odp_contact_details) <? 1000).

Definition open_p2p_dispute_do_evaluate (d : database) (op : open_p2p_dispute_operation) : result unit :=
  o ← get_p2p_order d op.(odp_p2p_order);
  _ ← FC_ASSERT (o.(po_status) =? 3);
  _ ← FC_ASSERT ((o.(po_p2p_gateway) =? op.(odp_account)) || (o.(po_p2p_client) =? op.(odp_account)));
  check_arbitr d op.(odp_arbitr).

Definition open_p2p_dispute_do_apply (d : database) (op : open_p2p_dispute_operation) : result database :=
  modify_p2p_order d op.(odp_p2p_order) (λ obj,
    Ok (obj <| po_status := 4 |> <| po_arbitrage_initiator := Some op.(odp_account) |>)).

#[export] Instance open_p2p_dispute_evaluator : Evaluator open_p2p_dispute_operation := {|
  fee_payer := odp_account; fee := odp_fee; validate := open_p2p_dispute_validate;
  do_evaluate := open_p2p_dispute_do_evaluate; do_apply := open_p2p_dispute_do_apply |}.

Record reply_p2p_dispute_operation : Type := ReplyDisputeOp {
  rdp_fee : asset; rdp_p2p_order : Z; rdp_account : Z; rdp_arbitr : Z; rdp_contact_details : string }.

Definition reply_p2p_dispute_validate (op : reply_p2p_dispute_operation) : result unit :=
  _ ← FC_ASSERT (0 <=? op.(rdp_fee).(amount));
  _ ← FC_ASSERT (10 <=? pack_size_memo op.(rdp_contact_details));
  FC_ASSERT (pack_size_memo op.(rdp_contact_details) <? 1000).

Definition reply_p2p_dispute_do_evaluate (d : database) (op : reply_p2p_dispute_operation) : result unit :=
  o ← get_p2p_order d op.(rdp_p2p_order);
  _ ← FC_ASSERT (o.(po_status) =? 4);
  _ ← FC_ASSERT ((o.(po_p2p_gateway) =? op.(rdp_account)) || (o.(po_p2p_client) =? op.(rdp_account)));
  _ ← (if HARDFORK_CWD4_TIME <=? head_block_time d
       then FC_ASSERT (negb (bool_decide (o.(po_arbitrage_initiator) = Some op.(rdp_account)))) else Ok tt);
  check_arbitr d op.(rdp_arbitr).

Definition reply_p2p_dispute_do_apply (d : database) (op : reply_p2p_dispute_operation) : result database :=
  modify_p2p_order d op.(rdp_p2p_order) (λ obj, Ok (obj <| po_status := 5 |>)).

#[export] Instance reply_p2p_dispute_evaluator : Evaluator reply_p2p_dispute_operation := {|
  fee_payer := rdp_account; fee := rdp_fee; validate := reply_p2p_dispute_validate;
  do_evaluate := reply_p2p_dispute_do_evaluate; do_apply := reply_p2p_dispute_do_apply |}.

Record resolve_p2p_dispute_operation : Type := ResolveDisputeOp {
  rvp_fee : asset; rvp_p2p_order : Z; rvp_arbitr : Z; rvp_winner : Z; rvp_looser : Z }.

Definition resolve_p2p_dispute_validate (op : resolve_p2p_dispute_operation) : result unit :=
  _ ← FC_ASSERT (0 <=? op.(rvp_fee).(amount));
  FC_ASSERT (negb (op.(rvp_winner) =? op.(rvp_looser))).

Definition resolve_p2p_dispute_do_evaluate (d : database) (op : resolve_p2p_dispute_operation) : result unit :=
  o ← get_p2p_order d op.(rvp_p2p_order);
  _ ← FC_ASSERT ((o.(po_status) =? 4) || (o.(po_status) =? 5));
  _ ← FC_ASSERT ((o.(po_p2p_gateway) =? op.(rvp_winner)) || (o.(po_p2p_client) =? op.(rvp_winner)));
  _ ← FC_ASSERT ((o.(po_p2p_gateway) =? op.(rvp_looser)) || (o.(po_p2p_client) =? op.(rvp_looser)));
  check_arbitr d op.(rvp_arbitr).

Definition count_arbitrage_loose (s : account_statistics_object) : result account_statistics_object :=
  Ok (s <| st_p2p_arbitrage_loose ::= λ n, u32 (n + 1) |>
        <| st_p2p_current_month_rating ::= λ n, if 2 <? n then n - 2 else 0 |>).

(** The amounts are plain [share_type]s here, which converts to the core
    asset whatever the asset of the order. *)
Definition resolve_p2p_dispute_do_apply (d : database) (op : resolve_p2p_dispute_operation) : result database :=
  o ← get_p2p_order d op.(rvp_p2p_order);
  let ch_parameters_arbitr_comission := 1 * GRAPHENE_1_PERCENT in
  arbitr_comission ← cut_fee_exchange o.(po_amount).(amount) ch_parameters_arbitr_comission;
  d1 ← adjust_balance d op.(rvp_arbitr) (Asset arbitr_comission CORE);
  rest ← safe_sub o.(po_amount).(amount) arbitr_comission;
  d2 ← adjust_balance d1 op.(rvp_winner) (Asset rest CORE);
  d3 ← modify_statistics d2 op.(rvp_winner) (λ s,
         won ← safe_sub o.(po_amount).(amount) arbitr_comission;
         volume ← safe_add s.(st_p2p_deals_volume) won;
         Ok (s <| st_p2p_complete_deals ::= λ n, u32 (n + 1) |>
               <| st_p2p_current_month_rating ::= λ n, u32 (n + 1) |> <| st_p2p_deals_volume := volume |>));
  d4 ← modify_statistics d3 op.(rvp_looser) count_arbitrage_loose;
  remove_p2p_order d4 op.(rvp_p2p_order).

#[export] Instance resolve_p2p_dispute_evaluator : Evaluator resolve_p2p_dispute_operation := {|
  fee_payer := rvp_arbitr; fee := rvp_fee; validate := resolve_p2p_dispute_validate;
  do_evaluate := resolve_p2p_dispute_do_evaluate; do_apply := resolve_p2p_dispute_do_apply |}.

(** ** Lemmas *)
#[export] Instance flows_modify_p2p_adv d id f d' :
  Flows (modify_p2p_adv d id f = Ok d') d d' (λ _, 0).
Proof. intros H. unfold modify_p2p_adv in H. inv_ok. apply flow_p2p_advs. Qed.

Lemma flow_modify_p2p_order d id f d' :
  modify_p2p_order d id f = Ok d' →
  (∀ o o', f o = Ok o' → o'.(po_amount) = o.(po_amount) ∧ o'.(po_status) ≠ 1) →
  ∃ o o', get_p2p_order d id = Ok o ∧ f o = Ok o' ∧
    flow d d' (λ a, of_asset a (order_held o') - of_asset a (order_held o)).
Proof.
  intros H Hf. unfold modify_p2p_order in H. inv_ok.
  match goal with H : index_modify _ _ _ = Ok _ |- _ => apply index_modify_Ok in H as (o & o' & Ho & Hfo & ->) end.
  exists o, o'. split; [by apply index_get_Ok|]. split; [done|]. apply flow_p2p_orders.
  - intros Hc. cbn. apply map_Forall_insert_2; [|done]. destruct (Hf _ _ Hfo) as [E ?].
    split; [rewrite E; by apply (Hc _ _ Ho)|done].
  - intros a. rewrite (isum_modify _ _ _ _ _ Ho). lia.
Qed.

Lemma flow_remove_p2p_order d id d' o :
  remove_p2p_order d id = Ok d' → d.(d_p2p_orders).(objs) !! id = Some o →
  flow d d' (λ a, - of_asset a (order_held o)).
Proof.
  intros H Ho. unfold remove_p2p_order in H. inv_ok.
  match goal with H : index_remove _ _ = Ok _ |- _ => apply index_remove_Ok in H as (o' & Ho' & ->) end.
  same_ok. apply flow_p2p_orders.
  - intros Hc. cbn. by apply map_Forall_delete.
  - intros a. rewrite (isum_remove _ _ _ _ _ Ho'). lia.
Qed.

Lemma flow_create_p2p_order d o id i :
  index_create d.(d_p2p_orders) o = Ok (id, i) → order_ok o →
  flow d (d <| d_p2p_orders := i |>) (λ a, of_asset a (order_held o)).
Proof.
  intros H Hcore. apply index_create_Ok in H as (-> & Hn & ->). apply flow_p2p_orders.
  - intros Hc. cbn. by apply map_Forall_insert_2.
  - intros a. by rewrite isum_create.
Qed.

Lemma modify_p2p_adv_frame d id f d' :
  modify_p2p_adv d id f = Ok d' → d' = d <| d_p2p_advs := d'.(d_p2p_advs) |>.
Proof. unfold modify_p2p_adv. intros H. by inv_ok. Qed.

(** The counters hold nothing. *)
#[export] Instance count_canceled_neutral : StatNeutral count_canceled.
Proof.
  intros s s' Hs Hc. unfold count_canceled in Hc. apply Ok_inj in Hc. subst.
  case_match; (split; [exact Hs|unfold stat_held; cbn; lia]).
Qed.
#[export] Instance count_complete_neutral v : StatNeutral (count_complete v).
Proof. unfold StatNeutral, count_complete. solve_stat. Qed.
#[export] Instance count_arbitrage_loose_neutral : StatNeutral count_arbitrage_loose.
Proof. unfold StatNeutral, count_arbitrage_loose. solve_stat. Qed.

(** What an order holds, by its status. *)
Lemma order_held_called o : o.(po_status) ≠ 1 → order_held o = o.(po_amount).
Proof.
  intros H. unfold order_held. destruct (Z.eqb_spec o.(po_status) 1); [done|]. by rewrite andb_false_r.
Qed.
Lemma order_held_sell o : o.(po_order_type) = false → order_held o = o.(po_amount).
Proof. unfold order_held. by intros ->. Qed.
Lemma order_held_opened o :
  o.(po_order_type) = true → o.(po_status) = 1 → order_held o = Asset 0 o.(po_amount).(asset_id).
Proof. unfold order_held. by intros -> ->. Qed.
#[export] Hint Rewrite order_held_called order_held_sell order_held_opened using (done || lia) : order.

Lemma get_p2p_order_sbf d d1 id : same_but_fees d d1 → get_p2p_order d id = get_p2p_order d1 id.
Proof. intros Hs. unfold get_p2p_order. sbf d_p2p_orders Hs. congruence. Qed.

#[export] Instance create_p2p_adv_conserving : Conserving create_p2p_adv_operation.
Proof.
  open_conserving. unfold create_p2p_adv_do_apply in H. inv_ok. solve_flow.
Qed.
#[export] Instance edit_p2p_adv_conserving : Conserving edit_p2p_adv_operation.
Proof. open_conserving. unfold edit_p2p_adv_do_apply in H. inv_ok. solve_flow. Qed.
#[export] Instance clear_p2p_adv_black_list_conserving : Conserving clear_p2p_adv_black_list_operation.
Proof. open_conserving. unfold clear_p2p_adv_black_list_do_apply in H. inv_ok. solve_flow. Qed.
#[export] Instance remove_from_p2p_adv_black_list_conserving : Conserving remove_from_p2p_adv_black_list_operation.
Proof. open_conserving. unfold remove_from_p2p_adv_black_list_do_apply in H. inv_ok. solve_flow. Qed.

Lemma create_order_core d op :
  assets_ok d → create_p2p_order_do_evaluate d op = Ok tt → op.(cro_amount).(asset_id) = CORE.
Proof.
  intros Ha H. unfold create_p2p_order_do_evaluate in H.
  apply bind_Ok in H as (? & _ & H). apply bind_Ok in H as (? & _ & H).
  apply bind_Ok in H as (a & Hasset & H). apply bind_Ok in H as ([] & Hsym & _).
  apply FC_ASSERT_Ok, bool_decide_eq_true in Hsym. apply index_get_Ok in Hasset.
  by apply (Ha _ _ Hasset).
Qed.

#[export] Instance create_p2p_order_conserving : Conserving create_p2p_order_operation.
Proof.
  open_conserving. pose proof (create_order_core _ _ (co_assets _ Ha) Heval) as Hcore. clear Heval.
  unfold create_p2p_order_do_apply in H. apply bind_Ok in H as (adv & _ & H).
  apply bind_Ok in H as ([id i] & Hi & H). cbv beta iota zeta in H.
  apply flow_create_p2p_order in Hi; [|split; [exact Hcore|cbn; by destruct adv.(pa_adv_type)]]. unfold order_held in Hi.
  destruct adv.(pa_adv_type); cbn [negb] in H; [apply Ok_inj in H; subst d'|]; solve_flow.
Qed.

#[export] Instance cancel_p2p_order_conserving : Conserving cancel_p2p_order_operation.
Proof.
  open_conserving. unfold cancel_p2p_order_do_apply in H. apply bind_Ok in H as (o & Ho & H).
  unfold cancel_p2p_order_do_evaluate in Heval.
  rewrite (get_p2p_order_sbf _ _ _ Hst) in Heval.
  rewrite Ho in Heval. cbn [mbind result_bind] in Heval.
  apply bind_Ok in H as (d2 & H2 & H). apply bind_Ok in H as (d3 & H3 & H). apply bind_Ok in H as (d4 & H4 & H5).
  assert (flow d1 d2 (λ _, 0) ∧ d2.(d_p2p_orders) = d1.(d_p2p_orders)) as [F2 E2].
  { destruct op.(cno_blacklist); [|apply Ok_inj in H2; subst d2; split; [apply flow_refl|done]].
    split; [by apply (flows H2)|]. by rewrite (modify_p2p_adv_frame _ _ _ _ H2). }
  clear H2.
  assert (d4.(d_p2p_orders).(objs) !! op.(cno_p2p_order) = Some o) as Ho4.
  { apply index_get_Ok in Ho. keep d_p2p_orders.
    destruct (negb o.(po_order_type)); [|apply Ok_inj in H4; subst]; keep d_p2p_orders; congruence. }
  pose proof (flow_remove_p2p_order _ _ _ _ H5 Ho4) as F5. clear H5 Ho4 Ho.
  destruct o.(po_order_type) eqn:Ety; cbn [negb] in H4; inv_ok; propify.
  - rewrite order_held_opened in F5 by done. solve_flow.
  - rewrite order_held_sell in F5 by done. solve_flow.
Qed.

#[export] Instance call_p2p_order_conserving : Conserving call_p2p_order_operation.
Proof.
  open_conserving. unfold call_p2p_order_do_apply in H. apply bind_Ok in H as (o & Ho & H).
  unfold call_p2p_order_do_evaluate in Heval.
  rewrite (get_p2p_order_sbf _ _ _ Hst) in Heval.
  rewrite Ho in Heval. cbn [mbind result_bind] in Heval. inv_ok; propify.
  match goal with H : modify_p2p_order _ _ _ = Ok _ |- _ => apply flow_modify_p2p_order in H as (o0 & o' & Ho' & Hf & F) end;
    [|intros ? ? ?; inv_ok; by split].
  same_ok. match goal with Hs : po_status ?o = 1 |- _ => rewrite (order_held_opened o) in F by done end.
  apply Ok_inj in Hf. subst o'. rewrite order_held_called in F by (cbn; lia). cbn [po_amount] in F. solve_flow.
Qed.

(** A step of the dialogue that keeps the funds where they are. *)
Lemma flow_order_status d id f d' :
  modify_p2p_order d id f = Ok d' →
  (∀ o o', get_p2p_order d id = Ok o → f o = Ok o' →
     o'.(po_amount) = o.(po_amount) ∧ o.(po_status) ≠ 1 ∧ o'.(po_status) ≠ 1) →
  (∀ o o', f o = Ok o' → o'.(po_amount) = o.(po_amount) ∧ o'.(po_status) ≠ 1) →
  flow d d' (λ _, 0).
Proof.
  intros H Hf Ham. destruct (flow_modify_p2p_order _ _ _ _ H Ham) as (o & o' & Ho & Hfo & F).
  destruct (Hf _ _ Ho Hfo) as (E & H1 & H2). rewrite !order_held_called in F by done. rewrite E in F.
  apply (flow_ext _ _ _ _ F). intros a. lia.
Qed.

#[export] Instance payment_p2p_order_conserving : Conserving payment_p2p_order_operation.
Proof.
  open_conserving. unfold payment_p2p_order_do_apply in H. unfold payment_p2p_order_do_evaluate in Heval.
  rewrite (get_p2p_order_sbf _ _ _ Hst) in Heval.
  apply (flow_order_status _ _ _ _ H).
  - intros o o' Ho Hf. rewrite Ho in Heval. cbn [mbind result_bind] in Heval.
    apply bind_Ok in Heval as ([] & Hs & _). apply FC_ASSERT_Ok, Z.eqb_eq in Hs.
    apply Ok_inj in Hf. subst o'. case_match; cbn; split_and!; done || lia.
  - intros o o' Hf. apply Ok_inj in Hf. subst o'. by case_match; split.
Qed.

#[export] Instance open_p2p_dispute_conserving : Conserving open_p2p_dispute_operation.
Proof.
  open_conserving. unfold open_p2p_dispute_do_apply in H. unfold open_p2p_dispute_do_evaluate in Heval.
  rewrite (get_p2p_order_sbf _ _ _ Hst) in Heval.
  apply (flow_order_status _ _ _ _ H).
  - intros o o' Ho Hf. rewrite Ho in Heval. cbn [mbind result_bind] in Heval.
    apply bind_Ok in Heval as ([] & Hs & _). apply FC_ASSERT_Ok, Z.eqb_eq in Hs.
    apply Ok_inj in Hf. subst o'. cbn. split_and!; [done|lia|lia].
  - intros o o' Hf. apply Ok_inj in Hf as <-. by split.
Qed.

#[export] Instance reply_p2p_dispute_conserving : Conserving reply_p2p_dispute_operation.
Proof.
  open_conserving. unfold reply_p2p_dispute_do_apply in H. unfold reply_p2p_dispute_do_evaluate in Heval.
  rewrite (get_p2p_order_sbf _ _ _ Hst) in Heval.
  apply (flow_order_status _ _ _ _ H).
  - intros o o' Ho Hf. rewrite Ho in Heval. cbn [mbind result_bind] in Heval.
    apply bind_Ok in Heval as ([] & Hs & _). apply FC_ASSERT_Ok, Z.eqb_eq in Hs.
    apply Ok_inj in Hf. subst o'. cbn. split_and!; [done|lia|lia].
  - intros o o' Hf. apply Ok_inj in Hf as <-. by split.
Qed.

#[export] Instance release_p2p_order_conserving : Conserving release_p2p_order_operation.
Proof.
  open_conserving. unfold release_p2p_order_do_apply in H. apply bind_Ok in H as (o & Ho & H).
  unfold release_p2p_order_do_evaluate in Heval.
  rewrite (get_p2p_order_sbf _ _ _ Hst) in Heval.
  rewrite Ho in Heval. cbn [mbind result_bind] in Heval. apply bind_Ok in Heval as ([] & Hs & _).
  apply FC_ASSERT_Ok, Z.leb_le in Hs.
  apply bind_Ok in H as (d2 & H2 & H). apply bind_Ok in H as (d3 & H3 & H). apply bind_Ok in H as (d4 & H4 & H5).
  assert (d4.(d_p2p_orders).(objs) !! op.(rlo_p2p_order) = Some o) as Ho4.
  { apply index_get_Ok in Ho. destruct o.(po_order_type); keep d_p2p_orders; congruence. }
  pose proof (flow_remove_p2p_order _ _ _ _ H5 Ho4) as F5. clear H5 Ho4 Ho.
  rewrite order_held_called in F5 by lia. destruct o.(po_order_type); solve_flow.
Qed.

#[export] Instance resolve_p2p_dispute_conserving : Conserving resolve_p2p_dispute_operation.
Proof.
  open_conserving. unfold resolve_p2p_dispute_do_apply in H. apply bind_Ok in H as (o & Ho & H).
  unfold resolve_p2p_dispute_do_evaluate in Heval.
  rewrite (get_p2p_order_sbf _ _ _ Hst) in Heval.
  rewrite Ho in Heval. cbn [mbind result_bind] in Heval. apply bind_Ok in Heval as ([] & Hs & _).
  apply FC_ASSERT_Ok in Hs. propify. intros Hd1.
  assert (o.(po_amount).(asset_id) = CORE) as Hcore by (apply index_get_Ok in Ho; by apply (lok_orders _ Hd1 _ _ Ho)).
  revert Hd1. match goal with |- ledger_ok _ → ?G => change (flow d1 d' (λ _, 0)) end.
  inv_ok. inv_safe.
  match goal with H5 : remove_p2p_order ?d4 _ = Ok _ |- _ =>
    assert (d4.(d_p2p_orders).(objs) !! op.(rvp_p2p_order) = Some o) as Ho4
      by (apply index_get_Ok in Ho; keep d_p2p_orders; congruence);
    pose proof (flow_remove_p2p_order _ _ _ _ H5 Ho4) as F5; clear H5 Ho4 end.
  rewrite order_held_called in F5 by lia. solve_flow.
Qed.

(** ** The life of an order

    Abstractly an order is its type and its status; the operations follow the
    dialogue below and nothing else. *)
Definition order_view (d : database) (id : Z) : option (bool * Z) :=
  (λ o, (o.(po_order_type), o.(po_status))) <$> d.(d_p2p_orders).(objs) !! id.

Inductive order_transition : option (bool * Z) → option (bool * Z) → Prop :=
  | order_untouched v : order_transition v v
  | order_created ty : order_transition None (Some (ty, if ty : bool then 1 else 2))
  | order_called : order_transition (Some (true, 1)) (Some (true, 2))
  | order_paid ty : order_transition (Some (ty, 2)) (Some (ty, 3))
  | order_disputed ty : order_transition (Some (ty, 3)) (Some (ty, 4))
  | order_answered ty : order_transition (Some (ty, 4)) (Some (ty, 5))
  | order_cancelled ty : order_transition (Some (ty, if ty : bool then 1 else 2)) None
  | order_finished ty st : 2 ≤ st → order_transition (Some (ty, st)) None.

(** One evaluated and applied operation of the exchange. *)
Definition runs {OP} `{!Evaluator OP} (op : OP) (d d' : database) : Prop :=
  validate op = Ok tt ∧ do_evaluate d op = Ok tt ∧ do_apply d op = Ok d'.

Inductive p2p_step (d d' : database) : Prop :=
  | p2p_create (op : create_p2p_order_operation) : runs op d d' → p2p_step d d'
  | p2p_cancel (op : cancel_p2p_order_operation) : runs op d d' → p2p_step d d'
  | p2p_call (op : call_p2p_order_operation) : runs op d d' → p2p_step d d'
  | p2p_payment (op : payment_p2p_order_operation) : runs op d d' → p2p_step d d'
  | p2p_release (op : release_p2p_order_operation) : runs op d d' → p2p_step d d'
  | p2p_open_dispute (op : open_p2p_dispute_operation) : runs op d d' → p2p_step d d'
  | p2p_reply_dispute (op : reply_p2p_dispute_operation) : runs op d d' → p2p_step d d'
  | p2p_resolve_dispute (op : resolve_p2p_dispute_operation) : runs op d d' → p2p_step d d'.

Lemma order_view_modify d k f d' :
  modify_p2p_order d k f = Ok d' →
  ∃ o o', get_p2p_order d k = Ok o ∧ f o = Ok o' ∧
    ∀ id, d'.(d_p2p_orders).(objs) !! id = if decide (id = k) then Some o' else d.(d_p2p_orders).(objs) !! id.
Proof.
  unfold modify_p2p_order. intros H. inv_ok.
  match goal with H : index_modify _ _ _ = Ok _ |- _ => apply index_modify_Ok in H as (o & o' & Ho & Hfo & ->) end.
  exists o, o'. split; [by apply index_get_Ok|]. split; [done|]. intros id. cbn.
  case_decide as E; [subst; apply lookup_insert_eq|by rewrite lookup_insert_ne].
Qed.

Lemma order_view_remove d k d' :
  remove_p2p_order d k = Ok d' →
  ∀ id, d'.(d_p2p_orders).(objs) !! id = if decide (id = k) then None else d.(d_p2p_orders).(objs) !! id.
Proof.
  unfold remove_p2p_order. intros H. inv_ok.
  match goal with H : index_remove _ _ = Ok _ |- _ => apply index_remove_Ok in H as (o' & Ho' & ->) end.
  intros id. cbn. case_decide as E; [subst; apply lookup_delete_eq|by rewrite lookup_delete_ne].
Qed.

(** A status change seen from outside. *)
Lemma order_step_modify d k f d' :
  modify_p2p_order d k f = Ok d' →
  (∀ o o', get_p2p_order d k = Ok o → f o = Ok o' →
     order_transition (Some (o.(po_order_type), o.(po_status))) (Some (o'.(po_order_type), o'.(po_status)))) →
  ∀ id, order_transition (order_view d id) (order_view d' id).
Proof.
  intros H Hf id. destruct (order_view_modify _ _ _ _ H) as (o & o' & Ho & Hfo & Hall).
  unfold order_view. rewrite Hall. case_decide as E; [|constructor]. subst k.
  pose proof Ho as Ho2. apply index_get_Ok in Ho2. rewrite Ho2. by apply Hf.
Qed.

Lemma order_step_remove d d1 k d' o :
  remove_p2p_order d1 k = Ok d' → d1.(d_p2p_orders) = d.(d_p2p_orders) → get_p2p_order d k = Ok o →
  order_transition (Some (o.(po_order_type), o.(po_status))) None →
  ∀ id, order_transition (order_view d id) (order_view d' id).
Proof.
  intros H E Ho Ht id. unfold order_view. rewrite (order_view_remove _ _ _ H), E.
  case_decide as Ek; [|constructor]. subst k. apply index_get_Ok in Ho. by rewrite Ho.
Qed.

Lemma order_step_create d i v nid d' :
  index_create d.(d_p2p_orders) v = Ok (nid, i) → d'.(d_p2p_orders) = i →
  v.(po_status) = (if v.(po_order_type) then 1 else 2) →
  ∀ id, order_transition (order_view d id) (order_view d' id).
Proof.
  intros Hi E Hv id. apply index_create_Ok in Hi as (-> & Hn & ->). unfold order_view. rewrite E. cbn.
  destruct (decide (id = (d_p2p_orders d).(next_id))) as [->|].
  - rewrite lookup_insert_eq, Hn. cbn. rewrite Hv. constructor.
  - rewrite lookup_insert_ne by done. constructor.
Qed.

(** ** Properties *)

(** C19. The exchange refines the dialogue of an order: whatever operation runs,
    every order is left alone or makes one allowed step.  An order reaches the
    paid or disputed status only through the earlier ones, no step goes back,
    and an order disappears only by cancellation before the funds are called
    (or before a sell order is paid), or after its funds were called. *)
Theorem p2p_refines_order_dialogue d d' (H : p2p_step d d') :
  ∀ id, order_transition (order_view d id) (order_view d' id).
Proof.
  destruct H as [op R|op R|op R|op R|op R|op R|op R|op R]; destruct R as (_ & Heval & H); cbn in Heval, H.
  - unfold create_p2p_order_do_apply in H. apply bind_Ok in H as (adv & _ & H).
    apply bind_Ok in H as ([id i] & Hi & H). cbv beta iota zeta in H.
    apply (order_step_create _ _ _ _ _ Hi); [|done].
    destruct adv.(pa_adv_type); cbn [negb] in H; [by apply Ok_inj in H as <-|].
    by rewrite (debit_frame _ _ _ _ H).
  - unfold cancel_p2p_order_do_apply in H. unfold cancel_p2p_order_do_evaluate in Heval.
    apply bind_Ok in H as (o & Ho & H). rewrite Ho in Heval. cbn [mbind result_bind] in Heval.
    apply bind_Ok in Heval as ([] & _ & Hs).
    apply bind_Ok in H as (d1 & H1 & H). apply bind_Ok in H as (d2 & H2 & H). apply bind_Ok in H as (d3 & H3 & H).
    apply (order_step_remove _ _ _ _ _ H) with (2 := Ho).
    + assert (d1.(d_p2p_orders) = d.(d_p2p_orders)) as E1.
      { destruct op.(cno_blacklist); [by rewrite (modify_p2p_adv_frame _ _ _ _ H1)|by apply Ok_inj in H1 as <-]. }
      keep d_p2p_orders. destruct (negb o.(po_order_type)); [keep d_p2p_orders|apply Ok_inj in H3]; congruence.
    + destruct o.(po_order_type) eqn:Ety; apply FC_ASSERT_Ok, Z.eqb_eq in Hs; rewrite Hs;
        [apply (order_cancelled true)|apply (order_cancelled false)].
  - unfold call_p2p_order_do_apply in H. unfold call_p2p_order_do_evaluate in Heval.
    apply bind_Ok in H as (o & Ho & H). rewrite Ho in Heval. cbn [mbind result_bind] in Heval.
    apply bind_Ok in Heval as ([] & Hty & Heval). apply bind_Ok in Heval as ([] & Hs & _).
    apply FC_ASSERT_Ok in Hty. apply FC_ASSERT_Ok, Z.eqb_eq in Hs.
    apply bind_Ok in H as (adv & _ & H). apply bind_Ok in H as (d1 & H1 & H). intros id.
    unfold order_view at 2. rewrite (debit_frame _ _ _ _ H). cbn. fold (order_view d1 id).
    revert id. apply (order_step_modify _ _ _ _ H1).
    intros o1 o' Ho1 Hf. same_ok. apply Ok_inj in Hf. subst o'. cbn. rewrite Hty, Hs. constructor.
  - unfold payment_p2p_order_do_evaluate in Heval. apply (order_step_modify _ _ _ _ H).
    intros o o' Ho Hf. rewrite Ho in Heval. cbn [mbind result_bind] in Heval.
    apply bind_Ok in Heval as ([] & Hs & _). apply FC_ASSERT_Ok, Z.eqb_eq in Hs.
    apply Ok_inj in Hf. subst o'. rewrite Hs. case_match; cbn; constructor.
  - unfold release_p2p_order_do_apply in H. unfold release_p2p_order_do_evaluate in Heval.
    apply bind_Ok in H as (o & Ho & H). rewrite Ho in Heval. cbn [mbind result_bind] in Heval.
    apply bind_Ok in Heval as ([] & Hs & _). apply FC_ASSERT_Ok, Z.leb_le in Hs.
    apply bind_Ok in H as (d1 & H1 & H). apply bind_Ok in H as (d2 & H2 & H). apply bind_Ok in H as (d3 & H3 & H).
    apply (order_step_remove _ _ _ _ _ H) with (2 := Ho); [|by constructor].
    destruct o.(po_order_type); keep d_p2p_orders; congruence.
  - unfold open_p2p_dispute_do_evaluate in Heval. apply (order_step_modify _ _ _ _ H).
    intros o o' Ho Hf. rewrite Ho in Heval. cbn [mbind result_bind] in Heval.
    apply bind_Ok in Heval as ([] & Hs & _). apply FC_ASSERT_Ok, Z.eqb_eq in Hs.
    apply Ok_inj in Hf. subst o'. rewrite Hs. constructor.
  - unfold reply_p2p_dispute_do_evaluate in Heval. apply (order_step_modify _ _ _ _ H).
    intros o o' Ho Hf. rewrite Ho in Heval. cbn [mbind result_bind] in Heval.
    apply bind_Ok in Heval as ([] & Hs & _). apply FC_ASSERT_Ok, Z.eqb_eq in Hs.
    apply Ok_inj in Hf. subst o'. rewrite Hs. constructor.
  - unfold resolve_p2p_dispute_do_apply in H. unfold resolve_p2p_dispute_do_evaluate in Heval.
    apply bind_Ok in H as (o & Ho & H). rewrite Ho in Heval. cbn [mbind result_bind] in Heval.
    apply bind_Ok in Heval as ([] & Hs & _). apply FC_ASSERT_Ok in Hs. propify.
    inv_ok. match goal with H5 : remove_p2p_order _ _ = Ok _ |- _ =>
      apply (order_step_remove _ _ _ _ _ H5) with (2 := Ho) end.
    + keep d_p2p_orders; congruence.
    + constructor. lia.
Qed.

(** An arbitrator that resolves a dispute is paid one percent of the order,
    rounded down, the winner gets the rest to the last unit, no other balance
    changes and the order is gone. *)
Theorem resolve_dispute_split d op d' o
  (Ho : get_p2p_order d op.(rvp_p2p_order) = Ok o)
  (Ham : 0 ≤ o.(po_amount).(amount) ≤ int64_max)
  (H : resolve_p2p_dispute_do_apply d op = Ok d') :
  let comission := (o.(po_amount).(amount) * GRAPHENE_1_PERCENT) `div` GRAPHENE_100_PERCENT in
  0 ≤ comission ≤ o.(po_amount).(amount) ∧
  d'.(d_p2p_orders).(objs) !! op.(rvp_p2p_order) = None ∧
  ∀ acc i, (get_balance d' acc i).(amount) = (get_balance d acc i).(amount)
    + (if decide ((acc, i) = (op.(rvp_arbitr), CORE)) then comission else 0)
    + (if decide ((acc, i) = (op.(rvp_winner), CORE)) then o.(po_amount).(amount) - comission else 0).
Proof.
  intros comission. unfold resolve_p2p_dispute_do_apply in H. rewrite Ho in H. cbn [mbind result_bind] in H.
  apply bind_Ok in H as (c & Hc & H). unfold cut_fee_exchange in Hc.
  assert (0 ≤ 1 * GRAPHENE_1_PERCENT ≤ GRAPHENE_100_PERCENT) as Hp by (by split).
  pose proof (percent_of_Ok_bound _ _ _ Ham Hp Hc) as [Hb _]. rewrite percent_of_nonneg in Hc by done.
  apply Ok_inj in Hc. rewrite Z.mul_1_l in Hc. fold comission in Hc. subst c.
  split; [done|]. inv_ok. inv_safe.
  match goal with H5 : remove_p2p_order _ _ = Ok _ |- _ =>
    pose proof (order_view_remove _ _ _ H5) as Hrem; unfold remove_p2p_order in H5; apply bind_Ok in H5 as (i5 & _ & H5);
    apply Ok_inj in H5; subst d' end.
  split; [rewrite Hrem; by rewrite decide_True|]. intros acc i.
  repeat match goal with H : modify_statistics _ _ _ = Ok _ |- _ => apply modify_statistics_Ok in H as (? & ? & _ & _ & ->) end.
  match goal with H1 : adjust_balance d _ _ = Ok ?d1, H2 : adjust_balance ?d1 _ _ = Ok ?d2 |- _ =>
    pose proof (adjust_balance_get _ _ _ _ acc i H1) as E1; pose proof (adjust_balance_get _ _ _ _ acc i H2) as E2;
    change (get_balance _ acc i) with (get_balance d2 acc i) at 1 end.
  cbn [amount asset_id] in *. lia.
Qed.

(** A gateway (6), a client (7) and a disputed order of 20000 between them. *)
Definition sample_order (st : Z) : p2p_order_object :=
  P2pOrder 0 true (Asset 20000 0) 5 "EUR" 6 7 st 0 0 None None (Some 7).
Definition sample_p2p_db (st : Z) : database :=
  sample_db <| d_p2p_orders := Index {[ 0 := sample_order st ]} 1 |>
            <| d_accounts := Index (<[admin_whitelist := (sample_account 5) <| acc_whitelisted_accounts := {[ 8 ]} |>]>
                               sample_db.(d_accounts).(objs)) 4000 |>.

Lemma resolve_dispute_split_witness :
  is_ok (resolve_p2p_dispute_do_apply (sample_p2p_db 4) (ResolveDisputeOp (Asset 0 0) 0 8 7 6)) = true ∧
  let d' := ok_or sample_db (resolve_p2p_dispute_do_apply (sample_p2p_db 4) (ResolveDisputeOp (Asset 0 0) 0 8 7 6)) in
  0 ≤ (20000 * GRAPHENE_1_PERCENT) `div` GRAPHENE_100_PERCENT ≤ 20000 ∧
  d'.(d_p2p_orders).(objs) !! 0 = None ∧
  ∀ acc i, (get_balance d' acc i).(amount) = (get_balance (sample_p2p_db 4) acc i).(amount)
    + (if decide ((acc, i) = (8, CORE)) then (20000 * GRAPHENE_1_PERCENT) `div` GRAPHENE_100_PERCENT else 0)
    + (if decide ((acc, i) = (7, CORE)) then 20000 - (20000 * GRAPHENE_1_PERCENT) `div` GRAPHENE_100_PERCENT else 0).
Proof.
  split; [vm_compute; reflexivity|].
  apply (resolve_dispute_split (sample_p2p_db 4) (ResolveDisputeOp (Asset 0 0) 0 8 7 6) _ (sample_order 4)).
  - vm_compute. reflexivity.
  - apply (bool_decide_unpack _). vm_compute. exact I.
  - destruct (resolve_p2p_dispute_do_apply (sample_p2p_db 4) (ResolveDisputeOp (Asset 0 0) 0 8 7 6)) eqn:E; [reflexivity|].
    exfalso. vm_compute in E. discriminate E.
Defined.

Lemma p2p_refines_order_dialogue_witness :
  is_ok (reply_p2p_dispute_do_apply (sample_p2p_db 4) (ReplyDisputeOp (Asset 0 0) 0 6 8 "0123456789")) = true ∧
  let d' := ok_or sample_db (reply_p2p_dispute_do_apply (sample_p2p_db 4) (ReplyDisputeOp (Asset 0 0) 0 6 8 "0123456789")) in
  ∀ id, order_transition (order_view (sample_p2p_db 4) id) (order_view d' id).
Proof.
  split; [vm_compute; reflexivity|].
  apply (p2p_refines_order_dialogue (sample_p2p_db 4)).
  apply (p2p_reply_dispute _ _ (ReplyDisputeOp (Asset 0 0) 0 6 8 "0123456789")).
  split; [vm_compute; reflexivity|]. split; [vm_compute; reflexivity|].
  cbn [do_apply reply_p2p_dispute_evaluator].
  destruct (reply_p2p_dispute_do_apply (sample_p2p_db 4) (ReplyDisputeOp (Asset 0 0) 0 6 8 "0123456789")) eqn:E; [reflexivity|].
  exfalso. vm_compute in E. discriminate E.
Defined.
