(* ===== verification/Financial.v ===== *)
(** * Credits, pledges, approved transfers

    [financial_evaluator.cpp] and [protocol/financial.cpp]: credits of the
    system and between accounts, repaid from the cashback of the debitor; loans
    against a pledge kept in escrow; the purchase of GCWD; transfers that wait
    for the sender's approval or an arbitrator; mass payments. *)
From S2P Require Import Prelude Safe Asset Objects Database Ledger Balance Evaluator Sample.

Definition arbitr_reward (a p : Z) : result Z := percent_of a p.

Definition income (s : account_statistics_object) : result Z :=
  i ← safe_add s.(st_first_month_income) s.(st_second_month_income);
  safe_add i s.(st_third_month_income).

(** [modify] of a statistics object that starts a credit. *)
Definition start_credit (total creditor : Z) (s : account_statistics_object) : account_statistics_object :=
  s <| st_total_credit := total |> <| st_allowed_to_repay := 0 |> <| st_credit_repaid := 0 |>
    <| st_creditor := creditor |>.

(** ** Credits *)
Record credit_system_get_operation : Type := CreditSystemGetOp {
  csg_fee : asset; csg_debitor : Z; csg_credit_amount : asset }.

Definition credit_system_get_validate (op : credit_system_get_operation) : result unit :=
  _ ← FC_ASSERT (0 <=? op.(csg_fee).(amount)); FC_ASSERT (0 <? op.(csg_credit_amount).(amount)).

Definition credit_system_get_do_evaluate (d : database) (op : credit_system_get_operation) : result unit :=
  _ ← FC_ASSERT (head_block_time d <=? HARDFORK_CORE_145_TIME);
  _ ← FC_ASSERT (HARDFORK_CWD5_TIME <=? head_block_time d);
  _ ← get_account d op.(csg_debitor);
  debitor_stats ← get_statistics d op.(csg_debitor);
  max_credit ← income debitor_stats;
  _ ← FC_ASSERT (debitor_stats.(st_total_credit) =? 0);
  _ ← FC_ASSERT (op.(csg_credit_amount).(asset_id) =? CORE);
  FC_ASSERT (op.(csg_credit_amount).(amount) <=? max_credit).

Definition credit_system_get_do_apply (d : database) (op : credit_system_get_operation) : result database :=
  d1 ← add_supply d 0 op.(csg_credit_amount).(amount);
  d2 ← modify_statistics d1 op.(csg_debitor) (λ s,
         total ← safe_mul op.(csg_credit_amount).(amount) 2; Ok (start_credit total 0 s));
  adjust_balance d2 op.(csg_debitor) op.(csg_credit_amount).

#[export] Instance credit_system_get_evaluator : Evaluator credit_system_get_operation := {|
  fee_payer := csg_debitor; fee := csg_fee; validate := credit_system_get_validate;
  do_evaluate := credit_system_get_do_evaluate; do_apply := credit_system_get_do_apply |}.

Record credit_repay_operation : Type := CreditRepayOp {
  crp_fee : asset; crp_debitor : Z; crp_creditor : Z; crp_repay_amount : asset }.

Definition credit_repay_validate (op : credit_repay_operation) : result unit :=
  _ ← FC_ASSERT (0 <=? op.(crp_fee).(amount)); FC_ASSERT (0 <? op.(crp_repay_amount).(amount)).

Definition credit_repay_do_evaluate (d : database) (op : credit_repay_operation) : result unit :=
  _ ← FC_ASSERT (HARDFORK_CWD5_TIME <=? head_block_time d);
  _ ← get_account d op.(crp_debitor);
  debitor_stats ← get_statistics d op.(crp_debitor);
  _ ← FC_ASSERT (op.(crp_repay_amount).(asset_id) =? CORE);
  available ← safe_sub debitor_stats.(st_allowed_to_repay) debitor_stats.(st_credit_repaid);
  _ ← FC_ASSERT (op.(crp_repay_amount).(amount) <=? available);
  _ ← FC_ASSERT (negb (debitor_stats.(st_creditor) =? 0));
  FC_ASSERT (debitor_stats.(st_creditor) =? op.(crp_creditor)).

Definition credit_repay_do_apply (d : database) (op : credit_repay_operation) : result database :=
  debitor_stats ← get_statistics d op.(crp_debitor);
  let creditor := debitor_stats.(st_creditor) in
  d1 ← modify_statistics d op.(crp_debitor) (λ s,
         r ← safe_add s.(st_credit_repaid) op.(crp_repay_amount).(amount);
         Ok (s <| st_credit_repaid := r |>));
  adjust_balance d1 creditor op.(crp_repay_amount).

#[export] Instance credit_repay_evaluator : Evaluator credit_repay_operation := {|
  fee_payer := crp_creditor; fee := crp_fee; validate := credit_repay_validate;
  do_evaluate := credit_repay_do_evaluate; do_apply := credit_repay_do_apply |}.

Record credit_offer_create_operation : Type := CreditOfferCreateOp {
  coc_fee : asset; coc_creditor : Z; coc_credit_amount : asset; coc_repay_amount : asset; coc_min_income : Z }.

Definition credit_offer_create_validate (op : credit_offer_create_operation) : result unit :=
  _ ← FC_ASSERT (0 <=? op.(coc_fee).(amount));
  _ ← FC_ASSERT (0 <? op.(coc_credit_amount).(amount)); FC_ASSERT (0 <? op.(coc_repay_amount).(amount)).

Definition credit_offer_create_do_evaluate (d : database) (op : credit_offer_create_operation) : result unit :=
  _ ← FC_ASSERT (HARDFORK_CWD5_TIME <=? head_block_time d);
  _ ← FC_ASSERT (op.(coc_credit_amount).(asset_id) =? CORE);
  _ ← FC_ASSERT (op.(coc_repay_amount).(asset_id) =? CORE);
  FC_ASSERT (op.(coc_credit_amount).(amount) <=? op.(coc_repay_amount).(amount)).

Definition credit_offer_create_do_apply (d : database) (op : credit_offer_create_operation) : result database :=
  '(_, i) ← index_create d.(d_credit_offers)
    (CreditOffer op.(coc_creditor) op.(coc_min_income) op.(coc_credit_amount) op.(coc_repay_amount));
  Ok (d <| d_credit_offers := i |>).

#[export] Instance credit_offer_create_evaluator : Evaluator credit_offer_create_operation := {|
  fee_payer := coc_creditor; fee := coc_fee; validate := credit_offer_create_validate;
  do_evaluate := credit_offer_create_do_evaluate; do_apply := credit_offer_create_do_apply |}.

Definition get_credit_offer (d : database) (id : Z) : result credit_offer_object := index_get d.(d_credit_offers) id.
Definition remove_credit_offer (d : database) (id : Z) : result database :=
  i ← index_remove d.(d_credit_offers) id; Ok (d <| d_credit_offers := i |>).

Record credit_offer_cancel_operation : Type := CreditOfferCancelOp {
  coa_fee : asset; coa_creditor : Z; coa_credit_offer : Z }.

Definition credit_offer_cancel_do_evaluate (d : database) (op : credit_offer_cancel_operation) : result unit :=
  _ ← FC_ASSERT (HARDFORK_CWD5_TIME <=? head_block_time d);
  offer ← get_credit_offer d op.(coa_credit_offer);
  FC_ASSERT (offer.(co_creditor) =? op.(coa_creditor)).

Definition credit_offer_cancel_do_apply (d : database) (op : credit_offer_cancel_operation) : result database :=
  remove_credit_offer d op.(coa_credit_offer).

#[export] Instance credit_offer_cancel_evaluator : Evaluator credit_offer_cancel_operation := {|
  fee_payer := coa_creditor; fee := coa_fee; validate := λ op, FC_ASSERT (0 <=? op.(coa_fee).(amount));
  do_evaluate := credit_offer_cancel_do_evaluate; do_apply := credit_offer_cancel_do_apply |}.

Record credit_offer_fill_operation : Type := CreditOfferFillOp {
  cof_fee : asset; cof_debitor : Z; cof_creditor : Z; cof_credit_offer : Z; cof_credit_amount : asset }.

Definition credit_offer_fill_validate (op : credit_offer_fill_operation) : result unit :=
  _ ← FC_ASSERT (0 <=? op.(cof_fee).(amount)); FC_ASSERT (0 <? op.(cof_credit_amount).(amount)).

Definition credit_offer_fill_do_evaluate (d : database) (op : credit_offer_fill_operation) : result unit :=
  _ ← FC_ASSERT (HARDFORK_CWD5_TIME <=? head_block_time d);
  _ ← get_account d op.(cof_debitor);
  debitor_stats ← get_statistics d op.(cof_debitor);
  debitor_income ← income debitor_stats;
  offer ← get_credit_offer d op.(cof_credit_offer);
  _ ← get_account d offer.(co_creditor);
  _ ← get_asset d op.(cof_credit_amount).(asset_id);
  _ ← FC_ASSERT (op.(cof_credit_amount).(amount)
                 <=? (get_balance d offer.(co_creditor) op.(cof_credit_amount).(asset_id)).(amount));
  _ ← FC_ASSERT (debitor_stats.(st_total_credit) =? 0);
  _ ← FC_ASSERT (op.(cof_credit_amount).(asset_id) =? CORE);
  _ ← FC_ASSERT (offer.(co_min_income) <=? debitor_income);
  _ ← FC_ASSERT (asset_eqb offer.(co_credit_amount) op.(cof_credit_amount));
  FC_ASSERT (offer.(co_creditor) =? op.(cof_creditor)).

Definition credit_offer_fill_do_apply (d : database) (op : credit_offer_fill_operation) : result database :=
  offer ← get_credit_offer d op.(cof_credit_offer);
  d1 ← modify_statistics d op.(cof_debitor) (λ s,
         Ok (start_credit offer.(co_repay_amount).(amount) offer.(co_creditor) s));
  d2 ← debit d1 offer.(co_creditor) op.(cof_credit_amount);
  d3 ← adjust_balance d2 op.(cof_debitor) op.(cof_credit_amount);
  remove_credit_offer d3 op.(cof_credit_offer).

#[export] Instance credit_offer_fill_evaluator : Evaluator credit_offer_fill_operation := {|
  fee_payer := cof_debitor; fee := cof_fee; validate := credit_offer_fill_validate;
  do_evaluate := credit_offer_fill_do_evaluate; do_apply := credit_offer_fill_do_apply |}.

(** ** Pledges

    An offer waits with status 0; a filled one (status 1) holds the pledge. *)
Definition get_pledge_offer (d : database) (id : Z) : result pledge_offer_object := index_get d.(d_pledge_offers) id.
Definition modify_pledge_offer (d : database) (id : Z) (f : pledge_offer_object → result pledge_offer_object) :
    result database :=
  i ← index_modify d.(d_pledge_offers) id f; Ok (d <| d_pledge_offers := i |>).
Definition remove_pledge_offer (d : database) (id : Z) : result database :=
  i ← index_remove d.(d_pledge_offers) id; Ok (d <| d_pledge_offers := i |>).
Definition create_pledge_offer (d : database) (p : pledge_offer_object) : result database :=
  '(_, i) ← index_create d.(d_pledge_offers) p; Ok (d <| d_pledge_offers := i |>).

Definition pledge_amounts_validate (fee credit_amount repay_amount pledge_amount : asset) (pledge_days : Z) :
    result unit :=
  _ ← FC_ASSERT (0 <=? fee.(amount));
  _ ← FC_ASSERT (0 <? credit_amount.(amount));
  _ ← FC_ASSERT (0 <? repay_amount.(amount));
  _ ← FC_ASSERT (0 <? pledge_amount.(amount));
  FC_ASSERT (0 <? pledge_days).

Definition after_hf5 (d : database) : result unit := FC_ASSERT (HARDFORK_CWD5_TIME <=? head_block_time d).

Record pledge_offer_give_create_operation : Type := PledgeGiveOp {
  pgc_fee : asset; pgc_creditor : Z; pgc_pledge_amount : asset; pgc_credit_amount : asset;
  pgc_repay_amount : asset; pgc_pledge_days : Z }.

Definition pledge_offer_give_create_do_apply (d : database) (op : pledge_offer_give_create_operation) :
    result database :=
  create_pledge_offer d
    (PledgeOffer op.(pgc_creditor) 0 op.(pgc_creditor) op.(pgc_pledge_amount) op.(pgc_credit_amount)
       op.(pgc_repay_amount) op.(pgc_pledge_days) 0 0).

#[export] Instance pledge_offer_give_create_evaluator : Evaluator pledge_offer_give_create_operation := {|
  fee_payer := pgc_creditor; fee := pgc_fee;
  validate := λ op, pledge_amounts_validate op.(pgc_fee) op.(pgc_credit_amount) op.(pgc_repay_amount)
                      op.(pgc_pledge_amount) op.(pgc_pledge_days);
  do_evaluate := λ d _, after_hf5 d; do_apply := pledge_offer_give_create_do_apply |}.

Record pledge_offer_take_create_operation : Type := PledgeTakeOp {
  ptc_fee : asset; ptc_debitor : Z; ptc_pledge_amount : asset; ptc_credit_amount : asset;
  ptc_repay_amount : asset; ptc_pledge_days : Z }.

Definition pledge_offer_take_create_do_apply (d : database) (op : pledge_offer_take_create_operation) :
    result database :=
  create_pledge_offer d
    (PledgeOffer op.(ptc_debitor) op.(ptc_debitor) 0 op.(ptc_pledge_amount) op.(ptc_credit_amount)
       op.(ptc_repay_amount) op.(ptc_pledge_days) 0 0).

#[export] Instance pledge_offer_take_create_evaluator : Evaluator pledge_offer_take_create_operation := {|
  fee_payer := ptc_debitor; fee := ptc_fee;
  validate := λ op, pledge_amounts_validate op.(ptc_fee) op.(ptc_credit_amount) op.(ptc_repay_amount)
                      op.(ptc_pledge_amount) op.(ptc_pledge_days);
  do_evaluate := λ d _, after_hf5 d; do_apply := pledge_offer_take_create_do_apply |}.

Record pledge_offer_cancel_operation : Type := PledgeCancelOp {
  pca_fee : asset; pca_creator : Z; pca_pledge_offer : Z }.

Definition pledge_offer_cancel_do_evaluate (d : database) (op : pledge_offer_cancel_operation) : result unit :=
  _ ← after_hf5 d;
  p ← get_pledge_offer d op.(pca_pledge_offer);
  _ ← FC_ASSERT (p.(pl_creator) =? op.(pca_creator));
  FC_ASSERT (p.(pl_status) =? 0).

Definition pledge_offer_cancel_do_apply (d : database) (op : pledge_offer_cancel_operation) : result database :=
  remove_pledge_offer d op.(pca_pledge_offer).

#[export] Instance pledge_offer_cancel_evaluator : Evaluator pledge_offer_cancel_operation := {|
  fee_payer := pca_creator; fee := pca_fee; validate := λ op, FC_ASSERT (0 <=? op.(pca_fee).(amount));
  do_evaluate := pledge_offer_cancel_do_evaluate; do_apply := pledge_offer_cancel_do_apply |}.

Record pledge_offer_fill_operation : Type := PledgeFillOp {
  pfi_fee : asset; pfi_account : Z; pfi_creditor : Z; pfi_debitor : Z; pfi_pledge_offer : Z;
  pfi_pledge_amount : asset; pfi_credit_amount : asset; pfi_repay_amount : asset; pfi_pledge_days : Z }.

Definition pledge_offer_fill_do_evaluate (d : database) (op : pledge_offer_fill_operation) : result unit :=
  _ ← after_hf5 d;
  p ← get_pledge_offer d op.(pfi_pledge_offer);
  _ ← get_account d op.(pfi_creditor);
  _ ← get_account d op.(pfi_debitor);
  _ ← get_asset d op.(pfi_credit_amount).(asset_id);
  _ ← get_asset d op.(pfi_pledge_amount).(asset_id);
  let enough_creditor := op.(pfi_credit_amount).(amount)
        <=? (get_balance d op.(pfi_creditor) op.(pfi_credit_amount).(asset_id)).(amount) in
  let enough_debitor := op.(pfi_pledge_amount).(amount)
        <=? (get_balance d op.(pfi_debitor) op.(pfi_pledge_amount).(asset_id)).(amount) in
  _ ← FC_ASSERT (p.(pl_status) =? 0);
  _ ← FC_ASSERT (asset_eqb p.(pl_pledge_amount) op.(pfi_pledge_amount));
  _ ← FC_ASSERT (asset_eqb p.(pl_credit_amount) op.(pfi_credit_amount));
  _ ← FC_ASSERT (asset_eqb p.(pl_repay_amount) op.(pfi_repay_amount));
  _ ← FC_ASSERT (p.(pl_pledge_days) =? op.(pfi_pledge_days));
  _ ← (if negb (p.(pl_debitor) =? 0) then
         _ ← FC_ASSERT (p.(pl_debitor) =? op.(pfi_debitor));
         FC_ASSERT (op.(pfi_account) =? op.(pfi_creditor))
       else
         _ ← FC_ASSERT (p.(pl_creditor) =? op.(pfi_creditor));
         FC_ASSERT (op.(pfi_account) =? op.(pfi_debitor)));
  _ ← FC_ASSERT enough_creditor;
  FC_ASSERT enough_debitor.

Definition pledge_offer_fill_do_apply (d : database) (op : pledge_offer_fill_operation) : result database :=
  p ← get_pledge_offer d op.(pfi_pledge_offer);
  d1 ← modify_pledge_offer d op.(pfi_pledge_offer) (λ po,
         let po := if negb (p.(pl_debitor) =? 0) then po <| pl_creditor := op.(pfi_creditor) |>
                   else po <| pl_debitor := op.(pfi_debitor) |> in
         Ok (po <| pl_status := 1 |>
                <| pl_expiration := time_add (head_block_time d) (po.(pl_pledge_days) * 86400) |>));
  d2 ← debit d1 op.(pfi_creditor) op.(pfi_credit_amount);
  d3 ← debit d2 op.(pfi_debitor) op.(pfi_pledge_amount);
  adjust_balance d3 op.(pfi_debitor) op.(pfi_credit_amount).

#[export] Instance pledge_offer_fill_evaluator : Evaluator pledge_offer_fill_operation := {|
  fee_payer := pfi_account; fee := pfi_fee;
  validate := λ op, pledge_amounts_validate op.(pfi_fee) op.(pfi_credit_amount) op.(pfi_repay_amount)
                      op.(pfi_pledge_amount) op.(pfi_pledge_days);
  do_evaluate := pledge_offer_fill_do_evaluate; do_apply := pledge_offer_fill_do_apply |}.

Record pledge_offer_repay_operation : Type := PledgeRepayOp {
  pre_fee : asset; pre_debitor : Z; pre_creditor : Z; pre_pledge_offer : Z; pre_repay_amount : asset;
  pre_pledge_amount : asset }.

Definition pledge_offer_repay_validate (op : pledge_offer_repay_operation) : result unit :=
  _ ← FC_ASSERT (0 <=? op.(pre_fee).(amount)); FC_ASSERT (0 <? op.(pre_repay_amount).(amount)).

Definition pledge_offer_repay_do_evaluate (d : database) (op : pledge_offer_repay_operation) : result unit :=
  _ ← after_hf5 d;
  p ← get_pledge_offer d op.(pre_pledge_offer);
  _ ← get_account d p.(pl_debitor);
  _ ← FC_ASSERT (p.(pl_status) =? 1);
  _ ← FC_ASSERT (asset_eqb p.(pl_pledge_amount) op.(pre_pledge_amount));
  _ ← FC_ASSERT (asset_eqb p.(pl_repay_amount) op.(pre_repay_amount));
  _ ← FC_ASSERT (p.(pl_creditor) =? op.(pre_creditor));
  _ ← FC_ASSERT (p.(pl_debitor) =? op.(pre_debitor));
  _ ← get_asset d op.(pre_repay_amount).(asset_id);
  FC_ASSERT (op.(pre_repay_amount).(amount)
             <=? (get_balance d p.(pl_debitor) op.(pre_repay_amount).(asset_id)).(amount)).

Definition pledge_offer_repay_do_apply (d : database) (op : pledge_offer_repay_operation) : result database :=
  _ ← get_pledge_offer d op.(pre_pledge_offer);
  d1 ← debit d op.(pre_debitor) op.(pre_repay_amount);
  d2 ← adjust_balance d1 op.(pre_creditor) op.(pre_repay_amount);
  d3 ← adjust_balance d2 op.(pre_debitor) op.(pre_pledge_amount);
  remove_pledge_offer d3 op.(pre_pledge_offer).

#[export] Instance pledge_offer_repay_evaluator : Evaluator pledge_offer_repay_operation := {|
  fee_payer := pre_debitor; fee := pre_fee; validate := pledge_offer_repay_validate;
  do_evaluate := pledge_offer_repay_do_evaluate; do_apply := pledge_offer_repay_do_apply |}.

(** ** GCWD *)
Record buy_gcwd_operation : Type := BuyGcwdOp { bg_fee : asset; bg_account : Z; bg_amount : asset }.

Definition GCWD : Z := 1.

Definition buy_gcwd_do_evaluate (d : database) (op : buy_gcwd_operation) : result unit :=
  _ ← FC_ASSERT (HARDFORK_CWD6_TIME <=? head_block_time d);
  _ ← FC_ASSERT (op.(bg_amount).(asset_id) =? CORE);
  _ ← get_account d op.(bg_account);
  _ ← get_asset d op.(bg_amount).(asset_id);
  _ ← FC_ASSERT (op.(bg_amount).(amount) =? d.(d_dgpo).(dgp_gcwd_price));
  _ ← FC_ASSERT (op.(bg_amount).(amount) <=? (get_balance d op.(bg_account) op.(bg_amount).(asset_id)).(amount));
  gcwd_asset ← get_asset d GCWD;
  gcwd_dyn_data ← get_dynamic_data d gcwd_asset.(ao_dynamic_asset_data_id);
  next_supply ← safe_add gcwd_dyn_data.(dd_current_supply) 1;
  FC_ASSERT (next_supply <=? gcwd_asset.(ao_max_supply)).

Definition buy_gcwd_do_apply (d : database) (op : buy_gcwd_operation) : result database :=
  d1 ← debit d op.(bg_account) op.(bg_amount);
  d2 ← adjust_balance d1 op.(bg_account) (Asset 1 GCWD);
  d3 ← add_supply d2 GCWD 1;
  d4 ← add_accumulated_fees d3 0 op.(bg_amount).(amount);
  price ← safe_add d4.(d_dgpo).(dgp_gcwd_price) (GRAPHENE_BLOCKCHAIN_PRECISION * 10);
  Ok (d4 <| d_dgpo ::= λ g, g <| dgp_gcwd_price := price |> |>).

#[export] Instance buy_gcwd_evaluator : Evaluator buy_gcwd_operation := {|
  fee_payer := bg_account; fee := bg_fee; validate := λ op, FC_ASSERT (0 <=? op.(bg_fee).(amount));
  do_evaluate := buy_gcwd_do_evaluate; do_apply := buy_gcwd_do_apply |}.

(** ** Approved transfers

    Status 0: waiting for the sender; 1: in dispute. *)
Definition get_ato (d : database) (id : Z) : result approved_transfer_object := index_get d.(d_approved_transfers) id.
Definition remove_ato (d : database) (id : Z) : result database :=
  i ← index_remove d.(d_approved_transfers) id; Ok (d <| d_approved_transfers := i |>).

Record approved_transfer_create_operation : Type := AtoCreateOp {
  atc_fee : asset; atc_from : Z; atc_to : Z; atc_arbitr : Z; atc_amount : asset; atc_expiration : Z }.

Definition approved_transfer_create_validate (op : approved_transfer_create_operation) : result unit :=
  _ ← FC_ASSERT (negb (op.(atc_from) =? op.(atc_arbitr)));
  _ ← FC_ASSERT (negb (op.(atc_to) =? op.(atc_arbitr)));
  _ ← FC_ASSERT (negb (op.(atc_from) =? op.(atc_to)));
  _ ← FC_ASSERT (0 <? op.(atc_amount).(amount));
  FC_ASSERT (0 <=? op.(atc_fee).(amount)).

Definition approved_transfer_create_do_evaluate (d : database) (op : approved_transfer_create_operation) :
    result unit :=
  _ ← FC_ASSERT (HARDFORK_CWD6_TIME <=? head_block_time d);
  _ ← FC_ASSERT (head_block_time d <? op.(atc_expiration));
  _ ← FC_ASSERT (op.(atc_amount).(asset_id) =? CORE);
  _ ← get_account d op.(atc_from);
  _ ← get_asset d op.(atc_amount).(asset_id);
  FC_ASSERT (op.(atc_amount).(amount) <=? (get_balance d op.(atc_from) op.(atc_amount).(asset_id)).(amount)).

Definition approved_transfer_create_do_apply (d : database) (op : approved_transfer_create_operation) :
    result database :=
  d1 ← debit d op.(atc_from) op.(atc_amount);
  '(_, i) ← index_create d1.(d_approved_transfers)
    (ApprovedTransfer op.(atc_from) op.(atc_to) op.(atc_arbitr) op.(atc_amount) op.(atc_expiration) 0);
  Ok (d1 <| d_approved_transfers := i |>).

#[export] Instance approved_transfer_create_evaluator : Evaluator approved_transfer_create_operation := {|
  fee_payer := atc_from; fee := atc_fee; validate := approved_transfer_create_validate;
  do_evaluate := approved_transfer_create_do_evaluate; do_apply := approved_transfer_create_do_apply |}.

(** What the three operations on an existing transfer share: the parties and
    the amount they name must be those of the object. *)
Record ato_reference : Type := AtoRef {
  ar_ato : Z; ar_from : Z; ar_to : Z; ar_arbitr : Z; ar_amount : asset }.
Definition check_ato (ato : approved_transfer_object) (r : ato_reference) : result unit :=
  _ ← FC_ASSERT (ato.(at_from) =? r.(ar_from));
  _ ← FC_ASSERT (ato.(at_to) =? r.(ar_to));
  _ ← FC_ASSERT (ato.(at_arbitr) =? r.(ar_arbitr));
  FC_ASSERT (asset_eqb ato.(at_amount) r.(ar_amount)).

Record approved_transfer_approve_operation : Type := AtoApproveOp { ata_fee : asset; ata_ref : ato_reference }.

Definition approved_transfer_approve_do_evaluate (d : database) (op : approved_transfer_approve_operation) :
    result unit :=
  ato ← get_ato d op.(ata_ref).(ar_ato); check_ato ato op.(ata_ref).

Definition approved_transfer_approve_do_apply (d : database) (op : approved_transfer_approve_operation) :
    result database :=
  ato ← get_ato d op.(ata_ref).(ar_ato);
  d1 ← adjust_balance d ato.(at_to) ato.(at_amount);
  remove_ato d1 op.(ata_ref).(ar_ato).

#[export] Instance approved_transfer_approve_evaluator : Evaluator approved_transfer_approve_operation := {|
  fee_payer := λ op, op.(ata_ref).(ar_from); fee := ata_fee;
  validate := λ op, FC_ASSERT (0 <=? op.(ata_fee).(amount));
  do_evaluate := approved_transfer_approve_do_evaluate; do_apply := approved_transfer_approve_do_apply |}.

Record approved_transfer_open_dispute_operation : Type := AtoDisputeOp { atd_fee : asset; atd_ref : ato_reference }.

Definition approved_transfer_open_dispute_do_evaluate (d : database)
    (op : approved_transfer_open_dispute_operation) : result unit :=
  ato ← get_ato d op.(atd_ref).(ar_ato);
  _ ← check_ato ato op.(atd_ref);
  FC_ASSERT (ato.(at_status) =? 0).

Definition approved_transfer_open_dispute_do_apply (d : database)
    (op : approved_transfer_open_dispute_operation) : result database :=
  i ← index_modify d.(d_approved_transfers) op.(atd_ref).(ar_ato) (λ obj,
        Ok (obj <| at_status := 1 |> <| at_expiration := 0 |>));
  Ok (d <| d_approved_transfers := i |>).

#[export] Instance approved_transfer_open_dispute_evaluator : Evaluator approved_transfer_open_dispute_operation := {|
  fee_payer := λ op, op.(atd_ref).(ar_to); fee := atd_fee;
  validate := λ op, FC_ASSERT (0 <=? op.(atd_fee).(amount));
  do_evaluate := approved_transfer_open_dispute_do_evaluate; do_apply := approved_transfer_open_dispute_do_apply |}.

Record approved_transfer_resolve_dispute_operation : Type := AtoResolveOp {
  atr_fee : asset; atr_ref : ato_reference; atr_winner : Z }.

Definition approved_transfer_resolve_dispute_do_evaluate (d : database)
    (op : approved_transfer_resolve_dispute_operation) : result unit :=
  ato ← get_ato d op.(atr_ref).(ar_ato);
  _ ← check_ato ato op.(atr_ref);
  _ ← FC_ASSERT (ato.(at_status) =? 1);
  FC_ASSERT ((op.(atr_winner) =? op.(atr_ref).(ar_from)) || (op.(atr_winner) =? op.(atr_ref).(ar_to))).

Definition approved_transfer_resolve_dispute_do_apply (d : database)
    (op : approved_transfer_resolve_dispute_operation) : result database :=
  ato ← get_ato d op.(atr_ref).(ar_ato);
  let ch_parameters_arbitr_comission := 5 * GRAPHENE_1_PERCENT in
  arbitr_amount ← arbitr_reward ato.(at_amount).(amount) ch_parameters_arbitr_comission;
  winner_amount ← safe_sub ato.(at_amount).(amount) arbitr_amount;
  d1 ← adjust_balance d op.(atr_winner) (Asset winner_amount ato.(at_amount).(asset_id));
  d2 ← adjust_balance d1 ato.(at_arbitr) (Asset arbitr_amount ato.(at_amount).(asset_id));
  remove_ato d2 op.(atr_ref).(ar_ato).

#[export] Instance approved_transfer_resolve_dispute_evaluator :
    Evaluator approved_transfer_resolve_dispute_operation := {|
  fee_payer := λ op, op.(atr_ref).(ar_arbitr); fee := atr_fee;
  validate := λ op, FC_ASSERT (0 <=? op.(atr_fee).(amount));
  do_evaluate := approved_transfer_resolve_dispute_do_evaluate;
  do_apply := approved_transfer_resolve_dispute_do_apply |}.

(** ** Mass payments

    [payments] is a map from accounts to amounts: a list in account order. *)
Record mass_payment_operation : Type := MassPaymentOp {
  mp_fee : asset; mp_from : Z; mp_asset_id : Z; mp_payments : list (Z * Z) }.

Definition mass_payment_validate (op : mass_payment_operation) : result unit :=
  _ ← FC_ASSERT (0 <=? op.(mp_fee).(amount));
  _ ← FC_ASSERT (0 <? Z.of_nat (length op.(mp_payments)));
  FC_ASSERT (Z.of_nat (length op.(mp_payments)) <=? 1000).

Definition total_payments (payments : list (Z * Z)) : result Z :=
  foldM (λ total payment, safe_add total payment.2) 0 payments.

Definition mass_payment_do_evaluate (d : database) (op : mass_payment_operation) : result unit :=
  _ ← FC_ASSERT (HARDFORK_CWD6_TIME <=? head_block_time d);
  from_account ← get_account d op.(mp_from);
  _ ← FC_ASSERT (2 <=? from_account.(acc_referral_status_type));
  _ ← get_asset d op.(mp_asset_id);
  total_transfer ← foldM (λ total payment,
      t ← safe_add total payment.2; _ ← FC_ASSERT (0 <? payment.2); Ok t) 0 op.(mp_payments);
  FC_ASSERT (total_transfer <=? (get_balance d op.(mp_from) op.(mp_asset_id)).(amount)).

Definition mass_payment_do_apply (d : database) (op : mass_payment_operation) : result database :=
  total_transfer ← total_payments op.(mp_payments);
  d1 ← debit d op.(mp_from) (Asset total_transfer op.(mp_asset_id));
  foldM (λ d payment,
    let mp := Asset payment.2 op.(mp_asset_id) in
    adjust_balance (push_applied_operation d (mass_payment_pay_op op.(mp_from) payment.1 mp)) payment.1 mp)
    d1 op.(mp_payments).

#[export] Instance mass_payment_evaluator : Evaluator mass_payment_operation := {|
  fee_payer := mp_from; fee := mp_fee; validate := mass_payment_validate;
  do_evaluate := mass_payment_do_evaluate; do_apply := mass_payment_do_apply |}.

(** ** Lemmas *)
Definition flow_create_ato :=
  flow_index_create d_approved_transfers (λ i d, d <| d_approved_transfers := i |>) transfer_held
    flow_approved_transfers.
Definition flow_remove_ato_ :=
  flow_index_remove d_approved_transfers (λ i d, d <| d_approved_transfers := i |>) transfer_held
    flow_approved_transfers.
Definition flow_modify_ato :=
  flow_index_modify d_approved_transfers (λ i d, d <| d_approved_transfers := i |>) transfer_held
    flow_approved_transfers.
Definition flow_create_pledge :=
  flow_index_create d_pledge_offers (λ i d, d <| d_pledge_offers := i |>) pledge_held flow_pledge_offers.
Definition flow_remove_pledge_ :=
  flow_index_remove d_pledge_offers (λ i d, d <| d_pledge_offers := i |>) pledge_held flow_pledge_offers.
Definition flow_modify_pledge :=
  flow_index_modify d_pledge_offers (λ i d, d <| d_pledge_offers := i |>) pledge_held flow_pledge_offers.

Lemma flow_remove_ato d id d' t :
  remove_ato d id = Ok d' → get_ato d id = Ok t → flow d d' (λ a, - of_asset a (transfer_held t)).
Proof.
  unfold remove_ato. intros H Ht. apply bind_Ok in H as (i & Hi & H). apply Ok_inj in H as <-.
  exact (flow_remove_ato_ _ _ _ _ Hi Ht).
Qed.

Lemma flow_remove_pledge d id d' p :
  remove_pledge_offer d id = Ok d' → get_pledge_offer d id = Ok p →
  flow d d' (λ a, - of_asset a (pledge_held p)).
Proof.
  unfold remove_pledge_offer. intros H Ht. apply bind_Ok in H as (i & Hi & H). apply Ok_inj in H as <-.
  exact (flow_remove_pledge_ _ _ _ _ Hi Ht).
Qed.

Lemma pledge_held_waiting p : p.(pl_status) = 0 → pledge_held p = Asset 0 CORE.
Proof. unfold pledge_held. by intros ->. Qed.
Lemma pledge_held_filled p : p.(pl_status) = 1 → pledge_held p = p.(pl_pledge_amount).
Proof. unfold pledge_held. by intros ->. Qed.

#[export] Instance flows_create_pledge_offer d p d' :
  Flows (create_pledge_offer d p = Ok d') d d' (λ a, of_asset a (pledge_held p)).
Proof.
  intros H. unfold create_pledge_offer in H. apply bind_Ok in H as ([id i] & Hi & H). apply Ok_inj in H as <-.
  exact (flow_create_pledge _ _ _ _ Hi).
Qed.
#[export] Instance flows_remove_credit_offer d id d' : Flows (remove_credit_offer d id = Ok d') d d' (λ _, 0).
Proof. intros H. unfold remove_credit_offer in H. inv_ok. apply flow_credit_offers. Qed.

(** A credit starts only where none is running. *)
Lemma flow_start_credit d o total creditor d' s :
  modify_statistics d o (λ s, Ok (start_credit total creditor s)) = Ok d' →
  get_statistics d o = Ok s → s.(st_total_credit) = 0 → flow d d' (λ _, 0).
Proof.
  intros H Hs Hz. eapply flow_ext.
  - apply (flow_modify_statistics_at _ _ _ _ 0 H). intros s1 s' Hs1 Hwf Hf.
    apply from_option_Ok in Hs. same_ok. apply Ok_inj in Hf. subst s'.
    destruct Hwf as [Hwf _]. destruct (Hwf Hz) as [E1 E2].
    split; [by split|]. unfold stat_held. cbn. lia.
  - flow_arith.
Qed.

Lemma total_credit_sbf d d1 o s :
  same_but_fees d d1 → get_statistics d1 o = Ok s →
  ∃ s0, get_statistics d o = Ok s0 ∧ s.(st_total_credit) = s0.(st_total_credit)
    ∧ s.(st_creditor) = s0.(st_creditor).
Proof.
  intros Hst H. destruct (sbf_statistics _ _ Hst _ _ H) as (s0 & p & H0 & ->). eauto.
Qed.

#[export] Instance credit_system_get_conserving : Conserving credit_system_get_operation.
Proof.
  open_conserving. unfold credit_system_get_do_apply in H. unfold credit_system_get_do_evaluate in Heval.
  apply bind_Ok in H as (d2 & H2 & H). apply bind_Ok in H as (d3 & H3 & H4).
  assert (∃ total s, modify_statistics d2 op.(csg_debitor) (λ s, Ok (start_credit total 0 s)) = Ok d3 ∧
            get_statistics d1 op.(csg_debitor) = Ok s) as (total & s & H3' & Hs).
  { keep d_statistics. apply modify_statistics_Ok in H3 as (s & s' & Hs & Hf & ->).
    apply bind_Ok in Hf as (total & _ & Hf). apply Ok_inj in Hf. subst s'. exists total, s.
    unfold modify_statistics, get_statistics. unfold add_supply in H2. keep d_statistics.
    rewrite Hs. split; [done|]. apply from_option_Ok. congruence. }
  destruct (total_credit_sbf _ _ _ _ Hst Hs) as (s0 & Hs0 & E & _).
  assert (s0.(st_total_credit) = 0 ∧ op.(csg_credit_amount).(asset_id) = CORE) as [Hz Hcore].
  { inv_ok; propify. same_ok. done. }
  unfold add_supply in H2. assert (get_statistics d2 op.(csg_debitor) = Ok s) as Hs2.
  { unfold get_statistics in *. keep d_statistics. congruence. }
  fold (add_supply d1 0 (amount op.(csg_credit_amount))) in H2.
  assert (flow d2 d3 (λ _, 0)) as F by (eapply flow_start_credit; [done..|lia]).
  clear H3 H3' Heval. solve_flow.
Qed.

#[export] Instance credit_repay_conserving : Conserving credit_repay_operation.
Proof.
  open_conserving. unfold credit_repay_do_apply in H. unfold credit_repay_do_evaluate in Heval.
  apply bind_Ok in H as (s & Hs & H). apply bind_Ok in H as (d2 & H2 & H3).
  destruct (sbf_statistics _ _ Hst _ _ Hs) as (s0 & p & Hs0 & E).
  assert (s.(st_creditor) ≠ 0 ∧ op.(crp_repay_amount).(asset_id) = CORE ∧
          op.(crp_repay_amount).(amount) ≤ s.(st_allowed_to_repay) - s.(st_credit_repaid) ∧
          0 < op.(crp_repay_amount).(amount)) as (Hc & Hcore & Hle & Hpos).
  { unfold credit_repay_validate in Hval. subst s. inv_ok. inv_safe. propify. same_ok. by cbn. }
  assert (flow d1 d2 (λ a, core_only a (- op.(crp_repay_amount).(amount)))) as F.
  { intros Hd. revert Hd. apply (flow_modify_statistics_at _ _ _ _ _ H2). intros s1 s' Hs1 Hwf Hf.
    apply from_option_Ok in Hs. same_ok. inv_ok. inv_safe. destruct Hwf as [Hw1 Hw2].
    split; [split; cbn in *|unfold stat_held; cbn; lia].
    - intros Hz. destruct (Hw1 Hz). lia.
    - done. }
  clear H2 Heval. solve_flow.
Qed.

#[export] Instance credit_offer_create_conserving : Conserving credit_offer_create_operation.
Proof. open_conserving. unfold credit_offer_create_do_apply in H. inv_ok. solve_flow. Qed.
#[export] Instance credit_offer_cancel_conserving : Conserving credit_offer_cancel_operation.
Proof. open_conserving. unfold credit_offer_cancel_do_apply in H. solve_flow. Qed.

#[export] Instance credit_offer_fill_conserving : Conserving credit_offer_fill_operation.
Proof.
  open_conserving. unfold credit_offer_fill_do_apply in H. unfold credit_offer_fill_do_evaluate in Heval.
  apply bind_Ok in H as (offer & _ & H). apply bind_Ok in H as (d2 & H2 & H).
  assert (∃ s, get_statistics d1 op.(cof_debitor) = Ok s) as [s Hs].
  { pose proof H2 as H2'. apply modify_statistics_Ok in H2' as (s & _ & Hs & _). exists s. by apply from_option_Ok. }
  destruct (total_credit_sbf _ _ _ _ Hst Hs) as (s0 & Hs0 & E & _).
  assert (s0.(st_total_credit) = 0) as Hz by (clear H; inv_ok; propify; same_ok; done).
  assert (flow d1 d2 (λ _, 0)) as F by (eapply flow_start_credit; [done..|lia]).
  clear H2 Heval. inv_ok. solve_flow.
Qed.

#[export] Instance pledge_offer_give_create_conserving : Conserving pledge_offer_give_create_operation.
Proof. open_conserving. unfold pledge_offer_give_create_do_apply in H.
  eapply flow_ext; [exact (flows H)|]. intros a. rewrite pledge_held_waiting by done. flow_arith.
Qed.
#[export] Instance pledge_offer_take_create_conserving : Conserving pledge_offer_take_create_operation.
Proof. open_conserving. unfold pledge_offer_take_create_do_apply in H.
  eapply flow_ext; [exact (flows H)|]. intros a. rewrite pledge_held_waiting by done. flow_arith.
Qed.

Lemma get_pledge_offer_sbf d d1 id : same_but_fees d d1 → get_pledge_offer d id = get_pledge_offer d1 id.
Proof. intros Hs. unfold get_pledge_offer. sbf d_pledge_offers Hs. congruence. Qed.
Lemma get_ato_sbf d d1 id : same_but_fees d d1 → get_ato d id = get_ato d1 id.
Proof. intros Hs. unfold get_ato. sbf d_approved_transfers Hs. congruence. Qed.

(** Between blocks every approved transfer holds its amount. *)
Lemma ato_held d d1 id t :
  chain_ok d → same_but_fees d d1 → get_ato d1 id = Ok t → transfer_held t = t.(at_amount).
Proof.
  intros [_ Hok _ _] Hs Ht. rewrite <-(get_ato_sbf _ _ id Hs) in Ht. apply index_get_Ok in Ht.
  specialize (Hok _ _ Ht). cbv beta in Hok. unfold transfer_held. case_match; [by propify|done].
Qed.

#[export] Instance pledge_offer_cancel_conserving : Conserving pledge_offer_cancel_operation.
Proof.
  open_conserving. unfold pledge_offer_cancel_do_apply in H. unfold pledge_offer_cancel_do_evaluate in Heval.
  rewrite (get_pledge_offer_sbf _ _ _ Hst) in Heval.
  apply bind_Ok in Heval as (? & _ & Heval). apply bind_Ok in Heval as (p & Hp & Heval). inv_ok; propify.
  pose proof (flow_remove_pledge _ _ _ _ H Hp) as F. rewrite pledge_held_waiting in F by done. solve_flow.
Qed.

#[export] Instance pledge_offer_fill_conserving : Conserving pledge_offer_fill_operation.
Proof.
  open_conserving. unfold pledge_offer_fill_do_apply in H. unfold pledge_offer_fill_do_evaluate in Heval.
  rewrite (get_pledge_offer_sbf _ _ _ Hst) in Heval.
  apply bind_Ok in H as (p & Hp & H). rewrite Hp in Heval. apply bind_Ok in H as (d2 & H2 & H).
  assert (p.(pl_status) = 0 ∧ p.(pl_pledge_amount) = op.(pfi_pledge_amount)) as [Hs Ham]
    by (clear H H2; inv_ok; propify; done).
  assert (flow d1 d2 (λ a, of_asset a op.(pfi_pledge_amount))) as F.
  { unfold modify_pledge_offer in H2. apply bind_Ok in H2 as (i & Hi & H2). apply Ok_inj in H2 as <-.
    destruct (flow_modify_pledge _ _ _ _ Hi) as (v & v' & Hv & Hf & F).
    unfold get_pledge_offer in Hp. same_ok. apply Ok_inj in Hf. subst v'.
    rewrite (pledge_held_waiting v) in F by done. rewrite pledge_held_filled in F by done.
    apply (flow_ext _ _ _ _ F). intros a. destruct (negb _); cbn; rewrite Ham; flow_arith. }
  clear H2 Heval. inv_ok. solve_flow.
Qed.

#[export] Instance pledge_offer_repay_conserving : Conserving pledge_offer_repay_operation.
Proof.
  open_conserving. unfold pledge_offer_repay_do_apply in H. unfold pledge_offer_repay_do_evaluate in Heval.
  rewrite (get_pledge_offer_sbf _ _ _ Hst) in Heval.
  apply bind_Ok in H as (p & Hp & H). rewrite Hp in Heval. 
  assert (p.(pl_status) = 1 ∧ p.(pl_pledge_amount) = op.(pre_pledge_amount)) as [Hs Ham]
    by (clear H; inv_ok; propify; done).
  clear Heval. inv_ok.
  match goal with H5 : remove_pledge_offer ?d4 _ = Ok _ |- _ =>
    assert (get_pledge_offer d4 op.(pre_pledge_offer) = Ok p) as Hp4
      by (unfold get_pledge_offer in *; keep d_pledge_offers; congruence);
    pose proof (flow_remove_pledge _ _ _ _ H5 Hp4) as F5; clear H5 Hp4 end.
  rewrite pledge_held_filled, Ham in F5 by done. solve_flow.
Qed.

#[export] Instance buy_gcwd_conserving : Conserving buy_gcwd_operation.
Proof.
  open_conserving. unfold buy_gcwd_do_apply in H. unfold buy_gcwd_do_evaluate in Heval.
  assert (op.(bg_amount).(asset_id) = CORE) as Hcore by (clear H; inv_ok; propify; done).
  clear Heval. inv_ok.
  match goal with |- flow _ ?d2 _ => lazymatch d2 with over _ _ ?d0 =>
    assert (flow d0 d2 (λ _, 0)) as Fd end end.
  { match goal with |- flow ?d0 (over _ _ ?d0) _ =>
      eapply flow_ext; [apply (flow_dgpo d0 (d0.(d_dgpo) <| dgp_gcwd_price := x3 |>) 0); cbn; lia|flow_arith] end. }
  unfold GCWD in *. solve_flow.
Qed.

#[export] Instance approved_transfer_create_conserving : Conserving approved_transfer_create_operation.
Proof.
  open_conserving. unfold approved_transfer_create_do_apply in H. inv_ok.
  match goal with H : index_create _ _ = Ok _ |- _ => apply flow_create_ato in H; unfold transfer_held in H; cbn beta iota zeta delta [at_amount at_status] in H end.
  change (0 =? 2) with false in *. cbv iota in *.
  solve_flow.
Qed.

#[export] Instance approved_transfer_approve_conserving : Conserving approved_transfer_approve_operation.
Proof.
  open_conserving. unfold approved_transfer_approve_do_apply in H. inv_ok.
  match goal with H5 : remove_ato ?d4 _ = Ok _, Ht : get_ato _ _ = Ok ?t |- _ =>
    assert (get_ato d4 op.(ata_ref).(ar_ato) = Ok t) as Ht4
      by (unfold get_ato in *; keep d_approved_transfers; congruence);
    pose proof (flow_remove_ato _ _ _ _ H5 Ht4) as F5; rewrite (ato_held _ _ _ _ Ha Hst Ht) in F5; clear H5 Ht4 end.
  solve_flow.
Qed.

#[export] Instance approved_transfer_open_dispute_conserving : Conserving approved_transfer_open_dispute_operation.
Proof.
  open_conserving. unfold approved_transfer_open_dispute_do_apply in H.
  apply bind_Ok in H as (i & Hi & H). apply Ok_inj in H as <-.
  destruct (flow_modify_ato _ _ _ _ Hi) as (v & v' & Hv & Hf & F). apply Ok_inj in Hf. subst v'.
  apply (flow_ext _ _ _ _ F). intros a. rewrite (ato_held _ _ _ _ Ha Hst Hv). unfold transfer_held. cbn. change (1 =? 2) with false. lia.
Qed.

#[export] Instance approved_transfer_resolve_dispute_conserving : Conserving approved_transfer_resolve_dispute_operation.
Proof.
  open_conserving. unfold approved_transfer_resolve_dispute_do_apply in H. inv_ok. inv_safe.
  match goal with H5 : remove_ato ?d4 _ = Ok _, Ht : get_ato _ _ = Ok ?t |- _ =>
    assert (get_ato d4 op.(atr_ref).(ar_ato) = Ok t) as Ht4
      by (unfold get_ato in *; keep d_approved_transfers; congruence);
    pose proof (flow_remove_ato _ _ _ _ H5 Ht4) as F5; rewrite (ato_held _ _ _ _ Ha Hst Ht) in F5; clear H5 Ht4 end.
  solve_flow.
Qed.

(** A loop whose every iteration brings its item into the books. *)
Lemma flow_foldM {A} (f : database → A → result database) (x : A → Z → Z) l d d' :
  (∀ d v d', f d v = Ok d' → flow d d' (x v)) → foldM f d l = Ok d' →
  flow d d' (λ a, lsum (λ v, x v a) l).
Proof.
  intros Hf. revert d. induction l as [|v l IH]; cbn; intros d H.
  - apply Ok_inj in H as <-. apply flow_refl.
  - apply bind_Ok in H as (d1 & H1 & H2). exact (flow_trans _ _ _ _ _ (Hf _ _ _ H1) (IH _ H2)).
Qed.

Lemma total_payments_sum l t : total_payments l = Ok t → t = lsum snd l.
Proof.
  intros H. unfold total_payments in H. eapply (foldM_measure _ id snd) in H; [by cbn in H|].
  intros s x s' _ Hs. inv_safe. done.
Qed.

Lemma lsum_of_asset k a (l : list (Z * Z)) :
  lsum (λ p, of_asset a (Asset p.2 k)) l = of_asset a (Asset (lsum snd l) k).
Proof. induction l as [|p l IH]; cbn; [flow_arith|]. rewrite IH. flow_arith. Qed.

#[export] Instance mass_payment_conserving : Conserving mass_payment_operation.
Proof.
  open_conserving. unfold mass_payment_do_apply in H. apply bind_Ok in H as (t & Ht & H).
  apply bind_Ok in H as (d2 & H2 & H). apply total_payments_sum in Ht. subst t.
  apply (flow_foldM _ (λ p a, of_asset a (Asset p.2 op.(mp_asset_id)))) in H.
  - eapply flow_ext; [eapply flow_trans; [apply (flows H2)|exact H]|]. intros a. cbn beta.
    rewrite lsum_of_asset. lia.
  - intros e p e' He. solve_flow.
Qed.
