(* ===== verification/Transfer.v ===== *)
(** * Transfers and vesting operations

    [transfer_evaluator.cpp], [vesting_balance_evaluator.cpp] and the
    [validate] functions of [protocol/transfer.cpp] and
    [protocol/vesting.hpp]. *)
From S2P Require Import Prelude Safe Asset Objects Database Ledger Vesting Balance Evaluator Sample.

(** ** transfer *)
Record transfer_operation : Type := TransferOp {
  tr_fee : asset; tr_from : Z; tr_to : Z; tr_amount : asset }.

Definition transfer_validate (op : transfer_operation) : result unit :=
  _ ← FC_ASSERT (0 <=? op.(tr_fee).(amount));
  _ ← FC_ASSERT (negb (op.(tr_from) =? op.(tr_to)));
  FC_ASSERT (0 <? op.(tr_amount).(amount)).

Definition transfer_do_evaluate (d : database) (op : transfer_operation) : result unit :=
  from_account ← get_account d op.(tr_from);
  to_account ← get_account d op.(tr_to);
  let id := op.(tr_amount).(asset_id) in
  asset_type ← get_asset d id;
  _ ← GRAPHENE_ASSERT (is_authorized_asset d from_account id asset_type) transfer_from_account_not_whitelisted;
  _ ← GRAPHENE_ASSERT (is_authorized_asset d to_account id asset_type) transfer_to_account_not_whitelisted;
  _ ← (if is_transfer_restricted asset_type then
         GRAPHENE_ASSERT ((op.(tr_from) =? asset_type.(ao_issuer)) || (op.(tr_to) =? asset_type.(ao_issuer)))
           transfer_restricted_transfer_asset
       else Ok tt);
  FC_ASSERT (op.(tr_amount).(amount) <=? (get_balance d op.(tr_from) id).(amount)).

Definition transfer_do_apply (d : database) (o : transfer_operation) : result database :=
  d1 ← debit d o.(tr_from) o.(tr_amount);
  adjust_balance d1 o.(tr_to) o.(tr_amount).

#[export] Instance transfer_evaluator : Evaluator transfer_operation := {|
  fee_payer := tr_from; fee := tr_fee; validate := transfer_validate;
  do_evaluate := transfer_do_evaluate; do_apply := transfer_do_apply |}.

(** ** override_transfer *)
Record override_transfer_operation : Type := OverrideTransferOp {
  ot_fee : asset; ot_issuer : Z; ot_from : Z; ot_to : Z; ot_amount : asset }.

Definition override_transfer_validate (op : override_transfer_operation) : result unit :=
  _ ← FC_ASSERT (0 <=? op.(ot_fee).(amount));
  _ ← FC_ASSERT (negb (op.(ot_from) =? op.(ot_to)));
  _ ← FC_ASSERT (0 <? op.(ot_amount).(amount));
  FC_ASSERT (negb (op.(ot_issuer) =? op.(ot_from))).

Definition override_transfer_do_evaluate (d : database) (op : override_transfer_operation) : result unit :=
  let id := op.(ot_amount).(asset_id) in
  asset_type ← get_asset d id;
  _ ← GRAPHENE_ASSERT (can_override asset_type) override_transfer_not_permitted;
  _ ← FC_ASSERT (asset_type.(ao_issuer) =? op.(ot_issuer));
  from_account ← get_account d op.(ot_from);
  to_account ← get_account d op.(ot_to);
  _ ← FC_ASSERT (is_authorized_asset d to_account id asset_type);
  _ ← FC_ASSERT (is_authorized_asset d from_account id asset_type);
  _ ← (if head_block_time d <=? HARDFORK_419_TIME
       then FC_ASSERT (is_authorized_asset d from_account id asset_type) else Ok tt);
  FC_ASSERT (op.(ot_amount).(amount) <=? (get_balance d op.(ot_from) id).(amount)).

Definition override_transfer_do_apply (d : database) (o : override_transfer_operation) : result database :=
  d1 ← debit d o.(ot_from) o.(ot_amount);
  adjust_balance d1 o.(ot_to) o.(ot_amount).

#[export] Instance override_transfer_evaluator : Evaluator override_transfer_operation := {|
  fee_payer := ot_issuer; fee := ot_fee; validate := override_transfer_validate;
  do_evaluate := override_transfer_do_evaluate; do_apply := override_transfer_do_apply |}.

(** ** vesting_balance_create *)
Inductive vesting_policy_initializer : Type :=
  | linear_vesting_policy_initializer (begin_timestamp vesting_cliff_seconds vesting_duration_seconds : Z)
  | cdd_vesting_policy_initializer (start_claim vesting_seconds : Z).

Record vesting_balance_create_operation : Type := VestingCreateOp {
  vc_fee : asset; vc_creator : Z; vc_owner : Z; vc_amount : asset; vc_policy : vesting_policy_initializer }.

Definition init_policy (init_balance now : Z) (i : vesting_policy_initializer) : vesting_policy :=
  match i with
  | linear_vesting_policy_initializer begin_timestamp cliff duration =>
      linear (LinearPolicy begin_timestamp cliff duration init_balance)
  | cdd_vesting_policy_initializer start_claim vesting_seconds =>
      cdd (CddPolicy vesting_seconds 0 start_claim now)
  end.

Definition vesting_balance_create_validate (op : vesting_balance_create_operation) : result unit :=
  _ ← FC_ASSERT (0 <=? op.(vc_fee).(amount));
  FC_ASSERT (0 <? op.(vc_amount).(amount)).

Definition vesting_balance_create_do_evaluate (d : database) (op : vesting_balance_create_operation) : result unit :=
  _ ← get_account d op.(vc_creator);
  _ ← get_account d op.(vc_owner);
  _ ← FC_ASSERT (0 <? op.(vc_amount).(amount));
  enough ← asset_ge (get_balance d op.(vc_creator) op.(vc_amount).(asset_id)) op.(vc_amount);
  _ ← FC_ASSERT enough;
  a ← get_asset d op.(vc_amount).(asset_id);
  FC_ASSERT (negb (is_transfer_restricted a)).

Definition vesting_balance_create_do_apply (d : database) (op : vesting_balance_create_operation) : result database :=
  let now := head_block_time d in
  owner_stats ← get_statistics d op.(vc_owner);
  d1 ← (if (op.(vc_amount).(asset_id) =? 4) && negb owner_stats.(st_had_staking)
        then modify_statistics d op.(vc_owner) (λ s, Ok (s <| st_had_staking := true |>)) else Ok d);
  enough ← asset_ge (get_balance d1 op.(vc_creator) op.(vc_amount).(asset_id)) op.(vc_amount);
  _ ← FC_ASSERT enough;
  d2 ← debit d1 op.(vc_creator) op.(vc_amount);
  '(_, i) ← index_create d2.(d_vesting)
     (VestingBalance op.(vc_owner) op.(vc_amount) (init_policy op.(vc_amount).(amount) now op.(vc_policy)));
  Ok (d2 <| d_vesting := i |>).

#[export] Instance vesting_balance_create_evaluator : Evaluator vesting_balance_create_operation := {|
  fee_payer := vc_creator; fee := vc_fee; validate := vesting_balance_create_validate;
  do_evaluate := vesting_balance_create_do_evaluate; do_apply := vesting_balance_create_do_apply |}.

(** ** vesting_balance_withdraw *)
Record vesting_balance_withdraw_operation : Type := VestingWithdrawOp {
  vw_fee : asset; vw_vesting_balance : Z; vw_owner : Z; vw_amount : asset }.

Definition vesting_balance_withdraw_validate (op : vesting_balance_withdraw_operation) : result unit :=
  _ ← FC_ASSERT (0 <=? op.(vw_fee).(amount));
  FC_ASSERT (0 <? op.(vw_amount).(amount)).

Definition vesting_balance_withdraw_do_evaluate (d : database) (op : vesting_balance_withdraw_operation) :
    result unit :=
  let now := head_block_time d in
  vbo ← index_get d.(d_vesting) op.(vw_vesting_balance);
  _ ← FC_ASSERT (op.(vw_owner) =? vbo.(vb_owner));
  allowed ← vbo_is_withdraw_allowed vbo now op.(vw_amount);
  _ ← FC_ASSERT allowed;
  _ ← get_account d op.(vw_owner);
  Ok tt.

Definition vesting_balance_withdraw_do_apply (d : database) (op : vesting_balance_withdraw_operation) :
    result database :=
  let now := head_block_time d in
  i ← index_modify d.(d_vesting) op.(vw_vesting_balance) (λ vbo, vbo_withdraw vbo now op.(vw_amount));
  adjust_balance (d <| d_vesting := i |>) op.(vw_owner) op.(vw_amount).

#[export] Instance vesting_balance_withdraw_evaluator : Evaluator vesting_balance_withdraw_operation := {|
  fee_payer := vw_owner; fee := vw_fee; validate := vesting_balance_withdraw_validate;
  do_evaluate := vesting_balance_withdraw_do_evaluate; do_apply := vesting_balance_withdraw_do_apply |}.

(** ** Lemmas *)
Lemma vbo_withdraw_Ok v now amt v' :
  vbo_withdraw v now amt = Ok v' →
  v'.(vb_owner) = v.(vb_owner) ∧ v.(vb_balance).(asset_id) = amt.(asset_id) ∧
  v'.(vb_balance) = Asset (v.(vb_balance).(amount) - amt.(amount)) amt.(asset_id).
Proof.
  unfold vbo_withdraw, asset_sub. intros H. inv_ok; propify; inv_safe; cbn; split_and!; congruence.
Qed.

#[export] Instance transfer_conserving : Conserving transfer_operation.
Proof.
  intros d d1 op d' _ _ _ _ H. cbn in H. unfold transfer_do_apply in H. inv_ok.
  unfold conserves. solve_flow.
Qed.

#[export] Instance override_transfer_conserving : Conserving override_transfer_operation.
Proof.
  intros d d1 op d' _ _ _ _ H. cbn in H. unfold override_transfer_do_apply in H. inv_ok.
  unfold conserves. solve_flow.
Qed.

Lemma flow_create_vesting d v id i :
  index_create d.(d_vesting) v = Ok (id, i) →
  flow d (d <| d_vesting := i |>) (λ a, of_asset a v.(vb_balance)).
Proof.
  intros H. apply index_create_Ok in H as (-> & Hn & ->). apply flow_vesting.
  intros a. by rewrite isum_create.
Qed.

#[export] Instance vesting_balance_create_conserving : Conserving vesting_balance_create_operation.
Proof.
  intros d d1 op d' _ _ _ _ H. cbn in H. unfold vesting_balance_create_do_apply in H.
  apply bind_Ok in H as (st & _ & H). apply bind_Ok in H as (d2 & H2 & H).
  assert (flow d1 d2 (λ _, 0)) as F2 by (clear H; inv_ok; solve_flow). clear H2.
  unfold conserves. inv_ok.
  match goal with H : index_create _ _ = Ok _ |- _ => apply flow_create_vesting in H; cbn in H end.
  solve_flow.
Qed.

#[export] Instance vesting_balance_withdraw_conserving : Conserving vesting_balance_withdraw_operation.
Proof.
  intros d d1 op d' _ _ _ _ H. cbn in H. unfold vesting_balance_withdraw_do_apply in H. unfold conserves. inv_ok.
  match goal with H : index_modify _ _ _ = Ok ?i |- _ =>
    apply index_modify_Ok in H as (v & v' & Hv & Hw & ->) end.
  apply vbo_withdraw_Ok in Hw as (_ & Hid & Hb).
  match goal with H : adjust_balance ?d2 _ _ = Ok _ |- _ =>
    assert (flow d1 d2 (λ a, - of_asset a op.(vw_amount))) as F end.
  { apply flow_vesting. intros a. rewrite (isum_modify _ _ _ _ _ Hv), Hb. unfold of_asset. cbn. rewrite Hid.
    flow_arith. }
  solve_flow.
Qed.

Lemma existsb_elements (s : gset Z) (p : Z → bool) :
  existsb p (elements s) = true ↔ ∃ x, x ∈ s ∧ p x = true.
Proof.
  rewrite existsb_exists. setoid_rewrite <-list_elem_of_In. by setoid_rewrite elem_of_elements.
Qed.

Lemma blacklisted_unauthorized d acct id a auth :
  Z.land a.(ao_flags) white_list ≠ 0 → auth ∈ acct.(acc_blacklisting_accounts) →
  auth ∈ a.(ao_blacklist_authorities) → is_authorized_asset d acct id a = false.
Proof.
  intros Hf H1 H2. unfold is_authorized_asset, _is_authorized_asset.
  destruct (Z.eqb_spec (Z.land a.(ao_flags) white_list) 0) as [|_]; [done|]. cbn [andb].
  assert (existsb (λ id, bool_decide (id ∈ a.(ao_blacklist_authorities)))
            (elements acct.(acc_blacklisting_accounts)) = true) as ->.
  { apply existsb_elements. exists auth. split; [done|]. by apply bool_decide_eq_true. }
  by case_match.
Qed.

(** ** Properties *)

(** C18. A transfer that passes its checks is carried out (unless the balance
    of the receiver would leave the 64-bit range): the sender loses the amount,
    the receiver gains it, every other balance of every asset is untouched. *)
Theorem transfer_moves d op
  (Hd : ledger_ok d) (Hval : transfer_validate op = Ok tt) (Heval : transfer_do_evaluate d op = Ok tt)
  (Hfrom : (get_balance d op.(tr_from) op.(tr_amount).(asset_id)).(amount) ≤ int64_max)
  (Hto : (get_balance d op.(tr_to) op.(tr_amount).(asset_id)).(amount) + op.(tr_amount).(amount) ≤ int64_max) :
  ∃ d', transfer_do_apply d op = Ok d' ∧
    ∀ o i, (get_balance d' o i).(amount) = (get_balance d o i).(amount)
      - (if decide ((o, i) = (op.(tr_from), op.(tr_amount).(asset_id))) then op.(tr_amount).(amount) else 0)
      + (if decide ((o, i) = (op.(tr_to), op.(tr_amount).(asset_id))) then op.(tr_amount).(amount) else 0).
Proof.
  unfold transfer_validate in Hval. unfold transfer_do_evaluate in Heval. inv_ok; propify.
  all: set (id := op.(tr_amount).(asset_id)) in *.
  all: pose proof (get_balance_nonneg d op.(tr_from) id Hd); pose proof (get_balance_nonneg d op.(tr_to) id Hd).
  all: unfold transfer_do_apply.
  all: destruct (debit_total d op.(tr_from) op.(tr_amount)) as (d1 & -> & Hb1);
         [fold id; solve_int64|fold id; solve_int64|solve_int64|]; cbn [mbind result_bind].
  all: assert (get_balance d1 op.(tr_to) id = get_balance d op.(tr_to) id) as E
         by (rewrite Hb1, decide_False; [done|]; fold id; congruence).
  all: destruct (adjust_balance_total d1 op.(tr_to) op.(tr_amount)) as (d2 & Hd2 & Hb2);
         [fold id; rewrite E; solve_int64|fold id; rewrite E; solve_int64|solve_int64|].
  all: exists d2; split; [done|]; intros o i; rewrite Hb2; fold id; rewrite E.
  all: case_decide as Eto; [injection Eto as -> ->|rewrite Hb1; fold id; case_decide as Efr;
         [injection Efr as -> ->|]]; cbn; try rewrite decide_False by congruence; lia.
Qed.

Definition sample_transfer : transfer_operation := TransferOp (Asset 100 0) 6 7 (Asset 2500 0).

Lemma transfer_moves_witness :
  ∃ d', transfer_do_apply sample_db sample_transfer = Ok d' ∧
    ∀ o i, (get_balance d' o i).(amount) = (get_balance sample_db o i).(amount)
      - (if decide ((o, i) = (6, 0)) then 2500 else 0) + (if decide ((o, i) = (7, 0)) then 2500 else 0).
Proof.
  apply (transfer_moves sample_db sample_transfer).
  - exact sample_ledger_ok.
  - reflexivity.
  - vm_compute. reflexivity.
  - apply (bool_decide_unpack _). vm_compute. exact I.
  - apply (bool_decide_unpack _). vm_compute. exact I.
Defined.

(** An account blacklisted by an authority of an asset whose white-list
    flag is set can neither send nor receive that asset. *)
Theorem blacklisted_cannot_transfer d op acct a auth
  (Hparty : get_account d op.(tr_from) = Ok acct ∨ get_account d op.(tr_to) = Ok acct)
  (Ha : get_asset d op.(tr_amount).(asset_id) = Ok a)
  (Hflag : Z.land a.(ao_flags) white_list ≠ 0)
  (Hacct : auth ∈ acct.(acc_blacklisting_accounts)) (Hauth : auth ∈ a.(ao_blacklist_authorities)) :
  transfer_do_evaluate d op ≠ Ok tt.
Proof.
  pose proof (blacklisted_unauthorized d acct op.(tr_amount).(asset_id) a auth Hflag Hacct Hauth) as Hno.
  intros H. unfold transfer_do_evaluate in H. inv_ok; destruct Hparty; same_ok; congruence.
Qed.

Definition sample_blacklisted : account_object := (sample_account 5) <| acc_blacklisting_accounts := {[ 8 ]} |>.
Definition sample_restricted : asset_object :=
  AssetObject "X" 6 1000 2 ∅ {[ 8 ]} (Price (Asset 1 0) (Asset 1 1)) 1 0 0 ∅ ∅ None 5 0.
Definition sample_restricted_db : database :=
  sample_db <| d_assets := Index (<[1 := sample_restricted]> sample_db.(d_assets).(objs)) 5 |>
            <| d_accounts := Index (<[7 := sample_blacklisted]> sample_db.(d_accounts).(objs)) 9 |>.

Lemma blacklisted_cannot_transfer_witness :
  transfer_do_evaluate sample_restricted_db (TransferOp (Asset 0 0) 7 6 (Asset 5 1)) ≠ Ok tt.
Proof.
  apply (blacklisted_cannot_transfer _ _ sample_blacklisted sample_restricted 8).
  - left. vm_compute. reflexivity.
  - vm_compute. reflexivity.
  - vm_compute. discriminate.
  - cbn. set_solver.
  - cbn. set_solver.
Defined.

(** A withdrawal from a vesting balance that passes its checks pays the
    owner exactly what it takes from the object, and nothing else moves. *)
Theorem vesting_withdraw_pays_owner d op vbo
  (Hd : ledger_ok d) (Hv : d.(d_vesting).(objs) !! op.(vw_vesting_balance) = Some vbo)
  (Hwf : wf_vbo vbo) (Hclock : after_last_update vbo (head_block_time d))
  (Hval : vesting_balance_withdraw_validate op = Ok tt)
  (Heval : vesting_balance_withdraw_do_evaluate d op = Ok tt)
  (Hto : (get_balance d op.(vw_owner) op.(vw_amount).(asset_id)).(amount) + op.(vw_amount).(amount) ≤ int64_max) :
  ∃ d' vbo', vesting_balance_withdraw_do_apply d op = Ok d' ∧
    d'.(d_vesting).(objs) = <[op.(vw_vesting_balance) := vbo']> d.(d_vesting).(objs) ∧
    vbo'.(vb_owner) = op.(vw_owner) ∧
    vbo'.(vb_balance).(amount) = vbo.(vb_balance).(amount) - op.(vw_amount).(amount) ∧
    0 ≤ vbo'.(vb_balance).(amount) ∧ wf_vbo vbo' ∧
    ∀ o i, (get_balance d' o i).(amount) = (get_balance d o i).(amount)
      + (if decide ((o, i) = (op.(vw_owner), op.(vw_amount).(asset_id))) then op.(vw_amount).(amount) else 0).
Proof.
  unfold vesting_balance_withdraw_validate in Hval. unfold vesting_balance_withdraw_do_evaluate in Heval.
  unfold index_get in Heval. rewrite Hv in Heval. cbn [from_option_exn mbind result_bind] in Heval.
  inv_ok; propify.
  destruct (vbo_withdraw_total vbo (head_block_time d) op.(vw_amount)) as (v' & Hw & Ho & Hbal & Hpos & Hwf' & _);
    [done..|].
  unfold vesting_balance_withdraw_do_apply, index_modify, index_get. rewrite Hv. cbn [from_option_exn mbind result_bind].
  rewrite Hw. cbn [mbind result_bind].
  set (d1 := d <| d_vesting := _ |>).
  destruct (adjust_balance_total d1 op.(vw_owner) op.(vw_amount)) as (d2 & Hd2 & Hb2).
  - pose proof (get_balance_nonneg d op.(vw_owner) op.(vw_amount).(asset_id) Hd).
    change (get_balance d1) with (get_balance d). solve_int64.
  - pose proof (get_balance_nonneg d op.(vw_owner) op.(vw_amount).(asset_id) Hd).
    change (get_balance d1) with (get_balance d). solve_int64.
  - pose proof (get_balance_nonneg d op.(vw_owner) op.(vw_amount).(asset_id) Hd). solve_int64.
  - exists d2, v'. split; [done|].
    assert (d2.(d_vesting) = d1.(d_vesting)) as ->.
    { apply adjust_balance_Ok in Hd2 as [[-> _]|(? & -> & _)]; done. }
    split_and!; [done|congruence|by rewrite Hbal|done|done|].
    intros o i. rewrite Hb2. change (get_balance d1) with (get_balance d).
    case_decide as E; [injection E as -> ->; cbn|]; lia.
Qed.

Definition sample_vesting_db : database :=
  sample_db <| d_vesting := Index {[ 0 := VestingBalance 7 (Asset 1000 0) (cdd (CddPolicy 100 0 0 1649999950)) ]} 1 |>.

Lemma vesting_withdraw_pays_owner_witness :
  ∃ d' vbo', vesting_balance_withdraw_do_apply sample_vesting_db (VestingWithdrawOp (Asset 1 0) 0 7 (Asset 300 0)) = Ok d' ∧
    d'.(d_vesting).(objs) = <[0 := vbo']> sample_vesting_db.(d_vesting).(objs) ∧
    vbo'.(vb_owner) = 7 ∧ vbo'.(vb_balance).(amount) = 1000 - 300 ∧
    0 ≤ vbo'.(vb_balance).(amount) ∧ wf_vbo vbo' ∧
    ∀ o i, (get_balance d' o i).(amount) = (get_balance sample_vesting_db o i).(amount)
      + (if decide ((o, i) = (7, 0)) then 300 else 0).
Proof.
  apply (vesting_withdraw_pays_owner sample_vesting_db (VestingWithdrawOp (Asset 1 0) 0 7 (Asset 300 0))
           (VestingBalance 7 (Asset 1000 0) (cdd (CddPolicy 100 0 0 1649999950)))).
  - destruct sample_ledger_ok as [H1 H2 H3 H4 H5 H6]. split; [exact H1|exact H2|exact H3|exact H4|exact H5|exact H6].
  - reflexivity.
  - unfold wf_vbo, wf_cdd, cdd_vesting.period, int64_max; cbn; lia.
  - unfold after_last_update; cbn; lia.
  - reflexivity.
  - vm_compute. reflexivity.
  - apply (bool_decide_unpack _). vm_compute. exact I.
Defined.

(** The template on a transfer (witness of the property of Evaluator.v). *)
Definition default_state : transaction_evaluation_state := EvaluationState false false.

Lemma sample_chain_ok : chain_ok sample_db.
Proof. split; [unfold assets_ok| |unfold funds_ok|unfold backed| |unfold linked]; by apply (bool_decide_unpack _). Qed.

Lemma start_evaluate_balanced_witness :
  is_ok (start_evaluate default_state 20 sample_db sample_transfer) = true ∧
  let d' := ok_or sample_db (start_evaluate default_state 20 sample_db sample_transfer) in
  ledger_ok d' ∧ balanced d'.
Proof.
  split; [vm_compute; reflexivity|].
  apply (start_evaluate_balanced default_state 20 sample_db sample_transfer);
    [reflexivity|exact sample_chain_ok|exact sample_ledger_ok|exact sample_balanced|].
  destruct (start_evaluate default_state 20 sample_db sample_transfer) eqn:E; [reflexivity|].
  exfalso. vm_compute in E. discriminate E.
Defined.

(** Witnesses of the properties of Balance.v. *)
Lemma adjust_balance_correct_witness :
  ∃ d', adjust_balance sample_db 6 (Asset (-400) 0) = Ok d' ∧ ledger_ok d' ∧
    ∀ o i, get_balance d' o i = if decide ((o, i) = (6, 0)) then Asset (1000000 + -400) i else get_balance sample_db o i.
Proof.
  apply (adjust_balance_correct sample_db 6 (Asset (-400) 0));
    [exact sample_ledger_ok|vm_compute; discriminate|unfold in_int64, int64_min, int64_max; cbn; lia].
Defined.

(** The cashback of a debitor: the debt is paid to the creditor, the rest vests. *)
Definition debitor_db : database :=
  sample_db <| d_statistics := <[7 := new_statistics <| st_total_credit := 900 |> <| st_allowed_to_repay := 400 |>
                                        <| st_creditor := 6 |>]> sample_db.(d_statistics) |>.

Lemma deposit_cashback_accounted_witness :
  is_ok (deposit_cashback debitor_db 7 1200 true true) = true ∧
  let d' := ok_or debitor_db (deposit_cashback debitor_db 7 1200 true true) in
  ledger_ok d' ∧ ∀ a, imbalance d' a = imbalance debitor_db a + (if CORE =? a then 1200 else 0).
Proof.
  split; [vm_compute; reflexivity|].
  apply (deposit_cashback_accounted debitor_db 7 1200 true true).
  - split; by apply (bool_decide_unpack _).
  - destruct (deposit_cashback debitor_db 7 1200 true true) eqn:E; [reflexivity|].
    exfalso. vm_compute in E. discriminate E.
Defined.
