(* ===== verification/Market.v ===== *)
(** * Orders: how they are filled, cancelled and matched

    [db_market.cpp]: what a fill does to a limit order, a margin position and a
    settlement order, how an order is cancelled, and the three functions [match]
    that make two of them trade at a price.  The operations that use them are in
    Margin.v and MarketOps.v. *)
From S2P Require Import Prelude Safe Asset Objects Pricing Database Ledger Vesting Balance Evaluator.

(** ** Objects *)
Definition get_limit_order (d : database) (id : Z) : result limit_order_object := index_get d.(d_limit_orders) id.
Definition get_call_order (d : database) (id : Z) : result call_order_object := index_get d.(d_call_orders) id.
Definition get_settlement (d : database) (id : Z) : result force_settlement_object := index_get d.(d_settlements) id.
Definition bitasset_data (d : database) (a : asset_object) : result asset_bitasset_data_object :=
  id ← from_option_exn assert_exception a.(ao_bitasset_data_id);
  index_get d.(d_bitasset_data) id.
Definition modify_bitasset (d : database) (a : asset_object)
    (f : asset_bitasset_data_object → result asset_bitasset_data_object) : result database :=
  id ← from_option_exn assert_exception a.(ao_bitasset_data_id);
  i ← index_modify d.(d_bitasset_data) id f;
  Ok (d <| d_bitasset_data := i |>).

Definition modify_limit_order (d : database) (id : Z) (f : limit_order_object → result limit_order_object) : result database :=
  i ← index_modify d.(d_limit_orders) id f; Ok (d <| d_limit_orders := i |>).
Definition remove_limit_order (d : database) (id : Z) : result database :=
  i ← index_remove d.(d_limit_orders) id; Ok (d <| d_limit_orders := i |>).
Definition modify_call_order (d : database) (id : Z) (f : call_order_object → result call_order_object) : result database :=
  i ← index_modify d.(d_call_orders) id f; Ok (d <| d_call_orders := i |>).
Definition remove_call_order (d : database) (id : Z) : result database :=
  i ← index_remove d.(d_call_orders) id; Ok (d <| d_call_orders := i |>).
Definition modify_settlement (d : database) (id : Z) (f : force_settlement_object → result force_settlement_object) : result database :=
  i ← index_modify d.(d_settlements) id f; Ok (d <| d_settlements := i |>).
Definition remove_settlement (d : database) (id : Z) : result database :=
  i ← index_remove d.(d_settlements) id; Ok (d <| d_settlements := i |>).

(** [stats.total_core_in_orders += z], when [x] is an amount of the core asset. *)
Definition add_core_in_orders (d : database) (acc : Z) (x : asset) : result database :=
  modify_statistics d acc (λ b,
    if x.(asset_id) =? CORE then n ← safe_add b.(st_total_core_in_orders) x.(amount); Ok (b <| st_total_core_in_orders := n |>)
    else Ok b).
Definition sub_core_in_orders (d : database) (acc : Z) (x : asset) : result database :=
  modify_statistics d acc (λ b,
    if x.(asset_id) =? CORE then n ← safe_sub b.(st_total_core_in_orders) x.(amount); Ok (b <| st_total_core_in_orders := n |>)
    else Ok b).

(** ** Market fees *)
Definition calculate_market_fee (trade_asset : asset_object) (trade_amount : asset) : result asset :=
  if negb (charges_market_fees trade_asset) || (trade_asset.(ao_market_fee_percent) =? 0)
  then Ok (Asset 0 trade_amount.(asset_id))
  else
    a ← to_uint64 (uint128_mul (uint128_of_int64 trade_amount.(amount)) trade_asset.(ao_market_fee_percent) `div` GRAPHENE_100_PERCENT);
    let percent_fee := to_int64 a in
    Ok (Asset (if trade_asset.(ao_max_market_fee) <? percent_fee then trade_asset.(ao_max_market_fee) else percent_fee)
          trade_amount.(asset_id)).

Definition pay_market_fees (d : database) (recv_asset : asset_object) (receives : asset) : result (database * asset) :=
  issuer_fees ← calculate_market_fee recv_asset receives;
  d1 ← (if 0 <? issuer_fees.(amount) then add_accumulated_fees d recv_asset.(ao_dynamic_asset_data_id) issuer_fees.(amount) else Ok d);
  Ok (d1, issuer_fees).

Definition pay_order (d : database) (receiver : Z) (receives pays : asset) : result database :=
  d1 ← sub_core_in_orders d receiver pays;
  adjust_balance d1 receiver receives.

(** ** Cancellations

    [cancel_fee] is what [current_fee_schedule().calculate_fee] gives for the
    cancellation of a limit order, in the core asset. *)
Section cancel.
Context (cancel_fee : Z).

(** The share of the fee paid in another asset that goes with a part of the
    deferred core fee, rounded up. *)
Definition cancel_fee_share (paid core_cancel_fee deferred_fee : Z) : result Z :=
  let fee128 := uint128_mul (uint128_of_int64 paid) (uint128_of_int64 core_cancel_fee) in
  let fee128 := uint128_sub (uint128_add fee128 (uint128_of_int64 deferred_fee)) 1 in
  r ← to_uint64 (fee128 `div` uint128_of_int64 deferred_fee);
  Ok (to_int64 r).

(** The cancellation fee: the state, the fees that stay deferred and the fee of
    the virtual operation. *)
Definition deduct_cancel_fee (d : database) (order : limit_order_object) : result (database * Z * asset * asset) :=
  let core_cancel_fee := Z.min cancel_fee order.(lo_deferred_fee) in
  if 0 <? core_cancel_fee then
    d1 ← modify_statistics d order.(lo_seller) (stat_pay_fee core_cancel_fee);
    deferred_fee ← safe_sub order.(lo_deferred_fee) core_cancel_fee;
    let paid := order.(lo_deferred_paid_fee) in
    if paid.(amount) =? 0 then Ok (d1, deferred_fee, paid, Asset core_cancel_fee CORE)
    else
      cancel_fee_amount ← cancel_fee_share paid.(amount) core_cancel_fee order.(lo_deferred_fee);
      fee_asset ← get_asset d1 paid.(asset_id);
      d2 ← add_accumulated_fees d1 fee_asset.(ao_dynamic_asset_data_id) cancel_fee_amount;
      left_ ← safe_sub paid.(amount) cancel_fee_amount;
      Ok (d2, deferred_fee, Asset left_ paid.(asset_id), Asset cancel_fee_amount paid.(asset_id))
  else Ok (d, order.(lo_deferred_fee), order.(lo_deferred_paid_fee), Asset 0 CORE).

Definition cancel_limit_order (d : database) (id : Z) (create_virtual_op skip_cancel_fee : bool) : result database :=
  order ← get_limit_order d id;
  '(d1, deferred_fee, deferred_paid_fee, vop_fee) ←
    (if create_virtual_op && negb skip_cancel_fee && (0 <? order.(lo_deferred_fee)) then deduct_cancel_fee d order
     else Ok (d, order.(lo_deferred_fee), order.(lo_deferred_paid_fee), Asset 0 CORE));
  let refunded := amount_for_sale order in
  d2 ← (if refunded.(asset_id) =? CORE then sub_core_in_orders d1 order.(lo_seller) refunded else Ok d1);
  d3 ← adjust_balance d2 order.(lo_seller) refunded;
  d4 ← (if order.(lo_deferred_paid_fee).(amount) =? 0 then adjust_balance d3 order.(lo_seller) (Asset deferred_fee CORE)
        else
          d4 ← adjust_balance d3 order.(lo_seller) deferred_paid_fee;
          fee_asset ← get_asset d4 deferred_paid_fee.(asset_id);
          modify_dynamic_data d4 fee_asset.(ao_dynamic_asset_data_id) (λ x,
            p ← safe_add x.(dd_fee_pool) deferred_fee; Ok (x <| dd_fee_pool := p |>)));
  let d5 := if create_virtual_op then push_applied_operation d4 (limit_order_cancel_virtual_op id order.(lo_seller) vop_fee) else d4 in
  remove_limit_order d5 id.

(** [maybe_cull_small_order]: an order that would receive nothing is cancelled. *)
Definition maybe_cull_small_order (d : database) (id : Z) : result (database * bool) :=
  order ← get_limit_order d id;
  to_receive ← asset_mul (amount_for_sale order) order.(lo_sell_price);
  if to_receive.(amount) =? 0 then
    d1 ← cancel_limit_order d id true ((0 <? order.(lo_deferred_fee)) && (head_block_time d <=? HARDFORK_CORE_604_TIME));
    Ok (d1, true)
  else Ok (d, false).

Definition cancel_settle_order (d : database) (id : Z) : result database :=
  order ← get_settlement d id;
  d1 ← adjust_balance d order.(fs_owner) order.(fs_balance);
  remove_settlement (push_applied_operation d1 (asset_settle_cancel_op id order.(fs_owner) order.(fs_balance))) id.

(** ** Fills: the order pays [pays] and receives [receives] *)
Definition fill_limit_order (d : database) (id : Z) (pays receives : asset) (cull_if_small : bool) (fill_price : price)
    (is_maker : bool) : result (database * bool) :=
  let cull_if_small := cull_if_small || (head_block_time d <? HARDFORK_555_TIME) in
  order ← get_limit_order d id;
  _ ← FC_ASSERT ((amount_for_sale order).(asset_id) =? pays.(asset_id));
  _ ← FC_ASSERT (negb (pays.(asset_id) =? receives.(asset_id)));
  _ ← get_account d order.(lo_seller);
  recv_asset ← get_asset d receives.(asset_id);
  '(d1, issuer_fees) ← pay_market_fees d recv_asset receives;
  net ← asset_sub receives issuer_fees;
  d2 ← pay_order d1 order.(lo_seller) net pays;
  let d3 := push_applied_operation d2 (fill_order_op id order.(lo_seller) pays receives issuer_fees fill_price is_maker) in
  d4 ← (if 0 <? order.(lo_deferred_fee) then modify_statistics d3 order.(lo_seller) (stat_pay_fee order.(lo_deferred_fee)) else Ok d3);
  d5 ← (if 0 <? order.(lo_deferred_paid_fee).(amount) then
          fee_asset ← get_asset d4 order.(lo_deferred_paid_fee).(asset_id);
          add_accumulated_fees d4 fee_asset.(ao_dynamic_asset_data_id) order.(lo_deferred_paid_fee).(amount)
        else Ok d4);
  if asset_eqb pays (amount_for_sale order) then
    d6 ← remove_limit_order d5 id; Ok (d6, true)
  else
    d6 ← modify_limit_order d5 id (λ b,
      s ← safe_sub b.(lo_for_sale) pays.(amount);
      Ok (b <| lo_for_sale := s |> <| lo_deferred_fee := 0 |>
            <| lo_deferred_paid_fee := Asset 0 b.(lo_deferred_paid_fee).(asset_id) |>));
    if cull_if_small then maybe_cull_small_order d6 id else Ok (d6, false).

(** The position after a fill, and the collateral that is freed when the debt is paid. *)
Definition fill_position (after_343 : bool) (mcr : result Z) (o : call_order_object) (pays receives : Z) :
    result (call_order_object * option asset) :=
  debt ← safe_sub o.(cl_debt) receives;
  collateral ← safe_sub o.(cl_collateral) pays;
  let o := o <| cl_debt := debt |> <| cl_collateral := collateral |> in
  if debt =? 0 then Ok (o <| cl_collateral := 0 |>, Some (get_collateral o))
  else if after_343 then
    mcr ← mcr;
    p ← call_price (get_debt o) (get_collateral o) mcr;
    Ok (o <| cl_call_price := p |>, None)
  else Ok (o, None).

Definition fill_call_order (d : database) (id : Z) (pays receives : asset) (fill_price : price) (is_maker : bool) :
    result (database * bool) :=
  order ← get_call_order d id;
  _ ← FC_ASSERT (debt_type order =? receives.(asset_id));
  _ ← FC_ASSERT (collateral_type order =? pays.(asset_id));
  _ ← FC_ASSERT (pays.(amount) <=? order.(cl_collateral));
  mia ← get_asset d receives.(asset_id);
  _ ← FC_ASSERT (is_market_issued mia);
  let mcr := b ← bitasset_data d mia; Ok b.(bd_current_feed).(pf_maintenance_collateral_ratio) in
  '(order', collateral_freed) ←
    fill_position (HARDFORK_CORE_343_TIME <? next_maintenance_time d) mcr order pays.(amount) receives.(amount);
  d1 ← modify_call_order d id (λ _, Ok order');
  d2 ← sub_supply d1 mia.(ao_dynamic_asset_data_id) receives.(amount);
  d3 ← match collateral_freed with Some freed => adjust_balance d2 order.(cl_borrower) freed | None => Ok d2 end;
  d4 ← (if pays.(asset_id) =? CORE then
          d4 ← sub_core_in_orders d3 order.(cl_borrower) pays;
          match collateral_freed with Some freed => sub_core_in_orders d4 order.(cl_borrower) freed | None => Ok d4 end
        else Ok d3);
  let d5 := push_applied_operation d4
    (fill_order_op id order.(cl_borrower) pays receives (Asset 0 pays.(asset_id)) fill_price is_maker) in
  match collateral_freed with
  | Some _ => d6 ← remove_call_order d5 id; Ok (d6, true)
  | None => Ok (d5, false)
  end.

Definition fill_settle_order (d : database) (id : Z) (pays receives : asset) (fill_price : price) (is_maker : bool) :
    result (database * bool) :=
  settle ← get_settlement d id;
  recv_asset ← get_asset d receives.(asset_id);
  '(d1, issuer_fees) ← pay_market_fees d recv_asset receives;
  partial ← asset_lt pays settle.(fs_balance);
  d2 ← (if partial : bool then modify_settlement d1 id (λ s, b ← asset_sub s.(fs_balance) pays; Ok (s <| fs_balance := b |>)) else Ok d1);
  net ← asset_sub receives issuer_fees;
  d3 ← adjust_balance d2 settle.(fs_owner) net;
  let d4 := push_applied_operation d3 (fill_order_op id settle.(fs_owner) pays receives issuer_fees fill_price is_maker) in
  if partial : bool then Ok (d4, false)
  else d5 ← remove_settlement d4 id; Ok (d5, true).

(** ** Matching

    The amounts two orders trade, before anything is changed: what the taker
    receives, what the other side receives, whether a remainder of the taker is
    culled; [None] when the taker would pay something for nothing. *)
Definition limit_amounts (maint_time : Z) (usd_for_sale core_for_sale : asset) (match_price : price) :
    result (option (asset * asset * bool)) :=
  let before_342 := maint_time <=? HARDFORK_CORE_342_TIME in
  core_at_price ← asset_mul core_for_sale match_price;
  taker_smaller ← asset_le usd_for_sale core_at_price;
  if taker_smaller : bool then
    usd_receives ← asset_mul usd_for_sale match_price;
    if (usd_receives.(amount) =? 0) && (HARDFORK_CORE_184_TIME <? maint_time) then Ok None
    else if before_342 then Ok (Some (usd_receives, usd_for_sale, false))
    else core_receives ← multiply_and_round_up usd_receives match_price; Ok (Some (usd_receives, core_receives, true))
  else
    core_receives ← asset_mul core_for_sale match_price;
    usd_receives ← (if before_342 then Ok core_for_sale else multiply_and_round_up core_receives match_price);
    Ok (Some (usd_receives, core_receives, false)).

Definition filled_bits (taker maker : bool) : Z := (if taker then 1 else 0) + (if maker then 2 else 0).

(** [match( limit_order_object, limit_order_object, price )]; the first is the taker. *)
Definition match_limit (d : database) (usd_id core_id : Z) (match_price : price) : result (database * Z) :=
  usd ← get_limit_order d usd_id;
  core ← get_limit_order d core_id;
  _ ← FC_ASSERT (receive_asset_id usd =? sell_asset_id core);
  _ ← FC_ASSERT (sell_asset_id usd =? receive_asset_id core);
  _ ← FC_ASSERT ((0 <? usd.(lo_for_sale)) && (0 <? core.(lo_for_sale)));
  amounts ← limit_amounts (next_maintenance_time d) (amount_for_sale usd) (amount_for_sale core) match_price;
  match amounts with
  | None => Ok (d, 1)
  | Some (usd_receives, core_receives, cull_taker) =>
      _ ← (if next_maintenance_time d <=? HARDFORK_CORE_342_TIME
           then FC_ASSERT (asset_eqb core_receives (amount_for_sale usd) || asset_eqb usd_receives (amount_for_sale core))
           else Ok tt);
      '(d1, taker) ← fill_limit_order d usd_id core_receives usd_receives cull_taker match_price false;
      '(d2, maker) ← fill_limit_order d1 core_id usd_receives core_receives true match_price true;
      _ ← FC_ASSERT (negb (filled_bits taker maker =? 0));
      Ok (d2, filled_bits taker maker)
  end.

(** What the limit order and the margin position receive. *)
Definition call_amounts (maint_time : Z) (usd_for_sale usd_to_buy : asset) (match_price : price) :
    result (option (asset * asset * bool)) :=
  let before_342 := maint_time <=? HARDFORK_CORE_342_TIME in
  let before_184 := maint_time <=? HARDFORK_CORE_184_TIME in
  call_smaller ← asset_le usd_to_buy usd_for_sale;
  if negb call_smaller then
    order_receives ← asset_mul usd_for_sale match_price;
    if (order_receives.(amount) =? 0) && negb before_184 then Ok None
    else if before_342 then Ok (Some (order_receives, usd_for_sale, false))
    else call_receives ← multiply_and_round_up order_receives match_price; Ok (Some (order_receives, call_receives, true))
  else if before_342 then
    order_receives ← asset_mul usd_to_buy match_price;
    if (order_receives.(amount) =? 0) && negb before_184 then Ok None
    else Ok (Some (order_receives, usd_to_buy, false))
  else order_receives ← multiply_and_round_up usd_to_buy match_price; Ok (Some (order_receives, usd_to_buy, false)).

Definition debt_to_buy (d : database) (ask : call_order_object) (match_price feed_price : price) (mcr : Z) : result asset :=
  if next_maintenance_time d <=? HARDFORK_CORE_834_TIME then Ok (get_debt ask)
  else amt ← get_max_debt_to_cover ask match_price feed_price mcr; Ok (Asset amt (debt_type ask)).

(** [match( limit_order_object, call_order_object, ... )]; the limit order is the taker. *)
Definition match_call (d : database) (bid_id ask_id : Z) (match_price feed_price : price) (mcr : Z) : result (database * Z) :=
  bid ← get_limit_order d bid_id;
  ask ← get_call_order d ask_id;
  _ ← FC_ASSERT (sell_asset_id bid =? debt_type ask);
  _ ← FC_ASSERT (receive_asset_id bid =? collateral_type ask);
  _ ← FC_ASSERT ((0 <? bid.(lo_for_sale)) && (0 <? ask.(cl_debt)) && (0 <? ask.(cl_collateral)));
  usd_to_buy ← debt_to_buy d ask match_price feed_price mcr;
  amounts ← call_amounts (next_maintenance_time d) (amount_for_sale bid) usd_to_buy match_price;
  match amounts with
  | None => Ok (d, 1)
  | Some (order_receives, call_receives, cull_taker) =>
      '(d1, taker) ← fill_limit_order d bid_id call_receives order_receives cull_taker match_price false;
      '(d2, maker) ← fill_call_order d1 ask_id order_receives call_receives match_price true;
      Ok (d2, filled_bits taker maker)
  end.

(** What a settlement takes from a position. *)
Inductive settle_outcome : Type :=
  | settle_nothing (cancel : bool)
  | settle_amounts (call_pays call_receives : asset) (cull_settle_order : bool).
Definition asset_min (a b : asset) : result asset := lt ← asset_lt b a; Ok (if lt : bool then b else a).
Definition settle_trade (maint_time : Z) (balance call_debt max_settlement : asset) (match_price : price) : result settle_outcome :=
  settle_for_sale ← asset_min balance max_settlement;
  call_receives ← asset_min settle_for_sale call_debt;
  call_pays ← asset_mul call_receives match_price;
  if call_pays.(amount) =? 0 then
    if HARDFORK_CORE_184_TIME <? maint_time then
      if asset_eqb call_receives call_debt then Ok (settle_amounts (Asset 1 call_pays.(asset_id)) call_receives false)
      else Ok (settle_nothing (asset_eqb call_receives balance))
    else Ok (settle_amounts call_pays call_receives false)
  else if maint_time <=? HARDFORK_CORE_342_TIME then Ok (settle_amounts call_pays call_receives false)
  else if asset_eqb call_receives call_debt then
    call_pays ← multiply_and_round_up call_receives match_price;
    Ok (settle_amounts call_pays call_receives false)
  else
    rounded ← multiply_and_round_up call_pays match_price;
    Ok (settle_amounts call_pays rounded (asset_eqb call_receives balance && negb (asset_eqb rounded balance))).

(** [match( call_order_object, force_settlement_object, ... )]: what is settled. *)
Definition match_settle (d : database) (call_id settle_id : Z) (match_price : price) (max_settlement : asset) (fill_price : price) :
    result (database * asset) :=
  call ← get_call_order d call_id;
  settle ← get_settlement d settle_id;
  _ ← FC_ASSERT (debt_type call =? settle.(fs_balance).(asset_id));
  _ ← FC_ASSERT ((0 <? call.(cl_debt)) && (0 <? call.(cl_collateral)) && (0 <? settle.(fs_balance).(amount)));
  outcome ← settle_trade (next_maintenance_time d) settle.(fs_balance) (get_debt call) max_settlement match_price;
  match outcome with
  | settle_nothing cancel =>
      d1 ← (if cancel then cancel_settle_order d settle_id else Ok d);
      Ok (d1, Asset 0 settle.(fs_balance).(asset_id))
  | settle_amounts call_pays call_receives cull =>
      _ ← (if next_maintenance_time d <=? HARDFORK_CORE_342_TIME then
             less ← asset_lt call_pays (get_collateral call); GRAPHENE_ASSERT less black_swan_exception
           else Ok tt);
      '(d1, _) ← fill_call_order d call_id call_pays call_receives fill_price true;
      '(d2, _) ← fill_settle_order d1 settle_id call_receives call_pays fill_price false;
      d3 ← (if cull : bool then cancel_settle_order d2 settle_id else Ok d2);
      Ok (d3, call_receives)
  end.

End cancel.

(** ** What no order changes: the assets, the accounts, the parameters, the clock and
    the transfers that wait for an approval *)
Definition same_setting (d d' : database) : Prop :=
  d'.(d_assets) = d.(d_assets) ∧ d'.(d_accounts) = d.(d_accounts) ∧ d'.(d_gpo) = d.(d_gpo) ∧ d'.(d_dgpo) = d.(d_dgpo) ∧
  d'.(d_approved_transfers) = d.(d_approved_transfers).
#[export] Instance same_setting_preorder : PreOrder same_setting.
Proof. split; [done|]. intros d1 d2 d3 (? & ? & ? & ? & ?) (? & ? & ? & ? & ?). repeat split; congruence. Qed.
Lemma setting_assets d d' : same_setting d d' → assets_ok d → assets_ok d'.
Proof. unfold assets_ok. by intros (-> & _). Qed.
Lemma setting_get_asset d d' a : same_setting d d' → get_asset d' a = get_asset d a.
Proof. unfold get_asset. by intros (-> & _). Qed.
Lemma dyn_id d a o : assets_ok d → get_asset d a = Ok o → o.(ao_dynamic_asset_data_id) = a.
Proof. intros Ha H. apply index_get_Ok in H. by destruct (Ha _ _ H). Qed.

(** [steps p]: the runs of the hypotheses change neither the setting nor the table [p]. *)
Class Setting (P : Prop) (d d' : database) : Prop := setting : P → same_setting d d'.
#[export] Hint Mode Setting + - - : typeclass_instances.
#[export] Instance setting_adjust_balance d acc delta d' : Setting (adjust_balance d acc delta = Ok d') d d'.
Proof. intros H. by rewrite (adjust_balance_frame _ _ _ _ H). Qed.
#[export] Instance setting_debit d acc delta d' : Setting (debit d acc delta = Ok d') d d'.
Proof. intros H. by rewrite (debit_frame _ _ _ _ H). Qed.
#[export] Instance setting_modify_statistics d o f d' : Setting (modify_statistics d o f = Ok d') d d'.
Proof. intros H. by rewrite (modify_statistics_frame _ _ _ _ H). Qed.
#[export] Instance setting_modify_dynamic_data d o f d' : Setting (modify_dynamic_data d o f = Ok d') d d'.
Proof. intros H. by rewrite (modify_dynamic_data_frame _ _ _ _ H). Qed.

(** ** Flows of the objects *)
Section object_flows.
Implicit Types (d : database).

Lemma flow_modify_limit d id f d' :
  modify_limit_order d id f = Ok d' → (∀ o o', f o = Ok o' → limit_ok o → limit_ok o') →
  ∃ o o', get_limit_order d id = Ok o ∧ f o = Ok o' ∧ flow d d' (λ a, limit_held a o' - limit_held a o).
Proof.
  unfold modify_limit_order, get_limit_order. intros H Hf. inv_ok.
  match goal with H : index_modify _ _ _ = Ok _ |- _ => apply index_modify_Ok in H as (o & o' & Ho & Ho' & ->) end.
  exists o, o'. split; [by apply index_get_Ok|]. split; [done|]. apply flow_limit_orders.
  - intros Hok. apply map_Forall_insert_2; [|done]. eapply Hf; [done|]. by apply (Hok id).
  - intros a. rewrite (isum_modify _ _ _ _ _ Ho). lia.
Qed.
Lemma flow_remove_limit d id d' o :
  remove_limit_order d id = Ok d' → get_limit_order d id = Ok o → flow d d' (λ a, - limit_held a o).
Proof.
  unfold remove_limit_order, get_limit_order. intros H Ho. inv_ok. apply index_get_Ok in Ho.
  match goal with H : index_remove _ _ = Ok _ |- _ => apply index_remove_Ok in H as (o' & Ho' & ->) end. same_ok.
  apply flow_limit_orders.
  - intros Hok. by apply map_Forall_delete.
  - intros a. rewrite (isum_remove _ _ _ _ _ Ho'). lia.
Qed.

Lemma flow_modify_call d id f d' :
  modify_call_order d id f = Ok d' →
  ∃ o o', get_call_order d id = Ok o ∧ f o = Ok o' ∧ flow d d' (λ a, of_asset a (get_collateral o') - of_asset a (get_collateral o)).
Proof.
  unfold modify_call_order, get_call_order. intros H. inv_ok.
  by match goal with H : index_modify _ _ _ = Ok _ |- _ => apply (flow_index_modify d_call_orders _ get_collateral flow_call_orders) in H end.
Qed.
Lemma flow_remove_call d id d' o :
  remove_call_order d id = Ok d' → get_call_order d id = Ok o → flow d d' (λ a, - of_asset a (get_collateral o)).
Proof.
  unfold remove_call_order, get_call_order. intros H Ho. inv_ok.
  by match goal with H : index_remove _ _ = Ok _ |- _ => apply (flow_index_remove d_call_orders _ get_collateral flow_call_orders d id _ o H Ho) end.
Qed.
Lemma flow_modify_settlement d id f d' :
  modify_settlement d id f = Ok d' →
  ∃ o o', get_settlement d id = Ok o ∧ f o = Ok o' ∧ flow d d' (λ a, of_asset a o'.(fs_balance) - of_asset a o.(fs_balance)).
Proof.
  unfold modify_settlement, get_settlement. intros H. inv_ok.
  by match goal with H : index_modify _ _ _ = Ok _ |- _ => apply (flow_index_modify d_settlements _ fs_balance flow_settlements) in H end.
Qed.
Lemma flow_remove_settlement d id d' o :
  remove_settlement d id = Ok d' → get_settlement d id = Ok o → flow d d' (λ a, - of_asset a o.(fs_balance)).
Proof.
  unfold remove_settlement, get_settlement. intros H Ho. inv_ok.
  by match goal with H : index_remove _ _ = Ok _ |- _ => apply (flow_index_remove d_settlements _ fs_balance flow_settlements d id _ o H Ho) end.
Qed.
Lemma flow_modify_bitasset d a f d' :
  modify_bitasset d a f = Ok d' →
  ∃ b b', bitasset_data d a = Ok b ∧ f b = Ok b' ∧ flow d d' (λ x, of_asset x (fund_held b') - of_asset x (fund_held b)).
Proof.
  unfold modify_bitasset, bitasset_data. intros H. inv_ok. cbn.
  match goal with H : _ = Some _ |- _ => rewrite H; cbn end.
  by match goal with H : index_modify _ _ _ = Ok _ |- _ => apply (flow_index_modify d_bitasset_data _ fund_held flow_bitasset_data) in H end.
Qed.
End object_flows.

#[export] Instance core_in_orders_neutral (x : asset) (f : Z → Z → result Z) : StatNeutral (λ b,
  if x.(asset_id) =? CORE then n ← f b.(st_total_core_in_orders) x.(amount); Ok (b <| st_total_core_in_orders := n |>) else Ok b).
Proof. intros s s' Hwf Hs. inv_ok; (split; [exact Hwf|unfold stat_held; cbn; lia]). Qed.
#[export] Instance flows_add_core d acc x d' : Flows (add_core_in_orders d acc x = Ok d') d d' (λ _, 0).
Proof. exact (flows_modify_statistics _ _ _ _ (StatNeutral0 := core_in_orders_neutral x safe_add)). Qed.
#[export] Instance flows_sub_core d acc x d' : Flows (sub_core_in_orders d acc x = Ok d') d d' (λ _, 0).
Proof. exact (flows_modify_statistics _ _ _ _ (StatNeutral0 := core_in_orders_neutral x safe_sub)). Qed.
#[export] Instance setting_add_core d acc x d' : Setting (add_core_in_orders d acc x = Ok d') d d'.
Proof. apply setting_modify_statistics. Qed.
#[export] Instance setting_sub_core d acc x d' : Setting (sub_core_in_orders d acc x = Ok d') d d'.
Proof. apply setting_modify_statistics. Qed.
#[export] Instance setting_add_fees d k z d' : Setting (add_accumulated_fees d k z = Ok d') d d'.
Proof. apply setting_modify_dynamic_data. Qed.
#[export] Instance setting_sub_supply d k z d' : Setting (sub_supply d k z = Ok d') d d'.
Proof. apply setting_modify_dynamic_data. Qed.

Lemma flow_stat_pay_fee d o c d' : modify_statistics d o (stat_pay_fee c) = Ok d' → flow d d' (λ a, core_only a c).
Proof.
  intros H. eapply flow_modify_statistics; [exact H|]. intros s s' Hwf Hs. unfold stat_pay_fee in Hs. inv_ok. inv_safe.
  split; [exact Hwf|unfold stat_held; cbn; lia].
Qed.

(** A table the accessor [p] reads that the runs of the hypotheses leave alone. *)
Ltac keep_table p :=
  unfold add_accumulated_fees, sub_supply, add_supply, sub_core_in_orders, add_core_in_orders in *; keep p.

(** ** Market fees move a part of what is received to the issuer *)
Lemma calculate_market_fee_id a x f : calculate_market_fee a x = Ok f → f.(asset_id) = x.(asset_id).
Proof. unfold calculate_market_fee. intros H. by inv_ok. Qed.
Definition amount_in (x : asset) : Prop := 0 ≤ x.(amount) ≤ int64_max.
Lemma calculate_market_fee_bounds a x f :
  market_fee_ok a → amount_in x → calculate_market_fee a x = Ok f → f.(asset_id) = x.(asset_id) ∧ 0 ≤ f.(amount) ≤ x.(amount).
Proof.
  intros [Hp Hm] Hx H. unfold amount_in, GRAPHENE_100_PERCENT in *. pose proof (calculate_market_fee_id _ _ _ H) as Hid. split; [done|].
  unfold calculate_market_fee in H. destruct (orb _ _); [injection H as <-; cbn; lia|]. apply bind_Ok in H as (r & Hr & [= <-]). cbn.
  unfold uint128_mul, uint128_of_int64 in Hr. unfold int64_max in *.
  rewrite (Z.mod_small x.(amount)), Z.mod_small in Hr by (unfold uint128_mod; nia).
  unfold to_uint64 in Hr. destruct (_ <? _); [|done]. injection Hr as <-. unfold GRAPHENE_100_PERCENT.
  assert (0 ≤ (x.(amount) * a.(ao_market_fee_percent)) `div` 10000) by (apply Z.div_pos; nia).
  assert ((x.(amount) * a.(ao_market_fee_percent)) `div` 10000 ≤ x.(amount)) by (apply Z.div_le_upper_bound; nia).
  rewrite to_int64_id by (unfold in_int64, int64_min, int64_max; lia). destruct (Z.ltb_spec a.(ao_max_market_fee) ((x.(amount) * a.(ao_market_fee_percent)) `div` 10000)); lia.
Qed.

Lemma get_asset_ok d id a : assets_ok d → get_asset d id = Ok a → a.(ao_dynamic_asset_data_id) = id ∧ market_fee_ok a.
Proof. intros Ha H. apply index_get_Ok in H. by destruct (Ha _ _ H) as (? & _ & ?). Qed.

Lemma pay_market_fees_spec d recv x d' f :
  assets_ok d → get_asset d x.(asset_id) = Ok recv → amount_in x → pay_market_fees d recv x = Ok (d', f) →
  f.(asset_id) = x.(asset_id) ∧ 0 ≤ f.(amount) ≤ x.(amount) ∧ flow d d' (λ a, of_asset a f) ∧
  d' = d <| d_dynamic_data := d'.(d_dynamic_data) |>.
Proof.
  intros Ha Hr Hx H. destruct (get_asset_ok _ _ _ Ha Hr) as [Hdyn Hfee]. unfold pay_market_fees in H.
  apply bind_Ok in H as (f' & Hf & H). apply bind_Ok in H as (d1 & H1 & [= -> ->]).
  destruct (calculate_market_fee_bounds _ _ _ Hfee Hx Hf) as [Hid Hb]. split; [done|]. split; [done|].
  destruct (Z.ltb_spec 0 f.(amount)) as [Hp|Hp].
  - split; [|by apply modify_dynamic_data_frame in H1]. apply flows in H1. eapply flow_ext; [exact H1|]. intros a. cbn beta.
    unfold of_asset. by rewrite Hdyn, Hid.
  - injection H1 as <-. split; [|by destruct d]. eapply flow_ext; [apply flow_refl|]. flow_arith.
Qed.

(** ** The flow of a fill: what the order receives less what it pays *)
Lemma pay_order_spec d acc r p d' :
  pay_order d acc r p = Ok d' →
  flow d d' (λ a, of_asset a r) ∧ d' = d <| d_statistics := d'.(d_statistics) |> <| d_balances := d'.(d_balances) |>.
Proof.
  unfold pay_order. intros H. apply bind_Ok in H as (d1 & H1 & H2). split.
  - solve_flow.
  - rewrite (adjust_balance_frame _ _ _ _ H2). unfold sub_core_in_orders in H1. by rewrite (modify_statistics_frame _ _ _ _ H1).
Qed.

(** The fees a limit order has deferred are paid when it is first filled. *)
Lemma deferred_fees_spec d d1 d' o :
  assets_ok d → limit_ok o →
  (if 0 <? o.(lo_deferred_fee) then modify_statistics d o.(lo_seller) (stat_pay_fee o.(lo_deferred_fee)) else Ok d) = Ok d1 →
  (if 0 <? o.(lo_deferred_paid_fee).(amount) then
     fee_asset ← get_asset d1 o.(lo_deferred_paid_fee).(asset_id);
     add_accumulated_fees d1 fee_asset.(ao_dynamic_asset_data_id) o.(lo_deferred_paid_fee).(amount)
   else Ok d1) = Ok d' →
  flow d d' (λ a, core_only a o.(lo_deferred_fee) + of_asset a o.(lo_deferred_paid_fee)) ∧
  d' = d <| d_statistics := d'.(d_statistics) |> <| d_dynamic_data := d'.(d_dynamic_data) |>.
Proof.
  intros Ha [Hf Hp] H1 H2.
  assert (flow d d1 (λ a, core_only a o.(lo_deferred_fee)) ∧ d1 = d <| d_statistics := d1.(d_statistics) |>) as [F1 E1].
  { destruct (Z.ltb_spec 0 o.(lo_deferred_fee)).
    - split; [by eapply flow_stat_pay_fee|by eapply modify_statistics_frame].
    - injection H1 as <-. split; [|by destruct d]. eapply flow_ext; [apply flow_refl|]. flow_arith. }
  assert (flow d1 d' (λ a, of_asset a o.(lo_deferred_paid_fee)) ∧ d' = d1 <| d_dynamic_data := d'.(d_dynamic_data) |>) as [F2 E2].
  { destruct (Z.ltb_spec 0 o.(lo_deferred_paid_fee).(amount)).
    - apply bind_Ok in H2 as (fa & Hfa & H2). split; [|by eapply modify_dynamic_data_frame].
      assert (get_asset d o.(lo_deferred_paid_fee).(asset_id) = Ok fa) as Hfa' by (rewrite E1 in Hfa; exact Hfa).
      destruct (get_asset_ok _ _ _ Ha Hfa') as [Hd _]. rewrite Hd in H2. apply flows in H2. exact H2.
    - injection H2 as <-. split; [|by destruct d1]. eapply flow_ext; [apply flow_refl|]. flow_arith. }
  split; [eapply flow_trans; eassumption|]. rewrite E2, E1. done.
Qed.

(** ** Frames: an operation on one order leaves all others alone *)
Definition same_books (d d' : database) : Prop :=
  d'.(d_limit_orders) = d.(d_limit_orders) ∧ d'.(d_call_orders) = d.(d_call_orders) ∧
  d'.(d_settlements) = d.(d_settlements) ∧ d'.(d_collateral_bids) = d.(d_collateral_bids) ∧
  d'.(d_bitasset_data) = d.(d_bitasset_data).
Definition same_but {V} (id : Z) (i i' : index V) : Prop := ∀ k, k ≠ id → i'.(objs) !! k = i.(objs) !! k.
Record limit_frame (id : Z) (d d' : database) : Prop := {
  lf_setting : same_setting d d';
  lf_limit : same_but id d.(d_limit_orders) d'.(d_limit_orders);
  lf_call : d'.(d_call_orders) = d.(d_call_orders);
  lf_settlements : d'.(d_settlements) = d.(d_settlements);
  lf_bids : d'.(d_collateral_bids) = d.(d_collateral_bids);
  lf_bitasset : d'.(d_bitasset_data) = d.(d_bitasset_data) }.
#[export] Instance limit_frame_preorder id : PreOrder (limit_frame id).
Proof.
  split; [by split|]. intros d1 d2 d3 [A1 A2 A3 A4 A5 A6] [B1 B2 B3 B4 B5 B6].
  split; [by etransitivity|intros k Hk; by rewrite B2, A2|congruence..].
Qed.
Lemma books_frame id d d' : same_setting d d' → same_books d d' → limit_frame id d d'.
Proof. intros Hs (A & B & C & D & E). split; try done. intros k _. by rewrite A. Qed.

(** Balances, statistics, dynamic data and the applied operations. *)
Lemma account_frame d d' m1 m2 m3 ops :
  d' = d <| d_balances := m1 |> <| d_statistics := m2 |> <| d_dynamic_data := m3 |> <| d_applied := ops |> →
  same_setting d d' ∧ same_books d d'.
Proof. intros ->. by split. Qed.
Definition account_step (d d' : database) : Prop :=
  ∃ m1 m2 m3 ops, d' = d <| d_balances := m1 |> <| d_statistics := m2 |> <| d_dynamic_data := m3 |> <| d_applied := ops |>.
#[export] Instance account_step_preorder : PreOrder account_step.
Proof.
  split; [intros d; exists d.(d_balances), d.(d_statistics), d.(d_dynamic_data), d.(d_applied); by destruct d|].
  intros d1 d2 d3 (m1 & m2 & m3 & ops & ->) (n1 & n2 & n3 & ops' & ->). by exists n1, n2, n3, ops'.
Qed.
Lemma account_step_frames d d' : account_step d d' → same_setting d d' ∧ same_books d d'.
Proof. intros (m1 & m2 & m3 & ops & H). by eapply account_frame. Qed.

Class Accounts (P : Prop) (d d' : database) : Prop := accounts : P → account_step d d'.
#[export] Hint Mode Accounts + - - : typeclass_instances.
Lemma step_balances d m : account_step d (d <| d_balances := m |>).
Proof. exists m, d.(d_statistics), d.(d_dynamic_data), d.(d_applied). by destruct d. Qed.
Lemma step_statistics d m : account_step d (d <| d_statistics := m |>).
Proof. exists d.(d_balances), m, d.(d_dynamic_data), d.(d_applied). by destruct d. Qed.
Lemma step_dynamic_data d m : account_step d (d <| d_dynamic_data := m |>).
Proof. exists d.(d_balances), d.(d_statistics), m, d.(d_applied). by destruct d. Qed.
Lemma step_push d op : account_step d (push_applied_operation d op).
Proof. exists d.(d_balances), d.(d_statistics), d.(d_dynamic_data), (d.(d_applied) ++ [op]). by destruct d. Qed.
#[export] Instance accounts_adjust_balance d acc delta d' : Accounts (adjust_balance d acc delta = Ok d') d d'.
Proof. intros H. rewrite (adjust_balance_frame _ _ _ _ H). apply step_balances. Qed.
#[export] Instance accounts_debit d acc delta d' : Accounts (debit d acc delta = Ok d') d d'.
Proof. intros H. rewrite (debit_frame _ _ _ _ H). apply step_balances. Qed.
#[export] Instance accounts_modify_statistics d o f d' : Accounts (modify_statistics d o f = Ok d') d d'.
Proof. intros H. rewrite (modify_statistics_frame _ _ _ _ H). apply step_statistics. Qed.
#[export] Instance accounts_modify_dynamic_data d o f d' : Accounts (modify_dynamic_data d o f = Ok d') d d'.
Proof. intros H. rewrite (modify_dynamic_data_frame _ _ _ _ H). apply step_dynamic_data. Qed.
#[export] Instance accounts_add_core d acc x d' : Accounts (add_core_in_orders d acc x = Ok d') d d'.
Proof. apply accounts_modify_statistics. Qed.
#[export] Instance accounts_sub_core d acc x d' : Accounts (sub_core_in_orders d acc x = Ok d') d d'.
Proof. apply accounts_modify_statistics. Qed.
#[export] Instance accounts_add_fees d k z d' : Accounts (add_accumulated_fees d k z = Ok d') d d'.
Proof. apply accounts_modify_dynamic_data. Qed.
#[export] Instance accounts_sub_supply d k z d' : Accounts (sub_supply d k z = Ok d') d d'.
Proof. apply accounts_modify_dynamic_data. Qed.
#[export] Instance accounts_add_supply d k z d' : Accounts (add_supply d k z = Ok d') d d'.
Proof. apply accounts_modify_dynamic_data. Qed.
#[export] Instance accounts_ok d d' : Accounts (Ok d = Ok d') d d' | 100.
Proof. intros [= ->]. reflexivity. Qed.
#[export] Instance accounts_if (b : bool) m1 m2 d d' :
  Accounts (m1 = Ok d') d d' → Accounts (m2 = Ok d') d d' → Accounts ((if b then m1 else m2) = Ok d') d d'.
Proof. intros H1 H2. destruct b; [exact H1|exact H2]. Qed.
#[export] Instance accounts_pay_order d acc r p d' : Accounts (pay_order d acc r p = Ok d') d d'.
Proof.
  unfold pay_order. intros H. apply bind_Ok in H as (d1 & H1 & H2).
  etransitivity; [exact (accounts (P:=_ = Ok _) H1)|exact (accounts (P:=_ = Ok _) H2)].
Qed.
#[export] Instance accounts_pay_market_fees d a x d' f : Accounts (pay_market_fees d a x = Ok (d', f)) d d'.
Proof.
  unfold pay_market_fees. intros H. apply bind_Ok in H as (f' & _ & H). apply bind_Ok in H as (d1 & H1 & [= -> ->]).
  exact (accounts (P:=_ = Ok _) H1).
Qed.
