(* ===== verification/Fills.v ===== *)
(** * What fills, cancellations and matches do to the books

    The operations of Market.v move value and never create any: a fill brings
    into the books what the order receives less what it pays, a cancellation
    nothing, and two orders that match nothing either.  Each touches only the
    orders it is about. *)
From S2P Require Import Prelude Safe Asset Objects Pricing Database Ledger Vesting Balance Evaluator Market.

(** ** Cancellations *)
Lemma flow_intro d d' x : (ledger_ok d → flow d d' x) → flow d d' x.
Proof. intros H Hd. by apply H. Qed.

Ltac account_steps :=
  repeat match goal with
  | H : ?P |- _ => lazymatch P with _ = Ok _ => idtac end;
      let A := fresh "A" in pose proof (accounts (P:=P) H) as A;
      let d := lazymatch type of A with account_step ?d _ => d end in
      lazymatch type of A with account_step _ ?d' => is_var d' end; revert H A
  end; intros.

Lemma setting_of_step d d' : account_step d d' → same_setting d d'.
Proof. intros H. by apply account_step_frames in H as []. Qed.
Lemma books_of_step d d' : account_step d d' → same_books d d'.
Proof. intros H. by apply account_step_frames in H as []. Qed.
Lemma frame_of_step id d d' : account_step d d' → limit_frame id d d'.
Proof. intros H. apply account_step_frames in H as []. by apply books_frame. Qed.
Lemma step_limit_order d d' id : account_step d d' → get_limit_order d' id = get_limit_order d id.
Proof. intros H. apply books_of_step in H as (E & _). unfold get_limit_order. by rewrite E. Qed.
Lemma step_assets d d' : account_step d d' → assets_ok d → assets_ok d'.
Proof. intros H. apply setting_assets. by apply setting_of_step. Qed.

Lemma deduct_cancel_fee_spec cf d o d' fee paid v :
  assets_ok d → deduct_cancel_fee cf d o = Ok (d', fee, paid, v) →
  account_step d d' ∧ (o.(lo_deferred_paid_fee).(amount) = 0 → paid = o.(lo_deferred_paid_fee)) ∧
  flow d d' (λ a, core_only a (o.(lo_deferred_fee) - fee) + of_asset a o.(lo_deferred_paid_fee) - of_asset a paid).
Proof.
  intros Ha H. unfold deduct_cancel_fee in H. destruct (0 <? _).
  2: { injection H as <- <- <- <-. split; [reflexivity|]. split; [done|]. eapply flow_ext; [apply flow_refl|]. flow_arith. }
  apply bind_Ok in H as (d1 & H1 & H). apply bind_Ok in H as (fee' & Hfee & H). inv_safe.
  pose proof (accounts (P:=_ = Ok _) H1) as A1. apply flow_stat_pay_fee in H1.
  destruct (Z.eqb_spec o.(lo_deferred_paid_fee).(amount) 0) as [Hz|Hz].
  - injection H as <- <- <- <-. split; [done|]. split; [done|]. eapply flow_ext; [exact H1|]. flow_arith.
  - apply bind_Ok in H as (c & Hc & H). apply bind_Ok in H as (fa & Hfa & H). apply bind_Ok in H as (d2 & H2 & H).
    apply bind_Ok in H as (l & Hl & [= <- <- <- <-]). inv_safe.
    pose proof (accounts (P:=_ = Ok _) H2) as A2. split; [by etransitivity|]. split; [done|].
    rewrite (dyn_id _ _ _ (step_assets _ _ A1 Ha) Hfa) in H2. apply flows in H2.
    eapply flow_ext; [exact (flow_trans _ _ _ _ _ H1 H2)|]. flow_arith.
Qed.

(** What is left of the deferred fee goes back where it came from. *)
Lemma refund_fee_spec d seller had fee paid d' :
  assets_ok d → (had = 0 → paid.(amount) = 0) →
  (if had =? 0 then adjust_balance d seller (Asset fee CORE)
   else
     d1 ← adjust_balance d seller paid;
     fee_asset ← get_asset d1 paid.(asset_id);
     modify_dynamic_data d1 fee_asset.(ao_dynamic_asset_data_id) (λ x,
       p ← safe_add x.(dd_fee_pool) fee; Ok (x <| dd_fee_pool := p |>))) = Ok d' →
  account_step d d' ∧ flow d d' (λ a, core_only a fee + of_asset a paid).
Proof.
  intros Ha Hz H. destruct (Z.eqb_spec had 0) as [E|E].
  - split; [exact (accounts (P:=_ = Ok _) H)|]. specialize (Hz E). apply flows in H. eapply flow_ext; [exact H|]. flow_arith.
  - apply bind_Ok in H as (d1 & H1 & H). apply bind_Ok in H as (fa & Hfa & H2).
    pose proof (accounts (P:=_ = Ok _) H1) as A1. pose proof (accounts (P:=_ = Ok _) H2) as A2. split; [by etransitivity|].
    apply flows in H1.
    assert (flow d1 d' (λ a, core_only a fee)) as F by (eapply flow_modify_dynamic_data; [exact H2|solve_dyn]).
    eapply flow_ext; [exact (flow_trans _ _ _ _ _ H1 F)|]. flow_arith.
Qed.

Lemma removed_limit_frame d id d' : remove_limit_order d id = Ok d' → limit_frame id d d' ∧ d'.(d_limit_orders).(objs) !! id = None.
Proof.
  unfold remove_limit_order. intros H. apply bind_Ok in H as (i & Hi & [= <-]). apply index_remove_Ok in Hi as (o & Ho & ->).
  split; [|by apply lookup_delete_eq]. split; try done. intros k Hk. cbn. by rewrite lookup_delete_ne.
Qed.

Lemma cancel_limit_order_spec cf d id vop skip d' :
  assets_ok d → cancel_limit_order cf d id vop skip = Ok d' →
  conserves d d' ∧ limit_frame id d d' ∧ d'.(d_limit_orders).(objs) !! id = None.
Proof.
  intros Ha H. unfold cancel_limit_order in H. apply bind_Ok in H as (o & Ho & H).
  apply bind_Ok in H as ([[[d1 fee] paid] v] & Hd & H).
  assert (account_step d d1 ∧ (o.(lo_deferred_paid_fee).(amount) = 0 → paid = o.(lo_deferred_paid_fee)) ∧
    flow d d1 (λ a, core_only a (o.(lo_deferred_fee) - fee) + of_asset a o.(lo_deferred_paid_fee) - of_asset a paid)) as (A1 & Hpaid & F1).
  { destruct (_ && _); [by eapply deduct_cancel_fee_spec|]. injection Hd as <- <- <- <-. split; [reflexivity|]. split; [done|].
    eapply flow_ext; [apply flow_refl|]. flow_arith. }
  apply bind_Ok in H as (d2 & H2 & H). apply bind_Ok in H as (d3 & H3 & H). apply bind_Ok in H as (d4 & H4 & H).
  assert (account_step d1 d2 ∧ flow d1 d2 (λ _, 0)) as [A2 F2].
  { split; [exact (accounts (P:=_ = Ok _) H2)|]. destruct (_ =? _); [exact (flows (P:=_ = Ok _) H2)|].
    injection H2 as <-. apply flow_refl. }
  pose proof (accounts (P:=_ = Ok _) H3) as A3. apply flows in H3.
  assert (account_step d d3) as A by (repeat (etransitivity; [eassumption|]); reflexivity).
  apply refund_fee_spec in H4 as [A4 F4]; [|by apply (step_assets _ _ A)|intros E; by rewrite Hpaid].
  set (d5 := if vop then _ else d4) in H.
  assert (account_step d4 d5 ∧ flow d4 d5 (λ _, 0)) as [A5 F5].
  { subst d5. destruct vop; [split; [apply step_push|apply flow_push]|split; [reflexivity|apply flow_refl]]. }
  assert (account_step d d5) as A' by (repeat (etransitivity; [eassumption|]); reflexivity).
  destruct (removed_limit_frame _ _ _ H) as [Hf Hgone].
  assert (get_limit_order d5 id = Ok o) as Ho5 by (rewrite (step_limit_order _ _ _ A'); exact Ho).
  pose proof (flow_remove_limit _ _ _ _ H Ho5) as F6. clear H. split; [|split; [|done]].
  - flow_chain. eapply flow_ext; [eassumption|]. intros a. cbn beta. unfold limit_held. flow_arith.
  - etransitivity; [apply (frame_of_step _ _ _ A')|done].
Qed.

Lemma maybe_cull_spec cf d id d' b :
  assets_ok d → maybe_cull_small_order cf d id = Ok (d', b) →
  conserves d d' ∧ limit_frame id d d' ∧ (if b then d'.(d_limit_orders).(objs) !! id = None
   else d' = d ∧ ∃ o x, get_limit_order d id = Ok o ∧ asset_mul (amount_for_sale o) o.(lo_sell_price) = Ok x ∧ x.(amount) ≠ 0).
Proof.
  intros Ha H. unfold maybe_cull_small_order in H. apply bind_Ok in H as (o & Ho & H). apply bind_Ok in H as (x & Hx & H).
  destruct (Z.eqb_spec x.(amount) 0).
  - apply bind_Ok in H as (d1 & H1 & [= <- <-]). by apply cancel_limit_order_spec in H1.
  - injection H as <- <-. split; [apply flow_refl|]. split; [reflexivity|]. split; [done|]. by exists o, x.
Qed.

(** ** The frame of a settlement order and of a margin position *)
Record settle_frame (id : Z) (d d' : database) : Prop := {
  sf_setting : same_setting d d';
  sf_limit : d'.(d_limit_orders) = d.(d_limit_orders);
  sf_call : d'.(d_call_orders) = d.(d_call_orders);
  sf_settlements : same_but id d.(d_settlements) d'.(d_settlements);
  sf_bids : d'.(d_collateral_bids) = d.(d_collateral_bids);
  sf_bitasset : d'.(d_bitasset_data) = d.(d_bitasset_data) }.
#[export] Instance settle_frame_preorder id : PreOrder (settle_frame id).
Proof.
  split; [by split|]. intros d1 d2 d3 [A1 A2 A3 A4 A5 A6] [B1 B2 B3 B4 B5 B6].
  split; [by etransitivity|congruence|congruence|intros k Hk; by rewrite B4, A4|congruence..].
Qed.
Record call_frame (id : Z) (d d' : database) : Prop := {
  cf_setting : same_setting d d';
  cf_limit : d'.(d_limit_orders) = d.(d_limit_orders);
  cf_call : same_but id d.(d_call_orders) d'.(d_call_orders);
  cf_settlements : d'.(d_settlements) = d.(d_settlements);
  cf_bids : d'.(d_collateral_bids) = d.(d_collateral_bids);
  cf_bitasset : d'.(d_bitasset_data) = d.(d_bitasset_data) }.
#[export] Instance call_frame_preorder id : PreOrder (call_frame id).
Proof.
  split; [by split|]. intros d1 d2 d3 [A1 A2 A3 A4 A5 A6] [B1 B2 B3 B4 B5 B6].
  split; [by etransitivity|congruence|intros k Hk; by rewrite B3, A3|congruence..].
Qed.
Lemma settle_frame_of_step id d d' : account_step d d' → settle_frame id d d'.
Proof. intros H. apply account_step_frames in H as [Hs (A & B & C & D & E)]. split; try done. intros k _. by rewrite C. Qed.
Lemma call_frame_of_step id d d' : account_step d d' → call_frame id d d'.
Proof. intros H. apply account_step_frames in H as [Hs (A & B & C & D & E)]. split; try done. intros k _. by rewrite B. Qed.

Lemma same_but_modify {V} (i : index V) id v : same_but id i (Index (<[id:=v]> i.(objs)) i.(next_id)).
Proof. intros k Hk. cbn. by rewrite lookup_insert_ne. Qed.
Lemma same_but_remove {V} (i : index V) id : same_but id i (Index (delete id i.(objs)) i.(next_id)).
Proof. intros k Hk. cbn. by rewrite lookup_delete_ne. Qed.

Lemma cancel_settle_order_spec d id d' :
  cancel_settle_order d id = Ok d' →
  conserves d d' ∧ settle_frame id d d' ∧ d'.(d_settlements).(objs) !! id = None.
Proof.
  unfold cancel_settle_order. intros H. apply bind_Ok in H as (o & Ho & H). apply bind_Ok in H as (d1 & H1 & H).
  pose proof (accounts (P:=_ = Ok _) H1) as A1. apply flows in H1.
  pose proof (flow_push d1 (asset_settle_cancel_op id o.(fs_owner) o.(fs_balance))) as F2.
  set (d2 := push_applied_operation d1 _) in *.
  assert (account_step d d2) as A2 by (etransitivity; [exact A1|apply step_push]).
  assert (get_settlement d2 id = Ok o) as Ho2.
  { unfold get_settlement. apply books_of_step in A2 as (_ & _ & E & _). by rewrite E. }
  pose proof (flow_remove_settlement _ _ _ _ H Ho2) as F3. split.
  - flow_chain. eapply flow_ext; [eassumption|]. intros a. cbn beta. lia.
  - unfold remove_settlement in H. apply bind_Ok in H as (i & Hi & [= <-]). apply index_remove_Ok in Hi as (o' & _ & ->).
    split; [|by apply lookup_delete_eq]. etransitivity; [by apply (settle_frame_of_step id), A2|].
    split; try done. cbn. apply same_but_remove.
Qed.

Lemma limit_frame_step id d d' : limit_frame id d d' → assets_ok d → assets_ok d'.
Proof. intros []. by apply setting_assets. Qed.
Lemma modified_limit_frame d id f d' : modify_limit_order d id f = Ok d' → limit_frame id d d'.
Proof.
  unfold modify_limit_order. intros H. apply bind_Ok in H as (i & Hi & [= <-]). apply index_modify_Ok in Hi as (o & o' & _ & _ & ->).
  split; try done. apply same_but_modify.
Qed.

(** ** Fills *)
Section fills.
Context (cf : Z).
Implicit Types (d : database).

(** Whether an order is gone. *)
Definition limit_gone d (id : Z) : bool := bool_decide (d.(d_limit_orders).(objs) !! id = None).
Definition call_gone d (id : Z) : bool := bool_decide (d.(d_call_orders).(objs) !! id = None).
Definition settle_gone d (id : Z) : bool := bool_decide (d.(d_settlements).(objs) !! id = None).

Lemma asset_sub_Ok x y z : asset_sub x y = Ok z → y.(asset_id) = x.(asset_id) ∧ z = Asset (x.(amount) - y.(amount)) x.(asset_id).
Proof. unfold asset_sub. intros H. inv_ok. inv_safe. propify. done. Qed.

(** The receiver is paid and the issuer gets the fee. *)
Lemma receive_spec d receiver recv receives pays d1 fees net d2 :
  assets_ok d → get_asset d receives.(asset_id) = Ok recv → amount_in receives →
  pay_market_fees d recv receives = Ok (d1, fees) → asset_sub receives fees = Ok net →
  pay_order d1 receiver net pays = Ok d2 →
  account_step d d2 ∧ flow d d2 (λ a, of_asset a receives).
Proof.
  intros Ha Hr Hin H1 Hnet H2. pose proof (accounts (P:=_ = Ok _) H1) as A1. pose proof (accounts (P:=_ = Ok _) H2) as A2.
  destruct (pay_market_fees_spec _ _ _ _ _ Ha Hr Hin H1) as (Hid & _ & F1 & _).
  apply asset_sub_Ok in Hnet as [_ ->]. destruct (pay_order_spec _ _ _ _ _ H2) as [F2 _].
  split; [by etransitivity|]. eapply flow_ext; [exact (flow_trans _ _ _ _ _ F1 F2)|]. flow_arith.
Qed.

(** The order itself: gone when it is filled, reduced and rid of its fees otherwise. *)
Definition reduce_order (pays : Z) (b : limit_order_object) : result limit_order_object :=
  s ← safe_sub b.(lo_for_sale) pays;
  Ok (b <| lo_for_sale := s |> <| lo_deferred_fee := 0 |>
        <| lo_deferred_paid_fee := Asset 0 b.(lo_deferred_paid_fee).(asset_id) |>).

Lemma reduce_limit_spec d id o pays d' :
  get_limit_order d id = Ok o → modify_limit_order d id (reduce_order pays) = Ok d' →
  limit_frame id d d' ∧
  d'.(d_limit_orders).(objs) !! id = Some (o <| lo_for_sale := o.(lo_for_sale) - pays |> <| lo_deferred_fee := 0 |>
        <| lo_deferred_paid_fee := Asset 0 o.(lo_deferred_paid_fee).(asset_id) |>) ∧
  flow d d' (λ a, - of_asset a (Asset pays (sell_asset_id o)) - core_only a o.(lo_deferred_fee) - of_asset a o.(lo_deferred_paid_fee)).
Proof.
  intros Ho H. pose proof H as H'. apply flow_modify_limit in H' as (o1 & o2 & Ho1 & Ho2 & F).
  2: { intros x x' Hx [H1 H2]. unfold reduce_order in Hx. inv_ok. split; cbn; lia. }
  same_ok. unfold reduce_order in Ho2. apply bind_Ok in Ho2 as (s & Hs & [= <-]). apply safe_sub_Ok in Hs as ->.
  unfold modify_limit_order in H. apply bind_Ok in H as (i & Hi & [= <-]).
  apply index_modify_Ok in Hi as (x & x' & Hx & Hx' & ->). apply index_get_Ok in Ho. rewrite Ho in Hx. injection Hx as <-.
  unfold reduce_order in Hx'. apply bind_Ok in Hx' as (s & Hs & [= <-]). apply safe_sub_Ok in Hs as ->.
  split; [|split].
  - split; try done. apply same_but_modify.
  - cbn. by rewrite lookup_insert_eq.
  - eapply flow_ext; [exact F|]. intros a. cbn beta. unfold limit_held, amount_for_sale, sell_asset_id. flow_arith.
Qed.

(** A limit order is filled: what it receives enters the books, what it pays
    leaves them; when the order stays, it keeps its price. *)
Lemma fill_limit_order_spec d id pays receives cull fp mk d' b :
  assets_ok d → amount_in receives → fill_limit_order cf d id pays receives cull fp mk = Ok (d', b) →
  flow d d' (λ a, of_asset a receives - of_asset a pays) ∧ limit_frame id d d' ∧
  ∃ o, get_limit_order d id = Ok o ∧ sell_asset_id o = pays.(asset_id) ∧
    if b then d'.(d_limit_orders).(objs) !! id = None
    else d'.(d_limit_orders).(objs) !! id = Some (o <| lo_for_sale := o.(lo_for_sale) - pays.(amount) |>
      <| lo_deferred_fee := 0 |> <| lo_deferred_paid_fee := Asset 0 o.(lo_deferred_paid_fee).(asset_id) |>).
Proof using Type.
  intros Ha Hin H. unfold fill_limit_order in H.
  apply bind_Ok in H as (o & Ho & H). apply bind_Ok in H as (u1 & Hu1 & H). apply bind_Ok in H as (u2 & _ & H).
  apply FC_ASSERT_Ok in Hu1. apply Z.eqb_eq in Hu1.
  apply bind_Ok in H as (acc & _ & H). apply bind_Ok in H as (recv & Hrecv & H).
  apply bind_Ok in H as ([d1 fees] & H1 & H). apply bind_Ok in H as (net & Hnet & H). apply bind_Ok in H as (d2 & H2 & H).
  destruct (receive_spec _ _ _ _ _ _ _ _ _ Ha Hrecv Hin H1 Hnet H2) as [A2 F2]. clear H1 H2 Hnet.
  pose proof (flow_push d2 (fill_order_op id o.(lo_seller) pays receives fees fp mk)) as F3.
  pose proof (step_push d2 (fill_order_op id o.(lo_seller) pays receives fees fp mk)) as A3.
  set (d3 := push_applied_operation d2 _) in *.
  apply bind_Ok in H as (d4 & H4 & H). apply bind_Ok in H as (d5 & H5 & H).
  assert (account_step d d3) as A by (etransitivity; eassumption).
  assert (account_step d3 d5) as A5.
  { etransitivity; [exact (accounts (P:=_ = Ok _) H4)|]. destruct (0 <? o.(lo_deferred_paid_fee).(amount)); [|injection H5 as <-; reflexivity].
    apply bind_Ok in H5 as (fa & _ & H5). exact (accounts (P:=_ = Ok _) H5). }
  assert (account_step d d5) as A' by (etransitivity; eassumption).
  assert (ledger_ok d → flow d d5 (λ a, of_asset a receives + (core_only a o.(lo_deferred_fee) + of_asset a o.(lo_deferred_paid_fee)))) as F5.
  { intros Hd. apply index_get_Ok in Ho. pose proof (lok_limit_orders _ Hd _ _ Ho) as Hok.
    destruct (deferred_fees_spec _ _ _ _ (step_assets _ _ A Ha) Hok H4 H5) as [F5 _].
    flow_chain. eapply flow_ext; [eassumption|]. intros a. cbn beta. lia. }
  assert (get_limit_order d5 id = Ok o) as Ho5 by (rewrite (step_limit_order _ _ _ A'); exact Ho).
  pose proof (frame_of_step id _ _ A') as L5. destruct (asset_eqb pays (amount_for_sale o)) eqn:Epays.
  - apply asset_eqb_eq in Epays. apply bind_Ok in H as (d6 & H6 & [= <- <-]). destruct (removed_limit_frame _ _ _ H6) as [L6 Hgone].
    split; [|split; [by etransitivity|by exists o]]. apply flow_intro. intros Hd. specialize (F5 Hd).
    pose proof (flow_remove_limit _ _ _ _ H6 Ho5) as F6. eapply flow_ext; [exact (flow_trans _ _ _ _ _ F5 F6)|].
    intros a. cbn beta. unfold limit_held. rewrite Epays. lia.
  - apply bind_Ok in H as (d6 & H6 & H). destruct (reduce_limit_spec _ _ _ _ _ Ho5 H6) as (L6 & Hleft & F6).
    assert (ledger_ok d → flow d d6 (λ a, of_asset a receives - of_asset a pays)) as F.
    { intros Hd. specialize (F5 Hd). eapply flow_ext; [exact (flow_trans _ _ _ _ _ F5 F6)|]. intros a. cbn beta.
      replace pays with (Asset pays.(amount) (sell_asset_id o)) by (unfold sell_asset_id; destruct pays; cbn in *; by rewrite <-Hu1).
      cbn [amount]. lia. }
    assert (limit_frame id d d6) as L by (etransitivity; eassumption).
    destruct (_ || _).
    + apply maybe_cull_spec in H as (F7 & L7 & Hb); [|eapply setting_assets; [apply L|done]].
      split; [|split; [by etransitivity|exists o; split; [done|split; [done|]]]].
      * apply flow_intro. intros Hd. specialize (F Hd). eapply flow_ext; [exact (flow_trans _ _ _ _ _ F F7)|]. intros a. cbn beta. lia.
      * destruct b; [done|]. by destruct Hb as [-> _].
    + injection H as <- <-. split; [by apply flow_intro|]. split; [done|]. by exists o.
Qed.


(** An order that is to be culled and stays would still buy something. *)
Lemma fill_limit_kept d id pays receives fp mk d' :
  assets_ok d → fill_limit_order cf d id pays receives true fp mk = Ok (d', false) →
  ∃ o x, get_limit_order d' id = Ok o ∧ asset_mul (amount_for_sale o) o.(lo_sell_price) = Ok x ∧ x.(amount) ≠ 0.
Proof using Type.
  intros Ha H. unfold fill_limit_order in H.
  apply bind_Ok in H as (o & Ho & H). do 2 apply bind_Ok in H as (? & _ & H).
  apply bind_Ok in H as (acc & _ & H). apply bind_Ok in H as (recv & _ & H).
  apply bind_Ok in H as ([d1 fees] & H1 & H). apply bind_Ok in H as (net & _ & H). apply bind_Ok in H as (d2 & H2 & H).
  apply bind_Ok in H as (d4 & H4 & H). apply bind_Ok in H as (d5 & H5 & H).
  destruct (asset_eqb _ _); [by apply bind_Ok in H as (? & _ & [=])|]. apply bind_Ok in H as (d6 & H6 & H). cbn [orb] in H.
  assert (assets_ok d6) as Ha6.
  { eapply limit_frame_step with (id := id); [|exact Ha].
    etransitivity; [apply frame_of_step, (accounts (P:=_ = Ok _) H1)|]. etransitivity; [apply frame_of_step, (accounts (P:=_ = Ok _) H2)|].
    etransitivity; [apply frame_of_step, step_push|]. etransitivity; [apply frame_of_step, (accounts (P:=_ = Ok _) H4)|].
    etransitivity; [|by eapply modified_limit_frame].
    destruct (0 <? o.(lo_deferred_paid_fee).(amount)); [|injection H5 as <-; reflexivity].
    apply bind_Ok in H5 as (fa & _ & H5). apply frame_of_step, (accounts (P:=_ = Ok _) H5). }
  apply maybe_cull_spec in H as (_ & _ & -> & o' & v & Ho' & Hx & Hz); [|done]. by exists o', v.
Qed.
End fills.

(** A margin position after a fill. *)
Definition position_after (o : call_order_object) (pays receives : Z) (o' : call_order_object) (freed : option asset) : Prop :=
  debt_type o' = debt_type o ∧ collateral_type o' = collateral_type o ∧ o'.(cl_borrower) = o.(cl_borrower) ∧
  o'.(cl_target_collateral_ratio) = o.(cl_target_collateral_ratio) ∧ o'.(cl_debt) = o.(cl_debt) - receives ∧
  match freed with
  | Some f => o.(cl_debt) = receives ∧ f = Asset (o.(cl_collateral) - pays) (collateral_type o) ∧ o'.(cl_collateral) = 0
  | None => o.(cl_debt) ≠ receives ∧ o'.(cl_collateral) = o.(cl_collateral) - pays
  end.

Lemma call_price_types debt collateral r p :
  call_price debt collateral r = Ok p → p.(base).(asset_id) = collateral.(asset_id) ∧ p.(quote).(asset_id) = debt.(asset_id).
Proof.
  unfold call_price. intros H. repeat (apply bind_Ok in H as (? & _ & H)). unfold make_price in H. inv_ok. done.
Qed.

Lemma fill_position_spec b mcr o pays receives o' freed :
  fill_position b mcr o pays receives = Ok (o', freed) → position_after o pays receives o' freed.
Proof.
  unfold fill_position. intros H. apply bind_Ok in H as (debt & Hd & H). apply bind_Ok in H as (coll & Hc & H).
  apply safe_sub_Ok in Hd as ->. apply safe_sub_Ok in Hc as ->. destruct (Z.eqb_spec (o.(cl_debt) - receives) 0) as [E|E].
  - injection H as <- <-. unfold position_after. cbn. split_and!; try done. lia.
  - destruct b.
    + apply bind_Ok in H as (r & _ & H). apply bind_Ok in H as (p & Hp & [= <- <-]). apply call_price_types in Hp as [E1 E2].
      unfold position_after, debt_type, collateral_type in *. cbn in *. split_and!; try done. lia.
    + injection H as <- <-. unfold position_after. cbn. split_and!; try done. lia.
Qed.

Lemma modified_call_frame d id f d' :
  modify_call_order d id f = Ok d' →
  call_frame id d d' ∧ ∃ o o', get_call_order d id = Ok o ∧ f o = Ok o' ∧ d'.(d_call_orders).(objs) !! id = Some o'.
Proof.
  unfold modify_call_order. intros H. apply bind_Ok in H as (i & Hi & [= <-]). apply index_modify_Ok in Hi as (o & o' & Ho & Ho' & ->).
  split; [split; try done; apply same_but_modify|]. exists o, o'. split; [by apply index_get_Ok|]. split; [done|]. apply lookup_insert_eq.
Qed.
Lemma removed_call_frame d id d' :
  remove_call_order d id = Ok d' → call_frame id d d' ∧ d'.(d_call_orders).(objs) !! id = None.
Proof.
  unfold remove_call_order. intros H. apply bind_Ok in H as (i & Hi & [= <-]). apply index_remove_Ok in Hi as (o & _ & ->).
  split; [split; try done; apply same_but_remove|apply lookup_delete_eq].
Qed.

(** The collateral that is freed, and what the core asset in orders shrinks by. *)
Lemma freed_spec d borrower pays freed d1 d2 :
  match freed with Some f => adjust_balance d borrower f | None => Ok d end = Ok d1 →
  (if pays.(asset_id) =? CORE then
     d' ← sub_core_in_orders d1 borrower pays;
     match freed with Some f => sub_core_in_orders d' borrower f | None => Ok d' end
   else Ok d1) = Ok d2 →
  account_step d d2 ∧ flow d d2 (λ a, of_asset a (default (Asset 0 CORE) freed)).
Proof.
  intros H1 H2.
  assert (account_step d d1 ∧ flow d d1 (λ a, of_asset a (default (Asset 0 CORE) freed))) as [A1 F1].
  { destruct freed as [f|]; [split; [exact (accounts (P:=_ = Ok _) H1)|exact (flows (P:=_ = Ok _) H1)]|].
    injection H1 as <-. split; [reflexivity|]. eapply flow_ext; [apply flow_refl|]. flow_arith. }
  assert (account_step d1 d2 ∧ flow d1 d2 (λ _, 0)) as [A2 F2].
  { destruct (_ =? _); [|injection H2 as <-; split; [reflexivity|apply flow_refl]].
    apply bind_Ok in H2 as (d' & H2 & H3). destruct freed as [f|].
    - split; [etransitivity; [exact (accounts (P:=_ = Ok _) H2)|exact (accounts (P:=_ = Ok _) H3)]|].
      apply flows in H2. apply flows in H3. eapply flow_ext; [exact (flow_trans _ _ _ _ _ H2 H3)|]. done.
    - injection H3 as <-. split; [exact (accounts (P:=_ = Ok _) H2)|exact (flows (P:=_ = Ok _) H2)]. }
  split; [by etransitivity|]. eapply flow_ext; [exact (flow_trans _ _ _ _ _ F1 F2)|]. intros a. cbn beta. lia.
Qed.

(** A margin position is filled: it pays collateral and what it receives is burnt. *)
Lemma fill_call_order_spec d id pays receives fp mk d' b :
  assets_ok d → fill_call_order d id pays receives fp mk = Ok (d', b) →
  flow d d' (λ a, of_asset a receives - of_asset a pays) ∧ call_frame id d d' ∧
  ∃ o, get_call_order d id = Ok o ∧ debt_type o = receives.(asset_id) ∧ collateral_type o = pays.(asset_id) ∧
    pays.(amount) ≤ o.(cl_collateral) ∧
    if b then o.(cl_debt) = receives.(amount) ∧ d'.(d_call_orders).(objs) !! id = None
    else ∃ o', d'.(d_call_orders).(objs) !! id = Some o' ∧ position_after o pays.(amount) receives.(amount) o' None.
Proof.
  intros Ha H. unfold fill_call_order in H. apply bind_Ok in H as (o & Ho & H).
  apply bind_Ok in H as (u1 & U1 & H). apply bind_Ok in H as (u2 & U2 & H). apply bind_Ok in H as (u3 & U3 & H).
  apply FC_ASSERT_Ok in U1, U2, U3. propify.
  apply bind_Ok in H as (mia & Hmia & H). apply bind_Ok in H as (u4 & _ & H). apply bind_Ok in H as ([o' freed] & Hp & H).
  apply fill_position_spec in Hp as Hafter. destruct Hafter as (T1 & T2 & _ & _ & D & Hfreed).
  apply bind_Ok in H as (d1 & H1 & H). apply bind_Ok in H as (d2 & H2 & H). apply bind_Ok in H as (d3 & H3 & H).
  apply bind_Ok in H as (d4 & H4 & H). destruct (modified_call_frame _ _ _ _ H1) as [L1 (o1 & o1' & E1 & [= <-] & Hafter1)].
  apply flow_modify_call in H1 as (o2 & o2' & E2 & [= <-] & F1). rewrite Ho in E2. injection E2 as <-.
  pose proof (accounts (P:=_ = Ok _) H2) as A2. rewrite (dyn_id _ _ _ Ha Hmia) in H2. apply flows in H2.
  destruct (freed_spec _ _ _ _ _ _ H3 H4) as [A4 F4].
  pose proof (flow_push d4 (fill_order_op id o.(cl_borrower) pays receives (Asset 0 pays.(asset_id)) fp mk)) as F5.
  pose proof (step_push d4 (fill_order_op id o.(cl_borrower) pays receives (Asset 0 pays.(asset_id)) fp mk)) as A5.
  set (d5 := push_applied_operation d4 _) in *.
  assert (account_step d1 d5) as A by (repeat (etransitivity; [eassumption|]); reflexivity).
  assert (call_frame id d d5) as L5 by (etransitivity; [exact L1|by apply call_frame_of_step]).
  assert (d5.(d_call_orders).(objs) !! id = Some o') as Hid by (apply books_of_step in A as (_ & -> & _); done).
  flow_chain. destruct freed as [f|]; destruct Hfreed as (Hd & Hf).
  - destruct Hf as [-> Hz]. apply bind_Ok in H as (d6 & H6 & [= <- <-]). destruct (removed_call_frame _ _ _ H6) as [L6 G6].
    assert (get_call_order d5 id = Ok o') as Ho5 by (by apply index_get_Ok). pose proof (flow_remove_call _ _ _ _ H6 Ho5) as F6.
    split; [|split; [by etransitivity|exists o; split_and!; try done; lia]].
    flow_chain. eapply flow_ext; [eassumption|]. intros a. cbn beta. unfold get_collateral. rewrite Hz, T2. flow_arith.
  - injection H as <- <-. split; [|split; [done|exists o; do 4 (split; [first [done|lia]|])]].
    + eapply flow_ext; [eassumption|]. intros a. cbn beta. unfold get_collateral. rewrite Hf, T2. flow_arith.
    + exists o'. split; [done|]. by apply (fill_position_spec _ _ _ _ _ _ _ Hp).
Qed.

(** A settlement order pays what it holds and receives collateral. *)
Lemma fill_settle_order_spec d id pays receives fp mk d' b :
  assets_ok d → amount_in receives → fill_settle_order d id pays receives fp mk = Ok (d', b) →
  (∀ s, get_settlement d id = Ok s → pays.(amount) ≤ s.(fs_balance).(amount)) →
  flow d d' (λ a, of_asset a receives - of_asset a pays) ∧ settle_frame id d d' ∧
  ∃ s, get_settlement d id = Ok s ∧ s.(fs_balance).(asset_id) = pays.(asset_id) ∧
    if b then s.(fs_balance) = pays ∧ d'.(d_settlements).(objs) !! id = None
    else ∃ s', d'.(d_settlements).(objs) !! id = Some s' ∧ s'.(fs_owner) = s.(fs_owner) ∧
      s'.(fs_balance) = Asset (s.(fs_balance).(amount) - pays.(amount)) pays.(asset_id).
Proof.
  intros Ha Hin H Hle. unfold fill_settle_order in H. apply bind_Ok in H as (o & Ho & H). apply bind_Ok in H as (recv & Hrecv & H).
  specialize (Hle o Ho). apply bind_Ok in H as ([d1 fees] & H1 & H). apply bind_Ok in H as (part & Hpart & H).
  apply bind_Ok in H as (d2 & H2 & H). apply bind_Ok in H as (net & Hnet & H). apply bind_Ok in H as (d3 & H3 & H).
  pose proof (accounts (P:=_ = Ok _) H1) as A1. pose proof (accounts (P:=_ = Ok _) H3) as A3.
  destruct (pay_market_fees_spec _ _ _ _ _ Ha Hrecv Hin H1) as (Hid & _ & F1 & _). apply asset_sub_Ok in Hnet as [_ ->].
  pose proof (flow_push d3 (fill_order_op id o.(fs_owner) pays receives fees fp mk)) as F4.
  pose proof (step_push d3 (fill_order_op id o.(fs_owner) pays receives fees fp mk)) as A4.
  set (d4 := push_applied_operation d3 _) in *. apply flows in H3.
  assert (get_settlement d1 id = Ok o) as Ho1 by (unfold get_settlement; apply books_of_step in A1 as (_ & _ & -> & _); done).
  unfold asset_lt in Hpart. apply bind_Ok in Hpart as (u & Hu & [= <-]). apply FC_ASSERT_Ok in Hu. apply Z.eqb_eq in Hu.
  destruct (Z.ltb_spec pays.(amount) o.(fs_balance).(amount)) as [Hlt|Hge].
  - injection H as <- <-. pose proof H2 as H2'. apply flow_modify_settlement in H2' as (s & s' & Es & Es' & F2).
    rewrite Ho1 in Es. injection Es as <-. apply bind_Ok in Es' as (bal & Hbal & [= <-]). apply asset_sub_Ok in Hbal as [_ ->].
    unfold modify_settlement in H2. apply bind_Ok in H2 as (i & Hi & [= <-]). apply index_modify_Ok in Hi as (s & s' & Hs & Hs' & ->).
    apply index_get_Ok in Ho1. rewrite Ho1 in Hs. injection Hs as <-. apply bind_Ok in Hs' as (bal & Hbal & [= <-]). apply asset_sub_Ok in Hbal as [_ ->].
    split; [|split].
    + flow_chain. eapply flow_ext; [eassumption|]. intros a. cbn beta. flow_arith.
    + etransitivity; [by apply settle_frame_of_step, A1|]. etransitivity; [|apply settle_frame_of_step; etransitivity; [exact A3|exact A4]].
      split; try done. cbn. apply same_but_modify.
    + exists o. split; [done|]. split; [done|]. eexists. split; [|split; [|]].
      * assert (account_step _ d4) as A by (etransitivity; [exact A3|exact A4]). apply books_of_step in A as (_ & _ & -> & _). cbn. apply lookup_insert_eq.
      * done.
      * cbn. by rewrite Hu.
  - injection H2 as <-. apply bind_Ok in H as (d5 & H5 & [= <- <-]).
    assert (account_step d d4) as A by (repeat (etransitivity; [eassumption|]); reflexivity).
    assert (get_settlement d4 id = Ok o) as Ho4 by (unfold get_settlement; apply books_of_step in A as (_ & _ & -> & _); done).
    pose proof (flow_remove_settlement _ _ _ _ H5 Ho4) as F5.
    assert (o.(fs_balance) = pays) as Hall by (destruct o as [? [? ?] ?], pays; cbn in *; f_equal; lia).
    split; [|split].
    + flow_chain. eapply flow_ext; [eassumption|]. intros a. cbn beta. rewrite Hall. flow_arith.
    + etransitivity; [by apply settle_frame_of_step, A|]. unfold remove_settlement in H5.
      apply bind_Ok in H5 as (i & Hi & [= <-]). apply index_remove_Ok in Hi as (s & _ & ->). split; try done. cbn. apply same_but_remove.
    + exists o. split; [done|]. split; [done|]. split; [done|]. unfold remove_settlement in H5.
      apply bind_Ok in H5 as (i & Hi & [= <-]). apply index_remove_Ok in Hi as (s & _ & ->). apply lookup_delete_eq.
Qed.

(** ** Amounts *)
Lemma scale_in x n m r : scale_down x n m = Ok r ∨ scale_up x n m = Ok r → 0 ≤ r ≤ GRAPHENE_MAX_SHARE_SUPPLY.
Proof.
  unfold scale_down, scale_up. intros [H|H]; inv_ok; propify; (split; [|done]); apply Z.div_pos; try lia.
  - apply Z.mod_pos_bound. unfold uint128_mod. lia.
  - apply Z.mod_pos_bound. unfold uint128_mod. lia.
Qed.
Definition amount_out (x : asset) : Prop := 0 ≤ x.(amount) ≤ GRAPHENE_MAX_SHARE_SUPPLY.
Lemma amount_out_in x : amount_out x → amount_in x.
Proof. unfold amount_out, amount_in, GRAPHENE_MAX_SHARE_SUPPLY, int64_max. lia. Qed.
Lemma asset_mul_out x p r : asset_mul x p = Ok r ∨ multiply_and_round_up x p = Ok r → amount_out r.
Proof.
  unfold asset_mul, multiply_and_round_up, asset_mul_with.
  intros [H|H]; inv_ok; unfold amount_out; cbn [amount]; eapply scale_in; eauto.
Qed.
Lemma asset_mul_sides x p r : asset_mul x p = Ok r ∨ multiply_and_round_up x p = Ok r →
  x.(asset_id) = p.(base).(asset_id) ∧ r.(asset_id) = p.(quote).(asset_id) ∨
  x.(asset_id) = p.(quote).(asset_id) ∧ r.(asset_id) = p.(base).(asset_id).
Proof. unfold asset_mul, multiply_and_round_up, asset_mul_with. intros [H|H]; inv_ok; propify; cbn; auto. Qed.

Lemma limit_amounts_out t u c p x y b :
  limit_amounts t u c p = Ok (Some (x, y, b)) → HARDFORK_CORE_342_TIME < t ∨ amount_in u ∧ amount_in c →
  amount_in x ∧ amount_in y.
Proof.
  intros H Hc. unfold limit_amounts in H. apply bind_Ok in H as (cp & Hcp & H). apply bind_Ok in H as (sm & _ & H). destruct sm.
  - apply bind_Ok in H as (ur & Hur & H). destruct (_ && _); [done|].
    assert (amount_in ur) by (apply amount_out_in; eapply asset_mul_out; eauto).
    destruct (Z.leb_spec t HARDFORK_CORE_342_TIME).
    + injection H as <- <- <-. destruct Hc as [|[]]; [lia|done].
    + apply bind_Ok in H as (cr & Hcr & [= <- <- <-]). split; [done|]. apply amount_out_in. eapply asset_mul_out; eauto.
  - apply bind_Ok in H as (cr & Hcr & H). apply bind_Ok in H as (ur & Hur & [= <- <- <-]).
    split; [|apply amount_out_in; eapply asset_mul_out; eauto].
    destruct (Z.leb_spec t HARDFORK_CORE_342_TIME); [|apply amount_out_in; eapply asset_mul_out; eauto].
    injection Hur as <-. destruct Hc as [|[]]; [lia|done].
Qed.

Lemma call_amounts_out t u c p x y b : call_amounts t u c p = Ok (Some (x, y, b)) → amount_in x.
Proof.
  intros H. unfold call_amounts in H. apply bind_Ok in H as (sm & _ & H). apply amount_out_in. destruct sm; cbn [negb] in H.
  - destruct (_ <=? HARDFORK_CORE_342_TIME).
    + apply bind_Ok in H as (r & Hr & H). destruct (_ && _); [done|]. injection H as <- <- <-. eapply asset_mul_out; eauto.
    + apply bind_Ok in H as (r & Hr & [= <- <- <-]). eapply asset_mul_out; eauto.
  - apply bind_Ok in H as (r & Hr & H). destruct (_ && _); [done|].
    enough (x = r) as -> by (eapply asset_mul_out; eauto).
    destruct (_ <=? _); [by injection H as <- <- <-|]. by apply bind_Ok in H as (? & _ & [= <- <- <-]).
Qed.

(** ** Worth

    At a price, an amount of either asset has a worth in a common unit. *)
Definition unit_worth (p : price) (a : Z) : Z := if a =? p.(base).(asset_id) then p.(quote).(amount) else p.(base).(amount).
Definition worth (p : price) (x : asset) : Z := x.(amount) * unit_worth p x.(asset_id).
Definition trade_price (p : price) : Prop := wf_price p ∧ p.(base).(asset_id) ≠ p.(quote).(asset_id).
#[export] Instance trade_price_dec p : Decision (trade_price p).
Proof. unfold trade_price. apply _. Defined.

Lemma unit_worth_pos p a : trade_price p → 0 < unit_worth p a ≤ int64_max.
Proof. intros [[? ?] _]. unfold unit_worth. destruct (_ =? _); lia. Qed.
Ltac sides := match goal with H : trade_price _ |- _ => destruct H as [[? ?] ?] end.
Lemma asset_mul_worth p x y :
  trade_price p → amount_in x → asset_mul x p = Ok y →
  x.(asset_id) ≠ y.(asset_id) ∧ worth p y ≤ worth p x < worth p y + unit_worth p y.(asset_id).
Proof.
  intros Hp Hx H. unfold asset_mul, asset_mul_with in H. unfold worth, unit_worth, amount_in in *. sides.
  destruct (Z.eqb_spec x.(asset_id) p.(base).(asset_id)) as [E|E]; [|destruct (Z.eqb_spec x.(asset_id) p.(quote).(asset_id)) as [E'|]; [|done]].
  - apply bind_Ok in H as (r & Hr & [= <-]). cbn. apply scale_down_Ok in Hr as (_ & _ & Hr); [|lia..].
    destruct (Z.eqb_spec p.(quote).(asset_id) p.(base).(asset_id)); [congruence|]. split; [congruence|lia].
  - apply bind_Ok in H as (r & Hr & [= <-]). cbn. apply scale_down_Ok in Hr as (_ & _ & Hr); [|lia..].
    rewrite Z.eqb_refl. split; [done|lia].
Qed.
Lemma round_up_worth p x y :
  trade_price p → amount_in x → multiply_and_round_up x p = Ok y →
  x.(asset_id) ≠ y.(asset_id) ∧ worth p x ≤ worth p y < worth p x + unit_worth p y.(asset_id).
Proof.
  intros Hp Hx H. unfold multiply_and_round_up, asset_mul_with in H. unfold worth, unit_worth, amount_in in *. sides.
  destruct (Z.eqb_spec x.(asset_id) p.(base).(asset_id)) as [E|E]; [|destruct (Z.eqb_spec x.(asset_id) p.(quote).(asset_id)) as [E'|]; [|done]].
  - apply bind_Ok in H as (r & Hr & [= <-]). cbn. apply scale_up_Ok in Hr as (_ & _ & Hr); [|lia..].
    destruct (Z.eqb_spec p.(quote).(asset_id) p.(base).(asset_id)); [congruence|]. split; [congruence|lia].
  - apply bind_Ok in H as (r & Hr & [= <-]). cbn. apply scale_up_Ok in Hr as (_ & _ & Hr); [|lia..].
    rewrite Z.eqb_refl. split; [done|lia].
Qed.
Lemma third_side x y z p : trade_price p →
  asset_mul x p = Ok y ∨ multiply_and_round_up x p = Ok y → asset_mul y p = Ok z ∨ multiply_and_round_up y p = Ok z →
  z.(asset_id) = x.(asset_id).
Proof. intros Hp H1 H2. apply asset_mul_sides in H1, H2. destruct Hp as [_ Hp]. intuition congruence. Qed.

(** Down and up again: no more than before, and what is lost is worth less than
    one unit of the other side. *)
Lemma down_up p x y z :
  trade_price p → amount_in x → asset_mul x p = Ok y → multiply_and_round_up y p = Ok z →
  z.(asset_id) = x.(asset_id) ∧ z.(amount) ≤ x.(amount) ∧
  worth p y ≤ worth p z ∧ worth p x - worth p z < unit_worth p y.(asset_id).
Proof.
  intros Hp Hx Hy Hz. pose proof (amount_out_in _ (asset_mul_out _ _ _ (or_introl Hy))) as Hyin.
  pose proof (third_side _ _ _ _ Hp (or_introl Hy) (or_intror Hz)) as Hid.
  apply asset_mul_worth in Hy as [_ Wy]; [|done..]. apply round_up_worth in Hz as [_ Wz]; [|done..].
  pose proof (unit_worth_pos p x.(asset_id) Hp). unfold worth in *. rewrite Hid in *. split; [done|]. split; [nia|lia].
Qed.

(** ** Two orders that match exchange value *)

(** What two limit orders that match change. *)
Record book_frame (P : Z → Prop) (d d' : database) : Prop := {
  bf_setting : same_setting d d';
  bf_limit : ∀ k, ¬ P k → d'.(d_limit_orders).(objs) !! k = d.(d_limit_orders).(objs) !! k;
  bf_settlements : d'.(d_settlements) = d.(d_settlements);
  bf_bids : d'.(d_collateral_bids) = d.(d_collateral_bids);
  bf_bitasset : d'.(d_bitasset_data) = d.(d_bitasset_data) }.
#[export] Instance book_frame_preorder P : PreOrder (book_frame P).
Proof.
  split; [by split|]. intros d1 d2 d3 [A1 A2 A3 A4 A5] [B1 B2 B3 B4 B5].
  split; [by etransitivity|intros k Hk; by rewrite B2, A2|congruence..].
Qed.
Lemma book_frame_limit (P : Z → Prop) id d d' : P id → limit_frame id d d' → book_frame P d d'.
Proof. intros HP [A1 A2 A3 A4 A5 A6]. split; try done. intros k Hk. apply A2. by intros ->. Qed.
Lemma book_frame_call P id d d' : call_frame id d d' → book_frame P d d'.
Proof. intros [A1 A2 A3 A4 A5 A6]. split; try done. intros k Hk. by rewrite A2. Qed.

Section matches.
Context (cf : Z).
Implicit Types (d : database).

(** The old rounding rules trade an order's amount as it stands. *)
Definition sane_amounts d : Prop :=
  HARDFORK_CORE_342_TIME < next_maintenance_time d ∨ map_Forall (λ _ o, amount_in (amount_for_sale o)) d.(d_limit_orders).(objs).

Lemma gone_bool (b : bool) {V} (m : gmap Z V) k v : (if b then m !! k = None else m !! k = Some v) → bool_decide (m !! k = None) = b.
Proof. destruct b; intros E; [by apply bool_decide_eq_true|apply bool_decide_eq_false; congruence]. Qed.

Lemma match_limit_spec d u c p d' r :
  assets_ok d → sane_amounts d → match_limit cf d u c p = Ok (d', r) → u ≠ c →
  conserves d d' ∧ book_frame (λ k, k = u ∨ k = c) d d' ∧ d'.(d_call_orders) = d.(d_call_orders) ∧
  (d' = d ∧ r = 1 ∧ (∃ ou oc, get_limit_order d u = Ok ou ∧ get_limit_order d c = Ok oc ∧
                       limit_amounts (next_maintenance_time d) (amount_for_sale ou) (amount_for_sale oc) p = Ok None) ∨
   r = filled_bits (limit_gone d' u) (limit_gone d' c) ∧ r ≠ 0).
Proof using Type.
  intros Ha Hin H Hne. unfold match_limit in H. apply bind_Ok in H as (ou & Hu & H). apply bind_Ok in H as (oc & Hc & H).
  do 3 apply bind_Ok in H as (? & _ & H). apply bind_Ok in H as (am & Ham & H). destruct am as [[[recv paid] cull]|].
  2: { injection H as <- <-. split; [apply flow_refl|]. split; [reflexivity|]. split; [done|]. left. split_and!; try done. by exists ou, oc. }
  assert (amount_in recv ∧ amount_in paid) as [Hx Hy].
  { eapply limit_amounts_out; [exact Ham|]. destruct Hin as [|Hin]; [by left|right].
    apply index_get_Ok in Hu, Hc. split; by eapply Hin. }
  apply bind_Ok in H as (? & _ & H). apply bind_Ok in H as ([d1 b1] & H1 & H). apply bind_Ok in H as ([d2 b2] & H2 & H).
  apply bind_Ok in H as (? & Hr & [= <- <-]). apply FC_ASSERT_Ok in Hr. apply negb_true_iff, Z.eqb_neq in Hr.
  destruct (fill_limit_order_spec _ _ _ _ _ _ _ _ _ _ Ha Hx H1) as (F1 & L1 & o1 & E1 & S1 & G1).
  destruct (fill_limit_order_spec _ _ _ _ _ _ _ _ _ _ (limit_frame_step _ _ _ L1 Ha) Hy H2) as (F2 & L2 & o2 & E2 & S2 & G2).
  split; [|split; [|split]].
  - eapply flow_ext; [exact (flow_trans _ _ _ _ _ F1 F2)|]. intros a. cbn beta. lia.
  - etransitivity; eapply book_frame_limit; try eassumption; auto.
  - by rewrite (lf_call _ _ _ L2), (lf_call _ _ _ L1).
  - right. split; [|done]. unfold limit_gone. rewrite (gone_bool b2 _ _ _ G2). rewrite <-(lf_limit _ _ _ L2) in G1 by done.
    by rewrite (gone_bool b1 _ _ _ G1).
Qed.

Lemma match_call_spec d u c mp fp mcr d' r :
  assets_ok d → match_call cf d u c mp fp mcr = Ok (d', r) →
  conserves d d' ∧ book_frame (λ k, k = u) d d' ∧ same_but c d.(d_call_orders) d'.(d_call_orders) ∧
  (d' = d ∧ r = 1 ∧ (∃ ou buy, get_limit_order d u = Ok ou ∧ call_amounts (next_maintenance_time d) (amount_for_sale ou) buy mp = Ok None) ∨
   r = filled_bits (limit_gone d' u) (call_gone d' c)).
Proof using Type.
  intros Ha H. unfold match_call in H. apply bind_Ok in H as (ou & Hu & H). apply bind_Ok in H as (oc & Hc & H).
  do 3 apply bind_Ok in H as (? & _ & H). apply bind_Ok in H as (buy & _ & H). apply bind_Ok in H as (am & Ham & H). destruct am as [[[recv paid] cull]|].
  2: { injection H as <- <-. split; [apply flow_refl|]. split; [reflexivity|]. split; [by intros|]. left. split_and!; try done. by exists ou, buy. }
  pose proof (call_amounts_out _ _ _ _ _ _ _ Ham) as Hx.
  apply bind_Ok in H as ([d1 b1] & H1 & H). apply bind_Ok in H as ([d2 b2] & H2 & [= <- <-]).
  destruct (fill_limit_order_spec _ _ _ _ _ _ _ _ _ _ Ha Hx H1) as (F1 & L1 & o1 & E1 & S1 & G1).
  destruct (fill_call_order_spec _ _ _ _ _ _ _ _ (limit_frame_step _ _ _ L1 Ha) H2) as (F2 & L2 & o2 & E2 & _ & _ & _ & G2).
  split; [|split; [|split]].
  - eapply flow_ext; [exact (flow_trans _ _ _ _ _ F1 F2)|]. intros a. cbn beta. lia.
  - etransitivity; [by eapply book_frame_limit|by eapply book_frame_call].
  - intros k Hk. by rewrite (cf_call _ _ _ L2), (lf_call _ _ _ L1).
  - right. unfold limit_gone, call_gone. rewrite <-(cf_limit _ _ _ L2) in G1. rewrite (gone_bool b1 _ _ _ G1).
    destruct b2; [destruct G2 as [_ G2]|destruct G2 as (o' & G2 & _)]; rewrite G2; [by rewrite bool_decide_eq_true_2|].
    by rewrite bool_decide_eq_false_2.
Qed.
End matches.

(** ** What two orders trade is worth the same, up to one unit *)
Lemma asset_le_Ok x y b : asset_le x y = Ok b → x.(asset_id) = y.(asset_id) ∧ b = (x.(amount) <=? y.(amount)).
Proof.
  unfold asset_le, asset_lt. intros H. apply fmap_Ok in H as (c & H & ->). apply bind_Ok in H as (u & Hu & [= <-]).
  apply FC_ASSERT_Ok in Hu. apply Z.eqb_eq in Hu. split; [done|]. by rewrite Z.leb_antisym.
Qed.
(** An amount worth less than a unit of the other side buys nothing. *)
Lemma buys_nothing p x y :
  trade_price p → amount_in x → worth p x < unit_worth p y → y ≠ x.(asset_id) →
  x.(asset_id) = p.(base).(asset_id) ∧ y = p.(quote).(asset_id) ∨ x.(asset_id) = p.(quote).(asset_id) ∧ y = p.(base).(asset_id) →
  asset_mul x p = Ok (Asset 0 y).
Proof.
  intros Hp Hx Hw Hne Hside. unfold asset_mul, asset_mul_with, scale_down, worth, unit_worth, amount_in in *. sides.
  destruct Hside as [[E ->]|[E ->]]; rewrite E in *; rewrite ?Z.eqb_refl in *.
  - destruct (Z.eqb_spec p.(quote).(asset_id) p.(base).(asset_id)); [congruence|].
    rewrite (proj2 (Z.ltb_lt 0 p.(base).(amount))) by lia. cbn. rewrite mul128_small, Z.div_small by lia. done.
  - destruct (Z.eqb_spec p.(quote).(asset_id) p.(base).(asset_id)); [congruence|].
    rewrite (proj2 (Z.ltb_lt 0 p.(quote).(amount))) by lia. cbn. rewrite mul128_small, Z.div_small by lia. done.
Qed.

Definition fair (p : price) (offered1 offered2 recv paid : asset) : Prop :=
  recv.(asset_id) = offered2.(asset_id) ∧ paid.(asset_id) = offered1.(asset_id) ∧
  recv.(amount) ≤ offered2.(amount) ∧ paid.(amount) ≤ offered1.(amount) ∧
  - unit_worth p recv.(asset_id) < worth p paid - worth p recv < unit_worth p paid.(asset_id).

Lemma limit_amounts_spec t u c p recv paid cull :
  HARDFORK_CORE_342_TIME < t → trade_price p → amount_in u → amount_in c →
  limit_amounts t u c p = Ok (Some (recv, paid, cull)) →
  fair p u c recv paid ∧
  (if cull then asset_mul (Asset (u.(amount) - paid.(amount)) u.(asset_id)) p = Ok (Asset 0 c.(asset_id))
   else asset_mul (Asset (c.(amount) - recv.(amount)) c.(asset_id)) p = Ok (Asset 0 u.(asset_id))).
Proof.
  intros Ht Hp Hu Hc H. unfold limit_amounts in H. rewrite (proj2 (Z.leb_gt _ _) Ht) in H.
  apply bind_Ok in H as (cp & Hcp & H). apply bind_Ok in H as (b & Hle & H). apply asset_le_Ok in Hle as [Eid ->].
  pose proof (asset_mul_worth _ _ _ Hp Hc Hcp) as [Ne Wcp]. pose proof (asset_mul_sides _ _ _ (or_introl Hcp)) as Sides.
  pose proof (unit_worth_pos p u.(asset_id) Hp) as Pu. pose proof (unit_worth_pos p c.(asset_id) Hp) as Pc.
  destruct (Z.leb_spec u.(amount) cp.(amount)) as [Hle|Hlt].
  - apply bind_Ok in H as (ur & Hur & H). destruct (_ && _); [done|]. apply bind_Ok in H as (cr & Hcr & [= <- <- <-]).
    destruct (down_up _ _ _ _ Hp Hu Hur Hcr) as (I & A & W1 & W2).
    destruct (asset_mul_worth _ _ _ Hp Hu Hur) as [Ne' Wur].
    assert (ur.(asset_id) = c.(asset_id)) as Eur by (pose proof (asset_mul_sides _ _ _ (or_introl Hur)); destruct Hp as [_ Hp]; intuition congruence).
    pose proof (amount_out_in _ (asset_mul_out _ _ _ (or_introl Hur))) as Hurin.
    pose proof (amount_out_in _ (asset_mul_out _ _ _ (or_intror Hcr))) as Hcrin.
    pose proof (round_up_worth _ _ _ Hp Hurin Hcr) as [_ Wcr].
    unfold fair, worth, amount_in in *. rewrite Eur, I in *. rewrite <-Eid in *.
    split; [split; [done|]; split; [done|]; split; [nia|]; split; [lia|lia]|].
    apply buys_nothing; [done|unfold amount_in; cbn; lia|unfold worth; cbn; lia|cbn; congruence|cbn; tauto].
  - apply bind_Ok in H as (cr & Hcr & H). apply bind_Ok in H as (ur & Hur & [= <- <- <-]). rewrite Hcp in Hcr. injection Hcr as <-.
    destruct (down_up _ _ _ _ Hp Hc Hcp Hur) as (I & A & W1 & W2).
    pose proof (amount_out_in _ (asset_mul_out _ _ _ (or_introl Hcp))) as Hcrin.
    pose proof (amount_out_in _ (asset_mul_out _ _ _ (or_intror Hur))) as Hurin.
    pose proof (round_up_worth _ _ _ Hp Hcrin Hur) as [_ Wur].
    unfold fair, worth, amount_in in *. rewrite I in *. rewrite <-Eid in *.
    split; [split; [done|]; split; [done|]; split; [lia|]; split; [lia|lia]|].
    apply buys_nothing; [done|unfold amount_in; cbn; lia|unfold worth; cbn; lia|cbn; congruence|cbn; tauto].
Qed.

(** ** Settlements *)
Lemma asset_min_Ok x y z : asset_min x y = Ok z → x.(asset_id) = y.(asset_id) ∧ z = Asset (Z.min x.(amount) y.(amount)) x.(asset_id).
Proof.
  unfold asset_min, asset_lt. intros H. apply bind_Ok in H as (b & Hb & [= <-]). apply bind_Ok in Hb as (u & Hu & [= <-]).
  apply FC_ASSERT_Ok in Hu. apply Z.eqb_eq in Hu. split; [done|]. destruct x as [x i], y as [y j]; cbn in *. subst j.
  destruct (Z.ltb_spec y x); f_equal; lia.
Qed.

(** A settlement takes no more than the order holds, the position owes and the
    limit allows, and gives collateral of about the same worth. *)
Lemma settle_trade_spec t balance debt max p pays receives cull :
  trade_price p → amount_in balance → amount_in debt → amount_in max →
  settle_trade t balance debt max p = Ok (settle_amounts pays receives cull) →
  amount_in pays ∧ receives.(asset_id) = balance.(asset_id) ∧
  receives.(amount) ≤ balance.(amount) ∧ receives.(amount) ≤ debt.(amount) ∧ receives.(amount) ≤ max.(amount) ∧
  (worth p receives - worth p pays < unit_worth p pays.(asset_id) ∧
   (pays.(amount) = 1 ∨ worth p pays - worth p receives < unit_worth p pays.(asset_id))).
Proof.
  intros Hp Hb Hd Hm H. unfold settle_trade in H. apply bind_Ok in H as (x & Hx & H). apply asset_min_Ok in Hx as [E1 ->].
  apply bind_Ok in H as (r & Hr & H). apply asset_min_Ok in Hr as [E2 Er]. cbn in E2.
  assert (amount_in r) as Hrin by (subst r; unfold amount_in in *; cbn; lia).
  assert (r.(asset_id) = balance.(asset_id) ∧ r.(amount) ≤ balance.(amount) ∧ r.(amount) ≤ debt.(amount) ∧ r.(amount) ≤ max.(amount))
    as (B1 & B2 & B3 & B4) by (subst r; cbn; lia). clear Er.
  apply bind_Ok in H as (cp & Hcp & H). pose proof (asset_mul_worth _ _ _ Hp Hrin Hcp) as [_ Wcp].
  pose proof (amount_out_in _ (asset_mul_out _ _ _ (or_introl Hcp))) as Hcpin.
  pose proof (unit_worth_pos p cp.(asset_id) Hp) as Pu.
  assert (amount_in (Asset 1 cp.(asset_id))) as H1 by (unfold amount_in, int64_max; cbn; lia).
  destruct (Z.eqb_spec cp.(amount) 0) as [Ez|Ez].
  - destruct (_ <? t).
    + destruct (asset_eqb r debt); [|done]. injection H as <- <- <-. split_and!; try done; [unfold worth in *; cbn; rewrite Ez in Wcp; lia|by left].
    + injection H as <- <- <-. split_and!; try done; [lia|right; lia].
  - destruct (t <=? _); [injection H as <- <- <-; split_and!; try done; [lia|right; lia]|].
    destruct (asset_eqb r debt).
    + apply bind_Ok in H as (up & Hup & [= <- <- <-]). pose proof (round_up_worth _ _ _ Hp Hrin Hup) as [_ Wup].
      split_and!; try done; [|lia|right; lia]. apply amount_out_in. eapply asset_mul_out; eauto.
    + apply bind_Ok in H as (up & Hup & [= <- <- <-]). destruct (down_up _ _ _ _ Hp Hrin Hcp Hup) as (I & A & W1 & W2).
      assert (worth p up ≤ worth p r) by (unfold worth; rewrite I; pose proof (unit_worth_pos p r.(asset_id) Hp); nia).
      split_and!; try done; [congruence|lia|lia|lia|lia|right; lia].
Qed.

Lemma match_settle_spec d c s p max fp d' paid o so :
  assets_ok d → trade_price p → amount_in max →
  get_call_order d c = Ok o → amount_in (get_debt o) → get_settlement d s = Ok so → amount_in so.(fs_balance) →
  match_settle d c s p max fp = Ok (d', paid) →
  conserves d d' ∧ same_setting d d' ∧ d'.(d_limit_orders) = d.(d_limit_orders) ∧
  same_but c d.(d_call_orders) d'.(d_call_orders) ∧ same_but s d.(d_settlements) d'.(d_settlements) ∧
  paid.(asset_id) = so.(fs_balance).(asset_id) ∧ paid.(amount) ≤ max.(amount).
Proof.
  intros Ha Hp Hm Ho Hdebt Hs Hbal H. unfold match_settle in H. rewrite Ho, Hs in H. cbn [mbind result_bind] in H.
  do 2 apply bind_Ok in H as (? & _ & H). apply bind_Ok in H as (out & Hout & H). destruct out as [cancel|pays receives cull].
  - apply bind_Ok in H as (d1 & H1 & [= <- <-]). cbn. unfold amount_in in Hm.
    destruct cancel; [|injection H1 as <-; split_and!; try done; try lia; apply flow_refl].
    apply cancel_settle_order_spec in H1 as (F & [S1 S2 S3 S4 S5 S6] & _). split_and!; try done; try lia. intros k _. by rewrite S3.
  - apply settle_trade_spec in Hout as (Hin & Eid & Rb & Rd & Rm & _); [|done..].
    apply bind_Ok in H as (? & _ & H). apply bind_Ok in H as ([d1 b1] & H1 & H). apply bind_Ok in H as ([d2 b2] & H2 & H).
    apply bind_Ok in H as (d3 & H3 & [= <- <-]).
    destruct (fill_call_order_spec _ _ _ _ _ _ _ _ Ha H1) as (F1 & L1 & _).
    destruct (fill_settle_order_spec _ _ _ _ _ _ _ _ (setting_assets _ _ (cf_setting _ _ _ L1) Ha) Hin H2) as (F2 & L2 & _).
    { intros s' Hs'. unfold get_settlement in *. rewrite (cf_settlements _ _ _ L1), Hs in Hs'. injection Hs' as <-. lia. }
    assert (conserves d2 d3 ∧ settle_frame s d2 d3) as [F3 L3].
    { destruct cull; [by apply cancel_settle_order_spec in H3 as (? & ? & _)|]. injection H3 as <-. split; [apply flow_refl|reflexivity]. }
    destruct L1 as [A1 A2 A3 A4 A5 A6], L2 as [B1 B2 B3 B4 B5 B6], L3 as [C1 C2 C3 C4 C5 C6].
    split_and!; try done.
    + unfold conserves in F3. flow_chain. eapply flow_ext; [eassumption|]. intros a. cbn beta. lia.
    + etransitivity; [exact A1|]. by etransitivity.
    + congruence.
    + intros k Hk. by rewrite C3, B3, A3.
    + intros k Hk. by rewrite C4, B4, A4.
Qed.
