(* ===== verification/Margin.v ===== *)
(** * Margin calls, black swans and the revival of an asset

    [db_market.cpp] and [db_update.cpp]: when a position that backs an asset is
    called, when the whole asset is settled because a position is under water, and
    how bids of collateral bring it back.  An ordered secondary index is a list
    sorted by its composite key ([range]). *)
From stdpp Require Import sorting.
From S2P Require Import Prelude Safe Asset Objects Pricing Database Ledger Vesting Balance Evaluator Market Fills.

(** ** The indices by price *)
Definition key_ltb {V} (plt : price → price → bool) (key : V → price) (x y : Z * V) : bool :=
  plt (key x.2) (key y.2) || (negb (plt (key y.2) (key x.2)) && (x.1 <? y.1)).
Definition not_after {V} (lt : Z * V → Z * V → bool) (x y : Z * V) : Prop := lt y x = false.
#[export] Instance not_after_dec {V} lt (x y : Z * V) : Decision (not_after lt x y).
Proof. unfold not_after. apply _. Defined.
Definition range {V} (lt : Z * V → Z * V → bool) (p : Z * V → bool) (i : index V) : list (Z * V) :=
  merge_sort (not_after lt) (filter (λ x, p x = true) (map_to_list i.(objs))).

Definition limit_ltb : Z * limit_order_object → Z * limit_order_object → bool := key_ltb price_gtb lo_sell_price.
Definition call_ltb : Z * call_order_object → Z * call_order_object → bool := key_ltb price_ltb cl_call_price.
Definition bid_ltb : Z * collateral_bid_object → Z * collateral_bid_object → bool := key_ltb price_gtb cb_inv_swan_price.

(** From [lower_bound(hi)] to [upper_bound(lo)], from the greatest to the least. *)
Definition limit_range (d : database) (hi lo : price) : list (Z * limit_order_object) :=
  range limit_ltb (λ x, price_leb x.2.(lo_sell_price) hi && price_leb lo x.2.(lo_sell_price)) d.(d_limit_orders).
(** From [lower_bound(lo)] to [upper_bound(hi)], from the least to the greatest. *)
Definition call_range (d : database) (lo hi : price) : list (Z * call_order_object) :=
  range call_ltb (λ x, price_leb lo x.2.(cl_call_price) && price_leb x.2.(cl_call_price) hi) d.(d_call_orders).

(** ** Global settlement

    All positions pay at the settlement price into the fund of the asset; the
    supply stays what it was. *)
Definition settle_position (before_342 : bool) (settlement_price : price) (s : database * asset) (id : Z) :
    result (database * asset) :=
  let '(d, gathered) := s in
  order ← get_call_order d id;
  pays ← (if before_342 then asset_mul (get_debt order) settlement_price
          else multiply_and_round_up (get_debt order) settlement_price);
  capped ← asset_lt (get_collateral order) pays;
  let pays := if capped : bool then get_collateral order else pays in
  gathered ← asset_add gathered pays;
  '(d1, filled) ← fill_call_order d id pays (get_debt order) settlement_price true;
  _ ← FC_ASSERT filled;
  Ok (d1, gathered).

Definition calls_of (d : database) (backing mia : Z) : result (list (Z * call_order_object)) :=
  lo ← price_min backing mia;
  hi ← price_max backing mia;
  Ok (call_range d lo hi).

Definition globally_settle_asset (d : database) (mia : Z) (settlement_price : price) : result database :=
  mia_obj ← get_asset d mia;
  bitasset ← bitasset_data d mia_obj;
  _ ← FC_ASSERT (negb (has_settlement bitasset));
  let backing := bitasset.(bd_options).(bo_short_backing_asset) in
  _ ← get_asset d backing;
  mia_dyn ← get_dynamic_data d mia_obj.(ao_dynamic_asset_data_id);
  let original_mia_supply := mia_dyn.(dd_current_supply) in
  calls ← calls_of d backing mia;
  '(d1, gathered) ← foldM (settle_position (next_maintenance_time d <=? HARDFORK_CORE_342_TIME) settlement_price)
                      (d, Asset 0 backing) calls.*1;
  d2 ← modify_bitasset d1 mia_obj (λ b,
    p ← make_price (Asset original_mia_supply mia) gathered;
    Ok (b <| bd_settlement_price := p |> <| bd_settlement_fund := gathered.(amount) |>));
  modify_dynamic_data d2 mia_obj.(ao_dynamic_asset_data_id) (λ x, Ok (x <| dd_current_supply := original_mia_supply |>)).

(** ** Bids *)
Definition get_bid (d : database) (id : Z) : result collateral_bid_object := index_get d.(d_collateral_bids) id.
Definition remove_bid (d : database) (id : Z) : result database :=
  i ← index_remove d.(d_collateral_bids) id; Ok (d <| d_collateral_bids := i |>).
Definition bid_debt_type (b : collateral_bid_object) : Z := b.(cb_inv_swan_price).(quote).(asset_id).
(** One bid for an account and an asset, one position for a borrower and an asset. *)
Definition create_bid (d : database) (b : collateral_bid_object) : result (database * Z) :=
  _ ← FC_ASSERT (forallb (λ x, negb ((bid_debt_type x.2 =? bid_debt_type b) && (x.2.(cb_bidder) =? b.(cb_bidder))))
                   (map_to_list d.(d_collateral_bids).(objs)));
  '(id, i) ← index_create d.(d_collateral_bids) b;
  Ok (d <| d_collateral_bids := i |>, id).
Definition create_call_order (d : database) (c : call_order_object) : result (database * Z) :=
  _ ← FC_ASSERT (forallb (λ x, negb ((debt_type x.2 =? debt_type c) && (x.2.(cl_borrower) =? c.(cl_borrower))))
                   (map_to_list d.(d_call_orders).(objs)));
  '(id, i) ← index_create d.(d_call_orders) c;
  Ok (d <| d_call_orders := i |>, id).

Definition cancel_bid (d : database) (id : Z) (create_virtual_op : bool) : result database :=
  bid ← get_bid d id;
  d1 ← adjust_balance d bid.(cb_bidder) bid.(cb_inv_swan_price).(base);
  let d2 := if create_virtual_op
            then push_applied_operation d1 (bid_collateral_virtual_op bid.(cb_bidder) bid.(cb_inv_swan_price).(base)
                                              (Asset 0 (bid_debt_type bid)))
            else d1 in
  remove_bid d2 id.

Definition execute_bid (d : database) (id : Z) (debt_covered collateral_from_fund : Z) (current_feed : price_feed) : result database :=
  bid ← get_bid d id;
  let swan := bid.(cb_inv_swan_price) in
  collateral ← safe_add swan.(base).(amount) collateral_from_fund;
  p ← call_price (Asset debt_covered swan.(quote).(asset_id)) (Asset collateral swan.(base).(asset_id))
        current_feed.(pf_maintenance_collateral_ratio);
  '(d1, _) ← create_call_order d (CallOrder bid.(cb_bidder) collateral debt_covered p None);
  d2 ← (if swan.(base).(asset_id) =? CORE
        then modify_statistics d1 bid.(cb_bidder) (λ s,
               n ← safe_add s.(st_total_core_in_orders) collateral; Ok (s <| st_total_core_in_orders := n |>))
        else Ok d1);
  remove_bid (push_applied_operation d2 (execute_bid_op bid.(cb_bidder) (Asset collateral swan.(base).(asset_id))
                                           (Asset debt_covered swan.(quote).(asset_id)))) id.

(** The bids for an asset, from the best on. *)
Definition bids_of (d : database) (backing mia : Z) : result (list (Z * collateral_bid_object)) :=
  hi ← price_max backing mia;
  Ok (range bid_ltb (λ x, (bid_debt_type x.2 =? mia) && price_leb x.2.(cb_inv_swan_price) hi) d.(d_collateral_bids)).

Definition _cancel_bids_and_revive_mpa (d : database) (bitasset : asset_object) (mia : Z) : result database :=
  _ ← FC_ASSERT (is_market_issued bitasset);
  bad ← bitasset_data d bitasset;
  _ ← FC_ASSERT (has_settlement bad);
  _ ← FC_ASSERT (negb bad.(bd_is_prediction_market));
  bids ← bids_of d bad.(bd_options).(bo_short_backing_asset) mia;
  d1 ← foldM (λ d id, cancel_bid d id true) d bids.*1;
  modify_bitasset d1 bitasset (λ b, Ok (b <| bd_settlement_price := null_price |> <| bd_settlement_fund := 0 |>)).

Definition revive_bitasset (d : database) (mia : Z) : result database :=
  bitasset ← get_asset d mia;
  _ ← FC_ASSERT (is_market_issued bitasset);
  bad ← bitasset_data d bitasset;
  _ ← FC_ASSERT (has_settlement bad);
  bdd ← get_dynamic_data d bitasset.(ao_dynamic_asset_data_id);
  _ ← FC_ASSERT (negb bad.(bd_is_prediction_market));
  _ ← FC_ASSERT (negb (price_is_null bad.(bd_current_feed).(pf_settlement_price)));
  d1 ← (if 0 <? bdd.(dd_current_supply) then
          p ← make_price (Asset 0 bad.(bd_options).(bo_short_backing_asset)) (Asset bdd.(dd_current_supply) mia);
          '(d1, id) ← create_bid d (CollateralBid bitasset.(ao_issuer) p);
          execute_bid d1 id bdd.(dd_current_supply) bad.(bd_settlement_fund) bad.(bd_current_feed)
        else _ ← FC_ASSERT (bad.(bd_settlement_fund) =? 0); Ok d);
  _cancel_bids_and_revive_mpa d1 bitasset mia.

(** [process_bids]: when the bids together take over the whole debt, each gets its
    part of the fund, and the last one the rest. *)
Fixpoint bids_covering (bad : asset_bitasset_data_object) (supply covered : Z) (l : list (Z * collateral_bid_object)) :
    result (list Z * Z) :=
  match l with
  | (id, bid) :: l' =>
      if covered <? supply then
        let debt_in_bid := Asset (Z.min bid.(cb_inv_swan_price).(quote).(amount) supply) bid.(cb_inv_swan_price).(quote).(asset_id) in
        from_fund ← asset_mul debt_in_bid bad.(bd_settlement_price);
        total_collateral ← asset_add from_fund bid.(cb_inv_swan_price).(base);
        p ← call_price debt_in_bid total_collateral bad.(bd_current_feed).(pf_maintenance_collateral_ratio);
        if negb (price_ltb (price_inv p) bad.(bd_current_feed).(pf_settlement_price)) then Ok ([], covered)
        else
          covered ← safe_add covered debt_in_bid.(amount);
          '(ids, covered) ← bids_covering bad supply covered l';
          Ok (id :: ids, covered)
      else Ok ([], covered)
  | [] => Ok ([], covered)
  end.

Definition take_over (bad : asset_bitasset_data_object) (supply : Z) (s : database * Z * Z) (id : Z) : result (database * Z * Z) :=
  let '(d, to_cover, remaining_fund) := s in
  bid ← get_bid d id;
  let debt_in_bid := Asset (Z.min bid.(cb_inv_swan_price).(quote).(amount) supply) bid.(cb_inv_swan_price).(quote).(asset_id) in
  from_fund ← asset_mul debt_in_bid bad.(bd_settlement_price);
  let '(debt, collateral) := if to_cover <=? debt_in_bid.(amount) then (to_cover, remaining_fund)
                             else (debt_in_bid.(amount), from_fund.(amount)) in
  to_cover ← safe_sub to_cover debt;
  remaining_fund ← safe_sub remaining_fund collateral;
  d1 ← execute_bid d id debt collateral bad.(bd_current_feed);
  Ok (d1, to_cover, remaining_fund).

Definition process_bids (d : database) (bad : asset_bitasset_data_object) : result database :=
  if bad.(bd_is_prediction_market) then Ok d
  else if price_is_null bad.(bd_current_feed).(pf_settlement_price) then Ok d
  else
    let backing := bad.(bd_options).(bo_short_backing_asset) in
    x ← asset_mul (Asset 0 backing) bad.(bd_settlement_price);
    let to_revive_id := x.(asset_id) in
    to_revive ← get_asset d to_revive_id;
    bdd ← get_dynamic_data d to_revive.(ao_dynamic_asset_data_id);
    bids ← bids_of d backing to_revive_id;
    '(ids, covered) ← bids_covering bad bdd.(dd_current_supply) 0 bids;
    if covered <? bdd.(dd_current_supply) then Ok d
    else
      '(d1, to_cover, remaining_fund) ← foldM (take_over bad bdd.(dd_current_supply)) (d, bdd.(dd_current_supply), bad.(bd_settlement_fund)) ids;
      _ ← FC_ASSERT (remaining_fund =? 0);
      _ ← FC_ASSERT (to_cover =? 0);
      _cancel_bids_and_revive_mpa d1 to_revive to_revive_id.

(** ** Black swans

    [check_for_blackswan]: an asset whose least collateralised position is worth
    no more than the highest price anyone pays for it is settled. *)
Definition check_for_blackswan (d : database) (mia : Z) (enable_black_swan : bool) : result (database * bool) :=
  mia_obj ← get_asset d mia;
  if negb (is_market_issued mia_obj) then Ok (d, false)
  else
    bitasset ← bitasset_data d mia_obj;
    if has_settlement bitasset then Ok (d, true)
    else
      let settle_price := bitasset.(bd_current_feed).(pf_settlement_price) in
      if price_is_null settle_price then Ok (d, false)
      else
        let backing := bitasset.(bd_options).(bo_short_backing_asset) in
        calls ← calls_of d backing mia;
        match calls with
        | [] => Ok (d, false)
        | (_, call) :: _ =>
            highest ← (if HARDFORK_CORE_338_TIME <? next_maintenance_time d
                       then max_short_squeeze_price bitasset.(bd_current_feed) else Ok settle_price);
            highest_possible_bid ← price_max mia backing;
            lowest_possible_bid ← price_min mia backing;
            highest ← match limit_range d highest_possible_bid lowest_possible_bid with
                      | (_, limit) :: _ =>
                          _ ← FC_ASSERT (highest.(base).(asset_id) =? sell_asset_id limit);
                          Ok (if price_ltb limit.(lo_sell_price) highest then highest else limit.(lo_sell_price))
                      | [] => Ok highest
                      end;
            least_collateral ← make_price (get_collateral call) (get_debt call);
            if price_ltb (price_inv least_collateral) highest then Ok (d, false)
            else
              _ ← FC_ASSERT enable_black_swan;
              d1 ← globally_settle_asset d mia
                     (if (HARDFORK_CORE_338_TIME <? next_maintenance_time d) && price_leb (price_inv least_collateral) settle_price
                      then settle_price else price_inv least_collateral);
              Ok (d1, true)
        end.

(** ** Margin calls

    [check_call_orders] matches the least collateralised positions with the limit
    orders that pay the most, until one side runs out, the feed protects the
    position or the asset is settled.  [filled_limit] is kept from one round
    to the next, as the code keeps it. *)
Record margin_state : Type := MarginState {
  ms_db : database;
  ms_limits : list Z;
  ms_calls : list Z;
  ms_filled_limit : bool;
  ms_margin_called : bool }.

(** What the position and the order trade, and which of them is done. *)
Definition margin_amounts (before_342 : bool) (usd_to_buy usd_for_sale : asset) (match_price : price) (filled_limit : bool) :
    result (asset * asset * bool * bool) :=
  more ← asset_lt usd_for_sale usd_to_buy;
  if more : bool then
    order_receives ← asset_mul usd_for_sale match_price;
    call_receives ← (if before_342 then Ok usd_for_sale else multiply_and_round_up order_receives match_price);
    Ok (order_receives, call_receives, false, true)
  else
    order_receives ← (if before_342 then asset_mul usd_to_buy match_price else multiply_and_round_up usd_to_buy match_price);
    Ok (order_receives, usd_to_buy, true, filled_limit || asset_eqb usd_to_buy usd_for_sale).

Section margin.
Context (cancel_fee : Z) (mia : Z) (enable_black_swan for_new_limit_order : bool) (bitasset : asset_bitasset_data_object).

Definition margin_trade (s : margin_state) (call_id limit_id : Z) (rest_calls rest_limits : list Z)
    (call_order : call_order_object) (limit_order : limit_order_object) : result margin_state :=
  let d := s.(ms_db) in
  let feed := bitasset.(bd_current_feed) in
  let match_price := limit_order.(lo_sell_price) in
  let maint_time := next_maintenance_time d in
  usd_to_buy ← (if maint_time <=? HARDFORK_CORE_834_TIME then Ok (get_debt call_order)
                else amt ← get_max_debt_to_cover call_order match_price feed.(pf_settlement_price) feed.(pf_maintenance_collateral_ratio);
                     Ok (Asset amt (debt_type call_order)));
  '(order_receives, call_receives, filled_call, filled_limit) ←
    margin_amounts (maint_time <=? HARDFORK_CORE_342_TIME) usd_to_buy (amount_for_sale limit_order) match_price s.(ms_filled_limit);
  '(d1, _) ← fill_call_order d call_id order_receives call_receives match_price for_new_limit_order;
  calls ← (if maint_time <=? HARDFORK_CORE_343_TIME then Ok (if filled_call : bool then rest_calls else call_id :: rest_calls)
           else cs ← calls_of d1 bitasset.(bd_options).(bo_short_backing_asset) mia; Ok cs.*1);
  '(d2, really_filled) ← fill_limit_order cancel_fee d1 limit_id call_receives order_receives true match_price (negb for_new_limit_order);
  Ok (MarginState d2 (if really_filled || (filled_limit && (maint_time <=? HARDFORK_CORE_453_TIME)) then rest_limits else limit_id :: rest_limits)
        calls filled_limit true).

(** One round: [inr] is what the function returns. *)
Definition margin_round (s : margin_state) : result (margin_state + database * bool) :=
  '(d, swan) ← check_for_blackswan s.(ms_db) mia enable_black_swan;
  if swan : bool then Ok (inr (d, s.(ms_margin_called)))
  else
    match s.(ms_calls), s.(ms_limits) with
    | call_id :: rest_calls, limit_id :: rest_limits =>
        call_order ← get_call_order d call_id;
        limit_order ← get_limit_order d limit_id;
        let feed := bitasset.(bd_current_feed) in
        let match_price := limit_order.(lo_sell_price) in
        if (HARDFORK_436_TIME <? head_block_time d) && price_gtb feed.(pf_settlement_price) (price_inv call_order.(cl_call_price))
        then Ok (inr (d, s.(ms_margin_called)))
        else if (next_maintenance_time d <=? HARDFORK_CORE_606_TIME) && price_gtb match_price (price_inv call_order.(cl_call_price))
        then Ok (inr (d, s.(ms_margin_called)))
        else
          pays ← asset_mul (get_debt call_order) match_price;
          under_water ← asset_lt (get_collateral call_order) pays;
          if under_water : bool then
            _ ← FC_ASSERT enable_black_swan;
            d1 ← globally_settle_asset d mia feed.(pf_settlement_price);
            Ok (inr (d1, true))
          else inl <$> margin_trade s call_id limit_id rest_calls rest_limits call_order limit_order
    | _, _ => Ok (inr (d, s.(ms_margin_called)))
    end.
End margin.

(** The fuel of the two loops over the book doubles at every level: 2^128 rounds,
    more than a node can make.  Rounds.v says when fewer are enough, and that the code
    has a case in which no number is. *)
Definition book_rounds : nat := 128.

Definition check_call_orders (cancel_fee : Z) (d : database) (mia : Z) (enable_black_swan for_new_limit_order : bool) : result (database * bool) :=
  _ ← (if for_new_limit_order then FC_ASSERT (next_maintenance_time d <=? HARDFORK_CORE_625_TIME) else Ok tt);
  mia_obj ← get_asset d mia;
  if negb (is_market_issued mia_obj) then Ok (d, false)
  else
    bitasset ← bitasset_data d mia_obj;
    '(d1, swan) ← check_for_blackswan d mia enable_black_swan;
    if swan : bool then Ok (d1, false)
    else if bitasset.(bd_is_prediction_market) then Ok (d1, false)
    else if price_is_null bitasset.(bd_current_feed).(pf_settlement_price) then Ok (d1, false)
    else
      let backing := bitasset.(bd_options).(bo_short_backing_asset) in
      max_price ← price_max mia backing;
      min_price ← max_short_squeeze_price bitasset.(bd_current_feed);
      let limits := limit_range d1 max_price min_price in
      if negb (0 <? Z.of_nat (length limits)) then Ok (d1, false)
      else
        calls ← calls_of d1 backing mia;
        r ← while_loop book_rounds (margin_round cancel_fee mia enable_black_swan for_new_limit_order bitasset)
              (MarginState d1 limits.*1 calls.*1 false false);
        loop_result r.

(** ** Lemmas on the indices *)
Lemma elem_of_range {V} lt p (i : index V) x : x ∈ range lt p i ↔ i.(objs) !! x.1 = Some x.2 ∧ p x = true.
Proof. unfold range. rewrite (merge_sort_Permutation _ _), list_elem_of_filter, elem_of_map_to_list'. tauto. Qed.
(** The first element of a range is the least. *)
Lemma range_head {V} (lt : Z * V → Z * V → bool) `{!Transitive (not_after lt), !Total (not_after lt)} p (i : index V) x :
  head (range lt p i) = Some x →
  i.(objs) !! x.1 = Some x.2 ∧ p x = true ∧ ∀ k v, i.(objs) !! k = Some v → p (k, v) = true → (k, v) = x ∨ not_after lt x (k, v).
Proof.
  intros H. destruct (range lt p i) as [|y l] eqn:E; [done|]. injection H as ->.
  assert (x ∈ range lt p i) as Hx by (rewrite E; apply elem_of_cons; by left). apply elem_of_range in Hx as [Hx Hp]. split; [done|]. split; [done|].
  intros k v Hk Hkv. assert ((k, v) ∈ range lt p i) as Hy by (by apply elem_of_range). rewrite E in Hy.
  apply elem_of_cons in Hy as [->|Hy]; [by left|right]. pose proof (StronglySorted_merge_sort (not_after lt) (filter (λ x, p x = true) (map_to_list i.(objs)))) as Hs.
  unfold range in E. rewrite E in Hs. apply StronglySorted_cons in Hs as [Hs _]. rewrite Forall_forall in Hs. by apply Hs.
Qed.
Lemma range_empty {V} (lt : Z * V → Z * V → bool) p (i : index V) k v : head (range lt p i) = None → i.(objs) !! k = Some v → p (k, v) = false.
Proof.
  intros H Hk. destruct (range lt p i) eqn:E; [|done]. apply not_true_iff_false. intros Hp.
  assert ((k, v) ∈ range lt p i) as Hin by (by apply elem_of_range). rewrite E in Hin. by apply elem_of_nil in Hin.
Qed.
Lemma range_NoDup {V} lt p (i : index V) : NoDup (range lt p i).*1.
Proof.
  unfold range. rewrite (merge_sort_Permutation _ _). eapply sublist_NoDup; [apply (NoDup_fst_map_to_list i.(objs))|].
  apply (fmap_sublist fst). apply sublist_filter.
Qed.

(** A price between two prices of a market is one of that market. *)
Lemma price_between lo hi p :
  price_leb lo p = true → price_leb p hi = true →
  lo.(base).(asset_id) = hi.(base).(asset_id) → lo.(quote).(asset_id) = hi.(quote).(asset_id) →
  p.(base).(asset_id) = lo.(base).(asset_id) ∧ p.(quote).(asset_id) = lo.(quote).(asset_id).
Proof.
  unfold price_leb, price_ltb. intros H1 H2 E1 E2. rewrite <-E1, <-E2 in H2.
  repeat case_match; propify; try done; split; lia.
Qed.
Lemma price_max_Ok b q p : price_max b q = Ok p → b ≠ q ∧ p.(base).(asset_id) = b ∧ p.(quote).(asset_id) = q.
Proof. unfold price_max, make_price. intros H. inv_ok. cbn in *. propify. done. Qed.
Lemma price_min_Ok b q p : price_min b q = Ok p → b ≠ q ∧ p.(base).(asset_id) = b ∧ p.(quote).(asset_id) = q.
Proof. unfold price_min, make_price. intros H. inv_ok. cbn in *. propify. done. Qed.
