(* ===== verification/Settle.v ===== *)
(** * Margin calls, settlements and bids conserve value

    What the operations of Margin.v do to the books.  A global settlement moves the
    collateral of all positions into the fund and leaves the supply as it was; the
    revival gives the fund back as collateral. *)
From S2P Require Import Prelude Safe Asset Objects Pricing Database Ledger Vesting Balance Evaluator Sample Market Fills Margin.

Lemma statistics_dynamic_data d o f d' : modify_statistics d o f = Ok d' → d'.(d_dynamic_data) = d.(d_dynamic_data).
Proof. intros H. apply modify_statistics_Ok in H as (? & ? & _ & _ & ->). done. Qed.

(** Positions stay in their market. *)
Definition positions_kept (d d' : database) : Prop :=
  ∀ k c', d'.(d_call_orders).(objs) !! k = Some c' →
    ∃ c, d.(d_call_orders).(objs) !! k = Some c ∧ debt_type c' = debt_type c ∧ collateral_type c' = collateral_type c.
#[export] Instance positions_kept_preorder : PreOrder positions_kept.
Proof.
  split; [intros d k c H; by exists c|]. intros d1 d2 d3 H1 H2 k c H.
  destruct (H2 _ _ H) as (c2 & Hc2 & E2 & F2). destruct (H1 _ _ Hc2) as (c1 & Hc1 & E1 & F1). exists c1. split; [done|split; congruence].
Qed.
Lemma positions_same d d' : d'.(d_call_orders) = d.(d_call_orders) → positions_kept d d'.
Proof. intros E k c Hc. rewrite E in Hc. by exists c. Qed.
Lemma fill_call_positions d id pays receives fp mk d' b :
  assets_ok d → fill_call_order d id pays receives fp mk = Ok (d', b) → positions_kept d d'.
Proof.
  intros Ha H k c' Hk. destruct (fill_call_order_spec _ _ _ _ _ _ _ _ Ha H) as (_ & L & c & Hc & _ & _ & _ & G).
  destruct (decide (k = id)) as [->|Hne]; [|rewrite (cf_call _ _ _ L) in Hk by done; by exists c'].
  destruct b; [destruct G; congruence|]. destruct G as (c2 & Hc2 & T1 & T2 & _). rewrite Hc2 in Hk. injection Hk as <-.
  exists c. by apply index_get_Ok in Hc.
Qed.

(** ** Global settlement *)
Section settle_positions.
Context (mia backing : Z) (before_342 : bool) (p : price).

Definition supply_at (d : database) (z : Z) : Prop := ∃ x, d.(d_dynamic_data) !! mia = Some x ∧ x.(dd_current_supply) = z.

(** The supply shrinks by what a position receives. *)
Lemma fill_call_supply d id pays receives fp mk d' b z :
  assets_ok d → fill_call_order d id pays receives fp mk = Ok (d', b) → receives.(asset_id) = mia →
  supply_at d z → supply_at d' (z - receives.(amount)).
Proof using Type.
  intros Ha H Hid (x & Hx & Hz). unfold fill_call_order in H. apply bind_Ok in H as (o & _ & H).
  do 3 apply bind_Ok in H as (? & _ & H). apply bind_Ok in H as (mo & Hmo & H). apply bind_Ok in H as (? & _ & H).
  apply bind_Ok in H as ([o' freed] & _ & H). apply bind_Ok in H as (d1 & H1 & H). apply bind_Ok in H as (d2 & H2 & H).
  apply bind_Ok in H as (d3 & H3 & H). apply bind_Ok in H as (d4 & H4 & H).
  unfold modify_call_order in H1. apply bind_Ok in H1 as (i & _ & [= <-]).
  rewrite (dyn_id _ _ _ Ha Hmo), Hid in H2. unfold sub_supply in H2. apply modify_dynamic_data_Ok in H2 as (y & y' & Hy & Hy' & ->).
  cbn in Hy. rewrite Hx in Hy. injection Hy as <-. apply bind_Ok in Hy' as (s & Hs & [= <-]). apply safe_sub_Ok in Hs as ->.
  assert (d'.(d_dynamic_data) = d4.(d_dynamic_data)) as E.
  { destruct freed; [|by injection H as <- <-]. apply bind_Ok in H as (d5 & H5 & [= <- <-]). unfold remove_call_order in H5.
    by apply bind_Ok in H5 as (j & _ & [= <-]). }
  assert (d4.(d_dynamic_data) = d3.(d_dynamic_data)) as E4.
  { destruct (_ =? CORE); [|by injection H4 as <-]. apply bind_Ok in H4 as (d5 & H5 & H4). unfold sub_core_in_orders in *.
    apply statistics_dynamic_data in H5. destruct freed; [apply statistics_dynamic_data in H4|injection H4 as <-]; congruence. }
  exists (x <| dd_current_supply := x.(dd_current_supply) - receives.(amount) |>). split; [|cbn; by rewrite Hz].
  rewrite E, E4. destruct freed; [rewrite (adjust_balance_frame _ _ _ _ H3)|injection H3 as <-]; apply lookup_insert_eq.
Qed.

(** The positions of the market that are still to be settled. *)
Definition in_market (d : database) (k : Z) : Prop :=
  ∃ c, d.(d_call_orders).(objs) !! k = Some c ∧ debt_type c = mia ∧ collateral_type c = backing.

(** What does not change while positions are filled. *)
Record calls_only (d d' : database) : Prop := {
  co_setting : same_setting d d';
  co_limit : d'.(d_limit_orders) = d.(d_limit_orders);
  co_settlements : d'.(d_settlements) = d.(d_settlements);
  co_bids : d'.(d_collateral_bids) = d.(d_collateral_bids);
  co_bitasset : d'.(d_bitasset_data) = d.(d_bitasset_data);
  co_positions : positions_kept d d' }.
#[export] Instance calls_only_preorder : PreOrder calls_only.
Proof.
  split; [by split|]. intros d1 d2 d3 [A1 A2 A3 A4 A5 A6] [B1 B2 B3 B4 B5 B6].
  split; [by etransitivity|congruence|congruence|congruence|congruence|by etransitivity].
Qed.
Lemma calls_only_frame id d d' : call_frame id d d' → positions_kept d d' → calls_only d d'.
Proof. intros [A1 A2 A3 A4 A5 A6]. by split. Qed.

(** The debts of the positions leave the supply, their payments are gathered. *)
Lemma settle_positions_spec l d g d' g' :
  assets_ok d → g.(asset_id) = backing → NoDup l → Forall (in_market d) l →
  foldM (settle_position before_342 p) (d, g) l = Ok (d', g') →
  calls_only d d' ∧ g'.(asset_id) = backing ∧
  ∃ total, flow d d' (λ a, of_asset a (Asset total mia) + of_asset a g - of_asset a g') ∧
    ∀ z, supply_at d z → supply_at d' (z - total).
Proof using Type.
  intros Ha Hg Hnd Hin H. revert d g Ha Hg Hin H. induction l as [|k l IH]; intros d g Ha Hg Hin H.
  { cbn in H. injection H as <- <-. split; [reflexivity|]. split; [done|]. exists 0. split.
    - eapply flow_ext; [apply flow_refl|]. flow_arith.
    - intros z Hz. by rewrite Z.sub_0_r. }
  apply NoDup_cons in Hnd as [Hk Hnd]. apply Forall_cons in Hin as [(c & Hc & Hdt & Hct) Hin]. cbn [foldM] in H.
  apply bind_Ok in H as ([d1 g1] & H1 & H). unfold settle_position in H1. unfold get_call_order in H1.
  rewrite (proj2 (index_get_Ok _ _ _) Hc), Ok_bind in H1. apply bind_Ok in H1 as (pays & _ & H1). apply bind_Ok in H1 as (capped & _ & H1).
  cbv zeta in H1. set (pays' := if capped then get_collateral c else pays) in H1.
  apply bind_Ok in H1 as (g2 & Hg2 & H1). apply bind_Ok in H1 as ([d2 filled] & H2 & H1). apply bind_Ok in H1 as (? & _ & [= -> ->]).
  destruct (fill_call_order_spec _ _ _ _ _ _ _ _ Ha H2) as (F & L & _).
  unfold asset_add in Hg2. apply bind_Ok in Hg2 as (u & Hu & Hg2). apply bind_Ok in Hg2 as (s & Hs & [= <-]). apply safe_add_Ok in Hs as ->.
  apply FC_ASSERT_Ok, Z.eqb_eq in Hu.
  destruct (IH Hnd d1 (Asset (g.(amount) + pays'.(amount)) g.(asset_id))) as (C & Hid & total & FT & ST); [by eapply setting_assets; [apply L|]|done| |exact H|].
  { apply Forall_forall. rewrite Forall_forall in Hin. intros j Hj. destruct (Hin j Hj) as (cj & Hcj & E1 & E2). exists cj. split; [|done].
    rewrite (cf_call _ _ _ L); [done|]. by intros ->. }
  split; [etransitivity; [eapply calls_only_frame; [done|by eapply fill_call_positions]|done]|]. split; [done|]. exists (c.(cl_debt) + total). split.
  - eapply flow_ext; [exact (flow_trans _ _ _ _ _ F FT)|]. intros a. cbn beta. unfold get_debt. rewrite Hdt. flow_arith.
  - intros z Hz. replace (z - (c.(cl_debt) + total)) with (z - c.(cl_debt) - total) by lia. apply ST.
    apply (fill_call_supply _ _ _ _ _ _ _ _ z Ha H2); [by rewrite <-Hdt|done].
Qed.
End settle_positions.

Lemma calls_of_market d backing mia cs :
  calls_of d backing mia = Ok cs → NoDup cs.*1 ∧ Forall (in_market mia backing d) cs.*1.
Proof.
  unfold calls_of. intros H. apply bind_Ok in H as (lo & Hlo & H). apply bind_Ok in H as (hi & Hhi & [= <-]). split; [apply range_NoDup|].
  apply Forall_forall. intros k Hk. apply list_elem_of_fmap in Hk as ([k' c] & -> & Hk). apply elem_of_range in Hk as [Hc Hp]. cbn in *.
  apply andb_true_iff in Hp as [P1 P2]. apply price_min_Ok in Hlo as (_ & L1 & L2). apply price_max_Ok in Hhi as (_ & U1 & U2).
  destruct (price_between _ _ _ P1 P2) as [E1 E2]; [congruence|congruence|]. exists c. split; [done|]. unfold debt_type, collateral_type. split; congruence.
Qed.

(** What a run may change besides balances and statistics: positions, the fund of
    the asset and, in a margin call, limit orders. *)
Record market_frame (d d' : database) : Prop := {
  mf_setting : same_setting d d';
  mf_settlements : d'.(d_settlements) = d.(d_settlements);
  mf_bids : d'.(d_collateral_bids) = d.(d_collateral_bids);
  mf_funds : funds_ok d → funds_ok d';
  mf_backing : ∀ a, backing_of d' a = backing_of d a;
  mf_linked : linked d → linked d';
  mf_positions : positions_kept d d' }.
#[export] Instance market_frame_preorder : PreOrder market_frame.
Proof.
  split; [by split|]. intros d1 d2 d3 [A1 A2 A3 A4 A5 A7 A6] [B1 B2 B3 B4 B5 B7 B6].
  split; [by etransitivity|congruence|congruence|auto|intros a; by rewrite B5|auto|by etransitivity].
Qed.
Lemma market_frame_backed d d' : market_frame d d' → backed d → backed d'.
Proof.
  intros M H k c' Hk. destruct (mf_positions _ _ M _ _ Hk) as (c & Hc & -> & ->). rewrite (mf_backing _ _ M). by apply (H k).
Qed.
Lemma same_bitassets d d' : d'.(d_bitasset_data) = d.(d_bitasset_data) → same_setting d d' →
  (funds_ok d → funds_ok d') ∧ (linked d → linked d') ∧ ∀ a, backing_of d' a = backing_of d a.
Proof. intros E (E' & _). unfold funds_ok, backing_of, linked, link_ok, bitasset_of. by rewrite E, E'. Qed.

Lemma calls_only_market d d' : calls_only d d' → market_frame d d'.
Proof. intros [A1 A2 A3 A4 A5 A6]. destruct (same_bitassets d d' A5 A1) as (? & ? & ?). by split. Qed.
Lemma market_of_step d d' : account_step d d' → market_frame d d'.
Proof.
  intros H. apply account_step_frames in H as [Hs (A & B & C & D & E)]. apply calls_only_market. split; try done. by apply positions_same.
Qed.
Lemma market_of_limit id d d' : limit_frame id d d' → market_frame d d'.
Proof.
  intros [A1 A2 A3 A4 A5 A6]. destruct (same_bitassets d d' A6 A1) as (? & ? & ?). split; try done. by apply positions_same.
Qed.
Lemma bitasset_get d o i b : bitasset_data d o = Ok b → o.(ao_bitasset_data_id) = Some i → d.(d_bitasset_data).(objs) !! i = Some b.
Proof. unfold bitasset_data. intros H E. rewrite E in H. by apply index_get_Ok in H. Qed.

Lemma linked_get d a o b : linked d → d.(d_assets).(objs) !! a = Some o → bitasset_data d o = Ok b → b.(bd_asset_id) = a ∧ settled_price_ok b.
Proof.
  intros Hl Ho Hb. specialize (Hl _ _ Ho). cbn in Hl. unfold link_ok, bitasset_of in Hl. unfold bitasset_data in Hb.
  destruct (ao_bitasset_data_id o); [cbn in Hl|done]. apply index_get_Ok in Hb. by rewrite Hb in Hl.
Qed.

Lemma modify_bitasset_spec d o f d' b b' :
  modify_bitasset d o f = Ok d' → bitasset_data d o = Ok b → f b = Ok b' →
  b'.(bd_options) = b.(bd_options) → b'.(bd_asset_id) = b.(bd_asset_id) → (linked d → settled_price_ok b → settled_price_ok b') →
  (has_settlement b' = false → b'.(bd_settlement_fund) = 0) →
  flow d d' (λ x, of_asset x (fund_held b') - of_asset x (fund_held b)) ∧ market_frame d d' ∧
  d'.(d_dynamic_data) = d.(d_dynamic_data) ∧ d'.(d_limit_orders) = d.(d_limit_orders) ∧ d'.(d_call_orders) = d.(d_call_orders).
Proof.
  intros H Hb Hf Hopt Hid Hlink Hfund. pose proof H as H'. apply flow_modify_bitasset in H' as (b1 & b1' & E1 & E2 & F). rewrite Hb in E1. injection E1 as <-.
  rewrite Hf in E2. injection E2 as <-. split; [done|]. unfold modify_bitasset in H. apply bind_Ok in H as (i & Hi & H).
  apply bind_Ok in H as (j & Hj & [= <-]). apply from_option_Ok in Hi. unfold bitasset_data in Hb. rewrite Hi in Hb. apply index_get_Ok in Hb.
  apply index_modify_Ok in Hj as (v & v' & Hv & Hv' & ->). rewrite Hb in Hv. injection Hv as <-. rewrite Hf in Hv'. injection Hv' as <-.
  split; [|done]. split; try done.
  - intros H k x Hk. cbn in Hk. apply lookup_insert_Some in Hk as [[_ <-]|[_ Hk]]; [done|by apply (H k)].
  - intros a. unfold backing_of. cbn. destruct (_ !! a) as [q|]; [cbn|done]. destruct (ao_bitasset_data_id q) as [n|]; [cbn|done].
    destruct (decide (n = i)) as [->|Hne]; [|by rewrite lookup_insert_ne]. rewrite lookup_insert_eq, Hb. cbn. by rewrite Hopt.
  - intros Hl' a q Hq. pose proof (Hl' a q Hq) as Hl. cbn in Hl |- *. unfold link_ok, bitasset_of in *. cbn. destruct (ao_bitasset_data_id q) as [n|]; [cbn in *|done].
    destruct (decide (n = i)) as [->|Hne]; [|by rewrite lookup_insert_ne]. rewrite lookup_insert_eq. rewrite Hb in Hl. split; [rewrite Hid; apply Hl|].
    apply Hlink; [done|apply Hl].
  - by apply positions_same.
Qed.

Lemma globally_settle_spec d mia p d' :
  assets_ok d → funds_ok d → globally_settle_asset d mia p = Ok d' →
  conserves d d' ∧ market_frame d d' ∧ d'.(d_limit_orders) = d.(d_limit_orders).
Proof.
  intros Ha Hfunds H. unfold globally_settle_asset in H. apply bind_Ok in H as (o & Ho & H). apply bind_Ok in H as (b & Hb & H).
  apply bind_Ok in H as (u & Hu & H). apply FC_ASSERT_Ok, negb_true_iff in Hu. cbv zeta in H. apply bind_Ok in H as (ba & _ & H).
  apply bind_Ok in H as (x & Hx & H). apply bind_Ok in H as (cs & Hcs & H). apply bind_Ok in H as ([d1 g] & H1 & H).
  apply bind_Ok in H as (d2 & H2 & H3). destruct (calls_of_market _ _ _ _ Hcs) as [Hnd Hin].
  destruct (settle_positions_spec mia b.(bd_options).(bo_short_backing_asset) _ p _ d (Asset 0 b.(bd_options).(bo_short_backing_asset)) d1 g Ha eq_refl Hnd Hin H1) as (C & Hg & total & F & S).
  assert (b.(bd_settlement_fund) = 0) as Hz.
  { destruct o.(ao_bitasset_data_id) as [i|] eqn:Ei; [|unfold bitasset_data in Hb; by rewrite Ei in Hb].
    by apply (Hfunds _ _ (bitasset_get _ _ _ _ Hb Ei)). }
  assert (bitasset_data d1 o = Ok b) as Hb1 by (unfold bitasset_data; by rewrite (co_bitasset _ _ C)).
  destruct (make_price (Asset x.(dd_current_supply) mia) g) as [q|e] eqn:Eq.
  2: { apply flow_modify_bitasset in H2 as (b1 & b1' & E1 & E2 & _). apply bind_Ok in E2 as (? & E2 & _). congruence. }
  destruct (modify_bitasset_spec d1 o _ d2 b (b <| bd_settlement_price := q |> <| bd_settlement_fund := g.(amount) |>) H2 Hb1 eq_refl)
    as (F2 & M2 & D2 & L2 & _); [done|done| | |].
  { intros Hl _ _. unfold make_price in Eq. apply bind_Ok in Eq as (u1 & _ & [= <-]). cbn. split; [|exact Hg]. symmetry.
    apply index_get_Ok in Ho. destruct (co_setting _ _ C) as [E1 _]. rewrite <-E1 in Ho. by apply (linked_get _ _ _ _ Hl Ho Hb1). }
  { unfold has_settlement, price_is_null. cbn. unfold make_price in Eq. apply bind_Ok in Eq as (u1 & Hu1 & [= <-]).
    apply FC_ASSERT_Ok, negb_true_iff, Z.eqb_neq in Hu1. cbn in *. intros Hn. exfalso. apply negb_false_iff, andb_true_iff in Hn as [E1 E2].
    apply Z.eqb_eq in E1, E2. cbn in E1, E2. congruence. }
  rewrite (dyn_id _ _ _ Ha Ho) in *. apply from_option_Ok in Hx.
  destruct (S x.(dd_current_supply)) as (y & Hy & Hys); [by exists x|].
  assert (flow d2 d' (λ a, - of_asset a (Asset total mia))) as F3.
  { eapply flow_modify_dynamic_data_at; [exact H3|]. intros a s s' Hs [= <-]. rewrite D2, Hy in Hs. injection Hs as <-.
    unfold dyn_held, dyn_supply, of_asset, at_id. cbn. case_match; lia. }
  apply modify_dynamic_data_frame in H3. split; [|split].
  - flow_chain. eapply flow_ext; [eassumption|]. intros a. cbn beta. unfold fund_held. cbn. rewrite Hz. destruct g as [g gi]. cbn in *. subst gi.
    flow_arith.
  - etransitivity; [by apply calls_only_market|]. etransitivity; [exact M2|]. rewrite H3. apply market_of_step, step_dynamic_data.
  - rewrite H3. cbn. rewrite L2. apply C.
Qed.

Lemma check_for_blackswan_spec d mia e d' b :
  assets_ok d → funds_ok d → check_for_blackswan d mia e = Ok (d', b) →
  conserves d d' ∧ market_frame d d' ∧ d'.(d_limit_orders) = d.(d_limit_orders) ∧ (b = false → d' = d).
Proof.
  intros Ha Hf H. unfold check_for_blackswan in H. cbv zeta in H.
  assert (∀ b', Ok (d, b') = Ok (d', b) → conserves d d' ∧ market_frame d d' ∧ d'.(d_limit_orders) = d.(d_limit_orders) ∧ (b = false → d' = d)) as Hsame.
  { intros b' [= <- <-]. split; [apply flow_refl|]. by split; [reflexivity|]. }
  apply bind_Ok in H as (o & _ & H). destruct (negb _); [by eapply Hsame|]. apply bind_Ok in H as (bd & _ & H).
  destruct (has_settlement bd); [by eapply Hsame|]. destruct (price_is_null _); [by eapply Hsame|].
  apply bind_Ok in H as (cs & _ & H). destruct cs as [|[k c] cs]; [by eapply Hsame|].
  do 5 apply bind_Ok in H as (? & _ & H). destruct (price_ltb _ _); [by eapply Hsame|].
  apply bind_Ok in H as (? & _ & H). apply bind_Ok in H as (d1 & H1 & [= <- <-]).
  destruct (globally_settle_spec _ _ _ _ Ha Hf H1) as (F & M & L). split; [done|]. by split; [|split].
Qed.

Section margin_specs.
Context (cf mia : Z) (enable for_new : bool) (bitasset : asset_bitasset_data_object).
Implicit Types (d : database).

Lemma margin_amounts_out b buy sale p fl recv paid fc fl' :
  margin_amounts b buy sale p fl = Ok (recv, paid, fc, fl') → amount_in recv.
Proof using Type.
  unfold margin_amounts. intros H. apply bind_Ok in H as (m & _ & H). apply amount_out_in. destruct m.
  - apply bind_Ok in H as (x & Hx & H). apply bind_Ok in H as (y & _ & [= <- <- <- <-]). eapply asset_mul_out; eauto.
  - apply bind_Ok in H as (x & Hx & [= <- <- <- <-]). destruct b; eapply asset_mul_out; eauto.
Qed.

Lemma margin_trade_spec s k j ck cj c o s' :
  assets_ok s.(ms_db) → margin_trade cf mia for_new bitasset s k j ck cj c o = Ok s' →
  conserves s.(ms_db) s'.(ms_db) ∧ market_frame s.(ms_db) s'.(ms_db) ∧ s'.(ms_db).(d_bitasset_data) = s.(ms_db).(d_bitasset_data).
Proof using Type.
  intros Ha H. unfold margin_trade in H. cbv zeta in H. apply bind_Ok in H as (buy & _ & H).
  apply bind_Ok in H as ([[[recv paid] fc] fl] & Ham & H). apply bind_Ok in H as ([d1 b1] & H1 & H). apply bind_Ok in H as (calls & _ & H).
  apply bind_Ok in H as ([d2 b2] & H2 & [= <-]). cbn. apply margin_amounts_out in Ham as Hin.
  destruct (fill_call_order_spec _ _ _ _ _ _ _ _ Ha H1) as (F1 & L1 & _).
  destruct (fill_limit_order_spec _ _ _ _ _ _ _ _ _ _ (setting_assets _ _ (cf_setting _ _ _ L1) Ha) Hin H2) as (F2 & L2 & _).
  pose proof (cf_bitasset _ _ _ L1). pose proof (lf_bitasset _ _ _ L2). split; [|split; [|congruence]].
  2: { etransitivity; [|by eapply market_of_limit]. eapply calls_only_market, calls_only_frame; [done|by eapply fill_call_positions]. }
  eapply flow_ext; [exact (flow_trans _ _ _ _ _ F1 F2)|]. intros a. cbn beta. lia.
Qed.

Definition margin_inv d0 d : Prop := conserves d0 d ∧ market_frame d0 d.

Lemma margin_round_spec d0 s r :
  assets_ok s.(ms_db) → funds_ok s.(ms_db) → margin_inv d0 s.(ms_db) → margin_round cf mia enable for_new bitasset s = Ok r →
  match r with
  | inl s' => assets_ok s'.(ms_db) ∧ funds_ok s'.(ms_db) ∧ margin_inv d0 s'.(ms_db)
  | inr (d', _) => margin_inv d0 d'
  end.
Proof using Type.
  intros Ha Hf [C M] H. unfold margin_round in H. apply bind_Ok in H as ([d swan] & H1 & H).
  destruct (check_for_blackswan_spec _ _ _ _ _ Ha Hf H1) as (F1 & M1 & _ & E1).
  assert (margin_inv d0 d) as Hinv by (split; by etransitivity).
  destruct swan; [by injection H as <-|]. rewrite (E1 eq_refl) in *. clear E1.
  destruct s.(ms_calls) as [|k ck]; [by injection H as <-|]. destruct s.(ms_limits) as [|j cj]; [by injection H as <-|].
  apply bind_Ok in H as (c & _ & H). apply bind_Ok in H as (o & _ & H). cbv zeta in H.
  destruct (_ && _); [by injection H as <-|]. destruct (_ && _); [by injection H as <-|].
  apply bind_Ok in H as (pays & _ & H). apply bind_Ok in H as (uw & _ & H). destruct uw.
  - apply bind_Ok in H as (? & _ & H). apply bind_Ok in H as (d1 & Hg & [= <-]).
    destruct (globally_settle_spec _ _ _ _ Ha Hf Hg) as (F & M' & _). split; by etransitivity.
  - apply fmap_Ok in H as (s' & H & ->). destruct (margin_trade_spec _ _ _ _ _ _ _ _ Ha H) as (F & M' & E).
    split; [eapply setting_assets; [apply M'|done]|]. split; [unfold funds_ok; by rewrite E|]. split; by etransitivity.
Qed.
End margin_specs.

Lemma check_call_orders_spec cf d mia e n d' b :
  assets_ok d → funds_ok d → check_call_orders cf d mia e n = Ok (d', b) → conserves d d' ∧ market_frame d d'.
Proof.
  intros Ha Hf H. unfold check_call_orders in H. cbv zeta in H. apply bind_Ok in H as (? & _ & H). apply bind_Ok in H as (o & _ & H).
  assert (conserves d d ∧ market_frame d d) as Hrefl by (split; [apply flow_refl|reflexivity]).
  destruct (negb _); [by injection H as <- <-|]. apply bind_Ok in H as (bd & _ & H). apply bind_Ok in H as ([d1 swan] & H1 & H).
  destruct (check_for_blackswan_spec _ _ _ _ _ Ha Hf H1) as (F1 & M1 & _ & E1). destruct swan; [by injection H as <- <-|].
  rewrite (E1 eq_refl) in *. destruct (bd_is_prediction_market bd); [by injection H as <- <-|].
  destruct (price_is_null _); [by injection H as <- <-|]. apply bind_Ok in H as (hi & _ & H). apply bind_Ok in H as (lo & _ & H).
  destruct (negb _); [by injection H as <- <-|]. apply bind_Ok in H as (cs & _ & H). apply bind_Ok in H as (r & Hr & H).
  apply (while_inv _ (λ s, assets_ok s.(ms_db) ∧ funds_ok s.(ms_db) ∧ margin_inv d s.(ms_db)) (λ x, margin_inv d x.1)) in Hr.
  - destruct r as [s|[d2 b2]]; [done|]. by injection H as <- <-.
  - intros s r1 (A & B & C) Hr1. pose proof (margin_round_spec _ _ _ _ _ _ _ _ A B C Hr1) as Hs. by destruct r1 as [|[? ?]].
  - done.
Qed.

(** ** Bids *)
Lemma modified_bids d id o d' :
  remove_bid d id = Ok d' → get_bid d id = Ok o → flow d d' (λ a, - of_asset a o.(cb_inv_swan_price).(base)).
Proof.
  unfold remove_bid, get_bid. intros H Ho. apply bind_Ok in H as (i & Hi & [= <-]).
  exact (flow_index_remove d_collateral_bids _ (λ b, b.(cb_inv_swan_price).(base)) flow_collateral_bids d id _ o Hi Ho).
Qed.

(** What bids and their execution leave alone. *)
Record bids_frame (d d' : database) : Prop := {
  bf'_setting : same_setting d d';
  bf'_limit : d'.(d_limit_orders) = d.(d_limit_orders);
  bf'_settlements : d'.(d_settlements) = d.(d_settlements);
  bf'_bitasset : d'.(d_bitasset_data) = d.(d_bitasset_data) }.
#[export] Instance bids_frame_preorder : PreOrder bids_frame.
Proof. split; [by split|]. intros d1 d2 d3 [A1 A2 A3 A4] [B1 B2 B3 B4]. split; [by etransitivity|congruence..]. Qed.
Lemma bids_frame_step d d' : account_step d d' → bids_frame d d'.
Proof. intros H. apply account_step_frames in H as [Hs (A & B & C & D & E)]. by split. Qed.
Lemma removed_bid_frame d id d' : remove_bid d id = Ok d' → bids_frame d d'.
Proof. unfold remove_bid. intros H. by apply bind_Ok in H as (i & _ & [= <-]). Qed.
Lemma step_bid d d' id : account_step d d' → get_bid d' id = get_bid d id.
Proof. intros H. apply books_of_step in H as (_ & _ & _ & E & _). unfold get_bid. by rewrite E. Qed.

Lemma cancel_bid_spec d id vop d' : cancel_bid d id vop = Ok d' → conserves d d' ∧ bids_frame d d'.
Proof.
  unfold cancel_bid. intros H. apply bind_Ok in H as (b & Hb & H). apply bind_Ok in H as (d1 & H1 & H). cbv zeta in H.
  pose proof (accounts (P:=_ = Ok _) H1) as A1. apply flows in H1. set (d2 := if vop then _ else _) in H.
  assert (account_step d1 d2 ∧ flow d1 d2 (λ _, 0)) as [A2 F2].
  { subst d2. destruct vop; [split; [apply step_push|apply flow_push]|split; [reflexivity|apply flow_refl]]. }
  assert (account_step d d2) as A by (etransitivity; eassumption).
  pose proof (modified_bids _ _ b _ H) as F3. rewrite (step_bid _ _ _ A) in F3. specialize (F3 Hb).
  split; [|etransitivity; [by apply bids_frame_step|by eapply removed_bid_frame]].
  eapply flow_ext; [exact (flow_trans _ _ _ _ _ (flow_trans _ _ _ _ _ H1 F2) F3)|]. intros a. cbn beta. lia.
Qed.

Lemma created_call d c d' id : create_call_order d c = Ok (d', id) → flow d d' (λ a, of_asset a (get_collateral c)) ∧ bids_frame d d' ∧
  d'.(d_collateral_bids) = d.(d_collateral_bids).
Proof.
  unfold create_call_order. intros H. apply bind_Ok in H as (? & _ & H). apply bind_Ok in H as ([k i] & Hi & [= <- <-]).
  split; [exact (flow_index_create d_call_orders _ get_collateral flow_call_orders d c k i Hi)|]. by split.
Qed.

Lemma execute_bid_spec d id debt fund f d' :
  execute_bid d id debt fund f = Ok d' →
  ∃ b, get_bid d id = Ok b ∧ flow d d' (λ a, of_asset a (Asset fund b.(cb_inv_swan_price).(base).(asset_id))) ∧ bids_frame d d' ∧
    same_but id d.(d_collateral_bids) d'.(d_collateral_bids).
Proof.
  unfold execute_bid. intros H. apply bind_Ok in H as (b & Hb & H). cbv zeta in H. apply bind_Ok in H as (c & Hc & H).
  apply safe_add_Ok in Hc as ->. apply bind_Ok in H as (p & Hp & H). apply call_price_types in Hp as [Ep _]. cbn in Ep.
  apply bind_Ok in H as ([d1 k] & H1 & H). apply bind_Ok in H as (d2 & H2 & H). destruct (created_call _ _ _ _ H1) as (F1 & B1 & E1).
  assert (account_step d1 d2 ∧ flow d1 d2 (λ _, 0)) as [A2 F2].
  { destruct (_ =? CORE); [|injection H2 as <-; split; [reflexivity|apply flow_refl]].
    split; [exact (accounts (P:=_ = Ok _) H2)|]. eapply flow_ext; [eapply flow_modify_statistics; [exact H2|]|].
    - intros s s' Hwf Hs. apply bind_Ok in Hs as (n & _ & [= <-]). split; [exact Hwf|]. unfold stat_held. cbn. by rewrite Z.add_0_r.
    - flow_arith. }
  set (op := execute_bid_op _ _ _) in H.
  pose proof (step_push d2 op) as A3. pose proof (flow_push d2 op) as F3. set (d3 := push_applied_operation d2 op) in *.
  assert (account_step d1 d3) as A by (etransitivity; eassumption).
  assert (get_bid d3 id = Ok b) as Hb3 by (rewrite (step_bid _ _ _ A); unfold get_bid; by rewrite E1).
  pose proof (modified_bids _ _ _ _ H Hb3) as F4. exists b. split; [done|]. split; [|split].
  - flow_chain. eapply flow_ext; [eassumption|]. intros a. cbn beta. unfold get_collateral, collateral_type. cbn. rewrite Ep. flow_arith.
  - etransitivity; [exact B1|]. etransitivity; [by apply bids_frame_step|by eapply removed_bid_frame].
  - unfold remove_bid in H. apply bind_Ok in H as (i & Hi & [= <-]). apply index_remove_Ok in Hi as (v & _ & ->).
    apply books_of_step in A as (_ & _ & _ & E & _). rewrite E1 in E. rewrite <-E. apply same_but_remove.
Qed.

Lemma cancel_bids_spec l d d' : foldM (λ d id, cancel_bid d id true) d l = Ok d' → conserves d d' ∧ bids_frame d d'.
Proof.
  intros H. apply (foldM_inv _ (λ x, conserves d x ∧ bids_frame d x)) in H; [done| |split; [apply flow_refl|reflexivity]].
  intros x k x' [C B] Hx. apply cancel_bid_spec in Hx as [C' B']. split; by etransitivity.
Qed.

(** The bids go back, and what is left in the fund leaves it. *)
Lemma revive_mpa_spec d o mia d' b :
  _cancel_bids_and_revive_mpa d o mia = Ok d' → bitasset_data d o = Ok b →
  flow d d' (λ a, - of_asset a (fund_held b)) ∧ same_setting d d' ∧
  bitasset_data d' o = Ok (b <| bd_settlement_price := null_price |> <| bd_settlement_fund := 0 |>).
Proof.
  unfold _cancel_bids_and_revive_mpa. intros H Hb. apply bind_Ok in H as (? & _ & H). rewrite Hb, Ok_bind in H.
  do 2 apply bind_Ok in H as (? & _ & H). apply bind_Ok in H as (bids & _ & H). apply bind_Ok in H as (d1 & H1 & H2).
  apply cancel_bids_spec in H1 as [F1 [S1 _ _ E1]].
  assert (bitasset_data d1 o = Ok b) as Hb1 by (unfold bitasset_data; by rewrite E1).
  destruct (modify_bitasset_spec d1 o _ d' b _ H2 Hb1 eq_refl) as (F2 & [M2 _ _ _ _ _ _] & _); [done..|]. split; [|split; [by etransitivity|]].
  2: { unfold modify_bitasset in H2. apply bind_Ok in H2 as (n & Hn & H2). apply from_option_Ok in Hn. unfold bitasset_data in Hb1 |- *. rewrite Hn in *.
       apply bind_Ok in H2 as (i & Hi & [= <-]). apply index_modify_Ok in Hi as (v & v' & Hv & [= <-] & ->). apply index_get_Ok in Hb1.
       apply index_get_Ok. cbn. rewrite lookup_insert_eq. congruence. }
  eapply flow_ext; [exact (flow_trans _ _ _ _ _ F1 F2)|]. intros a. cbn beta. unfold fund_held. flow_arith.
Qed.

Lemma revive_bitasset_spec d mia d' :
  revive_bitasset d mia = Ok d' →
  conserves d d' ∧ same_setting d d' ∧
  ∃ o b, get_asset d mia = Ok o ∧ bitasset_data d' o = Ok b ∧ has_settlement b = false ∧ b.(bd_settlement_fund) = 0.
Proof.
  unfold revive_bitasset. intros H. apply bind_Ok in H as (o & Ho & H). apply bind_Ok in H as (? & _ & H).
  apply bind_Ok in H as (b & Hb & H). apply bind_Ok in H as (? & _ & H). apply bind_Ok in H as (bdd & _ & H).
  do 2 apply bind_Ok in H as (? & _ & H). apply bind_Ok in H as (d1 & H1 & H2).
  assert (flow d d1 (λ a, of_asset a (fund_held b)) ∧ bids_frame d d1) as [F1 B1].
  { destruct (0 <? _).
    - apply bind_Ok in H1 as (p & Hp & H1). unfold make_price in Hp. apply bind_Ok in Hp as (? & _ & [= <-]).
      apply bind_Ok in H1 as ([d2 k] & H3 & H4). unfold create_bid in H3. apply bind_Ok in H3 as (? & _ & H3).
      apply bind_Ok in H3 as ([k' i] & Hi & [= <- <-]).
      pose proof (flow_index_create d_collateral_bids _ (λ b, b.(cb_inv_swan_price).(base)) flow_collateral_bids d _ k' i Hi) as F3. cbn beta in F3.
      apply index_create_Ok in Hi as (-> & Hn & ->). apply execute_bid_spec in H4 as (b4 & Hb4 & F4 & B4 & _).
      apply index_get_Ok in Hb4. cbn in Hb4. rewrite lookup_insert_eq in Hb4. injection Hb4 as <-. split.
      + eapply flow_ext; [exact (flow_trans _ _ _ _ _ F3 F4)|]. intros a. cbn beta. unfold fund_held. cbn. flow_arith.
      + etransitivity; [|exact B4]. by split.
    - apply bind_Ok in H1 as (u & Hu & [= <-]). apply FC_ASSERT_Ok, Z.eqb_eq in Hu. split; [|reflexivity].
      eapply flow_ext; [apply flow_refl|]. intros a. cbn beta. unfold fund_held. rewrite Hu. flow_arith. }
  assert (bitasset_data d1 o = Ok b) as Hb1 by (unfold bitasset_data; by rewrite (bf'_bitasset _ _ B1)).
  destruct (revive_mpa_spec _ _ _ _ _ H2 Hb1) as (F2 & S2 & R2). split; [|split; [etransitivity; [apply B1|done]|by eexists o, _]].
  eapply flow_ext; [exact (flow_trans _ _ _ _ _ F1 F2)|]. intros a. cbn beta. lia.
Qed.

(** ** The fund is given out in full *)
Section take_overs.
Context (bad : asset_bitasset_data_object) (supply mia : Z).
#[local] Notation backing := (bad.(bd_options).(bo_short_backing_asset)).
Context (Hmia : ∃ x, asset_mul (Asset 0 backing) bad.(bd_settlement_price) = Ok x ∧ x.(asset_id) = mia).

Lemma fund_side z r : asset_mul (Asset z mia) bad.(bd_settlement_price) = Ok r → r.(asset_id) = backing.
Proof using Hmia.
  intros H. destruct Hmia as (x & Hx & Ex). apply (λ H, asset_mul_sides _ _ _ (or_introl H)) in H, Hx. cbn in *. destruct H as [[? ?]|[? ?]], Hx as [[? ?]|[? ?]]; congruence.
Qed.

Lemma bids_covering_spec covered l ids c :
  Forall (λ x, bid_debt_type x.2 = mia) l → bids_covering bad supply covered l = Ok (ids, c) →
  sublist ids l.*1 ∧ Forall (λ k, ∃ b, (k, b) ∈ l ∧ b.(cb_inv_swan_price).(base).(asset_id) = backing) ids.
Proof using Hmia.
  intros Hl H. revert covered ids c Hl H. induction l as [|[k b] l IH]; intros covered ids c Hl H; cbn in H.
  { injection H as <- <-. split; [constructor|done]. }
  apply Forall_cons in Hl as [Hb Hl]. cbn in Hb. destruct (covered <? supply); [|injection H as <- <-; split; [apply sublist_nil_l|done]].
  apply bind_Ok in H as (f & Hf & H). apply bind_Ok in H as (t & Ht & H). apply bind_Ok in H as (p & _ & H).
  destruct (negb _); [injection H as <- <-; split; [apply sublist_nil_l|done]|]. apply bind_Ok in H as (c1 & _ & H).
  apply bind_Ok in H as ([ids1 c2] & H1 & [= <- <-]). destruct (IH _ _ _ Hl H1) as [S F]. split; [cbn; by apply sublist_skip|].
  apply Forall_cons. split.
  - exists b. split; [set_solver|]. unfold bid_debt_type in Hb. rewrite Hb in Hf. apply fund_side in Hf.
    unfold asset_add in Ht. apply bind_Ok in Ht as (u & Hu & _). apply FC_ASSERT_Ok, Z.eqb_eq in Hu. congruence.
  - eapply Forall_impl; [exact F|]. intros j (bj & Hj & E). exists bj. split; [set_solver|done].
Qed.

Lemma take_overs_spec ids d c r d' c' r' :
  NoDup ids → Forall (λ k, ∃ b, get_bid d k = Ok b ∧ b.(cb_inv_swan_price).(base).(asset_id) = backing) ids →
  foldM (take_over bad supply) (d, c, r) ids = Ok (d', c', r') →
  flow d d' (λ a, of_asset a (Asset (r - r') backing)) ∧ bids_frame d d'.
Proof using Type.
  intros Hnd Hids H. revert d c r Hids H. induction ids as [|k ids IH]; intros d c r Hids H.
  { injection H as <- <- <-. split; [|reflexivity]. eapply flow_ext; [apply flow_refl|]. intros a. rewrite Z.sub_diag. flow_arith. }
  apply NoDup_cons in Hnd as [Hk Hnd]. apply Forall_cons in Hids as [(b & Hb & Eb) Hids]. cbn [foldM] in H.
  apply bind_Ok in H as ([[d1 c1] r1] & H1 & H). unfold take_over in H1. rewrite Hb, Ok_bind in H1. apply bind_Ok in H1 as (f & _ & H1).
  cbv zeta in H1. destruct (if c <=? _ then _ else _) as [debt coll] in H1. apply bind_Ok in H1 as (c2 & _ & H1).
  apply bind_Ok in H1 as (r2 & Hr2 & H1). apply safe_sub_Ok in Hr2 as ->. apply bind_Ok in H1 as (d2 & H2 & [= <- <- <-]).
  apply execute_bid_spec in H2 as (b2 & Hb2 & F2 & B2 & S2). rewrite Hb in Hb2. injection Hb2 as <-.
  destruct (IH Hnd d2 c2 (r - coll)) as [F3 B3]; [|exact H|].
  { apply Forall_forall. rewrite Forall_forall in Hids. intros j Hj. destruct (Hids j Hj) as (bj & Hbj & Ej). exists bj. split; [|done].
    unfold get_bid in *. apply index_get_Ok. apply index_get_Ok in Hbj. rewrite S2; [done|]. by intros ->. }
  split; [|by etransitivity]. eapply flow_ext; [exact (flow_trans _ _ _ _ _ F2 F3)|]. intros a. cbn beta. rewrite Eb. flow_arith.
Qed.
End take_overs.

Lemma process_bids_spec d bad d' :
  (∀ x o, asset_mul (Asset 0 bad.(bd_options).(bo_short_backing_asset)) bad.(bd_settlement_price) = Ok x →
     get_asset d x.(asset_id) = Ok o → bitasset_data d o = Ok bad) →
  process_bids d bad = Ok d' → conserves d d' ∧ same_setting d d'.
Proof.
  intros Hbad H. unfold process_bids in H. assert (conserves d d ∧ same_setting d d) as Hrefl by (split; [apply flow_refl|reflexivity]).
  destruct (bd_is_prediction_market bad); [by injection H as <-|]. destruct (price_is_null _); [by injection H as <-|]. cbv zeta in H.
  apply bind_Ok in H as (x & Hx & H). apply bind_Ok in H as (o & Ho & H). apply bind_Ok in H as (bdd & _ & H).
  apply bind_Ok in H as (bids & Hbids & H). apply bind_Ok in H as ([ids covered] & Hids & H). destruct (covered <? _); [by injection H as <-|].
  apply bind_Ok in H as ([[d1 c] r] & H1 & H). apply bind_Ok in H as (u & Hr & H). apply FC_ASSERT_Ok, Z.eqb_eq in Hr. subst r.
  apply bind_Ok in H as (? & _ & H2). pose proof (Hbad _ _ Hx Ho) as Hb. unfold bids_of in Hbids. apply bind_Ok in Hbids as (hi & _ & [= <-]).
  set (bids := range bid_ltb _ _) in Hids.
  destruct (bids_covering_spec bad bdd.(dd_current_supply) x.(asset_id) (ex_intro _ x (conj Hx eq_refl)) 0 bids ids covered) as [S F]; [|exact Hids|].
  { apply Forall_forall. intros [k b] Hk. apply elem_of_range in Hk as [_ Hk]. cbn in *. by apply andb_true_iff in Hk as [Hk%Z.eqb_eq _]. }
  destruct (take_overs_spec bad bdd.(dd_current_supply) ids d bdd.(dd_current_supply) bad.(bd_settlement_fund) d1 c 0) as [F1 B1]; [|  |exact H1|].
  - eapply sublist_NoDup; [|exact S]. apply range_NoDup.
  - eapply Forall_impl; [exact F|]. intros k (b & Hk & E). exists b. split; [|done]. apply index_get_Ok. by apply elem_of_range in Hk as [? _].
  - assert (bitasset_data d1 o = Ok bad) as Hb1 by (unfold bitasset_data; rewrite (bf'_bitasset _ _ B1); exact Hb).
    destruct (revive_mpa_spec _ _ _ _ _ H2 Hb1) as (F2 & S2 & _). split; [|etransitivity; [apply B1|done]].
    eapply flow_ext; [exact (flow_trans _ _ _ _ _ F1 F2)|]. intros a. cbn beta. unfold fund_held. flow_arith.
Qed.

(** ** What holds of the chain holds afterwards *)
Lemma chain_market d d' : market_frame d d' → chain_ok d → chain_ok d'.
Proof.
  intros M [A B C D E F]. pose proof (mf_setting _ _ M) as S.
  split; [by apply (setting_assets _ _ S)| |by apply (mf_funds _ _ M)|by apply (market_frame_backed _ _ M)| |by apply (mf_linked _ _ M)].
  - destruct S as (_ & _ & _ & _ & ->). exact B.
  - destruct S as (_ & _ & _ & E' & _). unfold modern, next_maintenance_time in *. by rewrite E'.
Qed.

Lemma clock_setting d d' : same_setting d d' → clock d' = clock d.
Proof. intros (_ & _ & _ & E & _). unfold clock, head_block_time, next_maintenance_time. by rewrite E. Qed.
Lemma chain_clock_market d d0 d' : clock d = clock d0 → market_frame d d' → chain_ok d → chain_ok d' ∧ clock d' = clock d0.
Proof. intros E M Hd. split; [by apply (chain_market _ _ M)|]. by rewrite (clock_setting _ _ (mf_setting _ _ M)). Qed.

(** The positions a revival leaves are those that were there and the one that
    takes over the debt. *)
Lemma execute_bid_positions d id debt fund f d' b :
  execute_bid d id debt fund f = Ok d' → get_bid d id = Ok b →
  ∀ k c, d'.(d_call_orders).(objs) !! k = Some c → d.(d_call_orders).(objs) !! k = Some c ∨
    (debt_type c = bid_debt_type b ∧ collateral_type c = b.(cb_inv_swan_price).(base).(asset_id)).
Proof.
  unfold execute_bid. intros H Hb. rewrite Hb, Ok_bind in H. cbv zeta in H. apply bind_Ok in H as (cc & _ & H).
  apply bind_Ok in H as (p & Hp & H). apply call_price_types in Hp as [Ec Ed]. cbn in Ec, Ed. apply bind_Ok in H as ([d1 j] & H1 & H). apply bind_Ok in H as (d2 & H2 & H).
  assert (d'.(d_call_orders) = d1.(d_call_orders)) as ->.
  { unfold remove_bid in H. apply bind_Ok in H as (i & _ & [= <-]). cbn. destruct (_ =? CORE); [|by injection H2 as <-].
    pose proof (accounts (P:=_ = Ok _) H2) as A. by apply account_step_frames in A as [_ (_ & B & _)]. }
  unfold create_call_order in H1. apply bind_Ok in H1 as (? & _ & H1). apply bind_Ok in H1 as ([j' i] & Hi & [= <- <-]).
  apply index_create_Ok in Hi as (-> & _ & ->). intros k c Hk. cbn in Hk. apply lookup_insert_Some in Hk as [[_ <-]|[_ Hk]]; [right|by left].
  unfold debt_type, collateral_type. cbn. by rewrite Ed, Ec.
Qed.
Lemma cancel_bids_calls l d d' : foldM (λ d id, cancel_bid d id true) d l = Ok d' → d'.(d_call_orders) = d.(d_call_orders).
Proof.
  intros H. apply (foldM_inv _ (λ x, x.(d_call_orders) = d.(d_call_orders))) in H; [done| |done]. intros x k x' E Hx. rewrite <-E. clear E.
  unfold cancel_bid in Hx. apply bind_Ok in Hx as (b & _ & Hx). apply bind_Ok in Hx as (d1 & H1 & Hx). cbv zeta in Hx.
  unfold remove_bid in Hx. apply bind_Ok in Hx as (i & _ & [= <-]). cbn. pose proof (accounts (P:=_ = Ok _) H1) as A. by apply account_step_frames in A as [_ (_ & B & _)].
Qed.

Lemma revive_mpa_chain d o mia d' :
  chain_ok d → _cancel_bids_and_revive_mpa d o mia = Ok d' → chain_ok d' ∧ clock d' = clock d.
Proof.
  intros Hd H. unfold _cancel_bids_and_revive_mpa in H. apply bind_Ok in H as (? & _ & H). apply bind_Ok in H as (b & Hb & H).
  do 2 apply bind_Ok in H as (? & _ & H). apply bind_Ok in H as (bids & _ & H). apply bind_Ok in H as (d1 & H1 & H2).
  pose proof (cancel_bids_calls _ _ _ H1) as E1. apply cancel_bids_spec in H1 as [_ [S1 L1 T1 B1]].
  assert (bitasset_data d1 o = Ok b) as Hb1 by (unfold bitasset_data; by rewrite B1).
  destruct (modify_bitasset_spec d1 o _ d' b _ H2 Hb1 eq_refl) as (_ & M2 & _); [done..|].
  assert (chain_ok d1 ∧ clock d1 = clock d) as [Hd1 C1].
  { split; [|by apply clock_setting]. destruct (same_bitassets d d1 B1 S1) as (F & K & G). destruct Hd as [A1 A2 A3 A4 A5 A6].
    pose proof (clock_setting _ _ S1) as C. injection C as _ C. split; [by apply (setting_assets _ _ S1)| |by apply F| | |by apply K].
    - destruct S1 as (_ & _ & _ & _ & ->). exact A2.
    - unfold backed. rewrite E1. intros k c Hk. rewrite G. by apply (A4 k).
    - unfold modern. by rewrite C. }
  by apply (chain_clock_market d1 d d' C1 M2).
Qed.

Lemma revive_bitasset_chain d mia d' : chain_ok d → revive_bitasset d mia = Ok d' → chain_ok d' ∧ clock d' = clock d.
Proof.
  intros Hd H. unfold revive_bitasset in H. apply bind_Ok in H as (o & Ho & H). apply bind_Ok in H as (? & _ & H).
  apply bind_Ok in H as (b & Hb & H). apply bind_Ok in H as (? & _ & H). apply bind_Ok in H as (bdd & _ & H).
  do 2 apply bind_Ok in H as (? & _ & H). apply bind_Ok in H as (d1 & H1 & H2).
  assert (chain_ok d1 ∧ clock d1 = clock d) as [Hd1 C1]; [|destruct (revive_mpa_chain _ _ _ _ Hd1 H2); split; [done|congruence]].
  destruct (0 <? _); [|apply bind_Ok in H1 as (u & _ & [= <-]); done].
  apply bind_Ok in H1 as (p & Hp & H1). unfold make_price in Hp. apply bind_Ok in Hp as (? & _ & [= <-]).
  apply bind_Ok in H1 as ([d2 k] & H3 & H4). unfold create_bid in H3. apply bind_Ok in H3 as (? & _ & H3).
  apply bind_Ok in H3 as ([k' i] & Hi & [= <- <-]). apply index_create_Ok in Hi as (-> & Hn & ->). match type of H4 with execute_bid ?x _ _ _ _ = _ => set (d2 := x) in H4 end.
  assert (chain_ok d2) as Hd2 by (destruct Hd; by split). destruct (execute_bid_spec _ _ _ _ _ _ H4) as (b4 & Hb4 & _ & [S4 L4 T4 B4] & _).
  pose proof (execute_bid_positions _ _ _ _ _ _ _ H4 Hb4) as P. apply index_get_Ok in Hb4. cbn in Hb4. rewrite lookup_insert_eq in Hb4. injection Hb4 as <-.
  destruct (same_bitassets d2 d1 B4 S4) as (F & K & G). pose proof (clock_setting _ _ S4) as C. split; [|exact C]. injection C as _ C.
  destruct Hd2 as [A1 A2 A3 A4 A5 A6]. split; [by apply (setting_assets _ _ S4)| |by apply F| | |by apply K].
  - destruct S4 as (_ & _ & _ & _ & ->). exact A2.
  - intros j c Hj. rewrite G. destruct (P _ _ Hj) as [Hj'|[-> ->]]; [by apply (A4 j)|]. cbn. unfold backing_of. cbn. apply index_get_Ok in Ho. rewrite Ho. cbn.
    unfold bitasset_data in Hb. destruct (ao_bitasset_data_id o); [cbn|done]. apply index_get_Ok in Hb. by rewrite Hb.
  - unfold modern. rewrite C. exact A5.
Qed.

(** *** What the positions pay

    A position that is closed leaves the index; its borrower gets the collateral that
    is left. *)
Lemma fill_call_closes d id pays receives fp mk d' :
  fill_call_order d id pays receives fp mk = Ok (d', true) →
  ∃ c, d.(d_call_orders).(objs) !! id = Some c ∧ collateral_type c = pays.(asset_id) ∧
    d'.(d_call_orders).(objs) = delete id d.(d_call_orders).(objs) ∧
    ∀ a i, (get_balance d' a i).(amount) = (get_balance d a i).(amount)
      + (if decide ((a, i) = (c.(cl_borrower), collateral_type c)) then c.(cl_collateral) - pays.(amount) else 0).
Proof.
  intros H. unfold fill_call_order in H. apply bind_Ok in H as (c & Hc & H). apply index_get_Ok in Hc.
  apply bind_Ok in H as (? & _ & H). apply bind_Ok in H as (? & U2 & H). apply FC_ASSERT_Ok, Z.eqb_eq in U2.
  apply bind_Ok in H as (? & _ & H). apply bind_Ok in H as (mia & _ & H). apply bind_Ok in H as (? & _ & H).
  apply bind_Ok in H as ([o' freed] & Hp & H). apply bind_Ok in H as (d1 & H1 & H). apply bind_Ok in H as (d2 & H2 & H).
  apply bind_Ok in H as (d3 & H3 & H). apply bind_Ok in H as (d4 & H4 & H). destruct freed as [fr|]; [|discriminate H].
  apply bind_Ok in H as (d6 & H6 & [= <-]). exists c. split; [done|]. split; [done|].
  assert (fr = Asset (c.(cl_collateral) - pays.(amount)) (collateral_type c)) as ->.
  { unfold fill_position in Hp. apply bind_Ok in Hp as (z & _ & Hp). apply bind_Ok in Hp as (y & Hy & Hp).
    apply safe_sub_Ok in Hy as ->. cbv zeta in Hp. destruct (z =? 0); [by injection Hp as <- <-|].
    destruct (_ <? _); [apply bind_Ok in Hp as (? & _ & Hp); apply bind_Ok in Hp as (? & _ & Hp)|]; discriminate Hp. }
  unfold modify_call_order in H1. apply bind_Ok in H1 as (i1 & Hi1 & [= <-]).
  apply index_modify_Ok in Hi1 as (c1 & c1' & _ & _ & ->). apply modify_dynamic_data_frame in H2.
  pose proof (adjust_balance_frame _ _ _ _ H3) as E3.
  assert (d4.(d_call_orders) = d3.(d_call_orders) ∧ d4.(d_balances) = d3.(d_balances)) as [C4 B4].
  { destruct (_ =? CORE); [|by injection H4 as <-]. apply bind_Ok in H4 as (d5 & H5 & H4).
    apply modify_statistics_frame in H5, H4. by rewrite H4, H5. }
  unfold remove_call_order in H6. apply bind_Ok in H6 as (i6 & Hi6 & [= <-]). apply index_remove_Ok in Hi6 as (c6 & _ & ->).
  split.
  - cbn. rewrite C4, E3. cbn. rewrite H2. cbn. apply delete_insert_eq.
  - intros a i. pose proof (adjust_balance_get _ _ _ _ a i H3) as G. unfold get_balance in G |- *. cbn [d_balances push_applied_operation] in *.
    cbn. rewrite B4, G, H2. done.
Qed.

(** What a position pays into the settlement fund: its debt at the settlement price,
    rounded up, and never more than its collateral. *)
Definition settlement_pays (p : price) (c : call_order_object) : Z :=
  match multiply_and_round_up (get_debt c) p with Ok x => Z.min x.(amount) c.(cl_collateral) | Err _ => 0 end.
Definition fund_share (p : price) (mia : Z) (c : call_order_object) : Z :=
  if debt_type c =? mia then settlement_pays p c else 0.
Definition collateral_back (p : price) (mia a i : Z) (c : call_order_object) : Z :=
  if (debt_type c =? mia) && bool_decide ((a, i) = (c.(cl_borrower), collateral_type c))
  then c.(cl_collateral) - settlement_pays p c else 0.

Lemma settle_position_pays p d g k d' g' :
  settle_position false p (d, g) k = Ok (d', g') →
  ∃ c, d.(d_call_orders).(objs) !! k = Some c ∧ d'.(d_call_orders).(objs) = delete k d.(d_call_orders).(objs) ∧
    g'.(amount) = g.(amount) + settlement_pays p c ∧
    ∀ a i, (get_balance d' a i).(amount) = (get_balance d a i).(amount)
      + (if decide ((a, i) = (c.(cl_borrower), collateral_type c)) then c.(cl_collateral) - settlement_pays p c else 0).
Proof.
  intros H. unfold settle_position in H. apply bind_Ok in H as (c & Hc & H). cbn [negb] in H.
  apply bind_Ok in H as (pays & Hp & H). apply bind_Ok in H as (capped & Hcap & H). cbv zeta in H.
  apply bind_Ok in H as (g2 & Hg & H). apply bind_Ok in H as ([d2 filled] & H2 & H). apply bind_Ok in H as (u & Hu & [= -> ->]).
  apply FC_ASSERT_Ok in Hu. subst filled. apply fill_call_closes in H2 as (c' & Hc' & _ & E & B).
  apply index_get_Ok in Hc. rewrite Hc in Hc'. injection Hc' as <-.
  assert ((if capped then get_collateral c else pays).(amount) = settlement_pays p c) as Es.
  { unfold settlement_pays. rewrite Hp. unfold asset_lt in Hcap. apply bind_Ok in Hcap as (? & _ & [= <-]). cbn.
    destruct (Z.ltb_spec c.(cl_collateral) pays.(amount)); cbn; lia. }
  exists c. split; [done|]. split; [done|]. rewrite <-Es. split; [|exact B].
  unfold asset_add in Hg. apply bind_Ok in Hg as (? & _ & Hg). apply bind_Ok in Hg as (s & Hs & [= <-]).
  by apply safe_add_Ok in Hs as ->.
Qed.

(** Together the positions of the market pay the fund and get the rest back. *)
Lemma settle_positions_pay p mia l d g d' g' :
  (∀ k c, k ∈ l → d.(d_call_orders).(objs) !! k = Some c → debt_type c = mia) →
  foldM (settle_position false p) (d, g) l = Ok (d', g') →
  g'.(amount) + msum (λ _, fund_share p mia) d'.(d_call_orders).(objs)
    = g.(amount) + msum (λ _, fund_share p mia) d.(d_call_orders).(objs) ∧
  ∀ a i, (get_balance d' a i).(amount) + msum (λ _, collateral_back p mia a i) d'.(d_call_orders).(objs)
    = (get_balance d a i).(amount) + msum (λ _, collateral_back p mia a i) d.(d_call_orders).(objs).
Proof.
  revert d g. induction l as [|k l IH]; intros d g Hl H; [by injection H as <- <-|].
  cbn [foldM] in H. apply bind_Ok in H as ([d1 g1] & H1 & H).
  apply settle_position_pays in H1 as (c & Hc & E & Hg & B). destruct (IH d1 g1) as [IG IB]; [|exact H|].
  { intros j cj Hj Hcj. rewrite E in Hcj. apply lookup_delete_Some in Hcj as [_ Hcj]. apply (Hl j); [by apply list_elem_of_further|done]. }
  assert (debt_type c = mia) as Hm by (apply (Hl k); [apply list_elem_of_here|done]).
  rewrite E, (msum_delete _ _ _ _ Hc) in IG. split.
  - rewrite IG, Hg. unfold fund_share at 2. rewrite Hm, Z.eqb_refl. lia.
  - intros a i. rewrite IB, E, B, (msum_delete _ _ _ _ Hc). unfold collateral_back at 2. rewrite Hm, Z.eqb_refl. cbn [andb].
    case_bool_decide; case_decide; try done; lia.
Qed.
(** Every position of the list is closed. *)
Lemma settle_positions_gone before_342 p l d g d' g' :
  assets_ok d → foldM (settle_position before_342 p) (d, g) l = Ok (d', g') →
  positions_kept d d' ∧ ∀ k, k ∈ l → d'.(d_call_orders).(objs) !! k = None.
Proof.
  revert d g. induction l as [|k l IH]; intros d g Ha H.
  { injection H as <- <-. split; [reflexivity|]. intros k Hk. by apply elem_of_nil in Hk. }
  cbn [foldM] in H. apply bind_Ok in H as ([d1 g1] & H1 & H). unfold settle_position in H1.
  apply bind_Ok in H1 as (c & _ & H1). apply bind_Ok in H1 as (pays & _ & H1). apply bind_Ok in H1 as (capped & _ & H1). cbv zeta in H1.
  apply bind_Ok in H1 as (g2 & _ & H1). apply bind_Ok in H1 as ([d2 filled] & H2 & H1). apply bind_Ok in H1 as (u & Hu & [= -> ->]).
  apply FC_ASSERT_Ok in Hu. subst filled. pose proof (fill_call_positions _ _ _ _ _ _ _ _ Ha H2) as P.
  destruct (fill_call_order_spec _ _ _ _ _ _ _ _ Ha H2) as (_ & L & ? & _ & _ & _ & _ & _ & Hgone).
  destruct (IH d1 g1) as [P' G]; [by eapply setting_assets; [apply L|]|done|]. split; [by etransitivity|].
  intros j Hj. apply elem_of_cons in Hj as [->|Hj]; [|by apply G].
  destruct (d'.(d_call_orders).(objs) !! k) as [c'|] eqn:E; [|done]. destruct (P' _ _ E) as (? & E' & _). congruence.
Qed.

(** The call prices the code computes fit the bounds of the index. *)
Definition price_fits (p : price) : Prop :=
  1 ≤ p.(base).(amount) ≤ GRAPHENE_MAX_SHARE_SUPPLY ∧ 1 ≤ p.(quote).(amount) ≤ GRAPHENE_MAX_SHARE_SUPPLY.
#[export] Instance price_fits_dec p : Decision (price_fits p).
Proof. unfold price_fits. apply _. Defined.
Lemma price_fits_between lo hi p b q :
  price_min b q = Ok lo → price_max b q = Ok hi → p.(base).(asset_id) = b → p.(quote).(asset_id) = q → price_fits p →
  price_leb lo p = true ∧ price_leb p hi = true.
Proof.
  unfold price_min, price_max, make_price. intros H1 H2 Eb Eq [F1 F2]. apply bind_Ok in H1 as (? & _ & [= <-]). apply bind_Ok in H2 as (? & _ & [= <-]).
  assert (GRAPHENE_MAX_SHARE_SUPPLY ≤ int64_max) by (unfold GRAPHENE_MAX_SHARE_SUPPLY, int64_max; lia).
  assert (1 ≤ GRAPHENE_MAX_SHARE_SUPPLY) by (unfold GRAPHENE_MAX_SHARE_SUPPLY; lia).
  unfold price_leb, price_ltb. cbn [base quote asset_id amount]. rewrite Eb, Eq, !Z.ltb_irrefl.
  rewrite !mul128_small by lia. rewrite !negb_true_iff, !Z.ltb_ge. nia.
Qed.

(** The positions of the market are the ones the settlement goes through. *)
Lemma in_calls_of d backing mia cs k c :
  calls_of d backing mia = Ok cs → d.(d_call_orders).(objs) !! k = Some c → debt_type c = mia → collateral_type c = backing →
  price_fits c.(cl_call_price) → k ∈ cs.*1.
Proof.
  unfold calls_of. intros H Hc E1 E2 F. apply bind_Ok in H as (lo & Hlo & H). apply bind_Ok in H as (hi & Hhi & [= <-]).
  destruct (price_fits_between _ _ _ _ _ Hlo Hhi E2 E1 F) as [L U]. apply list_elem_of_fmap. exists (k, c). split; [done|].
  apply elem_of_range. cbn. by rewrite L, U.
Qed.

Lemma globally_settle_state d mia p d' :
  assets_ok d → globally_settle_asset d mia p = Ok d' →
  ∃ o b b' x x' cs, get_asset d mia = Ok o ∧ bitasset_data d o = Ok b ∧ bitasset_data d' o = Ok b' ∧ has_settlement b' = true ∧
    get_dynamic_data d mia = Ok x ∧ get_dynamic_data d' mia = Ok x' ∧ x'.(dd_current_supply) = x.(dd_current_supply) ∧
    calls_of d b.(bd_options).(bo_short_backing_asset) mia = Ok cs ∧ positions_kept d d' ∧
    (∀ k, k ∈ cs.*1 → d'.(d_call_orders).(objs) !! k = None) ∧
    ∃ d1 g, foldM (settle_position (next_maintenance_time d <=? HARDFORK_CORE_342_TIME) p)
        (d, Asset 0 b.(bd_options).(bo_short_backing_asset)) cs.*1 = Ok (d1, g) ∧
      d'.(d_call_orders) = d1.(d_call_orders) ∧ d'.(d_balances) = d1.(d_balances) ∧
      b'.(bd_settlement_fund) = g.(amount) ∧ b'.(bd_settlement_price) = Price (Asset x.(dd_current_supply) mia) g.
Proof.
  intros Ha H. unfold globally_settle_asset in H. apply bind_Ok in H as (o & Ho & H). apply bind_Ok in H as (b & Hb & H).
  apply bind_Ok in H as (u & _ & H). cbv zeta in H. apply bind_Ok in H as (ba & _ & H).
  apply bind_Ok in H as (x & Hx & H). apply bind_Ok in H as (cs & Hcs & H). apply bind_Ok in H as ([d1 g] & H1 & H).
  apply bind_Ok in H as (d2 & H2 & H3). rewrite (dyn_id _ _ _ Ha Ho) in *.
  destruct (settle_positions_gone _ _ _ _ _ _ _ Ha H1) as [P G]. unfold modify_bitasset in H2. apply bind_Ok in H2 as (n & Hn & H2).
  apply bind_Ok in H2 as (i & Hi & [= <-]). apply index_modify_Ok in Hi as (v & v' & Hv & Hv' & ->).
  apply bind_Ok in Hv' as (q & Hq & [= <-]). apply modify_dynamic_data_Ok in H3 as (y & y' & Hy & [= <-] & ->).
  apply from_option_Ok in Hn. unfold make_price in Hq. apply bind_Ok in Hq as (w & Hw & [= <-]).
  apply FC_ASSERT_Ok, negb_true_iff, Z.eqb_neq in Hw. cbn in Hw. eexists o, b, _, x, _, cs.
  split; [done|]. split; [done|]. split; [unfold bitasset_data; rewrite Hn; apply index_get_Ok; cbn; apply lookup_insert_eq|].
  split; [unfold has_settlement, price_is_null; cbn; apply negb_true_iff, andb_false_iff; rewrite !Z.eqb_neq; lia|].
  split; [done|]. split; [apply from_option_Ok; cbn; apply lookup_insert_eq|]. split; [done|]. split; [done|].
  split; [done|]. split; [done|]. by exists d1, g.
Qed.

(** What a settlement leaves in the fund and with the borrowers, once no position of the
    asset is left. *)
Lemma globally_settle_fund d mia p d' :
  chain_ok d → globally_settle_asset d mia p = Ok d' → map_Forall (λ _ c, debt_type c ≠ mia) d'.(d_call_orders).(objs) →
  ∃ o b b' x, get_asset d mia = Ok o ∧ bitasset_data d o = Ok b ∧ bitasset_data d' o = Ok b' ∧ get_dynamic_data d mia = Ok x ∧
    b'.(bd_settlement_fund) = msum (λ _, fund_share p mia) d.(d_call_orders).(objs) ∧
    b'.(bd_settlement_price) = Price (Asset x.(dd_current_supply) mia) (Asset b'.(bd_settlement_fund) b.(bd_options).(bo_short_backing_asset)) ∧
    ∀ a i, (get_balance d' a i).(amount)
      = (get_balance d a i).(amount) + msum (λ _, collateral_back p mia a i) d.(d_call_orders).(objs).
Proof.
  intros Hd H Hgone. pose proof Hd as [Ha _ _ _ Hm _].
  destruct (globally_settle_state _ _ _ _ Ha H) as (o & b & b' & x & x' & cs & Ho & Hob & Hob' & _ & Hx & _ & _ & Hcs & _ & _ & d1 & g & Hf & Ec & Eb & Ef & Ep).
  exists o, b, b', x. do 4 (split; [done|]). destruct (calls_of_market _ _ _ _ Hcs) as [Hnd Hin].
  destruct (settle_positions_spec mia b.(bd_options).(bo_short_backing_asset) _ p _ d (Asset 0 b.(bd_options).(bo_short_backing_asset)) d1 g Ha eq_refl Hnd Hin Hf) as (_ & Hg & _).
  rewrite (proj2 (Z.leb_gt _ _) Hm) in Hf. apply settle_positions_pay with (mia := mia) in Hf as [HG HB].
  2: { intros k c Hk Hc. rewrite Forall_forall in Hin. destruct (Hin k Hk) as (c' & Hc' & Hdt & _). congruence. }
  rewrite <-Ec in HG, HB. cbn in HG. rewrite (msum_none _ d'.(d_call_orders).(objs)) in HG.
  2: { intros k c Hk. unfold fund_share. by rewrite (proj2 (Z.eqb_neq _ _) (Hgone _ _ Hk)). }
  split; [lia|]. split; [rewrite Ep, Ef; destruct g; cbn in *; by subst|]. intros a i. specialize (HB a i).
  rewrite (msum_none _ d'.(d_call_orders).(objs)) in HB; [unfold get_balance in *; rewrite Eb; lia|].
  intros k c Hk. unfold collateral_back. by rewrite (proj2 (Z.eqb_neq _ _) (Hgone _ _ Hk)).
Qed.
Lemma globally_settle_gone d mia p d' :
  chain_ok d → map_Forall (λ _ c, price_fits c.(cl_call_price)) d.(d_call_orders).(objs) →
  globally_settle_asset d mia p = Ok d' → map_Forall (λ _ c, debt_type c ≠ mia) d'.(d_call_orders).(objs).
Proof.
  intros Hd Hfits H. pose proof Hd as [Ha _ Hf Hb _ _].
  destruct (globally_settle_state _ _ _ _ Ha H) as (o & b & b' & x & x' & cs & Ho & Hob & Hob' & Hs & Hx & Hx' & E & Hcs & P & G & _).
  intros k c' Hk Hdt. destruct (P _ _ Hk) as (c & Hc & E1 & E2).
  specialize (Hfits _ _ Hc). specialize (Hb _ _ Hc). cbn in Hfits, Hb. rewrite G in Hk; [done|].
  apply (in_calls_of _ _ _ _ _ c Hcs Hc); [congruence| |done]. rewrite <-E1, Hdt in Hb. unfold backing_of in Hb.
  apply index_get_Ok in Ho. rewrite Ho in Hb. cbn in Hb. unfold bitasset_data in Hob.
  destruct o.(ao_bitasset_data_id) as [i|]; [|done]. cbn in Hb. apply index_get_Ok in Hob. rewrite Hob in Hb. by injection Hb.
Qed.

(** *** What a revival gives back *)
Lemma execute_bid_opens d id debt fund f d' b :
  execute_bid d id debt fund f = Ok d' → d.(d_collateral_bids).(objs) !! id = Some b →
  ∃ k p, d.(d_call_orders).(objs) !! k = None ∧
    call_price (Asset debt (bid_debt_type b)) (Asset (b.(cb_inv_swan_price).(base).(amount) + fund) b.(cb_inv_swan_price).(base).(asset_id))
      f.(pf_maintenance_collateral_ratio) = Ok p ∧
    d'.(d_call_orders).(objs)
      = <[k := CallOrder b.(cb_bidder) (b.(cb_inv_swan_price).(base).(amount) + fund) debt p None]> d.(d_call_orders).(objs) ∧
    d'.(d_collateral_bids).(objs) = delete id d.(d_collateral_bids).(objs) ∧ d'.(d_balances) = d.(d_balances).
Proof.
  unfold execute_bid. intros H Hb. apply bind_Ok in H as (b1 & Hb1 & H). apply index_get_Ok in Hb1. rewrite Hb in Hb1. injection Hb1 as <-.
  cbv zeta in H. apply bind_Ok in H as (cc & Hcc & H). apply safe_add_Ok in Hcc as ->.
  apply bind_Ok in H as (p & Hp & H). apply bind_Ok in H as ([d1 j] & H1 & H). apply bind_Ok in H as (d2 & H2 & H).
  unfold create_call_order in H1. apply bind_Ok in H1 as (? & _ & H1). apply bind_Ok in H1 as ([j' i] & Hi & [= <- <-]).
  apply index_create_Ok in Hi as (-> & Hn & ->). unfold remove_bid in H. apply bind_Ok in H as (i & Hi & [= <-]).
  apply index_remove_Ok in Hi as (? & _ & ->). eexists _, p. split; [exact Hn|]. split; [exact Hp|].
  destruct (_ =? CORE); [apply modify_statistics_frame in H2; rewrite H2; done|by injection H2 as <-].
Qed.

Lemma cancel_bid_gives d id vop d' :
  cancel_bid d id vop = Ok d' →
  ∃ b, d.(d_collateral_bids).(objs) !! id = Some b ∧ d'.(d_collateral_bids).(objs) = delete id d.(d_collateral_bids).(objs) ∧
    ∀ a i, (get_balance d' a i).(amount) = (get_balance d a i).(amount)
      + (if decide ((a, i) = (b.(cb_bidder), b.(cb_inv_swan_price).(base).(asset_id))) then b.(cb_inv_swan_price).(base).(amount) else 0).
Proof.
  unfold cancel_bid. intros H. apply bind_Ok in H as (b & Hb & H). apply index_get_Ok in Hb. apply bind_Ok in H as (d1 & H1 & H).
  pose proof (adjust_balance_frame _ _ _ _ H1) as E1. cbv zeta in H. exists b. split; [done|].
  unfold remove_bid in H. apply bind_Ok in H as (i & Hi & [= <-]). apply index_remove_Ok in Hi as (? & _ & ->). split.
  - destruct vop; cbn; by rewrite E1.
  - intros a j. rewrite <-(adjust_balance_get _ _ _ _ a j H1). by destruct vop.
Qed.

(** The bids for an asset that are given back, and what an account gets. *)
Definition bid_open (mia : Z) (hi : price) (b : collateral_bid_object) : bool :=
  (bid_debt_type b =? mia) && price_leb b.(cb_inv_swan_price) hi.
Definition given_back (mia : Z) (hi : price) (a i : Z) (b : collateral_bid_object) : Z :=
  if bid_open mia hi b && bool_decide ((a, i) = (b.(cb_bidder), b.(cb_inv_swan_price).(base).(asset_id)))
  then b.(cb_inv_swan_price).(base).(amount) else 0.

Lemma cancel_bids_give mia hi l d d' :
  NoDup l → (∀ k b, k ∈ l → d.(d_collateral_bids).(objs) !! k = Some b → bid_open mia hi b = true) →
  foldM (λ d id, cancel_bid d id true) d l = Ok d' →
  (∀ k, d'.(d_collateral_bids).(objs) !! k = if decide (k ∈ l) then None else d.(d_collateral_bids).(objs) !! k) ∧
  ∀ a i, (get_balance d' a i).(amount) + msum (λ _, given_back mia hi a i) d'.(d_collateral_bids).(objs)
    = (get_balance d a i).(amount) + msum (λ _, given_back mia hi a i) d.(d_collateral_bids).(objs).
Proof.
  intros Hnd. revert d. induction Hnd as [|k l Hk Hnd IH]; intros d Hl H.
  { injection H as <-. split; [|done]. intros j. rewrite decide_False; [done|apply not_elem_of_nil]. }
  cbn [foldM] in H. apply bind_Ok in H as (d1 & H1 & H). apply cancel_bid_gives in H1 as (b & Hb & E & B).
  destruct (IH d1) as [L S]; [|exact H|].
  { intros j bj Hj Hbj. rewrite E in Hbj. apply lookup_delete_Some in Hbj as [_ Hbj]. apply (Hl j); [by apply list_elem_of_further|done]. }
  split.
  - intros j. rewrite L, E. destruct (decide (j = k)) as [->|Hne].
    + rewrite lookup_delete_eq, (decide_True (P := k ∈ k :: l)) by apply list_elem_of_here. by case_decide.
    + rewrite lookup_delete_ne by done. destruct (decide (j ∈ l)) as [Hj|Hj].
      * rewrite decide_True; [done|by apply list_elem_of_further].
      * rewrite decide_False; [done|]. by intros [?|?]%elem_of_cons.
  - intros a i. rewrite S, E, B, (msum_delete _ _ _ _ Hb). unfold given_back at 2.
    rewrite (Hl k b) by (done || apply list_elem_of_here). cbn [andb]. case_bool_decide; case_decide; try done; lia.
Qed.

Lemma revive_mpa_gives_back d o mia d' b :
  _cancel_bids_and_revive_mpa d o mia = Ok d' → bitasset_data d o = Ok b →
  d'.(d_call_orders) = d.(d_call_orders) ∧
  ∃ hi, price_max b.(bd_options).(bo_short_backing_asset) mia = Ok hi ∧
    d'.(d_collateral_bids).(objs) = filter (λ x, bid_open mia hi x.2 = false) d.(d_collateral_bids).(objs) ∧
    ∀ a i, (get_balance d' a i).(amount)
      = (get_balance d a i).(amount) + msum (λ _, given_back mia hi a i) d.(d_collateral_bids).(objs).
Proof.
  unfold _cancel_bids_and_revive_mpa. intros H Hb. apply bind_Ok in H as (? & _ & H). rewrite Hb, Ok_bind in H.
  do 2 apply bind_Ok in H as (? & _ & H). apply bind_Ok in H as (bids & Hbids & H). apply bind_Ok in H as (d1 & H1 & H2).
  pose proof (cancel_bids_calls _ _ _ H1) as C1. unfold bids_of in Hbids. apply bind_Ok in Hbids as (hi & Hhi & [= <-]).
  assert (∀ k x, (k, x) ∈ range bid_ltb (λ x, (bid_debt_type x.2 =? mia) && price_leb x.2.(cb_inv_swan_price) hi) d.(d_collateral_bids)
    ↔ d.(d_collateral_bids).(objs) !! k = Some x ∧ bid_open mia hi x = true) as Hr by (intros ? ?; by rewrite elem_of_range).
  apply (cancel_bids_give mia hi) in H1 as [L S]; [|apply range_NoDup|].
  2: { intros k z Hk Hz. apply list_elem_of_fmap in Hk as ([k' y] & -> & Hk). apply Hr in Hk as [Hy Ho]. cbn in Hz. congruence. }
  assert (d1.(d_collateral_bids).(objs) = filter (λ w, bid_open mia hi w.2 = false) d.(d_collateral_bids).(objs)) as E1.
  { apply map_eq. intros k. rewrite L, map_lookup_filter. destruct (d.(d_collateral_bids).(objs) !! k) as [z|] eqn:Hz; [|by case_decide]. cbn.
    destruct (bid_open mia hi z) eqn:Hop; cbn.
    - rewrite decide_True; [by rewrite option_guard_False|]. apply list_elem_of_fmap. exists (k, z). by rewrite Hr.
    - rewrite decide_False; [by rewrite option_guard_True|]. intros ([k' y] & -> & Hy%Hr)%list_elem_of_fmap. cbn in Hz. destruct Hy. congruence. }
  unfold modify_bitasset in H2. apply bind_Ok in H2 as (n & _ & H2). apply bind_Ok in H2 as (j & _ & [= <-]). split; [exact C1|].
  exists hi. split; [done|]. split; [exact E1|]. intros a i. specialize (S a i). rewrite (msum_none _ d1.(d_collateral_bids).(objs)) in S.
  - change ((get_balance d1 a i).(amount) = (get_balance d a i).(amount) + msum (λ _, given_back mia hi a i) d.(d_collateral_bids).(objs)). lia.
  - intros k z Hz. rewrite E1 in Hz. apply map_lookup_filter_Some in Hz as [_ Hz]. cbn in Hz. unfold given_back. by rewrite Hz.
Qed.

(** The position that takes the fund of a revived asset. *)
Definition revived_positions (o : asset_object) (b : asset_bitasset_data_object) (mia supply : Z) (m m' : gmap Z call_order_object) : Prop :=
  if 0 <? supply then
    ∃ k p, m !! k = None ∧ m' = <[k := CallOrder o.(ao_issuer) b.(bd_settlement_fund) supply p None]> m ∧
      call_price (Asset supply mia) (Asset b.(bd_settlement_fund) b.(bd_options).(bo_short_backing_asset))
        b.(bd_current_feed).(pf_maintenance_collateral_ratio) = Ok p
  else b.(bd_settlement_fund) = 0 ∧ m' = m.

Lemma revive_bitasset_gives d mia d' :
  revive_bitasset d mia = Ok d' →
  ∃ o b x hi, get_asset d mia = Ok o ∧ bitasset_data d o = Ok b ∧ get_dynamic_data d o.(ao_dynamic_asset_data_id) = Ok x ∧
    revived_positions o b mia x.(dd_current_supply) d.(d_call_orders).(objs) d'.(d_call_orders).(objs) ∧
    price_max b.(bd_options).(bo_short_backing_asset) mia = Ok hi ∧
    d'.(d_collateral_bids).(objs) = filter (λ x, bid_open mia hi x.2 = false) d.(d_collateral_bids).(objs) ∧
    ∀ a i, (get_balance d' a i).(amount)
      = (get_balance d a i).(amount) + msum (λ _, given_back mia hi a i) d.(d_collateral_bids).(objs).
Proof.
  unfold revive_bitasset. intros H. apply bind_Ok in H as (o & Ho & H). apply bind_Ok in H as (? & _ & H).
  apply bind_Ok in H as (b & Hb & H). apply bind_Ok in H as (? & _ & H). apply bind_Ok in H as (dyn & Hx & H).
  do 2 apply bind_Ok in H as (? & _ & H). apply bind_Ok in H as (d1 & H1 & H2).
  assert (revived_positions o b mia dyn.(dd_current_supply) d.(d_call_orders).(objs) d1.(d_call_orders).(objs) ∧
    d1.(d_collateral_bids).(objs) = d.(d_collateral_bids).(objs) ∧ d1.(d_balances) = d.(d_balances) ∧ bitasset_data d1 o = Ok b) as (R & B & S & Hb1).
  { unfold revived_positions. destruct (0 <? _); [|apply bind_Ok in H1 as (u & Hu & [= <-]); by apply FC_ASSERT_Ok, Z.eqb_eq in Hu].
    apply bind_Ok in H1 as (p & Hp & H1). unfold make_price in Hp. apply bind_Ok in Hp as (? & _ & [= <-]).
    apply bind_Ok in H1 as ([d2 k] & H3 & H4). unfold create_bid in H3. apply bind_Ok in H3 as (? & _ & H3).
    apply bind_Ok in H3 as ([k' i] & Hi & [= <- <-]). apply index_create_Ok in Hi as (-> & Hn & ->).
    pose proof H4 as H4'. apply execute_bid_spec in H4' as (_ & _ & _ & B4 & _).
    eapply execute_bid_opens in H4; [|cbn; apply lookup_insert_eq]. destruct H4 as (j & p & Hj & Hp & E1 & E2 & E3). cbn in E1, E2, E3, Hp.
    split; [by exists j, p|]. split; [rewrite E2; by apply delete_insert_id|]. split; [exact E3|].
    unfold bitasset_data in *. by rewrite (bf'_bitasset _ _ B4). }
  destruct (revive_mpa_gives_back _ _ _ _ _ H2 Hb1) as (C & hi & Hhi & F & G). exists o, b, dyn, hi.
  split; [done|]. split; [done|]. split; [done|]. split; [by rewrite C|]. split; [done|]. rewrite <-B. split; [done|].
  intros a i. rewrite G. unfold get_balance. by rewrite S.
Qed.

(** ** Properties *)

(** C9. A global settlement closes every position of the asset: each pays its debt at the
    settlement price, rounded up and at most its collateral, into the settlement fund,
    which holds exactly the sum; the rest of the collateral goes back to the borrowers
    and no other balance moves.  The supply stays as it was, the new settlement price
    is the supply against the fund, every unit of value is accounted for, and the
    chain stays well formed. *)
Theorem globally_settle_asset_settles d mia p d'
  (Hd : chain_ok d) (Hfits : map_Forall (λ _ c, price_fits c.(cl_call_price)) d.(d_call_orders).(objs))
  (H : globally_settle_asset d mia p = Ok d') :
  conserves d d' ∧ chain_ok d' ∧
  map_Forall (λ _ c, debt_type c ≠ mia) d'.(d_call_orders).(objs) ∧
  (∃ o b b' x x', get_asset d mia = Ok o ∧ bitasset_data d o = Ok b ∧ bitasset_data d' o = Ok b' ∧ has_settlement b' = true ∧
    get_dynamic_data d mia = Ok x ∧ get_dynamic_data d' mia = Ok x' ∧ x'.(dd_current_supply) = x.(dd_current_supply) ∧
    b'.(bd_settlement_fund) = msum (λ _, fund_share p mia) d.(d_call_orders).(objs) ∧
    b'.(bd_settlement_price) = Price (Asset x.(dd_current_supply) mia) (Asset b'.(bd_settlement_fund) b.(bd_options).(bo_short_backing_asset))) ∧
  ∀ a i, (get_balance d' a i).(amount)
    = (get_balance d a i).(amount) + msum (λ _, collateral_back p mia a i) d.(d_call_orders).(objs).
Proof.
  pose proof (globally_settle_gone _ _ _ _ Hd Hfits H) as Hgone. pose proof Hd as [Ha _ Hf _ _ _].
  destruct (globally_settle_spec _ _ _ _ Ha Hf H) as (F & M & _).
  destruct (globally_settle_fund _ _ _ _ Hd H Hgone) as (o & b & b' & x & Ho & Hb & Hb' & Hx & Ef & Ep & B).
  destruct (globally_settle_state _ _ _ _ Ha H) as (o1 & b1 & b1' & y & x' & _ & Ho1 & _ & Hb1' & Hs & Hy & Hx' & E & _).
  same_ok. split; [done|]. split; [by apply (chain_market _ _ M)|]. split; [done|]. split; [|done].
  by exists o1, b, b1', y, x'.
Qed.

Lemma market_chain_ok : chain_ok market_db.
Proof.
  split; [|by apply (bool_decide_unpack _)|by unfold funds_ok; apply (bool_decide_unpack _)|by unfold backed; apply (bool_decide_unpack _)|by apply (bool_decide_unpack _)|by unfold linked; apply (bool_decide_unpack _)].
  apply map_Forall_to_list. repeat constructor; cbn; try lia; done.
Qed.
Definition settle_price : price := Price (Asset 100 2) (Asset 150 0).
Definition settled_db : database := ok_or market_db (globally_settle_asset market_db 2 settle_price).

Lemma globally_settle_asset_settles_witness :
  is_ok (globally_settle_asset market_db 2 settle_price) = true ∧ conserves market_db settled_db ∧
  map_Forall (λ _ c, debt_type c ≠ 2) settled_db.(d_call_orders).(objs) ∧
  (get_balance settled_db 8 0).(amount) = (get_balance market_db 8 0).(amount) + 100 ∧
  ∃ o b, get_asset market_db 2 = Ok o ∧ bitasset_data settled_db o = Ok b ∧ b.(bd_settlement_fund) = 1500.
Proof.
  unfold settled_db. destruct (globally_settle_asset market_db 2 settle_price) as [d'|e] eqn:E; [|exfalso; vm_compute in E; discriminate E].
  destruct (globally_settle_asset_settles market_db 2 settle_price d' market_chain_ok ltac:(by apply (bool_decide_unpack _)) E)
    as (F & _ & G & (o & b & b' & x & x' & Ho & _ & Hb' & _ & _ & _ & _ & Hf & _) & B).
  split; [reflexivity|]. split; [exact F|]. split; [exact G|]. split.
  - cbn [ok_or]. rewrite (B 8 0). vm_compute. reflexivity.
  - exists o, b'. split; [exact Ho|]. split; [exact Hb'|]. rewrite Hf. vm_compute. reflexivity.
Defined.

(** C16. Margin calls keep the books balanced and the chain well formed, whatever they
    do: match positions with orders, stop at the feed, settle the asset. *)
Theorem check_call_orders_conserves cf d mia enable_black_swan for_new d' called
  (Hd : chain_ok d) (H : check_call_orders cf d mia enable_black_swan for_new = Ok (d', called)) :
  conserves d d' ∧ chain_ok d'.
Proof.
  destruct (check_call_orders_spec _ _ _ _ _ _ _ (co_assets _ Hd) (co_funds _ Hd) H) as [F M].
  split; [done|]. by apply (chain_market _ _ M).
Qed.

(** The position of account 8 is filled by the order of account 6. *)
Lemma check_call_orders_conserves_witness :
  ∃ d', check_call_orders 0 market_db 2 true false = Ok (d', true) ∧ conserves market_db d' ∧ chain_ok d'.
Proof.
  destruct (check_call_orders 0 market_db 2 true false) as [[d' b]|e] eqn:E; [|exfalso; vm_compute in E; discriminate E].
  assert (b = true) as -> by (vm_compute in E; by injection E as _ <-).
  exists d'. split; [reflexivity|]. exact (check_call_orders_conserves 0 market_db 2 true false d' true market_chain_ok E).
Defined.

(** C17. A settled asset that is revived is an ordinary asset again, with no settlement and
    an empty fund: when any of it is left, the whole fund backs the whole supply in one
    new position of the issuer, otherwise the fund was empty; no other position
    changes.  The open bids for the asset are gone and their owners have their
    collateral back, other bids and balances stay, and no unit is lost. *)
Theorem revive_bitasset_revives d mia d' (H : revive_bitasset d mia = Ok d') :
  conserves d d' ∧
  ∃ o b b' x hi, get_asset d mia = Ok o ∧ bitasset_data d o = Ok b ∧ get_dynamic_data d o.(ao_dynamic_asset_data_id) = Ok x ∧
    bitasset_data d' o = Ok b' ∧ has_settlement b' = false ∧ b'.(bd_settlement_fund) = 0 ∧
    revived_positions o b mia x.(dd_current_supply) d.(d_call_orders).(objs) d'.(d_call_orders).(objs) ∧
    price_max b.(bd_options).(bo_short_backing_asset) mia = Ok hi ∧
    d'.(d_collateral_bids).(objs) = filter (λ x, bid_open mia hi x.2 = false) d.(d_collateral_bids).(objs) ∧
    ∀ a i, (get_balance d' a i).(amount)
      = (get_balance d a i).(amount) + msum (λ _, given_back mia hi a i) d.(d_collateral_bids).(objs).
Proof.
  pose proof H as H'. apply revive_bitasset_spec in H as (F & _ & o & b' & Ho & R). split; [done|].
  apply revive_bitasset_gives in H' as (o1 & b & x & hi & Ho1 & G). same_ok. exists o1, b, b', x, hi. tauto.
Qed.

Lemma revive_bitasset_revives_witness :
  ∃ d', revive_bitasset settled_db 2 = Ok d' ∧ conserves settled_db d' ∧
    ∃ o b b' x, get_asset settled_db 2 = Ok o ∧ bitasset_data settled_db o = Ok b ∧ bitasset_data d' o = Ok b' ∧ has_settlement b' = false ∧
      revived_positions o b 2 x.(dd_current_supply) settled_db.(d_call_orders).(objs) d'.(d_call_orders).(objs) ∧
      b.(bd_settlement_fund) = 1500 ∧ x.(dd_current_supply) = 2500.
Proof.
  destruct (revive_bitasset settled_db 2) as [d'|e] eqn:E; [|exfalso; vm_compute in E; discriminate E].
  exists d'. split; [reflexivity|].
  destruct (revive_bitasset_revives settled_db 2 d' E) as (F & o & b & b' & x & hi & Ho & Hb & Hx & Hb' & Hs & _ & R & _). split; [exact F|].
  exists o, b, b', x. do 5 (split; [assumption|]). vm_compute in Ho. injection Ho as <-. split.
  - vm_compute in Hb. injection Hb as <-. reflexivity.
  - vm_compute in Hx. injection Hx as <-. reflexivity.
Defined.

(** When the bids of a settled asset cover its supply, the maintenance gives the
    whole fund to the winners' positions and revives the asset; otherwise it changes
    nothing; either way the books stay balanced. *)
Theorem process_bids_conserves d bad d'
  (Hbad : ∀ x o, asset_mul (Asset 0 bad.(bd_options).(bo_short_backing_asset)) bad.(bd_settlement_price) = Ok x →
     get_asset d x.(asset_id) = Ok o → bitasset_data d o = Ok bad)
  (H : process_bids d bad = Ok d') : conserves d d'.
Proof. by apply process_bids_spec in H as []. Qed.

(** Account 7 has bid 4000 for the whole debt. *)
Definition bid_db : database :=
  settled_db <| d_collateral_bids := Index {[ 0 := CollateralBid 7 (Price (Asset 4000 0) (Asset 2500 2)) ]} 1 |>.
Definition settled_bitasset : asset_bitasset_data_object := default market_bitasset (bid_db.(d_bitasset_data).(objs) !! 0).

Lemma process_bids_conserves_witness :
  ∃ d', process_bids bid_db settled_bitasset = Ok d' ∧ conserves bid_db d' ∧ size d'.(d_call_orders).(objs) = 1%nat.
Proof.
  destruct (process_bids bid_db settled_bitasset) as [d'|e] eqn:E; [|exfalso; vm_compute in E; discriminate E].
  exists d'. split; [reflexivity|]. split; [|vm_compute in E; injection E as <-; vm_compute; reflexivity].
  apply (process_bids_conserves bid_db settled_bitasset d'); [|exact E].
  intros x o Hx Ho. vm_compute in Hx. injection Hx as <-. vm_compute in Ho. injection Ho as <-. vm_compute. reflexivity.
Defined.
