(* ===== verification/Book.v ===== *)
(** * A new limit order and the book

    [apply_order] and [apply_order_before_hardfork_625] (db_market.cpp): a new
    order trades with the best orders of the other side, and with the margin
    positions that are called, until it is gone or nothing crosses it. *)
From S2P Require Import Prelude Safe Asset Objects Pricing Database Ledger Vesting Balance Evaluator Sample Market Fills Margin.

Section book.
Context (cancel_fee : Z).

(** The orders of the other side, from the best on, while [keep] holds; the
    result says whether the loop was finished by a match, and what is left. *)
Fixpoint match_limits (keep : limit_order_object → bool) (d : database) (order_id : Z) (l : list Z) :
    result (database * bool * list Z) :=
  match l with
  | [] => Ok (d, false, [])
  | k :: l' =>
      o ← get_limit_order d k;
      if keep o then
        '(d1, r) ← match_limit cancel_fee d order_id k o.(lo_sell_price);
        if r =? 2 then match_limits keep d1 order_id l' else Ok (d1, true, l')
      else Ok (d, false, l)
  end.

(** The orders that cross a new one. *)
Definition opposite (d : database) (sell_price : price) : result (list Z) :=
  let max_price := price_inv sell_price in
  hi ← price_max max_price.(base).(asset_id) max_price.(quote).(asset_id);
  Ok (limit_range d hi max_price).*1.

(** One round with the margin position of the least call price. *)
Definition call_round (order_id sell_asset recv_asset : Z) (call_match_price : price) (feed : price_feed) (d : database) :
    result (database + database * bool) :=
  call_min ← price_min recv_asset sell_asset;
  match range call_ltb (λ x, price_leb call_min x.2.(cl_call_price)) d.(d_call_orders) with
  | [] => Ok (inr (d, false))
  | (k, call) :: _ =>
      if negb (debt_type call =? sell_asset) || price_gtb call.(cl_call_price) (price_inv feed.(pf_settlement_price))
      then Ok (inr (d, false))
      else
        '(d1, r) ← match_call cancel_fee d order_id k call_match_price feed.(pf_settlement_price) feed.(pf_maintenance_collateral_ratio);
        Ok (if (r =? 1) || (r =? 3) then inr (d1, true) else inl d1)
  end.

(** The price at which the new order meets positions, if it does. *)
Definition calls_to_check (d : database) (sell_asset recv_asset : Z) (sell_price : price) : result (option (price * price_feed)) :=
  sell_obj ← get_asset d sell_asset;
  if negb (is_market_issued sell_obj) then Ok None
  else
    sell_abd ← bitasset_data d sell_obj;
    if (sell_abd.(bd_options).(bo_short_backing_asset) =? recv_asset) && negb sell_abd.(bd_is_prediction_market)
       && negb (has_settlement sell_abd) && negb (price_is_null sell_abd.(bd_current_feed).(pf_settlement_price))
    then
      squeeze ← max_short_squeeze_price sell_abd.(bd_current_feed);
      let call_match_price := price_inv squeeze in
      Ok (if price_leb (price_inv sell_price) call_match_price then Some (call_match_price, sell_abd.(bd_current_feed)) else None)
    else Ok None.

(** What is left of the new order, if it is still there. *)
Definition settle_new_order (d : database) (order_id : Z) : result (database * bool) :=
  match d.(d_limit_orders).(objs) !! order_id with
  | None => Ok (d, true)
  | Some _ => maybe_cull_small_order cancel_fee d order_id
  end.

Definition first_in_book (d : database) (order_id : Z) (o : limit_order_object) : bool :=
  match last (range limit_ltb (λ x, limit_ltb x (order_id, o)) d.(d_limit_orders)) with
  | Some (_, prev) => negb ((sell_asset_id prev =? sell_asset_id o) && (receive_asset_id prev =? receive_asset_id o))
  | None => true
  end.

Definition apply_order (d : database) (order_id : Z) : result (database * bool) :=
  new_order ← get_limit_order d order_id;
  let sell_asset := sell_asset_id new_order in
  let recv_asset := receive_asset_id new_order in
  if negb (first_in_book d order_id new_order) then Ok (d, false)
  else
    limits ← opposite d new_order.(lo_sell_price);
    calls ← calls_to_check d sell_asset recv_asset new_order.(lo_sell_price);
    '(d1, finished, rest) ← match calls with
      | None => Ok (d, false, limits)
      | Some (call_match_price, feed) =>
          '(d1, finished, rest) ← match_limits (λ o, price_gtb o.(lo_sell_price) call_match_price) d order_id limits;
          if finished : bool then Ok (d1, true, rest)
          else
            r ← while_loop book_rounds (call_round order_id sell_asset recv_asset call_match_price feed) d1;
            '(d2, finished) ← loop_result r;
            Ok (d2, finished, rest)
      end;
    d2 ← (if finished : bool then Ok d1 else '(d2, _, _) ← match_limits (λ _, true) d1 order_id rest; Ok d2);
    settle_new_order d2 order_id.

(** Before the hard fork, positions were called first and afterwards. *)
Definition apply_order_before_hardfork_625 (d : database) (order_id : Z) (allow_black_swan : bool) : result (database * bool) :=
  new_order ← get_limit_order d order_id;
  let sell_asset := sell_asset_id new_order in
  to_receive ← asset_mul (amount_for_sale new_order) new_order.(lo_sell_price);
  let recv_asset := to_receive.(asset_id) in
  _ ← get_asset d sell_asset;
  _ ← get_asset d recv_asset;
  '(d1, called1) ← check_call_orders cancel_fee d sell_asset allow_black_swan true;
  '(d2, called2) ← check_call_orders cancel_fee d1 recv_asset allow_black_swan true;
  if (called1 || called2) && negb (bool_decide (is_Some (d2.(d_limit_orders).(objs) !! order_id))) then Ok (d2, true)
  else
    new_order ← get_limit_order d2 order_id;
    limits ← opposite d2 new_order.(lo_sell_price);
    '(d3, _, _) ← match_limits (λ _, true) d2 order_id limits;
    '(d4, _) ← check_call_orders cancel_fee d3 sell_asset allow_black_swan false;
    '(d5, _) ← check_call_orders cancel_fee d4 recv_asset allow_black_swan false;
    match d5.(d_limit_orders).(objs) !! order_id with
    | None => Ok (d5, true)
    | Some _ => if head_block_time d5 <=? HARDFORK_555_TIME then Ok (d5, false) else maybe_cull_small_order cancel_fee d5 order_id
    end.
End book.

(** ** The book stays a book

    Prices are prices and amounts fit; only the new order and the orders it
    meets change. *)
Definition order_in_book (o : limit_order_object) : Prop := trade_price o.(lo_sell_price) ∧ amount_in (amount_for_sale o).
Definition limits_ok (d : database) : Prop := map_Forall (λ _ o, order_in_book o) d.(d_limit_orders).(objs).
(** Positions have a debt and a collateral, and a target the field can hold. *)
Definition position_in_book (c : call_order_object) : Prop :=
  position_ok c ∧ ∀ t, c.(cl_target_collateral_ratio) = Some t → 0 ≤ t < 65536.
Definition calls_ok (d : database) : Prop := map_Forall (λ _ c, position_in_book c) d.(d_call_orders).(objs).
Definition trades (P : Z → Prop) (d d' : database) : Prop := conserves d d' ∧ book_frame P d d'.
#[export] Instance trades_preorder P : PreOrder (trades P).
Proof.
  split; [intros d; split; [apply flow_refl|reflexivity]|]. intros d1 d2 d3 [A1 A2] [B1 B2]. split; by etransitivity.
Qed.
Lemma trades_weaken (P Q : Z → Prop) d d' : (∀ k, P k → Q k) → trades P d d' → trades Q d d'.
Proof. intros HPQ [A [B1 B2 B3 B4 B5]]. split; [done|]. split; try done. intros k Hk. apply B2. auto. Qed.
Lemma trades_assets P d d' : trades P d d' → assets_ok d → assets_ok d'.
Proof. intros [_ H]. apply setting_assets. apply H. Qed.
Lemma trades_modern P d d' : trades P d d' → modern d → modern d'.
Proof. intros [_ [(_ & _ & _ & E & _) _ _ _ _]]. unfold modern, next_maintenance_time. by rewrite E. Qed.

Lemma elem_of_opposite d s l k :
  opposite d s = Ok l → s.(base).(asset_id) ≠ s.(quote).(asset_id) ∧
  (k ∈ l → ∃ o, d.(d_limit_orders).(objs) !! k = Some o ∧ price_leb (price_inv s) o.(lo_sell_price) = true ∧
    sell_asset_id o = s.(quote).(asset_id) ∧ receive_asset_id o = s.(base).(asset_id)).
Proof.
  unfold opposite. intros H. apply bind_Ok in H as (hi & Hhi & [= <-]). apply price_max_Ok in Hhi as (Hne & Hb & Hq). cbn in *.
  split; [congruence|]. intros Hk. apply list_elem_of_fmap in Hk as ([k' o] & -> & Hk). apply elem_of_range in Hk as [Ho Hp]. cbn in *.
  apply andb_true_iff in Hp as [Hp1 Hp2]. exists o. split; [done|]. split; [done|]. apply (price_between (price_inv s) hi); try done.
Qed.

(** Orders keep their price. *)
Definition prices_kept (d d' : database) : Prop :=
  ∀ k o', d'.(d_limit_orders).(objs) !! k = Some o' →
    ∃ o, d.(d_limit_orders).(objs) !! k = Some o ∧ o'.(lo_sell_price) = o.(lo_sell_price).
#[export] Instance prices_kept_preorder : PreOrder prices_kept.
Proof.
  split; [intros d k o H; by exists o|]. intros d1 d2 d3 H1 H2 k o H.
  destruct (H2 _ _ H) as (o2 & Ho2 & E2). destruct (H1 _ _ Ho2) as (o1 & Ho1 & E1). exists o1. split; [done|congruence].
Qed.

Section book_specs.
Context (cf : Z).
Implicit Types (d : database).

Lemma fill_limit_book d id pays receives cull fp mk d' b :
  assets_ok d → limits_ok d → amount_in receives → 0 ≤ pays.(amount) →
  (∀ o, d.(d_limit_orders).(objs) !! id = Some o → pays.(amount) ≤ o.(lo_for_sale)) →
  fill_limit_order cf d id pays receives cull fp mk = Ok (d', b) → limits_ok d' ∧ prices_kept d d'.
Proof using Type.
  intros Ha Hb Hin H0 Hle H. destruct (fill_limit_order_spec _ _ _ _ _ _ _ _ _ _ Ha Hin H) as (_ & L & o & Ho & _ & G).
  apply index_get_Ok in Ho. specialize (Hle o Ho).
  assert (Hk : ∀ k o', d'.(d_limit_orders).(objs) !! k = Some o' →
    d.(d_limit_orders).(objs) !! k = Some o' ∨ k = id ∧ order_in_book o' ∧ o'.(lo_sell_price) = o.(lo_sell_price)).
  { intros k o' Hk. destruct (decide (k = id)) as [->|Hne]; [|left; by rewrite (lf_limit _ _ _ L) in Hk].
    right. split; [done|]. destruct b; [congruence|]. rewrite G in Hk. injection Hk as <-. split; [|done].
    destruct (Hb _ _ Ho) as [H1 H2]. split; [done|]. unfold amount_in, amount_for_sale in *. cbn in *. lia. }
  split.
  - intros k o' Hko. destruct (Hk _ _ Hko) as [Hd|(-> & Hd & _)]; [by apply (Hb k)|done].
  - intros k o' Hko. destruct (Hk _ _ Hko) as [Hd|(-> & _ & E)]; [by exists o'|by exists o].
Qed.

Lemma match_limit_book d u c p d' r :
  assets_ok d → modern d → limits_ok d → trade_price p → match_limit cf d u c p = Ok (d', r) → u ≠ c →
  limits_ok d' ∧ prices_kept d d'.
Proof using Type.
  intros Ha Hm Hb Hp H Hne. unfold match_limit in H. apply bind_Ok in H as (ou & Hu & H). apply bind_Ok in H as (oc & Hc & H).
  do 3 apply bind_Ok in H as (? & _ & H). apply bind_Ok in H as (am & Ham & H).
  destruct am as [[[recv paid] cull]|]; [|by injection H as <- <-].
  apply index_get_Ok in Hu, Hc. destruct (Hb _ _ Hu) as [_ Hou], (Hb _ _ Hc) as [_ Hoc].
  destruct (limit_amounts_out _ _ _ _ _ _ _ Ham (or_introl Hm)) as [Hr Hpd].
  destruct (limit_amounts_spec _ _ _ _ _ _ _ Hm Hp Hou Hoc Ham) as [(_ & _ & Br & Bp & _) _]. cbn in Br, Bp.
  apply bind_Ok in H as (? & _ & H). apply bind_Ok in H as ([d1 b1] & H1 & H). apply bind_Ok in H as ([d2 b2] & H2 & H).
  apply bind_Ok in H as (? & _ & [= <- <-]).
  pose proof (fill_limit_order_spec _ _ _ _ _ _ _ _ _ _ Ha Hr H1) as (_ & L1 & _).
  apply (fill_limit_book d) in H1 as [B1 K1]; [|done..|by destruct Hpd|intros o Ho; congruence].
  apply (fill_limit_book d1) in H2 as [B2 K2]; [split; [done|by etransitivity]|by eapply limit_frame_step|done..|by destruct Hr|].
  intros o Ho. rewrite (lf_limit _ _ _ L1) in Ho by done. congruence.
Qed.

(** What a position and a limit order trade. *)
Lemma call_amounts_spec t u buy p recv paid cull :
  HARDFORK_CORE_342_TIME < t → trade_price p → amount_in u → amount_in buy →
  call_amounts t u buy p = Ok (Some (recv, paid, cull)) →
  0 ≤ paid.(amount) ≤ u.(amount) ∧ paid.(amount) ≤ buy.(amount) ∧ paid.(asset_id) = u.(asset_id) ∧
  if cull then ∃ y, asset_mul (Asset (u.(amount) - paid.(amount)) u.(asset_id)) p = Ok (Asset 0 y) else paid = buy.
Proof using Type.
  intros Ht Hp Hu Hbuy H. unfold call_amounts in H. rewrite (proj2 (Z.leb_gt _ _) Ht) in H.
  apply bind_Ok in H as (b & Hle & H). apply asset_le_Ok in Hle as [Eid ->]. destruct (Z.leb_spec buy.(amount) u.(amount)); cbn [negb] in H.
  - apply bind_Ok in H as (r & Hr & [= <- <- <-]). unfold amount_in in *. split_and!; try done; lia.
  - apply bind_Ok in H as (r & Hr & H). destruct (_ && _); [done|]. apply bind_Ok in H as (cr & Hcr & [= <- <- <-]).
    destruct (down_up _ _ _ _ Hp Hu Hr Hcr) as (I & A & _).
    pose proof (amount_out_in _ (asset_mul_out _ _ _ (or_intror Hcr))) as Hcin.
    destruct (asset_mul_worth _ _ _ Hp Hu Hr) as [Hne _]. destruct (down_up _ _ _ _ Hp Hu Hr Hcr) as (_ & _ & _ & W).
    pose proof (asset_mul_sides _ _ _ (or_introl Hr)) as Hsides.
    assert (asset_mul (Asset (u.(amount) - cr.(amount)) u.(asset_id)) p = Ok (Asset 0 r.(asset_id))) as Hz.
    { apply buys_nothing; [done|unfold amount_in in *; cbn; lia| |cbn; congruence|cbn; tauto].
      unfold worth in *. cbn. rewrite I in W. lia. }
    unfold amount_in in *. split_and!; try done; try lia. by exists r.(asset_id).
Qed.
End book_specs.

Section call_specs.
Context (cf : Z).
Implicit Types (d : database).

(** What a fill leaves of a position is a position. *)
Lemma fill_call_book d id pays receives fp mk d' b :
  assets_ok d → calls_ok d → HARDFORK_CORE_343_TIME < next_maintenance_time d → 0 ≤ pays.(amount) → 0 ≤ receives.(amount) →
  (∀ c, d.(d_call_orders).(objs) !! id = Some c → receives.(amount) ≤ c.(cl_debt)) →
  fill_call_order d id pays receives fp mk = Ok (d', b) → calls_ok d'.
Proof using Type.
  intros Ha Hb Hm Hp Hr Hle H. destruct (fill_call_order_spec _ _ _ _ _ _ _ _ Ha H) as (_ & L & c & Hc & _ & _ & Hcol & G).
  apply index_get_Ok in Hc. specialize (Hle c Hc). intros k c' Hk.
  destruct (decide (k = id)) as [->|Hne]; [|rewrite (cf_call _ _ _ L) in Hk by done; by apply (Hb k)].
  destruct b; [destruct G; congruence|]. destruct G as (c2 & Hc2 & T1 & T2 & _ & Tt & Td & Td' & Tc).
  rewrite Hc2 in Hk. injection Hk as <-. destruct (Hb _ _ Hc) as [(D1 & C1 & Hne) Ht].
  assert (0 < c2.(cl_collateral)).
  { (* a position without collateral has no call price *)
    enough (c2.(cl_collateral) ≠ 0) by lia. intros Hz. unfold fill_call_order, get_call_order in H. rewrite (proj2 (index_get_Ok _ _ _) Hc) in H.
    cbn [mbind result_bind] in H. do 3 apply bind_Ok in H as (? & _ & H). apply bind_Ok in H as (mia & _ & H). apply bind_Ok in H as (? & _ & H).
    apply bind_Ok in H as ([o' freed] & Hpos & _). unfold fill_position in Hpos.
    apply bind_Ok in Hpos as (debt & Hd & Hpos). apply bind_Ok in Hpos as (coll & Hco & Hpos).
    apply safe_sub_Ok in Hd as ->. apply safe_sub_Ok in Hco as ->.
    destruct (Z.eqb_spec (c.(cl_debt) - receives.(amount)) 0); [lia|]. rewrite (proj2 (Z.ltb_lt _ _) Hm) in Hpos.
    apply bind_Ok in Hpos as (? & _ & Hpos). apply bind_Ok in Hpos as (p & Hcp & _). unfold call_price, rational in Hcp. cbn in Hcp.
    replace (c.(cl_collateral) - pays.(amount)) with 0 in Hcp by lia. discriminate Hcp. }
  split; [|intros t; rewrite Tt; apply Ht]. unfold position_ok. rewrite T1, T2, Td. split; [lia|]. split; [lia|done].
Qed.

Definition feed_ok (f : price_feed) : Prop :=
  wf_price f.(pf_settlement_price) ∧ 0 ≤ f.(pf_maintenance_collateral_ratio) < 65536.

Lemma debt_to_buy_ok d c mp f r :
  position_in_book c → wf_price mp → feed_ok f →
  debt_to_buy d c mp f.(pf_settlement_price) f.(pf_maintenance_collateral_ratio) = Ok r →
  0 ≤ r.(amount) ≤ c.(cl_debt) ∧ r.(asset_id) = debt_type c.
Proof using Type.
  intros [Hc Ht] Hm [Hf Hmcr] H. unfold debt_to_buy in H. destruct (_ <=? _).
  - injection H as <-. cbn. destruct Hc as [? _]. lia.
  - apply bind_Ok in H as (x & Hx & [= <-]). apply max_debt_bounds in Hx; [done|done..].
Qed.

Lemma match_call_book d u k mp f d' r :
  assets_ok d → modern d → limits_ok d → calls_ok d → trade_price mp → feed_ok f →
  match_call cf d u k mp f.(pf_settlement_price) f.(pf_maintenance_collateral_ratio) = Ok (d', r) →
  limits_ok d' ∧ calls_ok d' ∧ prices_kept d d'.
Proof using Type.
  intros Ha Hm Hb Hcb Hp Hf H. unfold match_call in H. apply bind_Ok in H as (ou & Hu & H). apply bind_Ok in H as (oc & Hc & H).
  do 3 apply bind_Ok in H as (? & _ & H). apply bind_Ok in H as (buy & Hbuy & H). apply bind_Ok in H as (am & Ham & H).
  destruct am as [[[recv paid] cull]|]; [|by injection H as <- <-].
  apply index_get_Ok in Hu, Hc. destruct (Hb _ _ Hu) as [_ Hou]. pose proof (Hcb _ _ Hc) as Hoc.
  destruct (debt_to_buy_ok _ _ _ _ _ Hoc (proj1 Hp) Hf Hbuy) as [Hba _]. pose proof Hoc as [((_ & Hmax) & _) _].
  assert (amount_in buy) as Hbin by (unfold amount_in, GRAPHENE_MAX_SHARE_SUPPLY, int64_max in *; lia).
  pose proof (call_amounts_out _ _ _ _ _ _ _ Ham) as Hr.
  destruct (call_amounts_spec _ _ _ _ _ _ _ Hm Hp Hou Hbin Ham) as (Hpd & Hpb & _ & _). cbn in Hpd.
  apply bind_Ok in H as ([d1 b1] & H1 & H). apply bind_Ok in H as ([d2 b2] & H2 & [= <- <-]).
  pose proof (fill_limit_order_spec _ _ _ _ _ _ _ _ _ _ Ha Hr H1) as (_ & L1 & _).
  pose proof (limit_frame_step _ _ _ L1 Ha) as Ha1.
  apply (fill_limit_book cf d) in H1 as [B1 K1]; [|done..|lia|intros o Ho; replace o with ou by congruence; lia].
  pose proof (fill_call_order_spec _ _ _ _ _ _ _ _ Ha1 H2) as (_ & L2 & _).
  apply (fill_call_book d1) in H2; [|done|intros i c Hi; rewrite (lf_call _ _ _ L1) in Hi; by apply (Hcb i)| |unfold amount_in in Hr; lia|lia|].
  - split; [|split; [done|]].
    + unfold limits_ok. by rewrite (cf_limit _ _ _ L2).
    + intros i o Hi. rewrite (cf_limit _ _ _ L2) in Hi. by apply K1.
  - destruct (lf_setting _ _ _ L1) as (_ & _ & _ & E & _). unfold modern, next_maintenance_time in *. rewrite E. exact Hm.
  - intros c Hci. rewrite (lf_call _ _ _ L1) in Hci. replace c with oc by congruence. lia.
Qed.
End call_specs.

(** ** The loop over the book *)

(** A remainder that buys nothing at a better price buys nothing at its own. *)
Definition crosses (s p : price) : Prop :=
  p.(base).(asset_id) = s.(quote).(asset_id) ∧ p.(quote).(asset_id) = s.(base).(asset_id) ∧ price_leb (price_inv s) p = true.
Lemma crosses_products s p : trade_price s → trade_price p → crosses s p →
  s.(quote).(amount) * p.(quote).(amount) ≤ s.(base).(amount) * p.(base).(amount).
Proof.
  intros [[] _] [[] _] (E1 & E2 & Hle). unfold price_leb in Hle. apply negb_true_iff in Hle.
  unfold price_ltb, price_inv in Hle. cbn in Hle. rewrite E1, E2, !Z.ltb_irrefl in Hle.
  rewrite !mul128_small in Hle by lia. apply Z.ltb_ge in Hle. lia.
Qed.
Lemma cross_nothing s p x y :
  trade_price s → trade_price p → crosses s p → amount_in x → x.(asset_id) = s.(base).(asset_id) →
  asset_mul x p = Ok y → y.(amount) = 0 → asset_mul x s = Ok (Asset 0 s.(quote).(asset_id)).
Proof.
  intros Hs Hp Hc Hx Eid Hy Hz. pose proof (crosses_products _ _ Hs Hp Hc). destruct Hc as (E1 & E2 & _).
  pose proof (asset_mul_worth _ _ _ Hp Hx Hy) as [_ [_ W]]. pose proof (asset_mul_sides _ _ _ (or_introl Hy)) as Hsides.
  destruct Hs as [Hws Hns], Hp as [Hwp Hnp].
  assert (y.(asset_id) = p.(base).(asset_id)) as Ey by (destruct Hsides as [[? ?]|[? ?]]; congruence).
  apply buys_nothing; [by split|done| |congruence|left; done].
  unfold worth, unit_worth in *. rewrite Hz, Ey, Eid, E1, E2, !Z.eqb_refl in *.
  destruct (Z.eqb_spec s.(quote).(asset_id) s.(base).(asset_id)); [congruence|].
  destruct (Z.eqb_spec s.(base).(asset_id) s.(quote).(asset_id)); [congruence|].
  destruct Hws, Hwp. unfold amount_in in Hx. nia.
Qed.

(** The order is gone, or what is left of it buys nothing. *)
Definition exhausted (d : database) (id : Z) : Prop :=
  ∀ o, d.(d_limit_orders).(objs) !! id = Some o → asset_mul (amount_for_sale o) o.(lo_sell_price) = Ok (Asset 0 (receive_asset_id o)).

Section loops.
Context (cf : Z) (id : Z) (s : price) (Hs : trade_price s).
Implicit Types (d : database).

Record book_inv d : Prop := {
  bi_assets : assets_ok d;
  bi_modern : modern d;
  bi_limits : limits_ok d;
  bi_price : ∀ o, d.(d_limit_orders).(objs) !! id = Some o → o.(lo_sell_price) = s }.
Definition met d (k : Z) : Prop := k ≠ id ∧ ∃ o, d.(d_limit_orders).(objs) !! k = Some o ∧ crosses s o.(lo_sell_price).

Lemma limit_amounts_none t u c p :
  limit_amounts t u c p = Ok None → ∃ y, asset_mul u p = Ok y ∧ y.(amount) = 0.
Proof using Type.
  unfold limit_amounts. intros H. apply bind_Ok in H as (cp & _ & H). apply bind_Ok in H as (b & _ & H). destruct b.
  - apply bind_Ok in H as (y & Hy & H). destruct (andb _ _) eqn:E; [apply andb_true_iff in E as [E _]; apply Z.eqb_eq in E; by exists y|].
    destruct (_ <=? _); [done|]. by apply bind_Ok in H as (? & _ & [=]).
  - apply bind_Ok in H as (? & _ & H). by apply bind_Ok in H as (? & _ & [=]).
Qed.

(** One match with an order that crosses. *)
Lemma match_round d k o d' r :
  book_inv d → k ≠ id → d.(d_limit_orders).(objs) !! k = Some o → crosses s o.(lo_sell_price) →
  match_limit cf d id k o.(lo_sell_price) = Ok (d', r) →
  trades (λ j, j = id ∨ j = k) d d' ∧ d'.(d_call_orders) = d.(d_call_orders) ∧ book_inv d' ∧
  if r =? 2 then d'.(d_limit_orders).(objs) !! k = None else exhausted d' id.
Proof using Hs.
  intros [Ha Hm Hl Hpr] Hne Ho Hx H. destruct (Hl _ _ Ho) as [Hpo _].
  destruct (match_limit_spec _ _ _ _ _ _ _ Ha (or_introl Hm) H (not_eq_sym Hne)) as (F & B & C & R).
  destruct (match_limit_book _ _ _ _ _ _ _ Ha Hm Hl Hpo H (not_eq_sym Hne)) as [Hl' K'].
  assert (trades (λ j, j = id ∨ j = k) d d') as T by done. split; [done|]. split; [done|]. split.
  { split; [by eapply trades_assets|by eapply trades_modern|done|]. intros o' Ho'. destruct (K' _ _ Ho') as (o1 & Ho1 & ->). by apply Hpr. }
  destruct R as [(-> & -> & R)|[Hr Hr0]]; cbn.
  - change (1 =? 2) with false. cbn. destruct R as (ou & oc & Hou & Hoc & Ham). intros o' Hou'. apply index_get_Ok in Hou, Hoc.
    replace o' with ou by congruence. replace oc with o in Ham by congruence.
    apply limit_amounts_none in Ham as (y & Hy & Hz). destruct (Hl _ _ Hou) as [_ Hin]. unfold receive_asset_id.
    pose proof (Hpr _ Hou) as Es. rewrite Es. eapply cross_nothing; try done. cbn. unfold sell_asset_id. by rewrite Es.
  - subst r. unfold limit_gone. destruct (bool_decide_reflect (d'.(d_limit_orders).(objs) !! id = None)) as [E|E];
      destruct (bool_decide_reflect (d'.(d_limit_orders).(objs) !! k = None)) as [E'|E']; cbn in *.
    + change (3 =? 2) with false. cbn. intros ou Hou. congruence.
    + change (1 =? 2) with false. cbn. intros ou Hou. congruence.
    + by change (2 =? 2) with true.
    + exfalso. unfold limit_gone in Hr0. rewrite !bool_decide_eq_false_2 in Hr0 by done. by apply Hr0.
Qed.

(** The loop: what it left behind is gone, what it did not reach is untouched. *)
Lemma match_limits_spec keep l d d' fin rest :
  book_inv d → NoDup l → Forall (met d) l → match_limits cf keep d id l = Ok (d', fin, rest) →
  trades (λ j, j = id ∨ j ∈ l) d d' ∧ d'.(d_call_orders) = d.(d_call_orders) ∧ book_inv d' ∧
  ∃ done, l = done ++ rest ∧ Forall (met d') rest ∧
    if fin : bool then exhausted d' id
    else (∀ k, k ∈ done → d'.(d_limit_orders).(objs) !! k = None) ∧
         (rest = [] ∨ ∃ k o, head rest = Some k ∧ d'.(d_limit_orders).(objs) !! k = Some o ∧ keep o = false).
Proof using Hs.
  intros Hi Hnd Hmet H. revert d Hi Hmet H. induction l as [|k l IH]; intros d Hi Hmet H.
  { injection H as <- <- <-. split; [reflexivity|]. split; [done|]. split; [done|]. exists []. split; [done|]. split; [done|].
    split; [by intros k Hk%elem_of_nil|by left]. }
  apply NoDup_cons in Hnd as [Hk Hnd]. apply Forall_cons in Hmet as [(Hne & o & Ho & Hx) Hmet]. cbn in H. unfold get_limit_order in H.
  rewrite (proj2 (index_get_Ok _ _ _) Ho) in H. cbn [mbind result_bind] in H. destruct (keep o) eqn:Ekeep.
  2: { injection H as <- <- <-. split; [reflexivity|]. split; [done|]. split; [done|]. exists []. split; [done|].
       split; [apply Forall_cons; split; [split; [done|by exists o]|done]|].
       split; [by intros j Hj%elem_of_nil|]. right. by exists k, o. }
  apply bind_Ok in H as ([d1 r] & H1 & H). destruct (match_round _ _ _ _ _ Hi Hne Ho Hx H1) as (T1 & C1 & I1 & R1).
  assert (Forall (met d1) l) as Hmet1.
  { apply Forall_forall. intros j Hj. rewrite Forall_forall in Hmet. destruct (Hmet j Hj) as (Hjne & oj & Hoj & Hxj). split; [done|].
    exists oj. split; [|done]. destruct T1 as [_ B1]. rewrite (bf_limit _ _ _ B1); [done|]. intros [->| ->]; [done|by apply Hk]. }
  assert (trades (λ j, j = id ∨ j ∈ k :: l) d d1) as T1'.
  { eapply trades_weaken; [|exact T1]. intros j [-> | ->]; [by left|right; set_solver]. }
  destruct (r =? 2).
  - destruct (IH Hnd _ I1 Hmet1 H) as (T2 & C2 & I2 & dn & El & Hrest & Hfin). split; [|split; [congruence|split; [done|]]].
    { etransitivity; [exact T1'|]. eapply trades_weaken; [|exact T2]. intros j [-> | Hj]; [by left|right; set_solver]. }
    exists (k :: dn). split; [by rewrite El|]. split; [done|]. destruct fin; [done|]. destruct Hfin as [Hgone Hkeep].
    split; [|done]. intros j [-> | Hj]%elem_of_cons; [|by apply Hgone]. destruct T2 as [_ B2]. rewrite (bf_limit _ _ _ B2); [done|].
    intros [-> |Hj]; [done|by apply Hk].
  - injection H as <- <- <-. split; [done|]. split; [done|]. split; [done|]. exists [k]. by split.
Qed.
End loops.

(** ** The loop over the positions *)
Section call_loop.
Context (cf : Z) (id : Z) (s mp : price) (f : price_feed) (Hs : trade_price s) (Hmp : trade_price mp) (Hf : feed_ok f).
Context (Hcross : crosses s mp).
Implicit Types (d : database).
#[local] Notation round := (call_round cf id s.(base).(asset_id) s.(quote).(asset_id) mp f).

Lemma call_amounts_none t u buy p :
  HARDFORK_CORE_342_TIME < t → call_amounts t u buy p = Ok None → ∃ y, asset_mul u p = Ok y ∧ y.(amount) = 0.
Proof using Type.
  unfold call_amounts. intros Ht H. rewrite (proj2 (Z.leb_gt _ _) Ht) in H. apply bind_Ok in H as (b & _ & H). destruct b; cbn [negb] in H.
  - by apply bind_Ok in H as (? & _ & [=]).
  - apply bind_Ok in H as (y & Hy & H). destruct (andb _ _) eqn:E; [apply andb_true_iff in E as [E _]; apply Z.eqb_eq in E; by exists y|].
    by apply bind_Ok in H as (? & _ & [=]).
Qed.

(** What the rounds keep. *)
Record call_inv d0 d : Prop := {
  ci_trades : trades (λ j, j = id) d0 d;
  ci_book : book_inv id s d;
  ci_calls : calls_ok d }.

Lemma call_round_spec d0 d r :
  call_inv d0 d → round d = Ok r →
  match r with
  | inl d' => call_inv d0 d'
  | inr (d', fin) => call_inv d0 d' ∧ if fin : bool then exhausted d' id else d' = d ∧ round d' = Ok (inr (d', false))
  end.
Proof using Hs Hmp Hf Hcross.
  intros [T [Ha Hm Hl Hpr] Hc] H. pose proof H as H'. unfold call_round in H. apply bind_Ok in H as (lo & Hlo & H).
  destruct (range _ _ _) as [|[k c] calls] eqn:Erange; [by injection H as <-|].
  destruct (orb _ _); [by injection H as <-|]. apply bind_Ok in H as ([d1 r1] & H1 & [= <-]).
  destruct (match_call_spec _ _ _ _ _ _ _ _ _ Ha H1) as (F1 & B1 & C1 & R1).
  destruct (match_call_book _ _ _ _ _ _ _ _ Ha Hm Hl Hc Hmp Hf H1) as (Hl1 & Hc1 & K1).
  assert (call_inv d0 d1) as Hi1.
  { assert (trades (λ j, j = id) d d1) as T1 by done. split; [by etransitivity| |done].
    split; [by eapply trades_assets|by eapply trades_modern|done|]. intros o' Ho'. destruct (K1 _ _ Ho') as (o1 & Ho1 & ->). by apply Hpr. }
  destruct (orb _ _) eqn:Er; [split; [done|]|done].
  destruct R1 as [(-> & -> & ou & buy & Hou & Ham)|Hr].
  - intros o Ho. apply index_get_Ok in Hou. replace o with ou by congruence.
    apply call_amounts_none in Ham as (y & Hy & Hz); [|done]. destruct (Hl _ _ Hou) as [_ Hin]. pose proof (Hpr _ Hou) as Es.
    unfold receive_asset_id. rewrite Es. eapply cross_nothing; try done. cbn. unfold sell_asset_id. by rewrite Es.
  - subst r1. unfold limit_gone in Er. destruct (bool_decide_reflect (d1.(d_limit_orders).(objs) !! id = None)) as [E|E].
    + intros o Ho. congruence.
    + by destruct (call_gone d1 k).
Qed.

Lemma call_loop_spec n d d' fin :
  book_inv id s d → calls_ok d → while_loop n round d = Ok (inr (d', fin)) →
  trades (λ j, j = id) d d' ∧ book_inv id s d' ∧ calls_ok d' ∧
  if fin : bool then exhausted d' id else round d' = Ok (inr (d', false)).
Proof using Hs Hmp Hf Hcross.
  intros Hb Hc H. apply (while_inv round (call_inv d)
    (λ x, call_inv d x.1 ∧ if x.2 : bool then exhausted x.1 id else round x.1 = Ok (inr (x.1, false)))) in H.
  - cbn in H. destruct H as ([T B C] & Q). done.
  - intros d1 r Hi Hr. pose proof (call_round_spec _ _ _ Hi Hr) as Hspec. destruct r as [d2|[d2 fin2]]; [done|]. cbn.
    destruct Hspec as [? Hq]. split; [done|]. destruct fin2; [done|]. by destruct Hq.
  - split; [split; [apply flow_refl|reflexivity]|done|done].
Qed.
End call_loop.

(** ** The new order *)

(** The feed of an asset is a price of it in its backing asset. *)
Definition feed_valid (mia : Z) (b : asset_bitasset_data_object) : Prop :=
  let f := b.(bd_current_feed) in let p := f.(pf_settlement_price) in
  0 ≤ f.(pf_maintenance_collateral_ratio) < 65536 ∧
  (price_is_null p = true ∨
   trade_price p ∧ p.(base).(asset_id) = mia ∧ p.(quote).(asset_id) = b.(bd_options).(bo_short_backing_asset) ∧
   0 < f.(pf_maximum_short_squeeze_ratio) < 65536).
#[export] Instance feed_valid_dec mia b : Decision (feed_valid mia b).
Proof. unfold feed_valid. apply _. Defined.
Definition feeds_ok (d : database) : Prop :=
  map_Forall (λ a o, if ok_or None (Some <$> bitasset_data d o) is Some b then feed_valid a b else True) d.(d_assets).(objs).

Record market_ok (d : database) : Prop := {
  mk_assets : assets_ok d;
  mk_modern : modern d;
  mk_limits : limits_ok d;
  mk_calls : calls_ok d;
  mk_feeds : feeds_ok d }.

Lemma calls_to_check_ok d s mp f :
  feeds_ok d → calls_to_check d s.(base).(asset_id) s.(quote).(asset_id) s = Ok (Some (mp, f)) →
  trade_price mp ∧ feed_ok f ∧ crosses s mp ∧ f.(pf_settlement_price).(base).(asset_id) = s.(base).(asset_id).
Proof.
  intros Hfeeds H. unfold calls_to_check in H. apply bind_Ok in H as (o & Ho & H). destruct (negb _); [done|].
  apply bind_Ok in H as (b & Hb & H). destruct (andb _ _) eqn:Eg; [|done]. apply bind_Ok in H as (q & Hq & H).
  destruct (price_leb _ _) eqn:Ele; [|done]. injection H as <- <-. rewrite !andb_true_iff in Eg. destruct Eg as (((E1 & _) & _) & E4).
  apply Z.eqb_eq in E1. apply index_get_Ok in Ho. specialize (Hfeeds _ _ Ho). cbn in Hfeeds. rewrite Hb in Hfeeds. cbn in Hfeeds.
  destruct Hfeeds as [Hm [Hnull|((Hw & Hne) & Eb & Eq & Hr)]]; [by rewrite Hnull in E4|].
  destruct (squeeze_price_ok _ _ Hw (proj1 Hr) Hq) as ((W1 & W2) & S1 & S2 & S3). split; [|split; [done|]].
  - split; [by split|]. cbn. congruence.
  - split; [split; [|split; [|done]]; cbn; congruence|congruence].
Qed.

Lemma call_round_stop cf id a b mp f d d' :
  call_round cf id a b mp f d = Ok (inr (d, false)) → d'.(d_call_orders) = d.(d_call_orders) →
  call_round cf id a b mp f d' = Ok (inr (d', false)).
Proof.
  unfold call_round. intros H E. rewrite E. apply bind_Ok in H as (lo & -> & H). cbn. destruct (range _ _ _) as [|[k c] l]; [done|].
  destruct (orb _ _); [done|]. apply bind_Ok in H as ([d1 r] & _ & H). by destruct (orb _ _).
Qed.

Lemma opposite_met d id o l :
  limits_ok d → get_limit_order d id = Ok o → opposite d o.(lo_sell_price) = Ok l → NoDup l ∧ Forall (met id o.(lo_sell_price) d) l.
Proof.
  intros Hl Ho H. split.
  - unfold opposite in H. apply bind_Ok in H as (hi & _ & [= <-]). apply range_NoDup.
  - apply Forall_forall. intros k Hk. destruct (elem_of_opposite _ _ _ k H) as [Hne Hin]. destruct (Hin Hk) as (ok & Hok & Hle & E1 & E2).
    split; [|exists ok; by split]. intros ->. apply index_get_Ok in Ho. replace ok with o in * by congruence. unfold sell_asset_id in E1. congruence.
Qed.

(** No order of the other side crosses once all of them are gone. *)
Lemma opposite_empty d d' id s l :
  opposite d s = Ok l → trades (λ j, j = id ∨ j ∈ l) d d' →
  (∀ o, d'.(d_limit_orders).(objs) !! id = Some o → o.(lo_sell_price) = s) →
  (∀ k, k ∈ l → d'.(d_limit_orders).(objs) !! k = None) → opposite d' s = Ok [].
Proof.
  intros H [_ B] Hid Hgone. unfold opposite in *. apply bind_Ok in H as (hi & Hhi & [= <-]). rewrite Hhi. cbn. f_equal.
  pose proof (price_max_Ok _ _ _ Hhi) as (Hne & Hb & Hq).
  unfold limit_range. set (r := range _ _ d'.(d_limit_orders)). enough (r = []) as -> by done.
  apply elem_of_nil_inv. intros [k o] Hk. subst r. apply elem_of_range in Hk as [Ho Hp]. cbn in Ho, Hp.
  apply andb_true_iff in Hp as Hp'. destruct Hp' as [Hp1 Hp2].
  assert (k ≠ id) as Hki.
  { intros ->. specialize (Hid _ Ho). destruct (price_between _ _ _ Hp2 Hp1) as [E1 E2]; [done..|]. rewrite Hid in E1. cbn in *. congruence. }
  destruct (decide (k ∈ (limit_range d hi (price_inv s)).*1)) as [Hin|Hout]; [by rewrite Hgone in Ho|].
  apply Hout. rewrite (bf_limit _ _ _ B) in Ho by tauto. apply list_elem_of_fmap. exists (k, o). split; [done|].
  by apply elem_of_range.
Qed.

Section apply.
Context (cf : Z) (d : database) (id : Z) (o : limit_order_object).
Context (Hm : market_ok d) (Ho : get_limit_order d id = Ok o).
#[local] Notation s := (o.(lo_sell_price)).

Lemma new_order_inv : trade_price s ∧ book_inv id s d.
Proof using Hm Ho.
  destruct Hm as [H1 H2 H3 _ _]. apply index_get_Ok in Ho as Ho'. destruct (H3 _ _ Ho') as [Hs _]. split; [done|].
  split; [done..|]. intros o' Ho2. congruence.
Qed.

(** Where the loops have left the state: the new order is exhausted, or nothing
    on the other side is left to meet. *)
Definition matched (l : list Z) (calls : option (price * price_feed)) (d' : database) : Prop :=
  trades (λ j, j = id ∨ j ∈ l) d d' ∧ book_inv id s d' ∧ calls_ok d' ∧
  (exhausted d' id ∨
   (∀ k, k ∈ l → d'.(d_limit_orders).(objs) !! k = None) ∧
   ∀ mp f, calls = Some (mp, f) → call_round cf id (sell_asset_id o) (receive_asset_id o) mp f d' = Ok (inr (d', false))).

Lemma second_pass l done rest d1 d2 fin r calls :
  NoDup l → l = done ++ rest → Forall (met id s d1) rest → trades (λ j, j = id ∨ j ∈ l) d d1 → book_inv id s d1 → calls_ok d1 →
  (∀ k, k ∈ done → d1.(d_limit_orders).(objs) !! k = None) → id ∉ l →
  (∀ mp f, calls = Some (mp, f) → call_round cf id (sell_asset_id o) (receive_asset_id o) mp f d1 = Ok (inr (d1, false))) →
  match_limits cf (λ _, true) d1 id rest = Ok (d2, fin, r) → matched l calls d2.
Proof using Hm Ho.
  intros Hnd El Hmet T Hb Hc Hdone Hid Hcalls H. destruct new_order_inv as [Hs _].
  assert (NoDup rest) as Hnr by (rewrite El in Hnd; by apply NoDup_app in Hnd as (_ & _ & ?)).
  destruct (match_limits_spec cf id s Hs (λ _, true) rest d1 d2 fin r Hb Hnr Hmet H) as (T2 & C2 & B2 & dn & Er & _ & Hfin).
  split; [|split; [done|split; [unfold calls_ok; by rewrite C2|]]].
  - etransitivity; [exact T|]. eapply trades_weaken; [|exact T2]. intros j [-> |Hj]; [by left|right; rewrite El; set_solver].
  - destruct fin; [by left|right]. destruct Hfin as [Hgone [-> |(k & ok & _ & _ & Hk)]]; [|done]. split.
    + intros k Hk. rewrite El, elem_of_app in Hk. destruct Hk as [Hk|Hk]; [|apply Hgone; rewrite Er, app_nil_r in Hk; done].
      destruct T2 as [_ Bf]. rewrite (bf_limit _ _ _ Bf); [by apply Hdone|]. intros [-> |Hkr]; [apply Hid; rewrite El; set_solver|].
      rewrite El in Hnd. apply NoDup_app in Hnd as (_ & Hdisj & _). by apply (Hdisj k).
    + intros mp f E. eapply call_round_stop; [by apply Hcalls|done].
Qed.

(** The first pass: the orders that are better than the positions, and the positions. *)
Definition first_pass (l : list Z) (calls : option (price * price_feed)) : result (database * bool * list Z) :=
  match calls with
  | None => Ok (d, false, l)
  | Some (call_match_price, feed) =>
      '(d1, finished, rest) ← match_limits cf (λ o, price_gtb o.(lo_sell_price) call_match_price) d id l;
      if finished : bool then Ok (d1, true, rest)
      else
        r ← while_loop book_rounds (call_round cf id (sell_asset_id o) (receive_asset_id o) call_match_price feed) d1;
        '(d2, finished) ← loop_result r;
        Ok (d2, finished, rest)
  end.

Lemma passes_spec l calls d1 fin rest d2 :
  opposite d s = Ok l → calls_to_check d (sell_asset_id o) (receive_asset_id o) s = Ok calls →
  first_pass l calls = Ok (d1, fin, rest) →
  (if fin : bool then Ok d1 else '(d2, _, _) ← match_limits cf (λ _, true) d1 id rest; Ok d2) = Ok d2 →
  matched l calls d2.
Proof using Hm Ho.
  intros Hl Hcalls H1 H2. destruct new_order_inv as [Hs Hb]. pose proof Hm as [_ _ Hlim Hc Hfeeds].
  destruct (opposite_met _ _ _ _ Hlim Ho Hl) as [Hnd Hmet].
  assert (id ∉ l) as Hid by (intros Hin; rewrite Forall_forall in Hmet; by destruct (Hmet id Hin)).
  destruct calls as [[mp f]|]; cbn in H1.
  2: { injection H1 as <- <- <-. apply bind_Ok in H2 as ([[d3 fin] r] & H2 & [= ->]).
       apply (second_pass l [] l d d2 fin r None); try done; try by intros k Hk%elem_of_nil. }
  destruct (calls_to_check_ok _ _ _ _ Hfeeds Hcalls) as (Hmp & Hf & Hx & _).
  apply bind_Ok in H1 as ([[d3 fin3] rest3] & H3 & H1).
  destruct (match_limits_spec cf id s Hs _ l d d3 fin3 rest3 Hb Hnd Hmet H3) as (T3 & C3 & B3 & dn & El & Hmet3 & Hfin).
  assert (calls_ok d3) as Hc3 by (unfold calls_ok; by rewrite C3).
  destruct fin3; [injection H1 as <- <- <-; injection H2 as <-; split; [done|]; split; [done|split; [done|by left]]|]. destruct Hfin as [Hgone _].
  apply bind_Ok in H1 as (r & H4 & H1). apply bind_Ok in H1 as ([d4 fin4] & H5 & [= <- <- <-]).
  destruct r as [|[d4' fin4']]; [done|]. injection H5 as -> ->.
  destruct (call_loop_spec cf id s mp f Hs Hmp Hf Hx _ _ _ _ B3 Hc3 H4) as (T4 & B4 & C4 & Q4).
  assert (trades (λ j, j = id ∨ j ∈ l) d d4) as T4'.
  { etransitivity; [exact T3|]. eapply trades_weaken; [|exact T4]. auto. }
  destruct fin4; [injection H2 as <-; split; [done|]; split; [done|split; [done|by left]]|].
  apply bind_Ok in H2 as ([[d5 fin] r] & H2 & [= ->]). destruct T4 as [_ F4].
  assert (Forall (met id s d4) rest3) as Hmet4.
  { apply Forall_forall. rewrite Forall_forall in Hmet3. intros k Hk. destruct (Hmet3 k Hk) as (Hne & ok & Hok & Hxk).
    split; [done|]. exists ok. by rewrite (bf_limit _ _ _ F4). }
  apply (second_pass l dn rest3 d4 d2 fin r (Some (mp, f)) Hnd El Hmet4 T4' B4 C4); [|exact Hid| |exact H2].
  - intros k Hk. rewrite (bf_limit _ _ _ F4); [by apply Hgone|]. intros ->. apply Hid. rewrite El. set_solver.
  - intros mp' f' [= <- <-]. exact Q4.
Qed.
Lemma feeds_kept d1 d2 :
  d2.(d_assets) = d1.(d_assets) → d2.(d_bitasset_data) = d1.(d_bitasset_data) → feeds_ok d1 → feeds_ok d2.
Proof using Type. unfold feeds_ok, bitasset_data. by intros -> ->. Qed.
Lemma matched_ok l calls d2 : matched l calls d2 → market_ok d2.
Proof using Hm.
  intros ([_ F] & B & C & _). destruct Hm as [_ _ _ _ H5]. split; [apply B|apply B|apply B|done|].
  destruct F as [(E & _) _ _ _ E']. by apply (feeds_kept d).
Qed.
End apply.

Lemma market_ok_step d d' : account_step d d' → market_ok d → market_ok d'.
Proof.
  intros H [M1 M2 M3 M4 M5]. apply account_step_frames in H as [(S1 & S2 & S3 & S4 & _) (A & B & C & D & E)]. split.
  - unfold assets_ok. by rewrite S1.
  - unfold modern, next_maintenance_time. by rewrite S4.
  - unfold limits_ok. by rewrite A.
  - unfold calls_ok. by rewrite B.
  - by apply (feeds_kept d).
Qed.
Lemma settle_new_order_ok cf d id d' b :
  market_ok d → settle_new_order cf d id = Ok (d', b) →
  market_ok d' ∧ conserves d d' ∧ b = limit_gone d' id ∧
  (b = false → d' = d ∧ ∃ o x, get_limit_order d id = Ok o ∧ asset_mul (amount_for_sale o) o.(lo_sell_price) = Ok x ∧ x.(amount) ≠ 0).
Proof.
  intros [M1 M2 M3 M4 M5] H. unfold settle_new_order in H. destruct (d.(d_limit_orders).(objs) !! id) as [o2|] eqn:E2.
  2: { injection H as <- <-. split; [done|]. split; [apply flow_refl|]. split; [|done]. unfold limit_gone. symmetry. by apply bool_decide_eq_true. }
  apply maybe_cull_spec in H as (F & L & G); [|done]. destruct b.
  - split; [|split; [done|split; [unfold limit_gone; symmetry; by apply bool_decide_eq_true|done]]].
    destruct L as [(S1 & S2 & S3 & S4 & _) L1 L2 _ _ L5]. split.
    + unfold assets_ok. by rewrite S1.
    + unfold modern, next_maintenance_time. by rewrite S4.
    + intros k o Hk. destruct (decide (k = id)) as [->|Hne]; [congruence|]. rewrite L1 in Hk by done. by apply (M3 k).
    + unfold calls_ok. by rewrite L2.
    + by apply (feeds_kept d).
  - destruct G as (-> & o3 & x & Ho3 & Hx & Hnz). split; [done|]. split; [done|].
    split; [unfold limit_gone; symmetry; apply bool_decide_eq_false; congruence|]. intros _. split; [done|]. by exists o3, x.
Qed.

(** [apply_order], as the property below states it. *)
Lemma apply_order_spec cf d id o d' b
  (Hm : market_ok d) (Ho : get_limit_order d id = Ok o) (H : apply_order cf d id = Ok (d', b)) :
  market_ok d' ∧ conserves d d' ∧ b = limit_gone d' id ∧
  if first_in_book d id o then
    b = false →
    opposite d' o.(lo_sell_price) = Ok [] ∧
    ∀ mp f, calls_to_check d (sell_asset_id o) (receive_asset_id o) o.(lo_sell_price) = Ok (Some (mp, f)) →
      call_round cf id (sell_asset_id o) (receive_asset_id o) mp f d' = Ok (inr (d', false))
  else d' = d.
Proof.
  unfold apply_order in H. rewrite Ho in H. cbn [mbind result_bind] in H. destruct (first_in_book d id o); cbn [negb] in H.
  2: { injection H as <- <-. split; [done|]. split; [apply flow_refl|]. split; [|done]. unfold limit_gone. symmetry. apply bool_decide_eq_false.
       apply index_get_Ok in Ho. congruence. }
  apply bind_Ok in H as (l & Hl & H). apply bind_Ok in H as (calls & Hcalls & H). apply bind_Ok in H as ([[d1 fin] rest] & H1 & H).
  apply bind_Ok in H as (d2 & H2 & H). pose proof (passes_spec cf d id o Hm Ho _ _ _ _ _ _ Hl Hcalls H1 H2) as M.
  apply settle_new_order_ok in H as (Hm' & F & Hb & G); [|by eapply matched_ok]. destruct M as (T & B & _ & Hq).
  split; [done|]. split; [etransitivity; [apply T|exact F]|]. split; [done|]. intros Ef. destruct (G Ef) as (-> & o3 & x & Ho3 & Hx & Hnz).
  destruct Hq as [Hex|[Hgone Hcall]].
  { exfalso. apply index_get_Ok in Ho3. rewrite (Hex _ Ho3) in Hx. injection Hx as <-. by apply Hnz. }
  split; [|by intros mp f Hc; apply Hcall; congruence].
  eapply opposite_empty; [exact Hl|exact T| |exact Hgone]. apply B.
Qed.

(** C5. A new order trades until it is gone or nothing crosses it: value is
    conserved; the answer says whether the order is gone; an order behind another of
    its market changes nothing; and when the order stays at the front of the book, no
    order of the other side crosses it and no margin position is left that it would meet.
    What makes the market well formed is preserved. *)
Theorem apply_order_uncrosses cf d id o d' b
  (Hm : market_ok d) (Ho : get_limit_order d id = Ok o) (H : apply_order cf d id = Ok (d', b)) :
  market_ok d' ∧ conserves d d' ∧ b = limit_gone d' id ∧
  if first_in_book d id o then
    b = false →
    opposite d' o.(lo_sell_price) = Ok [] ∧
    ∀ mp f, calls_to_check d (sell_asset_id o) (receive_asset_id o) o.(lo_sell_price) = Ok (Some (mp, f)) →
      call_round cf id (sell_asset_id o) (receive_asset_id o) mp f d' = Ok (inr (d', false))
  else d' = d.
Proof. by eapply apply_order_spec. Qed.

#[export] Instance amount_in_dec x : Decision (amount_in x).
Proof. unfold amount_in. apply _. Defined.
#[export] Instance order_in_book_dec o : Decision (order_in_book o).
Proof. unfold order_in_book. apply _. Defined.
#[export] Instance market_fee_ok_dec a : Decision (market_fee_ok a).
Proof. unfold market_fee_ok. apply _. Defined.
#[export] Instance target_in_range_dec (t : option Z) : Decision (∀ x, t = Some x → 0 ≤ x < 65536).
Proof.
  destruct t as [x|]; [|left; discriminate]. destruct (decide (0 ≤ x < 65536)); [left; by intros ? [= <-]|right; intros H; by specialize (H x eq_refl)].
Defined.
#[export] Instance position_in_book_dec c : Decision (position_in_book c).
Proof. unfold position_in_book. apply _. Defined.
#[export] Instance feed_entry_dec d a o :
  Decision (if ok_or None (Some <$> bitasset_data d o) is Some b then feed_valid a b else True).
Proof. destruct (ok_or None (Some <$> bitasset_data d o)); apply _. Defined.

Lemma market_db_ok : market_ok market_db.
Proof.
  split; [|by apply (bool_decide_unpack _)|by apply (bool_decide_unpack _)|by apply (bool_decide_unpack _)|].
  - apply map_Forall_to_list. repeat constructor; cbn; try lia; done.
  - by apply (bool_decide_unpack _).
Qed.

(** C7. Two limit orders trade at the price of the one that was there first, neither
    gets more than the other offers, and what they give is worth the same up to less
    than one unit; the orders shrink by exactly what they paid or are gone, and no
    other order is touched. *)
Theorem match_limit_fair cf d u c p d' r ou oc
  (Ha : assets_ok d) (Hm : modern d) (Hp : trade_price p) (Hne : u ≠ c)
  (Hu : get_limit_order d u = Ok ou) (Hc : get_limit_order d c = Ok oc)
  (Hou : order_in_book ou) (Hoc : order_in_book oc) (H : match_limit cf d u c p = Ok (d', r)) :
  conserves d d' ∧ (∀ k, k ≠ u → k ≠ c → d'.(d_limit_orders).(objs) !! k = d.(d_limit_orders).(objs) !! k) ∧
  (d' = d ∧ r = 1 ∨
   r = filled_bits (limit_gone d' u) (limit_gone d' c) ∧
   ∃ recv paid, fair p (amount_for_sale ou) (amount_for_sale oc) recv paid ∧
     (∀ o', get_limit_order d' u = Ok o' → o'.(lo_for_sale) = ou.(lo_for_sale) - paid.(amount)) ∧
     (∀ o', get_limit_order d' c = Ok o' → o'.(lo_for_sale) = oc.(lo_for_sale) - recv.(amount))).
Proof.
  destruct (match_limit_spec _ _ _ _ _ _ _ Ha (or_introl Hm) H Hne) as (F & B & _ & R). split; [done|].
  split; [intros k K1 K2; apply (bf_limit _ _ _ B); tauto|].
  unfold match_limit in H. rewrite Hu, Hc, !Ok_bind in H. do 3 apply bind_Ok in H as (? & _ & H). apply bind_Ok in H as (am & Ham & H).
  destruct am as [[[recv paid] cull]|]; [|injection H as <- <-; by left]. right.
  apply bind_Ok in H as (? & _ & H). apply bind_Ok in H as ([d1 b1] & H1 & H). apply bind_Ok in H as ([d2 b2] & H2 & H).
  apply bind_Ok in H as (u1 & Hr & [= <- <-]). apply FC_ASSERT_Ok, negb_true_iff, Z.eqb_neq in Hr.
  destruct Hou as [_ Hou], Hoc as [_ Hoc]. destruct (limit_amounts_out _ _ _ _ _ _ _ Ham (or_introl Hm)) as [Hx Hy].
  destruct (limit_amounts_spec _ _ _ _ _ _ _ Hm Hp Hou Hoc Ham) as [Hfair _].
  destruct (fill_limit_order_spec _ _ _ _ _ _ _ _ _ _ Ha Hx H1) as (_ & L1 & o1 & E1 & _ & G1).
  destruct (fill_limit_order_spec _ _ _ _ _ _ _ _ _ _ (limit_frame_step _ _ _ L1 Ha) Hy H2) as (_ & L2 & o2 & E2 & _ & G2).
  apply index_get_Ok in Hu, Hc, E1, E2. rewrite (lf_limit _ _ _ L1) in E2 by done. rewrite <-(lf_limit _ _ _ L2) in G1 by done.
  replace o1 with ou in * by congruence. replace o2 with oc in * by congruence.
  split; [destruct R as [(_ & R & _)|[R _]]; [|exact R]|exists recv, paid; split; [done|]].
  - unfold limit_gone. rewrite (gone_bool b2 _ _ _ G2), (gone_bool b1 _ _ _ G1). by destruct b1, b2.
  - split; intros o' Ho'; apply index_get_Ok in Ho'; [destruct b1|destruct b2]; try congruence;
      [rewrite G1 in Ho'|rewrite G2 in Ho']; by injection Ho' as <-.
Qed.

Lemma match_limit_fair_witness :
  ∃ d' recv paid, match_limit 0 market_db 2 0 (Price (Asset 120 0) (Asset 100 2)) = Ok (d', 2) ∧
    fair (Price (Asset 120 0) (Asset 100 2)) (Asset 1500 2) (Asset 120 0) recv paid.
Proof.
  destruct (match_limit 0 market_db 2 0 (Price (Asset 120 0) (Asset 100 2))) as [[d' r]|e] eqn:E; [|exfalso; vm_compute in E; discriminate E].
  destruct (get_limit_order market_db 2) as [ou|e] eqn:Eu; [|exfalso; vm_compute in Eu; discriminate Eu].
  destruct (get_limit_order market_db 0) as [oc|e] eqn:Ec; [|exfalso; vm_compute in Ec; discriminate Ec].
  assert (r = 2) as -> by (vm_compute in E; by injection E as _ <-).
  pose proof market_db_ok as [Ha Hm Hl _ _]. apply index_get_Ok in Eu as Lu, Ec as Lc.
  destruct (match_limit_fair 0 market_db 2 0 (Price (Asset 120 0) (Asset 100 2)) d' 2 ou oc Ha Hm ltac:(by apply (bool_decide_unpack _))
              ltac:(done) Eu Ec (Hl _ _ Lu) (Hl _ _ Lc) E) as (_ & _ & [[_ ?]|(_ & recv & paid & Hf & _)]); [discriminate|].
  exists d', recv, paid. split; [reflexivity|]. vm_compute in Lu. injection Lu as <-. vm_compute in Lc. injection Lc as <-. exact Hf.
Defined.

(** The order of account 6 takes the better bid, closes the position and takes the
    other bid; 300 are left. *)
Lemma apply_order_uncrosses_witness :
  ∃ d' o, apply_order 0 market_db 2 = Ok (d', false) ∧ get_limit_order d' 2 = Ok o ∧ o.(lo_for_sale) = 300 ∧
    market_ok d' ∧ conserves market_db d' ∧ opposite d' o.(lo_sell_price) = Ok [].
Proof.
  destruct (apply_order 0 market_db 2) as [[d' b]|e] eqn:E; [|exfalso; vm_compute in E; discriminate E].
  destruct (get_limit_order market_db 2) as [o|e] eqn:Eo; [|exfalso; vm_compute in Eo; discriminate Eo].
  destruct (apply_order_uncrosses 0 market_db 2 o d' b market_db_ok Eo E) as (Hm & Hc & Hb & Hf).
  assert (first_in_book market_db 2 o = true) as Hfirst by (vm_compute in Eo; injection Eo as <-; vm_compute; reflexivity).
  rewrite Hfirst in Hf. vm_compute in E. injection E as <- <-. destruct (Hf eq_refl) as [Hopp _].
  vm_compute in Eo. injection Eo as <-.
  eexists _, _. split; [reflexivity|]. split; [vm_compute; reflexivity|]. split; [reflexivity|]. split; [exact Hm|]. split; [exact Hc|exact Hopp].
Defined.
