(* ===== verification/Rounds.v ===== *)
(** * How long the loops over the positions go on

    A new order meets margin positions as long as the first of them is called.
    Without target collateral ratios every round uses up the order or a position,
    so the loop ends.  A position with a target that is called although it is above
    its target covers nothing; in the state [spin_db] the loop never ends. *)
From S2P Require Import Prelude Safe Asset Objects Pricing Database Ledger Vesting Balance Evaluator Sample Market Fills Margin Book.

(** ** A loop that does not end

    The position of account 8 has, by less than one part in 10^15, more collateral
    than the ratio of 175 percent it keeps; its call price, cut to fit the share
    supply, still says that it is called. *)
Definition spin_feed : price_feed := PriceFeed (Price (Asset 1 2) (Asset 1000 0)) (Price (Asset 1 2) (Asset 1 0)) 1750 1100.
Definition spin_position : call_order_object :=
  CallOrder 8 700899313299501 400513893314 (Price (Asset 350449656649751 0) (Asset 350449656650 2)) (Some 1750).
Definition spin_order : limit_order_object := LimitOrder 1700000000 6 10 (Price (Asset 1 2) (Asset 1000 0)) 0 (Asset 0 0).
Definition spin_db : database :=
  market_db
    <| d_bitasset_data := Index {[ 0 := market_bitasset <| bd_current_feed := spin_feed |> ]} 1 |>
    <| d_limit_orders := Index {[ 2 := spin_order ]} 3 |>
    <| d_call_orders := Index {[ 0 := spin_position ]} 1 |>.
Definition spin_match_price : price := Price (Asset 1100 0) (Asset 1 2).

Lemma spin_db_ok : market_ok spin_db.
Proof.
  split; [|by apply (bool_decide_unpack _)|by apply (bool_decide_unpack _)|by apply (bool_decide_unpack _)|].
  - apply map_Forall_to_list. repeat constructor; cbn; try lia; done.
  - by apply (bool_decide_unpack _).
Qed.

Lemma spin_call_price : call_price (get_debt spin_position) (get_collateral spin_position) 1750 = Ok spin_position.(cl_call_price).
Proof. vm_compute. reflexivity. Qed.

(** A round changes nothing but the list of the virtual operations. *)
Lemma spin_round ops :
  ∃ ops', call_round 0 2 2 0 spin_match_price spin_feed (spin_db <| d_applied := ops |>) = Ok (inl (spin_db <| d_applied := ops' |>)).
Proof. eexists. vm_compute. reflexivity. Qed.

Theorem call_rounds_spin n : ∃ d', while_loop n (call_round 0 2 2 0 spin_match_price spin_feed) spin_db = Ok (inl d').
Proof.
  destruct (while_spins (call_round 0 2 2 0 spin_match_price spin_feed) (λ d, ∃ ops, d = spin_db <| d_applied := ops |>) n spin_db)
    as (d' & H & _); [|by exists []|by exists d'].
  intros d (ops & ->). destruct (spin_round ops) as [ops' H]. eexists. split; [exact H|by exists ops'].
Qed.

(** With an empty other side, the new order goes straight to the positions. *)
Lemma apply_order_calls cf d id o mp f d' :
  get_limit_order d id = Ok o → first_in_book d id o = true → opposite d o.(lo_sell_price) = Ok [] →
  calls_to_check d (sell_asset_id o) (receive_asset_id o) o.(lo_sell_price) = Ok (Some (mp, f)) →
  while_loop book_rounds (call_round cf id (sell_asset_id o) (receive_asset_id o) mp f) d = Ok (inl d') →
  apply_order cf d id = Err out_of_fuel.
Proof.
  intros Ho Hfirst Hl Hc H. unfold apply_order. rewrite Ho, Ok_bind. cbv zeta. rewrite Hfirst. cbv beta iota delta [negb].
  rewrite Hl, Ok_bind, Hc, Ok_bind. cbn [match_limits]. rewrite Ok_bind. cbv beta iota. by rewrite H, Ok_bind.
Qed.

(** The node does not come back: the market of [spin_db] is well formed and the call
    price of its position is the one the code computes, yet the rounds of the new order
    with this position go on, however many there are. *)
Theorem apply_order_spins :
  market_ok spin_db ∧ call_price (get_debt spin_position) (get_collateral spin_position) 1750 = Ok spin_position.(cl_call_price) ∧
  (∀ n, ∃ d', while_loop n (call_round 0 2 2 0 spin_match_price spin_feed) spin_db = Ok (inl d')) ∧
  apply_order 0 spin_db 2 = Err out_of_fuel.
Proof.
  split; [exact spin_db_ok|]. split; [exact spin_call_price|]. split; [exact call_rounds_spin|]. destruct (call_rounds_spin book_rounds) as [d' H].
  apply (apply_order_calls 0 spin_db 2 spin_order spin_match_price spin_feed d'); [vm_compute; reflexivity..|exact H].
Qed.

(** ** Without targets the loop ends *)
Lemma terminates_modify_dyn d o f : (∀ s, terminates (f s)) → terminates (modify_dynamic_data d o f).
Proof. apply terminates_modify_dynamic_data. Qed.
#[local] Hint Extern 1 (terminates (modify_dynamic_data _ _ _)) => apply terminates_modify_dyn; intros ?; solve_terminates : terminates.
Lemma terminates_to_uint64 x : terminates (to_uint64 x).
Proof. unfold to_uint64, terminates. by case_match. Qed.
#[local] Hint Resolve terminates_to_uint64 : terminates.
Lemma terminates_get_asset d id : terminates (get_asset d id).
Proof. unfold get_asset. solve_terminates. Qed.
#[local] Hint Resolve terminates_get_asset : terminates.
Lemma terminates_pay_market_fees d a x : terminates (pay_market_fees d a x).
Proof. unfold pay_market_fees, calculate_market_fee, add_accumulated_fees. solve_terminates. Qed.
Lemma terminates_pay_order d o r p : terminates (pay_order d o r p).
Proof. unfold pay_order, sub_core_in_orders. solve_terminates. Qed.
#[local] Hint Resolve terminates_pay_market_fees terminates_pay_order : terminates.
Lemma terminates_pay_fee d o c : terminates (modify_statistics d o (stat_pay_fee c)).
Proof. apply terminates_modify_statistics. intros s. unfold stat_pay_fee. solve_terminates. Qed.
#[local] Hint Resolve terminates_pay_fee : terminates.
Lemma terminates_cancel_limit cf d id b1 b2 : terminates (cancel_limit_order cf d id b1 b2).
Proof.
  unfold cancel_limit_order, deduct_cancel_fee, cancel_fee_share, get_limit_order, remove_limit_order, sub_core_in_orders, add_accumulated_fees.
  solve_terminates.
Qed.
#[local] Hint Resolve terminates_cancel_limit : terminates.
Lemma terminates_maybe_cull cf d id : terminates (maybe_cull_small_order cf d id).
Proof. unfold maybe_cull_small_order, get_limit_order. solve_terminates. Qed.
#[local] Hint Resolve terminates_maybe_cull : terminates.
Lemma terminates_fill_limit cf d id p r c fp mk : terminates (fill_limit_order cf d id p r c fp mk).
Proof.
  unfold fill_limit_order, get_limit_order, remove_limit_order, modify_limit_order, add_accumulated_fees. solve_terminates.
Qed.
#[local] Hint Resolve terminates_fill_limit : terminates.
Lemma terminates_match_limit cf d u c p : terminates (match_limit cf d u c p).
Proof. unfold match_limit, get_limit_order, limit_amounts. solve_terminates. Qed.

Lemma terminates_fill_call d id p r fp mk :
  calls_ok d → feeds_ok d → 0 ≤ p.(amount) → 0 ≤ r.(amount) →
  (∀ c, d.(d_call_orders).(objs) !! id = Some c → r.(amount) ≤ c.(cl_debt)) → terminates (fill_call_order d id p r fp mk).
Proof.
  intros Hcalls Hfeeds Hp Hr Hle. unfold fill_call_order. apply terminates_bind; [unfold get_call_order; solve_terminates|]. intros c Hc.
  apply index_get_Ok in Hc. destruct (Hcalls _ _ Hc) as [((D1 & D2) & (C1 & C2) & _) _]. specialize (Hle c Hc).
  do 3 (apply terminates_bind; [auto with terminates|intros ? ?]). apply terminates_bind; [auto with terminates|]. intros mia Hmia.
  apply terminates_bind; [auto with terminates|]. intros ? _.
  match goal with H : FC_ASSERT (p.(amount) <=? _) = Ok _ |- _ => apply FC_ASSERT_Ok, Z.leb_le in H end.
  apply terminates_bind.
  - unfold fill_position. apply terminates_bind; [auto with terminates|]. intros x Hx. apply terminates_bind; [auto with terminates|]. intros y Hy.
    apply safe_sub_Ok in Hx as ->. apply safe_sub_Ok in Hy as ->. case_match; [discriminate|]. case_match; [|discriminate].
    apply terminates_bind; [apply terminates_bind; [unfold bitasset_data; solve_terminates|intros; discriminate]|].
    intros mcr Hmcr. apply bind_Ok in Hmcr as (b & Hb & [= <-]). apply terminates_bind; [|intros; discriminate].
    apply index_get_Ok in Hmia. specialize (Hfeeds _ _ Hmia). cbn in Hfeeds. rewrite Hb in Hfeeds. cbn in Hfeeds.
    pose proof max_supply_int64. apply terminates_call_price; cbn; [lia|lia|apply Hfeeds].
  - intros [o' freed] _. unfold modify_call_order, remove_call_order, sub_core_in_orders. solve_terminates.
Qed.

Section no_targets.
Context (cf : Z) (id : Z) (s mp : price) (f : price_feed) (Hs : trade_price s) (Hmp : trade_price mp) (Hf : feed_ok f).
Context (Hcross : crosses s mp) (Hfeed : f.(pf_settlement_price).(base).(asset_id) = s.(base).(asset_id)).
Implicit Types (d : database).
#[local] Notation round := (call_round cf id s.(base).(asset_id) s.(quote).(asset_id) mp f).

Lemma terminates_debt_to_buy d c : position_in_book c →
  terminates (debt_to_buy d c mp f.(pf_settlement_price) f.(pf_maintenance_collateral_ratio)).
Proof using Hmp Hf.
  intros [Hc Ht]. unfold debt_to_buy. case_match; [discriminate|]. apply terminates_bind; [|intros; discriminate].
  destruct Hf as [Hw Hm]. pose proof (max_debt_spec c mp _ _ Hc (proj1 Hmp) Hw Hm Ht) as Hs'. intros E. by rewrite E in Hs'.
Qed.

Lemma terminates_match_call d k :
  assets_ok d → modern d → limits_ok d → calls_ok d → feeds_ok d →
  terminates (match_call cf d id k mp f.(pf_settlement_price) f.(pf_maintenance_collateral_ratio)).
Proof using Hmp Hf.
  intros Ha Hm Hl Hc Hfeeds. unfold match_call. apply terminates_bind; [unfold get_limit_order; auto with terminates|]. intros ou Hu.
  apply terminates_bind; [unfold get_call_order; auto with terminates|]. intros oc Hoc. apply index_get_Ok in Hu, Hoc.
  do 3 (apply terminates_bind; [auto with terminates|intros ? _]). pose proof (Hc _ _ Hoc) as Hpos.
  apply terminates_bind; [by apply terminates_debt_to_buy|]. intros buy Hbuy. destruct (debt_to_buy_ok _ _ _ _ _ Hpos (proj1 Hmp) Hf Hbuy) as [Hb _].
  apply terminates_bind; [unfold call_amounts; solve_terminates|]. intros am Ham. destruct am as [[[recv paid] cull]|]; [|discriminate].
  apply terminates_bind; [apply terminates_fill_limit|]. intros [d1 b1] H1. destruct (Hl _ _ Hu) as [_ Hou]. pose proof Hpos as [((_ & Hmax) & _) _].
  assert (amount_in buy) as Hbin by (unfold amount_in, GRAPHENE_MAX_SHARE_SUPPLY, int64_max in *; lia).
  pose proof (call_amounts_out _ _ _ _ _ _ _ Ham) as Hr.
  destruct (call_amounts_spec _ _ _ _ _ _ _ Hm Hmp Hou Hbin Ham) as (Hpd & Hpb & _).
  destruct (fill_limit_order_spec _ _ _ _ _ _ _ _ _ _ Ha Hr H1) as (_ & [L1 L2 L3 L4 L5 L6] & _). destruct L1 as (E1 & _).
  apply terminates_bind; [|intros []; discriminate]. apply terminates_fill_call.
  - unfold calls_ok. by rewrite L3.
  - by apply (feeds_kept d).
  - unfold amount_in in Hr. lia.
  - lia.
  - intros c Hci. rewrite L3 in Hci. replace c with oc by congruence. lia.
Qed.

(** A position without a target, called at the feed, is filled or uses up the order. *)
Lemma match_call_progress d k c d' r :
  assets_ok d → modern d → limits_ok d → calls_ok d → d.(d_call_orders).(objs) !! k = Some c → c.(cl_target_collateral_ratio) = None →
  debt_type c = s.(base).(asset_id) → price_gtb c.(cl_call_price) (price_inv f.(pf_settlement_price)) = false →
  (∀ o, d.(d_limit_orders).(objs) !! id = Some o → o.(lo_sell_price) = s) →
  match_call cf d id k mp f.(pf_settlement_price) f.(pf_maintenance_collateral_ratio) = Ok (d', r) → r ≠ 0.
Proof using Hs Hmp Hf Hcross Hfeed.
  intros Ha Hm Hl Hc Hk Hnone Hdebt Hcalled Hprice H. destruct (match_call_spec _ _ _ _ _ _ _ _ _ Ha H) as (_ & _ & _ & [(_ & -> & _)|Hr]); [done|].
  unfold match_call in H. apply bind_Ok in H as (ou & Hu & H). apply bind_Ok in H as (oc & Hoc & H). apply index_get_Ok in Hu, Hoc.
  replace oc with c in * by congruence. clear Hoc. do 3 apply bind_Ok in H as (? & _ & H). apply bind_Ok in H as (buy & Hbuy & H).
  pose proof (Hc _ _ Hk) as Hpos. destruct (debt_to_buy_ok _ _ _ _ _ Hpos (proj1 Hmp) Hf Hbuy) as [Hb _]. pose proof Hpos as [((_ & Hmax) & _ & Hne) _].
  assert (buy = get_debt c) as ->.
  { unfold debt_to_buy in Hbuy. destruct (_ <=? _); [by injection Hbuy as <-|]. apply bind_Ok in Hbuy as (z & Hz & [= <-]).
    unfold get_max_debt_to_cover, in_format in Hz.
    destruct (Z.eqb_spec f.(pf_settlement_price).(base).(asset_id) (collateral_type c)) as [E|_]; [congruence|]. cbn [negb] in Hz.
    apply bind_Ok in Hz as (p & Hp & Hz). apply bind_Ok in Hp as (? & _ & [= <-]). rewrite Hcalled, Hnone in Hz. by injection Hz as <-. }
  apply bind_Ok in H as (am & Ham & H). destruct am as [[[recv paid] cull]|]; [|by injection H as _ <-].
  destruct (Hl _ _ Hu) as [_ Hou]. assert (amount_in (get_debt c)) as Hbin by (unfold amount_in, GRAPHENE_MAX_SHARE_SUPPLY, int64_max in *; cbn in *; lia).
  pose proof (call_amounts_out _ _ _ _ _ _ _ Ham) as Hin.
  destruct (call_amounts_spec _ _ _ _ _ _ _ Hm Hmp Hou Hbin Ham) as (Hpd & Hpb & Hid & Hcull).
  apply bind_Ok in H as ([d1 b1] & H1 & H). apply bind_Ok in H as ([d2 b2] & H2 & [= -> <-]).
  pose proof (fill_limit_order_spec _ _ _ _ _ _ _ _ _ _ Ha Hin H1) as (_ & L1 & o1 & Ho1 & _ & G1). destruct cull.
  - (* the order is culled *) destruct b1; [by destruct b2|]. exfalso.
    apply fill_limit_kept in H1 as (o' & v & Ho' & Hv & Hz); [|done]. apply index_get_Ok in Ho', Ho1. rewrite G1 in Ho'. injection Ho' as <-.
    replace o1 with ou in * by congruence. destruct Hcull as [y Hy]. pose proof (Hprice _ Hu) as Es. cbn in Hv. rewrite Es in Hv.
    assert (amount_in (Asset (ou.(lo_for_sale) - paid.(amount)) s.(base).(asset_id))) as Hleft by (unfold amount_in in *; cbn in *; lia).
    unfold amount_for_sale in Hv, Hy. cbn in Hv, Hy. rewrite Es in Hy.
    rewrite (cross_nothing s mp _ _ Hs Hmp Hcross Hleft eq_refl Hy eq_refl) in Hv. injection Hv as <-. by apply Hz.
  - (* the position is filled *) destruct b2; [by destruct b1|]. exfalso.
    destruct (fill_call_order_spec _ _ _ _ _ _ _ _ (limit_frame_step _ _ _ L1 Ha) H2) as (_ & _ & c' & Hc' & _ & _ & _ & c2 & _ & Hafter).
    apply index_get_Ok in Hc'. rewrite (lf_call _ _ _ L1) in Hc'. replace c' with c in * by congruence.
    destruct Hafter as (_ & _ & _ & _ & _ & Hd & _). apply Hd. by rewrite Hcull.
Qed.

(** What the loop keeps, and the number of positions that goes down. *)
Record round_inv d : Prop := {
  ri_book : book_inv id s d;
  ri_calls : calls_ok d;
  ri_feeds : feeds_ok d;
  ri_targets : map_Forall (λ _ c, c.(cl_target_collateral_ratio) = None) d.(d_call_orders).(objs) }.

Lemma removed_size {V} (m m' : gmap Z V) k v :
  m !! k = Some v → m' !! k = None → (∀ j, j ≠ k → m' !! j = m !! j) → size m = S (size m').
Proof using Type.
  intros H1 H2 H3. assert (m' = delete k m) as ->.
  { apply map_eq. intros j. destruct (decide (j = k)) as [->|Hj]; [by rewrite H2, lookup_delete_eq|by rewrite lookup_delete_ne, H3]. }
  rewrite map_size_delete_Some by eauto. assert (size m ≠ O); [|lia]. intros Hz. apply map_size_empty_inv in Hz as ->. done.
Qed.

Lemma call_round_ends d :
  round_inv d → terminates (round d) ∧
  ∀ d', round d = Ok (inl d') → round_inv d' ∧ size d.(d_call_orders).(objs) = S (size d'.(d_call_orders).(objs)).
Proof using Hs Hmp Hf Hcross Hfeed.
  intros [Hb Hc Hfeeds Htgt]. destruct Hb as [Ha Hm Hl Hp] eqn:Eb. clear Eb. unfold call_round. split.
  - apply terminates_bind; [unfold price_min, make_price; solve_terminates|]. intros lo _. destruct (range _ _ _) as [|[k c] l]; [discriminate|].
    destruct (orb _ _); [discriminate|]. apply terminates_bind; [by apply terminates_match_call|intros []; discriminate].
  - intros d' H. assert (round d = Ok (inl d')) as H' by exact H. apply bind_Ok in H as (lo & _ & H). destruct (range _ _ _) as [|[k c] l] eqn:Erange; [done|].
    destruct (orb _ _) eqn:Eg; [done|]. apply orb_false_iff in Eg as [E1 E2]. apply negb_false_iff, Z.eqb_eq in E1.
    apply bind_Ok in H as ([d1 r] & H1 & H). destruct (orb (r =? 1) (r =? 3)) eqn:Er; [done|]. injection H as ->.
    assert ((k, c) ∈ range call_ltb (λ x, price_leb lo x.2.(cl_call_price)) d.(d_call_orders)) as Hin by (rewrite Erange; set_solver).
    apply elem_of_range in Hin as [Hk _]. cbn in Hk.
    pose proof (match_call_progress _ _ _ _ _ Ha Hm Hl Hc Hk (Htgt _ _ Hk) E1 E2 Hp H1) as Hr0.
    assert (call_inv id s d d) as Hci by (split; [split; [apply flow_refl|reflexivity]|done|done]).
    pose proof (call_round_spec cf id s mp f Hs Hmp Hf Hcross _ _ _ Hci H') as [T1 B1 C1].
    destruct (match_call_spec _ _ _ _ _ _ _ _ _ Ha H1) as (_ & _ & Hoth & [(_ & -> & _)|Hr]); [done|].
    assert (d'.(d_call_orders).(objs) !! k = None) as Hgone.
    { subst r. unfold call_gone, limit_gone in *. destruct (bool_decide_reflect (d'.(d_call_orders).(objs) !! k = None)) as [E|E]; [done|].
      destruct (bool_decide _); cbn in *; [discriminate Er|by destruct Hr0]. }
    split; [|by eapply removed_size]. split; [done|done| |].
    + destruct T1 as [_ [(E & _) _ _ _ E']]. by apply (feeds_kept d).
    + intros j cj Hj. destruct (decide (j = k)) as [->|Hne]; [congruence|]. rewrite Hoth in Hj by done. by apply (Htgt j).
Qed.
End no_targets.

Lemma terminates_squeeze f :
  wf_price f.(pf_settlement_price) → 0 < f.(pf_maximum_short_squeeze_ratio) < 65536 → terminates (max_short_squeeze_price f).
Proof.
  intros [B Q] Hr. unfold max_short_squeeze_price, rational. destruct (Z.eqb_spec f.(pf_settlement_price).(quote).(amount) 0); [lia|].
  destruct (Z.eqb_spec f.(pf_maximum_short_squeeze_ratio) 0); [lia|]. rewrite !Ok_bind.
  pose proof (normalize_bounds f.(pf_settlement_price).(base).(amount) f.(pf_settlement_price).(quote).(amount) int64_max ltac:(lia) Q) as [A1 A2].
  pose proof (normalize_bounds GRAPHENE_COLLATERAL_RATIO_DENOM f.(pf_maximum_short_squeeze_ratio) 65536
                ltac:(unfold GRAPHENE_COLLATERAL_RATIO_DENOM; lia) ltac:(lia)) as [B1 B2].
  set (x := normalize f.(pf_settlement_price).(base).(amount) _) in *. set (y := normalize GRAPHENE_COLLATERAL_RATIO_DENOM _) in *.
  assert (∀ k, Z.shiftr k 1 + Z.land k 1 = k `div` 2 + k `mod` 2) as Hhalf.
  { intros k. rewrite Z.shiftr_div_pow2 by lia. change 1 with (Z.ones 1) at 2. rewrite Z.land_ones by lia. done. }
  destruct (shrink_ends (λ n, Z.shiftr n 1 + Z.land n 1) 80 shrink_fuel (rational_mul x y)) as (r & -> & R1 & R2).
  - intros k Hk. rewrite Hhalf. pose proof (Z.mod_pos_bound k 2 ltac:(lia)). lia.
  - intros k Hk. rewrite Hhalf. pose proof (Z.mod_pos_bound k 2 ltac:(lia)). pose proof (Z.div_mod k 2 ltac:(lia)). pose proof (Z.div_pos k 2). lia.
  - unfold shrink_fuel. lia.
  - apply (normalize_bounds (x.1 * y.1) (x.2 * y.2)); change (2 ^ (Z.of_nat 80 + 48)) with (2 ^ 128); unfold int64_max in *; nia.
  - apply (normalize_bounds (x.1 * y.1) (x.2 * y.2)); change (2 ^ (Z.of_nat 80 + 48)) with (2 ^ 128); unfold int64_max in *; nia.
  - unfold make_price. cbn. solve_terminates.
Qed.
Lemma terminates_calls_to_check d a b p : feeds_ok d → terminates (calls_to_check d a b p).
Proof.
  intros Hf. unfold calls_to_check. apply terminates_bind; [apply terminates_get_asset|]. intros o Ho. destruct (negb _); [discriminate|].
  apply terminates_bind; [unfold bitasset_data; solve_terminates|]. intros bd Hb. destruct (andb _ _) eqn:Eg; [|discriminate].
  apply terminates_bind; [|intros; discriminate]. apply index_get_Ok in Ho. specialize (Hf _ _ Ho). cbn in Hf. rewrite Hb in Hf. cbn in Hf.
  apply andb_true_iff in Eg as [_ Eg]. destruct Hf as [_ [Hn|([Hw _] & _ & _ & Hr)]]; [by rewrite Hn in Eg|by apply terminates_squeeze].
Qed.
Lemma terminates_match_limits cf keep d id l : terminates (match_limits cf keep d id l).
Proof.
  revert d. induction l as [|k l IH]; intros d; cbn; [discriminate|]. apply terminates_bind; [unfold get_limit_order; auto with terminates|].
  intros o _. destruct (keep o); [|discriminate]. apply terminates_bind; [apply terminates_match_limit|]. intros [d1 r] _. destruct (r =? 2); [apply IH|discriminate].
Qed.

(** C10. When no position has a target collateral ratio, a new order is matched in a
    bounded number of rounds: every round with a position fills it or uses up the
    order. *)
Theorem apply_order_ends cf d id
  (Hm : market_ok d) (Htgt : map_Forall (λ _ c, c.(cl_target_collateral_ratio) = None) d.(d_call_orders).(objs))
  (Hsize : Z.of_nat (size d.(d_call_orders).(objs)) < 2 ^ Z.of_nat book_rounds) :
  apply_order cf d id ≠ Err out_of_fuel.
Proof.
  change (terminates (apply_order cf d id)). unfold apply_order. apply terminates_bind; [unfold get_limit_order; auto with terminates|].
  intros o Ho. cbv zeta. destruct (negb _); [discriminate|]. apply terminates_bind; [unfold opposite, price_max, make_price; solve_terminates|]. intros l Hl.
  apply terminates_bind; [apply terminates_calls_to_check, Hm|]. intros calls Hcalls.
  assert (∀ d2 fin rest, terminates (d2 ← (if fin : bool then Ok d2 else '(d2, _, _) ← match_limits cf (λ _, true) d2 id rest; Ok d2);
    settle_new_order cf d2 id)) as Hrest.
  { intros d2 fin rest. apply terminates_bind.
    - destruct fin; [discriminate|]. apply terminates_bind; [apply terminates_match_limits|]. intros [[? ?] ?] _. discriminate.
    - intros d3 _. unfold settle_new_order. destruct (_ !! _); [apply terminates_maybe_cull|discriminate]. }
  apply terminates_bind; [|intros [[d2 fin] rest] _; apply Hrest]. clear Hrest. destruct calls as [[mp f]|]; [|discriminate].
  destruct (new_order_inv d id o Hm Ho) as [Hs Hb]. pose proof Hm as [_ _ Hlim Hc Hfeeds].
  destruct (calls_to_check_ok _ _ _ _ Hfeeds Hcalls) as (Hmp & Hf & Hx & Hfb). destruct (opposite_met _ _ _ _ Hlim Ho Hl) as [Hnd Hmet].
  apply terminates_bind; [apply terminates_match_limits|]. intros [[d1 fin] rest] H1. destruct fin; [discriminate|].
  destruct (match_limits_spec cf id _ Hs _ l d d1 false rest Hb Hnd Hmet H1) as ([_ F1] & C1 & B1 & _).
  assert (round_inv id o.(lo_sell_price) d1) as Hri.
  { split; [done|unfold calls_ok; by rewrite C1| |by rewrite C1]. destruct F1 as [(E & _) _ _ _ E']. by apply (feeds_kept d). }
  pose proof (λ d, call_round_ends cf id _ mp f Hs Hmp Hf Hx Hfb d) as Hround.
  apply terminates_bind.
  - apply (terminates_while _ (round_inv id o.(lo_sell_price))); [|done]. intros d2 Hd2. destruct (Hround d2 Hd2) as [T Hn]. split; [exact T|].
    intros d3 H3. by apply Hn.
  - intros r Hr. apply (while_ends _ (round_inv id o.(lo_sell_price)) (λ d, Z.of_nat (size d.(d_call_orders).(objs)))) in Hr; [|  |done|by rewrite C1].
    + destruct r as [|[d2 fin]]; [done|]. discriminate.
    + intros d2 d3 Hd2 H3. destruct (Hround d2 Hd2) as [_ Hn]. destruct (Hn _ H3) as [? E]. split; [done|]. rewrite E. lia.
Qed.

Lemma apply_order_ends_witness :
  Z.of_nat (size market_db.(d_call_orders).(objs)) = 1 ∧ apply_order 0 market_db 2 ≠ Err out_of_fuel.
Proof.
  split; [vm_compute; reflexivity|]. apply (apply_order_ends 0 market_db 2).
  - exact market_db_ok.
  - by apply (bool_decide_unpack _).
  - vm_compute. reflexivity.
Defined.
