(* ===== verification/Settlement.v ===== *)
(** * What expires in the market

    [database::clear_expired_orders] (db_update.cpp): limit orders past their
    expiration are cancelled, and settlement orders that are due are matched with the
    positions of the least collateral, asset by asset, up to the volume the asset
    allows between two maintenances; with the product of a price and a ratio it uses
    ([protocol/asset.cpp]). *)
From stdpp Require Import sorting.
From S2P Require Import Prelude Safe Asset Objects Pricing Database Ledger Vesting Balance Evaluator Sample Cursor Market Fills Margin Settle Book Rounds.

(** ** The product of a price and a ratio *)

(** Halving both terms until they fit; whether they were halved, and whether one
    of them was cut at the bound. *)
Fixpoint shrink_price (fuel : nat) (cp : Z * Z) (shrinked : bool) : result (Z * Z * bool * bool) :=
  if (GRAPHENE_MAX_SHARE_SUPPLY <? cp.1) || (GRAPHENE_MAX_SHARE_SUPPLY <? cp.2) then
    if cp.1 =? 1 then Ok (1, GRAPHENE_MAX_SHARE_SUPPLY, shrinked, true)
    else if cp.2 =? 1 then Ok (GRAPHENE_MAX_SHARE_SUPPLY, 1, shrinked, true)
    else match fuel with
         | O => Err out_of_fuel
         | S fuel => cp ← rational (Z.shiftr cp.1 1) (Z.shiftr cp.2 1); shrink_price fuel cp true
         end
  else Ok (cp, shrinked, false).

(** The fraction with one term 1 that is next to [ocp]. *)
Definition unit_fraction (ocp : Z * Z) : Z * Z :=
  if ocp.2 <? ocp.1 then (Z.min (ocp.1 `quot` ocp.2) GRAPHENE_MAX_SHARE_SUPPLY, 1)
  else (1, Z.min (ocp.2 `quot` ocp.1) GRAPHENE_MAX_SHARE_SUPPLY).

(** [abs( x - ocp ) < abs( y - ocp )], over the common denominators. *)
Definition closer (ocp x y : Z * Z) : bool :=
  Z.abs (x.1 * ocp.2 - ocp.1 * x.2) * y.2 <? Z.abs (y.1 * ocp.2 - ocp.1 * y.2) * x.2.

Definition refine_fraction (ocp cp : Z * Z) : Z * Z :=
  let ncp := unit_fraction ocp in
  if (ncp.1 =? GRAPHENE_MAX_SHARE_SUPPLY) || (ncp.2 =? GRAPHENE_MAX_SHARE_SUPPLY) then ncp
  else if closer ocp ncp cp then ncp else cp.

Definition price_mul (p : price) (r : Z * Z) : result price :=
  _ ← price_validate p;
  _ ← FC_ASSERT ((0 <? r.1) && (0 <? r.2));
  if r.1 =? r.2 then Ok p
  else
    p128 ← rational p.(base).(amount) p.(quote).(amount);
    let ocp := rational_mul p128 r in
    '(cp, shrinked, using_max) ← shrink_price shrink_fuel ocp false;
    let cp := if shrinked : bool then refine_fraction ocp cp else cp in
    np ← make_price (Asset cp.1 p.(base).(asset_id)) (Asset cp.2 p.(quote).(asset_id));
    let np := if (shrinked || using_max) && (((r.2 <? r.1) && price_ltb np p) || ((r.1 <? r.2) && price_ltb p np)) then p else np in
    _ ← price_validate np;
    Ok np.

Definition price_div (p : price) (r : Z * Z) : result price :=
  r' ← rational r.2 r.1;
  price_mul p r'.

(** ** Limit orders *)
Section expired.
Context (cancel_fee : Z).

Definition cancel_expired (d : database) (id : Z) : result database :=
  order ← get_limit_order d id;
  d1 ← cancel_limit_order cancel_fee d id true false;
  if next_maintenance_time d <=? HARDFORK_CORE_606_TIME then
    '(d2, _) ← check_call_orders cancel_fee d1 (sell_asset_id order) true false;
    '(d3, _) ← check_call_orders cancel_fee d2 (receive_asset_id order) true false;
    Ok d3
  else Ok d1.

(** The order that expires first, while it has expired. *)
Fixpoint clear_expired_limits (fuel : nat) (d : database) : result database :=
  match least lo_expiration (λ _, true) d.(d_limit_orders).(objs) with
  | Some (e, id) =>
      if e <=? head_block_time d then
        match fuel with
        | O => Err out_of_fuel
        | S fuel => d1 ← cancel_expired d id; clear_expired_limits fuel d1
        end
      else Ok d
  | None => Ok d
  end.
End expired.

(** ** Settlement orders, by asset, date and identifier *)
Definition settlement_asset_id (s : force_settlement_object) : Z := s.(fs_balance).(asset_id).
Definition settle_ltb (x y : Z * force_settlement_object) : bool :=
  (settlement_asset_id x.2 <? settlement_asset_id y.2) ||
  ((settlement_asset_id x.2 =? settlement_asset_id y.2) && pair_ltb (x.2.(fs_settlement_date), x.1) (y.2.(fs_settlement_date), y.1)).
(** [lower_bound(a)] and [upper_bound(a)]. *)
Definition first_settlement (d : database) (a : Z) : option (Z * force_settlement_object) :=
  head (range settle_ltb (λ x, a <=? settlement_asset_id x.2) d.(d_settlements)).
Definition next_settlement (d : database) (a : Z) : option (Z * force_settlement_object) :=
  head (range settle_ltb (λ x, a <? settlement_asset_id x.2) d.(d_settlements)).

(** The position of the least collateral for its debt in a market. *)
Definition collateral_key (c : call_order_object) : price := Price (get_collateral c) (get_debt c).
Definition least_collateralized (d : database) (backing mia : Z) : result (option (Z * call_order_object)) :=
  lo ← price_min backing mia;
  Ok (head (range (key_ltb price_ltb collateral_key) (λ x, price_leb lo (collateral_key x.2)) d.(d_call_orders))).

(** [asset_bitasset_data_object::max_force_settlement_volume]. *)
Definition max_force_settlement_volume (b : asset_bitasset_data_object) (current_supply : Z) : result Z :=
  let percent := b.(bd_options).(bo_maximum_force_settlement_volume) in
  if percent =? 0 then Ok 0
  else if percent =? GRAPHENE_100_PERCENT then safe_add current_supply b.(bd_force_settled_volume)
  else
    let volume := uint128_of_int64 (to_int64 (current_supply + b.(bd_force_settled_volume))) in
    r ← to_uint64 (uint128_mul volume percent `div` GRAPHENE_100_PERCENT);
    Ok (to_int64 r).

Section settlements.
Context (mia : Z) (max_volume : asset) (settlement_price fill_price : price).

(** One settlement of the order: the state and what is settled; [inr true] when the
    order can not be filled although it is still there. *)
Definition settle_round (order_id : Z) (s : database * asset) : result (database * asset + database * asset * bool) :=
  let '(d, settled) := s in
  below ← asset_lt settled max_volume;
  match d.(d_settlements).(objs) !! order_id with
  | Some order =>
      if negb below then Ok (inr (d, settled, false))
      else
        mia_obj ← get_asset d mia;
        bitasset ← bitasset_data d mia_obj;
        c ← least_collateralized d bitasset.(bd_options).(bo_short_backing_asset) mia;
        max_settlement ← asset_sub max_volume settled;
        if order.(fs_balance).(amount) =? 0 then d1 ← cancel_settle_order d order_id; Ok (inr (d1, settled, false))
        else
          '(call_id, _) ← from_option_exn assert_exception c;
          match match_settle d call_id order_id settlement_price max_settlement fill_price with
          | Err black_swan_exception => d1 ← cancel_settle_order d order_id; Ok (inr (d1, settled, false))
          | Err e => Err e
          | Ok (d1, new_settled) =>
              if (HARDFORK_CORE_184_TIME <? next_maintenance_time d) && (new_settled.(amount) =? 0)
              then Ok (inr (d1, settled, bool_decide (is_Some (d1.(d_settlements).(objs) !! order_id))))
              else settled ← asset_add settled new_settled; Ok (inl (d1, settled))
          end
  | None => Ok (inr (d, settled, false))
  end.
End settlements.

(** The variables of the loop over the settlement orders. *)
Record settling : Type := Settling {
  sg_db : database;
  sg_current_asset : Z;
  sg_current_asset_finished : bool;
  sg_max_settlement_volume : asset;
  sg_settlement_fill_price : price;
  sg_settlement_price : price }.
#[export] Instance eta_settling : Eta settling := λ x,
  Settling (sg_db x) (sg_current_asset x) (sg_current_asset_finished x) (sg_max_settlement_volume x) (sg_settlement_fill_price x) (sg_settlement_price x).

(** The lambda [next_asset]: on with the next asset, or the end. *)
Definition next_asset (s : settling) : settling + database :=
  match next_settlement s.(sg_db) s.(sg_current_asset) with
  | None => inr s.(sg_db)
  | Some (_, o) => inl (s <| sg_current_asset := settlement_asset_id o |> <| sg_current_asset_finished := false |>)
  end.

(** The prices of the asset, computed once for it, but before the hard fork for
    every order. *)
Definition settlement_prices (s : settling) (mia : asset_bitasset_data_object) (order : force_settlement_object) : result settling :=
  let feed := mia.(bd_current_feed).(pf_settlement_price) in
  let kept := GRAPHENE_100_PERCENT - mia.(bd_options).(bo_force_settlement_offset_percent) in
  s ← (if negb (s.(sg_settlement_fill_price).(base).(asset_id) =? s.(sg_current_asset)) then
         r ← rational kept GRAPHENE_100_PERCENT;
         p ← price_div feed r;
         Ok (s <| sg_settlement_fill_price := p |>)
       else Ok s);
  if next_maintenance_time s.(sg_db) <=? HARDFORK_CORE_342_TIME then
    receives ← asset_mul order.(fs_balance) feed;
    amt ← to_uint64 (uint128_mul (uint128_of_int64 receives.(amount)) (uint128_of_int64 kept) `div` GRAPHENE_100_PERCENT);
    p ← make_price order.(fs_balance) (Asset (to_int64 amt) receives.(asset_id));
    Ok (s <| sg_settlement_price := p |>)
  else if negb (s.(sg_settlement_price).(base).(asset_id) =? s.(sg_current_asset)) then
    Ok (s <| sg_settlement_price := s.(sg_settlement_fill_price) |>)
  else Ok s.

(** The volume of the asset is computed when the loop gets to it. *)
Definition set_max (s : settling) (mo : asset_object) (b : asset_bitasset_data_object) : result settling :=
  if s.(sg_max_settlement_volume).(asset_id) =? s.(sg_current_asset) then Ok s
  else
    dyn ← get_dynamic_data s.(sg_db) mo.(ao_dynamic_asset_data_id);
    v ← max_force_settlement_volume b dyn.(dd_current_supply);
    Ok (s <| sg_max_settlement_volume := Asset v s.(sg_current_asset) |>).

(** The rounds with one settlement order, and the volume they add. *)
Definition settle_rounds : nat := 64.
Definition settle_order (s : settling) (mia_obj : asset_object) (mia : asset_bitasset_data_object) (order_id : Z) : result settling :=
  r ← while_loop settle_rounds
        (settle_round s.(sg_current_asset) s.(sg_max_settlement_volume) s.(sg_settlement_price) s.(sg_settlement_fill_price) order_id)
        (s.(sg_db), Asset mia.(bd_force_settled_volume) s.(sg_current_asset));
  '(d1, settled, finished) ← loop_result r;
  mia ← bitasset_data d1 mia_obj;
  d2 ← (if mia.(bd_force_settled_volume) =? settled.(amount) then Ok d1
        else modify_bitasset d1 mia_obj (λ b, Ok (b <| bd_force_settled_volume := settled.(amount) |>)));
  Ok (s <| sg_db := d2 |> <| sg_current_asset_finished := s.(sg_current_asset_finished) || finished |>).

(** One iteration: the order is consumed, or the loop goes on with the next asset. *)
Definition settlement_step (s : settling) : result (settling + database) :=
  match first_settlement s.(sg_db) s.(sg_current_asset) with
  | None => Ok (inr s.(sg_db))
  | Some (order_id, order) =>
      let s := s <| sg_current_asset := settlement_asset_id order |> in
      mia_obj ← get_asset s.(sg_db) s.(sg_current_asset);
      mia ← bitasset_data s.(sg_db) mia_obj;
      if has_settlement mia then d1 ← cancel_settle_order s.(sg_db) order_id; Ok (inl (s <| sg_db := d1 |>))
      else if head_block_time s.(sg_db) <? order.(fs_settlement_date) then Ok (next_asset s)
      else if price_is_null mia.(bd_current_feed).(pf_settlement_price) then
        d1 ← cancel_settle_order s.(sg_db) order_id; Ok (inl (s <| sg_db := d1 |>))
      else
        s ← set_max s mia_obj mia;
        if (s.(sg_max_settlement_volume).(amount) <=? mia.(bd_force_settled_volume)) || s.(sg_current_asset_finished)
        then Ok (next_asset s)
        else
          s ← settlement_prices s mia order;
          s ← settle_order s mia_obj mia order_id;
          Ok (inl s)
  end.

Definition clear_expired_settlements (d : database) : result database :=
  match head (range settle_ltb (λ _, true) d.(d_settlements)) with
  | None => Ok d
  | Some (_, o) =>
      r ← while_loop (S (S (S (size d.(d_settlements).(objs))))) settlement_step
            (Settling d (settlement_asset_id o) false (Asset 0 CORE) null_price null_price);
      loop_result r
  end.

Definition clear_expired_orders (cancel_fee : Z) (d : database) : result database :=
  d1 ← clear_expired_limits cancel_fee (size d.(d_limit_orders).(objs)) d;
  clear_expired_settlements d1.

(** ** Prices *)
Lemma shrink_price_le fuel cp b cp' sh mx :
  shrink_price fuel cp b = Ok (cp', sh, mx) → cp'.1 ≤ GRAPHENE_MAX_SHARE_SUPPLY ∧ cp'.2 ≤ GRAPHENE_MAX_SHARE_SUPPLY.
Proof.
  revert cp b. induction fuel as [|fuel IH]; intros cp b H; cbn [shrink_price] in H.
  all: destruct (orb _ _) eqn:E; [|injection H as <- _ _; apply orb_false_iff in E as [E1%Z.ltb_ge E2%Z.ltb_ge]; done].
  all: destruct (_ =? 1); [injection H as <- _ _; cbn; unfold GRAPHENE_MAX_SHARE_SUPPLY; lia|].
  all: destruct (_ =? 1); [injection H as <- _ _; cbn; unfold GRAPHENE_MAX_SHARE_SUPPLY; lia|].
  - done.
  - apply bind_Ok in H as (c & _ & H). by eapply IH.
Qed.

Lemma refine_le ocp cp :
  cp.1 ≤ GRAPHENE_MAX_SHARE_SUPPLY ∧ cp.2 ≤ GRAPHENE_MAX_SHARE_SUPPLY →
  (refine_fraction ocp cp).1 ≤ GRAPHENE_MAX_SHARE_SUPPLY ∧ (refine_fraction ocp cp).2 ≤ GRAPHENE_MAX_SHARE_SUPPLY.
Proof.
  intros H. unfold refine_fraction. assert ((unit_fraction ocp).1 ≤ GRAPHENE_MAX_SHARE_SUPPLY ∧ (unit_fraction ocp).2 ≤ GRAPHENE_MAX_SHARE_SUPPLY) as Hu.
  { unfold unit_fraction. destruct (_ <? _); cbn [fst snd]; split; try apply Z.le_min_r; unfold GRAPHENE_MAX_SHARE_SUPPLY; lia. }
  destruct (_ || _); [done|]. by destruct (closer _ _ _).
Qed.

Lemma price_validate_Ok p u : price_validate p = Ok u → 0 < p.(base).(amount) ∧ 0 < p.(quote).(amount) ∧ p.(base).(asset_id) ≠ p.(quote).(asset_id).
Proof. unfold price_validate. intros H. inv_ok. propify. done. Qed.

(** The product of a price is a price of the same assets. *)
Lemma price_mul_ok p r np :
  trade_price p → price_mul p r = Ok np →
  trade_price np ∧ np.(base).(asset_id) = p.(base).(asset_id) ∧ np.(quote).(asset_id) = p.(quote).(asset_id).
Proof.
  intros Hp H. unfold price_mul in H. apply bind_Ok in H as (? & _ & H). apply bind_Ok in H as (? & _ & H).
  destruct (_ =? _); [injection H as <-; done|]. apply bind_Ok in H as (q & _ & H). cbv zeta in H.
  apply bind_Ok in H as ([[cp sh] mx] & Hs & H). apply shrink_price_le in Hs. set (ocp := rational_mul q r) in *.
  set (cp' := if sh then _ else _) in H. assert (cp'.1 ≤ GRAPHENE_MAX_SHARE_SUPPLY ∧ cp'.2 ≤ GRAPHENE_MAX_SHARE_SUPPLY) as Hcp.
  { subst cp'. destruct sh; [by apply refine_le|done]. }
  apply bind_Ok in H as (np0 & Hnp & H). unfold make_price in Hnp. apply bind_Ok in Hnp as (? & _ & [= <-]).
  apply bind_Ok in H as (u & Hv & [= <-]). destruct (_ && _); [done|]. apply price_validate_Ok in Hv as (V1 & V2 & V3). cbn in *.
  split; [|done]. split; [|done]. unfold wf_price. cbn. unfold GRAPHENE_MAX_SHARE_SUPPLY, int64_max in *. lia.
Qed.

Lemma normalize_le n d : 0 < n → 0 < d → (normalize n d).1 ≤ n.
Proof.
  intros Hn Hd. unfold normalize. cbn [fst]. rewrite (Z.sgn_pos d), Z.mul_1_r by done.
  assert (Z.gcd n d ≠ 0) by (intros Hz; apply Z.gcd_eq_0_l in Hz; lia). pose proof (Z.gcd_nonneg n d). apply Z.div_le_upper_bound; nia.
Qed.

Lemma shrink_price_ends fuel cp b : 1 ≤ cp.1 < 2 ^ Z.of_nat (S fuel) → 1 ≤ cp.2 → terminates (shrink_price fuel cp b).
Proof.
  revert cp b. induction fuel as [|fuel IH]; intros cp b H1 H2; cbn [shrink_price].
  all: destruct (orb _ _); [|discriminate].
  all: destruct (Z.eqb_spec cp.1 1) as [E1|E1]; [discriminate|].
  - change (2 ^ Z.of_nat 1) with 2 in H1. lia.
  - destruct (Z.eqb_spec cp.2 1) as [E2|E2]; [discriminate|]. unfold rational.
    assert (1 ≤ Z.shiftr cp.1 1 < 2 ^ Z.of_nat (S fuel) ∧ 1 ≤ Z.shiftr cp.2 1) as [A1 A2].
    { rewrite !Z.shiftr_div_pow2 by lia. change (2 ^ 1) with 2. rewrite Nat2Z.inj_succ, Z.pow_succ_r in H1 by lia.
      split; [split; [apply Z.div_le_lower_bound; lia|apply Z.div_lt_upper_bound; lia]|apply Z.div_le_lower_bound; lia]. }
    destruct (Z.eqb_spec (Z.shiftr cp.2 1) 0); [lia|]. rewrite Ok_bind. destruct (normalize_pos (Z.shiftr cp.1 1) (Z.shiftr cp.2 1)) as [B1 B2]; [lia|lia|].
    pose proof (normalize_le (Z.shiftr cp.1 1) (Z.shiftr cp.2 1) ltac:(lia) ltac:(lia)). apply IH; lia.
Qed.

Lemma price_mul_ends p r : wf_price p → r.1 ≤ 65536 → terminates (price_mul p r).
Proof.
  intros [B Q] R1. unfold price_mul. apply terminates_bind; [unfold price_validate; solve_terminates|]. intros _ _.
  apply terminates_bind; [solve_terminates|]. intros ? Hr. apply FC_ASSERT_Ok, andb_true_iff in Hr as [R3%Z.ltb_lt R2%Z.ltb_lt]. destruct (_ =? _); [discriminate|]. unfold rational at 1.
  destruct (Z.eqb_spec p.(quote).(amount) 0); [lia|]. rewrite Ok_bind. cbv zeta.
  pose proof (normalize_pos p.(base).(amount) p.(quote).(amount) ltac:(lia) ltac:(lia)) as [A1 A2].
  pose proof (normalize_bounds p.(base).(amount) p.(quote).(amount) int64_max ltac:(lia) Q) as [A3 A4].
  set (q := normalize _ _) in *. apply terminates_bind.
  - destruct (normalize_pos (q.1 * r.1) (q.2 * r.2)) as [C1 C2]; [nia|nia|].
    apply shrink_price_ends; unfold rational_mul; [|lia]. split; [lia|].
    pose proof (normalize_le (q.1 * r.1) (q.2 * r.2) ltac:(nia) ltac:(nia)).
    assert (q.1 * r.1 ≤ int64_max * 65536) by nia. eapply Z.le_lt_trans; [etransitivity; eassumption|]. vm_compute. reflexivity.
  - intros [[cp sh] mx] _. apply terminates_bind; [unfold make_price; solve_terminates|]. intros np _.
    apply terminates_bind; [unfold price_validate; solve_terminates|discriminate].
Qed.

(** ** Limit orders are gone when they have expired *)

(** What the settlement of orders needs of the market. *)
Definition settlements_ok (d : database) : Prop := map_Forall (λ _ s, amount_in s.(fs_balance)) d.(d_settlements).(objs).
Record settlement_ok (d : database) : Prop := {
  so_chain : chain_ok d;
  so_calls : calls_ok d;
  so_feeds : feeds_ok d;
  so_settlements : settlements_ok d }.

Lemma settlement_ok_limit id d d' : limit_frame id d d' → settlement_ok d → settlement_ok d' ∧ clock d' = clock d.
Proof.
  intros L [A B C D]. pose proof (market_of_limit _ _ _ L) as M. destruct (chain_clock_market _ d _ eq_refl M A) as [A' E].
  destruct L as [(S1 & S2 & S3 & S4 & S5) L1 L2 L3 L4 L5]. split; [|done]. split; [done| | |].
  - unfold calls_ok. by rewrite L2.
  - by apply (feeds_kept d).
  - unfold settlements_ok. by rewrite L3.
Qed.

Definition none_expired (d : database) : Prop := map_Forall (λ _ o, head_block_time d < o.(lo_expiration)) d.(d_limit_orders).(objs).

Section limits.
Context (cf : Z).

Lemma cancel_expired_spec d id d' :
  settlement_ok d → cancel_expired cf d id = Ok d' →
  conserves d d' ∧ settlement_ok d' ∧ clock d' = clock d ∧ d'.(d_settlements) = d.(d_settlements) ∧ d'.(d_bitasset_data) = d.(d_bitasset_data) ∧
  size d.(d_limit_orders).(objs) = S (size d'.(d_limit_orders).(objs)).
Proof using Type.
  intros Hd H. unfold cancel_expired in H. apply bind_Ok in H as (o & Ho & H). apply bind_Ok in H as (d1 & H1 & H).
  rewrite (proj2 (Z.leb_gt _ _)) in H; [|pose proof (co_modern _ (so_chain _ Hd)); unfold modern, HARDFORK_CORE_342_TIME, HARDFORK_CORE_606_TIME in *; lia].
  injection H as <-. destruct (cancel_limit_order_spec _ _ _ _ _ _ (co_assets _ (so_chain _ Hd)) H1) as (F & L & G).
  destruct (settlement_ok_limit _ _ _ L Hd) as [Hd' E]. split; [done|]. split; [done|]. split; [done|]. split; [apply L|]. split; [apply L|].
  apply index_get_Ok in Ho. eapply removed_size; [exact Ho|exact G|apply L].
Qed.

Lemma first_expiration d :
  match least lo_expiration (λ _, true) d.(d_limit_orders).(objs) with
  | Some (e, id) => is_Some (d.(d_limit_orders).(objs) !! id) ∧ (head_block_time d < e → none_expired d)
  | None => none_expired d
  end.
Proof using Type.
  pose proof (least_spec lo_expiration (λ _, true) d.(d_limit_orders).(objs)) as Hl. destruct (least _ _ _) as [[e id]|].
  - destruct Hl as (v & Hv & <- & _ & Hmin). split; [by eexists|]. intros He j w Hj. specialize (Hmin _ _ Hj eq_refl).
    unfold pair_ltb in Hmin. cbn in *. propify. lia.
  - intros j w Hj. by specialize (Hl _ _ Hj).
Qed.

Definition limits_cleared d d' : Prop :=
  conserves d d' ∧ settlement_ok d' ∧ clock d' = clock d ∧ none_expired d' ∧
  d'.(d_settlements) = d.(d_settlements) ∧ d'.(d_bitasset_data) = d.(d_bitasset_data).

Lemma clear_expired_limits_spec fuel d d' :
  settlement_ok d → clear_expired_limits cf fuel d = Ok d' → limits_cleared d d'.
Proof using Type.
  intros Hd H. revert d Hd H. assert (Hstop : ∀ d, settlement_ok d → none_expired d → limits_cleared d d).
  { intros d Hd Hn. split; [apply flow_refl|done]. }
  induction fuel as [|fuel IH]; intros d Hd H; cbn [clear_expired_limits] in H; pose proof (first_expiration d) as Hl;
    (destruct (least _ _ _) as [[e id]|]; [destruct Hl as [_ Hl]; destruct (Z.leb_spec e (head_block_time d))|]);
    try done; try (injection H as <-; by auto).
  apply bind_Ok in H as (d1 & H1 & H). destruct (cancel_expired_spec _ _ _ Hd H1) as (F1 & Hd1 & E1 & S1 & B1 & _).
  destruct (IH _ Hd1 H) as (F2 & Hd2 & E2 & N2 & S2 & B2). split; [by etransitivity|]. split; [done|]. split; [congruence|]. split; [done|]. split; congruence.
Qed.

Lemma clear_expired_limits_ends fuel d :
  settlement_ok d → (size d.(d_limit_orders).(objs) ≤ fuel)%nat → terminates (clear_expired_limits cf fuel d).
Proof using Type.
  revert d. induction fuel as [|fuel IH]; intros d Hd Hs; cbn [clear_expired_limits]; pose proof (first_expiration d) as Hl;
    (destruct (least _ _ _) as [[e id]|]; [destruct Hl as [Hid _]; destruct (e <=? head_block_time d)|]); try discriminate.
  - exfalso. assert (size d.(d_limit_orders).(objs) = O) as Hz%map_size_empty_inv by lia. rewrite Hz, lookup_empty in Hid. by destruct Hid.
  - apply terminates_bind.
    + unfold cancel_expired. apply terminates_bind; [unfold get_limit_order; auto with terminates|]. intros o _.
      apply terminates_bind; [apply terminates_cancel_limit|]. intros d1 _. rewrite (proj2 (Z.leb_gt _ _)); [discriminate|].
      pose proof (co_modern _ (so_chain _ Hd)). unfold modern, HARDFORK_CORE_342_TIME, HARDFORK_CORE_606_TIME in *. lia.
    + intros d1 H1. destruct (cancel_expired_spec _ _ _ Hd H1) as (_ & Hd1 & _ & _ & _ & Es). apply IH; [done|lia].
Qed.
End limits.

(** ** Settlement of one order *)

(** The supplies go down at most. *)
Definition supplies_down (d d' : database) : Prop :=
  ∀ i x', d'.(d_dynamic_data) !! i = Some x' →
    ∃ x, d.(d_dynamic_data) !! i = Some x ∧ x'.(dd_current_supply) ≤ x.(dd_current_supply).
#[export] Instance supplies_down_preorder : PreOrder supplies_down.
Proof.
  split; [intros d i x H; by exists x|]. intros d1 d2 d3 H1 H2 i x H. destruct (H2 _ _ H) as (x2 & Hx2 & ?).
  destruct (H1 _ _ Hx2) as (x1 & Hx1 & ?). exists x1. split; [done|lia].
Qed.
Lemma supplies_same d d' : d'.(d_dynamic_data) = d.(d_dynamic_data) → supplies_down d d'.
Proof. intros E i x H. rewrite E in H. by exists x. Qed.
Lemma supplies_modify d id f d' :
  modify_dynamic_data d id f = Ok d' → (∀ x x', f x = Ok x' → x'.(dd_current_supply) ≤ x.(dd_current_supply)) → supplies_down d d'.
Proof.
  intros H Hf. apply modify_dynamic_data_Ok in H as (x & x' & Hx & Hx' & ->). intros i y Hy. cbn in Hy.
  apply lookup_insert_Some in Hy as [[<- <-]|[_ Hy]]; [exists x; eauto|by exists y].
Qed.
Lemma supplies_adjust d acc x d' : adjust_balance d acc x = Ok d' → supplies_down d d'.
Proof. intros H. apply supplies_same. by rewrite (adjust_balance_frame _ _ _ _ H). Qed.
Lemma supplies_fees d o r d' x : pay_market_fees d o r = Ok (d', x) → supplies_down d d'.
Proof.
  unfold pay_market_fees. intros H. apply bind_Ok in H as (f & _ & H). apply bind_Ok in H as (d1 & H1 & [= <- <-]).
  destruct (0 <? _); [|injection H1 as <-; reflexivity]. eapply supplies_modify; [exact H1|]. intros y y' Hy. by apply bind_Ok in Hy as (s & _ & [= <-]).
Qed.
Lemma supplies_cancel_settle d id d' : cancel_settle_order d id = Ok d' → supplies_down d d'.
Proof.
  unfold cancel_settle_order. intros H. apply bind_Ok in H as (o & _ & H). apply bind_Ok in H as (d1 & H1 & H).
  unfold remove_settlement in H. apply bind_Ok in H as (i & _ & [= <-]). by apply supplies_adjust in H1.
Qed.
Lemma supplies_fill_settle d id pays receives fp mk d' b : fill_settle_order d id pays receives fp mk = Ok (d', b) → supplies_down d d'.
Proof.
  unfold fill_settle_order. intros H. do 2 apply bind_Ok in H as (? & _ & H). apply bind_Ok in H as ([d1 fees] & H1 & H). apply supplies_fees in H1.
  apply bind_Ok in H as (part & _ & H). apply bind_Ok in H as (d2 & H2 & H).
  assert (d2.(d_dynamic_data) = d1.(d_dynamic_data)) as E2.
  { destruct part; [|by injection H2 as <-]. unfold modify_settlement in H2. by apply bind_Ok in H2 as (i & _ & [= <-]). }
  apply bind_Ok in H as (net & _ & H). apply bind_Ok in H as (d3 & H3 & H). apply supplies_adjust in H3.
  assert (d'.(d_dynamic_data) = d3.(d_dynamic_data)) as E3.
  { destruct part; [by injection H as <- <-|]. apply bind_Ok in H as (d4 & H4 & [= <- <-]). unfold remove_settlement in H4.
    by apply bind_Ok in H4 as (i & _ & [= <-]). }
  do 2 (etransitivity; [first [exact H1|by apply supplies_same]|]). etransitivity; [exact H3|by apply supplies_same].
Qed.
Lemma supplies_fill_call d id pays receives fp mk d' b :
  0 ≤ receives.(amount) → fill_call_order d id pays receives fp mk = Ok (d', b) → supplies_down d d'.
Proof.
  unfold fill_call_order. intros Hr H. do 4 apply bind_Ok in H as (? & _ & H). apply bind_Ok in H as (mia & _ & H).
  apply bind_Ok in H as (? & _ & H). apply bind_Ok in H as ([o' freed] & _ & H). apply bind_Ok in H as (d1 & H1 & H).
  apply bind_Ok in H as (d2 & H2 & H). apply bind_Ok in H as (d3 & H3 & H). apply bind_Ok in H as (d4 & H4 & H).
  unfold modify_call_order in H1. apply bind_Ok in H1 as (i & _ & [= <-]). unfold sub_supply in H2. apply supplies_modify in H2.
  2: { intros y y' Hy. apply bind_Ok in Hy as (s & Hs & [= <-]). apply safe_sub_Ok in Hs as ->. cbn. lia. }
  assert (supplies_down d2 d3) as S3 by (destruct freed; [by eapply supplies_adjust|by injection H3 as <-]).
  assert (d4.(d_dynamic_data) = d3.(d_dynamic_data)) as E4.
  { destruct (_ =? CORE); [|by injection H4 as <-]. apply bind_Ok in H4 as (d5 & H5 & H4). unfold sub_core_in_orders in *.
    apply statistics_dynamic_data in H5. destruct freed; [apply statistics_dynamic_data in H4|injection H4 as <-]; congruence. }
  assert (d'.(d_dynamic_data) = d4.(d_dynamic_data)) as E.
  { destruct freed; [|by injection H as <- <-]. apply bind_Ok in H as (d5 & H5 & [= <- <-]). unfold remove_call_order in H5.
    by apply bind_Ok in H5 as (j & _ & [= <-]). }
  etransitivity; [exact H2|]. etransitivity; [exact S3|apply supplies_same; congruence].
Qed.

(** What settling orders leaves alone, and what it can only take away. *)
Definition orders_kept (d d' : database) : Prop :=
  ∀ k s', d'.(d_settlements).(objs) !! k = Some s' →
    ∃ s, d.(d_settlements).(objs) !! k = Some s ∧ settlement_asset_id s' = settlement_asset_id s.
Record settles_frame (d d' : database) : Prop := {
  sv_setting : same_setting d d';
  sv_limit : d'.(d_limit_orders) = d.(d_limit_orders);
  sv_bitasset : d'.(d_bitasset_data) = d.(d_bitasset_data);
  sv_orders : orders_kept d d';
  sv_supply : supplies_down d d' }.
Definition settles_from (d d' : database) : Prop := conserves d d' ∧ settles_frame d d'.
#[export] Instance orders_kept_preorder : PreOrder orders_kept.
Proof.
  split; [intros d k s H; by exists s|]. intros d1 d2 d3 H1 H2 k s H. destruct (H2 _ _ H) as (s2 & Hs2 & ?).
  destruct (H1 _ _ Hs2) as (s1 & Hs1 & ?). exists s1. split; [done|congruence].
Qed.
#[export] Instance settles_frame_preorder : PreOrder settles_frame.
Proof.
  split; [by split|]. intros d1 d2 d3 [A1 A2 A3 A4 A5] [B1 B2 B3 B4 B5].
  split; [by etransitivity|congruence|congruence|by etransitivity|by etransitivity].
Qed.
#[export] Instance settles_from_preorder : PreOrder settles_from.
Proof. split; [intros d; split; [apply flow_refl|reflexivity]|]. intros d1 d2 d3 [A1 A2] [B1 B2]. split; by etransitivity. Qed.
Lemma settles_clock d d' : settles_from d d' → clock d' = clock d.
Proof. intros [_ S]. apply clock_setting, S. Qed.

Lemma settlement_ok_settle id d d' :
  settle_frame id d d' → (∀ s, d'.(d_settlements).(objs) !! id = Some s → amount_in s.(fs_balance)) → settlement_ok d → settlement_ok d'.
Proof.
  intros [S1 S2 S3 S4 S5 S6] Hid [[A1 A2 A3 A4 A5 A6] B C D]. destruct (same_bitassets d d' S6 S1) as (Hf & Hl & Hb).
  destruct S1 as (T1 & T2 & T3 & T4 & T5). split.
  - split; [unfold assets_ok; by rewrite T1|by rewrite T5|by apply Hf| |unfold modern, next_maintenance_time in *; by rewrite T4|by apply Hl].
    intros k c Hc. rewrite S3 in Hc. rewrite Hb. by apply (A4 k).
  - unfold calls_ok. by rewrite S3.
  - by apply (feeds_kept d).
  - intros k s Hs. destruct (decide (k = id)) as [->|Hne]; [by apply Hid|]. rewrite S4 in Hs by done. by apply (D k).
Qed.
Lemma settlement_ok_call id d d' : call_frame id d d' → positions_kept d d' → calls_ok d' → settlement_ok d → settlement_ok d'.
Proof.
  intros L P Hc [A B C D]. pose proof (calls_only_market _ _ (calls_only_frame _ _ _ L P)) as M. destruct L as [S1 S2 S3 S4 S5 S6].
  split; [by apply (chain_market _ _ M)|done| |unfold settlements_ok; by rewrite S4]. destruct S1 as (T1 & _). by apply (feeds_kept d).
Qed.
Lemma orders_kept_frame id d d' :
  same_but id d.(d_settlements) d'.(d_settlements) →
  (∀ s', d'.(d_settlements).(objs) !! id = Some s' →
    ∃ s, d.(d_settlements).(objs) !! id = Some s ∧ settlement_asset_id s' = settlement_asset_id s) →
  orders_kept d d'.
Proof. intros S Hid k s' Hk. destruct (decide (k = id)) as [->|Hne]; [by apply Hid|]. rewrite S in Hk by done. by exists s'. Qed.

Lemma cancel_settle_settles d id d' :
  settlement_ok d → cancel_settle_order d id = Ok d' →
  settlement_ok d' ∧ settles_from d d' ∧ d'.(d_settlements).(objs) !! id = None.
Proof.
  intros Hd H. destruct (cancel_settle_order_spec _ _ _ H) as (F & L & G).
  split; [eapply settlement_ok_settle; [exact L|congruence|done]|]. split; [|done].
  pose proof (supplies_cancel_settle _ _ _ H) as D. destruct L as [S1 S2 S3 S4 S5 S6]. split; [done|]. split; try done.
  eapply orders_kept_frame; [exact S4|congruence].
Qed.
Lemma settle_trade_nonneg t balance debt max p pays receives cull :
  amount_in balance → amount_in debt → amount_in max →
  settle_trade t balance debt max p = Ok (settle_amounts pays receives cull) → 0 ≤ receives.(amount).
Proof.
  intros Hb Hd Hm H. unfold settle_trade in H. apply bind_Ok in H as (x & Hx & H). apply asset_min_Ok in Hx as [_ ->].
  apply bind_Ok in H as (r & Hr & H). apply asset_min_Ok in Hr as [_ Er]. cbn in Er. unfold amount_in in *.
  assert (0 ≤ r.(amount)) as Hr by (subst r; cbn; lia). apply bind_Ok in H as (cp & _ & H). destruct (_ =? 0).
  - destruct (_ <? t); [destruct (asset_eqb r debt); [|done]|]; by injection H as <- <- <-.
  - destruct (t <=? _); [by injection H as <- <- <-|]. destruct (asset_eqb r debt).
    + by apply bind_Ok in H as (? & _ & [= <- <- <-]).
    + apply bind_Ok in H as (up & Hup & [= <- <- <-]). by apply (λ H, asset_mul_out _ _ _ (or_intror H)) in Hup as [? _].
Qed.

Lemma mul_null x y : asset_mul x null_price = Ok y → False.
Proof. unfold asset_mul, asset_mul_with, null_price, scale_down. cbn. intros H. repeat case_match; by inv_ok. Qed.

(** A position and a settlement order trade. *)
Lemma match_settle_settles d c s p max fp d' paid :
  settlement_ok d → trade_price p ∨ p = null_price → amount_in max → match_settle d c s p max fp = Ok (d', paid) →
  settlement_ok d' ∧ settles_from d d' ∧ 0 ≤ paid.(amount) ≤ max.(amount) ∧
  ∃ so, d.(d_settlements).(objs) !! s = Some so ∧ paid.(asset_id) = settlement_asset_id so.
Proof.
  intros Hd Hp Hm H. pose proof H as H0. unfold match_settle in H0. apply bind_Ok in H0 as (o & Ho & H0). apply bind_Ok in H0 as (so & Hso & H0).
  do 2 apply bind_Ok in H0 as (? & _ & H0). apply bind_Ok in H0 as (out & Hout & H0).
  destruct Hp as [Hp| ->].
  2: { exfalso. unfold settle_trade in Hout. do 2 apply bind_Ok in Hout as (? & _ & Hout). apply bind_Ok in Hout as (? & Hx & _). by apply mul_null in Hx. }
  apply index_get_Ok in Hso as Hso'. apply index_get_Ok in Ho as Ho'.
  pose proof (so_settlements _ Hd _ _ Hso') as Hbal. cbn in Hbal. destruct (so_calls _ Hd _ _ Ho') as [((D1 & D2) & (C1 & C2) & Hne) _].
  assert (amount_in (get_debt o)) as Hdebt by (unfold amount_in, get_debt, GRAPHENE_MAX_SHARE_SUPPLY, int64_max in *; cbn; lia).
  destruct out as [cancel|pays receives cull].
  - apply bind_Ok in H0 as (d1 & H1 & [= <- <-]). cbn.
    assert (settlement_ok d1 ∧ settles_from d d1) as [Hd1 S1].
    { destruct cancel; [destruct (cancel_settle_settles _ _ _ Hd H1) as (? & ? & _); done|injection H1 as <-; done]. }
    split; [done|]. split; [done|]. unfold amount_in in Hm. split; [lia|]. by exists so.
  - pose proof (settle_trade_nonneg _ _ _ _ _ _ _ _ Hbal Hdebt Hm Hout) as Hrec.
    apply settle_trade_spec in Hout as (Hin & Eid & Rb & Rd & Rm & _); [|done..].
    apply bind_Ok in H0 as (? & _ & H0). apply bind_Ok in H0 as ([d1 b1] & H1 & H0). apply bind_Ok in H0 as ([d2 b2] & H2 & H0).
    apply bind_Ok in H0 as (d3 & H3 & [= -> ->]).
    pose proof (co_assets _ (so_chain _ Hd)) as Ha. pose proof (co_modern _ (so_chain _ Hd)) as Hmod.
    destruct (fill_call_order_spec _ _ _ _ _ _ _ _ Ha H1) as (F1 & L1 & _).
    pose proof (fill_call_positions _ _ _ _ _ _ _ _ Ha H1) as P1.
    assert (calls_ok d1) as Hc1.
    { eapply fill_call_book; [exact Ha|apply Hd| | | | |exact H1]; [|unfold amount_in in Hin; lia|done|].
      - unfold modern, HARDFORK_CORE_342_TIME, HARDFORK_CORE_343_TIME in *. lia.
      - intros c' Hc'. replace c' with o by congruence. unfold get_debt in Rd. cbn in Rd. lia. }
    pose proof (setting_assets _ _ (cf_setting _ _ _ L1) Ha) as Ha1.
    destruct (fill_settle_order_spec _ _ _ _ _ _ _ _ Ha1 Hin H2) as (F2 & L2 & s1 & Hs1 & Es1 & G2).
    { intros s' Hs'. unfold get_settlement in *. rewrite (cf_settlements _ _ _ L1), Hso in Hs'. injection Hs' as <-. lia. }
    assert (settlement_ok d1) as Hd1 by (by eapply settlement_ok_call).
    assert (settles_frame d d1) as S1.
    { destruct L1 as [S1 S2 S3 S4 S5 S6]. split; try done; [intros k s' Hk; rewrite S4 in Hk; by exists s'|by eapply supplies_fill_call]. }
    assert (amount_in so.(fs_balance) → ∀ s', d2.(d_settlements).(objs) !! s = Some s' → amount_in s'.(fs_balance) ∧
      ∃ s0, d1.(d_settlements).(objs) !! s = Some s0 ∧ settlement_asset_id s' = settlement_asset_id s0) as Hleft.
    { intros _ s' Hs'. unfold get_settlement in Hs1. rewrite (cf_settlements _ _ _ L1) in Hs1. apply index_get_Ok in Hs1. rewrite Hso' in Hs1. injection Hs1 as <-.
      destruct b2; [destruct G2; congruence|]. destruct G2 as (s2 & Hs2 & _ & E2). replace s' with s2 by congruence. unfold settlement_asset_id.
      rewrite E2. unfold amount_in in *. cbn. split; [lia|]. exists so. rewrite (cf_settlements _ _ _ L1). split; [done|congruence]. }
    assert (settlement_ok d2 ∧ settles_frame d1 d2) as [Hd2 S2].
    { split; [eapply settlement_ok_settle; [exact L2|intros s' Hs'; by apply Hleft|done]|]. pose proof (supplies_fill_settle _ _ _ _ _ _ _ _ H2) as D.
      destruct L2 as [S1' S2' S3' S4' S5' S6']. split; try done. eapply orders_kept_frame; [exact S4'|intros s' Hs'; by apply Hleft]. }
    assert (settlement_ok d' ∧ settles_frame d2 d') as [Hd3 S3].
    { destruct cull; [destruct (cancel_settle_settles _ _ _ Hd2 H3) as (? & [_ ?] & _); done|injection H3 as <-; done]. }
    split; [done|]. split; [split|].
    + destruct (match_settle_spec _ _ _ _ _ _ _ _ _ _ Ha Hp Hm Ho Hdebt Hso Hbal H) as [F _]. exact F.
    + by do 2 (etransitivity; [eassumption|]).
    + split; [lia|]. by exists so.
Qed.

Lemma asset_sub_in x y z :
  asset_sub x y = Ok z → 0 ≤ y.(amount) ≤ x.(amount) → x.(amount) ≤ int64_max → amount_in z ∧ z.(amount) = x.(amount) - y.(amount).
Proof. intros H Hy Hx. apply asset_sub_Ok in H as [_ ->]. unfold amount_in. cbn. lia. Qed.

#[local] Hint Resolve terminates_pay_market_fees terminates_get_asset terminates_adjust_balance : terminates.
Section rounds.
Context (mia : Z) (max_volume : asset) (sp fp : price) (oid : Z) (d0 : database) (v0 : Z).
Context (Hsp : trade_price sp ∨ sp = null_price) (Hv0 : 0 ≤ v0) (Hmax : max_volume.(amount) ≤ int64_max).
#[local] Notation round := (settle_round mia max_volume sp fp oid).

Definition rounds_ok (s : database * asset) : Prop :=
  settlement_ok s.1 ∧ settles_from d0 s.1 ∧ s.2.(asset_id) = mia ∧ v0 ≤ s.2.(amount) ≤ max_volume.(amount).

(** When the rounds stop, the order is gone, blocked, or the volume is used up. *)
Definition order_done (x : database * asset * bool) : Prop :=
  let '(d, settled, finished) := x in
  finished = true ∨ d.(d_settlements).(objs) !! oid = None ∨ max_volume.(amount) ≤ settled.(amount).

Lemma settle_round_spec s r :
  rounds_ok s → round s = Ok r →
  match r with
  | inl s' => rounds_ok s' ∧ s.2.(amount) < s'.2.(amount)
  | inr x => rounds_ok x.1 ∧ order_done x
  end.
Proof using Hsp Hv0 Hmax.
  destruct s as [d settled]. intros (Hd & S & Hid & Hv) H. cbn [fst snd] in *. unfold settle_round in H. apply bind_Ok in H as (below & Hb & H).
  unfold asset_lt in Hb. apply bind_Ok in Hb as (u & _ & [= <-]).
  destruct (d.(d_settlements).(objs) !! oid) as [o|] eqn:Eo; [|injection H as <-; cbn; unfold rounds_ok; cbn; split; [done|by right; left]].
  destruct (Z.ltb_spec settled.(amount) max_volume.(amount)) as [Hlt|Hge]; cbn [negb] in H.
  2: { injection H as <-. cbn. unfold rounds_ok. cbn. split; [done|by right; right]. }
  apply bind_Ok in H as (mo & _ & H). apply bind_Ok in H as (b & _ & H). apply bind_Ok in H as (c & _ & H). apply bind_Ok in H as (mx & Hmx & H).
  apply asset_sub_in in Hmx as [Hmin Hmx]; [|lia|done].
  assert (∀ d1, cancel_settle_order d oid = Ok d1 → rounds_ok (d1, settled) ∧ order_done (d1, settled, false)) as Hcancel.
  { intros d1 H1. destruct (cancel_settle_settles _ _ _ Hd H1) as (Hd1 & S1 & G). split; [|by right; left].
    split; [done|]. split; [by etransitivity|done]. }
  destruct (_ =? 0); [apply bind_Ok in H as (d1 & H1 & [= <-]); by apply Hcancel|].
  apply bind_Ok in H as ([k c'] & _ & H). destruct (match_settle _ _ _ _ _ _) as [[d1 paid]|e] eqn:Em.
  2: { destruct e; try discriminate H. apply bind_Ok in H as (d1 & H1 & [= <-]). by apply Hcancel. }
  destruct (match_settle_settles _ _ _ _ _ _ _ _ Hd Hsp Hmin Em) as (Hd1 & S1 & Hpaid & _).
  assert (settles_from d0 d1) as S2 by (by etransitivity).
  rewrite (proj2 (Z.ltb_lt HARDFORK_CORE_184_TIME _)) in H
    by (pose proof (co_modern _ (so_chain _ Hd)); unfold modern, HARDFORK_CORE_342_TIME, HARDFORK_CORE_184_TIME in *; lia).
  destruct (Z.eqb_spec paid.(amount) 0) as [E0|E0]; cbn [andb] in H.
  - injection H as <-. cbn. split; [done|]. destruct (d1.(d_settlements).(objs) !! oid); [by left|by right; left].
  - apply bind_Ok in H as (x & Hx & [= <-]). unfold asset_add in Hx. apply bind_Ok in Hx as (? & _ & Hx). apply bind_Ok in Hx as (z & Hz & [= <-]).
    apply safe_add_Ok in Hz as ->. split; [|cbn; lia]. split; [done|]. split; [done|]. cbn. split; [done|lia].
Qed.

Lemma terminates_match_settle d c max :
  settlement_ok d → amount_in max → terminates (match_settle d c oid sp max fp).
Proof using Hsp.
  intros Hd Hm. unfold match_settle. apply terminates_bind; [unfold get_call_order; auto with terminates|]. intros o Ho.
  apply terminates_bind; [unfold get_settlement; auto with terminates|]. intros so Hso. do 2 (apply terminates_bind; [solve_terminates|intros ? _]).
  apply index_get_Ok in Ho, Hso. destruct (so_calls _ Hd _ _ Ho) as [((D1 & D2) & (C1 & C2) & Hne) _].
  pose proof (so_settlements _ Hd _ _ Hso) as Hbal. cbn in Hbal.
  apply terminates_bind; [unfold settle_trade, asset_min; solve_terminates|]. intros [cancel|pays receives cull] Hout.
  { destruct cancel; unfold cancel_settle_order, get_settlement, remove_settlement; solve_terminates. }
  assert (amount_in (get_debt o)) as Hdebt by (unfold amount_in, get_debt, GRAPHENE_MAX_SHARE_SUPPLY, int64_max in *; cbn; lia).
  pose proof (settle_trade_nonneg _ _ _ _ _ _ _ _ Hbal Hdebt Hm Hout) as Hrec. destruct Hsp as [Hp| ->].
  2: { unfold settle_trade in Hout. do 2 apply bind_Ok in Hout as (? & _ & Hout). apply bind_Ok in Hout as (? & Hx & _). by apply mul_null in Hx. }
  apply settle_trade_spec in Hout as (Hin & Eid & Rb & Rd & Rm & _); [|done..].
  apply terminates_bind.
  { case_match; [|discriminate]. apply terminates_bind; [solve_terminates|]. intros [] _; discriminate. }
  intros _ _. apply terminates_bind.
  - apply terminates_fill_call; [apply Hd|apply Hd|unfold amount_in in Hin; lia|done|]. intros c' Hc'. replace c' with o by congruence. exact Rd.
  - intros [d1 b1] _. apply terminates_bind; [unfold fill_settle_order, get_settlement, modify_settlement, remove_settlement; solve_terminates|].
    intros [d2 b2] _. destruct cull; unfold cancel_settle_order, get_settlement, remove_settlement; solve_terminates.
Qed.

Lemma settle_rounds_ends s : rounds_ok s → terminates (round s).
Proof using Hsp Hv0 Hmax.
  destruct s as [d settled]. intros (Hd & _ & _ & Hv). cbn [fst snd] in *. unfold settle_round. apply terminates_bind; [solve_terminates|]. intros below Hb.
  unfold asset_lt in Hb. apply bind_Ok in Hb as (u & _ & [= <-]). destruct (_ !! oid); [|discriminate].
  destruct (Z.ltb_spec settled.(amount) max_volume.(amount)); cbn [negb]; [|discriminate].
  apply terminates_bind; [apply terminates_get_asset|]. intros mo _. apply terminates_bind; [unfold bitasset_data; solve_terminates|]. intros b _.
  apply terminates_bind; [unfold least_collateralized, price_min, make_price; solve_terminates|]. intros c _.
  apply terminates_bind; [solve_terminates|]. intros mx Hmx. apply asset_sub_in in Hmx as [Hmin _]; [|lia|done].
  assert (terminates (cancel_settle_order d oid)) as Hc by (unfold cancel_settle_order, get_settlement, remove_settlement; solve_terminates).
  destruct (_ =? 0); [apply terminates_bind; [done|discriminate]|]. apply terminates_bind; [solve_terminates|]. intros [k c'] _.
  pose proof (terminates_match_settle d k mx Hd Hmin) as Hm. destruct (match_settle _ _ _ _ _ _) as [[d1 paid]|e]; [solve_terminates|].
  destruct e; try discriminate; [|done]. apply terminates_bind; [done|discriminate].
Qed.
End rounds.
