(* ===== verification/Clearing.v ===== *)
(** * The clearing of what has expired in the market

    The loop of [database::clear_expired_orders] (db_update.cpp) over the settlement
    orders, whose parts are in Settlement.v: it goes from asset to asset, ends, and
    settles no asset beyond its volume. *)
From stdpp Require Import sorting.
From S2P Require Import Prelude Safe Asset Objects Pricing Database Ledger Vesting Balance Evaluator Sample Cursor Market Fills Margin Settle Book Rounds Settlement.

(** ** The loop over the settlement orders *)

(** A bitasset belongs to the asset that has it, and amounts fit their fields. *)
Record volumes_ok (d : database) : Prop := {
  vo_supply : map_Forall (λ _ x, x.(dd_current_supply) ≤ int64_max) d.(d_dynamic_data);
  vo_volume : map_Forall (λ _ b, 0 ≤ b.(bd_force_settled_volume)) d.(d_bitasset_data).(objs);
  vo_ids : map_Forall (λ a o, ∀ i, o.(ao_bitasset_data_id) = Some i →
    ∀ b, d.(d_bitasset_data).(objs) !! i = Some b → b.(bd_asset_id) = a) d.(d_assets).(objs) }.

(** What the asset allows to be settled, for a supply of at most the one it has. *)
Definition volume_limit (d : database) (b : asset_bitasset_data_object) (v : Z) : Prop :=
  ∃ x s, d.(d_dynamic_data) !! b.(bd_asset_id) = Some x ∧ s ≤ x.(dd_current_supply) ∧ max_force_settlement_volume b s = Ok v.
Definition volume_kept (d d' : database) : Prop :=
  ∀ i b', d'.(d_bitasset_data).(objs) !! i = Some b' →
    ∃ b, d.(d_bitasset_data).(objs) !! i = Some b ∧ b' = b <| bd_force_settled_volume := b'.(bd_force_settled_volume) |> ∧
      (b'.(bd_force_settled_volume) = b.(bd_force_settled_volume) ∨ ∃ v, volume_limit d b v ∧ b'.(bd_force_settled_volume) ≤ v).

Lemma max_force_le b s v :
  max_force_settlement_volume b s = Ok v → s ≤ int64_max → 0 ≤ b.(bd_force_settled_volume) → v ≤ int64_max.
Proof.
  unfold max_force_settlement_volume. intros H Hs Hv. destruct (_ =? 0); [injection H as <-; unfold int64_max; lia|]. destruct (_ =? _).
  - unfold safe_add in H. destruct (Z.ltb_spec 0 b.(bd_force_settled_volume)); cbn [andb] in H.
    + destruct (Z.ltb_spec (int64_max - b.(bd_force_settled_volume)) s); [done|]. destruct (andb _ _); [done|]. injection H as <-. lia.
    + destruct (andb _ _); [done|]. injection H as <-. lia.
  - apply bind_Ok in H as (r & _ & [= <-]). unfold to_int64, int64_max, uint64_mod.
    pose proof (Z.mod_pos_bound (r + 9223372036854775808) 18446744073709551616 ltac:(lia)). lia.
Qed.

(** The counter of a bitasset is set. *)
Lemma set_volume_spec d o b v d' :
  modify_bitasset d o (λ b, Ok (b <| bd_force_settled_volume := v |>)) = Ok d' → bitasset_data d o = Ok b →
  ∃ i, o.(ao_bitasset_data_id) = Some i ∧ d.(d_bitasset_data).(objs) !! i = Some b ∧
    d' = d <| d_bitasset_data := Index (<[i := b <| bd_force_settled_volume := v |>]> d.(d_bitasset_data).(objs)) d.(d_bitasset_data).(next_id) |>.
Proof.
  unfold modify_bitasset. intros H Hb. apply bind_Ok in H as (i & Hi & H). apply from_option_Ok in Hi. apply bind_Ok in H as (j & Hj & [= <-]).
  pose proof (bitasset_get _ _ _ _ Hb Hi) as Hib. apply index_modify_Ok in Hj as (x & x' & Hx & [= <-] & ->). exists i. rewrite Hib in Hx. by injection Hx as <-.
Qed.

(** A change of the counter that leaves everything else of the market alone. *)
Lemma set_volume_ok d o b v d' :
  settlement_ok d → modify_bitasset d o (λ b, Ok (b <| bd_force_settled_volume := v |>)) = Ok d' → bitasset_data d o = Ok b →
  conserves d d' ∧ settlement_ok d' ∧ same_setting d d' ∧ d'.(d_dynamic_data) = d.(d_dynamic_data) ∧
  d'.(d_settlements) = d.(d_settlements) ∧ d'.(d_limit_orders) = d.(d_limit_orders).
Proof.
  intros Hd H Hb. destruct (set_volume_spec _ _ _ _ _ H Hb) as (i & Hi & Hib & E).
  destruct (modify_bitasset_spec d o _ d' b _ H Hb eq_refl eq_refl eq_refl) as (F & M & _); [done| |].
  { intros Hs. apply (co_funds _ (so_chain _ Hd) _ _ Hib). exact Hs. }
  split; [eapply flow_ext; [exact F|]; intros a; unfold fund_held; cbn; lia|]. split; [|subst d'; done]. destruct Hd as [A B C D]. split.
  - by apply (chain_market _ _ M).
  - by subst d'.
  - intros a oa Ha. subst d'. cbn in Ha. specialize (C _ _ Ha). cbn in C |- *. unfold bitasset_data in *. cbn.
    destruct oa.(ao_bitasset_data_id) as [j|]; [|done]. cbn in *. unfold index_get in *. cbn. destruct (decide (j = i)) as [->|Hne].
    + rewrite lookup_insert_eq. rewrite Hib in C. exact C.
    + by rewrite lookup_insert_ne.
  - by subst d'.
Qed.

Definition price_or_null (p : price) : Prop := trade_price p ∨ p = null_price.
(** Before the loop, or one of the values it gets. *)
Record settling_ok (d0 : database) (s : settling) : Prop := {
  si_market : settlement_ok s.(sg_db);
  si_volumes : volumes_ok s.(sg_db);
  si_conserves : conserves d0 s.(sg_db);
  si_setting : same_setting d0 s.(sg_db);
  si_limit : s.(sg_db).(d_limit_orders) = d0.(d_limit_orders);
  si_supply : supplies_down d0 s.(sg_db);
  si_kept : volume_kept d0 s.(sg_db);
  si_orders : orders_kept d0 s.(sg_db);
  si_later : ∀ i b, s.(sg_db).(d_bitasset_data).(objs) !! i = Some b →
    s.(sg_current_asset) < b.(bd_asset_id) ∨ s.(sg_current_asset) = b.(bd_asset_id) ∧ s.(sg_max_settlement_volume).(asset_id) ≠ s.(sg_current_asset) →
    d0.(d_bitasset_data).(objs) !! i = Some b;
  si_max : s.(sg_max_settlement_volume).(amount) ≤ int64_max;
  si_limits : 0 < s.(sg_max_settlement_volume).(amount) →
    ∀ o i b, d0.(d_assets).(objs) !! s.(sg_max_settlement_volume).(asset_id) = Some o → o.(ao_bitasset_data_id) = Some i →
      d0.(d_bitasset_data).(objs) !! i = Some b → volume_limit d0 b s.(sg_max_settlement_volume).(amount);
  si_fill : price_or_null s.(sg_settlement_fill_price);
  si_price : price_or_null s.(sg_settlement_price) }.

(** The variables that an iteration sets before it settles anything. *)
Lemma settlement_prices_ok d0 s b o s' :
  settling_ok d0 s → trade_price b.(bd_current_feed).(pf_settlement_price) → settlement_prices s b o = Ok s' →
  settling_ok d0 s' ∧ s'.(sg_db) = s.(sg_db) ∧ s'.(sg_current_asset) = s.(sg_current_asset) ∧
  s'.(sg_current_asset_finished) = s.(sg_current_asset_finished) ∧ s'.(sg_max_settlement_volume) = s.(sg_max_settlement_volume).
Proof.
  intros Hs Hp H. unfold settlement_prices in H. apply bind_Ok in H as (s1 & H1 & H).
  assert (settling_ok d0 s1 ∧ s1.(sg_db) = s.(sg_db) ∧ s1.(sg_current_asset) = s.(sg_current_asset) ∧
    s1.(sg_current_asset_finished) = s.(sg_current_asset_finished) ∧ s1.(sg_max_settlement_volume) = s.(sg_max_settlement_volume)) as [Hs1 E].
  { destruct (negb (s.(sg_settlement_fill_price).(base).(asset_id) =? _)); [|by injection H1 as <-]. apply bind_Ok in H1 as (r & _ & H1). apply bind_Ok in H1 as (p & Hq & [= <-]).
    unfold price_div in Hq. apply bind_Ok in Hq as (r' & _ & Hq). apply price_mul_ok in Hq as [Hq _]; [|done].
    split; [|done]. destruct Hs. split; try done. by left. }
  rewrite (proj2 (Z.leb_gt _ _)) in H by apply (co_modern _ (so_chain _ (si_market _ _ Hs1))).
  destruct (negb (s1.(sg_settlement_price).(base).(asset_id) =? _)); injection H as <-; [|done]. split; [|done]. destruct Hs1. by split.
Qed.

Lemma normalize_den n d : 0 < d → 0 < (normalize n d).2 ≤ d.
Proof.
  intros Hd. unfold normalize. cbn [snd]. rewrite (Z.sgn_pos d), Z.mul_1_r by done.
  pose proof (Z.gcd_divide_r n d) as [q Hq]. pose proof (Z.gcd_nonneg n d).
  assert (Z.gcd n d ≠ 0) as Hne by (intros Hz; apply Z.gcd_eq_0_r in Hz; lia).
  rewrite Hq at 1 3. rewrite Z.div_mul by done. nia.
Qed.
Lemma normalize_num n d : 0 < n → d ≠ 0 → (normalize n d).1 ≤ n.
Proof.
  intros Hn Hd. destruct (Z.lt_ge_cases 0 d); [by apply normalize_le|]. unfold normalize. cbn [fst]. rewrite (Z.sgn_neg d) by lia.
  assert (Z.gcd n d ≠ 0) by (intros Hz; apply Z.gcd_eq_0_r in Hz; lia). pose proof (Z.gcd_nonneg n d).
  pose proof (Z.mul_div_ge n (Z.gcd n d * -1) ltac:(lia)). nia.
Qed.

Lemma settlement_prices_ends s b o :
  modern s.(sg_db) → trade_price b.(bd_current_feed).(pf_settlement_price) → terminates (settlement_prices s b o).
Proof.
  intros Hm [Hp _]. unfold settlement_prices. apply terminates_bind.
  - destruct (negb _); [|discriminate]. unfold rational, price_div. destruct (GRAPHENE_100_PERCENT =? 0) eqn:E0; [done|]. rewrite Ok_bind.
    apply terminates_bind; [|intros; discriminate]. set (r := normalize _ _).
    apply terminates_bind; [unfold rational; destruct (r.1 =? 0); discriminate|]. intros r' Hr. apply price_mul_ends; [done|].
    unfold rational in Hr. destruct (Z.eqb_spec r.1 0); [done|]. apply Ok_inj in Hr as <-.
    pose proof (normalize_den (GRAPHENE_100_PERCENT - b.(bd_options).(bo_force_settlement_offset_percent)) GRAPHENE_100_PERCENT ltac:(done)) as Hd.
    change (0 < r.2 ≤ GRAPHENE_100_PERCENT) in Hd. clearbody r. etransitivity; [apply normalize_num; [lia|done]|]. unfold GRAPHENE_100_PERCENT in *. lia.
  - intros s1 H1. rewrite (proj2 (Z.leb_gt _ _)); [destruct (negb (s1.(sg_settlement_price).(base).(asset_id) =? _)); discriminate|].
    destruct (negb _); [|injection H1 as <-; exact Hm]. apply bind_Ok in H1 as (? & _ & H1). by apply bind_Ok in H1 as (? & _ & [= <-]).
Qed.

(** The kernel does not unroll the rounds. *)
#[local] Strategy 1000 [while_loop].

(** The counter after the rounds, written or not. *)
Lemma counted d mo b v d' i :
  settlement_ok d →
  (if b.(bd_force_settled_volume) =? v then Ok d else modify_bitasset d mo (λ b, Ok (b <| bd_force_settled_volume := v |>))) = Ok d' →
  bitasset_data d mo = Ok b → mo.(ao_bitasset_data_id) = Some i →
  conserves d d' ∧ settlement_ok d' ∧ same_setting d d' ∧ d'.(d_dynamic_data) = d.(d_dynamic_data) ∧
  d'.(d_settlements) = d.(d_settlements) ∧ d'.(d_limit_orders) = d.(d_limit_orders) ∧
  d'.(d_bitasset_data).(objs) = <[i := b <| bd_force_settled_volume := v |>]> d.(d_bitasset_data).(objs).
Proof.
  intros Hd H Hb Hi. destruct (Z.eqb_spec b.(bd_force_settled_volume) v) as [E|E].
  - injection H as <-. split; [apply flow_refl|]. do 5 (split; [done|]). rewrite insert_id; [done|]. rewrite (bitasset_get _ _ _ _ Hb Hi).
    f_equal. subst v. by destruct b.
  - destruct (set_volume_ok _ _ _ _ _ Hd H Hb) as (A1 & A2 & A3 & A4 & A5 & A6). do 6 (split; [done|]).
    destruct (set_volume_spec _ _ _ _ _ H Hb) as (j & Hj & _ & ->). by replace j with i by congruence.
Qed.

Lemma settle_order_spec d0 s mo b oid s' :
  settling_ok d0 s → volumes_ok d0 → get_asset s.(sg_db) s.(sg_current_asset) = Ok mo → bitasset_data s.(sg_db) mo = Ok b →
  s.(sg_max_settlement_volume).(asset_id) = s.(sg_current_asset) → b.(bd_force_settled_volume) < s.(sg_max_settlement_volume).(amount) →
  settle_order s mo b oid = Ok s' →
  settling_ok d0 s' ∧ s'.(sg_current_asset) = s.(sg_current_asset) ∧ s'.(sg_max_settlement_volume) = s.(sg_max_settlement_volume) ∧
  orders_kept s.(sg_db) s'.(sg_db) ∧
  (s'.(sg_current_asset_finished) = true ∨ s'.(sg_db).(d_settlements).(objs) !! oid = None ∨
   ∃ b', bitasset_data s'.(sg_db) mo = Ok b' ∧ get_asset s'.(sg_db) s.(sg_current_asset) = Ok mo ∧ s.(sg_max_settlement_volume).(amount) ≤ b'.(bd_force_settled_volume)).
Proof.
  intros Hs Hv0 Hmo Hb Hid Hlt H. pose proof Hs as [M V C S L D K O I X Y F P]. unfold settle_order in H. apply bind_Ok in H as (r & Hr & H).
  destruct mo.(ao_bitasset_data_id) as [i|] eqn:Ei; [|unfold bitasset_data in Hb; by rewrite Ei in Hb].
  pose proof (bitasset_get _ _ _ _ Hb Ei) as Hib. pose proof (vo_volume _ V _ _ Hib) as Hvol. cbn in Hvol.
  set (max := s.(sg_max_settlement_volume)) in *. set (a := s.(sg_current_asset)) in *.
  apply (while_inv _ (rounds_ok a max s.(sg_db) b.(bd_force_settled_volume))
    (λ x, rounds_ok a max s.(sg_db) b.(bd_force_settled_volume) x.1 ∧ order_done max oid x)) in Hr.
  2: { intros x y Hx Hy. pose proof (settle_round_spec _ _ _ _ _ _ _ P Hvol X _ _ Hx Hy) as Hz. destruct y as [y|[[? ?] ?]]; [by destruct Hz|done]. }
  2: { split; [done|]. split; [reflexivity|]. split; [done|]. cbn. lia. }
  destruct r as [|[[d1 settled] fin]]; [done|]. destruct Hr as [(M1 & [C1 F1] & E1 & Hv1) Hdone]. cbn [fst snd order_done] in *.
  cbn [loop_result] in H. rewrite Ok_bind in H. cbn beta iota in H.
  pose proof (sv_bitasset _ _ F1) as B1. assert (bitasset_data d1 mo = Ok b) as Hb1 by (unfold bitasset_data in *; by rewrite B1).
  rewrite Hb1, Ok_bind in H. apply bind_Ok in H as (d2 & H2 & [= <-]). cbn.
  destruct (counted _ _ _ _ _ _ M1 H2 Hb1 Ei) as (C2 & M2 & S2 & D2 & O2 & L2 & E2). rewrite B1 in E2.
  pose proof (vo_ids _ V _ _ (proj1 (index_get_Ok _ _ _) Hmo) _ Ei _ Hib) as Hba. cbn in Hba.
  destruct S2 as (T1 & T2). destruct F1 as [(U1 & U2) G2 G3 G4 G5]. split; [|split; [done|split; [done|split]]].
  - split; cbn; try done.
    + destruct V as [V1 V2 V3]. split.
      * intros j x Hx. rewrite D2 in Hx. destruct (G5 _ _ Hx) as (x0 & Hx0 & ?). specialize (V1 _ _ Hx0). cbn in V1 |- *. lia.
      * rewrite E2. apply map_Forall_insert_2; [cbn; lia|done].
      * intros j o Ho i' Hi' b' Hb'. rewrite T1, U1 in Ho. rewrite E2 in Hb'. apply lookup_insert_Some in Hb' as [[<- <-]|[_ Hb']]; [|by eapply V3].
        cbn. by eapply V3.
    + etransitivity; [exact C|]. by etransitivity.
    + etransitivity; [exact S|]. etransitivity; [split; [exact U1|exact U2]|by split].
    + congruence.
    + etransitivity; [exact D|]. etransitivity; [exact G5|by apply supplies_same].
    + intros j b' Hb'. rewrite E2 in Hb'. apply lookup_insert_Some in Hb' as [[<- <-]|[_ Hb']]; [|by apply K].
      destruct (K _ _ Hib) as (b0 & Hb0 & Eb0 & _). exists b0. split; [done|]. split; [by rewrite Eb0|]. right. exists max.(amount). cbn. split; [|lia].
      apply index_get_Ok in Hmo as Ho. destruct S as [U0 _]. rewrite U0, <-Hid in Ho. exact (Y ltac:(lia) _ _ _ Ho Ei Hb0).
    + etransitivity; [exact O|]. etransitivity; [exact G4|]. intros k x Hk. rewrite O2 in Hk. by exists x.
    + intros j b' Hb' Hl. rewrite E2 in Hb'. apply lookup_insert_Some in Hb' as [[<- <-]|[_ Hb']]; [|by apply I]. cbn in Hl. exfalso. destruct Hl as [?|[_ ?]]; [lia|done].
  - etransitivity; [exact G4|]. intros k x Hk. rewrite O2 in Hk. by exists x.
  - destruct Hdone as [->|[Hgone|Hfull]]; [left; apply orb_true_r|right; left; congruence|right; right].
    eexists. split; [unfold bitasset_data; rewrite Ei; apply index_get_Ok; rewrite E2; apply lookup_insert_eq|].
    split; [unfold get_asset in *; by rewrite T1, U1|exact Hfull].
Qed.

(** The settlement orders that are still ahead of the loop. *)
Definition ahead (d : database) (a : Z) : gmap Z force_settlement_object :=
  filter (λ x, a ≤ settlement_asset_id x.2) d.(d_settlements).(objs).

Lemma ahead_le d d' a a' : orders_kept d d' → a ≤ a' → (size (ahead d' a') ≤ size (ahead d a))%nat.
Proof.
  intros Ho Ha. rewrite <-!size_dom. apply subseteq_size. intros k [s' Hk]%elem_of_dom. apply elem_of_dom.
  apply map_lookup_filter_Some in Hk as [Hk Hle]. destruct (Ho _ _ Hk) as (s & Hs & E). exists s. apply map_lookup_filter_Some. cbn in *. split; [done|lia].
Qed.
Lemma ahead_lt d d' a a' k s :
  orders_kept d d' → a ≤ a' → d.(d_settlements).(objs) !! k = Some s → a ≤ settlement_asset_id s →
  d'.(d_settlements).(objs) !! k = None ∨ settlement_asset_id s < a' → (size (ahead d' a') < size (ahead d a))%nat.
Proof.
  intros Ho Ha Hk Hs Hgone. rewrite <-!size_dom. apply subset_size. split.
  - intros j [s' Hj]%elem_of_dom. apply elem_of_dom.
    apply map_lookup_filter_Some in Hj as [Hj Hle]. destruct (Ho _ _ Hj) as (sj & Hsj & E). exists sj. apply map_lookup_filter_Some. cbn in *. split; [done|lia].
  - intros Hsub. assert (k ∈ dom (ahead d a)) as Hin by (apply elem_of_dom; exists s; by apply map_lookup_filter_Some).
    apply Hsub, elem_of_dom in Hin as [s' Hk']. apply map_lookup_filter_Some in Hk' as [Hk' Hle]. destruct (Ho _ _ Hk') as (s0 & Hs0 & E). cbn in *.
    destruct Hgone; [congruence|]. replace s0 with s in * by congruence. lia.
Qed.

(** The settlement orders are in a total order. *)
Lemma not_after_settle x y : not_after settle_ltb x y ↔
  settlement_asset_id x.2 < settlement_asset_id y.2 ∨ settlement_asset_id x.2 = settlement_asset_id y.2 ∧
    (x.2.(fs_settlement_date) < y.2.(fs_settlement_date) ∨ x.2.(fs_settlement_date) = y.2.(fs_settlement_date) ∧ x.1 ≤ y.1).
Proof. unfold not_after, settle_ltb, pair_ltb. cbn. split; intros H; propify; lia. Qed.
#[export] Instance settle_trans : Transitive (not_after settle_ltb).
Proof. intros x y z. rewrite !not_after_settle. lia. Qed.
#[export] Instance settle_total : Total (not_after settle_ltb).
Proof. intros x y. rewrite !not_after_settle. lia. Qed.
Lemma first_of_range p (i : index force_settlement_object) x :
  head (range settle_ltb p i) = Some x →
  i.(objs) !! x.1 = Some x.2 ∧ p x = true ∧ ∀ k s, i.(objs) !! k = Some s → p (k, s) = true → settlement_asset_id x.2 ≤ settlement_asset_id s.
Proof.
  intros H. destruct (range_head _ _ _ _ H) as (Hx & Hp & Hmin). split; [done|]. split; [done|]. intros k s Hk Hks.
  destruct (Hmin _ _ Hk Hks) as [<-|Hle]; [done|]. apply not_after_settle in Hle. cbn in *. lia.
Qed.
Lemma first_settlement_None d a : first_settlement d a = None → ∀ k s, d.(d_settlements).(objs) !! k = Some s → settlement_asset_id s < a.
Proof.
  unfold first_settlement. intros H k s Hk. apply (range_empty _ _ _ _ _ H) in Hk. by apply Z.leb_gt in Hk.
Qed.

(** How many iterations are left at most: two for an order, but one when the
    current asset is blocked. *)
Definition blocked (s : settling) : bool :=
  s.(sg_current_asset_finished) ||
  ((s.(sg_max_settlement_volume).(asset_id) =? s.(sg_current_asset)) &&
   match first_settlement s.(sg_db) s.(sg_current_asset), (o ← get_asset s.(sg_db) s.(sg_current_asset); bitasset_data s.(sg_db) o) with
   | Some (_, o), Ok b => (settlement_asset_id o =? s.(sg_current_asset)) && (s.(sg_max_settlement_volume).(amount) <=? b.(bd_force_settled_volume))
   | _, _ => false
   end).
Definition iterations (s : settling) : Z := 2 * Z.of_nat (size (ahead s.(sg_db) s.(sg_current_asset))) + (if blocked s then 0 else 1).

Lemma settling_moves d0 s a f : settling_ok d0 s → s.(sg_current_asset) ≤ a → settling_ok d0 (s <| sg_current_asset := a |> <| sg_current_asset_finished := f |>).
Proof. intros [M V C S L D K O I X Y F P] Ha. split; cbn; try done. intros i b Hb Hl. apply (I i b Hb).
  destruct Hl as [?|[E ?]]; [left; lia|]. destruct (decide (s.(sg_current_asset) = a)) as [->|]; [by right|left; lia]. Qed.

Lemma settling_cancels d0 s k d1 : settling_ok d0 s → cancel_settle_order s.(sg_db) k = Ok d1 → settling_ok d0 (s <| sg_db := d1 |>) ∧ settles_frame s.(sg_db) d1 ∧ d1.(d_settlements).(objs) !! k = None.
Proof.
  intros [M V C S L D K O I X Y F P] H. destruct (cancel_settle_settles _ _ _ M H) as (M1 & [C1 F1] & G). split; [|done].
  pose proof F1 as [[U1 U2] G2 G3 G4 G5]. split; cbn; try done.
  - destruct V as [V1 V2 V3]. split.
    + intros j x Hx. destruct (G5 _ _ Hx) as (x0 & Hx0 & ?). specialize (V1 _ _ Hx0). cbn in V1 |- *. lia.
    + by rewrite G3.
    + rewrite U1, G3. exact V3.
  - by etransitivity.
  - etransitivity; [exact S|by split].
  - congruence.
  - by etransitivity.
  - unfold volume_kept. by rewrite G3.
  - by etransitivity.
  - rewrite G3. exact I.
Qed.

Lemma set_max_ok d0 s mo b s' :
  settling_ok d0 s → volumes_ok d0 → get_asset s.(sg_db) s.(sg_current_asset) = Ok mo → bitasset_data s.(sg_db) mo = Ok b → set_max s mo b = Ok s' →
  settling_ok d0 s' ∧ s'.(sg_db) = s.(sg_db) ∧ s'.(sg_current_asset) = s.(sg_current_asset) ∧
  s'.(sg_current_asset_finished) = s.(sg_current_asset_finished) ∧ s'.(sg_max_settlement_volume).(asset_id) = s.(sg_current_asset) ∧
  (s.(sg_max_settlement_volume).(asset_id) = s.(sg_current_asset) → s' = s).
Proof.
  intros Hs Hv0 Hmo Hb H. unfold set_max in H. destruct (Z.eqb_spec s.(sg_max_settlement_volume).(asset_id) s.(sg_current_asset)) as [E|E].
  { injection H as <-. done. }
  apply bind_Ok in H as (x & Hx & H). apply bind_Ok in H as (v & Hv & [= <-]). split; [|done]. destruct Hs as [M V C S L D K O I X Y F P].
  destruct mo.(ao_bitasset_data_id) as [i|] eqn:Ei; [|unfold bitasset_data in Hb; by rewrite Ei in Hb].
  pose proof (bitasset_get _ _ _ _ Hb Ei) as Hib. pose proof (vo_ids _ V _ _ (proj1 (index_get_Ok _ _ _) Hmo) _ Ei _ Hib) as Hba. cbn in Hba.
  rewrite (dyn_id _ _ _ (co_assets _ (so_chain _ M)) Hmo) in Hx. apply from_option_Ok in Hx.
  split; cbn; try done.
  - intros j b' Hb' Hl. destruct Hl as [?|[_ ?]]; [by apply I; [|left]|done].
  - pose proof (vo_supply _ V _ _ Hx) as Hsup. pose proof (vo_volume _ V _ _ Hib) as Hvol. cbn in Hsup, Hvol. by eapply max_force_le.
  - intros _ o j b' Ho Hj Hb'. destruct S as [U1 _]. apply index_get_Ok in Hmo as Ho'. rewrite U1, Ho in Ho'. injection Ho' as ->.
    replace j with i in * by congruence. rewrite (I _ _ Hib) in Hb' by (by right). injection Hb' as <-.
    destruct (D _ _ Hx) as (x0 & Hx0 & Hle). exists x0, x.(dd_current_supply). split; [by rewrite Hba|]. done.
Qed.

Lemma next_asset_spec d0 s k o :
  settling_ok d0 s → s.(sg_db).(d_settlements).(objs) !! k = Some o → settlement_asset_id o = s.(sg_current_asset) →
  match next_asset s with
  | inl s' => settling_ok d0 s' ∧ (size (ahead s'.(sg_db) s'.(sg_current_asset)) < size (ahead s.(sg_db) s.(sg_current_asset)))%nat
  | inr d => d = s.(sg_db)
  end.
Proof.
  intros Hs Hk Eo. unfold next_asset. destruct (next_settlement _ _) as [[j x]|] eqn:E; [|done].
  apply first_of_range in E as (_ & Hlt & _). cbn in Hlt. apply Z.ltb_lt in Hlt. split; [by apply settling_moves; [|lia]|]. cbn.
  eapply ahead_lt; [reflexivity|lia|exact Hk|lia|right; lia].
Qed.

Lemma is_blocked s k o b :
  s.(sg_db).(d_settlements).(objs) !! k = Some o → settlement_asset_id o = s.(sg_current_asset) →
  s.(sg_max_settlement_volume).(asset_id) = s.(sg_current_asset) →
  (o ← get_asset s.(sg_db) s.(sg_current_asset); bitasset_data s.(sg_db) o) = Ok b →
  s.(sg_max_settlement_volume).(amount) ≤ b.(bd_force_settled_volume) → blocked s = true.
Proof.
  intros Hk Eo Em Hb Hle. unfold blocked. rewrite Hb, Em, Z.eqb_refl. apply orb_true_iff. right. cbn [andb].
  destruct (first_settlement _ _) as [[j x]|] eqn:Ej.
  - apply first_of_range in Ej as (_ & Hj%Z.leb_le & Hmin). cbn in Hj, Hmin. specialize (Hmin _ _ Hk). cbn in Hmin.
    rewrite (proj2 (Z.leb_le _ _)) in Hmin by lia. specialize (Hmin eq_refl). apply andb_true_iff. split; [apply Z.eqb_eq; lia|by apply Z.leb_le].
  - pose proof (first_settlement_None _ _ Ej _ _ Hk). lia.
Qed.
Lemma not_blocked s k o mo b s2 :
  let s1 := s <| sg_current_asset := settlement_asset_id o |> in
  first_settlement s.(sg_db) s.(sg_current_asset) = Some (k, o) → get_asset s1.(sg_db) s1.(sg_current_asset) = Ok mo → bitasset_data s1.(sg_db) mo = Ok b →
  (s1.(sg_max_settlement_volume).(asset_id) = s1.(sg_current_asset) → s2 = s1) →
  b.(bd_force_settled_volume) < s2.(sg_max_settlement_volume).(amount) → s1.(sg_current_asset_finished) = false → blocked s = false.
Proof.
  cbn. intros Ek Hmo Hb K2 Hvol Hfin. unfold blocked. rewrite Hfin, Ek. cbn [orb]. apply andb_false_iff.
  destruct (Z.eqb_spec (settlement_asset_id o) s.(sg_current_asset)) as [E|E].
  2: { right. by destruct (_ ≫= _). }
  destruct (Z.eqb_spec s.(sg_max_settlement_volume).(asset_id) s.(sg_current_asset)) as [Em|]; [right|by left].
  rewrite <-E, Hmo, Ok_bind, Hb. cbn [andb]. rewrite K2 in Hvol by congruence. by apply Z.leb_gt.
Qed.

Lemma feed_price d a mo b :
  feeds_ok d → get_asset d a = Ok mo → bitasset_data d mo = Ok b → price_is_null b.(bd_current_feed).(pf_settlement_price) = false →
  trade_price b.(bd_current_feed).(pf_settlement_price).
Proof.
  intros Hf Hmo Hb Hn. apply index_get_Ok in Hmo. specialize (Hf _ _ Hmo). cbn in Hf. rewrite Hb in Hf. cbn in Hf.
  destruct Hf as [_ [?|[? _]]]; [congruence|done].
Qed.
Lemma settlement_step_spec d0 s r :
  settling_ok d0 s → volumes_ok d0 → settlement_step s = Ok r →
  match r with
  | inl s' => settling_ok d0 s' ∧ 0 ≤ iterations s' < iterations s
  | inr d => ∃ s', settling_ok d0 s' ∧ s'.(sg_db) = d
  end.
Proof.
  intros Hs Hv0 H. unfold settlement_step in H. destruct (first_settlement _ _) as [[k o]|] eqn:Ek; [|injection H as <-; by exists s].
  apply first_of_range in Ek as Hk. cbn in Hk. destruct Hk as (Hk & Hle%Z.leb_le & Hmin). cbn in H.
  set (s1 := s <| sg_current_asset := settlement_asset_id o |>) in *.
  assert (settling_ok d0 s1) as Hs1.
  { pose proof (settling_moves _ _ _ s.(sg_current_asset_finished) Hs Hle) as Hm. exact Hm. }
  assert (size (ahead s1.(sg_db) s1.(sg_current_asset)) ≤ size (ahead s.(sg_db) s.(sg_current_asset)))%nat as Hsz by (by apply ahead_le).
  assert (Hless : ∀ s', (size (ahead s'.(sg_db) s'.(sg_current_asset)) < size (ahead s1.(sg_db) s1.(sg_current_asset)))%nat → 0 ≤ iterations s' < iterations s).
  { intros s' Hlt. unfold iterations. destruct (blocked s'), (blocked s); lia. }
  assert (Hnext : ∀ s2, settling_ok d0 s2 → s2.(sg_db) = s1.(sg_db) → s2.(sg_current_asset) = s1.(sg_current_asset) →
    match next_asset s2 with inl s' => settling_ok d0 s' ∧ 0 ≤ iterations s' < iterations s | inr d => ∃ s', settling_ok d0 s' ∧ s'.(sg_db) = d end).
  { intros s2 Hs2 E1 E2. pose proof (next_asset_spec d0 s2 k o Hs2) as Hn. rewrite E1, E2 in Hn. specialize (Hn Hk eq_refl).
    destruct (next_asset s2) as [s'|d]; [destruct Hn; split; [done|by apply Hless]|]. subst d. exists s2. split; [done|congruence]. }
  assert (Hcancel : ∀ d1, cancel_settle_order s1.(sg_db) k = Ok d1 →
    settling_ok d0 (s1 <| sg_db := d1 |>) ∧ 0 ≤ iterations (s1 <| sg_db := d1 |>) < iterations s).
  { intros d1 H1. destruct (settling_cancels _ _ _ _ Hs1 H1) as (Hs2 & F & G). split; [done|]. apply Hless. cbn.
    eapply ahead_lt; [apply F|done|exact Hk|done|by left]. }
  apply bind_Ok in H as (mo & Hmo & H). apply bind_Ok in H as (b & Hb & H).
  destruct (has_settlement b); [apply bind_Ok in H as (d1 & H1 & [= <-]); by apply Hcancel|].
  destruct (_ <? _); [injection H as <-; by apply (Hnext s1)|].
  destruct (price_is_null b.(bd_current_feed).(pf_settlement_price)) eqn:Enull; [apply bind_Ok in H as (d1 & H1 & [= <-]); by apply Hcancel|].
  apply bind_Ok in H as (s2 & H2 & H). destruct (set_max_ok _ _ _ _ _ Hs1 Hv0 Hmo Hb H2) as (Hs2 & E2 & A2 & F2 & M2 & K2).
  destruct (orb _ _) eqn:Eb; [injection H as <-; by apply (Hnext s2)|]. apply orb_false_iff in Eb as [Hvol%Z.leb_gt Hfin].
  apply bind_Ok in H as (s3 & H3 & H). apply bind_Ok in H as (s4 & H4 & [= <-]).
  assert (trade_price b.(bd_current_feed).(pf_settlement_price)) as Hp.
  { exact (feed_price _ _ _ _ (so_feeds _ (si_market _ _ Hs)) Hmo Hb Enull). }
  destruct (settlement_prices_ok _ _ _ _ _ Hs2 Hp H3) as (Hs3 & E3 & A3 & F3 & M3). rewrite E2 in E3. rewrite A2 in A3.
  destruct (settle_order_spec d0 s3 mo b k s4) as (Hs4 & A4 & M4 & O4 & Hdone); [done|done| | | | |done|].
  1-4: rewrite ?E3, ?A3, ?M3; done.
  split; [done|]. rewrite A3 in A4. rewrite E3 in O4. destruct (s4.(sg_db).(d_settlements).(objs) !! k) as [o4|] eqn:E4.
  2: { apply Hless. rewrite A4. by eapply ahead_lt; [exact O4|done|exact Hk|done|left]. }
  assert (blocked s = false) as Hbs.
  { apply (not_blocked s k o mo b s2); try done. by rewrite F2 in Hfin. }
  assert (size (ahead s4.(sg_db) s4.(sg_current_asset)) ≤ size (ahead s1.(sg_db) s1.(sg_current_asset)))%nat as Hle4 by (rewrite A4; by apply ahead_le).
  enough (blocked s4 = true) as Hb4 by (unfold iterations; rewrite Hbs, Hb4; lia). destruct Hdone as [Hfin4|[?|(b' & Hb' & Hmo' & Hmax)]]; [|done|].
  - unfold blocked. by rewrite Hfin4.
  - destruct (O4 _ _ E4) as (o0 & Ho0 & Eo). change (s.(sg_db).(d_settlements).(objs) !! k = Some o0) in Ho0. replace o0 with o in * by congruence.
    apply (is_blocked s4 k o4 b'); [done|rewrite A4; done| | |by rewrite M4].
    + rewrite M4, M3, A4. done.
    + rewrite A4, <-A3. by rewrite Hmo'.
Qed.

(** ** Termination *)
Lemma settle_order_ends d0 s mo b oid :
  settling_ok d0 s → get_asset s.(sg_db) s.(sg_current_asset) = Ok mo → bitasset_data s.(sg_db) mo = Ok b →
  b.(bd_force_settled_volume) < s.(sg_max_settlement_volume).(amount) → terminates (settle_order s mo b oid).
Proof.
  intros [M V C S L D K O I X Y F P] Hmo Hb Hlt. unfold settle_order.
  destruct mo.(ao_bitasset_data_id) as [i|] eqn:Ei; [|unfold bitasset_data in Hb; by rewrite Ei in Hb].
  pose proof (vo_volume _ V _ _ (bitasset_get _ _ _ _ Hb Ei)) as Hvol. cbn in Hvol.
  set (inv := rounds_ok s.(sg_current_asset) s.(sg_max_settlement_volume) s.(sg_db) b.(bd_force_settled_volume)).
  assert (inv (s.(sg_db), Asset b.(bd_force_settled_volume) s.(sg_current_asset))) as Hinit.
  { split; [done|]. split; [reflexivity|]. split; [done|]. cbn. lia. }
  apply terminates_bind.
  - apply (terminates_while _ inv); [|done]. intros x Hx. split; [by eapply settle_rounds_ends|].
    intros y Hy. by apply (settle_round_spec _ _ _ _ _ _ _ P Hvol X _ _ Hx) in Hy as [? _].
  - intros r Hr. apply (while_ends _ inv (λ x, s.(sg_max_settlement_volume).(amount) - x.2.(amount))) in Hr; [| |done|].
    + destruct r as [|[[d1 settled] fin]]; [done|]. cbn [loop_result]. rewrite Ok_bind. apply terminates_bind; [unfold bitasset_data; solve_terminates|].
      intros b1 _. apply terminates_bind; [|discriminate]. case_match; [discriminate|]. unfold modify_bitasset. solve_terminates.
    + intros x y Hx Hy. apply (settle_round_spec _ _ _ _ _ _ _ P Hvol X _ _ Hx) in Hy as [Hy Hd]. split; [done|]. destruct Hy as (_ & _ & _ & ?). lia.
    + cbn. change (2 ^ Z.of_nat settle_rounds) with (2 ^ 64). unfold int64_max in *. lia.
Qed.

Lemma settlement_step_ends d0 s : settling_ok d0 s → volumes_ok d0 → terminates (settlement_step s).
Proof.
  intros Hs Hv0. unfold settlement_step. destruct (first_settlement _ _) as [[k o]|] eqn:Ek; [|discriminate].
  apply first_of_range in Ek as Hk. cbn in Hk. destruct Hk as (Hk & Hle%Z.leb_le & Hmin). cbn.
  set (s1 := s <| sg_current_asset := settlement_asset_id o |>) in *.
  assert (settling_ok d0 s1) as Hs1 by exact (settling_moves _ _ _ s.(sg_current_asset_finished) Hs Hle).
  apply terminates_bind; [apply terminates_get_asset|]. intros mo Hmo. apply terminates_bind; [unfold bitasset_data; solve_terminates|]. intros b Hb.
  assert (∀ d1, terminates (Ok (inl (s1 <| sg_db := d1 |>)) : result (settling + database))) as Hok by discriminate.
  assert (terminates (cancel_settle_order s1.(sg_db) k)) as Hc by (unfold cancel_settle_order, get_settlement, remove_settlement; solve_terminates).
  destruct (has_settlement b); [apply terminates_bind; [exact Hc|intros; apply Hok]|]. destruct (_ <? _); [discriminate|].
  destruct (price_is_null _) eqn:Enull; [apply terminates_bind; [exact Hc|intros; apply Hok]|].
  apply terminates_bind.
  { unfold set_max, max_force_settlement_volume, get_dynamic_data. destruct (_ =? _); [discriminate|]. apply terminates_bind; [solve_terminates|].
    intros x _. apply terminates_bind; [|discriminate]. destruct (_ =? 0); [discriminate|]. destruct (_ =? _); [solve_terminates|].
    apply terminates_bind; [apply terminates_to_uint64|discriminate]. }
  intros s2 H2. destruct (set_max_ok _ _ _ _ _ Hs1 Hv0 Hmo Hb H2) as (Hs2 & E2 & A2 & F2 & M2 & K2).
  destruct (orb _ _) eqn:Eb; [discriminate|]. apply orb_false_iff in Eb as [Hvol%Z.leb_gt Hfin].
  assert (trade_price b.(bd_current_feed).(pf_settlement_price)) as Hp by exact (feed_price _ _ _ _ (so_feeds _ (si_market _ _ Hs)) Hmo Hb Enull).
  apply terminates_bind; [apply settlement_prices_ends; [apply (so_chain _ (si_market _ _ Hs2))|done]|].
  intros s3 H3. destruct (settlement_prices_ok _ _ _ _ _ Hs2 Hp H3) as (Hs3 & E3 & A3 & F3 & M3). rewrite E2 in E3. rewrite A2 in A3.
  apply terminates_bind; [|discriminate]. apply (settle_order_ends d0); rewrite ?E3, ?A3, ?M3; done.
Qed.

Lemma initial_settling d a : settlement_ok d → volumes_ok d → settling_ok d (Settling d a false (Asset 0 CORE) null_price null_price).
Proof.
  intros M V. split; cbn; try done; try by right.
  intros i b Hb. exists b. split; [done|]. split; [by destruct b|by left].
Qed.

Lemma clear_expired_settlements_spec d d' :
  settlement_ok d → volumes_ok d → clear_expired_settlements d = Ok d' → ∃ s, settling_ok d s ∧ s.(sg_db) = d'.
Proof.
  intros M V H. unfold clear_expired_settlements in H. destruct (head _) as [[k o]|].
  2: { injection H as <-. eexists. split; [by apply (initial_settling d 0)|done]. }
  apply bind_Ok in H as (r & Hr & H).
  apply (while_inv _ (settling_ok d) (λ x, ∃ s, settling_ok d s ∧ s.(sg_db) = x)) in Hr; [| |by apply initial_settling].
  - destruct r as [s|d1]; [done|]. injection H as <-. exact Hr.
  - intros s r1 Hs Hr1. pose proof (settlement_step_spec _ _ _ Hs V Hr1) as Hp. destruct r1; [by destruct Hp|done].
Qed.

Lemma clear_expired_settlements_ends d : settlement_ok d → volumes_ok d → terminates (clear_expired_settlements d).
Proof.
  intros M V. unfold clear_expired_settlements. destruct (head _) as [[k o]|]; [|discriminate].
  pose proof (initial_settling d (settlement_asset_id o) M V) as Hinit. apply terminates_bind.
  - apply (terminates_while _ (settling_ok d)); [|done]. intros s Hs. split; [by eapply settlement_step_ends|].
    intros s' H'. by apply (settlement_step_spec _ _ _ Hs V) in H' as [? _].
  - intros r Hr. apply (while_ends _ (settling_ok d) iterations) in Hr; [| |done|].
    + by destruct r.
    + intros s s' Hs H'. by apply (settlement_step_spec _ _ _ Hs V) in H'.
    + unfold iterations, ahead. cbn [sg_db sg_current_asset]. set (m := filter _ _).
      assert (size m ≤ size d.(d_settlements).(objs))%nat as Hm by (rewrite <-!size_dom; apply subseteq_size, dom_filter_subseteq).
      set (n := size d.(d_settlements).(objs)) in *. rewrite !Nat2Z.inj_succ, !Z.pow_succ_r by lia.
      pose proof (Z.pow_gt_lin_r 2 (Z.of_nat n) ltac:(lia) ltac:(lia)). destruct (blocked _); lia.
Qed.

Lemma supplies_cancel_limit cf d id b1 b2 d' : cancel_limit_order cf d id b1 b2 = Ok d' → supplies_down d d'.
Proof.
  unfold cancel_limit_order. intros H. apply bind_Ok in H as (o & _ & H). apply bind_Ok in H as ([[[d1 fee] paid] vop] & H1 & H).
  apply bind_Ok in H as (d2 & H2 & H). apply bind_Ok in H as (d3 & H3 & H). apply bind_Ok in H as (d4 & H4 & H).
  assert (supplies_down d d1) as S1.
  { destruct (_ && _); [|by injection H1 as <- _ _ _]. unfold deduct_cancel_fee in H1. destruct (0 <? _); [|by injection H1 as <- _ _ _].
    apply bind_Ok in H1 as (e1 & G1 & H1). apply statistics_dynamic_data in G1. apply bind_Ok in H1 as (f & _ & H1).
    destruct (_ =? 0); [injection H1 as <- _ _ _; by apply supplies_same|]. apply bind_Ok in H1 as (z & _ & H1). apply bind_Ok in H1 as (fa & _ & H1).
    apply bind_Ok in H1 as (e2 & G2 & H1). apply bind_Ok in H1 as (w & _ & [= <- _ _ _]). etransitivity; [by apply supplies_same|].
    eapply supplies_modify; [exact G2|]. intros y y' Hy. by apply bind_Ok in Hy as (s & _ & [= <-]). }
  assert (supplies_down d1 d2) as S2.
  { destruct (_ =? CORE); [|by injection H2 as <-]. unfold sub_core_in_orders in H2. apply supplies_same. by eapply statistics_dynamic_data. }
  apply supplies_adjust in H3. assert (supplies_down d3 d4) as S4.
  { destruct (_ =? 0); [by eapply supplies_adjust|]. apply bind_Ok in H4 as (e4 & G4 & H4). apply supplies_adjust in G4.
    apply bind_Ok in H4 as (fa & _ & H4). etransitivity; [exact G4|]. eapply supplies_modify; [exact H4|]. intros y y' Hy. by apply bind_Ok in Hy as (s & _ & [= <-]). }
  unfold remove_limit_order in H. apply bind_Ok in H as (i & _ & [= <-]).
  transitivity d2; [by etransitivity|]. transitivity d4; [by etransitivity|]. apply supplies_same. by destruct b1.
Qed.

Lemma supplies_cancel_expired cf d id d' : modern d → cancel_expired cf d id = Ok d' → supplies_down d d'.
Proof.
  unfold cancel_expired. intros Hm H. apply bind_Ok in H as (o & _ & H). apply bind_Ok in H as (d1 & H1 & H). apply supplies_cancel_limit in H1.
  rewrite (proj2 (Z.leb_gt _ _)) in H; [by injection H as <-|]. unfold modern, HARDFORK_CORE_342_TIME, HARDFORK_CORE_606_TIME in *. lia.
Qed.
Lemma supplies_clear_limits cf fuel d d' : settlement_ok d → clear_expired_limits cf fuel d = Ok d' → supplies_down d d' ∧ d'.(d_assets) = d.(d_assets).
Proof.
  revert d. induction fuel as [|fuel IH]; intros d Hd H; cbn [clear_expired_limits] in H; destruct (least _ _ _) as [[e id]|];
    try (by injection H as <-); (destruct (e <=? _); [|by injection H as <-]); [done|].
  apply bind_Ok in H as (d1 & H1 & H). pose proof (supplies_cancel_expired _ _ _ _ (co_modern _ (so_chain _ Hd)) H1) as S1.
  destruct (cancel_expired_spec _ _ _ _ Hd H1) as (_ & Hd1 & _). destruct (IH _ Hd1 H) as [S2 E2]. split; [by etransitivity|]. rewrite E2.
  unfold cancel_expired in H1. apply bind_Ok in H1 as (o & _ & H1). apply bind_Ok in H1 as (d2 & H2 & H1).
  rewrite (proj2 (Z.leb_gt _ _)) in H1; [|pose proof (co_modern _ (so_chain _ Hd)); unfold modern, HARDFORK_CORE_342_TIME, HARDFORK_CORE_606_TIME in *; lia].
  injection H1 as <-. destruct (cancel_limit_order_spec _ _ _ _ _ _ (co_assets _ (so_chain _ Hd)) H2) as (_ & [(E & _) _ _ _ _ _] & _). exact E.
Qed.
Lemma volumes_after cf fuel d d1 :
  settlement_ok d → volumes_ok d → clear_expired_limits cf fuel d = Ok d1 → volumes_ok d1.
Proof.
  intros Hd [V1 V2 V3] H. destruct (supplies_clear_limits _ _ _ _ Hd H) as [S E]. apply clear_expired_limits_spec in H as (_ & _ & _ & _ & _ & B); [|done].
  split; [|by rewrite B|by rewrite E, B]. intros j x Hx. destruct (S _ _ Hx) as (x0 & Hx0 & ?). specialize (V1 _ _ Hx0). cbn in V1 |- *. lia.
Qed.

(** ** Properties *)

(** The clearing of what expires in the market always ends: an expired order goes
    in every round, and an iteration over the settlement orders removes one, blocks
    its asset, or leaves the asset for good.  It creates and destroys no value, leaves
    no limit order that has expired and the market well formed, and no asset is
    settled beyond the volume its options allow for its supply. *)
Theorem clear_expired_orders_sound cf d (Hd : settlement_ok d) (Hv : volumes_ok d) :
  clear_expired_orders cf d ≠ Err out_of_fuel ∧
  ∀ d', clear_expired_orders cf d = Ok d' →
    conserves d d' ∧ settlement_ok d' ∧ clock d' = clock d ∧ none_expired d' ∧ volume_kept d d'.
Proof.
  split.
  { change (terminates (clear_expired_orders cf d)). unfold clear_expired_orders. apply terminates_bind; [by apply clear_expired_limits_ends|].
    intros d1 H1. pose proof (volumes_after _ _ _ _ Hd Hv H1). apply clear_expired_limits_spec in H1 as (_ & Hd1 & _); [|done].
    by apply clear_expired_settlements_ends. }
  intros d' H. unfold clear_expired_orders in H. apply bind_Ok in H as (d1 & H1 & H). pose proof (volumes_after _ _ _ _ Hd Hv H1) as Hv1.
  destruct (supplies_clear_limits _ _ _ _ Hd H1) as [S1 _]. apply clear_expired_limits_spec in H1 as (F1 & Hd1 & E1 & N1 & _ & B1); [|done].
  apply clear_expired_settlements_spec in H as (s & Hs & <-); [|done..]. destruct Hs as [M V C S L D K O I X Y F P].
  pose proof (clock_setting _ _ S) as E2. split; [by etransitivity|]. split; [done|]. split; [congruence|]. split.
  - unfold none_expired. rewrite L. injection E2 as E2 _. by rewrite E2.
  - intros i b' Hb'. destruct (K _ _ Hb') as (b & Hb & Eb & Hle). rewrite B1 in Hb. exists b. split; [done|]. split; [done|].
    destruct Hle as [?|(v & (x & z & Hx & Hz & Hmax) & Hle)]; [by left|right]. exists v. split; [|done].
    destruct (S1 _ _ Hx) as (x0 & Hx0 & ?). exists x0, z. split; [done|]. split; [lia|done].
Qed.

(** Two settlement orders of account 6 are due, for more than a fifth of the supply;
    the first offer of account 7 has expired. *)
Definition expired_db : database :=
  market_db
    <| d_settlements := Index (list_to_map
         [(0, ForceSettlement 6 (Asset 300 2) 1640000000); (1, ForceSettlement 6 (Asset 400 2) 1640000000);
          (2, ForceSettlement 6 (Asset 50 2) 1690000000)]) 3 |>
    <| d_limit_orders := Index (<[0 := LimitOrder 1600000000 7 120 (Price (Asset 120 0) (Asset 100 2)) 0 (Asset 0 0)]> market_db.(d_limit_orders).(objs)) 3 |>.
Lemma expired_db_ok : settlement_ok expired_db ∧ volumes_ok expired_db.
Proof.
  split.
  - destruct market_chain_ok as [A B C D E]. destruct market_db_ok as [_ _ _ F G]. split; [by split|exact F|exact G|].
    unfold settlements_ok. by apply (bool_decide_unpack _).
  - split; [by apply (bool_decide_unpack _)|by apply (bool_decide_unpack _)|].
    intros a o Ho i Hi b Hb. cbn in Ho, Hb. apply lookup_insert_Some in Ho as [[<- <-]|[_ Ho]].
    + cbn in Hi. injection Hi as <-. rewrite lookup_singleton_eq in Hb. by injection Hb as <-.
    + repeat (apply lookup_insert_Some in Ho as [[_ <-]|[_ Ho]]; [discriminate Hi|]). by rewrite lookup_empty in Ho.
Qed.

(** The first order is settled in full, the second for what is left of the volume,
    and the third is not due. *)
Lemma clear_expired_orders_sound_witness :
  ∃ d', clear_expired_orders 0 expired_db = Ok d' ∧ conserves expired_db d' ∧ settlement_ok d' ∧ none_expired d' ∧ volume_kept expired_db d' ∧
    (get_balance expired_db 6 0).(amount) = 1000000 ∧ (get_balance d' 6 0).(amount) = 1000500 ∧
    (fs_balance <$> d'.(d_settlements).(objs)) = {[ 1 := Asset 200 2; 2 := Asset 50 2 ]}.
Proof.
  destruct (clear_expired_orders 0 expired_db) as [d'|e] eqn:E; [|exfalso; vm_compute in E; discriminate E].
  destruct (proj2 (clear_expired_orders_sound 0 expired_db (proj1 expired_db_ok) (proj2 expired_db_ok)) d' E) as (F & M & _ & N & K).
  exists d'. do 5 (split; [assumption || reflexivity|]). vm_compute in E. injection E as <-. split; [|split]; vm_compute; reflexivity.
Defined.
