(* ===== verification/Feeds.v ===== *)
(** * Price feeds

    [asset_object.cpp] and [asset_object.hpp]: the median of the feeds that are alive;
    and [db_update.cpp]: the feeds that expire with every block, and the core exchange
    rates that follow them. *)
From stdpp Require Import sorting.
From S2P Require Import Prelude Safe Asset Objects Pricing Database Ledger Vesting Balance Evaluator Sample Cursor Market Fills Margin Settle Book Rounds Settlement Clearing.

(** [std::nth_element] of the standard library, which leaves open where equivalent
    elements go. *)
Class NthElement : Type := nth_element : (price_feed → price_feed → bool) → nat → list price_feed → list price_feed.
Definition strict_weak {A} (lt : A → A → bool) (P : A → Prop) : Prop :=
  (∀ x, P x → lt x x = false) ∧
  (∀ x y z, P x → P y → P z → lt x y = false → lt y z = false → lt x z = false) ∧
  (∀ x y, P x → P y → lt x y = true → lt y x = false).
(** The element at the position is the one a sort would put there; none before it is
    greater, none after it is less. *)
Class NthElementLaws `{NthElement} : Prop := nth_element_spec : ∀ lt n l,
  strict_weak lt (.∈ l) → (n < length l)%nat →
  nth_element lt n l ≡ₚ l ∧
  ∀ x, nth_element lt n l !! n = Some x →
    Forall (λ y, lt x y = false) (take n (nth_element lt n l)) ∧ Forall (λ y, lt y x = false) (drop n (nth_element lt n l)).

Definition GRAPHENE_DEFAULT_MAINTENANCE_COLLATERAL_RATIO : Z := 1750.
Definition GRAPHENE_DEFAULT_MAX_SHORT_SQUEEZE_RATIO : Z := 1500.
(** [price_feed()]. *)
Definition null_feed : price_feed :=
  PriceFeed null_price null_price GRAPHENE_DEFAULT_MAINTENANCE_COLLATERAL_RATIO GRAPHENE_DEFAULT_MAX_SHORT_SQUEEZE_RATIO.

#[export] Instance eta_price_feed : Eta price_feed := λ x,
  PriceFeed (pf_settlement_price x) (pf_core_exchange_rate x) (pf_maintenance_collateral_ratio x) (pf_maximum_short_squeeze_ratio x).

(** [operator ==] of feeds leaves the core exchange rate out. *)
Definition price_feed_eqb (a b : price_feed) : bool :=
  price_eqb a.(pf_settlement_price) b.(pf_settlement_price) &&
  (a.(pf_maintenance_collateral_ratio) =? b.(pf_maintenance_collateral_ratio)) &&
  (a.(pf_maximum_short_squeeze_ratio) =? b.(pf_maximum_short_squeeze_ratio)).

(** ** asset_bitasset_data_object *)
Definition need_to_update_cer (b : asset_bitasset_data_object) : bool :=
  (b.(bd_feed_cer_updated) || b.(bd_asset_cer_updated)) && negb (price_is_null b.(bd_current_feed).(pf_core_exchange_rate)).

Definition uint32_max : Z := 4294967295.
Definition feed_expiration_time (b : asset_bitasset_data_object) : Z :=
  let current_feed_seconds := b.(bd_current_feed_publication_time) in
  if uint32_max - current_feed_seconds <=? b.(bd_options).(bo_feed_lifetime_sec) then uint32_max
  else current_feed_seconds + b.(bd_options).(bo_feed_lifetime_sec).
Definition feed_is_expired_before_hardfork_615 (b : asset_bitasset_data_object) (current_time : Z) : bool :=
  current_time <=? feed_expiration_time b.
Definition feed_is_expired (b : asset_bitasset_data_object) (current_time : Z) : bool := feed_expiration_time b <=? current_time.

(** A published feed is alive, by its publication. *)
Definition feed_alive (lifetime current_time : Z) (f : Z * price_feed) : bool :=
  (current_time - f.1 <? lifetime) && negb (f.1 =? 0).

(** The map [feeds] in the order of its keys, the accounts. *)
Definition by_account (x y : Z * (Z * price_feed)) : Prop := x.1 ≤ y.1.
#[export] Instance by_account_dec x y : Decision (by_account x y).
Proof. unfold by_account. apply _. Defined.
Definition feeds_of (b : asset_bitasset_data_object) : list (Z * price_feed) :=
  (merge_sort by_account (map_to_list b.(bd_feeds))).*2.

Section median.
Context `{NthElement}.

(** [CALCULATE_MEDIAN_VALUE] for one field: the list is left as [nth_element] leaves it. *)
Definition calculate_median_value {A} (field : price_feed → A) (lt : A → A → bool) (n : nat) (dflt : A) (feeds : list price_feed) :
    list price_feed * A :=
  let feeds := nth_element (λ a b, lt (field a) (field b)) n feeds in
  (feeds, from_option field dflt (feeds !! n)).

(** All fields, in the order of [GRAPHENE_PRICE_FEED_FIELDS]. *)
Definition median_feed (feeds : list price_feed) : price_feed :=
  let n := (length feeds / 2)%nat in
  let '(feeds, sp) := calculate_median_value pf_settlement_price price_ltb n null_price feeds in
  let '(feeds, mcr) := calculate_median_value pf_maintenance_collateral_ratio Z.ltb n 0 feeds in
  let '(feeds, mssr) := calculate_median_value pf_maximum_short_squeeze_ratio Z.ltb n 0 feeds in
  let '(_, cer) := calculate_median_value pf_core_exchange_rate price_ltb n null_price feeds in
  PriceFeed sp cer mcr mssr.

Definition alive_feeds (b : asset_bitasset_data_object) (current_time : Z) : list (Z * price_feed) :=
  filter (λ f, feed_alive b.(bd_options).(bo_feed_lifetime_sec) current_time f = true) (feeds_of b).
Definition update_median_feeds (b : asset_bitasset_data_object) (current_time : Z) : asset_bitasset_data_object :=
  let alive := alive_feeds b current_time in
  let publication_time := foldl Z.min current_time alive.*1 in
  let current_feeds := alive.*2 in
  if Z.of_nat (length current_feeds) <? b.(bd_options).(bo_minimum_feeds) then
    b <| bd_feed_cer_updated := false |> <| bd_current_feed_publication_time := current_time |> <| bd_current_feed := null_feed |>
  else
    let new_feed := match current_feeds with [f] => f | _ => median_feed current_feeds end in
    b <| bd_current_feed_publication_time := publication_time |>
      <| bd_feed_cer_updated :=
           if negb (price_eqb b.(bd_current_feed).(pf_core_exchange_rate) new_feed.(pf_core_exchange_rate)) then true else b.(bd_feed_cer_updated) |>
      <| bd_current_feed := new_feed |>.

(** ** Core exchange rates *)
Definition modify_asset (d : database) (id : Z) (f : asset_object → result asset_object) : result database :=
  i ← index_modify d.(d_assets) id f; Ok (d <| d_assets := i |>).
Definition set_core_exchange_rate (d : database) (id : Z) (rate : price) : result database :=
  a ← get_asset d id;
  if price_eqb a.(ao_core_exchange_rate) rate then Ok d
  else modify_asset d id (λ ao, Ok (ao <| ao_core_exchange_rate := rate |>)).

Definition update_core_exchange_rate (d : database) (bid : Z) : result database :=
  b ← index_get d.(d_bitasset_data) bid;
  d1 ← set_core_exchange_rate d b.(bd_asset_id) b.(bd_current_feed).(pf_core_exchange_rate);
  i ← index_modify d1.(d_bitasset_data) bid (λ b, Ok (b <| bd_asset_cer_updated := false |> <| bd_feed_cer_updated := false |>));
  Ok (d1 <| d_bitasset_data := i |>).

(** The index [by_cer_update] from its end. *)
Definition update_core_exchange_rates (d : database) : result database :=
  drain (λ b, Z.b2z (need_to_update_cer b)) (λ d, d.(d_bitasset_data).(objs)) update_core_exchange_rate
    (size d.(d_bitasset_data).(objs)) 1 d.

(** ** Expired feeds *)
Section expired_feeds.
Context (cancel_fee : Z).

(** One bitasset of the loop; the core exchange rate of its asset is set here too. *)
Definition update_expired_feed (d : database) (bid : Z) : result database :=
  b ← index_get d.(d_bitasset_data) bid;
  if (HARDFORK_615_TIME <=? head_block_time d) || feed_is_expired_before_hardfork_615 b (head_block_time d) then
    let b1 := update_median_feeds b (head_block_time d) in
    let update_cer := need_to_update_cer b1 in
    let b1 := if update_cer then b1 <| bd_asset_cer_updated := false |> <| bd_feed_cer_updated := false |> else b1 in
    i ← index_modify d.(d_bitasset_data) bid (λ _, Ok b1);
    let d1 := d <| d_bitasset_data := i |> in
    d2 ← (if negb (price_is_null b1.(bd_current_feed).(pf_settlement_price)) && negb (price_feed_eqb b1.(bd_current_feed) b.(bd_current_feed))
          then '(d2, _) ← check_call_orders cancel_fee d1 b.(bd_asset_id) true false; Ok d2
          else Ok d1);
    if update_cer then
      b2 ← index_get d2.(d_bitasset_data) bid;
      set_core_exchange_rate d2 b2.(bd_asset_id) b2.(bd_current_feed).(pf_core_exchange_rate)
    else Ok d2
  else Ok d.

(** The index [by_feed_expiration]: time, then asset. *)
Definition feed_key (b : asset_bitasset_data_object) : Z * Z := (feed_expiration_time b, b.(bd_asset_id)).
Definition feed_ltb (x y : Z * asset_bitasset_data_object) : bool := pair_ltb (feed_key x.2) (feed_key y.2).
Definition next_feed (d : database) (b : option asset_bitasset_data_object) : option Z :=
  fst <$> head (range feed_ltb (λ x, match b with Some b => pair_ltb (feed_key b) (feed_key x.2) | None => true end) d.(d_bitasset_data)).

(** The iterator moves on before the bitasset under it changes. *)
Fixpoint expire_feeds (fuel : nat) (d : database) (itr : option Z) : result database :=
  match itr with
  | None => Ok d
  | Some bid =>
      b ← index_get d.(d_bitasset_data) bid;
      if feed_is_expired b (head_block_time d) then
        match fuel with
        | O => Err out_of_fuel
        | S fuel => d1 ← update_expired_feed d bid; expire_feeds fuel d1 (next_feed d (Some b))
        end
      else Ok d
  end.

(** The record of the assets of issue 453, which counts before the hard fork, is an
    argument. *)
Definition update_expired_feeds (issue_453_affected_assets : list Z) (d : database) : result database :=
  d1 ← expire_feeds (2 * size d.(d_bitasset_data).(objs)) d (next_feed d None);
  if HARDFORK_615_TIME <=? head_block_time d then Ok d1
  else foldM (λ d a, '(d1, _) ← check_call_orders cancel_fee d a true false; Ok d1) d1 issue_453_affected_assets.
End expired_feeds.
End median.

(** ** The median is one *)

(** A published value that at most half of the others are below and less than half
    are above. *)
Definition is_median {A} (lt : A → A → bool) (l : list A) (v : A) : Prop :=
  v ∈ l ∧ (2 * length (filter (λ y, lt y v = true) l) ≤ length l)%nat ∧ (2 * length (filter (λ y, lt v y = true) l) < length l)%nat.

Lemma filter_none {A} (P : A → Prop) `{∀ x, Decision (P x)} l : Forall (λ x, ¬ P x) l → filter P l = [].
Proof. induction 1 as [|x l Hx _ IH]; [done|]. by rewrite filter_cons_False. Qed.

Lemma is_median_perm {A} (lt : A → A → bool) l l' v : l ≡ₚ l' → is_median lt l v → is_median lt l' v.
Proof. unfold is_median. intros E. by rewrite E. Qed.

(** The element in the middle of a list that is split by it. *)
Lemma middle_is_median {A} (lt : A → A → bool) l v :
  (∀ x, x ∈ l → lt x x = false) → l !! (length l / 2)%nat = Some v →
  Forall (λ y, lt v y = false) (take (length l / 2) l) → Forall (λ y, lt y v = false) (drop (length l / 2) l) → is_median lt l v.
Proof.
  intros Hirr Hv Hlo Hhi. set (n := (length l / 2)%nat) in *. pose proof (lookup_lt_Some _ _ _ Hv) as Hn.
  pose proof (Nat.div_mod (length l) 2 ltac:(lia)) as E. pose proof (Nat.mod_upper_bound (length l) 2 ltac:(lia)). fold n in E.
  split; [by eapply list_elem_of_lookup_2|]. split.
  - rewrite <-(take_drop n l) at 1. rewrite filter_app, (filter_none _ (drop n l)), app_nil_r.
    + pose proof (length_filter (λ y, lt y v = true) (take n l)). rewrite length_take in *. lia.
    + eapply Forall_impl; [exact Hhi|]. intros x ->. discriminate.
  - rewrite <-(take_drop n l) at 1. rewrite filter_app, (filter_none _ (take n l)).
    2: { eapply Forall_impl; [exact Hlo|]. intros x ->. discriminate. }
    cbn [app]. rewrite (drop_S _ _ _ Hv), filter_cons_False by (rewrite Hirr; [discriminate|by eapply list_elem_of_lookup_2]).
    pose proof (length_filter (λ y, lt v y = true) (drop (S n) l)). rewrite length_drop in *. lia.
Qed.

Lemma strict_weak_field {A} (field : price_feed → A) lt P (Q : price_feed → Prop) :
  strict_weak lt P → (∀ f, Q f → P (field f)) → strict_weak (λ a b, lt (field a) (field b)) Q.
Proof. intros (S1 & S2 & S3) HQ. split; [|split]; intros; [apply S1|eapply S2|eapply S3]; eauto. Qed.

Lemma price_strict_weak : strict_weak price_ltb price_or_null.
Proof.
  assert (∀ x y, price_or_null x → price_or_null y →
    (price_ltb x y = true ↔ x.(base).(asset_id) < y.(base).(asset_id) ∨ x.(base).(asset_id) = y.(base).(asset_id) ∧
      (x.(quote).(asset_id) < y.(quote).(asset_id) ∨ x.(quote).(asset_id) = y.(quote).(asset_id) ∧
        x.(base).(amount) * y.(quote).(amount) < y.(base).(amount) * x.(quote).(amount)))) as Hlt.
  { assert (∀ x y, price_or_null x → price_or_null y → mul128 y.(quote).(amount) x.(base).(amount) = y.(quote).(amount) * x.(base).(amount)) as Hm.
    { intros x y Hx Hy. apply mul128_small; [destruct Hy as [[[] _]| ->]|destruct Hx as [[[] _]| ->]]; cbn; unfold int64_max in *; lia. }
    intros x y Hx Hy. unfold price_ltb. rewrite (Hm x y), (Hm y x) by done. repeat case_match; propify; split; intros; try lia; try done. }
  assert (∀ x, price_or_null x → x = null_price ∨ (0 < x.(base).(amount) ∧ 0 < x.(quote).(amount) ∧ x.(base).(asset_id) ≠ x.(quote).(asset_id))) as Hw.
  { intros x [[[H1 H2] H3]| ->]; [right; split; [lia|split; [lia|done]]|by left]. }
  split; [|split].
  - intros x Hx. apply not_true_iff_false. rewrite Hlt by done. lia.
  - intros x y z Hx Hy Hz H1 H2. apply not_true_iff_false in H1, H2. apply not_true_iff_false. rewrite Hlt in * by done.
    destruct (Hw _ Hx) as [->|(X1 & X2 & X3)], (Hw _ Hy) as [->|(Y1 & Y2 & Y3)], (Hw _ Hz) as [->|(Z1 & Z2 & Z3)]; cbn in *; try lia.
    intros H3. apply H1. clear H1.
    destruct H3 as [?|[? [?|[E3 H3]]]]; [lia|lia|].
    destruct (Z.lt_total (base x).(asset_id) (base y).(asset_id)) as [?|[?|?]]; [lia| |exfalso; apply H2; lia].
    right. split; [done|]. destruct (Z.lt_total (quote x).(asset_id) (quote y).(asset_id)) as [?|[?|?]]; [lia| |exfalso; apply H2; lia].
    right. split; [done|]. assert (¬ y.(base).(amount) * z.(quote).(amount) < z.(base).(amount) * y.(quote).(amount)) by (intros ?; apply H2; lia). clear H2.
    destruct x as [[xb ?] [xq ?]], y as [[yb ?] [yq ?]], z as [[zb ?] [zq ?]]. cbn in *.
    assert (xb * zq * yq < zb * xq * yq) by nia. assert (zb * yq * xq ≤ yb * zq * xq) by nia. nia.
  - intros x y Hx Hy H1. apply not_true_iff_false. rewrite Hlt in * by done. lia.
Qed.

Section median_specs.
Context `{NthElement, !NthElementLaws}.

Lemma calculate_median_spec {A} (field : price_feed → A) lt (dflt : A) l :
  strict_weak (λ a b, lt (field a) (field b)) (.∈ l) → (0 < length l)%nat →
  let r := calculate_median_value field lt (length l / 2)%nat dflt l in
  r.1 ≡ₚ l ∧ is_median lt (field <$> l) r.2.
Proof using All.
  intros Hsw Hl. cbn zeta. unfold calculate_median_value. set (n := (length l / 2)%nat). cbn [fst snd].
  assert (n < length l)%nat as Hn by (apply Nat.div_lt; lia). destruct (nth_element_spec _ _ _ Hsw Hn) as [Hp Hs].
  set (l' := nth_element _ _ _) in *. split; [done|]. pose proof (Permutation_length Hp) as Hlen.
  destruct (lookup_lt_is_Some_2 l' n ltac:(lia)) as [x Hx]. destruct (Hs x Hx) as [Hlo Hhi]. rewrite Hx. cbn [from_option].
  apply (is_median_perm _ (field <$> l')); [by rewrite Hp|].
  apply middle_is_median; rewrite ?length_fmap, ?Hlen; fold n.
  - intros y Hy. apply list_elem_of_fmap in Hy as (f & -> & Hf). rewrite Hp in Hf. by apply (proj1 Hsw).
  - by rewrite list_lookup_fmap, Hx.
  - rewrite <-fmap_take. by apply Forall_fmap.
  - rewrite <-fmap_drop. by apply Forall_fmap.
Qed.

(** The prices of a feed can be compared with those of another. *)
Definition feed_prices_ok (f : price_feed) : Prop := price_or_null f.(pf_settlement_price) ∧ price_or_null f.(pf_core_exchange_rate).

(** Every field of the feed is the median of that field. *)
Definition feed_median (l : list price_feed) (f : price_feed) : Prop :=
  is_median price_ltb (pf_settlement_price <$> l) f.(pf_settlement_price) ∧
  is_median Z.ltb (pf_maintenance_collateral_ratio <$> l) f.(pf_maintenance_collateral_ratio) ∧
  is_median Z.ltb (pf_maximum_short_squeeze_ratio <$> l) f.(pf_maximum_short_squeeze_ratio) ∧
  is_median price_ltb (pf_core_exchange_rate <$> l) f.(pf_core_exchange_rate).

Lemma Z_strict_weak P : strict_weak Z.ltb P.
Proof using Type. split; [|split]; intros; propify; lia. Qed.

Lemma median_feed_spec l : (0 < length l)%nat → Forall feed_prices_ok l → feed_median l (median_feed l).
Proof using All.
  intros Hl Hok. unfold median_feed.
  assert (Hpr : ∀ (field : price_feed → price) (l' : list price_feed), l' ≡ₚ l → (∀ f, feed_prices_ok f → price_or_null (field f)) →
    strict_weak (λ a b, price_ltb (field a) (field b)) (.∈ l')).
  { intros field l' Hp Hf. eapply strict_weak_field; [exact price_strict_weak|]. intros f Hin. apply Hf. rewrite Hp in Hin. by eapply Forall_forall in Hin. }
  pose proof (calculate_median_spec pf_settlement_price price_ltb null_price l (Hpr _ l (reflexivity _) (λ f, @proj1 _ _)) Hl) as [P1 M1].
  destruct (calculate_median_value pf_settlement_price _ _ _ _) as [l1 sp] eqn:E1. cbn [fst snd] in *.
  pose proof (Permutation_length P1) as L1. rewrite <-L1 in *.
  pose proof (calculate_median_spec pf_maintenance_collateral_ratio Z.ltb 0 l1 (strict_weak_field _ _ _ _ (Z_strict_weak (λ _, True)) (λ _ _, I)) Hl) as [P2 M2].
  destruct (calculate_median_value pf_maintenance_collateral_ratio _ _ _ _) as [l2 mcr]. cbn [fst snd] in *.
  pose proof (Permutation_length P2) as L2. rewrite <-L2 in *.
  pose proof (calculate_median_spec pf_maximum_short_squeeze_ratio Z.ltb 0 l2 (strict_weak_field _ _ _ _ (Z_strict_weak (λ _, True)) (λ _ _, I)) Hl) as [P3 M3].
  destruct (calculate_median_value pf_maximum_short_squeeze_ratio _ _ _ _) as [l3 mssr]. cbn [fst snd] in *.
  pose proof (Permutation_length P3) as L3. rewrite <-L3 in *.
  assert (l3 ≡ₚ l) as P3' by (etrans; [exact P3|]; by etrans).
  pose proof (calculate_median_spec pf_core_exchange_rate price_ltb null_price l3 (Hpr _ l3 P3' (λ f, @proj2 _ _)) Hl) as [_ M4].
  destruct (calculate_median_value pf_core_exchange_rate _ _ _ _) as [l4 cer]. cbn [fst snd] in *.
  split; [exact M1|]. split; [|split]; cbn.
  - eapply is_median_perm; [|exact M2]. by rewrite P1.
  - eapply is_median_perm; [|exact M3]. by rewrite P2, P1.
  - eapply is_median_perm; [|exact M4]. by rewrite P3'.
Qed.

Lemma single_median {A} (lt : A → A → bool) v : lt v v = false → is_median lt [v] v.
Proof using Type.
  intros Hv. split; [apply list_elem_of_here|]. rewrite !filter_cons_False, filter_nil by (rewrite Hv; discriminate). cbn. lia.
Qed.

Lemma update_median_feed_spec b t :
  Forall feed_prices_ok (alive_feeds b t).*2 → 0 < b.(bd_options).(bo_minimum_feeds) ≤ Z.of_nat (length (alive_feeds b t)) →
  feed_median (alive_feeds b t).*2 (update_median_feeds b t).(bd_current_feed).
Proof using All.
  intros Hok Hn. unfold update_median_feeds. rewrite length_fmap, (proj2 (Z.ltb_ge _ _)) by lia. cbn [bd_current_feed].
  assert (0 < length (alive_feeds b t).*2)%nat as Hl by (rewrite length_fmap; lia). set (l := (alive_feeds b t).*2) in *.
  destruct l as [|f [|g fs]] eqn:E; [cbn in Hl; lia| |].
  - apply Forall_cons in Hok as [[H1 H2] _]. destruct price_strict_weak as [Hirr _]. cbn.
    split; [|split; [|split]]; apply single_median; cbn; [by apply Hirr|apply Z.ltb_irrefl|apply Z.ltb_irrefl|by apply Hirr].
  - by apply median_feed_spec.
Qed.
End median_specs.

(** ** The median is good until its oldest feed expires *)
Lemma foldl_min t l : foldl Z.min t l ≤ t ∧ Forall (λ x, foldl Z.min t l ≤ x) l.
Proof.
  revert t. induction l as [|x l IH]; intros t; cbn; [split; [lia|done]|]. destruct (IH (Z.min t x)) as [H1 H2].
  split; [lia|]. constructor; [lia|done].
Qed.
Lemma foldl_min_in t l : foldl Z.min t l = t ∨ foldl Z.min t l ∈ l.
Proof.
  revert t. induction l as [|x l IH]; intros t; cbn; [by left|]. destruct (IH (Z.min t x)) as [E|?]; [|right; set_solver].
  rewrite E. destruct (Z.min_spec t x) as [[_ ->]|[_ ->]]; [by left|right; set_solver].
Qed.

Lemma filter_same {A} (P Q : A → Prop) `{∀ x, Decision (P x), ∀ x, Decision (Q x)} (l : list A) :
  (∀ x, x ∈ l → P x ↔ Q x) → filter P l = filter Q l.
Proof.
  intros Hf. induction l as [|x l IH]; [done|]. assert (filter P l = filter Q l) as E by (apply IH; intros y Hy; apply Hf; by right).
  destruct (decide (P x)) as [HP|HP].
  - assert (Q x) by (by apply Hf; [left|]). by rewrite !filter_cons_True, E.
  - assert (¬ Q x) by (intros HQ; apply HP, Hf; [by left|done]). by rewrite !filter_cons_False, E.
Qed.
Lemma filter_fewer {A} (P Q : A → Prop) `{∀ x, Decision (P x), ∀ x, Decision (Q x)} (l : list A) :
  (∀ x, P x → Q x) → (length (filter P l) ≤ length (filter Q l))%nat.
Proof.
  intros Hf. induction l as [|x l IH]; [done|]. destruct (decide (P x)) as [HP|HP].
  - rewrite !filter_cons_True by auto. cbn. lia.
  - rewrite (filter_cons_False P) by done. rewrite filter_cons. destruct (decide (Q x)); cbn; lia.
Qed.

Section fresh.
Context `{NthElement}.
Implicit Types (b : asset_bitasset_data_object).

(** What the median does not change. *)
Lemma update_median_frame b t :
  let b' := update_median_feeds b t in
  b'.(bd_asset_id) = b.(bd_asset_id) ∧ b'.(bd_options) = b.(bd_options) ∧ b'.(bd_feeds) = b.(bd_feeds) ∧
  b'.(bd_settlement_price) = b.(bd_settlement_price) ∧ b'.(bd_settlement_fund) = b.(bd_settlement_fund) ∧
  b'.(bd_is_prediction_market) = b.(bd_is_prediction_market) ∧ b'.(bd_force_settled_volume) = b.(bd_force_settled_volume).
Proof using Type. cbn. unfold update_median_feeds. by destruct (_ <? _). Qed.

Lemma elem_of_alive b t f : f ∈ alive_feeds b t ↔ feed_alive b.(bd_options).(bo_feed_lifetime_sec) t f = true ∧ f ∈ feeds_of b.
Proof using Type. unfold alive_feeds. by rewrite list_elem_of_filter. Qed.

Lemma publication_alive b t :
  0 < b.(bd_options).(bo_feed_lifetime_sec) →
  t < (update_median_feeds b t).(bd_current_feed_publication_time) + b.(bd_options).(bo_feed_lifetime_sec).
Proof using Type.
  intros Hl. unfold update_median_feeds. destruct (_ <? _); cbn; [lia|].
  destruct (foldl_min_in t (alive_feeds b t).*1) as [->|Hin]; [lia|]. apply list_elem_of_fmap in Hin as (f & -> & Hf).
  apply elem_of_alive in Hf as [Hf _]. unfold feed_alive in Hf. propify. lia.
Qed.

(** A feed that has just been updated has not expired. *)
Lemma updated_feed_fresh b t :
  0 < b.(bd_options).(bo_feed_lifetime_sec) → t < uint32_max → feed_is_expired (update_median_feeds b t) t = false.
Proof using Type.
  intros Hl Ht. unfold feed_is_expired, feed_expiration_time. rewrite (proj1 (proj2 (update_median_frame b t))).
  pose proof (publication_alive b t Hl). destruct (uint32_max - _ <=? _); apply Z.leb_gt; lia.
Qed.

(** Until then the same feeds are alive, or still too few. *)
Lemma alive_until b t t' :
  let b' := update_median_feeds b t in t ≤ t' → t' < feed_expiration_time b' →
  b.(bd_options).(bo_minimum_feeds) ≤ Z.of_nat (length (alive_feeds b t)) → alive_feeds b' t' = alive_feeds b t.
Proof using Type.
  cbn zeta. intros Ht Hexp Hn. destruct (update_median_frame b t) as (_ & Eo & Ef & _). unfold feed_expiration_time in Hexp. rewrite Eo in Hexp.
  assert (t' < (update_median_feeds b t).(bd_current_feed_publication_time) + b.(bd_options).(bo_feed_lifetime_sec)) as Hp.
  { destruct (Z.leb_spec (uint32_max - (update_median_feeds b t).(bd_current_feed_publication_time)) b.(bd_options).(bo_feed_lifetime_sec)); lia. }
  clear Hexp. unfold update_median_feeds in Hp. rewrite length_fmap, (proj2 (Z.ltb_ge _ _)) in Hp by lia. cbn in Hp.
  pose proof (proj2 (foldl_min t (alive_feeds b t).*1)) as Hmin. unfold alive_feeds at 1, feeds_of. rewrite Eo, Ef. fold (feeds_of b).
  unfold alive_feeds in *. apply filter_same. intros f Hf. unfold feed_alive. split; intros Hb; propify; destruct Hb as [Hb Hz]; (split; [|done]); [lia|].
  assert (f ∈ filter (λ f, feed_alive b.(bd_options).(bo_feed_lifetime_sec) t f = true) (feeds_of b)) as Hin.
  { apply list_elem_of_filter. split; [unfold feed_alive; propify; by split|done]. }
  rewrite Forall_forall in Hmin. specialize (Hmin f.1 (list_elem_of_fmap_2 fst _ _ Hin)). lia.
Qed.

(** Computing the median again before it expires changes nothing. *)
Lemma median_stable b t t' :
  let b' := update_median_feeds b t in t ≤ t' → t' < feed_expiration_time b' →
  (update_median_feeds b' t').(bd_current_feed) = b'.(bd_current_feed).
Proof using Type.
  cbn zeta. intros Ht Hexp. destruct (Z.leb_spec b.(bd_options).(bo_minimum_feeds) (Z.of_nat (length (alive_feeds b t)))) as [Hn|Hn].
  - pose proof (alive_until _ _ _ Ht Hexp Hn) as Ha. unfold update_median_feeds at 1. rewrite Ha. rewrite (proj1 (proj2 (update_median_frame b t))).
    unfold update_median_feeds. by destruct (_ <? _).
  - assert (length (alive_feeds (update_median_feeds b t) t') ≤ length (alive_feeds b t))%nat as Hle.
    { destruct (update_median_frame b t) as (_ & Eo & Ef & _). unfold alive_feeds, feeds_of. rewrite Eo, Ef. apply filter_fewer.
      intros f. unfold feed_alive. intros Hb. propify. lia. }
    unfold update_median_feeds at 1. rewrite (proj1 (proj2 (update_median_frame b t))), length_fmap, (proj2 (Z.ltb_lt _ _)) by lia.
    unfold update_median_feeds. rewrite length_fmap, (proj2 (Z.ltb_lt _ _)) by lia. done.
Qed.
End fresh.

(** ** Margin calls do not touch the feeds *)
Definition bare (b : asset_bitasset_data_object) : asset_bitasset_data_object :=
  b <| bd_settlement_price := null_price |> <| bd_settlement_fund := 0 |>.
Definition bares (d : database) : gmap Z asset_bitasset_data_object := bare <$> d.(d_bitasset_data).(objs).

Lemma modify_bitasset_bare d o f d' :
  modify_bitasset d o f = Ok d' → (∀ b b', f b = Ok b' → bare b' = bare b) → bares d' = bares d.
Proof.
  unfold modify_bitasset. intros H Hf. apply bind_Ok in H as (i & _ & H). apply bind_Ok in H as (j & Hj & [= <-]).
  apply index_modify_Ok in Hj as (v & v' & Hv & Hv' & ->). unfold bares. cbn. rewrite fmap_insert, (Hf _ _ Hv').
  apply insert_id. by rewrite lookup_fmap, Hv.
Qed.
Lemma globally_settle_bare d mia p d' : assets_ok d → globally_settle_asset d mia p = Ok d' → bares d' = bares d.
Proof.
  intros Ha H. unfold globally_settle_asset in H. apply bind_Ok in H as (o & Ho & H). apply bind_Ok in H as (b & Hb & H).
  apply bind_Ok in H as (u & _ & H). cbv zeta in H. apply bind_Ok in H as (ba & _ & H). apply bind_Ok in H as (x & _ & H).
  apply bind_Ok in H as (cs & Hcs & H). apply bind_Ok in H as ([d1 g] & H1 & H). apply bind_Ok in H as (d2 & H2 & H3).
  destruct (calls_of_market _ _ _ _ Hcs) as [Hnd Hin].
  destruct (settle_positions_spec mia b.(bd_options).(bo_short_backing_asset) _ p _ d (Asset 0 b.(bd_options).(bo_short_backing_asset)) d1 g Ha eq_refl Hnd Hin H1) as (C & _).
  apply modify_dynamic_data_frame in H3. assert (d'.(d_bitasset_data) = d2.(d_bitasset_data)) as E by by rewrite H3. unfold bares at 1. rewrite E.
  change (bares d2 = bares d). transitivity (bares d1); [|unfold bares; by rewrite (co_bitasset _ _ C)].
  eapply modify_bitasset_bare; [exact H2|]. intros y y' Hy. by apply bind_Ok in Hy as (q & _ & [= <-]).
Qed.
Lemma blackswan_bare d mia e d' b : assets_ok d → check_for_blackswan d mia e = Ok (d', b) → bares d' = bares d.
Proof.
  intros Ha H. unfold check_for_blackswan in H. cbv zeta in H. apply bind_Ok in H as (o & _ & H). destruct (negb _); [by injection H as <- <-|].
  apply bind_Ok in H as (bd & _ & H). destruct (has_settlement bd); [by injection H as <- <-|]. destruct (price_is_null _); [by injection H as <- <-|].
  apply bind_Ok in H as (cs & _ & H). destruct cs as [|[k c] cs]; [by injection H as <- <-|].
  do 5 apply bind_Ok in H as (? & _ & H). destruct (price_ltb _ _); [by injection H as <- <-|].
  apply bind_Ok in H as (? & _ & H). apply bind_Ok in H as (d1 & H1 & [= <- <-]). by eapply globally_settle_bare.
Qed.
Lemma margin_round_bare cf mia e n bd s r :
  assets_ok s.(ms_db) → funds_ok s.(ms_db) → margin_round cf mia e n bd s = Ok r →
  match r with inl s' => bares s'.(ms_db) = bares s.(ms_db) | inr x => bares x.1 = bares s.(ms_db) end.
Proof.
  intros Ha Hf H. unfold margin_round in H. apply bind_Ok in H as ([d swan] & H1 & H). pose proof (blackswan_bare _ _ _ _ _ Ha H1) as E1.
  destruct (check_for_blackswan_spec _ _ _ _ _ Ha Hf H1) as (_ & _ & _ & Hd). destruct swan; [by injection H as <-|]. rewrite (Hd eq_refl) in *.
  destruct s.(ms_calls) as [|k ck]; [by injection H as <-|]. destruct s.(ms_limits) as [|j cj]; [by injection H as <-|].
  apply bind_Ok in H as (c & _ & H). apply bind_Ok in H as (o & _ & H). cbv zeta in H.
  destruct (_ && _); [by injection H as <-|]. destruct (_ && _); [by injection H as <-|].
  apply bind_Ok in H as (pays & _ & H). apply bind_Ok in H as (uw & _ & H). destruct uw.
  - apply bind_Ok in H as (? & _ & H). apply bind_Ok in H as (d1 & Hg & [= <-]). by eapply globally_settle_bare.
  - apply fmap_Ok in H as (s' & H & ->). destruct (margin_trade_spec _ _ _ _ _ _ _ _ _ _ _ _ Ha H) as (_ & _ & E). unfold bares. by rewrite E.
Qed.
Lemma check_call_orders_bare cf d mia e n d' b :
  assets_ok d → funds_ok d → check_call_orders cf d mia e n = Ok (d', b) → bares d' = bares d.
Proof.
  intros Ha Hf H. unfold check_call_orders in H. cbv zeta in H. apply bind_Ok in H as (? & _ & H). apply bind_Ok in H as (o & _ & H).
  destruct (negb _); [by injection H as <- <-|]. apply bind_Ok in H as (bd & _ & H). apply bind_Ok in H as ([d1 swan] & H1 & H).
  pose proof (blackswan_bare _ _ _ _ _ Ha H1) as E1. destruct (check_for_blackswan_spec _ _ _ _ _ Ha Hf H1) as (_ & _ & _ & Hd).
  destruct swan; [by injection H as <- <-|]. rewrite (Hd eq_refl) in *. destruct (bd_is_prediction_market bd); [by injection H as <- <-|].
  destruct (price_is_null _); [by injection H as <- <-|]. apply bind_Ok in H as (hi & _ & H). apply bind_Ok in H as (lo & _ & H).
  destruct (negb _); [by injection H as <- <-|]. apply bind_Ok in H as (cs & _ & H). apply bind_Ok in H as (r & Hr & H).
  apply (while_inv _ (λ s, assets_ok s.(ms_db) ∧ funds_ok s.(ms_db) ∧ bares s.(ms_db) = bares d ∧ margin_inv d s.(ms_db)) (λ x, bares x.1 = bares d)) in Hr.
  - destruct r as [s|[d2 b2]]; [done|]. by injection H as <- <-.
  - intros s r1 (A & B & C & D) Hr1. pose proof (margin_round_bare _ _ _ _ _ _ _ A B Hr1) as E. pose proof (margin_round_spec _ _ _ _ _ _ _ _ A B D Hr1) as Hs.
    destruct r1 as [s'|[d2 b2]]; [|congruence]. destruct Hs as (? & ? & ?). split; [done|]. split; [done|]. split; [congruence|done].
  - cbn. split; [done|]. split; [done|]. split; [done|]. split; [apply flow_refl|reflexivity].
Qed.

(** ** What an update of a feed does to the chain *)
Lemma bitasset_change d i b b' :
  d.(d_bitasset_data).(objs) !! i = Some b → b'.(bd_asset_id) = b.(bd_asset_id) → b'.(bd_options) = b.(bd_options) →
  b'.(bd_settlement_price) = b.(bd_settlement_price) → b'.(bd_settlement_fund) = b.(bd_settlement_fund) →
  let d' := d <| d_bitasset_data := Index (<[i := b']> d.(d_bitasset_data).(objs)) d.(d_bitasset_data).(next_id) |> in
  conserves d d' ∧ (chain_ok d → chain_ok d').
Proof.
  intros Hb Ei Eo Ep Ef. cbn zeta. assert (fund_held b' = fund_held b) as Eh by (unfold fund_held; by rewrite Eo, Ef). split.
  - apply flow_bitasset_data. intros a. rewrite (isum_modify _ _ _ _ b' Hb), Eh. lia.
  - intros [A B C D E L]. split; try done.
    + intros j x Hx. cbn in Hx. apply lookup_insert_Some in Hx as [[_ <-]|[_ Hx]]; [|by apply (C j)].
      unfold has_settlement. rewrite Ep, Ef. apply (C _ _ Hb).
    + intros k c Hc. rewrite <-(D k c Hc). unfold backing_of. cbn. destruct (_ !! debt_type c) as [o|]; [cbn|done].
      destruct (ao_bitasset_data_id o) as [j|]; [cbn|done]. destruct (decide (j = i)) as [->|]; [|by rewrite lookup_insert_ne].
      rewrite lookup_insert_eq, Hb. cbn. by rewrite Eo.
    + intros a o Ho. specialize (L a o Ho). cbn in L |- *. unfold link_ok, bitasset_of in *. cbn. destruct (ao_bitasset_data_id o) as [j|]; [cbn in *|done].
      destruct (decide (j = i)) as [->|]; [|by rewrite lookup_insert_ne]. rewrite lookup_insert_eq. rewrite Hb in L.
      unfold settled_price_ok, has_settlement in *. by rewrite Ep, Ei, Eo.
Qed.

Lemma set_cer_spec d a r d' :
  chain_ok d → set_core_exchange_rate d a r = Ok d' →
  conserves d d' ∧ chain_ok d' ∧ clock d' = clock d ∧ d'.(d_bitasset_data) = d.(d_bitasset_data) ∧
  (∀ k, k ≠ a → d'.(d_assets).(objs) !! k = d.(d_assets).(objs) !! k) ∧
  ∃ o o', d.(d_assets).(objs) !! a = Some o ∧ d'.(d_assets).(objs) !! a = Some o' ∧
    o' = o <| ao_core_exchange_rate := o'.(ao_core_exchange_rate) |> ∧ (o'.(ao_core_exchange_rate) = r ∨ o' = o ∧ price_eqb o.(ao_core_exchange_rate) r = true).
Proof.
  intros Hd H. unfold set_core_exchange_rate in H. apply bind_Ok in H as (o & Ho & H). apply index_get_Ok in Ho.
  destruct (price_eqb _ _) eqn:Er.
  - injection H as <-. split; [apply flow_refl|]. split; [done|]. split; [done|]. split; [done|]. split; [done|]. exists o, o.
    split; [done|]. split; [done|]. split; [by destruct o|by right].
  - unfold modify_asset in H. apply bind_Ok in H as (i & Hi & [= <-]). apply index_modify_Ok in Hi as (v & v' & Hv & [= <-] & ->).
    replace v with o in * by congruence. split; [|split; [|split; [done|split; [done|split]]]].
    + apply flow_table; [done..|]. intros k. rewrite !imbalance_eq. unfold held, supply. cbn. lia.
    + destruct Hd as [A B C D E L]. split; try done.
      * intros k x Hx. cbn in Hx. apply lookup_insert_Some in Hx as [[<- <-]|[_ Hx]]; [exact (A _ _ Ho)|by apply (A k)].
      * intros k c Hc. rewrite <-(D k c Hc). unfold backing_of. cbn. destruct (decide (debt_type c = a)) as [->|]; [|by rewrite lookup_insert_ne].
        by rewrite lookup_insert_eq, Ho.
      * intros k x Hx. cbn in Hx. apply lookup_insert_Some in Hx as [[<- <-]|[_ Hx]]; [exact (L _ _ Ho)|exact (L _ _ Hx)].
    + intros k Hk. cbn. by rewrite lookup_insert_ne.
    + exists o. eexists. split; [done|]. split; [cbn; apply lookup_insert_eq|]. split; [by destruct o|by left].
Qed.

Section expiry.
Context {nth : NthElement} (cf : Z).

(** What the loop leaves of a bitasset it visits. *)
Definition refreshed (t : Z) (b : asset_bitasset_data_object) : asset_bitasset_data_object :=
  let b1 := update_median_feeds b t in
  if need_to_update_cer b1 then b1 <| bd_asset_cer_updated := false |> <| bd_feed_cer_updated := false |> else b1.

Lemma refreshed_key t b : feed_key (refreshed t b) = feed_key (update_median_feeds b t).
Proof using Type. unfold refreshed. by destruct (need_to_update_cer _). Qed.
Lemma bare_key b : feed_key (bare b) = feed_key b.
Proof using Type. done. Qed.

Lemma update_expired_feed_spec d bid d' :
  chain_ok d → HARDFORK_615_TIME ≤ head_block_time d → update_expired_feed cf d bid = Ok d' →
  conserves d d' ∧ chain_ok d' ∧ clock d' = clock d ∧
  ∃ b, d.(d_bitasset_data).(objs) !! bid = Some b ∧ bares d' = <[bid := bare (refreshed (head_block_time d) b)]> (bares d).
Proof using Type.
  intros Hd Ht H. unfold update_expired_feed in H. apply bind_Ok in H as (b & Hb & H). apply index_get_Ok in Hb.
  rewrite (proj2 (Z.leb_le _ _) Ht) in H. cbn [orb] in H. cbv zeta in H. fold (refreshed (head_block_time d) b) in H.
  apply bind_Ok in H as (i & Hi & H). apply index_modify_Ok in Hi as (v & v' & Hv & [= <-] & ->). set (b1 := refreshed (head_block_time d) b) in *.
  set (d1 := d <| d_bitasset_data := _ |>) in *. apply bind_Ok in H as (d2 & H2 & H).
  assert (conserves d d1 ∧ chain_ok d1) as [F1 Hd1].
  { destruct (update_median_frame b (head_block_time d)) as (E0 & E1 & _ & E2 & E3 & _).
    destruct (bitasset_change d bid b b1 Hb) as [F C]; [| | | |split; [exact F|by apply C]]; subst b1; unfold refreshed; by destruct (need_to_update_cer _). }
  assert (bares d1 = <[bid := bare b1]> (bares d)) as E1 by (unfold bares; cbn; by rewrite fmap_insert).
  assert (conserves d1 d2 ∧ chain_ok d2 ∧ clock d2 = clock d ∧ bares d2 = bares d1) as (F2 & Hd2 & C2 & E2).
  { destruct (_ && _); [|injection H2 as <-; split; [apply flow_refl|done]].
    apply bind_Ok in H2 as ([d3 called] & H2 & [= <-]).
    destruct (check_call_orders_spec _ _ _ _ _ _ _ (co_assets _ Hd1) (co_funds _ Hd1) H2) as [F M].
    pose proof (check_call_orders_bare _ _ _ _ _ _ _ (co_assets _ Hd1) (co_funds _ Hd1) H2) as E.
    destruct (chain_clock_market d1 d d3 eq_refl M Hd1). done. }
  assert (conserves d2 d' ∧ chain_ok d' ∧ clock d' = clock d ∧ bares d' = bares d2) as (F3 & Hd3 & C3 & E3).
  { destruct (need_to_update_cer _); [|injection H as <-; split; [apply flow_refl|done]]. apply bind_Ok in H as (b2 & _ & H).
    destruct (set_cer_spec _ _ _ _ Hd2 H) as (F & C & E & B & _). split; [done|]. split; [done|]. split; [congruence|]. unfold bares. by rewrite B. }
  split; [by do 2 (etransitivity; [eassumption|])|]. split; [done|]. split; [done|]. exists b. split; [done|]. by rewrite E3, E2, E1.
Qed.

(** *** The loop *)
Definition bitassets_distinct (d : database) : Prop :=
  ∀ i j b c, d.(d_bitasset_data).(objs) !! i = Some b → d.(d_bitasset_data).(objs) !! j = Some c → b.(bd_asset_id) = c.(bd_asset_id) → i = j.
Definition fresh (t : Z) (b : asset_bitasset_data_object) : Prop := 0 < b.(bd_options).(bo_feed_lifetime_sec) → feed_is_expired b t = false.

#[local] Instance feed_trans : Transitive (not_after feed_ltb).
Proof using Type. intros x y z. unfold not_after, feed_ltb, pair_ltb. intros H1 H2. propify. lia. Qed.
#[local] Instance feed_total : Total (not_after feed_ltb).
Proof using Type. intros x y. unfold not_after, feed_ltb, pair_ltb. destruct (Z.lt_total (feed_key x.2).1 (feed_key y.2).1) as [?|[?|?]], (Z.le_ge_cases (feed_key x.2).2 (feed_key y.2).2); [left|left|left|right|right|right]; propify; lia. Qed.

(** What is at or after the iterator. *)
Definition from_itr (d : database) (itr : option Z) (b : asset_bitasset_data_object) : Prop :=
  ∃ j c, itr = Some j ∧ d.(d_bitasset_data).(objs) !! j = Some c ∧ pair_ltb (feed_key b) (feed_key c) = false.

Lemma next_feed_spec d b i x :
  d.(d_bitasset_data).(objs) !! i = Some x → match b with Some b => pair_ltb (feed_key b) (feed_key x) = true | None => True end →
  from_itr d (next_feed d b) x.
Proof using Type.
  intros Hx Hb. unfold next_feed. destruct (head _) as [[j c]|] eqn:E.
  - destruct (range_head _ _ _ _ E) as (Hc & _ & Hmin). exists j, c. split; [done|]. split; [done|].
    destruct (Hmin i x Hx) as [[= <- <-]|Hle]; [by destruct b| |exact Hle]. unfold pair_ltb. by rewrite !Z.ltb_irrefl, Z.eqb_refl.
  - apply (range_empty _ _ _ i x) in E; [|done]. destruct b; [cbn in E; congruence|done].
Qed.

Record feeds_inv (d0 d : database) (itr : option Z) : Prop := {
  fi_conserves : conserves d0 d;
  fi_chain : chain_ok d;
  fi_clock : clock d = clock d0;
  fi_distinct : bitassets_distinct d;
  fi_fresh : ∀ i b, d.(d_bitasset_data).(objs) !! i = Some b → fresh (head_block_time d0) b ∨ from_itr d itr b }.

(** Looking at a bitasset through its bare form. *)
Lemma bares_lookup d i x : bares d !! i = Some x → ∃ b, d.(d_bitasset_data).(objs) !! i = Some b ∧ x = bare b.
Proof using Type. unfold bares. rewrite lookup_fmap. intros H. destruct (_ !! i) as [b|]; [|done]. injection H as <-. by exists b. Qed.
Lemma bares_Some d i b : d.(d_bitasset_data).(objs) !! i = Some b → bares d !! i = Some (bare b).
Proof using Type. intros H. unfold bares. by rewrite lookup_fmap, H. Qed.
Lemma visited d d' bid b i b' :
  bares d' = <[bid := bare (refreshed (head_block_time d) b)]> (bares d) → d'.(d_bitasset_data).(objs) !! i = Some b' →
  (i = bid ∧ bare b' = bare (refreshed (head_block_time d) b)) ∨ (i ≠ bid ∧ ∃ b0, d.(d_bitasset_data).(objs) !! i = Some b0 ∧ bare b' = bare b0).
Proof using Type.
  intros E H. apply bares_Some in H. rewrite E in H. apply lookup_insert_Some in H as [[<- H]|[Hne H]]; [left; split; congruence|right].
  split; [congruence|]. apply bares_lookup in H as (b0 & Hb0 & Eb). exists b0. split; [done|congruence].
Qed.
Lemma bare_same b c : bare b = bare c →
  feed_key b = feed_key c ∧ b.(bd_asset_id) = c.(bd_asset_id) ∧ b.(bd_options) = c.(bd_options) ∧ ∀ t, fresh t c → fresh t b.
Proof using Type.
  intros E. pose proof (f_equal feed_key E) as E1. pose proof (f_equal bd_asset_id E) as E2. pose proof (f_equal bd_options E) as E3.
  change (feed_key b = feed_key c) in E1. change (b.(bd_asset_id) = c.(bd_asset_id)) in E2. change (b.(bd_options) = c.(bd_options)) in E3.
  split; [done|]. split; [done|]. split; [done|]. intros t. unfold fresh, feed_is_expired. apply (f_equal fst) in E1. cbn in E1. by rewrite E1, E3.
Qed.

Lemma expire_feeds_step d0 d bid b d1 :
  HARDFORK_615_TIME ≤ head_block_time d0 < uint32_max → feeds_inv d0 d (Some bid) → d.(d_bitasset_data).(objs) !! bid = Some b →
  update_expired_feed cf d bid = Ok d1 → feeds_inv d0 d1 (next_feed d (Some b)).
Proof using Type.
  intros [Ht Hmax] [F C E D N] Hb H. pose proof E as E'. injection E' as Et _. rewrite <-Et in *.
  destruct (update_expired_feed_spec _ _ _ C Ht H) as (F1 & C1 & E1 & b0 & Hb0 & B). replace b0 with b in * by congruence. clear b0 Hb0.
  pose proof (update_median_frame b (head_block_time d)) as (G1 & G2 & _).
  assert (Hr : (refreshed (head_block_time d) b).(bd_asset_id) = b.(bd_asset_id) ∧ (refreshed (head_block_time d) b).(bd_options) = b.(bd_options)).
  { unfold refreshed. destruct (need_to_update_cer _); by split. }
  split; [by etransitivity|done|congruence| |].
  - intros i j x y Hx Hy Exy. destruct (visited _ _ _ _ _ _ B Hx) as [[-> Ex]|[Hi (x0 & Hx0 & Ex)]], (visited _ _ _ _ _ _ B Hy) as [[-> Ey]|[Hj (y0 & Hy0 & Ey)]];
      [done| | |]; apply bare_same in Ex as (_ & Ex & _); apply bare_same in Ey as (_ & Ey & _).
    + apply (D _ _ _ _ Hb Hy0). destruct Hr. congruence.
    + symmetry. apply (D _ _ _ _ Hb Hx0). destruct Hr. congruence.
    + apply (D _ _ _ _ Hx0 Hy0). congruence.
  - rewrite <-Et. intros i x Hx. destruct (visited _ _ _ _ _ _ B Hx) as [[-> Ex]|[Hi (x0 & Hx0 & Ex)]]; apply bare_same in Ex as (Ek & _ & Eo & Hf).
    + left. apply Hf. intros Hl. unfold feed_is_expired. pose proof (f_equal fst (refreshed_key (head_block_time d) b)) as Er. cbn in Er. rewrite Er.
      apply updated_feed_fresh; [|done]. destruct Hr as [_ Hr]. by rewrite Hr in Hl.
    + destruct (N _ _ Hx0) as [Hx0f|(j & c & [= <-] & Hc & Hle)]; [left; by apply Hf|right]. replace c with b in * by congruence.
      assert (pair_ltb (feed_key b) (feed_key x0) = true) as Hlt.
      { assert (b.(bd_asset_id) ≠ x0.(bd_asset_id)) by (intros Eq; apply Hi; symmetry; by apply (D _ _ _ _ Hb Hx0)).
        unfold pair_ltb, feed_key in *. cbn in *. propify. lia. }
      destruct (next_feed_spec d (Some b) i x0 Hx0 Hlt) as (j & c' & Ej & Hc' & Hle'). 
      destruct (decide (j = bid)) as [->|Hne].
      { exfalso. unfold next_feed in Ej. destruct (head _) as [[j' y]|] eqn:Eh; [|done]. injection Ej as ->. apply range_head in Eh as (Hy & Hp & _); [|apply _..].
        cbn in Hy, Hp. replace y with b in * by congruence. unfold pair_ltb in Hp. propify. lia. }
      apply bares_Some in Hc'. assert (bares d1 !! j = Some (bare c')) as Hj by (by rewrite B, lookup_insert_ne).
      apply bares_lookup in Hj as (c1 & Hc1 & Ec). exists j, c1. split; [done|]. split; [done|]. symmetry in Ec. apply bare_same in Ec as (Ec & _).
      by rewrite Ec, Ek.
Qed.

Lemma expire_feeds_spec fuel d0 d itr d' :
  HARDFORK_615_TIME ≤ head_block_time d0 < uint32_max → feeds_inv d0 d itr → expire_feeds cf fuel d itr = Ok d' →
  conserves d0 d' ∧ chain_ok d' ∧ clock d' = clock d0 ∧ map_Forall (λ _ b, fresh (head_block_time d0) b) d'.(d_bitasset_data).(objs).
Proof using Type.
  intros Ht. revert d itr. assert (Hend : ∀ d itr, feeds_inv d0 d itr →
    match itr with Some j => ∃ c, d.(d_bitasset_data).(objs) !! j = Some c ∧ feed_is_expired c (head_block_time d) = false | None => True end →
    conserves d0 d ∧ chain_ok d ∧ clock d = clock d0 ∧ map_Forall (λ _ b, fresh (head_block_time d0) b) d.(d_bitasset_data).(objs)).
  { intros d itr [F C E D N] Hitr. split; [done|]. split; [done|]. split; [done|]. intros i b Hb. destruct (N _ _ Hb) as [?|(j & c & -> & Hc & Hle)]; [done|].
    destruct Hitr as (c' & Hc' & Hex). replace c' with c in * by congruence. intros _. injection E as Et _. rewrite Et in Hex.
    unfold feed_is_expired in *. unfold pair_ltb, feed_key in Hle. cbn in Hle. propify. lia. }
  induction fuel as [|fuel IH]; intros d itr Hi H; (destruct itr as [bid|]; cbn [expire_feeds] in H; [|injection H as <-; by apply (Hend _ None)]);
    apply bind_Ok in H as (b & Hb & H); apply index_get_Ok in Hb; destruct (feed_is_expired b (head_block_time d)) eqn:Ex;
    try done; try (injection H as <-; apply (Hend _ (Some bid)); [done|by exists b]).
  apply bind_Ok in H as (d1 & H1 & H). eapply IH; [|exact H]. by eapply expire_feeds_step.
Qed.

(** *** The loop ends, unless a margin call of it does not *)
Definition lifetimes_ok (d : database) : Prop := map_Forall (λ _ b, 0 ≤ b.(bd_options).(bo_feed_lifetime_sec)) d.(d_bitasset_data).(objs).
(** Whether a bitasset is at or after the iterator. *)
Definition ahead (d : database) (itr : option Z) (b : asset_bitasset_data_object) : bool :=
  match j ← itr; d.(d_bitasset_data).(objs) !! j with Some c => negb (pair_ltb (feed_key b) (feed_key c)) | None => false end.
(** The expired bitassets that are ahead, and those that have expired before now. *)
Definition to_visit (t : Z) (d : database) (itr : option Z) : gset Z :=
  dom (filter (λ x, feed_is_expired x.2 t && ahead d itr x.2 = true) d.(d_bitasset_data).(objs)).
Definition long_expired (t : Z) (d : database) : gset Z := dom (filter (λ x, feed_expiration_time x.2 < t) d.(d_bitasset_data).(objs)).
Lemma aheadP d itr b : ahead d itr b = true ↔ from_itr d itr b.
Proof using Type.
  unfold ahead, from_itr. destruct itr as [j|]; cbn; [|naive_solver]. destruct (_ !! j) as [c|] eqn:E; [|naive_solver].
  rewrite negb_true_iff. naive_solver.
Qed.
Lemma elem_of_to_visit t d itr i :
  i ∈ to_visit t d itr ↔ ∃ b, d.(d_bitasset_data).(objs) !! i = Some b ∧ feed_expiration_time b ≤ t ∧ from_itr d itr b.
Proof using Type.
  unfold to_visit. rewrite elem_of_dom. unfold is_Some. setoid_rewrite map_lookup_filter_Some. cbn. setoid_rewrite <-aheadP. unfold feed_is_expired.
  split; intros (b & H1 & H2); exists b; propify; naive_solver.
Qed.
Lemma elem_of_long_expired t d i : i ∈ long_expired t d ↔ ∃ b, d.(d_bitasset_data).(objs) !! i = Some b ∧ feed_expiration_time b < t.
Proof using Type. unfold long_expired. rewrite elem_of_dom. unfold is_Some. setoid_rewrite map_lookup_filter_Some. done. Qed.

Lemma updated_not_before t b : 0 ≤ b.(bd_options).(bo_feed_lifetime_sec) → t ≤ uint32_max → t ≤ feed_expiration_time (update_median_feeds b t).
Proof using Type.
  intros Hl Ht. unfold feed_expiration_time. rewrite (proj1 (proj2 (update_median_frame b t))). destruct (uint32_max - _ <=? _); [done|].
  destruct (proj1 (Z.le_lteq _ _) Hl) as [Hp|Hp]; [pose proof (publication_alive b t Hp); lia|].
  rewrite <-Hp. unfold update_median_feeds. destruct (_ <? _); cbn; [lia|]. destruct (foldl_min_in t (alive_feeds b t).*1) as [->|Hin]; [lia|].
  apply list_elem_of_fmap in Hin as (f & -> & Hf). apply elem_of_alive in Hf as [Hf _]. unfold feed_alive in Hf. propify. lia.
Qed.

Lemma from_itr_self d i b : d.(d_bitasset_data).(objs) !! i = Some b → from_itr d (Some i) b.
Proof using Type. intros H. exists i, b. unfold pair_ltb. by rewrite !Z.ltb_irrefl, Z.eqb_refl. Qed.

Section visit.
Context (d d1 : database) (bid : Z) (b : asset_bitasset_data_object).
Context (Hb : d.(d_bitasset_data).(objs) !! bid = Some b).
Context (B : bares d1 = <[bid := bare (refreshed (head_block_time d) b)]> (bares d)).

(** Once the iterator has moved on, what is ahead of it comes after the bitasset. *)
Lemma after_visit x : from_itr d1 (next_feed d (Some b)) x → pair_ltb (feed_key b) (feed_key x) = true.
Proof using Hb B.
  intros (j & c & Ej & Hc & Hle). unfold next_feed in Ej. destruct (head _) as [[j' y]|] eqn:Eh; [|done]. injection Ej as ->.
  apply range_head in Eh as (Hy & Hp & _); [|apply _..]. cbn in Hy, Hp.
  assert (pair_ltb (feed_key b) (feed_key c) = true) as Hlt; [|unfold pair_ltb in *; propify; lia].
  destruct (visited _ _ _ _ _ _ B Hc) as [[-> _]|[Hj (y0 & Hy0 & E1)]].
  - exfalso. replace y with b in * by congruence. unfold pair_ltb in Hp. propify. lia.
  - apply bare_same in E1 as (E1 & _). rewrite E1. by replace y0 with y by congruence.
Qed.
Lemma visit_ahead : to_visit (head_block_time d) d1 (next_feed d (Some b)) ⊆ to_visit (head_block_time d) d (Some bid).
Proof using Hb B.
  intros i (x & Hx & Ht & Hf)%elem_of_to_visit. apply elem_of_to_visit. destruct (visited _ _ _ _ _ _ B Hx) as [[-> E1]|[Hi (x0 & Hx0 & E1)]]; apply bare_same in E1 as (E1 & _).
  - exists b. split; [done|]. split; [|by apply from_itr_self]. apply after_visit in Hf. unfold pair_ltb in Hf.
    unfold feed_key in *. cbn in Hf. propify. lia.
  - exists x0. split; [done|]. apply after_visit in Hf. rewrite E1 in Hf. injection E1 as E1 _. rewrite <-E1. split; [done|].
    exists bid, b. split; [done|]. split; [done|]. unfold pair_ltb in *. propify. lia.
Qed.
Context (Hl : 0 ≤ b.(bd_options).(bo_feed_lifetime_sec)) (Hmax : head_block_time d ≤ uint32_max).
Lemma visit_long : long_expired (head_block_time d) d1 ⊆ long_expired (head_block_time d) d ∖ {[ bid ]}.
Proof using Type*.
  intros i (x & Hx & Ht)%elem_of_long_expired. destruct (visited _ _ _ _ _ _ B Hx) as [[-> E1]|[Hi (x0 & Hx0 & E1)]]; apply bare_same in E1 as (E1 & _).
  - exfalso. rewrite refreshed_key in E1. injection E1 as E1 _. pose proof (updated_not_before (head_block_time d) b Hl Hmax). lia.
  - injection E1 as E1 _. apply elem_of_difference. rewrite not_elem_of_singleton. split; [|done]. apply elem_of_long_expired. exists x0. split; [done|lia].
Qed.

(** A visit takes the bitasset out of the one set or out of the other. *)
Lemma visit_less :
  feed_is_expired b (head_block_time d) = true →
  (size (to_visit (head_block_time d) d1 (next_feed d (Some b))) + size (long_expired (head_block_time d) d1) <
   size (to_visit (head_block_time d) d (Some bid)) + size (long_expired (head_block_time d) d))%nat.
Proof using Type*.
  intros Hexp. pose proof visit_ahead as S1. pose proof visit_long as S2.
  destruct (decide (feed_expiration_time b < head_block_time d)) as [Hold|Hold].
  - apply subseteq_size in S1. assert (bid ∈ long_expired (head_block_time d) d) as Hin by (apply elem_of_long_expired; by exists b).
    assert (size (long_expired (head_block_time d) d1) < size (long_expired (head_block_time d) d))%nat; [|lia].
    apply subset_size. split; [set_solver -Hb B Hl Hmax|]. intros Hsup. apply Hsup, S2 in Hin. set_solver -Hb B Hl Hmax.
  - assert (size (long_expired (head_block_time d) d1) ≤ size (long_expired (head_block_time d) d))%nat by (apply subseteq_size; set_solver -Hb B Hl Hmax).
    assert (size (to_visit (head_block_time d) d1 (next_feed d (Some b))) < size (to_visit (head_block_time d) d (Some bid)))%nat; [|lia].
    apply subset_size. split; [done|]. intros Hsup. unfold feed_is_expired in Hexp. propify.
    assert (bid ∈ to_visit (head_block_time d) d (Some bid)) as Hin by (apply elem_of_to_visit; exists b; split; [done|split; [done|by apply from_itr_self]]).
    apply Hsup, elem_of_to_visit in Hin as (x & Hx & Ht & Hf%after_visit).
    destruct (visited _ _ _ _ _ _ B Hx) as [[_ E1]|[[] _]]; [|done]. apply bare_same in E1 as (_ & E2 & _).
    assert ((refreshed (head_block_time d) b).(bd_asset_id) = b.(bd_asset_id)) as E3 by (unfold refreshed; by case_match; apply update_median_frame).
    unfold pair_ltb, feed_key in Hf. cbn in Hf. propify. lia.
Qed.
End visit.

(** What runs out of fuel is a margin call. *)
Lemma ends_bind {A B} (m : result A) (k : A → result B) (P : Prop) :
  (m = Err out_of_fuel → P) → (∀ x, m = Ok x → k x = Err out_of_fuel → P) → (x ← m; k x) = Err out_of_fuel → P.
Proof using Type. destruct m as [x|e]; intros Hm Hk H; [by apply (Hk x)|apply Hm; injection H as ->; reflexivity]. Qed.
Definition margin_call_endless : Prop := ∃ d a, check_call_orders cf d a true false = Err out_of_fuel.
Lemma no_end {A} (m : result A) (P : Prop) : terminates m → m = Err out_of_fuel → P.
Proof using Type. by intros T E%T. Qed.
Lemma terminates_set_cer d a r : terminates (set_core_exchange_rate d a r).
Proof using Type. unfold set_core_exchange_rate, modify_asset. apply terminates_bind; [apply terminates_get_asset|]. intros o _. destruct (price_eqb _ _); [discriminate|]. solve_terminates. Qed.

Lemma update_expired_feed_ends d bid : update_expired_feed cf d bid = Err out_of_fuel → margin_call_endless.
Proof using Type.
  unfold update_expired_feed. apply ends_bind; [apply no_end; solve_terminates|]. intros b _. destruct (_ || _); [|done]. cbv zeta.
  apply ends_bind; [apply no_end; solve_terminates|]. intros i _. apply ends_bind.
  - destruct (_ && _); [|done]. set (d1 := d <| d_bitasset_data := i |>). apply ends_bind; [intros H; by exists d1, b.(bd_asset_id)|]. by intros [d2 c] _.
  - intros d2 _. destruct (need_to_update_cer _); [|done]. apply ends_bind; [apply no_end; solve_terminates|]. intros b2 _. apply no_end, terminates_set_cer.
Qed.

Lemma expire_feeds_ends fuel d0 d itr :
  HARDFORK_615_TIME ≤ head_block_time d0 < uint32_max → feeds_inv d0 d itr → lifetimes_ok d →
  (size (to_visit (head_block_time d) d itr) + size (long_expired (head_block_time d) d) ≤ fuel)%nat →
  expire_feeds cf fuel d itr = Err out_of_fuel → margin_call_endless.
Proof using Type.
  intros Ht. revert d itr. induction fuel as [|fuel IH]; intros d itr Hi Hl Hn; (destruct itr as [bid|]; cbn [expire_feeds]; [|done]);
    (apply ends_bind; [apply no_end; solve_terminates|]); intros b Hb%index_get_Ok; (destruct (feed_is_expired b (head_block_time d)) eqn:Ex; [|done]).
  - intros _. exfalso. assert (bid ∈ to_visit (head_block_time d) d (Some bid)) as Hin.
    { apply elem_of_to_visit. exists b. unfold feed_is_expired in Ex. propify. split; [done|split; [done|by apply from_itr_self]]. }
    assert (size (to_visit (head_block_time d) d (Some bid)) = 0)%nat as Hz by lia. apply size_empty_inv in Hz. by rewrite Hz in Hin.
  - apply ends_bind; [apply update_expired_feed_ends|]. intros d1 H1. pose proof Hi as [_ C E _ _]. pose proof E as E'. injection E' as Et _.
    assert (Hd1 : clock d1 = clock d ∧ bares d1 = <[bid := bare (refreshed (head_block_time d) b)]> (bares d)).
    { destruct (update_expired_feed_spec d bid d1 C ltac:(lia) H1) as (_ & _ & E1 & b0 & Hb0 & B). by replace b0 with b in * by congruence. }
    destruct Hd1 as [E1 B]. injection E1 as E1 _. apply IH; [by eapply expire_feeds_step| |].
    + intros i x Hx. cbn. destruct (visited _ _ _ _ _ _ B Hx) as [[-> E2]|[_ (x0 & Hx0 & E2)]]; apply bare_same in E2 as (_ & _ & -> & _); [|by apply (Hl i)].
      assert ((refreshed (head_block_time d) b).(bd_options) = b.(bd_options)) as -> by (unfold refreshed; case_match; apply update_median_frame). by apply (Hl bid).
    + rewrite E1. pose proof (visit_less d d1 bid b Hb B (Hl _ _ Hb) ltac:(lia) Ex). lia.
Qed.

Lemma feeds_inv_start d : chain_ok d → bitassets_distinct d → feeds_inv d d (next_feed d None).
Proof using Type. intros C D. split; [apply flow_refl|done|done|done|]. intros i b Hb. right. by apply (next_feed_spec d None i). Qed.
Lemma visits_bound d itr : (size (to_visit (head_block_time d) d itr) + size (long_expired (head_block_time d) d) ≤ 2 * size d.(d_bitasset_data).(objs))%nat.
Proof using Type.
  assert (∀ s : gset Z, s ⊆ dom d.(d_bitasset_data).(objs) → size s ≤ size d.(d_bitasset_data).(objs))%nat as Hs.
  { intros s. rewrite <-size_dom. apply subseteq_size. }
  pose proof (Hs (to_visit (head_block_time d) d itr) (dom_filter_subseteq _ _)). pose proof (Hs (long_expired (head_block_time d) d) (dom_filter_subseteq _ _)). lia.
Qed.

(** The loop of the feeds ends, if its margin calls do. *)
Lemma update_expired_feeds_ends d :
  HARDFORK_615_TIME ≤ head_block_time d < uint32_max → chain_ok d → bitassets_distinct d → lifetimes_ok d →
  ∀ issue, update_expired_feeds cf issue d = Err out_of_fuel → margin_call_endless.
Proof using Type.
  intros Ht C D L issue. unfold update_expired_feeds. apply ends_bind.
  - apply (expire_feeds_ends _ d); [done|by apply feeds_inv_start|done|apply visits_bound].
  - intros d1 H1. destruct (expire_feeds_spec _ d d _ d1 Ht (feeds_inv_start d C D) H1) as (_ & _ & E & _). injection E as E _.
    rewrite (proj2 (Z.leb_le _ _)) by lia. done.
Qed.
End expiry.

(** ** A list sorted by insertion has its n-th element in place *)
Section nth_by_sort.
Context (lt : price_feed → price_feed → bool).
Fixpoint insert_by (x : price_feed) (l : list price_feed) : list price_feed :=
  match l with [] => [x] | y :: l' => if lt y x then y :: insert_by x l' else x :: l end.
Definition sort_by (l : list price_feed) : list price_feed := foldr insert_by [] l.
Definition not_above (x y : price_feed) : Prop := lt y x = false.

Lemma insert_by_perm x l : insert_by x l ≡ₚ x :: l.
Proof using Type. induction l as [|y l IH]; cbn; [done|]. destruct (lt y x); [|done]. by rewrite IH, Permutation_swap. Qed.
Lemma sort_by_perm l : sort_by l ≡ₚ l.
Proof using Type. induction l as [|x l IH]; cbn; [done|]. by rewrite insert_by_perm, IH. Qed.
Lemma insert_by_sorted P x l :
  strict_weak lt P → P x → Forall P l → StronglySorted not_above l → StronglySorted not_above (insert_by x l).
Proof using Type.
  intros (S1 & S2 & S3) Hx. induction l as [|y l IH]; intros Hl Hs; cbn; [by repeat constructor|].
  apply Forall_cons in Hl as [Hy Hl]. apply StronglySorted_inv in Hs as [Hs Hf]. destruct (lt y x) eqn:E.
  - constructor; [by apply IH|]. rewrite insert_by_perm. constructor; [by apply S3|done].
  - constructor; [by constructor|]. constructor; [done|]. rewrite Forall_forall in *. intros z Hz. apply (S2 z y x); auto. by apply Hf.
Qed.
Lemma sort_by_sorted P l : strict_weak lt P → Forall P l → StronglySorted not_above (sort_by l).
Proof using Type.
  intros HP. induction 1 as [|x l Hx Hl IH]; cbn; [constructor|]. eapply insert_by_sorted; [done..| |done]. by rewrite sort_by_perm.
Qed.
End nth_by_sort.

#[export] Instance nth_by_sort : NthElement := λ lt _ l, sort_by lt l.
#[export] Instance nth_by_sort_laws : NthElementLaws.
Proof.
  intros lt n l Hsw Hn. unfold nth_element, nth_by_sort. split; [apply sort_by_perm|]. intros x Hx.
  assert (Forall (.∈ l) l) as Hl by (by apply Forall_forall). pose proof (sort_by_sorted lt _ _ Hsw Hl) as Hs.
  rewrite <-(take_drop_middle _ _ _ Hx) in Hs. apply StronglySorted_app in Hs as (H1 & _ & H2). split.
  - apply Forall_forall. intros y Hy. apply (H1 y x Hy). by left.
  - rewrite (drop_S _ _ _ Hx). apply StronglySorted_inv in H2 as [_ H2]. constructor; [|done]. apply (proj1 Hsw).
    rewrite <-(sort_by_perm lt). by eapply list_elem_of_lookup_2.
Qed.

(** ** Properties *)

(** The feed of an asset is, field by field, the median of the published feeds
    that are alive, and the null feed when fewer are alive than the options ask for;
    and computing it again before it expires gives the same feed. *)
Theorem update_median_feeds_sound {nth : NthElement} {laws : NthElementLaws} b t
  (Hok : Forall feed_prices_ok (alive_feeds b t).*2) (Hm : 0 < b.(bd_options).(bo_minimum_feeds)) :
  let b' := update_median_feeds b t in
  (if Z.of_nat (length (alive_feeds b t)) <? b.(bd_options).(bo_minimum_feeds) then b'.(bd_current_feed) = null_feed
   else feed_median (alive_feeds b t).*2 b'.(bd_current_feed)) ∧
  ∀ t', t ≤ t' < feed_expiration_time b' → (update_median_feeds b' t').(bd_current_feed) = b'.(bd_current_feed).
Proof.
  cbn zeta. split.
  - destruct (Z.ltb_spec (Z.of_nat (length (alive_feeds b t))) b.(bd_options).(bo_minimum_feeds)) as [Hlt|Hge].
    + unfold update_median_feeds. by rewrite length_fmap, (proj2 (Z.ltb_lt _ _) Hlt).
    + by apply update_median_feed_spec.
  - intros t' [H1 H2]. by apply median_stable.
Qed.

(** After a block no asset has a feed that has expired; the market stays well
    formed and the margin calls of the new feeds create and destroy nothing. *)
Theorem update_expired_feeds_fresh {nth : NthElement} cf issue d d'
  (Hd : chain_ok d) (Hb : bitassets_distinct d) (Ht : HARDFORK_615_TIME ≤ head_block_time d < uint32_max)
  (H : update_expired_feeds cf issue d = Ok d') :
  conserves d d' ∧ chain_ok d' ∧ clock d' = clock d ∧ map_Forall (λ _ b, fresh (head_block_time d') b) d'.(d_bitasset_data).(objs).
Proof.
  unfold update_expired_feeds in H. apply bind_Ok in H as (d1 & H1 & H).
  apply (expire_feeds_spec cf _ d d _ d1 Ht (feeds_inv_start d Hd Hb)) in H1 as (F & C & E & Hf). pose proof E as E'. injection E' as Et _.
  rewrite (proj2 (Z.leb_le _ _)) in H by lia. injection H as <-. rewrite Et. by split_and!.
Qed.

(** Four feeds, of which one is no longer alive; the current one has expired. *)
Definition published (t p r : Z) : Z * price_feed := (t, PriceFeed (Price (Asset 100 2) (Asset p 0)) (Price (Asset 1 2) (Asset 1 0)) r 1100).
Definition feeds_bitasset : asset_bitasset_data_object :=
  market_bitasset
    <| bd_feeds := list_to_map [(5, published 1649900000 500 1750); (6, published 1649950000 98 1800); (7, published 1649960000 102 1700); (8, published 1649970000 95 1750)] |>
    <| bd_current_feed_publication_time := 1649900000 |>.
Definition feeds_db : database := market_db <| d_bitasset_data := Index {[ 0 := feeds_bitasset ]} 1 |>.

#[export] Instance price_or_null_dec p : Decision (price_or_null p).
Proof. unfold price_or_null, trade_price. apply _. Defined.
Lemma update_median_feeds_sound_witness :
  let b' := update_median_feeds feeds_bitasset 1650000000 in
  feed_median (alive_feeds feeds_bitasset 1650000000).*2 b'.(bd_current_feed) ∧ length (alive_feeds feeds_bitasset 1650000000) = 3%nat ∧
  b'.(bd_current_feed) = PriceFeed (Price (Asset 100 2) (Asset 98 0)) (Price (Asset 1 2) (Asset 1 0)) 1750 1100 ∧
  feed_expiration_time b' = 1649950000 + 86400.
Proof.
  destruct (update_median_feeds_sound feeds_bitasset 1650000000) as [H _].
  - unfold feed_prices_ok. by apply (bool_decide_unpack _).
  - reflexivity.
  - split; [exact H|]. split; [|split]; vm_compute; reflexivity.
Defined.

Lemma feeds_db_ok : chain_ok feeds_db ∧ bitassets_distinct feeds_db.
Proof.
  split.
  - apply (bitasset_change market_db 0 market_bitasset feeds_bitasset); [reflexivity..|exact market_chain_ok].
  - intros i j b c Hi Hj _. cbn in Hi, Hj. apply lookup_singleton_Some in Hi as [<- _]. by apply lookup_singleton_Some in Hj as [<- _].
Qed.

(** The position of account 8 is called at the new feed, and closed against the offer
    of account 6. *)
Lemma update_expired_feeds_fresh_witness :
  ∃ d', update_expired_feeds 0 [] feeds_db = Ok d' ∧ conserves feeds_db d' ∧ chain_ok d' ∧
    map_Forall (λ _ b, fresh 1650000000 b) d'.(d_bitasset_data).(objs) ∧
    ¬ map_Forall (λ _ b, fresh 1650000000 b) feeds_db.(d_bitasset_data).(objs) ∧
    d'.(d_call_orders).(objs) = ∅ ∧ (lo_for_sale <$> d'.(d_limit_orders).(objs)) = {[ 0 := 120; 1 := 106; 2 := 500 ]}.
Proof.
  destruct (update_expired_feeds 0 [] feeds_db) as [d'|e] eqn:E; [|exfalso; vm_compute in E; discriminate E].
  destruct (update_expired_feeds_fresh 0 [] feeds_db d' (proj1 feeds_db_ok) (proj2 feeds_db_ok) ltac:(by split) E) as (F & C & Ec & Hf).
  exists d'. split; [done|]. split; [done|]. split; [done|]. split; [by replace 1650000000 with (head_block_time d') by (injection Ec as -> _; reflexivity)|].
  split; [intros Hx; specialize (Hx 0 feeds_bitasset eq_refl); cbn in Hx; specialize (Hx eq_refl); vm_compute in Hx; discriminate Hx|].
  vm_compute in E. injection E as <-. split; vm_compute; reflexivity.
Defined.
