(* ===== verification/MarketOps.v ===== *)
(** * The operations of the market

    [protocol/market.cpp] and [market_evaluator.cpp]: limit orders, margin positions
    and bids for the collateral of a settled asset. *)
From S2P Require Import Prelude Safe Asset Objects Pricing Database Ledger Vesting Balance Evaluator Sample Market Fills Margin Settle Book Rounds.

(** What the fee schedule says about the cancellation of a limit order. *)
Class FeeSchedule : Type := limit_order_cancel_fee : Z.

(** ** limit_order_create *)
Record limit_order_create_operation : Type := LimitOrderCreate {
  loc_fee : asset;
  loc_seller : Z;
  loc_amount_to_sell : asset;
  loc_min_to_receive : asset;
  loc_expiration : Z;
  loc_fill_or_kill : bool }.

Definition limit_order_create_validate (op : limit_order_create_operation) : result unit :=
  _ ← FC_ASSERT (negb (op.(loc_amount_to_sell).(asset_id) =? op.(loc_min_to_receive).(asset_id)));
  _ ← FC_ASSERT (0 <=? op.(loc_fee).(amount));
  _ ← FC_ASSERT (0 <? op.(loc_amount_to_sell).(amount));
  FC_ASSERT (0 <? op.(loc_min_to_receive).(amount)).

Definition limit_order_create_do_evaluate (d : database) (op : limit_order_create_operation) : result unit :=
  _ ← FC_ASSERT (head_block_time d <=? op.(loc_expiration));
  seller ← get_account d op.(loc_seller);
  let sell_id := op.(loc_amount_to_sell).(asset_id) in
  let receive_id := op.(loc_min_to_receive).(asset_id) in
  sell_asset ← get_asset d sell_id;
  receive_asset ← get_asset d receive_id;
  _ ← (if 0 <? Z.of_nat (size sell_asset.(ao_whitelist_markets))
       then FC_ASSERT (bool_decide (receive_id ∈ sell_asset.(ao_whitelist_markets))) else Ok tt);
  _ ← (if 0 <? Z.of_nat (size sell_asset.(ao_blacklist_markets))
       then FC_ASSERT (negb (bool_decide (receive_id ∈ sell_asset.(ao_blacklist_markets)))) else Ok tt);
  _ ← FC_ASSERT (is_authorized_asset d seller sell_id sell_asset);
  _ ← FC_ASSERT (is_authorized_asset d seller receive_id receive_asset);
  enough ← asset_ge (get_balance d op.(loc_seller) sell_id) op.(loc_amount_to_sell);
  FC_ASSERT enough.

(** The fee is not paid but kept with the order, next to the core it was converted to. *)
Definition limit_order_create_convert_fee (st : transaction_evaluation_state) (d : database) (fee : asset) (core_fee_paid : Z) :
    result database :=
  if head_block_time d <=? HARDFORK_CORE_604_TIME then convert_fee st d fee core_fee_paid
  else if st.(skip_fee) then Ok d
  else if fee.(asset_id) =? CORE then Ok d
  else
    fee_asset ← get_asset d fee.(asset_id);
    modify_dynamic_data d fee_asset.(ao_dynamic_asset_data_id) (λ x,
      pool ← safe_sub x.(dd_fee_pool) core_fee_paid; Ok (x <| dd_fee_pool := pool |>)).

(** The state, [_deferred_fee] and [_deferred_paid_fee]. *)
Definition limit_order_create_pay_fee (st : transaction_evaluation_state) (d : database) (payer : Z) (fee : asset) (core_fee_paid : Z) :
    result (database * Z * asset) :=
  if head_block_time d <=? HARDFORK_445_TIME then d1 ← pay_fee st d payer core_fee_paid; Ok (d1, 0, Asset 0 CORE)
  else Ok (d, core_fee_paid,
           if (HARDFORK_CORE_604_TIME <? head_block_time d) && negb (fee.(asset_id) =? CORE) then fee else Asset 0 CORE).

Section market_operations.
Context `{!FeeSchedule}.
#[local] Notation cf := limit_order_cancel_fee.

Definition limit_order_create_do_apply (d : database) (op : limit_order_create_operation) (deferred_fee : Z) (deferred_paid_fee : asset) :
    result database :=
  let sell := op.(loc_amount_to_sell) in
  d1 ← add_core_in_orders d op.(loc_seller) sell;
  d2 ← debit d1 op.(loc_seller) sell;
  price ← make_price sell op.(loc_min_to_receive);
  '(order_id, i) ← index_create d2.(d_limit_orders)
    (LimitOrder op.(loc_expiration) op.(loc_seller) sell.(amount) price deferred_fee deferred_paid_fee);
  let d3 := d2 <| d_limit_orders := i |> in
  '(d4, filled) ← (if next_maintenance_time d3 <=? HARDFORK_CORE_625_TIME
                   then apply_order_before_hardfork_625 cf d3 order_id true
                   else apply_order cf d3 order_id);
  _ ← FC_ASSERT (negb op.(loc_fill_or_kill) || filled);
  Ok d4.

#[export] Instance limit_order_create_evaluator : Evaluator limit_order_create_operation := {
  fee_payer := loc_seller;
  fee := loc_fee;
  validate := limit_order_create_validate;
  do_evaluate := limit_order_create_do_evaluate;
  do_apply d op := limit_order_create_do_apply d op 0 (Asset 0 CORE) }.

(** The template with the overridden [convert_fee] and [pay_fee]. *)
Definition limit_order_create_apply (st : transaction_evaluation_state) (d : database) (op : limit_order_create_operation)
    (core_fee_paid : Z) : result database :=
  d1 ← limit_order_create_convert_fee st d op.(loc_fee) core_fee_paid;
  '(d2, deferred_fee, deferred_paid_fee) ← limit_order_create_pay_fee st d1 op.(loc_seller) op.(loc_fee) core_fee_paid;
  d3 ← limit_order_create_do_apply d2 op deferred_fee deferred_paid_fee;
  debit d3 op.(loc_seller) op.(loc_fee).
Definition limit_order_create_start_evaluate (st : transaction_evaluation_state) (required_fee : Z) (d : database)
    (op : limit_order_create_operation) : result database :=
  _ ← validate op;
  core_fee_paid ← evaluate st required_fee d op;
  limit_order_create_apply st d op core_fee_paid.

(** ** limit_order_cancel *)
Record limit_order_cancel_operation : Type := LimitOrderCancel {
  lcc_fee : asset;
  lcc_order : Z;
  lcc_fee_paying_account : Z }.
Definition limit_order_cancel_do_evaluate (d : database) (op : limit_order_cancel_operation) : result unit :=
  order ← get_limit_order d op.(lcc_order);
  FC_ASSERT (order.(lo_seller) =? op.(lcc_fee_paying_account)).
Definition limit_order_cancel_do_apply (d : database) (op : limit_order_cancel_operation) : result database :=
  order ← get_limit_order d op.(lcc_order);
  d1 ← cancel_limit_order cf d op.(lcc_order) false false;
  if next_maintenance_time d1 <=? HARDFORK_CORE_606_TIME then
    '(d2, _) ← check_call_orders cf d1 (sell_asset_id order) true false;
    '(d3, _) ← check_call_orders cf d2 (receive_asset_id order) true false;
    Ok d3
  else Ok d1.
#[export] Instance limit_order_cancel_evaluator : Evaluator limit_order_cancel_operation := {
  fee_payer := lcc_fee_paying_account;
  fee := lcc_fee;
  validate op := FC_ASSERT (0 <=? op.(lcc_fee).(amount));
  do_evaluate := limit_order_cancel_do_evaluate;
  do_apply := limit_order_cancel_do_apply }.

(** ** call_order_update *)
Record call_order_update_operation : Type := CallOrderUpdate {
  cou_fee : asset;
  cou_funding_account : Z;
  cou_delta_collateral : asset;
  cou_delta_debt : asset;
  cou_target_collateral_ratio : option Z }.
Definition call_order_update_validate (op : call_order_update_operation) : result unit :=
  _ ← FC_ASSERT (0 <=? op.(cou_fee).(amount));
  _ ← FC_ASSERT (negb (op.(cou_delta_collateral).(asset_id) =? op.(cou_delta_debt).(asset_id)));
  FC_ASSERT (negb (op.(cou_delta_collateral).(amount) =? 0) || negb (op.(cou_delta_debt).(amount) =? 0)).

Definition call_order_update_do_evaluate (d : database) (op : call_order_update_operation) : result unit :=
  _ ← (if next_maintenance_time d <=? HARDFORK_CORE_834_TIME
       then FC_ASSERT (bool_decide (op.(cou_target_collateral_ratio) = None)) else Ok tt);
  _ ← get_account d op.(cou_funding_account);
  debt_asset ← get_asset d op.(cou_delta_debt).(asset_id);
  _ ← FC_ASSERT (is_market_issued debt_asset);
  bitasset ← bitasset_data d debt_asset;
  _ ← FC_ASSERT (negb (has_settlement bitasset));
  _ ← FC_ASSERT (op.(cou_delta_collateral).(asset_id) =? bitasset.(bd_options).(bo_short_backing_asset));
  if bitasset.(bd_is_prediction_market)
  then FC_ASSERT (op.(cou_delta_collateral).(amount) =? op.(cou_delta_debt).(amount))
  else GRAPHENE_ASSERT (negb (price_is_null bitasset.(bd_current_feed).(pf_settlement_price))) insufficient_feeds.

(** [collateralization]. *)
Definition collateralization (c : call_order_object) : result price := make_price (get_collateral c) (get_debt c).

(** The position of a borrower in an asset. *)
Definition find_position (d : database) (borrower debt_asset : Z) : option (Z * call_order_object) :=
  head (range call_ltb (λ x, (x.2.(cl_borrower) =? borrower) && (debt_type x.2 =? debt_asset)) d.(d_call_orders)).

(** The debt and the collateral move between the account and the position. *)
Definition move_delta (d : database) (debt_obj : asset_object) (op : call_order_update_operation) : result database :=
  d1 ← (if op.(cou_delta_debt).(amount) =? 0 then Ok d
        else
          d1 ← adjust_balance d op.(cou_funding_account) op.(cou_delta_debt);
          modify_dynamic_data d1 debt_obj.(ao_dynamic_asset_data_id) (λ x,
            s ← safe_add x.(dd_current_supply) op.(cou_delta_debt).(amount);
            _ ← FC_ASSERT (0 <=? s);
            Ok (x <| dd_current_supply := s |>)));
  if op.(cou_delta_collateral).(amount) =? 0 then Ok d1
  else
    d2 ← debit d1 op.(cou_funding_account) op.(cou_delta_collateral);
    if op.(cou_delta_collateral).(asset_id) =? CORE then
      modify_statistics d2 op.(cou_funding_account) (λ s,
        n ← safe_add s.(st_total_core_in_orders) op.(cou_delta_collateral).(amount); Ok (s <| st_total_core_in_orders := n |>))
    else Ok d2.

(** The position after the update: [None] when it is closed; otherwise its
    identifier and, when it was there before, its collateralization and debt. *)
Definition update_position (d : database) (op : call_order_update_operation) (mcr : Z) :
    result (database * option (Z * option (price * Z))) :=
  match find_position d op.(cou_funding_account) op.(cou_delta_debt).(asset_id) with
  | None =>
      _ ← FC_ASSERT (0 <? op.(cou_delta_collateral).(amount));
      _ ← FC_ASSERT (0 <? op.(cou_delta_debt).(amount));
      p ← call_price op.(cou_delta_debt) op.(cou_delta_collateral) mcr;
      '(d1, id) ← create_call_order d (CallOrder op.(cou_funding_account) op.(cou_delta_collateral).(amount)
                                         op.(cou_delta_debt).(amount) p op.(cou_target_collateral_ratio));
      Ok (d1, Some (id, None))
  | Some (id, c) =>
      new_collateral ← safe_add c.(cl_collateral) op.(cou_delta_collateral).(amount);
      new_debt ← safe_add c.(cl_debt) op.(cou_delta_debt).(amount);
      if new_debt =? 0 then
        _ ← FC_ASSERT (new_collateral =? 0);
        d1 ← remove_call_order d id;
        Ok (d1, None)
      else
        _ ← FC_ASSERT ((0 <? new_collateral) && (0 <? new_debt));
        old_collateralization ← collateralization c;
        d1 ← modify_call_order d id (λ c,
          let c := c <| cl_collateral := new_collateral |> <| cl_debt := new_debt |> in
          p ← call_price (get_debt c) (get_collateral c) mcr;
          Ok (c <| cl_call_price := p |> <| cl_target_collateral_ratio := op.(cou_target_collateral_ratio) |>));
        Ok (d1, Some (id, Some (old_collateralization, c.(cl_debt))))
  end.

(** After the hard fork a position may stay in the margin call territory when its
    ratio went up and its debt did not. *)
Definition position_allowed (after_583 : bool) (settlement_price : price) (c : call_order_object) (old : option (price * Z)) : result unit :=
  let out_of_call := price_ltb (price_inv c.(cl_call_price)) settlement_price in
  if negb after_583 then GRAPHENE_ASSERT out_of_call call_order_update_unfilled_margin_call
  else
    better ← match old with
             | Some (old_collateralization, old_debt) =>
                 if c.(cl_debt) <=? old_debt then p ← collateralization c; Ok (price_gtb p old_collateralization) else Ok false
             | None => Ok false
             end;
    FC_ASSERT (better || out_of_call).

Definition call_order_update_do_apply (d : database) (op : call_order_update_operation) : result database :=
  debt_asset ← get_asset d op.(cou_delta_debt).(asset_id);
  bitasset ← bitasset_data d debt_asset;
  d1 ← move_delta d debt_asset op;
  '(d2, updated) ← update_position d1 op bitasset.(bd_current_feed).(pf_maintenance_collateral_ratio);
  match updated with
  | None => Ok d2
  | Some (id, old) =>
      if bitasset.(bd_is_prediction_market) then Ok d2
      else
        '(d3, called) ← check_call_orders cf d2 op.(cou_delta_debt).(asset_id) false false;
        if called : bool then
          _ ← GRAPHENE_ASSERT (bool_decide (d3.(d_call_orders).(objs) !! id = None)) call_order_update_unfilled_margin_call;
          Ok d3
        else
          c ← get_call_order d3 id;
          _ ← position_allowed (HARDFORK_CORE_583_TIME <? head_block_time d3) bitasset.(bd_current_feed).(pf_settlement_price) c old;
          Ok d3
  end.
#[export] Instance call_order_update_evaluator : Evaluator call_order_update_operation := {
  fee_payer := cou_funding_account;
  fee := cou_fee;
  validate := call_order_update_validate;
  do_evaluate := call_order_update_do_evaluate;
  do_apply := call_order_update_do_apply }.

(** ** bid_collateral *)
Record bid_collateral_operation : Type := BidCollateral {
  bc_fee : asset;
  bc_bidder : Z;
  bc_additional_collateral : asset;
  bc_debt_covered : asset }.
Definition bid_collateral_validate (op : bid_collateral_operation) : result unit :=
  _ ← FC_ASSERT (0 <=? op.(bc_fee).(amount));
  FC_ASSERT ((op.(bc_debt_covered).(amount) =? 0) || ((0 <? op.(bc_debt_covered).(amount)) && (0 <? op.(bc_additional_collateral).(amount)))).
Definition find_bid (d : database) (debt_asset bidder : Z) : option (Z * collateral_bid_object) :=
  head (range bid_ltb (λ x, (bid_debt_type x.2 =? debt_asset) && (x.2.(cb_bidder) =? bidder)) d.(d_collateral_bids)).
Definition bid_collateral_do_evaluate (d : database) (op : bid_collateral_operation) : result unit :=
  _ ← FC_ASSERT (HARDFORK_CORE_216_TIME <? head_block_time d);
  _ ← get_account d op.(bc_bidder);
  debt_asset ← get_asset d op.(bc_debt_covered).(asset_id);
  _ ← FC_ASSERT (is_market_issued debt_asset);
  bitasset ← bitasset_data d debt_asset;
  _ ← FC_ASSERT (has_settlement bitasset);
  let backing := bitasset.(bd_options).(bo_short_backing_asset) in
  _ ← FC_ASSERT (op.(bc_additional_collateral).(asset_id) =? backing);
  _ ← FC_ASSERT (negb bitasset.(bd_is_prediction_market));
  _ ← (if 0 <? op.(bc_additional_collateral).(amount) then
         _ ← get_asset d backing;
         enough ← asset_ge (get_balance d op.(bc_bidder) backing) op.(bc_additional_collateral);
         FC_ASSERT enough
       else Ok tt);
  match find_bid d op.(bc_debt_covered).(asset_id) op.(bc_bidder) with
  | Some _ => Ok tt
  | None => FC_ASSERT (0 <? op.(bc_debt_covered).(amount))
  end.
Definition bid_collateral_do_apply (d : database) (op : bid_collateral_operation) : result database :=
  d1 ← match find_bid d op.(bc_debt_covered).(asset_id) op.(bc_bidder) with
       | Some (id, _) => cancel_bid d id false
       | None => Ok d
       end;
  if op.(bc_debt_covered).(amount) =? 0 then Ok d1
  else
    d2 ← debit d1 op.(bc_bidder) op.(bc_additional_collateral);
    p ← make_price op.(bc_additional_collateral) op.(bc_debt_covered);
    '(d3, _) ← create_bid d2 (CollateralBid op.(bc_bidder) p);
    Ok d3.
#[export] Instance bid_collateral_evaluator : Evaluator bid_collateral_operation := {
  fee_payer := bc_bidder;
  fee := bc_fee;
  validate := bid_collateral_validate;
  do_evaluate := bid_collateral_do_evaluate;
  do_apply := bid_collateral_do_apply }.
End market_operations.

(** ** The operations conserve value *)
Lemma flow_add_to_supply d k z d' (f : Z → result unit) :
  modify_dynamic_data d k (λ x, s ← safe_add x.(dd_current_supply) z; _ ← f s; Ok (x <| dd_current_supply := s |>)) = Ok d' →
  flow d d' (λ a, - of_asset a (Asset z k)).
Proof. intros H. eapply flow_modify_dynamic_data; [exact H|]. solve_dyn. Qed.

Lemma move_delta_spec d o op d' :
  assets_ok d → get_asset d op.(cou_delta_debt).(asset_id) = Ok o → move_delta d o op = Ok d' →
  flow d d' (λ a, - of_asset a op.(cou_delta_collateral)) ∧ account_step d d'.
Proof.
  intros Ha Ho H. unfold move_delta in H. apply bind_Ok in H as (d1 & H1 & H2).
  assert (flow d d1 (λ _, 0) ∧ account_step d d1) as [F1 A1].
  { destruct (Z.eqb_spec op.(cou_delta_debt).(amount) 0); [injection H1 as <-; split; [apply flow_refl|reflexivity]|].
    apply bind_Ok in H1 as (d2 & H1 & H3). rewrite (dyn_id _ _ _ Ha Ho) in H3. split.
    - apply flow_add_to_supply in H3. apply flows in H1. eapply flow_ext; [exact (flow_trans _ _ _ _ _ H1 H3)|]. flow_arith.
    - etransitivity; [exact (accounts (P:=_ = Ok _) H1)|exact (accounts (P:=_ = Ok _) H3)]. }
  destruct (Z.eqb_spec op.(cou_delta_collateral).(amount) 0) as [E|E].
  { injection H2 as <-. split; [|done]. eapply flow_ext; [exact F1|]. flow_arith. }
  apply bind_Ok in H2 as (d2 & H2 & H3).
  assert (flow d2 d' (λ _, 0) ∧ account_step d2 d') as [F3 A3].
  { destruct (_ =? CORE); [|injection H3 as <-; split; [apply flow_refl|reflexivity]].
    split; [exact (flows (P:=_ = Ok _) H3)|exact (accounts (P:=_ = Ok _) H3)]. }
  pose proof (accounts (P:=_ = Ok _) H2) as A2. apply flows in H2. split; [|etransitivity; [exact A1|by etransitivity]].
  eapply flow_ext; [exact (flow_trans _ _ _ _ _ F1 (flow_trans _ _ _ _ _ H2 F3))|]. intros a. cbn beta. lia.
Qed.

Lemma find_position_Ok d b a k c :
  find_position d b a = Some (k, c) → d.(d_call_orders).(objs) !! k = Some c ∧ c.(cl_borrower) = b ∧ debt_type c = a.
Proof.
  unfold find_position. intros H. destruct (range _ _ _) as [|x l] eqn:E; [done|]. injection H as ->.
  assert ((k, c) ∈ range call_ltb (λ x, (x.2.(cl_borrower) =? b) && (debt_type x.2 =? a)) d.(d_call_orders)) as H by (rewrite E; set_solver).
  apply elem_of_range in H as [H Hp]. cbn in *. apply andb_true_iff in Hp as [Hb%Z.eqb_eq Hd%Z.eqb_eq]. done.
Qed.

(** What an update of a position leaves alone. *)
Record position_frame (d d' : database) : Prop := {
  pf_setting : same_setting d d';
  pf_limit : d'.(d_limit_orders) = d.(d_limit_orders);
  pf_bitasset : d'.(d_bitasset_data) = d.(d_bitasset_data);
  pf_backed : backed d → backed d' }.

Lemma backed_update d id (c : call_order_object) m :
  m.(objs) = <[id := c]> d.(d_call_orders).(objs) → backing_of d (debt_type c) = Some (collateral_type c) →
  backed d → backed (d <| d_call_orders := m |>).
Proof.
  intros E Hc H k c' Hk. cbn in Hk. rewrite E in Hk. apply lookup_insert_Some in Hk as [[_ <-]|[_ Hk]]; [exact Hc|exact (H k c' Hk)].
Qed.

Lemma update_position_spec d op mcr d' r :
  backed d → backing_of d op.(cou_delta_debt).(asset_id) = Some op.(cou_delta_collateral).(asset_id) →
  update_position d op mcr = Ok (d', r) →
  flow d d' (λ a, of_asset a op.(cou_delta_collateral)) ∧ position_frame d d'.
Proof.
  intros Hb Hback H. unfold update_position in H. destruct (find_position _ _ _) as [[id c]|] eqn:Ef.
  - apply find_position_Ok in Ef as (Hc & _ & Hd). pose proof (Hb _ _ Hc) as Hct. cbn in Hct. rewrite Hd, Hback in Hct. injection Hct as Hct.
    apply bind_Ok in H as (nc & Hnc & H). apply bind_Ok in H as (nd & Hnd & H). apply safe_add_Ok in Hnc as ->. apply safe_add_Ok in Hnd as ->.
    destruct (Z.eqb_spec (c.(cl_debt) + op.(cou_delta_debt).(amount)) 0) as [E|E].
    + apply bind_Ok in H as (u & Hu & H). apply FC_ASSERT_Ok, Z.eqb_eq in Hu. apply bind_Ok in H as (d1 & H1 & [= <- <-]).
      apply index_get_Ok in Hc as Hg. pose proof (flow_remove_call _ _ _ _ H1 Hg) as F. split.
      * eapply flow_ext; [exact F|]. intros a. cbn beta. unfold get_collateral. rewrite <-Hct. flow_arith.
      * unfold remove_call_order in H1. apply bind_Ok in H1 as (i & Hi & [= <-]). apply index_remove_Ok in Hi as (v & _ & ->).
        split; try done. intros _ k c' Hk. cbn in Hk. apply lookup_delete_Some in Hk as [_ Hk]. exact (Hb k c' Hk).
    + apply bind_Ok in H as (u & _ & H). apply bind_Ok in H as (oc & _ & H). apply bind_Ok in H as (d1 & H1 & [= <- <-]).
      pose proof H1 as H1'. apply flow_modify_call in H1 as (x & x' & Hx & Hx' & F). apply index_get_Ok in Hx. replace x with c in * by congruence.
      apply bind_Ok in Hx' as (p & Hp & [= <-]). apply call_price_types in Hp as [Ec Ed]. cbn in Ec, Ed. split.
      * eapply flow_ext; [exact F|]. intros a. cbn beta. unfold get_collateral, collateral_type in *. cbn. rewrite Ec, <-Hct. flow_arith.
      * unfold modify_call_order in H1'. apply bind_Ok in H1' as (i & Hi & [= <-]). apply index_modify_Ok in Hi as (v & v' & Hv & Hv' & ->).
        replace v with c in * by congruence. apply bind_Ok in Hv' as (p' & Hp & [= <-]). apply call_price_types in Hp as [Ec' Ed']. cbn in Ec', Ed'.
        split; try done. intros _. eapply backed_update; [done| |done]. unfold debt_type, collateral_type in *. cbn. rewrite Ed', Ec'. cbn. congruence.
  - do 2 apply bind_Ok in H as (? & _ & H). apply bind_Ok in H as (p & Hp & H). apply call_price_types in Hp as [Ec Ed].
    apply bind_Ok in H as ([d1 k] & H1 & [= <- <-]). unfold create_call_order in H1. apply bind_Ok in H1 as (? & _ & H1).
    apply bind_Ok in H1 as ([k' i] & Hi & [= <- <-]). split.
    + pose proof (flow_index_create d_call_orders _ get_collateral flow_call_orders d _ _ _ Hi) as F. eapply flow_ext; [exact F|].
      intros a. cbn beta. unfold get_collateral, collateral_type. cbn. rewrite Ec. flow_arith.
    + apply index_create_Ok in Hi as (-> & _ & ->). split; try done. intros _. eapply backed_update; [done| |done].
      unfold debt_type, collateral_type. cbn. by rewrite Ed, Ec.
Qed.

Lemma call_order_update_backing d op :
  call_order_update_do_evaluate d op = Ok tt → backing_of d op.(cou_delta_debt).(asset_id) = Some op.(cou_delta_collateral).(asset_id).
Proof.
  unfold call_order_update_do_evaluate. intros H. do 2 apply bind_Ok in H as (? & _ & H). apply bind_Ok in H as (o & Ho & H).
  apply bind_Ok in H as (? & _ & H). apply bind_Ok in H as (b & Hb & H). apply bind_Ok in H as (? & _ & H).
  apply bind_Ok in H as (u & Hu & _). apply FC_ASSERT_Ok, Z.eqb_eq in Hu. apply index_get_Ok in Ho. unfold backing_of. rewrite Ho. cbn.
  unfold bitasset_data in Hb. destruct o.(ao_bitasset_data_id) as [i|]; [cbn|done]. apply index_get_Ok in Hb. rewrite Hb. cbn. by rewrite Hu.
Qed.

Section conserving.
Context {fs : FeeSchedule}.

Lemma limit_order_cancel_spec d op d' :
  chain_ok d → limit_order_cancel_do_apply d op = Ok d' → conserves d d' ∧ chain_ok d' ∧ clock d' = clock d.
Proof using Type.
  intros Hd H. unfold limit_order_cancel_do_apply in H. apply bind_Ok in H as (o & _ & H). apply bind_Ok in H as (d2 & H2 & H).
  destruct (cancel_limit_order_spec _ _ _ _ _ _ (co_assets _ Hd) H2) as (F2 & L2 & _). apply market_of_limit in L2.
  destruct (chain_clock_market _ d _ eq_refl L2 Hd) as [Hd2 E2]. destruct (_ <=? _); [|by injection H as <-].
  apply bind_Ok in H as ([d3 b3] & H3 & H). apply bind_Ok in H as ([d4 b4] & H4 & [= <-]).
  destruct (check_call_orders_spec _ _ _ _ _ _ _ (co_assets _ Hd2) (co_funds _ Hd2) H3) as [F3 L3].
  destruct (chain_clock_market _ d _ E2 L3 Hd2) as [Hd3 E3].
  destruct (check_call_orders_spec _ _ _ _ _ _ _ (co_assets _ Hd3) (co_funds _ Hd3) H4) as [F4 L4].
  split; [|by apply (chain_clock_market _ d _ E3 L4)]. etransitivity; [exact F2|]. by etransitivity.
Qed.

Lemma position_chain d d0 d' : clock d = clock d0 → position_frame d d' → chain_ok d → chain_ok d' ∧ clock d' = clock d0.
Proof using Type.
  intros Ec [S _ P3 P4] [B1 B2 B3 B4 B5 B6]. pose proof (clock_setting _ _ S) as E. destruct S as (A1 & _ & _ & A4 & A5). split; [|by rewrite E]. split.
  - unfold assets_ok. by rewrite A1.
  - by rewrite A5.
  - unfold funds_ok. by rewrite P3.
  - by apply P4.
  - unfold modern, next_maintenance_time in *. by rewrite A4.
  - unfold linked, link_ok, bitasset_of. by rewrite A1, P3.
Qed.

Lemma call_order_update_spec d op d' :
  chain_ok d → backing_of d op.(cou_delta_debt).(asset_id) = Some op.(cou_delta_collateral).(asset_id) →
  call_order_update_do_apply d op = Ok d' → conserves d d' ∧ chain_ok d' ∧ clock d' = clock d.
Proof using Type.
  intros Hd Hback H. unfold call_order_update_do_apply in H.
  apply bind_Ok in H as (o & Ho & H). apply bind_Ok in H as (b & _ & H). apply bind_Ok in H as (d2 & H2 & H). apply bind_Ok in H as ([d3 r] & H3 & H).
  destruct (move_delta_spec _ _ _ _ (co_assets _ Hd) Ho H2) as [F2 A2]. apply market_of_step in A2.
  destruct (chain_clock_market _ d _ eq_refl A2 Hd) as [Hd2 E2].
  apply update_position_spec in H3 as [F3 P3]; [|by apply (co_backed _ Hd2)|by rewrite (mf_backing _ _ A2)].
  destruct (position_chain _ d _ E2 P3 Hd2) as [Hd3 E3].
  assert (conserves d d3) as F by (eapply flow_ext; [exact (flow_trans _ _ _ _ _ F2 F3)|]; intros a; cbn beta; lia).
  destruct r as [[id old]|]; [|by injection H as <-]. destruct (bd_is_prediction_market b); [by injection H as <-|].
  apply bind_Ok in H as ([d4 called] & H4 & H). enough (d' = d4) as ->.
  { apply check_call_orders_spec in H4 as [F4 L4]; [|by apply (co_assets _ Hd3)|by apply (co_funds _ Hd3)].
    split; [by etransitivity|by apply (chain_clock_market _ d _ E3 L4)]. }
  destruct called; [by apply bind_Ok in H as (? & _ & [= ->])|]. do 2 apply bind_Ok in H as (? & _ & H). by injection H as ->.
Qed.

Lemma cancel_bid_chain d id vop d' : cancel_bid d id vop = Ok d' → chain_ok d → chain_ok d' ∧ clock d' = clock d.
Proof using Type.
  intros H Hd. apply cancel_bid_spec in H as Hs. destruct Hs as [_ [S _ _ _]]. split; [|by apply clock_setting].
  unfold cancel_bid in H. apply bind_Ok in H as (b & _ & H). apply bind_Ok in H as (d1 & H1 & H). cbv zeta in H.
  apply (chain_market _ _ (market_of_step _ _ (accounts (P:=_ = Ok _) H1))) in Hd.
  unfold remove_bid in H. apply bind_Ok in H as (i & _ & [= <-]). destruct Hd. by destruct vop; split.
Qed.

Lemma bid_collateral_spec d op d' :
  chain_ok d → bid_collateral_do_apply d op = Ok d' → conserves d d' ∧ chain_ok d' ∧ clock d' = clock d.
Proof using Type.
  intros Hd H. unfold bid_collateral_do_apply in H. apply bind_Ok in H as (d2 & H2 & H).
  assert (conserves d d2 ∧ chain_ok d2 ∧ clock d2 = clock d) as (F2 & Hd2 & E2).
  { destruct (find_bid _ _ _) as [[k b]|]; [|injection H2 as <-; split; [apply flow_refl|done]].
    split; [by apply cancel_bid_spec in H2 as []|by apply (cancel_bid_chain _ _ _ _ H2)]. }
  destruct (_ =? 0); [by injection H as <-|]. apply bind_Ok in H as (d3 & H3 & H). apply bind_Ok in H as (p & Hp & H).
  apply bind_Ok in H as ([d4 k] & H4 & [= <-]). unfold create_bid in H4. apply bind_Ok in H4 as (? & _ & H4).
  apply bind_Ok in H4 as ([k' i] & Hi & [= <- <-]). pose proof (accounts (P:=_ = Ok _) H3) as A3. apply flows in H3.
  pose proof (flow_index_create d_collateral_bids _ (λ b, b.(cb_inv_swan_price).(base)) flow_collateral_bids d3 _ _ _ Hi) as F4.
  unfold make_price in Hp. apply bind_Ok in Hp as (? & _ & [= <-]). split.
  - eapply flow_ext; [exact (flow_trans _ _ _ _ _ F2 (flow_trans _ _ _ _ _ H3 F4))|]. intros a. cbn. lia.
  - destruct (chain_clock_market _ d _ E2 (market_of_step _ _ A3) Hd2) as [[A B C D E] E3]. split; [by split|exact E3].
Qed.

#[export] Instance limit_order_cancel_conserving : Conserving limit_order_cancel_operation.
Proof. open_conserving. by apply (limit_order_cancel_spec _ _ _ (fee_chain_ok _ _ Hst Ha) H). Qed.
#[export] Instance limit_order_cancel_steady : Steady limit_order_cancel_operation.
Proof. open_conserving. by apply (limit_order_cancel_spec _ _ _ (fee_chain_ok _ _ Hst Ha) H). Qed.

Lemma call_order_update_fee_backing d d1 op :
  same_but_fees d d1 → call_order_update_do_evaluate d op = Ok tt →
  backing_of d1 op.(cou_delta_debt).(asset_id) = Some op.(cou_delta_collateral).(asset_id).
Proof using Type. intros (m1 & m2 & -> & _) H. exact (call_order_update_backing _ _ H). Qed.
#[export] Instance call_order_update_conserving : Conserving call_order_update_operation.
Proof. open_conserving. by apply (call_order_update_spec _ _ _ (fee_chain_ok _ _ Hst Ha) (call_order_update_fee_backing _ _ _ Hst Heval) H). Qed.
#[export] Instance call_order_update_steady : Steady call_order_update_operation.
Proof. open_conserving. by apply (call_order_update_spec _ _ _ (fee_chain_ok _ _ Hst Ha) (call_order_update_fee_backing _ _ _ Hst Heval) H). Qed.

#[export] Instance bid_collateral_conserving : Conserving bid_collateral_operation.
Proof. open_conserving. by apply (bid_collateral_spec _ _ _ (fee_chain_ok _ _ Hst Ha) H). Qed.
#[export] Instance bid_collateral_steady : Steady bid_collateral_operation.
Proof. open_conserving. by apply (bid_collateral_spec _ _ _ (fee_chain_ok _ _ Hst Ha) H). Qed.
End conserving.

(** ** A new order *)
Lemma prepare_fee_nonneg d p f c : prepare_fee d p f = Ok c → 0 ≤ f.(amount) ∧ 0 ≤ c ∧ (f.(asset_id) = CORE → c = f.(amount)).
Proof.
  intros H. destruct (prepare_fee_Ok _ _ _ _ H) as [H0 Hcore]. split; [done|]. split; [|done]. unfold prepare_fee in H.
  apply bind_Ok in H as (? & _ & H). apply bind_Ok in H as (a & _ & H). apply bind_Ok in H as (s & _ & H). apply bind_Ok in H as (fa & _ & H).
  apply bind_Ok in H as (dd & _ & H). apply bind_Ok in H as (? & _ & H). destruct (_ =? CORE); [injection H as <-; lia|].
  apply bind_Ok in H as (r & Hx & H). do 2 apply bind_Ok in H as (? & _ & H). injection H as <-.
  apply (λ H, asset_mul_out _ _ _ (or_introl H)) in Hx. unfold amount_out in Hx. lia.
Qed.

(** What the fee brings into the books before the order is there, and what the order keeps of it. *)
Lemma deferred_spec st d f payer c d1 d2 fee paid :
  assets_ok d → skip_fee st = false → 0 ≤ f.(amount) → 0 ≤ c → (f.(asset_id) = CORE → c = f.(amount)) →
  limit_order_create_convert_fee st d f c = Ok d1 → limit_order_create_pay_fee st d1 payer f c = Ok (d2, fee, paid) →
  account_step d d2 ∧ 0 ≤ fee ∧ 0 ≤ paid.(amount) ∧
  flow d d2 (λ a, of_asset a f - core_only a fee - of_asset a paid).
Proof.
  intros Ha Hst Hf Hc Hcore H1 H2. unfold limit_order_create_convert_fee in H1. unfold limit_order_create_pay_fee in H2.
  assert (account_step d d1 ∧ head_block_time d1 = head_block_time d) as [A1 T1].
  { assert (account_step d d1) as A.
    { destruct (_ <=? _); unfold convert_fee in H1; rewrite Hst in H1; (destruct (_ =? CORE); [injection H1 as <-; reflexivity|]);
        apply bind_Ok in H1 as (fa & _ & H1); exact (accounts (P:=_ = Ok _) H1). }
    split; [done|]. apply setting_of_step in A as (_ & _ & _ & E & _). unfold head_block_time. by rewrite E. }
  rewrite T1 in H2. destruct (Z.leb_spec (head_block_time d) HARDFORK_CORE_604_TIME) as [L|L].
  - destruct (convert_fee_flow _ _ _ _ _ Ha Hst H1 Hcore) as [F1 _]. destruct (_ <=? HARDFORK_445_TIME).
    + apply bind_Ok in H2 as (d3 & H3 & [= <- <- <-]). destruct (pay_fee_flow _ _ _ _ _ Hst H3) as [F3 _].
      split; [|split; [lia|split; [cbn; lia|]]].
      * unfold pay_fee in H3. rewrite Hst in H3. etransitivity; [exact A1|exact (accounts (P:=_ = Ok _) H3)].
      * eapply flow_ext; [exact (flow_trans _ _ _ _ _ F1 F3)|]. flow_arith.
    + rewrite (proj2 (Z.ltb_ge _ _) L) in H2. injection H2 as <- <- <-. split; [done|]. split; [done|]. split; [cbn; lia|].
      eapply flow_ext; [exact F1|]. flow_arith.
  - rewrite Hst in H1. destruct (Z.leb_spec (head_block_time d) HARDFORK_445_TIME); [unfold HARDFORK_CORE_604_TIME, HARDFORK_445_TIME in *; lia|].
    rewrite (proj2 (Z.ltb_lt _ _) L) in H2. destruct (Z.eqb_spec f.(asset_id) CORE) as [E|E]; injection H2 as <- <- <-.
    + injection H1 as <-. split; [done|]. split; [done|]. split; [cbn; lia|]. specialize (Hcore E).
      eapply flow_ext; [apply flow_refl|]. flow_arith.
    + split; [done|]. split; [done|]. split; [done|]. apply bind_Ok in H1 as (fa & _ & H1).
      eapply flow_ext; [eapply flow_modify_dynamic_data with (x := λ a, - core_only a c); [exact H1|solve_dyn]|]. flow_arith.
Qed.

(** ** Matching conserves value in any market

    Without what makes the book well formed: enough for the operations that follow. *)
Record traded (d d' : database) : Prop := {
  td_conserves : conserves d d';
  td_setting : same_setting d d';
  td_bitasset : d'.(d_bitasset_data) = d.(d_bitasset_data);
  td_positions : positions_kept d d' }.
#[export] Instance traded_preorder : PreOrder traded.
Proof.
  split; [intros d; split; [apply flow_refl|reflexivity..]|]. intros d1 d2 d3 [A1 A2 A3 A4] [B1 B2 B3 B4].
  split; [by etransitivity|by etransitivity|congruence|by etransitivity].
Qed.
Lemma traded_chain d d' : traded d d' → chain_ok d → chain_ok d'.
Proof.
  intros [A1 A2 A3 A4] [B1 B2 B3 B4 B5 B6]. destruct (same_bitassets _ _ A3 A2) as (F & L & G).
  split; [by apply (setting_assets _ _ A2)| |auto| | |by apply L].
  - by destruct A2 as (_ & _ & _ & _ & ->).
  - intros k c' Hk. destruct (A4 _ _ Hk) as (c & Hc & -> & ->). rewrite G. by apply (B4 k).
  - destruct A2 as (_ & _ & _ & E & _). unfold modern, next_maintenance_time in *. by rewrite E.
Qed.
Lemma traded_clock d d0 d' : clock d = clock d0 → traded d d' → chain_ok d → chain_ok d' ∧ clock d' = clock d0.
Proof. intros E T Hd. split; [by apply (traded_chain _ _ T)|]. by rewrite (clock_setting _ _ (td_setting _ _ T)). Qed.
Lemma traded_limit id d d' : conserves d d' → limit_frame id d d' → traded d d'.
Proof. intros C [L1 L2 L3 L4 L5 L6]. split; [done|done|done|by apply positions_same]. Qed.

Section matching.
Context (cf : Z).

Lemma match_limit_traded d u c p d' r :
  chain_ok d → u ≠ c → match_limit cf d u c p = Ok (d', r) → traded d d'.
Proof using Type.
  intros [Ha _ _ _ Hm] Hne H. destruct (match_limit_spec _ _ _ _ _ _ _ Ha (or_introl Hm) H Hne) as (F & B & E & _).
  split; [done|apply B|apply B|by apply positions_same].
Qed.
Lemma match_call_traded d u c mp fp mcr d' r :
  chain_ok d → match_call cf d u c mp fp mcr = Ok (d', r) → traded d d'.
Proof using Type.
  intros [Ha _ _ _ Hm] H. destruct (match_call_spec _ _ _ _ _ _ _ _ _ Ha H) as (F & B & _). split; [done|apply B|apply B|].
  unfold match_call in H. apply bind_Ok in H as (ou & Hu & H). apply bind_Ok in H as (oc & Hc & H).
  do 3 apply bind_Ok in H as (? & _ & H). apply bind_Ok in H as (buy & _ & H). apply bind_Ok in H as (am & Ham & H).
  destruct am as [[[recv paid] cull]|]; [|by injection H as <- <-]. pose proof (call_amounts_out _ _ _ _ _ _ _ Ham) as Hx.
  apply bind_Ok in H as ([d1 b1] & H1 & H). apply bind_Ok in H as ([d2 b2] & H2 & [= <- <-]).
  destruct (fill_limit_order_spec _ _ _ _ _ _ _ _ _ _ Ha Hx H1) as (_ & L1 & _).
  etransitivity; [apply positions_same, L1|]. eapply fill_call_positions; [by eapply limit_frame_step|exact H2].
Qed.

Lemma match_limits_traded keep id l d d' b r :
  chain_ok d → id ∉ l → match_limits cf keep d id l = Ok (d', b, r) → traded d d'.
Proof using Type.
  revert d. induction l as [|k l IH]; intros d Hd Hid H; cbn [match_limits] in H; [by injection H as <- <- <-|].
  apply bind_Ok in H as (o & _ & H). destruct (keep o); [|by injection H as <- <- <-].
  apply bind_Ok in H as ([d1 r1] & H1 & H). apply match_limit_traded in H1; [|done|set_solver].
  destruct (r1 =? 2); [|by injection H as <- <- <-]. etransitivity; [exact H1|]. apply IH; [by eapply traded_chain|set_solver|done].
Qed.

Lemma match_limits_rest keep id l d d' b r : match_limits cf keep d id l = Ok (d', b, r) → suffix r l.
Proof using Type.
  revert d. induction l as [|k l IH]; intros d H; cbn [match_limits] in H; [by injection H as <- <- <-|].
  apply bind_Ok in H as (o & _ & H). destruct (keep o); [|by injection H as <- <- <-].
  apply bind_Ok in H as ([d1 r1] & _ & H). destruct (r1 =? 2); [apply IH in H; by apply suffix_cons_r|].
  injection H as <- <- <-. by apply suffix_cons_r.
Qed.

Lemma call_rounds_traded n id a b mp f d r :
  chain_ok d → while_loop n (call_round cf id a b mp f) d = Ok (inr r) → traded d r.1.
Proof using Type.
  intros Hd H. apply (while_inv _ (traded d) (λ x, traded d x.1)) in H; [done| |reflexivity].
  intros s x Ht Hx. unfold call_round in Hx. apply bind_Ok in Hx as (lo & _ & Hx). destruct (range _ _ _) as [|[k c] l]; [by injection Hx as <-|].
  destruct (orb _ _); [by injection Hx as <-|]. apply bind_Ok in Hx as ([d1 r1] & H1 & Hx).
  apply match_call_traded in H1; [|by eapply traded_chain]. assert (traded d d1) by (by etransitivity). by destruct (orb _ _); injection Hx as <-.
Qed.

Lemma opposite_without d s l id o :
  opposite d s = Ok l → get_limit_order d id = Ok o → o.(lo_sell_price) = s → id ∉ l.
Proof using Type.
  intros H Ho Es Hin. destruct (elem_of_opposite _ _ _ id H) as [Hne Hin']. destruct (Hin' Hin) as (o' & Ho' & _ & E1 & _).
  apply index_get_Ok in Ho. replace o' with o in * by congruence. unfold sell_asset_id in E1. congruence.
Qed.

Lemma apply_order_traded d id d' b : chain_ok d → apply_order cf d id = Ok (d', b) → traded d d'.
Proof using Type.
  intros Hd H. unfold apply_order in H. apply bind_Ok in H as (o & Ho & H). cbv zeta in H.
  destruct (negb _); [by injection H as <- <-|]. apply bind_Ok in H as (l & Hl & H). apply bind_Ok in H as (calls & _ & H).
  apply bind_Ok in H as ([[d1 fin] rest] & H1 & H). apply bind_Ok in H as (d2 & H2 & H).
  pose proof (opposite_without _ _ _ _ _ Hl Ho eq_refl) as Hid.
  assert (traded d d1 ∧ id ∉ rest) as [T1 Hrest].
  { destruct calls as [[mp f]|]; [|by injection H1 as <- <- <-]. apply bind_Ok in H1 as ([[d3 fin3] rest3] & H3 & H1).
    pose proof (match_limits_traded _ _ _ _ _ _ _ Hd Hid H3) as T3. apply match_limits_rest in H3 as [pre ->].
    destruct fin3; [injection H1 as <- <- <-; split; [done|set_solver]|].
    apply bind_Ok in H1 as (r & H4 & H1). apply bind_Ok in H1 as ([d4 fin4] & H5 & [= <- <- <-]).
    destruct r as [|[d4' fin4']]; [done|]. injection H5 as -> ->.
    apply call_rounds_traded in H4; [|by eapply traded_chain]. split; [by etransitivity|set_solver]. }
  assert (traded d d2) as T2.
  { destruct fin; [by injection H2 as <-|]. apply bind_Ok in H2 as ([[d3 f] r] & H2 & [= ->]). etransitivity; [exact T1|].
    eapply match_limits_traded; [by eapply traded_chain|exact Hrest|exact H2]. }
  etransitivity; [exact T2|]. unfold settle_new_order in H. destruct (_ !! _); [|by injection H as <- <-].
  apply maybe_cull_spec in H as (F & L & _); [by eapply traded_limit|]. by apply (traded_chain _ _ T2 Hd).
Qed.
End matching.

Section create.
Context {fs : FeeSchedule}.

(** Placing the order and matching it are two steps. *)
Lemma limit_order_placed d op fee paid d' :
  modern d → 0 ≤ fee → 0 ≤ paid.(amount) → limit_order_create_do_apply d op fee paid = Ok d' →
  let sell := op.(loc_amount_to_sell) in let id := d.(d_limit_orders).(next_id) in
  let o := LimitOrder op.(loc_expiration) op.(loc_seller) sell.(amount) (Price sell op.(loc_min_to_receive)) fee paid in
  ∃ d2 filled, let d3 := d2 <| d_limit_orders := Index (<[id := o]> d2.(d_limit_orders).(objs)) (id + 1) |> in
    account_step d d2 ∧ flow d d3 (λ a, core_only a fee + of_asset a paid) ∧ get_limit_order d3 id = Ok o ∧
    apply_order limit_order_cancel_fee d3 id = Ok (d', filled) ∧ (op.(loc_fill_or_kill) = true → filled = true).
Proof using Type.
  intros Hmod Hfee Hpaid H. unfold limit_order_create_do_apply in H. cbv zeta in *.
  apply bind_Ok in H as (d1 & H1 & H). apply bind_Ok in H as (d2 & H2 & H). apply bind_Ok in H as (p & Hp & H).
  unfold make_price in Hp. apply bind_Ok in Hp as (? & _ & [= <-]). apply bind_Ok in H as ([id i] & Hi & H).
  assert (account_step d d2) as A by (etransitivity; [exact (accounts (P:=_ = Ok _) H1)|exact (accounts (P:=_ = Ok _) H2)]).
  apply flows in H1. apply flows in H2. pose proof (market_of_step _ _ A) as M. pose proof (books_of_step _ _ A) as (En & _).
  apply index_create_Ok in Hi as (-> & Hn & ->). rewrite <-En. set (o := LimitOrder _ _ _ _ _ _) in *.
  set (d3 := d2 <| d_limit_orders := _ |>) in *.
  assert (flow d2 d3 (λ a, of_asset a op.(loc_amount_to_sell) + core_only a fee + of_asset a paid)) as F3.
  { apply flow_limit_orders; [intros Hok; apply map_Forall_insert_2; [by split|done]|].
    intros a. rewrite isum_create by done. cbn. unfold limit_held, amount_for_sale, sell_asset_id. cbn. flow_arith. }
  apply bind_Ok in H as ([d4 filled] & H4 & H). apply bind_Ok in H as (u & Hu & [= <-]). apply FC_ASSERT_Ok in Hu.
  assert (next_maintenance_time d3 = next_maintenance_time d) as Et.
  { destruct (mf_setting _ _ M) as (_ & _ & _ & E & _). unfold next_maintenance_time. cbn. by rewrite E. }
  rewrite (proj2 (Z.leb_gt _ _)) in H4 by (rewrite Et; unfold modern, HARDFORK_CORE_342_TIME, HARDFORK_CORE_625_TIME in *; lia).
  exists d2, filled. split; [exact A|]. split.
  { eapply flow_ext; [exact (flow_trans _ _ _ _ _ (flow_trans _ _ _ _ _ H1 H2) F3)|]. intros a. cbn beta. lia. }
  split; [apply index_get_Ok; cbn; apply lookup_insert_eq|]. split; [exact H4|]. intros E. by rewrite E in Hu.
Qed.

Lemma limit_order_create_do_apply_spec d op fee paid d' :
  market_ok d → limit_order_create_validate op = Ok tt → op.(loc_amount_to_sell).(amount) ≤ int64_max → op.(loc_min_to_receive).(amount) ≤ int64_max →
  0 ≤ fee → 0 ≤ paid.(amount) → limit_order_create_do_apply d op fee paid = Ok d' →
  market_ok d' ∧ flow d d' (λ a, core_only a fee + of_asset a paid) ∧
  (op.(loc_fill_or_kill) = true → d'.(d_limit_orders).(objs) !! d.(d_limit_orders).(next_id) = None).
Proof using Type.
  intros Hm Hval Hs Hr Hfee Hpaid H. unfold limit_order_create_validate in Hval.
  apply bind_Ok in Hval as (u1 & V1 & Hval). apply bind_Ok in Hval as (u2 & _ & Hval). apply bind_Ok in Hval as (u3 & V3 & V4).
  apply FC_ASSERT_Ok in V1, V3, V4. apply negb_true_iff, Z.eqb_neq in V1. apply Z.ltb_lt in V3, V4.
  destruct (limit_order_placed _ _ _ _ _ (mk_modern _ Hm) Hfee Hpaid H) as (d2 & filled & A & F3 & Ho & H4 & Hu). clear H.
  pose proof (market_ok_step _ _ A Hm) as [M1 M2 M3 M4 M5]. set (d3 := d2 <| d_limit_orders := _ |>) in *.
  assert (market_ok d3) as Hm3.
  { split; [exact M1|exact M2| |exact M4|exact M5]. apply map_Forall_insert_2; [|exact M3].
    split; [split; [unfold wf_price; cbn; lia|done]|unfold amount_in; cbn; lia]. }
  destruct (apply_order_spec _ _ _ _ _ _ Hm3 Ho H4) as (Hm4 & F4 & Hb & _). split; [done|]. split.
  - eapply flow_ext; [exact (flow_trans _ _ _ _ _ F3 F4)|]. intros a. cbn beta. lia.
  - intros Ek. rewrite (Hu Ek) in Hb. symmetry in Hb. unfold limit_gone in Hb. by apply bool_decide_eq_true in Hb.
Qed.

Lemma limit_order_create_spec st req d op d' :
  skip_fee st = false → market_ok d → op.(loc_amount_to_sell).(amount) ≤ int64_max → op.(loc_min_to_receive).(amount) ≤ int64_max →
  limit_order_create_start_evaluate st req d op = Ok d' →
  market_ok d' ∧ conserves d d' ∧ (op.(loc_fill_or_kill) = true → d'.(d_limit_orders).(objs) !! d.(d_limit_orders).(next_id) = None).
Proof using Type.
  intros Hst Hm Hs Hr H. unfold limit_order_create_start_evaluate, evaluate, limit_order_create_apply in H.
  apply bind_Ok in H as ([] & Hval & H). apply bind_Ok in H as (c & He & H).
  apply bind_Ok in He as (c' & Hp & He). apply bind_Ok in He as (? & _ & He). apply bind_Ok in He as ([] & _ & [= ->]).
  apply bind_Ok in H as (d1 & H1 & H). apply bind_Ok in H as ([[d2 fee] paid] & H2 & H). apply bind_Ok in H as (d3 & H3 & H4).
  apply prepare_fee_nonneg in Hp as (P1 & P2 & P3).
  destruct (deferred_spec _ _ _ _ _ _ _ _ _ (mk_assets _ Hm) Hst P1 P2 P3 H1 H2) as (A & Q1 & Q2 & F2).
  destruct (limit_order_create_do_apply_spec _ _ _ _ _ (market_ok_step _ _ A Hm) Hval Hs Hr Q1 Q2 H3) as (Hm3 & F3 & K).
  pose proof (accounts (P:=_ = Ok _) H4) as A4. apply flows in H4. split; [by apply (market_ok_step _ _ A4)|]. split.
  - unfold conserves. eapply flow_ext; [exact (flow_trans _ _ _ _ _ F2 (flow_trans _ _ _ _ _ F3 H4))|]. intros a. cbn. lia.
  - intros Ek. apply books_of_step in A as (E & _). apply books_of_step in A4 as (E4 & _). rewrite E4, <-E. by apply K.
Qed.
End create.

(** C6. A new limit order goes through fee, funds and matching without creating or
    destroying value, with its fee deferred into the order or paid; the market stays
    well formed; and a fill-or-kill order that is accepted leaves nothing in the book. *)
Theorem limit_order_create_sound (cancel_fee : FeeSchedule) st req d op d'
  (Hst : skip_fee st = false) (Hm : market_ok d)
  (Hs : op.(loc_amount_to_sell).(amount) ≤ int64_max) (Hr : op.(loc_min_to_receive).(amount) ≤ int64_max)
  (H : limit_order_create_start_evaluate st req d op = Ok d') :
  market_ok d' ∧ conserves d d' ∧
  (op.(loc_fill_or_kill) = true → d'.(d_limit_orders).(objs) !! d.(d_limit_orders).(next_id) = None).
Proof. by eapply limit_order_create_spec. Qed.

Definition sample_order : limit_order_create_operation :=
  LimitOrderCreate (Asset 10 0) 7 (Asset 242 0) (Asset 200 2) 1700000000 true.

(** The order is filled at once by the order of account 6. *)
Lemma limit_order_create_sound_witness :
  let run := limit_order_create_start_evaluate (H := 5) (EvaluationState false false) 10 market_db sample_order in
  ∃ d', run = Ok d' ∧ market_ok d' ∧ conserves market_db d' ∧ d'.(d_limit_orders).(objs) !! 3 = None ∧
    (get_balance d' 7 2).(amount) = 230.
Proof.
  cbv zeta. destruct (limit_order_create_start_evaluate _ _ _ _) as [d'|e] eqn:E; [|exfalso; vm_compute in E; discriminate E].
  destruct (limit_order_create_sound 5 (EvaluationState false false) 10 market_db sample_order d' eq_refl market_db_ok
              ltac:(vm_compute; discriminate) ltac:(vm_compute; discriminate) E) as (Hm & Hc & Hk).
  exists d'. split; [reflexivity|]. split; [exact Hm|]. split; [exact Hc|]. split; [exact (Hk eq_refl)|].
  vm_compute in E. injection E as <-. vm_compute. reflexivity.
Defined.
