(* ===== verification/AssetOps.v ===== *)
(** * The operations on assets

    [protocol/asset_ops.cpp] and [asset_evaluator.cpp]: issuing and reserving,
    the pool of fees and the fees collected, the options of an asset and of a
    bitasset, the producers of its feed and what they publish, and the settlement of
    the asset, by its issuer or by who holds it.  The description of an asset and the
    extensions of the options have no effect and are left out. *)
From stdpp Require Import sorting.
From S2P Require Import Prelude Safe Asset Authority Objects Pricing Database Ledger Vesting Balance Evaluator Sample Referral Cursor Market Fills Margin Settle Book Rounds Settlement Clearing Feeds MarketOps.

(** ** Options *)
Definition disable_force_settle : Z := 16.
Definition global_settle : Z := 32.
Definition witness_fed_asset : Z := 128.
Definition committee_fed_asset : Z := 256.
Definition ASSET_ISSUER_PERMISSION_MASK : Z := 511.
(** [flags & mask] as a condition. *)
Definition flag_set (flags mask : Z) : bool := negb (Z.land flags mask =? 0).

Definition can_force_settle (a : asset_object) : bool := negb (flag_set a.(ao_flags) disable_force_settle).
Definition can_global_settle (a : asset_object) : bool := flag_set a.(ao_issuer_permissions) global_settle.

Record asset_options : Type := AssetOptions {
  aop_max_supply : Z;
  aop_market_fee_percent : Z;
  aop_max_market_fee : Z;
  aop_issuer_permissions : Z;
  aop_flags : Z;
  aop_core_exchange_rate : price;
  aop_whitelist_authorities : gset Z;
  aop_blacklist_authorities : gset Z;
  aop_whitelist_markets : gset Z;
  aop_blacklist_markets : gset Z }.

(** [a.options = o]; the percentage has sixteen bits. *)
Definition set_options (a : asset_object) (o : asset_options) : asset_object :=
  a <| ao_max_supply := o.(aop_max_supply) |> <| ao_market_fee_percent := u16 o.(aop_market_fee_percent) |>
    <| ao_max_market_fee := o.(aop_max_market_fee) |> <| ao_issuer_permissions := o.(aop_issuer_permissions) |>
    <| ao_flags := o.(aop_flags) |> <| ao_core_exchange_rate := o.(aop_core_exchange_rate) |>
    <| ao_whitelist_authorities := o.(aop_whitelist_authorities) |> <| ao_blacklist_authorities := o.(aop_blacklist_authorities) |>
    <| ao_whitelist_markets := o.(aop_whitelist_markets) |> <| ao_blacklist_markets := o.(aop_blacklist_markets) |>.

Definition asset_options_validate (o : asset_options) : result unit :=
  _ ← FC_ASSERT (0 <? o.(aop_max_supply));
  _ ← FC_ASSERT (o.(aop_max_supply) <=? GRAPHENE_MAX_SHARE_SUPPLY);
  _ ← FC_ASSERT (u16 o.(aop_market_fee_percent) <=? GRAPHENE_100_PERCENT);
  _ ← FC_ASSERT ((0 <=? o.(aop_max_market_fee)) && (o.(aop_max_market_fee) <=? GRAPHENE_MAX_SHARE_SUPPLY));
  _ ← FC_ASSERT (Z.land o.(aop_issuer_permissions) (Z.lnot ASSET_ISSUER_PERMISSION_MASK) =? 0);
  _ ← FC_ASSERT (negb (flag_set o.(aop_flags) global_settle));
  _ ← FC_ASSERT (negb (Z.land o.(aop_flags) (Z.lor witness_fed_asset committee_fed_asset) =? Z.lor witness_fed_asset committee_fed_asset));
  _ ← price_validate o.(aop_core_exchange_rate);
  _ ← FC_ASSERT ((o.(aop_core_exchange_rate).(base).(asset_id) =? 0) || (o.(aop_core_exchange_rate).(quote).(asset_id) =? 0));
  _ ← (if bool_decide (o.(aop_whitelist_authorities) ≠ ∅) || bool_decide (o.(aop_blacklist_authorities) ≠ ∅)
       then FC_ASSERT (flag_set o.(aop_flags) white_list) else Ok tt);
  FC_ASSERT (bool_decide (o.(aop_whitelist_markets) ## o.(aop_blacklist_markets))).

Definition bitasset_options_validate (o : bitasset_options) : result unit :=
  _ ← FC_ASSERT (0 <? o.(bo_minimum_feeds));
  _ ← FC_ASSERT (o.(bo_force_settlement_offset_percent) <=? GRAPHENE_100_PERCENT);
  FC_ASSERT (o.(bo_maximum_force_settlement_volume) <=? GRAPHENE_100_PERCENT).

(** [asset_object::validate]. *)
Definition asset_object_validate (a : asset_object) : result unit :=
  if is_market_issued a then Ok tt
  else
    _ ← FC_ASSERT (negb (flag_set a.(ao_flags) disable_force_settle || flag_set a.(ao_flags) global_settle));
    FC_ASSERT (negb (flag_set a.(ao_issuer_permissions) disable_force_settle || flag_set a.(ao_issuer_permissions) global_settle)).

Definition dynamic_data (d : database) (a : asset_object) : result asset_dynamic_data_object :=
  get_dynamic_data d a.(ao_dynamic_asset_data_id).

(** ** asset_issue *)
Record asset_issue_operation : Type := AssetIssue {
  ai_fee : asset;
  ai_issuer : Z;
  ai_asset_to_issue : asset;
  ai_issue_to_account : Z;
  ai_memo : option (list Byte.byte) }.
Definition asset_issue_validate (o : asset_issue_operation) : result unit :=
  _ ← FC_ASSERT (0 <=? o.(ai_fee).(amount));
  _ ← FC_ASSERT (o.(ai_asset_to_issue).(amount) <=? GRAPHENE_MAX_SHARE_SUPPLY);
  _ ← FC_ASSERT (0 <? o.(ai_asset_to_issue).(amount));
  FC_ASSERT (negb (o.(ai_asset_to_issue).(asset_id) =? 0)).
Definition asset_issue_do_evaluate (d : database) (o : asset_issue_operation) : result unit :=
  a ← get_asset d o.(ai_asset_to_issue).(asset_id);
  _ ← FC_ASSERT (o.(ai_issuer) =? a.(ao_issuer));
  _ ← FC_ASSERT (negb (is_market_issued a));
  to_account ← get_account d o.(ai_issue_to_account);
  _ ← FC_ASSERT (is_authorized_asset d to_account o.(ai_asset_to_issue).(asset_id) a);
  dyn ← dynamic_data d a;
  s ← safe_add dyn.(dd_current_supply) o.(ai_asset_to_issue).(amount);
  FC_ASSERT (s <=? a.(ao_max_supply)).
Definition asset_issue_do_apply (d : database) (o : asset_issue_operation) : result database :=
  a ← get_asset d o.(ai_asset_to_issue).(asset_id);
  d1 ← adjust_balance d o.(ai_issue_to_account) o.(ai_asset_to_issue);
  modify_dynamic_data d1 a.(ao_dynamic_asset_data_id) (λ x,
    s ← safe_add x.(dd_current_supply) o.(ai_asset_to_issue).(amount); Ok (x <| dd_current_supply := s |>)).
#[export] Instance asset_issue_evaluator : Evaluator asset_issue_operation := {
  fee_payer := ai_issuer; fee := ai_fee; validate := asset_issue_validate;
  do_evaluate := asset_issue_do_evaluate; do_apply := asset_issue_do_apply }.

(** ** asset_reserve *)
Record asset_reserve_operation : Type := AssetReserve {
  are_fee : asset;
  are_payer : Z;
  are_amount_to_reserve : asset }.
Definition asset_reserve_validate (o : asset_reserve_operation) : result unit :=
  _ ← FC_ASSERT (0 <=? o.(are_fee).(amount));
  _ ← FC_ASSERT (o.(are_amount_to_reserve).(amount) <=? GRAPHENE_MAX_SHARE_SUPPLY);
  FC_ASSERT (0 <? o.(are_amount_to_reserve).(amount)).
Definition asset_reserve_do_evaluate (d : database) (o : asset_reserve_operation) : result unit :=
  a ← get_asset d o.(are_amount_to_reserve).(asset_id);
  _ ← GRAPHENE_ASSERT (negb (is_market_issued a)) asset_reserve_invalid_on_mia;
  from_account ← get_account d o.(are_payer);
  _ ← FC_ASSERT (is_authorized_asset d from_account o.(are_amount_to_reserve).(asset_id) a);
  dyn ← dynamic_data d a;
  s ← safe_sub dyn.(dd_current_supply) o.(are_amount_to_reserve).(amount);
  FC_ASSERT (0 <=? s).
Definition asset_reserve_do_apply (d : database) (o : asset_reserve_operation) : result database :=
  a ← get_asset d o.(are_amount_to_reserve).(asset_id);
  d1 ← debit d o.(are_payer) o.(are_amount_to_reserve);
  sub_supply d1 a.(ao_dynamic_asset_data_id) o.(are_amount_to_reserve).(amount).
#[export] Instance asset_reserve_evaluator : Evaluator asset_reserve_operation := {
  fee_payer := are_payer; fee := are_fee; validate := asset_reserve_validate;
  do_evaluate := asset_reserve_do_evaluate; do_apply := asset_reserve_do_apply }.

(** ** asset_fund_fee_pool *)
Record asset_fund_fee_pool_operation : Type := AssetFundFeePool {
  aff_fee : asset;
  aff_from_account : Z;
  aff_asset_id : Z;
  aff_amount : Z }.
Definition asset_fund_fee_pool_validate (o : asset_fund_fee_pool_operation) : result unit :=
  _ ← FC_ASSERT (0 <=? o.(aff_fee).(amount));
  _ ← FC_ASSERT (o.(aff_fee).(asset_id) =? CORE);
  FC_ASSERT (0 <? o.(aff_amount)).
Definition asset_fund_fee_pool_do_evaluate (d : database) (o : asset_fund_fee_pool_operation) : result unit :=
  a ← get_asset d o.(aff_asset_id);
  _ ← dynamic_data d a;
  Ok tt.
Definition asset_fund_fee_pool_do_apply (d : database) (o : asset_fund_fee_pool_operation) : result database :=
  a ← get_asset d o.(aff_asset_id);
  d1 ← debit d o.(aff_from_account) (Asset o.(aff_amount) CORE);
  modify_dynamic_data d1 a.(ao_dynamic_asset_data_id) (λ x,
    p ← safe_add x.(dd_fee_pool) o.(aff_amount); Ok (x <| dd_fee_pool := p |>)).
#[export] Instance asset_fund_fee_pool_evaluator : Evaluator asset_fund_fee_pool_operation := {
  fee_payer := aff_from_account; fee := aff_fee; validate := asset_fund_fee_pool_validate;
  do_evaluate := asset_fund_fee_pool_do_evaluate; do_apply := asset_fund_fee_pool_do_apply }.

(** ** asset_claim_fees *)
Record asset_claim_fees_operation : Type := AssetClaimFees {
  acf_fee : asset;
  acf_issuer : Z;
  acf_amount_to_claim : asset }.
Definition asset_claim_fees_validate (o : asset_claim_fees_operation) : result unit :=
  _ ← FC_ASSERT (0 <=? o.(acf_fee).(amount));
  FC_ASSERT (0 <? o.(acf_amount_to_claim).(amount)).
Definition asset_claim_fees_do_evaluate (d : database) (o : asset_claim_fees_operation) : result unit :=
  _ ← FC_ASSERT (HARDFORK_413_TIME <? head_block_time d);
  a ← get_asset d o.(acf_amount_to_claim).(asset_id);
  FC_ASSERT (a.(ao_issuer) =? o.(acf_issuer)).
Definition asset_claim_fees_do_apply (d : database) (o : asset_claim_fees_operation) : result database :=
  a ← get_asset d o.(acf_amount_to_claim).(asset_id);
  addo ← dynamic_data d a;
  _ ← FC_ASSERT (o.(acf_amount_to_claim).(amount) <=? addo.(dd_accumulated_fees));
  d1 ← modify_dynamic_data d a.(ao_dynamic_asset_data_id) (λ x,
    f ← safe_sub x.(dd_accumulated_fees) o.(acf_amount_to_claim).(amount); Ok (x <| dd_accumulated_fees := f |>));
  adjust_balance d1 o.(acf_issuer) o.(acf_amount_to_claim).
#[export] Instance asset_claim_fees_evaluator : Evaluator asset_claim_fees_operation := {
  fee_payer := acf_issuer; fee := acf_fee; validate := asset_claim_fees_validate;
  do_evaluate := asset_claim_fees_do_evaluate; do_apply := asset_claim_fees_do_apply }.

(** ** asset_claim_pool *)
Record asset_claim_pool_operation : Type := AssetClaimPool {
  acp_fee : asset;
  acp_issuer : Z;
  acp_asset_id : Z;
  acp_amount_to_claim : asset }.
Definition asset_claim_pool_validate (o : asset_claim_pool_operation) : result unit :=
  _ ← FC_ASSERT (0 <=? o.(acp_fee).(amount));
  _ ← FC_ASSERT (negb (o.(acp_fee).(asset_id) =? o.(acp_asset_id)));
  _ ← FC_ASSERT (0 <? o.(acp_amount_to_claim).(amount));
  FC_ASSERT (o.(acp_amount_to_claim).(asset_id) =? CORE).
Definition asset_claim_pool_do_evaluate (d : database) (o : asset_claim_pool_operation) : result unit :=
  _ ← FC_ASSERT (HARDFORK_CORE_188_TIME <=? head_block_time d);
  a ← get_asset d o.(acp_asset_id);
  FC_ASSERT (a.(ao_issuer) =? o.(acp_issuer)).
Definition asset_claim_pool_do_apply (d : database) (o : asset_claim_pool_operation) : result database :=
  a ← get_asset d o.(acp_asset_id);
  addo ← dynamic_data d a;
  _ ← FC_ASSERT (o.(acp_amount_to_claim).(amount) <=? addo.(dd_fee_pool));
  d1 ← modify_dynamic_data d a.(ao_dynamic_asset_data_id) (λ x,
    p ← safe_sub x.(dd_fee_pool) o.(acp_amount_to_claim).(amount); Ok (x <| dd_fee_pool := p |>));
  adjust_balance d1 o.(acp_issuer) o.(acp_amount_to_claim).
#[export] Instance asset_claim_pool_evaluator : Evaluator asset_claim_pool_operation := {
  fee_payer := acp_issuer; fee := acp_fee; validate := asset_claim_pool_validate;
  do_evaluate := asset_claim_pool_do_evaluate; do_apply := asset_claim_pool_do_apply }.

(** ** asset_update_issuer *)
(** The asset that backs the asset that backs [a], or [a]'s backing when it is none. *)
Definition validate_new_issuer (d : database) (a : asset_object) (new_issuer : Z) : result unit :=
  _ ← (if HARDFORK_CORE_1482_BLOCK_NUM <? head_block_num d then
         new_issuer_obj ← get_account d new_issuer;
         FC_ASSERT (new_issuer_obj.(acc_membership_expiration_date) =? uint32_max)
       else Ok tt);
  if is_market_issued a && (new_issuer =? GRAPHENE_COMMITTEE_ACCOUNT) then
    b ← bitasset_data d a;
    let backing_id := b.(bd_options).(bo_short_backing_asset) in
    backing ← get_asset d backing_id;
    if is_market_issued backing then
      bb ← bitasset_data d backing;
      _ ← get_asset d bb.(bd_options).(bo_short_backing_asset);
      FC_ASSERT (bb.(bd_options).(bo_short_backing_asset) =? CORE)
    else FC_ASSERT (backing_id =? CORE)
  else Ok tt.

Record asset_update_issuer_operation : Type := AssetUpdateIssuer {
  aui_fee : asset;
  aui_issuer : Z;
  aui_asset_to_update : Z;
  aui_new_issuer : Z }.
Definition asset_update_issuer_validate (o : asset_update_issuer_operation) : result unit :=
  _ ← FC_ASSERT (0 <=? o.(aui_fee).(amount));
  FC_ASSERT (negb (o.(aui_issuer) =? o.(aui_new_issuer))).
Definition asset_update_issuer_do_evaluate (d : database) (o : asset_update_issuer_operation) : result unit :=
  a ← get_asset d o.(aui_asset_to_update);
  _ ← validate_new_issuer d a o.(aui_new_issuer);
  _ ← FC_ASSERT (o.(aui_issuer) =? a.(ao_issuer));
  FC_ASSERT (negb (head_block_time d <? HARDFORK_CORE_199_TIME)).
Definition asset_update_issuer_do_apply (d : database) (o : asset_update_issuer_operation) : result database :=
  modify_asset d o.(aui_asset_to_update) (λ a, Ok (a <| ao_issuer := o.(aui_new_issuer) |>)).
#[export] Instance asset_update_issuer_evaluator : Evaluator asset_update_issuer_operation := {
  fee_payer := aui_issuer; fee := aui_fee; validate := asset_update_issuer_validate;
  do_evaluate := asset_update_issuer_do_evaluate; do_apply := asset_update_issuer_do_apply }.

(** ** asset_update *)
Record asset_update_operation : Type := AssetUpdate {
  au_fee : asset;
  au_issuer : Z;
  au_asset_to_update : Z;
  au_new_issuer : option Z;
  au_new_options : asset_options }.
Definition asset_update_validate (o : asset_update_operation) : result unit :=
  _ ← FC_ASSERT (0 <=? o.(au_fee).(amount));
  _ ← match o.(au_new_issuer) with Some i => FC_ASSERT (negb (o.(au_issuer) =? i)) | None => Ok tt end;
  _ ← asset_options_validate o.(au_new_options);
  dummy ← asset_mul (Asset 1 o.(au_asset_to_update)) o.(au_new_options).(aop_core_exchange_rate);
  FC_ASSERT (dummy.(asset_id) =? CORE).

(** The accounts of a list exist. *)
Definition accounts_exist (d : database) (ids : gset Z) : result unit :=
  foldM (λ _ id, _ ← get_account d id; Ok tt) tt (elements ids).
Definition authorities_ok (d : database) (ids : gset Z) : result unit :=
  _ ← FC_ASSERT (Z.of_nat (size ids) <=? (parameters d).(cp_maximum_asset_whitelist_authorities));
  accounts_exist d ids.

Definition asset_update_do_evaluate (d : database) (o : asset_update_operation) : result unit :=
  a ← get_asset d o.(au_asset_to_update);
  _ ← asset_object_validate (set_options a o.(au_new_options));
  _ ← match o.(au_new_issuer) with
      | Some i => _ ← FC_ASSERT (head_block_time d <? HARDFORK_CORE_199_TIME); validate_new_issuer d a i
      | None => Ok tt
      end;
  restricted ← (if head_block_time d <? HARDFORK_572_TIME then Ok true
                else dyn ← dynamic_data d a; Ok (negb (dyn.(dd_current_supply) =? 0)));
  _ ← (if restricted : bool
       then FC_ASSERT (Z.land o.(au_new_options).(aop_issuer_permissions) (Z.lnot a.(ao_issuer_permissions)) =? 0) else Ok tt);
  _ ← FC_ASSERT (Z.land (Z.lxor o.(au_new_options).(aop_flags) a.(ao_flags)) (Z.lnot a.(ao_issuer_permissions)) =? 0);
  _ ← FC_ASSERT (o.(au_issuer) =? a.(ao_issuer));
  _ ← authorities_ok d o.(au_new_options).(aop_whitelist_authorities);
  authorities_ok d o.(au_new_options).(aop_blacklist_authorities).

(** All settlement orders of the asset, from the first one on. *)
Fixpoint cancel_settlements (fuel : nat) (d : database) (a : Z) : result database :=
  match first_settlement d a with
  | Some (id, o) =>
      if settlement_asset_id o =? a then
        match fuel with
        | O => Err out_of_fuel
        | S fuel => d1 ← cancel_settle_order d id; cancel_settlements fuel d1 a
        end
      else Ok d
  | None => Ok d
  end.

Definition asset_update_do_apply (d : database) (o : asset_update_operation) : result database :=
  a ← get_asset d o.(au_asset_to_update);
  d1 ← (if flag_set o.(au_new_options).(aop_flags) disable_force_settle && can_force_settle a
        then cancel_settlements (size d.(d_settlements).(objs)) d o.(au_asset_to_update) else Ok d);
  d2 ← (if is_market_issued a && negb (price_eqb a.(ao_core_exchange_rate) o.(au_new_options).(aop_core_exchange_rate)) then
          b ← bitasset_data d1 a;
          if b.(bd_asset_cer_updated) then Ok d1 else modify_bitasset d1 a (λ b, Ok (b <| bd_asset_cer_updated := true |>))
        else Ok d1);
  modify_asset d2 o.(au_asset_to_update) (λ a,
    Ok (set_options (match o.(au_new_issuer) with Some i => a <| ao_issuer := i |> | None => a end) o.(au_new_options))).
#[export] Instance asset_update_evaluator : Evaluator asset_update_operation := {
  fee_payer := au_issuer; fee := au_fee; validate := asset_update_validate;
  do_evaluate := asset_update_do_evaluate; do_apply := asset_update_do_apply }.

(** ** asset_update_bitasset *)
Record asset_update_bitasset_operation : Type := AssetUpdateBitasset {
  aub_fee : asset;
  aub_issuer : Z;
  aub_asset_to_update : Z;
  aub_new_options : bitasset_options }.
Definition asset_update_bitasset_validate (o : asset_update_bitasset_operation) : result unit :=
  _ ← FC_ASSERT (0 <=? o.(aub_fee).(amount));
  bitasset_options_validate o.(aub_new_options).

(** The assets backed by the one that changes; before the hard fork what is wrong is
    only logged. *)
Definition check_children_of_bitasset (d : database) (op : asset_update_bitasset_operation) (new_backing : Z) (new_backing_asset : asset_object)
    (after_hf_922_931 : bool) : result unit :=
  if new_backing =? CORE then Ok tt
  else
    foldM (λ _ x,
      if x.2.(bd_options).(bo_short_backing_asset) =? op.(aub_asset_to_update) then
        child ← get_asset d x.2.(bd_asset_id);
        if after_hf_922_931 then
          _ ← FC_ASSERT (negb (x.2.(bd_asset_id) =? op.(aub_new_options).(bo_short_backing_asset)));
          _ ← FC_ASSERT (negb (child.(ao_issuer) =? GRAPHENE_COMMITTEE_ACCOUNT));
          FC_ASSERT (negb (is_market_issued new_backing_asset))
        else Ok tt
      else Ok tt) tt (map_to_list d.(d_bitasset_data).(objs)).

(** The new backing asset after the hard fork. *)
Definition check_new_backing (d : database) (op : asset_update_bitasset_operation) (asset_obj : asset_object)
    (current : asset_bitasset_data_object) (new_backing_asset : asset_object) : result unit :=
  let new_backing := op.(aub_new_options).(bo_short_backing_asset) in
  _ ← FC_ASSERT (negb (new_backing =? op.(aub_asset_to_update)));
  _ ← (if current.(bd_is_prediction_market) then FC_ASSERT (asset_obj.(ao_precision) =? new_backing_asset.(ao_precision)) else Ok tt);
  _ ← (if asset_obj.(ao_issuer) =? GRAPHENE_COMMITTEE_ACCOUNT then
         if is_market_issued new_backing_asset then
           b ← bitasset_data d new_backing_asset;
           _ ← FC_ASSERT (b.(bd_options).(bo_short_backing_asset) =? CORE);
           check_children_of_bitasset d op new_backing new_backing_asset true
         else FC_ASSERT (new_backing =? CORE)
       else if negb (new_backing =? CORE) then check_children_of_bitasset d op new_backing new_backing_asset true else Ok tt);
  if is_market_issued new_backing_asset then
    b ← bitasset_data d new_backing_asset;
    let bb := b.(bd_options).(bo_short_backing_asset) in
    if bb =? CORE then Ok tt else bb_obj ← get_asset d bb; FC_ASSERT (negb (is_market_issued bb_obj))
  else Ok tt.

(** Before it: the old backing asset is checked by mistake. *)
Definition check_old_backing (d : database) (op : asset_update_bitasset_operation) (asset_obj : asset_object)
    (current : asset_bitasset_data_object) (new_backing_asset : asset_object) : result unit :=
  let new_backing := op.(aub_new_options).(bo_short_backing_asset) in
  _ ← (if asset_obj.(ao_issuer) =? GRAPHENE_COMMITTEE_ACCOUNT then
         _ ← (if is_market_issued new_backing_asset then
                _ ← bitasset_data d new_backing_asset; check_children_of_bitasset d op new_backing new_backing_asset false
              else Ok tt);
         old ← get_asset d current.(bd_options).(bo_short_backing_asset);
         if is_market_issued old then b ← bitasset_data d old; FC_ASSERT (b.(bd_options).(bo_short_backing_asset) =? CORE)
         else FC_ASSERT (current.(bd_options).(bo_short_backing_asset) =? CORE)
       else if negb (new_backing =? CORE) then check_children_of_bitasset d op new_backing new_backing_asset false else Ok tt);
  if is_market_issued new_backing_asset then
    b ← bitasset_data d new_backing_asset;
    let bb := b.(bd_options).(bo_short_backing_asset) in
    if bb =? CORE then Ok tt else _ ← get_asset d bb; Ok tt
  else Ok tt.

Definition asset_update_bitasset_do_evaluate (d : database) (op : asset_update_bitasset_operation) : result unit :=
  asset_obj ← get_asset d op.(aub_asset_to_update);
  _ ← FC_ASSERT (is_market_issued asset_obj);
  _ ← FC_ASSERT (op.(aub_issuer) =? asset_obj.(ao_issuer));
  current ← bitasset_data d asset_obj;
  _ ← FC_ASSERT (negb (has_settlement current));
  let after := HARDFORK_CORE_922_931_TIME <? next_maintenance_time d in
  _ ← (if negb (op.(aub_new_options).(bo_short_backing_asset) =? current.(bd_options).(bo_short_backing_asset)) then
         dyn ← dynamic_data d asset_obj;
         _ ← FC_ASSERT (dyn.(dd_current_supply) =? 0);
         new_backing_asset ← get_asset d op.(aub_new_options).(bo_short_backing_asset);
         if after then check_new_backing d op asset_obj current new_backing_asset
         else check_old_backing d op asset_obj current new_backing_asset
       else Ok tt);
  if after then
    _ ← FC_ASSERT ((parameters d).(cp_block_interval) <? op.(aub_new_options).(bo_feed_lifetime_sec));
    FC_ASSERT ((parameters d).(cp_block_interval) <? op.(aub_new_options).(bo_force_settlement_delay_sec))
  else Ok tt.

Section asset_operations.
Context `{!FeeSchedule, !NthElement}.
#[local] Notation cf := limit_order_cancel_fee.

(** [update_bitasset_object_options]: the bitasset, and whether its margin positions
    have to be checked. *)
Definition update_bitasset_object_options (op : asset_update_bitasset_operation) (d : database) (bdo : asset_bitasset_data_object)
    (asset_to_update : asset_object) : asset_bitasset_data_object * bool :=
  let new := op.(aub_new_options) in
  let old := bdo.(bd_options) in
  let after_hf_868_890 := HARDFORK_CORE_868_890_TIME <? next_maintenance_time d in
  let backing_asset_changed := after_hf_868_890 && negb (new.(bo_short_backing_asset) =? old.(bo_short_backing_asset)) in
  let should_update_feeds :=
    negb (new.(bo_minimum_feeds) =? old.(bo_minimum_feeds)) ||
    (after_hf_868_890 && negb (new.(bo_feed_lifetime_sec) =? old.(bo_feed_lifetime_sec))) || backing_asset_changed in
  let is_witness_or_committee_fed := flag_set asset_to_update.(ao_flags) (Z.lor witness_fed_asset committee_fed_asset) in
  let bdo := bdo <| bd_options := new |> in
  let bdo := if backing_asset_changed then
               if is_witness_or_committee_fed then bdo <| bd_feeds := ∅ |>
               else bdo <| bd_feeds ::= fmap (λ f, (f.1, f.2 <| pf_settlement_price := null_price |>)) |>
             else bdo in
  if should_update_feeds then
    let old_feed := bdo.(bd_current_feed) in
    let bdo := update_median_feeds bdo (head_block_time d) in
    (bdo,
     if HARDFORK_CORE_935_TIME <? next_maintenance_time d then negb (price_feed_eqb old_feed bdo.(bd_current_feed))
     else after_hf_868_890 && negb (price_eqb old_feed.(pf_settlement_price) bdo.(bd_current_feed).(pf_settlement_price)))
  else (bdo, false).
Definition asset_update_bitasset_do_apply (d : database) (op : asset_update_bitasset_operation) : result database :=
  a ← get_asset d op.(aub_asset_to_update);
  b ← bitasset_data d a;
  let '(b', to_check_call_orders) := update_bitasset_object_options op d b a in
  d1 ← modify_bitasset d a (λ _, Ok b');
  if to_check_call_orders : bool then
    '(d2, _) ← check_call_orders cf d1 op.(aub_asset_to_update) true false; Ok d2
  else Ok d1.
#[export] Instance asset_update_bitasset_evaluator : Evaluator asset_update_bitasset_operation := {
  fee_payer := aub_issuer; fee := aub_fee; validate := asset_update_bitasset_validate;
  do_evaluate := asset_update_bitasset_do_evaluate; do_apply := asset_update_bitasset_do_apply }.

(** ** asset_update_feed_producers *)
Record asset_update_feed_producers_operation : Type := AssetUpdateFeedProducers {
  afp_fee : asset;
  afp_issuer : Z;
  afp_asset_to_update : Z;
  afp_new_feed_producers : gset Z }.
Definition asset_update_feed_producers_do_evaluate (d : database) (o : asset_update_feed_producers_operation) : result unit :=
  _ ← FC_ASSERT (Z.of_nat (size o.(afp_new_feed_producers)) <=? (parameters d).(cp_maximum_asset_feed_publishers));
  a ← get_asset d o.(afp_asset_to_update);
  _ ← FC_ASSERT (is_market_issued a);
  _ ← FC_ASSERT (negb (flag_set a.(ao_flags) committee_fed_asset));
  _ ← FC_ASSERT (negb (flag_set a.(ao_flags) witness_fed_asset));
  _ ← FC_ASSERT (a.(ao_issuer) =? o.(afp_issuer));
  accounts_exist d o.(afp_new_feed_producers).

(** Who no longer publishes goes, and who is new gets a feed that was never published. *)
Definition new_producers (producers : gset Z) (feeds : gmap Z (Z * price_feed)) : gmap Z (Z * price_feed) :=
  let kept := filter (λ x, x.1 ∈ producers) feeds in
  foldr (λ acc m, match m !! acc with Some _ => m | None => <[acc := (0, null_feed)]> m end) kept (elements producers).
Definition asset_update_feed_producers_do_apply (d : database) (o : asset_update_feed_producers_operation) : result database :=
  a ← get_asset d o.(afp_asset_to_update);
  d1 ← modify_bitasset d a (λ b, Ok (update_median_feeds (b <| bd_feeds ::= new_producers o.(afp_new_feed_producers) |>) (head_block_time d)));
  '(d2, _) ← check_call_orders cf d1 o.(afp_asset_to_update) true false;
  Ok d2.
#[export] Instance asset_update_feed_producers_evaluator : Evaluator asset_update_feed_producers_operation := {
  fee_payer := afp_issuer; fee := afp_fee; validate o := FC_ASSERT (0 <=? o.(afp_fee).(amount));
  do_evaluate := asset_update_feed_producers_do_evaluate; do_apply := asset_update_feed_producers_do_apply }.

(** ** asset_publish_feed *)
Record asset_publish_feed_operation : Type := AssetPublishFeed {
  apf_fee : asset;
  apf_publisher : Z;
  apf_asset_id : Z;
  apf_feed : price_feed }.
Definition GRAPHENE_MIN_COLLATERAL_RATIO : Z := 1001.
Definition GRAPHENE_MAX_COLLATERAL_RATIO : Z := 32000.
Definition price_feed_validate (f : price_feed) : result unit :=
  _ ← (if price_is_null f.(pf_settlement_price) then Ok tt else price_validate f.(pf_settlement_price));
  _ ← FC_ASSERT (GRAPHENE_MIN_COLLATERAL_RATIO <=? f.(pf_maximum_short_squeeze_ratio));
  _ ← FC_ASSERT (f.(pf_maximum_short_squeeze_ratio) <=? GRAPHENE_MAX_COLLATERAL_RATIO);
  _ ← FC_ASSERT (GRAPHENE_MIN_COLLATERAL_RATIO <=? f.(pf_maintenance_collateral_ratio));
  _ ← FC_ASSERT (f.(pf_maintenance_collateral_ratio) <=? GRAPHENE_MAX_COLLATERAL_RATIO);
  _ ← max_short_squeeze_price f;
  Ok tt.
Definition is_for (f : price_feed) (asset_id_ : Z) : bool :=
  if negb (price_is_null f.(pf_settlement_price)) then f.(pf_settlement_price).(base).(asset_id) =? asset_id_
  else if negb (price_is_null f.(pf_core_exchange_rate)) then f.(pf_core_exchange_rate).(base).(asset_id) =? asset_id_
  else true.
Definition asset_publish_feed_validate (o : asset_publish_feed_operation) : result unit :=
  let f := o.(apf_feed) in
  _ ← FC_ASSERT (0 <=? o.(apf_fee).(amount));
  _ ← price_feed_validate f;
  _ ← (if negb (price_is_null f.(pf_core_exchange_rate)) then price_validate f.(pf_core_exchange_rate) else Ok tt);
  _ ← (if negb (price_is_null f.(pf_settlement_price)) && negb (price_is_null f.(pf_core_exchange_rate))
       then FC_ASSERT (f.(pf_settlement_price).(base).(asset_id) =? f.(pf_core_exchange_rate).(base).(asset_id)) else Ok tt);
  _ ← FC_ASSERT (negb (price_is_null f.(pf_settlement_price)));
  _ ← FC_ASSERT (negb (price_is_null f.(pf_core_exchange_rate)));
  FC_ASSERT (is_for f o.(apf_asset_id)).
(** [active.account_auths.count(publisher)]. *)
Definition active_member (d : database) (of_account publisher : Z) : result bool :=
  a ← get_account d of_account;
  Ok (bool_decide (publisher ∈ a.(acc_active).(account_auths).*1)).
Definition asset_publish_feed_do_evaluate (d : database) (o : asset_publish_feed_operation) : result unit :=
  let f := o.(apf_feed) in
  base_ ← get_asset d o.(apf_asset_id);
  _ ← FC_ASSERT (is_market_issued base_);
  bitasset ← bitasset_data d base_;
  _ ← (if bitasset.(bd_is_prediction_market) || (head_block_time d <=? HARDFORK_CORE_216_TIME)
       then FC_ASSERT (negb (has_settlement bitasset)) else Ok tt);
  _ ← FC_ASSERT (f.(pf_settlement_price).(quote).(asset_id) =? bitasset.(bd_options).(bo_short_backing_asset));
  _ ← (if HARDFORK_480_TIME <? head_block_time d then
         if negb (price_is_null f.(pf_core_exchange_rate)) then FC_ASSERT (f.(pf_core_exchange_rate).(quote).(asset_id) =? CORE) else Ok tt
       else if negb (price_is_null f.(pf_settlement_price)) && negb (price_is_null f.(pf_core_exchange_rate))
       then FC_ASSERT (f.(pf_settlement_price).(quote).(asset_id) =? f.(pf_core_exchange_rate).(quote).(asset_id)) else Ok tt);
  ok ← (if flag_set base_.(ao_flags) witness_fed_asset then active_member d GRAPHENE_WITNESS_ACCOUNT o.(apf_publisher)
        else if flag_set base_.(ao_flags) committee_fed_asset then active_member d GRAPHENE_COMMITTEE_ACCOUNT o.(apf_publisher)
        else Ok (bool_decide (is_Some (bitasset.(bd_feeds) !! o.(apf_publisher)))));
  FC_ASSERT ok.

(** Whether a feed revives the settled asset: its fund covers the debt at the ratio of
    the feed. *)
Definition revives (d : database) (a : asset_object) (id : Z) (b : asset_bitasset_data_object) : result bool :=
  dyn ← dynamic_data d a;
  let feed := b.(bd_current_feed) in
  if price_is_null feed.(pf_settlement_price) then Ok false
  else if dyn.(dd_current_supply) =? 0 then Ok true
  else
    p ← call_price (Asset dyn.(dd_current_supply) id) (Asset b.(bd_settlement_fund) b.(bd_options).(bo_short_backing_asset))
          feed.(pf_maintenance_collateral_ratio);
    Ok (price_ltb (price_inv p) feed.(pf_settlement_price)).
Definition asset_publish_feed_do_apply (d : database) (o : asset_publish_feed_operation) : result database :=
  a ← get_asset d o.(apf_asset_id);
  b ← bitasset_data d a;
  d1 ← modify_bitasset d a (λ b, Ok (update_median_feeds
         (b <| bd_feeds ::= insert o.(apf_publisher) (head_block_time d, o.(apf_feed)) |>) (head_block_time d)));
  b1 ← bitasset_data d1 a;
  if price_feed_eqb b.(bd_current_feed) b1.(bd_current_feed) then Ok d1
  else
    d2 ← (if has_settlement b1 then
            r ← revives d1 a o.(apf_asset_id) b1;
            if r : bool then revive_bitasset d1 o.(apf_asset_id) else Ok d1
          else Ok d1);
    '(d3, _) ← check_call_orders cf d2 o.(apf_asset_id) true false;
    Ok d3.
#[export] Instance asset_publish_feed_evaluator : Evaluator asset_publish_feed_operation := {
  fee_payer := apf_publisher; fee := apf_fee; validate := asset_publish_feed_validate;
  do_evaluate := asset_publish_feed_do_evaluate; do_apply := asset_publish_feed_do_apply }.
End asset_operations.

(** ** asset_global_settle *)
Record asset_global_settle_operation : Type := AssetGlobalSettle {
  ags_fee : asset;
  ags_issuer : Z;
  ags_asset_to_settle : Z;
  ags_settle_price : price }.
Definition asset_global_settle_validate (o : asset_global_settle_operation) : result unit :=
  _ ← FC_ASSERT (0 <=? o.(ags_fee).(amount));
  FC_ASSERT (o.(ags_asset_to_settle) =? o.(ags_settle_price).(base).(asset_id)).
Definition asset_global_settle_do_evaluate (d : database) (op : asset_global_settle_operation) : result unit :=
  a ← get_asset d op.(ags_asset_to_settle);
  _ ← FC_ASSERT (is_market_issued a);
  _ ← FC_ASSERT (can_global_settle a);
  _ ← FC_ASSERT (a.(ao_issuer) =? op.(ags_issuer));
  dyn ← dynamic_data d a;
  _ ← FC_ASSERT (0 <? dyn.(dd_current_supply));
  b ← bitasset_data d a;
  _ ← FC_ASSERT (negb (has_settlement b));
  c ← least_collateralized d b.(bd_options).(bo_short_backing_asset) op.(ags_asset_to_settle);
  '(_, c) ← from_option_exn assert_exception c;
  _ ← FC_ASSERT (debt_type c =? op.(ags_asset_to_settle));
  v ← asset_mul (get_debt c) op.(ags_settle_price);
  ok ← asset_le v (get_collateral c);
  FC_ASSERT ok.
#[export] Instance asset_global_settle_evaluator : Evaluator asset_global_settle_operation := {
  fee_payer := ags_issuer; fee := ags_fee; validate := asset_global_settle_validate;
  do_evaluate := asset_global_settle_do_evaluate;
  do_apply d op := globally_settle_asset d op.(ags_asset_to_settle) op.(ags_settle_price) }.

(** ** asset_settle *)
Record asset_settle_operation : Type := AssetSettle {
  as_fee : asset;
  as_account : Z;
  as_amount : asset }.
Definition asset_settle_validate (o : asset_settle_operation) : result unit :=
  _ ← FC_ASSERT (0 <=? o.(as_fee).(amount));
  FC_ASSERT (0 <=? o.(as_amount).(amount)).
Definition asset_settle_do_evaluate (d : database) (op : asset_settle_operation) : result unit :=
  a ← get_asset d op.(as_amount).(asset_id);
  _ ← FC_ASSERT (is_market_issued a);
  b ← bitasset_data d a;
  _ ← FC_ASSERT (can_force_settle a || has_settlement b);
  _ ← (if b.(bd_is_prediction_market) then FC_ASSERT (has_settlement b)
       else GRAPHENE_ASSERT (negb (price_is_null b.(bd_current_feed).(pf_settlement_price) &&
              ((head_block_time d <=? HARDFORK_CORE_216_TIME) || negb (has_settlement b)))) insufficient_feeds);
  _ ← get_account d op.(as_account);
  enough ← asset_ge (get_balance d op.(as_account) op.(as_amount).(asset_id)) op.(as_amount);
  FC_ASSERT enough.

(** What the fund of a settled asset pays, and what is taken for it. *)
Definition fund_pays (d : database) (b : asset_bitasset_data_object) (supply : Z) (amt : asset) : result (asset * asset) :=
  settled ← asset_mul amt b.(bd_settlement_price);
  settled ← (if amt.(amount) =? supply then Ok (Asset b.(bd_settlement_fund) settled.(asset_id))
             else _ ← FC_ASSERT (settled.(amount) <=? b.(bd_settlement_fund)); Ok settled);
  _ ← (if (settled.(amount) =? 0) && negb b.(bd_is_prediction_market)
       then GRAPHENE_ASSERT (negb (HARDFORK_CORE_184_TIME <? next_maintenance_time d)) assert_exception else Ok tt);
  pays ← (if negb (amt.(amount) =? supply) && negb (settled.(amount) =? 0) && (HARDFORK_CORE_342_TIME <? next_maintenance_time d)
          then multiply_and_round_up settled b.(bd_settlement_price) else Ok amt);
  Ok (settled, pays).
Definition asset_settle_do_apply (d : database) (op : asset_settle_operation) : result database :=
  a ← get_asset d op.(as_amount).(asset_id);
  b ← bitasset_data d a;
  if has_settlement b then
    dyn ← dynamic_data d a;
    '(settled, pays) ← fund_pays d b dyn.(dd_current_supply) op.(as_amount);
    d1 ← debit d op.(as_account) pays;
    d2 ← (if 0 <? settled.(amount) then
            d2 ← modify_bitasset d1 a (λ b, f ← safe_sub b.(bd_settlement_fund) settled.(amount); Ok (b <| bd_settlement_fund := f |>));
            adjust_balance d2 op.(as_account) settled
          else Ok d1);
    sub_supply d2 a.(ao_dynamic_asset_data_id) pays.(amount)
  else
    d1 ← debit d op.(as_account) op.(as_amount);
    b ← bitasset_data d1 a;
    '(_, i) ← index_create d1.(d_settlements)
      (ForceSettlement op.(as_account) op.(as_amount) (time_add (head_block_time d1) b.(bd_options).(bo_force_settlement_delay_sec)));
    Ok (d1 <| d_settlements := i |>).
#[export] Instance asset_settle_evaluator : Evaluator asset_settle_operation := {
  fee_payer := as_account; fee := as_fee; validate := asset_settle_validate;
  do_evaluate := asset_settle_do_evaluate; do_apply := asset_settle_do_apply }.

(** ** Lemmas *)

(** What an operation promises: value is kept and the chain is well formed. *)
Definition sound (d d' : database) : Prop := conserves d d' ∧ (chain_ok d → chain_ok d') ∧ clock d' = clock d.
#[export] Instance sound_preorder : PreOrder sound.
Proof.
  split; [intros d; split; [apply flow_refl|done]|]. intros d1 d2 d3 (A1 & A2 & A3) (B1 & B2 & B3).
  split; [by etransitivity|]. split; [auto|congruence].
Qed.
Lemma sound_market d d' : conserves d d' → market_frame d d' → sound d d'.
Proof. intros F M. split; [done|]. split; [by apply chain_market|by apply clock_setting, M]. Qed.
Lemma sound_step d d' : conserves d d' → account_step d d' → sound d d'.
Proof. intros F A. apply sound_market; [done|by apply market_of_step]. Qed.

Lemma bitasset_same d i b b' :
  d.(d_bitasset_data).(objs) !! i = Some b → b'.(bd_asset_id) = b.(bd_asset_id) → b'.(bd_options) = b.(bd_options) →
  b'.(bd_settlement_price) = b.(bd_settlement_price) → b'.(bd_settlement_fund) = b.(bd_settlement_fund) →
  sound d (d <| d_bitasset_data := Index (<[i := b']> d.(d_bitasset_data).(objs)) d.(d_bitasset_data).(next_id) |>).
Proof. intros Hb E1 E2 E3 E4. destruct (bitasset_change d i b b' Hb E1 E2 E3 E4) as [F C]. by split. Qed.
Lemma modify_bitasset_sound d o f d' :
  modify_bitasset d o f = Ok d' →
  (∀ b b', f b = Ok b' → b'.(bd_asset_id) = b.(bd_asset_id) ∧ b'.(bd_options) = b.(bd_options) ∧
    b'.(bd_settlement_price) = b.(bd_settlement_price) ∧ b'.(bd_settlement_fund) = b.(bd_settlement_fund)) →
  sound d d'.
Proof.
  unfold modify_bitasset. intros H Hf. apply bind_Ok in H as (i & _ & H). apply bind_Ok in H as (j & Hj & [= <-]).
  apply index_modify_Ok in Hj as (b & b' & Hb & Hb' & ->). destruct (Hf _ _ Hb') as (E1 & E2 & E3 & E4). by apply (bitasset_same d i b b').
Qed.

Lemma modify_asset_sound d id f d' :
  modify_asset d id f = Ok d' →
  (∀ o o', f o = Ok o' → o'.(ao_dynamic_asset_data_id) = o.(ao_dynamic_asset_data_id) ∧ o'.(ao_symbol) = o.(ao_symbol) ∧
     o'.(ao_bitasset_data_id) = o.(ao_bitasset_data_id) ∧ (market_fee_ok o → market_fee_ok o')) →
  sound d d'.
Proof.
  unfold modify_asset. intros H Hf. apply bind_Ok in H as (i & Hi & [= <-]). apply index_modify_Ok in Hi as (o & o' & Ho & Ho' & ->).
  destruct (Hf _ _ Ho') as (E1 & E2 & E3 & E4). split; [|split; [|done]].
  - apply flow_table; [done..|]. intros k. rewrite !imbalance_eq. unfold held, supply. cbn. lia.
  - intros [A B C D E L]. split; try done.
    + intros k x Hx. cbn in Hx. apply lookup_insert_Some in Hx as [[<- <-]|[_ Hx]]; [|by apply (A k)].
      destruct (A _ _ Ho) as (A1 & A2 & A3). split; [congruence|]. split; [by rewrite E2|by apply E4].
    + intros k c Hc. rewrite <-(D k c Hc). unfold backing_of. cbn. destruct (decide (debt_type c = id)) as [->|]; [|by rewrite lookup_insert_ne].
      rewrite lookup_insert_eq, Ho. cbn. by rewrite E3.
    + intros k x Hx. cbn in Hx. apply lookup_insert_Some in Hx as [[<- <-]|[_ Hx]]; [|exact (L _ _ Hx)].
      pose proof (L _ _ Ho) as L0. cbn in L0. unfold link_ok, bitasset_of in *. cbn. by rewrite E3.
Qed.

Lemma check_calls_sound cf d mia e n d' b : chain_ok d → check_call_orders cf d mia e n = Ok (d', b) → sound d d'.
Proof. intros Hd H. destruct (check_call_orders_spec _ _ _ _ _ _ _ (co_assets _ Hd) (co_funds _ Hd) H) as [F M]. by apply sound_market. Qed.
Lemma settle_frame_sound id d d' : conserves d d' → settle_frame id d d' → sound d d'.
Proof.
  intros F [S1 S2 S3 S4 S5 S6]. destruct (same_bitassets d d' S6 S1) as (Hf & Hl & Hb). pose proof (clock_setting _ _ S1) as C. split; [done|]. split; [|done].
  intros [A B D E G L]. injection C as _ C. split; [by apply (setting_assets _ _ S1)| |by apply Hf| |unfold modern; by rewrite C|by apply Hl].
  - destruct S1 as (_ & _ & _ & _ & ->). exact B.
  - intros k c Hc. rewrite S3 in Hc. rewrite Hb. by apply (E k).
Qed.
Lemma cancel_settlements_sound fuel d a d' : cancel_settlements fuel d a = Ok d' → sound d d'.
Proof.
  revert d. induction fuel as [|fuel IH]; intros d H; cbn [cancel_settlements] in H.
  all: destruct (first_settlement d a) as [[id o]|]; [|injection H as <-; reflexivity].
  all: destruct (_ =? a); [|injection H as <-; reflexivity].
  - done.
  - apply bind_Ok in H as (d1 & H1 & H). destruct (cancel_settle_order_spec _ _ _ H1) as (F & L & _).
    etransitivity; [by eapply settle_frame_sound|by apply IH].
Qed.

(** The instances of the classes, from what the operation does after its checks. *)
Lemma sound_instances {OP} `{!Evaluator OP} :
  (∀ d d1 (op : OP) d', chain_ok d1 → same_but_fees d d1 → validate op = Ok tt → do_evaluate d op = Ok tt → do_apply d1 op = Ok d' → sound d1 d') →
  Conserving OP ∧ Steady OP.
Proof.
  intros Hs. split; intros d d1 op d' Hd Hf Hv He H; destruct (Hs d d1 op d' (fee_chain_ok _ _ Hf Hd) Hf Hv He H) as (F & C & E); [done|].
  split; [by apply C, (fee_chain_ok _ _ Hf)|done].
Qed.

Section same_asset.
Context (d d1 : database) (Hf : same_but_fees d d1).
Lemma fee_get_asset id : get_asset d1 id = get_asset d id.
Proof using Hf. by destruct Hf as (m1 & m2 & -> & _). Qed.
Lemma fee_bitasset_data a : bitasset_data d1 a = bitasset_data d a.
Proof using Hf. by destruct Hf as (m1 & m2 & -> & _). Qed.
End same_asset.

(** *** Supply, pool and fees *)
Lemma asset_issue_sound d o d' : chain_ok d → asset_issue_do_apply d o = Ok d' → sound d d'.
Proof.
  intros Hd H. unfold asset_issue_do_apply in H. apply bind_Ok in H as (a & Ha & H). rewrite (dyn_id _ _ _ (co_assets _ Hd) Ha) in H.
  apply bind_Ok in H as (d1 & H1 & H2). apply sound_step.
  - apply flows in H1. pose proof (flow_modify_dynamic_data _ _ _ _ (λ a, - of_asset a (Asset o.(ai_asset_to_issue).(amount) o.(ai_asset_to_issue).(asset_id))) H2) as F2.
    eapply flow_ext; [eapply flow_trans; [exact H1|apply F2; solve_dyn]|]. flow_arith.
  - etransitivity; [exact (accounts (P:=_ = Ok _) H1)|exact (accounts (P:=_ = Ok _) H2)].
Qed.
Lemma asset_reserve_sound d o d' : chain_ok d → asset_reserve_do_apply d o = Ok d' → sound d d'.
Proof.
  intros Hd H. unfold asset_reserve_do_apply in H. apply bind_Ok in H as (a & Ha & H). rewrite (dyn_id _ _ _ (co_assets _ Hd) Ha) in H.
  apply bind_Ok in H as (d1 & H1 & H2). apply sound_step.
  - apply flows in H1, H2. eapply flow_ext; [exact (flow_trans _ _ _ _ _ H1 H2)|]. flow_arith.
  - etransitivity; [exact (accounts (P:=_ = Ok _) H1)|exact (accounts (P:=_ = Ok _) H2)].
Qed.
Lemma asset_fund_fee_pool_sound d o d' : asset_fund_fee_pool_do_apply d o = Ok d' → sound d d'.
Proof.
  intros H. unfold asset_fund_fee_pool_do_apply in H. apply bind_Ok in H as (a & Ha & H). apply bind_Ok in H as (d1 & H1 & H2). apply sound_step.
  - apply flows in H1. eapply flow_ext; [eapply flow_trans; [exact H1|eapply (flow_modify_dynamic_data _ _ _ _ (λ a, core_only a o.(aff_amount)) H2); solve_dyn]|]. flow_arith.
  - etransitivity; [exact (accounts (P:=_ = Ok _) H1)|exact (accounts (P:=_ = Ok _) H2)].
Qed.
Lemma asset_claim_fees_sound d o d' : chain_ok d → asset_claim_fees_do_apply d o = Ok d' → sound d d'.
Proof.
  intros Hd H. unfold asset_claim_fees_do_apply in H. apply bind_Ok in H as (a & Ha & H). rewrite (dyn_id _ _ _ (co_assets _ Hd) Ha) in H.
  do 2 apply bind_Ok in H as (? & _ & H). apply bind_Ok in H as (d1 & H1 & H2). apply sound_step.
  - apply flows in H2. eapply flow_ext; [eapply flow_trans; [|exact H2]; eapply (flow_modify_dynamic_data _ _ _ _ (λ a, - of_asset a o.(acf_amount_to_claim)) H1); solve_dyn|]. flow_arith.
  - etransitivity; [exact (accounts (P:=_ = Ok _) H1)|exact (accounts (P:=_ = Ok _) H2)].
Qed.
Lemma asset_claim_pool_sound d o d' : o.(acp_amount_to_claim).(asset_id) = CORE → asset_claim_pool_do_apply d o = Ok d' → sound d d'.
Proof.
  intros Hc H. unfold asset_claim_pool_do_apply in H. apply bind_Ok in H as (a & Ha & H).
  do 2 apply bind_Ok in H as (? & _ & H). apply bind_Ok in H as (d1 & H1 & H2). apply sound_step.
  - apply flows in H2. destruct (acp_amount_to_claim o) as [amt k]. cbn in *. subst k.
    eapply flow_ext; [eapply flow_trans; [|exact H2]; eapply (flow_modify_dynamic_data _ _ _ _ (λ a, - core_only a amt) H1); solve_dyn|]. flow_arith.
  - etransitivity; [exact (accounts (P:=_ = Ok _) H1)|exact (accounts (P:=_ = Ok _) H2)].
Qed.

(** *** Options *)
Lemma asset_options_fee a o : asset_options_validate o = Ok tt → market_fee_ok (set_options a o).
Proof.
  unfold asset_options_validate. intros H. pose proof (Z.mod_pos_bound o.(aop_market_fee_percent) 65536 ltac:(lia)).
  unfold u16 in *. do 2 apply bind_Ok in H as (? & _ & H). apply bind_Ok in H as (? & H1 & H). apply bind_Ok in H as (? & H2 & _).
  apply FC_ASSERT_Ok in H1, H2. unfold market_fee_ok. cbn. unfold u16. propify. lia.
Qed.

Lemma asset_update_sound d o d' : asset_options_validate o.(au_new_options) = Ok tt → asset_update_do_apply d o = Ok d' → sound d d'.
Proof.
  intros Hv H. unfold asset_update_do_apply in H. apply bind_Ok in H as (a & Ha & H). apply bind_Ok in H as (d1 & H1 & H). apply bind_Ok in H as (d2 & H2 & H).
  transitivity d1; [destruct (flag_set _ _ && can_force_settle a); [by eapply cancel_settlements_sound|by injection H1 as <-]|].
  transitivity d2.
  - destruct (is_market_issued a && _); [|by injection H2 as <-]. apply bind_Ok in H2 as (b & _ & H2). destruct (bd_asset_cer_updated b); [by injection H2 as <-|].
    eapply modify_bitasset_sound; [exact H2|]. by intros x x' Ex; cbn beta in Ex; injection Ex as <-.
  - eapply modify_asset_sound; [exact H|]. intros x x' Ex. cbn beta in Ex. injection Ex as <-. split; [by destruct (au_new_issuer o)|]. split; [by destruct (au_new_issuer o)|].
    split; [by destruct (au_new_issuer o)|]. intros _. by apply asset_options_fee.
Qed.

(** *** Feeds *)
Section feed_operations.
Context {fs : FeeSchedule} {nth : NthElement}.

Lemma median_keeps b f t :
  let b' := update_median_feeds (b <| bd_feeds ::= f |>) t in
  b'.(bd_asset_id) = b.(bd_asset_id) ∧ b'.(bd_options) = b.(bd_options) ∧
  b'.(bd_settlement_price) = b.(bd_settlement_price) ∧ b'.(bd_settlement_fund) = b.(bd_settlement_fund).
Proof using Type. destruct (update_median_frame (b <| bd_feeds ::= f |>) t) as (E1 & E2 & _ & E3 & E4 & _). done. Qed.
Lemma asset_update_feed_producers_sound d o d' : chain_ok d → asset_update_feed_producers_do_apply d o = Ok d' → sound d d'.
Proof using Type.
  intros Hd H. unfold asset_update_feed_producers_do_apply in H. apply bind_Ok in H as (a & Ha & H). apply bind_Ok in H as (d1 & H1 & H).
  apply bind_Ok in H as ([d2 c] & H2 & [= <-]). assert (sound d d1) as S1.
  { eapply modify_bitasset_sound; [exact H1|]. intros b b' Ex. cbn beta in Ex. assert (b' = update_median_feeds (b <| bd_feeds ::= new_producers o.(afp_new_feed_producers) |>) (head_block_time d)) as -> by congruence.
    by apply (median_keeps b). }
  etransitivity; [exact S1|]. eapply check_calls_sound; [|exact H2]. by apply S1.
Qed.

Lemma revive_sound d mia d' : chain_ok d → revive_bitasset d mia = Ok d' → sound d d'.
Proof using Type.
  intros Hd H. destruct (revive_bitasset_chain _ _ _ Hd H) as [C E]. apply revive_bitasset_spec in H as (F & _). by split.
Qed.

Lemma asset_publish_feed_sound d o d' : chain_ok d → asset_publish_feed_do_apply d o = Ok d' → sound d d'.
Proof using Type.
  intros Hd H. unfold asset_publish_feed_do_apply in H. apply bind_Ok in H as (a & Ha & H). apply bind_Ok in H as (b & Hb & H).
  apply bind_Ok in H as (d1 & H1 & H). apply bind_Ok in H as (b1 & Hb1 & H). assert (sound d d1) as S1.
  { eapply modify_bitasset_sound; [exact H1|]. intros x x' Ex. cbn beta in Ex.
    assert (x' = update_median_feeds (x <| bd_feeds ::= insert o.(apf_publisher) (head_block_time d, o.(apf_feed)) |>) (head_block_time d)) as -> by congruence.
    by apply (median_keeps x). }
  destruct (price_feed_eqb _ _); [by injection H as <-|]. apply bind_Ok in H as (d2 & H2 & H). apply bind_Ok in H as ([d3 c] & H3 & [= <-]).
  assert (chain_ok d1) as Hd1 by by apply S1. assert (sound d1 d2) as S2.
  { destruct (has_settlement b1); [|by injection H2 as <-]. apply bind_Ok in H2 as (r & _ & H2). destruct r; [by eapply revive_sound|by injection H2 as <-]. }
  etransitivity; [exact S1|]. etransitivity; [exact S2|]. eapply check_calls_sound; [|exact H3]. by apply S2.
Qed.
End feed_operations.

(** *** Settlement *)
Lemma globally_settle_sound d mia p d' : chain_ok d → globally_settle_asset d mia p = Ok d' → sound d d'.
Proof. intros Hd H. destruct (globally_settle_spec _ _ _ _ (co_assets _ Hd) (co_funds _ Hd) H) as (F & M & _). by apply sound_market. Qed.

(** What the fund pays is in the backing asset, what is taken in the asset itself. *)
Lemma fund_pays_sides d b supply amt settled pays :
  fund_pays d b supply amt = Ok (settled, pays) → amt.(asset_id) = b.(bd_settlement_price).(base).(asset_id) →
  settled.(asset_id) = b.(bd_settlement_price).(quote).(asset_id) ∧ pays.(asset_id) = amt.(asset_id) ∧
  (amt.(amount) ≠ supply → settled.(amount) ≤ b.(bd_settlement_fund)) ∧ (amt.(amount) = supply → settled.(amount) = b.(bd_settlement_fund)).
Proof.
  unfold fund_pays. intros H Hid. apply bind_Ok in H as (s & Hs & H). apply bind_Ok in H as (s1 & H1 & H). apply bind_Ok in H as (? & _ & H).
  apply bind_Ok in H as (p & Hp & [= -> ->]).
  assert (s.(asset_id) = b.(bd_settlement_price).(quote).(asset_id)) as Es.
  { unfold asset_mul, asset_mul_with in Hs. rewrite (proj2 (Z.eqb_eq _ _) Hid) in Hs. by apply bind_Ok in Hs as (r & _ & [= <-]). }
  assert (settled.(asset_id) = s.(asset_id) ∧ (amt.(amount) ≠ supply → settled.(amount) ≤ b.(bd_settlement_fund)) ∧
    (amt.(amount) = supply → settled.(amount) = b.(bd_settlement_fund))) as (E1 & E2 & E3).
  { destruct (Z.eqb_spec amt.(amount) supply); [by injection H1 as <-|]. apply bind_Ok in H1 as (u & Hu & [= <-]). apply FC_ASSERT_Ok, Z.leb_le in Hu. done. }
  split; [congruence|]. split; [|done]. destruct (_ && _ && _); [|by injection Hp as <-].
  apply (λ H, asset_mul_sides _ _ _ (or_intror H)) in Hp. destruct Hp as [[? ?]|[? ?]]; congruence.
Qed.

Lemma asset_settle_sound d o d' : chain_ok d → asset_settle_do_apply d o = Ok d' → sound d d'.
Proof.
  intros Hd H. unfold asset_settle_do_apply in H. apply bind_Ok in H as (a & Ha & H). apply bind_Ok in H as (b & Hb & H).
  destruct (has_settlement b) eqn:Es.
  - apply bind_Ok in H as (dyn & Hdyn & H). apply bind_Ok in H as ([settled pays] & Hp & H). apply bind_Ok in H as (d1 & H1 & H). apply bind_Ok in H as (d2 & H2 & H3).
    destruct (linked_get _ _ _ _ (co_linked _ Hd) (proj1 (index_get_Ok _ _ _) Ha) Hb) as [Eid Eps]. destruct (Eps Es) as [Ebase Equote].
    destruct (fund_pays_sides _ _ _ _ _ _ Hp) as (E1 & E2 & _); [congruence|]. rewrite (dyn_id _ _ _ (co_assets _ Hd) Ha) in H3.
    pose proof (accounts (P:=_ = Ok _) H1) as A1. pose proof (accounts (P:=_ = Ok _) H3) as A3.
    assert (flow d1 d2 (λ _, 0) ∧ market_frame d1 d2) as [F2 M2].
    { destruct (0 <? _); [|injection H2 as <-; split; [apply flow_refl|reflexivity]]. apply bind_Ok in H2 as (d3 & H2 & H4).
      pose proof (accounts (P:=_ = Ok _) H4) as A4. apply flows in H4.
      assert (bitasset_data d1 a = Ok b) as Hb1 by (by (unfold bitasset_data; apply account_step_frames in A1 as [_ (_ & _ & _ & _ & ->)])).
      destruct (safe_sub b.(bd_settlement_fund) settled.(amount)) as [f|e] eqn:Ef.
      2: { apply flow_modify_bitasset in H2 as (x & x' & Hx & Hx' & _). cbn in Hx'. rewrite Hb1 in Hx. injection Hx as <-. by rewrite Ef in Hx'. }
      destruct (modify_bitasset_spec d1 a _ d3 b (b <| bd_settlement_fund := f |>) H2 Hb1) as (F & M & _).
      - cbn. by rewrite Ef.
      - done.
      - done.
      - done.
      - cbn. unfold has_settlement in *. cbn. by rewrite Es.
      - split; [|etransitivity; [exact M|by apply market_of_step]]. apply safe_sub_Ok in Ef as ->.
        eapply flow_ext; [exact (flow_trans _ _ _ _ _ F H4)|]. unfold fund_held. flow_arith. }
    apply sound_market.
    + apply flows in H1, H3. eapply flow_ext; [exact (flow_trans _ _ _ _ _ (flow_trans _ _ _ _ _ H1 F2) H3)|]. flow_arith.
    + etransitivity; [by apply market_of_step|]. etransitivity; [exact M2|by apply market_of_step].
  - apply bind_Ok in H as (d1 & H1 & H). apply bind_Ok in H as (b1 & _ & H). apply bind_Ok in H as ([k i] & Hi & [= <-]).
    pose proof (accounts (P:=_ = Ok _) H1) as A1. apply flows in H1.
    pose proof (flow_index_create d_settlements _ fs_balance flow_settlements d1 _ _ _ Hi) as F2. split.
    + eapply flow_ext; [exact (flow_trans _ _ _ _ _ H1 F2)|]. intros x. cbn. lia.
    + destruct (chain_clock_market d d d1 eq_refl (market_of_step _ _ A1) Hd) as [[A B C D E L] Ec]. split; [by split|exact Ec].
Qed.

(** *** A change of the options of a bitasset *)
(** A supply of zero leaves no position. *)
Definition debts_in_supply (d : database) (a : Z) : Prop :=
  ∀ x, get_dynamic_data d a = Ok x → x.(dd_current_supply) = 0 → map_Forall (λ _ c, debt_type c ≠ a) d.(d_call_orders).(objs).

Lemma updated_options {fs : FeeSchedule} {nth : NthElement} op d b a b' check :
  update_bitasset_object_options op d b a = (b', check) →
  b'.(bd_asset_id) = b.(bd_asset_id) ∧ b'.(bd_options) = op.(aub_new_options) ∧
  b'.(bd_settlement_price) = b.(bd_settlement_price) ∧ b'.(bd_settlement_fund) = b.(bd_settlement_fund).
Proof.
  unfold update_bitasset_object_options. cbv zeta. set (b1 := if (_ && _ : bool) then _ else b <| bd_options := _ |>).
  assert (b1.(bd_asset_id) = b.(bd_asset_id) ∧ b1.(bd_options) = op.(aub_new_options) ∧
    b1.(bd_settlement_price) = b.(bd_settlement_price) ∧ b1.(bd_settlement_fund) = b.(bd_settlement_fund)) as H1.
  { subst b1. destruct (_ && _); [|done]. by destruct (flag_set _ _). }
  clearbody b1. destruct (_ || _ || _); intros [= <- _]; [|exact H1].
  destruct (update_median_frame b1 (head_block_time d)) as (E1 & E2 & _ & E3 & E4 & _). by rewrite E1, E2, E3, E4.
Qed.

(** The options of an asset that is not settled: its fund is empty and no position
    notices the new backing asset. *)
Lemma bitasset_options_change d a o i b b' :
  chain_ok d → d.(d_assets).(objs) !! a = Some o → o.(ao_bitasset_data_id) = Some i → d.(d_bitasset_data).(objs) !! i = Some b →
  has_settlement b = false → b'.(bd_asset_id) = b.(bd_asset_id) → b'.(bd_settlement_price) = b.(bd_settlement_price) →
  b'.(bd_settlement_fund) = b.(bd_settlement_fund) →
  (b'.(bd_options).(bo_short_backing_asset) ≠ b.(bd_options).(bo_short_backing_asset) → map_Forall (λ _ c, debt_type c ≠ a) d.(d_call_orders).(objs)) →
  sound d (d <| d_bitasset_data := Index (<[i := b']> d.(d_bitasset_data).(objs)) d.(d_bitasset_data).(next_id) |>).
Proof.
  intros Hd Ho Hi Hb Hs E1 E2 E3 Hnone. pose proof (co_funds _ Hd _ _ Hb Hs) as Hz. assert (has_settlement b' = false) as Hs' by (unfold has_settlement in *; by rewrite E2).
  split; [|split; [|done]].
  - apply flow_bitasset_data. intros x. rewrite (isum_modify _ _ _ _ b' Hb). unfold fund_held. rewrite E3, Hz. flow_arith.
  - intros [A B C D F L]. split; try done.
    + intros j x Hx. cbn in Hx. apply lookup_insert_Some in Hx as [[_ <-]|[_ Hx]]; [by rewrite E3|by apply (C j)].
    + intros k c Hc. rewrite <-(D k c Hc). unfold backing_of. cbn. destruct (_ !! debt_type c) as [q|] eqn:Eq; [cbn|done].
      destruct (ao_bitasset_data_id q) as [j|] eqn:Ej; [cbn|done]. destruct (decide (j = i)) as [->|]; [|by rewrite lookup_insert_ne].
      rewrite lookup_insert_eq, Hb. cbn. f_equal. destruct (decide (b'.(bd_options).(bo_short_backing_asset) = b.(bd_options).(bo_short_backing_asset))) as [|Hne]; [done|].
      exfalso. apply (Hnone Hne k c Hc). pose proof (L _ _ Eq) as L1. pose proof (L _ _ Ho) as L2. cbn in L1, L2. unfold link_ok, bitasset_of in L1, L2.
      rewrite Ej in L1. rewrite Hi in L2. cbn in L1, L2. rewrite Hb in L1, L2. destruct L1, L2. congruence.
    + intros k q Hq. pose proof (L _ _ Hq) as L1. cbn in L1. unfold link_ok, bitasset_of in *. cbn. destruct (ao_bitasset_data_id q) as [j|]; [cbn in *|done].
      destruct (decide (j = i)) as [->|]; [|by rewrite lookup_insert_ne]. rewrite lookup_insert_eq. rewrite Hb in L1. split; [rewrite E1; apply L1|].
      intros Hc. congruence.
Qed.

Lemma update_bitasset_checked d op :
  asset_update_bitasset_do_evaluate d op = Ok tt → assets_ok d →
  ∃ o b, get_asset d op.(aub_asset_to_update) = Ok o ∧ bitasset_data d o = Ok b ∧ has_settlement b = false ∧
    (op.(aub_new_options).(bo_short_backing_asset) ≠ b.(bd_options).(bo_short_backing_asset) →
     ∃ x, get_dynamic_data d op.(aub_asset_to_update) = Ok x ∧ x.(dd_current_supply) = 0).
Proof.
  intros H Ha. unfold asset_update_bitasset_do_evaluate in H. apply bind_Ok in H as (o & Ho & H). do 2 apply bind_Ok in H as (? & _ & H).
  apply bind_Ok in H as (b & Hb & H). apply bind_Ok in H as (u & Hu & H). apply FC_ASSERT_Ok, negb_true_iff in Hu. cbv zeta in H.
  apply bind_Ok in H as (? & H & _). exists o, b. split; [done|]. split; [done|]. split; [done|]. intros Hne.
  rewrite (proj2 (Z.eqb_neq _ _) Hne) in H. cbn [negb] in H. apply bind_Ok in H as (dyn & Hx & H). apply bind_Ok in H as (w & Hw & _).
  apply FC_ASSERT_Ok, Z.eqb_eq in Hw. unfold dynamic_data in Hx. rewrite (dyn_id _ _ _ Ha Ho) in Hx. by eexists.
Qed.

Lemma asset_update_bitasset_sound {fs : FeeSchedule} {nth : NthElement} d op d' :
  chain_ok d → debts_in_supply d op.(aub_asset_to_update) → asset_update_bitasset_do_evaluate d op = Ok tt →
  asset_update_bitasset_do_apply d op = Ok d' → sound d d'.
Proof.
  intros Hd Hdebts He H. destruct (update_bitasset_checked _ _ He (co_assets _ Hd)) as (o & b & Ho & Hb & Hs & Hz).
  unfold asset_update_bitasset_do_apply in H. rewrite Ho, Ok_bind, Hb, Ok_bind in H.
  destruct (update_bitasset_object_options op d b o) as [b' check] eqn:Eu. destruct (updated_options _ _ _ _ _ _ Eu) as (E1 & E2 & E3 & E4).
  apply bind_Ok in H as (d1 & H1 & H). assert (sound d d1) as S1.
  { unfold modify_bitasset in H1. apply bind_Ok in H1 as (i & Hi & H1). apply from_option_Ok in Hi. apply bind_Ok in H1 as (j & Hj & [= <-]).
    pose proof (bitasset_get _ _ _ _ Hb Hi) as Hib. apply index_modify_Ok in Hj as (v & v' & Hv & [= <-] & ->). apply index_get_Ok in Ho.
    apply (bitasset_options_change d op.(aub_asset_to_update) o i b b'); try done. intros Hne. rewrite E2 in Hne. destruct (Hz Hne) as (x & Hx & Ex). by apply (Hdebts x). }
  destruct check; [|by injection H as <-]. apply bind_Ok in H as ([d2 c] & H2 & [= <-]).
  etransitivity; [exact S1|]. eapply check_calls_sound; [|exact H2]. by apply S1.
Qed.

(** *** The instances *)
Lemma claim_pool_core o : asset_claim_pool_validate o = Ok tt → o.(acp_amount_to_claim).(asset_id) = CORE.
Proof. unfold asset_claim_pool_validate. intros H. inv_ok. by propify. Qed.
Lemma update_options_valid o : asset_update_validate o = Ok tt → asset_options_validate o.(au_new_options) = Ok tt.
Proof. unfold asset_update_validate. intros H. do 2 apply bind_Ok in H as (? & _ & H). by apply bind_Ok in H as ([] & H & _). Qed.

Ltac sound_operation L :=
  apply sound_instances; intros d d1 o d' Hd Hf Hv He H; cbn in Hv, He, H;
  eapply L; first [eassumption | by apply claim_pool_core | by apply update_options_valid].
#[export] Instance asset_issue_conserving : Conserving asset_issue_operation.
Proof. sound_operation asset_issue_sound. Qed.
#[export] Instance asset_issue_steady : Steady asset_issue_operation.
Proof. sound_operation asset_issue_sound. Qed.
#[export] Instance asset_reserve_conserving : Conserving asset_reserve_operation.
Proof. sound_operation asset_reserve_sound. Qed.
#[export] Instance asset_reserve_steady : Steady asset_reserve_operation.
Proof. sound_operation asset_reserve_sound. Qed.
#[export] Instance asset_fund_fee_pool_conserving : Conserving asset_fund_fee_pool_operation.
Proof. sound_operation asset_fund_fee_pool_sound. Qed.
#[export] Instance asset_fund_fee_pool_steady : Steady asset_fund_fee_pool_operation.
Proof. sound_operation asset_fund_fee_pool_sound. Qed.
#[export] Instance asset_claim_fees_conserving : Conserving asset_claim_fees_operation.
Proof. sound_operation asset_claim_fees_sound. Qed.
#[export] Instance asset_claim_fees_steady : Steady asset_claim_fees_operation.
Proof. sound_operation asset_claim_fees_sound. Qed.
#[export] Instance asset_claim_pool_conserving : Conserving asset_claim_pool_operation.
Proof. sound_operation asset_claim_pool_sound. Qed.
#[export] Instance asset_claim_pool_steady : Steady asset_claim_pool_operation.
Proof. sound_operation asset_claim_pool_sound. Qed.
#[export] Instance asset_update_conserving : Conserving asset_update_operation.
Proof. sound_operation asset_update_sound. Qed.
#[export] Instance asset_update_steady : Steady asset_update_operation.
Proof. sound_operation asset_update_sound. Qed.
#[export] Instance asset_settle_conserving : Conserving asset_settle_operation.
Proof. sound_operation asset_settle_sound. Qed.
#[export] Instance asset_settle_steady : Steady asset_settle_operation.
Proof. sound_operation asset_settle_sound. Qed.
#[export] Instance asset_update_feed_producers_conserving {fs : FeeSchedule} {nth : NthElement} : Conserving asset_update_feed_producers_operation.
Proof. sound_operation asset_update_feed_producers_sound. Qed.
#[export] Instance asset_update_feed_producers_steady {fs : FeeSchedule} {nth : NthElement} : Steady asset_update_feed_producers_operation.
Proof. sound_operation asset_update_feed_producers_sound. Qed.
#[export] Instance asset_publish_feed_conserving {fs : FeeSchedule} {nth : NthElement} : Conserving asset_publish_feed_operation.
Proof. sound_operation asset_publish_feed_sound. Qed.
#[export] Instance asset_publish_feed_steady {fs : FeeSchedule} {nth : NthElement} : Steady asset_publish_feed_operation.
Proof. sound_operation asset_publish_feed_sound. Qed.
#[export] Instance asset_global_settle_conserving : Conserving asset_global_settle_operation.
Proof. sound_operation globally_settle_sound. Qed.
#[export] Instance asset_global_settle_steady : Steady asset_global_settle_operation.
Proof. sound_operation globally_settle_sound. Qed.

Lemma asset_update_issuer_sound d o d' : asset_update_issuer_do_apply d o = Ok d' → sound d d'.
Proof. intros H. eapply modify_asset_sound; [exact H|]. intros x x' Ex. cbn beta in Ex. by injection Ex as <-. Qed.
#[export] Instance asset_update_issuer_conserving : Conserving asset_update_issuer_operation.
Proof. sound_operation asset_update_issuer_sound. Qed.
#[export] Instance asset_update_issuer_steady : Steady asset_update_issuer_operation.
Proof. sound_operation asset_update_issuer_sound. Qed.

(** *** What a settlement from the fund pays *)
Lemma fund_pays_fair d b supply amt settled pays :
  modern d → trade_price b.(bd_settlement_price) → amt.(asset_id) = b.(bd_settlement_price).(base).(asset_id) → amount_in amt →
  0 ≤ b.(bd_settlement_fund) → fund_pays d b supply amt = Ok (settled, pays) →
  0 ≤ settled.(amount) ≤ b.(bd_settlement_fund) ∧ 0 ≤ pays.(amount) ≤ amt.(amount) ∧
  (if amt.(amount) =? supply then settled.(amount) = b.(bd_settlement_fund) ∧ pays = amt
   else worth b.(bd_settlement_price) settled ≤ worth b.(bd_settlement_price) pays) ∧
  (settled.(amount) = 0 → b.(bd_is_prediction_market) = true).
Proof.
  intros Hm Hp Hid Hin Hf H. unfold fund_pays in H. apply bind_Ok in H as (s & Hs & H). apply bind_Ok in H as (s1 & H1 & H). apply bind_Ok in H as (u & Hu & H).
  apply bind_Ok in H as (p & Hpays & [= -> ->]). unfold modern in Hm. change HARDFORK_CORE_184_TIME with HARDFORK_CORE_342_TIME in Hu.
  rewrite (proj2 (Z.ltb_lt _ _) Hm) in *. cbn [negb] in Hu. assert (settled.(amount) = 0 → b.(bd_is_prediction_market) = true) as Hz.
  { intros Ez. rewrite Ez in Hu. destruct (bd_is_prediction_market b); [done|]. by vm_compute in Hu. }
  unfold amount_in in Hin. destruct (Z.eqb_spec amt.(amount) supply) as [E|E].
  - injection H1 as <-. cbn [negb andb] in Hpays. injection Hpays as <-. cbn. split; [lia|]. split; [lia|]. done.
  - apply bind_Ok in H1 as (w & Hw & [= <-]). apply FC_ASSERT_Ok, Z.leb_le in Hw.
    pose proof (asset_mul_out _ _ _ (or_introl Hs)) as Hout. unfold amount_out in Hout. split; [lia|].
    cbn [negb andb] in Hpays. destruct (Z.eqb_spec s.(amount) 0) as [Ez|Ez]; cbn [negb andb] in Hpays.
    + injection Hpays as <-. split; [lia|]. split; [|done]. unfold worth. rewrite Ez. pose proof (unit_worth_pos b.(bd_settlement_price) amt.(asset_id) Hp). nia.
    + destruct (down_up _ _ _ _ Hp Hin Hs Hpays) as (_ & A & W & _). pose proof (asset_mul_out _ _ _ (or_intror Hpays)) as Hpo. unfold amount_out in Hpo.
      split; [lia|]. done.
Qed.

Lemma sub_supply_get d k z d' x :
  sub_supply d k z = Ok d' → get_dynamic_data d k = Ok x →
  d' = d <| d_dynamic_data := d'.(d_dynamic_data) |> ∧ get_dynamic_data d' k = Ok (x <| dd_current_supply := x.(dd_current_supply) - z |>).
Proof.
  unfold sub_supply. intros H Hx. apply modify_dynamic_data_Ok in H as (y & y' & Hy & Hf & ->). split; [done|].
  apply bind_Ok in Hf as (s & Hs & [= <-]). apply safe_sub_Ok in Hs as ->. apply from_option_Ok in Hx. replace y with x by congruence.
  apply from_option_Ok. cbn. apply lookup_insert_eq.
Qed.

Lemma adjust_only d acc x d' : adjust_balance d acc x = Ok d' → d' = d <| d_balances := d'.(d_balances) |>.
Proof. intros H. apply adjust_balance_Ok in H as [[-> _]|(abo & -> & _)]; [by destruct d|done]. Qed.
Lemma debit_only d acc x d' : debit d acc x = Ok d' → d' = d <| d_balances := d'.(d_balances) |>.
Proof. unfold debit. intros H. apply bind_Ok in H as (m & _ & H). by eapply adjust_only. Qed.

(** The settled branch step by step. *)
Lemma settle_from_fund d o d' a b x :
  chain_ok d → get_asset d o.(as_amount).(asset_id) = Ok a → bitasset_data d a = Ok b → get_dynamic_data d o.(as_amount).(asset_id) = Ok x →
  has_settlement b = true → asset_settle_do_apply d o = Ok d' →
  ∃ settled pays, fund_pays d b x.(dd_current_supply) o.(as_amount) = Ok (settled, pays) ∧
    (0 ≤ settled.(amount) →
     bitasset_data d' a = Ok (b <| bd_settlement_fund := b.(bd_settlement_fund) - settled.(amount) |>) ∧
     get_dynamic_data d' o.(as_amount).(asset_id) = Ok (x <| dd_current_supply := x.(dd_current_supply) - pays.(amount) |>) ∧
     ∀ k i, (get_balance d' k i).(amount) = (get_balance d k i).(amount)
       - (if decide ((k, i) = (o.(as_account), pays.(asset_id))) then pays.(amount) else 0)
       + (if decide ((k, i) = (o.(as_account), settled.(asset_id))) then settled.(amount) else 0)).
Proof.
  intros Hd Ha Hb Hx Es H. unfold asset_settle_do_apply in H. rewrite Ha, Ok_bind, Hb, Ok_bind, Es in H. unfold dynamic_data in H.
  rewrite (dyn_id _ _ _ (co_assets _ Hd) Ha), Hx, Ok_bind in H. apply bind_Ok in H as ([settled pays] & Hp & H). apply bind_Ok in H as (d1 & H1 & H).
  apply bind_Ok in H as (d2 & H2 & H3). exists settled, pays. split; [done|]. intros Hpos.
  pose proof (debit_only _ _ _ _ H1) as E1. pose proof (λ k i, debit_get _ _ _ _ k i H1) as G1.
  assert (∃ m, d2 = d1 <| d_bitasset_data := m |> <| d_balances := d2.(d_balances) |> ∧
    bitasset_data d2 a = Ok (b <| bd_settlement_fund := b.(bd_settlement_fund) - settled.(amount) |>) ∧
    ∀ k i, (get_balance d2 k i).(amount) = (get_balance d1 k i).(amount) + (if decide ((k, i) = (o.(as_account), settled.(asset_id))) then settled.(amount) else 0))
    as (m & E2 & B2 & G2).
  { assert (bitasset_data d1 a = Ok b) as Hb1 by (by rewrite E1). destruct (Z.ltb_spec 0 settled.(amount)).
    - apply bind_Ok in H2 as (d3 & H2 & H4). pose proof (adjust_only _ _ _ _ H4) as E4. pose proof (λ k i, adjust_balance_get _ _ _ _ k i H4) as G4.
      unfold modify_bitasset in H2. apply bind_Ok in H2 as (n & Hn & H2). apply from_option_Ok in Hn. apply bind_Ok in H2 as (j & Hj & [= <-]).
      apply index_modify_Ok in Hj as (v & v' & Hv & Hv' & ->). rewrite (bitasset_get _ _ _ _ Hb1 Hn) in Hv. injection Hv as <-.
      apply bind_Ok in Hv' as (f & Hfd & [= <-]). apply safe_sub_Ok in Hfd as ->. eexists. split; [exact E4|]. split; [|exact G4].
      rewrite E4. unfold bitasset_data. rewrite Hn. apply index_get_Ok. cbn. apply lookup_insert_eq.
    - injection H2 as <-. assert (settled.(amount) = 0) as Ez by lia. exists d1.(d_bitasset_data). split; [by destruct d1|]. split.
      + rewrite Hb1, Ez, Z.sub_0_r. by destruct b.
      + intros k i. rewrite Ez. case_decide; lia. }
  assert (get_dynamic_data d2 o.(as_amount).(asset_id) = Ok x) as Hx2 by (by rewrite E2, E1).
  destruct (sub_supply_get _ _ _ _ _ H3 Hx2) as [E3 X3]. split; [by rewrite E3|]. split; [exact X3|].
  intros k i. rewrite (same_balances d2 d') by (by rewrite E3). rewrite G2, G1. lia.
Qed.

(** ** Properties *)

(** Who hands in units of an asset that has been settled is paid from its fund, at
    the price of the settlement or worse by less than a unit, never more than the fund
    holds; fund and supply shrink by what was paid and what was taken, and who hands in
    the whole supply empties the fund. *)
Theorem asset_settle_pays d o d' a b x
  (Hd : chain_ok d) (Ha : get_asset d o.(as_amount).(asset_id) = Ok a) (Hb : bitasset_data d a = Ok b)
  (Hx : get_dynamic_data d o.(as_amount).(asset_id) = Ok x) (Hs : has_settlement b = true)
  (Hp : trade_price b.(bd_settlement_price)) (Hf : 0 ≤ b.(bd_settlement_fund)) (Hin : amount_in o.(as_amount))
  (H : asset_settle_do_apply d o = Ok d') :
  let p := b.(bd_settlement_price) in
  conserves d d' ∧ ∃ settled pays,
    settled.(asset_id) = b.(bd_options).(bo_short_backing_asset) ∧ pays.(asset_id) = o.(as_amount).(asset_id) ∧
    0 ≤ settled.(amount) ≤ b.(bd_settlement_fund) ∧ 0 ≤ pays.(amount) ≤ o.(as_amount).(amount) ∧
    bitasset_data d' a = Ok (b <| bd_settlement_fund := b.(bd_settlement_fund) - settled.(amount) |>) ∧
    get_dynamic_data d' o.(as_amount).(asset_id) = Ok (x <| dd_current_supply := x.(dd_current_supply) - pays.(amount) |>) ∧
    (get_balance d' o.(as_account) settled.(asset_id)).(amount) = (get_balance d o.(as_account) settled.(asset_id)).(amount) + settled.(amount) ∧
    (get_balance d' o.(as_account) pays.(asset_id)).(amount) = (get_balance d o.(as_account) pays.(asset_id)).(amount) - pays.(amount) ∧
    (if o.(as_amount).(amount) =? x.(dd_current_supply) then settled.(amount) = b.(bd_settlement_fund) ∧ pays = o.(as_amount)
     else worth p settled ≤ worth p pays).
Proof.
  cbn zeta. pose proof (asset_settle_sound _ _ _ Hd H) as (F & _). split; [exact F|].
  destruct (settle_from_fund _ _ _ _ _ _ Hd Ha Hb Hx Hs H) as (settled & pays & Hpays & Hrest).
  destruct (linked_get _ _ _ _ (co_linked _ Hd) (proj1 (index_get_Ok _ _ _) Ha) Hb) as [Eid Eps]. destruct (Eps Hs) as [Ebase Equote].
  assert (o.(as_amount).(asset_id) = b.(bd_settlement_price).(base).(asset_id)) as Hid by congruence.
  destruct (fund_pays_sides _ _ _ _ _ _ Hpays Hid) as (E1 & E2 & _).
  destruct (fund_pays_fair _ _ _ _ _ _ (co_modern _ Hd) Hp Hid Hin Hf Hpays) as (A1 & A2 & A3 & _).
  destruct (Hrest (proj1 A1)) as (B1 & B2 & B3). exists settled, pays. split; [congruence|]. split; [done|]. split; [done|]. split; [done|].
  split; [done|]. split; [done|]. assert (pays.(asset_id) ≠ settled.(asset_id)) as Hne by (destruct Hp as [_ Hp]; congruence).
  split; [|split; [|done]]; rewrite B3.
  - rewrite decide_False by (intros [= E]; congruence). rewrite decide_True by done. lia.
  - rewrite decide_True by done. rewrite decide_False by (intros [= E]; congruence). lia.
Qed.

(** *** No settlement order of the asset is left *)
Lemma settlement_head d a i s :
  d.(d_settlements).(objs) !! i = Some s → settlement_asset_id s = a →
  ∃ j c, first_settlement d a = Some (j, c) ∧ settlement_asset_id c = a ∧ d.(d_settlements).(objs) !! j = Some c.
Proof.
  intros Hi Ea. unfold first_settlement. destruct (head _) as [[j c]|] eqn:E.
  - destruct (range_head _ _ _ _ E) as (Hc & Hp & Hmin). exists j, c. split; [done|]. split; [|done]. cbn in Hp. apply Z.leb_le in Hp.
    destruct (Hmin i s Hi) as [[= <- <-]|Hle]; [cbn; apply Z.leb_le; lia|cbn in *; congruence|]. apply not_after_settle in Hle. cbn in Hle. lia.
  - apply (range_empty _ _ _ i s) in E; [|done]. cbn in E. rewrite Ea, Z.leb_refl in E. done.
Qed.

Lemma first_settlement_in d a j c : first_settlement d a = Some (j, c) → d.(d_settlements).(objs) !! j = Some c.
Proof. intros H. unfold first_settlement in H. destruct (range_head _ _ _ _ H) as (Hc & _). exact Hc. Qed.

Lemma cancel_settlements_all fuel d a :
  (size d.(d_settlements).(objs) ≤ fuel)%nat →
  cancel_settlements fuel d a ≠ Err out_of_fuel ∧
  ∀ d', cancel_settlements fuel d a = Ok d' → map_Forall (λ _ s, settlement_asset_id s ≠ a) d'.(d_settlements).(objs).
Proof.
  revert d. induction fuel as [|fuel IH]; intros d Hn; cbn [cancel_settlements].
  all: destruct (first_settlement d a) as [[id o]|] eqn:E.
  all: try (assert (map_Forall (λ _ s, settlement_asset_id s ≠ a) d.(d_settlements).(objs)) as Hnone
    by (intros i s Hi Ea; destruct (settlement_head _ _ _ _ Hi Ea) as (j & c & Ej & _); congruence); split; [done|by intros d' [= <-]]).
  all: pose proof (first_settlement_in _ _ _ _ E) as Ho.
  all: destruct (Z.eqb_spec (settlement_asset_id o) a) as [Ea|Ea]; [|assert (map_Forall (λ _ s, settlement_asset_id s ≠ a) d.(d_settlements).(objs)) as Hnone
    by (intros i s Hi Ei; destruct (settlement_head _ _ _ _ Hi Ei) as (j & c & Ej & Ec & _); congruence); split; [done|by intros d' [= <-]]].
  - exfalso. assert (size d.(d_settlements).(objs) = 0%nat) as Hz by lia. apply map_size_empty_inv in Hz. by rewrite Hz in Ho.
  - destruct (cancel_settle_order d id) as [d1|e] eqn:E1.
    + rewrite Ok_bind. apply IH. pose proof (cancel_settle_order_spec _ _ _ E1) as (_ & L & Hg).
      unfold cancel_settle_order in E1. apply bind_Ok in E1 as (s & _ & E1). apply bind_Ok in E1 as (d2 & E2 & E1). unfold remove_settlement in E1.
      apply bind_Ok in E1 as (i & Hi & [= <-]). apply index_remove_Ok in Hi as (v & Hv & ->). cbn.
      pose proof (accounts (P:=_ = Ok _) E2) as A2. apply account_step_frames in A2 as [_ (_ & _ & A2 & _)].
      cbn in Hv. rewrite A2 in *. rewrite map_size_delete_Some by (by eexists). lia.
    + split; [|done]. cbn. intros [= ->]. revert E1. change (terminates (cancel_settle_order d id)). unfold cancel_settle_order, get_settlement, remove_settlement. solve_terminates.
Qed.

(** What [do_evaluate] has checked of an update of the options. *)
Lemma update_checked d o a x :
  get_asset d o.(au_asset_to_update) = Ok a → get_dynamic_data d a.(ao_dynamic_asset_data_id) = Ok x → asset_update_do_evaluate d o = Ok tt →
  (x.(dd_current_supply) ≠ 0 → Z.land o.(au_new_options).(aop_issuer_permissions) (Z.lnot a.(ao_issuer_permissions)) = 0) ∧
  Z.land (Z.lxor o.(au_new_options).(aop_flags) a.(ao_flags)) (Z.lnot a.(ao_issuer_permissions)) = 0 ∧
  o.(au_issuer) = a.(ao_issuer).
Proof.
  intros Ha Hx H. unfold asset_update_do_evaluate in H. rewrite Ha, Ok_bind in H. do 2 apply bind_Ok in H as (? & _ & H).
  apply bind_Ok in H as (r & Hr & H). apply bind_Ok in H as (? & Hp & H). apply bind_Ok in H as (? & Hf & H). apply bind_Ok in H as (? & Hi & _).
  apply FC_ASSERT_Ok, Z.eqb_eq in Hf, Hi. split; [|done]. intros Hs. unfold dynamic_data in Hr. rewrite Hx in Hr.
  assert (r = true) as ->; [|by apply FC_ASSERT_Ok, Z.eqb_eq in Hp]. destruct (_ <? _); [by injection Hr as <-|]. rewrite Ok_bind in Hr. injection Hr as <-.
  by rewrite (proj2 (Z.eqb_neq _ _) Hs).
Qed.
Lemma land_lnot_bit x m i : 0 ≤ i → Z.land x (Z.lnot m) = 0 → Z.testbit x i = true → Z.testbit m i = true.
Proof.
  intros Hi H Hx. apply (f_equal (λ z, Z.testbit z i)) in H. rewrite Z.land_spec, Z.lnot_spec, Z.bits_0 in H by done. rewrite Hx in H. by destruct (Z.testbit m i).
Qed.

(** The issuer of an asset can change its options as far as its permissions go: a
    permission given up while units are out does not come back, a flag changes only if
    the asset had the permission for it, and once settling is disabled no settlement
    order is left, however many there were. *)
Theorem asset_update_permitted d o a x
  (Hd : chain_ok d) (Hv : asset_update_validate o = Ok tt) (He : asset_update_do_evaluate d o = Ok tt)
  (Ha : get_asset d o.(au_asset_to_update) = Ok a) (Hx : get_dynamic_data d a.(ao_dynamic_asset_data_id) = Ok x) :
  o.(au_issuer) = a.(ao_issuer) ∧ asset_update_do_apply d o ≠ Err out_of_fuel ∧
  ∀ d', asset_update_do_apply d o = Ok d' →
    conserves d d' ∧ chain_ok d' ∧ ∃ a', get_asset d' o.(au_asset_to_update) = Ok a' ∧
      (∀ i, 0 ≤ i → x.(dd_current_supply) ≠ 0 → Z.testbit a'.(ao_issuer_permissions) i = true → Z.testbit a.(ao_issuer_permissions) i = true) ∧
      (∀ i, 0 ≤ i → Z.testbit a'.(ao_flags) i ≠ Z.testbit a.(ao_flags) i → Z.testbit a.(ao_issuer_permissions) i = true) ∧
      (can_force_settle a = true → can_force_settle a' = false → map_Forall (λ _ s, settlement_asset_id s ≠ o.(au_asset_to_update)) d'.(d_settlements).(objs)).
Proof.
  destruct (update_checked _ _ _ _ Ha Hx He) as (C1 & C2 & C3). split; [done|].
  pose proof (cancel_settlements_all (size d.(d_settlements).(objs)) d o.(au_asset_to_update) ltac:(lia)) as [T All]. split.
  { unfold asset_update_do_apply. rewrite Ha, Ok_bind. apply terminates_bind; [destruct (flag_set _ _ && _); [exact T|discriminate]|]. intros d1 _.
    apply terminates_bind; [|intros d2 _; unfold modify_asset; solve_terminates]. destruct (is_market_issued a && _); [|discriminate].
    unfold bitasset_data, modify_bitasset. solve_terminates. }
  intros d' H. destruct (asset_update_sound _ _ _ (update_options_valid _ Hv) H) as (F & C & _). split; [done|]. split; [by apply C|].
  unfold asset_update_do_apply in H. rewrite Ha, Ok_bind in H. apply bind_Ok in H as (d1 & H1 & H). apply bind_Ok in H as (d2 & H2 & H).
  unfold modify_asset in H. apply bind_Ok in H as (i & Hi & [= <-]). apply index_modify_Ok in Hi as (v & v' & Hv2 & [= <-] & ->).
  eexists. split; [apply index_get_Ok; cbn; apply lookup_insert_eq|]. cbn. split; [|split].
  - intros i Hi Hs. apply land_lnot_bit; [done|by apply C1].
  - intros i Hi Hne. apply (land_lnot_bit _ _ _ Hi C2). rewrite Z.lxor_spec. destruct (Z.testbit _ i), (Z.testbit a.(ao_flags) i); done.
  - intros Hfs Hno. unfold can_force_settle in Hno at 1. cbn in Hno. apply negb_false_iff in Hno. rewrite Hfs, Hno in H1. cbn [andb] in H1.
    assert (d2.(d_settlements) = d1.(d_settlements)) as ->; [|exact (All d1 H1)].
    destruct (is_market_issued a && _); [|by injection H2 as <-]. apply bind_Ok in H2 as (b & _ & H2). destruct (bd_asset_cer_updated b); [by injection H2 as <-|].
    unfold modify_bitasset in H2. apply bind_Ok in H2 as (? & _ & H2). by apply bind_Ok in H2 as (? & _ & [= <-]).
Qed.

(** Account 6 holds 900 of the settled asset and hands in 101: 100 are taken, for 60. *)
Definition holder_db : database := settled_db <| d_balances := <[(6, 2) := AccountBalance 900 false]> settled_db.(d_balances) |>.
Lemma balances_chain d m : chain_ok d → chain_ok (d <| d_balances := m |>).
Proof. intros [A B C D E L]. by split. Qed.
Lemma holder_chain_ok : chain_ok holder_db.
Proof.
  apply balances_chain. unfold settled_db.
  destruct (globally_settle_asset market_db 2 settle_price) as [d'|e] eqn:H; [|exfalso; vm_compute in H; discriminate H].
  by apply (globally_settle_sound _ _ _ _ market_chain_ok H), market_chain_ok.
Qed.
Definition hand_in : asset_settle_operation := AssetSettle (Asset 10 0) 6 (Asset 101 2).

Lemma asset_settle_pays_witness :
  ∃ d', asset_settle_do_apply holder_db hand_in = Ok d' ∧ conserves holder_db d' ∧
    (get_balance d' 6 2).(amount) = 900 - 100 ∧ (get_balance d' 6 0).(amount) = 1000000 + 60.
Proof.
  destruct (asset_settle_do_apply holder_db hand_in) as [d'|e] eqn:E; [|exfalso; vm_compute in E; discriminate E].
  destruct (get_asset holder_db 2) as [a|e] eqn:Ea; [|exfalso; vm_compute in Ea; discriminate Ea].
  destruct (bitasset_data holder_db a) as [b|e] eqn:Eb; [|exfalso; vm_compute in Ea; injection Ea as <-; vm_compute in Eb; discriminate Eb].
  assert (b = settled_bitasset) as -> by (vm_compute in Ea; injection Ea as <-; vm_compute in Eb; injection Eb as <-; vm_compute; reflexivity).
  destruct (asset_settle_pays holder_db hand_in d' a settled_bitasset (DynamicData 2500 0 0) holder_chain_ok Ea Eb) as (F & _).
  - vm_compute. reflexivity.
  - vm_compute. reflexivity.
  - apply (bool_decide_unpack _). vm_compute. exact I.
  - vm_compute. discriminate.
  - split; vm_compute; discriminate.
  - exact E.
  - exists d'. split; [done|]. split; [done|]. vm_compute in E. injection E as <-. split; vm_compute; reflexivity.
Defined.

(** The issuer of asset 2 gives up all permissions and disables settling. *)
Definition new_options : asset_options :=
  AssetOptions 1000000 20 100 0 disable_force_settle (Price (Asset 1 2) (Asset 2 0)) ∅ ∅ ∅ ∅.
Definition update_db : database :=
  expired_db <| d_assets := Index (<[2 := (sample_asset 2) <| ao_bitasset_data_id := Some 0 |> <| ao_issuer_permissions := disable_force_settle |>]>
                                     expired_db.(d_assets).(objs)) 5 |>.
Definition fewer_rights : asset_update_operation := AssetUpdate (Asset 10 0) 3 2 None new_options.
Lemma update_chain_ok : chain_ok update_db.
Proof.
  destruct (so_chain _ (proj1 expired_db_ok)) as [A B C D E L]. split; try done.
  - intros k x Hx. cbn in Hx. apply lookup_insert_Some in Hx as [[<- <-]|[_ Hx]]; [|by apply (A k)]. apply (bool_decide_unpack _). vm_compute. exact I.
  - unfold backed. by apply (bool_decide_unpack _).
  - unfold linked. by apply (bool_decide_unpack _).
Qed.
Lemma asset_update_permitted_witness :
  ∃ d', asset_update_do_apply update_db fewer_rights = Ok d' ∧ size update_db.(d_settlements).(objs) = 3%nat ∧ conserves update_db d' ∧
    map_Forall (λ _ s, settlement_asset_id s ≠ 2) d'.(d_settlements).(objs).
Proof.
  destruct (get_asset update_db 2) as [a|e] eqn:Ea; [|exfalso; vm_compute in Ea; discriminate Ea].
  assert (get_dynamic_data update_db a.(ao_dynamic_asset_data_id) = Ok (DynamicData 2500 0 0) ∧ can_force_settle a = true) as [Ex Ef]
    by (vm_compute in Ea; injection Ea as <-; vm_compute; done).
  destruct (asset_update_permitted update_db fewer_rights a (DynamicData 2500 0 0) update_chain_ok) as (_ & _ & H); [vm_compute; reflexivity|vm_compute; reflexivity|exact Ea|exact Ex|].
  destruct (asset_update_do_apply update_db fewer_rights) as [d'|e] eqn:E; [|exfalso; vm_compute in E; discriminate E].
  destruct (H d' eq_refl) as (F & _ & a' & Ha' & _ & _ & Hs). exists d'. split; [done|]. split; [vm_compute; reflexivity|]. split; [done|].
  apply Hs; [exact Ef|]. vm_compute in E. injection E as <-. vm_compute in Ha'. injection Ha' as <-. vm_compute. reflexivity.
Defined.
