(* ===== verification/Schedule.v ===== *)
(** * The schedule of the witnesses

    [db_witness_schedule.cpp], the header of a block ([protocol/block.cpp]), its
    validation ([db_block.cpp]) and the dynamic properties it updates
    ([db_update.cpp]).  Time is divided into slots of [block_interval] seconds;
    every round the active witnesses are shuffled and each slot belongs to the
    next of them. *)
From S2P Require Import Prelude Safe Popcount Asset Objects Database Ledger Sample Referral.

(** ** Blocks

    An identifier is the list of its 40 hexadecimal digits.  Its first eight are
    the number of the block; the rest is a part of the SHA-224 hash of the
    header, [blk_digest]. *)
Record signed_block_header : Type := BlockHeader {
  blk_previous : list Z;
  blk_timestamp : Z;
  blk_witness : Z;
  blk_digest : list Z }.

Definition num_from_id (id : list Z) : Z := foldl (λ a h, a * 16 + h) 0 (take 8 id).
Definition block_num (b : signed_block_header) : Z := u32 (num_from_id b.(blk_previous) + 1).
(** The eight hexadecimal digits of a 32-bit number. *)
Definition hex8 (n : Z) : list Z := (λ i, (n `div` 16 ^ Z.of_nat i) `mod` 16) <$> [7; 6; 5; 4; 3; 2; 1; 0]%nat.
Definition block_id (b : signed_block_header) : list Z := hex8 (block_num b) ++ b.(blk_digest).

(** ** Slots *)
Definition block_interval (d : database) : Z := (parameters d).(cp_block_interval).

(** The declaration ([database.hpp]) says that slot 0 gives no witness; the code gives
    the one of the current slot.  The remainder of a division by the length of an
    empty schedule is undefined. *)
Definition get_scheduled_witness (d : database) (slot_num : Z) : result Z :=
  let current_aslot := u64 (d.(d_dgpo).(dgp_current_aslot) + slot_num) in
  from_option_exn undefined_behaviour
    (d.(d_witness_schedule) !! Z.to_nat (current_aslot `mod` Z.of_nat (length d.(d_witness_schedule)))).

Definition maintenance_flag : Z := 1.
Definition get_slot_time (d : database) (slot_num : Z) : Z :=
  if slot_num =? 0 then 0
  else if head_block_num d =? 0 then time_add (head_block_time d) (u32 (slot_num * block_interval d))
  else
    let head_block_abs_slot := head_block_time d `div` block_interval d in
    let head_slot_time := u32 (head_block_abs_slot * block_interval d) in
    let slot_num := if negb (Z.land d.(d_dgpo).(dgp_dynamic_flags) maintenance_flag =? 0)
                    then u32 (slot_num + (parameters d).(cp_maintenance_skip_slots)) else slot_num in
    time_add head_slot_time (u32 (slot_num * block_interval d)).

Definition get_slot_at_time (d : database) (when : Z) : Z :=
  let first_slot_time := get_slot_time d 1 in
  if when <? first_slot_time then 0
  else u32 ((when - first_slot_time) `div` block_interval d + 1).

(** ** update_witness_missed_blocks *)
Definition modify_witness (d : database) (id : Z) (f : witness_object → result witness_object) : result database :=
  i ← index_modify d.(d_witnesses) id f;
  Ok (d <| d_witnesses := i |>).

Definition miss_slot (d : database) (slot : Z) : result database :=
  w ← get_scheduled_witness d slot;
  modify_witness d w (λ w, Ok (w <| wit_total_missed ::= λ n, n + 1 |>)).

Definition update_witness_missed_blocks (d : database) (b : signed_block_header) : result (database * Z) :=
  let slot := get_slot_at_time d b.(blk_timestamp) in
  _ ← FC_ASSERT (negb (slot =? 0));
  let missed_blocks := slot - 1 in
  d1 ← (if missed_blocks <? Z.of_nat (length d.(d_witness_schedule))
        then foldM miss_slot d ((λ i, Z.of_nat i + 1) <$> seq 0 (Z.to_nat missed_blocks)) else Ok d);
  Ok (d1, missed_blocks).

Definition witness_participation_rate (d : database) : Z :=
  u64 (GRAPHENE_100_PERCENT * popcount d.(d_dgpo).(dgp_recent_slots_filled)) `div` 128.

(** ** update_witness_schedule *)
Definition swap_elements (l : list Z) (i j : nat) : result (list Z) :=
  match l !! i, l !! j with
  | Some x, Some y => Ok (<[i := y]> (<[j := x]> l))
  | _, _ => Err undefined_behaviour
  end.

(** The generator, seeded with the time of the block and the position. *)
Definition xorshift (now_hi i : Z) : Z :=
  let k := u64 (now_hi + u64 (i * 2685821657736338717)) in
  let k := Z.lxor k (Z.shiftr k 12) in
  let k := Z.lxor k (u64 (Z.shiftl k 25)) in
  let k := Z.lxor k (Z.shiftr k 27) in
  u64 (k * 2685821657736338717).

(** The positions from [i] on, [n] of them. *)
Fixpoint shuffle (now_hi : Z) (n i : nat) (l : list Z) : result (list Z) :=
  match n with
  | O => Ok l
  | S n' =>
      let jmax := u32 (Z.of_nat (length l) - Z.of_nat i) in
      let j := u32 (Z.of_nat i + xorshift now_hi (Z.of_nat i) `mod` jmax) in
      l ← swap_elements l i (Z.to_nat j);
      shuffle now_hi n' (S i) l
  end.

Definition update_witness_schedule (d : database) : result database :=
  let active := d.(d_gpo).(gpo_active_witnesses) in
  if Z.of_nat (length active) =? 0 then Err undefined_behaviour
  else if head_block_num d `mod` Z.of_nat (length active) =? 0 then
    let now_hi := u64 (Z.shiftl (head_block_time d) 32) in
    l ← shuffle now_hi (length active) 0 active;
    Ok (d <| d_witness_schedule := l |>)
  else Ok d.

(** ** update_global_dynamic_data *)
Definition GRAPHENE_RECENTLY_MISSED_COUNT_INCREMENT : Z := 4.
Definition GRAPHENE_RECENTLY_MISSED_COUNT_DECREMENT : Z := 3.
Definition GRAPHENE_MAX_UNDO_HISTORY : Z := 10000.

(** [uint128::operator<<=]. *)
Definition uint128_shl (x n : Z) : Z := if 128 <=? n then 0 else Z.shiftl x n `mod` uint128_mod.

Definition recently_missed (last_checkpoint : option Z) (block_num missed count : Z) : Z :=
  if block_num =? 1 then 0
  else if from_option (λ c, block_num <=? c) false last_checkpoint then 0
  else if negb (missed =? 0) then u32 (count + GRAPHENE_RECENTLY_MISSED_COUNT_INCREMENT * missed)
  else if GRAPHENE_RECENTLY_MISSED_COUNT_INCREMENT <? count then count - GRAPHENE_RECENTLY_MISSED_COUNT_DECREMENT
  else if 0 <? count then count - 1 else count.

(** The last checkpoint of the node, the flags that skip checks. *)
Record node_properties : Type := NodeProperties {
  np_last_checkpoint : option Z;
  np_skip_undo_history_check : bool;
  np_skip_witness_signature : bool;
  np_skip_witness_schedule_check : bool }.

(** The second result is the size both the undo and the fork database are set to. *)
Definition update_global_dynamic_data (np : node_properties) (d : database) (b : signed_block_header) (missed_blocks : Z) :
    result (database * Z) :=
  let n := block_num b in
  let d1 := d <| d_dgpo ::= λ dgp,
    dgp <| dgp_recently_missed_count := recently_missed np.(np_last_checkpoint) n missed_blocks dgp.(dgp_recently_missed_count) |>
        <| dgp_head_block_number := n |>
        <| dgp_head_block_id := block_id b |>
        <| dgp_time := b.(blk_timestamp) |>
        <| dgp_current_witness := b.(blk_witness) |>
        <| dgp_recent_slots_filled :=
             uint128_shl (uint128_add (uint128_shl dgp.(dgp_recent_slots_filled) 1) 1) missed_blocks |>
        <| dgp_current_aslot := u64 (dgp.(dgp_current_aslot) + u32 (missed_blocks + 1)) |> |> in
  let history := u32 (n - d1.(d_dgpo).(dgp_last_irreversible_block_num)) in
  _ ← (if np.(np_skip_undo_history_check) then Ok tt
       else GRAPHENE_ASSERT (history <? GRAPHENE_MAX_UNDO_HISTORY) undo_database_exception);
  Ok (d1, u32 (history + 1)).

(** ** The production and the validation of a header

    [validate_signee] tells whether the signature of the header recovers to the
    signing key of the witness: elliptic curve arithmetic of the secp256k1 library. *)
Section headers.
Context (validate_signee : signed_block_header → Z → bool).

Definition validate_block_header (np : node_properties) (d : database) (next_block : signed_block_header) :
    result witness_object :=
  _ ← FC_ASSERT (bool_decide (head_block_id d = next_block.(blk_previous)));
  _ ← FC_ASSERT (head_block_time d <? next_block.(blk_timestamp));
  witness ← index_get d.(d_witnesses) next_block.(blk_witness);
  _ ← (if np.(np_skip_witness_signature) then Ok tt else FC_ASSERT (validate_signee next_block next_block.(blk_witness)));
  _ ← (if np.(np_skip_witness_schedule_check) then Ok tt else
         let slot_num := get_slot_at_time d next_block.(blk_timestamp) in
         _ ← FC_ASSERT (0 <? slot_num);
         scheduled_witness ← get_scheduled_witness d slot_num;
         FC_ASSERT (next_block.(blk_witness) =? scheduled_witness));
  Ok witness.
End headers.

(** The header [_generate_block] builds for a slot of the witness; [digest] is
    the hash of what it signs. *)
Definition generate_header (d : database) (when witness_id : Z) (digest : list Z) : result signed_block_header :=
  let slot_num := get_slot_at_time d when in
  _ ← FC_ASSERT (0 <? slot_num);
  scheduled_witness ← get_scheduled_witness d slot_num;
  _ ← FC_ASSERT (scheduled_witness =? witness_id);
  Ok (BlockHeader (head_block_id d) when witness_id digest).

(** [update_maintenance_flag]. *)
Definition update_maintenance_flag (d : database) (new_maintenance_flag : bool) : database :=
  d <| d_dgpo ::= λ dpo, dpo <| dgp_dynamic_flags ::= λ f,
    Z.lor (Z.ldiff f maintenance_flag) (if new_maintenance_flag then maintenance_flag else 0) |> |>.

#[global] Arguments xorshift : simpl never.
#[global] Arguments block_id : simpl never.
#[global] Arguments block_num : simpl never.

(** ** The shuffle is a permutation *)
Lemma swap_elements_permutation l i j l' : swap_elements l i j = Ok l' → l' ≡ₚ l.
Proof.
  unfold swap_elements. destruct (l !! i) as [x|] eqn:Hi; [|done]. destruct (l !! j) as [y|] eqn:Hj; [|done].
  intros [= <-]. by apply Permutation_insert_swap.
Qed.
(** Every access of the shuffle is within the list. *)
Lemma shuffle_permutation now_hi n i l :
  (i + n = length l)%nat → Z.of_nat (length l) < 4294967296 → ∃ l', shuffle now_hi n i l = Ok l' ∧ l' ≡ₚ l.
Proof.
  revert i l. induction n as [|n IH]; intros i l Hn Hl; cbn; [by exists l|].
  rewrite (u32_small (Z.of_nat (length l) - Z.of_nat i)) by lia.
  pose proof (Z.mod_pos_bound (xorshift now_hi (Z.of_nat i)) (Z.of_nat (length l) - Z.of_nat i) ltac:(lia)) as Hm.
  rewrite u32_small by lia. set (j := Z.to_nat _). assert (j < length l)%nat as Hj by (unfold j; lia).
  destruct (swap_elements l i j) as [l1|e] eqn:Es; cbn.
  - apply swap_elements_permutation in Es as P. pose proof (Permutation_length P).
    destruct (IH (S i) l1) as (l' & -> & P'); [lia|lia|]. exists l'. split; [done|]. by rewrite P'.
  - unfold swap_elements in Es. destruct (lookup_lt_is_Some_2 l i ltac:(lia)) as [x Hx], (lookup_lt_is_Some_2 l j Hj) as [y Hy].
    by rewrite Hx, Hy in Es.
Qed.

(** The schedule from slot [s] on: the shuffled list, turned. *)
Lemma scheduled_round d s :
  d.(d_witness_schedule) ≠ [] → 0 ≤ d.(d_dgpo).(dgp_current_aslot) + s →
  d.(d_dgpo).(dgp_current_aslot) + s + Z.of_nat (length d.(d_witness_schedule)) < uint64_mod →
  let l := d.(d_witness_schedule) in
  let k := Z.to_nat ((d.(d_dgpo).(dgp_current_aslot) + s) `mod` Z.of_nat (length l)) in
  ∀ i, (i < length l)%nat → from_option_exn undefined_behaviour ((drop k l ++ take k l) !! i) =
                            get_scheduled_witness d (s + Z.of_nat i).
Proof.
  intros Hne H0 Hmax l k i Hi. unfold get_scheduled_witness. fold l. rewrite u64_small by (unfold l in Hi; lia).
  f_equal. set (a := d.(d_dgpo).(dgp_current_aslot)) in *. set (n := Z.of_nat (length l)) in *.
  assert (0 < n) as Hn by (unfold n; lia).
  pose proof (Z.mod_pos_bound (a + s) n Hn) as Hk. pose proof (Z.div_mod (a + s) n ltac:(lia)) as Hq.
  assert (length (drop k l) = length l - k)%nat as Hd by apply length_drop.
  destruct (decide (i < length l - k)%nat) as [Hlt|Hge].
  - rewrite lookup_app_l, lookup_drop by lia. f_equal.
    replace ((a + (s + Z.of_nat i)) `mod` n) with ((a + s) `mod` n + Z.of_nat i); [lia|].
    apply (Z.mod_unique_pos _ _ ((a + s) `div` n)); lia.
  - rewrite lookup_app_r, lookup_take_lt by lia. f_equal.
    replace ((a + (s + Z.of_nat i)) `mod` n) with ((a + s) `mod` n + Z.of_nat i - n); [lia|].
    apply (Z.mod_unique_pos _ _ ((a + s) `div` n + 1)); lia.
Qed.

(** ** The arithmetic of slots *)

(** No second of the schedule up to slot [k] overflows 32 bits. *)
Record slots_ok (d : database) (k : Z) : Prop := {
  so_interval : 0 < block_interval d;
  so_skip : 0 ≤ (parameters d).(cp_maintenance_skip_slots);
  so_time : 0 ≤ head_block_time d;
  so_slot : 0 ≤ k;
  so_range : head_block_time d + (k + (parameters d).(cp_maintenance_skip_slots) + 1) * block_interval d < 4294967296 }.

(** The second before which slot 1 starts one interval later. *)
Definition slot_base (d : database) : Z :=
  if head_block_num d =? 0 then head_block_time d
  else (head_block_time d `div` block_interval d) * block_interval d +
       (if negb (Z.land d.(d_dgpo).(dgp_dynamic_flags) maintenance_flag =? 0)
        then (parameters d).(cp_maintenance_skip_slots) * block_interval d else 0).

Lemma slot_base_bounds d k : slots_ok d k →
  0 ≤ slot_base d ∧ head_block_time d < slot_base d + block_interval d ∧
  slot_base d + (k + 1) * block_interval d < 4294967296.
Proof.
  intros [Hi Hs Ht Hk Hr]. unfold slot_base.
  pose proof (Z.div_mod (head_block_time d) (block_interval d) ltac:(lia)).
  pose proof (Z.mod_pos_bound (head_block_time d) (block_interval d) Hi).
  assert (0 ≤ (parameters d).(cp_maintenance_skip_slots) * block_interval d) by nia.
  replace ((k + _ + 1) * block_interval d)
    with ((k + 1) * block_interval d + (parameters d).(cp_maintenance_skip_slots) * block_interval d) in Hr by ring.
  assert (0 ≤ head_block_time d `div` block_interval d) by (apply Z.div_pos; lia).
  assert (0 ≤ (head_block_time d `div` block_interval d) * block_interval d) by nia.
  repeat case_match; lia.
Qed.

Lemma get_slot_time_base d k j : slots_ok d k → 1 ≤ j ≤ k + 1 → get_slot_time d j = slot_base d + j * block_interval d.
Proof.
  intros Hok Hj. pose proof (slot_base_bounds d k Hok) as (Hb & _ & Hmax). destruct Hok as [Hi Hs Ht Hk Hr].
  unfold get_slot_time, slot_base, time_add in *. destruct (Z.eqb_spec j 0); [lia|].
  set (I := block_interval d) in *. set (skip := (parameters d).(cp_maintenance_skip_slots)) in *.
  set (q := head_block_time d `div` I) in *.
  assert (0 ≤ q) by (apply Z.div_pos; lia).
  assert (q * I ≤ head_block_time d) by (unfold q; rewrite Z.mul_comm; apply Z.mul_div_le; lia).
  assert (0 ≤ j * I ≤ (k + 1) * I) by nia. assert (0 ≤ skip * I) by nia. assert (0 ≤ q * I) by nia.
  assert (0 ≤ j + skip ≤ (j + skip) * I) by nia. assert ((j + skip) * I = j * I + skip * I) by ring.
  assert ((k + skip + 1) * I = (k + 1) * I + skip * I) by ring.
  rewrite (u32_small (j + skip)), (u32_small (q * I)), (u32_small (j * I)) by lia.
  destruct (head_block_num d =? 0); [rewrite u32_small; lia|]. destruct (negb _).
  - rewrite (u32_small ((j + skip) * I)) by lia. rewrite u32_small; lia.
  - rewrite (u32_small (j * I)) by lia. rewrite u32_small; lia.
Qed.

Lemma get_slot_at_time_base d k when : slots_ok d k → when < 4294967296 →
  get_slot_at_time d when =
    if when <? slot_base d + block_interval d then 0 else (when - slot_base d) `div` block_interval d.
Proof.
  intros Hok Hw. pose proof (slot_base_bounds d k Hok) as (Hb & Hh & Hmax). pose proof Hok as [Hi Hs Ht Hk Hr].
  unfold get_slot_at_time. rewrite (get_slot_time_base d k 1 Hok) by lia. rewrite Z.mul_1_l.
  destruct (Z.ltb_spec when (slot_base d + block_interval d)); [done|].
  replace (when - slot_base d) with (when - (slot_base d + block_interval d) + 1 * block_interval d) by lia.
  rewrite Z.div_add by lia. apply u32_small. set (x := when - (slot_base d + block_interval d)) in *.
  assert (0 ≤ x `div` block_interval d) by (apply Z.div_pos; lia).
  assert (x `div` block_interval d ≤ x) by (apply Z.div_le_upper_bound; nia). lia.
Qed.

(** ** Missed blocks *)
Lemma modify_witness_frame d o f d' : modify_witness d o f = Ok d' → d' = d <| d_witnesses := d'.(d_witnesses) |>.
Proof. intros H. unfold modify_witness in H. by inv_ok. Qed.

Definition scheduled (d : database) (s : Z) : option Z :=
  match get_scheduled_witness d s with Ok w => Some w | Err _ => None end.
(** The slots a witness was scheduled for and did not fill. *)
Definition missed_by (d : database) (w : Z) (slots : list Z) : Z :=
  lsum (λ s, if from_option (Z.eqb w) false (scheduled d s) then 1 else 0) slots.

Lemma missed_by_witnesses d i w slots : missed_by (d <| d_witnesses := i |>) w slots = missed_by d w slots.
Proof. done. Qed.

Lemma miss_slots d slots d' :
  foldM miss_slot d slots = Ok d' →
  d' = d <| d_witnesses := d'.(d_witnesses) |> ∧
  ∀ w o, d.(d_witnesses).(objs) !! w = Some o →
    d'.(d_witnesses).(objs) !! w = Some (o <| wit_total_missed ::= λ n, n + missed_by d w slots |>).
Proof.
  revert d. induction slots as [|s slots IH]; intros d H; cbn in H.
  { inv_ok. split; [by destruct d'|]. intros w o Ho. rewrite Ho. f_equal. destruct o. cbn. by rewrite Z.add_0_r. }
  apply bind_Ok in H as (d1 & H1 & H). apply IH in H as [E H]. unfold miss_slot in H1.
  apply bind_Ok in H1 as (v & Hv & H1). unfold modify_witness in H1. inv_ok.
  match goal with Hm : index_modify _ _ _ = Ok _ |- _ => apply index_modify_Ok in Hm as (u & u' & Hu & [= <-] & ->) end.
  split; [rewrite E; done|]. intros w o Ho. unfold missed_by. cbn [lsum]. fold (missed_by d w slots).
  unfold scheduled at 1. rewrite Hv. cbn [from_option]. destruct (Z.eqb_spec w v) as [->|Hw].
  - rewrite Ho in Hu. injection Hu as <-. rewrite (H v _ (lookup_insert_eq _ _ _)), missed_by_witnesses.
    destruct o. cbn. do 2 f_equal. lia.
  - rewrite (H w o), missed_by_witnesses; [done|]. cbn. by rewrite lookup_insert_ne.
Qed.

(** ** Identifiers carry the number of the block *)
Lemma num_from_id_block_id b : num_from_id (block_id b) = block_num b.
Proof.
  unfold num_from_id, block_id, hex8. pose proof (Z.mod_pos_bound (num_from_id b.(blk_previous) + 1) 4294967296 ltac:(lia)) as Hn.
  fold (u32 (num_from_id b.(blk_previous) + 1)) in Hn. fold (block_num b) in Hn. set (n := block_num b) in *. clearbody n.
  assert (∀ i : nat, (n `div` 16 ^ Z.of_nat i) `mod` 16 = n `div` 16 ^ Z.of_nat i - 16 * (n `div` 16 ^ Z.of_nat (S i))) as E.
  { intros i. rewrite Nat2Z.inj_succ, Z.pow_succ_r by lia. rewrite (Z.mul_comm 16 (16 ^ _)), <-Z.div_div by lia. apply Z.mod_eq. lia. }
  assert (n `div` 16 ^ Z.of_nat 8 = 0) as E8 by (apply Z.div_small; exact Hn).
  cbn [fmap list_fmap app take foldl]. rewrite !E, E8. change (16 ^ Z.of_nat 0) with 1. rewrite Z.div_1_r. rewrite take_0. cbn [foldl]. lia.
Qed.

(** ** The state after a block *)
Lemma update_witness_missed_blocks_Ok d b d1 missed :
  update_witness_missed_blocks d b = Ok (d1, missed) →
  missed + 1 = get_slot_at_time d b.(blk_timestamp) ∧ d1 = d <| d_witnesses := d1.(d_witnesses) |> ∧
  ∀ w o, d.(d_witnesses).(objs) !! w = Some o →
    d1.(d_witnesses).(objs) !! w = Some (o <| wit_total_missed ::= λ n, n +
      (if missed <? Z.of_nat (length d.(d_witness_schedule))
       then missed_by d w ((λ i, Z.of_nat i + 1) <$> seq 0 (Z.to_nat missed)) else 0) |>).
Proof.
  unfold update_witness_missed_blocks. intros H. apply bind_Ok in H as (? & _ & H).
  apply bind_Ok in H as (d2 & H2 & H). apply Ok_inj in H. injection H as -> <-. split; [lia|].
  case_match; [by apply miss_slots|]. apply Ok_inj in H2 as <-. split; [by destruct d|].
  intros w o ->. f_equal. destruct o. cbn. by rewrite Z.add_0_r.
Qed.

Lemma update_global_dynamic_data_Ok np d b missed d' size :
  update_global_dynamic_data np d b missed = Ok (d', size) →
  d'.(d_witnesses) = d.(d_witnesses) ∧ d'.(d_witness_schedule) = d.(d_witness_schedule) ∧ d'.(d_gpo) = d.(d_gpo) ∧
  head_block_num d' = block_num b ∧ head_block_id d' = block_id b ∧ head_block_time d' = b.(blk_timestamp) ∧
  d'.(d_dgpo).(dgp_current_aslot) = u64 (d.(d_dgpo).(dgp_current_aslot) + u32 (missed + 1)) ∧
  (np.(np_skip_undo_history_check) = false → size ≤ GRAPHENE_MAX_UNDO_HISTORY).
Proof.
  unfold update_global_dynamic_data. intros H. inv_ok; propify; repeat split; try done.
  intros _. unfold GRAPHENE_MAX_UNDO_HISTORY in *. set (h := u32 (block_num b - _)) in *.
  assert (0 ≤ h) by (apply Z.mod_pos_bound; lia). rewrite u32_small; lia.
Qed.

(** ** Properties of the schedule *)

(** C37. Slots and seconds correspond: slot 1 starts after the head block, a
    second lies in slot [j] if and only if it lies between the start of [j] and
    the start of [j + 1], on a chain without blocks, between blocks and after
    the gap of a maintenance. *)
Theorem slot_time_roundtrip d k j when
  (Hok : slots_ok d k) (Hj : 1 ≤ j ≤ k) (Hw : 0 ≤ when < 4294967296) :
  head_block_time d < get_slot_time d 1 ∧
  (get_slot_at_time d when = j ↔ get_slot_time d j ≤ when < get_slot_time d (j + 1)) ∧
  (get_slot_at_time d when = 0 ↔ when < get_slot_time d 1).
Proof.
  rewrite !(get_slot_time_base d k _ Hok) by lia. rewrite (get_slot_at_time_base d k when Hok) by lia.
  destruct (slot_base_bounds d k Hok) as (Hb & Hh & _). pose proof (so_interval _ _ Hok) as Hi.
  set (I := block_interval d) in *. set (x := when - slot_base d).
  pose proof (Z.div_mod x I ltac:(lia)). pose proof (Z.mod_pos_bound x I Hi).
  split; [lia|]. destruct (Z.ltb_spec when (slot_base d + I)).
  - split; [|lia]. split; [lia|]. nia.
  - split; [|split; [|lia]].
    + split; [intros <-; lia|]. intros Hx. nia.
    + assert (1 ≤ x `div` I) by (apply Z.div_le_lower_bound; lia). lia.
Qed.

(** C36. At the start of a round the witnesses are shuffled, with no access out of range,
    and every active witness gets its slot: among any consecutive slots of the future,
    as many as there are active witnesses, the scheduled witnesses are a permutation of
    the active ones, whatever the random generator gives. *)
Theorem every_round_schedules_every_witness d s
  (Hactive : d.(d_gpo).(gpo_active_witnesses) ≠ [])
  (Hcount : Z.of_nat (length d.(d_gpo).(gpo_active_witnesses)) < 4294967296)
  (Hround : head_block_num d `mod` Z.of_nat (length d.(d_gpo).(gpo_active_witnesses)) = 0)
  (H0 : 0 ≤ d.(d_dgpo).(dgp_current_aslot)) (Hs : 1 ≤ s)
  (Hmax : d.(d_dgpo).(dgp_current_aslot) + s + Z.of_nat (length d.(d_gpo).(gpo_active_witnesses)) < uint64_mod) :
  ∃ d' ws, update_witness_schedule d = Ok d' ∧ ws ≡ₚ d.(d_gpo).(gpo_active_witnesses) ∧
    (∀ i w, ws !! i = Some w → get_scheduled_witness d' (s + Z.of_nat i) = Ok w) ∧
    ∀ w, w ∈ d.(d_gpo).(gpo_active_witnesses) →
      ∃ i, (i < length d.(d_gpo).(gpo_active_witnesses))%nat ∧ get_scheduled_witness d' (s + Z.of_nat i) = Ok w.
Proof.
  set (active := d.(d_gpo).(gpo_active_witnesses)) in *. unfold update_witness_schedule. fold active. cbv zeta.
  assert (length active ≠ 0%nat) as Hne by (by intros ?%nil_length_inv). destruct (Z.eqb_spec (Z.of_nat (length active)) 0); [lia|].
  rewrite Hround, Z.eqb_refl.
  destruct (shuffle_permutation (u64 (Z.shiftl (head_block_time d) 32)) (length active) 0 active eq_refl Hcount) as (sched & -> & P).
  cbn [mbind result_bind]. pose proof (Permutation_length P) as Hlen.
  set (d' := d <| d_witness_schedule := sched |>). pose proof (scheduled_round d' s) as R. cbn in R.
  rewrite Hlen in R. specialize (R ltac:(intros E; rewrite E in P; by apply Permutation_nil_l in P) ltac:(lia) Hmax).
  set (k := Z.to_nat _) in R. exists d', (drop k sched ++ take k sched).
  assert (drop k sched ++ take k sched ≡ₚ active) as Pr by (rewrite Permutation_app_comm, take_drop; done).
  assert (∀ i w, (drop k sched ++ take k sched) !! i = Some w → get_scheduled_witness d' (s + Z.of_nat i) = Ok w) as Hl.
  { intros i w Hi. pose proof (lookup_lt_Some _ _ _ Hi) as Hlt. rewrite (Permutation_length Pr) in Hlt.
    rewrite <-R by done. by rewrite Hi. }
  split; [done|]. split; [done|]. split; [done|]. intros w Hw. rewrite <-Pr in Hw. apply list_elem_of_lookup in Hw as [i Hi].
  exists i. split; [|by apply Hl]. rewrite <-(Permutation_length Pr). by eapply lookup_lt_Some.
Qed.

(** C38. A header a witness builds for its own slot is accepted by every node
    with the same state: it extends the head block, is later, and is signed by
    the scheduled witness. *)
Theorem generated_header_accepted validate_signee np d k when w digest b wit
  (Hok : slots_ok d k) (Hw : when < 4294967296) (Hwit : index_get d.(d_witnesses) w = Ok wit)
  (Hsig : validate_signee b w = true) (H : generate_header d when w digest = Ok b) :
  validate_block_header validate_signee np d b = Ok wit.
Proof.
  unfold generate_header in H. inv_ok. propify. subst.
  pose proof (slot_base_bounds d k Hok) as (_ & Hh & _).
  match goal with Hs : 0 < get_slot_at_time d when |- _ => rename Hs into Hslot end.
  assert (head_block_time d < when) as Hlater.
  { rewrite (get_slot_at_time_base d k when Hok Hw) in Hslot. case_match; propify; lia. }
  unfold validate_block_header. cbn. rewrite bool_decide_eq_true_2 by done. rewrite (proj2 (Z.ltb_lt _ _) Hlater). cbn.
  rewrite Hwit. cbn. rewrite Hsig.
  match goal with Hs : get_scheduled_witness _ _ = Ok _ |- _ => rewrite Hs; clear Hs end.
  rewrite (proj2 (Z.ltb_lt _ _) Hslot). cbn. rewrite Z.eqb_refl. by repeat case_match.
Qed.

(** C39. The block that is accepted moves the chain on: its number is that of
    the head block plus one and stays the number in its identifier, the absolute
    slot advances by its slot and is the turn of the witness that signed it, its
    own time is in slot 0 from then on, and each slot that was skipped is counted
    against its witness, unless a whole round was skipped. *)
Theorem accepted_block_advances validate_signee np d k b wit d1 missed d2 size
  (Hok : slots_ok d k) (Hslots : slots_ok d2 k)
  (Hsched : np.(np_skip_witness_schedule_check) = false)
  (Hid : num_from_id (head_block_id d) = head_block_num d) (Hnum : 0 ≤ head_block_num d < 4294967295)
  (Haslot : 0 ≤ d.(d_dgpo).(dgp_current_aslot) < uint64_mod - 4294967296)
  (Hv : validate_block_header validate_signee np d b = Ok wit)
  (H1 : update_witness_missed_blocks d b = Ok (d1, missed))
  (H2 : update_global_dynamic_data np d1 b missed = Ok (d2, size)) :
  let aslot := d2.(d_dgpo).(dgp_current_aslot) in
  let n := Z.of_nat (length d.(d_witness_schedule)) in
  head_block_num d2 = head_block_num d + 1 ∧ num_from_id (head_block_id d2) = head_block_num d2 ∧
  aslot = d.(d_dgpo).(dgp_current_aslot) + get_slot_at_time d b.(blk_timestamp) ∧
  d2.(d_witness_schedule) !! Z.to_nat (aslot `mod` n) = Some b.(blk_witness) ∧
  get_slot_at_time d2 b.(blk_timestamp) = 0 ∧
  ∀ w o, d.(d_witnesses).(objs) !! w = Some o → ∃ o', d2.(d_witnesses).(objs) !! w = Some o' ∧
    o'.(wit_total_missed) = o.(wit_total_missed) +
      (if missed <? n then missed_by d w ((λ i, Z.of_nat i + 1) <$> seq 0 (Z.to_nat missed)) else 0).
Proof.
  intros aslot n. apply update_witness_missed_blocks_Ok in H1 as (Hm & E1 & Hmiss).
  apply update_global_dynamic_data_Ok in H2 as (Ew & Es & Eg & En & Ei & Etm & Ea & _).
  unfold validate_block_header in Hv. rewrite Hsched in Hv. apply bind_Ok in Hv as (? & Hprev & Hv).
  apply FC_ASSERT_Ok in Hprev. apply bool_decide_eq_true in Hprev. apply bind_Ok in Hv as (? & _ & Hv).
  apply bind_Ok in Hv as (? & _ & Hv). apply bind_Ok in Hv as (? & _ & Hv). apply bind_Ok in Hv as (? & Hv & _).
  apply bind_Ok in Hv as (? & Hslot & Hv). apply bind_Ok in Hv as (sw & Hsw & Hv).
  apply FC_ASSERT_Ok in Hslot, Hv. apply Z.ltb_lt in Hslot. apply Z.eqb_eq in Hv. subst sw.
  assert (get_slot_at_time d b.(blk_timestamp) < 4294967296) as Hs32.
  { unfold get_slot_at_time. destruct (_ <? get_slot_time d 1); [lia|]. apply Z.mod_pos_bound. lia. }
  assert (aslot = d.(d_dgpo).(dgp_current_aslot) + get_slot_at_time d b.(blk_timestamp)) as Ha.
  { unfold aslot. rewrite Ea, E1. cbn. unfold uint64_mod in *. rewrite u32_small, u64_small; unfold uint64_mod; lia. }
  split; [|split; [by rewrite Ei, En, num_from_id_block_id|split; [done|split; [|split]]]].
  - rewrite En. unfold block_num. rewrite <-Hprev, Hid. apply u32_small. lia.
  - rewrite Ha, Es, E1. cbn. unfold get_scheduled_witness in Hsw. rewrite u64_small in Hsw by lia. by apply from_option_Ok in Hsw.
  - pose proof (slot_base_bounds d2 k Hslots) as (_ & Hh & _). rewrite Etm in Hh. unfold get_slot_at_time.
    rewrite (get_slot_time_base d2 k 1 Hslots) by (destruct Hslots; lia).
    destruct (Z.ltb_spec b.(blk_timestamp) (slot_base d2 + 1 * block_interval d2)); [done|lia].
  - intros w o Ho. eexists. split; [rewrite Ew; by apply Hmiss|]. done.
Qed.

(** ** Witnesses *)
Definition schedule_db : database :=
  sample_db
    <| d_witnesses := Index {[ 1 := Witness 6 0 None 0 0 0 0; 2 := Witness 7 0 None 0 0 0 0; 3 := Witness 8 0 None 0 0 0 0 ]} 4 |>
    <| d_gpo ::= λ g, g <| gpo_active_witnesses := [1; 2; 3] |> |>
    <| d_witness_schedule := [3; 1; 2] |>
    <| d_dgpo ::= λ g, g <| dgp_head_block_number := 39999999 |> <| dgp_head_block_id := hex8 39999999 ++ replicate 32 5 |>
         <| dgp_last_irreversible_block_num := 39999990 |> <| dgp_current_aslot := 41000000 |>
         <| dgp_dynamic_flags := 1 |> |>.
Definition any_signature (b : signed_block_header) (w : Z) : bool := true.
Definition sample_node : node_properties := NodeProperties (Some 100) false false false.
Definition sample_header : signed_block_header :=
  BlockHeader (hex8 39999999 ++ replicate 32 5) 1650000018 2 (replicate 32 9).

Lemma schedule_db_slots_ok : slots_ok schedule_db 10.
Proof. split; vm_compute; congruence. Qed.

(** The head block is a maintenance block: three slots are skipped after it. *)
Lemma slot_time_roundtrip_witness :
  get_slot_time schedule_db 1 = 1650000012 ∧
  (get_slot_at_time schedule_db 1650000019 = 3 ↔
     get_slot_time schedule_db 3 ≤ 1650000019 < get_slot_time schedule_db 4) ∧ get_slot_at_time schedule_db 1650000019 = 3.
Proof.
  split; [vm_compute; reflexivity|]. split; [|vm_compute; reflexivity].
  apply (slot_time_roundtrip schedule_db 10 3 1650000019); [exact schedule_db_slots_ok|lia..].
Defined.

Lemma every_round_schedules_every_witness_witness :
  ∃ d' i, update_witness_schedule schedule_db = Ok d' ∧ (i < 3)%nat ∧ get_scheduled_witness d' (1 + Z.of_nat i) = Ok 2.
Proof.
  destruct (every_round_schedules_every_witness schedule_db 1) as (d' & ws & H1 & _ & _ & H).
  - vm_compute. discriminate.
  - vm_compute. reflexivity.
  - vm_compute. reflexivity.
  - vm_compute. congruence.
  - lia.
  - vm_compute. reflexivity.
  - destruct (H 2) as (i & Hi & Hw); [vm_compute; right; left|]. exists d', i. split; [exact H1|]. split; [exact Hi|exact Hw].
Defined.

Lemma generated_header_accepted_witness :
  generate_header schedule_db 1650000018 2 (replicate 32 9) = Ok sample_header ∧
  is_ok (validate_block_header any_signature sample_node schedule_db sample_header) = true.
Proof.
  split; [vm_compute; reflexivity|].
  rewrite (generated_header_accepted any_signature sample_node schedule_db 10 1650000018 2 (replicate 32 9) sample_header
             (Witness 7 0 None 0 0 0 0)); [reflexivity|exact schedule_db_slots_ok|lia|vm_compute; reflexivity..].
Defined.

Lemma accepted_block_advances_witness :
  let r := ok_or (schedule_db, 0) (update_witness_missed_blocks schedule_db sample_header) in
  let d2 := (ok_or (schedule_db, 0) (update_global_dynamic_data sample_node r.1 sample_header r.2)).1 in
  r.2 = 2 ∧ head_block_num d2 = 40000000 ∧ d2.(d_dgpo).(dgp_current_aslot) = 41000003.
Proof.
  intros r d2. split; [vm_compute; reflexivity|].
  destruct (accepted_block_advances any_signature sample_node schedule_db 10 sample_header (Witness 7 0 None 0 0 0 0) r.1 r.2 d2
              (ok_or (schedule_db, 0) (update_global_dynamic_data sample_node r.1 sample_header r.2)).2)
    as (Hn & _ & Ha & _).
  - exact schedule_db_slots_ok.
  - split; vm_compute; congruence.
  - reflexivity.
  - vm_compute. reflexivity.
  - vm_compute. split; congruence.
  - vm_compute. split; congruence.
  - vm_compute. reflexivity.
  - vm_compute. reflexivity.
  - vm_compute. reflexivity.
  - rewrite Hn, Ha. split; vm_compute; reflexivity.
Defined.
