(* ===== verification/ForkDb.v ===== *)
(** * The fork database and the switch to the longest fork

    [fork_database.cpp] keeps the recent blocks of all forks in an index by
    identifier, each with a weak pointer to its predecessor, and the head of the
    longest fork.  [database::push_block] ([db_block.cpp]) applies a block that
    extends the chain, or pops the blocks of the current fork and applies those of
    a longer one; when one of these throws it goes back. *)
From stdpp Require Import sorting.
From S2P Require Import Prelude Safe Popcount Asset Objects Database Ledger Sample Referral Schedule.

(** ** Items and pointers

    A pointer is the identifier of the item it was taken from with the serial
    number of its allocation.  [lock] of a weak pointer finds the item as long as
    something owns it: the index, the head or a [held] local variable. *)
Section fork_database.
Context {B : Type} (header : B → signed_block_header).

Record fork_item : Type := ForkItem {
  fi_serial : Z;
  fi_prev : option (list Z * Z);
  fi_data : B }.

Definition fi_id (it : fork_item) : list Z := block_id (header it.(fi_data)).
Definition fi_num (it : fork_item) : Z := block_num (header it.(fi_data)).
Definition previous_id (it : fork_item) : list Z := (header it.(fi_data)).(blk_previous).
Definition pointer_to (it : fork_item) : list Z * Z := (fi_id it, it.(fi_serial)).

Record fork_database : Type := ForkDatabase {
  fdb_max_size : Z;
  fdb_index : gmap (list Z) fork_item;
  fdb_head : option fork_item;
  fdb_next_serial : Z }.
#[export] Instance eta_fork_item : Eta fork_item := λ x, ForkItem (fi_serial x) (fi_prev x) (fi_data x).
#[export] Instance eta_fork_database : Eta fork_database := λ x,
  ForkDatabase (fdb_max_size x) (fdb_index x) (fdb_head x) (fdb_next_serial x).

Definition is_pointed (p : list Z * Z) (it : fork_item) : bool := bool_decide (pointer_to it = p).

(** [prev.lock()]. *)
Definition lock_prev (held : list fork_item) (d : fork_database) (it : fork_item) : option fork_item :=
  match it.(fi_prev) with
  | None => None
  | Some p =>
      match filter (λ x, is_pointed p x = true) (option_list (d.(fdb_index) !! p.1) ++ option_list d.(fdb_head) ++ held) with
      | x :: _ => Some x
      | [] => None
      end
  end.

(** ** The operations *)
Definition no_block_id : list Z := replicate 40 0.
Definition index_insert (i : gmap (list Z) fork_item) (it : fork_item) : gmap (list Z) fork_item :=
  match i !! fi_id it with Some _ => i | None => <[fi_id it := it]> i end.
(** Erasing from the front of the index by number while the number is too low. *)
Definition erase_below (min_num : Z) (i : gmap (list Z) fork_item) : gmap (list Z) fork_item :=
  filter (λ kv, min_num ≤ fi_num kv.2) i.

Definition fork_pop_block (held : list fork_item) (d : fork_database) : result fork_database :=
  head ← from_option_exn assert_exception d.(fdb_head);
  prev ← from_option_exn assert_exception (lock_prev held d head);
  Ok (d <| fdb_head := Some prev |>).

Definition start_block (d : fork_database) (b : B) : fork_database :=
  let item := ForkItem d.(fdb_next_serial) None b in
  d <| fdb_index := index_insert d.(fdb_index) item |> <| fdb_head := Some item |> <| fdb_next_serial ::= Z.succ |>.

Definition fork_push_block (d : fork_database) (b : B) : result (fork_database * fork_item) :=
  let item := ForkItem d.(fdb_next_serial) None b in
  _ ← match d.(fdb_head) with
      | Some head => FC_ASSERT (Z.max 0 (fi_num head - d.(fdb_max_size)) <? fi_num item)
      | None => Ok tt
      end;
  item ← (if bool_decide (d.(fdb_head) ≠ None) && negb (bool_decide (previous_id item = no_block_id)) then
            prev ← from_option_exn unlinkable_block_exception (d.(fdb_index) !! previous_id item);
            Ok (item <| fi_prev := Some (pointer_to prev) |>)
          else Ok item);
  let d1 := d <| fdb_index := index_insert d.(fdb_index) item |> <| fdb_next_serial ::= Z.succ |> in
  match d.(fdb_head) with
  | None => Ok (d1 <| fdb_head := Some item |>, item)
  | Some head =>
      if fi_num head <? fi_num item then
        let min_num := fi_num item - Z.min d.(fdb_max_size) (fi_num item) in
        Ok (d1 <| fdb_head := Some item |> <| fdb_index := erase_below min_num d1.(fdb_index) |>, item)
      else Ok (d1, head)
  end.

Definition set_max_size (d : fork_database) (s : Z) : fork_database :=
  match d.(fdb_head) with
  | None => d <| fdb_max_size := s |>
  | Some head => d <| fdb_max_size := s |> <| fdb_index ::= erase_below (Z.max 0 (fi_num head - s)) |>
  end.

Definition is_known_block (d : fork_database) (id : list Z) : bool := bool_decide (is_Some (d.(fdb_index) !! id)).
Definition fetch_block (d : fork_database) (id : list Z) : option fork_item := d.(fdb_index) !! id.
(** The items of one number, in the order of their insertion. *)
Definition by_serial (x y : fork_item) : Prop := x.(fi_serial) ≤ y.(fi_serial).
#[local] Instance by_serial_dec : RelDecision by_serial.
Proof. intros x y. unfold by_serial. apply _. Defined.
Definition fetch_block_by_number (d : fork_database) (num : Z) : list fork_item :=
  merge_sort by_serial (filter (λ it, fi_num it = num) ((map_to_list d.(fdb_index)).*2)).
Definition set_head (d : fork_database) (h : fork_item) : fork_database := d <| fdb_head := Some h |>.

Definition fork_remove (held : list fork_item) (d : fork_database) (id : list Z) : fork_database :=
  let d1 := d <| fdb_index ::= delete id |> in
  match d1.(fdb_head) with
  | Some head =>
      if bool_decide (fi_id head = id) then
        match fork_pop_block held d1 with Ok d2 => d2 | Err _ => d1 <| fdb_head := None |> end
      else d1
  | None => d1
  end.

(** ** fetch_branch_from *)

(** The loop that goes down from [it] to the number [num]; [branch] holds what
    it passed, the last first. *)
Fixpoint climb_down (fuel : nat) (d : fork_database) (num : Z) (it : fork_item) (branch : list fork_item) :
    result (fork_item * list fork_item) :=
  if num <? fi_num it then
    match fuel with
    | O => Err out_of_fuel
    | S fuel => prev ← from_option_exn assert_exception (lock_prev [] d it); climb_down fuel d num prev (branch ++ [it])
    end
  else Ok (it, branch).

(** The loop that goes down both branches. *)
Fixpoint climb_both (fuel : nat) (d : fork_database) (first second : fork_item) (b1 b2 : list fork_item) :
    result (list fork_item * list fork_item) :=
  if bool_decide (previous_id first = previous_id second) then Ok (b1 ++ [first], b2 ++ [second])
  else
    match fuel with
    | O => Err out_of_fuel
    | S fuel =>
        prev1 ← from_option_exn assert_exception (lock_prev [] d first);
        prev2 ← from_option_exn assert_exception (lock_prev [] d second);
        climb_both fuel d prev1 prev2 (b1 ++ [first]) (b2 ++ [second])
    end.

Definition fetch_branch_from (d : fork_database) (first second : list Z) : result (list fork_item * list fork_item) :=
  first_branch ← from_option_exn assert_exception (d.(fdb_index) !! first);
  second_branch ← from_option_exn assert_exception (d.(fdb_index) !! second);
  let fuel := S (Z.to_nat (Z.max (fi_num first_branch) (fi_num second_branch))) in
  '(first_branch, b1) ← climb_down fuel d (fi_num second_branch) first_branch [];
  '(second_branch, b2) ← climb_down fuel d (fi_num first_branch) second_branch [];
  climb_both fuel d first_branch second_branch b1 b2.

(** ** Well-formed items and databases *)
Definition item_ok (it : fork_item) : Prop :=
  ∀ p, it.(fi_prev) = Some p → p.1 = previous_id it ∧ 1 ≤ fi_num it.
Definition fork_ok (d : fork_database) : Prop :=
  map_Forall (λ id it, fi_id it = id ∧ item_ok it) d.(fdb_index) ∧
  ∀ h, d.(fdb_head) = Some h → item_ok h.

Lemma fi_num_range it : 0 ≤ fi_num it < 4294967296.
Proof. apply Z.mod_pos_bound. lia. Qed.

(** What a weak pointer finds is the predecessor, one block lower. *)
Lemma lock_prev_Some held d it p :
  fork_ok d → Forall item_ok held → item_ok it → lock_prev held d it = Some p →
  item_ok p ∧ fi_id p = previous_id it ∧ fi_num it = fi_num p + 1.
Proof.
  intros [Hi Hh] Hheld Hit H. unfold lock_prev in H. destruct (fi_prev it) as [q|] eqn:Hq; [|done].
  destruct (Hit q Hq) as [Hq1 Hnum].
  destruct (filter _ _) as [|x l] eqn:Hf; [done|]. injection H as ->.
  assert (p ∈ p :: l) as Hp by left. rewrite <-Hf in Hp. apply list_elem_of_filter in Hp as [Hpt Hp].
  unfold is_pointed in Hpt. apply bool_decide_eq_true in Hpt. assert (fi_id p = previous_id it) as Hid by (rewrite <-Hq1, <-Hpt; done).
  split; [|split; [done|]].
  - apply elem_of_app in Hp as [Hp|Hp]; [|apply elem_of_app in Hp as [Hp|Hp]].
    + destruct (fdb_index d !! q.1) eqn:E; cbn in Hp; [|by apply elem_of_nil in Hp].
      apply list_elem_of_singleton in Hp as ->. by apply (Hi _ _ E).
    + destruct (fdb_head d) eqn:E; cbn in Hp; [|by apply elem_of_nil in Hp]. apply list_elem_of_singleton in Hp as ->. by apply Hh.
    + rewrite Forall_forall in Hheld. by apply Hheld.
  - pose proof (fi_num_range p) as Hr. unfold fi_num at 1. unfold fi_num at 1 in Hnum. unfold block_num in *.
    fold (previous_id it) in *. rewrite <-Hid in *. unfold fi_id in *. rewrite num_from_id_block_id in *.
    fold (fi_num p) in *. destruct (decide (fi_num p + 1 = 4294967296)) as [E|E].
    + rewrite E in Hnum. vm_compute in Hnum. by destruct Hnum.
    + apply u32_small. lia.
Qed.

Lemma fork_ok_lookup d id it : fork_ok d → d.(fdb_index) !! id = Some it → item_ok it ∧ fi_id it = id.
Proof. intros [Hi _] H. by destruct (Hi _ _ H). Qed.

(** ** Branches *)
Fixpoint linked (l : list fork_item) : Prop :=
  match l with
  | x :: l => match l with y :: _ => previous_id x = fi_id y ∧ fi_num x = fi_num y + 1 | [] => True end ∧ linked l
  | [] => True
  end.
Lemma linked_snoc l x y : linked (l ++ [x]) → fi_id y = previous_id x → fi_num x = fi_num y + 1 → linked (l ++ [x; y]).
Proof. induction l as [|z l IH]; cbn; [by auto|]. intros [H1 H2] E En. split; [by destruct l|by apply IH]. Qed.

(** From the top of a branch the numbers go down. *)
Lemma linked_nums l x : linked l → head l = Some x → Forall (λ y, fi_num y ≤ fi_num x) l.
Proof.
  revert x. induction l as [|z l IH]; intros x; cbn; [done|]. intros [H1 H2] [= ->]. constructor; [lia|].
  destruct l as [|y l]; [constructor|]. eapply Forall_impl; [by apply IH|]. cbn. intros u Hu. lia.
Qed.
Lemma linked_app_r l1 l2 : linked (l1 ++ l2) → linked l2.
Proof. induction l1 as [|x l1 IH]; cbn; [done|]. intros [_ H]. by apply IH. Qed.
Lemma linked_app_nums l1 l2 : linked (l1 ++ l2) → ∀ x y, x ∈ l1 → y ∈ l2 → fi_num y < fi_num x.
Proof.
  induction l1 as [|z l1 IH]; cbn; [intros _ x y Hx; by apply elem_of_nil in Hx|]. intros [H1 H2] x y [->|Hx]%elem_of_cons Hy; [|by apply IH].
  destruct (l1 ++ l2) as [|u l] eqn:E; [by apply app_eq_nil in E as [-> ->]; apply elem_of_nil in Hy|].
  pose proof (linked_nums (u :: l) u H2 eq_refl) as Hn. rewrite Forall_forall in Hn. specialize (Hn y).
  rewrite <-E in Hn. assert (y ∈ l1 ++ l2) as Hy' by (apply elem_of_app; by right). specialize (Hn Hy'). lia.
Qed.

Lemma climb_down_spec fuel d num it branch it' b :
  fork_ok d → item_ok it → linked (branch ++ [it]) → climb_down fuel d num it branch = Ok (it', b) →
  item_ok it' ∧ linked (b ++ [it']) ∧ fi_num it' = Z.min num (fi_num it) ∧
  ∃ c, b = branch ++ c ∧ head (c ++ [it']) = Some it ∧ (fi_num it ≤ num → c = []).
Proof.
  revert it branch. induction fuel as [|fuel IH]; intros it branch Hd Hit Hl H; cbn in H;
    destruct (Z.ltb_spec num (fi_num it)) as [Hn|Hn]; try done;
    try (injection H as <- <-; split; [done|split; [done|split; [lia|exists []; by rewrite app_nil_r]]]).
  apply bind_Ok in H as (prev & Hp & H). apply from_option_Ok in Hp.
  destruct (lock_prev_Some [] d it prev Hd (Forall_nil_2 _) Hit Hp) as (Hpo & Hpi & Hpn).
  apply IH in H as (H1 & H2 & H3 & c & -> & Hc & _); [|done|done|rewrite <-app_assoc; by apply linked_snoc].
  split; [done|]. split; [done|]. split; [lia|]. exists (it :: c). split; [by rewrite <-app_assoc|]. split; [done|lia].
Qed.

Lemma climb_down_ends fuel d num it branch :
  fork_ok d → item_ok it → fi_num it ≤ Z.of_nat fuel → 0 ≤ num → terminates (climb_down fuel d num it branch).
Proof.
  revert it branch. induction fuel as [|fuel IH]; intros it branch Hd Hit Hf Hn; cbn;
    destruct (Z.ltb_spec num (fi_num it)); try done; [lia|].
  apply terminates_bind; [by apply terminates_option|]. intros prev Hp. apply from_option_Ok in Hp.
  destruct (lock_prev_Some [] d it prev Hd (Forall_nil_2 _) Hit Hp) as (Hpo & Hpi & Hpn). apply IH; [done|done|lia|done].
Qed.

(** What every link preserves holds along the branches. *)
Definition closed (d : fork_database) (Q : fork_item → Prop) : Prop :=
  ∀ it p, Q it → lock_prev [] d it = Some p → Q p.
Lemma climb_down_closed Q fuel d num it branch it' b :
  closed d Q → Q it → Forall Q branch → climb_down fuel d num it branch = Ok (it', b) → Q it' ∧ Forall Q b.
Proof.
  intros Hc. revert it branch. induction fuel as [|fuel IH]; intros it branch Hit Hb H; cbn in H; case_match; try done;
    try (by injection H as <- <-).
  apply bind_Ok in H as (prev & Hp & H). apply from_option_Ok in Hp. apply IH in H; [done|by eapply Hc|].
  apply Forall_app. split; [done|by constructor].
Qed.
Lemma climb_both_closed Q fuel d x y b1 b2 l1 l2 :
  closed d Q → Q x → Q y → Forall Q b1 → Forall Q b2 → climb_both fuel d x y b1 b2 = Ok (l1, l2) → Forall Q l1 ∧ Forall Q l2.
Proof.
  intros Hc. revert x y b1 b2. induction fuel as [|fuel IH]; intros x y b1 b2 Hx Hy H1 H2 H; cbn in H; case_match; try done;
    try (injection H as <- <-; split; apply Forall_app; by split; [|constructor]).
  apply bind_Ok in H as (p1 & Hp1 & H). apply bind_Ok in H as (p2 & Hp2 & H). apply from_option_Ok in Hp1, Hp2.
  apply IH in H; [done|exact (Hc _ _ Hx Hp1)|exact (Hc _ _ Hy Hp2)|..]; apply Forall_app; (split; [done|by constructor]).
Qed.

(** An item that is still known: in the index, or the head. *)
Definition known (d : fork_database) (it : fork_item) : Prop :=
  d.(fdb_index) !! fi_id it = Some it ∨ d.(fdb_head) = Some it.
Lemma closed_known d : fork_ok d → closed d (known d).
Proof.
  intros Hd it p _ H. unfold lock_prev in H. destruct (fi_prev it) as [q|]; [|done].
  destruct (filter _ _) as [|x l] eqn:Hf; [done|]. injection H as ->.
  assert (p ∈ p :: l) as Hp by left. rewrite <-Hf in Hp. apply list_elem_of_filter in Hp as [_ Hp]. rewrite app_nil_r in Hp.
  apply elem_of_app in Hp as [Hp|Hp].
  - destruct (fdb_index d !! q.1) eqn:E; cbn in Hp; [|by apply elem_of_nil in Hp]. apply list_elem_of_singleton in Hp as ->.
    left. by rewrite (proj2 (fork_ok_lookup _ _ _ Hd E)).
  - destruct (fdb_head d) eqn:E; cbn in Hp; [|by apply elem_of_nil in Hp]. apply list_elem_of_singleton in Hp as ->. by right.
Qed.
Lemma fetch_branch_from_known d first second l1 l2 :
  fork_ok d → fetch_branch_from d first second = Ok (l1, l2) → Forall (known d) l1 ∧ Forall (known d) l2.
Proof.
  intros Hd H. unfold fetch_branch_from in H. apply bind_Ok in H as (x & Hx & H). apply bind_Ok in H as (y & Hy & H).
  apply from_option_Ok in Hx, Hy. pose proof (closed_known d Hd) as Hc.
  assert (known d x) as Kx by (left; by rewrite (proj2 (fork_ok_lookup _ _ _ Hd Hx))).
  assert (known d y) as Ky by (left; by rewrite (proj2 (fork_ok_lookup _ _ _ Hd Hy))).
  apply bind_Ok in H as ([x' b1] & H1 & H). apply bind_Ok in H as ([y' b2] & H2 & H).
  apply (climb_down_closed _ _ _ _ _ _ _ _ Hc Kx (Forall_nil_2 _)) in H1 as [Kx' K1].
  apply (climb_down_closed _ _ _ _ _ _ _ _ Hc Ky (Forall_nil_2 _)) in H2 as [Ky' K2].
  exact (climb_both_closed _ _ _ _ _ _ _ _ _ Hc Kx' Ky' K1 K2 H).
Qed.

Definition forked (x y : fork_item) : Prop := fi_num x = fi_num y ∧ previous_id x ≠ previous_id y.

Lemma climb_both_spec fuel d x y b1 b2 l1 l2 :
  fork_ok d → item_ok x → item_ok y → linked (b1 ++ [x]) → linked (b2 ++ [y]) → fi_num x = fi_num y →
  climb_both fuel d x y b1 b2 = Ok (l1, l2) →
  linked l1 ∧ linked l2 ∧ ∃ s1 s2 y1 y2, l1 = b1 ++ s1 ++ [y1] ∧ l2 = b2 ++ s2 ++ [y2] ∧ Forall2 forked s1 s2 ∧
    fi_num y1 = fi_num y2 ∧ previous_id y1 = previous_id y2 ∧ head (s1 ++ [y1]) = Some x ∧ head (s2 ++ [y2]) = Some y.
Proof.
  revert x y b1 b2. induction fuel as [|fuel IH]; intros x y b1 b2 Hd Hx Hy Hl1 Hl2 Hn H; cbn in H;
    case_bool_decide as Hp; try done;
    try (injection H as <- <-; split; [done|split; [done|exists [], [], x, y; done]]).
  apply bind_Ok in H as (p1 & H1 & H). apply bind_Ok in H as (p2 & H2 & H). apply from_option_Ok in H1, H2.
  destruct (lock_prev_Some [] d x p1 Hd (Forall_nil_2 _) Hx H1) as (Ho1 & Hi1 & Hn1).
  destruct (lock_prev_Some [] d y p2 Hd (Forall_nil_2 _) Hy H2) as (Ho2 & Hi2 & Hn2).
  apply IH in H as (L1 & L2 & s1 & s2 & y1 & y2 & -> & -> & Hs & Hny & Hpy & Hh1 & Hh2);
    [|done|done|done|rewrite <-app_assoc; by apply linked_snoc..|lia].
  split; [done|]. split; [done|]. exists (x :: s1), (y :: s2), y1, y2. rewrite <-!app_assoc.
  do 2 (split; [done|]). split; [by constructor|done].
Qed.

Lemma climb_both_ends fuel d x y b1 b2 :
  fork_ok d → item_ok x → item_ok y → fi_num x < Z.of_nat fuel → fi_num x = fi_num y → terminates (climb_both fuel d x y b1 b2).
Proof.
  revert x y b1 b2. induction fuel as [|fuel IH]; intros x y b1 b2 Hd Hx Hy Hf Hn; cbn; case_bool_decide as Hp; try done.
  { pose proof (fi_num_range x). lia. }
  apply terminates_bind; [by apply terminates_option|]. intros p1 H1%from_option_Ok.
  apply terminates_bind; [by apply terminates_option|]. intros p2 H2%from_option_Ok.
  destruct (lock_prev_Some [] d x p1 Hd (Forall_nil_2 _) Hx H1) as (Ho1 & Hi1 & Hn1).
  destruct (lock_prev_Some [] d y p2 Hd (Forall_nil_2 _) Hy H2) as (Ho2 & Hi2 & Hn2).
  apply IH; [done..|lia|lia].
Qed.

(** What [fetch_branch_from] promises: two linked branches, from the two
    blocks down to the blocks after the last common one; above these the
    branches run in parallel without meeting, one of them possibly higher. *)
Record branches_from (first second : list Z) (l1 l2 : list fork_item) : Prop := {
  bf_linked1 : linked l1;
  bf_linked2 : linked l2;
  bf_first : fi_id <$> head l1 = Some first;
  bf_second : fi_id <$> head l2 = Some second;
  bf_parts : ∃ c1 c2 s1 s2 y1 y2, l1 = c1 ++ s1 ++ [y1] ∧ l2 = c2 ++ s2 ++ [y2] ∧ (c1 = [] ∨ c2 = []) ∧
    Forall2 forked s1 s2 ∧ fi_num y1 = fi_num y2 ∧ previous_id y1 = previous_id y2 }.

Lemma fetch_branch_from_Ok d first second l1 l2 :
  fork_ok d → fetch_branch_from d first second = Ok (l1, l2) → branches_from first second l1 l2.
Proof.
  intros Hd H. unfold fetch_branch_from in H. apply bind_Ok in H as (x & Hx & H). apply bind_Ok in H as (y & Hy & H).
  apply from_option_Ok in Hx, Hy. destruct (fork_ok_lookup _ _ _ Hd Hx) as [Hxo Hxi]. destruct (fork_ok_lookup _ _ _ Hd Hy) as [Hyo Hyi].
  apply bind_Ok in H as ([x' b1] & H1 & H). apply bind_Ok in H as ([y' b2] & H2 & H).
  apply climb_down_spec in H1 as (Hxo' & Hl1 & Hn1 & c1 & -> & Hh1 & Hc1); [|done..].
  apply climb_down_spec in H2 as (Hyo' & Hl2 & Hn2 & c2 & -> & Hh2 & Hc2); [|done..]. cbn [app] in *.
  apply climb_both_spec in H as (L1 & L2 & s1 & s2 & y1 & y2 & -> & -> & Hs & Hny & Hpy & Hs1 & Hs2); [|done..|lia].
  split; [done|done|..].
  - destruct c1; cbn in *; [|congruence]. injection Hh1 as ->. rewrite Hs1. cbn. by f_equal.
  - destruct c2; cbn in *; [|congruence]. injection Hh2 as ->. rewrite Hs2. cbn. by f_equal.
  - exists c1, c2, s1, s2, y1, y2. do 2 (split; [done|]). split; [|done].
    destruct (Z.le_ge_cases (fi_num x) (fi_num y)); [left; by apply Hc1|right; apply Hc2; lia].
Qed.

Lemma fetch_branch_from_ends d first second : fork_ok d → terminates (fetch_branch_from d first second).
Proof.
  intros Hd. unfold fetch_branch_from.
  apply terminates_bind; [by apply terminates_option|]. intros x Hx%from_option_Ok.
  apply terminates_bind; [by apply terminates_option|]. intros y Hy%from_option_Ok.
  destruct (fork_ok_lookup _ _ _ Hd Hx) as [Hxo _]. destruct (fork_ok_lookup _ _ _ Hd Hy) as [Hyo _].
  pose proof (fi_num_range x). pose proof (fi_num_range y).
  apply terminates_bind; [apply climb_down_ends; [done..|lia|lia]|]. intros [x' b1] H1.
  apply climb_down_spec in H1 as (Hxo' & _ & Hn1 & _); [|done..]. pose proof (fi_num_range x').
  apply terminates_bind; [apply climb_down_ends; [done..|lia|lia]|]. intros [y' b2] H2.
  apply climb_down_spec in H2 as (Hyo' & _ & Hn2 & _); [|done..]. apply climb_both_ends; [done..|lia|lia].
Qed.

(** ** The operations keep the database well formed *)
Lemma fork_ok_index d i : fork_ok d → (∀ id it, i !! id = Some it → d.(fdb_index) !! id = Some it) → fork_ok (d <| fdb_index := i |>).
Proof. intros [Hi Hh] Hsub. split; [|done]. intros id it H. by apply Hi, Hsub. Qed.
Lemma fork_ok_head d h : fork_ok d → item_ok h → fork_ok (set_head d h).
Proof. intros [Hi Hh] Ho. split; [done|]. by intros ? [= <-]. Qed.

Lemma fork_ok_same d d' : d'.(fdb_index) = d.(fdb_index) → d'.(fdb_head) = d.(fdb_head) → fork_ok d → fork_ok d'.
Proof. unfold fork_ok. by intros -> ->. Qed.

Lemma erase_below_sub n i id it : erase_below n i !! id = Some it → i !! id = Some it ∧ n ≤ fi_num it.
Proof. unfold erase_below. rewrite map_lookup_filter_Some. done. Qed.

Lemma fork_ok_set_max_size d s : fork_ok d → fork_ok (set_max_size d s).
Proof.
  intros Hd. unfold set_max_size. destruct (fdb_head d); [|done].
  apply (fork_ok_index (d <| fdb_max_size := s |>)); [done|]. cbn. intros id it H. by apply erase_below_sub in H as [? _].
Qed.

Lemma fork_ok_pop held d d' : fork_ok d → Forall item_ok held → fork_pop_block held d = Ok d' → fork_ok d'.
Proof.
  intros Hd Hheld H. unfold fork_pop_block in H. inv_ok. apply (fork_ok_head d); [done|].
  match goal with H : lock_prev _ _ _ = Some _ |- _ => apply lock_prev_Some in H; [by apply H|done..|] end.
  destruct Hd as [_ Hh]. by apply Hh.
Qed.

Lemma fork_ok_remove held d id : fork_ok d → Forall item_ok held → fork_ok (fork_remove held d id).
Proof.
  intros Hd Hheld. unfold fork_remove.
  assert (fork_ok (d <| fdb_index ::= delete id |>)) as Hd1.
  { apply (fork_ok_index d); [done|]. intros k it H. by apply lookup_delete_Some in H as [_ ?]. }
  repeat case_match; [by eapply fork_ok_pop| |done|done]. destruct Hd1 as [Hi _]. by split.
Qed.

Lemma fork_ok_insert d it : fork_ok d → item_ok it → fork_ok (d <| fdb_index := index_insert d.(fdb_index) it |>).
Proof.
  intros [Hi Hh] Ho. split; [|done]. cbn. unfold index_insert. case_match; [done|]. by apply map_Forall_insert_2.
Qed.

(** ** The longest fork

    Every block is at most as high as the head and not below the window. *)
Definition in_window (d : fork_database) : Prop :=
  0 ≤ d.(fdb_max_size) ∧
  match d.(fdb_head) with
  | Some h => ∀ id it, d.(fdb_index) !! id = Some it → fi_num h - d.(fdb_max_size) ≤ fi_num it ≤ fi_num h
  | None => d.(fdb_index) = ∅
  end.

Lemma index_insert_Some i it id x :
  index_insert i it !! id = Some x → i !! id = Some x ∨ id = fi_id it ∧ x = it.
Proof.
  unfold index_insert. case_match; [by left|]. intros [[<- <-]|[_ ?]]%lookup_insert_Some; [by right|by left].
Qed.

(** The item [push_block] makes of a block: it points to its predecessor. *)
Lemma fork_push_block_Ok d b d' h :
  fork_ok d → fork_push_block d b = Ok (d', h) →
  ∃ it, it.(fi_data) = b ∧ item_ok it ∧ fork_ok d' ∧ d'.(fdb_head) = Some h ∧ d'.(fdb_max_size) = d.(fdb_max_size) ∧
    match d.(fdb_head) with
    | None => h = it ∧ d'.(fdb_index) = index_insert d.(fdb_index) it
    | Some head =>
        0 < fi_num it ∧ fi_num head - d.(fdb_max_size) < fi_num it ∧
        (previous_id it ≠ no_block_id → is_known_block d (previous_id it) = true) ∧
        if fi_num head <? fi_num it then
          h = it ∧ d'.(fdb_index) =
            erase_below (fi_num it - Z.min d.(fdb_max_size) (fi_num it)) (index_insert d.(fdb_index) it)
        else h = head ∧ d'.(fdb_index) = index_insert d.(fdb_index) it
    end.
Proof.
  intros Hd H. unfold fork_push_block in H. apply bind_Ok in H as (? & Hnum & H). apply bind_Ok in H as (it & Hit & H).
  assert (it.(fi_data) = b ∧ item_ok it ∧ ((∃ head, d.(fdb_head) = Some head) → previous_id it ≠ no_block_id →
            is_known_block d (previous_id it) = true)) as (Hdata & Hok & Hknown).
  { destruct (bool_decide (fdb_head d ≠ None)) eqn:Hh; cbn [andb] in Hit.
    - apply bool_decide_eq_true in Hh. case_bool_decide as Hz; cbn [negb] in Hit.
      + apply Ok_inj in Hit as <-. by split_and!.
      + apply bind_Ok in Hit as (prev & Hp & Hit). apply Ok_inj in Hit as <-. apply from_option_Ok in Hp.
        split; [done|]. split.
        * intros p [= <-]. cbn. split; [by apply (fork_ok_lookup _ _ _ Hd Hp)|].
          destruct (fdb_head d); [|done]. apply FC_ASSERT_Ok, Z.ltb_lt in Hnum. unfold fi_num in *. cbn in *. lia.
        * intros _ _. unfold is_known_block. apply bool_decide_eq_true. by exists prev.
    - apply Ok_inj in Hit as <-. split; [done|]. split; [done|]. intros [head E]. rewrite E in Hh. done. }
  assert (fi_num (ForkItem d.(fdb_next_serial) None b) = fi_num it) as En by (unfold fi_num; cbn; by rewrite Hdata).
  rewrite En in Hnum. exists it. split; [done|]. split; [done|].
  pose proof (fork_ok_insert d it Hd Hok) as Hins.
  destruct (fdb_head d) as [head|] eqn:Eh.
  - apply FC_ASSERT_Ok, Z.ltb_lt in Hnum. destruct (fi_num head <? fi_num it); injection H as <- <-.
    + split; [|cbn; split_and!; try done; [lia|lia|apply Hknown; eauto]].
      apply (fork_ok_index (set_head (d <| fdb_index := index_insert d.(fdb_index) it |> <| fdb_next_serial ::= Z.succ |>) it)).
      * apply fork_ok_head; [|exact Hok]. by apply (fork_ok_same (d <| fdb_index := index_insert d.(fdb_index) it |>)).
      * cbn. intros k y Hy. by apply erase_below_sub in Hy as [? _].
    + split; [by apply (fork_ok_same (d <| fdb_index := index_insert d.(fdb_index) it |>))|]. cbn. split_and!; try done; [lia|lia|apply Hknown; eauto].
  - injection H as <- <-. split; [|done]. apply (fork_ok_same (set_head (d <| fdb_index := index_insert d.(fdb_index) it |>) it)); [done..|by apply fork_ok_head].
Qed.

Lemma fi_num_id it : fi_num it = num_from_id (fi_id it).
Proof. unfold fi_num, fi_id. by rewrite num_from_id_block_id. Qed.

Lemma index_insert_lookup i it : ∃ x, index_insert i it !! fi_id it = Some x.
Proof. unfold index_insert. destruct (i !! fi_id it) eqn:E; [by eauto|]. exists it. apply lookup_insert_eq. Qed.
Lemma index_insert_keeps i it id x : i !! id = Some x → index_insert i it !! id = Some x.
Proof.
  intros H. unfold index_insert. case_match eqn:E; [done|]. rewrite lookup_insert_ne; [done|]. intros <-. by rewrite E in H.
Qed.

Lemma fork_push_block_window d b d' h :
  fork_ok d → in_window d → fork_push_block d b = Ok (d', h) →
  fork_ok d' ∧ in_window d' ∧ d'.(fdb_head) = Some h ∧
  fi_num h = Z.max (block_num (header b)) (from_option fi_num 0 d.(fdb_head)) ∧
  is_known_block d' (block_id (header b)) = true ∧
  (∀ id it, d.(fdb_index) !! id = Some it → fi_num h - d.(fdb_max_size) ≤ fi_num it → d'.(fdb_index) !! id = Some it).
Proof.
  intros Hd Hw H.
  destruct (fork_push_block_Ok d b d' h Hd H) as (it & <- & Hit & Hok' & Hh & Hmax & Hcase). fold (fi_num it) (fi_id it).
  pose proof (fi_num_range it) as Hr. destruct Hw as [Hs Hw]. split; [done|]. unfold in_window. rewrite Hh, Hmax.
  destruct (index_insert_lookup d.(fdb_index) it) as [x Hx].
  assert (fi_num x = fi_num it) as Enum.
  { rewrite !fi_num_id. apply index_insert_Some in Hx as [Hx|[_ ->]]; [|done]. f_equal. apply (fork_ok_lookup _ _ _ Hd Hx). }
  destruct (fdb_head d) as [head|] eqn:Eh; cbn [from_option].
  - destruct Hcase as (Hpos & Hwin & _ & Hcase). destruct (Z.ltb_spec (fi_num head) (fi_num it)); destruct Hcase as [-> Hidx]; rewrite Hidx.
    + split; [split; [done|]|].
      * intros id y Hy. apply erase_below_sub in Hy as [Hy Hmin]. split; [lia|].
        apply index_insert_Some in Hy as [Hy|[_ ->]]; [|lia]. apply Hw in Hy. lia.
      * split; [done|]. split; [lia|]. unfold is_known_block. rewrite Hidx. split.
        -- apply bool_decide_eq_true. exists x. unfold erase_below. apply map_lookup_filter_Some. cbn. split; [done|lia].
        -- intros id y Hy Hmin. unfold erase_below. apply map_lookup_filter_Some. cbn. pose proof (fi_num_range y). split; [by apply index_insert_keeps|lia].
    + split; [split; [done|]|].
      * intros id y Hy. apply index_insert_Some in Hy as [Hy|[_ ->]]; [by eapply Hw|lia].
      * split; [done|]. split; [lia|]. unfold is_known_block. rewrite Hidx. split; [apply bool_decide_eq_true; by exists x|].
        intros id y Hy _. by apply index_insert_keeps.
  - destruct Hcase as [-> Hidx]. rewrite Hw in *. rewrite Hidx. split; [split; [done|]|].
    + intros id y Hy. apply index_insert_Some in Hy as [Hy|[_ ->]]; [by rewrite lookup_empty in Hy|lia].
    + split; [done|]. split; [lia|]. unfold is_known_block. rewrite Hidx. split; [apply bool_decide_eq_true; by exists x|].
      intros id y Hy. by rewrite lookup_empty in Hy.
Qed.

(** [push_block] returns the block with the highest number, the old head if
    the new block is not higher; the index then holds the new block and every
    block it held within the window below the head, nothing below the window and
    nothing above the head, and all its links stay correct. *)
Theorem fork_push_block_longest d b d' h
  (Hd : fork_ok d) (Hw : in_window d) (H : fork_push_block d b = Ok (d', h)) :
  fork_ok d' ∧ in_window d' ∧ d'.(fdb_head) = Some h ∧
  fi_num h = Z.max (block_num (header b)) (from_option fi_num 0 d.(fdb_head)) ∧
  is_known_block d' (block_id (header b)) = true ∧
  (∀ id it, d.(fdb_index) !! id = Some it → fi_num h - d.(fdb_max_size) ≤ fi_num it → d'.(fdb_index) !! id = Some it).
Proof. by apply (fork_push_block_window d b). Qed.

(** C40. For two known blocks [fetch_branch_from] ends, and unless a link is
    missing it returns the two branches that lead to them, linked, from the last
    common block on: above the blocks that follow it no two blocks of the
    branches at the same height have the same predecessor. *)
Theorem fetch_branch_from_correct d first second (Hd : fork_ok d) :
  match fetch_branch_from d first second with
  | Ok (l1, l2) => branches_from first second l1 l2
  | Err e => e ≠ out_of_fuel
  end.
Proof.
  destruct (fetch_branch_from d first second) as [[l1 l2]|e] eqn:E.
  - by eapply fetch_branch_from_Ok.
  - pose proof (fetch_branch_from_ends d first second Hd) as T. intros ->. by rewrite E in T.
Qed.
End fork_database.
Arguments fork_item B : clear implicits.
Arguments fork_database B : clear implicits.

(** ** The chain of states a node switches between

    What the fork switch needs of the chain: [apply_block] validates a block
    against a state and, on success, gives the next state; the first component of
    its result is the history size it set on the way ([update_global_dynamic_data]).
    The law: only a block that extends the head is applied, and becomes the head,
    whose number the state keeps. *)
Class Chain (S B : Type) : Type := {
  block_header : B → signed_block_header;
  apply_block : S → B → option Z * result S;
  head_id : S → list Z;
  head_num : S → Z }.

Class ChainLaws (S B : Type) `{!Chain S B} : Prop :=
  apply_block_head : ∀ s b s', (apply_block s b).2 = Ok s' →
    head_id s = (block_header b).(blk_previous) ∧ head_id s' = block_id (block_header b) ∧
    head_num s' = block_num (block_header b).

Section chain.
Context {S B : Type} `{!Chain S B}.

(** The fork database, the current state, the states the undo database can go
    back to (the last first) with the size it keeps, and the block log by number.
    Pending transactions are left out: [push_block] sets them aside. *)
Record node : Type := Node {
  n_fork : fork_database B;
  n_state : S;
  n_undo : list S;
  n_max_undo : Z;
  n_log : gmap Z (list Z * B) }.
#[export] Instance eta_node : Eta node := λ x, Node (n_fork x) (n_state x) (n_undo x) (n_max_undo x) (n_log x).

(** A throw leaves the node as it is at that point. *)
Definition node_m (A : Type) : Type := node → node * result A.
Definition ret {A} (a : A) : node_m A := λ n, (n, Ok a).
Definition throw {A} (e : exn) : node_m A := λ n, (n, Err e).
Definition bind {A C} (m : node_m A) (k : A → node_m C) : node_m C := λ n,
  match m n with (n', Ok a) => k a n' | (n', Err e) => (n', Err e) end.
Definition assert_some {A} (o : option A) : node_m A := match o with Some a => ret a | None => throw assert_exception end.

(** [start_undo_session] drops the oldest states beyond the maximum. *)
Definition kept_undo (n : node) : list S := take (Z.to_nat n.(n_max_undo)) n.(n_undo).

(** A session around [apply_block], committed and stored in the block log. *)
Definition apply_in_session (b : B) : node_m unit := λ n,
  let '(history, r) := apply_block n.(n_state) b in
  let n1 := match history with
            | Some z => n <| n_max_undo := z |> <| n_fork ::= λ f, set_max_size block_header f z |>
            | None => n
            end in
  match r with
  | Ok s => (n1 <| n_state := s |> <| n_undo := n.(n_state) :: kept_undo n |>
                <| n_log ::= <[block_num (block_header b) := (block_id (block_header b), b)]> |>, Ok tt)
  | Err e => (n1 <| n_undo := kept_undo n |>, Err e)
  end.

(** [database::pop_block]; [held] are the items local variables own. *)
Definition pop_block (held : list (fork_item B)) : node_m unit := λ n,
  match n.(n_fork).(fdb_head) with
  | None => (n, Err assert_exception)
  | Some h =>
      let fork := if bool_decide (fi_id block_header h = head_id n.(n_state)) then fork_pop_block block_header held n.(n_fork)
                  else _ ← from_option_exn assert_exception (fetch_block n.(n_fork) (head_id n.(n_state))); Ok n.(n_fork) in
      match fork with
      | Err e => (n, Err e)
      | Ok f =>
          match n.(n_undo) with
          | [] => (n <| n_fork := f |>, Err undo_database_exception)
          | s :: undo => (n <| n_fork := f |> <| n_state := s |> <| n_undo := undo |>, Ok tt)
          end
      end
  end.

(** [while( head_block_id() != id ) pop_block();] — every round takes a state from
    the undo database, or throws. *)
Fixpoint pop_until (fuel : nat) (held : list (fork_item B)) (id : list Z) : node_m unit := λ n,
  if bool_decide (head_id n.(n_state) = id) then (n, Ok tt)
  else match fuel with
       | O => (n, Err out_of_fuel)
       | Datatypes.S fuel => bind (pop_block held) (λ _, pop_until fuel held id) n
       end.
Definition pop_to (held : list (fork_item B)) (id : list Z) : node_m unit := λ n,
  pop_until (Datatypes.S (length n.(n_undo))) held id n.

(** Applying the items of a branch, the lowest first. *)
Fixpoint apply_items (l : list (fork_item B)) : node_m unit :=
  match l with
  | [] => ret tt
  | it :: l => bind (apply_in_session it.(fi_data)) (λ _, apply_items l)
  end.

(** The way back: the items from the invalid one on are removed, the head and
    the old branch are restored. *)
Definition switch_back (l1 l2 invalid : list (fork_item B)) : node_m unit := λ n,
  let f := foldl (λ f it, fork_remove block_header (l1 ++ l2) f (fi_id block_header it)) n.(n_fork) invalid in
  match head l2, last l2 with
  | Some front, Some back =>
      bind (pop_to (l1 ++ l2) (previous_id block_header back)) (λ _, apply_items (rev l2))
        (n <| n_fork := set_head f front |>)
  | _, _ => (n, Err assert_exception)
  end.

(** The blocks of the new branch, the lowest first; [except] is thrown again
    once the way back is done. *)
Fixpoint apply_new_branch (l1 l2 l : list (fork_item B)) : node_m unit :=
  match l with
  | [] => ret tt
  | it :: l => λ n,
      match apply_in_session it.(fi_data) n with
      | (n1, Ok _) => apply_new_branch l1 l2 l n1
      | (n1, Err except) => bind (switch_back l1 l2 (it :: l)) (λ _, throw except) n1
      end
  end.

(** [database::_push_block]: the result tells whether forks were switched. *)
Definition push_block (new_block : B) : node_m bool := λ n,
  match fork_push_block block_header n.(n_fork) new_block with
  | Err e => (n, Err e)
  | Ok (f, new_head) =>
      let n := n <| n_fork := f |> in
      if negb (bool_decide (previous_id block_header new_head = head_id n.(n_state))) then
        if head_num n.(n_state) <? fi_num block_header new_head then
          match fetch_branch_from block_header f (fi_id block_header new_head) (head_id n.(n_state)) with
          | Err e => (n, Err e)
          | Ok (l1, l2) =>
              match last l2 with
              | None => (n, Err assert_exception)
              | Some back =>
                  bind (pop_to (l1 ++ l2) (previous_id block_header back))
                    (λ _, bind (apply_new_branch l1 l2 (rev l1)) (λ _, ret true)) n
              end
          end
        else (n, Ok false)
      else
        match apply_in_session new_block n with
        | (n1, Ok _) => (n1, Ok false)
        | (n1, Err e) =>
            (n1 <| n_fork ::= λ f, fork_remove block_header [new_head] f (block_id (block_header new_block)) |>, Err e)
        end
  end.

(** ** Stacks of states

    [stack] is the current state on top of those the undo database keeps;
    [replay st l]: the top of the stack comes from the items of [l] (the last
    first), each applied to the state below it. *)
Definition stack (n : node) : list S := n.(n_state) :: n.(n_undo).
Fixpoint replay (st : list S) (l : list (fork_item B)) {struct l} : Prop :=
  match l, st with
  | [], _ => True
  | it :: l, s :: ((s' :: _) as st) => (apply_block s' it.(fi_data)).2 = Ok s ∧ replay st l
  | _, _ => False
  end.

#[local] Notation fi_id := (fi_id block_header).
#[local] Notation fi_num := (fi_num block_header).
#[local] Notation previous_id := (previous_id block_header).

Lemma replay_split st l1 l2 : replay st (l1 ++ l2) ↔ replay st l1 ∧ replay (drop (length l1) st) l2.
Proof.
  revert st. induction l1 as [|it l1 IH]; intros st; [cbn; by rewrite drop_0; tauto|].
  destruct st as [|s [|s' st]]; [cbn; tauto..|]. specialize (IH (s' :: st)).
  cbn [app replay length]. change (drop (Datatypes.S (length l1)) (s :: s' :: st)) with (drop (length l1) (s' :: st)). tauto.
Qed.
Lemma replay_length st l : replay st l → l ≠ [] → (length l < length st)%nat.
Proof.
  revert st. induction l as [|it l IH]; intros [|s [|s' st]] H Hl; cbn in *; try done.
  destruct H as [_ H]. destruct l as [|it' l]; [cbn; lia|]. specialize (IH (s' :: st) H ltac:(done)). cbn in *. lia.
Qed.
(** Only the states of the items and the one below them matter. *)
Lemma replay_take a b m l : length a = length l → (1 ≤ m)%nat → replay (a ++ b) l → replay (a ++ take m b) l.
Proof.
  revert a. induction l as [|it l IH]; intros a Ha Hm; [done|]. destruct a as [|s a]; [done|]. cbn in Ha.
  destruct a as [|s' a]; cbn.
  - destruct l; [|done]. destruct b as [|s' b]; [done|]. destruct m as [|m]; [lia|]. cbn. done.
  - intros [H1 H2]. split; [done|]. apply (IH (s' :: a)); [cbn in *; lia|done|done].
Qed.

Lemma replay_cut a b m k l :
  length a = length l → (1 ≤ k)%nat → (k ≤ m)%nat → replay (a ++ take m b) l → replay (a ++ take k b) l.
Proof.
  intros Ha Hk Hkm H. replace (take k b) with (take k (take m b)) by (rewrite take_take; f_equal; lia).
  by apply replay_take.
Qed.

(** ** Popping a branch *)
Section laws.
Context `{!ChainLaws S B}.

Lemma replay_heads s s' st it l : replay (s :: s' :: st) (it :: l) → head_id s' = previous_id it ∧ head_id s = fi_id it ∧ head_num s = fi_num it.
Proof. intros [H _]. exact (apply_block_head _ _ _ H). Qed.

(** A branch whose items are in the index and are not the head of the fork
    database is popped down to the state below it; the fork database stays. *)
Lemma pop_until_branch fuel held n h l y :
  n.(n_fork).(fdb_head) = Some h → replay (stack n) (l ++ [y]) → (length l < fuel)%nat →
  Forall (λ it, fi_id it ≠ fi_id h ∧ is_Some (n.(n_fork).(fdb_index) !! fi_id it) ∧ fi_id it ≠ previous_id y) (l ++ [y]) →
  ∃ n', pop_until fuel held (previous_id y) n = (n', Ok tt) ∧ n'.(n_fork) = n.(n_fork) ∧
    n'.(n_max_undo) = n.(n_max_undo) ∧ stack n' = drop (Datatypes.S (length l)) (stack n).
Proof.
  revert l n. induction fuel as [|fuel IH]; intros l n Hh Hr Hf Hall; [lia|].
  destruct n as [f s undo mx log]. cbn [stack n_fork n_state n_undo n_max_undo] in *.
  assert (∃ it l', l ++ [y] = it :: l' ∧ (l = [] ∧ it = y ∨ ∃ l0, l = it :: l0 ∧ l' = l0 ++ [y])) as (it & l' & E & Hcase).
  { destruct l as [|it l]; cbn; [exists y, []; auto|]. exists it, (l ++ [y]). split; [done|]. right. by exists l. }
  rewrite E in Hr, Hall. apply Forall_cons in Hall as [(Hnh & [x Hx] & Hne) Hall].
  destruct undo as [|s' undo]; [done|]. pose proof (replay_heads _ _ _ _ _ Hr) as (Hprev & Hid & _). cbn in Hprev, Hid. destruct Hr as [_ Hr].
  assert (head_id s ≠ previous_id y) as Hs1 by (rewrite Hid; exact Hne).
  assert (fi_id h ≠ head_id s) as Hs2 by (rewrite Hid; congruence).
  cbn [pop_until]. unfold bind, pop_block, fetch_block. cbn. rewrite (bool_decide_eq_false_2 _ Hs1), Hh.
  rewrite (bool_decide_eq_false_2 _ Hs2), Hid, Hx. cbn.
  destruct Hcase as [[-> ->]|(l0 & -> & ->)].
  - exists (Node f s' undo mx log). split; [|done]. cbn. destruct fuel; cbn; rewrite bool_decide_eq_true_2 by done; done.
  - cbn in Hf. destruct (IH l0 (Node f s' undo mx log)) as (n' & H1 & H2 & H3 & H4); [done|done|lia|done|].
    exists n'. split; [exact H1|]. split; [done|]. split; [done|]. rewrite H4. done.
Qed.

Lemma base_head a b l y :
  length a = Datatypes.S (length l) → replay (a ++ b) (l ++ [y]) → ∃ s0 b', b = s0 :: b' ∧ head_id s0 = previous_id y.
Proof.
  intros Ha H. apply replay_split in H as [_ H].
  rewrite drop_app_le in H by lia.
  assert (length (drop (length l) a) = 1)%nat as Hd by (rewrite length_drop; lia).
  destruct (drop (length l) a) as [|s [|? ?]]; try done. destruct b as [|s0 b']; [done|].
  exists s0, b'. split; [done|]. cbn in H. destruct H as [H _]. exact (proj1 (apply_block_head _ _ _ H)).
Qed.

Lemma not_previous x y : fi_num y ≤ fi_num x → fi_num x < 4294967295 → fi_id x ≠ previous_id y.
Proof.
  intros Hle Hlt E. assert (fi_num y = fi_num x + 1) as H; [|lia].
  change (fi_num y) with (u32 (num_from_id (previous_id y) + 1)). rewrite <-E, <-fi_num_id. apply u32_small.
  pose proof (fi_num_range block_header x). lia.
Qed.

(** ** Sessions during a switch

    [w] bounds the history the blocks of the branches keep from below: the index
    and the undo database hold everything less than [w] blocks below the number
    [N].  [Q] is what the states have in common that gives the bound. *)
Context (w : Z) (Q : S → Prop) (fits : B → Prop).
Context (Hw : ∀ s b z, Q s → fits b → (apply_block s b).1 = Some z → w ≤ z).
Context (HQ : ∀ s b s', Q s → fits b → (apply_block s b).2 = Ok s' → Q s').

Definition steady (n : node) : Prop := w ≤ n.(n_max_undo) ∧ Forall Q (stack n).
#[local] Notation fitting := (Forall (λ it, fits it.(fi_data))).

Definition window_ok (N : Z) (f : fork_database B) : Prop :=
  (∀ id it, f.(fdb_index) !! id = Some it → N - w ≤ fi_num it) ∧ ∃ h, f.(fdb_head) = Some h ∧ fi_num h ≤ N.
Definition same_fork (f f' : fork_database B) : Prop := f'.(fdb_index) = f.(fdb_index) ∧ f'.(fdb_head) = f.(fdb_head).

Lemma window_ok_same N f f' : same_fork f f' → window_ok N f → window_ok N f'.
Proof. unfold window_ok. by intros [-> ->]. Qed.
Lemma same_fork_trans f1 f2 f3 : same_fork f1 f2 → same_fork f2 f3 → same_fork f1 f3.
Proof. intros [? ?] [? ?]. split; congruence. Qed.

Lemma set_max_size_same N f z : window_ok N f → w ≤ z → same_fork f (set_max_size block_header f z).
Proof.
  intros [Hi (h & Hh & Hn)] Hz. unfold set_max_size. rewrite Hh. split; [|done]. cbn. unfold erase_below.
  apply map_filter_id. intros id it Hid. cbn. specialize (Hi id it Hid). pose proof (fi_num_range block_header it). lia.
Qed.

Lemma apply_in_session_spec N n b n' r :
  window_ok N n.(n_fork) → steady n → fits b → apply_in_session b n = (n', r) →
  same_fork n.(n_fork) n'.(n_fork) ∧ steady n' ∧
  match r with
  | Ok _ => (apply_block n.(n_state) b).2 = Ok n'.(n_state) ∧
            stack n' = n'.(n_state) :: take (Datatypes.S (Z.to_nat n.(n_max_undo))) (stack n)
  | Err e => (apply_block n.(n_state) b).2 = Err e ∧ stack n' = take (Datatypes.S (Z.to_nat n.(n_max_undo))) (stack n)
  end.
Proof.
  intros Hwin [Hmax HS] Hb H. unfold apply_in_session in H.
  assert (Q n.(n_state)) as Hq by (by inversion HS).
  assert (Forall Q (n_state n :: kept_undo n)) as Hkept by exact (Forall_take Q (Datatypes.S (Z.to_nat n.(n_max_undo))) (stack n) HS).
  pose proof (Hw n.(n_state) b) as Hz. pose proof (HQ n.(n_state) b) as Hnext.
  destruct (apply_block (n_state n) b) as [[z|] res]; cbn in Hz, Hnext.
  - specialize (Hz z Hq Hb eq_refl). pose proof (set_max_size_same N _ z Hwin Hz) as Hs.
    destruct res as [s|e]; injection H as <- <-; cbn; (split; [exact Hs|split; [split; [cbn; lia|]|done]]); [|exact Hkept].
    constructor; [by apply Hnext|exact Hkept].
  - destruct res as [s|e]; injection H as <- <-; cbn; (split; [done|split; [split; [cbn; lia|]|done]]); [|exact Hkept].
    constructor; [by apply Hnext|exact Hkept].
Qed.

Lemma take_stack (a b : list S) m k : (length a ≤ k)%nat → take k (a ++ take m b) = a ++ take (Nat.min (k - length a) m) b.
Proof. intros H. rewrite take_app, take_ge by lia. by rewrite take_take. Qed.

Lemma apply_items_app l1 l2 n : apply_items (l1 ++ l2) n = bind (apply_items l1) (λ _, apply_items l2) n.
Proof.
  revert n. induction l1 as [|it l1 IH]; intros n; [done|]. cbn. unfold bind in *.
  destruct (apply_in_session (fi_data it) n) as [n' [?|]]; [apply IH|done].
Qed.

(** Applying a branch again gives the same states. *)
Lemma apply_items_replay N l a b m n :
  length a = length l → replay (a ++ b) l → (1 ≤ m)%nat → Z.of_nat (length l) ≤ w →
  stack n = take m b → window_ok N n.(n_fork) → steady n → fitting l →
  ∃ n' m', apply_items (rev l) n = (n', Ok tt) ∧ stack n' = a ++ take m' b ∧ (1 ≤ m')%nat ∧
    same_fork n.(n_fork) n'.(n_fork) ∧ steady n'.
Proof.
  revert a. induction l as [|it l IH]; intros a Ha Hr Hm Hl Hst Hwin Hmax Hfit.
  { destruct a; [|done]. exists n, m. done. }
  destruct a as [|s a]; [done|]. cbn in Ha, Hl. cbn [app] in Hr.
  destruct (a ++ b) as [|s' st] eqn:Est; [done|]. destruct Hr as [Happ Hr]. rewrite <-Est in Hr. apply Forall_cons in Hfit as [Hit Hfit].
  destruct (IH a) as (n1 & m1 & H1 & Hst1 & Hm1 & Hs1 & Hx1); [lia|done|done|lia|done|done|done|done|].
  assert (n_state n1 = s') as Es.
  { destruct a as [|s2 a]; cbn in Est, Hst1; [|by injection Est as -> _; injection Hst1 as -> _].
    destruct b; [done|]. destruct m1; [lia|]. cbn in Hst1. injection Hst1 as -> _. congruence. }
  cbn [rev]. rewrite apply_items_app. unfold bind. rewrite H1. cbn. unfold bind.
  destruct (apply_in_session (fi_data it) n1) as [n2 r] eqn:E2.
  apply (apply_in_session_spec N) in E2 as (Hs2 & Hx2 & E2); [|by eapply window_ok_same|done|done]. rewrite Es, Happ in E2.
  destruct r as [[]|e]; [|by destruct E2]. destruct E2 as [[= ->] Hst2]. pose proof (proj1 Hx1). rewrite Hst1, take_stack in Hst2 by lia.
  eexists n2, _. split; [done|]. split; [exact Hst2|]. split; [lia|]. split; [by eapply same_fork_trans|done].
Qed.

Lemma top_same (a b : list S) k m : (1 ≤ k)%nat → (1 ≤ m)%nat → b ≠ [] → head (a ++ take k b) = head (a ++ take m b).
Proof. intros Hk Hm Hb. destruct a; [|done]. destruct b; [done|]. destruct k, m; [lia..|done]. Qed.
Lemma stack_top n n' a b k m : (1 ≤ k)%nat → (1 ≤ m)%nat → b ≠ [] →
  stack n = a ++ take k b → stack n' = a ++ take m b → n_state n = n_state n'.
Proof. intros Hk Hm Hb H1 H2. pose proof (top_same a b k m Hk Hm Hb) as H. rewrite <-H1, <-H2 in H. by injection H. Qed.

(** The new branch is applied in full, or up to an item that throws; then the
    way back starts from the states of the valid items. *)
Lemma apply_new_branch_spec N l1 l2 todo good n a b m :
  l1 = rev todo ++ good → Z.of_nat (length l1) ≤ w → stack n = a ++ take m b → length a = length good →
  replay (stack n) good → (1 ≤ m)%nat → b ≠ [] → window_ok N n.(n_fork) → steady n → fitting l1 →
  (∃ n' a' m', apply_new_branch l1 l2 todo n = (n', Ok tt) ∧ stack n' = a' ++ take m' b ∧ length a' = length l1 ∧
     replay (stack n') l1 ∧ (1 ≤ m')%nat ∧ same_fork n.(n_fork) n'.(n_fork)) ∨
  (∃ it bad good' n1 a' m' e, l1 = rev bad ++ it :: good' ∧ stack n1 = a' ++ take m' b ∧ length a' = length good' ∧
     replay (stack n1) good' ∧ (1 ≤ m')%nat ∧ same_fork n.(n_fork) n1.(n_fork) ∧ steady n1 ∧
     (apply_block n1.(n_state) it.(fi_data)).2 = Err e ∧
     apply_new_branch l1 l2 todo n = bind (switch_back l1 l2 (it :: bad)) (λ _, throw e) n1).
Proof.
  intros -> Hlen. revert good n a m Hlen. induction todo as [|it todo IH]; intros good n a m Hlen Hst Ha Hr Hm Hb Hwin Hmax Hfit.
  { left. exists n, a, m. done. }
  rewrite length_app, length_rev in Hlen. cbn [length] in Hlen. cbn [apply_new_branch rev].
  destruct (apply_in_session (fi_data it) n) as [n1 r] eqn:E. apply (apply_in_session_spec N) in E as (Hs1 & Hx1 & E); [|done|done|].
  2: { cbn [rev] in Hfit. rewrite !Forall_app in Hfit. destruct Hfit as [[_ Hit] _]. by inversion Hit. }
  pose proof (proj1 Hmax) as Hmx.
  rewrite Hst, take_stack in E by lia. set (k := Nat.min _ m) in E. assert (1 ≤ k)%nat as Hk by lia. destruct r as [[]|e].
  - destruct E as [Happ Hst1]. cbn [rev] in Hfit. rewrite <-app_assoc in Hfit |- *. cbn [app] in Hfit |- *.
    assert (replay (stack n1) (it :: good)) as Hr1.
    { rewrite Hst1. cbn [replay]. destruct (a ++ take k b) as [|s st] eqn:Es.
      - apply app_eq_nil in Es as [_ Es]. destruct b; [done|]. destruct k; [lia|done].
      - assert (s = n_state n) as ->.
        { pose proof (top_same a b k m Hk Hm Hb) as Ht. rewrite Es, <-Hst in Ht. by injection Ht. }
        split; [done|]. rewrite <-Es. apply (replay_cut a b m); [done|done|lia|]. by rewrite <-Hst. }
    pose proof (IH (it :: good) n1 (n_state n1 :: a) k ltac:(rewrite length_app, length_rev; cbn; lia) Hst1
                  ltac:(cbn; lia) Hr1 Hk Hb (window_ok_same N _ _ Hs1 Hwin) Hx1 Hfit) as [H|H].
    + left. destruct H as (n' & a' & m' & H1 & H2 & H3 & H4 & H5 & H6). exists n', a', m'. split_and!; try done. by eapply same_fork_trans.
    + right. destruct H as (it' & bad & good' & n2 & a' & m' & e & H1 & H2 & H3 & H4 & H5 & H6 & H7 & H8 & H9).
      exists it', bad, good', n2, a', m', e. split_and!; try done. by eapply same_fork_trans.
  - destruct E as [Happ Hst1]. right. rewrite <-app_assoc. cbn [app].
    exists it, todo, good, n1, a, k, e. split_and!; try done.
    + rewrite Hst1. apply (replay_cut a b m); [done|done|lia|]. by rewrite <-Hst.
    + by rewrite (stack_top n1 n a b k m).
Qed.

(** ** The way back *)
Definition forget (invalid : list (fork_item B)) (i : gmap (list Z) (fork_item B)) : gmap (list Z) (fork_item B) :=
  foldl (λ i it, delete (fi_id it) i) i invalid.
Lemma forget_spec l i id : forget l i !! id = if decide (id ∈ fi_id <$> l) then None else i !! id.
Proof.
  revert i. induction l as [|it l IH]; intros i; [by rewrite decide_False by apply not_elem_of_nil|].
  change (forget (it :: l) i) with (forget l (delete (fi_id it) i)). rewrite IH, fmap_cons. destruct (decide (id ∈ fi_id <$> l)) as [Hin|Hin].
  - by rewrite decide_True by (by right).
  - destruct (decide (id = fi_id it)) as [->|Hne].
    + rewrite decide_True by (by left). apply lookup_delete_eq.
    + rewrite decide_False by (intros [?|?]%elem_of_cons; done). by apply lookup_delete_ne.
Qed.

Lemma fork_remove_index held f id : fdb_index (fork_remove block_header held f id) = delete id f.(fdb_index).
Proof.
  unfold fork_remove. repeat case_match; try done.
  match goal with H : fork_pop_block _ _ _ = Ok _ |- _ => unfold fork_pop_block in H; inv_ok; done end.
Qed.
Lemma fork_removes_index held l f :
  fdb_index (foldl (λ f it, fork_remove block_header held f (fi_id it)) f l) = forget l f.(fdb_index).
Proof. revert f. induction l as [|it l IH]; intros f; [done|]. cbn [foldl]. by rewrite IH, fork_remove_index. Qed.

Lemma window_ok_forget N f l front :
  window_ok N f → fi_num front ≤ N →
  ∀ g, g.(fdb_index) = forget l f.(fdb_index) → window_ok N (set_head g front).
Proof.
  intros [Hi _] Hn g Hg. split; [|by exists front]. cbn. rewrite Hg. intros id it H. rewrite forget_spec in H.
  case_decide; [done|]. by eapply Hi.
Qed.

(** The states of the valid items are popped, those of the old branch come back. *)
Lemma switch_back_spec N l1 l2 invalid good front back a0 n a b m :
  head l2 = Some front → last l2 = Some back → length a0 = length l2 → replay (a0 ++ b) l2 → Z.of_nat (length l2) ≤ w →
  stack n = a ++ take m b → length a = length good → replay (stack n) good → (1 ≤ m)%nat →
  (∀ y, last good = Some y → previous_id y = previous_id back) →
  Forall (λ it, fi_id it ≠ fi_id front ∧ is_Some (forget invalid n.(n_fork).(fdb_index) !! fi_id it) ∧ fi_id it ≠ previous_id back) good →
  window_ok N n.(n_fork) → fi_num front ≤ N → steady n → fitting l2 →
  ∃ n' m', switch_back l1 l2 invalid n = (n', Ok tt) ∧ stack n' = a0 ++ take m' b ∧ (1 ≤ m')%nat ∧
    n'.(n_fork).(fdb_index) = forget invalid n.(n_fork).(fdb_index) ∧ n'.(n_fork).(fdb_head) = Some front.
Proof.
  intros Hfront Hback Ha0 Hr0 Hl2 Hst Ha Hr Hm Hy Hall Hwin Hn [Hmax HS] Hfit. unfold switch_back. rewrite Hfront, Hback.
  set (f := foldl _ _ _). assert (fdb_index f = forget invalid (fdb_index (n_fork n))) as Hf by apply fork_removes_index.
  pose proof (window_ok_forget N _ invalid front Hwin Hn f Hf) as Hwin1. set (n1 := n <| n_fork := set_head f front |>).
  assert (∃ n2, pop_to (l1 ++ l2) (previous_id back) n1 = (n2, Ok tt) ∧ n2.(n_fork) = n1.(n_fork) ∧
            n2.(n_max_undo) = n1.(n_max_undo) ∧ stack n2 = take m b) as (n2 & H2 & Hf2 & Hx2 & Hst2).
  { unfold pop_to. destruct good as [|y l] using rev_ind; [|clear IHl].
    - exists n1. cbn. destruct a; [|done]. cbn in Hst.
      apply last_Some in Hback as [l E]. rewrite E in *. rewrite length_app in Ha0. cbn in Ha0.
      destruct (base_head a0 b l back ltac:(lia) Hr0) as (s0 & b' & -> & Hs0).
      destruct m as [|m]; [lia|]. injection Hst as Hs Hu. rewrite Hs, bool_decide_eq_true_2 by done.
      split; [done|]. split; [done|]. split; [done|]. unfold stack. cbn. by rewrite Hs, Hu.
    - rewrite <-(Hy y) by apply last_snoc. rewrite <-(Hy y) in Hall by apply last_snoc. rewrite length_app in Ha. cbn in Ha.
      destruct (pop_until_branch (Datatypes.S (length (n_undo n1))) (l1 ++ l2) n1 front l y) as (n2 & H2 & Hf2 & Hx2 & Hst2);
        [done|exact Hr| |cbn; rewrite Hf; exact Hall|].
      + pose proof (replay_length _ _ Hr ltac:(by destruct l)) as Hlen. rewrite length_app in Hlen. cbn in Hlen |- *. lia.
      + exists n2. split; [done|]. split; [done|]. split; [done|]. rewrite Hst2. change (stack n1) with (stack n). rewrite Hst.
        rewrite drop_app_le by lia. rewrite drop_ge by lia. done. }
  unfold bind. rewrite H2. destruct (apply_items_replay N l2 a0 b m n2 Ha0 Hr0 Hm Hl2 Hst2) as (n' & m' & H' & Hst' & Hm' & [Hs1 Hs2] & _);
    [by rewrite Hf2|split; [by rewrite Hx2|]|done|].
  { rewrite Hst2. rewrite Hst in HS. by apply Forall_app in HS as [_ HS]. }
  exists n', m'. split; [done|]. split; [done|]. split; [done|]. rewrite Hs1, Hs2, Hf2. done.
Qed.

(** ** Switching to a longer fork

    The situation: the new block makes [h] the head of the fork database, [h]
    neither extends the state nor is lower, and [l1], [l2] are the branches of
    [fetch_branch_from]; the undo database holds the states of [l2]. *)
Record switching (n : node) (new_block : B) (f : fork_database B) (h : fork_item B) (l1 l2 : list (fork_item B)) : Prop := {
  sw_fork_ok : fork_ok block_header n.(n_fork);
  sw_in_window : in_window block_header n.(n_fork);
  sw_max_size : n.(n_fork).(fdb_max_size) ≤ w;
  sw_steady : steady n;
  sw_pushed : fork_push_block block_header n.(n_fork) new_block = Ok (f, h);
  sw_not_extending : previous_id h ≠ head_id n.(n_state);
  sw_higher : head_num n.(n_state) < fi_num h;
  sw_branches : fetch_branch_from block_header f (fi_id h) (head_id n.(n_state)) = Ok (l1, l2);
  sw_fits : fitting l1 ∧ fitting l2;
  sw_short : Z.of_nat (length l1) ≤ w ∧ Z.of_nat (length l2) ≤ w;
  sw_new : Forall (λ it, fi_id it ≠ head_id n.(n_state)) l1;
  sw_replay : replay (stack n) l2 }.

Lemma linked_last l y x : linked block_header (l ++ [y]) → x ∈ l ++ [y] → fi_num y ≤ fi_num x.
Proof.
  intros Hl Hx. apply elem_of_app in Hx as [Hx|Hx%list_elem_of_singleton]; [|subst; lia].
  assert (fi_num y < fi_num x); [|lia]. eapply linked_app_nums; [exact Hl|done|by left].
Qed.

(** What is known of the branches before anything is popped. *)
Record branch_facts (n : node) (f : fork_database B) (h : fork_item B) (l1 l2 : list (fork_item B))
    (front back : fork_item B) : Prop := {
  br_head : f.(fdb_head) = Some h;
  br_window : window_ok (fi_num h) f;
  br_first : fi_id <$> head l1 = Some (fi_id h);
  br_front : head l2 = Some front;
  br_back : last l2 = Some back;
  br_front_id : fi_id front = head_id n.(n_state);
  br_front_num : fi_num front < fi_num h;
  br_linked : linked block_header l1;
  br_base : ∃ b1, last l1 = Some b1 ∧ previous_id b1 = previous_id back ∧ fi_num b1 = fi_num back;
  br_old : Forall (λ it, fi_id it ≠ fi_id h ∧ is_Some (f.(fdb_index) !! fi_id it) ∧ fi_id it ≠ previous_id back) l2;
  br_known : Forall (λ it, is_Some (f.(fdb_index) !! fi_id it)) l1 }.

Lemma switching_facts n new_block f h l1 l2 :
  switching n new_block f h l1 l2 → ∃ front back, branch_facts n f h l1 l2 front back.
Proof.
  intros [Hd Hin Hs _ Hp _ Hh Hb _ _ _ Hr].
  destruct (fork_push_block_Ok block_header _ _ _ _ Hd Hp) as (_ & _ & _ & Hd' & Hf & Hmax & _).
  destruct (fork_push_block_window block_header _ _ _ _ Hd Hin Hp) as (_ & [_ Hin'] & _).
  rewrite Hf, Hmax in Hin'.
  destruct (fetch_branch_from_known block_header _ _ _ _ _ Hd' Hb) as [K1 K2].
  pose proof (fetch_branch_from_Ok block_header _ _ _ _ _ Hd' Hb) as [L1 L2 F1 F2 (c1 & c2 & s1 & s2 & y1 & y2 & E1 & E2 & _ & _ & Hn & Hpy)].
  assert (is_Some (f.(fdb_index) !! fi_id h)) as Hidx.
  { unfold fetch_branch_from in Hb. apply bind_Ok in Hb as (x & Hx & _). apply from_option_Ok in Hx. by exists x. }
  destruct (head l2) as [front|] eqn:Hfront; [|done]. exists front, y2.
  assert (fi_id front = head_id n.(n_state) ∧ fi_num front < fi_num h) as [Hid Hnum].
  { destruct l2 as [|it l2]; [done|]. injection Hfront as ->. unfold stack in Hr. destruct (n_undo n); [done|].
    apply replay_heads in Hr as (_ & Hi & Hnu). rewrite Hnu in Hh. done. }
  assert (last l1 = Some y1) as Hlast1 by (by rewrite E1, app_assoc, last_snoc).
  assert (last l2 = Some y2) as Hlast2 by (by rewrite E2, app_assoc, last_snoc).
  split; try done; [split; [|by exists h]|by exists y1|..].
  - intros id it Hi. specialize (Hin' id it Hi). lia.
  - rewrite Forall_forall in K2 |- *. intros x Hx. pose proof (linked_nums _ _ _ L2 Hfront) as Hle.
    rewrite Forall_forall in Hle. specialize (Hle x Hx). pose proof (fi_num_range block_header h).
    assert (fi_id x ≠ fi_id h) as Hne by (intros E; rewrite !fi_num_id, E in *; lia).
    split; [done|]. split.
    + destruct (K2 x Hx) as [Hk|Hk]; [by exists x|]. rewrite Hf in Hk. by injection Hk as ->.
    + apply not_previous; [|lia]. rewrite E2, app_assoc in L2, Hx. by eapply linked_last.
  - rewrite Forall_forall in K1 |- *. intros x Hx. destruct (K1 x Hx) as [Hk|Hk]; [by exists x|].
    rewrite Hf in Hk. by injection Hk as ->.
Qed.

(** The valid items of a new branch that fails are still known, none of them is
    the old head or the fork point. *)
Lemma good_facts n f h l1 l2 front back bad it good :
  branch_facts n f h l1 l2 front back → Forall (λ it, fi_id it ≠ head_id n.(n_state)) l1 → l1 = rev bad ++ it :: good →
  (∀ y, last good = Some y → previous_id y = previous_id back) ∧
  Forall (λ x, fi_id x ≠ fi_id front ∧ is_Some (forget (it :: bad) f.(fdb_index) !! fi_id x) ∧ fi_id x ≠ previous_id back) good.
Proof.
  intros [_ _ _ _ _ Hid _ L (b1 & Hb1 & Hp & Hn) _ K] Hnew ->.
  assert (rev bad ++ it :: good = (rev bad ++ [it]) ++ good) as E by (by rewrite <-app_assoc). rewrite E in *.
  split.
  - intros y Hy. apply last_Some in Hy as [g ->]. rewrite app_assoc, last_snoc in Hb1. by injection Hb1 as <-.
  - rewrite Forall_forall in Hnew, K |- *. intros x Hx. assert (x ∈ (rev bad ++ [it]) ++ good) as Hx' by (apply elem_of_app; by right).
    assert (∀ y, y ∈ it :: bad → fi_num x < fi_num y) as Hlt.
    { intros y Hy. apply (linked_app_nums _ _ _ L); [|done]. apply elem_of_app.
      apply elem_of_cons in Hy as [->|Hy]; [right; by left|left; rewrite rev_alt; by apply elem_of_reverse_2]. }
    split; [rewrite Hid; by apply Hnew|]. split.
    + rewrite forget_spec, decide_False; [by apply K|]. intros (y & Ey & Hy)%list_elem_of_fmap. specialize (Hlt y Hy).
      rewrite !fi_num_id, Ey in Hlt. lia.
    + apply not_previous.
      * rewrite <-Hn. apply last_Some in Hb1 as [g Eg]. rewrite Eg in L, Hx'. by eapply linked_last.
      * specialize (Hlt it ltac:(by left)). pose proof (fi_num_range block_header it). lia.
Qed.

(** The first pop: the states of the old branch come off, the fork point is on top. *)
Lemma pop_old_branch n f h l1 l2 front back :
  branch_facts n f h l1 l2 front back → replay (stack n) l2 →
  ∃ n1, pop_to (l1 ++ l2) (previous_id back) (n <| n_fork := f |>) = (n1, Ok tt) ∧ n1.(n_fork) = f ∧
    n1.(n_max_undo) = n.(n_max_undo) ∧ stack n1 = drop (length l2) (stack n).
Proof.
  intros [Hh _ _ _ Hback _ _ _ _ Hold _] Hr. apply last_Some in Hback as [l E]. unfold pop_to.
  pose proof (replay_length _ _ Hr ltac:(rewrite E; by destruct l)) as Hlen. rewrite E in Hr, Hold, Hlen.
  rewrite length_app in Hlen. cbn in Hlen.
  destruct (pop_until_branch (Datatypes.S (length (n_undo n))) (l1 ++ l2) (n <| n_fork := f |>) h l back)
    as (n1 & H1 & H2 & H3 & H4); [exact Hh|exact Hr|lia|exact Hold|].
  exists n1. split; [exact H1|]. split; [done|]. split; [done|]. rewrite H4, E, length_app. cbn [length]. by rewrite Nat.add_1_r.
Qed.

(** What [push_block] leaves after a switch, and after one that failed. *)
Definition switched (n : node) (f : fork_database B) (h : fork_item B) (l1 l2 : list (fork_item B)) (n' : node) : Prop :=
  head_id n'.(n_state) = fi_id h ∧ replay (stack n') l1 ∧
  (∃ base, (stack n) !! length l2 = Some base ∧ (stack n') !! length l1 = Some base) ∧
  n'.(n_fork).(fdb_index) = f.(fdb_index) ∧ n'.(n_fork).(fdb_head) = Some h.
Definition restored (n : node) (f : fork_database B) (l1 l2 : list (fork_item B)) (e : exn) (n' : node) : Prop :=
  n'.(n_state) = n.(n_state) ∧ replay (stack n') l2 ∧ n'.(n_fork).(fdb_head) = head l2 ∧
  ∃ bad it good s, l1 = rev bad ++ it :: good ∧ (apply_block s it.(fi_data)).2 = Err e ∧
    n'.(n_fork).(fdb_index) = forget (it :: bad) f.(fdb_index).

Lemma switched_intro n f h l1 l2 front back n' a' m' :
  branch_facts n f h l1 l2 front back → (length l2 < length (stack n))%nat →
  stack n' = a' ++ take m' (drop (length l2) (stack n)) → length a' = length l1 → replay (stack n') l1 → (1 ≤ m')%nat →
  same_fork f n'.(n_fork) → switched n f h l1 l2 n'.
Proof.
  intros Hb Hlen Hst Ha Hr' Hm [Hs3 Hs4]. set (b := drop (length l2) (stack n)) in *.
  assert (b ≠ []) as Hbne.
  { intros E. apply (f_equal length) in E. unfold b in E. rewrite length_drop in E. change (length []) with 0%nat in E. lia. }
  assert (head_id (n_state n') = fi_id h ∧ (1 ≤ length l1)%nat) as [Hh Hl1].
  { destruct Hb as [_ _ Hfirst _ _ _ _ _ _ _ _]. destruct l1 as [|x l1]; [done|]. cbn [head fmap option_fmap option_map] in Hfirst. apply (inj Some) in Hfirst as <-.
    split; [|cbn; lia]. unfold stack in Hr'. destruct (n_undo n'); [done|]. by apply replay_heads in Hr' as (_ & Hid & _). }
  split; [done|]. split; [done|]. rewrite Hs3, Hs4. split; [|by destruct Hb].
  destruct b as [|base b'] eqn:Eb; [done|]. exists base. split.
  + rewrite <-(Nat.add_0_r (length l2)), <-lookup_drop. fold b. by rewrite Eb.
  + rewrite Hst, lookup_app_r, Ha, Nat.sub_diag by lia. destruct m'; [lia|done].
Qed.

(** C13. A switch of forks within the history that is kept.  Assume that both
    branches, from their last common block on, are at most [w] blocks long, and that no
    block of them, applied to the states in question, shrinks the history the undo and
    the fork database keep below [w] (the code sets it to the head less the last
    irreversible block plus one, so no block above the fork point may become
    irreversible on the way).  Then, when a pushed block makes the other fork the
    longest, [push_block] ends on it: the state is that of the new head, reached from
    the fork point by applying the blocks of the new branch.  If one of them throws,
    exactly the state from before the push is back, the old branch is again the one
    the fork database follows, and the block that threw and those above it are
    forgotten. *)
Theorem push_block_switches n new_block f h l1 l2 (Hsw : switching n new_block f h l1 l2) :
  match push_block new_block n with
  | (n', Ok r) => r = true ∧ switched n f h l1 l2 n'
  | (n', Err e) => restored n f l1 l2 e n'
  end.
Proof.
  destruct (switching_facts _ _ _ _ _ _ Hsw) as (front & back & Hb).
  destruct Hsw as [Hd Hin Hsize [Hmax HS] Hp Hne Hgt Hf [Hfit1 Hfit2] [Hs1 Hs2] Hnew Hr].
  destruct (pop_old_branch _ _ _ _ _ _ _ Hb Hr) as (n1 & H1 & Hf1 & Hx1 & Hst1).
  pose proof (replay_length _ _ Hr) as Hlen. assert (l2 ≠ []) as Hl2 by (destruct l2; [by destruct Hb|done]). specialize (Hlen Hl2).
  set (b := drop (length l2) (stack n)) in *.
  assert (b ≠ []) as Hbne. { intros E. apply (f_equal length) in E. unfold b in E. rewrite length_drop in E. change (length []) with 0%nat in E. lia. }
  unfold push_block. rewrite Hp. cbv zeta. change (n_state (n <| n_fork := f |>)) with (n_state n). rewrite (bool_decide_eq_false_2 _ Hne). cbn [negb].
  apply Z.ltb_lt in Hgt as ->. rewrite Hf, (br_back _ _ _ _ _ _ _ Hb). unfold bind at 1. rewrite H1. unfold bind.
  assert (length b ≥ 1)%nat as Hb1 by (destruct b; [done|cbn; lia]).
  assert (window_ok (fi_num h) (n_fork n1)) as Hwin by (rewrite Hf1; by destruct Hb).
  destruct (apply_new_branch_spec (fi_num h) l1 l2 (rev l1) [] n1 [] b (length b)) as [Hok|Hko];
    [by rewrite rev_involutive, app_nil_r|done|by rewrite firstn_all|done|done|lia|done|done|split; [lia|rewrite Hst1; by apply Forall_drop]|done|..].
  - destruct Hok as (n' & a' & m' & -> & Hst & Ha & Hr' & Hm & Hs). split; [done|].
    rewrite Hf1 in Hs. by apply (switched_intro n f h l1 l2 front back n' a' m').
  - destruct Hko as (it & bad & good & n2 & a' & m' & e & E & Hst & Ha & Hr' & Hm & Hs & Hx & Happ & ->). unfold bind.
    destruct (good_facts _ _ _ _ _ _ _ _ _ _ Hb Hnew E) as [Hlast Hgood]. destruct Hs as [Hs3 Hs4]. rewrite <-Hf1, <-Hs3 in Hgood.
    assert (length (take (length l2) (stack n)) = length l2) as Ha0 by (rewrite length_take; lia).
    destruct (switch_back_spec (fi_num h) l1 l2 (it :: bad) good front back (take (length l2) (stack n)) n2 a' b m')
      as (n' & m2 & -> & Hst' & Hm2 & Hidx & Hhead);
      [by destruct Hb|by destruct Hb|done|unfold b; by rewrite take_drop|done|done|done|done|done|done|done
      |by eapply window_ok_same|destruct Hb; lia|done|done|].
    cbn. assert (replay (stack n') l2) as Hrn.
    { rewrite Hst'. apply replay_take; [done|done|]. unfold b. by rewrite take_drop. }
    assert (n_state n' = n_state n) as Est.
    { destruct l2 as [|x l2]; [done|]. cbn in Hst'. by injection Hst'. }
    split; [done|]. split; [done|]. split; [rewrite Hhead; by destruct Hb|].
    exists bad, it, good, (n_state n2). split; [done|]. split; [done|]. by rewrite Hidx, Hs3, Hf1.
Qed.
End laws.
End chain.

(** ** The chain of headers

    The part of [_apply_block] that decides about the head: the header is
    validated, missed blocks are counted and the dynamic properties updated. *)
Section headers.
Context (validate_signee : signed_block_header → Z → bool) (np : node_properties).

Definition apply_header (d : database) (next_block : signed_block_header) : option Z * result database :=
  match (_ ← validate_block_header validate_signee np d next_block; update_witness_missed_blocks d next_block) with
  | Err e => (None, Err e)
  | Ok (d1, missed_blocks) =>
      match update_global_dynamic_data np d1 next_block missed_blocks with
      | Err e => (None, Err e)
      | Ok (d2, history) => (Some history, Ok d2)
      end
  end.
#[export] Instance header_chain : Chain database signed_block_header :=
  { block_header := λ b, b; apply_block := apply_header; head_id := head_block_id; head_num := head_block_num }.

Lemma apply_header_Ok d b d' :
  (apply_header d b).2 = Ok d' →
  head_block_id d = b.(blk_previous) ∧ head_block_id d' = block_id b ∧ head_block_num d' = block_num b ∧
  d'.(d_dgpo).(dgp_last_irreversible_block_num) = d.(d_dgpo).(dgp_last_irreversible_block_num) ∧
  (apply_header d b).1 = Some (u32 (u32 (block_num b - d.(d_dgpo).(dgp_last_irreversible_block_num)) + 1)).
Proof.
  intros H. unfold apply_header in *. destruct (validate_block_header _ _ _ _) as [w|e] eqn:Hv; [|done]. cbn in *.
  destruct (update_witness_missed_blocks d b) as [[d1 m]|e] eqn:Hm; [|done].
  assert (d1.(d_dgpo) = d.(d_dgpo)) as Ed.
  { unfold update_witness_missed_blocks in Hm. apply bind_Ok in Hm as (? & _ & Hm). apply bind_Ok in Hm as (d2 & Hd & [= -> _]).
    destruct (_ <? _) in Hd; [|by injection Hd as ->]. apply miss_slots in Hd as [-> _]. done. }
  destruct (update_global_dynamic_data np d1 b m) as [[d2 z]|e] eqn:Hu; [|done]. injection H as ->.
  unfold update_global_dynamic_data in Hu. apply bind_Ok in Hu as (? & _ & [= <- <-]).
  unfold validate_block_header in Hv. apply bind_Ok in Hv as (? & Ha%FC_ASSERT_Ok%bool_decide_eq_true & _).
  cbn. rewrite Ed. done.
Qed.
#[export] Instance header_chain_laws : ChainLaws database signed_block_header.
Proof. intros d b d' H. cbn in *. apply apply_header_Ok in H as (H1 & H2 & H3 & _). done. Qed.
End headers.

(** ** Witnesses: a fork of two headers against one *)
Definition fork_db0 : database :=
  schedule_db <| d_dgpo ::= λ g, g <| dgp_head_block_number := 1 |> <| dgp_head_block_id := hex8 1 ++ replicate 32 5 |>
    <| dgp_last_irreversible_block_num := 0 |> <| dgp_dynamic_flags := 0 |> |>.
Definition header1 : signed_block_header := BlockHeader (replicate 40 0) 1650000000 1 (replicate 32 5).
Definition header2 : signed_block_header := BlockHeader (block_id header1) 1650000003 3 (replicate 32 6).
Definition header2' : signed_block_header := BlockHeader (block_id header1) 1650000006 1 (replicate 32 7).
Definition header3 : signed_block_header := BlockHeader (block_id header2') 1650000009 2 (replicate 32 8).
(** The same header by a witness whose turn it is not. *)
Definition header3_bad : signed_block_header := BlockHeader (block_id header2') 1650000009 3 (replicate 32 8).

#[local] Instance sample_chain : Chain database signed_block_header := header_chain any_signature sample_node.
Definition fork_node0 : node :=
  Node (start_block block_header (ForkDatabase 3 ∅ None 0) header1) fork_db0 [] 3 ∅.
(** Both blocks of height 2 are pushed, the node is on the first. *)
Definition fork_node : node := (push_block header2' (push_block header2 fork_node0).1).1.
Definition sample_items (l : list (fork_item signed_block_header)) : list signed_block_header := fi_data <$> l.

#[export] Instance item_ok_dec (it : fork_item signed_block_header) : Decision (item_ok block_header it).
Proof.
  destruct (fi_prev it) as [p|] eqn:E.
  - refine (cast_if (decide (p.1 = previous_id block_header it ∧ 1 ≤ fi_num block_header it))).
    + intros q Hq. rewrite E in Hq. injection Hq as <-. done.
    + intros H. by apply H in E.
  - left. intros p Hp. by rewrite E in Hp.
Defined.

Lemma fork_node_ok : fork_ok block_header fork_node.(n_fork).
Proof.
  split; [apply (bool_decide_unpack _); vm_compute; reflexivity|].
  assert (from_option (λ h, bool_decide (item_ok block_header h)) true fork_node.(n_fork).(fdb_head) = true) as H by (vm_compute; reflexivity).
  intros h E. rewrite E in H. by apply bool_decide_eq_true in H.
Qed.
Lemma fork_node_window : in_window block_header fork_node.(n_fork).
Proof.
  split; [vm_compute; congruence|]. destruct (fdb_head _) as [h|] eqn:E; [|by vm_compute in E].
  change (map_Forall (λ _ it, fi_num block_header h - fdb_max_size (n_fork fork_node) ≤ fi_num block_header it ≤ fi_num block_header h)
            (fdb_index (n_fork fork_node))).
  vm_compute in E. injection E as <-. apply (bool_decide_unpack _). vm_compute. reflexivity.
Qed.

Lemma fork_push_block_longest_witness :
  let r := ok_or (fork_node.(n_fork), ForkItem 0 None header1) (fork_push_block block_header fork_node.(n_fork) header3) in
  fi_num block_header r.2 = 3 ∧ is_known_block r.1 (block_id header2') = true.
Proof.
  intros r. destruct (fork_push_block_longest block_header fork_node.(n_fork) header3 r.1 r.2) as (_ & _ & _ & Hn & _ & Hk).
  - exact fork_node_ok.
  - exact fork_node_window.
  - vm_compute. reflexivity.
  - split; [rewrite Hn; vm_compute; reflexivity|]. unfold is_known_block. apply bool_decide_eq_true.
    destruct (fork_node.(n_fork).(fdb_index) !! block_id header2') as [it|] eqn:E; [|exfalso; by vm_compute in E].
    exists it. apply Hk; [exact E|]. rewrite Hn. vm_compute in E. injection E as <-. vm_compute. congruence.
Defined.

Lemma fetch_branch_from_correct_witness :
  let f := (ok_or (fork_node.(n_fork), ForkItem 0 None header1) (fork_push_block block_header fork_node.(n_fork) header3)).1 in
  ∃ l1 l2, fetch_branch_from block_header f (block_id header3) (block_id header2) = Ok (l1, l2) ∧
    sample_items l1 = [header3; header2'] ∧ sample_items l2 = [header2] ∧
    branches_from block_header (block_id header3) (block_id header2) l1 l2.
Proof.
  intros f. assert (fork_ok block_header f) as Hf.
  { destruct (fork_push_block_window block_header fork_node.(n_fork) header3 f
      (ok_or (fork_node.(n_fork), ForkItem 0 None header1) (fork_push_block block_header fork_node.(n_fork) header3)).2) as [H _];
      [exact fork_node_ok|exact fork_node_window|vm_compute; reflexivity|exact H]. }
  pose proof (fetch_branch_from_correct block_header f (block_id header3) (block_id header2) Hf) as H.
  destruct (fetch_branch_from block_header f (block_id header3) (block_id header2)) as [[l1 l2]|e] eqn:E; [|exfalso; vm_compute in E; discriminate E].
  exists l1, l2. split; [reflexivity|]. vm_compute in E. injection E as <- <-. split; [reflexivity|]. split; [reflexivity|]. exact H.
Defined.

(** The history bound of the sample: nothing is irreversible yet. *)
Definition all_reversible (d : database) : Prop := d.(d_dgpo).(dgp_last_irreversible_block_num) = 0.
#[export] Instance all_reversible_dec d : Decision (all_reversible d).
Proof. unfold all_reversible. apply _. Defined.
Definition early (b : signed_block_header) : Prop := 2 ≤ block_num b ≤ 10.
#[export] Instance early_dec b : Decision (early b).
Proof. unfold early. apply _. Defined.
Lemma early_history d b z : all_reversible d → early b → (apply_block d b).1 = Some z → 3 ≤ z.
Proof.
  unfold all_reversible, early. intros Hd Hb H. destruct (apply_block d b).2 as [d'|e] eqn:E.
  - apply apply_header_Ok in E as (_ & _ & _ & _ & E). cbn in H. rewrite E, Hd, Z.sub_0_r in H. apply (inj Some) in H as <-.
    rewrite (u32_small (block_num b)), u32_small by lia. lia.
  - cbn in H, E. unfold apply_header in H, E. repeat case_match; done.
Qed.
Lemma early_reversible d b d' : all_reversible d → early b → (apply_block d b).2 = Ok d' → all_reversible d'.
Proof. intros Hd _ H. apply apply_header_Ok in H as (_ & _ & _ & E & _). unfold all_reversible. by rewrite E. Qed.

Definition pushed (b : signed_block_header) : fork_database signed_block_header * fork_item signed_block_header :=
  ok_or (fork_node.(n_fork), ForkItem 0 None header1) (fork_push_block block_header fork_node.(n_fork) b).
Definition branches (b : signed_block_header) : list (fork_item signed_block_header) * list (fork_item signed_block_header) :=
  ok_or ([], []) (fetch_branch_from block_header (pushed b).1 (block_id b) (block_id header2)).

Lemma fork_node_switching b : b = header3 ∨ b = header3_bad →
  switching 3 all_reversible early fork_node b (pushed b).1 (pushed b).2 (branches b).1 (branches b).2.
Proof.
  intros [-> | ->]; (split;
    [exact fork_node_ok|exact fork_node_window|vm_compute; congruence
    |split; [vm_compute; congruence|apply (bool_decide_unpack _); vm_compute; reflexivity]
    |vm_compute; reflexivity|apply (bool_decide_unpack _); vm_compute; reflexivity|vm_compute; reflexivity
    |vm_compute; reflexivity|split; apply (bool_decide_unpack _); vm_compute; reflexivity|split; vm_compute; congruence
    |apply (bool_decide_unpack _); vm_compute; reflexivity|vm_compute; split; [reflexivity|exact I]]).
Qed.

Lemma push_block_switches_witness :
  (let r := push_block header3 fork_node in
   r.2 = Ok true ∧ switched fork_node (pushed header3).1 (pushed header3).2 (branches header3).1 (branches header3).2 r.1) ∧
  (let r := push_block header3_bad fork_node in
   r.2 = Err assert_exception ∧ r.1.(n_state) = fork_node.(n_state)).
Proof.
  split.
  - pose proof (push_block_switches 3 all_reversible early early_history early_reversible fork_node header3 _ _ _ _
                  (fork_node_switching header3 ltac:(by left))) as H.
    destruct (push_block header3 fork_node) as [n' r] eqn:E. cbn zeta.
    assert (r = Ok true) as -> by (rewrite <-(f_equal snd E : _ = r); vm_compute; reflexivity).
    split; [reflexivity|]. exact (proj2 H).
  - pose proof (push_block_switches 3 all_reversible early early_history early_reversible fork_node header3_bad _ _ _ _
                  (fork_node_switching header3_bad ltac:(by right))) as H.
    destruct (push_block header3_bad fork_node) as [n' r] eqn:E. cbn zeta.
    assert (r = Err assert_exception) as -> by (rewrite <-(f_equal snd E : _ = r); vm_compute; reflexivity).
    split; [reflexivity|]. exact (proj1 H).
Defined.
