(* ===== verification/Upkeep.v ===== *)
(** * What every block does

    [db_update.cpp]: the pay of the signing witness, the last irreversible
    block, the end of statuses, bets, lotteries and matrices, the cancellation
    of P2P orders, pledges and transfers that have expired.  The loops over
    secondary indices are those of Cursor.v. *)
From stdpp Require Import sorting.
From S2P Require Import Prelude Safe Asset Objects Database Ledger Vesting Balance Evaluator Sample Referral.
From S2P Require Import Cursor GameZone Exchange Financial Schedule.

(** ** Witnesses and irreversibility *)

Definition update_signing_witness (d : database) (signing_witness : Z) (new_block : signed_block_header) : result database :=
  let new_block_aslot := u64 (d.(d_dgpo).(dgp_current_aslot) + get_slot_at_time d new_block.(blk_timestamp)) in
  let witness_pay := Z.min (parameters d).(cp_witness_pay_per_block) d.(d_dgpo).(dgp_witness_budget) in
  budget ← safe_sub d.(d_dgpo).(dgp_witness_budget) witness_pay;
  d1 ← deposit_witness_pay (d <| d_dgpo ::= λ g, g <| dgp_witness_budget := budget |> |>) signing_witness witness_pay;
  i ← index_modify d1.(d_witnesses) signing_witness (λ w,
        Ok (w <| wit_last_aslot := new_block_aslot |> <| wit_last_confirmed_block_num := block_num new_block |>));
  Ok (d1 <| d_witnesses := i |>).

Definition GRAPHENE_IRREVERSIBLE_THRESHOLD : Z := 70 * GRAPHENE_1_PERCENT.

Fixpoint mapM_result {A B} (f : A → result B) (l : list A) : result (list B) :=
  match l with
  | [] => Ok []
  | x :: l => y ← f x; ys ← mapM_result f l; Ok (y :: ys)
  end.

(** [nth_element] by the last confirmed block: the element a sort would put
    there. *)
Definition update_last_irreversible_block (d : database) : result database :=
  wit_objs ← mapM_result (index_get d.(d_witnesses)) d.(d_gpo).(gpo_active_witnesses);
  let confirmed := wit_last_confirmed_block_num <$> wit_objs in
  let offset := ((GRAPHENE_100_PERCENT - GRAPHENE_IRREVERSIBLE_THRESHOLD) * Z.of_nat (length wit_objs))
                  `div` GRAPHENE_100_PERCENT in
  new ← from_option_exn assert_exception (merge_sort Z.le confirmed !! Z.to_nat offset);
  Ok (if d.(d_dgpo).(dgp_last_irreversible_block_num) <? new
      then d <| d_dgpo ::= λ g, g <| dgp_last_irreversible_block_num := new |> |> else d).

(** ** auto_reset_status *)
Definition reset_status (d : database) (id : Z) : result database :=
  modify_account d id (λ a,
    Ok (a <| acc_referral_status_type := 0 |> <| acc_referral_status_paid_fee := 0 |>
          <| acc_referral_status_expiration_date := 0 |>
          <| acc_referral_levels := nth 0 (parameters d).(cp_status_levels) 0 |>
          <| acc_status_denominator := nth 0 (parameters d).(cp_status_denominator) 0 |>)).

Definition accounts_of (d : database) : gmap Z account_object := d.(d_accounts).(objs).
Definition auto_reset_status (d : database) : result database :=
  scan_expired acc_referral_status_expiration_date accounts_of reset_status (head_block_time d) d.

(** ** auto_cancel_p2p_orders

    Since [HARDFORK_CWD3_TIME] the orders to cancel are collected first.  Before, the
    walk along the index removed the order under its iterator, whose increment is
    then undefined.  The index keeps the orders of a status in the order in which
    they came there; the model takes their identifiers. *)
Definition by_id (x y : Z * p2p_order_object) : Prop := x.1 ≤ y.1.
#[export] Instance by_id_dec : RelDecision by_id.
Proof. intros x y. unfold by_id. apply _. Defined.

Definition orders_where (d : database) (p : p2p_order_object → bool) : list (Z * p2p_order_object) :=
  merge_sort by_id (map_to_list (filter (λ x, p x.2 = true) d.(d_p2p_orders).(objs))).

Definition count_banned (until : Z) (s : account_statistics_object) : result account_statistics_object :=
  let s := s <| st_p2p_canceled_deals ::= λ n, u32 (n + 1) |> <| st_p2p_banned := until |> in
  Ok (if 0 <? s.(st_p2p_current_month_rating) then s <| st_p2p_current_month_rating ::= λ n, n - 1 |> else s).

Definition autocancel_order (d : database) (order : Z * p2p_order_object) : result database :=
  let '(id, o) := order in
  d1 ← modify_statistics d o.(po_p2p_gateway) count_canceled;
  remove_p2p_order (push_applied_operation d1 (autocancel_p2p_order_op id o.(po_p2p_gateway) o.(po_p2p_client))) id.

Definition autorefund_order (d : database) (order : Z * p2p_order_object) : result database :=
  let '(id, o) := order in
  _ ← get_statistics d o.(po_p2p_client);
  _ ← get_statistics d o.(po_p2p_gateway);
  let refund_to := if o.(po_order_type) then o.(po_p2p_gateway) else o.(po_p2p_client) in
  d1 ← (if o.(po_order_type)
        then modify_statistics d o.(po_p2p_client) (count_banned (time_add (head_block_time d) (12 * 3600)))
        else modify_statistics d o.(po_p2p_gateway) count_canceled);
  d2 ← adjust_balance d1 refund_to o.(po_amount);
  remove_p2p_order (push_applied_operation d2
    (autorefund_p2p_order_op id o.(po_p2p_gateway) o.(po_p2p_client) o.(po_amount) refund_to)) id.

(** One round of a walk before the hard fork. *)
Definition erase_under_iterator (f : database → Z * p2p_order_object → result database) (overdue : p2p_order_object → bool)
    (d : database) (order : Z * p2p_order_object) : result database :=
  if overdue order.2 then _ ← f d order; Err undefined_behaviour else Ok d.

Definition auto_cancel_p2p_orders (d : database) : result database :=
  let now := head_block_time d in
  if HARDFORK_CWD3_TIME <=? now then
    d1 ← foldM autocancel_order d (orders_where d (λ o, (o.(po_time_for_approve) <? now) && (o.(po_status) =? 1)));
    foldM autorefund_order d1 (orders_where d1 (λ o, (o.(po_time_for_reply) <? now) && (o.(po_status) =? 2)))
  else
    d1 ← foldM (erase_under_iterator autocancel_order (λ o, o.(po_time_for_approve) <? now)) d
           (orders_where d (λ o, o.(po_status) =? 1));
    foldM (erase_under_iterator autorefund_order (λ o, o.(po_time_for_reply) <? now)) d1
      (orders_where d1 (λ o, o.(po_status) =? 2)).

(** ** proceed_bets *)
Definition count_prize (a : Z) : result Z :=
  if a =? 0 then Ok 0
  else r ← to_uint64 (uint128_mul (uint128_of_int64 a) (9000 * 2) `div` GRAPHENE_100_PERCENT); Ok (to_int64 r).
Definition count_referral_prize (a : Z) : result Z :=
  if a =? 0 then Ok 0
  else r ← to_uint64 (uint128_mul (uint128_of_int64 a) (1000 * 2) `div` GRAPHENE_100_PERCENT); Ok (to_int64 r).

(** The digit of the block id the bettor has chosen; even digits are heads. *)
Definition heads (d : database) (f : flipcoin_object) : bool :=
  let check_nonce := u8 (8 + f.(fl_nonce)) in
  let check_nonce := if 39 <? check_nonce then 39 else check_nonce in
  Z.even (nth (Z.to_nat check_nonce) (head_block_id d) 0).

Definition remove_flipcoin (d : database) (id : Z) : result database :=
  i ← index_remove d.(d_flipcoins) id; Ok (d <| d_flipcoins := i |>).

Definition cancel_bet (d : database) (id : Z) (f : flipcoin_object) : result database :=
  d1 ← adjust_balance d f.(fl_bettor) f.(fl_bet);
  remove_flipcoin (push_applied_operation d1 (flipcoin_cancel_op id f.(fl_bettor) f.(fl_bet))) id.

Definition flip (d : database) (id : Z) (f : flipcoin_object) : result database :=
  prize ← count_prize f.(fl_bet).(amount);
  referral_prize ← count_referral_prize f.(fl_bet).(amount);
  caller ← from_option_exn assert_exception f.(fl_caller);
  _ ← get_account d caller;
  let winner := if heads d f then f.(fl_bettor) else caller in
  let looser := if heads d f then caller else f.(fl_bettor) in
  d1 ← adjust_balance d winner (Asset prize f.(fl_bet).(asset_id));
  let d2 := push_applied_operation (push_applied_operation d1
              (flipcoin_win_op id winner (Asset prize f.(fl_bet).(asset_id))
                 (Asset referral_prize f.(fl_bet).(asset_id))))
              (flipcoin_loose_op id looser f.(fl_bet)) in
  _ ← get_account d2 winner;
  _ ← get_account d2 looser;
  d3 ← update_nv referral_fuel d2 winner referral_prize 1 0 ∅;
  d4 ← (if HARDFORK_CWD2_TIME <=? head_block_time d3 then
          d4 ← update_pv d3 winner f.(fl_bet).(amount);
          update_pv d4 looser f.(fl_bet).(amount)
        else update_pv d3 winner referral_prize);
  d5 ← modify_statistics d4 winner (stat_pay_fee referral_prize);
  d6 ← process_fees d5 winner;
  remove_flipcoin d6 id.

(** The bet that expires first, as long as it is due and not yet flipped.  The
    code goes on to read the object it has just cancelled and removed. *)
Definition flipcoins_of (d : database) : gmap Z flipcoin_object := d.(d_flipcoins).(objs).

Fixpoint proceed_bets_loop (fuel : nat) (d : database) : result database :=
  match least fl_expiration (λ _, true) (flipcoins_of d) with
  | Some (e, id) =>
    f ← index_get d.(d_flipcoins) id;
    if (e <=? head_block_time d) && (f.(fl_status) <? 2) then
      match fuel with
      | O => Err out_of_fuel
      | S fuel =>
        d' ← (if f.(fl_status) =? 0 then cancel_bet d id f else flip d id f);
        proceed_bets_loop fuel d'
      end
    else Ok d
  | None => Ok d
  end.

Definition proceed_bets (d : database) : result database := proceed_bets_loop (size (flipcoins_of d)) d.

(** ** proceed_pledge, proceed_approved_transfer *)
Definition expire_pledge (d : database) (id : Z) : result database :=
  po ← get_pledge_offer d id;
  if (po.(pl_status) =? 1) && (po.(pl_expiration) <=? head_block_time d) then
    d1 ← adjust_balance (push_applied_operation d (pledge_offer_auto_repay_op id po.(pl_debitor) po.(pl_creditor)
            po.(pl_pledge_amount) po.(pl_credit_amount) po.(pl_repay_amount))) po.(pl_creditor) po.(pl_pledge_amount);
    modify_pledge_offer d1 id (λ p, Ok (p <| pl_status := 8 |> <| pl_expiration := 0 |>))
  else Ok d.

Definition pledges_of (d : database) : gmap Z pledge_offer_object := d.(d_pledge_offers).(objs).
Definition proceed_pledge (d : database) : result database :=
  d1 ← scan_expired pl_expiration pledges_of expire_pledge (head_block_time d) d;
  drain pl_status pledges_of remove_pledge_offer (size (pledges_of d1)) 8 d1.

Definition expire_transfer (d : database) (id : Z) : result database :=
  ato ← get_ato d id;
  if (ato.(at_status) =? 0) && (ato.(at_expiration) <=? head_block_time d) then
    d1 ← adjust_balance (push_applied_operation d
            (approved_transfer_cancel_op id ato.(at_from) ato.(at_to) ato.(at_arbitr) ato.(at_amount)))
            ato.(at_from) ato.(at_amount);
    i ← index_modify d1.(d_approved_transfers) id (λ p, Ok (p <| at_status := 2 |> <| at_expiration := 0 |>));
    Ok (d1 <| d_approved_transfers := i |>)
  else Ok d.

Definition transfers_of (d : database) : gmap Z approved_transfer_object := d.(d_approved_transfers).(objs).
Definition proceed_approved_transfer (d : database) : result database :=
  d1 ← scan_expired at_expiration transfers_of expire_transfer (head_block_time d) d;
  drain at_status transfers_of remove_ato (size (transfers_of d1)) 2 d1.

(** ** proceed_lottery_goods *)

(** The number of hexadecimal digits of an integer. *)
Definition hex_length (n : Z) : Z := if n =? 0 then 1 else Z.log2 n `div` 4 + 1.

(** The value of the last [n] digits of the block id. *)
Definition block_id_int (d : database) (n : Z) : Z :=
  let digits := head_block_id d in
  u32 (foldl (λ acc c, 16 * acc + c) 0 (drop (length digits - Z.to_nat n) digits)).

Definition announce (lot winner_index : Z) (d : database) (p : Z * Z) : result database :=
  let '(i, participant) := p in
  if i =? winner_index then
    let winner := if lot =? 48 then 164 else participant in
    d1 ← modify_lottery d lot (λ l,
           Ok (l <| lg_winner := Some winner |> <| lg_status := 2 |> <| lg_expiration := 0 |>));
    Ok (push_applied_operation d1 (lottery_goods_win_op lot winner))
  else Ok (push_applied_operation d (lottery_goods_loose_op lot participant)).

Definition refund_ticket (lot : Z) (price : asset) (d : database) (participant : Z) : result database :=
  d1 ← adjust_balance d participant price;
  Ok (push_applied_operation d1 (lottery_goods_refund_op lot participant price)).

Definition draw_lottery (d : database) (id : Z) (l : lottery_goods_object) : result database :=
  let n := Z.of_nat (length l.(lg_participants)) in
  if (l.(lg_total_participants) =? n) && (0 <? l.(lg_total_participants)) then
    let winner_index := block_id_int d (hex_length l.(lg_total_participants)) `mod` l.(lg_total_participants) in
    foldM (announce id winner_index) d (imap (λ i p, (Z.of_nat i, p)) l.(lg_participants))
  else Ok d.

Definition expire_lottery (d : database) (id : Z) : result database :=
  l ← get_lottery d id;
  d1 ← (if l.(lg_status) =? 1 then draw_lottery d id l else Ok d);
  l1 ← get_lottery d1 id;
  if l1.(lg_status) =? 0 then
    d2 ← foldM (refund_ticket id l1.(lg_ticket_price)) d1 l1.(lg_participants);
    modify_lottery d2 id (λ l, Ok (l <| lg_status := 8 |> <| lg_expiration := 0 |>))
  else Ok d1.

Definition lotteries_of (d : database) : gmap Z lottery_goods_object := d.(d_lotteries).(objs).
Definition remove_lottery (d : database) (id : Z) : result database :=
  i ← index_remove d.(d_lotteries) id; Ok (d <| d_lotteries := i |>).
Definition proceed_lottery_goods (d : database) : result database :=
  d1 ← scan_expired lg_expiration lotteries_of expire_lottery (time_add (head_block_time d) 5) d;
  drain lg_status lotteries_of remove_lottery (size (lotteries_of d1)) 8 d1.

(** ** Termination and completeness of the loops *)

Lemma terminates_expire_pledge d id : terminates (expire_pledge d id).
Proof. unfold expire_pledge, get_pledge_offer, modify_pledge_offer. solve_terminates. Qed.
Lemma terminates_expire_transfer d id : terminates (expire_transfer d id).
Proof. unfold expire_transfer, get_ato. solve_terminates. Qed.
Lemma terminates_reset_status d id : terminates (reset_status d id).
Proof. unfold reset_status. solve_terminates. Qed.

(** What waits for each loop, and what becomes of it. *)
Definition pledge_due (now : Z) (p : pledge_offer_object) : bool := (p.(pl_status) =? 1) && (p.(pl_expiration) <=? now).
Definition pledge_settled (p p' : pledge_offer_object) : Prop := p' = p <| pl_status := 8 |> <| pl_expiration := 0 |>.
Definition transfer_due (now : Z) (t : approved_transfer_object) : bool :=
  (t.(at_status) =? 0) && (t.(at_expiration) <=? now).
Definition transfer_settled (t t' : approved_transfer_object) : Prop := t' = t <| at_status := 2 |> <| at_expiration := 0 |>.

(** The clock stands still during a loop. *)
Definition same_clock (d d' : database) : Prop := d'.(d_dgpo) = d.(d_dgpo).
#[export] Instance same_clock_preorder : PreOrder same_clock.
Proof. split; [done|]. intros d1 d2 d3 H1 H2. unfold same_clock in *. congruence. Qed.

Lemma adjust_balance_dgpo d acc delta d' : adjust_balance d acc delta = Ok d' → d'.(d_dgpo) = d.(d_dgpo).
Proof. intros H. by rewrite (adjust_balance_frame _ _ _ _ H). Qed.

Lemma expire_pledge_spec d id p d' :
  pledges_of d !! id = Some p → expire_pledge d id = Ok d' →
  same_clock d d' ∧
  ∃ p', pledges_of d' = <[id := p']> (pledges_of d) ∧
    if pledge_due (head_block_time d) p then pledge_settled p p' else p' = p.
Proof.
  intros Hp H. unfold expire_pledge, get_pledge_offer, index_get in H. unfold pledges_of in *. rewrite Hp in H.
  cbn [from_option_exn mbind result_bind] in H. unfold pledge_due.
  destruct ((p.(pl_status) =? 1) && _) eqn:Hdue.
  - apply bind_Ok in H as (d1 & H1 & H). unfold modify_pledge_offer in H. apply bind_Ok in H as (i & Hi & H).
    apply Ok_inj in H as <-. pose proof (adjust_balance_dgpo _ _ _ _ H1) as Hd. keep d_pledge_offers.
    apply index_modify_Ok in Hi as (p0 & p' & Hp0 & [= <-] & ->). cbn in *. rewrite Hkeep in *. same_ok.
    split; [done|]. eexists. by split.
  - inv_ok. split; [done|]. exists p. split; [by rewrite insert_id|]. done.
Qed.

Lemma expire_transfer_spec d id t d' :
  transfers_of d !! id = Some t → expire_transfer d id = Ok d' →
  same_clock d d' ∧
  ∃ t', transfers_of d' = <[id := t']> (transfers_of d) ∧
    if transfer_due (head_block_time d) t then transfer_settled t t' else t' = t.
Proof.
  intros Hp H. unfold expire_transfer, get_ato, index_get in H. unfold transfers_of in *. rewrite Hp in H.
  cbn [from_option_exn mbind result_bind] in H. unfold transfer_due.
  destruct ((t.(at_status) =? 0) && _) eqn:Hdue.
  - apply bind_Ok in H as (d1 & H1 & H). apply bind_Ok in H as (i & Hi & H).
    apply Ok_inj in H as <-. pose proof (adjust_balance_dgpo _ _ _ _ H1) as Hd. keep d_approved_transfers.
    apply index_modify_Ok in Hi as (p0 & p' & Hp0 & [= <-] & ->). cbn in *. rewrite Hkeep in *. same_ok.
    split; [done|]. eexists. by split.
  - inv_ok. split; [done|]. exists t. split; [by rewrite insert_id|]. done.
Qed.

(** ** Flows *)
Lemma expire_pledge_conserves d id d' : expire_pledge d id = Ok d' → conserves d d'.
Proof.
  intros H. unfold expire_pledge in H. apply bind_Ok in H as (p & Hp & H). case_match; [|inv_ok; unfold conserves; solve_flow].
  apply bind_Ok in H as (d1 & H1 & H). unfold modify_pledge_offer in H. apply bind_Ok in H as (i & Hi & H).
  apply Ok_inj in H as <-. destruct (flow_modify_pledge _ _ _ _ Hi) as (p0 & p' & Hp0 & [= <-] & F).
  assert (p0 = p) as ->.
  { unfold get_pledge_offer in Hp. keep d_pledge_offers. cbn in *. rewrite Hkeep in Hp0. congruence. }
  propify. rewrite (pledge_held_filled p) in F by tauto. unfold pledge_held in F. cbn in F. change (8 =? 1) with false in F.
  clear Hi Hp Hp0. unfold conserves. solve_flow.
Qed.

Lemma expire_transfer_conserves d id d' : expire_transfer d id = Ok d' → conserves d d'.
Proof.
  intros H. unfold expire_transfer in H. apply bind_Ok in H as (t & Ht & H).
  case_match; [|inv_ok; unfold conserves; solve_flow].
  apply bind_Ok in H as (d1 & H1 & H). apply bind_Ok in H as (i & Hi & H).
  apply Ok_inj in H as <-. destruct (flow_modify_ato _ _ _ _ Hi) as (t0 & t' & Ht0 & [= <-] & F).
  assert (t0 = t) as ->.
  { unfold get_ato in Ht. keep d_approved_transfers. cbn in *. rewrite Hkeep in Ht0. congruence. }
  propify. unfold transfer_held in F. cbn in F. change (2 =? 2) with true in F.
  destruct (Z.eqb_spec t.(at_status) 2); [lia|]. clear Hi Ht Ht0. unfold conserves. solve_flow.
Qed.

Lemma remove_expired_pledge d id p d' :
  pledges_of d !! id = Some p → p.(pl_status) = 8 → remove_pledge_offer d id = Ok d' → conserves d d'.
Proof.
  intros Hp Hs H. pose proof (flow_remove_pledge _ _ _ _ H (proj2 (index_get_Ok _ _ _) Hp)) as F.
  eapply flow_ext; [exact F|]. intros a. unfold pledge_held. rewrite Hs. flow_arith.
Qed.

Lemma remove_expired_transfer d id t d' :
  transfers_of d !! id = Some t → t.(at_status) = 2 → remove_ato d id = Ok d' → conserves d d'.
Proof.
  intros Hp Hs H. pose proof (flow_remove_ato _ _ _ _ H (proj2 (index_get_Ok _ _ _) Hp)) as F.
  eapply flow_ext; [exact F|]. intros a. unfold transfer_held. rewrite Hs. flow_arith.
Qed.

(** ** Lotteries *)
Definition won (l l' : lottery_goods_object) : Prop :=
  ∃ winner, l' = l <| lg_winner := Some winner |> <| lg_status := 2 |> <| lg_expiration := 0 |>.

Lemma announce_one d lot w p l d' :
  announce lot w d p = Ok d' → lotteries_of d !! lot = Some l → l.(lg_status) = 1 ∨ l.(lg_status) = 2 →
  same_clock d d' ∧ conserves d d' ∧
  ∃ l', lotteries_of d' = <[lot := l']> (lotteries_of d) ∧ if p.1 =? w then won l l' else l' = l.
Proof.
  intros H Hl Hs. destruct p as [i q]. unfold announce in H. cbn [fst]. destruct (i =? w).
  - apply bind_Ok in H as (d1 & H1 & H). apply Ok_inj in H as <-.
    destruct (flow_modify_lottery _ _ _ _ l H1 Hl) as (l' & Hl' & F).
    { intros l' [Hc Hf] [= <-]. split; [done|]. cbn. intros _. by apply Hf. }
    unfold modify_lottery in H1. apply bind_Ok in H1 as (j & Hj & H1). apply Ok_inj in H1 as <-.
    apply index_modify_Ok in Hj as (l0 & l1 & Hl0 & [= <-] & ->). unfold lotteries_of in Hl. same_ok.
    apply Ok_inj in Hl' as <-. split; [done|]. split; [|eexists; split; [done|by eexists]].
    eapply flow_ext; [eapply flow_trans; [exact F|apply flow_push]|]. intros a. cbn.
    unfold lottery_held. cbn. destruct Hs as [-> | ->]; change (2 <? 3) with true; change (1 <? 3) with true; cbn; lia.
  - apply Ok_inj in H as <-. split; [done|]. split; [apply flow_push|]. exists l. split; [by rewrite insert_id|done].
Qed.

Lemma announce_all lot w ps d l d' :
  foldM (announce lot w) d ps = Ok d' → lotteries_of d !! lot = Some l → l.(lg_status) = 1 ∨ l.(lg_status) = 2 →
  same_clock d d' ∧ conserves d d' ∧
  ∃ l', lotteries_of d' = <[lot := l']> (lotteries_of d) ∧ (l' = l ∨ won l l') ∧ (w ∈ ps.*1 → won l l').
Proof.
  revert d l. induction ps as [|p ps IH]; intros d l H Hl Hs; cbn in H.
  { apply Ok_inj in H as <-. split; [done|]. split; [reflexivity|]. exists l. split; [by rewrite insert_id|].
    split; [by left|]. by intros ?%elem_of_nil. }
  apply bind_Ok in H as (d1 & H1 & H).
  destruct (announce_one _ _ _ _ _ _ H1 Hl Hs) as (C1 & F1 & l1 & E1 & W1).
  assert (l1.(lg_status) = 1 ∨ l1.(lg_status) = 2) as Hs1.
  { destruct (p.1 =? w); [destruct W1 as (x & ->); by right|by subst]. }
  destruct (IH d1 l1) as (C2 & F2 & l2 & E2 & W2 & Hin); [done|rewrite E1; apply lookup_insert_eq|done|].
  split; [by etrans|]. split; [by etrans|]. exists l2. split; [by rewrite E2, E1, insert_insert_eq|].
  assert (∀ l0 l3, won l l0 → l3 = l0 ∨ won l0 l3 → won l l3) as Htrans.
  { intros ? ? (x & ->) [-> | (y & ->)]; by eexists. }
  cbn. destruct (Z.eqb_spec p.1 w) as [E|E].
  - assert (won l l2) by (by eapply Htrans). split; [by right|done].
  - subst l1. split; [done|]. intros [Hw|Hw]%elem_of_cons; [congruence|by apply Hin].
Qed.

Definition drawable (l : lottery_goods_object) : bool :=
  (l.(lg_total_participants) =? Z.of_nat (length l.(lg_participants))) && (0 <? l.(lg_total_participants)).

Lemma draw_lottery_spec d id l d' :
  draw_lottery d id l = Ok d' → lotteries_of d !! id = Some l → l.(lg_status) = 1 →
  same_clock d d' ∧ conserves d d' ∧
  ∃ l', lotteries_of d' = <[id := l']> (lotteries_of d) ∧ if drawable l then won l l' else l' = l.
Proof.
  intros H Hl Hs. unfold draw_lottery in H. fold (drawable l) in H. destruct (drawable l) eqn:Hd.
  - destruct (announce_all _ _ _ _ l _ H Hl (or_introl Hs)) as (C & F & l' & E & _ & Hin).
    split; [done|]. split; [done|]. exists l'. split; [done|]. apply Hin.
    unfold drawable in Hd. propify. destruct Hd as [Hn Hpos]. set (w := _ `mod` _).
    assert (0 ≤ w < l.(lg_total_participants)) as Hw by (by apply Z.mod_pos_bound).
    destruct (lookup_lt_is_Some_2 l.(lg_participants) (Z.to_nat w)) as [q Hq]; [lia|].
    apply list_elem_of_fmap. exists (w, q). split; [done|].
    apply elem_of_lookup_imap. exists (Z.to_nat w), q. split; [f_equal; lia|done].
  - apply Ok_inj in H as <-. split; [done|]. split; [reflexivity|]. exists l. split; [by rewrite insert_id|done].
Qed.

Lemma refund_ticket_flow lot price d p d' : refund_ticket lot price d p = Ok d' → flow d d' (λ a, of_asset a price).
Proof. intros H. unfold refund_ticket in H. inv_ok. solve_flow. Qed.

Lemma refund_tickets_frame lot price ps d d' :
  foldM (refund_ticket lot price) d ps = Ok d' → same_clock d d' ∧ d'.(d_lotteries) = d.(d_lotteries).
Proof.
  apply (foldM_inv _ (λ x, same_clock d x ∧ d_lotteries x = d_lotteries d)); [|done].
  intros s p s' [C E] H. unfold refund_ticket in H. apply bind_Ok in H as (d1 & H1 & H). apply Ok_inj in H as <-.
  rewrite (adjust_balance_frame _ _ _ _ H1). done.
Qed.

(** What waits for the loop over the lotteries. *)
Definition lottery_due (l : lottery_goods_object) : bool :=
  (l.(lg_status) =? 0) || ((l.(lg_status) =? 1) && drawable l).
(** Drawn when it is sold out, refunded otherwise. *)
Definition lottery_settled (l l' : lottery_goods_object) : Prop :=
  (l.(lg_status) = 1 ∧ won l l') ∨ (l.(lg_status) = 0 ∧ l' = l <| lg_status := 8 |> <| lg_expiration := 0 |>).

Lemma expire_lottery_spec d id l d' :
  lotteries_of d !! id = Some l → expire_lottery d id = Ok d' →
  same_clock d d' ∧ conserves d d' ∧
  ∃ l', lotteries_of d' = <[id := l']> (lotteries_of d) ∧ if lottery_due l then lottery_settled l l' else l' = l.
Proof.
  intros Hl H. unfold expire_lottery in H. apply bind_Ok in H as (l0 & Hl0 & H). apply index_get_Ok in Hl0.
  unfold lotteries_of in Hl. assert (l0 = l) as -> by congruence. clear Hl. rename Hl0 into Hl.
  apply bind_Ok in H as (d1 & H1 & H). apply bind_Ok in H as (l1 & Hl1 & H).
  apply index_get_Ok in Hl1. destruct (Z.eqb_spec l.(lg_status) 1) as [Hs|Hs].
  - destruct (draw_lottery_spec _ _ _ _ H1 Hl Hs) as (C & F & l' & E & W). unfold lotteries_of in E.
    rewrite E, lookup_insert_eq in Hl1. injection Hl1 as ->. unfold lottery_due.
    rewrite (proj2 (Z.eqb_neq l.(lg_status) 0)) by lia. rewrite (proj2 (Z.eqb_eq _ _) Hs). cbn [orb andb].
    destruct (drawable l) eqn:Hd.
    + assert ((l1.(lg_status) =? 0) = false) as E2 by (by destruct W as (x & ->)). rewrite E2 in H. apply Ok_inj in H as <-.
      split; [done|]. split; [done|]. eexists. split; [exact E|]. by left.
    + subst l1. rewrite (proj2 (Z.eqb_neq l.(lg_status) 0)) in H by lia. apply Ok_inj in H as <-.
      split; [done|]. split; [done|]. exists l. split; [exact E|done].
  - apply Ok_inj in H1 as <-. assert (l1 = l) as -> by congruence. clear Hl1. unfold lottery_due. rewrite (proj2 (Z.eqb_neq _ _) Hs).
    destruct (Z.eqb_spec l.(lg_status) 0) as [H0|H0]; cbn [orb andb].
    + apply bind_Ok in H as (d2 & H2 & H). destruct (refund_tickets_frame _ _ _ _ _ H2) as [C E].
      apply (flow_foldM _ _ _ _ _ (refund_ticket_flow id l.(lg_ticket_price))) in H2.
      assert (d2.(d_lotteries).(objs) !! id = Some l) as Hl2 by (by rewrite E).
      destruct (flow_modify_lottery _ _ _ _ l H Hl2) as (l' & Hl' & F).
      { intros l' [Hc Hf] [= <-]. split; [done|]. cbn. lia. }
      unfold modify_lottery in H. apply bind_Ok in H as (i & Hi & H). apply Ok_inj in H as <-.
      apply index_modify_Ok in Hi as (l2 & ? & Hl3 & [= <-] & ->). assert (l2 = l) as -> by congruence.
      apply Ok_inj in Hl' as <-. split; [done|]. split.
      * eapply flow_ext; [eapply flow_trans; [exact H2|exact F]|]. intros a. cbn beta. rewrite lsum_const.
        unfold lottery_held. cbn. rewrite H0. change (8 <? 3) with false. flow_arith.
      * eexists. split; [unfold lotteries_of; cbn; by rewrite E|]. by right.
    + apply Ok_inj in H as <-. split; [done|]. split; [reflexivity|]. exists l. split; [by rewrite insert_id|done].
Qed.

(** ** Cancelled orders *)
Definition orders_of (d : database) : gmap Z p2p_order_object := d.(d_p2p_orders).(objs).

Lemma orders_where_spec d p :
  NoDup (orders_where d p).*1 ∧
  ∀ id o, (id, o) ∈ orders_where d p ↔ orders_of d !! id = Some o ∧ p o = true.
Proof.
  unfold orders_where. pose proof (merge_sort_Permutation by_id (map_to_list (filter (λ x, p x.2 = true) (orders_of d)))) as HP.
  unfold orders_of in *. split.
  - rewrite HP. apply NoDup_fst_map_to_list.
  - intros id o. rewrite HP, elem_of_map_to_list, map_lookup_filter_Some. done.
Qed.

Lemma lookup_after_cancel (ids : list Z) (m : gmap Z p2p_order_object) id :
  foldl (λ m k, delete k m) m ids !! id = if decide (id ∈ ids) then None else m !! id.
Proof.
  revert m. induction ids as [|k ids IH]; intros m; cbn [foldl].
  - case_decide as E; [by apply elem_of_nil in E|done].
  - rewrite IH. destruct (decide (id ∈ ids)) as [Hin|Hin].
    + rewrite decide_True by (by apply list_elem_of_further). done.
    + destruct (decide (id = k)) as [->|Hne].
      * rewrite decide_True by apply list_elem_of_here. apply lookup_delete_eq.
      * rewrite decide_False by (intros [?|?]%elem_of_cons; done). by apply lookup_delete_ne.
Qed.

Definition approval_overdue (now : Z) (o : p2p_order_object) : bool := (o.(po_time_for_approve) <? now) && (o.(po_status) =? 1).
Definition reply_overdue (now : Z) (o : p2p_order_object) : bool := (o.(po_time_for_reply) <? now) && (o.(po_status) =? 2).

(** What account [k] gets back of asset [i] from an order: the gateway when the client
    was buying core from it, the client when it was selling. *)
Definition refund (now k i : Z) (o : p2p_order_object) : Z :=
  if reply_overdue now o && ((if o.(po_order_type) then o.(po_p2p_gateway) else o.(po_p2p_client)) =? k)
       && (o.(po_amount).(asset_id) =? i)
  then o.(po_amount).(amount) else 0.

(** The books stay balanced, and what the orders hold for an account is exactly what it
    is credited. *)
Definition balance_and_refunds (now k i : Z) (d : database) : Z :=
  (get_balance d k i).(amount) + msum (λ _, refund now k i) (orders_of d).
Definition refunds (now : Z) (d d' : database) : Prop :=
  conserves d d' ∧ ∀ k i, balance_and_refunds now k i d' = balance_and_refunds now k i d.
#[export] Instance refunds_preorder now : PreOrder (refunds now).
Proof.
  split; [intros d; split; [done|done]|]. intros d d1 d2 [C1 R1] [C2 R2]. split; [by etrans|].
  intros k i. by rewrite R2.
Qed.

Lemma same_clock_time d d' : same_clock d d' → head_block_time d' = head_block_time d.
Proof. unfold same_clock, head_block_time. by intros ->. Qed.
Lemma refunds_delete now d d' id o :
  orders_of d !! id = Some o → orders_of d' = delete id (orders_of d) →
  (∀ k i, (get_balance d' k i).(amount) = (get_balance d k i).(amount) + refund now k i o) →
  ∀ k i, balance_and_refunds now k i d' = balance_and_refunds now k i d.
Proof. intros Ho E Hb k i. unfold balance_and_refunds. rewrite E, Hb, (msum_delete _ _ _ _ Ho). lia. Qed.

(** A loop over a snapshot of the orders that removes each of them. *)
Lemma cancel_orders now f (P : p2p_order_object → Prop) d l d' :
  (∀ d id o d', orders_of d !! id = Some o → P o → head_block_time d = now → f d (id, o) = Ok d' →
     same_clock d d' ∧ refunds now d d' ∧ orders_of d' = delete id (orders_of d)) →
  head_block_time d = now →
  NoDup l.*1 → (∀ id o, (id, o) ∈ l → orders_of d !! id = Some o ∧ P o) → foldM f d l = Ok d' →
  same_clock d d' ∧ refunds now d d' ∧ orders_of d' = foldl (λ m k, delete k m) (orders_of d) l.*1.
Proof.
  intros Hf. revert d. induction l as [|[id o] l IH]; intros d Hn Hnd Hin H; cbn in H.
  { apply Ok_inj in H as <-. done. }
  apply bind_Ok in H as (d1 & H1 & H). cbn in Hnd. apply NoDup_cons in Hnd as [Hid Hnd].
  destruct (Hin id o) as [Ho HP]; [apply list_elem_of_here|].
  destruct (Hf _ _ _ _ Ho HP Hn H1) as (C1 & F1 & E1).
  destruct (IH d1) as (C2 & F2 & E2); [rewrite <-Hn; by apply same_clock_time|done|  |done|].
  - intros id' o' Hin'. rewrite E1, lookup_delete_ne.
    + by apply Hin, list_elem_of_further.
    + intros <-. apply Hid. apply list_elem_of_fmap. by exists (id, o').
  - split; [by etrans|]. split; [by etrans|]. cbn. by rewrite E2, E1.
Qed.

Lemma remove_order_frame d id d' :
  remove_p2p_order d id = Ok d' →
  same_clock d d' ∧ orders_of d' = delete id (orders_of d) ∧ d'.(d_balances) = d.(d_balances).
Proof.
  intros H. unfold remove_p2p_order in H. apply bind_Ok in H as (i & Hi & H). apply Ok_inj in H as <-.
  by apply index_remove_Ok in Hi as (o & _ & ->).
Qed.

#[export] Instance count_banned_neutral until : StatNeutral (count_banned until).
Proof.
  intros s s' Hs Hc. unfold count_banned in Hc. apply Ok_inj in Hc. subst.
  case_match; (split; [exact Hs|unfold stat_held; cbn; lia]).
Qed.

Lemma autocancel_order_spec now d id o d' :
  orders_of d !! id = Some o → o.(po_status) = 1 → head_block_time d = now → autocancel_order d (id, o) = Ok d' →
  same_clock d d' ∧ refunds now d d' ∧ orders_of d' = delete id (orders_of d).
Proof.
  intros Ho Hs Hn H. cbn in H. apply bind_Ok in H as (d1 & H1 & H).
  pose proof (remove_order_frame _ _ _ H) as (C & E & B).
  pose proof (modify_statistics_frame _ _ _ _ H1) as E1.
  split; [etrans; [|exact C]; unfold same_clock; cbn; by rewrite E1|].
  assert (orders_of d1 = orders_of d) as Eo by (unfold orders_of; by rewrite E1).
  assert (orders_of d' = delete id (orders_of d)) as Ed by (rewrite E; cbn; by rewrite <-Eo).
  split; [split|exact Ed].
  2: { eapply refunds_delete; [exact Ho|exact Ed|]. intros k i. unfold refund, reply_overdue. rewrite Hs, andb_false_r. cbn.
       unfold get_balance. rewrite B. cbn. rewrite E1. cbn. lia. }
  assert (d_p2p_orders d1 = d_p2p_orders d) as Eo1 by (by rewrite E1).
  intros Hd. assert (o.(po_order_type) = true) as Hty by (by apply (lok_orders _ Hd _ _ Ho)). revert Hd.
  change (flow d d' (λ _, 0)).
  eapply flow_remove_p2p_order in H; [|cbn; rewrite Eo1; exact Ho]. unfold order_held in H.
  rewrite Hty, Hs in H. cbn in H. clear E1 Eo Eo1 E Ed B C. solve_flow.
Qed.

Lemma autorefund_order_spec now d id o d' :
  orders_of d !! id = Some o → reply_overdue now o = true → head_block_time d = now → autorefund_order d (id, o) = Ok d' →
  same_clock d d' ∧ refunds now d d' ∧ orders_of d' = delete id (orders_of d).
Proof.
  intros Ho Hs Hn H. cbn in H. apply bind_Ok in H as (s1 & _ & H). apply bind_Ok in H as (s2 & _ & H).
  apply bind_Ok in H as (d1 & H1 & H). apply bind_Ok in H as (d2 & H2 & H).
  pose proof (remove_order_frame _ _ _ H) as (C & E & B).
  assert (same_clock d d1 ∧ d1.(d_p2p_orders) = d.(d_p2p_orders) ∧ d1.(d_balances) = d.(d_balances) ∧ flow d d1 (λ _, 0))
    as (C1 & E1 & B1 & F1).
  { clear H H2. case_match; pose proof (modify_statistics_frame _ _ _ _ H1) as Ef;
      (split; [unfold same_clock; by rewrite Ef|split; [by rewrite Ef|split; [by rewrite Ef|]]]); clear Ef; solve_flow. }
  pose proof (adjust_balance_frame _ _ _ _ H2) as E2.
  assert (same_clock d1 d2 ∧ d2.(d_p2p_orders) = d1.(d_p2p_orders)) as [C2 E2'] by (unfold same_clock; by rewrite E2).
  assert (orders_of d' = delete id (orders_of d)) as Ed by (rewrite E; unfold orders_of; cbn; by rewrite E2', E1).
  split; [etrans; [exact C1|]; etrans; [exact C2|]; exact C|]. split; [split|exact Ed].
  2: { eapply refunds_delete; [exact Ho|exact Ed|]. intros k i. unfold refund. rewrite Hs. cbn [andb].
       pose proof (adjust_balance_get _ _ _ _ k i H2) as G. change (d'.(d_balances) = d2.(d_balances)) in B.
       unfold get_balance in G |- *. rewrite B, G, B1. f_equal.
       clear. generalize (if o.(po_order_type) then o.(po_p2p_gateway) else o.(po_p2p_client)). intros who.
       destruct (Z.eqb_spec who k), (Z.eqb_spec o.(po_amount).(asset_id) i); case_decide; cbn; naive_solver. }
  unfold reply_overdue in Hs. propify. clear E2 H1 B.
  eapply flow_remove_p2p_order in H; [|cbn; rewrite E2', E1; exact Ho]. rewrite order_held_called in H by lia.
  clear C C1 C2 E E1 E2' Ed B1. unfold conserves. solve_flow.
Qed.

(** Since the hard fork. *)
Lemma auto_cancel_spec d d' :
  HARDFORK_CWD3_TIME ≤ head_block_time d → auto_cancel_p2p_orders d = Ok d' →
  same_clock d d' ∧ refunds (head_block_time d) d d' ∧
  ∃ ids1 ids2, orders_of d' = foldl (λ m k, delete k m) (orders_of d) (ids1 ++ ids2) ∧
    (∀ id, id ∈ ids1 ↔ ∃ o, orders_of d !! id = Some o ∧ approval_overdue (head_block_time d) o = true) ∧
    (∀ id, id ∈ ids2 ↔ (id ∉ ids1) ∧ ∃ o, orders_of d !! id = Some o ∧ reply_overdue (head_block_time d) o = true).
Proof.
  intros Hfork H. unfold auto_cancel_p2p_orders in H. cbv zeta in H. rewrite (proj2 (Z.leb_le _ _) Hfork) in H.
  apply bind_Ok in H as (d1 & H1 & H2).
  fold (approval_overdue (head_block_time d)) in H1. fold (reply_overdue (head_block_time d)) in H2.
  destruct (orders_where_spec d (approval_overdue (head_block_time d))) as [Hnd1 Hin1].
  destruct (orders_where_spec d1 (reply_overdue (head_block_time d))) as [Hnd2 Hin2].
  apply (cancel_orders (head_block_time d) _ (λ o, o.(po_status) = 1)) in H1 as (C1 & F1 & E1);
    [|exact (autocancel_order_spec _)|done|done|intros id o [? Hd]%Hin1; unfold approval_overdue in Hd; propify; tauto].
  apply (cancel_orders (head_block_time d) _ (λ o, reply_overdue (head_block_time d) o = true)) in H2 as (C2 & F2 & E2);
    [|exact (autorefund_order_spec _)|by apply same_clock_time|done|by intros id o ?%Hin2].
  split; [by etrans|]. split; [by etrans|].
  eexists _, _. split; [rewrite foldl_app, <-E1; exact E2|]. split; intros id; rewrite list_elem_of_fmap.
  - split; [intros ([? o] & -> & Ho%Hin1); by exists o|intros (o & Ho%Hin1); by exists (id, o)].
  - assert (∀ o, orders_of d1 !! id = Some o ↔ (id ∉ (orders_where d (approval_overdue (head_block_time d))).*1) ∧ orders_of d !! id = Some o) as E.
    { intros o. rewrite E1, lookup_after_cancel. case_decide; intuition done. }
    split.
    + intros ([? o] & -> & Ho%Hin2). cbn in *. destruct Ho as [Ho%E ?]. naive_solver.
    + intros (Hni & o & Ho & Hd). exists (id, o). split; [done|]. apply Hin2. by rewrite E.
Qed.
Lemma auto_cancel_lookup d d' id :
  HARDFORK_CWD3_TIME ≤ head_block_time d → auto_cancel_p2p_orders d = Ok d' →
  orders_of d' !! id =
    (o ← orders_of d !! id;
     if approval_overdue (head_block_time d) o || reply_overdue (head_block_time d) o then None else Some o).
Proof.
  intros Hfork (_ & _ & ids1 & ids2 & E & H1 & H2)%auto_cancel_spec; [|done].
  rewrite E, lookup_after_cancel. destruct (orders_of d !! id) as [o|] eqn:Ho; [|by case_decide].
  cbn [mbind option_bind]. specialize (H1 id). specialize (H2 id).
  destruct (approval_overdue _ o) eqn:Ha; [|destruct (reply_overdue _ o) eqn:Hr]; cbn [orb].
  - rewrite decide_True; [done|]. apply elem_of_app. left. apply H1. by exists o.
  - rewrite decide_True; [done|]. apply elem_of_app. right. apply H2. split; [|by exists o].
    intros (? & ? & ?)%H1. congruence.
  - rewrite decide_False; [done|]. intros [(? & ? & ?)%H1|(_ & ? & ? & ?)%H2]%elem_of_app; congruence.
Qed.

(** Before the hard fork, a walk that ends has found nothing overdue. *)
Lemma walk_before_fork f overdue d l d' :
  foldM (erase_under_iterator f overdue) d l = Ok d' → d' = d ∧ ∀ x, x ∈ l → overdue x.2 = false.
Proof.
  revert d. induction l as [|x l IH]; intros d H; cbn in H; [apply Ok_inj in H as ->; split; [done|by intros y ?%elem_of_nil]|].
  apply bind_Ok in H as (d1 & H1 & H). unfold erase_under_iterator in H1. destruct (overdue x.2) eqn:Ho.
  - apply bind_Ok in H1 as (? & _ & H1). discriminate H1.
  - apply Ok_inj in H1 as <-. destruct (IH d H) as [-> Hl]. split; [done|]. intros y [->|Hy]%elem_of_cons; [done|by apply Hl].
Qed.
Lemma auto_cancel_before_fork d d' :
  head_block_time d < HARDFORK_CWD3_TIME → auto_cancel_p2p_orders d = Ok d' →
  d' = d ∧ ∀ id o, orders_of d !! id = Some o → approval_overdue (head_block_time d) o || reply_overdue (head_block_time d) o = false.
Proof.
  intros Hfork H. unfold auto_cancel_p2p_orders in H. cbv zeta in H. rewrite (proj2 (Z.leb_gt _ _) Hfork) in H.
  apply bind_Ok in H as (d1 & H1 & H2). apply walk_before_fork in H1 as [-> N1]. apply walk_before_fork in H2 as [-> N2].
  split; [done|]. intros id o Ho.
  destruct (orders_where_spec d (λ o, o.(po_status) =? 1)) as [_ S1], (orders_where_spec d (λ o, o.(po_status) =? 2)) as [_ S2].
  specialize (S1 id o). specialize (S2 id o). unfold approval_overdue, reply_overdue.
  assert ((o.(po_status) =? 1) = true → (o.(po_time_for_approve) <? head_block_time d) = false) as T1
    by (intros Q; apply (N1 (id, o)); tauto).
  assert ((o.(po_status) =? 2) = true → (o.(po_time_for_reply) <? head_block_time d) = false) as T2
    by (intros Q; apply (N2 (id, o)); tauto).
  destruct (o.(po_status) =? 1), (o.(po_status) =? 2); rewrite ?T1, ?T2 by done; by rewrite ?andb_false_r.
Qed.

(** C31. The cancellation of P2P orders: a run that completes removes exactly the orders
    whose approval or reply is overdue; an order that waited for a reply goes back to
    who had paid it in, the gateway when the client was buying core and the client
    when it was selling; no other balance moves and every other order stays as it
    is.  (Before the hard fork a run completes only when nothing is overdue.) *)
Theorem auto_cancel_p2p_orders_overdue d d' (H : auto_cancel_p2p_orders d = Ok d') :
  conserves d d' ∧
  (∀ id, orders_of d' !! id =
    (o ← orders_of d !! id;
     if approval_overdue (head_block_time d) o || reply_overdue (head_block_time d) o then None else Some o)) ∧
  ∀ k i, (get_balance d' k i).(amount)
    = (get_balance d k i).(amount) + msum (λ _, refund (head_block_time d) k i) (orders_of d).
Proof.
  assert (refunds (head_block_time d) d d' ∧ ∀ id, orders_of d' !! id =
    (o ← orders_of d !! id;
     if approval_overdue (head_block_time d) o || reply_overdue (head_block_time d) o then None else Some o)) as [[C R] L].
  { destruct (Z.le_gt_cases HARDFORK_CWD3_TIME (head_block_time d)) as [Hf|Hf].
    - split; [by apply auto_cancel_spec|]. intros id. by apply auto_cancel_lookup.
    - apply auto_cancel_before_fork in H as [-> N]; [|done]. split; [done|]. intros id.
      destruct (orders_of d !! id) as [o|] eqn:Ho; [|done]. cbn. by rewrite (N _ _ Ho). }
  split; [done|]. split; [done|]. intros k i. specialize (R k i). unfold balance_and_refunds in R.
  rewrite <-R, msum_none; [lia|]. intros id o Ho. rewrite L in Ho. destruct (orders_of d !! id) as [o0|]; [|discriminate Ho]. cbn in Ho.
  destruct (approval_overdue _ o0 || reply_overdue _ o0) eqn:Eo; [discriminate Ho|]. injection Ho as <-.
  unfold refund. apply orb_false_iff in Eo as [_ ->]. done.
Qed.

(** ** Bets *)
Definition bet_ok (f : flipcoin_object) : Prop := 0 ≤ f.(fl_bet).(amount) ≤ GRAPHENE_MAX_SHARE_SUPPLY.
Definition bets_ok (d : database) : Prop := map_Forall (λ _ f, bet_ok f) (flipcoins_of d).

(** The fees that wait to be paid are amounts. *)
Definition fees_ok (d : database) : Prop := map_Forall (λ _ p, amount_ok p.1 ∧ amount_ok p.2) (pendings d).

Lemma prize_exact a k :
  0 ≤ a ≤ GRAPHENE_MAX_SHARE_SUPPLY → 0 ≤ k ≤ 18000 →
  to_uint64 (uint128_mul (uint128_of_int64 a) k `div` GRAPHENE_100_PERCENT) = Ok ((a * k) `div` GRAPHENE_100_PERCENT) ∧
  to_int64 ((a * k) `div` GRAPHENE_100_PERCENT) = (a * k) `div` GRAPHENE_100_PERCENT.
Proof.
  unfold GRAPHENE_MAX_SHARE_SUPPLY, GRAPHENE_100_PERCENT. intros Ha Hk.
  assert (0 ≤ (a * k) `div` 10000 ≤ 1800000000000000).
  { split; [apply Z.div_pos; nia|apply Z.div_le_upper_bound; nia]. }
  unfold uint128_mul, uint128_of_int64, uint128_mod, to_uint64, uint64_mod.
  rewrite (Z.mod_small a) by lia. rewrite (Z.mod_small (a * k)) by nia. split.
  - destruct (Z.ltb_spec ((a * k) `div` 10000) 18446744073709551616); [done|lia].
  - apply to_int64_id. solve_int64.
Qed.

(** The two prizes give the two bets back, but for at most one unit. *)
Lemma prizes_sum a p r :
  0 ≤ a ≤ GRAPHENE_MAX_SHARE_SUPPLY → count_prize a = Ok p → count_referral_prize a = Ok r →
  0 ≤ p ∧ 0 ≤ r ≤ a ∧ 2 * a - 1 ≤ p + r ≤ 2 * a.
Proof.
  intros Ha Hp Hr. unfold count_prize in Hp. unfold count_referral_prize in Hr.
  destruct (Z.eqb_spec a 0) as [->|Hne]; [injection Hp as <-; injection Hr as <-; lia|].
  destruct (prize_exact a (9000 * 2) Ha ltac:(lia)) as [E1 E2]. rewrite E1 in Hp. cbn [mbind result_bind] in Hp.
  destruct (prize_exact a (1000 * 2) Ha ltac:(lia)) as [E3 E4]. rewrite E3 in Hr. cbn [mbind result_bind] in Hr.
  apply Ok_inj in Hp as <-. apply Ok_inj in Hr as <-. rewrite E2, E4. clear E1 E2 E3 E4.
  unfold GRAPHENE_100_PERCENT in *. change (9000 * 2) with 18000. change (1000 * 2) with 2000.
  pose proof (Z.div_mod (a * 18000) 10000 ltac:(lia)). pose proof (Z.mod_pos_bound (a * 18000) 10000 ltac:(lia)).
  pose proof (Z.div_mod (a * 2000) 10000 ltac:(lia)). pose proof (Z.mod_pos_bound (a * 2000) 10000 ltac:(lia)).
  lia.
Qed.

Lemma process_fees_globals d acct d' :
  process_fees d acct = Ok d' →
  d'.(d_gpo) = d.(d_gpo) ∧ d'.(d_dgpo) = d.(d_dgpo) ∧ standings d' = standings d ∧
  d'.(d_flipcoins) = d.(d_flipcoins) ∧
  (pendings d' = pendings d ∨ pendings d' = <[acct := (0, 0)]> (pendings d)).
Proof.
  intros H. unfold process_fees in H. apply bind_Ok in H as (s & _ & H). case_match; [|inv_ok; split_and!; auto].
  apply bind_Ok in H as (d1 & H1 & H). apply bind_Ok in H as (s1 & _ & H). apply bind_Ok in H as (d2 & H2 & H3).
  assert (same_globals d d1) as G1 by (clear H2 H3; case_match; inv_ok; solve_globals).
  assert (same_globals d1 d2) as G2 by (clear H1 H3; case_match; inv_ok; solve_globals).
  apply modify_statistics_Ok in H3 as (s2 & s3 & Hs2 & Hs3 & ->).
  destruct (transitivity G1 G2) as (E1 & E2 & E3 & E4 & E5). do 4 (split; [done|]). right.
  unfold pendings in *. cbn. rewrite fmap_insert, E4. f_equal. clear H1 H2. inv_ok. done.
Qed.

Lemma pay_fee_spec d w r d' :
  modify_statistics d w (stat_pay_fee r) = Ok d' → fees_ok d → amount_ok r →
  flow d d' (λ a, core_only a r) ∧ d' = d <| d_statistics := d'.(d_statistics) |> ∧ fees_ok d' ∧
  ∃ s, get_statistics d' w = Ok s ∧ amount_ok s.(st_pending_fees) ∧ amount_ok s.(st_pending_vested_fees).
Proof.
  intros H Hok Hr. split; [|split; [by eapply modify_statistics_frame|]].
  - apply (flow_modify_statistics _ _ _ _ _ H). intros s s' Hwf Hs. unfold stat_pay_fee in Hs. inv_ok. inv_safe.
    split; [exact Hwf|unfold stat_held; cbn; lia].
  - apply modify_statistics_Ok in H as (s & s' & Hs & Hs' & ->). unfold stat_pay_fee in Hs'.
    apply bind_Ok in Hs' as (v & Hv & Hs'). apply Ok_inj in Hs' as <-.
    assert (amount_ok s.(st_pending_fees) ∧ amount_ok s.(st_pending_vested_fees)) as [Hp Hpv].
    { apply (Hok w (pending s)). unfold pendings. by rewrite lookup_fmap, Hs. }
    assert (amount_ok v) as Hv' by (by eapply safe_add_amount; [..|exact Hv]). split.
    + unfold fees_ok, pendings. cbn. rewrite fmap_insert. by apply map_Forall_insert_2.
    + eexists. split; [by apply from_option_Ok, lookup_insert_eq|done].
Qed.

Lemma remove_flipcoin_frame d id d' :
  remove_flipcoin d id = Ok d' → d' = d <| d_flipcoins := d'.(d_flipcoins) |> ∧ flipcoins_of d' = delete id (flipcoins_of d).
Proof.
  intros H. unfold remove_flipcoin in H. apply bind_Ok in H as (i & Hi & H). apply Ok_inj in H as <-.
  by apply index_remove_Ok in Hi as (f & _ & ->).
Qed.

(** What a bet that ends keeps. *)
Definition same_rules (d d' : database) : Prop :=
  d'.(d_gpo) = d.(d_gpo) ∧ d'.(d_dgpo) = d.(d_dgpo) ∧ standings d' = standings d.
#[export] Instance same_rules_preorder : PreOrder same_rules.
Proof. split; [done|]. intros d1 d2 d3 (? & ? & ?) (? & ? & ?). unfold same_rules. split_and!; congruence. Qed.

Lemma same_globals_rules d d' : same_globals d d' → same_rules d d'.
Proof. intros (? & ? & ? & _). done. Qed.

Lemma fees_ok_pendings d d' : pendings d' = pendings d → fees_ok d → fees_ok d'.
Proof. unfold fees_ok. by intros ->. Qed.

Lemma process_fees_ok d acct d' : process_fees d acct = Ok d' → fees_ok d → fees_ok d'.
Proof.
  intros H Hok. apply process_fees_globals in H as (_ & _ & _ & _ & [E|E]); unfold fees_ok in *; rewrite E; [done|].
  apply map_Forall_insert_2; [|done]. by unfold amount_ok, int64_max.
Qed.

(** Between the payment of the winner and the removal of the bet. *)
Lemma flip_frame d id f d' :
  flip d id f = Ok d' → bet_ok f → fees_ok d →
  same_rules d d' ∧ fees_ok d' ∧ flipcoins_of d' = delete id (flipcoins_of d).
Proof.
  intros H Hbet Hok. unfold flip in H. apply bind_Ok in H as (p & Hp & H). apply bind_Ok in H as (r & Hr & H).
  apply bind_Ok in H as (caller & _ & H). apply bind_Ok in H as (c & _ & H). cbv zeta in H.
  set (winner := if heads d f then _ else _) in *. set (looser := if heads d f then caller else _) in *.
  apply bind_Ok in H as (d1 & H1 & H). apply bind_Ok in H as (w & _ & H). apply bind_Ok in H as (l & _ & H).
  apply bind_Ok in H as (d3 & H3 & H). apply bind_Ok in H as (d4 & H4 & H). apply bind_Ok in H as (d5 & H5 & H).
  apply bind_Ok in H as (d6 & H6 & H7).
  destruct (prizes_sum _ _ _ Hbet Hp Hr) as (_ & Hr0 & _).
  assert (same_globals d d4) as G4.
  { clear H5 H6 H7. apply globals in H1, H3. assert (same_globals d3 d4) as G4 by (clear H1 H3; inv_ok; solve_globals).
    clear H4. unfold same_globals, standings, pendings, push_applied_operation in *. destruct_and?. cbn in *.
    split_and!; congruence. }
  assert (amount_ok r) as Hra by (unfold amount_ok, bet_ok, GRAPHENE_MAX_SHARE_SUPPLY in *; solve_int64).
  pose proof (fees_ok_pendings _ _ (proj1 (proj2 (proj2 (proj2 G4)))) Hok) as Hok4.
  destruct (pay_fee_spec _ _ _ _ H5 Hok4 Hra) as (_ & E5 & Hok5 & _).
  pose proof (process_fees_ok _ _ _ H6 Hok5) as Hok6.
  destruct (process_fees_globals _ _ _ H6) as (E6 & E6' & E6'' & E6f & _).
  destruct (remove_flipcoin_frame _ _ _ H7) as [E7 E7'].
  apply same_globals_rules in G4 as G4r. destruct G4 as (_ & _ & _ & _ & G4f). split; [|split].
  - etrans; [exact G4r|]. rewrite E7. unfold same_rules, standings. cbn. rewrite E5 in E6, E6', E6''.
    unfold standings in E6''. done.
  - eapply fees_ok_pendings; [|exact Hok6]. rewrite E7. done.
  - rewrite E7'. f_equal. unfold flipcoins_of. rewrite E6f, E5. cbn. by rewrite G4f.
Qed.

(** What a flipped bet changes in the books: the bonus it pays to the leaders,
    minus rounding. *)
Lemma flip_flow d id f d' R :
  flip d id f = Ok d' → flipcoins_of d !! id = Some f → f.(fl_status) = 1 → bet_ok f → fees_wf d → fees_ok d →
  0 ≤ R → rewards_below (parameters d) R →
  ∃ bonus loss, 0 ≤ bonus ∧ GRAPHENE_100_PERCENT * bonus ≤ f.(fl_bet).(amount) * R ∧ 0 ≤ loss ≤ 17 ∧
     flow d d' (λ a, core_only a (bonus - loss)).
Proof.
  intros H Hf Hs Hbet Hwf Hok HR0 HR. destruct (decide (f.(fl_bet).(asset_id) = CORE)) as [Hcore|Hcore].
  2: { exists 0, 0. unfold bet_ok in Hbet. split; [lia|]. split; [nia|]. split; [lia|]. intros Hd. exfalso. apply Hcore.
       by apply (lok_flipcoins _ Hd _ _ Hf). }
  unfold flip in H. apply bind_Ok in H as (p & Hp & H). apply bind_Ok in H as (r & Hr & H).
  apply bind_Ok in H as (caller & _ & H). apply bind_Ok in H as (c & _ & H). cbv zeta in H.
  set (winner := if heads d f then _ else _) in *. set (looser := if heads d f then caller else _) in *.
  apply bind_Ok in H as (d1 & H1 & H). apply bind_Ok in H as (w & _ & H). apply bind_Ok in H as (l & _ & H).
  apply bind_Ok in H as (d3 & H3 & H). apply bind_Ok in H as (d4 & H4 & H). apply bind_Ok in H as (d5 & H5 & H).
  apply bind_Ok in H as (d6 & H6 & H7).
  destruct (prizes_sum _ _ _ Hbet Hp Hr) as (_ & Hr0 & Hsum).
  assert (amount_ok r) as Hra by (unfold amount_ok, bet_ok, GRAPHENE_MAX_SHARE_SUPPLY in *; solve_int64).
  pose proof (globals H1) as G1. pose proof (globals H3) as G3.
  assert (same_globals d3 d4 ∧ flow d3 d4 (λ _, 0)) as [G4 F4].
  { clear -H4. case_match; inv_ok; (split; [solve_globals|solve_flow]). }
  assert (same_globals d d4) as G.
  { etrans; [exact G1|]. etrans; [exact G3|exact G4]. }
  apply (update_nv_flow _ _ _ _ _ _ _ _ R) in H3 as (bonus & Hb & Hbb & F3);
    [|exact Hra|lia|by unfold parameters; cbn; rewrite (proj1 G1)].
  destruct (pay_fee_spec _ _ _ _ H5 (fees_ok_pendings _ _ (proj1 (proj2 (proj2 (proj2 G)))) Hok) Hra)
    as (F5 & E5 & _ & s & Hs5 & Ha1 & Ha2).
  apply (process_fees_lossy _ _ s) in H6 as H6'; [|done| |done|done].
  2: { apply (fees_wf_globals _ _ G) in Hwf as [W1 W2]. rewrite E5. by split. }
  destruct H6' as [(loss & Hl & _ & F6) _].
  assert (flipcoins_of d6 !! id = Some f) as Hf6.
  { destruct (process_fees_globals _ _ _ H6) as (_ & _ & _ & E6 & _). destruct G as (_ & _ & _ & _ & Gf).
    unfold flipcoins_of in *. rewrite E6, E5. cbn. by rewrite Gf. }
  unfold remove_flipcoin in H7. apply bind_Ok in H7 as (i & Hi & H7). apply Ok_inj in H7 as <-.
  pose proof (flow_remove_flipcoin _ _ _ _ Hi Hf6) as F7. unfold flipcoin_held in F7. rewrite Hs in F7.
  change (1 =? 0) with false in F7. change (1 =? 1) with true in F7. cbv iota in F7. rewrite Hcore in *.
  exists bonus, (loss + (2 * f.(fl_bet).(amount) - (p + r))). unfold GRAPHENE_100_PERCENT in *.
  split; [done|]. split; [nia|]. split; [lia|].
  clear Hi H4 H5 H6 Hs5 Hf6 G1 G3 G4 G E5 Hf Hwf Hok Hp Hr. solve_flow.
Qed.

Lemma cancel_bet_spec d id f d' :
  cancel_bet d id f = Ok d' → flipcoins_of d !! id = Some f → f.(fl_status) = 0 →
  conserves d d' ∧ same_globals d (d' <| d_flipcoins := d.(d_flipcoins) |>) ∧
  flipcoins_of d' = delete id (flipcoins_of d).
Proof.
  intros H Hf Hs. unfold cancel_bet in H. apply bind_Ok in H as (d1 & H1 & H).
  destruct (remove_flipcoin_frame _ _ _ H) as [E E'].
  assert (d1.(d_flipcoins) = d.(d_flipcoins)) as Ef by (by rewrite (adjust_balance_frame _ _ _ _ H1)).
  split; [|split].
  - unfold remove_flipcoin in H. apply bind_Ok in H as (i & Hi & H). apply Ok_inj in H as <-.
    eapply flow_remove_flipcoin in Hi; [|cbn; rewrite Ef; exact Hf]. unfold flipcoin_held in Hi. rewrite Hs in Hi.
    clear E E' Ef. unfold conserves. cbn in Hi. solve_flow.
  - rewrite E. apply globals in H1. clear E'. unfold same_globals, standings, pendings in *. cbn.
    destruct_and?. split_and!; congruence.
  - rewrite E'. unfold flipcoins_of. cbn. by rewrite Ef.
Qed.

(** What the loop over the bets relies on. *)
Record bets_inv (R : Z) (d : database) : Prop := {
  bi_fees_wf : fees_wf d; bi_fees : fees_ok d; bi_bets : bets_ok d;
  bi_status : map_Forall (λ _ f, f.(fl_status) = 0 ∨ f.(fl_status) = 1) (flipcoins_of d);
  bi_rewards : rewards_below (parameters d) R }.

Lemma bets_inv_step R d d' id :
  bets_inv R d → same_rules d d' → fees_ok d' → flipcoins_of d' = delete id (flipcoins_of d) → bets_inv R d'.
Proof.
  intros [W F B S Rw] (E1 & E2 & E3) F' Ef. split; [|done|..].
  - destruct W as [W1 W2]. unfold parameters in *. split; unfold parameters; [by rewrite E1|by rewrite E3].
  - unfold bets_ok. rewrite Ef. by apply map_Forall_delete.
  - rewrite Ef. by apply map_Forall_delete.
  - unfold parameters in *. by rewrite E1.
Qed.

Definition bet_volume (d : database) : Z := msum (λ _ f, f.(fl_bet).(amount)) (flipcoins_of d).

(** One bet that ends, cancelled or flipped. *)
Lemma end_bet_spec R d id f d' :
  (if f.(fl_status) =? 0 then cancel_bet d id f else flip d id f) = Ok d' →
  flipcoins_of d !! id = Some f → 0 ≤ R → bets_inv R d →
  same_rules d d' ∧ fees_ok d' ∧ flipcoins_of d' = delete id (flipcoins_of d) ∧
  ∃ bonus loss, 0 ≤ bonus ∧ GRAPHENE_100_PERCENT * bonus ≤ f.(fl_bet).(amount) * R ∧ 0 ≤ loss ≤ 17 ∧
    flow d d' (λ a, core_only a (bonus - loss)).
Proof.
  intros H Hf HR [W F B S Rw]. pose proof (B _ _ Hf) as Hbet. pose proof (S _ _ Hf) as Hs. cbv beta in Hbet, Hs.
  destruct (Z.eqb_spec f.(fl_status) 0) as [H0|H0].
  - destruct (cancel_bet_spec _ _ _ _ H Hf H0) as (Hc & (G1 & G2 & G3 & G4 & _) & E). cbn in *.
    split; [done|]. split; [by eapply fees_ok_pendings|]. split; [done|].
    exists 0, 0. unfold bet_ok in Hbet. split; [lia|]. split; [nia|]. split; [lia|].
    eapply flow_ext; [exact Hc|]. flow_arith.
  - destruct (flip_frame _ _ _ _ H Hbet F) as (G & F' & E). split; [done|]. split; [done|]. split; [done|].
    eapply flip_flow; [done..|lia|done|done|done|done|done].
Qed.

Lemma proceed_bets_loop_flow R fuel d d' :
  proceed_bets_loop fuel d = Ok d' → 0 ≤ R → bets_inv R d →
  bets_inv R d' ∧ same_rules d d' ∧ 0 ≤ bet_volume d' ∧ bet_volume d' ≤ bet_volume d ∧
  ∃ bonus loss, 0 ≤ bonus ∧ GRAPHENE_100_PERCENT * bonus ≤ (bet_volume d - bet_volume d') * R ∧
    0 ≤ loss ≤ 17 * (Z.of_nat (size (flipcoins_of d)) - Z.of_nat (size (flipcoins_of d'))) ∧
    flow d d' (λ a, core_only a (bonus - loss)).
Proof.
  intros H HR. revert d H. induction fuel as [|fuel IH]; intros d H HI;
    cbn [proceed_bets_loop] in H; pose proof (least_spec fl_expiration (λ _, true) (flipcoins_of d)) as Hl;
    (assert (bets_inv R d ∧ same_rules d d ∧ 0 ≤ bet_volume d ∧ bet_volume d ≤ bet_volume d ∧
      ∃ bonus loss, 0 ≤ bonus ∧ GRAPHENE_100_PERCENT * bonus ≤ (bet_volume d - bet_volume d) * R ∧
        0 ≤ loss ≤ 17 * (Z.of_nat (size (flipcoins_of d)) - Z.of_nat (size (flipcoins_of d))) ∧
        flow d d (λ a, core_only a (bonus - loss))) as Hstop;
     [split; [done|]; split; [done|]; split; [|split; [lia|exists 0, 0; split; [lia|]; split; [lia|]; split; [lia|solve_flow]]];
      apply msum_nonneg; intros k f Hf; apply (bi_bets _ _ HI _ _ Hf)|]);
    destruct (least _ _ _) as [[e id]|]; try (apply Ok_inj in H as <-; exact Hstop);
    destruct Hl as (f & Hf & <- & _); unfold index_get in H; unfold flipcoins_of in Hf; rewrite Hf in H;
    cbn [from_option_exn mbind result_bind] in H;
    (destruct (_ && _); [|apply Ok_inj in H as <-; exact Hstop]); [done|].
  clear Hstop. apply bind_Ok in H as (d1 & H1 & H).
  destruct (end_bet_spec R _ _ _ _ H1 Hf HR HI) as (G & F1 & E & bonus1 & loss1 & Hb1 & Hbb1 & Hl1 & Fl1).
  pose proof (bets_inv_step _ _ _ _ HI G F1 E) as HI1.
  destruct (IH _ H HI1) as (HI' & G' & Hv' & Hvle & bonus2 & loss2 & Hb2 & Hbb2 & Hl2 & Fl2).
  assert (bet_volume d1 = bet_volume d - f.(fl_bet).(amount)) as Ev.
  { unfold bet_volume. rewrite E. exact (msum_delete (λ _ f, f.(fl_bet).(amount)) (flipcoins_of d) id f Hf). }
  assert (Z.of_nat (size (flipcoins_of d1)) = Z.of_nat (size (flipcoins_of d)) - 1) as Es.
  { rewrite E, map_size_delete_Some by (by exists f).
    assert (size (flipcoins_of d) ≠ 0%nat); [|lia]. intros Hz%map_size_empty_inv. unfold flipcoins_of in Hz.
    by rewrite Hz, lookup_empty in Hf. }
  pose proof (bi_bets _ _ HI _ _ Hf) as Hbet. unfold bet_ok in Hbet.
  split; [done|]. split; [by etrans|]. split; [done|]. split; [lia|].
  exists (bonus1 + bonus2), (loss1 + loss2). split; [lia|]. split; [nia|]. split; [lia|]. clear H H1. solve_flow.
Qed.

Lemma levels_wf_rules d d' : same_rules d d' → levels_wf d → levels_wf d'.
Proof. intros (Hp & _) [H1 H2]. split; unfold parameters in *; by rewrite Hp. Qed.

Lemma terminates_prize a : terminates (count_prize a) ∧ terminates (count_referral_prize a).
Proof.
  assert (∀ x, terminates (to_uint64 x)) as Hu by (intros x; unfold to_uint64; solve_terminates).
  unfold count_prize, count_referral_prize. split; (case_match; [discriminate|]);
    (apply terminates_bind; [apply Hu|discriminate]).
Qed.

Lemma terminates_flip d id f : levels_wf d → terminates (flip d id f).
Proof.
  intros Hwf. unfold flip. cbv zeta.
  apply terminates_bind; [apply terminates_prize|intros p _]. apply terminates_bind; [apply terminates_prize|intros r _].
  apply terminates_bind; [solve_terminates|intros caller _].
  set (winner := if heads d f then _ else _). set (looser := if heads d f then caller else _).
  apply terminates_bind; [solve_terminates|intros ? _].
  apply terminates_bind; [solve_terminates|intros d1 H1]. apply terminates_bind; [solve_terminates|intros ? _].
  apply terminates_bind; [solve_terminates|intros ? _].
  apply terminates_bind; [|intros d3 H3].
  { apply globals in H1. assert (levels_wf d1) as [? ?] by (by eapply levels_wf_globals).
    apply update_nv_terminates_from; [by split|lia| |unfold referral_fuel; lia].
    change (cp_nv_levels (parameters d1) ≤ 1 + Z.of_nat referral_fuel - 1). unfold referral_fuel. lia. }
  apply terminates_bind; [unfold update_pv; solve_terminates|intros d4 H4].
  apply terminates_bind; [apply terminates_modify_statistics; intros; unfold stat_pay_fee; solve_terminates|intros d5 H5].
  apply terminates_bind; [|intros d6 _; unfold remove_flipcoin; solve_terminates].
  apply terminates_process_fees. apply modify_statistics_frame in H5.
  assert (same_globals d d4) as G.
  { apply globals in H1, H3. etrans; [exact H1|]. etrans; [exact H3|]. clear -H4. inv_ok; solve_globals. }
  apply (levels_wf_globals _ _ G) in Hwf as [? ?]. rewrite H5. by split.
Qed.

Lemma terminates_cancel_bet d id f : terminates (cancel_bet d id f).
Proof. unfold cancel_bet, remove_flipcoin. solve_terminates. Qed.

(** The bets that are still running at a time. *)
Definition running_at (now : Z) (m : gmap Z flipcoin_object) : gmap Z flipcoin_object :=
  filter (λ x, now < x.2.(fl_expiration)) m.

Lemma running_all now m : (∀ id f, m !! id = Some f → now < f.(fl_expiration)) → running_at now m = m.
Proof. intros H. apply map_filter_id. exact H. Qed.

(** Every due bet ends, whatever its result. *)
Lemma proceed_bets_loop_ends R fuel d :
  0 ≤ R → bets_inv R d → levels_wf d → (size (flipcoins_of d) ≤ fuel)%nat →
  terminates (proceed_bets_loop fuel d) ∧
  ∀ d', proceed_bets_loop fuel d = Ok d' → flipcoins_of d' = running_at (head_block_time d) (flipcoins_of d).
Proof.
  intros HR. revert d. induction fuel as [|fuel IH]; intros d HI Hwf Hsize; cbn [proceed_bets_loop];
    pose proof (least_spec fl_expiration (λ _, true) (flipcoins_of d)) as Hl;
    destruct (least _ _ _) as [[e id]|].
  2,4: split; [discriminate|]; intros d' [= <-]; symmetry; apply running_all; intros j f Hj; discriminate (Hl _ _ Hj).
  all: destruct Hl as (f & Hf & <- & _ & Hmin); unfold index_get; unfold flipcoins_of in Hf; rewrite Hf;
    cbn [from_option_exn mbind result_bind]; pose proof (bi_status _ _ HI _ _ Hf) as Hs; cbv beta in Hs;
    rewrite (proj2 (Z.ltb_lt f.(fl_status) 2)) by lia; rewrite andb_true_r;
    (destruct (Z.leb_spec f.(fl_expiration) (head_block_time d)) as [Hdue|Hdue];
     [|split; [discriminate|]; intros d' [= <-]; symmetry; apply running_all; intros j g Hj;
       specialize (Hmin _ _ Hj eq_refl); unfold pair_ltb in Hmin; cbn in Hmin; propify; lia]);
    assert (size (flipcoins_of d) ≠ 0%nat) by (intros Hz%map_size_empty_inv; unfold flipcoins_of in Hz; by rewrite Hz, lookup_empty in Hf).
  { lia. }
  set (run := if _ =? 0 then _ else _). assert (terminates run) as Ht.
  { unfold run. case_match; [apply terminates_cancel_bet|by apply terminates_flip]. }
  destruct run as [d1|ex] eqn:H1; [|split; [|done]; intros [= ->]; by apply Ht].
  destruct (end_bet_spec R _ _ _ _ H1 Hf HR HI) as (G & F1 & E & _).
  pose proof (bets_inv_step _ _ _ _ HI G F1 E) as HI1. cbn [mbind result_bind].
  destruct (IH d1 HI1) as [H2 H3]; [by eapply levels_wf_rules|rewrite E, map_size_delete_Some by (by exists f); lia|].
  split; [done|]. intros d' H'. rewrite (H3 _ H'), E. unfold head_block_time. rewrite (proj1 (proj2 G)).
  unfold running_at. rewrite map_filter_delete. apply delete_id. apply map_lookup_filter_None. right.
  intros g Hg. cbn. unfold flipcoins_of in Hg. replace g with f by congruence. unfold head_block_time in Hdue. lia.
Qed.

(** C26. Bets: the loop of every block ends; exactly the bets whose time has
    come are cancelled or flipped; and the books change by the bonus the leaders
    receive, at most the share [R] of the bets that ended, minus at most 17
    units of rounding per bet. *)
Theorem proceed_bets_settles R d (HR : 0 ≤ R) (Hbets : bets_inv R d) (Hlevels : levels_wf d) (Hd : ledger_ok d) :
  proceed_bets d ≠ Err out_of_fuel ∧
  ∀ d', proceed_bets d = Ok d' →
    flipcoins_of d' = filter (λ x, head_block_time d < x.2.(fl_expiration)) (flipcoins_of d) ∧
    ledger_ok d' ∧
    ∃ bonus loss, 0 ≤ bonus ∧ GRAPHENE_100_PERCENT * bonus ≤ (bet_volume d - bet_volume d') * R ∧
      0 ≤ loss ≤ 17 * (Z.of_nat (size (flipcoins_of d)) - Z.of_nat (size (flipcoins_of d'))) ∧
      ∀ a, imbalance d' a = imbalance d a + core_only a (bonus - loss).
Proof.
  destruct (proceed_bets_loop_ends R (size (flipcoins_of d)) d HR Hbets Hlevels (le_n _)) as [Ht Hrun].
  split; [exact Ht|]. intros d' H. split; [by apply Hrun|].
  destruct (proceed_bets_loop_flow R _ _ _ H HR Hbets) as (_ & _ & _ & _ & bonus & loss & H1 & H2 & H3 & F).
  destruct (F Hd) as [Hd' E]. split; [done|]. by exists bonus, loss.
Qed.

(** ** The loops settle what is due *)

(** What an iteration keeps besides the table it walks. *)
Definition upkeep_step (d d' : database) : Prop := same_clock d d' ∧ conserves d d'.
#[export] Instance upkeep_step_preorder : PreOrder upkeep_step.
Proof. split; [by split|]. intros d1 d2 d3 [] []. split; by etrans. Qed.

Section settled.
Context {V : Type} (key status : V → Z) (get : database → gmap Z V) (expire remove : database → Z → result database)
  (due : Z → V → bool) (settled : V → V → Prop) (hi : database → Z) (st : Z).
Hypothesis expire_terminates : ∀ d id, terminates (expire d id).
Hypothesis remove_terminates : ∀ d id, terminates (remove d id).
Hypothesis settled_done : ∀ now v v', settled v v' → due now v' = false ∧ key v' ≤ 1.
Hypothesis expire_spec : ∀ d id v d', get d !! id = Some v → expire d id = Ok d' →
  upkeep_step d d' ∧ ∃ v', get d' = <[id := v']> (get d) ∧ if due (head_block_time d) v then settled v v' else v' = v.
Hypothesis remove_spec : ∀ d id d', remove d id = Ok d' → get d' = delete id (get d).
Hypothesis remove_conserves : ∀ d id v d',
  get d !! id = Some v → status v = st → remove d id = Ok d' → conserves d d'.
Hypothesis settled_le : ∀ v v', settled v v' → status v' ≤ st.

(** The loop over the expirations, then the removal of the settled objects. *)
Lemma settle_and_remove d :
  (∀ id v, get d !! id = Some v → status v ≤ st) →
  let run := (d1 ← scan_expired key get expire (hi d) d; drain status get remove (size (get d1)) st d1) in
  terminates run ∧ ∀ d', run = Ok d' → conserves d d' ∧
    ∃ m, settles key (hi d) (due (head_block_time d)) settled (get d) m ∧
      get d' = filter (λ x, status x.2 ≠ st) m.
Proof using expire_spec expire_terminates remove_conserves remove_spec remove_terminates settled_done settled_le.
  intros Hle run. destruct (scan_expired_settles key get expire (hi d) (due (head_block_time d)) (upkeep_step d) settled
    expire_terminates (settled_done _)) with d as [Ht Hs]; [|done|].
  { intros s id v s' HI Hv H. destruct (expire_spec _ _ _ _ Hv H) as [Hstep (v' & E & Hv')].
    split; [by etrans|]. exists v'. split; [done|]. destruct HI as [C _].
    unfold head_block_time in Hv'. unfold same_clock in C. by rewrite C in Hv'. }
  assert (∀ d1, scan_expired key get expire (hi d) d = Ok d1 → ∀ id v, get d1 !! id = Some v → status v ≤ st) as Hle1.
  { intros d1 H1 id v Hv. destruct (Hs _ H1) as [_ Hsettles].
    destruct (settles_origin _ _ _ _ _ _ _ _ Hsettles Hv) as (v0 & Hv0 & [-> | [_ Hv1]]); [by eapply Hle|by eapply settled_le]. }
  split.
  - apply terminates_bind; [exact Ht|]. intros d1 H1.
    apply (drain_filters status get remove _ st d1 remove_terminates remove_spec (Hle1 _ H1)). lia.
  - intros d' H. apply bind_Ok in H as (d1 & H1 & H2). destruct (Hs _ H1) as [[_ F1] Hset].
    apply (drain_filters status get remove _ st d1 remove_terminates remove_spec (Hle1 _ H1)) in H2 as E; [|lia].
    split; [|by exists (get d1)]. etrans; [exact F1|].
    eapply (drain_preserves status get remove conserves); [|exact H2]. intros s id v s'. apply remove_conserves.
Qed.
End settled.

Lemma terminates_remove_pledge d id : terminates (remove_pledge_offer d id).
Proof. unfold remove_pledge_offer. solve_terminates. Qed.
Lemma terminates_remove_ato d id : terminates (remove_ato d id).
Proof. unfold remove_ato. solve_terminates. Qed.
Lemma terminates_remove_lottery d id : terminates (remove_lottery d id).
Proof. unfold remove_lottery. solve_terminates. Qed.
Lemma terminates_expire_lottery d id : terminates (expire_lottery d id).
Proof.
  unfold expire_lottery, draw_lottery, get_lottery, modify_lottery.
  assert (∀ d l, terminates (foldM (refund_ticket id l.(lg_ticket_price)) d l.(lg_participants))) as Hr.
  { intros. apply terminates_foldM. intros. unfold refund_ticket. solve_terminates. }
  assert (∀ d w ps, terminates (foldM (announce id w) d ps)) as Ha.
  { intros. apply terminates_foldM. intros s [i q]. unfold announce, modify_lottery. cbv zeta. solve_terminates. }
  cbv zeta. solve_terminates.
Qed.

Lemma remove_pledge_frame d id d' : remove_pledge_offer d id = Ok d' → pledges_of d' = delete id (pledges_of d).
Proof.
  intros H. unfold remove_pledge_offer in H. apply bind_Ok in H as (i & Hi & H). apply Ok_inj in H as <-.
  by apply index_remove_Ok in Hi as (p & _ & ->).
Qed.
Lemma remove_ato_frame d id d' : remove_ato d id = Ok d' → transfers_of d' = delete id (transfers_of d).
Proof.
  intros H. unfold remove_ato in H. apply bind_Ok in H as (i & Hi & H). apply Ok_inj in H as <-.
  by apply index_remove_Ok in Hi as (p & _ & ->).
Qed.
Lemma remove_lottery_frame d id d' : remove_lottery d id = Ok d' → lotteries_of d' = delete id (lotteries_of d).
Proof.
  intros H. unfold remove_lottery in H. apply bind_Ok in H as (i & Hi & H). apply Ok_inj in H as <-.
  by apply index_remove_Ok in Hi as (p & _ & ->).
Qed.
Lemma flow_remove_lottery d id l i :
  index_remove d.(d_lotteries) id = Ok i → lotteries_of d !! id = Some l →
  flow d (d <| d_lotteries := i |>) (λ a, - of_asset a (lottery_held l)).
Proof.
  intros H Hl. apply index_remove_Ok in H as (l' & Hl' & ->). unfold lotteries_of in Hl. same_ok. apply flow_lotteries.
  - intros Hall. by apply map_Forall_delete.
  - intros a. rewrite (isum_remove _ _ _ _ _ Hl'). lia.
Qed.
Lemma remove_cancelled_lottery d id l d' :
  lotteries_of d !! id = Some l → l.(lg_status) = 8 → remove_lottery d id = Ok d' → conserves d d'.
Proof.
  intros Hl Hs H. unfold remove_lottery in H. apply bind_Ok in H as (i & Hi & H). apply Ok_inj in H as <-.
  pose proof (flow_remove_lottery _ _ _ _ Hi Hl) as F.
  eapply flow_ext; [exact F|]. intros a. unfold lottery_held. rewrite Hs. flow_arith.
Qed.

Lemma settle_pledges d :
  map_Forall (λ _ x, x.(pl_status) ≤ 8) (pledges_of d) →
  terminates (proceed_pledge d) ∧ ∀ d', proceed_pledge d = Ok d' → conserves d d' ∧
    ∃ m, settles pl_expiration (head_block_time d) (pledge_due (head_block_time d)) pledge_settled (pledges_of d) m ∧
      pledges_of d' = filter (λ x, x.2.(pl_status) ≠ 8) m.
Proof.
  apply (settle_and_remove pl_expiration pl_status pledges_of expire_pledge remove_pledge_offer pledge_due pledge_settled
    head_block_time 8).
  - exact terminates_expire_pledge.
  - exact terminates_remove_pledge.
  - by intros now p p' ->.
  - intros d0 id p d' Hp H. destruct (expire_pledge_spec _ _ _ _ Hp H) as [C E].
    split; [split; [done|by eapply expire_pledge_conserves]|done].
  - exact remove_pledge_frame.
  - exact remove_expired_pledge.
  - by intros p p' ->.
Qed.

Lemma settle_transfers d :
  map_Forall (λ _ x, x.(at_status) ≤ 2) (transfers_of d) →
  terminates (proceed_approved_transfer d) ∧ ∀ d', proceed_approved_transfer d = Ok d' → conserves d d' ∧
    ∃ m, settles at_expiration (head_block_time d) (transfer_due (head_block_time d)) transfer_settled (transfers_of d) m ∧
      transfers_of d' = filter (λ x, x.2.(at_status) ≠ 2) m.
Proof.
  apply (settle_and_remove at_expiration at_status transfers_of expire_transfer remove_ato transfer_due transfer_settled
    head_block_time 2).
  - exact terminates_expire_transfer.
  - exact terminates_remove_ato.
  - by intros now p p' ->.
  - intros d0 id p d' Hp H. destruct (expire_transfer_spec _ _ _ _ Hp H) as [C E].
    split; [split; [done|by eapply expire_transfer_conserves]|done].
  - exact remove_ato_frame.
  - exact remove_expired_transfer.
  - by intros p p' ->.
Qed.

Lemma settle_lotteries d :
  map_Forall (λ _ x, x.(lg_status) ≤ 8) (lotteries_of d) →
  terminates (proceed_lottery_goods d) ∧ ∀ d', proceed_lottery_goods d = Ok d' → conserves d d' ∧
    ∃ m, settles lg_expiration (time_add (head_block_time d) 5) lottery_due lottery_settled (lotteries_of d) m ∧
      lotteries_of d' = filter (λ x, x.2.(lg_status) ≠ 8) m.
Proof.
  apply (settle_and_remove lg_expiration lg_status lotteries_of expire_lottery remove_lottery (λ _, lottery_due)
    lottery_settled (λ d, time_add (head_block_time d) 5) 8).
  - exact terminates_expire_lottery.
  - exact terminates_remove_lottery.
  - intros _ l l' [[_ [w ->]]|[_ ->]]; by split.
  - intros d0 id l d' Hl H. destruct (expire_lottery_spec _ _ _ _ Hl H) as (C & F & E). split; [by split|exact E].
  - exact remove_lottery_frame.
  - exact remove_cancelled_lottery.
  - by intros l l' [[_ [w ->]]|[_ ->]].
Qed.

(** C27. Expired pledges: the loop of every block ends; it keeps the books
    balanced; a pledge whose time ran out before the head block is settled in
    favour of the creditor and removed, a settled one is removed, and every
    other pledge stays as it is. *)
Theorem proceed_pledge_settles d (Hstatus : map_Forall (λ _ p, p.(pl_status) ≤ 8) (pledges_of d)) :
  proceed_pledge d ≠ Err out_of_fuel ∧
  ∀ d', proceed_pledge d = Ok d' →
    conserves d d' ∧ pledges_of d' ⊆ pledges_of d ∧
    ∀ id p, pledges_of d !! id = Some p →
      (pledge_due (head_block_time d) p = false → p.(pl_status) ≠ 8 → pledges_of d' !! id = Some p) ∧
      (p.(pl_status) = 8 ∨ p.(pl_status) = 1 ∧ 1 < p.(pl_expiration) < head_block_time d → pledges_of d' !! id = None).
Proof.
  destruct (settle_pledges _ Hstatus) as [Ht Hrun].
  split; [exact Ht|]. intros d' H. destruct (Hrun d' H) as (F & m & Hm & E). split; [done|].
  rewrite E. split.
  { apply map_subseteq_spec. intros id p [Hp Hs]%map_lookup_filter_Some.
    destruct (settles_origin _ _ _ _ _ _ _ _ Hm Hp) as (p0 & Hp0 & [-> | [_ ->]]); [done|by cbn in Hs]. }
  intros id p Hp. split.
  - intros Hd Hs. apply map_lookup_filter_Some. split; [by eapply settles_stays|done].
  - intros Hgone. apply map_lookup_filter_None. right. intros q Hq. cbn.
    destruct (settles_origin _ _ _ _ _ _ _ _ Hm Hq) as (p0 & Hp0 & [-> | [_ ->]]); [|by cbn; tauto].
    assert (p0 = p) as -> by congruence. destruct Hgone as [Hs|[Hs Hexp]]; [tauto|].
    pose proof (proj2 Hm id p Hq) as Hleft. unfold pledge_due in Hleft. propify. lia.
Qed.

(** Approved transfers that nobody approved in time: the loop of every
    block ends; it keeps the books balanced; a waiting transfer whose time ran
    out before the head block is paid back and removed, and a transfer in
    dispute or not yet due stays as it is; no transfer is left with the status
    of an expired one. *)
Theorem proceed_approved_transfer_settles d (Hstatus : map_Forall (λ _ t, t.(at_status) ≤ 2) (transfers_of d)) :
  proceed_approved_transfer d ≠ Err out_of_fuel ∧
  ∀ d', proceed_approved_transfer d = Ok d' →
    conserves d d' ∧ transfers_of d' ⊆ transfers_of d ∧ map_Forall (λ _ t, t.(at_status) ≠ 2) (transfers_of d') ∧
    ∀ id t, transfers_of d !! id = Some t →
      (transfer_due (head_block_time d) t = false → t.(at_status) ≠ 2 → transfers_of d' !! id = Some t) ∧
      (t.(at_status) = 0 ∧ 1 < t.(at_expiration) < head_block_time d → transfers_of d' !! id = None).
Proof.
  destruct (settle_transfers _ Hstatus) as [Ht Hrun].
  split; [exact Ht|]. intros d' H. destruct (Hrun d' H) as (F & m & Hm & E). split; [done|].
  rewrite E. split; [|split].
  { apply map_subseteq_spec. intros id p [Hp Hs]%map_lookup_filter_Some.
    destruct (settles_origin _ _ _ _ _ _ _ _ Hm Hp) as (p0 & Hp0 & [-> | [_ ->]]); [done|by cbn in Hs]. }
  { intros id p [_ Hs]%map_lookup_filter_Some. exact Hs. }
  intros id p Hp. split.
  - intros Hd Hs. apply map_lookup_filter_Some. split; [by eapply settles_stays|done].
  - intros [Hs Hexp]. apply map_lookup_filter_None. right. intros q Hq. cbn.
    destruct (settles_origin _ _ _ _ _ _ _ _ Hm Hq) as (p0 & Hp0 & [-> | [_ ->]]); [|by cbn; tauto].
    assert (p0 = p) as -> by congruence.
    pose proof (proj2 Hm id p Hq) as Hleft. unfold transfer_due in Hleft. propify. lia.
Qed.

(** C28. Lotteries: the loop of every block ends; it keeps the books balanced;
    a lottery that is sold out when its time has come has a winner (and no
    ticket is paid back), one that is not sold out pays all its tickets back and
    is removed, and every other lottery stays as it is. *)
Theorem proceed_lottery_goods_settles d (Hstatus : map_Forall (λ _ l, l.(lg_status) ≤ 8) (lotteries_of d)) :
  proceed_lottery_goods d ≠ Err out_of_fuel ∧
  ∀ d', proceed_lottery_goods d = Ok d' →
    conserves d d' ∧
    ∀ id l, lotteries_of d !! id = Some l →
      (lottery_due l = false → l.(lg_status) ≠ 8 → lotteries_of d' !! id = Some l) ∧
      (1 < l.(lg_expiration) < time_add (head_block_time d) 5 →
         (l.(lg_status) = 0 → lotteries_of d' !! id = None) ∧
         (l.(lg_status) = 1 → drawable l = true → ∃ l', lotteries_of d' !! id = Some l' ∧ won l l')).
Proof.
  destruct (settle_lotteries _ Hstatus) as [Ht Hrun].
  split; [exact Ht|]. intros d' H. destruct (Hrun d' H) as (F & m & Hm & E). split; [done|].
  rewrite E. intros id l Hl. split.
  { intros Hd Hs. apply map_lookup_filter_Some. split; [by eapply settles_stays|done]. }
  intros Hexp. assert (∃ l', m !! id = Some l' ∧ stays_or_settled lottery_due lottery_settled l l') as (l' & Em & Hl').
  { pose proof (proj1 Hm id) as Hid. rewrite Hl in Hid. inversion Hid. eauto. }
  pose proof (proj2 Hm id l' Em) as Hleft. split.
  - intros Hs. destruct Hl' as [-> | [_ [[? _]|[_ ->]]]]; [|lia|].
    + unfold lottery_due in Hleft. rewrite Hs in Hleft. specialize (Hleft eq_refl). lia.
    + apply map_lookup_filter_None. right. intros q Hq. cbn. assert (q = l <| lg_status := 8 |> <| lg_expiration := 0 |>) as -> by congruence.
      cbn. tauto.
  - intros Hs Hd. destruct Hl' as [-> | [_ [[_ [w ->]]|[? _]]]]; [| |lia].
    + unfold lottery_due in Hleft. rewrite Hs, Hd in Hleft. specialize (Hleft eq_refl). lia.
    + eexists. split; [|by exists w]. apply map_lookup_filter_Some. split; [exact Em|by cbn].
Qed.

(** ** Irreversibility *)
Lemma mapM_result_Ok {A B} (f : A → result B) l ys :
  mapM_result f l = Ok ys → Forall2 (λ x y, f x = Ok y) l ys.
Proof.
  revert ys. induction l as [|x l IH]; intros ys H; cbn in H; [apply Ok_inj in H as <-; constructor|].
  apply bind_Ok in H as (y & Hy & H). apply bind_Ok in H as (ys' & Hys & H). apply Ok_inj in H as <-.
  constructor; auto.
Qed.

(** How many elements of a list are at least [x]. *)
Definition at_least (x : Z) (l : list Z) : Z := Z.of_nat (length (filter (λ y, x ≤ y) l)).

Lemma at_least_permutation x l l' : l ≡ₚ l' → at_least x l = at_least x l'.
Proof. intros HP. unfold at_least. by rewrite HP. Qed.

Lemma at_least_rank x l k : merge_sort Z.le l !! k = Some x → Z.of_nat (length l - k) ≤ at_least x l.
Proof.
  intros Hk. pose proof (merge_sort_Permutation Z.le l) as HP. rewrite <-(at_least_permutation x _ _ HP).
  rewrite <-(Permutation_length HP). pose proof (StronglySorted_merge_sort Z.le l) as Hs.
  rewrite <-(take_drop_middle _ _ _ Hk) in *. set (l1 := take k _) in *. set (l2 := drop (S k) _) in *.
  assert (length l1 = k) as Hl1.
  { unfold l1. rewrite length_take. apply lookup_lt_Some in Hk. lia. }
  unfold at_least. rewrite length_app, filter_app, length_app. cbn [length]. apply StronglySorted_app_1_r in Hs.
  apply StronglySorted_cons in Hs as [Hx _]. assert (filter (λ y, x ≤ y) (x :: l2) = x :: l2) as -> by (apply filter_all, Forall_cons; split; [lia|done]).
  cbn. lia.
Qed.

(** The numbers of the blocks the active witnesses have confirmed. *)
Definition confirmed_blocks (d : database) : list Z :=
  omap (λ id, wit_last_confirmed_block_num <$> d.(d_witnesses).(objs) !! id) d.(d_gpo).(gpo_active_witnesses).
Definition last_irreversible (d : database) : Z := d.(d_dgpo).(dgp_last_irreversible_block_num).

Lemma confirmed_blocks_mapM d ws :
  mapM_result (index_get d.(d_witnesses)) d.(d_gpo).(gpo_active_witnesses) = Ok ws →
  confirmed_blocks d = wit_last_confirmed_block_num <$> ws ∧ length ws = length d.(d_gpo).(gpo_active_witnesses).
Proof.
  intros H%mapM_result_Ok. unfold confirmed_blocks. induction H as [|id w ids ws Hw _ [IH1 IH2]]; [done|].
  apply index_get_Ok in Hw. cbn. rewrite Hw. cbn. by rewrite IH1, IH2.
Qed.

(** C32. The last irreversible block never moves back, and it moves to a block
    only when at least 70 percent of the active witnesses have confirmed that
    block or a later one. *)
Theorem last_irreversible_block_quorum d d' (H : update_last_irreversible_block d = Ok d') :
  d' = d <| d_dgpo ::= λ g, g <| dgp_last_irreversible_block_num := last_irreversible d' |> |> ∧
  last_irreversible d ≤ last_irreversible d' ∧
  (last_irreversible d < last_irreversible d' →
     GRAPHENE_IRREVERSIBLE_THRESHOLD * Z.of_nat (length d.(d_gpo).(gpo_active_witnesses)) ≤
     GRAPHENE_100_PERCENT * at_least (last_irreversible d') (confirmed_blocks d)).
Proof.
  unfold update_last_irreversible_block in H. apply bind_Ok in H as (ws & Hws & H).
  apply bind_Ok in H as (new & Hnew & H). apply Ok_inj in H as <-. apply from_option_Ok in Hnew.
  destruct (confirmed_blocks_mapM _ _ Hws) as [E1 E2]. rewrite <-E1 in Hnew. apply at_least_rank in Hnew.
  assert (length (confirmed_blocks d) = length ws) as El by (by rewrite E1, length_fmap).
  destruct (Z.ltb_spec d.(d_dgpo).(dgp_last_irreversible_block_num) new) as [Hlt|Hge];
    (split; [destruct d; by match goal with g : dynamic_global_property_object |- _ => destruct g end|]); (split; [unfold last_irreversible; cbn; lia|]); [|lia].
  intros _. unfold last_irreversible. cbn [d_dgpo dgp_last_irreversible_block_num over]. rewrite <-E2.
  unfold GRAPHENE_IRREVERSIBLE_THRESHOLD, GRAPHENE_100_PERCENT, GRAPHENE_1_PERCENT in *. rewrite El in Hnew.
  change (10000 - 70 * 100) with 3000 in Hnew. change (70 * 100) with 7000.
  pose proof (Z.div_mod (3000 * Z.of_nat (length ws)) 10000 ltac:(lia)).
  pose proof (Z.mod_pos_bound (3000 * Z.of_nat (length ws)) 10000 ltac:(lia)). lia.
Qed.

(** ** Witness pay and statuses *)
Lemma update_signing_witness_conserves d w blk d' : update_signing_witness d w blk = Ok d' → conserves d d'.
Proof.
  intros H. unfold update_signing_witness in H. cbv zeta in H. set (pay := Z.min _ _) in *.
  apply bind_Ok in H as (b & Hb & H). apply bind_Ok in H as (d1 & H1 & H). apply bind_Ok in H as (i & _ & H).
  apply Ok_inj in H as <-. apply safe_sub_Ok in Hb as ->. unfold conserves.
  pose proof (flow_dgpo d (d.(d_dgpo) <| dgp_witness_budget := d.(d_dgpo).(dgp_witness_budget) - pay |>)
    (- pay) eq_refl) as F0.
  apply flows in H1. pose proof (flow_witnesses d1 i) as F2.
  eapply flow_ext; [eapply flow_trans; [exact F0|]; eapply flow_trans; [exact H1|exact F2]|]. flow_arith.
Qed.

(** An account whose status has ended. *)
Definition status_ended (p : chain_parameters) (a : account_object) : account_object :=
  a <| acc_referral_status_type := 0 |> <| acc_referral_status_paid_fee := 0 |>
    <| acc_referral_status_expiration_date := 0 |> <| acc_referral_levels := nth 0 p.(cp_status_levels) 0 |>
    <| acc_status_denominator := nth 0 p.(cp_status_denominator) 0 |>.

Lemma reset_status_spec d id d' :
  reset_status d id = Ok d' →
  same_clock d d' ∧ d'.(d_gpo) = d.(d_gpo) ∧ conserves d d' ∧
  ∃ a, accounts_of d !! id = Some a ∧ accounts_of d' = <[id := status_ended (parameters d) a]> (accounts_of d).
Proof.
  intros H. unfold reset_status in H. pose proof (flows H) as F.
  apply modify_account_Ok in H as (a & a' & Ha & [= <-] & ->). do 3 (split; [done|]). by exists a.
Qed.

(** The end of statuses: the loop of every block ends; afterwards no
    account has a status that ran out before the head block; an account either
    stays as it is or, if its expiration lies before the head block, has lost its
    status and kept everything else. *)
Theorem auto_reset_status_settles d :
  auto_reset_status d ≠ Err out_of_fuel ∧
  ∀ d', auto_reset_status d = Ok d' →
    conserves d d' ∧
    (∀ id a, accounts_of d' !! id = Some a → 1 < a.(acc_referral_status_expiration_date) →
       head_block_time d ≤ a.(acc_referral_status_expiration_date)) ∧
    map_Forall2 (λ _ a a', a' = a ∨ (a.(acc_referral_status_expiration_date) < head_block_time d ∧
       a' = status_ended (parameters d) a)) (accounts_of d) (accounts_of d').
Proof.
  set (R := λ _ a a', _). destruct (scan_expired_complete acc_referral_status_expiration_date accounts_of reset_status
    (head_block_time d) (λ a, negb (a.(acc_referral_status_expiration_date) =? 0))
    (λ s, same_clock d s ∧ s.(d_gpo) = d.(d_gpo) ∧ conserves d s ∧ map_Forall2 R (accounts_of d) (accounts_of s))
    terminates_reset_status) with d as [Ht Hrun].
  - intros s id a s' (C & G & F & HR) Ha Hlt H. destruct (reset_status_spec _ _ _ H) as (C' & G' & F' & a0 & Ha0 & E).
    assert (a0 = a) as -> by congruence. split.
    + split; [by etrans|]. split; [congruence|]. split; [by etrans|]. rewrite E. pose proof (HR id) as Hid. rewrite Ha in Hid.
      inversion Hid as [b ? Hb Eb|]; subst. rewrite <-(insert_id (accounts_of d) id b) by done.
      apply map_Forall2_insert_2; [|done]. unfold parameters. rewrite G. right.
      destruct Hb as [-> | [? ->]]; [done|]. by split.
    + eexists. split; [exact E|]. cbn. split; [done|]. case_match; [lia|]. propify. done.
  - do 3 (split; [done|]). intros id. destruct (accounts_of d !! id); constructor. by left.
  - split; [exact Ht|]. intros d' H. destruct (Hrun _ H) as [(_ & _ & F & HR) Hleft]. split; [done|]. split; [|done].
    intros id a Ha Hexp. apply (Hleft id a Ha); [|done]. propify. lia.
Qed.

(** ** Witnesses *)
Definition sample_bet (st expiration : Z) : flipcoin_object :=
  Flipcoin 6 (if st =? 1 then Some 7 else None) None (Asset 1000 0) 3 expiration st.
Definition sample_lottery (participants : list Z) (n st : Z) : lottery_goods_object :=
  LotteryGoods 6 participants n (Asset 10 0) 1649999999 3600 st "" "" None None.
Definition sample_pledge (expiration : Z) : pledge_offer_object :=
  PledgeOffer 6 6 7 (Asset 100 0) (Asset 100 0) (Asset 110 0) 10 expiration 1.
Definition sample_deal (st : Z) : p2p_order_object :=
  P2pOrder 0 true (Asset 5000 0) 1 "" 6 7 st 1649999999 1649999999 None None None.

(** The head block comes after the end of some objects and before that of
    others. *)
Definition upkeep_db : database :=
  sample_db <| d_flipcoins := Index {[ 1 := sample_bet 1 1649999999; 2 := sample_bet 0 1649999990; 3 := sample_bet 0 1650000100 ]} 4 |>
    <| d_lotteries := Index {[ 1 := sample_lottery [7; 8] 2 1; 2 := sample_lottery [7] 2 0 ]} 3 |>
    <| d_pledge_offers := Index {[ 1 := sample_pledge 1649999999; 2 := sample_pledge 1650000100 ]} 3 |>
    <| d_approved_transfers := Index {[ 1 := ApprovedTransfer 6 7 8 (Asset 50 0) 1649999999 0;
                                        2 := ApprovedTransfer 6 7 8 (Asset 50 0) 1649999999 1 ]} 3 |>
    <| d_p2p_orders := Index {[ 1 := sample_deal 1; 2 := sample_deal 2; 3 := sample_deal 3 ]} 4 |>
    <| d_witnesses := Index {[ 1 := Witness 6 0 None 39999990 0 0 0; 2 := Witness 7 0 None 40000000 0 0 0; 3 := Witness 8 0 None 39999980 0 0 0 ]} 4 |>
    <| d_gpo ::= λ g, g <| gpo_active_witnesses := [1; 2; 3] |> |>
    <| d_dgpo ::= λ g, g <| dgp_head_block_id := replicate 40 7 |> |>.

Lemma upkeep_db_ledger_ok : ledger_ok upkeep_db.
Proof. split; by apply (bool_decide_unpack _). Qed.
Lemma upkeep_db_bets_inv : bets_inv 100 upkeep_db.
Proof.
  split.
  - split; by apply (bool_decide_unpack _).
  - intros k p Hp. unfold pendings, upkeep_db, sample_statistics in Hp. cbn [d_statistics sample_db] in Hp.
    apply lookup_fmap_Some in Hp as (s & <- & Hs). apply elem_of_list_to_map_2 in Hs.
    apply list_elem_of_fmap in Hs as (? & [= -> ->] & _). by unfold amount_ok, int64_max.
  - intros k f Hf. assert (f.(fl_bet).(amount) = 1000) as E; [|unfold bet_ok, GRAPHENE_MAX_SHARE_SUPPLY; lia].
    revert k f Hf. by apply (bool_decide_unpack (map_Forall (λ _ f, f.(fl_bet).(amount) = 1000) (flipcoins_of upkeep_db))).
  - by apply (bool_decide_unpack _).
  - split; [by apply (bool_decide_unpack _)|unfold GRAPHENE_100_PERCENT; lia].
Qed.

Lemma proceed_bets_settles_witness :
  is_ok (proceed_bets upkeep_db) = true ∧ proceed_bets upkeep_db ≠ Err out_of_fuel ∧
  flipcoins_of (ok_or upkeep_db (proceed_bets upkeep_db)) =
    filter (λ x, head_block_time upkeep_db < x.2.(fl_expiration)) (flipcoins_of upkeep_db).
Proof.
  split; [vm_compute; reflexivity|].
  destruct (proceed_bets_settles 100 upkeep_db ltac:(lia) upkeep_db_bets_inv) as [Ht Hrun];
    [by split; vm_compute|exact upkeep_db_ledger_ok|].
  split; [exact Ht|]. apply Hrun. destruct (proceed_bets upkeep_db) eqn:E; [reflexivity|].
  exfalso. vm_compute in E. discriminate E.
Defined.

Lemma proceed_pledge_settles_witness :
  is_ok (proceed_pledge upkeep_db) = true ∧
  pledges_of (ok_or upkeep_db (proceed_pledge upkeep_db)) !! 1 = None ∧
  pledges_of (ok_or upkeep_db (proceed_pledge upkeep_db)) !! 2 = Some (sample_pledge 1650000100).
Proof.
  split; [vm_compute; reflexivity|].
  destruct (proceed_pledge_settles upkeep_db) as [Ht Hrun]; [by apply (bool_decide_unpack _)|].
  destruct (proceed_pledge upkeep_db) as [d'|e] eqn:E; [|exfalso; vm_compute in E; discriminate E].
  destruct (Hrun d' eq_refl) as (_ & _ & H). split.
  - apply (H 1 (sample_pledge 1649999999)); [vm_compute; reflexivity|]. right. by vm_compute.
  - by apply (H 2 (sample_pledge 1650000100)).
Defined.

Lemma proceed_approved_transfer_settles_witness :
  is_ok (proceed_approved_transfer upkeep_db) = true ∧
  transfers_of (ok_or upkeep_db (proceed_approved_transfer upkeep_db)) !! 1 = None.
Proof.
  split; [vm_compute; reflexivity|].
  destruct (proceed_approved_transfer_settles upkeep_db) as [Ht Hrun]; [by apply (bool_decide_unpack _)|].
  destruct (proceed_approved_transfer upkeep_db) as [d'|e] eqn:E; [|exfalso; vm_compute in E; discriminate E].
  destruct (Hrun d' eq_refl) as (_ & _ & _ & H).
  apply (H 1 (ApprovedTransfer 6 7 8 (Asset 50 0) 1649999999 0)); [vm_compute; reflexivity|by vm_compute].
Defined.

Lemma proceed_lottery_goods_settles_witness :
  is_ok (proceed_lottery_goods upkeep_db) = true ∧
  lotteries_of (ok_or upkeep_db (proceed_lottery_goods upkeep_db)) !! 2 = None ∧
  ∃ l', lotteries_of (ok_or upkeep_db (proceed_lottery_goods upkeep_db)) !! 1 = Some l' ∧ won (sample_lottery [7; 8] 2 1) l'.
Proof.
  split; [vm_compute; reflexivity|].
  destruct (proceed_lottery_goods_settles upkeep_db) as [Ht Hrun]; [by apply (bool_decide_unpack _)|].
  destruct (proceed_lottery_goods upkeep_db) as [d'|e] eqn:E; [|exfalso; vm_compute in E; discriminate E].
  destruct (Hrun d' eq_refl) as (_ & H). split.
  - apply (H 2 (sample_lottery [7] 2 0)); [vm_compute; reflexivity|by vm_compute|reflexivity].
  - apply (H 1 (sample_lottery [7; 8] 2 1)); [vm_compute; reflexivity|by vm_compute|reflexivity|reflexivity].
Defined.

Lemma auto_cancel_p2p_orders_overdue_witness :
  is_ok (auto_cancel_p2p_orders upkeep_db) = true ∧
  orders_of (ok_or upkeep_db (auto_cancel_p2p_orders upkeep_db)) !! 2 = None ∧
  orders_of (ok_or upkeep_db (auto_cancel_p2p_orders upkeep_db)) !! 3 = Some (sample_deal 3) ∧
  (get_balance (ok_or upkeep_db (auto_cancel_p2p_orders upkeep_db)) 6 0).(amount) = (get_balance upkeep_db 6 0).(amount) + 5000.
Proof.
  split; [vm_compute; reflexivity|].
  destruct (auto_cancel_p2p_orders upkeep_db) as [d'|e] eqn:E; [|exfalso; vm_compute in E; discriminate E].
  destruct (auto_cancel_p2p_orders_overdue _ _ E) as (_ & H & B). cbn [ok_or]. split; [|split].
  - rewrite (H 2). vm_compute. reflexivity.
  - rewrite (H 3). vm_compute. reflexivity.
  - rewrite (B 6 0). vm_compute. reflexivity.
Defined.

Lemma last_irreversible_block_quorum_witness :
  let d' := ok_or upkeep_db (update_last_irreversible_block upkeep_db) in
  last_irreversible upkeep_db < last_irreversible d' ∧
  GRAPHENE_IRREVERSIBLE_THRESHOLD * 3 ≤ GRAPHENE_100_PERCENT * at_least (last_irreversible d') (confirmed_blocks upkeep_db).
Proof.
  split; [vm_compute; reflexivity|].
  destruct (update_last_irreversible_block upkeep_db) as [d'|e] eqn:E; [|exfalso; vm_compute in E; discriminate E].
  apply (last_irreversible_block_quorum _ _ E). vm_compute in E. injection E as <-. vm_compute. reflexivity.
Defined.
