(* ===== verification/Matrix.v ===== *)
(** * The succession of the matrices

    [database::proceed_matrix] (db_update.cpp), run at every block: the matrix
    that finishes last is prolonged or closed when its last block has come, its
    pot goes to the accumulated fees of the core asset, and the next matrix is
    created with the prices of the time.  The eight fields of each kind are lists
    indexed by the level, as in Objects.v. *)
From S2P Require Import Prelude Safe Asset Objects Database Ledger Balance Sample Referral Cursor GameZone.

Definition in_cwd (l : list Z) : list Z := (λ x, GRAPHENE_BLOCKCHAIN_PRECISION * x) <$> l.

(** ** The terms of a matrix *)
Record matrix_terms : Type := MatrixTerms {
  mt_price : list Z;
  mt_prize : list Z;
  mt_cells : list Z }.

Definition matrix_level_terms : matrix_terms :=
  MatrixTerms (in_cwd [45; 80; 218; 790; 2870; 7820; 14200; 25800])
    (in_cwd [90; 240; 872; 3160; 8610; 15640; 28400; 51600]) [2; 3; 4; 4; 3; 2; 2; 2].
Definition matrix_level_terms_new : matrix_terms :=
  MatrixTerms (in_cwd [45; 80; 145; 260; 460; 830; 1500; 2700])
    (in_cwd [90; 160; 290; 520; 920; 1660; 3000; 5400]) [2; 2; 2; 2; 2; 2; 2; 2].
(** "Mini matrix": only the prices change. *)
Definition mini_matrix_terms : matrix_terms :=
  MatrixTerms (in_cwd [9; 16; 29; 52; 94; 170; 309; 555])
    (in_cwd [18; 32; 58; 104; 188; 340; 618; 1110]) matrix_level_terms_new.(mt_cells).

Definition matrix_first_start_block : Z := 3491491.
Definition matrix_lasts_blocks : Z := 1000000.
Definition matrix_idle_blocks : Z := 120000.

(** The two local variables of the C++ function that the loop changes. *)
Record matrix_times : Type := MatrixTimes {
  mt_lasts : Z;
  mt_idle : Z }.

Definition next_times (d : database) (id : Z) (t : matrix_times) : matrix_times :=
  let now := head_block_time d in
  let lasts := if HARDFORK_CWD4_TIME <=? now then 240000 else t.(mt_lasts) in
  let t := if HARDFORK_CWD5_TIME <=? now then MatrixTimes 177 16671 else MatrixTimes lasts t.(mt_idle) in
  let t := if id =? 13 then MatrixTimes t.(mt_lasts) 15851 else t in
  if HARDFORK_CWD6_TIME <=? now
  then MatrixTimes (gamezone d).(gz_matrix_lasts_blocks) (gamezone d).(gz_matrix_idle_blocks)
  else t.

Definition next_terms (d : database) (finish_block_number : Z) : matrix_terms :=
  if HARDFORK_CWD6_TIME <=? head_block_time d
  then MatrixTerms (gamezone d).(gz_matrix_level_price) (gamezone d).(gz_matrix_level_prize) (gamezone d).(gz_matrix_level_cells)
  else if 8243772 <=? finish_block_number then mini_matrix_terms
  else matrix_level_terms_new.

Definition new_matrix (start finish : Z) (t : matrix_terms) : matrix_object :=
  Matrix start finish 0 0 0 0 t.(mt_price) t.(mt_prize) t.(mt_cells).

Definition create_matrix (d : database) (m : matrix_object) : result database :=
  '(_, i) ← index_create d.(d_matrices) m; Ok (d <| d_matrices := i |>).

(** ** The loop *)
Definition matrices_of (d : database) : gmap Z matrix_object := d.(d_matrices).(objs).

Definition prolong_matrix (d : database) (id idle : Z) : result database :=
  modify_matrix d id (λ m,
    Ok (m <| mx_finish_block_number := u32 (m.(mx_finish_block_number) + idle) |> <| mx_last_120k_amount := 0 |>)).

Definition close_matrix (d : database) (id : Z) (m : matrix_object) (t : matrix_times) : result (database * matrix_times) :=
  let head_block := head_block_num d in
  d1 ← add_accumulated_fees d 0 m.(mx_amount);
  d2 ← modify_matrix d1 id (λ m, Ok (m <| mx_status := 1 |>));
  let t' := next_times d id t in
  let start := u32 (head_block + t'.(mt_idle)) in
  let finish := if id =? 3 then 8092140 else u32 (start + t'.(mt_lasts)) in
  d3 ← create_matrix d2 (new_matrix start finish (next_terms d m.(mx_finish_block_number)));
  Ok (d3, t').

(** One iteration: [matrix_lasts] of the code is a 32-bit difference, and the
    averages are quotients of checked integers. *)
Definition proceed_one_matrix (d : database) (id : Z) (m : matrix_object) (t : matrix_times) :
    result (database * matrix_times) :=
  let lasts := u32 (m.(mx_finish_block_number) - m.(mx_start_block_number)) in
  per_block ← safe_div m.(mx_amount) lasts;
  scaled ← safe_mul per_block 70;
  average ← safe_div scaled 100;
  average_120k ← safe_div m.(mx_last_120k_amount) t.(mt_idle);
  if (average <=? average_120k) && (head_block_time d <? HARDFORK_CWD5_TIME)
  then d1 ← prolong_matrix d id t.(mt_idle); Ok (d1, t)
  else close_matrix d id m t.

Fixpoint proceed_matrix_loop (fuel : nat) (d : database) (t : matrix_times) : result (database * matrix_times) :=
  match greatest mx_finish_block_number (matrices_of d) with
  | Some (finish, id) =>
    m ← get_matrix d id;
    if (finish <=? head_block_num d) && (m.(mx_status) =? 0) then
      match fuel with
      | O => Err out_of_fuel
      | S fuel => '(d1, t1) ← proceed_one_matrix d id m t; proceed_matrix_loop fuel d1 t1
      end
    else Ok (d, t)
  | None => Ok (d, t)
  end.

(** A matrix is prolonged by at least 15851 blocks, up to the head block, and
    closed at most twice (the successor of matrix 3 may be due at once). *)
Definition matrix_fuel (d : database) : nat := S (S (Z.to_nat (2 * (head_block_num d `div` 15851)))).

Definition proceed_matrix (d : database) : result database :=
  '(d1, t) ← proceed_matrix_loop (matrix_fuel d) d (MatrixTimes matrix_lasts_blocks matrix_idle_blocks);
  if (Z.of_nat (size (matrices_of d1)) =? 0) && (matrix_first_start_block <=? head_block_num d1) then
    create_matrix d1 (new_matrix (head_block_num d1) (u32 (head_block_num d1 + t.(mt_lasts))) matrix_level_terms)
  else Ok d1.

(** ** Lemmas *)
Definition prolonged (idle : Z) (m : matrix_object) : matrix_object :=
  m <| mx_finish_block_number := u32 (m.(mx_finish_block_number) + idle) |> <| mx_last_120k_amount := 0 |>.
Definition closed (m : matrix_object) : matrix_object := m <| mx_status := 1 |>.

(** The matrix that succeeds another one. *)
Definition successor (d : database) (id : Z) (m : matrix_object) (t : matrix_times) : matrix_object :=
  let t' := next_times d id t in
  let start := u32 (head_block_num d + t'.(mt_idle)) in
  new_matrix start (if id =? 3 then 8092140 else u32 (start + t'.(mt_lasts))) (next_terms d m.(mx_finish_block_number)).

Definition same_setting (d d' : database) : Prop := d'.(d_gpo) = d.(d_gpo) ∧ d'.(d_dgpo) = d.(d_dgpo).
#[export] Instance same_setting_preorder : PreOrder same_setting.
Proof. split; [done|]. intros d1 d2 d3 [] []. split; congruence. Qed.

Lemma create_matrix_spec d m d' :
  create_matrix d m = Ok d' →
  same_setting d d' ∧ flow d d' (λ a, core_only a (matrix_held m)) ∧
  ∃ n, matrices_of d !! n = None ∧ matrices_of d' = <[n := m]> (matrices_of d).
Proof.
  intros H. unfold create_matrix in H. apply bind_Ok in H as ([n i] & Hi & H). apply Ok_inj in H as <-.
  apply index_create_Ok in Hi as (-> & Hn & ->). split; [done|]. split; [|by eexists].
  apply flow_matrices. by rewrite isum_create by done.
Qed.

Lemma modify_matrix_spec d id g d' :
  modify_matrix d id (λ m, Ok (g m)) = Ok d' →
  same_setting d d' ∧ ∃ m, matrices_of d !! id = Some m ∧ matrices_of d' = <[id := g m]> (matrices_of d) ∧
    flow d d' (λ a, core_only a (matrix_held (g m) - matrix_held m)).
Proof.
  intros H. unfold modify_matrix in H. apply bind_Ok in H as (i & Hi & H). apply Ok_inj in H as <-.
  apply index_modify_Ok in Hi as (m & m' & Hm & [= <-] & ->). split; [done|]. exists m. do 2 (split; [done|]).
  apply flow_matrices. rewrite (isum_modify _ _ _ _ _ Hm). lia.
Qed.

Lemma add_fees_matrices d k z d' : add_accumulated_fees d k z = Ok d' → matrices_of d' = matrices_of d.
Proof. intros H. apply modify_dynamic_data_Ok in H as (? & ? & _ & _ & ->). done. Qed.

Lemma close_matrix_spec d id m t d' t' :
  close_matrix d id m t = Ok (d', t') → matrices_of d !! id = Some m → m.(mx_status) = 0 →
  same_setting d d' ∧ conserves d d' ∧ t' = next_times d id t ∧
  ∃ n, matrices_of d !! n = None ∧ matrices_of d' = <[n := successor d id m t]> (<[id := closed m]> (matrices_of d)).
Proof.
  intros H Hm Hs. unfold close_matrix in H. apply bind_Ok in H as (d1 & H1 & H). apply bind_Ok in H as (d2 & H2 & H).
  apply bind_Ok in H as (d3 & H3 & H). injection H as <- <-.
  pose proof (add_fees_matrices _ _ _ _ H1) as E1. pose proof (globals H1) as (G1 & G1' & _). apply flows in H1.
  apply (modify_matrix_spec _ _ closed) in H2 as (G2 & m2 & Hm2 & E2 & F2).
  apply create_matrix_spec in H3 as (G3 & F3 & n & Hn & E3).
  assert (m2 = m) as -> by congruence. split; [|split; [|split; [done|]]].
  - etrans; [by split|]. by etrans.
  - unfold conserves. eapply flow_ext; [eapply flow_trans; [exact H1|]; eapply flow_trans; [exact F2|exact F3]|].
    intros a. unfold matrix_held, closed. cbn. rewrite Hs. flow_arith.
  - exists n. rewrite E2, E1 in Hn. apply lookup_insert_None in Hn as [Hn Hne]. split; [done|].
    rewrite E3, E2, E1. done.
Qed.

Lemma proceed_one_spec d id m t d' t' :
  proceed_one_matrix d id m t = Ok (d', t') → matrices_of d !! id = Some m → m.(mx_status) = 0 →
  same_setting d d' ∧ conserves d d' ∧
  ((t' = t ∧ head_block_time d < HARDFORK_CWD5_TIME ∧
    matrices_of d' = <[id := prolonged t.(mt_idle) m]> (matrices_of d)) ∨
   (t' = next_times d id t ∧
    ∃ n, matrices_of d !! n = None ∧ matrices_of d' = <[n := successor d id m t]> (<[id := closed m]> (matrices_of d)))).
Proof.
  intros H Hm Hs. unfold proceed_one_matrix in H. apply bind_Ok in H as (p & _ & H). apply bind_Ok in H as (s & _ & H).
  apply bind_Ok in H as (a & _ & H). apply bind_Ok in H as (b & _ & H). destruct (_ && _) eqn:Hc.
  - apply bind_Ok in H as (d1 & H1 & H). injection H as <- <-.
    apply (modify_matrix_spec _ _ (prolonged t.(mt_idle))) in H1 as (G & m1 & Hm1 & E & F).
    assert (m1 = m) as -> by congruence. split; [done|]. propify. split; [|left; tauto].
    eapply flow_ext; [exact F|]. intros x. unfold matrix_held, prolonged. cbn. flow_arith.
  - destruct (close_matrix_spec _ _ _ _ _ _ H Hm Hs) as (G & F & -> & E). split; [done|]. split; [done|]. by right.
Qed.

(** What the loop keeps, by induction on its iterations. *)
Lemma proceed_matrix_loop_preserves fuel d t d' t' :
  proceed_matrix_loop fuel d t = Ok (d', t') → same_setting d d' ∧ conserves d d'.
Proof.
  revert d t. induction fuel as [|fuel IH]; intros d t H; cbn [proceed_matrix_loop] in H;
    pose proof (greatest_spec mx_finish_block_number (matrices_of d)) as Hg;
    destruct (greatest _ _) as [[f id]|]; try (injection H as <- <-; by split);
    destruct Hg as (m & Hm & <- & _); apply bind_Ok in H as (m0 & Hm0 & H); apply index_get_Ok in Hm0;
    assert (m0 = m) as -> by (unfold matrices_of in Hm; congruence);
    (destruct (_ && _) eqn:Hdue; [|injection H as <- <-; by split]); [done|]. propify.
  apply bind_Ok in H as ([d1 t1] & H1 & H).
  destruct (proceed_one_spec _ _ _ _ _ _ H1 Hm ltac:(tauto)) as (G1 & F1 & _).
  destruct (IH _ _ H) as [G2 F2]. split; by etrans.
Qed.

Lemma proceed_matrix_conserves d d' : proceed_matrix d = Ok d' → same_setting d d' ∧ conserves d d'.
Proof.
  intros H. unfold proceed_matrix in H. apply bind_Ok in H as ([d1 t] & H1 & H).
  apply proceed_matrix_loop_preserves in H1 as [G1 F1].
  destruct (_ && _); [|by apply Ok_inj in H as <-].
  apply create_matrix_spec in H as (G2 & F2 & _). split; [by etrans|]. etrans; [exact F1|].
  eapply flow_ext; [exact F2|]. unfold matrix_held. cbn. flow_arith.
Qed.

(** ** The loop ends *)
Record matrices_wf (d : database) : Prop := {
  mw_head : 0 ≤ head_block_num d;
  mw_lasts : 0 ≤ (gamezone d).(gz_matrix_lasts_blocks);
  mw_idle : 0 ≤ (gamezone d).(gz_matrix_idle_blocks);
  mw_progress : 0 < (gamezone d).(gz_matrix_lasts_blocks) + (gamezone d).(gz_matrix_idle_blocks);
  mw_room : head_block_num d + (gamezone d).(gz_matrix_lasts_blocks) + (gamezone d).(gz_matrix_idle_blocks) < 2 ^ 32;
  mw_room_old : head_block_num d + 2000000 < 2 ^ 32;
  mw_finish : map_Forall (λ _ m, 0 ≤ m.(mx_finish_block_number)) (matrices_of d) }.

(** The values the two local variables can have. *)
Definition times_ok (d : database) (t : matrix_times) : Prop :=
  head_block_time d < HARDFORK_CWD5_TIME → 0 < t.(mt_lasts) ≤ 1000000 ∧ (t.(mt_idle) = 120000 ∨ t.(mt_idle) = 15851).

Lemma next_times_ok d id t :
  matrices_wf d → times_ok d t →
  let t' := next_times d id t in
  times_ok d t' ∧ 0 ≤ t'.(mt_lasts) ∧ 0 ≤ t'.(mt_idle) ∧ 0 < t'.(mt_lasts) + t'.(mt_idle) ∧
  head_block_num d + t'.(mt_lasts) + t'.(mt_idle) < 2 ^ 32.
Proof.
  intros [] Ht. unfold times_ok, next_times, HARDFORK_CWD4_TIME, HARDFORK_CWD5_TIME, HARDFORK_CWD6_TIME in *.
  destruct (Z.leb_spec 1594717200 (head_block_time d)); destruct (Z.leb_spec 1588255200 (head_block_time d));
    destruct (Z.leb_spec 1605780000 (head_block_time d)); destruct (id =? 13); cbn in *;
    split_and!; intros; try lia; (destruct Ht as [? Ht]; [lia|lia]).
Qed.

Lemma wf_same_setting d d' : same_setting d d' → matrices_wf d →
  map_Forall (λ _ m, 0 ≤ m.(mx_finish_block_number)) (matrices_of d') → matrices_wf d'.
Proof. intros [G1 G2] [] Hf. unfold head_block_num, gamezone in *. split; unfold head_block_num, gamezone; rewrite ?G1, ?G2; done. Qed.
Lemma times_same_setting d d' t : same_setting d d' → times_ok d t → times_ok d' t.
Proof. intros [_ G]. unfold times_ok, head_block_time. by rewrite G. Qed.

Lemma terminates_safe_div a b : terminates (safe_div a b).
Proof. unfold safe_div. solve_terminates. Qed.
#[export] Hint Resolve terminates_safe_div : terminates.
Lemma terminates_proceed_one d id m t : terminates (proceed_one_matrix d id m t).
Proof.
  assert (∀ d k z, terminates (add_accumulated_fees d k z)) as Hf.
  { intros. apply terminates_modify_dynamic_data. intros. solve_terminates. }
  assert (∀ d id (g : matrix_object → matrix_object), terminates (modify_matrix d id (λ m, Ok (g m)))) as Hm.
  { intros. unfold modify_matrix. apply terminates_bind; [|discriminate]. apply terminates_index_modify. discriminate. }
  assert (∀ d m, terminates (create_matrix d m)) as Hc.
  { intros. unfold create_matrix, index_create. solve_terminates. }
  unfold proceed_one_matrix, prolong_matrix, close_matrix. cbv zeta.
  apply terminates_bind; [auto with terminates|intros ? _]. apply terminates_bind; [auto with terminates|intros ? _].
  apply terminates_bind; [auto with terminates|intros ? _]. apply terminates_bind; [auto with terminates|intros ? _].
  case_match.
  - apply terminates_bind; [apply Hm|discriminate].
  - apply terminates_bind; [apply Hf|intros ? _]. apply terminates_bind; [apply Hm|intros ? _].
    apply terminates_bind; [apply Hc|discriminate].
Qed.

Lemma loop_stops fuel d t f id :
  greatest mx_finish_block_number (matrices_of d) = Some (f, id) →
  (head_block_num d < f ∨ ∃ m, matrices_of d !! id = Some m ∧ m.(mx_status) ≠ 0) →
  proceed_matrix_loop fuel d t = Ok (d, t).
Proof.
  intros Hg Hstop. assert (∃ m, matrices_of d !! id = Some m) as [m Hm].
  { pose proof (greatest_spec mx_finish_block_number (matrices_of d)) as H. rewrite Hg in H.
    destruct H as (m & Hm & _). by exists m. }
  assert (get_matrix d id = Ok m) as Hget by (by apply index_get_Ok).
  assert ((f <=? head_block_num d) && (mx_status m =? 0) = false) as Hc.
  { apply andb_false_iff. destruct Hstop as [?|(m' & Hm' & ?)]; [left|right; assert (m' = m) as -> by congruence];
      propify; lia. }
  destruct fuel; cbn; rewrite Hg, Hget; cbn; by rewrite Hc.
Qed.

Lemma greatest_insert (m : gmap Z matrix_object) n x k v :
  m !! n = None → greatest mx_finish_block_number m = Some (k, v) → k < x.(mx_finish_block_number) →
  greatest mx_finish_block_number (<[n := x]> m) = Some (x.(mx_finish_block_number), n).
Proof.
  intros Hn Hg Hlt. pose proof (greatest_spec mx_finish_block_number m) as H. rewrite Hg in H.
  destruct H as (_ & _ & _ & Hmax). pose proof (greatest_spec mx_finish_block_number (<[n := x]> m)) as H'.
  destruct (greatest mx_finish_block_number (<[n := x]> m)) as [[e j]|].
  - destruct H' as (w & Hw & <- & Hmax'). specialize (Hmax' n x (lookup_insert_eq _ _ _)).
    apply lookup_insert_Some in Hw as [[<- <-]|[_ Hw]]; [done|]. specialize (Hmax _ _ Hw). lia.
  - specialize (H' n). by rewrite lookup_insert_eq in H'.
Qed.

Lemma greatest_replace (m : gmap Z matrix_object) id x y :
  m !! id = Some x → greatest mx_finish_block_number m = Some (x.(mx_finish_block_number), id) →
  x.(mx_finish_block_number) < y.(mx_finish_block_number) →
  greatest mx_finish_block_number (<[id := y]> m) = Some (y.(mx_finish_block_number), id).
Proof.
  intros Hx Hg Hlt. pose proof (greatest_spec mx_finish_block_number m) as H. rewrite Hg in H.
  destruct H as (_ & _ & _ & Hmax). pose proof (greatest_spec mx_finish_block_number (<[id := y]> m)) as H'.
  destruct (greatest mx_finish_block_number (<[id := y]> m)) as [[e j]|].
  - destruct H' as (w & Hw & <- & Hmax'). specialize (Hmax' id y (lookup_insert_eq _ _ _)).
    apply lookup_insert_Some in Hw as [[<- <-]|[_ Hw]]; [done|]. specialize (Hmax _ _ Hw). lia.
  - specialize (H' id). by rewrite lookup_insert_eq in H'.
Qed.

(** The successor of a matrix finishes after the head block ... *)
Lemma successor_after_head d id m t :
  matrices_wf d → times_ok d t → id ≠ 3 → head_block_num d < (successor d id m t).(mx_finish_block_number).
Proof.
  intros Hwf Ht Hid. destruct (next_times_ok d id t Hwf Ht) as (_ & ? & ? & ? & ?). pose proof (mw_head _ Hwf).
  unfold successor. cbn. rewrite (proj2 (Z.eqb_neq id 3)) by done. unfold u32.
  rewrite (Z.mod_small (_ + _.(mt_idle))) by lia. rewrite Z.mod_small by lia. lia.
Qed.

(** ... so that a matrix (but the third) that is closed ends the loop. *)
Lemma closed_stops d id m t n fuel d1 t1 :
  matrices_of d1 = <[n := successor d id m t]> (<[id := closed m]> (matrices_of d)) → head_block_num d1 = head_block_num d →
  head_block_num d < (successor d id m t).(mx_finish_block_number) →
  proceed_matrix_loop fuel d1 t1 = Ok (d1, t1).
Proof.
  intros E G Hlt. pose proof (greatest_spec mx_finish_block_number (matrices_of d1)) as Hg.
  destruct (greatest mx_finish_block_number (matrices_of d1)) as [[f j]|] eqn:Ef.
  - destruct Hg as (w & Hw & <- & Hmax). eapply loop_stops; [exact Ef|]. left. rewrite G.
    specialize (Hmax n (successor d id m t)). rewrite E, lookup_insert_eq in Hmax. specialize (Hmax eq_refl). lia.
  - specialize (Hg n). by rewrite E, lookup_insert_eq in Hg.
Qed.

(** One iteration on a due matrix: the loop is over, or the matrix has been
    prolonged by at least 15851 blocks. *)
Lemma due_step fuel d t id m :
  matrices_wf d → times_ok d t → matrices_of d !! id = Some m →
  greatest mx_finish_block_number (matrices_of d) = Some (m.(mx_finish_block_number), id) →
  m.(mx_finish_block_number) ≤ head_block_num d → m.(mx_status) = 0 →
  (∀ d1 t1 m1, matrices_wf d1 → times_ok d1 t1 → head_block_num d1 = head_block_num d →
     matrices_of d1 !! id = Some m1 →
     greatest mx_finish_block_number (matrices_of d1) = Some (m1.(mx_finish_block_number), id) →
     m.(mx_finish_block_number) + 15851 ≤ m1.(mx_finish_block_number) →
     terminates (proceed_matrix_loop fuel d1 t1)) →
  (∀ d1 t1 n, id = 3 → matrices_wf d1 → times_ok d1 t1 → head_block_num d1 = head_block_num d → n ≠ 3 →
     matrices_of d1 = <[n := successor d id m t]> (<[id := closed m]> (matrices_of d)) →
     terminates (proceed_matrix_loop fuel d1 t1)) →
  terminates (proceed_matrix_loop (S fuel) d t).
Proof.
  intros Hwf Ht Hm Hg Hdue Hs Hprolong Hthird. cbn [proceed_matrix_loop]. rewrite Hg.
  assert (get_matrix d id = Ok m) as Hget by (by apply index_get_Ok). rewrite Hget. cbn [mbind result_bind].
  rewrite (proj2 (Z.leb_le _ _) Hdue), (proj2 (Z.eqb_eq _ _) Hs). cbn [andb].
  apply terminates_bind; [apply terminates_proceed_one|intros [d1 t1] H1].
  destruct (proceed_one_spec _ _ _ _ _ _ H1 Hm Hs) as (G & _ & Hcase).
  assert (head_block_num d1 = head_block_num d) as Gn by (unfold head_block_num; by rewrite (proj2 G)).
  pose proof (mw_finish _ Hwf) as Hpos. pose proof (mw_head _ Hwf). pose proof (mw_room_old _ Hwf).
  destruct Hcase as [(-> & Htime & E)|(-> & n & Hn & E)].
  - destruct (Ht Htime) as [_ Hidle]. pose proof (Hpos _ _ Hm) as Hm0. cbv beta in Hm0.
    assert ((prolonged t.(mt_idle) m).(mx_finish_block_number) = m.(mx_finish_block_number) + t.(mt_idle)) as Ef.
    { unfold prolonged. cbn. apply Z.mod_small. lia. }
    apply (Hprolong _ _ (prolonged t.(mt_idle) m)); [|by eapply times_same_setting|done|rewrite E; apply lookup_insert_eq| |lia].
    + eapply wf_same_setting; [done..|]. rewrite E. apply map_Forall_insert_2; [lia|done].
    + rewrite E. eapply greatest_replace; [done|done|lia].
  - destruct (decide (id = 3)) as [Hid|Hid].
    + apply (Hthird _ _ n Hid); [|by eapply times_same_setting, next_times_ok|done|congruence|done].
      eapply wf_same_setting; [done..|]. rewrite E. apply map_Forall_insert_2; [|by apply map_Forall_insert_2; [apply (Hpos _ _ Hm)|]].
      unfold successor. cbn. case_match; [lia|]. unfold u32. apply Z.mod_pos_bound. lia.
    + rewrite (closed_stops d id m t n); [discriminate|done|done|by apply successor_after_head].
Qed.

(** How many iterations a matrix needs. *)
Definition iterations (d : database) (m : matrix_object) : Z :=
  (head_block_num d - m.(mx_finish_block_number)) `div` 15851 + 1.

Lemma iterations_prolonged d d1 m m1 :
  head_block_num d1 = head_block_num d → m.(mx_finish_block_number) + 15851 ≤ m1.(mx_finish_block_number) →
  iterations d1 m1 ≤ iterations d m - 1.
Proof.
  intros G Hle. unfold iterations. rewrite G.
  replace (head_block_num d - m.(mx_finish_block_number)) with (head_block_num d - m.(mx_finish_block_number) - 15851 + 1 * 15851) by lia.
  rewrite Z.div_add by lia.
  pose proof (Z.div_le_mono (head_block_num d - m1.(mx_finish_block_number)) (head_block_num d - m.(mx_finish_block_number) - 15851) 15851). lia.
Qed.

Lemma not_due_stops fuel d t m id :
  matrices_of d !! id = Some m → greatest mx_finish_block_number (matrices_of d) = Some (m.(mx_finish_block_number), id) →
  ¬ (m.(mx_finish_block_number) ≤ head_block_num d ∧ m.(mx_status) = 0) → terminates (proceed_matrix_loop fuel d t).
Proof.
  intros Hm Hg Hn. rewrite (loop_stops fuel d t _ _ Hg); [discriminate|].
  destruct (Z.le_gt_cases m.(mx_finish_block_number) (head_block_num d)); [right|left; lia]. exists m. split; [done|]. intros ?. by apply Hn.
Qed.

Lemma due_iterations d m : m.(mx_finish_block_number) ≤ head_block_num d → 1 ≤ iterations d m.
Proof. intros H. unfold iterations. pose proof (Z.div_pos (head_block_num d - m.(mx_finish_block_number)) 15851). lia. Qed.

Lemma loop_ends fuel d t m id :
  matrices_wf d → times_ok d t → matrices_of d !! id = Some m → id ≠ 3 →
  greatest mx_finish_block_number (matrices_of d) = Some (m.(mx_finish_block_number), id) →
  iterations d m ≤ Z.of_nat fuel → terminates (proceed_matrix_loop fuel d t).
Proof.
  revert d t m. induction fuel as [|fuel IH]; intros d t m Hwf Ht Hm Hid Hg Hfuel;
    (destruct (decide (m.(mx_finish_block_number) ≤ head_block_num d ∧ m.(mx_status) = 0)) as [[Hdue Hs]|Hn];
     [pose proof (due_iterations _ _ Hdue)|by eapply not_due_stops]); [lia|].
  eapply due_step; [done..| |by intros].
  intros d1 t1 m1 Hwf1 Ht1 G Hm1 Hg1 Hle. eapply IH; [done..|].
  pose proof (iterations_prolonged _ _ _ _ G Hle). lia.
Qed.

Lemma loop_ends_third fuel d t m id :
  matrices_wf d → times_ok d t → matrices_of d !! id = Some m →
  greatest mx_finish_block_number (matrices_of d) = Some (m.(mx_finish_block_number), id) →
  iterations d m + head_block_num d `div` 15851 + 1 ≤ Z.of_nat fuel → terminates (proceed_matrix_loop fuel d t).
Proof.
  revert d t m. induction fuel as [|fuel IH]; intros d t m Hwf Ht Hm Hg Hfuel;
    pose proof (Z.div_pos (head_block_num d) 15851 (mw_head _ Hwf) ltac:(lia));
    (destruct (decide (m.(mx_finish_block_number) ≤ head_block_num d ∧ m.(mx_status) = 0)) as [[Hdue Hs]|Hn];
     [pose proof (due_iterations _ _ Hdue)|by eapply not_due_stops]); [lia|].
  eapply due_step; [done..| |].
  - intros d1 t1 m1 Hwf1 Ht1 G Hm1 Hg1 Hle. eapply IH; [done..|].
    pose proof (iterations_prolonged _ _ _ _ G Hle). rewrite G. lia.
  - intros d1 t1 n -> Hwf1 Ht1 G Hn E. pose proof (greatest_spec mx_finish_block_number (matrices_of d1)) as Hg1.
    destruct (greatest mx_finish_block_number (matrices_of d1)) as [[f j]|] eqn:Ef;
      [|specialize (Hg1 n); by rewrite E, lookup_insert_eq in Hg1].
    destruct Hg1 as (w & Hw & <- & _). destruct (decide (j = 3)) as [->|Hj].
    + eapply not_due_stops; [exact Hw|done|]. rewrite E, lookup_insert_ne, lookup_insert_eq in Hw by done.
      injection Hw as <-. unfold closed. cbn. by intros [_ ?].
    + eapply (loop_ends _ _ _ w j); [done..|]. pose proof (mw_finish _ Hwf1 _ _ Hw) as Hw0. cbv beta in Hw0.
      unfold iterations. rewrite G. pose proof (Z.div_le_mono (head_block_num d - w.(mx_finish_block_number)) (head_block_num d) 15851). lia.
Qed.

Lemma terminates_proceed_matrix d : matrices_wf d → terminates (proceed_matrix d).
Proof.
  intros Hwf. unfold proceed_matrix. apply terminates_bind.
  - assert (times_ok d (MatrixTimes matrix_lasts_blocks matrix_idle_blocks)) as Ht.
    { intros _. unfold matrix_lasts_blocks, matrix_idle_blocks. cbn. lia. }
    pose proof (greatest_spec mx_finish_block_number (matrices_of d)) as Hg.
    destruct (greatest mx_finish_block_number (matrices_of d)) as [[f id]|] eqn:Ef.
    + destruct Hg as (m & Hm & <- & _). eapply loop_ends_third; [done..|].
      pose proof (mw_finish _ Hwf _ _ Hm) as Hm0. cbv beta in Hm0. pose proof (mw_head _ Hwf).
      unfold iterations, matrix_fuel. pose proof (Z.div_pos (head_block_num d) 15851).
      pose proof (Z.div_le_mono (head_block_num d - m.(mx_finish_block_number)) (head_block_num d) 15851). lia.
    + destruct (matrix_fuel d); cbn; rewrite Ef; discriminate.
  - intros [d1 t] _. unfold create_matrix, index_create. solve_terminates.
Qed.

(** ** Properties *)

(** C29. The succession of the matrices at every block: for any positive
    length plus pause in the parameters the loop ends, whatever matrix is due and
    however often it is prolonged; and closing a matrix moves its pot to the
    accumulated fees, so that no value is created or destroyed. *)
Theorem proceed_matrix_ends d (Hwf : matrices_wf d) :
  proceed_matrix d ≠ Err out_of_fuel ∧
  ∀ d', proceed_matrix d = Ok d' → conserves d d'.
Proof.
  split; [by apply terminates_proceed_matrix|]. intros d' H. by apply proceed_matrix_conserves.
Qed.

(** C30. A matrix without a single block stops the chain: when the committee
    sets the length of a matrix to zero, which no check forbids, the successor of
    a matrix starts and finishes at the same block, and once that block has come
    the division of the pot by the length throws in every later block. *)
Theorem matrix_without_blocks_throws d id m
  (Hlast : greatest mx_finish_block_number (matrices_of d) = Some (m.(mx_finish_block_number), id))
  (Hm : matrices_of d !! id = Some m) (Hopen : m.(mx_status) = 0) (Hdue : m.(mx_finish_block_number) ≤ head_block_num d) :
  (m.(mx_start_block_number) = m.(mx_finish_block_number) → proceed_matrix d = Err divide_by_zero_exception) ∧
  (HARDFORK_CWD6_TIME ≤ head_block_time d → (gamezone d).(gz_matrix_lasts_blocks) = 0 → id ≠ 3 → ∀ t,
     let next := successor d id m t in next.(mx_start_block_number) = next.(mx_finish_block_number)).
Proof.
  split.
  - intros Hzero. assert (get_matrix d id = Ok m) as Hget by (by apply index_get_Ok).
    unfold proceed_matrix, matrix_fuel.
    cbn [proceed_matrix_loop]. rewrite Hlast, Hget. cbn [mbind result_bind].
    rewrite (proj2 (Z.leb_le _ _) Hdue), (proj2 (Z.eqb_eq _ _) Hopen). cbn [andb].
    unfold proceed_one_matrix. by rewrite Hzero, Z.sub_diag.
  - intros Htime Hlasts Hid t. unfold successor, new_matrix, next_times. cbn.
    rewrite (proj2 (Z.leb_le _ _) Htime), (proj2 (Z.eqb_neq id 3)) by done. cbn. rewrite Hlasts, Z.add_0_r.
    unfold u32. by rewrite Z.mod_mod by lia.
Qed.

(** ** Witnesses *)
Definition due_matrix : matrix_object := Matrix 39999000 40000000 0 500000 500000 0 (replicate 8 1000) (replicate 8 4000) (replicate 8 2).
Definition matrix_db : database := sample_db <| d_matrices := Index {[ 14 := due_matrix ]} 15 |>.

Lemma proceed_matrix_ends_witness :
  is_ok (proceed_matrix matrix_db) = true ∧ conserves matrix_db (ok_or matrix_db (proceed_matrix matrix_db)).
Proof.
  split; [vm_compute; reflexivity|].
  apply (proceed_matrix_ends matrix_db).
  - split; try (vm_compute; congruence). by apply (bool_decide_unpack _).
  - destruct (proceed_matrix matrix_db) eqn:E; [reflexivity|]. exfalso. vm_compute in E. discriminate E.
Defined.

Definition stuck_db : database :=
  sample_db <| d_matrices := Index {[ 14 := due_matrix <| mx_start_block_number := 40000000 |> ]} 15 |>.
Lemma matrix_without_blocks_throws_witness : proceed_matrix stuck_db = Err divide_by_zero_exception.
Proof.
  apply (matrix_without_blocks_throws stuck_db 14 (due_matrix <| mx_start_block_number := 40000000 |>));
    vm_compute; first [reflexivity|congruence].
Defined.
