(* ===== verification/Poc.v ===== *)
(** * Proof of crowd: votes, staking, the exchange of silver

    [poc_evaluator.cpp] and [protocol/poc.cpp].  A stake is locked in a vesting
    balance together with its interest; the line of eight referrers, the GCWD fund
    and the apostolos account are rewarded, and everything that is paid beyond the
    stake is added to the current supply. *)
From S2P Require Import Prelude Safe Asset Objects Database Ledger Vesting Balance Evaluator Sample Referral Transfer.

Definition staking_reward (a p : Z) : result Z := percent_of a p.
Definition staking (d : database) : staking_parameters := d.(d_gpo).(gpo_staking_parameters).

(** ** The reward of a referrer *)

(** The credit of the referrer takes its part first: what is left of the
    reward. *)
Definition reward_after_credit (d : database) (ref reward : Z) : result (database * Z) :=
  stats ← get_statistics d ref;
  if 0 <? stats.(st_total_credit) then
    credit ← safe_sub stats.(st_total_credit) stats.(st_allowed_to_repay);
    if reward <? credit then
      d1 ← modify_statistics d ref (λ aso,
             r ← safe_add aso.(st_allowed_to_repay) reward; Ok (aso <| st_allowed_to_repay := r |>));
      Ok (d1, 0)
    else
      rest ← safe_sub reward credit;
      d1 ← close_credit d ref stats;
      Ok (d1, rest)
  else Ok (d, reward).

(** The share of the reward the status of the referrer admits at this level. *)
Definition staking_ref_amount (d : database) (status stake level percent : Z) : result Z :=
  if (0 <=? status) && (status <=? 4) && (level <=? nth (Z.to_nat status) (staking d).(sp_poc_status_levels) 0) then
    amount ← staking_reward stake percent;
    let denominator := nth (Z.to_nat status) (staking d).(sp_poc_status_denominator) 0 in
    if denominator <? 100 * GRAPHENE_1_PERCENT then staking_reward amount denominator else Ok amount
  else Ok 0.

Definition pay_staking_reward (d : database) (account ref stake level percent : Z) : result (database * Z) :=
  acc_ref ← get_account d ref;
  _ ← get_statistics d ref;
  amount ← staking_ref_amount d acc_ref.(acc_referral_status_type) stake level percent;
  if 0 <? amount then
    d1 ← (if level =? 1 then gr_reward d ref amount acc_ref.(acc_gr_team) else Ok d);
    d2 ← modify_statistics d1 ref (λ aso,
           s ← safe_add aso.(st_current_month_income) amount; Ok (aso <| st_current_month_income := s |>));
    '(d3, rest) ← reward_after_credit d2 ref amount;
    d4 ← (if 0 <? rest then
            d4 ← adjust_balance d3 ref (Asset rest CORE);
            Ok (push_applied_operation d4 (poc_staking_referal_op ref account level (Asset rest CORE)))
          else Ok d3);
    Ok (d4, amount)
  else Ok (d, 0).

(** ** poc_vote *)
Record poc_vote_operation : Type := PocVoteOp {
  pv_fee : asset; pv_account : Z; pv_poc3_vote : asset; pv_poc6_vote : asset; pv_poc12_vote : asset }.

Definition is_vote (a : asset) : result unit :=
  _ ← FC_ASSERT (0 <=? a.(amount)); FC_ASSERT (a.(asset_id) =? CORE).
Definition poc_vote_validate (op : poc_vote_operation) : result unit :=
  _ ← FC_ASSERT (0 <=? op.(pv_fee).(amount));
  _ ← is_vote op.(pv_poc3_vote); _ ← is_vote op.(pv_poc6_vote); is_vote op.(pv_poc12_vote).

Definition poc_vote_do_evaluate (d : database) (op : poc_vote_operation) : result unit :=
  _ ← get_account d op.(pv_account);
  account_stats ← get_statistics d op.(pv_account);
  _ ← FC_ASSERT account_stats.(st_had_staking);
  v ← safe_add account_stats.(st_poc3_vote) account_stats.(st_poc6_vote);
  votes ← safe_add v account_stats.(st_poc12_vote);
  _ ← FC_ASSERT (votes =? 0);
  FC_ASSERT (head_block_time d <=? d.(d_dgpo).(dgp_end_poc_vote_time)).

Definition poc_vote_do_apply (d : database) (op : poc_vote_operation) : result database :=
  n ← asset_neg op.(pv_poc3_vote);
  n ← asset_sub n op.(pv_poc6_vote);
  n ← asset_sub n op.(pv_poc12_vote);
  d1 ← adjust_balance d op.(pv_account) n;
  v ← safe_add op.(pv_poc3_vote).(amount) op.(pv_poc6_vote).(amount);
  votes ← safe_add v op.(pv_poc12_vote).(amount);
  d2 ← add_accumulated_fees d1 0 votes;
  modify_statistics d2 op.(pv_account) (λ s,
    Ok (s <| st_poc3_vote := op.(pv_poc3_vote).(amount) |> <| st_poc6_vote := op.(pv_poc6_vote).(amount) |>
          <| st_poc12_vote := op.(pv_poc12_vote).(amount) |>)).

#[export] Instance poc_vote_evaluator : Evaluator poc_vote_operation := {|
  fee_payer := pv_account; fee := pv_fee; validate := poc_vote_validate;
  do_evaluate := poc_vote_do_evaluate; do_apply := poc_vote_do_apply |}.

(** ** poc_stak *)
Record poc_stak_operation : Type := PocStakOp {
  ps_fee : asset; ps_account : Z; ps_stak_amount : asset; ps_staking_type : Z }.

Definition poc_stak_validate (op : poc_stak_operation) : result unit :=
  _ ← FC_ASSERT (0 <=? op.(ps_fee).(amount));
  _ ← FC_ASSERT (0 <? op.(ps_stak_amount).(amount));
  _ ← FC_ASSERT (op.(ps_stak_amount).(asset_id) =? CORE);
  FC_ASSERT ((op.(ps_staking_type) =? 3) || (op.(ps_staking_type) =? 6) || (op.(ps_staking_type) =? 12)).

(** The interest of the three terms, in hundredths of a percent. *)
Definition poc_percent (d : database) (staking_type : Z) : Z :=
  if staking_type =? 3 then d.(d_dgpo).(dgp_poc3_percent)
  else if staking_type =? 6 then d.(d_dgpo).(dgp_poc6_percent)
  else d.(d_dgpo).(dgp_poc12_percent).
Definition poc_min_amount (d : database) (staking_type : Z) : Z :=
  if staking_type =? 3 then (staking d).(sp_poc3_min_amount)
  else if staking_type =? 6 then (staking d).(sp_poc6_min_amount)
  else (staking d).(sp_poc12_min_amount).
Definition is_staking_type (staking_type : Z) : bool := (staking_type =? 3) || (staking_type =? 6) || (staking_type =? 12).

Definition posible_reward (d : database) (op : poc_stak_operation) : result Z :=
  if is_staking_type op.(ps_staking_type) then
    reward ← staking_reward op.(ps_stak_amount).(amount)
      (u64 (poc_percent d op.(ps_staking_type) + lsum id (staking d).(sp_poc_ref) + (staking d).(sp_poc_gcwd)));
    _ ← FC_ASSERT (poc_min_amount d op.(ps_staking_type) <=? op.(ps_stak_amount).(amount));
    Ok reward
  else Ok 0.

Definition poc_stak_do_evaluate (d : database) (op : poc_stak_operation) : result unit :=
  _ ← FC_ASSERT (op.(ps_stak_amount).(asset_id) =? CORE);
  _ ← FC_ASSERT (HARDFORK_CWD6_TIME <=? head_block_time d);
  core_asset ← get_asset d CORE;
  core_dyn_data ← get_dynamic_data d core_asset.(ao_dynamic_asset_data_id);
  reward ← posible_reward d op;
  s ← safe_add core_dyn_data.(dd_current_supply) op.(ps_stak_amount).(amount);
  total ← safe_add s reward;
  FC_ASSERT (total <=? core_asset.(ao_max_supply)).


Definition seconds_in_month : Z := 2592000.
Definition GRAPHENE_APOSTOLOS_ACCOUNT : Z := 65735.

(** A vesting balance of the staker: linear from [begin], without a cliff. *)
Definition lock_stake (d : database) (owner : Z) (balance : asset) (begin duration : Z) : result database :=
  '(_, i) ← index_create d.(d_vesting)
     (VestingBalance owner balance (linear (LinearPolicy begin 0 duration balance.(amount))));
  Ok (d <| d_vesting := i |>).

(** What is locked under each term; the result is also the interest. *)
Definition lock_staking (d : database) (op : poc_stak_operation) : result (database * Z) :=
  let now := head_block_time d in
  let stake := op.(ps_stak_amount).(amount) in
  let account := op.(ps_account) in
  if op.(ps_staking_type) =? 3 then
    interest ← staking_reward stake d.(d_dgpo).(dgp_poc3_percent);
    d1 ← lock_stake d account (Asset interest CORE) now (seconds_in_month * 3);
    d2 ← lock_stake d1 account op.(ps_stak_amount) (time_add now (seconds_in_month * 3)) 0;
    Ok (d2, interest)
  else if op.(ps_staking_type) =? 6 then
    interest ← staking_reward stake d.(d_dgpo).(dgp_poc6_percent);
    total ← safe_add interest stake;
    d1 ← lock_stake d account (Asset total CORE) (time_add now (seconds_in_month * 6)) 0;
    Ok (d1, interest)
  else if op.(ps_staking_type) =? 12 then
    interest ← staking_reward stake d.(d_dgpo).(dgp_poc12_percent);
    total ← safe_add interest stake;
    d1 ← lock_stake d account (Asset total CORE) now (seconds_in_month * 12);
    Ok (d1, interest)
  else Ok (d, 0).

(** The identifiers of the next [n] referrers above [a]. *)
Fixpoint referrer_line (n : nat) (d : database) (a : Z) : result (list Z) :=
  match n with
  | O => Ok []
  | S n =>
      acc ← get_account d a;
      _ ← get_account d acc.(acc_referrer);
      rest ← referrer_line n d acc.(acc_referrer);
      Ok (acc.(acc_referrer) :: rest)
  end.

(** The rewards of the line, from level [level] on: [accounts_set] holds the
    referrers that were not rewarded yet. *)
Fixpoint pay_staking_line (op : poc_stak_operation) (line : list Z) (level : Z) (accounts_set : gset Z)
    (d : database) (increase : Z) : result (database * Z) :=
  match line with
  | [] => Ok (d, increase)
  | ref :: line =>
      if negb (ref =? 0) && ((head_block_num d <? HARDFORK_CORE_1480_BLOCK_NUM)
           || (bool_decide (ref ∈ accounts_set) && negb (ref =? op.(ps_account)))) then
        '(d1, reward) ← pay_staking_reward d op.(ps_account) ref op.(ps_stak_amount).(amount) level
            (nth (Z.to_nat (level - 1)) (staking d).(sp_poc_ref) 0);
        increase' ← safe_add increase reward;
        pay_staking_line op line (level + 1) (accounts_set ∖ {[ ref ]}) d1 increase'
      else pay_staking_line op line (level + 1) accounts_set d increase
  end.

(** The apostolos account. *)
Definition pay_apostolos (d : database) (stake increase : Z) : result (database * Z) :=
  if HARDFORK_CWD7_TIME <=? head_block_time d then
    apostolos_amount ← staking_reward stake d.(d_gpo).(gpo_greatrace_parameters).(gr_apostolos_reward);
    increase' ← safe_add increase apostolos_amount;
    _ ← get_account d GRAPHENE_APOSTOLOS_ACCOUNT;
    d1 ← deposit_cashback d GRAPHENE_APOSTOLOS_ACCOUNT apostolos_amount false false;
    Ok (d1, increase')
  else Ok (d, increase).

Definition poc_stak_do_apply (d : database) (op : poc_stak_operation) : result database :=
  let stake := op.(ps_stak_amount).(amount) in
  d1 ← debit d op.(ps_account) op.(ps_stak_amount);
  _ ← get_account d1 op.(ps_account);
  account_stats ← get_statistics d1 op.(ps_account);
  d2 ← (if negb account_stats.(st_had_staking)
        then modify_statistics d1 op.(ps_account) (λ s, Ok (s <| st_had_staking := true |>)) else Ok d1);
  '(d3, interest) ← lock_staking d2 op;
  line ← referrer_line 8 d3 op.(ps_account);
  '(d4, increase) ← pay_staking_line op line 1 (list_to_set line) d3 interest;
  gcwd_amount ← staking_reward stake (staking d4).(sp_poc_gcwd);
  increase ← safe_add increase gcwd_amount;
  d5 ← add_accumulated_fees d4 0 gcwd_amount;
  '(d6, increase) ← pay_apostolos d5 stake increase;
  add_supply d6 0 increase.

#[export] Instance poc_stak_evaluator : Evaluator poc_stak_operation := {|
  fee_payer := ps_account; fee := ps_fee; validate := poc_stak_validate;
  do_evaluate := poc_stak_do_evaluate; do_apply := poc_stak_do_apply |}.

(** ** exchange_silver *)
Definition SILVER : Z := 4.
Record exchange_silver_operation : Type := ExchangeSilverOp {
  es_fee : asset; es_account : Z; es_amount : asset }.

Definition exchange_silver_validate (op : exchange_silver_operation) : result unit :=
  _ ← FC_ASSERT (0 <=? op.(es_fee).(amount));
  _ ← FC_ASSERT (0 <? op.(es_amount).(amount));
  FC_ASSERT (op.(es_amount).(asset_id) =? SILVER).

Definition exchange_silver_do_evaluate (d : database) (op : exchange_silver_operation) : result unit :=
  _ ← FC_ASSERT (HARDFORK_CWD6_TIME <=? head_block_time d);
  _ ← get_account d op.(es_account);
  _ ← get_asset d op.(es_amount).(asset_id);
  core_asset ← get_asset d CORE;
  core_dyn_data ← get_dynamic_data d core_asset.(ao_dynamic_asset_data_id);
  _ ← FC_ASSERT (op.(es_amount).(amount) <=? (get_balance d op.(es_account) op.(es_amount).(asset_id)).(amount));
  total ← safe_add core_dyn_data.(dd_current_supply) op.(es_amount).(amount);
  FC_ASSERT (total <=? core_asset.(ao_max_supply)).

Definition burn_silver (silver : Z) (dd : asset_dynamic_data_object) : result asset_dynamic_data_object :=
  if silver <=? dd.(dd_current_supply) then
    s ← safe_sub dd.(dd_current_supply) silver; Ok (dd <| dd_current_supply := s |>)
  else Ok (dd <| dd_current_supply := 0 |>).

Definition exchange_silver_do_apply (d : database) (op : exchange_silver_operation) : result database :=
  d1 ← debit d op.(es_account) op.(es_amount);
  d2 ← adjust_balance d1 op.(es_account) (Asset op.(es_amount).(amount) CORE);
  d3 ← add_supply d2 0 op.(es_amount).(amount);
  modify_dynamic_data d3 SILVER (burn_silver op.(es_amount).(amount)).

#[export] Instance exchange_silver_evaluator : Evaluator exchange_silver_operation := {|
  fee_payer := es_account; fee := es_fee; validate := exchange_silver_validate;
  do_evaluate := exchange_silver_do_evaluate; do_apply := exchange_silver_do_apply |}.

(** ** What the rewards bring into the books *)
#[export] Instance flows_reward_after_credit d ref reward d' rest :
  Flows (reward_after_credit d ref reward = Ok (d', rest)) d d' (λ a, core_only a (reward - rest)).
Proof.
  intros H. unfold reward_after_credit in H. apply bind_Ok in H as (stats & Hs & H). inv_ok; propify.
  - match goal with Hm : modify_statistics _ _ _ = Ok _ |- _ => apply (flow_modify_statistics_at _ _ _ _ _ Hm) end.
    intros s s' Hs' Hwf Hf. apply from_option_Ok in Hs. same_ok. inv_ok. inv_safe.
    destruct Hwf as [? ?]. split; [split; cbn; lia|]. unfold stat_held. cbn. lia.
  - match goal with Hm : close_credit _ _ _ = Ok _ |- _ => pose proof (flow_close_credit _ _ _ _ Hs Hm) as F end.
    inv_safe. apply (flow_ext _ _ _ _ F). flow_arith.
  - eapply flow_ext; [apply flow_refl|]. flow_arith.
Qed.

Lemma reward_after_credit_rest d ref reward d' rest :
  reward_after_credit d ref reward = Ok (d', rest) → 0 ≤ reward → 0 ≤ rest.
Proof. unfold reward_after_credit. intros H Hr. inv_ok; inv_safe; propify; lia. Qed.

#[export] Instance flows_pay_staking_reward d account ref stake level percent d' reward :
  Flows (pay_staking_reward d account ref stake level percent = Ok (d', reward)) d d' (λ a, core_only a reward).
Proof.
  intros H. unfold pay_staking_reward in H. apply bind_Ok in H as (acc & _ & H).
  apply bind_Ok in H as (? & _ & H). apply bind_Ok in H as (amt & _ & H).
  destruct (Z.ltb_spec 0 amt); [|inv_ok; solve_flow].
  apply bind_Ok in H as (d1 & H1 & H).
  assert (flow d d1 (λ _, 0)) as F1.
  { destruct (level =? 1); [by eapply gr_reward_neutral|]. clear H. inv_ok. solve_flow. }
  clear H1. apply bind_Ok in H as (d2 & H2 & H). apply bind_Ok in H as ([d3 rest] & H3 & H).
  apply bind_Ok in H as (d4 & H4 & H). pose proof (reward_after_credit_rest _ _ _ _ _ H3).
  inv_ok; propify; solve_flow.
Qed.

#[export] Instance flows_lock_stake d owner b begin duration d' :
  Flows (lock_stake d owner b begin duration = Ok d') d d' (λ a, of_asset a b).
Proof.
  intros H. unfold lock_stake in H. inv_ok.
  match goal with H : index_create _ _ = Ok _ |- _ => exact (flow_create_vesting _ _ _ _ H) end.
Qed.

Lemma flow_lock_staking d op d' interest :
  poc_stak_validate op = Ok tt → lock_staking d op = Ok (d', interest) →
  flow d d' (λ a, core_only a (op.(ps_stak_amount).(amount) + interest)).
Proof.
  unfold poc_stak_validate, lock_staking. intros Hv H. destruct (ps_stak_amount op) as [stake id] eqn:E.
  inv_ok; propify; cbn in *; subst; inv_safe; solve [solve_flow | lia].
Qed.

#[export] Instance flows_pay_staking_line op line level accounts_set d increase d' increase' :
  Flows (pay_staking_line op line level accounts_set d increase = Ok (d', increase')) d d'
    (λ a, core_only a (increase' - increase)).
Proof.
  intros H. revert level accounts_set d increase H. induction line as [|ref line IH]; intros level set d increase H; cbn in H.
  { inv_ok. eapply flow_ext; [apply flow_refl|]. flow_arith. }
  case_match; [|by eapply IH]. apply bind_Ok in H as ([d1 reward] & H1 & H). apply bind_Ok in H as (inc & H2 & H).
  apply IH in H. inv_safe. solve_flow.
Qed.

#[export] Instance flows_pay_apostolos d stake increase d' increase' :
  Flows (pay_apostolos d stake increase = Ok (d', increase')) d d' (λ a, core_only a (increase' - increase)).
Proof.
  unfold pay_apostolos. intros H. inv_ok; inv_safe; [solve_flow|]. eapply flow_ext; [apply flow_refl|]. flow_arith.
Qed.

(** ** The operations of staking conserve value *)
#[export] Instance poc_stak_conserving : Conserving poc_stak_operation.
Proof.
  open_conserving. unfold poc_stak_do_apply in H.
  apply bind_Ok in H as (d2 & H2 & H). apply bind_Ok in H as (? & _ & H). apply bind_Ok in H as (st & _ & H).
  apply bind_Ok in H as (d3 & H3 & H).
  assert (flow d2 d3 (λ _, 0)) as F3 by (clear -H3; inv_ok; solve_flow). clear H3.
  apply bind_Ok in H as ([d4 interest] & H4 & H). apply (flow_lock_staking _ _ _ _ Hval) in H4.
  unfold poc_stak_validate in Hval. clear Heval. inv_ok. inv_safe. propify. solve_flow.
Qed.

#[export] Instance poc_vote_conserving : Conserving poc_vote_operation.
Proof.
  open_conserving. unfold poc_vote_validate, is_vote in Hval. unfold poc_vote_do_apply, asset_neg, asset_sub in H.
  clear Heval. inv_ok. inv_safe. propify. solve_flow.
Qed.

(** ** The supply while a stake is applied

    Nothing before the last step issues core, and the parameters stay. *)
Definition core_supply (d : database) : Z := from_option dd_current_supply 0 (d.(d_dynamic_data) !! 0).

Definition calm (d d' : database) : Prop := d'.(d_gpo) = d.(d_gpo) ∧ core_supply d' ≤ core_supply d.
#[export] Instance calm_preorder : PreOrder calm.
Proof. split; [done|]. intros d1 d2 d3 [? ?] [? ?]. split; [congruence|lia]. Qed.

Class Calms (P : Prop) (d d' : database) : Prop := calms : P → calm d d'.
#[export] Hint Mode Calms + - - : typeclass_instances.

Ltac calm_steps :=
  repeat match goal with
  | H : ?P |- _ => lazymatch P with _ = Ok _ => idtac end; apply (calms (P:=P)) in H
  end.
Ltac solve_calm :=
  calm_steps; unfold calm, core_supply, push_applied_operation in *; destruct_and?; cbn in *; split; [congruence|lia].

#[export] Instance calms_adjust_balance d acc delta d' : Calms (adjust_balance d acc delta = Ok d') d d'.
Proof. intros H. by rewrite (adjust_balance_frame _ _ _ _ H). Qed.
#[export] Instance calms_debit d acc delta d' : Calms (debit d acc delta = Ok d') d d'.
Proof. intros H. by rewrite (debit_frame _ _ _ _ H). Qed.
#[export] Instance calms_modify_statistics d o f d' : Calms (modify_statistics d o f = Ok d') d d'.
Proof. intros H. by rewrite (modify_statistics_frame _ _ _ _ H). Qed.
#[export] Instance calms_modify_account d o f d' : Calms (modify_account d o f = Ok d') d d'.
Proof. intros H. by apply modify_account_Ok in H as (? & ? & _ & _ & ->). Qed.
#[export] Instance calms_lock_stake d owner b begin duration d' : Calms (lock_stake d owner b begin duration = Ok d') d d'.
Proof. intros H. unfold lock_stake in H. by inv_ok. Qed.
#[export] Instance calms_add_accumulated_fees d z d' : Calms (add_accumulated_fees d 0 z = Ok d') d d'.
Proof.
  intros H. apply modify_dynamic_data_Ok in H as (x & x' & Hx & Hf & ->). inv_ok.
  split; [done|]. unfold core_supply. cbn. by rewrite lookup_insert_eq, Hx.
Qed.
Lemma calm_sub_supply d z d' : 0 ≤ z → sub_supply d 0 z = Ok d' → calm d d'.
Proof.
  intros Hz H. apply modify_dynamic_data_Ok in H as (x & x' & Hx & Hf & ->). inv_ok. inv_safe.
  split; [done|]. unfold core_supply. cbn. rewrite lookup_insert_eq, Hx. cbn. lia.
Qed.

Lemma calm_close_credit d acct stats d' :
  0 ≤ stats.(st_total_credit) → close_credit d acct stats = Ok d' → calm d d'.
Proof.
  intros Hc H. unfold close_credit in H. inv_ok; [|solve_calm].
  match goal with H : sub_supply _ _ _ = Ok _ |- _ => apply (calm_sub_supply _ _ _ Hc) in H end. solve_calm.
Qed.
#[export] Instance calms_repay_credit d acct amt d' rest : Calms (repay_credit d acct amt = Ok (d', rest)) d d'.
Proof.
  intros H. unfold repay_credit in H. inv_ok; propify; [solve_calm| |reflexivity].
  match goal with H : close_credit _ _ _ = Ok _ |- _ => apply calm_close_credit in H; [done|lia] end.
Qed.
#[export] Instance calms_reward_after_credit d ref reward d' rest :
  Calms (reward_after_credit d ref reward = Ok (d', rest)) d d'.
Proof.
  intros H. unfold reward_after_credit in H. inv_ok; propify; [solve_calm| |reflexivity].
  match goal with H : close_credit _ _ _ = Ok _ |- _ => apply calm_close_credit in H; [done|lia] end.
Qed.
#[export] Instance calms_deposit_lazy_vesting d o amt secs owner rv o' d' :
  Calms (deposit_lazy_vesting d o amt secs owner rv = Ok (o', d')) d d'.
Proof. intros H. unfold deposit_lazy_vesting in H. inv_ok; solve_calm. Qed.
Lemma calm_deposit_cashback d acct amt rv ci d' :
  is_blockchain_account acct = false → deposit_cashback d acct amt rv ci = Ok d' → calm d d'.
Proof. intros Hb H. unfold deposit_cashback in H. rewrite Hb in H. inv_ok; solve_calm. Qed.
#[export] Instance calms_gr_reward d ref reward team d' : Calms (gr_reward d ref reward team = Ok d') d d'.
Proof. intros H. unfold gr_reward in H. inv_ok; solve_calm. Qed.

(** ** The amounts of the rewards *)
Definition stake_ok (stake : Z) : Prop := 0 < stake ≤ GRAPHENE_MAX_SHARE_SUPPLY.
(** Every rate is a 16-bit percentage; the votes keep the interest below
    [10000] percent. *)
Definition rate_ok (p : Z) : Prop := 0 ≤ p < 1000000.

(** [share stake p r]: [r] is at most [p] hundredths of a percent of the stake. *)
Definition share (stake p r : Z) : Prop := 0 ≤ r ∧ GRAPHENE_100_PERCENT * r ≤ stake * p.

Lemma staking_reward_share stake p r : 0 ≤ stake ≤ GRAPHENE_MAX_SHARE_SUPPLY → rate_ok p → staking_reward stake p = Ok r → share stake p r.
Proof.
  unfold rate_ok, share, staking_reward, GRAPHENE_MAX_SHARE_SUPPLY. intros Hs Hp.
  rewrite percent_of_exact.
  - intros [= <-]. unfold GRAPHENE_100_PERCENT. split; [apply Z.div_pos; nia|apply Z.mul_div_le; lia].
  - unfold int64_max. lia.
  - lia.
  - unfold GRAPHENE_100_PERCENT, int64_max. apply Z.div_le_upper_bound; nia.
Qed.

Lemma denominator_share stake p q amt r :
  0 ≤ stake ≤ GRAPHENE_MAX_SHARE_SUPPLY → rate_ok p → 0 ≤ q < 100 * GRAPHENE_1_PERCENT →
  staking_reward stake p = Ok amt → staking_reward amt q = Ok r → share stake p r.
Proof.
  intros Hs Hp Hq H1 H2. apply staking_reward_share in H1; [|done|done].
  unfold share, rate_ok, staking_reward, GRAPHENE_100_PERCENT, GRAPHENE_1_PERCENT, GRAPHENE_MAX_SHARE_SUPPLY in *.
  apply percent_of_Ok_bound in H2; [lia|unfold int64_max; nia|unfold GRAPHENE_100_PERCENT; lia].
Qed.

Record staking_wf (d : database) : Prop := {
  sw_refs : Forall (λ p, 0 ≤ p < 65536) (staking d).(sp_poc_ref);
  sw_levels : length (staking d).(sp_poc_ref) = 8%nat;
  sw_gcwd : 0 ≤ (staking d).(sp_poc_gcwd) < 65536;
  sw_denominators : Forall (λ q, 0 ≤ q) (staking d).(sp_poc_status_denominator) }.

Lemma sw_nth_ref d n : staking_wf d → rate_ok (nth n (staking d).(sp_poc_ref) 0).
Proof.
  intros [H _ _ _]. destruct (nth_in_or_default n (staking d).(sp_poc_ref) 0) as [Hin| ->]; [|done].
  apply list_elem_of_In in Hin. rewrite Forall_forall in H. specialize (H _ Hin). unfold rate_ok. lia.
Qed.
Lemma sw_nth_denominator d n : staking_wf d → 0 ≤ nth n (staking d).(sp_poc_status_denominator) 0.
Proof.
  intros [_ _ _ H]. destruct (nth_in_or_default n (staking d).(sp_poc_status_denominator) 0) as [Hin| ->]; [|done].
  apply list_elem_of_In in Hin. rewrite Forall_forall in H. by apply H.
Qed.
Lemma sw_calm d d' : calm d d' → staking_wf d → staking_wf d'.
Proof. intros [E _] [? ? ? ?]. by split; unfold staking; rewrite E. Qed.

Lemma staking_ref_amount_share d status stake level p r :
  staking_wf d → 0 ≤ stake ≤ GRAPHENE_MAX_SHARE_SUPPLY → rate_ok p →
  staking_ref_amount d status stake level p = Ok r → share stake p r.
Proof.
  intros Hd Hs Hp H. unfold staking_ref_amount in H. inv_ok; propify.
  - eapply denominator_share; [done|done| |done|done]. split; [by apply sw_nth_denominator|done].
  - by apply staking_reward_share.
  - unfold share, rate_ok in *. nia.
Qed.

Lemma pay_staking_reward_share d account ref stake level p d' r :
  staking_wf d → 0 ≤ stake ≤ GRAPHENE_MAX_SHARE_SUPPLY → rate_ok p →
  pay_staking_reward d account ref stake level p = Ok (d', r) → calm d d' ∧ share stake p r.
Proof.
  intros Hd Hs Hp H. unfold pay_staking_reward in H. apply bind_Ok in H as (acc & _ & H).
  apply bind_Ok in H as (? & _ & H). apply bind_Ok in H as (amt & Ha & H).
  apply (staking_ref_amount_share _ _ _ _ _ _ Hd Hs Hp) in Ha.
  destruct (0 <? amt); [|inv_ok; split; [done|unfold share, rate_ok in *; nia]].
  inv_ok; (split; [solve_calm|done]).
Qed.

Lemma pay_staking_line_share op line level set d inc d' inc' :
  staking_wf d → 0 ≤ op.(ps_stak_amount).(amount) ≤ GRAPHENE_MAX_SHARE_SUPPLY → 1 ≤ level →
  pay_staking_line op line level set d inc = Ok (d', inc') →
  calm d d' ∧ inc ≤ inc' ∧ GRAPHENE_100_PERCENT * (inc' - inc) ≤
    op.(ps_stak_amount).(amount) * lsum (λ k, nth k (staking d).(sp_poc_ref) 0) (seq (Z.to_nat (level - 1)) (length line)).
Proof.
  intros Hd Hs. revert level set d inc Hd. induction line as [|ref line IH]; intros level set d inc Hd Hl H; cbn in H.
  { inv_ok. split; [done|]. cbn. lia. }
  cbn [length seq lsum]. replace (S (Z.to_nat (level - 1))) with (Z.to_nat (level + 1 - 1)) by lia.
  pose proof (sw_nth_ref d (Z.to_nat (level - 1)) Hd) as Hp. case_match.
  - apply bind_Ok in H as ([d1 r] & H1 & H). apply bind_Ok in H as (inc1 & H2 & H). inv_safe.
    apply pay_staking_reward_share in H1 as [C1 S1]; [|done..].
    apply IH in H as (C2 & I2 & B2); [|by eapply sw_calm|lia].
    unfold staking in *. rewrite (proj1 C1) in B2. split; [by etrans|]. unfold share in S1. lia.
  - apply IH in H as (C2 & I2 & B2); [|done|lia]. split; [done|]. unfold rate_ok in Hp. nia.
Qed.

Lemma lsum_seq_S (f : nat → Z) n k : lsum f (seq (S n) k) = lsum (λ i, f (S i)) (seq n k).
Proof. revert n. induction k as [|k IH]; intros n; cbn [seq lsum]; [done|]. by rewrite IH. Qed.

Lemma lsum_nth (l : list Z) : lsum (λ k, nth k l 0) (seq 0 (length l)) = lsum id l.
Proof. induction l as [|x l IH]; cbn [length seq lsum nth]; [done|]. by rewrite lsum_seq_S, IH. Qed.

Lemma referrer_line_length n d a line : referrer_line n d a = Ok line → length line = n.
Proof. revert a line. induction n as [|n IH]; intros a line H; cbn in H; inv_ok; [done|]. cbn. f_equal. by eapply IH. Qed.

Lemma lock_staking_share d op d' interest :
  0 ≤ op.(ps_stak_amount).(amount) ≤ GRAPHENE_MAX_SHARE_SUPPLY → rate_ok (poc_percent d op.(ps_staking_type)) →
  is_staking_type op.(ps_staking_type) = true → lock_staking d op = Ok (d', interest) →
  calm d d' ∧ share op.(ps_stak_amount).(amount) (poc_percent d op.(ps_staking_type)) interest.
Proof.
  unfold lock_staking, poc_percent, is_staking_type. intros Hs Hp Ht H. inv_ok; try done;
    (split; [solve_calm|by eapply staking_reward_share]).
Qed.

Lemma pay_apostolos_share d stake inc d' inc' :
  0 ≤ stake ≤ GRAPHENE_MAX_SHARE_SUPPLY → 0 ≤ d.(d_gpo).(gpo_greatrace_parameters).(gr_apostolos_reward) ≤ GRAPHENE_100_PERCENT →
  pay_apostolos d stake inc = Ok (d', inc') → calm d d' ∧ inc ≤ inc' ≤ inc + stake.
Proof.
  intros Hs Hp H. unfold pay_apostolos in H. inv_ok; [|split; [done|lia]]. inv_safe.
  match goal with H : deposit_cashback _ _ _ _ _ = Ok _ |- _ => apply calm_deposit_cashback in H; [|done] end.
  match goal with H : staking_reward _ _ = Ok _ |- _ => apply staking_reward_share in H; [|done|] end.
  - split; [done|]. unfold share, GRAPHENE_100_PERCENT in *. nia.
  - unfold rate_ok, GRAPHENE_100_PERCENT in *. lia.
Qed.

(** All that a stake issues: the interest, the line and the fund stay within
    what the evaluator reserved, the apostolos account within the stake. *)
Lemma poc_stak_issue d op d' :
  staking_wf d → rate_ok (poc_percent d op.(ps_staking_type)) →
  0 ≤ d.(d_gpo).(gpo_greatrace_parameters).(gr_apostolos_reward) ≤ GRAPHENE_100_PERCENT →
  0 ≤ op.(ps_stak_amount).(amount) ≤ GRAPHENE_MAX_SHARE_SUPPLY → is_staking_type op.(ps_staking_type) = true →
  poc_stak_do_apply d op = Ok d' → ∃ r,
  share op.(ps_stak_amount).(amount)
    (poc_percent d op.(ps_staking_type) + lsum id (staking d).(sp_poc_ref) + (staking d).(sp_poc_gcwd)) r ∧
  core_supply d' ≤ core_supply d + r + op.(ps_stak_amount).(amount).
Proof.
  intros Hd Hp Ha Hs Ht H. unfold poc_stak_do_apply in H.
  apply bind_Ok in H as (d1 & H1 & H). pose proof (debit_frame _ _ _ _ H1) as E1. apply calms in H1.
  apply bind_Ok in H as (? & _ & H). apply bind_Ok in H as (st & _ & H). apply bind_Ok in H as (d2 & H2 & H).
  assert (calm d1 d2 ∧ d2.(d_dgpo) = d1.(d_dgpo)) as [C2 E2].
  { clear H. inv_ok; [|done]. split; [solve_calm|].
    match goal with Hm : modify_statistics _ _ _ = Ok _ |- _ => by rewrite (modify_statistics_frame _ _ _ _ Hm) end. }
  clear H2. apply bind_Ok in H as ([d3 interest] & H3 & H).
  assert (∀ t, poc_percent d2 t = poc_percent d t) as Ep by (intros t; unfold poc_percent; rewrite E2, E1; done).
  apply lock_staking_share in H3 as [C3 S3]; [|done|by rewrite Ep|done]. rewrite Ep in S3.
  apply bind_Ok in H as (line & Hline & H). apply referrer_line_length in Hline.
  apply bind_Ok in H as ([d4 inc] & H4 & H).
  assert (calm d d3) as C by (etrans; [exact H1|]; by etrans).
  apply pay_staking_line_share in H4 as (C4 & I4 & B4); [|by eapply sw_calm|done|lia].
  assert (calm d d4) as C' by by etrans. unfold staking in *. rewrite (proj1 C') in H. rewrite (proj1 C), Hline in B4.
  rewrite <-(sw_levels _ Hd), lsum_nth in B4.
  apply bind_Ok in H as (g & Hg & H). apply bind_Ok in H as (inc2 & Hi & H). apply bind_Ok in H as (d5 & H5 & H).
  apply staking_reward_share in Hg; [|done|destruct Hd; unfold rate_ok; unfold staking in *; lia].
  apply calms in H5. apply bind_Ok in H as ([d6 inc3] & H6 & H).
  apply pay_apostolos_share in H6 as [C6 I6]; [|done|by rewrite (proj1 H5), (proj1 C')].
  apply modify_dynamic_data_Ok in H as (dd & dd' & Hdd & Hf & ->). inv_ok. inv_safe.
  exists (interest + (inc - interest) + g). split; [unfold share, staking in *; lia|].
  assert (core_supply d6 ≤ core_supply d) as B by (apply (transitivity C' (transitivity H5 C6))).
  unfold core_supply in *. cbn. rewrite lookup_insert_eq. rewrite Hdd in B. cbn in *. lia.
Qed.

(** ** What a stake is worth to the staker *)

(** The amount that can be withdrawn at [t] from the vesting balances of an account. *)
Definition withdrawable (owner t : Z) (v : vesting_balance_object) : Z :=
  if v.(vb_owner) =? owner then ok_or 0 (amount <$> vbo_get_allowed_withdraw v t) else 0.
Definition claims (d : database) (owner t : Z) : Z := isum (withdrawable owner t) d.(d_vesting).

(** A linear balance nothing was withdrawn from yet. *)
Definition fresh_lock (owner : Z) (b : asset) (begin duration : Z) : vesting_balance_object :=
  VestingBalance owner b (linear (LinearPolicy begin 0 duration b.(amount))).

Lemma lock_stake_claims d owner b begin duration d' t :
  lock_stake d owner b begin duration = Ok d' →
  claims d' owner t = claims d owner t + withdrawable owner t (fresh_lock owner b begin duration).
Proof.
  intros H. unfold lock_stake in H. inv_ok.
  match goal with H : index_create _ _ = Ok _ |- _ => apply index_create_Ok in H as (-> & Hn & ->) end.
  unfold claims. cbn. by rewrite isum_create.
Qed.

Lemma fresh_lock_before owner b begin duration t : t ≤ begin → withdrawable owner t (fresh_lock owner b begin duration) = 0.
Proof.
  intros Ht. unfold withdrawable, vbo_get_allowed_withdraw. cbn. rewrite Z.eqb_refl.
  unfold linear_vesting.get_allowed_withdraw. cbn. destruct (Z.ltb_spec begin t); [lia|done].
Qed.

Lemma fresh_lock_during owner b begin duration t :
  0 ≤ b.(amount) ≤ int64_max → 0 ≤ begin < t → 0 ≤ duration < 4294967296 →
  0 ≤ withdrawable owner t (fresh_lock owner b begin duration) ≤ b.(amount) ∧
  (duration ≤ t - begin → withdrawable owner t (fresh_lock owner b begin duration) = b.(amount)).
Proof.
  intros Hb Ht Hd. unfold withdrawable, vbo_get_allowed_withdraw. cbn. rewrite Z.eqb_refl.
  unfold linear_vesting.get_allowed_withdraw. cbn.
  destruct (Z.ltb_spec begin t); [|lia]. destruct (Z.leb_spec 0 (t - begin)); [|lia].
  destruct (total_vested_Ok (LinearPolicy begin 0 duration b.(amount)) b (t - begin)) as (v & Hv & Hr & _).
  { repeat split; cbn; lia. }
  { lia. }
  cbn in Hr. rewrite Hv. cbn. rewrite safe_sub_in by solve_int64. cbn. rewrite safe_sub_in by solve_int64. cbn.
  split; [lia|]. intros Hdur. unfold linear_vesting.total_vested in Hv. cbn in Hv.
  destruct (Z.ltb_spec (t - begin) duration); [lia|]. injection Hv as <-. lia.
Qed.

(** The evaluator's reserve is the exact share, so it covers what is issued. *)
Lemma reserved_covers d stake p r x :
  staking_wf d → rate_ok p → 0 ≤ stake ≤ GRAPHENE_MAX_SHARE_SUPPLY →
  staking_reward stake (u64 (p + lsum id (staking d).(sp_poc_ref) + (staking d).(sp_poc_gcwd))) = Ok x →
  share stake (p + lsum id (staking d).(sp_poc_ref) + (staking d).(sp_poc_gcwd)) r → r ≤ x.
Proof.
  intros [Hf Hl Hg _] Hp Hs Hx [_ Hr].
  assert (0 ≤ lsum id (staking d).(sp_poc_ref) ≤ 65536 * Z.of_nat (length (staking d).(sp_poc_ref))) as Hsum.
  { clear -Hf. induction Hf as [|y l Hy _ IH]; cbn [lsum length]; [lia|]. change (id y) with y. cbv beta in Hy. lia. }
  rewrite Hl in Hsum. unfold rate_ok, staking_reward, GRAPHENE_MAX_SHARE_SUPPLY, GRAPHENE_100_PERCENT in *.
  set (q := p + _ + _) in *. rewrite u64_small in Hx by (unfold uint64_mod; lia).
  rewrite percent_of_exact in Hx; unfold int64_max, GRAPHENE_100_PERCENT in *.
  - injection Hx as <-. apply Z.div_le_lower_bound; lia.
  - lia.
  - lia.
  - apply Z.div_le_upper_bound; nia.
Qed.

(** ** The rewarded referrers

    From block 1480 of the fork on, the line rewards the first occurrence of
    every account but the committee and the staker: [seen] holds the accounts
    of the lower levels. *)
Fixpoint rewarded (account : Z) (seen : list Z) (level : Z) (line : list Z) : list (Z * Z) :=
  match line with
  | [] => []
  | ref :: line =>
      if bool_decide (ref ≠ 0 ∧ ref ≠ account ∧ (ref ∉ seen))
      then (level, ref) :: rewarded account (ref :: seen) (level + 1) line
      else rewarded account (ref :: seen) (level + 1) line
  end.

Definition pay_level (op : poc_stak_operation) (st : database * Z) (x : Z * Z) : result (database * Z) :=
  '(d1, reward) ← pay_staking_reward st.1 op.(ps_account) x.2 op.(ps_stak_amount).(amount) x.1
      (nth (Z.to_nat (x.1 - 1)) (staking st.1).(sp_poc_ref) 0);
  increase ← safe_add st.2 reward;
  Ok (d1, increase).

#[export] Instance globals_reward_after_credit d ref reward d' rest :
  Globals (reward_after_credit d ref reward = Ok (d', rest)) d d'.
Proof. intros H. unfold reward_after_credit, close_credit in H. inv_ok; solve_globals. Qed.
#[export] Instance globals_gr_reward d ref reward team d' : Globals (gr_reward d ref reward team = Ok d') d d'.
Proof. intros H. by eapply gr_reward_neutral. Qed.
#[export] Instance globals_pay_staking_reward d account ref stake level p d' r :
  Globals (pay_staking_reward d account ref stake level p = Ok (d', r)) d d'.
Proof. intros H. unfold pay_staking_reward in H. inv_ok; solve_globals. Qed.

Lemma pay_staking_line_rewarded op line level seen (set : gset Z) d inc :
  HARDFORK_CORE_1480_BLOCK_NUM ≤ head_block_num d →
  (∀ r, r ∈ line → r ≠ 0 → r ≠ op.(ps_account) → (r ∈ set ↔ r ∉ seen)) →
  pay_staking_line op line level set d inc = foldM (pay_level op) (d, inc) (rewarded op.(ps_account) seen level line).
Proof.
  revert level seen set d inc. induction line as [|ref line IH]; intros level seen set d inc Hf Hset; [done|].
  cbn [pay_staking_line rewarded]. destruct (Z.ltb_spec (head_block_num d) HARDFORK_CORE_1480_BLOCK_NUM); [lia|].
  pose proof (Hset ref ltac:(left)) as Href. cbn [orb].
  replace (negb (ref =? 0) && (bool_decide (ref ∈ set) && negb (ref =? ps_account op)))
    with (bool_decide (ref ≠ 0 ∧ ref ≠ op.(ps_account) ∧ (ref ∉ seen))).
  2: { apply eq_true_iff_eq. rewrite bool_decide_eq_true, !andb_true_iff, !negb_true_iff, !Z.eqb_neq, bool_decide_eq_true.
       naive_solver. }
  case_bool_decide as Hb.
  - cbn [foldM]. change (pay_level op (d, inc) (level, ref)) with
      ('(d1, reward) ← pay_staking_reward d op.(ps_account) ref op.(ps_stak_amount).(amount) level
         (nth (Z.to_nat (level - 1)) (staking d).(sp_poc_ref) 0); i ← safe_add inc reward; Ok (d1, i)).
    destruct (pay_staking_reward _ _ _ _ _ _) as [[d1 r]|] eqn:E; cbn; [|reflexivity]. apply globals in E.
    destruct (safe_add inc r); cbn; [|reflexivity]. apply IH.
    + unfold head_block_num. by rewrite (proj1 (proj2 E)).
    + intros x Hx H0 Ha. rewrite elem_of_difference, elem_of_singleton, not_elem_of_cons.
      rewrite (Hset x ltac:(by right) H0 Ha). tauto.
  - apply IH; [done|]. intros x Hx H0 Ha. rewrite not_elem_of_cons, (Hset x ltac:(by right) H0 Ha).
    destruct (decide (x = ref)) as [->|]; tauto.
Qed.

Lemma rewarded_elem account seen level line r :
  r ∈ (rewarded account seen level line).*2 ↔ r ∈ line ∧ r ≠ 0 ∧ r ≠ account ∧ (r ∉ seen).
Proof.
  revert seen level. induction line as [|ref line IH]; intros seen level; cbn; [set_solver|].
  case_bool_decide as Hb; cbn; rewrite ?elem_of_cons, IH; destruct (decide (r = ref)) as [->|]; set_solver.
Qed.
Lemma rewarded_NoDup account seen level line : NoDup (rewarded account seen level line).*2.
Proof.
  revert seen level. induction line as [|ref line IH]; intros seen level; cbn; [constructor|].
  case_bool_decide; cbn; [|done]. constructor; [|done]. rewrite rewarded_elem. set_solver.
Qed.

(** ** The supply of the two assets of the exchange of silver *)
Lemma supply_modify_at d k f d' z a :
  modify_dynamic_data d k f = Ok d' →
  (∀ s s', d.(d_dynamic_data) !! k = Some s → f s = Ok s' → s'.(dd_current_supply) = s.(dd_current_supply) + z) →
  supply d' a = supply d a + at_id k a z.
Proof.
  intros H Hf. apply modify_dynamic_data_Ok in H as (s & s' & Hs & Hs' & ->). specialize (Hf _ _ Hs Hs').
  unfold supply. cbn. rewrite (msum_insert_Some _ _ _ _ _ Hs). unfold dyn_supply, at_id. case_match; lia.
Qed.

(** Burning silver the supply covers. *)
Lemma flow_burn_silver d x silver d' :
  get_dynamic_data d SILVER = Ok silver → x ≤ silver.(dd_current_supply) →
  modify_dynamic_data d SILVER (burn_silver x) = Ok d' →
  flow d d' (λ a, at_id SILVER a x) ∧ ∀ a, supply d' a = supply d a + at_id SILVER a (- x).
Proof.
  intros Hs Hx H. apply from_option_Ok in Hs. split.
  - apply modify_dynamic_data_Ok in H as (s & s' & Hs0 & Hf & ->). same_ok. unfold burn_silver in Hf.
    inv_ok; propify; [inv_safe|lia]. apply flow_table; [done..|]. intros a.
    rewrite imb_dynamic_data, !(msum_diff _ _ _ _ _ Hs). unfold dyn_held, dyn_supply, core_only, at_id. cbn.
    repeat case_match; lia.
  - intros a. eapply supply_modify_at; [exact H|]. intros s s' Hs0 Hf. same_ok. unfold burn_silver in Hf.
    inv_ok; propify; inv_safe; cbn; lia.
Qed.

(** Replaces what each new lock allows at [t] by its bounds. *)
Ltac lock_facts t :=
  repeat match goal with H : lock_stake _ _ _ _ _ = Ok _ |- _ => apply (lock_stake_claims _ _ _ _ _ _ t) in H end;
  repeat match goal with H : context [withdrawable ?o t (fresh_lock ?o ?b ?begin ?duration)] |- _ =>
    pose proof (fresh_lock_before o b begin duration t); pose proof (fresh_lock_during o b begin duration t);
    let w := fresh "w" in set (w := withdrawable o t (fresh_lock o b begin duration)) in *; clearbody w
  end;
  unfold int64_max in *; cbn in *.

(** ** Properties of staking *)

(** C33. A stake never takes the core asset over its maximal supply: what the
    evaluator checks beforehand covers the interest, the rewards of the eight
    referrers, the fund and the apostolos account, whatever credits the
    rewards repay on the way. *)
Theorem staking_within_max_supply d op d' core
  (Ha : assets_ok d) (Hd : staking_wf d) (Hp : rate_ok (poc_percent d op.(ps_staking_type)))
  (Hr : 0 ≤ d.(d_gpo).(gpo_greatrace_parameters).(gr_apostolos_reward) ≤ GRAPHENE_100_PERCENT)
  (Hs : op.(ps_stak_amount).(amount) ≤ GRAPHENE_MAX_SHARE_SUPPLY) (Hcore : get_asset d CORE = Ok core)
  (Hv : poc_stak_validate op = Ok tt) (He : poc_stak_do_evaluate d op = Ok tt)
  (H : poc_stak_do_apply d op = Ok d') :
  core_supply d' ≤ core.(ao_max_supply).
Proof.
  assert (is_staking_type op.(ps_staking_type) = true) as Ht
    by (unfold poc_stak_validate in Hv; unfold is_staking_type; by inv_ok).
  assert (0 ≤ op.(ps_stak_amount).(amount)) as H0 by (unfold poc_stak_validate in Hv; inv_ok; propify; lia).
  destruct (poc_stak_issue _ _ _ Hd Hp Hr (conj H0 Hs) Ht H) as (r & Sr & B).
  unfold poc_stak_do_evaluate, posible_reward in He. rewrite Ht in He. clear H Hv. inv_ok. same_ok. inv_safe. propify.
  match goal with H : get_asset _ _ = Ok _ |- _ => apply index_get_Ok in H; apply Ha in H as [Hid _]; cbn in Hid end.
  match goal with H : staking_reward _ _ = Ok _, H1 : get_dynamic_data _ _ = Ok _ |- _ =>
    rename H into Hpos; rename H1 into Hdd end.
  rewrite Hid in Hdd. apply from_option_Ok in Hdd. change CORE with 0 in Hdd. unfold core_supply in B at 2. rewrite Hdd in B. cbn in B.
  pose proof (reserved_covers d _ _ r _ Hd Hp (conj H0 Hs) Hpos Sr). lia.
Qed.

(** C34. A stake is returned in full with its interest: once the term is over
    the staker can withdraw both, and under the terms of three and six months
    nothing of the stake itself before. *)
Theorem stake_matures d op d' interest t
  (Hv : poc_stak_validate op = Ok tt) (Hs : op.(ps_stak_amount).(amount) ≤ GRAPHENE_MAX_SHARE_SUPPLY)
  (Hp : rate_ok (poc_percent d op.(ps_staking_type))) (H : lock_staking d op = Ok (d', interest))
  (Ht : 0 ≤ head_block_time d < t)
  (Hend : head_block_time d + seconds_in_month * op.(ps_staking_type) < 4294967296) :
  let term := seconds_in_month * op.(ps_staking_type) in
  (head_block_time d + term < t →
     claims d' op.(ps_account) t = claims d op.(ps_account) t + op.(ps_stak_amount).(amount) + interest) ∧
  (op.(ps_staking_type) ≠ 12 → t ≤ head_block_time d + term →
     claims d op.(ps_account) t ≤ claims d' op.(ps_account) t ≤ claims d op.(ps_account) t + interest).
Proof.
  set (stake := op.(ps_stak_amount).(amount)) in *.
  assert (0 ≤ stake) as H0 by (unfold poc_stak_validate in Hv; inv_ok; propify; subst stake; lia).
  assert (0 ≤ interest ≤ int64_max - stake) as Hi.
  { unfold poc_stak_validate in Hv. inv_ok. apply lock_staking_share in H as [_ [? Hb]]; [|done..].
    unfold rate_ok, GRAPHENE_MAX_SHARE_SUPPLY, GRAPHENE_100_PERCENT, int64_max in *. fold stake in Hb. nia. }
  assert (op.(ps_staking_type) = 3 ∨ op.(ps_staking_type) = 6 ∨ op.(ps_staking_type) = 12) as Hty
    by (unfold poc_stak_validate in Hv; inv_ok; propify; lia).
  intros term. unfold lock_staking, seconds_in_month, int64_max, time_add in *. fold stake in H. clear Hv Hp.
  destruct Hty as [Hty|[Hty|Hty]]; rewrite Hty in *; cbn in H; rewrite ?u32_small in H by lia; inv_ok; try done; inv_safe;
    subst term; rewrite Hty; lock_facts t; subst stake; lia.
Qed.

(** C35. Since the fork the rewards of a stake go once to every account of the
    line of referrers, at its lowest level, and never to the committee account
    or to the staker, however the line loops: the loop of the evaluator over its
    shrinking set is the plain loop over those accounts. *)
Theorem staking_line_rewards_once op line d increase
  (Hf : HARDFORK_CORE_1480_BLOCK_NUM ≤ head_block_num d) :
  pay_staking_line op line 1 (list_to_set line) d increase =
    foldM (pay_level op) (d, increase) (rewarded op.(ps_account) [] 1 line) ∧
  NoDup (rewarded op.(ps_account) [] 1 line).*2 ∧
  ∀ r, r ∈ (rewarded op.(ps_account) [] 1 line).*2 ↔ r ∈ line ∧ r ≠ 0 ∧ r ≠ op.(ps_account).
Proof.
  split; [|split; [apply rewarded_NoDup|]].
  - apply pay_staking_line_rewarded; [done|]. set_solver.
  - intros r. rewrite rewarded_elem. set_solver.
Qed.

(** Silver is exchanged one for one: what the account loses in silver it
    gains in core, the supplies follow, and nothing else changes the books,
    as long as the supply of silver covers the exchange. *)
Theorem exchange_silver_one_for_one d op d' silver
  (Hd : ledger_ok d) (Hv : exchange_silver_validate op = Ok tt)
  (Hs : get_dynamic_data d SILVER = Ok silver) (Hen : op.(es_amount).(amount) ≤ silver.(dd_current_supply))
  (H : exchange_silver_do_apply d op = Ok d') :
  let x := op.(es_amount).(amount) in
  let acc := op.(es_account) in
  (∀ a, imbalance d' a = imbalance d a) ∧
  (get_balance d' acc SILVER).(amount) = (get_balance d acc SILVER).(amount) - x ∧
  (get_balance d' acc CORE).(amount) = (get_balance d acc CORE).(amount) + x ∧
  supply d' SILVER = supply d SILVER - x ∧ supply d' CORE = supply d CORE + x.
Proof.
  intros x acc. unfold exchange_silver_do_apply, exchange_silver_validate in *.
  apply bind_Ok in H as (d1 & H1 & H). apply bind_Ok in H as (d2 & H2 & H). apply bind_Ok in H as (d3 & H3 & H).
  assert (op.(es_amount) = Asset x SILVER) as E.
  { clear H1 H2 H3 H Hs. inv_ok. propify. subst x. destruct (es_amount op); cbn in *. congruence. }
  rewrite E in *. fold acc x in H1, H2. cbn in Hen, H2, H3, H. clear Hv.
  assert (d2.(d_dynamic_data) = d.(d_dynamic_data)) as E2
    by (rewrite (adjust_balance_frame _ _ _ _ H2), (debit_frame _ _ _ _ H1); done).
  assert (get_dynamic_data d3 SILVER = Ok silver) as Hs3.
  { apply modify_dynamic_data_Ok in H3 as (s & s' & _ & _ & ->). unfold get_dynamic_data in *. cbn.
    rewrite lookup_insert_ne by done. by rewrite E2. }
  destruct (flow_burn_silver _ _ _ _ Hs3 Hen H) as [F4 S4].
  assert (∀ a, supply d3 a = supply d2 a + at_id 0 a x) as S3.
  { intros a. eapply supply_modify_at; [exact H3|]. intros s s' _ Hf. cbn beta in Hf. clear -Hf. inv_ok. inv_safe. cbn. lia. }
  assert (∀ a, supply d2 a = supply d a) as S2 by (intros a; unfold supply; by rewrite E2).
  assert (∀ i, get_balance d' acc i = get_balance d2 acc i) as Hb.
  { intros i. unfold get_balance. by rewrite (modify_dynamic_data_frame _ _ _ _ H), (modify_dynamic_data_frame _ _ _ _ H3). }
  rewrite !Hb, !(adjust_balance_get _ _ _ _ _ _ H2), !(adjust_balance_get _ _ _ _ _ _ (debit_Ok _ _ _ _ H1)).
  rewrite !S4, !S3, !S2. unfold at_id, SILVER, CORE in *. cbn. split.
  2: { repeat case_decide; try congruence; repeat case_match; propify; lia. }
  assert (flow d d' (λ _, 0)) as F by (clear Hs3; solve_flow). intros a. destruct (F Hd) as [_ ->]. lia.
Qed.

(** ** Witnesses

    Accounts 7, 6 and 8 refer each other in a loop; the apostolos account exists. *)
Definition poc_db : database :=
  sample_db
    <| d_accounts := Index (<[GRAPHENE_APOSTOLOS_ACCOUNT := sample_account 5]> (<[7 := sample_account 6]>
         (<[6 := sample_account 8]> (<[8 := sample_account 7]> sample_db.(d_accounts).(objs))))) 65736 |>
    <| d_statistics := <[GRAPHENE_APOSTOLOS_ACCOUNT := new_statistics]> sample_db.(d_statistics) |>
    <| d_dynamic_data := <[SILVER := DynamicData 5000 0 0]> sample_db.(d_dynamic_data) |>
    <| d_balances := <[(7, SILVER) := AccountBalance 5000 false]> sample_db.(d_balances) |>
    <| d_gpo ::= λ g, g <| gpo_greatrace_parameters := sample_greatrace <| gr_apostolos_reward := 500 |> |> |>
    <| d_dgpo ::= λ g, g <| dgp_poc3_percent := 4500 |> <| dgp_poc6_percent := 7800 |>
         <| dgp_poc12_percent := 9700 |> <| dgp_current_gr_interval := 2 |> |>.
Definition sample_stake (staking_type : Z) : poc_stak_operation := PocStakOp (Asset 0 0) 7 (Asset 100000 0) staking_type.

Lemma staking_within_max_supply_witness :
  is_ok (poc_stak_do_apply poc_db (sample_stake 6)) = true ∧
  core_supply (ok_or poc_db (poc_stak_do_apply poc_db (sample_stake 6))) ≤ GRAPHENE_MAX_SHARE_SUPPLY.
Proof.
  split; [vm_compute; reflexivity|].
  apply (staking_within_max_supply poc_db (sample_stake 6) _ (sample_asset 0)).
  - by apply (bool_decide_unpack _).
  - split; by apply (bool_decide_unpack _).
  - vm_compute. split; congruence.
  - vm_compute. split; congruence.
  - vm_compute. congruence.
  - vm_compute. reflexivity.
  - vm_compute. reflexivity.
  - vm_compute. reflexivity.
  - destruct (poc_stak_do_apply poc_db (sample_stake 6)) eqn:E; [reflexivity|]. exfalso. vm_compute in E. discriminate E.
Defined.

Lemma stake_matures_witness :
  let d' := ok_or (poc_db, 0) (lock_staking poc_db (sample_stake 3)) in
  d'.2 = 45000 ∧ claims d'.1 7 1660000000 = claims poc_db 7 1660000000 + 100000 + d'.2.
Proof.
  split; [vm_compute; reflexivity|].
  refine (proj1 (stake_matures poc_db (sample_stake 3) _ _ 1660000000 _ _ _ _ _ _) _);
    [vm_compute; reflexivity|vm_compute; congruence|vm_compute; split; congruence| |
     vm_compute; split; congruence|vm_compute; reflexivity|vm_compute; reflexivity].
  destruct (lock_staking poc_db (sample_stake 3)) as [[d' i]|] eqn:E; [reflexivity|]. exfalso. vm_compute in E. discriminate E.
Defined.

(** The line of account 7 is 6, 8, 7, 6, 8, 7, 6, 8. *)
Lemma staking_line_rewards_once_witness :
  let line := [6; 8; 7; 6; 8; 7; 6; 8] in
  rewarded 7 [] 1 line = [(1, 6); (2, 8)] ∧
  pay_staking_line (sample_stake 3) line 1 (list_to_set line) poc_db 0 =
    foldM (pay_level (sample_stake 3)) (poc_db, 0) (rewarded 7 [] 1 line).
Proof.
  split; [vm_compute; reflexivity|]. apply (staking_line_rewards_once (sample_stake 3)). vm_compute. congruence.
Defined.

Lemma exchange_silver_one_for_one_witness :
  let op := ExchangeSilverOp (Asset 0 0) 7 (Asset 3000 SILVER) in
  let d' := ok_or poc_db (exchange_silver_do_apply poc_db op) in
  (get_balance d' 7 CORE).(amount) = (get_balance poc_db 7 CORE).(amount) + 3000 ∧
  supply d' SILVER = supply poc_db SILVER - 3000.
Proof.
  intros op d'. pose proof (exchange_silver_one_for_one poc_db op d' (DynamicData 5000 0 0)) as T.
  destruct T as (_ & _ & H1 & H2 & _).
  - split; apply (bool_decide_unpack _); vm_compute; exact I.
  - vm_compute. reflexivity.
  - vm_compute. reflexivity.
  - vm_compute. congruence.
  - unfold d'. destruct (exchange_silver_do_apply poc_db op) eqn:E; [reflexivity|]. exfalso. vm_compute in E. discriminate E.
  - exact (conj H1 H2).
Defined.
