(* ===== verification/GreatRace.v ===== *)
(** * The great race

    [greatrace_evaluator.cpp] and [protocol/greatrace.cpp]: teams of a captain and up to
    eleven players, invitations, votes on the volumes and rewards of the ranks, and
    bets on the places of the teams.  [db_maint.cpp]: what the maintenance does when an
    interval of the race ends: the bonus of the three best teams, the settlement of the
    bets, the ranks and their rewards, the apostolos. *)
From stdpp Require Import sorting.
From S2P Require Import Prelude Safe Raw Asset Authority Objects Database Ledger Vesting Balance Evaluator Sample Referral.

(** ** Common parts *)
Definition greatrace (d : database) : greatrace_chain_parameters := d.(d_gpo).(gpo_greatrace_parameters).
Definition interval (d : database) : Z := d.(d_dgpo).(dgp_current_gr_interval).

(** A [std::map] is iterated in the order of its keys. *)
Definition first_le {A} (x y : Z * A) : Prop := x.1 ≤ y.1.
#[export] Instance first_le_dec {A} : RelDecision (@first_le A).
Proof. intros x y. unfold first_le. apply _. Defined.
Definition map_in_order {A} (m : gmap Z A) : list (Z * A) := merge_sort first_le (map_to_list m).

(** The intervals in which a team may change: start, rests and finish. *)
Definition rest_interval (n : Z) : bool :=
  (n =? 1) || (n =? 3) || (n =? 5) || (n =? 7) || (n =? 8) || (n =? 10) || (n =? 12) || (n =? 14).

Definition get_team (d : database) (id : Z) : result gr_team_object := index_get d.(d_gr_teams) id.
Definition modify_team (d : database) (id : Z) (f : gr_team_object → result gr_team_object) : result database :=
  i ← index_modify d.(d_gr_teams) id f; Ok (d <| d_gr_teams := i |>).
Definition set_team (d : database) (acct : Z) (team : option Z) : result database :=
  modify_account d acct (λ a, Ok (a <| acc_gr_team := team |>)).

(** ** Teams *)
Record gr_team_create_operation : Type := GrTeamCreateOp {
  gtc_fee : asset; gtc_captain : Z; gtc_name : string; gtc_description : string; gtc_logo : string }.

Definition gr_team_create_validate (op : gr_team_create_operation) : result unit :=
  _ ← FC_ASSERT (0 <=? op.(gtc_fee).(amount));
  _ ← FC_ASSERT (pack_size_string op.(gtc_name) <? 65);
  _ ← FC_ASSERT (pack_size_string op.(gtc_description) <? 257);
  FC_ASSERT (pack_size_string op.(gtc_logo) <? 257).

Definition captain_free (d : database) (captain : Z) : bool :=
  bool_decide (map_Forall (λ _ t, t.(gr_captain) ≠ captain) d.(d_gr_teams).(objs)).
Definition name_free (d : database) (name : string) : bool :=
  bool_decide (map_Forall (λ _ t, t.(gr_name) ≠ name) d.(d_gr_teams).(objs)).

Definition gr_team_create_do_evaluate (d : database) (op : gr_team_create_operation) : result unit :=
  _ ← FC_ASSERT (HARDFORK_CWD7_TIME <=? head_block_time d);
  _ ← FC_ASSERT (interval d =? 1);
  captain ← get_account d op.(gtc_captain);
  captain_stats ← get_statistics d op.(gtc_captain);
  _ ← FC_ASSERT ((greatrace d).(gr_min_team_status) <=? captain.(acc_referral_status_type));
  _ ← FC_ASSERT ((greatrace d).(gr_min_team_volume) <=? captain_stats.(st_last_period_gr));
  _ ← FC_ASSERT (captain_free d op.(gtc_captain));
  _ ← FC_ASSERT (bool_decide (captain.(acc_gr_team) = None));
  if bool_decide (op.(gtc_name) = ""%string) then Ok tt else FC_ASSERT (name_free d op.(gtc_name)).

(** The index is unique by name and by captain, so [create] throws at a duplicate. *)
Definition create_team (d : database) (t : gr_team_object) : result (Z * index gr_team_object) :=
  if name_free d t.(gr_name) && captain_free d t.(gr_captain) then index_create d.(d_gr_teams) t else Err assert_exception.

Definition new_team (op : gr_team_create_operation) : gr_team_object :=
  GrTeam 0 0 0 0 0 0 0 0 0 op.(gtc_name) op.(gtc_description) op.(gtc_logo) op.(gtc_captain) ∅ 0.

Definition gr_team_create_do_apply (d : database) (op : gr_team_create_operation) : result database :=
  _ ← get_account d op.(gtc_captain);
  '(id, i) ← create_team d (new_team op);
  set_team (d <| d_gr_teams := i |>) op.(gtc_captain) (Some id).

#[export] Instance gr_team_create_evaluator : Evaluator gr_team_create_operation := {|
  fee_payer := gtc_captain; fee := gtc_fee; validate := gr_team_create_validate;
  do_evaluate := gr_team_create_do_evaluate; do_apply := gr_team_create_do_apply |}.

Record gr_team_delete_operation : Type := GrTeamDeleteOp { gtd_fee : asset; gtd_captain : Z; gtd_team : Z }.

Definition gr_team_delete_validate (op : gr_team_delete_operation) : result unit :=
  FC_ASSERT (0 <=? op.(gtd_fee).(amount)).

Definition gr_team_delete_do_evaluate (d : database) (op : gr_team_delete_operation) : result unit :=
  _ ← FC_ASSERT (HARDFORK_CWD7_TIME <=? head_block_time d);
  _ ← FC_ASSERT (rest_interval (interval d));
  team ← get_team d op.(gtd_team);
  FC_ASSERT (team.(gr_captain) =? op.(gtd_captain)).

Definition gr_team_delete_do_apply (d : database) (op : gr_team_delete_operation) : result database :=
  team ← get_team d op.(gtd_team);
  d1 ← set_team d op.(gtd_captain) None;
  d2 ← foldM (λ d player_id, set_team d player_id None) d1 (in_order team.(gr_players));
  i ← index_remove d2.(d_gr_teams) op.(gtd_team);
  Ok (d2 <| d_gr_teams := i |>).

#[export] Instance gr_team_delete_evaluator : Evaluator gr_team_delete_operation := {|
  fee_payer := gtd_captain; fee := gtd_fee; validate := gr_team_delete_validate;
  do_evaluate := gr_team_delete_do_evaluate; do_apply := gr_team_delete_do_apply |}.

(** ** Invitations *)
Definition max_players : Z := 11.

Record gr_invite_send_operation : Type := GrInviteSendOp { gis_fee : asset; gis_captain : Z; gis_player : Z; gis_team : Z }.

Definition gr_invite_send_validate (op : gr_invite_send_operation) : result unit :=
  _ ← FC_ASSERT (0 <=? op.(gis_fee).(amount)); FC_ASSERT (negb (op.(gis_captain) =? op.(gis_player))).

Definition gr_invite_send_do_evaluate (d : database) (op : gr_invite_send_operation) : result unit :=
  _ ← FC_ASSERT (HARDFORK_CWD7_TIME <=? head_block_time d);
  player ← get_account d op.(gis_player);
  _ ← FC_ASSERT (rest_interval (interval d));
  team ← get_team d op.(gis_team);
  _ ← FC_ASSERT (team.(gr_captain) =? op.(gis_captain));
  _ ← FC_ASSERT (Z.of_nat (size team.(gr_players)) <? max_players);
  _ ← FC_ASSERT (bool_decide (op.(gis_player) ∉ team.(gr_players)));
  FC_ASSERT (bool_decide (player.(acc_gr_team) = None)).

Definition gr_invite_send_do_apply (d : database) (op : gr_invite_send_operation) : result database :=
  '(_, i) ← index_create d.(d_gr_invites) (GrInvite op.(gis_captain) op.(gis_player) op.(gis_team));
  Ok (d <| d_gr_invites := i |>).

#[export] Instance gr_invite_send_evaluator : Evaluator gr_invite_send_operation := {|
  fee_payer := gis_captain; fee := gis_fee; validate := gr_invite_send_validate;
  do_evaluate := gr_invite_send_do_evaluate; do_apply := gr_invite_send_do_apply |}.

Record gr_invite_accept_operation : Type := GrInviteAcceptOp {
  gia_fee : asset; gia_captain : Z; gia_player : Z; gia_team : Z; gia_invite : Z }.

Definition gr_invite_accept_validate (op : gr_invite_accept_operation) : result unit :=
  FC_ASSERT (0 <=? op.(gia_fee).(amount)).

Definition gr_invite_accept_do_evaluate (d : database) (op : gr_invite_accept_operation) : result unit :=
  _ ← FC_ASSERT (HARDFORK_CWD7_TIME <=? head_block_time d);
  team ← get_team d op.(gia_team);
  invite ← index_get d.(d_gr_invites) op.(gia_invite);
  player ← get_account d op.(gia_player);
  _ ← FC_ASSERT (invite.(gi_player) =? op.(gia_player));
  _ ← FC_ASSERT (invite.(gi_team) =? op.(gia_team));
  _ ← FC_ASSERT (team.(gr_captain) =? op.(gia_captain));
  _ ← FC_ASSERT (bool_decide (op.(gia_player) ∉ team.(gr_players)));
  _ ← FC_ASSERT (Z.of_nat (size team.(gr_players)) <? max_players);
  FC_ASSERT (bool_decide (player.(acc_gr_team) = None)).

Definition gr_invite_accept_do_apply (d : database) (op : gr_invite_accept_operation) : result database :=
  d1 ← modify_team d op.(gia_team) (λ t, Ok (t <| gr_players ::= union {[op.(gia_player)]} |>));
  d2 ← set_team d1 op.(gia_player) (Some op.(gia_team));
  i ← index_remove d2.(d_gr_invites) op.(gia_invite);
  Ok (d2 <| d_gr_invites := i |>).

#[export] Instance gr_invite_accept_evaluator : Evaluator gr_invite_accept_operation := {|
  fee_payer := gia_player; fee := gia_fee; validate := gr_invite_accept_validate;
  do_evaluate := gr_invite_accept_do_evaluate; do_apply := gr_invite_accept_do_apply |}.

(** ** Leaving a team

    The captain removes a player, or the player leaves. *)
Definition check_member (d : database) (captain player team : Z) : result unit :=
  _ ← FC_ASSERT (HARDFORK_CWD7_TIME <=? head_block_time d);
  _ ← FC_ASSERT (rest_interval (interval d));
  team_obj ← get_team d team;
  player_obj ← get_account d player;
  _ ← FC_ASSERT (bool_decide (player ∈ team_obj.(gr_players)));
  _ ← (match player_obj.(acc_gr_team) with Some t => FC_ASSERT (t =? team) | None => Ok tt end);
  FC_ASSERT (team_obj.(gr_captain) =? captain).

Definition drop_member (d : database) (player team : Z) : result database :=
  d1 ← set_team d player None;
  modify_team d1 team (λ t, Ok (t <| gr_players ::= λ s, s ∖ {[player]} |>)).

Record gr_player_remove_operation : Type := GrPlayerRemoveOp { gpr_fee : asset; gpr_captain : Z; gpr_player : Z; gpr_team : Z }.
Definition gr_player_remove_validate (op : gr_player_remove_operation) : result unit :=
  _ ← FC_ASSERT (0 <=? op.(gpr_fee).(amount)); FC_ASSERT (negb (op.(gpr_captain) =? op.(gpr_player))).
Definition gr_player_remove_do_evaluate (d : database) (op : gr_player_remove_operation) : result unit :=
  check_member d op.(gpr_captain) op.(gpr_player) op.(gpr_team).
Definition gr_player_remove_do_apply (d : database) (op : gr_player_remove_operation) : result database :=
  drop_member d op.(gpr_player) op.(gpr_team).
#[export] Instance gr_player_remove_evaluator : Evaluator gr_player_remove_operation := {|
  fee_payer := gpr_captain; fee := gpr_fee; validate := gr_player_remove_validate;
  do_evaluate := gr_player_remove_do_evaluate; do_apply := gr_player_remove_do_apply |}.

Record gr_team_leave_operation : Type := GrTeamLeaveOp { gtl_fee : asset; gtl_captain : Z; gtl_player : Z; gtl_team : Z }.
Definition gr_team_leave_validate (op : gr_team_leave_operation) : result unit :=
  _ ← FC_ASSERT (0 <=? op.(gtl_fee).(amount)); FC_ASSERT (negb (op.(gtl_captain) =? op.(gtl_player))).
Definition gr_team_leave_do_evaluate (d : database) (op : gr_team_leave_operation) : result unit :=
  check_member d op.(gtl_captain) op.(gtl_player) op.(gtl_team).
Definition gr_team_leave_do_apply (d : database) (op : gr_team_leave_operation) : result database :=
  drop_member d op.(gtl_player) op.(gtl_team).
#[export] Instance gr_team_leave_evaluator : Evaluator gr_team_leave_operation := {|
  fee_payer := gtl_player; fee := gtl_fee; validate := gr_team_leave_validate;
  do_evaluate := gr_team_leave_do_evaluate; do_apply := gr_team_leave_do_apply |}.

(** ** Votes *)
Record gr_vote_operation : Type := GrVoteOp { gvo_fee : asset; gvo_player : Z; gvo_volumes : list Z; gvo_rewards : list Z }.

Definition gr_vote_validate (op : gr_vote_operation) : result unit :=
  _ ← FC_ASSERT (0 <=? op.(gvo_fee).(amount));
  _ ← FC_ASSERT (forallb (Z.leb 0) op.(gvo_volumes));
  FC_ASSERT (forallb (Z.leb 0) op.(gvo_rewards)).

Definition gr_vote_do_evaluate (d : database) (op : gr_vote_operation) : result unit :=
  _ ← FC_ASSERT (HARDFORK_CWD7_TIME <=? head_block_time d);
  _ ← FC_ASSERT d.(d_dgpo).(dgp_gr_vote_is_active);
  player ← get_account d op.(gvo_player);
  FC_ASSERT ((greatrace d).(gr_min_vote_last_rank) <=? player.(acc_last_gr_rank)).

Definition gr_vote_do_apply (d : database) (op : gr_vote_operation) : result database :=
  '(_, i) ← index_create d.(d_gr_votes) (GrVotes op.(gvo_player) op.(gvo_volumes) op.(gvo_rewards));
  Ok (d <| d_gr_votes := i |>).

#[export] Instance gr_vote_evaluator : Evaluator gr_vote_operation := {|
  fee_payer := gvo_player; fee := gvo_fee; validate := gr_vote_validate;
  do_evaluate := gr_vote_do_evaluate; do_apply := gr_vote_do_apply |}.

(** ** Bets *)

(** What every bet is checked for: the time, the smallest bet, the asset and the balance. *)
Definition check_bet_time (d : database) (bet : asset) : result unit :=
  _ ← FC_ASSERT (head_block_time d <=? d.(d_dgpo).(dgp_gr_bet_interval_time));
  FC_ASSERT ((greatrace d).(gr_min_gr_bet) <=? bet.(amount)).
Definition check_bet_asset (d : database) (bettor : Z) (asset_type : asset_object) (bet : asset) : result unit :=
  _ ← FC_ASSERT (bool_decide (asset_type.(ao_symbol) = "CWD"));
  FC_ASSERT (bet.(amount) <=? (get_balance d bettor bet.(asset_id)).(amount)).

(** [bets[bettor] += amount], or a new entry. *)
Definition add_bet (bets : gmap Z Z) (bettor amount : Z) : result (gmap Z Z) :=
  match bets !! bettor with
  | Some z => z' ← safe_add z amount; Ok (<[bettor := z']> bets)
  | None => Ok (<[bettor := amount]> bets)
  end.

(** The first bet on a side is not smaller than what is staked on the other. *)
Definition side_covers (bet side other : Z) : result unit :=
  if side =? 0 then FC_ASSERT (other <=? bet) else Ok tt.

Record gr_range_bet_operation : Type := GrRangeBetOp {
  grb_fee : asset; grb_team : Z; grb_lower_rank : Z; grb_upper_rank : Z; grb_result : bool; grb_bettor : Z; grb_bet : asset }.

Definition gr_range_bet_validate (op : gr_range_bet_operation) : result unit :=
  _ ← FC_ASSERT (0 <? op.(grb_upper_rank));
  _ ← FC_ASSERT (op.(grb_upper_rank) <=? 100);
  _ ← FC_ASSERT (0 <? op.(grb_lower_rank));
  _ ← FC_ASSERT (op.(grb_lower_rank) <=? 100);
  _ ← FC_ASSERT (op.(grb_lower_rank) <=? op.(grb_upper_rank));
  _ ← FC_ASSERT (0 <=? op.(grb_bet).(amount));
  FC_ASSERT (0 <=? op.(grb_fee).(amount)).

(** The range of the index [by_bet] at a key: the index is unique, so it holds one object at most. *)
Definition range_bet_at (d : database) (team lower upper : Z) : option (Z * gr_range_bet_object) :=
  head (filter (λ x, x.2.(rb_team) = team ∧ x.2.(rb_lower_rank) = lower ∧ x.2.(rb_upper_rank) = upper)
    (map_in_order d.(d_gr_range_bets).(objs))).
Definition team_bet_at (d : database) (team1 team2 : Z) : option (Z * gr_team_bet_object) :=
  head (filter (λ x, x.2.(tb_team1) = team1 ∧ x.2.(tb_team2) = team2) (map_in_order d.(d_gr_team_bets).(objs))).

Definition range_bet_covers (op : gr_range_bet_operation) (b : gr_range_bet_object) : result unit :=
  if op.(grb_result) then side_covers op.(grb_bet).(amount) b.(rb_total_true_bets) b.(rb_total_false_bets)
  else side_covers op.(grb_bet).(amount) b.(rb_total_false_bets) b.(rb_total_true_bets).

Definition gr_range_bet_do_evaluate (d : database) (op : gr_range_bet_operation) : result unit :=
  _ ← check_bet_time d op.(grb_bet);
  _ ← get_account d op.(grb_bettor);
  asset_type ← get_asset d op.(grb_bet).(asset_id);
  _ ← FC_ASSERT (bool_decide (is_Some (d.(d_gr_teams).(objs) !! op.(grb_team))));
  _ ← FC_ASSERT (op.(grb_upper_rank) <=? Z.of_nat (size d.(d_gr_teams).(objs)));
  _ ← check_bet_asset d op.(grb_bettor) asset_type op.(grb_bet);
  match range_bet_at d op.(grb_team) op.(grb_lower_rank) op.(grb_upper_rank) with
  | Some x => range_bet_covers op x.2
  | None => Ok tt
  end.

Definition join_range_bet (op : gr_range_bet_operation) (b : gr_range_bet_object) : result gr_range_bet_object :=
  let amt := op.(grb_bet).(amount) in
  b' ← (if op.(grb_result) then
          m ← add_bet b.(rb_true_bets) op.(grb_bettor) amt; t ← safe_add b.(rb_total_true_bets) amt;
          Ok (b <| rb_true_bets := m |> <| rb_total_true_bets := t |>)
        else
          m ← add_bet b.(rb_false_bets) op.(grb_bettor) amt; t ← safe_add b.(rb_total_false_bets) amt;
          Ok (b <| rb_false_bets := m |> <| rb_total_false_bets := t |>));
  p ← safe_add b'.(rb_total_prize) amt;
  Ok (b' <| rb_total_prize := p |>).

Definition new_range_bet (op : gr_range_bet_operation) : gr_range_bet_object :=
  let amt := op.(grb_bet).(amount) in
  let m : gmap Z Z := {[ op.(grb_bettor) := amt ]} in
  if op.(grb_result) then GrRangeBet op.(grb_team) op.(grb_lower_rank) op.(grb_upper_rank) amt amt 0 m ∅
  else GrRangeBet op.(grb_team) op.(grb_lower_rank) op.(grb_upper_rank) amt 0 amt ∅ m.

Definition gr_range_bet_do_apply (d : database) (op : gr_range_bet_operation) : result database :=
  i ← (match range_bet_at d op.(grb_team) op.(grb_lower_rank) op.(grb_upper_rank) with
       | Some x => index_modify d.(d_gr_range_bets) x.1 (join_range_bet op)
       | None => snd <$> index_create d.(d_gr_range_bets) (new_range_bet op)
       end);
  debit (d <| d_gr_range_bets := i |>) op.(grb_bettor) op.(grb_bet).

#[export] Instance gr_range_bet_evaluator : Evaluator gr_range_bet_operation := {|
  fee_payer := grb_bettor; fee := grb_fee; validate := gr_range_bet_validate;
  do_evaluate := gr_range_bet_do_evaluate; do_apply := gr_range_bet_do_apply |}.

Record gr_team_bet_operation : Type := GrTeamBetOp {
  gtb_fee : asset; gtb_team1 : Z; gtb_team2 : Z; gtb_winner : Z; gtb_bettor : Z; gtb_bet : asset }.

Definition gr_team_bet_validate (op : gr_team_bet_operation) : result unit :=
  _ ← FC_ASSERT ((op.(gtb_winner) =? op.(gtb_team1)) || (op.(gtb_winner) =? op.(gtb_team2)));
  _ ← FC_ASSERT (0 <=? op.(gtb_bet).(amount));
  FC_ASSERT (0 <=? op.(gtb_fee).(amount)).

Definition team_bet_covers (op : gr_team_bet_operation) (b : gr_team_bet_object) : result unit :=
  _ ← (if op.(gtb_winner) =? b.(tb_team1) then side_covers op.(gtb_bet).(amount) b.(tb_total_team1_bets) b.(tb_total_team2_bets) else Ok tt);
  if op.(gtb_winner) =? b.(tb_team2) then side_covers op.(gtb_bet).(amount) b.(tb_total_team2_bets) b.(tb_total_team1_bets) else Ok tt.

(** The bet on the two teams, in either order. *)
Definition team_bet_between (d : database) (op : gr_team_bet_operation) : option (Z * gr_team_bet_object) :=
  match team_bet_at d op.(gtb_team1) op.(gtb_team2) with
  | Some x => Some x
  | None => team_bet_at d op.(gtb_team2) op.(gtb_team1)
  end.

Definition gr_team_bet_do_evaluate (d : database) (op : gr_team_bet_operation) : result unit :=
  _ ← check_bet_time d op.(gtb_bet);
  _ ← get_account d op.(gtb_bettor);
  asset_type ← get_asset d op.(gtb_bet).(asset_id);
  _ ← get_team d op.(gtb_team1);
  _ ← get_team d op.(gtb_team2);
  _ ← FC_ASSERT (negb (op.(gtb_team1) =? op.(gtb_team2)));
  _ ← FC_ASSERT ((op.(gtb_winner) =? op.(gtb_team1)) || (op.(gtb_winner) =? op.(gtb_team2)));
  _ ← check_bet_asset d op.(gtb_bettor) asset_type op.(gtb_bet);
  match team_bet_between d op with Some x => team_bet_covers op x.2 | None => Ok tt end.

Definition join_team_bet (op : gr_team_bet_operation) (b : gr_team_bet_object) : result gr_team_bet_object :=
  let amt := op.(gtb_bet).(amount) in
  b' ← (if op.(gtb_winner) =? b.(tb_team1) then
          m ← add_bet b.(tb_team1_bets) op.(gtb_bettor) amt; t ← safe_add b.(tb_total_team1_bets) amt;
          Ok (b <| tb_team1_bets := m |> <| tb_total_team1_bets := t |>)
        else
          m ← add_bet b.(tb_team2_bets) op.(gtb_bettor) amt; t ← safe_add b.(tb_total_team2_bets) amt;
          Ok (b <| tb_team2_bets := m |> <| tb_total_team2_bets := t |>));
  p ← safe_add b'.(tb_total_prize) amt;
  Ok (b' <| tb_total_prize := p |>).

Definition new_team_bet (op : gr_team_bet_operation) : gr_team_bet_object :=
  let amt := op.(gtb_bet).(amount) in
  let m : gmap Z Z := {[ op.(gtb_bettor) := amt ]} in
  if op.(gtb_winner) =? op.(gtb_team1) then GrTeamBet op.(gtb_team1) op.(gtb_team2) amt amt 0 m ∅
  else GrTeamBet op.(gtb_team1) op.(gtb_team2) amt 0 amt ∅ m.

Definition gr_team_bet_do_apply (d : database) (op : gr_team_bet_operation) : result database :=
  i ← (match team_bet_between d op with
       | Some x => index_modify d.(d_gr_team_bets) x.1 (join_team_bet op)
       | None => snd <$> index_create d.(d_gr_team_bets) (new_team_bet op)
       end);
  debit (d <| d_gr_team_bets := i |>) op.(gtb_bettor) op.(gtb_bet).

#[export] Instance gr_team_bet_evaluator : Evaluator gr_team_bet_operation := {|
  fee_payer := gtb_bettor; fee := gtb_fee; validate := gr_team_bet_validate;
  do_evaluate := gr_team_bet_do_evaluate; do_apply := gr_team_bet_do_apply |}.

(** ** Value *)
Section flows.
Implicit Types (d : database).

#[export] Instance flows_set_team d a t d' : Flows (set_team d a t = Ok d') d d' (λ _, 0).
Proof. unfold set_team. intros H. by apply (flows (P := _ = Ok _)) in H. Qed.
#[export] Instance flows_modify_team d id f d' : Flows (modify_team d id f = Ok d') d d' (λ _, 0).
Proof. unfold modify_team. intros H. inv_ok. solve_flow. Qed.

Lemma foldM_conserves {A} (f : database → A → result database) l d d' :
  (∀ d x d', f d x = Ok d' → conserves d d') → foldM f d l = Ok d' → conserves d d'.
Proof.
  intros Hf H. apply (foldM_inv _ (conserves d)) in H; [done| |reflexivity].
  intros d1 x d2 H1 H2. etransitivity; [exact H1|by eapply Hf].
Qed.

Lemma add_bet_sum bets bettor z bets' :
  add_bet bets bettor z = Ok bets' → msum (λ _ z, z) bets' = msum (λ _ z, z) bets + z.
Proof.
  unfold add_bet. intros H. destruct (bets !! bettor) as [x|] eqn:E; inv_ok; inv_safe.
  - rewrite (msum_insert_Some _ _ _ _ _ E). lia.
  - rewrite msum_insert_None by done. lia.
Qed.
Lemma join_range_bet_held op b b' :
  join_range_bet op b = Ok b' → range_bet_held b' = range_bet_held b + op.(grb_bet).(amount).
Proof.
  unfold join_range_bet, range_bet_held. intros H. destruct (grb_result op); inv_ok; cbn;
    match goal with E : add_bet _ _ _ = Ok _ |- _ => rewrite (add_bet_sum _ _ _ _ E) end; lia.
Qed.
Lemma join_team_bet_held op b b' :
  join_team_bet op b = Ok b' → team_bet_held b' = team_bet_held b + op.(gtb_bet).(amount).
Proof.
  unfold join_team_bet, team_bet_held. intros H. destruct (_ =? _); inv_ok; cbn;
    match goal with E : add_bet _ _ _ = Ok _ |- _ => rewrite (add_bet_sum _ _ _ _ E) end; lia.
Qed.
Lemma msum_singleton (k z : Z) : msum (λ _ z, z) ({[ k := z ]} : gmap Z Z) = z.
Proof. unfold msum. rewrite map_fold_singleton. lia. Qed.
Lemma new_range_bet_held op : range_bet_held (new_range_bet op) = op.(grb_bet).(amount).
Proof. unfold range_bet_held, new_range_bet. destruct (grb_result op); cbn; rewrite msum_singleton, msum_empty; lia. Qed.
Lemma new_team_bet_held op : team_bet_held (new_team_bet op) = op.(gtb_bet).(amount).
Proof. unfold team_bet_held, new_team_bet. destruct (_ =? _); cbn; rewrite msum_singleton, msum_empty; lia. Qed.

(** A bet may join the object of its key or open a new one. *)
Lemma bet_index_held {V} (held : V → Z) (i i' : index V) (found : option (Z * V)) join new z :
  (∀ b b', join b = Ok b' → held b' = held b + z) → held new = z →
  (match found with Some x => index_modify i x.1 join | None => snd <$> index_create i new end) = Ok i' →
  isum held i' = isum held i + z.
Proof.
  intros Hj Hn H. destruct found as [[k b]|]; cbn in H.
  - apply index_modify_Ok in H as (v & v' & Hv & Hv' & ->). rewrite (isum_modify _ _ _ _ _ Hv), (Hj _ _ Hv'). lia.
  - apply fmap_Ok in H as ([k i1] & H & ->). apply index_create_Ok in H as (-> & Hk & ->). cbn. rewrite isum_create by done. lia.
Qed.

(** The bets are in the core asset. *)
Lemma bet_in_core d bettor a bet :
  chain_ok d → get_asset d bet.(asset_id) = Ok a → check_bet_asset d bettor a bet = Ok tt → bet.(asset_id) = CORE.
Proof.
  intros Hd Ha H. apply index_get_Ok, (co_assets _ Hd) in Ha as (_ & Ha & _). apply Ha.
  unfold check_bet_asset in H. apply bind_Ok in H as (? & H & _). by apply FC_ASSERT_Ok, bool_decide_eq_true in H.
Qed.
End flows.

#[export] Instance gr_team_create_conserving : Conserving gr_team_create_operation.
Proof.
  open_conserving. unfold gr_team_create_do_apply in H. inv_ok. solve_flow.
Qed.
#[export] Instance gr_team_delete_conserving : Conserving gr_team_delete_operation.
Proof.
  open_conserving. unfold gr_team_delete_do_apply in H. inv_ok.
  match goal with H : foldM _ _ _ = Ok _ |- _ => apply foldM_conserves in H; [|intros ? ? ? E; by apply (flows (P := _ = Ok _)) in E] end.
  unfold conserves in *. solve_flow.
Qed.
#[export] Instance gr_invite_send_conserving : Conserving gr_invite_send_operation.
Proof. open_conserving. unfold gr_invite_send_do_apply in H. inv_ok. solve_flow. Qed.
#[export] Instance gr_invite_accept_conserving : Conserving gr_invite_accept_operation.
Proof. open_conserving. unfold gr_invite_accept_do_apply in H. inv_ok. solve_flow. Qed.
Lemma drop_member_flow d player team d' : drop_member d player team = Ok d' → flow d d' (λ _, 0).
Proof. unfold drop_member. intros H. inv_ok. solve_flow. Qed.
#[export] Instance gr_player_remove_conserving : Conserving gr_player_remove_operation.
Proof. open_conserving. by apply drop_member_flow in H. Qed.
#[export] Instance gr_team_leave_conserving : Conserving gr_team_leave_operation.
Proof. open_conserving. by apply drop_member_flow in H. Qed.
#[export] Instance gr_vote_conserving : Conserving gr_vote_operation.
Proof. open_conserving. unfold gr_vote_do_apply in H. inv_ok. solve_flow. Qed.
#[export] Instance gr_range_bet_conserving : Conserving gr_range_bet_operation.
Proof.
  open_conserving. unfold gr_range_bet_do_apply in H. unfold gr_range_bet_do_evaluate in Heval.
  assert (op.(grb_bet).(asset_id) = CORE) as Hc.
  { clear H. inv_ok; by eapply bet_in_core. } clear Heval.
  apply bind_Ok in H as (i & Hi & H). apply (bet_index_held range_bet_held _ _ _ _ _ op.(grb_bet).(amount)) in Hi;
    [|apply join_range_bet_held|apply new_range_bet_held].
  pose proof (flow_gr_range_bets d1 i _ Hi) as F. solve_flow.
Qed.
#[export] Instance gr_team_bet_conserving : Conserving gr_team_bet_operation.
Proof.
  open_conserving. unfold gr_team_bet_do_apply in H. unfold gr_team_bet_do_evaluate in Heval.
  assert (op.(gtb_bet).(asset_id) = CORE) as Hc.
  { clear H. inv_ok; by eapply bet_in_core. } clear Heval.
  apply bind_Ok in H as (i & Hi & H). apply (bet_index_held team_bet_held _ _ _ _ _ op.(gtb_bet).(amount)) in Hi;
    [|apply join_team_bet_held|apply new_team_bet_held].
  pose proof (flow_gr_team_bets d1 i _ Hi) as F. solve_flow.
Qed.

(** ** The rosters *)
Definition team_of (d : database) (acct : Z) : option Z := a ← d.(d_accounts).(objs) !! acct; a.(acc_gr_team).
Definition members (t : gr_team_object) : gset Z := {[t.(gr_captain)]} ∪ t.(gr_players).

(** A team has at most eleven players next to its captain, and an account names a team
    exactly when it is a member of it. *)
Definition roster_ok (t : gr_team_object) : Prop := (t.(gr_captain) ∉ t.(gr_players)) ∧ Z.of_nat (size t.(gr_players)) ≤ max_players.
Record rosters_ok (d : database) : Prop := {
  ro_teams : map_Forall (λ _ t, roster_ok t) d.(d_gr_teams).(objs);
  ro_members : ∀ acct id, team_of d acct = Some id ↔ ∃ t, d.(d_gr_teams).(objs) !! id = Some t ∧ acct ∈ members t }.

Definition roster (t : gr_team_object) : Z * gset Z := (t.(gr_captain), t.(gr_players)).
Inductive roster_step : database → database → Prop :=
  | step_create d (op : gr_team_create_operation) d' : performs d op d' → roster_step d d'
  | step_delete d (op : gr_team_delete_operation) d' : performs d op d' → roster_step d d'
  | step_send d (op : gr_invite_send_operation) d' : performs d op d' → roster_step d d'
  | step_accept d (op : gr_invite_accept_operation) d' : performs d op d' → roster_step d d'
  | step_remove d (op : gr_player_remove_operation) d' : performs d op d' → roster_step d d'
  | step_leave d (op : gr_team_leave_operation) d' : performs d op d' → roster_step d d'
  | step_other d d' : (∀ acct, team_of d' acct = team_of d acct) →
      (∀ id, roster <$> (d'.(d_gr_teams).(objs) !! id) = roster <$> (d.(d_gr_teams).(objs) !! id)) → roster_step d d'.

(** *** Lemmas *)
Lemma set_team_Ok d a t d' : set_team d a t = Ok d' →
  is_Some (d.(d_accounts).(objs) !! a) ∧ d'.(d_gr_teams) = d.(d_gr_teams) ∧ d'.(d_gr_invites) = d.(d_gr_invites) ∧
  ∀ b, team_of d' b = if decide (b = a) then t else team_of d b.
Proof.
  unfold set_team. intros H. apply modify_account_Ok in H as (x & x' & Hx & [= <-] & ->). split; [by exists x|]. split; [done|]. split; [done|].
  intros b. unfold team_of. cbn. destruct (decide (b = a)) as [->|Hne]; [by rewrite lookup_insert_eq|by rewrite lookup_insert_ne].
Qed.
Lemma modify_team_Ok d id f d' : modify_team d id f = Ok d' →
  ∃ t t', d.(d_gr_teams).(objs) !! id = Some t ∧ f t = Ok t' ∧ d'.(d_gr_teams).(objs) = <[id := t']> d.(d_gr_teams).(objs) ∧
    ∀ b, team_of d' b = team_of d b.
Proof.
  unfold modify_team. intros H. apply bind_Ok in H as (i & Hi & [= <-]). apply index_modify_Ok in Hi as (t & t' & Ht & Hf & ->).
  exists t, t'. by split.
Qed.
Lemma team_of_teams d i b : team_of (d <| d_gr_teams := i |>) b = team_of d b.
Proof. reflexivity. Qed.
Lemma fees_teams d d1 : same_but_fees d d1 → d1.(d_gr_teams) = d.(d_gr_teams) ∧ ∀ a, team_of d1 a = team_of d a.
Proof. intros (m1 & m2 & -> & _). by split. Qed.

Lemma set_teams_Ok l d t d' : foldM (λ d a, set_team d a t) d l = Ok d' →
  d'.(d_gr_teams) = d.(d_gr_teams) ∧ ∀ b, team_of d' b = if decide (b ∈ l) then t else team_of d b.
Proof.
  revert d. induction l as [|a l IH]; intros d H; cbn in H; [injection H as <-; by split|].
  apply bind_Ok in H as (d1 & H1 & H). apply set_team_Ok in H1 as (_ & E1 & _ & T1). destruct (IH _ H) as [E2 T2].
  split; [congruence|]. intros b. rewrite T2, T1. destruct (decide (b ∈ l)), (decide (b ∈ a :: l)), (decide (b = a)); set_solver.
Qed.
Lemma in_order_elem_of (s : gset Z) a : a ∈ in_order s ↔ a ∈ s.
Proof. unfold in_order. by rewrite merge_sort_Permutation, elem_of_elements. Qed.

Lemma create_rosters d op d' : rosters_ok d → performs d (op : gr_team_create_operation) d' → rosters_ok d'.
Proof.
  intros [HT HM] (d1 & Hs & _ & He & Ha). cbn in He, Ha. apply fees_teams in Hs as [E T].
  unfold gr_team_create_do_evaluate in He. apply bind_Ok in He as (? & _ & He). apply bind_Ok in He as (? & _ & He).
  apply bind_Ok in He as (a & Hacc & He). apply bind_Ok in He as (? & _ & He). apply bind_Ok in He as (? & _ & He).
  apply bind_Ok in He as (? & _ & He). apply bind_Ok in He as (? & _ & He). apply bind_Ok in He as (? & Hnone & _).
  apply FC_ASSERT_Ok, bool_decide_eq_true in Hnone. apply index_get_Ok in Hacc.
  assert (team_of d op.(gtc_captain) = None) as Hfree by (unfold team_of; rewrite Hacc; exact Hnone).
  unfold gr_team_create_do_apply in Ha. apply bind_Ok in Ha as (? & _ & Ha). apply bind_Ok in Ha as ([id i] & Hi & Ha).
  unfold create_team in Hi. destruct (_ && _); [|discriminate Hi]. apply index_create_Ok in Hi as (-> & Hn & ->).
  apply set_team_Ok in Ha as (_ & Ed & _ & Td). cbn [d_gr_teams over] in Ed. rewrite E in Hn, Ed. split.
  - rewrite Ed. apply map_Forall_insert_2; [|done]. unfold roster_ok, max_players. cbn. by split; [set_solver|].
  - intros b k. rewrite Td, Ed, team_of_teams, T, E. cbn [objs].
    destruct (decide (b = gtc_captain op)) as [->|Hne].
    + split.
      * intros [= <-]. exists (new_team op). rewrite lookup_insert_eq. split; [done|]. unfold members. cbn. set_solver.
      * intros (t & Ht & Hb). apply lookup_insert_Some in Ht as [[<- _]|[_ Ht]]; [done|].
        assert (team_of d op.(gtc_captain) = Some k) by (apply HM; by exists t). congruence.
    + rewrite HM. split; intros (t & Ht & Hb); exists t; (split; [|done]).
      * rewrite lookup_insert_ne by congruence. done.
      * apply lookup_insert_Some in Ht as [[_ <-]|[_ Ht]]; [|done]. unfold members in Hb. cbn in Hb. set_solver.
Qed.

Lemma delete_rosters d op d' : rosters_ok d → performs d (op : gr_team_delete_operation) d' → rosters_ok d'.
Proof.
  intros [HT HM] (d1 & Hs & _ & He & Ha). cbn in He, Ha. apply fees_teams in Hs as [E T].
  unfold gr_team_delete_do_evaluate in He. apply bind_Ok in He as (? & _ & He). apply bind_Ok in He as (? & _ & He).
  apply bind_Ok in He as (t0 & Ht0 & Hc). apply FC_ASSERT_Ok, Z.eqb_eq in Hc. apply index_get_Ok in Ht0.
  unfold gr_team_delete_do_apply in Ha. apply bind_Ok in Ha as (t & Ht & Ha). apply index_get_Ok in Ht. rewrite E in Ht. same_ok.
  apply bind_Ok in Ha as (d2 & H2 & Ha). apply bind_Ok in Ha as (d3 & H3 & Ha). apply bind_Ok in Ha as (i & Hi & Ha). apply Ok_inj in Ha as <-.
  apply set_team_Ok in H2 as (_ & E2 & _ & T2). apply set_teams_Ok in H3 as [E3 T3]. apply index_remove_Ok in Hi as (? & _ & ->).
  rewrite E3, E2, E. split; [by apply map_Forall_delete|]. intros b k. rewrite team_of_teams, T3, T2, T. cbn [objs d_gr_teams over].
  assert (∀ u, d.(d_gr_teams).(objs) !! op.(gtd_team) = Some u → b ∈ members u → team_of d b = Some op.(gtd_team)) as Hin by (intros u ??; apply HM; by exists u).
  assert (b ∈ members t ↔ b = op.(gtd_captain) ∨ b ∈ in_order t.(gr_players)) as Hm.
  { rewrite in_order_elem_of. unfold members. rewrite elem_of_union, elem_of_singleton, Hc. done. }
  destruct (decide (b ∈ members t)) as [Hb|Hb].
  - assert ((if decide (b ∈ in_order t.(gr_players)) then None else if decide (b = op.(gtd_captain)) then None else team_of d b) = None) as ->
      by (destruct (decide _); [done|]; destruct (decide _); [done|]; tauto).
    split; [done|]. intros (u & Hu & Hbu). apply lookup_delete_Some in Hu as [Hne Hu].
    assert (team_of d b = Some k) by (apply HM; by exists u). specialize (Hin _ Ht0 Hb). congruence.
  - destruct (decide (b ∈ in_order _)); [tauto|]. destruct (decide (b = _)); [tauto|]. rewrite HM.
    split; intros (u & Hu & Hbu); exists u; (split; [|done]).
    + apply lookup_delete_Some. split; [|done]. intros <-. congruence.
    + by apply lookup_delete_Some in Hu as [_ Hu].
Qed.

(** A team whose roster changes by one account. *)
Lemma update_rosters d d' k t t' acct :
  rosters_ok d → d.(d_gr_teams).(objs) !! k = Some t → d'.(d_gr_teams).(objs) = <[k := t']> d.(d_gr_teams).(objs) →
  roster_ok t' → (∀ b, b ≠ acct → b ∈ members t' ↔ b ∈ members t) →
  (∀ b, team_of d' b = if decide (b = acct) then (if decide (acct ∈ members t') then Some k else None) else team_of d b) →
  (∀ id, team_of d acct = Some id → id = k) → rosters_ok d'.
Proof.
  intros [HT HM] Ht E Hok Hm HT' Hacct. split; [rewrite E; by apply map_Forall_insert_2|].
  intros b id. rewrite HT', E. destruct (decide (b = acct)) as [->|Hne].
  - split.
    + case_decide; [|done]. intros [= <-]. exists t'. by rewrite lookup_insert_eq.
    + intros (u & [[<- <-]|[Hid Hu]]%lookup_insert_Some & Hb); [by case_decide|].
      assert (team_of d acct = Some id) as Ha by (apply HM; by exists u). by apply Hacct in Ha.
  - rewrite HM. split; intros (u & Hu & Hb).
    + destruct (decide (id = k)) as [->|Hid]; [|exists u; by rewrite lookup_insert_ne].
      exists t'. rewrite lookup_insert_eq. split; [done|]. apply Hm; [done|]. congruence.
    + apply lookup_insert_Some in Hu as [[<- <-]|[Hid Hu]]; [exists t; split; [done|]; by apply Hm|by exists u].
Qed.

Lemma accept_rosters d op d' : rosters_ok d → performs d (op : gr_invite_accept_operation) d' → rosters_ok d'.
Proof.
  intros Hr (d1 & Hs & _ & He & Ha). cbn in He, Ha. apply fees_teams in Hs as [E T].
  unfold gr_invite_accept_do_evaluate in He. apply bind_Ok in He as (? & _ & He). apply bind_Ok in He as (t & Ht & He).
  apply index_get_Ok in Ht. apply bind_Ok in He as (? & _ & He). apply bind_Ok in He as (a & Hacc & He). apply index_get_Ok in Hacc.
  do 4 (apply bind_Ok in He as (? & _ & He)). apply bind_Ok in He as (? & Hsize & He). apply FC_ASSERT_Ok, Z.ltb_lt in Hsize.
  apply FC_ASSERT_Ok, bool_decide_eq_true in He.
  assert (team_of d op.(gia_player) = None) as Hfree by (unfold team_of; by rewrite Hacc).
  assert (op.(gia_player) ∉ members t) as Hnew.
  { intros Hm. assert (team_of d op.(gia_player) = Some op.(gia_team)) by (apply (ro_members _ Hr); by exists t). congruence. }
  unfold gr_invite_accept_do_apply in Ha. apply bind_Ok in Ha as (d2 & H2 & Ha). apply bind_Ok in Ha as (d3 & H3 & Ha).
  apply bind_Ok in Ha as (i & _ & Ha). apply Ok_inj in Ha as <-.
  apply modify_team_Ok in H2 as (t1 & t' & Ht1 & Hf & E2 & T2). apply Ok_inj in Hf as <-. rewrite E in Ht1, E2. assert (t1 = t) as -> by congruence.
  apply set_team_Ok in H3 as (_ & E3 & _ & T3). pose proof (ro_teams _ Hr _ _ Ht) as [Hc _].
  eapply (update_rosters d _ _ _ _ op.(gia_player) Hr Ht); [cbn [d_gr_teams over]; rewrite E3; exact E2| | | |congruence].
  - split; cbn; [unfold members in Hnew; set_solver|].
    rewrite size_union by (unfold members in Hnew; set_solver). rewrite size_singleton. lia.
  - intros b Hb. unfold members. cbn. set_solver.
  - intros b. change (team_of (d3 <| d_gr_invites := i |>) b) with (team_of d3 b). rewrite T3, T2, T.
    destruct (decide (b = op.(gia_player))); [|done]. rewrite decide_True; [done|]. unfold members. cbn. set_solver.
Qed.

Lemma drop_rosters d d1 captain player team d' :
  rosters_ok d → same_but_fees d d1 → captain ≠ player → check_member d captain player team = Ok tt →
  drop_member d1 player team = Ok d' → rosters_ok d'.
Proof.
  intros Hr Hs Hne He Ha. apply fees_teams in Hs as [E T].
  unfold check_member in He. do 2 (apply bind_Ok in He as (? & _ & He)). apply bind_Ok in He as (t & Ht & He).
  apply index_get_Ok in Ht. apply bind_Ok in He as (a & _ & He). apply bind_Ok in He as (? & Hin & He).
  apply FC_ASSERT_Ok, bool_decide_eq_true in Hin. apply bind_Ok in He as (? & _ & Hc). apply FC_ASSERT_Ok, Z.eqb_eq in Hc.
  unfold drop_member in Ha. apply bind_Ok in Ha as (d2 & H2 & Ha). apply set_team_Ok in H2 as (_ & E2 & _ & T2).
  apply modify_team_Ok in Ha as (t1 & t' & Ht1 & Hf & E3 & T3). apply Ok_inj in Hf as <-. rewrite E2, E in Ht1, E3. assert (t1 = t) as -> by congruence.
  pose proof (ro_teams _ Hr _ _ Ht) as [Hcap Hsize].
  eapply (update_rosters d _ _ _ _ player Hr Ht E3).
  - split; cbn; [set_solver|]. rewrite size_difference by set_solver. rewrite size_singleton. lia.
  - intros b Hb. unfold members. cbn. set_solver.
  - intros b. rewrite T3, T2, T. destruct (decide (b = player)) as [->|]; [|done]. rewrite decide_False; [done|].
    unfold members. cbn. set_solver.
  - intros id Hid. assert (team_of d player = Some team) by (apply (ro_members _ Hr); exists t; split; [done|unfold members; set_solver]). congruence.
Qed.

Lemma other_rosters d d' : (∀ acct, team_of d' acct = team_of d acct) →
  (∀ id, roster <$> (d'.(d_gr_teams).(objs) !! id) = roster <$> (d.(d_gr_teams).(objs) !! id)) → rosters_ok d → rosters_ok d'.
Proof.
  intros HT HR [H1 H2].
  assert (∀ id t, d'.(d_gr_teams).(objs) !! id = Some t → ∃ u, d.(d_gr_teams).(objs) !! id = Some u ∧ roster u = roster t) as Hback.
  { intros id t Ht. specialize (HR id). rewrite Ht in HR. destruct (d.(d_gr_teams).(objs) !! id) as [u|]; [|done]. exists u. split; [done|]. by apply Some_inj in HR. }
  split.
  - intros id t Ht. destruct (Hback _ _ Ht) as (u & Hu & [= E1 E2]). unfold roster_ok. rewrite <-E1, <-E2. by apply (H1 id).
  - intros acct id. rewrite HT, H2. split; intros (t & Ht & Hm).
    + specialize (HR id). rewrite Ht in HR. destruct (d'.(d_gr_teams).(objs) !! id) as [u|]; [|done]. injection HR as E1 E2.
      exists u. split; [done|]. unfold members. by rewrite E1, E2.
    + destruct (Hback _ _ Ht) as (u & Hu & [= E1 E2]). exists u. split; [done|]. unfold members. by rewrite E1, E2.
Qed.

(** The rosters of the great race: however teams are founded and dissolved, players
    invited, taken in, removed or gone, every account is in one team at most, names
    exactly the team it is a member of, and no team has more than eleven players next
    to its captain. *)
Theorem rosters_kept d d' (Hd : rosters_ok d) (Hsteps : rtc roster_step d d') : rosters_ok d'.
Proof.
  induction Hsteps as [|d1 d2 d3 Hs _ IH]; [done|]. apply IH. clear IH.
  destruct Hs as [d op d' H|d op d' H|d op d' (d1 & Hs & _ & _ & Ha)|d op d' H|d op d' (d1 & Hs & Hv & He & Ha)|d op d' (d1 & Hs & Hv & He & Ha)|d d' HT HR].
  - by eapply create_rosters.
  - by eapply delete_rosters.
  - cbn in Ha. unfold gr_invite_send_do_apply in Ha. apply bind_Ok in Ha as ([? i] & _ & Ha). apply Ok_inj in Ha as <-.
    apply fees_teams in Hs as [E T]. apply (other_rosters d); [exact T|cbn; by rewrite E|done].
  - by eapply accept_rosters.
  - cbn in Hv, He, Ha. apply bind_Ok in Hv as (? & _ & Hv). apply FC_ASSERT_Ok, negb_true_iff, Z.eqb_neq in Hv. by eapply (drop_rosters d d1).
  - cbn in Hv, He, Ha. apply bind_Ok in Hv as (? & _ & Hv). apply FC_ASSERT_Ok, negb_true_iff, Z.eqb_neq in Hv. by eapply (drop_rosters d d1).
  - by eapply other_rosters.
Qed.

(** *** A team of two *)
Definition race_db : database := sample_db <| d_dgpo ::= λ g, g <| dgp_current_gr_interval := 1 |> |>.
Definition found_team : gr_team_create_operation := GrTeamCreateOp (Asset 0 0) 6 "Alpha" "" "".
Definition invite_player : gr_invite_send_operation := GrInviteSendOp (Asset 0 0) 6 7 0.
Definition join_team : gr_invite_accept_operation := GrInviteAcceptOp (Asset 0 0) 6 7 0 0.
Definition race_db1 : database := ok_or race_db (gr_team_create_do_apply race_db found_team).
Definition race_db2 : database := ok_or race_db (gr_invite_send_do_apply race_db1 invite_player).
Definition race_db3 : database := ok_or race_db (gr_invite_accept_do_apply race_db2 join_team).

Lemma no_team_rosters d : d.(d_gr_teams).(objs) = ∅ → map_Forall (λ _ a, a.(acc_gr_team) = None) d.(d_accounts).(objs) → rosters_ok d.
Proof.
  intros E H. split; [by rewrite E|]. intros acct id. rewrite E. unfold team_of. split.
  - destruct (d.(d_accounts).(objs) !! acct) as [a|] eqn:Ea; [|done]. cbn. by rewrite (H _ _ Ea).
  - intros (t & Ht & _). by rewrite lookup_empty in Ht.
Qed.

Lemma rosters_kept_witness : rosters_ok race_db3 ∧ team_of race_db3 6 = Some 0 ∧ team_of race_db3 7 = Some 0.
Proof.
  split; [|by vm_compute]. apply (rosters_kept race_db).
  - apply no_team_rosters; [reflexivity|]. apply (bool_decide_unpack _). by vm_compute.
  - eapply rtc_l; [apply (step_create _ found_team race_db1), performs_run; by vm_compute|].
    eapply rtc_l; [apply (step_send _ invite_player race_db2), performs_run; by vm_compute|].
    apply rtc_once, (step_accept _ join_team race_db3), performs_run; by vm_compute.
Defined.
