(* ===== verification/Race.v ===== *)
(** * The end of an interval of the great race

    [db_maint.cpp]: the bonus of the three best teams, the settlement of the bets, the
    ranks with their rewards, the apostolos and the count of the votes, as the
    maintenance runs them when an interval ends. *)
From stdpp Require Import sorting.
From S2P Require Import Prelude Safe Raw Asset Authority Objects Database Ledger Vesting Balance Evaluator Sample Referral Poc GreatRace.

(** ** The teams in the order of a volume *)

(** The indices [by_gr_interval_N_volume], [by_total_first_half_volume], ... are ordered
    by a volume, then by the identifier. *)
Definition key_le (vol : gr_team_object → Z) (x y : Z * gr_team_object) : Prop :=
  vol x.2 < vol y.2 ∨ (vol x.2 = vol y.2 ∧ x.1 ≤ y.1).
#[export] Instance key_le_dec vol : RelDecision (key_le vol).
Proof. intros x y. unfold key_le. apply _. Defined.
Definition teams_by (vol : gr_team_object → Z) (d : database) : list (Z * gr_team_object) :=
  merge_sort (key_le vol) (map_to_list d.(d_gr_teams).(objs)).
(** From [rbegin] on. *)
Definition best_first (vol : gr_team_object → Z) (d : database) : list (Z * gr_team_object) := reverse (teams_by vol d).

(** The volume an interval of the race is about. *)
Definition interval_volume (n : Z) : option (gr_team_object → Z) :=
  if n =? 2 then Some gr_interval_2_volume
  else if n =? 4 then Some gr_interval_4_volume
  else if n =? 6 then Some gr_interval_6_volume
  else if n =? 9 then Some gr_interval_9_volume
  else if n =? 11 then Some gr_interval_11_volume
  else if n =? 13 then Some gr_interval_13_volume
  else None.

(** ** proceed_gr_top3 *)
Definition pay_top (d : database) (supply : Z) (vol : gr_team_object → Z) (x : Z * gr_team_object) : result (database * Z) :=
  if 0 <? vol x.2 then
    let r := d.(d_dgpo).(dgp_gr_top3_reward) in
    let d1 := push_applied_operation d (gr_pay_top_reward_op x.2.(gr_captain) x.1 (interval d) (Asset r CORE)) in
    d2 ← adjust_balance d1 x.2.(gr_captain) (Asset r CORE);
    s ← safe_add supply r; Ok (d2, s)
  else Ok (d, supply).

Definition proceed_gr_top3 (d : database) : result database :=
  match interval_volume (interval d) with
  | None => Ok d
  | Some vol =>
      if 3 <=? Z.of_nat (size d.(d_gr_teams).(objs)) then
        '(d1, supply) ← foldM (λ '(d, supply) x, pay_top d supply vol x) (d, 0) (take 3 (best_first vol d));
        add_supply d1 CORE supply
      else Ok d
  end.

(** ** proceed_gr_bets *)

(** The places, from 1; [rating[id]] is 0 for a team that is not there. *)
Definition places (teams : list (Z * gr_team_object)) : gmap Z Z :=
  list_to_map (zip (fst <$> teams) (Z.of_nat <$> seq 1 (length teams))).
Definition rating (d : database) : gmap Z Z :=
  match interval_volume (interval d) with Some vol => places (best_first vol d) | None => ∅ end.
Definition place_of (r : gmap Z Z) (team : Z) : Z := default 0 (r !! team).

(** [total_prize * stake / total], in [fc::uint128]. *)
Definition prize_part (total_prize stake total : Z) : result Z :=
  if uint128_of_int64 total =? 0 then Err divide_by_zero_exception
  else to_uint64 (uint128_mul (uint128_of_int64 total_prize) (uint128_of_int64 stake) `div` uint128_of_int64 total).

(** The winners share the prize in proportion to their stakes; [win] is the virtual operation. *)
Definition pay_winner (total_prize total : Z) (win : Z → Z → Z → applied_operation) (st : database * Z) (bet : Z * Z) :
    result (database * Z) :=
  let '(d, total_payed) := st in
  prize ← prize_part total_prize bet.2 total;
  total_payed ← safe_add total_payed (to_int64 prize);
  if 0 <? prize then
    let d1 := push_applied_operation d (win bet.1 bet.2 (to_int64 prize)) in
    d2 ← adjust_balance d1 bet.1 (Asset (to_int64 prize) CORE); Ok (d2, total_payed)
  else Ok (d, total_payed).

Definition push_all (d : database) (op : Z * Z → applied_operation) (bets : gmap Z Z) : database :=
  foldl (λ d bet, push_applied_operation d (op bet)) d (map_in_order bets).

(** A bet is won: the prize goes to the winners, what rounding leaves to the fees. *)
Definition settle_bet (d : database) (acc total_prize total : Z) (winners losers : gmap Z Z)
    (win : Z → Z → Z → applied_operation) (loose : Z → applied_operation) : result (database * Z) :=
  '(d1, total_payed) ← foldM (pay_winner total_prize total win) (d, 0) (map_in_order winners);
  acc ← (if total_payed <? total_prize then rest ← safe_sub total_prize total_payed; safe_add acc rest else Ok acc);
  Ok (push_all d1 (λ bet, loose bet.1) losers, acc).

(** A bet without takers on one side: the stakes go back. *)
Definition refund_bets (d : database) (bets : gmap Z Z) (cancel : Z → Z → applied_operation) : result database :=
  foldM (λ d bet, adjust_balance (push_applied_operation d (cancel bet.1 bet.2)) bet.1 (Asset bet.2 CORE)) d (map_in_order bets).

Definition nonempty (bets : gmap Z Z) : bool := 0 <? Z.of_nat (size bets).

Definition proceed_range_bet (r : gmap Z Z) (st : database * Z) (x : Z * gr_range_bet_object) : result (database * Z) :=
  let '(d, acc) := st in let '(id, b) := x in
  let place := place_of r b.(rb_team) in
  let win total := λ bettor stake prize, gr_range_bet_win_op id b.(rb_team) b.(rb_lower_rank) b.(rb_upper_rank) place
                     (Asset b.(rb_total_prize) CORE) (Asset total CORE) (Asset stake CORE) (Asset prize CORE) bettor in
  let loose := λ bettor, gr_range_bet_loose_op id b.(rb_team) b.(rb_lower_rank) b.(rb_upper_rank) place bettor in
  let cancel := λ bettor stake, gr_range_bet_cancel_op id b.(rb_team) b.(rb_lower_rank) b.(rb_upper_rank) place (Asset stake CORE) bettor in
  if nonempty b.(rb_true_bets) && nonempty b.(rb_false_bets) then
    if (b.(rb_lower_rank) <=? place) && (place <=? b.(rb_upper_rank))
    then settle_bet d acc b.(rb_total_prize) b.(rb_total_true_bets) b.(rb_true_bets) b.(rb_false_bets) (win b.(rb_total_true_bets)) loose
    else settle_bet d acc b.(rb_total_prize) b.(rb_total_false_bets) b.(rb_false_bets) b.(rb_true_bets) (win b.(rb_total_false_bets)) loose
  else
    d1 ← refund_bets d b.(rb_true_bets) cancel; d2 ← refund_bets d1 b.(rb_false_bets) cancel; Ok (d2, acc).

Definition proceed_team_bet (r : gmap Z Z) (st : database * Z) (x : Z * gr_team_bet_object) : result (database * Z) :=
  let '(d, acc) := st in let '(id, b) := x in
  let first := place_of r b.(tb_team1) <? place_of r b.(tb_team2) in
  let winner := if first then b.(tb_team1) else b.(tb_team2) in
  let win total := λ bettor stake prize, gr_team_bet_win_op id b.(tb_team1) b.(tb_team2) winner
                     (Asset b.(tb_total_prize) CORE) (Asset total CORE) (Asset stake CORE) (Asset prize CORE) bettor in
  let loose := λ bettor, gr_team_bet_loose_op id b.(tb_team1) b.(tb_team2) winner bettor in
  let cancel := λ bettor stake, gr_team_bet_cancel_op id b.(tb_team1) b.(tb_team2) winner (Asset stake CORE) bettor in
  if nonempty b.(tb_team1_bets) && nonempty b.(tb_team2_bets) then
    if first
    then settle_bet d acc b.(tb_total_prize) b.(tb_total_team1_bets) b.(tb_team1_bets) b.(tb_team2_bets) (win b.(tb_total_team1_bets)) loose
    else settle_bet d acc b.(tb_total_prize) b.(tb_total_team2_bets) b.(tb_team2_bets) b.(tb_team1_bets) (win b.(tb_total_team2_bets)) loose
  else
    d1 ← refund_bets d b.(tb_team1_bets) cancel; d2 ← refund_bets d1 b.(tb_team2_bets) cancel; Ok (d2, acc).

(** [while( !idx.empty() ) remove( *idx.begin() )] *)
Definition index_clear {V} (i : index V) : index V := Index ∅ i.(next_id).

Definition proceed_gr_bets (d : database) : result database :=
  let r := rating d in
  '(d1, acc) ← foldM (proceed_range_bet r) (d, 0) (map_in_order d.(d_gr_range_bets).(objs));
  let d2 := d1 <| d_gr_range_bets ::= index_clear |> in
  '(d3, acc) ← foldM (proceed_team_bet r) (d2, acc) (map_in_order d2.(d_gr_team_bets).(objs));
  let d4 := d3 <| d_gr_team_bets ::= index_clear |> in
  add_accumulated_fees d4 CORE acc.

Definition clear_gr_invite (d : database) : database := d <| d_gr_invites ::= index_clear |>.

(** ** Ranks *)
Definition index_map {V} (f : V → V) (i : index V) : index V := Index (f <$> i.(objs)) i.(next_id).
Definition reset_gr_rank (d : database) : database :=
  d <| d_accounts ::= index_map (λ a, if 1 <=? a.(acc_last_gr_rank) then a <| acc_last_gr_rank := 0 |> else a) |>
    <| d_gr_teams ::= index_map (λ t, if 1 <=? t.(gr_last_gr_rank) then t <| gr_last_gr_rank := 0 |> else t) |>.

Definition set_rank (d : database) (acct rank : Z) : result database :=
  modify_account d acct (λ a, Ok (a <| acc_last_gr_rank := rank |>)).
Definition assign_player (team rank : Z) (d : database) (player : Z) : result database :=
  d1 ← set_rank d player rank; Ok (push_applied_operation d1 (gr_assign_rank_op player team rank)).

Definition assign_gr_rank_to_team (d : database) (id : Z) (reward rank : Z) : result database :=
  team ← get_team d id;
  d1 ← modify_team d id (λ t, Ok (t <| gr_last_gr_rank := rank |>));
  d2 ← set_rank d1 team.(gr_captain) rank;
  let d3 := push_applied_operation d2 (gr_pay_rank_reward_op team.(gr_captain) id rank (Asset reward CORE)) in
  d4 ← adjust_balance d3 team.(gr_captain) (Asset reward CORE);
  foldM (assign_player id rank) d4 (in_order team.(gr_players)).

(** The volume a half of the race is ranked by. *)
Definition half_volume (n : Z) : option (gr_team_object → Z) :=
  if n =? 7 then Some gr_first_half_volume else if n =? 14 then Some gr_second_half_volume else None.

Definition lower_bound (vol : gr_team_object → Z) (teams : list (Z * gr_team_object)) (v : Z) : nat :=
  length (filter (λ x, vol x.2 < v) teams).

(** From [lower_bound( start )] to [lower_bound( stop )], or to the end for the highest
    rank.  A walk whose end lies before its start misses it. *)
Definition rank_range (vol : gr_team_object → Z) (teams : list (Z * gr_team_object)) (start stop rank : Z) : result (list (Z * gr_team_object)) :=
  let itr := lower_bound vol teams start in
  let last := if rank =? 7 then length teams else lower_bound vol teams stop in
  if (itr <=? last)%nat then Ok (take (last - itr) (drop itr teams)) else Err out_of_fuel.

Definition assign_gr_rank (d : database) (start stop reward rank : Z) : result (database * Z) :=
  match half_volume (interval d) with
  | None => Ok (d, 0)
  | Some vol =>
      range ← rank_range vol (teams_by vol d) start stop rank;
      foldM (λ '(d, result) x, d' ← assign_gr_rank_to_team d x.1 reward rank; s ← safe_add result reward; Ok (d', s)) (d, 0) range
  end.

Definition volume_of (d : database) (rank : Z) : Z := nth (Z.to_nat (rank - 1)) d.(d_dgpo).(dgp_gr_volumes) 0.
(** The rewards of the ranks 1 to 6, of the elite and of the masters. *)
Definition reward_of (d : database) (rank : Z) : Z := nth (Z.to_nat (if rank =? 7 then 7 else rank - 1)) d.(d_dgpo).(dgp_gr_rewards) 0.
Definition elite_reward (d : database) : Z := nth 6 d.(d_dgpo).(dgp_gr_rewards) 0.

Definition assign_rank_step (st : database * Z) (rank : Z) : result (database * Z) :=
  let '(d, total_reward) := st in
  stop ← (if rank =? 7 then Ok 0 else safe_sub (volume_of d (rank + 1)) 1);
  '(d', r) ← assign_gr_rank d (volume_of d rank) stop (reward_of d rank) rank;
  total ← safe_add total_reward r; Ok (d', total).

(** The ten best, if they are masters. *)
Definition assign_elite (st : database * Z) (x : Z * gr_team_object) : result (database * Z) :=
  let '(d, total_reward) := st in
  team ← get_team d x.1;
  if team.(gr_last_gr_rank) =? 7 then
    d' ← assign_gr_rank_to_team d x.1 (elite_reward d) 8; total ← safe_add total_reward (elite_reward d); Ok (d', total)
  else Ok st.
Definition assign_elites (st : database * Z) : result (database * Z) :=
  match half_volume (interval st.1) with
  | Some vol => if 10 <=? Z.of_nat (size st.1.(d_gr_teams).(objs)) then foldM assign_elite st (take 10 (best_first vol st.1)) else Ok st
  | None => Ok st
  end.

Definition proceed_gr_rank (d : database) : result database :=
  st ← foldM assign_rank_step (reset_gr_rank d, 0) [1; 2; 3; 4; 5; 6; 7];
  '(d1, total_reward) ← assign_elites st;
  add_supply d1 CORE total_reward.

(** ** The apostolos *)

(** One vote each, more than half to act; the addresses of the authority stay. *)
Definition apostolos_authority (members : gset Z) (a : authority) : authority :=
  AuthorityOf (u32 (Z.of_nat (size members)) `div` 2 + 1) ((λ k, (k, 1)) <$> in_order members) [] a.(address_auths).
Definition set_apostolos_authority (d : database) (members : gset Z) : result database :=
  modify_account d GRAPHENE_APOSTOLOS_ACCOUNT (λ a, Ok (a <| acc_active ::= apostolos_authority members |>)).
Definition set_apostolos (d : database) (acct : Z) : result database :=
  modify_account d acct (λ a, Ok (a <| acc_apostolos := true |>)).

Definition first_apostolos : list Z := [32; 35; 37; 66; 105; 176; 429; 733; 3559].
Definition init_gr_race (d : database) : result database :=
  d1 ← foldM set_apostolos d first_apostolos;
  set_apostolos_authority d1 (list_to_set first_apostolos).

Definition enrol (team : Z) (d : database) (acct : Z) : result database :=
  d1 ← set_apostolos d acct; Ok (push_applied_operation d1 (gr_apostolos_op acct team)).
Definition proceed_apostolos (d : database) : result database :=
  let d1 := d <| d_accounts ::= index_map (λ a, if a.(acc_apostolos) then a <| acc_apostolos := false |> else a) |> in
  match best_first gr_total_volume d1 with
  | [] => Ok d1
  | (id, team) :: _ =>
      d2 ← foldM (enrol id) d1 (team.(gr_captain) :: in_order team.(gr_players));
      if HARDFORK_CWD7_TIME <=? head_block_time d2
      then set_apostolos_authority d2 ({[team.(gr_captain)]} ∪ team.(gr_players)) else Ok d2
  end.

(** ** Volumes and votes *)
Definition reset_team (t : gr_team_object) : gr_team_object :=
  if 1 <=? t.(gr_total_volume) then
    t <| gr_interval_2_volume := 0 |> <| gr_interval_4_volume := 0 |> <| gr_interval_6_volume := 0 |>
      <| gr_interval_9_volume := 0 |> <| gr_interval_11_volume := 0 |> <| gr_interval_13_volume := 0 |>
      <| gr_first_half_volume := 0 |> <| gr_second_half_volume := 0 |> <| gr_total_volume := 0 |>
  else t.
Definition reset_gr_volumes (d : database) : database := d <| d_gr_teams ::= index_map reset_team |>.

Definition has_gr_volume (s : account_statistics_object) : bool := (0 <? s.(st_last_period_gr)) || (0 <? s.(st_current_period_gr)).
Definition perform_gr_maintenance (d : database) : database :=
  d <| d_statistics ::= fmap (λ s, if has_gr_volume s
         then s <| st_last_period_gr := s.(st_current_period_gr) |> <| st_current_period_gr := 0 |> else s) |>.

Fixpoint add_all (l1 l2 : list Z) : result (list Z) :=
  match l1, l2 with
  | x :: l1, y :: l2 => z ← safe_add x y; l ← add_all l1 l2; Ok (z :: l)
  | _, _ => Ok []
  end.
Definition sum_votes (n : nat) (votes : list (list Z)) : result (list Z) := foldM add_all (replicate n 0) votes.
Definition count_gr_votes (d : database) : result database :=
  let votes := (map_in_order d.(d_gr_votes).(objs)).*2 in
  let total_votes := Z.of_nat (length votes) in
  if 0 <? total_votes then
    volumes ← sum_votes 7 (gv_volumes <$> votes);
    rewards ← sum_votes 8 (gv_rewards <$> votes);
    volumes ← mapM (λ v, safe_div v total_votes) volumes;
    rewards ← mapM (λ v, safe_div v total_votes) rewards;
    Ok (d <| d_gr_votes ::= index_clear |> <| d_dgpo ::= λ g, g <| dgp_gr_volumes := volumes |> <| dgp_gr_rewards := rewards |> |>)
  else Ok d.

(** ** The intervals *)

(** The local copies of the race's clock in [perform_chain_maintenance], written back at its end. *)
Record race_clock : Type := RaceClock {
  rc_interval : Z;
  rc_next_time : Z;
  rc_end_vote_time : Z;
  rc_vote_is_active : bool;
  rc_bet_time : Z }.
Definition clock_of (g : dynamic_global_property_object) : race_clock :=
  RaceClock g.(dgp_current_gr_interval) g.(dgp_next_gr_interval_time) g.(dgp_end_gr_vote_time) g.(dgp_gr_vote_is_active) g.(dgp_gr_bet_interval_time).
Definition write_clock (c : race_clock) (g : dynamic_global_property_object) : dynamic_global_property_object :=
  g <| dgp_current_gr_interval := c.(rc_interval) |> <| dgp_next_gr_interval_time := c.(rc_next_time) |>
    <| dgp_end_gr_vote_time := c.(rc_end_vote_time) |> <| dgp_gr_vote_is_active := c.(rc_vote_is_active) |>
    <| dgp_gr_bet_interval_time := c.(rc_bet_time) |>.

Definition days (n : Z) : Z := n * 86400.
Definition interval_days (d : database) (n : Z) : Z := nth (Z.to_nat (n - 1)) (greatrace d).(gr_intervals) 0.

(** An interval of racing begins: bets are open for its first half. *)
Definition begin_racing (d : database) (c : race_clock) (n : Z) : database * race_clock :=
  (clear_gr_invite d,
   RaceClock n (time_add c.(rc_next_time) (days (interval_days d n))) c.(rc_end_vote_time) c.(rc_vote_is_active)
     (time_add c.(rc_next_time) (days (interval_days d n `div` 2)))).
(** An interval of racing ends. *)
Definition end_racing (d : database) (c : race_clock) (n : Z) : result (database * race_clock) :=
  d1 ← proceed_gr_top3 d; d2 ← proceed_gr_bets d1;
  Ok (d2, RaceClock n (time_add c.(rc_next_time) (days (interval_days d n))) c.(rc_end_vote_time) c.(rc_vote_is_active) c.(rc_bet_time)).

Definition next_interval (d : database) (c : race_clock) (timestamp : Z) : result (database * race_clock) :=
  let n := c.(rc_interval) in
  if (n =? 0) || (n =? 14) then
    d0 ← (if n =? 0 then init_gr_race d else Ok d);
    d1 ← proceed_gr_rank d0;
    d2 ← proceed_apostolos d1;
    Ok (perform_gr_maintenance (reset_gr_volumes d2),
        RaceClock 1 (time_add c.(rc_next_time) (days (interval_days d 1))) (time_add timestamp (greatrace d).(gr_vote_duration)) true c.(rc_bet_time))
  else if n =? 1 then Ok (begin_racing d c 2)
  else if n =? 2 then end_racing d c 3
  else if n =? 3 then Ok (begin_racing d c 4)
  else if n =? 4 then end_racing d c 5
  else if n =? 5 then Ok (begin_racing d c 6)
  else if n =? 6 then end_racing d c 7
  else if n =? 7 then
    d1 ← proceed_gr_rank d;
    Ok (perform_gr_maintenance d1,
        RaceClock 8 (time_add c.(rc_next_time) (days (interval_days d 8))) c.(rc_end_vote_time) c.(rc_vote_is_active) c.(rc_bet_time))
  else if n =? 8 then Ok (begin_racing d c 9)
  else if n =? 9 then end_racing d c 10
  else if n =? 10 then Ok (begin_racing d c 11)
  else if n =? 11 then end_racing d c 12
  else if n =? 12 then Ok (begin_racing d c 13)
  else if n =? 13 then end_racing d c 14
  else Ok (d, c).

(** [core_asset.options.max_supply * 0.01] multiplies two [safe<int64_t>]: the factor 0.01 is converted to the integer 0. *)
Definition hardcup_flag (d : database) : result bool :=
  core_asset ← get_asset d CORE;
  core_dyn_data ← get_core_dynamic_data d;
  margin ← safe_mul core_asset.(ao_max_supply) 0;
  s ← safe_add core_dyn_data.(dd_current_supply) margin;
  Ok (core_asset.(ao_max_supply) <? s).

(** The part of [perform_chain_maintenance] about the race, for a block of this time and number. *)
Definition proceed_gr_interval (d : database) (timestamp block_num : Z) : result (database * race_clock) :=
  let c := clock_of d.(d_dgpo) in
  '(d1, c1) ←
    (if (c.(rc_next_time) <=? timestamp) && ((timestamp <? HARDFORK_CORE_144_TIME) || (HARDFORK_CORE_1482_BLOCK_NUM <? block_num)) then
       hardcup ← hardcup_flag d;
       if (HARDFORK_CORE_1482_BLOCK_NUM <? block_num) && hardcup then Ok (d, c) else next_interval d c timestamp
     else Ok (d, c));
  if (c1.(rc_end_vote_time) <=? timestamp) && c1.(rc_vote_is_active) then
    d2 ← count_gr_votes d1;
    Ok (d2, RaceClock c1.(rc_interval) c1.(rc_next_time) c1.(rc_end_vote_time) false c1.(rc_bet_time))
  else Ok (d1, c1).

(** With the clock written back, as the maintenance leaves it. *)
Definition gr_maintenance (d : database) (timestamp block_num : Z) : result database :=
  '(d', c) ← proceed_gr_interval d timestamp block_num; Ok (d' <| d_dgpo ::= write_clock c |>).

(** ** Lemmas on maps in order *)
Lemma map_in_order_perm {A} (m : gmap Z A) : map_in_order m ≡ₚ map_to_list m.
Proof. apply merge_sort_Permutation. Qed.
Lemma elem_of_map_in_order {A} (m : gmap Z A) k v : (k, v) ∈ map_in_order m ↔ m !! k = Some v.
Proof. by rewrite map_in_order_perm, elem_of_map_to_list. Qed.
#[export] Instance lsum_proper {A} (f : A → Z) : Proper (Permutation ==> eq) (lsum f).
Proof. intros l1 l2 H. induction H; cbn; lia. Qed.
Lemma lsum_ext {A} (f g : A → Z) l : (∀ x, x ∈ l → f x = g x) → lsum f l = lsum g l.
Proof. induction l as [|x l IH]; intros H; cbn; [done|]. rewrite (H x), IH; [done|set_solver|set_solver]. Qed.
Lemma lsum_in_order {A} (f : Z * A → Z) (m : gmap Z A) : lsum f (map_in_order m) = msum (λ k v, f (k, v)) m.
Proof.
  rewrite map_in_order_perm. induction m as [|k v m Hk IH] using map_ind; [by rewrite map_to_list_empty|].
  rewrite map_to_list_insert, msum_insert_None by done. cbn. by rewrite IH.
Qed.
(** One entry of a map. *)
Lemma lsum_at {A} (f : A → Z) (m : gmap Z A) k :
  lsum (λ x, if decide (x.1 = k) then f x.2 else 0) (map_in_order m) = from_option f 0 (m !! k).
Proof.
  rewrite lsum_in_order. cbn. induction m as [|j v m Hj IH] using map_ind; [by rewrite msum_empty, lookup_empty|].
  rewrite msum_insert_None by done. rewrite IH. destruct (decide (j = k)) as [->|Hne].
  - rewrite Hj, lookup_insert_eq. cbn. lia.
  - rewrite lookup_insert_ne by done. lia.
Qed.
Lemma lsum_div_le {A} (f : A → Z) p t l : 0 < t → t * lsum (λ x, (p * f x) `div` t) l ≤ p * lsum f l.
Proof.
  intros Ht. induction l as [|x l IH]; cbn; [lia|]. pose proof (Z.mul_div_le (p * f x) t Ht). lia.
Qed.

(** ** The settlement of the bets *)

(** The totals of a bet are the sums of its stakes, which are positive. *)
Definition side_ok (bets : gmap Z Z) (total : Z) : Prop := total = msum (λ _ z, z) bets ∧ map_Forall (λ _ z, 0 < z) bets.
Definition range_bet_ok (b : gr_range_bet_object) : Prop :=
  side_ok b.(rb_true_bets) b.(rb_total_true_bets) ∧ side_ok b.(rb_false_bets) b.(rb_total_false_bets) ∧
  b.(rb_total_prize) = b.(rb_total_true_bets) + b.(rb_total_false_bets) ∧ b.(rb_total_prize) ≤ int64_max.
Definition team_bet_ok (b : gr_team_bet_object) : Prop :=
  side_ok b.(tb_team1_bets) b.(tb_total_team1_bets) ∧ side_ok b.(tb_team2_bets) b.(tb_total_team2_bets) ∧
  b.(tb_total_prize) = b.(tb_total_team1_bets) + b.(tb_total_team2_bets) ∧ b.(tb_total_prize) ≤ int64_max.
Record bets_ok (d : database) : Prop := {
  bo_range : map_Forall (λ _ b, range_bet_ok b) d.(d_gr_range_bets).(objs);
  bo_team : map_Forall (λ _ b, team_bet_ok b) d.(d_gr_team_bets).(objs) }.

Lemma side_nonneg bets total : side_ok bets total → 0 ≤ total.
Proof. intros [-> H]. apply msum_nonneg. intros k z Hz. specialize (H k z Hz). cbn in H. lia. Qed.
Lemma side_stake bets total k z : side_ok bets total → bets !! k = Some z → 0 < z ≤ total.
Proof.
  intros [-> H] Hz. specialize (H k z Hz) as Hp. cbn in Hp. split; [lia|].
  apply (msum_lookup_le (λ _ z, z) bets k z); [|done]. intros j y Hy. specialize (H j y Hy). cbn in H. lia.
Qed.

Lemma prize_part_exact p stake t : 0 ≤ p ≤ int64_max → 0 < stake ≤ t → t ≤ p →
  prize_part p stake t = Ok ((p * stake) `div` t) ∧ to_int64 ((p * stake) `div` t) = (p * stake) `div` t ∧ stake ≤ (p * stake) `div` t ≤ p.
Proof.
  unfold int64_max. intros Hp Hs Ht.
  assert (stake ≤ (p * stake) `div` t ≤ p) as Hb.
  { split; [apply Z.div_le_lower_bound; nia|apply Z.div_le_upper_bound; nia]. }
  split; [|split; [|done]].
  - unfold prize_part, uint128_mul, uint128_of_int64, uint128_mod, to_uint64, uint64_mod.
    rewrite !(Z.mod_small p), !(Z.mod_small stake), !(Z.mod_small t) by lia. rewrite Z.mod_small by nia.
    destruct (Z.eqb_spec t 0); [lia|]. destruct (Z.ltb_spec ((p * stake) `div` t) 18446744073709551616); [done|lia].
  - apply to_int64_id. unfold in_int64, int64_min, int64_max. lia.
Qed.

(** What an account has in core. *)
Definition core_of (d : database) (acct : Z) : Z := (get_balance d acct CORE).(amount).
Lemma core_of_push d op acct : core_of (push_applied_operation d op) acct = core_of d acct.
Proof. reflexivity. Qed.
Lemma core_of_adjust d acct z d' b : adjust_balance d acct (Asset z CORE) = Ok d' →
  core_of d' b = core_of d b + (if decide (acct = b) then z else 0).
Proof.
  intros H. unfold core_of. rewrite (adjust_balance_get _ _ _ _ _ _ H). cbn.
  destruct (decide (acct = b)) as [->|Hne]; [by rewrite decide_True|rewrite decide_False; [done|congruence]].
Qed.

(** The steps of the settlement leave the race's tables alone. *)
Definition same_race (d d' : database) : Prop :=
  d'.(d_gr_range_bets) = d.(d_gr_range_bets) ∧ d'.(d_gr_team_bets) = d.(d_gr_team_bets) ∧
  d'.(d_gr_teams) = d.(d_gr_teams) ∧ d'.(d_dgpo) = d.(d_dgpo).
#[export] Instance same_race_preorder : PreOrder same_race.
Proof. split; [done|]. intros d1 d2 d3 (A1 & A2 & A3 & A4) (B1 & B2 & B3 & B4). repeat split; congruence. Qed.
Lemma same_race_push d op : same_race d (push_applied_operation d op).
Proof. done. Qed.
Lemma same_race_adjust d acct x d' : adjust_balance d acct x = Ok d' → same_race d d'.
Proof. intros H. apply adjust_balance_Ok in H as [[-> _]|(? & -> & _)]; done. Qed.

(** [pays d d' z w]: the run brings [z] core into the accounts, [w b] to account [b]. *)
Record pays (d d' : database) (z : Z) (w : Z → Z) : Prop := {
  pays_flow : flow d d' (λ a, core_only a z);
  pays_core : ∀ b, core_of d' b = core_of d b + w b;
  pays_race : same_race d d' }.
Lemma pays_refl d : pays d d 0 (λ _, 0).
Proof. split; [eapply flow_ext; [apply flow_refl|flow_arith]|intros; lia|reflexivity]. Qed.
Lemma pays_trans d1 d2 d3 z1 z2 w1 w2 : pays d1 d2 z1 w1 → pays d2 d3 z2 w2 → pays d1 d3 (z1 + z2) (λ b, w1 b + w2 b).
Proof.
  intros [A1 A2 A3] [B1 B2 B3]. split.
  - eapply flow_ext; [exact (flow_trans _ _ _ _ _ A1 B1)|]. flow_arith.
  - intros b. rewrite B2, A2. lia.
  - by etransitivity.
Qed.
Lemma pays_ext d d' z z' w w' : pays d d' z w → z = z' → (∀ b, w b = w' b) → pays d d' z' w'.
Proof. intros [H1 H2 H3] <- E. split; [done| |done]. intros b. by rewrite H2, E. Qed.
Lemma pays_credit d acct z d' : adjust_balance d acct (Asset z CORE) = Ok d' →
  pays d d' z (λ b, if decide (acct = b) then z else 0).
Proof.
  intros H. split; [|intros b; by apply core_of_adjust|by eapply same_race_adjust].
  apply (flows (P := _ = Ok _)) in H. eapply flow_ext; [exact H|]. flow_arith.
Qed.
Lemma pays_push d d' op z w : pays (push_applied_operation d op) d' z w → pays d d' z w.
Proof.
  intros [H1 H2 H3]. split; [|exact H2|exact H3]. eapply flow_ext; [exact (flow_trans _ _ _ _ _ (flow_push d op) H1)|]. flow_arith.
Qed.
Lemma pays_push_all d op bets : pays d (push_all d op bets) 0 (λ _, 0).
Proof.
  unfold push_all. generalize (map_in_order bets). intros l. revert d. induction l as [|x l IH]; intros d; cbn; [apply pays_refl|].
  eapply pays_push, IH.
Qed.

(** *** What a bettor gets *)
Definition prize_of (p t stake : Z) : Z := (p * stake) `div` t.
Definition winnings (p t : Z) (winners : gmap Z Z) (b : Z) : Z := from_option (prize_of p t) 0 (winners !! b).
Definition stakes (m1 m2 : gmap Z Z) (b : Z) : Z := default 0 (m1 !! b) + default 0 (m2 !! b).
Definition range_payout (r : gmap Z Z) (x : gr_range_bet_object) (b : Z) : Z :=
  let place := place_of r x.(rb_team) in
  if nonempty x.(rb_true_bets) && nonempty x.(rb_false_bets) then
    if (x.(rb_lower_rank) <=? place) && (place <=? x.(rb_upper_rank)) then winnings x.(rb_total_prize) x.(rb_total_true_bets) x.(rb_true_bets) b
    else winnings x.(rb_total_prize) x.(rb_total_false_bets) x.(rb_false_bets) b
  else stakes x.(rb_true_bets) x.(rb_false_bets) b.
Definition team_payout (r : gmap Z Z) (x : gr_team_bet_object) (b : Z) : Z :=
  if nonempty x.(tb_team1_bets) && nonempty x.(tb_team2_bets) then
    if place_of r x.(tb_team1) <? place_of r x.(tb_team2) then winnings x.(tb_total_prize) x.(tb_total_team1_bets) x.(tb_team1_bets) b
    else winnings x.(tb_total_prize) x.(tb_total_team2_bets) x.(tb_team2_bets) b
  else stakes x.(tb_team1_bets) x.(tb_team2_bets) b.

Lemma pay_winners p t win l d tp d' tp' :
  0 ≤ p ≤ int64_max → t ≤ p → (∀ x, x ∈ l → 0 < x.2 ≤ t) → foldM (pay_winner p t win) (d, tp) l = Ok (d', tp') →
  pays d d' (lsum (λ x, prize_of p t x.2) l) (λ b, lsum (λ x, if decide (x.1 = b) then prize_of p t x.2 else 0) l) ∧
  tp' = tp + lsum (λ x, prize_of p t x.2) l.
Proof.
  intros Hp Ht. revert d tp. induction l as [|[a z] l IH]; intros d tp Hl H; cbn [foldM lsum] in *.
  { apply Ok_inj in H. injection H as <- <-. split; [apply pays_refl|lia]. }
  apply bind_Ok in H as ([d1 tp1] & H1 & H). apply IH in H as [P ->]; [|set_solver].
  destruct (Hl (a, z)) as [Hz1 Hz2]; [set_solver|]. cbn [fst snd] in *.
  destruct (prize_part_exact p z t Hp (conj Hz1 Hz2) Ht) as (E1 & E2 & E3). unfold pay_winner in H1. cbn [fst snd] in H1. rewrite E1 in H1.
  apply bind_Ok in H1 as (q & E & H1). apply Ok_inj in E as <-. apply bind_Ok in H1 as (tp2 & Htp & H1). rewrite !E2 in *.
  apply safe_add_Ok in Htp as ->. destruct (Z.ltb_spec 0 ((p * z) `div` t)); [|lia].
  apply bind_Ok in H1 as (d2 & H2 & H1). apply Ok_inj in H1. injection H1 as <- <-. apply pays_credit, pays_push in H2.
  split; [|unfold prize_of; lia]. eapply pays_ext; [exact (pays_trans _ _ _ _ _ _ _ H2 P)|done|]. intros b. cbn. done.
Qed.

Lemma settle_bet_pays d acc p t winners losers win loose d' acc' :
  0 ≤ p ≤ int64_max → t ≤ p → side_ok winners t → nonempty winners = true →
  settle_bet d acc p t winners losers win loose = Ok (d', acc') → pays d d' (p - (acc' - acc)) (winnings p t winners).
Proof.
  intros Hp Ht Hs Hn H. unfold settle_bet in H. apply bind_Ok in H as ([d1 paid] & H1 & H). apply bind_Ok in H as (acc1 & Hacc & H).
  apply Ok_inj in H. injection H as <- <-. assert (∀ x, x ∈ map_in_order winners → 0 < x.2 ≤ t) as Hall.
  { intros [k z] Hx. apply elem_of_map_in_order in Hx. by eapply side_stake. }
  apply pay_winners in H1 as [P ->]; [|done..].
  assert (0 < t) as Hpos.
  { unfold nonempty in Hn. apply Z.ltb_lt in Hn. destruct (map_choose winners) as (k & z & Hz).
    - intros ->. rewrite map_size_empty in Hn. lia.
    - pose proof (side_stake _ _ _ _ Hs Hz). lia. }
  set (S := lsum (λ x, prize_of p t x.2) (map_in_order winners)) in *.
  assert (S ≤ p) as Hle.
  { pose proof (lsum_div_le (λ x : Z * Z, x.2) p t (map_in_order winners) Hpos) as L. fold S in L.
    rewrite (lsum_in_order (λ x, x.2)) in L. cbn in L. destruct Hs as [E _]. rewrite <-E in L. unfold prize_of in S. nia. }
  assert (acc1 = acc + (p - S)) as ->.
  { destruct (Z.ltb_spec (0 + S) p) in Hacc.
    - apply bind_Ok in Hacc as (r & Hr & Hacc). apply safe_sub_Ok in Hr as ->. apply safe_add_Ok in Hacc as ->. lia.
    - apply Ok_inj in Hacc as <-. lia. }
  eapply pays_ext; [exact (pays_trans _ _ _ _ _ _ _ P (pays_push_all d1 _ losers))|lia|].
  intros b. cbn beta. rewrite (lsum_at (prize_of p t)). unfold winnings. lia.
Qed.

Lemma refund_pays d m cancel d' : refund_bets d m cancel = Ok d' → pays d d' (msum (λ _ z, z) m) (λ b, default 0 (m !! b)).
Proof.
  intros H. assert (∀ l d, foldM (λ d bet, adjust_balance (push_applied_operation d (cancel bet.1 bet.2)) bet.1 (Asset bet.2 CORE)) d l = Ok d' →
    pays d d' (lsum (λ x, x.2) l) (λ b, lsum (λ x, if decide (x.1 = b) then x.2 else 0) l)) as G.
  { clear d H. induction l as [|[a z] l IH]; intros d H; cbn [foldM lsum] in *; [apply Ok_inj in H as <-; apply pays_refl|].
    apply bind_Ok in H as (d1 & H1 & H). apply pays_credit, pays_push in H1. exact (pays_trans _ _ _ _ _ _ _ H1 (IH _ H)). }
  apply G in H. rewrite (lsum_in_order (λ x, x.2)) in H. eapply pays_ext; [exact H|done|]. intros b. cbn beta.
  rewrite (lsum_at (λ z, z)). by destruct (m !! b).
Qed.
Lemma refunds_pay d m1 m2 cancel d1 d2 : refund_bets d m1 cancel = Ok d1 → refund_bets d1 m2 cancel = Ok d2 →
  pays d d2 (msum (λ _ z, z) m1 + msum (λ _ z, z) m2) (stakes m1 m2).
Proof. intros H1%refund_pays H2%refund_pays. exact (pays_trans _ _ _ _ _ _ _ H1 H2). Qed.

Lemma proceed_range_bet_pays r d acc id b d' acc' : range_bet_ok b →
  proceed_range_bet r (d, acc) (id, b) = Ok (d', acc') → pays d d' (range_bet_held b - (acc' - acc)) (range_payout r b).
Proof.
  intros (H1 & H2 & H3 & H4) H. pose proof (side_nonneg _ _ H1). pose proof (side_nonneg _ _ H2).
  assert (range_bet_held b = b.(rb_total_prize)) as Eh by (unfold range_bet_held; destruct H1 as [<- _], H2 as [<- _]; lia).
  unfold proceed_range_bet in H. cbv zeta in H. unfold range_payout. cbv zeta.
  destruct (nonempty (rb_true_bets b)) eqn:N1, (nonempty (rb_false_bets b)) eqn:N2; cbn [andb] in *;
    try (apply bind_Ok in H as (d1 & E1 & H); apply bind_Ok in H as (d2 & E2 & H); apply Ok_inj in H; injection H as <- <-;
      eapply pays_ext; [exact (refunds_pay _ _ _ _ _ _ E1 E2)|unfold range_bet_held; lia|done]).
  rewrite Eh. destruct (_ && _) in H |- *; (eapply settle_bet_pays in H; [exact H|lia|lia|done|done]).
Qed.
Lemma proceed_team_bet_pays r d acc id b d' acc' : team_bet_ok b →
  proceed_team_bet r (d, acc) (id, b) = Ok (d', acc') → pays d d' (team_bet_held b - (acc' - acc)) (team_payout r b).
Proof.
  intros (H1 & H2 & H3 & H4) H. pose proof (side_nonneg _ _ H1). pose proof (side_nonneg _ _ H2).
  assert (team_bet_held b = b.(tb_total_prize)) as Eh by (unfold team_bet_held; destruct H1 as [<- _], H2 as [<- _]; lia).
  unfold proceed_team_bet in H. cbv zeta in H. unfold team_payout.
  destruct (nonempty (tb_team1_bets b)) eqn:N1, (nonempty (tb_team2_bets b)) eqn:N2; cbn [andb] in *;
    try (apply bind_Ok in H as (d1 & E1 & H); apply bind_Ok in H as (d2 & E2 & H); apply Ok_inj in H; injection H as <- <-;
      eapply pays_ext; [exact (refunds_pay _ _ _ _ _ _ E1 E2)|unfold team_bet_held; lia|done]).
  rewrite Eh. destruct (place_of r b.(tb_team1) <? place_of r b.(tb_team2)); (eapply settle_bet_pays in H; [exact H|lia|lia|done|done]).
Qed.

Lemma fold_pays {V} (step : database * Z → Z * V → result (database * Z)) (held_in : V → Z) (payout : V → Z → Z) l d acc d' acc' :
  (∀ d acc x d' acc', x ∈ l → step (d, acc) x = Ok (d', acc') → pays d d' (held_in x.2 - (acc' - acc)) (payout x.2)) →
  foldM step (d, acc) l = Ok (d', acc') →
  pays d d' (lsum (λ x, held_in x.2) l - (acc' - acc)) (λ b, lsum (λ x, payout x.2 b) l).
Proof.
  revert d acc. induction l as [|x l IH]; intros d acc Hs H; cbn [foldM lsum] in *.
  { apply Ok_inj in H. injection H as <- <-. eapply pays_ext; [apply pays_refl|lia|done]. }
  apply bind_Ok in H as ([d1 acc1] & H1 & H). apply Hs in H1; [|set_solver].
  eapply pays_ext; [exact (pays_trans _ _ _ _ _ _ _ H1 (IH _ _ (λ d acc x d' acc' Hx, Hs d acc x d' acc' (list_elem_of_further _ _ _ Hx)) H))|lia|done].
Qed.
Lemma isum_clear {V} (f : V → Z) (i : index V) : isum f (index_clear i) = 0.
Proof. unfold isum, index_clear. cbn. apply msum_empty. Qed.
Lemma lsum_isum {V} (f : V → Z) (i : index V) : lsum (λ x, f x.2) (map_in_order i.(objs)) = isum f i.
Proof. by rewrite (lsum_in_order (λ x, f x.2)). Qed.

(** The settlement of the bets: when an interval of the race ends, every bet is
    gone, each bettor of a bet with takers on both sides gets the share of the whole
    prize that his stake is of the winning side's, or nothing, the stakes of the other
    bets go back, and what rounding leaves is booked as fees, so that no value is
    created or lost. *)
Theorem proceed_gr_bets_settles d d' (Hb : bets_ok d) (H : proceed_gr_bets d = Ok d') :
  conserves d d' ∧ d'.(d_gr_range_bets).(objs) = ∅ ∧ d'.(d_gr_team_bets).(objs) = ∅ ∧
  ∀ b, core_of d' b = core_of d b + isum (λ x, range_payout (rating d) x b) d.(d_gr_range_bets)
                                  + isum (λ x, team_payout (rating d) x b) d.(d_gr_team_bets).
Proof.
  unfold proceed_gr_bets in H. cbv zeta in H. apply bind_Ok in H as ([d1 acc1] & H1 & H). apply bind_Ok in H as ([d3 acc3] & H3 & H).
  apply (fold_pays _ range_bet_held (range_payout (rating d))) in H1 as [F1 C1 (R1 & R2 & _)].
  2:{ intros ?? [id b] ?? Hin E. apply elem_of_map_in_order in Hin. eapply proceed_range_bet_pays; [by eapply bo_range|exact E]. }
  set (d2 := d1 <| d_gr_range_bets ::= index_clear |>) in *.
  apply (fold_pays _ team_bet_held (team_payout (rating d))) in H3 as [F3 C3 (R3 & R4 & _)].
  2:{ intros ?? [id b] ?? Hin E. apply elem_of_map_in_order in Hin. change (d_gr_team_bets d2) with (d_gr_team_bets d1) in Hin. rewrite R2 in Hin.
      eapply proceed_team_bet_pays; [by eapply bo_team|exact E]. }
  change (d_gr_team_bets d2) with (d_gr_team_bets d1) in F3, C3, R4. rewrite R2 in F3, C3, R4.
  rewrite lsum_isum in F1. rewrite lsum_isum in F3.
  pose proof (flow_gr_range_bets d1 (index_clear (d_gr_range_bets d1)) (- isum range_bet_held d.(d_gr_range_bets))) as F2.
  specialize (F2 ltac:(rewrite isum_clear, R1; lia)).
  set (d4 := d3 <| d_gr_team_bets ::= index_clear |>) in *.
  pose proof (flow_gr_team_bets d3 (index_clear (d_gr_team_bets d3)) (- isum team_bet_held d.(d_gr_team_bets))) as F4.
  specialize (F4 ltac:(rewrite isum_clear, R4; lia)).
  pose proof H as H5. apply (flows (P := _ = Ok _)) in H5. unfold add_accumulated_fees in H. apply modify_dynamic_data_Ok in H as (x & x' & _ & _ & ->).
  split; [|split; [|split]].
  - eapply flow_ext; [exact (flow_trans _ _ _ _ _ F1 (flow_trans _ _ _ _ _ F2 (flow_trans _ _ _ _ _ F3 (flow_trans _ _ _ _ _ F4 H5))))|]. flow_arith.
  - cbn. rewrite R3. done.
  - done.
  - intros b. change (core_of d3 b = core_of d b + isum (λ x, range_payout (rating d) x b) d.(d_gr_range_bets) + isum (λ x, team_payout (rating d) x b) d.(d_gr_team_bets)).
    rewrite C3. change (core_of d2 b) with (core_of d1 b). rewrite C1.
    rewrite (lsum_isum (λ x, range_payout (rating d) x b)), (lsum_isum (λ x, team_payout (rating d) x b)). lia.
Qed.

(** ** The ranks *)
Section sorted_teams.
Context (vol : gr_team_object → Z).

#[local] Instance key_le_total : Total (key_le vol).
Proof using Type. intros [i t] [j u]. unfold key_le. cbn. lia. Qed.
#[local] Instance key_le_trans : Transitive (key_le vol).
Proof using Type. intros [i t] [j u] [k w]. unfold key_le. cbn. lia. Qed.
Lemma teams_by_sorted d : StronglySorted (key_le vol) (teams_by vol d).
Proof using Type. apply StronglySorted_merge_sort; apply _. Qed.
Lemma elem_of_teams_by d k t : (k, t) ∈ teams_by vol d ↔ d.(d_gr_teams).(objs) !! k = Some t.
Proof using Type. unfold teams_by. by rewrite merge_sort_Permutation, elem_of_map_to_list. Qed.

(** In a sorted list the teams below a volume come first. *)
Lemma below_first l v : StronglySorted (key_le vol) l →
  l = filter (λ x, vol x.2 < v) l ++ filter (λ x, v ≤ vol x.2) l.
Proof using Type.
  induction 1 as [|x l Hl IH Hx]; [done|]. rewrite !filter_cons. destruct (decide (vol x.2 < v)) as [Hlt|Hge].
  - rewrite decide_False by lia. cbn. by rewrite IH at 1.
  - rewrite decide_True by lia. rewrite IH at 1.
    assert (filter (λ x, vol x.2 < v) l = []) as ->; [|done].
    clear -Hx Hge. induction l as [|y l IH]; [done|]. apply Forall_cons in Hx as [Hy Hx]. rewrite filter_cons, decide_False; [by apply IH|].
    unfold key_le in Hy. lia.
Qed.
Lemma drop_below l v : StronglySorted (key_le vol) l → drop (lower_bound vol l v) l = filter (λ x, v ≤ vol x.2) l.
Proof using Type. intros Hl. rewrite (below_first l v Hl) at 2. unfold lower_bound. apply drop_app_length. Qed.
Lemma below_between l v w : v ≤ w → lower_bound vol l w = (lower_bound vol l v + length (filter (λ x, (v ≤ vol x.2 < w)%Z) l))%nat.
Proof using Type.
  intros Hvw. unfold lower_bound. induction l as [|x l IH]; [done|]. rewrite !filter_cons. repeat case_decide; cbn; lia.
Qed.
Lemma between_first l v w : StronglySorted (key_le vol) l → v ≤ w →
  filter (λ x, v ≤ vol x.2) l = filter (λ x, v ≤ vol x.2 < w) l ++ filter (λ x, w ≤ vol x.2) l.
Proof using Type.
  intros Hl Hvw. rewrite (below_first l w Hl) at 1. rewrite filter_app, !list_filter_filter. f_equal; apply list_filter_iff; intros x; lia.
Qed.

Lemma rank_range_spec l start stop rank range : StronglySorted (key_le vol) l → rank_range vol l start stop rank = Ok range →
  range = filter (λ x, start ≤ vol x.2 ∧ (rank = 7 ∨ vol x.2 < stop)) l.
Proof using Type.
  intros Hl H. unfold rank_range in H. cbv zeta in H. destruct (_ <=? _)%nat eqn:E; [|discriminate H]. apply Nat.leb_le in E.
  apply Ok_inj in H as <-. rewrite drop_below by done. destruct (Z.eqb_spec rank 7) as [->|Hr].
  - rewrite take_ge; [apply list_filter_iff; intros; tauto|].
    rewrite <-(drop_below l start Hl), length_drop. lia.
  - destruct (Z.le_gt_cases start stop) as [Hle|Hgt].
    + rewrite (below_between l start stop Hle), (between_first l start stop Hl Hle).
      rewrite take_app_length' by lia. apply list_filter_iff. intros x. lia.
    + assert (lower_bound vol l start = lower_bound vol l stop) as ->.
      { pose proof (below_between l stop start ltac:(lia)). lia. }
      rewrite Nat.sub_diag. rewrite take_0. clear -Hr Hgt. induction l as [|x l IH]; [done|]. rewrite filter_cons. destruct (decide (_ ∧ _)) as [Hc|]; [exfalso; lia|exact IH].
Qed.
Lemma rank_range_total l start stop rank : (rank = 7 ∨ start ≤ stop) → is_ok (rank_range vol l start stop rank) = true.
Proof using Type.
  intros H. unfold rank_range. cbv zeta. destruct (Z.eqb_spec rank 7) as [->|].
  - rewrite (proj2 (Nat.leb_le _ _)); [done|]. unfold lower_bound. apply length_filter.
  - destruct H as [|H]; [done|]. rewrite (proj2 (Nat.leb_le _ _)); [done|]. rewrite (below_between l start stop H). lia.
Qed.
End sorted_teams.

(** *** Assigning a rank *)
Definition unranked (t : gr_team_object) : gr_team_object := t <| gr_last_gr_rank := 0 |>.
Definition rank_of (d : database) (id : Z) : option Z := gr_last_gr_rank <$> d.(d_gr_teams).(objs) !! id.

(** The run issues [z] to the captains and changes nothing of the teams but their ranks. *)
Record ranks_only (d d' : database) (z : Z) : Prop := {
  rk_flow : flow d d' (λ a, core_only a z);
  rk_dgpo : d'.(d_dgpo) = d.(d_dgpo);
  rk_teams : unranked <$> d'.(d_gr_teams).(objs) = unranked <$> d.(d_gr_teams).(objs) }.
Lemma ranks_only_refl d : ranks_only d d 0.
Proof. split; [eapply flow_ext; [apply flow_refl|flow_arith]|done..]. Qed.
Lemma ranks_only_trans d1 d2 d3 z1 z2 : ranks_only d1 d2 z1 → ranks_only d2 d3 z2 → ranks_only d1 d3 (z1 + z2).
Proof.
  intros [A1 A2 A3] [B1 B2 B3]. split; [|congruence..]. eapply flow_ext; [exact (flow_trans _ _ _ _ _ A1 B1)|]. flow_arith.
Qed.

Lemma set_rank_frame d acct rank d' : set_rank d acct rank = Ok d' →
  flow d d' (λ _, 0) ∧ d'.(d_dgpo) = d.(d_dgpo) ∧ d'.(d_gr_teams) = d.(d_gr_teams).
Proof.
  unfold set_rank. intros H. split; [by apply (flows (P := _ = Ok _)) in H|]. by apply modify_account_Ok in H as (? & ? & _ & _ & ->).
Qed.
Lemma assign_players_frame team rank l d d' : foldM (assign_player team rank) d l = Ok d' →
  flow d d' (λ _, 0) ∧ d'.(d_dgpo) = d.(d_dgpo) ∧ d'.(d_gr_teams) = d.(d_gr_teams).
Proof.
  intros H. apply (foldM_inv _ (λ d', flow d d' (λ _, 0) ∧ d'.(d_dgpo) = d.(d_dgpo) ∧ d'.(d_gr_teams) = d.(d_gr_teams))) in H; [done| |split; [apply flow_refl|done]].
  intros d1 p d2 (F & E1 & E2) H1. unfold assign_player in H1. apply bind_Ok in H1 as (d3 & H3 & H1). apply Ok_inj in H1 as <-.
  apply set_rank_frame in H3 as (F3 & E3 & E4). split; [|cbn; split; congruence].
  eapply flow_ext; [exact (flow_trans _ _ _ _ _ F (flow_trans _ _ _ _ _ F3 (flow_push _ _)))|]. done.
Qed.

Lemma assign_team_spec d id reward rank d' : assign_gr_rank_to_team d id reward rank = Ok d' →
  ranks_only d d' reward ∧ is_Some (d.(d_gr_teams).(objs) !! id) ∧
  ∀ k, rank_of d' k = if decide (k = id) then Some rank else rank_of d k.
Proof.
  unfold assign_gr_rank_to_team. cbv zeta. intros H. apply bind_Ok in H as (t & Ht & H). apply index_get_Ok in Ht.
  apply bind_Ok in H as (d1 & H1 & H). apply bind_Ok in H as (d2 & H2 & H). apply bind_Ok in H as (d4 & H4 & H).
  pose proof (flows (P := _ = Ok _) H1) as F1. apply set_rank_frame in H2 as (F2 & E2 & T2). apply assign_players_frame in H as (F & E & T).
  pose proof (flows (P := _ = Ok _) H4) as F4. apply same_race_adjust in H4 as (_ & _ & T4 & E4).
  unfold modify_team in H1. apply bind_Ok in H1 as (i & Hi & H1). apply Ok_inj in H1 as <-.
  apply index_modify_Ok in Hi as (t1 & t' & Ht1 & Hf & ->). apply Ok_inj in Hf as <-. assert (t1 = t) as -> by congruence.
  cbn in T2, E2, E4, T4. split; [split|split; [by exists t|]].
  - eapply flow_ext; [exact (flow_trans _ _ _ _ _ F1 (flow_trans _ _ _ _ _ F2 (flow_trans _ _ _ _ _ (flow_push _ _) (flow_trans _ _ _ _ _ F4 F))))|]. flow_arith.
  - congruence.
  - rewrite T, T4, T2. cbn. rewrite fmap_insert, insert_id; [done|]. rewrite lookup_fmap, Ht. by destruct t.
  - intros k. unfold rank_of. rewrite T, T4, T2. cbn. destruct (decide (k = id)) as [->|Hne]; [by rewrite lookup_insert_eq|by rewrite lookup_insert_ne].
Qed.

Lemma assign_list_spec l reward rank d s d' s' :
  foldM (λ '(d, result) (x : Z * gr_team_object), d' ← assign_gr_rank_to_team d x.1 reward rank; s ← safe_add result reward; Ok (d', s)) (d, s) l = Ok (d', s') →
  ranks_only d d' (s' - s) ∧ ∀ k, rank_of d' k = if decide (k ∈ l.*1) then Some rank else rank_of d k.
Proof.
  revert d s. induction l as [|x l IH]; intros d s H; cbn [foldM] in H.
  { apply Ok_inj in H. injection H as <- <-. rewrite Z.sub_diag. split; [apply ranks_only_refl|done]. }
  apply bind_Ok in H as ([d1 s1] & H1 & H). cbn beta iota in H1. apply bind_Ok in H1 as (d2 & H2 & H1). apply bind_Ok in H1 as (s2 & Hs & H1).
  apply Ok_inj in H1. injection H1 as <- <-. apply safe_add_Ok in Hs as ->. apply assign_team_spec in H2 as (R1 & _ & K1). apply IH in H as [R2 K2].
  split.
  - replace (s' - s) with (reward + (s' - (s + reward))) by lia. by eapply ranks_only_trans.
  - intros k. rewrite K2, K1. cbn [fmap list_fmap]. destruct (decide (k ∈ l.*1)), (decide (k = x.1)), (decide (k ∈ x.1 :: l.*1)); set_solver.
Qed.

(** The volumes a rank asks for. *)
Definition ranked_by (vs : list Z) (v r : Z) : bool :=
  (nth (Z.to_nat (r - 1)) vs 0 <=? v) && ((r =? 7) || (v <? nth (Z.to_nat r) vs 0 - 1)).
Definition rank_after (vs : list Z) (v r0 : Z) (rs : list Z) : Z := foldl (λ r0 r, if ranked_by vs v r then r else r0) r0 rs.

Lemma assign_rank_spec vol d r s d' s' : half_volume (interval d) = Some vol → 1 ≤ r ≤ 7 → assign_rank_step (d, s) r = Ok (d', s') →
  ranks_only d d' (s' - s) ∧ ∀ k t, d.(d_gr_teams).(objs) !! k = Some t →
    rank_of d' k = if ranked_by d.(d_dgpo).(dgp_gr_volumes) (vol t) r then Some r else rank_of d k.
Proof.
  intros Hv Hr H. unfold assign_rank_step in H. apply bind_Ok in H as (stop & Hstop & H). apply bind_Ok in H as ([d1 s1] & H1 & H).
  apply bind_Ok in H as (s2 & Hs & H). apply Ok_inj in H. injection H as <- <-. apply safe_add_Ok in Hs as ->.
  unfold assign_gr_rank in H1. rewrite Hv in H1. apply bind_Ok in H1 as (range & Hrange & H1).
  apply rank_range_spec in Hrange as ->; [|apply teams_by_sorted]. apply assign_list_spec in H1 as [R K]. split.
  { replace (s + s1 - s) with (s1 - 0) by lia. exact R. }
  intros k t Ht. rewrite K. assert (r ≠ 7 → stop = nth (Z.to_nat r) d.(d_dgpo).(dgp_gr_volumes) 0 - 1) as Es.
  { intros Hne. destruct (Z.eqb_spec r 7); [done|]. apply safe_sub_Ok in Hstop as ->. unfold volume_of. by replace (r + 1 - 1) with r by lia. }
  assert (k ∈ (filter (λ x, volume_of d r ≤ vol x.2 ∧ (r = 7 ∨ vol x.2 < stop)) (teams_by vol d)).*1 ↔
    ranked_by d.(d_dgpo).(dgp_gr_volumes) (vol t) r = true) as Hiff.
  { unfold ranked_by. rewrite list_elem_of_fmap, andb_true_iff, orb_true_iff, Z.leb_le, Z.eqb_eq, Z.ltb_lt. fold (volume_of d r). split.
    - intros ([k' t'] & -> & [[Hlo Hhi] Hin]%list_elem_of_filter). apply elem_of_teams_by in Hin. cbn in *. assert (t' = t) as -> by congruence.
      split; [done|]. destruct (decide (r = 7)) as [|Hne]; [by left|right]. rewrite <-(Es Hne). lia.
    - intros [Hlo Hhi]. exists (k, t). split; [done|]. apply list_elem_of_filter. split; [|by apply elem_of_teams_by]. cbn. split; [done|].
      destruct (decide (r = 7)) as [|Hne]; [by left|right]. rewrite (Es Hne). lia. }
  destruct (decide (k ∈ _)) as [Hin|Hin].
  - by rewrite (proj1 Hiff Hin).
  - destruct (ranked_by _ _ _); [|done]. exfalso. by apply Hin, Hiff.
Qed.

(** *** The ten best *)
Definition best_ten (vol : gr_team_object → Z) (d : database) : gset Z :=
  if 10 <=? Z.of_nat (size d.(d_gr_teams).(objs)) then list_to_set (take 10 (best_first vol d)).*1 else ∅.

Lemma same_teams_keys d d' k t' : unranked <$> d'.(d_gr_teams).(objs) = unranked <$> d.(d_gr_teams).(objs) →
  d'.(d_gr_teams).(objs) !! k = Some t' → ∃ t, d.(d_gr_teams).(objs) !! k = Some t ∧ unranked t' = unranked t.
Proof.
  intros E Ht. apply (f_equal (lookup k)) in E. rewrite !lookup_fmap, Ht in E. cbn in E.
  destruct (d.(d_gr_teams).(objs) !! k) as [t|] eqn:Et; cbn in E; [|discriminate E]. exists t. split; [done|]. by apply Some_inj in E.
Qed.

Definition bare (x : Z * gr_team_object) : Z * gr_team_object := (x.1, unranked x.2).
Lemma bare_teams_sorted vol d : (∀ t, vol (unranked t) = vol t) → StronglySorted (key_le vol) (bare <$> teams_by vol d).
Proof.
  intros Hv. assert (∀ l, StronglySorted (key_le vol) l → StronglySorted (key_le vol) (bare <$> l)) as G; [|apply G, teams_by_sorted].
  induction 1 as [|x l Hl IH Hx]; [constructor|]. cbn. constructor; [done|]. apply Forall_fmap. eapply Forall_impl; [exact Hx|].
  intros y H. unfold key_le in *. cbn. by rewrite !Hv.
Qed.
Lemma bare_teams_perm vol d : bare <$> teams_by vol d ≡ₚ map_to_list (unranked <$> d.(d_gr_teams).(objs)).
Proof. unfold teams_by. rewrite merge_sort_Permutation, map_to_list_fmap. done. Qed.
Lemma best_ids vol d d' : (∀ t, vol (unranked t) = vol t) → unranked <$> d'.(d_gr_teams).(objs) = unranked <$> d.(d_gr_teams).(objs) →
  (best_first vol d').*1 = (best_first vol d).*1.
Proof.
  intros Hv E. assert (bare <$> teams_by vol d' = bare <$> teams_by vol d) as Eb.
  { apply (StronglySorted_unique_strong (key_le vol)); [|by apply bare_teams_sorted..|by rewrite !bare_teams_perm, E].
    intros [i t] [j u] H1 H2 K1 K2. rewrite bare_teams_perm in H1, H2. rewrite E in H1. apply elem_of_map_to_list in H1, H2.
    unfold key_le in K1, K2. cbn in K1, K2. assert (i = j) as -> by lia. by replace u with t by congruence. }
  apply (f_equal (fmap fst)) in Eb. rewrite <-!list_fmap_compose in Eb. unfold best_first. rewrite !fmap_reverse. f_equal. exact Eb.
Qed.
Lemma best_ten_same vol d d' : (∀ t, vol (unranked t) = vol t) → unranked <$> d'.(d_gr_teams).(objs) = unranked <$> d.(d_gr_teams).(objs) →
  best_ten vol d' = best_ten vol d.
Proof.
  intros Hv E. unfold best_ten. rewrite !fmap_take, (best_ids vol d d' Hv E).
  assert (size d'.(d_gr_teams).(objs) = size d.(d_gr_teams).(objs)) as ->; [|done].
  by rewrite <-(map_size_fmap unranked), E, map_size_fmap.
Qed.

Lemma assign_elite_list l d s d' s' : foldM assign_elite (d, s) l = Ok (d', s') →
  ranks_only d d' (s' - s) ∧ ∀ k, rank_of d' k = if decide (k ∈ l.*1 ∧ rank_of d k = Some 7) then Some 8 else rank_of d k.
Proof.
  revert d s. induction l as [|x l IH]; intros d s H; cbn [foldM] in H.
  { apply Ok_inj in H. injection H as <- <-. rewrite Z.sub_diag. split; [apply ranks_only_refl|]. intros k. rewrite decide_False; [done|]. cbn. set_solver. }
  apply bind_Ok in H as ([d1 s1] & H1 & H). unfold assign_elite in H1. apply bind_Ok in H1 as (t & Ht & H1). apply index_get_Ok in Ht.
  apply IH in H as [R2 K2]. assert (rank_of d x.1 = Some t.(gr_last_gr_rank)) as Ex by (unfold rank_of; by rewrite Ht).
  destruct (Z.eqb_spec t.(gr_last_gr_rank) 7) as [E7|N7].
  - apply bind_Ok in H1 as (d2 & H2 & H1). apply bind_Ok in H1 as (s2 & Hs & H1). apply Ok_inj in H1. injection H1 as <- <-.
    apply safe_add_Ok in Hs as ->. apply assign_team_spec in H2 as (R1 & _ & K1). split.
    + replace (s' - s) with (elite_reward d + (s' - (s + elite_reward d))) by lia. by eapply ranks_only_trans.
    + intros k. rewrite K2, !K1. cbn [fmap list_fmap].
      destruct (decide (k = x.1)) as [->|Hne].
      * rewrite decide_False by naive_solver. rewrite decide_True by (split; [set_solver|congruence]). done.
      * destruct (decide (k ∈ l.*1 ∧ _)), (decide (k ∈ x.1 :: l.*1 ∧ _)); set_solver.
  - apply Ok_inj in H1. injection H1 as <- <-. split; [exact R2|]. intros k. rewrite K2. cbn [fmap list_fmap].
    destruct (decide (k ∈ l.*1 ∧ _)), (decide (k ∈ x.1 :: l.*1 ∧ _)); set_solver.
Qed.

Lemma assign_elites_spec vol d s d' s' : half_volume (interval d) = Some vol → assign_elites (d, s) = Ok (d', s') →
  ranks_only d d' (s' - s) ∧ ∀ k, rank_of d' k = if decide (k ∈ best_ten vol d ∧ rank_of d k = Some 7) then Some 8 else rank_of d k.
Proof.
  intros Hv H. unfold assign_elites in H. cbn [fst] in H. rewrite Hv in H. unfold best_ten. destruct (_ <=? _).
  - apply assign_elite_list in H as [R K]. split; [done|]. intros k. rewrite K.
    destruct (decide (k ∈ (take 10 _).*1 ∧ _)), (decide (k ∈ list_to_set (take 10 _).*1 ∧ _)); set_solver.
  - apply Ok_inj in H. injection H as <- <-. rewrite Z.sub_diag. split; [apply ranks_only_refl|]. intros k. rewrite decide_False; [done|]. set_solver.
Qed.

(** *** The whole ranking *)
Lemma assign_ranks_spec vol rs d s d' s' : (∀ t, vol (unranked t) = vol t) → half_volume (interval d) = Some vol → Forall (λ r, 1 ≤ r ≤ 7) rs →
  foldM assign_rank_step (d, s) rs = Ok (d', s') →
  ranks_only d d' (s' - s) ∧ ∀ k t, d.(d_gr_teams).(objs) !! k = Some t →
    rank_of d' k = Some (rank_after d.(d_dgpo).(dgp_gr_volumes) (vol t) t.(gr_last_gr_rank) rs).
Proof.
  intros Hu Hv Hall. revert d s Hv. induction Hall as [|r rs Hr _ IH]; intros d s Hv H; cbn [foldM] in H.
  { apply Ok_inj in H. injection H as <- <-. rewrite Z.sub_diag. split; [apply ranks_only_refl|]. intros k t Ht. unfold rank_of. by rewrite Ht. }
  apply bind_Ok in H as ([d1 s1] & H1 & H). apply (assign_rank_spec vol) in H1 as [R1 K1]; [|done..].
  assert (half_volume (interval d1) = Some vol) as Hv1 by (unfold interval; by rewrite (rk_dgpo _ _ _ R1)).
  apply IH in H as [R2 K2]; [|done]. split.
  { replace (s' - s) with ((s1 - s) + (s' - s1)) by lia. by eapply ranks_only_trans. }
  intros k t Ht. destruct (same_teams_keys d1 d k t (eq_sym (rk_teams _ _ _ R1)) Ht) as (t1 & Ht1 & Et).
  rewrite (K2 _ _ Ht1), (rk_dgpo _ _ _ R1). specialize (K1 _ _ Ht). unfold rank_of in K1. rewrite Ht1, Ht in K1. cbn in K1.
  assert (vol t1 = vol t) as -> by (rewrite <-(Hu t1), <-(Hu t); by rewrite Et).
  unfold rank_after. cbn [foldl]. destruct (ranked_by _ _ r); by injection K1 as ->.
Qed.

Definition gr_rank (vol : gr_team_object → Z) (d : database) (k : Z) (t : gr_team_object) : Z :=
  let r := rank_after d.(d_dgpo).(dgp_gr_volumes) (vol t) 0 [1; 2; 3; 4; 5; 6; 7] in
  if (r =? 7) && bool_decide (k ∈ best_ten vol d) then 8 else r.

Lemma half_volume_unranked n vol : half_volume n = Some vol → ∀ t, vol (unranked t) = vol t.
Proof. unfold half_volume. do 2 (destruct (_ =? _); [by intros [= <-]|]). done. Qed.

Lemma flow_accounts d i : flow d (d <| d_accounts := i |>) (λ _, 0).
Proof. apply flow_table; [done..|]. intros a. rewrite imb_accounts. lia. Qed.
Lemma reset_gr_rank_spec d : conserves d (reset_gr_rank d) ∧ (reset_gr_rank d).(d_dgpo) = d.(d_dgpo) ∧
  unranked <$> (reset_gr_rank d).(d_gr_teams).(objs) = unranked <$> d.(d_gr_teams).(objs).
Proof.
  split; [|split; [done|]].
  - unfold conserves, reset_gr_rank. eapply flow_ext; [exact (flow_trans _ _ _ _ _ (flow_accounts d _) (flow_gr_teams _ _))|]. done.
  - unfold reset_gr_rank, index_map. cbn. rewrite <-map_fmap_compose. apply map_fmap_ext. intros k t _. cbn. by case_match.
Qed.

Lemma proceed_gr_rank_spec vol d d' : half_volume (interval d) = Some vol → map_Forall (λ _ t, 0 ≤ t.(gr_last_gr_rank)) d.(d_gr_teams).(objs) →
  proceed_gr_rank d = Ok d' →
  conserves d d' ∧ ∀ k t, d.(d_gr_teams).(objs) !! k = Some t → rank_of d' k = Some (gr_rank vol d k t).
Proof.
  intros Hv Hpos H. pose proof (half_volume_unranked _ _ Hv) as Hu. unfold proceed_gr_rank in H. apply bind_Ok in H as ([d1 s1] & H1 & H).
  apply bind_Ok in H as ([d2 s2] & H2 & H). destruct (reset_gr_rank_spec d) as (F0 & G0 & T0).
  apply (assign_ranks_spec vol) in H1 as [[F1 G1 T1] K1]; [|done|unfold interval; by rewrite G0|repeat constructor; lia].
  apply (assign_elites_spec vol) in H2 as [[F2 G2 T2] K2]; [|unfold interval; by rewrite G1, G0].
  pose proof (flows (P := _ = Ok _) H) as F3. split.
  { eapply flow_ext; [exact (flow_trans _ _ _ _ _ F0 (flow_trans _ _ _ _ _ F1 (flow_trans _ _ _ _ _ F2 F3)))|]. flow_arith. }
  intros k t Ht. destruct (same_teams_keys (reset_gr_rank d) d k t (eq_sym T0) Ht) as (t0 & Ht0 & Et).
  assert (rank_of d' k = rank_of d2 k) as ->.
  { unfold add_supply in H. by apply modify_dynamic_data_Ok in H as (? & ? & _ & _ & ->). }
  rewrite K2, (K1 _ _ Ht0), G0. rewrite (best_ten_same vol d d1 Hu) by congruence.
  assert (t0.(gr_last_gr_rank) = 0) as ->.
  { unfold reset_gr_rank, index_map in Ht0. cbn in Ht0. rewrite lookup_fmap, Ht in Ht0. cbn in Ht0. injection Ht0 as <-.
    specialize (Hpos k t Ht). cbn in Hpos. destruct (Z.leb_spec 1 t.(gr_last_gr_rank)); cbn; [done|lia]. }
  assert (vol t0 = vol t) as -> by (rewrite <-(Hu t0), <-(Hu t); by rewrite Et).
  unfold gr_rank. cbv zeta. set (r := rank_after _ _ _ _). destruct (Z.eqb_spec r 7) as [->|Hne].
  - cbn [andb]. destruct (decide (k ∈ _ ∧ _)) as [[Hin _]|Hn]; [by rewrite bool_decide_true|]. rewrite bool_decide_false; [done|]. intros Hin. by apply Hn.
  - cbn [andb]. rewrite decide_False; [done|]. intros [_ [= ?]]. done.
Qed.

(** The ranks at the half and at the end of the race: every team is ranked by its
    volume of the half, the ten best of the highest rank are the elite, whatever ranks
    there were before are gone, and the rewards the captains get are the supply that is
    issued.  A team from one rank's volume on has that rank while it stays two units
    below the next one's. *)
Theorem gr_ranks_assigned vol d d' (Hv : half_volume (interval d) = Some vol)
  (Hpos : map_Forall (λ _ t, 0 ≤ t.(gr_last_gr_rank)) d.(d_gr_teams).(objs)) (H : proceed_gr_rank d = Ok d') :
  conserves d d' ∧ ∀ k t, d.(d_gr_teams).(objs) !! k = Some t → rank_of d' k = Some (gr_rank vol d k t).
Proof. by apply proceed_gr_rank_spec. Qed.

(** Between two ranks there is a gap: a team one unit below the next rank has none at
    all, however far above the rank before it is. *)
Definition increasing (vs : list Z) : Prop := ∀ i, (i < 6)%nat → nth i vs 0 < nth (S i) vs 0.
Lemma increasing_lt vs i j : increasing vs → (i < j)%nat → (j ≤ 6)%nat → nth i vs 0 < nth j vs 0.
Proof.
  intros Hi Hij. induction Hij as [|j Hij IH]; intros Hj; [by apply Hi|]. specialize (Hi j ltac:(lia)). specialize (IH ltac:(lia)). lia.
Qed.
Lemma in_the_gap vs r : increasing vs → 1 ≤ r ≤ 6 → ∀ s, 1 ≤ s ≤ 7 → ranked_by vs (nth (Z.to_nat r) vs 0 - 1) s = false.
Proof.
  intros Hi Hr s Hs. unfold ranked_by. apply andb_false_iff. destruct (Z.le_gt_cases s r) as [Hle|Hgt]; [right|left].
  - apply orb_false_iff. split; [apply Z.eqb_neq; lia|]. apply Z.ltb_ge.
    destruct (decide (s = r)) as [->|]; [lia|]. pose proof (increasing_lt vs (Z.to_nat s) (Z.to_nat r) Hi ltac:(lia) ltac:(lia)). lia.
  - apply Z.leb_gt. destruct (decide (s = r + 1)) as [->|].
    + replace (r + 1 - 1) with r by lia. lia.
    + pose proof (increasing_lt vs (Z.to_nat r) (Z.to_nat (s - 1)) Hi ltac:(lia) ltac:(lia)). lia.
Qed.
Theorem gr_rank_gap vol d d' k t r (Hv : half_volume (interval d) = Some vol)
  (Hpos : map_Forall (λ _ t, 0 ≤ t.(gr_last_gr_rank)) d.(d_gr_teams).(objs)) (Hi : increasing d.(d_dgpo).(dgp_gr_volumes))
  (H : proceed_gr_rank d = Ok d') (Ht : d.(d_gr_teams).(objs) !! k = Some t) (Hr : 1 ≤ r ≤ 6)
  (Hvol : vol t = volume_of d (r + 1) - 1) : rank_of d' k = Some 0.
Proof.
  apply (proceed_gr_rank_spec vol) in H as [_ H]; [|done..]. rewrite (H _ _ Ht). unfold gr_rank. cbv zeta.
  unfold volume_of in Hvol. replace (r + 1 - 1) with r in Hvol by lia. rewrite Hvol.
  assert (∀ rs, Forall (λ s, 1 ≤ s ≤ 7) rs → rank_after (dgp_gr_volumes (d_dgpo d)) (nth (Z.to_nat r) (dgp_gr_volumes (d_dgpo d)) 0 - 1) 0 rs = 0) as G.
  { induction 1 as [|s rs Hs _ IH]; [done|]. unfold rank_after in *. cbn [foldl]. rewrite in_the_gap; done. }
  rewrite G; [done|]. repeat constructor; lia.
Qed.

(** The margin of one percent is lost. *)
Lemma hardcup_ignores_margin d b : hardcup_flag d = Ok b →
  ∃ core dyn, get_asset d CORE = Ok core ∧ get_core_dynamic_data d = Ok dyn ∧ b = (core.(ao_max_supply) <? dyn.(dd_current_supply)).
Proof.
  unfold hardcup_flag. intros H. apply bind_Ok in H as (core & Hc & H). apply bind_Ok in H as (dyn & Hd & H). apply bind_Ok in H as (m & Hm & H).
  apply bind_Ok in H as (s & Hs & H). apply Ok_inj in H as <-. apply safe_mul_Ok in Hm as ->. apply safe_add_Ok in Hs as ->.
  exists core, dyn. split; [done|]. split; [done|]. by replace (dd_current_supply dyn + ao_max_supply core * 0) with (dd_current_supply dyn) by lia.
Qed.

(** ** When bets are open

    The order of the intervals, and where bets can be: only while a race is on, and
    on teams that exist. *)
Definition no_bets (d : database) : Prop := d.(d_gr_range_bets).(objs) = ∅ ∧ d.(d_gr_team_bets).(objs) = ∅.
Definition has_team (d : database) (id : Z) : Prop := is_Some (d.(d_gr_teams).(objs) !! id).
Record bets_on_teams (d : database) : Prop := {
  bt_range : map_Forall (λ _ b, has_team d b.(rb_team)) d.(d_gr_range_bets).(objs);
  bt_team : map_Forall (λ _ b, has_team d b.(tb_team1) ∧ has_team d b.(tb_team2)) d.(d_gr_team_bets).(objs) }.
Record race_inv (d : database) : Prop := {
  ri_interval : 0 ≤ interval d ≤ 14;
  ri_next : 0 ≤ d.(d_dgpo).(dgp_next_gr_interval_time);
  ri_rest : gr_interval_active (interval d) = false → no_bets d ∧ d.(d_dgpo).(dgp_gr_bet_interval_time) < head_block_time d;
  ri_racing : gr_interval_active (interval d) = true → d.(d_dgpo).(dgp_gr_bet_interval_time) < d.(d_dgpo).(dgp_next_gr_interval_time);
  ri_teams : bets_on_teams d }.

(** The intervals last from a day to a year, and the clock is a year from its end. *)
Definition year : Z := 365 * 86400.
Definition intervals_ok (d : database) : Prop := ∀ n, 1 ≤ n ≤ 14 → 1 ≤ interval_days d n ≤ 365.

Definition race_times (g : dynamic_global_property_object) : Z * Z * Z :=
  (g.(dgp_current_gr_interval), g.(dgp_next_gr_interval_time), g.(dgp_gr_bet_interval_time)).

(** Nothing of the race changes but the rosters, the ranks and the votes. *)
Record race_frame (d d' : database) : Prop := {
  rf_range : d'.(d_gr_range_bets) = d.(d_gr_range_bets);
  rf_team : d'.(d_gr_team_bets) = d.(d_gr_team_bets);
  rf_teams : ∀ id, has_team d id → has_team d' id;
  rf_clock : race_times d'.(d_dgpo) = race_times d.(d_dgpo);
  rf_time : head_block_time d ≤ head_block_time d' }.
#[export] Instance race_frame_preorder : PreOrder race_frame.
Proof.
  split; [by split|]. intros d1 d2 d3 [A1 A2 A3 A4 A5] [B1 B2 B3 B4 B5]. split; [congruence|congruence|auto|congruence|lia].
Qed.
Lemma frame_inv d d' : race_frame d d' → race_inv d → race_inv d'.
Proof.
  intros [A1 A2 A3 A4 A5] [B1 B2 B3 B4 [B5 B6]]. injection A4 as E1 E2 E5. split; unfold interval, no_bets in *.
  - by rewrite E1.
  - by rewrite E2.
  - rewrite E1, A1, A2, E5. intros H. destruct (B3 H) as [? ?]. split; [done|lia].
  - by rewrite E1, E2, E5.
  - split; [rewrite A1|rewrite A2]; (eapply map_Forall_impl; [eassumption|]); cbn; [auto|intros ? ? [? ?]; auto].
Qed.

Lemma frame_same d d' : d'.(d_gr_range_bets) = d.(d_gr_range_bets) → d'.(d_gr_team_bets) = d.(d_gr_team_bets) →
  d'.(d_gr_teams) = d.(d_gr_teams) → d'.(d_dgpo) = d.(d_dgpo) → race_frame d d'.
Proof. intros E1 E2 E3 E4. split; [done|done|unfold has_team; by rewrite E3|by rewrite E4|unfold head_block_time; by rewrite E4]. Qed.
Lemma frame_account d acct f d' : modify_account d acct f = Ok d' → race_frame d d'.
Proof. intros H. apply modify_account_Ok in H as (? & ? & _ & _ & ->). by apply frame_same. Qed.
Lemma frame_adjust d acct x d' : adjust_balance d acct x = Ok d' → race_frame d d'.
Proof. intros H. apply same_race_adjust in H as (? & ? & ? & ?). by apply frame_same. Qed.
Lemma frame_push d op : race_frame d (push_applied_operation d op).
Proof. by apply frame_same. Qed.
Lemma frame_dynamic d k f d' : modify_dynamic_data d k f = Ok d' → race_frame d d'.
Proof. intros H. apply modify_dynamic_data_Ok in H as (? & ? & _ & _ & ->). by apply frame_same. Qed.
Lemma frame_index d d' f : d' = d <| d_gr_teams ::= index_map f |> → race_frame d d'.
Proof.
  intros ->. split; [done|done| |done|unfold head_block_time; cbn; lia]. intros id [t Ht]. unfold has_team, index_map. cbn. rewrite lookup_fmap, Ht. by eexists.
Qed.
Lemma frame_team d id f d' : modify_team d id f = Ok d' → race_frame d d'.
Proof.
  unfold modify_team. intros H. apply bind_Ok in H as (i & Hi & H). apply Ok_inj in H as <-. apply index_modify_Ok in Hi as (t & t' & Ht & _ & ->).
  split; [done|done| |done|unfold head_block_time; cbn; lia]. intros k [u Hu]. unfold has_team. cbn. destruct (decide (k = id)) as [->|]; [by rewrite lookup_insert_eq|by rewrite lookup_insert_ne].
Qed.
Lemma frame_fold {A} (f : database → A → result database) l d d' :
  (∀ d x d', f d x = Ok d' → race_frame d d') → foldM f d l = Ok d' → race_frame d d'.
Proof. intros Hf H. apply (foldM_inv _ (race_frame d)) in H; [done| |reflexivity]. intros ? ? ? P Q. etransitivity; [exact P|by eapply Hf]. Qed.
Lemma frame_fold2 {A} (f : database * Z → A → result (database * Z)) l st st' :
  (∀ st x st', f st x = Ok st' → race_frame st.1 st'.1) → foldM f st l = Ok st' → race_frame st.1 st'.1.
Proof. intros Hf H. apply (foldM_inv _ (λ s, race_frame st.1 s.1)) in H; [done| |reflexivity]. intros ? ? ? P Q. etransitivity; [exact P|by eapply Hf]. Qed.

Lemma frame_assign d id reward rank d' : assign_gr_rank_to_team d id reward rank = Ok d' → race_frame d d'.
Proof.
  unfold assign_gr_rank_to_team. cbv zeta. intros H. apply bind_Ok in H as (t & _ & H). apply bind_Ok in H as (d1 & H1 & H).
  apply bind_Ok in H as (d2 & H2 & H). apply bind_Ok in H as (d4 & H4 & H). unfold set_rank in H2.
  etransitivity; [by eapply frame_team|]. etransitivity; [by eapply frame_account|]. etransitivity; [apply frame_push|].
  etransitivity; [by eapply frame_adjust|]. eapply frame_fold; [|exact H]. intros ? p ? E. unfold assign_player, set_rank in E.
  apply bind_Ok in E as (d5 & E & E'). apply Ok_inj in E' as <-. etransitivity; [by eapply frame_account|apply frame_push].
Qed.
Lemma frame_rank d d' : proceed_gr_rank d = Ok d' → race_frame d d'.
Proof.
  unfold proceed_gr_rank. intros H. apply bind_Ok in H as (st & H1 & H). apply bind_Ok in H as ([d2 s2] & H2 & H). unfold add_supply in H.
  etransitivity; [|by eapply frame_dynamic]. transitivity (reset_gr_rank d).
  { transitivity (d <| d_accounts ::= index_map (λ a, if 1 <=? a.(acc_last_gr_rank) then a <| acc_last_gr_rank := 0 |> else a) |>); [by apply frame_same|].
    by eapply frame_index. }
  transitivity st.1.
  - change (race_frame (reset_gr_rank d, 0).1 st.1). eapply frame_fold2; [|exact H1]. intros [e s] r st' E. unfold assign_rank_step in E.
    apply bind_Ok in E as (stop & _ & E). apply bind_Ok in E as ([e1 s1] & E1 & E). apply bind_Ok in E as (s3 & _ & E). apply Ok_inj in E as <-. cbn [fst].
    unfold assign_gr_rank in E1. destruct (half_volume _) as [vol|]; [|by apply Ok_inj in E1; injection E1 as <- _].
    apply bind_Ok in E1 as (range & _ & E1). change (race_frame (e, 0).1 (e1, s1).1). eapply frame_fold2; [|exact E1].
    intros [e2 s2'] x st2 E2. cbn beta iota in E2. apply bind_Ok in E2 as (e3 & E3 & E2). apply bind_Ok in E2 as (? & _ & E2). apply Ok_inj in E2 as <-. by eapply frame_assign.
  - change (race_frame st.1 (d2, s2).1). unfold assign_elites in H2. destruct (half_volume _) as [vol|]; [|by apply Ok_inj in H2 as <-].
    destruct (_ <=? _); [|by apply Ok_inj in H2 as <-]. eapply frame_fold2; [|exact H2]. intros [e s] x st' E. unfold assign_elite in E.
    apply bind_Ok in E as (t & _ & E). destruct (_ =? _); [|by apply Ok_inj in E as <-].
    apply bind_Ok in E as (e' & E1 & E). apply bind_Ok in E as (? & _ & E). apply Ok_inj in E as <-. by eapply frame_assign.
Qed.
Lemma frame_set_apostolos l team d d' : foldM (enrol team) d l = Ok d' → race_frame d d'.
Proof.
  apply frame_fold. intros ? x ? E. unfold enrol, set_apostolos in E. apply bind_Ok in E as (d1 & E & E'). apply Ok_inj in E' as <-.
  etransitivity; [by eapply frame_account|apply frame_push].
Qed.
Lemma frame_apostolos d d' : proceed_apostolos d = Ok d' → race_frame d d'.
Proof.
  unfold proceed_apostolos. cbv zeta. set (d1 := d <| d_accounts ::= _ |>). intros H. transitivity d1; [by apply frame_same|].
  destruct (best_first _ d1) as [|[id t] l]; [by apply Ok_inj in H as <-|]. apply bind_Ok in H as (d2 & H2 & H). apply frame_set_apostolos in H2.
  destruct (_ <=? _); [|by apply Ok_inj in H as <-]. unfold set_apostolos_authority in H. etransitivity; [exact H2|by eapply frame_account].
Qed.
Lemma frame_init d d' : init_gr_race d = Ok d' → race_frame d d'.
Proof.
  unfold init_gr_race, set_apostolos_authority. intros H. apply bind_Ok in H as (d1 & H1 & H). etransitivity; [|by eapply frame_account].
  eapply frame_fold; [|exact H1]. intros ? x ? E. unfold set_apostolos in E. by eapply frame_account.
Qed.
Lemma frame_top3 d d' : proceed_gr_top3 d = Ok d' → race_frame d d'.
Proof.
  unfold proceed_gr_top3. intros H. destruct (interval_volume _) as [vol|]; [|by apply Ok_inj in H as <-]. destruct (_ <=? _); [|by apply Ok_inj in H as <-].
  apply bind_Ok in H as ([d1 s] & H1 & H). unfold add_supply in H. etransitivity; [|by eapply frame_dynamic].
  change (race_frame (d, 0).1 (d1, s).1). eapply frame_fold2; [|exact H1]. intros [e s1] x st' E. unfold pay_top in E. cbv zeta in E.
  destruct (_ <? _); [|by apply Ok_inj in E as <-]. apply bind_Ok in E as (e1 & E1 & E). apply bind_Ok in E as (? & _ & E). apply Ok_inj in E as <-.
  etransitivity; [apply frame_push|by eapply frame_adjust].
Qed.
Lemma frame_votes d d' : count_gr_votes d = Ok d' → race_frame d d'.
Proof.
  unfold count_gr_votes. cbv zeta. intros H. destruct (_ <? _); [|by apply Ok_inj in H as <-]. do 4 (apply bind_Ok in H as (? & _ & H)). apply Ok_inj in H as <-.
  by split.
Qed.
Lemma frame_reset d : race_frame d (perform_gr_maintenance (reset_gr_volumes d)).
Proof. transitivity (reset_gr_volumes d); [by eapply frame_index|by apply frame_same]. Qed.

Lemma same_race_fold {A} (f : database * Z → A → result (database * Z)) l st st' :
  (∀ st x st', f st x = Ok st' → same_race st.1 st'.1) → foldM f st l = Ok st' → same_race st.1 st'.1.
Proof. intros Hf H. apply (foldM_inv _ (λ s, same_race st.1 s.1)) in H; [done| |reflexivity]. intros ? ? ? P Q. etransitivity; [exact P|by eapply Hf]. Qed.
Lemma settle_same d acc p t winners losers win loose d' acc' : settle_bet d acc p t winners losers win loose = Ok (d', acc') → same_race d d'.
Proof.
  unfold settle_bet. intros H. apply bind_Ok in H as ([d1 paid] & H1 & H). apply bind_Ok in H as (? & _ & H). apply Ok_inj in H. injection H as <- _.
  transitivity d1; [|exact (pays_race _ _ _ _ (pays_push_all d1 _ losers))]. change (same_race (d, 0).1 (d1, paid).1). eapply same_race_fold; [|exact H1].
  intros [e s] y st' E. unfold pay_winner in E. apply bind_Ok in E as (q & _ & E). apply bind_Ok in E as (? & _ & E).
  destruct (_ <? _); [|by apply Ok_inj in E as <-]. apply bind_Ok in E as (e1 & E1 & E). apply Ok_inj in E as <-.
  etransitivity; [apply same_race_push|by eapply same_race_adjust].
Qed.
Lemma refunds_same d m1 m2 cancel d1 d2 : refund_bets d m1 cancel = Ok d1 → refund_bets d1 m2 cancel = Ok d2 → same_race d d2.
Proof. intros H1 H2. exact (pays_race _ _ _ _ (refunds_pay _ _ _ _ _ _ H1 H2)). Qed.
Lemma range_same r st x st' : proceed_range_bet r st x = Ok st' → same_race st.1 st'.1.
Proof.
  destruct st as [d acc], x as [id b], st' as [d' acc']. unfold proceed_range_bet. cbv zeta. intros H. destruct (_ && _).
  - by destruct (_ && _); eapply settle_same.
  - apply bind_Ok in H as (d1 & H1 & H). apply bind_Ok in H as (d2 & H2 & H). apply Ok_inj in H. injection H as <- _. by eapply refunds_same.
Qed.
Lemma team_same r st x st' : proceed_team_bet r st x = Ok st' → same_race st.1 st'.1.
Proof.
  destruct st as [d acc], x as [id b], st' as [d' acc']. unfold proceed_team_bet. cbv zeta. intros H. destruct (_ && _).
  - by destruct (_ <? _) in H; eapply settle_same.
  - apply bind_Ok in H as (d1 & H1 & H). apply bind_Ok in H as (d2 & H2 & H). apply Ok_inj in H. injection H as <- _. by eapply refunds_same.
Qed.
Lemma bets_gone d d' : proceed_gr_bets d = Ok d' → no_bets d' ∧ d'.(d_gr_teams) = d.(d_gr_teams) ∧ d'.(d_dgpo) = d.(d_dgpo).
Proof.
  unfold proceed_gr_bets. cbv zeta. intros H. apply bind_Ok in H as ([d1 acc1] & H1 & H). apply bind_Ok in H as ([d3 acc3] & H3 & H).
  apply (same_race_fold _ _ _ _ (range_same _)) in H1 as (_ & _ & T1 & G1). apply (same_race_fold _ _ _ _ (team_same _)) in H3 as (R3 & _ & T3 & G3).
  cbn in *. unfold add_accumulated_fees in H. apply modify_dynamic_data_Ok in H as (? & ? & _ & _ & ->). cbn.
  split; [split; [by rewrite R3|done]|]. split; congruence.
Qed.

(** *** The clock moves on by one interval *)
Definition next_of (n : Z) : Z := if (n =? 0) || (n =? 14) then 1 else n + 1.
Record moved (d d' : database) (c c' : race_clock) (timestamp : Z) : Prop := {
  mv_interval : c'.(rc_interval) = next_of c.(rc_interval);
  mv_next : c'.(rc_next_time) = time_add c.(rc_next_time) (days (interval_days d (next_of c.(rc_interval))));
  mv_bet : if gr_interval_active (next_of c.(rc_interval))
           then c'.(rc_bet_time) = time_add c.(rc_next_time) (days (interval_days d (next_of c.(rc_interval)) `div` 2))
           else c'.(rc_bet_time) = c.(rc_bet_time);
  mv_bets : if gr_interval_active c.(rc_interval) then no_bets d' else d'.(d_gr_range_bets) = d.(d_gr_range_bets) ∧ d'.(d_gr_team_bets) = d.(d_gr_team_bets);
  mv_teams : ∀ id, has_team d id → has_team d' id;
  mv_time : head_block_time d ≤ head_block_time d' }.

Lemma end_racing_moved d c d' c' timestamp : gr_interval_active c.(rc_interval) = true → gr_interval_active (next_of c.(rc_interval)) = false →
  end_racing d c (next_of c.(rc_interval)) = Ok (d', c') → moved d d' c c' timestamp.
Proof.
  intros E1 E2 H. unfold end_racing in H. apply bind_Ok in H as (d1 & H1 & H). apply bind_Ok in H as (d2 & H2 & H). apply Ok_inj in H. injection H as <- <-.
  pose proof (frame_top3 _ _ H1) as [F1 F2 F3 F4 F5]. apply bets_gone in H2 as (B & T & G). split; try done.
  - by rewrite E2.
  - by rewrite E1.
  - intros id Hid. unfold has_team. rewrite T. by apply F3.
  - etransitivity; [exact F5|]. unfold head_block_time. by rewrite G.
Qed.
Lemma begin_racing_moved d c timestamp d' c' : gr_interval_active c.(rc_interval) = false → gr_interval_active (next_of c.(rc_interval)) = true →
  Ok (begin_racing d c (next_of c.(rc_interval))) = Ok (d', c') → moved d d' c c' timestamp.
Proof. intros E1 E2 H. apply Ok_inj in H. unfold begin_racing in H. injection H as <- <-. split; rewrite ?E1, ?E2; done. Qed.

Lemma frame_moved d d' c c' timestamp : gr_interval_active c.(rc_interval) = false → gr_interval_active (next_of c.(rc_interval)) = false →
  race_frame d d' → c'.(rc_interval) = next_of c.(rc_interval) →
  c'.(rc_next_time) = time_add c.(rc_next_time) (days (interval_days d (next_of c.(rc_interval)))) → c'.(rc_bet_time) = c.(rc_bet_time) →
  moved d d' c c' timestamp.
Proof. intros E1 E2 [F1 F2 F3 F4 F5] H1 H2 H3. split; rewrite ?E1, ?E2; done. Qed.

Lemma next_interval_moved d c timestamp d' c' : 0 ≤ c.(rc_interval) ≤ 14 → next_interval d c timestamp = Ok (d', c') → moved d d' c c' timestamp.
Proof.
  intros Hn H. unfold next_interval in H. cbv zeta in H. destruct ((_ =? 0) || (_ =? 14)) eqn:E.
  { assert (next_of c.(rc_interval) = 1) as En by (unfold next_of; by rewrite E).
    assert (gr_interval_active c.(rc_interval) = false) as Er by (apply orb_true_iff in E as [->%Z.eqb_eq| ->%Z.eqb_eq]; done).
    apply bind_Ok in H as (d0 & H0 & H). apply bind_Ok in H as (d1 & H1 & H). apply bind_Ok in H as (d2 & H2 & H). apply Ok_inj in H. injection H as <- <-.
    apply frame_moved; rewrite ?En; try done. transitivity d0; [destruct (_ =? 0) in H0; [by apply frame_init|by apply Ok_inj in H0 as <-]|].
    etransitivity; [by eapply frame_rank|]. etransitivity; [by eapply frame_apostolos|]. apply frame_reset. }
  apply orb_false_iff in E as [E0 E14]. apply Z.eqb_neq in E0, E14.
  assert (next_of c.(rc_interval) = c.(rc_interval) + 1) as En by (unfold next_of; by rewrite !(proj2 (Z.eqb_neq _ _))).
  do 13 (match type of H with (if ?n =? ?k then _ else _) = _ => destruct (Z.eqb_spec n k) as [Ei|] end;
    [rewrite Ei in *; first
      [ by apply begin_racing_moved; rewrite ?Ei
      | by eapply end_racing_moved; rewrite ?Ei
      | apply bind_Ok in H as (d1 & H1 & H); apply Ok_inj in H; injection H as <- <-;
        apply frame_moved; rewrite ?Ei; try done; etransitivity; [by eapply frame_rank|]; by apply frame_same ]|]).
  lia.
Qed.

(** *** The steps of the race *)
Inductive race_step : database → database → Prop :=
  | race_create d (op : gr_team_create_operation) d' : performs d op d' → race_step d d'
  | race_delete d (op : gr_team_delete_operation) d' : performs d op d' → race_step d d'
  | race_send d (op : gr_invite_send_operation) d' : performs d op d' → race_step d d'
  | race_accept d (op : gr_invite_accept_operation) d' : performs d op d' → race_step d d'
  | race_remove d (op : gr_player_remove_operation) d' : performs d op d' → race_step d d'
  | race_leave d (op : gr_team_leave_operation) d' : performs d op d' → race_step d d'
  | race_vote d (op : gr_vote_operation) d' : performs d op d' → race_step d d'
  | race_range_bet d (op : gr_range_bet_operation) d' : performs d op d' → race_step d d'
  | race_team_bet d (op : gr_team_bet_operation) d' : performs d op d' → race_step d d'
  | race_maintenance d block_num d' : intervals_ok d → head_block_time d + year < 4294967296 →
      gr_maintenance d (head_block_time d) block_num = Ok d' → race_step d d'
  | race_other d d' : race_frame d d' → race_step d d'.

Lemma frame_fees d d1 : same_but_fees d d1 → race_frame d d1.
Proof. intros (m1 & m2 & -> & _). by apply frame_same. Qed.
Lemma frame_drop d player team d' : drop_member d player team = Ok d' → race_frame d d'.
Proof. unfold drop_member, set_team. intros H. apply bind_Ok in H as (d1 & H1 & H). etransitivity; [by eapply frame_account|by eapply frame_team]. Qed.
Lemma frame_create d op d' : gr_team_create_do_apply d op = Ok d' → race_frame d d'.
Proof.
  unfold gr_team_create_do_apply, set_team. intros H. apply bind_Ok in H as (? & _ & H). apply bind_Ok in H as ([id i] & Hi & H).
  etransitivity; [|by eapply frame_account]. unfold create_team in Hi. destruct (_ && _); [|discriminate Hi]. apply index_create_Ok in Hi as (-> & Hn & ->).
  split; [done|done| |done|unfold head_block_time; cbn; lia]. intros k [t Ht]. unfold has_team. cbn. rewrite lookup_insert_ne by congruence. by exists t.
Qed.
Lemma frame_accept d op d' : gr_invite_accept_do_apply d op = Ok d' → race_frame d d'.
Proof.
  unfold gr_invite_accept_do_apply, set_team. intros H. apply bind_Ok in H as (d1 & H1 & H). apply bind_Ok in H as (d2 & H2 & H).
  apply bind_Ok in H as (i & _ & H). apply Ok_inj in H as <-. etransitivity; [by eapply frame_team|]. etransitivity; [by eapply frame_account|by apply frame_same].
Qed.

(** A team is dissolved in a rest, when there are no bets. *)
Lemma delete_inv d op d' : race_inv d → performs d (op : gr_team_delete_operation) d' → race_inv d'.
Proof.
  intros [I1 I2 I3 I4 [I5 I6]] (d1 & Hs & _ & He & Ha). cbn in He, Ha.
  assert (gr_interval_active (interval d) = false) as Hrest.
  { unfold gr_team_delete_do_evaluate in He. apply bind_Ok in He as (? & _ & He). apply bind_Ok in He as (? & Hr & _). apply FC_ASSERT_Ok in Hr.
    unfold rest_interval in Hr. unfold gr_interval_active. repeat (apply orb_true_iff in Hr as [Hr|Hr]); by apply Z.eqb_eq in Hr as ->. }
  destruct (I3 Hrest) as [[N1 N2] Hbet]. destruct (frame_fees _ _ Hs) as [A1 A2 _ A4 A5].
  unfold gr_team_delete_do_apply in Ha. apply bind_Ok in Ha as (t & _ & Ha). apply bind_Ok in Ha as (d2 & H2 & Ha). apply bind_Ok in Ha as (d3 & H3 & Ha).
  apply bind_Ok in Ha as (i & _ & Ha). apply Ok_inj in Ha as <-. unfold set_team in H2. apply frame_account in H2 as [B1 B2 _ B4 B5].
  eapply frame_fold in H3; [|intros ? ? ? E; unfold set_team in E; by eapply frame_account]. destruct H3 as [C1 C2 _ C4 C5].
  assert (race_times d3.(d_dgpo) = race_times d.(d_dgpo)) as E by congruence. injection E as E1 E2 E5.
  assert (no_bets (d3 <| d_gr_teams := i |>)) as N by (split; cbn; [by rewrite C1, B1, A1|by rewrite C2, B2, A2]).
  split; unfold interval in *; cbn.
  - by rewrite E1.
  - by rewrite E2.
  - intros _. split; [exact N|]. rewrite E5. unfold head_block_time in *. cbn. lia.
  - rewrite E1, Hrest. done.
  - destruct N as [M1 M2]. cbn in M1, M2. split; cbn; [rewrite M1|rewrite M2]; apply map_Forall_empty.
Qed.

(** A bet is placed before its time is over, so while a race is on, and on teams that are there. *)
Lemma bet_while_racing d bet : race_inv d → check_bet_time d bet = Ok tt → gr_interval_active (interval d) = true.
Proof.
  intros Hi H. unfold check_bet_time in H. apply bind_Ok in H as (? & H & _). apply FC_ASSERT_Ok, Z.leb_le in H.
  destruct (gr_interval_active (interval d)) eqn:E; [done|]. destruct (ri_rest _ Hi E) as [_ ?]. lia.
Qed.
Lemma bet_index_forall {V} (P : V → Prop) (i i' : index V) (found : option (Z * V)) join new :
  (∀ b b', join b = Ok b' → P b → P b') → P new →
  (match found with Some x => index_modify i x.1 join | None => snd <$> index_create i new end) = Ok i' →
  map_Forall (λ _ b, P b) i.(objs) → map_Forall (λ _ b, P b) i'.(objs).
Proof.
  intros Hj Hn H Hall. destruct found as [[k b]|]; cbn in H.
  - apply index_modify_Ok in H as (v & v' & Hv & Hv' & ->). apply map_Forall_insert_2; [|done]. eapply Hj; [done|]. by apply (Hall k).
  - apply fmap_Ok in H as ([k i1] & H & ->). apply index_create_Ok in H as (-> & Hk & ->). by apply map_Forall_insert_2.
Qed.
Lemma debit_frame_race d acct x d' : debit d acct x = Ok d' → race_frame d d'.
Proof. unfold debit. intros H. apply bind_Ok in H as (? & _ & H). by eapply frame_adjust. Qed.

(** The books of bets change, on teams that are there. *)
Lemma booked_inv d d' : race_inv d → gr_interval_active (interval d) = true → d'.(d_gr_teams) = d.(d_gr_teams) → d'.(d_dgpo) = d.(d_dgpo) →
  bets_on_teams d' → race_inv d'.
Proof.
  intros [I1 I2 I3 I4 I5] Hr E1 E2 Hb. split; unfold interval, head_block_time in *; rewrite ?E2; try done. rewrite Hr. done.
Qed.
Lemma range_bet_inv d op d' : race_inv d → performs d (op : gr_range_bet_operation) d' → race_inv d'.
Proof.
  intros Hi (d1 & Hs & _ & He & Ha). cbn in He, Ha. unfold gr_range_bet_do_evaluate in He. apply bind_Ok in He as ([] & Ht & He).
  pose proof (bet_while_racing _ _ Hi Ht) as Hr. do 2 (apply bind_Ok in He as (? & _ & He)). apply bind_Ok in He as (? & Hteam & _).
  apply FC_ASSERT_Ok, bool_decide_eq_true in Hteam. unfold gr_range_bet_do_apply in Ha. apply bind_Ok in Ha as (i & Hx & Ha).
  eapply frame_inv; [by eapply debit_frame_race|]. destruct Hs as (m1 & m2 & -> & _). destruct (ri_teams _ Hi) as [B1 B2].
  apply (booked_inv d); [done..|]. split; [|exact B2]. cbn.
  eapply (bet_index_forall (λ b, has_team d b.(rb_team))); [| |exact Hx|exact B1].
  - intros b b' Hj Hb. unfold join_range_bet in Hj. destruct (grb_result op); inv_ok; exact Hb.
  - unfold new_range_bet. by destruct (grb_result op).
Qed.
Lemma team_bet_inv d op d' : race_inv d → performs d (op : gr_team_bet_operation) d' → race_inv d'.
Proof.
  intros Hi (d1 & Hs & _ & He & Ha). cbn in He, Ha. unfold gr_team_bet_do_evaluate in He. apply bind_Ok in He as ([] & Ht & He).
  pose proof (bet_while_racing _ _ Hi Ht) as Hr. do 2 (apply bind_Ok in He as (? & _ & He)).
  apply bind_Ok in He as (t1 & H1 & He). apply bind_Ok in He as (t2 & H2 & _). apply index_get_Ok in H1, H2.
  unfold gr_team_bet_do_apply in Ha. apply bind_Ok in Ha as (i & Hx & Ha).
  eapply frame_inv; [by eapply debit_frame_race|]. destruct Hs as (m1 & m2 & -> & _). destruct (ri_teams _ Hi) as [B1 B2].
  apply (booked_inv d); [done..|]. split; [exact B1|]. cbn.
  eapply (bet_index_forall (λ b, has_team d b.(tb_team1) ∧ has_team d b.(tb_team2))); [| |exact Hx|exact B2].
  - intros b b' Hj Hb. unfold join_team_bet in Hj. destruct (_ =? _); inv_ok; by split.
  - unfold new_team_bet. destruct (_ =? _); cbn; split; unfold has_team; rewrite ?H1, ?H2; by eexists.
Qed.

(** The maintenance moves the race on to its next interval, or not at all. *)
Lemma maintenance_inv d block_num d' : race_inv d → intervals_ok d → head_block_time d + year < 4294967296 →
  gr_maintenance d (head_block_time d) block_num = Ok d' → race_inv d'.
Proof.
  intros Hi Hok Hyear H. unfold gr_maintenance in H. apply bind_Ok in H as ([d1 c1] & H & H'). apply Ok_inj in H' as <-.
  unfold proceed_gr_interval in H. cbv zeta in H. apply bind_Ok in H as ([d2 c2] & H2 & H).
  set (c := clock_of d.(d_dgpo)) in *. set (ts := head_block_time d) in *.
  assert ((d2, c2) = (d, c) ∨ c.(rc_next_time) ≤ ts ∧ moved d d2 c c2 ts) as Hm.
  { destruct (_ && _) eqn:E; [|left; by apply Ok_inj in H2]. apply bind_Ok in H2 as (hc & _ & H2). destruct (_ && _) in H2; [left; by apply Ok_inj in H2|].
    right. apply andb_true_iff in E as [E _]. apply Z.leb_le in E. split; [done|]. eapply next_interval_moved; [exact (ri_interval _ Hi)|exact H2]. }
  assert (race_frame d2 d1 ∧ c1.(rc_interval) = c2.(rc_interval) ∧ c1.(rc_next_time) = c2.(rc_next_time) ∧ c1.(rc_bet_time) = c2.(rc_bet_time)) as (F & E1 & E2 & E3).
  { destruct (_ && _) in H; [|by apply Ok_inj in H; injection H as -> ->]. apply bind_Ok in H as (d3 & H3 & H). apply Ok_inj in H. injection H as <- <-.
    split; [by apply frame_votes|done]. }
  assert (race_inv (d2 <| d_dgpo ::= write_clock c2 |>)) as Hd2.
  { destruct Hm as [[= -> ->]|[Hnext [M1 M2 M3 M4 M5 M6]]].
    - eapply frame_inv; [|exact Hi]. split; [done|done|done| |unfold head_block_time; cbn; lia]. done.
    - destruct Hi as [I1 I2 I3 I4 [I5 I6]]. change (rc_interval c) with (interval d) in *. change (rc_next_time c) with (dgp_next_gr_interval_time (d_dgpo d)) in *.
      change (rc_bet_time c) with (dgp_gr_bet_interval_time (d_dgpo d)) in *. fold ts in I3.
      assert (1 ≤ next_of (interval d) ≤ 14) as Hn by (unfold next_of; destruct ((_ =? 0) || (_ =? 14)) eqn:E; propify; lia).
      pose proof (Hok _ Hn) as Hdays. unfold year, time_add, days in *. set (k := interval_days d (next_of (interval d))) in *.
      assert (0 ≤ k `div` 2 < k) as Hhalf by (split; [apply Z.div_pos; lia|apply Z.div_lt; lia]).
      assert (bets_on_teams d2) as Hb2.
      { destruct (gr_interval_active (interval d)).
        - destruct M4 as [N1 N2]. split; rewrite ?N1, ?N2; apply map_Forall_empty.
        - destruct M4 as [N1 N2]. split; rewrite ?N1, ?N2; (eapply map_Forall_impl; [eassumption|]); cbn; [auto|intros ? ? [? ?]; auto]. }
      split; unfold interval, head_block_time, no_bets in *; cbn; rewrite ?M1, ?M2.
      + lia.
      + rewrite u32_small by lia. lia.
      + intros Hr. rewrite Hr in M3. rewrite M3. destruct (gr_interval_active (dgp_current_gr_interval (d_dgpo d))) eqn:Ea.
        * split; [exact M4|]. specialize (I4 eq_refl). lia.
        * destruct (I3 eq_refl) as [[N1 N2] ?]. destruct M4 as [-> ->]. split; [done|]. lia.
      + intros Hr. rewrite Hr in M3. rewrite M3. rewrite !u32_small by lia. lia.
      + destruct Hb2 as [B1 B2]. split; [exact B1|exact B2]. }
  eapply frame_inv; [|exact Hd2]. destruct F as [F1 F2 F3 F4 F5]. split; [exact F1|exact F2|exact F3| |exact F5].
  unfold race_times, write_clock. cbn. by rewrite E1, E2, E3.
Qed.

(** While the race goes through its intervals, a bet is only open during a race and
    only on teams that exist: bets can be placed in the first half of an interval of
    racing, they are settled when it ends, and a team can be dissolved only outside.
    So no bet is ever settled on a team that is not rated. *)
Theorem bets_while_racing d d' (Hi : race_inv d) (Hsteps : rtc race_step d d') :
  bets_on_teams d' ∧ (gr_interval_active (interval d') = false → no_bets d').
Proof.
  assert (race_inv d') as [_ _ H3 _ H5]; [|split; [exact H5|intros Hr; by destruct (H3 Hr)]].
  induction Hsteps as [|d1 d2 d3 Hs _ IH]; [done|]. apply IH. clear IH.
  destruct Hs as [d op d' (d1 & Hs & _ & _ & Ha)|d op d' H|d op d' (d1 & Hs & _ & _ & Ha)|d op d' (d1 & Hs & _ & _ & Ha)|d op d' (d1 & Hs & _ & _ & Ha)
    |d op d' (d1 & Hs & _ & _ & Ha)|d op d' (d1 & Hs & _ & _ & Ha)|d op d' H|d op d' H|d num d' Hok Hy H|d d' H];
    try (apply frame_fees in Hs; eapply frame_inv; [|exact Hi]; etransitivity; [exact Hs|]); cbn in *.
  - by eapply frame_create.
  - by eapply delete_inv.
  - unfold gr_invite_send_do_apply in Ha. apply bind_Ok in Ha as ([? i] & _ & Ha). apply Ok_inj in Ha as <-. by apply frame_same.
  - by eapply frame_accept.
  - by eapply frame_drop.
  - by eapply frame_drop.
  - unfold gr_vote_do_apply in Ha. apply bind_Ok in Ha as ([? i] & _ & Ha). apply Ok_inj in Ha as <-. by apply frame_same.
  - by eapply range_bet_inv.
  - by eapply team_bet_inv.
  - by eapply maintenance_inv.
  - by eapply frame_inv.
Qed.

(** ** A race of two teams

    Two teams race in interval 2; accounts 6 and 8 bet that the first one wins or does
    not, account 7 bets on the second one; then the interval ends. *)
Definition two_teams : index gr_team_object :=
  Index {[ 0 := (new_team found_team) <| gr_interval_2_volume := 30 |> <| gr_first_half_volume := 1000 |>;
           1 := (new_team (GrTeamCreateOp (Asset 0 0) 7 "Beta" "" "")) <| gr_interval_2_volume := 20 |> <| gr_first_half_volume := 899 |> ]} 2.
Definition racing_db : database :=
  race_db <| d_gr_teams := two_teams |> <| d_dgpo ::= λ g, g <| dgp_current_gr_interval := 2 |> |>.
Definition bet_first : gr_range_bet_operation := GrRangeBetOp (Asset 0 0) 0 1 1 true 6 (Asset 1000 0).
Definition bet_not_first : gr_range_bet_operation := GrRangeBetOp (Asset 0 0) 0 1 1 false 8 (Asset 1500 0).
Definition bet_on_second : gr_team_bet_operation := GrTeamBetOp (Asset 0 0) 0 1 1 7 (Asset 300 0).
Definition racing_db1 : database := ok_or racing_db (gr_range_bet_do_apply racing_db bet_first).
Definition racing_db2 : database := ok_or racing_db (gr_range_bet_do_apply racing_db1 bet_not_first).
Definition racing_db3 : database := ok_or racing_db (gr_team_bet_do_apply racing_db2 bet_on_second).
Definition race_end : Z := 1650200000.
Definition racing_db4 : database := racing_db3 <| d_dgpo ::= λ g, g <| dgp_time := race_end |> |>.
Definition settled_db : database := ok_or racing_db (gr_maintenance racing_db4 race_end 50000000).

#[export] Instance side_ok_dec bets total : Decision (side_ok bets total).
Proof. unfold side_ok. apply _. Defined.
#[export] Instance range_bet_ok_dec b : Decision (range_bet_ok b).
Proof. unfold range_bet_ok. apply _. Defined.
#[export] Instance team_bet_ok_dec b : Decision (team_bet_ok b).
Proof. unfold team_bet_ok. apply _. Defined.
#[export] Instance has_team_dec d id : Decision (has_team d id).
Proof. unfold has_team. apply _. Defined.

Lemma racing_bets_ok : bets_ok racing_db3.
Proof. split; apply (bool_decide_unpack _); vm_compute; exact I. Qed.

(** The bettor on the first place gets the whole prize, the single bet goes back. *)
Lemma proceed_gr_bets_settles_witness :
  match proceed_gr_bets racing_db3 with
  | Ok d' => conserves racing_db3 d' ∧ core_of d' 6 = core_of racing_db3 6 + 2500 ∧ core_of d' 7 = core_of racing_db3 7 + 300 ∧
             core_of d' 8 = core_of racing_db3 8
  | Err _ => False
  end.
Proof.
  destruct (proceed_gr_bets racing_db3) as [d'|e] eqn:E; [|exfalso; vm_compute in E; discriminate E].
  destruct (proceed_gr_bets_settles _ _ racing_bets_ok E) as (H1 & _ & _ & H2). split; [done|]. rewrite !H2. by vm_compute.
Defined.

(** The first team is a rank above the second one, which stays without a rank: it is one
    unit below. *)
Definition half_db : database := racing_db <| d_dgpo ::= λ g, g <| dgp_current_gr_interval := 7 |> |>.
Lemma gr_ranks_assigned_witness :
  match proceed_gr_rank half_db with
  | Ok d' => conserves half_db d' ∧ rank_of d' 0 = Some 2 ∧ rank_of d' 1 = Some 0
  | Err _ => False
  end.
Proof.
  destruct (proceed_gr_rank half_db) as [d'|e] eqn:E; [|exfalso; vm_compute in E; discriminate E].
  destruct (gr_ranks_assigned gr_first_half_volume half_db d') as [H1 H2]; [reflexivity|apply (bool_decide_unpack _); vm_compute; exact I|exact E|].
  split; [exact H1|]. split; [rewrite (H2 0 _ eq_refl)|rewrite (H2 1 _ eq_refl)]; by vm_compute.
Defined.

Lemma racing_intervals_ok : intervals_ok racing_db4.
Proof.
  intros n Hn. assert (n ∈ seqZ 1 14) as Hin by (rewrite elem_of_seqZ; lia). revert n Hin Hn.
  assert (Forall (λ n, 1 ≤ interval_days racing_db4 n ≤ 365) (seqZ 1 14)) as H by (apply (bool_decide_unpack _); vm_compute; exact I).
  rewrite Forall_forall in H. auto.
Qed.
Lemma bets_while_racing_witness : bets_on_teams settled_db ∧ no_bets settled_db.
Proof.
  destruct (bets_while_racing racing_db settled_db) as [H1 H2].
  - split; by vm_compute.
  - eapply rtc_l; [apply (race_range_bet _ bet_first racing_db1), performs_run; by vm_compute|].
    eapply rtc_l; [apply (race_range_bet _ bet_not_first racing_db2), performs_run; by vm_compute|].
    eapply rtc_l; [apply (race_team_bet _ bet_on_second racing_db3), performs_run; by vm_compute|].
    eapply rtc_l; [apply (race_other _ racing_db4); by split|].
    apply rtc_once, (race_maintenance _ 50000000); [apply racing_intervals_ok|by vm_compute|by vm_compute].
  - split; [exact H1|]. apply H2. by vm_compute.
Defined.
