(* ===== verification/Withdraw.v ===== *)
(** * Withdraw permissions

    [withdraw_permission_evaluator.cpp], [protocol/withdraw_permission.cpp],
    [withdraw_permission_object.hpp] and [update_withdraw_permissions] of
    [db_update.cpp]: an account lets another one withdraw up to a limit from its
    balance in every period, until the permission expires.  What is claimed in a
    period never exceeds the limit, for as long as the times stay within their 32
    bits. *)
From S2P Require Import Prelude Safe Asset Objects Database Ledger Vesting Balance Evaluator Sample Referral Cursor Market.

(** ** The object *)

(** [available_this_period]; the end of the period is computed in 32 bits. *)
Definition available_this_period (p : withdraw_permission_object) (current_time : Z) : result asset :=
  if time_add p.(wp_period_start_time) p.(wp_withdrawal_period_sec) <=? current_time then Ok p.(wp_withdrawal_limit)
  else
    let limit := p.(wp_withdrawal_limit) in
    rest ← (if p.(wp_claimed_this_period) <? limit.(amount) then safe_sub limit.(amount) p.(wp_claimed_this_period) else Ok 0);
    Ok (Asset rest limit.(asset_id)).

(** [period_start_time + periods_until_expiration * withdrawal_period_sec], all of 32 bits. *)
Definition permission_end (start periods sec : Z) : Z := time_add start (u32 (periods * sec)).
Definition get_permission (d : database) (id : Z) : result withdraw_permission_object := index_get d.(d_withdraw_permissions) id.

(** ** withdraw_permission_create *)
Record withdraw_permission_create_operation : Type := WithdrawCreateOp {
  wpc_fee : asset; wpc_withdraw_from_account : Z; wpc_authorized_account : Z; wpc_withdrawal_limit : asset;
  wpc_withdrawal_period_sec : Z; wpc_periods_until_expiration : Z; wpc_period_start_time : Z }.

Definition withdraw_permission_create_validate (op : withdraw_permission_create_operation) : result unit :=
  _ ← FC_ASSERT (0 <=? op.(wpc_fee).(amount));
  _ ← FC_ASSERT (negb (op.(wpc_withdraw_from_account) =? op.(wpc_authorized_account)));
  _ ← FC_ASSERT (0 <? op.(wpc_withdrawal_limit).(amount));
  _ ← FC_ASSERT (0 <? op.(wpc_withdrawal_period_sec));
  FC_ASSERT (0 <? op.(wpc_periods_until_expiration)).

Definition withdraw_permission_create_do_evaluate (d : database) (op : withdraw_permission_create_operation) : result unit :=
  _ ← FC_ASSERT (bool_decide (is_Some (d.(d_accounts).(objs) !! op.(wpc_withdraw_from_account))));
  _ ← FC_ASSERT (bool_decide (is_Some (d.(d_accounts).(objs) !! op.(wpc_authorized_account))));
  _ ← FC_ASSERT (bool_decide (is_Some (d.(d_assets).(objs) !! op.(wpc_withdrawal_limit).(asset_id))));
  _ ← FC_ASSERT (head_block_time d <? op.(wpc_period_start_time));
  _ ← FC_ASSERT (head_block_time d <?
        permission_end op.(wpc_period_start_time) op.(wpc_periods_until_expiration) op.(wpc_withdrawal_period_sec));
  FC_ASSERT ((parameters d).(cp_block_interval) <=? op.(wpc_withdrawal_period_sec)).

Definition new_permission (op : withdraw_permission_create_operation) : withdraw_permission_object :=
  WithdrawPermission op.(wpc_withdraw_from_account) op.(wpc_authorized_account) op.(wpc_withdrawal_limit)
    op.(wpc_withdrawal_period_sec) op.(wpc_period_start_time)
    (permission_end op.(wpc_period_start_time) op.(wpc_periods_until_expiration) op.(wpc_withdrawal_period_sec)) 0.

Definition withdraw_permission_create_do_apply (d : database) (op : withdraw_permission_create_operation) : result database :=
  '(_, i) ← index_create d.(d_withdraw_permissions) (new_permission op);
  Ok (d <| d_withdraw_permissions := i |>).

#[export] Instance withdraw_permission_create_evaluator : Evaluator withdraw_permission_create_operation := {|
  fee_payer := wpc_withdraw_from_account; fee := wpc_fee; validate := withdraw_permission_create_validate;
  do_evaluate := withdraw_permission_create_do_evaluate; do_apply := withdraw_permission_create_do_apply |}.

(** ** withdraw_permission_claim *)
Record withdraw_permission_claim_operation : Type := WithdrawClaimOp {
  wpl_fee : asset; wpl_withdraw_permission : Z; wpl_withdraw_from_account : Z; wpl_withdraw_to_account : Z;
  wpl_amount_to_withdraw : asset }.

Definition withdraw_permission_claim_validate (op : withdraw_permission_claim_operation) : result unit :=
  _ ← FC_ASSERT (negb (op.(wpl_withdraw_to_account) =? op.(wpl_withdraw_from_account)));
  _ ← FC_ASSERT (0 <? op.(wpl_amount_to_withdraw).(amount));
  FC_ASSERT (0 <=? op.(wpl_fee).(amount)).

Definition withdraw_permission_claim_do_evaluate (d : database) (op : withdraw_permission_claim_operation) : result unit :=
  let head_time := head_block_time d in
  let amt := op.(wpl_amount_to_withdraw) in
  permit ← get_permission d op.(wpl_withdraw_permission);
  _ ← FC_ASSERT (head_time <? permit.(wp_expiration));
  _ ← FC_ASSERT (permit.(wp_authorized_account) =? op.(wpl_withdraw_to_account));
  _ ← FC_ASSERT (permit.(wp_withdraw_from_account) =? op.(wpl_withdraw_from_account));
  _ ← (if HARDFORK_23_TIME <=? head_time then FC_ASSERT (permit.(wp_period_start_time) <=? head_time) else Ok tt);
  available ← available_this_period permit head_time;
  within ← asset_le amt available;
  _ ← FC_ASSERT within;
  enough ← asset_ge (get_balance d op.(wpl_withdraw_from_account) amt.(asset_id)) amt;
  _ ← FC_ASSERT enough;
  a ← get_asset d amt.(asset_id);
  _ ← (if is_transfer_restricted a
       then FC_ASSERT ((a.(ao_issuer) =? permit.(wp_authorized_account)) || (a.(ao_issuer) =? permit.(wp_withdraw_from_account)))
       else Ok tt);
  to_account ← get_account d permit.(wp_authorized_account);
  _ ← FC_ASSERT (is_authorized_asset d to_account amt.(asset_id) a);
  from_account ← get_account d op.(wpl_withdraw_from_account);
  let from_is_authorized := is_authorized_asset d from_account amt.(asset_id) a in
  if HARDFORK_CORE_942_TIME <? head_time then FC_ASSERT from_is_authorized else Ok tt.

(** The periods that have passed since the last claim; before the hard fork 23 the
    first period may lie ahead. *)
Definition claim_permit (now amt : Z) (p : withdraw_permission_object) : result withdraw_permission_object :=
  let periods := Z.quot (now - p.(wp_period_start_time)) p.(wp_withdrawal_period_sec) in
  let p' := p <| wp_period_start_time := time_add p.(wp_period_start_time) (u32 (periods * p.(wp_withdrawal_period_sec))) |> in
  if periods =? 0 then
    claimed ← safe_add p.(wp_claimed_this_period) amt; Ok (p' <| wp_claimed_this_period := claimed |>)
  else Ok (p' <| wp_claimed_this_period := amt |>).

Definition withdraw_permission_claim_do_apply (d : database) (op : withdraw_permission_claim_operation) : result database :=
  let amt := op.(wpl_amount_to_withdraw) in
  i ← index_modify d.(d_withdraw_permissions) op.(wpl_withdraw_permission) (claim_permit (head_block_time d) amt.(amount));
  d1 ← debit (d <| d_withdraw_permissions := i |>) op.(wpl_withdraw_from_account) amt;
  adjust_balance d1 op.(wpl_withdraw_to_account) amt.

#[export] Instance withdraw_permission_claim_evaluator : Evaluator withdraw_permission_claim_operation := {|
  fee_payer := wpl_withdraw_to_account; fee := wpl_fee; validate := withdraw_permission_claim_validate;
  do_evaluate := withdraw_permission_claim_do_evaluate; do_apply := withdraw_permission_claim_do_apply |}.

(** ** withdraw_permission_update *)
Record withdraw_permission_update_operation : Type := WithdrawUpdateOp {
  wpu_fee : asset; wpu_withdraw_from_account : Z; wpu_authorized_account : Z; wpu_permission_to_update : Z;
  wpu_withdrawal_limit : asset; wpu_withdrawal_period_sec : Z; wpu_period_start_time : Z; wpu_periods_until_expiration : Z }.

Definition withdraw_permission_update_validate (op : withdraw_permission_update_operation) : result unit :=
  _ ← FC_ASSERT (0 <? op.(wpu_withdrawal_limit).(amount));
  _ ← FC_ASSERT (0 <=? op.(wpu_fee).(amount));
  _ ← FC_ASSERT (0 <? op.(wpu_withdrawal_period_sec));
  _ ← FC_ASSERT (negb (op.(wpu_withdraw_from_account) =? op.(wpu_authorized_account)));
  FC_ASSERT (0 <? op.(wpu_periods_until_expiration)).

Definition withdraw_permission_update_do_evaluate (d : database) (op : withdraw_permission_update_operation) : result unit :=
  permit ← get_permission d op.(wpu_permission_to_update);
  _ ← FC_ASSERT (permit.(wp_authorized_account) =? op.(wpu_authorized_account));
  _ ← FC_ASSERT (permit.(wp_withdraw_from_account) =? op.(wpu_withdraw_from_account));
  _ ← FC_ASSERT (bool_decide (is_Some (d.(d_assets).(objs) !! op.(wpu_withdrawal_limit).(asset_id))));
  _ ← FC_ASSERT (head_block_time d <=? op.(wpu_period_start_time));
  _ ← FC_ASSERT (head_block_time d <?
        permission_end op.(wpu_period_start_time) op.(wpu_periods_until_expiration) op.(wpu_withdrawal_period_sec));
  FC_ASSERT ((parameters d).(cp_block_interval) <=? op.(wpu_withdrawal_period_sec)).

(** What was claimed stays. *)
Definition update_permit (op : withdraw_permission_update_operation) (p : withdraw_permission_object) : withdraw_permission_object :=
  p <| wp_period_start_time := op.(wpu_period_start_time) |>
    <| wp_expiration := permission_end op.(wpu_period_start_time) op.(wpu_periods_until_expiration) op.(wpu_withdrawal_period_sec) |>
    <| wp_withdrawal_limit := op.(wpu_withdrawal_limit) |> <| wp_withdrawal_period_sec := op.(wpu_withdrawal_period_sec) |>.

Definition withdraw_permission_update_do_apply (d : database) (op : withdraw_permission_update_operation) : result database :=
  i ← index_modify d.(d_withdraw_permissions) op.(wpu_permission_to_update) (λ p, Ok (update_permit op p));
  Ok (d <| d_withdraw_permissions := i |>).

#[export] Instance withdraw_permission_update_evaluator : Evaluator withdraw_permission_update_operation := {|
  fee_payer := wpu_withdraw_from_account; fee := wpu_fee; validate := withdraw_permission_update_validate;
  do_evaluate := withdraw_permission_update_do_evaluate; do_apply := withdraw_permission_update_do_apply |}.

(** ** withdraw_permission_delete *)
Record withdraw_permission_delete_operation : Type := WithdrawDeleteOp {
  wpd_fee : asset; wpd_withdraw_from_account : Z; wpd_authorized_account : Z; wpd_withdrawal_permission : Z }.

Definition withdraw_permission_delete_validate (op : withdraw_permission_delete_operation) : result unit :=
  _ ← FC_ASSERT (0 <=? op.(wpd_fee).(amount));
  FC_ASSERT (negb (op.(wpd_withdraw_from_account) =? op.(wpd_authorized_account))).

Definition withdraw_permission_delete_do_evaluate (d : database) (op : withdraw_permission_delete_operation) : result unit :=
  permit ← get_permission d op.(wpd_withdrawal_permission);
  _ ← FC_ASSERT (permit.(wp_authorized_account) =? op.(wpd_authorized_account));
  FC_ASSERT (permit.(wp_withdraw_from_account) =? op.(wpd_withdraw_from_account)).

Definition remove_permission (d : database) (id : Z) : result database :=
  i ← index_remove d.(d_withdraw_permissions) id; Ok (d <| d_withdraw_permissions := i |>).
Definition withdraw_permission_delete_do_apply (d : database) (op : withdraw_permission_delete_operation) : result database :=
  remove_permission d op.(wpd_withdrawal_permission).

#[export] Instance withdraw_permission_delete_evaluator : Evaluator withdraw_permission_delete_operation := {|
  fee_payer := wpd_withdraw_from_account; fee := wpd_fee; validate := withdraw_permission_delete_validate;
  do_evaluate := withdraw_permission_delete_do_evaluate; do_apply := withdraw_permission_delete_do_apply |}.

(** ** update_withdraw_permissions

    The index by expiration is emptied from its beginning; every round removes one object. *)
Fixpoint expire_permissions (fuel : nat) (d : database) : result database :=
  match least wp_expiration (λ _, true) d.(d_withdraw_permissions).(objs) with
  | Some (e, id) =>
      if e <=? head_block_time d then
        match fuel with
        | O => Err out_of_fuel
        | S fuel => d1 ← remove_permission d id; expire_permissions fuel d1
        end
      else Ok d
  | None => Ok d
  end.
Definition update_withdraw_permissions (d : database) : result database :=
  expire_permissions (size d.(d_withdraw_permissions).(objs)) d.

(** ** Value *)
#[export] Instance withdraw_permission_create_conserving : Conserving withdraw_permission_create_operation.
Proof. open_conserving. unfold withdraw_permission_create_do_apply in H. inv_ok. solve_flow. Qed.
#[export] Instance withdraw_permission_claim_conserving : Conserving withdraw_permission_claim_operation.
Proof. open_conserving. unfold withdraw_permission_claim_do_apply in H. inv_ok. solve_flow. Qed.
#[export] Instance withdraw_permission_update_conserving : Conserving withdraw_permission_update_operation.
Proof. open_conserving. unfold withdraw_permission_update_do_apply in H. inv_ok. solve_flow. Qed.
#[export] Instance withdraw_permission_delete_conserving : Conserving withdraw_permission_delete_operation.
Proof. open_conserving. unfold withdraw_permission_delete_do_apply, remove_permission in H. inv_ok. solve_flow. Qed.

(** ** The limit of a period *)

(** Between two claims on a permission, other permissions may be created, claimed,
    changed and deleted, and anything may happen that leaves the permission and the
    past alone; what a claim takes is recorded with its time. *)
Definition same_permission (id : Z) (d d' : database) : Prop :=
  d'.(d_withdraw_permissions).(objs) !! id = d.(d_withdraw_permissions).(objs) !! id.
Inductive claims_run (id : Z) : database → list (Z * asset) → database → Prop :=
  | run_end d : claims_run id d [] d
  | run_claim d op d1 l d' :
      performs d op d1 → op.(wpl_withdraw_permission) = id → claims_run id d1 l d' →
      claims_run id d ((head_block_time d, op.(wpl_amount_to_withdraw)) :: l) d'
  | run_claim_other d op d1 l d' :
      performs d op d1 → op.(wpl_withdraw_permission) ≠ id → claims_run id d1 l d' → claims_run id d l d'
  | run_create d (op : withdraw_permission_create_operation) d1 l d' :
      performs d op d1 → claims_run id d1 l d' → claims_run id d l d'
  | run_update d op d1 l d' :
      performs d op d1 → op.(wpu_permission_to_update) ≠ id → claims_run id d1 l d' → claims_run id d l d'
  | run_delete d op d1 l d' :
      performs d op d1 → op.(wpd_withdrawal_permission) ≠ id → claims_run id d1 l d' → claims_run id d l d'
  | run_other d d1 l d' :
      same_permission id d d1 → HARDFORK_23_TIME ≤ head_block_time d1 → claims_run id d1 l d' → claims_run id d l d'.

(** What is claimed in the [k]-th period from the time [start] on. *)
Definition claimed_in (start sec k : Z) (l : list (Z * asset)) : Z :=
  lsum (λ c, if (c.1 - start) `div` sec =? k then c.2.(amount) else 0) l.

Lemma claimed_in_cons start sec k t x l :
  claimed_in start sec k ((t, x) :: l) = (if (t - start) `div` sec =? k then x.(amount) else 0) + claimed_in start sec k l.
Proof. reflexivity. Qed.
Lemma claimed_in_shift start sec k m l : 0 < sec → claimed_in (start + m * sec) sec k l = claimed_in start sec (m + k) l.
Proof.
  intros Hs. unfold claimed_in. induction l as [|[t x] l IH]; cbn; [done|]. rewrite IH. f_equal.
  replace (t - start) with (t - (start + m * sec) + m * sec) by lia. rewrite Z.div_add by lia.
  destruct (Z.eqb_spec ((t - (start + m * sec)) `div` sec) k), (Z.eqb_spec ((t - (start + m * sec)) `div` sec + m) (m + k)); lia.
Qed.

(** A permission whose times stay within 32 bits. *)
Record permission_ok (p : withdraw_permission_object) : Prop := {
  po_start : 0 ≤ p.(wp_period_start_time);
  po_period : 0 < p.(wp_withdrawal_period_sec);
  po_end : p.(wp_expiration) + p.(wp_withdrawal_period_sec) < 4294967296;
  po_claimed : 0 ≤ p.(wp_claimed_this_period) ≤ p.(wp_withdrawal_limit).(amount) }.

(** One claim: it fits into what its period has left, and moves the permission to that period. *)
Definition periods_passed (now : Z) (p : withdraw_permission_object) : Z :=
  (now - p.(wp_period_start_time)) `div` p.(wp_withdrawal_period_sec).
Record claimed_from (now : Z) (x : asset) (p p' : withdraw_permission_object) : Prop := {
  cf_time : p.(wp_period_start_time) ≤ now < p.(wp_expiration);
  cf_asset : x.(asset_id) = p.(wp_withdrawal_limit).(asset_id);
  cf_pos : 0 < x.(amount);
  cf_fits : (if periods_passed now p =? 0 then p.(wp_claimed_this_period) else 0) + x.(amount) ≤ p.(wp_withdrawal_limit).(amount);
  cf_permit : p' = p <| wp_period_start_time := p.(wp_period_start_time) + periods_passed now p * p.(wp_withdrawal_period_sec) |>
    <| wp_claimed_this_period := (if periods_passed now p =? 0 then p.(wp_claimed_this_period) else 0) + x.(amount) |> }.

Lemma available_Ok p now x : permission_ok p → p.(wp_period_start_time) ≤ now < p.(wp_expiration) → available_this_period p now = Ok x →
  x = Asset (p.(wp_withdrawal_limit).(amount) - (if periods_passed now p =? 0 then p.(wp_claimed_this_period) else 0)) p.(wp_withdrawal_limit).(asset_id).
Proof.
  intros [P1 P2 P3 P4] Ht H. unfold available_this_period, time_add in H. rewrite u32_small in H by lia.
  unfold periods_passed. pose proof (Z.div_small_iff (now - p.(wp_period_start_time)) p.(wp_withdrawal_period_sec) ltac:(lia)) as Hd.
  destruct (Z.leb_spec (p.(wp_period_start_time) + p.(wp_withdrawal_period_sec)) now) as [Hle|Hlt].
  - apply Ok_inj in H as <-. destruct (Z.eqb_spec ((now - p.(wp_period_start_time)) `div` p.(wp_withdrawal_period_sec)) 0) as [E|E]; [lia|].
    rewrite Z.sub_0_r. by destruct p.(wp_withdrawal_limit).
  - destruct (Z.eqb_spec ((now - p.(wp_period_start_time)) `div` p.(wp_withdrawal_period_sec)) 0) as [E|E]; [|lia].
    apply bind_Ok in H as (r & Hr & H). apply Ok_inj in H as <-. f_equal.
    destruct (Z.ltb_spec p.(wp_claimed_this_period) p.(wp_withdrawal_limit).(amount)); [by apply safe_sub_Ok in Hr|].
    apply Ok_inj in Hr. lia.
Qed.

Lemma claim_permit_Ok now x p p' : permission_ok p → p.(wp_period_start_time) ≤ now < p.(wp_expiration) →
  claim_permit now x p = Ok p' →
  p' = p <| wp_period_start_time := p.(wp_period_start_time) + periods_passed now p * p.(wp_withdrawal_period_sec) |>
    <| wp_claimed_this_period := (if periods_passed now p =? 0 then p.(wp_claimed_this_period) else 0) + x |>.
Proof.
  intros [P1 P2 P3 P4] Ht H. unfold claim_permit in H. rewrite Z.quot_div_nonneg in H by lia. fold (periods_passed now p) in H.
  pose proof (Z.mul_div_le (now - p.(wp_period_start_time)) p.(wp_withdrawal_period_sec) ltac:(lia)) as Hm.
  pose proof (Z.div_pos (now - p.(wp_period_start_time)) p.(wp_withdrawal_period_sec) ltac:(lia) ltac:(lia)) as H0.
  fold (periods_passed now p) in Hm, H0. unfold time_add in H. rewrite (u32_small (_ * _)) in H by nia. rewrite u32_small in H by nia.
  destruct (Z.eqb_spec (periods_passed now p) 0) as [E|E].
  - apply bind_Ok in H as (c & Hc & H). apply safe_add_Ok in Hc as ->. by apply Ok_inj in H as <-.
  - apply Ok_inj in H as <-. done.
Qed.

Lemma fees_permissions d d1 : same_but_fees d d1 → d1.(d_withdraw_permissions) = d.(d_withdraw_permissions) ∧ head_block_time d1 = head_block_time d.
Proof. by intros (m1 & m2 & -> & _). Qed.
Lemma debit_permissions d acct x d' : debit d acct x = Ok d' →
  d'.(d_withdraw_permissions) = d.(d_withdraw_permissions) ∧ head_block_time d' = head_block_time d.
Proof. intros H. apply (accounts (P := _ = Ok _)) in H. by destruct H as (? & ? & ? & ? & ->). Qed.
Lemma adjust_permissions d acct x d' : adjust_balance d acct x = Ok d' →
  d'.(d_withdraw_permissions) = d.(d_withdraw_permissions) ∧ head_block_time d' = head_block_time d.
Proof. intros H. apply (accounts (P := _ = Ok _)) in H. by destruct H as (? & ? & ? & ? & ->). Qed.

(** What the claim operation does to the table. *)
Lemma claim_table d op d' : performs d op d' → ∃ p p',
  d.(d_withdraw_permissions).(objs) !! op.(wpl_withdraw_permission) = Some p ∧
  claim_permit (head_block_time d) op.(wpl_amount_to_withdraw).(amount) p = Ok p' ∧
  d'.(d_withdraw_permissions).(objs) = <[op.(wpl_withdraw_permission) := p']> d.(d_withdraw_permissions).(objs) ∧
  head_block_time d' = head_block_time d.
Proof.
  intros (d1 & Hs & _ & _ & H). destruct (fees_permissions _ _ Hs) as [E T]. cbn in H. unfold withdraw_permission_claim_do_apply in H.
  apply bind_Ok in H as (i & Hi & H). apply bind_Ok in H as (d2 & H2 & H). apply debit_permissions in H2 as [E2 T2].
  apply adjust_permissions in H as [E3 T3]. apply index_modify_Ok in Hi as (p & p' & Hp & Hp' & ->). exists p, p'.
  rewrite E3, E2, T3, T2. cbn. rewrite E, T in *. unfold head_block_time in *. cbn in *. by rewrite T.
Qed.

Lemma claim_spec d op d' p : HARDFORK_23_TIME ≤ head_block_time d → performs d op d' →
  d.(d_withdraw_permissions).(objs) !! op.(wpl_withdraw_permission) = Some p → permission_ok p →
  ∃ p', claimed_from (head_block_time d) op.(wpl_amount_to_withdraw) p p' ∧
    d'.(d_withdraw_permissions).(objs) !! op.(wpl_withdraw_permission) = Some p' ∧ head_block_time d' = head_block_time d.
Proof.
  intros H23 Hop Hp Hok. destruct (claim_table _ _ _ Hop) as (p0 & p' & Hp0 & Hc & Ht & Hh). assert (p0 = p) as -> by congruence.
  destruct Hop as (d1 & _ & Hval & Heval & _). cbn in Hval, Heval.
  apply bind_Ok in Hval as (? & _ & Hval). apply bind_Ok in Hval as (? & Hpos & _). apply FC_ASSERT_Ok, Z.ltb_lt in Hpos.
  unfold withdraw_permission_claim_do_evaluate in Heval. cbv zeta in Heval.
  apply bind_Ok in Heval as (q & Hq & Heval). apply index_get_Ok in Hq. assert (q = p) as -> by congruence.
  apply bind_Ok in Heval as (? & He & Heval). apply FC_ASSERT_Ok, Z.ltb_lt in He. do 2 apply bind_Ok in Heval as (? & _ & Heval).
  apply bind_Ok in Heval as (? & Hst & Heval). rewrite (proj2 (Z.leb_le _ _) H23) in Hst. apply FC_ASSERT_Ok, Z.leb_le in Hst.
  apply bind_Ok in Heval as (av & Hav & Heval). apply available_Ok in Hav as ->; [|done|lia].
  apply bind_Ok in Heval as (w & Hw & Heval). apply bind_Ok in Heval as (? & Hwt & _). apply FC_ASSERT_Ok in Hwt as ->.
  unfold asset_le in Hw. apply fmap_Ok in Hw as (b & Hb & Hn). unfold asset_lt in Hb. apply bind_Ok in Hb as (? & Hid & Hb).
  apply FC_ASSERT_Ok, Z.eqb_eq in Hid. apply Ok_inj in Hb as <-. cbn in Hid, Hn. symmetry in Hn. apply negb_true_iff, Z.ltb_ge in Hn.
  exists p'. split; [|split; [by rewrite Ht, lookup_insert_eq|done]].
  split; [lia|done|done|lia|]. apply claim_permit_Ok; [done|lia|done].
Qed.

Lemma claimed_ok now x p p' : permission_ok p → claimed_from now x p p' → permission_ok p' ∧
  p'.(wp_expiration) = p.(wp_expiration) ∧ p'.(wp_withdrawal_period_sec) = p.(wp_withdrawal_period_sec) ∧
  p'.(wp_withdrawal_limit) = p.(wp_withdrawal_limit) ∧
  p'.(wp_period_start_time) = p.(wp_period_start_time) + periods_passed now p * p.(wp_withdrawal_period_sec) ∧ 0 ≤ periods_passed now p.
Proof.
  intros [P1 P2 P3 P4] [C1 C2 C3 C4 ->]. cbn.
  pose proof (Z.div_pos (now - p.(wp_period_start_time)) p.(wp_withdrawal_period_sec) ltac:(lia) ltac:(lia)) as H0. fold (periods_passed now p) in H0.
  split; [|done]. split; cbn; [nia|done|done|]. destruct (_ =? 0); lia.
Qed.

(** Everything else leaves the permission alone. *)
Lemma other_permission id d op d' : performs d op d' → op.(wpl_withdraw_permission) ≠ id →
  same_permission id d d' ∧ head_block_time d' = head_block_time d.
Proof.
  intros H Hne. apply claim_table in H as (p & p' & _ & _ & Ht & Hh). split; [|done]. unfold same_permission. by rewrite Ht, lookup_insert_ne.
Qed.
Lemma created_permission id d (op : withdraw_permission_create_operation) d' : performs d op d' →
  is_Some (d.(d_withdraw_permissions).(objs) !! id) → same_permission id d d' ∧ head_block_time d' = head_block_time d.
Proof.
  intros (d1 & Hs & _ & _ & H) [p Hp]. destruct (fees_permissions _ _ Hs) as [E T]. cbn in H. unfold withdraw_permission_create_do_apply in H.
  apply bind_Ok in H as ([k i] & Hi & H). apply Ok_inj in H as <-. apply index_create_Ok in Hi as (-> & Hn & ->). rewrite E in *.
  split; [|exact T]. unfold same_permission. cbn. rewrite lookup_insert_ne; [done|]. congruence.
Qed.
Lemma updated_permission id d op d' : performs d op d' → op.(wpu_permission_to_update) ≠ id →
  same_permission id d d' ∧ head_block_time d' = head_block_time d.
Proof.
  intros (d1 & Hs & _ & _ & H) Hne. destruct (fees_permissions _ _ Hs) as [E T]. cbn in H. unfold withdraw_permission_update_do_apply in H.
  apply bind_Ok in H as (i & Hi & H). apply Ok_inj in H as <-. apply index_modify_Ok in Hi as (p & p' & _ & _ & ->).
  split; [|exact T]. unfold same_permission. cbn. by rewrite E, lookup_insert_ne.
Qed.
Lemma deleted_permission id d op d' : performs d op d' → op.(wpd_withdrawal_permission) ≠ id →
  same_permission id d d' ∧ head_block_time d' = head_block_time d.
Proof.
  intros (d1 & Hs & _ & _ & H) Hne. destruct (fees_permissions _ _ Hs) as [E T]. cbn in H. unfold withdraw_permission_delete_do_apply, remove_permission in H.
  apply bind_Ok in H as (i & Hi & H). apply Ok_inj in H as <-. apply index_remove_Ok in Hi as (p & _ & ->).
  split; [|exact T]. unfold same_permission. cbn. by rewrite E, lookup_delete_ne.
Qed.

(** The claims of a run from a permission on: none lies before its period, its own
    period has room for what it has left, every other one for the limit. *)
Definition within_limits (p : withdraw_permission_object) (l : list (Z * asset)) : Prop :=
  Forall (λ c, p.(wp_period_start_time) ≤ c.1 < p.(wp_expiration) ∧ c.2.(asset_id) = p.(wp_withdrawal_limit).(asset_id)) l ∧
  ∀ k, claimed_in p.(wp_period_start_time) p.(wp_withdrawal_period_sec) k l + (if k =? 0 then p.(wp_claimed_this_period) else 0)
    ≤ p.(wp_withdrawal_limit).(amount).

Lemma none_before start sec k (l : list (Z * asset)) : 0 < sec → k < 0 → Forall (λ c, start ≤ c.1) l → claimed_in start sec k l = 0.
Proof.
  intros Hs Hk H. unfold claimed_in. induction H as [|[t x] l Ht _ IH]; cbn; [done|]. cbn in Ht. rewrite IH.
  pose proof (Z.div_pos (t - start) sec ltac:(lia) ltac:(lia)). destruct (Z.eqb_spec ((t - start) `div` sec) k); lia.
Qed.

Lemma within_limits_claim now x p p' l : permission_ok p → claimed_from now x p p' → within_limits p' l → within_limits p ((now, x) :: l).
Proof.
  intros Hok Hc [Hall Hl]. destruct (claimed_ok _ _ _ _ Hok Hc) as (_ & E1 & E2 & E3 & E4 & H0). rewrite E1, E2, E3, E4 in *.
  destruct Hc as [C1 C2 C3 C4 ->]. cbn in Hl. destruct Hok as [P1 P2 P3 P4]. set (m := periods_passed now p) in *. split.
  - constructor; [done|]. eapply Forall_impl; [exact Hall|]. cbn. intros c [? ?]. split; [nia|done].
  - intros k. rewrite claimed_in_cons. fold (periods_passed now p). fold m. specialize (Hl (k - m)). rewrite claimed_in_shift in Hl by done.
    replace (m + (k - m)) with k in Hl by lia.
    destruct (Z.lt_ge_cases k m) as [Hlt|Hge].
    + assert (claimed_in p.(wp_period_start_time) p.(wp_withdrawal_period_sec) k l = 0) as ->.
      { replace k with (m + (k - m)) by lia. rewrite <-claimed_in_shift by done. apply none_before; [done|lia|].
        eapply Forall_impl; [exact Hall|]. cbn. tauto. }
      destruct (Z.eqb_spec m k); [lia|]. destruct (k =? 0); lia.
    + destruct (Z.eqb_spec m k) as [<-|Hne].
      * rewrite Z.sub_diag, Z.eqb_refl in Hl. clearbody m. destruct (m =? 0); lia.
      * destruct (Z.eqb_spec (k - m) 0); [lia|]. destruct (Z.eqb_spec k 0); lia.
Qed.

Lemma run_within id d l d' p : claims_run id d l d' → HARDFORK_23_TIME ≤ head_block_time d →
  d.(d_withdraw_permissions).(objs) !! id = Some p → permission_ok p → within_limits p l.
Proof.
  intros H. revert p. unfold same_permission in *.
  induction H as [d|d op d1 l d' Hop Hid _ IH|d op d1 l d' Hop Hid _ IH|d op d1 l d' Hop _ IH|d op d1 l d' Hop Hid _ IH|d op d1 l d' Hop Hid _ IH|d d1 l d' Hs Ht _ IH];
    intros p H23 Hp Hok.
  - split; [constructor|]. intros k. unfold claimed_in. cbn. destruct Hok. destruct (k =? 0); lia.
  - subst id. destruct (claim_spec _ _ _ _ H23 Hop Hp Hok) as (p' & Hc & Hp' & T). eapply within_limits_claim; [done|exact Hc|].
    apply IH; [by rewrite T|done|]. by destruct (claimed_ok _ _ _ _ Hok Hc).
  - destruct (other_permission id _ _ _ Hop Hid) as [E T]. apply IH; [by rewrite T|by rewrite E|done].
  - destruct (created_permission id _ _ _ Hop (ex_intro _ p Hp)) as [E T]. apply IH; [by rewrite T|by rewrite E|done].
  - destruct (updated_permission id _ _ _ Hop Hid) as [E T]. apply IH; [by rewrite T|by rewrite E|done].
  - destruct (deleted_permission id _ _ _ Hop Hid) as [E T]. apply IH; [by rewrite T|by rewrite E|done].
  - apply IH; [done|by rewrite Hs|done].
Qed.

(** However the claims on a permission are spread over its periods, and whatever
    happens in between to other permissions, every claim is made within its life and
    in the asset of its limit, and what is claimed in one period is never more than the
    limit.  This needs times that stay within 32 bits: see [wrapped_period]. *)
Theorem withdrawals_within_limit id d l d' p (H23 : HARDFORK_23_TIME ≤ head_block_time d)
  (Hp : d.(d_withdraw_permissions).(objs) !! id = Some p) (Hok : permission_ok p) (Hrun : claims_run id d l d') :
  Forall (λ c, p.(wp_period_start_time) ≤ c.1 < p.(wp_expiration) ∧ c.2.(asset_id) = p.(wp_withdrawal_limit).(asset_id)) l ∧
  ∀ k, claimed_in p.(wp_period_start_time) p.(wp_withdrawal_period_sec) k l ≤ p.(wp_withdrawal_limit).(amount).
Proof.
  destruct (run_within _ _ _ _ _ Hrun H23 Hp Hok) as [H1 H2]. split; [exact H1|]. intros k. specialize (H2 k). destruct Hok. destruct (k =? 0); lia.
Qed.

(** A period whose end does not fit into 32 bits: the end wraps around, the first
    period seems to be over at once, and the whole limit can be claimed again and
    again.  The checks of the creation accept such a permission. *)
Theorem wrapped_period p now :
  4294967296 ≤ p.(wp_period_start_time) + p.(wp_withdrawal_period_sec) < 2 * 4294967296 →
  p.(wp_period_start_time) + p.(wp_withdrawal_period_sec) - 4294967296 ≤ now →
  available_this_period p now = Ok p.(wp_withdrawal_limit).
Proof.
  intros H1 H2. unfold available_this_period, time_add. replace (u32 (p.(wp_period_start_time) + p.(wp_withdrawal_period_sec)))
    with (p.(wp_period_start_time) + p.(wp_withdrawal_period_sec) - 4294967296).
  - by rewrite (proj2 (Z.leb_le _ _) H2).
  - unfold u32. apply (Z.mod_unique _ _ 1); lia.
Qed.
Definition long_period : withdraw_permission_create_operation :=
  WithdrawCreateOp (Asset 0 0) 6 7 (Asset 100 0) 2700000000 2 1650000010.
Lemma long_period_accepted :
  withdraw_permission_create_validate long_period = Ok tt ∧ withdraw_permission_create_do_evaluate sample_db long_period = Ok tt ∧
  available_this_period ((new_permission long_period) <| wp_claimed_this_period := 100 |>) 1650000020 = Ok (Asset 100 0).
Proof. by vm_compute. Qed.

(** ** Expired permissions *)
Definition alive_permissions (d : database) : gmap Z withdraw_permission_object :=
  filter (λ x, head_block_time d < x.2.(wp_expiration)) d.(d_withdraw_permissions).(objs).
Lemma expire_permissions_spec fuel d : (size d.(d_withdraw_permissions).(objs) ≤ fuel)%nat →
  expire_permissions fuel d = Ok (d <| d_withdraw_permissions := Index (alive_permissions d) d.(d_withdraw_permissions).(next_id) |>).
Proof.
  assert (∀ d, alive_permissions d = d.(d_withdraw_permissions).(objs) →
    d = d <| d_withdraw_permissions := Index (alive_permissions d) d.(d_withdraw_permissions).(next_id) |>) as Hid.
  { intros d0 ->. destruct d0 as [], d_withdraw_permissions. done. }
  revert d. induction fuel as [|fuel IH]; intros d Hs; cbn [expire_permissions];
    pose proof (least_spec wp_expiration (λ _, true) d.(d_withdraw_permissions).(objs)) as Hl;
    (destruct (least _ _ _) as [[e id]|];
      [destruct Hl as (p & Hp & <- & _ & Hmin)|f_equal; apply Hid, map_filter_id; intros j q Hq; by specialize (Hl j q Hq)]);
    (destruct (Z.leb_spec p.(wp_expiration) (head_block_time d)) as [Hle|Hlt];
      [|f_equal; apply Hid, map_filter_id; intros j q Hq; specialize (Hmin j q Hq eq_refl); unfold pair_ltb in Hmin; cbn in *; propify; lia]).
  - assert (size d.(d_withdraw_permissions).(objs) = O) as E%map_size_empty_iff by lia. by rewrite E, lookup_empty in Hp.
  - unfold remove_permission, index_remove, index_get. rewrite Hp. cbn. rewrite IH.
    2: { cbn. rewrite map_size_delete, Hp. cbn. lia. }
    f_equal. unfold alive_permissions, head_block_time in *. cbn. rewrite map_filter_delete, delete_id; [by destruct d|].
    apply map_lookup_filter_None_2. right. intros q Hq. cbn. assert (q = p) as -> by congruence. lia.
Qed.

(** The permissions that are left are exactly those that have not expired. *)
Theorem update_withdraw_permissions_expires d :
  update_withdraw_permissions d = Ok (d <| d_withdraw_permissions := Index (alive_permissions d) d.(d_withdraw_permissions).(next_id) |>).
Proof. by apply expire_permissions_spec. Qed.

(** ** Three claims

    Account 6 lets account 7 withdraw 100 a day; account 7 claims 60 and 40 on the first
    day and 100 on the third. *)
Definition grant : withdraw_permission_create_operation := WithdrawCreateOp (Asset 0 0) 6 7 (Asset 100 0) 86400 30 1650000010.
Definition at_time (t : Z) (d : database) : database := d <| d_dgpo ::= λ g, g <| dgp_time := t |> |>.
Definition claim_of (x : Z) : withdraw_permission_claim_operation := WithdrawClaimOp (Asset 0 0) 0 6 7 (Asset x 0).
Definition claim_at (t x : Z) (d : database) : database := ok_or d (withdraw_permission_claim_do_apply (at_time t d) (claim_of x)).
Definition granted_db : database := ok_or sample_db (withdraw_permission_create_do_apply sample_db grant).
Definition first_claim : database := claim_at 1650000100 60 granted_db.
Definition second_claim : database := claim_at 1650000200 40 first_claim.
Definition claims_db : database := claim_at 1650200000 100 second_claim.

Lemma step_at t x d l d' :
  HARDFORK_23_TIME ≤ t → validate (claim_of x) = Ok tt → do_evaluate (at_time t d) (claim_of x) = Ok tt →
  do_apply (at_time t d) (claim_of x) = Ok (claim_at t x d) → claims_run 0 (claim_at t x d) l d' →
  claims_run 0 d ((t, Asset x 0) :: l) d'.
Proof.
  intros H1 H2 H3 H4 H. apply (run_other _ _ (at_time t d)); [done..|].
  apply (run_claim _ (at_time t d) (claim_of x) (claim_at t x d)); [by apply performs_run|done|done].
Qed.

Lemma withdrawals_within_limit_witness :
  claimed_in 1650000010 86400 0 [(1650000100, Asset 60 0); (1650000200, Asset 40 0); (1650200000, Asset 100 0)] = 100 ∧
  ∀ k, claimed_in 1650000010 86400 k [(1650000100, Asset 60 0); (1650000200, Asset 40 0); (1650200000, Asset 100 0)] ≤ 100.
Proof.
  split; [by vm_compute|].
  refine (proj2 (withdrawals_within_limit 0 granted_db _ claims_db (new_permission grant) _ _ _ _)).
  - by vm_compute.
  - by vm_compute.
  - split; by vm_compute.
  - apply (step_at 1650000100 60 granted_db), (step_at 1650000200 40 first_claim), (step_at 1650200000 100 second_claim), run_end; by vm_compute.
Defined.
