(* ===== verification/Budget.v ===== *)
(** * The budget

    [db_maint.cpp] and [worker_evaluator.cpp]: what a maintenance interval may
    release from the reserve ([initialize_budget_record], [process_budget]), the pay of
    the witnesses and of the workers ([pay_workers], the three kinds of worker), and the
    share of the fees that goes to the holders of gold ([count_gold]). *)
From stdpp Require Import sorting.
From S2P Require Import Prelude Safe Asset Objects Database Ledger Vesting Balance Evaluator Sample Referral GreatRace Race.

#[export] Instance eta_budget_record : Eta budget_record := λ x,
  BudgetRecord (br_time_since_last_budget x) (br_from_initial_reserve x) (br_from_accumulated_fees x) (br_from_unused_witness_budget x)
    (br_requested_witness_budget x) (br_total_budget x) (br_witness_budget x) (br_worker_budget x) (br_leftover_worker_funds x)
    (br_supply_delta x).

(** ** Workers *)
Definition is_active (w : worker_object) (now : Z) : bool := (w.(wk_work_begin_date) <=? now) && (now <=? w.(wk_work_end_date)).
Definition approving_stake (w : worker_object) : Z := to_int64 (to_int64 w.(wk_total_votes_for) - to_int64 w.(wk_total_votes_against)).

(** [pay_worker] of the three types: back to the reserve, to a vesting balance, to the null account. *)
Definition pay_worker (d : database) (w : worker_type) (pay : Z) : result (database * worker_type) :=
  match w with
  | refund_worker total_burned =>
      t ← safe_add total_burned pay; d' ← sub_supply d 0 pay; Ok (d', refund_worker t)
  | vesting_balance_worker b =>
      i ← index_modify d.(d_vesting) b (λ v, vbo_deposit v (head_block_time d) (Asset pay CORE));
      Ok (d <| d_vesting := i |>, w)
  | burn_worker total_burned =>
      t ← safe_add total_burned pay; d' ← adjust_balance d GRAPHENE_NULL_ACCOUNT (Asset pay CORE); Ok (d', burn_worker t)
  end.

(** More votes first, the lower identifier among equals. *)
Definition worker_le (x y : Z * worker_object) : Prop :=
  approving_stake y.2 < approving_stake x.2 ∨ (approving_stake x.2 = approving_stake y.2 ∧ x.1 ≤ y.1).
#[export] Instance worker_le_dec : RelDecision worker_le.
Proof. intros x y. unfold worker_le. apply _. Defined.
Definition active_workers (d : database) : list (Z * worker_object) :=
  merge_sort worker_le (filter (λ x, is_active x.2 (head_block_time d) = true ∧ 0 < approving_stake x.2) (map_to_list d.(d_workers).(objs))).

(** [daily_pay * passed / day], in microseconds and 128 bits. *)
Definition requested_pay (d : database) (daily_pay : Z) : result Z :=
  let passed := (head_block_time d - d.(d_dgpo).(dgp_last_budget_time)) * 1000000 in
  to_int64 <$> to_uint64 (uint128_mul (uint128_of_int64 daily_pay) (uint128_of_int64 passed) `div` 86400000000).

Definition pay_one (st : database * Z) (x : Z * worker_object) : result (database * Z) :=
  let '(d, budget) := st in
  if 0 <? budget then
    requested ← requested_pay d x.2.(wk_daily_pay);
    let actual := Z.min budget requested in
    '(d1, w) ← pay_worker d x.2.(wk_worker) actual;
    i ← index_modify d1.(d_workers) x.1 (λ o, Ok (o <| wk_worker := w |>));
    budget ← safe_sub budget actual; Ok (d1 <| d_workers := i |>, budget)
  else Ok st.
Definition pay_workers (d : database) (budget : Z) : result (database * Z) := foldM pay_one (d, budget) (active_workers d).

(** ** The budget of an interval *)
Definition GRAPHENE_CORE_ASSET_CYCLE_RATE : Z := 17.
Definition GRAPHENE_CORE_ASSET_CYCLE_RATE_BITS : Z := 32.

(** [asset_object::reserved] *)
Definition reserved (d : database) (a : asset_object) : result Z :=
  dd ← get_dynamic_data d a.(ao_dynamic_asset_data_id); safe_sub a.(ao_max_supply) dd.(dd_current_supply).

(** At most the rate of the cycle, rounded up, and never more than the reserve. *)
Definition budget_of (reserve dt : Z) : result Z :=
  let b := uint128_mul (uint128_mul (uint128_of_int64 reserve) (u64 dt)) GRAPHENE_CORE_ASSET_CYCLE_RATE in
  let b := Z.shiftr (uint128_add b (2 ^ GRAPHENE_CORE_ASSET_CYCLE_RATE_BITS - 1)) GRAPHENE_CORE_ASSET_CYCLE_RATE_BITS in
  if b <? uint128_of_int64 reserve then to_int64 <$> to_uint64 b else Ok reserve.

Definition initialize_budget_record (d : database) (now : Z) : result budget_record :=
  let dpo := d.(d_dgpo) in
  core ← get_asset d CORE;
  core_dd ← get_core_dynamic_data d;
  r ← reserved d core;
  let rec := BudgetRecord 0 r core_dd.(dd_accumulated_fees) dpo.(dgp_witness_budget) 0 0 0 0 0 0 in
  if (dpo.(dgp_last_budget_time) =? 0) || (now <=? dpo.(dgp_last_budget_time)) then Ok rec
  else
    let dt := now - dpo.(dgp_last_budget_time) in
    reserve ← safe_add r core_dd.(dd_accumulated_fees);
    reserve ← safe_add reserve dpo.(dgp_witness_budget);
    total ← budget_of reserve dt;
    Ok (rec <| br_time_since_last_budget := u64 dt |> <| br_total_budget := total |>).

(** The pay of the blocks until the next maintenance, in 64 bits. *)
Definition requested_witness_budget (p : chain_parameters) (time_to_maint : Z) : Z :=
  let blocks_to_maint := u64 (u64 time_to_maint + p.(cp_block_interval) - 1) `div` p.(cp_block_interval) in
  to_int64 (u64 (p.(cp_witness_pay_per_block) * blocks_to_maint)).
Definition worker_budget_of (p : chain_parameters) (time_to_maint available : Z) : result Z :=
  let b := uint128_mul (uint128_of_int64 p.(cp_worker_budget_per_day)) (u64 time_to_maint) `div` 86400 in
  if uint128_of_int64 available <=? b then Ok available else to_int64 <$> to_uint64 b.

Definition supply_delta (rec : budget_record) : result Z :=
  s ← safe_add rec.(br_witness_budget) rec.(br_worker_budget);
  s ← safe_sub s rec.(br_leftover_worker_funds);
  s ← safe_sub s rec.(br_from_accumulated_fees);
  safe_sub s rec.(br_from_unused_witness_budget).

Definition process_budget (d : database) : result database :=
  let p := d.(d_gpo).(gpo_parameters) in
  let now := head_block_time d in
  let time_to_maint := d.(d_dgpo).(dgp_next_maintenance_time) - now in
  rec ← initialize_budget_record d now;
  let available := rec.(br_total_budget) in
  let requested := requested_witness_budget p time_to_maint in
  let witness_budget := Z.min requested available in
  available ← safe_sub available witness_budget;
  worker_budget ← worker_budget_of p time_to_maint available;
  available ← safe_sub available worker_budget;
  '(d1, leftover) ← pay_workers d worker_budget;
  _ ← safe_add available leftover;
  let rec := rec <| br_requested_witness_budget := requested |> <| br_witness_budget := witness_budget |>
                 <| br_worker_budget := worker_budget |> <| br_leftover_worker_funds := leftover |> in
  delta ← supply_delta rec;
  d2 ← modify_dynamic_data d1 0 (λ x,
         s ← safe_add x.(dd_current_supply) delta; Ok (x <| dd_current_supply := s |> <| dd_accumulated_fees := 0 |>));
  let d3 := d2 <| d_dgpo ::= λ g, g <| dgp_witness_budget := witness_budget |> <| dgp_last_budget_time := now |> |> in
  '(_, i) ← index_create d3.(d_budget_records) (BudgetRecordObject now (rec <| br_supply_delta := delta |>));
  Ok (d3 <| d_budget_records := i |>).

(** ** The holders of gold *)

(** [40/42] of the fees; the shares of a holder of [p] units, before and since the fork CWD2. *)
Definition cut_fee_helper (a : Z) : result Z := to_int64 <$> to_uint64 (uint128_mul (uint128_of_int64 a) 40 `div` 42).
Definition split_fee_helper (a p : Z) : result Z :=
  if (a =? 0) || (p =? 0) then Ok 0 else to_int64 <$> to_uint64 (uint128_mul (uint128_of_int64 a) p `div` 21000).
Definition split_fee_helper_dynamic (a p current_supply : Z) : result Z :=
  if (a =? 0) || (p =? 0) || (current_supply =? 0) then Ok 0
  else to_int64 <$> to_uint64 (uint128_mul (uint128_of_int64 a) p `div` uint128_of_int64 current_supply).

(** The balances of an asset, the largest first, then by owner. *)
Definition holder_le (x y : Z * Z) : Prop := y.2 < x.2 ∨ (x.2 = y.2 ∧ x.1 ≤ y.1).
#[export] Instance holder_le_dec : RelDecision holder_le.
Proof. intros x y. unfold holder_le. apply _. Defined.
Definition by_asset_balance (d : database) (id : Z) : list (Z * Z) :=
  merge_sort holder_le (omap (λ x, if x.1.2 =? id then Some (x.1.1, x.2.(abo_balance)) else None) (map_to_list d.(d_balances))).

(** The balance is passed as a [uint16_t]. *)
Definition gold_share (d : database) (splitable supply balance : Z) : result Z :=
  if HARDFORK_CWD2_TIME <=? head_block_time d then split_fee_helper_dynamic splitable (u16 balance) supply
  else split_fee_helper splitable (u16 balance).
Definition pay_gold (splitable supply : Z) (st : database * Z) (x : Z * Z) : result (database * Z) :=
  let '(d, payed) := st in
  if x.2 =? 0 then Ok st
  else
    cut ← gold_share d splitable supply x.2;
    payed ← safe_add payed cut;
    _ ← get_account d x.1;
    d' ← deposit_cashback d x.1 cut false (negb (HARDFORK_CWD6_TIME <=? head_block_time d));
    Ok (d', payed).

Definition count_gold (d : database) : result database :=
  core ← get_core_dynamic_data d;
  if 0 <? core.(dd_accumulated_fees) then
    splitable ← cut_fee_helper core.(dd_accumulated_fees);
    supply ← (if HARDFORK_CWD2_TIME <=? head_block_time d then dd_current_supply <$> get_dynamic_data d 1 else Ok 0);
    '(d1, payed) ← foldM (pay_gold splitable supply) (d, 0) (by_asset_balance d 1);
    modify_dynamic_data d1 0 (λ x, f ← safe_sub x.(dd_accumulated_fees) payed; Ok (x <| dd_accumulated_fees := f |>))
  else Ok d.

(** ** The pay of the workers *)
Lemma flow_pay_worker d w pay d' w' : pay_worker d w pay = Ok (d', w') → flow d d' (λ a, core_only a pay).
Proof.
  unfold pay_worker. intros H. destruct w as [t|b|t].
  - inv_ok. solve_flow.
  - inv_ok. match goal with H : index_modify _ _ _ = Ok _ |- _ => apply index_modify_Ok in H as (v & v' & Hv & Hd & ->) end.
    apply (vbo_deposit_Ok _ _ _ _ true) in Hd as (_ & Hid & Hb). apply flow_vesting. intros a.
    rewrite (isum_modify _ _ _ _ _ Hv), Hb. unfold of_asset. cbn in *. rewrite Hid. flow_arith.
  - inv_ok. solve_flow.
Qed.

(** What the pay leaves alone; the supply of the core asset only shrinks. *)
Record pay_frame (d d' : database) : Prop := {
  pf_assets : d'.(d_assets) = d.(d_assets);
  pf_gpo : d'.(d_gpo) = d.(d_gpo);
  pf_dgpo : d'.(d_dgpo) = d.(d_dgpo);
  pf_records : d'.(d_budget_records) = d.(d_budget_records);
  pf_core : ∀ x, d.(d_dynamic_data) !! 0 = Some x → ∃ x', d'.(d_dynamic_data) !! 0 = Some x' ∧
    x'.(dd_accumulated_fees) = x.(dd_accumulated_fees) ∧ x'.(dd_current_supply) ≤ x.(dd_current_supply) }.
#[export] Instance pay_frame_preorder : PreOrder pay_frame.
Proof.
  split; [intros d; split; [done..|]; intros x Hx; by exists x|].
  intros d1 d2 d3 [A1 A2 A3 A4 A5] [B1 B2 B3 B4 B5]. split; [congruence..|].
  intros x Hx. destruct (A5 _ Hx) as (y & Hy & E1 & E2). destruct (B5 _ Hy) as (z & Hz & E3 & E4). exists z. split; [done|]. split; [congruence|lia].
Qed.
Lemma pay_frame_same d d' :
  d'.(d_assets) = d.(d_assets) → d'.(d_gpo) = d.(d_gpo) → d'.(d_dgpo) = d.(d_dgpo) →
  d'.(d_budget_records) = d.(d_budget_records) → d'.(d_dynamic_data) = d.(d_dynamic_data) → pay_frame d d'.
Proof. intros E1 E2 E3 E4 E5. split; [done..|]. rewrite E5. intros x Hx. by exists x. Qed.

Lemma pay_worker_frame d w pay d' w' : 0 ≤ pay → pay_worker d w pay = Ok (d', w') → pay_frame d d'.
Proof.
  unfold pay_worker. intros Hp H. destruct w as [t|b|t]; inv_ok.
  - unfold sub_supply in *. match goal with H : modify_dynamic_data _ _ _ = Ok _ |- _ => apply modify_dynamic_data_Ok in H as (u & u' & Hu & Hf & ->) end.
    apply bind_Ok in Hf as (s & Hs & Hf). apply Ok_inj in Hf as <-. apply safe_sub_Ok in Hs as ->.
    split; [done..|]. intros y Hy. assert (y = u) as -> by congruence. cbn. rewrite lookup_insert_eq. eexists. split; [done|]. cbn. split; [done|lia].
  - by apply pay_frame_same.
  - match goal with H : adjust_balance _ _ _ = Ok _ |- _ => apply adjust_balance_Ok in H as [[-> _]|(? & -> & _)] end; by apply pay_frame_same.
Qed.

Definition year_sec : Z := 31536000.
Definition worker_ok (w : worker_object) : Prop := 0 ≤ w.(wk_daily_pay) ≤ GRAPHENE_MAX_SHARE_SUPPLY.
Definition passed_ok (d : database) : Prop := 0 ≤ head_block_time d - d.(d_dgpo).(dgp_last_budget_time) ≤ year_sec.

(** The pay of the days that have passed. *)
Lemma requested_pay_exact d daily : passed_ok d → 0 ≤ daily ≤ GRAPHENE_MAX_SHARE_SUPPLY →
  requested_pay d daily = Ok ((daily * (head_block_time d - d.(d_dgpo).(dgp_last_budget_time))) `div` 86400) ∧
  0 ≤ (daily * (head_block_time d - d.(d_dgpo).(dgp_last_budget_time))) `div` 86400.
Proof.
  unfold passed_ok, year_sec, GRAPHENE_MAX_SHARE_SUPPLY. intros Hp Hd. set (t := head_block_time d - _) in *.
  assert (0 ≤ daily * t ≤ 1000000000000000 * 31536000) as Hm by (split; [lia|apply Z.mul_le_mono_nonneg; lia]).
  assert (0 ≤ (daily * t) `div` 86400 ≤ 365000000000000000) as Hb.
  { split; [apply Z.div_pos; lia|apply Z.div_le_upper_bound; lia]. }
  split; [|lia]. unfold requested_pay. fold t. cbv zeta. unfold uint128_mul, uint128_of_int64.
  rewrite (Z.mod_small daily), (Z.mod_small (t * 1000000)), Z.mod_small by (unfold uint128_mod; lia).
  replace (daily * (t * 1000000)) with (daily * t * 1000000) by lia. change 86400000000 with (86400 * 1000000).
  rewrite Z.div_mul_cancel_r by lia. unfold to_uint64, uint64_mod. rewrite (proj2 (Z.ltb_lt _ _)) by lia. cbn.
  f_equal. apply to_int64_id. unfold in_int64, int64_min, int64_max. lia.
Qed.

Lemma pay_one_spec d b x d' b' : passed_ok d → worker_ok x.2 → 0 ≤ b → pay_one (d, b) x = Ok (d', b') →
  pay_frame d d' ∧ flow d d' (λ a, core_only a (b - b')) ∧ 0 ≤ b' ≤ b.
Proof.
  intros Hp Hw Hb H. unfold pay_one in H. destruct (0 <? b).
  - destruct (requested_pay_exact d _ Hp Hw) as [E Hr]. rewrite E in H. cbn in H. set (r := _ `div` _) in *.
    apply bind_Ok in H as ([d1 w] & H1 & H). apply bind_Ok in H as (i & Hi & H). apply bind_Ok in H as (b1 & Hb1 & H).
    apply Ok_inj in H. injection H as <- <-. apply safe_sub_Ok in Hb1 as ->. split; [|split; [|lia]].
    + transitivity d1; [eapply pay_worker_frame; [|exact H1]; lia|by apply pay_frame_same].
    + apply flow_pay_worker in H1. pose proof (flow_trans _ _ _ _ _ H1 (flow_workers d1 i)) as F. eapply flow_ext; [exact F|]. flow_arith.
  - apply Ok_inj in H. injection H as <- <-. split; [done|]. split; [|lia]. eapply flow_ext; [apply flow_refl|]. flow_arith.
Qed.
Lemma pay_list_spec l d b d' b' : passed_ok d → Forall (λ x, worker_ok x.2) l → 0 ≤ b → foldM pay_one (d, b) l = Ok (d', b') →
  pay_frame d d' ∧ flow d d' (λ a, core_only a (b - b')) ∧ 0 ≤ b' ≤ b.
Proof.
  intros Hp Hall. revert d b Hp. induction Hall as [|x l Hx _ IH]; intros d b Hp Hb H; cbn [foldM] in H.
  { apply Ok_inj in H. injection H as <- <-. split; [done|]. split; [|lia]. eapply flow_ext; [apply flow_refl|]. flow_arith. }
  apply bind_Ok in H as ([d1 b1] & H1 & H). apply pay_one_spec in H1 as (P1 & F1 & B1); [|done..].
  apply IH in H as (P2 & F2 & B2); [|unfold passed_ok, head_block_time; by rewrite (pf_dgpo _ _ P1)|lia].
  split; [by etransitivity|]. split; [|lia]. eapply flow_ext; [exact (flow_trans _ _ _ _ _ F1 F2)|]. flow_arith.
Qed.
Definition workers_ok (d : database) : Prop := map_Forall (λ _ w, worker_ok w) d.(d_workers).(objs).
Lemma pay_workers_spec d b d' b' : passed_ok d → workers_ok d → 0 ≤ b → pay_workers d b = Ok (d', b') →
  pay_frame d d' ∧ flow d d' (λ a, core_only a (b - b')) ∧ 0 ≤ b' ≤ b.
Proof.
  intros Hp Hw Hb H. eapply pay_list_spec; [exact Hp| |exact Hb|exact H]. apply Forall_forall. intros [k w] Hin.
  unfold active_workers in Hin. rewrite merge_sort_Permutation in Hin. apply list_elem_of_filter in Hin as [_ Hin].
  apply elem_of_map_to_list in Hin. exact (Hw _ _ Hin).
Qed.
(** Nothing to pay. *)
Lemma pay_workers_zero d d' b' : pay_workers d 0 = Ok (d', b') → d' = d ∧ b' = 0.
Proof.
  unfold pay_workers. induction (active_workers d) as [|x l IH]; cbn; intros H; [apply Ok_inj in H; by injection H as <- <-|by apply IH].
Qed.

(** ** What may be released *)
Lemma budget_of_spec r dt t : 0 ≤ r ≤ int64_max → 0 < dt < 4294967296 → budget_of r dt = Ok t →
  0 ≤ t ≤ r ∧ (t - 1) * 4294967296 < r * dt * 17.
Proof.
  unfold int64_max. intros Hr Hd H. unfold budget_of, GRAPHENE_CORE_ASSET_CYCLE_RATE, GRAPHENE_CORE_ASSET_CYCLE_RATE_BITS in H. cbv zeta in H.
  rewrite u64_small in H by (unfold uint64_mod; lia). unfold uint128_mul, uint128_add, uint128_of_int64 in H.
  rewrite (Z.mod_small r), (Z.mod_small (r * dt)), (Z.mod_small (r * dt * 17)), Z.mod_small in H by (unfold uint128_mod; nia).
  rewrite Z.shiftr_div_pow2 in H by lia. change (2 ^ 32) with 4294967296 in H.
  set (b := (r * dt * 17 + (4294967296 - 1)) `div` 4294967296) in *.
  pose proof (Z.mul_div_le (r * dt * 17 + (4294967296 - 1)) 4294967296 ltac:(lia)) as Hb. fold b in Hb.
  assert (0 ≤ b) as H0 by (apply Z.div_pos; nia).
  destruct (Z.ltb_spec b r) as [Hlt|Hge].
  - apply fmap_Ok in H as (z & Hz & ->). unfold to_uint64 in Hz. destruct (_ <? _); [|done]. apply Ok_inj in Hz as <-.
    rewrite to_int64_id by (unfold in_int64, int64_min, int64_max; lia). lia.
  - apply Ok_inj in H as <-. nia.
Qed.

Lemma requested_witness_budget_spec p t : 0 < p.(cp_block_interval) → 0 < t < 4294967296 → 0 ≤ p.(cp_witness_pay_per_block) →
  p.(cp_witness_pay_per_block) * t ≤ int64_max → p.(cp_block_interval) < 256 → 0 ≤ requested_witness_budget p t.
Proof.
  unfold int64_max. intros Hi Ht Hp Hb H256. unfold requested_witness_budget. cbv zeta. rewrite (u64_small t) by (unfold uint64_mod; lia).
  rewrite (u64_small (t + _ - 1)) by (unfold uint64_mod; lia). set (n := _ `div` _).
  assert (0 ≤ n ≤ t) as Hn by (split; [apply Z.div_pos; lia|apply Z.div_le_upper_bound; nia]).
  rewrite u64_small by (unfold uint64_mod; nia). rewrite to_int64_id; [nia|]. unfold in_int64, int64_min, int64_max. nia.
Qed.
Lemma worker_budget_of_spec p t av b : 0 ≤ p.(cp_worker_budget_per_day) ≤ int64_max → 0 < t < 4294967296 → 0 ≤ av ≤ int64_max →
  worker_budget_of p t av = Ok b → 0 ≤ b ≤ av.
Proof.
  unfold int64_max. intros Hp Ht Ha H. unfold worker_budget_of in H. cbv zeta in H. rewrite u64_small in H by (unfold uint64_mod; lia).
  unfold uint128_mul, uint128_of_int64 in H. rewrite (Z.mod_small av), (Z.mod_small p.(cp_worker_budget_per_day)), Z.mod_small in H by (unfold uint128_mod; nia).
  pose proof (Z.div_pos (p.(cp_worker_budget_per_day) * t) 86400 ltac:(nia) ltac:(lia)) as H0.
  destruct (Z.leb_spec av ((p.(cp_worker_budget_per_day) * t) `div` 86400)); [apply Ok_inj in H as <-; lia|].
  apply fmap_Ok in H as (z & Hz & ->). unfold to_uint64 in Hz. destruct (_ <? _); [|done]. apply Ok_inj in Hz as <-.
  rewrite to_int64_id by (unfold in_int64, int64_min, int64_max; lia). lia.
Qed.

(** ** The whole budget *)

(** The core asset, its maximal supply and its dynamic data. *)
Record core_state (d : database) (max : Z) (x : asset_dynamic_data_object) : Prop := {
  cs_asset : ∃ a, d.(d_assets).(objs) !! CORE = Some a ∧ a.(ao_dynamic_asset_data_id) = 0 ∧ a.(ao_max_supply) = max;
  cs_dyn : d.(d_dynamic_data) !! 0 = Some x }.

(** The state a maintenance finds: the supply is within its maximum, the clock is within
    a year of the last budget and the next maintenance lies ahead. *)
Record budget_ok (d : database) (max : Z) (x : asset_dynamic_data_object) : Prop := {
  bo_core : core_state d max x;
  bo_supply : 0 ≤ x.(dd_current_supply) ≤ max ∧ max ≤ int64_max;
  bo_fees : 0 ≤ x.(dd_accumulated_fees);
  bo_witness : 0 ≤ d.(d_dgpo).(dgp_witness_budget);
  bo_last : 0 ≤ d.(d_dgpo).(dgp_last_budget_time);
  bo_now : head_block_time d ≤ d.(d_dgpo).(dgp_last_budget_time) + year_sec ∨ d.(d_dgpo).(dgp_last_budget_time) = 0;
  bo_next : head_block_time d < next_maintenance_time d < head_block_time d + 4294967296;
  bo_interval : 0 < (parameters d).(cp_block_interval) < 256;
  bo_pay : 0 ≤ (parameters d).(cp_witness_pay_per_block) ∧
           (parameters d).(cp_witness_pay_per_block) * (next_maintenance_time d - head_block_time d) ≤ int64_max;
  bo_worker_pay : 0 ≤ (parameters d).(cp_worker_budget_per_day) ≤ int64_max;
  bo_workers : workers_ok d }.

(** What the record says is released. *)
Definition released (rec : budget_record) : Z := rec.(br_witness_budget) + rec.(br_worker_budget) - rec.(br_leftover_worker_funds).
Definition reserve_of (d : database) (max : Z) (x : asset_dynamic_data_object) : Z :=
  max - x.(dd_current_supply) + x.(dd_accumulated_fees) + d.(d_dgpo).(dgp_witness_budget).
Definition time_passed (d : database) : Z := head_block_time d - d.(d_dgpo).(dgp_last_budget_time).

Lemma safe_add_upper a b c : safe_add a b = Ok c → 0 ≤ b → a ≤ int64_max → c = a + b ∧ c ≤ int64_max.
Proof.
  intros H Hb Ha. split; [by apply safe_add_Ok in H|]. unfold safe_add in H. repeat case_match; propify; try discriminate H; apply Ok_inj in H as <-; lia.
Qed.
Lemma initial_record d max x rec : budget_ok d max x → initialize_budget_record d (head_block_time d) = Ok rec →
  rec.(br_from_initial_reserve) = max - x.(dd_current_supply) ∧ rec.(br_from_accumulated_fees) = x.(dd_accumulated_fees) ∧
  rec.(br_from_unused_witness_budget) = d.(d_dgpo).(dgp_witness_budget) ∧
  0 ≤ rec.(br_total_budget) ≤ reserve_of d max x ∧
  (rec.(br_total_budget) = 0 ∨ 0 < time_passed d ≤ year_sec ∧ rec.(br_total_budget) ≤ int64_max ∧
    (rec.(br_total_budget) - 1) * 4294967296 < reserve_of d max x * time_passed d * 17).
Proof.
  intros [[(a & Ha & Hid & Hmax) Hx] B1 B2 B3 B4 B5 _ _ _ _ _] H. unfold initialize_budget_record, reserved, get_core_dynamic_data, get_dynamic_data, get_asset, index_get in H.
  cbv zeta in H. rewrite Ha in H. cbn in H. rewrite Hid, Hx in H. cbn in H. rewrite Hmax in H. fold (time_passed d) in H.
  apply bind_Ok in H as (r & Hr & H). apply safe_sub_Ok in Hr as ->. unfold reserve_of.
  destruct ((_ =? 0) || _) eqn:E.
  { apply Ok_inj in H as <-. cbn. do 3 (split; [done|]). split; [lia|by left]. }
  apply orb_false_iff in E as [E1%Z.eqb_neq E2%Z.leb_gt]. apply bind_Ok in H as (r1 & Hr1 & H). apply bind_Ok in H as (r2 & Hr2 & H).
  apply bind_Ok in H as (t & Ht & H). apply Ok_inj in H as <-. 
  apply safe_add_upper in Hr1 as [-> R1]; [|done|lia]. apply safe_add_upper in Hr2 as [-> R2]; [|done|done].
  assert (0 < time_passed d ≤ year_sec) as Htp by (unfold time_passed; destruct B5; [lia|congruence]).
  apply budget_of_spec in Ht as [T1 T2]; [|lia|unfold year_sec in Htp; lia].
  cbn. do 3 (split; [done|]). split; [lia|]. right. split; [done|]. split; [lia|done].
Qed.

Lemma supply_delta_Ok rec z : supply_delta rec = Ok z →
  z = released rec - rec.(br_from_accumulated_fees) - rec.(br_from_unused_witness_budget).
Proof.
  unfold supply_delta, released. intros H. apply bind_Ok in H as (a & Ha & H). apply bind_Ok in H as (b & Hb & H). apply bind_Ok in H as (c & Hc & H).
  apply safe_add_Ok in Ha as ->. apply safe_sub_Ok in Hb as ->. apply safe_sub_Ok in Hc as ->. by apply safe_sub_Ok in H as ->.
Qed.

(** The books at the end: the supply grows by what is released beyond what comes back from the fees and the old budget. *)
Lemma flow_write_budget d delta x wb now d' : d.(d_dynamic_data) !! 0 = Some x →
  modify_dynamic_data d 0 (λ x, s ← safe_add x.(dd_current_supply) delta; Ok (x <| dd_current_supply := s |> <| dd_accumulated_fees := 0 |>)) = Ok d' →
  d'.(d_dynamic_data) !! 0 = Some (x <| dd_current_supply := x.(dd_current_supply) + delta |> <| dd_accumulated_fees := 0 |>) ∧
  d'.(d_dgpo) = d.(d_dgpo) ∧ d'.(d_budget_records) = d.(d_budget_records) ∧
  flow d (d' <| d_dgpo ::= λ g, g <| dgp_witness_budget := wb |> <| dgp_last_budget_time := now |> |>)
    (λ a, core_only a (wb - d.(d_dgpo).(dgp_witness_budget) - delta - x.(dd_accumulated_fees))).
Proof.
  intros Hx H.
  assert (flow d d' (λ a, core_only a (- delta - x.(dd_accumulated_fees)))) as F1.
  { apply (flow_modify_dynamic_data_at _ _ _ _ _ H). intros a u u' Hu Hf. assert (u = x) as -> by congruence.
    apply bind_Ok in Hf as (s & Hs & Hf). apply Ok_inj in Hf as <-. apply safe_add_Ok in Hs as ->. solve_dyn. }
  apply modify_dynamic_data_Ok in H as (y & y' & Hy & Hf & ->). assert (y = x) as -> by congruence.
  apply bind_Ok in Hf as (s & Hs & Hf). apply Ok_inj in Hf as <-. apply safe_add_Ok in Hs as ->.
  split; [cbn; by rewrite lookup_insert_eq|]. split; [done|]. split; [done|].
  match type of F1 with flow _ ?d1 _ => pose proof (flow_dgpo d1 (d.(d_dgpo) <| dgp_witness_budget := wb |> <| dgp_last_budget_time := now |>)
    (wb - d.(d_dgpo).(dgp_witness_budget))) as F2 end.
  eapply flow_ext; [exact (flow_trans _ _ _ _ _ F1 (F2 ltac:(cbn; lia)))|]. flow_arith.
Qed.

Lemma process_budget_spec d max x d' : budget_ok d max x → process_budget d = Ok d' →
  ∃ rec y, d'.(d_budget_records).(objs) !! d.(d_budget_records).(next_id) = Some (BudgetRecordObject (head_block_time d) rec) ∧
    d'.(d_dynamic_data) !! 0 = Some y ∧ conserves d d' ∧ y.(dd_current_supply) ≤ max ∧ y.(dd_accumulated_fees) = 0 ∧
    d'.(d_dgpo).(dgp_witness_budget) = rec.(br_witness_budget) ∧ 0 ≤ rec.(br_witness_budget) ≤ released rec ∧
    released rec ≤ rec.(br_total_budget) ≤ reserve_of d max x ∧
    (rec.(br_total_budget) = 0 ∨ (rec.(br_total_budget) - 1) * 4294967296 < reserve_of d max x * time_passed d * 17).
Proof.
  intros Hb H. unfold process_budget in H. cbv zeta in H. fold (parameters d) in H. apply bind_Ok in H as (rec & Hrec & H).
  destruct (initial_record _ _ _ _ Hb Hrec) as (R1 & R2 & R3 & R4 & R5). destruct Hb as [[_ Hx] B1 B2 B3 B4 B5 B6 B7 [B8 B8'] B9 B10].
  change (d.(d_dgpo).(dgp_next_maintenance_time)) with (next_maintenance_time d) in H. set (ttm := next_maintenance_time d - head_block_time d) in *.
  pose proof (requested_witness_budget_spec (parameters d) ttm ltac:(lia) ltac:(lia) B8 B8' ltac:(lia)) as Hreq.
  set (req := requested_witness_budget _ _) in *. set (wb := Z.min req _) in *.
  assert (0 ≤ rec.(br_total_budget) ≤ int64_max) as Htot by (unfold int64_max in *; lia).
  apply bind_Ok in H as (av1 & Hav1 & H). apply safe_sub_Ok in Hav1. apply bind_Ok in H as (wkb & Hwk & H).
  apply worker_budget_of_spec in Hwk; [|done|lia|lia]. apply bind_Ok in H as (av2 & Hav2 & H). apply safe_sub_Ok in Hav2.
  apply bind_Ok in H as ([d1 leftover] & Hpay & H). apply bind_Ok in H as (? & _ & H).
  assert (pay_frame d d1 ∧ flow d d1 (λ a, core_only a (wkb - leftover)) ∧ 0 ≤ leftover ≤ wkb) as (P & F1 & Hl).
  { destruct R5 as [Hz|(Ht & _)].
    - assert (wkb = 0) as -> by lia. apply pay_workers_zero in Hpay as [-> ->]. split; [done|]. split; [|lia].
      eapply flow_ext; [apply flow_refl|]. flow_arith.
    - eapply pay_workers_spec; [|done| |exact Hpay]; [unfold passed_ok; fold (time_passed d); lia|lia]. }
  apply bind_Ok in H as (delta & Hdelta & H). apply supply_delta_Ok in Hdelta. unfold released in Hdelta. cbn in Hdelta.
  apply bind_Ok in H as (d2 & H2 & H). apply bind_Ok in H as ([k i] & Hi & H). apply Ok_inj in H as <-.
  apply index_create_Ok in Hi as (-> & _ & ->). destruct P as [P1 P2 P3 P4 P5]. destruct (P5 _ Hx) as (x1 & Hx1 & E1 & E2).
  destruct (flow_write_budget _ _ _ wb (head_block_time d) _ Hx1 H2) as (Hy & G & Grec & F2). rewrite P3 in F2.
  eexists (rec <| br_requested_witness_budget := req |> <| br_witness_budget := wb |> <| br_worker_budget := wkb |>
    <| br_leftover_worker_funds := leftover |> <| br_supply_delta := delta |>), _.
  split; [cbn; rewrite Grec, P4; by rewrite lookup_insert_eq|]. split; [exact Hy|]. unfold released. cbn. split.
  { unfold conserves. eapply flow_ext; [exact (flow_trans _ _ _ _ _ F1 (flow_trans _ _ _ _ _ F2 (flow_budget_records _ _)))|]. flow_arith. }
  unfold reserve_of in *. split; [lia|]. split; [done|]. split; [done|]. split; [lia|]. split; [lia|]. destruct R5 as [?|(_ & _ & ?)]; [by left|by right].
Qed.

(** The budget of a maintenance interval: the books stay balanced, the supply never
    exceeds its maximum, all collected fees return to the reserve, and what is released
    to the witnesses and the workers together is at most the total of the record, which
    is at most the whole reserve and at most 17/2^32 of it for every second that has
    passed, rounded up. *)
Theorem process_budget_bounded d max x d' (Hb : budget_ok d max x) (H : process_budget d = Ok d') :
  ∃ rec y, d'.(d_budget_records).(objs) !! d.(d_budget_records).(next_id) = Some (BudgetRecordObject (head_block_time d) rec) ∧
    d'.(d_dynamic_data) !! 0 = Some y ∧ conserves d d' ∧ y.(dd_current_supply) ≤ max ∧ y.(dd_accumulated_fees) = 0 ∧
    d'.(d_dgpo).(dgp_witness_budget) = rec.(br_witness_budget) ∧ 0 ≤ rec.(br_witness_budget) ≤ released rec ∧
    released rec ≤ rec.(br_total_budget) ≤ reserve_of d max x ∧
    (rec.(br_total_budget) = 0 ∨ (rec.(br_total_budget) - 1) * 4294967296 < reserve_of d max x * time_passed d * 17).
Proof. by apply process_budget_spec. Qed.

(** ** The shares of gold *)

(** The fees collected in every asset, which no deposit of a cashback touches. *)
Definition fees_collected (d : database) : gmap Z Z := dd_accumulated_fees <$> d.(d_dynamic_data).
Class KeepsFees (P : Prop) (d d' : database) : Prop := keeps_fees : P → fees_collected d' = fees_collected d.
#[export] Hint Mode KeepsFees + - - : typeclass_instances.
Ltac solve_fees :=
  repeat match goal with
  | H : ?P |- _ => lazymatch P with _ = Ok _ => idtac end; apply (keeps_fees (P:=P)) in H
  end;
  unfold fees_collected, push_applied_operation in *; cbn in *; congruence.
#[export] Instance fees_adjust d acc x d' : KeepsFees (adjust_balance d acc x = Ok d') d d'.
Proof. intros H. by rewrite (adjust_balance_frame _ _ _ _ H). Qed.
#[export] Instance fees_statistics d o f d' : KeepsFees (modify_statistics d o f = Ok d') d d'.
Proof. intros H. by apply modify_statistics_Ok in H as (? & ? & _ & _ & ->). Qed.
#[export] Instance fees_account d o f d' : KeepsFees (modify_account d o f = Ok d') d d'.
Proof. intros H. by apply modify_account_Ok in H as (? & ? & _ & _ & ->). Qed.
#[export] Instance fees_sub_supply d k z d' : KeepsFees (sub_supply d k z = Ok d') d d'.
Proof.
  intros H. apply modify_dynamic_data_Ok in H as (x & x' & Hx & Hf & ->). apply bind_Ok in Hf as (s & _ & Hf). apply Ok_inj in Hf as <-.
  unfold fees_collected. cbn. rewrite fmap_insert. apply insert_id. by rewrite lookup_fmap, Hx.
Qed.
#[export] Instance fees_lazy d o amt secs owner rv o' d' : KeepsFees (deposit_lazy_vesting d o amt secs owner rv = Ok (o', d')) d d'.
Proof. intros H. unfold deposit_lazy_vesting in H. inv_ok; solve_fees. Qed.
#[export] Instance fees_repay d acct amt d' rest : KeepsFees (repay_credit d acct amt = Ok (d', rest)) d d'.
Proof. intros H. unfold repay_credit, close_credit in H. inv_ok; solve_fees. Qed.
#[export] Instance fees_cashback d acct amt rv ci d' : KeepsFees (deposit_cashback d acct amt rv ci = Ok d') d d'.
Proof. intros H. unfold deposit_cashback in H. inv_ok; solve_fees. Qed.

Definition splitable_of (fees : Z) : Z := (fees * 40) `div` 42.
Definition share_of (splitable supply : Z) (x : Z * Z) : Z := (splitable * x.2) `div` supply.

Lemma cut_fee_helper_exact f : 0 ≤ f ≤ int64_max → cut_fee_helper f = Ok (splitable_of f) ∧ 0 ≤ splitable_of f ≤ f.
Proof.
  unfold int64_max. intros Hf. unfold splitable_of.
  assert (0 ≤ (f * 40) `div` 42 ≤ f) as Hb by (split; [apply Z.div_pos; lia|apply Z.div_le_upper_bound; lia]).
  split; [|done]. unfold cut_fee_helper, uint128_mul, uint128_of_int64. rewrite (Z.mod_small f), Z.mod_small by (unfold uint128_mod; lia).
  unfold to_uint64, uint64_mod. rewrite (proj2 (Z.ltb_lt _ _)) by lia. cbn. f_equal. apply to_int64_id. unfold in_int64, int64_min, int64_max. lia.
Qed.

Lemma gold_share_exact d sp supply x : HARDFORK_CWD2_TIME ≤ head_block_time d → 0 ≤ sp ≤ int64_max → 0 < supply < 65536 → 0 ≤ x.2 ≤ supply →
  gold_share d sp supply x.2 = Ok (share_of sp supply x) ∧ 0 ≤ share_of sp supply x ≤ sp.
Proof.
  unfold int64_max. intros H2 Hsp Hs Hx. destruct x as [o b]. cbn in *. unfold gold_share, share_of. cbn. rewrite (proj2 (Z.leb_le _ _)) by done.
  assert (0 ≤ (sp * b) `div` supply ≤ sp) as Hb by (split; [apply Z.div_pos; nia|apply Z.div_le_upper_bound; nia]).
  split; [|done]. unfold split_fee_helper_dynamic, u16. rewrite (Z.mod_small b) by lia.
  destruct (Z.eqb_spec sp 0) as [->|]; [cbn; by rewrite Zdiv_0_l|]. destruct (Z.eqb_spec b 0) as [->|]; [cbn; by rewrite Z.mul_0_r, Zdiv_0_l|].
  destruct (Z.eqb_spec supply 0); [lia|]. cbn. unfold uint128_mul, uint128_of_int64.
  rewrite (Z.mod_small sp), (Z.mod_small supply), Z.mod_small by (unfold uint128_mod; nia).
  unfold to_uint64, uint64_mod. rewrite (proj2 (Z.ltb_lt _ _)) by lia. cbn. f_equal. apply to_int64_id. unfold in_int64, int64_min, int64_max. lia.
Qed.

Lemma pay_gold_list l d p d' p' sp supply : HARDFORK_CWD2_TIME ≤ head_block_time d → 0 ≤ sp ≤ int64_max → 0 < supply < 65536 →
  Forall (λ x, 0 ≤ x.2 ≤ supply) l → foldM (pay_gold sp supply) (d, p) l = Ok (d', p') →
  p' = p + lsum (share_of sp supply) l ∧ fees_collected d' = fees_collected d ∧ flow d d' (λ a, core_only a (p' - p)).
Proof.
  intros H2 Hsp Hs Hall. revert d p H2. induction Hall as [|x l Hx _ IH]; intros d p H2 H; cbn [foldM] in H.
  { apply Ok_inj in H. injection H as <- <-. cbn. split; [lia|]. split; [done|]. eapply flow_ext; [apply flow_refl|]. flow_arith. }
  apply bind_Ok in H as ([d1 p1] & H1 & H).
  assert (p1 = p + share_of sp supply x ∧ fees_collected d1 = fees_collected d ∧ flow d d1 (λ a, core_only a (p1 - p)) ∧ d1.(d_dgpo) = d.(d_dgpo)) as (E & G & F & T).
  { unfold pay_gold in H1. destruct (Z.eqb_spec x.2 0) as [Ex|Ex].
    - apply Ok_inj in H1. injection H1 as <- <-. unfold share_of. rewrite Ex, Z.mul_0_r, Zdiv_0_l. split; [lia|]. split; [done|]. split; [|done].
      eapply flow_ext; [apply flow_refl|]. flow_arith.
    - destruct (gold_share_exact d sp supply x H2 Hsp Hs Hx) as [Ec _]. rewrite Ec in H1. cbn in H1.
      apply bind_Ok in H1 as (p2 & Hp & H1). apply safe_add_Ok in Hp as ->. apply bind_Ok in H1 as (? & _ & H1). apply bind_Ok in H1 as (d2 & Hd & H1).
      apply Ok_inj in H1. injection H1 as <- <-. split; [done|]. split; [by apply (keeps_fees (P := _ = Ok _)) in Hd|]. split.
      + apply (flows (P := _ = Ok _)) in Hd. eapply flow_ext; [exact Hd|]. flow_arith.
      + apply (globals (P := _ = Ok _)) in Hd. apply Hd. }
  apply IH in H as (E' & G' & F'); [|unfold head_block_time in *; by rewrite T]. cbn. split; [lia|]. split; [congruence|].
  eapply flow_ext; [exact (flow_trans _ _ _ _ _ F F')|]. flow_arith.
Qed.

Lemma gold_holders d o b : (o, b) ∈ by_asset_balance d 1 → ∃ abo, d.(d_balances) !! (o, 1) = Some abo ∧ abo.(abo_balance) = b.
Proof.
  unfold by_asset_balance. rewrite merge_sort_Permutation. intros H. apply list_elem_of_omap in H as ([[o' k] abo] & Hin & H).
  apply elem_of_map_to_list in Hin. cbn in H. destruct (Z.eqb_spec k 1) as [->|]; [|done]. injection H as <- <-. by exists abo.
Qed.
Lemma lsum_shares sp supply l : 0 ≤ sp → 0 < supply → Forall (λ x : Z * Z, 0 ≤ x.2) l → lsum snd l ≤ supply →
  0 ≤ lsum (share_of sp supply) l ≤ sp.
Proof.
  intros Hsp Hs Hall Hsum. pose proof (lsum_div_le snd sp supply l Hs) as Hd. change (lsum (λ x, (sp * x.2) `div` supply) l) with (lsum (share_of sp supply) l) in Hd.
  assert (0 ≤ lsum (share_of sp supply) l) as H0.
  { clear Hd Hsum. induction Hall as [|x l Hx _ IH]; cbn; [lia|]. assert (0 ≤ share_of sp supply x) by (apply Z.div_pos; nia). lia. }
  nia.
Qed.
Lemma lsum_each_le l s : Forall (λ x : Z * Z, 0 ≤ x.2) l → lsum snd l ≤ s → Forall (λ x : Z * Z, 0 ≤ x.2 ≤ s) l.
Proof.
  intros Hall. revert s. induction Hall as [|x l Hx Hl IH]; intros s H; cbn in H; [constructor|].
  assert (0 ≤ lsum snd l) as H0 by (clear -Hl; induction Hl as [|y l Hy _ IH]; cbn; lia).
  constructor; [lia|]. eapply Forall_impl; [apply (IH (s - x.2)); lia|]. cbn. lia.
Qed.

(** Gold is issued in small whole units, and the balances are those of its supply. *)
Record gold_ok (d : database) (fees supply : Z) : Prop := {
  go_fork : HARDFORK_CWD2_TIME ≤ head_block_time d;
  go_fees : fees_collected d !! 0 = Some fees;
  go_range : 0 < fees ≤ int64_max;
  go_supply : dd_current_supply <$> d.(d_dynamic_data) !! 1 = Some supply;
  go_small : 0 < supply < 65536;
  go_held : lsum snd (by_asset_balance d 1) ≤ supply }.

(** The holders of gold share the fees: what they are paid is the sum of their shares,
    the part of forty of forty-two parts of the collected fees that a balance is of the
    supply of gold, rounded down; what is paid leaves the fees, at least two of forty-two parts stay, and no value is
    created or lost. *)
Theorem count_gold_shares d fees supply d' (Hl : ledger_ok d) (Hg : gold_ok d fees supply) (H : count_gold d = Ok d') :
  let paid := lsum (share_of (splitable_of fees) supply) (by_asset_balance d 1) in
  conserves d d' ∧ fees_collected d' !! 0 = Some (fees - paid) ∧ 0 ≤ paid ≤ splitable_of fees.
Proof.
  destruct Hg as [G1 G2 G3 G4 G5 G6]. destruct (cut_fee_helper_exact fees ltac:(lia)) as [Ecut Hcut].
  unfold fees_collected in G2. rewrite lookup_fmap in G2. destruct (d.(d_dynamic_data) !! 0) as [x|] eqn:Hx; [|done]. cbn in G2. injection G2 as G2.
  destruct (d.(d_dynamic_data) !! 1) as [y|] eqn:Hy; [|done]. cbn in G4. injection G4 as G4.
  unfold count_gold, get_core_dynamic_data, get_dynamic_data in H. rewrite Hx in H. cbn in H. rewrite G2 in H.
  rewrite (proj2 (Z.ltb_lt 0 fees)) in H by lia. rewrite Ecut in H. cbn in H. rewrite (proj2 (Z.leb_le _ _) G1), Hy in H. cbn in H. rewrite G4 in H.
  apply bind_Ok in H as ([d1 paid] & Hpay & H).
  assert (Forall (λ x : Z * Z, 0 ≤ x.2) (by_asset_balance d 1)) as Hnn.
  { apply Forall_forall. intros [o b] Hin. apply gold_holders in Hin as (abo & Ho & <-). exact (lok_balances _ Hl _ _ Ho). }
  apply pay_gold_list in Hpay as (-> & Ef & F); [|done|lia|done|by apply lsum_each_le].
  cbv zeta. rewrite Z.add_0_l in *. set (paid := lsum (share_of (splitable_of fees) supply) (by_asset_balance d 1)) in *.
  assert (flow d1 d' (λ a, core_only a (- paid))) as F2.
  { apply (flow_modify_dynamic_data_at _ _ _ _ _ H). intros a v v' Hv Hm.
    apply bind_Ok in Hm as (s & Hs & Hm). apply Ok_inj in Hm as <-. apply safe_sub_Ok in Hs as ->. solve_dyn. }
  pose proof (modify_dynamic_data_Ok _ _ _ _ H) as (u & u' & Hu & Hf & ->).
  apply bind_Ok in Hf as (f & Hsub & Hf). apply Ok_inj in Hf as <-. apply safe_sub_Ok in Hsub as ->.
  assert (u.(dd_accumulated_fees) = fees) as Eu.
  { apply (f_equal (lookup 0)) in Ef. unfold fees_collected in Ef. rewrite !lookup_fmap, Hu, Hx in Ef. cbn in Ef. congruence. }
  split; [|split; [unfold fees_collected; cbn; by rewrite fmap_insert, lookup_insert_eq, <-Eu|by apply lsum_shares; [lia|lia|done|done]]].
  unfold conserves. eapply flow_ext; [exact (flow_trans _ _ _ _ _ F F2)|]. flow_arith.
Qed.

(** ** An hour of budget, and a day of gold

    One refund worker and one burn worker, and two holders of gold. *)
Definition sample_worker (w : worker_type) (pay votes : Z) : worker_object := Worker 6 1640000000 1660000000 pay w "" "" 256 257 votes 0.
Definition budget_db : database :=
  sample_db <| d_dgpo ::= λ g, g <| dgp_time := 1650003600 |> <| dgp_witness_budget := 700 |> |>
    <| d_gpo ::= λ g, g <| gpo_parameters ::= λ p, p <| cp_witness_pay_per_block := 100 |> <| cp_worker_budget_per_day := 90000 |> |> |>
    <| d_dynamic_data ::= <[0 := DynamicData 1800000 42000 0]> |>
    <| d_workers := Index {[0 := sample_worker (refund_worker 5) 240000 10; 1 := sample_worker (burn_worker 0) 2400000 20]} 2 |>.

#[export] Instance worker_ok_dec w : Decision (worker_ok w).
Proof. unfold worker_ok. apply _. Defined.
#[export] Instance workers_ok_dec d : Decision (workers_ok d).
Proof. unfold workers_ok. apply _. Defined.
Lemma budget_db_core : core_state budget_db GRAPHENE_MAX_SHARE_SUPPLY (DynamicData 1800000 42000 0).
Proof. split; [exists (sample_asset 0); vm_compute; split; [reflexivity|done]|vm_compute; reflexivity]. Qed.
Lemma budget_db_workers : workers_ok budget_db.
Proof. apply (bool_decide_unpack _). vm_compute. exact I. Qed.
Lemma budget_db_ok : budget_ok budget_db GRAPHENE_MAX_SHARE_SUPPLY (DynamicData 1800000 42000 0).
Proof.
  split; [exact budget_db_core| | | | |left| | | | |exact budget_db_workers].
  all: vm_compute; repeat split; discriminate.
Qed.

Lemma process_budget_bounded_witness :
  match process_budget budget_db with
  | Ok d' => conserves budget_db d' ∧ fees_collected d' !! 0 = Some 0 ∧ (get_balance d' GRAPHENE_NULL_ACCOUNT CORE).(amount) = 100000
  | Err _ => False
  end.
Proof.
  destruct (process_budget budget_db) as [d'|e] eqn:E; [|exfalso; vm_compute in E; discriminate E].
  destruct (process_budget_bounded budget_db GRAPHENE_MAX_SHARE_SUPPLY (DynamicData 1800000 42000 0) d') as (rec & y & _ & Hy & Hc & _ & Hf & _); [|exact E|].
  - exact budget_db_ok.
  - split; [exact Hc|]. split; [unfold fees_collected; by rewrite lookup_fmap, Hy, <-Hf|]. apply (f_equal (λ r, ok_or budget_db r)) in E. cbn in E. rewrite <-E. by vm_compute.
Defined.

Definition gold_db : database :=
  sample_db <| d_dynamic_data ::= λ m, <[0 := DynamicData 1800000 42000 0]> (<[1 := DynamicData 100 0 0]> m) |>
    <| d_balances ::= <[(8, 1) := AccountBalance 60 false]> |>.
Lemma count_gold_shares_witness :
  match count_gold gold_db with
  | Ok d' => conserves gold_db d' ∧ fees_collected d' !! 0 = Some 2000
  | Err _ => False
  end.
Proof.
  destruct (count_gold gold_db) as [d'|e] eqn:E; [|exfalso; vm_compute in E; discriminate E].
  destruct (count_gold_shares gold_db 42000 100 d') as (H1 & H2 & _); [|split; by vm_compute|exact E|].
  - split; apply (bool_decide_unpack _); vm_compute; exact I.
  - split; [exact H1|]. rewrite H2. by vm_compute.
Defined.
