(* ===== verification/Votes.v ===== *)
(** * Votes

    [db_maint.cpp], [vote_count.hpp], [protocol/vote.cpp], [witness_evaluator.cpp],
    [committee_member_evaluator.cpp] and [worker_evaluator.cpp]: the creation of what can
    be voted for, the tally of the stakes of the voters ([vote_tally_helper]), the
    election of the witnesses and of the committee with the authorities they control
    together ([vote_counter]), the votes of the workers. *)
From stdpp Require Import sorting.
From S2P Require Import Prelude Safe Raw Asset Authority Objects Database Ledger Vesting Balance Evaluator Sample Referral Transfer GreatRace Race Budget.

(** ** Vote identifiers *)
Definition vote_committee : Z := 0.
Definition vote_witness : Z := 1.
Definition vote_worker : Z := 2.
(** The type in the lower 8 of 32 bits, the instance above. *)
Definition vote_id_of (type instance : Z) : Z := u32 (Z.lor (u32 (Z.shiftl instance 8)) type).
Definition get_next_vote_id (d : database) (type : Z) : database * Z :=
  let n := d.(d_gpo).(gpo_next_available_vote_id) in
  (d <| d_gpo ::= λ g, g <| gpo_next_available_vote_id := u32 (n + 1) |> |>, vote_id_of type n).

(** An object is not inserted into a table that has its key. *)
Definition no_other {V} (key : V → Z) (i : index V) (k : Z) : bool := bool_decide (map_Forall (λ _ v, key v ≠ k) i.(objs)).

(** ** witness_create *)
Record witness_create_operation : Type := WitnessCreateOp { wc_fee : asset; wc_witness_account : Z; wc_url : string }.
Definition GRAPHENE_MAX_URL_LENGTH : Z := 127.
Definition is_lifetime_member (a : account_object) : bool := a.(acc_membership_expiration_date) =? 4294967295.

Definition witness_create_validate (op : witness_create_operation) : result unit :=
  _ ← FC_ASSERT (0 <=? op.(wc_fee).(amount));
  FC_ASSERT (Z.of_nat (String.length op.(wc_url)) <? GRAPHENE_MAX_URL_LENGTH).
Definition witness_create_do_evaluate (d : database) (op : witness_create_operation) : result unit :=
  a ← get_account d op.(wc_witness_account); FC_ASSERT (is_lifetime_member a).
Definition witness_create_do_apply (d : database) (op : witness_create_operation) : result database :=
  let '(d1, vote_id) := get_next_vote_id d vote_witness in
  _ ← FC_ASSERT (no_other wit_witness_account d1.(d_witnesses) op.(wc_witness_account)
                 && no_other (vote_instance ∘ wit_vote_id) d1.(d_witnesses) (vote_instance vote_id));
  '(_, i) ← index_create d1.(d_witnesses) (Witness op.(wc_witness_account) 0 None 0 0 vote_id 0);
  Ok (d1 <| d_witnesses := i |>).
#[export] Instance witness_create_evaluator : Evaluator witness_create_operation := {|
  fee_payer := wc_witness_account; fee := wc_fee; validate := witness_create_validate;
  do_evaluate := witness_create_do_evaluate; do_apply := witness_create_do_apply |}.

(** ** committee_member_create *)
Record committee_member_create_operation : Type := CommitteeCreateOp {
  cc_fee : asset; cc_committee_member_account : Z; cc_url : string }.
Definition committee_member_create_validate (op : committee_member_create_operation) : result unit :=
  _ ← FC_ASSERT (0 <=? op.(cc_fee).(amount));
  FC_ASSERT (Z.of_nat (String.length op.(cc_url)) <? GRAPHENE_MAX_URL_LENGTH).
Definition committee_member_create_do_evaluate (d : database) (op : committee_member_create_operation) : result unit :=
  a ← get_account d op.(cc_committee_member_account); FC_ASSERT (is_lifetime_member a).
Definition committee_member_create_do_apply (d : database) (op : committee_member_create_operation) : result database :=
  let '(d1, vote_id) := get_next_vote_id d vote_committee in
  _ ← FC_ASSERT (no_other cm_committee_member_account d1.(d_committee_members) op.(cc_committee_member_account)
                 && no_other (vote_instance ∘ cm_vote_id) d1.(d_committee_members) (vote_instance vote_id));
  '(_, i) ← index_create d1.(d_committee_members) (CommitteeMember op.(cc_committee_member_account) vote_id 0);
  Ok (d1 <| d_committee_members := i |>).
#[export] Instance committee_member_create_evaluator : Evaluator committee_member_create_operation := {|
  fee_payer := cc_committee_member_account; fee := cc_fee; validate := committee_member_create_validate;
  do_evaluate := committee_member_create_do_evaluate; do_apply := committee_member_create_do_apply |}.

(** ** worker_create *)
Inductive worker_initializer : Type :=
  | refund_worker_initializer
  | vesting_balance_worker_initializer (pay_vesting_period_days : Z)
  | burn_worker_initializer.
Record worker_create_operation : Type := WorkerCreateOp {
  wkc_fee : asset; wkc_owner : Z; wkc_work_begin_date : Z; wkc_work_end_date : Z; wkc_daily_pay : Z;
  wkc_name : string; wkc_url : string; wkc_initializer : worker_initializer }.
Definition GRAPHENE_MAX_WORKER_NAME_LENGTH : Z := 63.

Definition worker_create_validate (op : worker_create_operation) : result unit :=
  _ ← FC_ASSERT (0 <=? op.(wkc_fee).(amount));
  _ ← FC_ASSERT (op.(wkc_work_begin_date) <? op.(wkc_work_end_date));
  _ ← FC_ASSERT (0 <? op.(wkc_daily_pay));
  _ ← FC_ASSERT (op.(wkc_daily_pay) <? GRAPHENE_MAX_SHARE_SUPPLY);
  _ ← FC_ASSERT (Z.of_nat (String.length op.(wkc_name)) <? GRAPHENE_MAX_WORKER_NAME_LENGTH);
  FC_ASSERT (Z.of_nat (String.length op.(wkc_url)) <? GRAPHENE_MAX_URL_LENGTH).
Definition worker_create_do_evaluate (d : database) (op : worker_create_operation) : result unit :=
  a ← get_account d op.(wkc_owner);
  _ ← FC_ASSERT (is_lifetime_member a);
  FC_ASSERT (head_block_time d <=? op.(wkc_work_begin_date)).

(** [worker_init_visitor] *)
Definition init_worker (d : database) (op : worker_create_operation) : result (database * worker_type) :=
  match op.(wkc_initializer) with
  | refund_worker_initializer => Ok (d, refund_worker 0)
  | burn_worker_initializer => Ok (d, burn_worker 0)
  | vesting_balance_worker_initializer days =>
      '(id, i) ← index_create d.(d_vesting) (VestingBalance op.(wkc_owner) (Asset 0 CORE)
        (cdd (CddPolicy (u32 (days * 86400)) 0 0 (head_block_time d))));
      Ok (d <| d_vesting := i |>, vesting_balance_worker id)
  end.
Definition worker_create_do_apply (d : database) (op : worker_create_operation) : result database :=
  let '(d1, for_id) := get_next_vote_id d vote_worker in
  let '(d2, against_id) := get_next_vote_id d1 vote_worker in
  '(d3, w) ← init_worker d2 op;
  _ ← FC_ASSERT (no_other (vote_instance ∘ wk_vote_for) d3.(d_workers) (vote_instance for_id)
                 && no_other (vote_instance ∘ wk_vote_against) d3.(d_workers) (vote_instance against_id));
  '(_, i) ← index_create d3.(d_workers) (Worker op.(wkc_owner) op.(wkc_work_begin_date) op.(wkc_work_end_date) op.(wkc_daily_pay)
    w op.(wkc_name) op.(wkc_url) for_id against_id 0 0);
  Ok (d3 <| d_workers := i |>).
#[export] Instance worker_create_evaluator : Evaluator worker_create_operation := {|
  fee_payer := wkc_owner; fee := wkc_fee; validate := worker_create_validate;
  do_evaluate := worker_create_do_evaluate; do_apply := worker_create_do_apply |}.

(** ** The tally *)
Record vote_tally : Type := VoteTally {
  vt_votes : list Z;                   (* _vote_tally_buffer *)
  vt_witness_histogram : list Z;       (* _witness_count_histogram_buffer *)
  vt_committee_histogram : list Z;     (* _committee_count_histogram_buffer *)
  vt_total : Z }.                      (* _total_voting_stake *)

Definition zeros (n : Z) : list Z := replicate (Z.to_nat n) 0.
Definition new_tally (d : database) : vote_tally :=
  let p := parameters d in
  VoteTally (zeros d.(d_gpo).(gpo_next_available_vote_id)) (zeros (p.(cp_maximum_witness_count) `div` 2 + 1))
    (zeros (p.(cp_maximum_committee_count) `div` 2 + 1)) 0.

Definition add_stake (stake x : Z) : Z := u64 (x + stake).
Definition GRAPHENE_PROXY_TO_SELF_ACCOUNT : Z := 5.
Definition opinion_of (d : database) (a : account_object) : result account_object :=
  if a.(acc_options).(opt_voting_account) =? GRAPHENE_PROXY_TO_SELF_ACCOUNT then Ok a
  else get_account d a.(acc_options).(opt_voting_account).
Definition voting_stake (d : database) (a : account_object) (s : account_statistics_object) : result Z :=
  cashback ← match a.(acc_cashback_vb) with
             | Some id => v ← index_get d.(d_vesting) id; Ok v.(vb_balance).(amount)
             | None => Ok 0
             end;
  Ok (u64 (s.(st_total_core_in_orders) + cashback + s.(st_core_in_balance))).

(** The stake votes for [num / 2] pairs, or as many as the histogram has. *)
Definition count_opinion (num maximum stake : Z) (histogram : list Z) : list Z :=
  if num <=? maximum then alter (add_stake stake) (Z.to_nat (Z.min (num `div` 2) (Z.of_nat (length histogram) - 1))) histogram
  else histogram.
Definition count_votes (votes : gset Z) (stake : Z) (l : list Z) : list Z :=
  foldl (λ l id, alter (add_stake stake) (Z.to_nat (vote_instance id)) l) l (elements votes).

Definition tally (d : database) (t : vote_tally) (stake_account : account_object) (stats : account_statistics_object) : result vote_tally :=
  let p := parameters d in
  if p.(cp_count_non_member_votes) || is_member stake_account (head_block_time d) then
    opinion ← opinion_of d stake_account;
    stake ← voting_stake d stake_account stats;
    let o := opinion.(acc_options) in
    Ok (VoteTally (count_votes o.(opt_votes) stake t.(vt_votes))
         (count_opinion o.(opt_num_witness) p.(cp_maximum_witness_count) stake t.(vt_witness_histogram))
         (count_opinion o.(opt_num_committee) p.(cp_maximum_committee_count) stake t.(vt_committee_histogram))
         (add_stake stake t.(vt_total)))
  else Ok t.

(** ** How many are elected *)

(** Half of the stake that has an opinion on the number. *)
Definition stake_target (t : vote_tally) (histogram : list Z) : Z := u64 (t.(vt_total) - nth 0 histogram 0) `div` 2.
(** The witnesses' sum is a [share_type], the committee's a [uint64_t]. *)
Definition add_share (tally x : Z) : result Z := safe_add tally (to_int64 x).
Definition add_uint64 (tally x : Z) : result Z := Ok (u64 (tally + x)).
Fixpoint count_pairs (add : Z → Z → result Z) (target tally : Z) (histogram : list Z) : result Z :=
  match histogram with
  | [] => Ok 0
  | x :: l =>
      if to_int64 tally <=? target then
        tally' ← add tally x; n ← count_pairs add target tally' l; Ok (n + 1)
      else Ok 0
  end.
Definition seats (add : Z → Z → result Z) (t : vote_tally) (histogram : list Z) (minimum : Z) : result Z :=
  let target := stake_target t histogram in
  n ← (if 0 <? target then count_pairs add target 0 (tail histogram) else Ok 0);
  Ok (Z.max (n * 2 + 1) minimum).

(** ** Who is elected *)
Definition votes_at (t : vote_tally) (vote_id : Z) : Z := nth (Z.to_nat (vote_instance vote_id)) t.(vt_votes) 0.
Section votables.
Context {V : Type} (vote_id : V → Z) (t : vote_tally).
Definition elected_before (x y : Z * V) : Prop :=
  to_int64 (votes_at t (vote_id y.2)) < to_int64 (votes_at t (vote_id x.2)) ∨
  (to_int64 (votes_at t (vote_id x.2)) = to_int64 (votes_at t (vote_id y.2)) ∧ vote_instance (vote_id x.2) ≤ vote_instance (vote_id y.2)).
#[export] Instance elected_before_dec : RelDecision elected_before.
Proof using Type. intros x y. unfold elected_before. apply _. Defined.
Definition sort_votable_objects (objs : gmap Z V) (count : Z) : list (Z * V) :=
  take (Z.to_nat count) (merge_sort elected_before (map_to_list objs)).
End votables.

(** ** The authority of the elected

    An authority lists its accounts in their order. *)
Fixpoint set_weight (k w : Z) (l : list (Z * Z)) : list (Z * Z) :=
  match l with
  | [] => [(k, w)]
  | x :: l' => if k <? x.1 then (k, w) :: l else if k =? x.1 then (k, w) :: l' else x :: set_weight k w l'
  end.

(** The number of low bits to drop, so that 16 significant ones stay. *)
Definition bits_to_drop (votes : Z) : Z := Z.max (Z.log2 votes - 15) 0.

Record vote_counter : Type := VoteCounter {
  vc_total_votes : Z;
  vc_bitshift : Z;                     (* -1 before the first vote *)
  vc_auth : authority }.
Definition new_vote_counter : vote_counter := VoteCounter 0 (-1) (AuthorityOf 0 [] [] []).
Definition vote_counter_add (c : vote_counter) (x : Z * Z) : vote_counter :=
  let '(who, votes) := x in
  if votes =? 0 then c
  else
    let bitshift := if c.(vc_bitshift) =? -1 then bits_to_drop votes else c.(vc_bitshift) in
    let scaled := Z.max (Z.shiftr votes bitshift) 1 in
    let a := c.(vc_auth) in
    VoteCounter (u64 (c.(vc_total_votes) + scaled)) bitshift
      (AuthorityOf a.(weight_threshold) (set_weight who (u16 scaled) a.(account_auths)) a.(key_auths) a.(address_auths)).
Definition vote_counter_finish (c : vote_counter) (out_auth : authority) : authority :=
  if c.(vc_total_votes) =? 0 then out_auth
  else
    let a := c.(vc_auth) in
    AuthorityOf (u32 (Z.shiftr (u32 c.(vc_total_votes)) 1 + 1)) a.(account_auths) a.(key_auths) a.(address_auths).

(** Before the fork 533: the total decides how many bits are dropped. *)
Definition legacy_weights (l : list (Z * Z)) : list (Z * Z) :=
  let total := foldl (λ s x, u64 (s + x.2)) 0 l in
  let weights := foldl (λ m x, if bool_decide (x.1 ∈ fst <$> m) then m else set_weight x.1 x.2 m) [] l in
  (λ x, (x.1, u16 (Z.max (Z.shiftr x.2 (bits_to_drop total)) 1))) <$> weights.
Definition legacy_authority (old : authority) (l : list (Z * Z)) : authority :=
  let w := legacy_weights l in
  AuthorityOf (u32 (foldl (λ s x, u32 (s + x.2)) 0 w `div` 2 + 1)) w [] old.(address_auths).

(** The accounts with their votes, the first elected first. *)
Definition elected_authority (d : database) (old : authority) (l : list (Z * Z)) : authority :=
  if head_block_time d <? HARDFORK_533_TIME then legacy_authority old l
  else vote_counter_finish (foldl vote_counter_add new_vote_counter l) old.
Definition set_active (d : database) (account : Z) (f : authority → authority) : result database :=
  modify_account d account (λ a, Ok (a <| acc_active := f a.(acc_active) |>)).

(** ** update_active_witnesses

    [track]: the option of a node to keep the votes of those who are not elected. *)
Definition record_votes {V} (i : index V) (elected : list (Z * V)) (track : bool) (f : V → V) : result (index V) :=
  if track then Ok (index_map f i) else foldM (λ i x, index_modify i x.1 (λ o, Ok (f o))) i elected.

Definition update_active_witnesses (track : bool) (d : database) (t : vote_tally) : result database :=
  n ← seats add_share t t.(vt_witness_histogram) d.(d_chain_properties).(im_min_witness_count);
  let wits := sort_votable_objects wit_vote_id t d.(d_witnesses).(objs) n in
  i ← record_votes d.(d_witnesses) wits track (λ w, w <| wit_total_votes := votes_at t w.(wit_vote_id) |>);
  let d1 := d <| d_witnesses := i |> in
  d2 ← set_active d1 GRAPHENE_WITNESS_ACCOUNT (λ a, elected_authority d1 a
         ((λ x, (x.2.(wit_witness_account), votes_at t x.2.(wit_vote_id))) <$> wits));
  Ok (d2 <| d_gpo ::= λ g, g <| gpo_active_witnesses := merge_sort Z.le (fst <$> wits) |> |>).

(** ** update_active_committee_members *)
Definition update_active_committee_members (track : bool) (d : database) (t : vote_tally) : result database :=
  n ← seats add_uint64 t t.(vt_committee_histogram) d.(d_chain_properties).(im_min_committee_member_count);
  let members := sort_votable_objects cm_vote_id t d.(d_committee_members).(objs) n in
  i ← record_votes d.(d_committee_members) members track (λ c, c <| cm_total_votes := votes_at t c.(cm_vote_id) |>);
  let d1 := d <| d_committee_members := i |> in
  d2 ← match members with
       | [] => Ok d1
       | _ =>
           d2 ← set_active d1 GRAPHENE_COMMITTEE_ACCOUNT (λ a, elected_authority d1 a
                  ((λ x, (x.2.(cm_committee_member_account), votes_at t x.2.(cm_vote_id))) <$> members));
           committee ← get_account d2 GRAPHENE_COMMITTEE_ACCOUNT;
           set_active d2 GRAPHENE_RELAXED_COMMITTEE_ACCOUNT (λ _, committee.(acc_active))
       end;
  Ok (d2 <| d_gpo ::= λ g, g <| gpo_active_committee_members := (fst <$> members) |> |>).

(** ** update_worker_votes *)
Definition update_worker_votes (d : database) (t : vote_tally) : database :=
  let allow_negative_votes := head_block_time d <? HARDFORK_607_TIME in
  d <| d_workers ::= index_map (λ w, w <| wk_total_votes_for := votes_at t w.(wk_vote_for) |>
         <| wk_total_votes_against := if allow_negative_votes then votes_at t w.(wk_vote_against) else 0 |>) |>.

(** ** The number of seats *)

(** The stake that wants at most [k] pairs. *)
Definition wanting (l : list Z) (k : Z) : Z := lsum id (take (Z.to_nat k) l).
Record exact_add (add : Z → Z → result Z) : Prop := {
  exact_sum : ∀ tally x s, 0 ≤ tally → 0 ≤ x → tally + x ≤ int64_max → add tally x = Ok s → s = tally + x }.
Lemma add_share_exact : exact_add add_share.
Proof.
  split. intros tally x s Ht Hx Hm H. unfold add_share in H. rewrite to_int64_id in H by (unfold in_int64, int64_min, int64_max in *; lia). by apply safe_add_Ok in H.
Qed.
Lemma add_uint64_exact : exact_add add_uint64.
Proof. split. intros tally x s Ht Hx Hm H. apply Ok_inj in H as <-. apply u64_small. unfold uint64_mod, int64_max in *. lia. Qed.

Lemma lsum_id_nonneg l : Forall (λ x, 0 ≤ x) l → 0 ≤ lsum id l.
Proof. induction 1 as [|x l Hx _ IH]; cbn in *; unfold id in *; lia. Qed.
Lemma count_pairs_spec add target tally l n : exact_add add → Forall (λ x, 0 ≤ x) l → 0 ≤ tally → tally + lsum id l ≤ int64_max →
  count_pairs add target tally l = Ok n →
  0 ≤ n ≤ Z.of_nat (length l) ∧ (∀ k, 0 ≤ k < n → tally + wanting l k ≤ target) ∧
  (n = Z.of_nat (length l) ∨ target < tally + wanting l n).
Proof.
  intros Hadd Hall. revert tally n. induction Hall as [|x l Hx Hl IH]; intros tally n Ht Hm H; cbn [count_pairs] in H.
  { apply Ok_inj in H as <-. cbn. split; [lia|]. split; [intros; lia|by left]. }
  change (lsum id (x :: l)) with (x + lsum id l) in Hm. pose proof (lsum_id_nonneg _ Hl) as H0.
  rewrite to_int64_id in H by (unfold in_int64, int64_min, int64_max in *; lia).
  destruct (Z.leb_spec tally target) as [Hle|Hgt].
  2: { apply Ok_inj in H as <-. split; [lia|]. split; [intros; lia|]. right. change (wanting (x :: l) 0) with 0. lia. }
  apply bind_Ok in H as (s & Hs & H). apply (exact_sum _ Hadd) in Hs as ->; [|lia..]. apply bind_Ok in H as (m & Hn & H). apply Ok_inj in H as <-.
  apply IH in Hn as (B & Hlow & Hup); [|lia..].
  assert (∀ k, 0 < k → wanting (x :: l) k = x + wanting l (k - 1)) as Hw.
  { intros k Hk. unfold wanting. replace (Z.to_nat k) with (S (Z.to_nat (k - 1))) by lia. done. }
  split; [cbn; lia|]. split.
  - intros k Hk. destruct (decide (k = 0)) as [->|Hne]; [change (wanting (x :: l) 0) with 0; lia|]. rewrite Hw by lia. specialize (Hlow (k - 1) ltac:(lia)). lia.
  - destruct Hup as [->|Hup]; [left; cbn; lia|right]. rewrite Hw by lia. replace (m + 1 - 1) with m by lia. lia.
Qed.

(** The tally of a stake within 63 bits. *)
Record tally_ok (t : vote_tally) : Prop := {
  to_votes : Forall (λ x, 0 ≤ x ≤ t.(vt_total)) t.(vt_votes);
  to_witnesses : Forall (λ x, 0 ≤ x) t.(vt_witness_histogram) ∧ lsum id t.(vt_witness_histogram) ≤ t.(vt_total);
  to_committee : Forall (λ x, 0 ≤ x) t.(vt_committee_histogram) ∧ lsum id t.(vt_committee_histogram) ≤ t.(vt_total);
  to_total : 0 ≤ t.(vt_total) ≤ int64_max }.

(** [k] pairs are the median of the opinions: at most half of the stake with an opinion
    wants fewer, and more than half wants no more, unless nobody counts more. *)
Definition median_pairs (total : Z) (histogram : list Z) (k : Z) : Prop :=
  let half := (total - nth 0 histogram 0) `div` 2 in
  0 ≤ k ≤ Z.of_nat (length (tail histogram)) ∧ (half = 0 → k = 0) ∧ (∀ j, 0 ≤ j < k → wanting (tail histogram) j ≤ half) ∧
  (0 < half → k = Z.of_nat (length (tail histogram)) ∨ half < wanting (tail histogram) k).

Lemma seats_spec add t histogram minimum n : exact_add add → 0 ≤ t.(vt_total) ≤ int64_max →
  Forall (λ x, 0 ≤ x) histogram → lsum id histogram ≤ t.(vt_total) → seats add t histogram minimum = Ok n →
  ∃ k, n = Z.max (2 * k + 1) minimum ∧ median_pairs t.(vt_total) histogram k.
Proof.
  intros Hadd Ht Hall Hsum H. unfold seats in H. apply bind_Ok in H as (k & Hk & H). apply Ok_inj in H as <-. exists k.
  split; [f_equal; lia|]. unfold median_pairs.
  assert (nth 0 histogram 0 + lsum id (tail histogram) = lsum id histogram ∧ 0 ≤ nth 0 histogram 0 ∧ Forall (λ x, 0 ≤ x) (tail histogram)) as (E & H0 & Htl).
  { destruct Hall as [|x l Hx Hl]; [done|]. change (lsum id (x :: l)) with (x + lsum id l). done. }
  pose proof (lsum_id_nonneg _ Htl) as H1. unfold stake_target in Hk. rewrite u64_small in Hk by (unfold uint64_mod, int64_max in *; lia).
  set (half := (t.(vt_total) - nth 0 histogram 0) `div` 2) in *. destruct (Z.ltb_spec 0 half) as [Hpos|Hneg].
  - apply count_pairs_spec in Hk as (B & Hlow & Hup); [|done|done|lia|lia]. split; [lia|]. split; [lia|]. split; [exact Hlow|]. intros _. exact Hup.
  - apply Ok_inj in Hk as <-. split; [lia|]. split; [done|]. split; [intros; lia|lia].
Qed.

(** ** The best [n] *)
Section elected.
Context {V : Type} (vote_id : V → Z) (t : vote_tally).
Notation before := (elected_before vote_id t).
#[local] Instance before_total : Total before.
Proof using Type. intros x y. unfold elected_before. lia. Qed.
#[local] Instance before_trans : Transitive before.
Proof using Type. intros x y z. unfold elected_before. lia. Qed.

(** [l] are the best [n] of a table, the best first. *)
Record best_of (objs : gmap Z V) (n : Z) (l : list (Z * V)) : Prop := {
  best_length : Z.of_nat (length l) = Z.min (Z.max 0 n) (Z.of_nat (size objs));
  best_in : ∀ k v, (k, v) ∈ l → objs !! k = Some v;
  best_nodup : NoDup (fst <$> l);
  best_sorted : StronglySorted before l;
  best_rest : ∀ x k v, x ∈ l → objs !! k = Some v → k ∉ fst <$> l → before x (k, v) }.

Lemma sort_votable_best objs n : best_of objs n (sort_votable_objects vote_id t objs n).
Proof using Type.
  unfold sort_votable_objects. set (s := merge_sort before (map_to_list objs)).
  assert (s ≡ₚ map_to_list objs) as Hp by apply merge_sort_Permutation.
  assert (StronglySorted before s) as Hs by (apply StronglySorted_merge_sort; apply _).
  assert (NoDup (fst <$> s)) as Hnd by (rewrite Hp; apply NoDup_fst_map_to_list).
  rewrite <-(take_drop (Z.to_nat n) s) in Hs, Hnd. apply StronglySorted_app in Hs as (Hcross & Hs1 & _).
  rewrite fmap_app in Hnd. apply NoDup_app in Hnd as (Hnd & _ & _).
  split; [| | exact Hnd | exact Hs1 |].
  - rewrite length_take, Hp, length_map_to_list. lia.
  - intros k v Hin. apply elem_of_map_to_list. rewrite <-Hp. by apply elem_of_take in Hin as (i & ? & _); apply list_elem_of_lookup_2 in H.
  - intros x k v Hx Hk Hn. apply elem_of_map_to_list in Hk. rewrite <-Hp, <-(take_drop (Z.to_nat n) s), elem_of_app in Hk.
    destruct Hk as [Hk|Hk]; [|by apply Hcross]. destruct Hn. by apply (list_elem_of_fmap_2 fst) in Hk.
Qed.
End elected.

(** ** The majority of the elected *)

(** The weight of [v] votes, when the first elected has [m]. *)
Definition weight_of (m v : Z) : Z := Z.max (Z.shiftr v (bits_to_drop m)) 1.

(** An authority that takes more than half of the weight of those with votes, the
    weights in the order of the votes. *)
Record majority_of (a : authority) (m : Z) (l : list (Z * Z)) : Prop := {
  maj_accounts : a.(account_auths) ≡ₚ (λ x, (x.1, weight_of m x.2)) <$> filter (λ x, 0 < x.2) l;
  maj_others : a.(key_auths) = [] ∧ a.(address_auths) = [];
  maj_weights : Forall (λ x, 1 ≤ x.2 ≤ 65535) a.(account_auths);
  maj_threshold : lsum snd a.(account_auths) < 2 * a.(weight_threshold) ∧ a.(weight_threshold) ≤ lsum snd a.(account_auths) }.

Lemma weight_of_mono m v w : v ≤ w → weight_of m v ≤ weight_of m w.
Proof.
  intros H. unfold weight_of. assert (Z.shiftr v (bits_to_drop m) ≤ Z.shiftr w (bits_to_drop m)); [|lia].
  rewrite !Z.shiftr_div_pow2 by (unfold bits_to_drop; lia). apply Z.div_le_mono; [apply Z.pow_pos_nonneg; unfold bits_to_drop; lia|done].
Qed.
Lemma weight_of_bound m v : 0 < m → v ≤ m → 1 ≤ weight_of m v ≤ 65535.
Proof.
  intros Hm Hv. apply (weight_of_mono m) in Hv. assert (weight_of m m ≤ 65535); [|unfold weight_of in *; lia].
  unfold weight_of, bits_to_drop. rewrite Z.shiftr_div_pow2 by lia. assert (m `div` 2 ^ Z.max (Z.log2 m - 15) 0 < 65536); [|lia].
  apply Z.div_lt_upper_bound; [apply Z.pow_pos_nonneg; lia|]. destruct (Z.log2_spec m Hm) as [_ H].
  change 65536 with (2 ^ 16). rewrite <-Z.pow_add_r by lia. eapply Z.lt_le_trans; [exact H|]. apply Z.pow_le_mono_r; lia.
Qed.

Lemma set_weight_fresh k w l : k ∉ fst <$> l → set_weight k w l ≡ₚ (k, w) :: l.
Proof.
  induction l as [|[k' w'] l IH]; cbn; intros H; [done|]. apply not_elem_of_cons in H as [Hne H].
  destruct (k <? k'); [done|]. destruct (Z.eqb_spec k k'); [done|]. rewrite IH by done. apply perm_swap.
Qed.

(** From the second vote on the number of dropped bits is known. *)
Record counted (m : Z) (l : list (Z * Z)) (c : vote_counter) : Prop := {
  ct_shift : c.(vc_bitshift) = bits_to_drop m;
  ct_accounts : c.(vc_auth).(account_auths) ≡ₚ (λ x, (x.1, weight_of m x.2)) <$> l;
  ct_others : c.(vc_auth).(key_auths) = [] ∧ c.(vc_auth).(address_auths) = [];
  ct_total : c.(vc_total_votes) = lsum (λ x, weight_of m x.2) l }.

Lemma lsum_weights m (l : list (Z * Z)) : 0 < m → Forall (λ x, x.2 ≤ m) l →
  Z.of_nat (length l) ≤ lsum (λ x, weight_of m x.2) l ≤ 65535 * Z.of_nat (length l).
Proof.
  intros Hm. induction 1 as [|x l Hx _ IH]; cbn [lsum length]; [lia|]. pose proof (weight_of_bound m x.2 Hm Hx). lia.
Qed.
Lemma bits_nonneg m : bits_to_drop m ≠ -1.
Proof. unfold bits_to_drop. lia. Qed.

Lemma vote_counter_add_counted m l c x : 0 < m → Forall (λ x, x.2 ≤ m) (x :: l) → Z.of_nat (length l) ≤ 65535 → x.2 ≠ 0 →
  x.1 ∉ fst <$> l → counted m l c → counted m (x :: l) (vote_counter_add c x).
Proof.
  intros Hm Hall Hlen Hx Hn [C1 C2 [C3 C4] C5]. apply Forall_cons in Hall as [Hxm Hall]. destruct x as [who v]. cbn in *. pose proof (weight_of_bound m v Hm Hxm) as Hw.
  destruct (Z.eqb_spec v 0) as [|_]; [done|]. rewrite C1, (proj2 (Z.eqb_neq _ _)) by apply bits_nonneg.
  fold (weight_of m v). pose proof (lsum_weights m l Hm Hall).
  split; cbn; [done| |done|].
  - unfold u16. rewrite Z.mod_small by lia. rewrite set_weight_fresh; [by rewrite C2|].
    rewrite C2, <-list_fmap_compose. exact Hn.
  - rewrite C5, u64_small by (unfold uint64_mod; lia). lia.
Qed.
Lemma vote_counter_first m who : 0 < m → counted m [(who, m)] (vote_counter_add new_vote_counter (who, m)).
Proof.
  intros Hm. pose proof (weight_of_bound m m Hm ltac:(lia)) as Hw. unfold vote_counter_add, new_vote_counter. destruct (Z.eqb_spec m 0); [lia|].
  cbn -[Z.eqb Z.max]. rewrite Z.eqb_refl. fold (weight_of m m). split; cbn; [done| |done|].
  - unfold u16. by rewrite Z.mod_small by lia.
  - rewrite u64_small by (unfold uint64_mod; lia). lia.
Qed.
Lemma vote_counter_list m l : 0 < m → ∀ l0 c, Forall (λ x, 0 ≤ x.2 ≤ m) (l ++ l0) → Z.of_nat (length (l ++ l0)) ≤ 65535 →
  NoDup (fst <$> l ++ l0) → counted m l0 c → counted m (reverse (filter (λ x, 0 < x.2) l) ++ l0) (foldl vote_counter_add c l).
Proof.
  intros Hm. induction l as [|x l IH]; intros l0 c Hall Hlen Hnd Hc; cbn [foldl]; [done|].
  apply Forall_cons in Hall as [Hx Hall]. cbn in Hlen, Hnd. apply NoDup_cons in Hnd as [Hn Hnd].
  rewrite filter_cons. destruct (decide (0 < x.2)) as [Hpos|Hz].
  - rewrite reverse_cons, <-app_assoc. assert (l ++ x :: l0 ≡ₚ x :: l ++ l0) as Hp by (symmetry; apply Permutation_middle).
    apply (IH (x :: l0)); [by rewrite Hp; constructor|by rewrite Hp; cbn; lia|rewrite Hp; by constructor|].
    rewrite Forall_app in Hall. rewrite fmap_app, elem_of_app in Hn. rewrite length_app in Hlen.
    apply vote_counter_add_counted; [done| |lia|lia|tauto|done]. constructor; [lia|]. eapply Forall_impl; [exact (proj2 Hall)|]. cbn. lia.
  - destruct x as [who v]. cbn in *. assert (v = 0) as -> by lia. cbn. apply IH; [done|lia|done|done].
Qed.

(** Those elected in the order of their votes, the first of them with some. *)
Lemma vote_counter_majority old who m l : 0 < m < uint64_mod → Forall (λ x, 0 ≤ x.2 ≤ m) l → NoDup (fst <$> (who, m) :: l) →
  Z.of_nat (length l) < 65535 →
  majority_of (vote_counter_finish (foldl vote_counter_add new_vote_counter ((who, m) :: l)) old) m ((who, m) :: l).
Proof.
  intros Hm Hall Hnd Hlen. cbn [foldl].
  assert (l ++ [(who, m)] ≡ₚ (who, m) :: l) as Hp by (symmetry; apply Permutation_cons_append).
  assert (counted m (reverse (filter (λ x, 0 < x.2) l) ++ [(who, m)]) (foldl vote_counter_add (vote_counter_add new_vote_counter (who, m)) l)) as Hc.
  { apply vote_counter_list; [lia| | | |apply vote_counter_first; lia].
    - apply Forall_app. split; [done|]. constructor; [cbn; lia|constructor].
    - rewrite length_app. cbn. lia.
    - rewrite (fmap_Permutation fst _ _ Hp). exact Hnd. }
  clear Hp.
  set (c := foldl _ _ l) in *. set (v := reverse (filter _ l) ++ [(who, m)]) in *.
  assert (v ≡ₚ filter (λ x, 0 < x.2) ((who, m) :: l)) as Hv.
  { unfold v. rewrite filter_cons_True by (cbn; lia). rewrite reverse_Permutation. symmetry. apply Permutation_cons_append. }
  assert (Forall (λ x, x.2 ≤ m) v) as Hvm.
  { rewrite Hv. apply Forall_forall. intros x [_ Hx]%list_elem_of_filter. apply elem_of_cons in Hx as [->|Hx]; [done|]. rewrite Forall_forall in Hall. by apply Hall. }
  assert (1 ≤ Z.of_nat (length v) ≤ 65535) as Hvl.
  { unfold v. rewrite length_app, length_reverse. cbn. pose proof (length_filter (λ x : Z * Z, 0 < x.2) l). lia. }
  pose proof (lsum_weights m v ltac:(lia) Hvm) as Hs. destruct Hc as [_ C2 [C3 C4] C5].
  assert (lsum snd c.(vc_auth).(account_auths) = lsum (λ x, weight_of m x.2) v) as Et.
  { rewrite C2. clear. induction v as [|x v IH]; cbn; [done|lia]. }
  unfold vote_counter_finish. rewrite (proj2 (Z.eqb_neq _ _)) by lia. rewrite C5.
  split; cbn; [by rewrite C2, Hv|done| |].
  - rewrite C2. apply Forall_fmap. eapply Forall_impl; [exact Hvm|]. cbn. intros x Hx. apply weight_of_bound; [lia|done].
  - rewrite Et. set (s := lsum _ v) in *. unfold u32. rewrite (Z.mod_small s) by lia. rewrite Z.shiftr_div_pow2 by lia.
    change (2 ^ 1) with 2. pose proof (Z.div_mod s 2 ltac:(lia)). pose proof (Z.mod_pos_bound s 2 ltac:(lia)). rewrite Z.mod_small by lia. lia.
Qed.

(** ** The elections *)
Lemma votes_at_ok t id : tally_ok t → 0 ≤ votes_at t id ≤ int64_max.
Proof.
  intros Ht. unfold votes_at. destruct (nth_in_or_default (Z.to_nat (vote_instance id)) t.(vt_votes) 0) as [H| ->]; [|unfold int64_max; lia].
  destruct Ht as [Hv _ _ Htot]. rewrite Forall_forall in Hv. apply list_elem_of_In, Hv in H. lia.
Qed.
Lemma votes_sorted {V} (vote_id : V → Z) t (x y : Z * V) : tally_ok t → elected_before vote_id t x y →
  votes_at t (vote_id y.2) ≤ votes_at t (vote_id x.2).
Proof.
  intros Ht H. pose proof (votes_at_ok t (vote_id x.2) Ht) as Hx. pose proof (votes_at_ok t (vote_id y.2) Ht) as Hy. unfold elected_before in H.
  rewrite !to_int64_id in H by (unfold in_int64, int64_min; lia). lia.
Qed.

(** The accounts of the elected with their votes. *)
Definition with_votes {V} (account vote_id : V → Z) (t : vote_tally) (l : list (Z * V)) : list (Z * Z) :=
  (λ x, (account x.2, votes_at t (vote_id x.2))) <$> l.
Definition one_each {V} (account : V → Z) (objs : gmap Z V) : Prop :=
  ∀ j k v w, objs !! j = Some v → objs !! k = Some w → account v = account w → j = k.
Lemma with_votes_nodup {V} (account vote_id : V → Z) t objs (l : list (Z * V)) :
  one_each account objs → (∀ k v, (k, v) ∈ l → objs !! k = Some v) → NoDup (fst <$> l) → NoDup (fst <$> with_votes account vote_id t l).
Proof.
  intros Hone Hin Hnd. unfold with_votes. rewrite <-list_fmap_compose. induction l as [|[k v] l IH]; cbn in *; [constructor|].
  apply NoDup_cons in Hnd as [Hn Hnd]. constructor; [|apply IH; [|done]; intros j w Hj; apply Hin; by right].
  intros ([j w] & E & Hj)%list_elem_of_fmap. cbn in E. destruct Hn. apply list_elem_of_fmap. exists (j, w). split; [|done]. cbn.
  apply (Hone k j v w); [apply Hin; by left|apply Hin; by right|done].
Qed.

(** The authority after an election: a majority of those with votes, the old one when nobody has any. *)
Lemma elected_majority {V} (account vote_id : V → Z) d t old objs n l : tally_ok t → HARDFORK_533_TIME ≤ head_block_time d →
  one_each account objs → best_of vote_id t objs n l → n ≤ 65535 →
  let votes := with_votes account vote_id t l in
  elected_authority d old votes = old ∧ Forall (λ x, x.2 = 0) votes ∨
  ∃ m, majority_of (elected_authority d old votes) m votes ∧ Forall (λ x, 0 ≤ x.2 ≤ m) votes.
Proof.
  intros Ht H533 Hone [B1 B2 B3 B4 _] Hn votes. unfold elected_authority. rewrite (proj2 (Z.ltb_ge _ _)) by done.
  assert (NoDup (fst <$> votes)) as Hnd by (by eapply with_votes_nodup).
  destruct l as [|[k v] l]; [left; by split; [|constructor]|].
  assert (Forall (λ x, 0 ≤ x.2 ≤ votes_at t (vote_id v)) (with_votes account vote_id t l)) as Hall.
  { apply StronglySorted_inv in B4 as [_ Hf]. apply Forall_fmap. eapply Forall_impl; [exact Hf|]. intros [j w] Hb.
    apply votes_sorted in Hb; [|done]. cbn in *. pose proof (votes_at_ok t (vote_id w) Ht). lia. }
  pose proof (votes_at_ok t (vote_id v) Ht) as Hv. set (m := votes_at t (vote_id v)) in *.
  change votes with ((account v, m) :: with_votes account vote_id t l) in *.
  destruct (decide (m = 0)) as [E|Hne].
  - left. assert (Forall (λ x, x.2 = 0) ((account v, m) :: with_votes account vote_id t l)) as Hz.
    { constructor; [done|]. eapply Forall_impl; [exact Hall|]. cbn. lia. }
    split; [|exact Hz]. assert (∀ c, foldl vote_counter_add c ((account v, m) :: with_votes account vote_id t l) = c) as ->; [|done].
    clear -Hz. induction Hz as [|[who z] l' Hx _ IH]; intros c; cbn; [done|]. cbn in Hx. rewrite Hx, Z.eqb_refl. apply IH.
  - right. exists m. split; [|constructor; [cbn; lia|exact Hall]]. apply vote_counter_majority; [unfold uint64_mod, int64_max in *; lia|done|done|].
    unfold with_votes. rewrite length_fmap. cbn in B1. lia.
Qed.

Lemma record_votes_table {V} (i : index V) l track f j k v : record_votes i l track f = Ok j → (∀ k v, (k, v) ∈ l → i.(objs) !! k = Some v) →
  NoDup (fst <$> l) → i.(objs) !! k = Some v → track = true ∨ k ∈ fst <$> l → j.(objs) !! k = Some (f v).
Proof.
  unfold record_votes. intros H Hin Hnd Hk Ht. destruct track.
  { apply Ok_inj in H as <-. cbn. by rewrite lookup_fmap, Hk. }
  destruct Ht as [|Ht]; [done|]. revert i H Hin Hk. induction l as [|[k0 v0] l IH]; intros i H Hin Hk; cbn in *; [by apply elem_of_nil in Ht|].
  apply bind_Ok in H as (i1 & H1 & H). apply index_modify_Ok in H1 as (u & u' & Hu & Hf & ->). apply Ok_inj in Hf as <-.
  apply NoDup_cons in Hnd as [Hn Hnd].
  assert (∀ (l : list (Z * V)) (i : index V), foldM (λ i x, index_modify i x.1 (λ o, Ok (f o))) i l = Ok j → k ∉ fst <$> l → j.(objs) !! k = i.(objs) !! k) as Hkeep.
  { clear. induction l as [|[a b] l IH]; intros i H Hk; cbn in *; [by apply Ok_inj in H as <-|]. apply not_elem_of_cons in Hk as [Hne Hk].
    apply bind_Ok in H as (i1 & H1 & H). apply index_modify_Ok in H1 as (u & u' & _ & _ & ->). rewrite (IH _ H Hk). cbn. rewrite lookup_insert_ne; congruence. }
  destruct (decide (k = k0)) as [->|Hne].
  - rewrite (Hkeep _ _ H Hn). cbn. rewrite lookup_insert_eq. congruence.
  - apply elem_of_cons in Ht as [|Ht]; [done|]. apply (IH Hnd Ht _ H); [|cbn; rewrite lookup_insert_ne; congruence].
    intros a b Hab. cbn. rewrite lookup_insert_ne; [apply Hin; by right|]. intros ->. destruct Hn. by apply (list_elem_of_fmap_2 fst) in Hab.
Qed.

(** What the election of witnesses starts from. *)
Record election_ok {V} (account vote_id : V → Z) (d : database) (t : vote_tally) (histogram : list Z) (objs : gmap Z V) : Prop := {
  eo_tally : tally_ok t;
  eo_one : one_each account objs;
  eo_fork : HARDFORK_533_TIME ≤ head_block_time d;
  eo_small : Z.of_nat (length histogram) < 32768 }.

Lemma seats_small t histogram k minimum : median_pairs t.(vt_total) histogram k → Z.of_nat (length histogram) < 32768 → minimum ≤ 65535 →
  Z.max (2 * k + 1) minimum ≤ 65535.
Proof. intros (Hk & _) Hl Hm. destruct histogram; cbn in *; lia. Qed.
Lemma set_active_Ok d x f d' : set_active d x f = Ok d' → ∃ a, d.(d_accounts).(objs) !! x = Some a ∧
  d' = d <| d_accounts := Index (<[x := a <| acc_active := f a.(acc_active) |>]> d.(d_accounts).(objs)) d.(d_accounts).(next_id) |>.
Proof. intros H. apply modify_account_Ok in H as (a & a' & Ha & Hf & ->). apply Ok_inj in Hf as <-. by exists a. Qed.

(** The election of the witnesses: their number is one more than twice the median of
    the opinions of the stake, and at least the minimum; they are the candidates with the
    most votes, the older one among equals; what they sign together for their account
    needs more than half of the weight of those with votes. *)
Theorem update_active_witnesses_elects track d t d'
  (He : election_ok wit_witness_account wit_vote_id d t t.(vt_witness_histogram) d.(d_witnesses).(objs))
  (Hmin : d.(d_chain_properties).(im_min_witness_count) ≤ 65535) (H : update_active_witnesses track d t = Ok d') :
  ∃ k wits a a',
    median_pairs t.(vt_total) t.(vt_witness_histogram) k ∧
    best_of wit_vote_id t d.(d_witnesses).(objs) (Z.max (2 * k + 1) d.(d_chain_properties).(im_min_witness_count)) wits ∧
    d'.(d_gpo).(gpo_active_witnesses) = merge_sort Z.le (fst <$> wits) ∧
    d.(d_accounts).(objs) !! GRAPHENE_WITNESS_ACCOUNT = Some a ∧ d'.(d_accounts).(objs) !! GRAPHENE_WITNESS_ACCOUNT = Some a' ∧
    (a'.(acc_active) = a.(acc_active) ∧ Forall (λ x, x.2 = 0) (with_votes wit_witness_account wit_vote_id t wits) ∨
     ∃ m, majority_of a'.(acc_active) m (with_votes wit_witness_account wit_vote_id t wits) ∧
       Forall (λ x, 0 ≤ x.2 ≤ m) (with_votes wit_witness_account wit_vote_id t wits)) ∧
    ∀ id w, d.(d_witnesses).(objs) !! id = Some w → track = true ∨ id ∈ fst <$> wits →
      d'.(d_witnesses).(objs) !! id = Some (w <| wit_total_votes := votes_at t w.(wit_vote_id) |>).
Proof.
  destruct He as [Ht Hone H533 Hsm]. unfold update_active_witnesses in H. apply bind_Ok in H as (n & Hn & H).
  destruct (to_witnesses _ Ht) as [Hpos Hsum]. apply seats_spec in Hn as (k & -> & Hk); [|exact add_share_exact|apply Ht|done|done].
  set (wits := sort_votable_objects _ _ _ _) in *. pose proof (sort_votable_best wit_vote_id t d.(d_witnesses).(objs) (Z.max (2 * k + 1) d.(d_chain_properties).(im_min_witness_count))) as Hb.
  fold wits in Hb. apply bind_Ok in H as (i & Hi & H). apply bind_Ok in H as (d2 & H2 & H). apply Ok_inj in H as <-.
  apply set_active_Ok in H2 as (a & Ha & ->). eexists k, wits, a, _. split; [exact Hk|]. split; [exact Hb|]. split; [done|].
  split; [exact Ha|]. split; [cbn; by rewrite lookup_insert_eq|]. split.
  - apply (elected_majority wit_witness_account wit_vote_id (d <| d_witnesses := i |>) t a.(acc_active) _ _ _ Ht H533 Hone Hb).
    by apply (seats_small t t.(vt_witness_histogram)).
  - intros id w Hw Hor. cbn. destruct Hb as [_ Hin Hnd _ _]. exact (record_votes_table _ _ _ _ _ _ _ Hi Hin Hnd Hw Hor).
Qed.

(** The election of the committee works the same way, and the account of the relaxed
    committee gets the authority of the committee. *)
Theorem update_active_committee_elects track d t d'
  (He : election_ok cm_committee_member_account cm_vote_id d t t.(vt_committee_histogram) d.(d_committee_members).(objs))
  (Hmin : d.(d_chain_properties).(im_min_committee_member_count) ≤ 65535) (Hsome : d.(d_committee_members).(objs) ≠ ∅)
  (H : update_active_committee_members track d t = Ok d') :
  ∃ k members a a' r',
    median_pairs t.(vt_total) t.(vt_committee_histogram) k ∧
    best_of cm_vote_id t d.(d_committee_members).(objs) (Z.max (2 * k + 1) d.(d_chain_properties).(im_min_committee_member_count)) members ∧
    d'.(d_gpo).(gpo_active_committee_members) = fst <$> members ∧
    d.(d_accounts).(objs) !! GRAPHENE_COMMITTEE_ACCOUNT = Some a ∧ d'.(d_accounts).(objs) !! GRAPHENE_COMMITTEE_ACCOUNT = Some a' ∧
    d'.(d_accounts).(objs) !! GRAPHENE_RELAXED_COMMITTEE_ACCOUNT = Some r' ∧ r'.(acc_active) = a'.(acc_active) ∧
    (a'.(acc_active) = a.(acc_active) ∧ Forall (λ x, x.2 = 0) (with_votes cm_committee_member_account cm_vote_id t members) ∨
     ∃ m, majority_of a'.(acc_active) m (with_votes cm_committee_member_account cm_vote_id t members) ∧
       Forall (λ x, 0 ≤ x.2 ≤ m) (with_votes cm_committee_member_account cm_vote_id t members)).
Proof.
  destruct He as [Ht Hone H533 Hsm]. unfold update_active_committee_members in H. apply bind_Ok in H as (n & Hn & H).
  destruct (to_committee _ Ht) as [Hpos Hsum]. apply seats_spec in Hn as (k & -> & Hk); [|exact add_uint64_exact|apply Ht|done|done].
  set (members := sort_votable_objects _ _ _ _) in *. set (n := Z.max _ _) in *. pose proof (sort_votable_best cm_vote_id t d.(d_committee_members).(objs) n) as Hb.
  fold members in Hb. apply bind_Ok in H as (i & Hi & H). apply bind_Ok in H as (d2 & H2 & H). apply Ok_inj in H as <-.
  assert (members ≠ []) as Hne.
  { intros E. destruct Hb as [B _ _ _ _]. rewrite E in B. cbn in B. assert (size d.(d_committee_members).(objs) ≠ 0%nat) by (by rewrite map_size_non_empty_iff).
    destruct Hk as [Hk _]. unfold n in B. lia. }
  pose proof (elected_majority cm_committee_member_account cm_vote_id (d <| d_committee_members := i |>) t) as Hmaj.
  fold (with_votes cm_committee_member_account cm_vote_id t members) in H2.
  destruct members as [|x members'] eqn:E; [done|]. rewrite <-E in *. clear E.
  apply bind_Ok in H2 as (d3 & H3 & H2). apply set_active_Ok in H3 as (a & Ha & ->). apply bind_Ok in H2 as (c & Hc & H2).
  apply index_get_Ok in Hc. cbn in Hc. rewrite lookup_insert_eq in Hc. injection Hc as <-.
  apply set_active_Ok in H2 as (r & Hr & ->). eexists k, members, a, _, _. split; [exact Hk|]. split; [exact Hb|]. split; [done|]. split; [exact Ha|].
  cbn in *. split; [rewrite lookup_insert_ne by done; by rewrite lookup_insert_eq|]. split; [by rewrite lookup_insert_eq|]. split; [done|].
  apply (Hmaj a.(acc_active) _ _ _ Ht H533 Hone Hb). by apply (seats_small t t.(vt_committee_histogram)).
Qed.

(** ** What the tally counts *)

(** A voter's opinion and stake, if he counts. *)
Definition opinion_and_stake (d : database) (x : account_object * account_statistics_object) : option (account_options * Z) :=
  if (parameters d).(cp_count_non_member_votes) || is_member x.1 (head_block_time d) then
    match opinion_of d x.1, voting_stake d x.1 x.2 with Ok o, Ok s => Some (o.(acc_options), s) | _, _ => None end
  else None.
(** The stake of those with an opinion [p]. *)
Definition stake_for (d : database) (p : account_options → bool) (x : account_object * account_statistics_object) : Z :=
  match opinion_and_stake d x with Some (o, s) => if p o then s else 0 | None => 0 end.
Definition votes_for (j : Z) (o : account_options) : bool := bool_decide (j ∈ (set_map vote_instance o.(opt_votes) : gset Z)).
Definition wants (num : account_options → Z) (maximum len j : Z) (o : account_options) : bool :=
  (num o <=? maximum) && (Z.min (num o `div` 2) (len - 1) =? j).
(** The votes are a set of identifiers that their instances tell apart. *)
Definition votes_wf (o : account_options) : Prop :=
  (∀ id, id ∈ o.(opt_votes) → 0 ≤ id) ∧ ∀ a b, a ∈ o.(opt_votes) → b ∈ o.(opt_votes) → vote_instance a = vote_instance b → a = b.

Definition at_ (j : Z) (l : list Z) : Z := nth (Z.to_nat j) l 0.
Lemma at_alter stake i j l : 0 ≤ i → 0 ≤ j < Z.of_nat (length l) →
  at_ j (alter (add_stake stake) (Z.to_nat i) l) = if i =? j then add_stake stake (at_ j l) else at_ j l.
Proof.
  intros Hi Hj. unfold at_. rewrite !nth_lookup. destruct (lookup_lt_is_Some_2 l (Z.to_nat j)) as [x Hx]; [lia|]. destruct (Z.eqb_spec i j) as [->|Hne].
  - rewrite list_lookup_alter_eq, Hx. done.
  - rewrite list_lookup_alter_ne by lia. by rewrite Hx.
Qed.
Lemma at_bounds n j l : Forall (λ x, 0 ≤ x ≤ n) l → 0 ≤ n → 0 ≤ at_ j l ≤ n.
Proof.
  intros Hall Hn. unfold at_. destruct (nth_in_or_default (Z.to_nat j) l 0) as [H| ->]; [|lia].
  rewrite Forall_forall in Hall. by apply Hall, list_elem_of_In.
Qed.
Lemma at_forall (P : Z → Prop) l : (∀ j, 0 ≤ j < Z.of_nat (length l) → P (at_ j l)) → Forall P l.
Proof.
  intros H. apply Forall_lookup. intros i x Hx. specialize (H (Z.of_nat i)). unfold at_ in H. rewrite Nat2Z.id, nth_lookup, Hx in H.
  apply H. apply lookup_lt_Some in Hx. lia.
Qed.

Lemma length_count_votes votes stake l : length (count_votes votes stake l) = length l.
Proof. unfold count_votes. generalize (elements votes). intros ids. revert l. induction ids as [|id ids IH]; intros l; cbn; [done|]. by rewrite IH, length_alter. Qed.
Lemma at_count_votes o stake j l : votes_wf o → 0 ≤ j < Z.of_nat (length l) →
  at_ j (count_votes o.(opt_votes) stake l) = if votes_for j o then add_stake stake (at_ j l) else at_ j l.
Proof.
  intros [Hpos Hinj] Hj. unfold votes_for, count_votes.
  assert (bool_decide (j ∈ (set_map vote_instance o.(opt_votes) : gset Z)) = bool_decide (j ∈ vote_instance <$> elements o.(opt_votes))) as ->.
  { apply bool_decide_ext. rewrite elem_of_map, list_elem_of_fmap. by setoid_rewrite elem_of_elements. }
  assert (∀ id, id ∈ elements o.(opt_votes) → 0 ≤ vote_instance id) as Hp.
  { intros id Hid%elem_of_elements%Hpos. unfold vote_instance. by apply Z.shiftr_nonneg. }
  assert (∀ a b, a ∈ elements o.(opt_votes) → b ∈ elements o.(opt_votes) → vote_instance a = vote_instance b → a = b) as Hi.
  { intros a b Ha%elem_of_elements Hb%elem_of_elements. by apply Hinj. }
  pose proof (NoDup_elements o.(opt_votes)) as Hnd. generalize dependent (elements o.(opt_votes)). intros ids. revert l Hj.
  induction ids as [|id ids IH]; intros l Hj Hp Hi Hnd; cbn [foldl fmap list_fmap].
  { rewrite bool_decide_eq_false_2 by (apply not_elem_of_nil). done. }
  apply NoDup_cons in Hnd as [Hn Hnd].
  rewrite IH; [|by rewrite length_alter|intros; apply Hp; by right|intros; apply Hi; [by right|by right|done]|done].
  rewrite at_alter; [|apply Hp; by left|done].
  destruct (Z.eqb_spec (vote_instance id) j) as [<-|Hne].
  - rewrite (bool_decide_eq_false_2 (_ ∈ vote_instance <$> ids)); [rewrite bool_decide_eq_true_2 by (by left); done|].
    intros (b & E & Hb)%list_elem_of_fmap. destruct Hn. rewrite (Hi id b); [done|by left|by right|done].
  - assert (bool_decide (j ∈ vote_instance <$> ids) = bool_decide (j ∈ vote_instance id :: (vote_instance <$> ids))) as ->; [|done].
    apply bool_decide_ext. rewrite elem_of_cons. split; [by right|]. intros [->|]; [done|done].
Qed.

(** ** Every stake counts once *)
Definition pairs_for (d : database) (t : vote_tally) (j : Z) : account_options → bool :=
  wants opt_num_witness (parameters d).(cp_maximum_witness_count) (Z.of_nat (length t.(vt_witness_histogram))) j.
Definition committee_pairs_for (d : database) (t : vote_tally) (j : Z) : account_options → bool :=
  wants opt_num_committee (parameters d).(cp_maximum_committee_count) (Z.of_nat (length t.(vt_committee_histogram))) j.

(** [t'] is [t] with the stakes of [l]. *)
Record adds_stakes (d : database) (l : list (account_object * account_statistics_object)) (t t' : vote_tally) : Prop := {
  as_total : t'.(vt_total) = t.(vt_total) + lsum (stake_for d (λ _, true)) l;
  as_lengths : length t'.(vt_votes) = length t.(vt_votes) ∧ length t'.(vt_witness_histogram) = length t.(vt_witness_histogram) ∧
               length t'.(vt_committee_histogram) = length t.(vt_committee_histogram);
  as_votes : ∀ j, 0 ≤ j < Z.of_nat (length t.(vt_votes)) →
    at_ j t'.(vt_votes) = at_ j t.(vt_votes) + lsum (stake_for d (votes_for j)) l;
  as_witnesses : ∀ j, 0 ≤ j < Z.of_nat (length t.(vt_witness_histogram)) →
    at_ j t'.(vt_witness_histogram) = at_ j t.(vt_witness_histogram) + lsum (stake_for d (pairs_for d t j)) l;
  as_committee : ∀ j, 0 ≤ j < Z.of_nat (length t.(vt_committee_histogram)) →
    at_ j t'.(vt_committee_histogram) = at_ j t.(vt_committee_histogram) + lsum (stake_for d (committee_pairs_for d t j)) l }.

Lemma voting_stake_range d a s x : voting_stake d a s = Ok x → 0 ≤ x < uint64_mod.
Proof. unfold voting_stake. intros H. apply bind_Ok in H as (c & _ & H). apply Ok_inj in H as <-. by apply Z.mod_pos_bound. Qed.
Lemma stake_for_bounds d p x : 0 ≤ stake_for d p x ≤ stake_for d (λ _, true) x.
Proof.
  unfold stake_for, opinion_and_stake. destruct (_ || _); [|lia]. destruct (opinion_of d x.1); [|lia].
  destruct (voting_stake d x.1 x.2) as [s|] eqn:E; [|lia]. apply voting_stake_range in E. destruct (p _); lia.
Qed.
Lemma add_stake_exact s x t : 0 ≤ s → 0 ≤ x ≤ t → t + s ≤ int64_max → add_stake s x = x + s.
Proof. intros Hs Hx Ht. unfold add_stake. apply u64_small. unfold uint64_mod, int64_max in *. lia. Qed.

(** An entry of a histogram is one of its stakes. *)
Lemma at_le_sum j l : Forall (λ x, 0 ≤ x) l → 0 ≤ at_ j l ≤ lsum id l.
Proof.
  intros Hall. unfold at_. generalize (Z.to_nat j). clear j. induction Hall as [|x l Hx Hl IH]; intros n.
  { destruct n; cbn; lia. }
  change (lsum id (x :: l)) with (x + lsum id l). pose proof (lsum_id_nonneg _ Hl). destruct n as [|n]; cbn; [lia|]. specialize (IH n). lia.
Qed.
Lemma alter_sum stake i l : 0 ≤ stake → Forall (λ x, 0 ≤ x) l → lsum id l + stake ≤ int64_max →
  Forall (λ x, 0 ≤ x) (alter (add_stake stake) i l) ∧ lsum id l ≤ lsum id (alter (add_stake stake) i l) ≤ lsum id l + stake.
Proof.
  intros Hs Hall. revert i. induction Hall as [|x l Hx Hl IH]; intros i Hm; [destruct i; cbn; split; (apply Forall_nil_2 || lia)|].
  change (lsum id (x :: l)) with (x + lsum id l) in *. pose proof (lsum_id_nonneg _ Hl). destruct i as [|i]; cbn [alter list_alter].
  - rewrite (add_stake_exact stake x x) by lia. change (lsum id (x + stake :: l)) with (x + stake + lsum id l). split; [constructor; [lia|done]|lia].
  - destruct (IH i ltac:(lia)) as [H1 H2]. change (lsum id (x :: ?m)) with (x + lsum id m).
    split; [by constructor|]. change (lsum id (x :: alter (add_stake stake) i l)) with (x + lsum id (alter (add_stake stake) i l)). lia.
Qed.
Lemma count_opinion_ok num maximum stake l : 0 ≤ stake → Forall (λ x, 0 ≤ x) l → lsum id l + stake ≤ int64_max →
  Forall (λ x, 0 ≤ x) (count_opinion num maximum stake l) ∧ lsum id (count_opinion num maximum stake l) ≤ lsum id l + stake.
Proof.
  intros Hs Hall Hm. unfold count_opinion. destruct (num <=? maximum); [|split; [done|lia]].
  destruct (alter_sum stake (Z.to_nat (Z.min (num `div` 2) (Z.of_nat (length l) - 1))) l Hs Hall Hm). split; [done|lia].
Qed.
Lemma length_count_opinion num maximum stake l : length (count_opinion num maximum stake l) = length l.
Proof. unfold count_opinion. destruct (num <=? maximum); [by rewrite length_alter|done]. Qed.
Lemma at_count_opinion (num : account_options → Z) maximum stake o j l : 0 ≤ num o → 0 ≤ stake → Forall (λ x, 0 ≤ x) l → lsum id l + stake ≤ int64_max →
  0 ≤ j < Z.of_nat (length l) →
  at_ j (count_opinion (num o) maximum stake l) = at_ j l + (if wants num maximum (Z.of_nat (length l)) j o then stake else 0).
Proof.
  intros Hn Hs Hall Hm Hj. unfold count_opinion, wants. destruct (num o <=? maximum); cbn [andb]; [|lia].
  assert (0 ≤ num o `div` 2) by (apply Z.div_pos; lia). rewrite at_alter by lia. pose proof (at_le_sum j l Hall).
  destruct (_ =? j); [|lia]. rewrite (add_stake_exact stake _ (lsum id l)) by lia. lia.
Qed.

(** One voter. *)
Record opinion_ok (o : account_options) : Prop := {
  oo_votes : votes_wf o;
  oo_numbers : 0 ≤ o.(opt_num_witness) ∧ 0 ≤ o.(opt_num_committee) }.
Definition opinions_ok (d : database) : Prop := map_Forall (λ _ a, opinion_ok a.(acc_options)) d.(d_accounts).(objs).

Lemma tally_one d t x t' : tally_ok t → opinions_ok d → opinion_ok x.1.(acc_options) → t.(vt_total) + stake_for d (λ _, true) x ≤ int64_max →
  tally d t x.1 x.2 = Ok t' → tally_ok t' ∧ adds_stakes d [x] t t'.
Proof.
  intros [T1 [T2 T2'] [T3 T3'] T4] Hall Hx Hm H. unfold tally in H.
  destruct (_ || _) eqn:Ec.
  2: { apply Ok_inj in H as <-. assert (∀ p, lsum (stake_for d p) [x] = 0) as E1 by (intros p; cbn; unfold stake_for, opinion_and_stake; by rewrite Ec).
       split; [done|]. split; [rewrite E1; lia|done|intros; rewrite E1; lia..]. }
  apply bind_Ok in H as (o & Ho & H). apply bind_Ok in H as (s & Hs & H). apply Ok_inj in H as <-.
  assert (∀ p, stake_for d p x = if p o.(acc_options) then s else 0) as E0 by (intros p; unfold stake_for, opinion_and_stake; by rewrite Ec, Ho, Hs).
  rewrite E0 in Hm. assert (∀ p, lsum (stake_for d p) [x] = if p o.(acc_options) then s else 0) as E1 by (intros p; cbn; rewrite E0; lia).
  assert (opinion_ok o.(acc_options)) as [Hwf [Hn1 Hn2]].
  { unfold opinion_of in Ho. destruct (_ =? _); [by apply Ok_inj in Ho as <-|]. apply index_get_Ok in Ho. by apply (Hall _ _ Ho). }
  apply voting_stake_range in Hs as [Hs _]. pose proof (add_stake_exact s t.(vt_total) t.(vt_total) Hs ltac:(lia) Hm) as Et.
  destruct (count_opinion_ok o.(acc_options).(opt_num_witness) (parameters d).(cp_maximum_witness_count) s _ Hs T2 ltac:(lia)) as [W1 W2].
  destruct (count_opinion_ok o.(acc_options).(opt_num_committee) (parameters d).(cp_maximum_committee_count) s _ Hs T3 ltac:(lia)) as [C1 C2].
  assert (∀ j, 0 ≤ j < Z.of_nat (length t.(vt_votes)) → at_ j (count_votes o.(acc_options).(opt_votes) s t.(vt_votes)) =
    at_ j t.(vt_votes) + (if votes_for j o.(acc_options) then s else 0)) as Hv.
  { intros j Hj. rewrite at_count_votes by done. pose proof (at_bounds _ j _ T1 ltac:(lia)). destruct (votes_for _ _); [|lia].
    rewrite (add_stake_exact s _ t.(vt_total)) by lia. lia. }
  split.
  - split; cbn; rewrite Et; [|split; [done|lia]..|lia]. apply at_forall. intros j Hj. rewrite length_count_votes in Hj. rewrite Hv by done.
    pose proof (at_bounds _ j _ T1 ltac:(lia)). destruct (votes_for _ _); lia.
  - split; cbn [vt_total vt_votes vt_witness_histogram vt_committee_histogram]; [rewrite E1; exact Et|by rewrite length_count_votes, !length_count_opinion|..]; intros j Hj; rewrite E1.
    + by apply Hv.
    + by apply at_count_opinion; [| | |lia|].
    + by apply at_count_opinion; [| | |lia|].
Qed.

(** The tally counts every stake once: a vote identifier has the stakes of those whose
    opinion, or whose proxy's, names it, the total all stakes that count, and the
    histograms the stakes by the number of pairs they want. *)
Theorem tally_counts d l t t' (Ht : tally_ok t) (Hall : opinions_ok d) (Hl : Forall (λ x, opinion_ok x.1.(acc_options)) l)
  (Hm : t.(vt_total) + lsum (stake_for d (λ _, true)) l ≤ int64_max)
  (H : foldM (λ t x, tally d t x.1 x.2) t l = Ok t') : tally_ok t' ∧ adds_stakes d l t t'.
Proof.
  revert t Ht Hm H. induction Hl as [|x l Hx _ IH]; intros t Ht Hm H; cbn [foldM] in H.
  { apply Ok_inj in H as <-. split; [done|]. split; cbn; [lia|done|intros; lia..]. }
  apply bind_Ok in H as (t1 & H1 & H). cbn [lsum] in Hm.
  assert (0 ≤ lsum (stake_for d (λ _, true)) l) as H0.
  { clear. induction l as [|y l IH]; cbn; [lia|]. pose proof (stake_for_bounds d (λ _, true) y). lia. }
  apply tally_one in H1 as (Ht1 & A1); [|done|done|done|lia]. destruct A1 as [A1 (L1 & L2 & L3) A2 A3 A4]. cbn in A1.
  apply IH in H as (Ht' & [B1 (M1 & M2 & M3) B2 B3 B4]); [|done|lia]. split; [done|].
  unfold pairs_for, committee_pairs_for in *. rewrite L1 in *. rewrite L2 in *. rewrite L3 in *.
  split; cbn; [lia|split; [congruence|split; congruence]|intros j Hj..].
  - rewrite B2, A2 by done. cbn. lia.
  - unfold pairs_for. rewrite B3, A3 by done. cbn. lia.
  - unfold committee_pairs_for. rewrite B4, A4 by done. cbn. lia.
Qed.

(** ** The creation of candidates

    Nothing of value moves, and a vote identifier stays the name of one object. *)
Lemma flow_next_vote_id d type : flow d (get_next_vote_id d type).1 (λ _, 0).
Proof. unfold get_next_vote_id. cbn. apply flow_gpo. Qed.
Lemma flow_init_worker d op d' w : init_worker d op = Ok (d', w) → flow d d' (λ _, 0).
Proof.
  unfold init_worker. intros H. destruct op.(wkc_initializer); inv_ok; try solve_flow.
  match goal with H : index_create _ _ = Ok _ |- _ => apply flow_create_vesting in H; eapply flow_ext; [exact H|] end.
  flow_arith.
Qed.
#[export] Instance witness_create_conserving : Conserving witness_create_operation.
Proof.
  intros d d1 op d' _ _ _ _ H. change (witness_create_do_apply d1 op = Ok d') in H. unfold conserves. unfold witness_create_do_apply in H. pose proof (flow_next_vote_id d1 vote_witness) as F0.
  destruct (get_next_vote_id d1 vote_witness) as [d2 id]. cbn in F0. inv_ok. solve_flow.
Qed.
#[export] Instance committee_member_create_conserving : Conserving committee_member_create_operation.
Proof.
  intros d d1 op d' _ _ _ _ H. change (committee_member_create_do_apply d1 op = Ok d') in H. unfold conserves. unfold committee_member_create_do_apply in H. pose proof (flow_next_vote_id d1 vote_committee) as F0.
  destruct (get_next_vote_id d1 vote_committee) as [d2 id]. cbn in F0. inv_ok. solve_flow.
Qed.
#[export] Instance worker_create_conserving : Conserving worker_create_operation.
Proof.
  intros d d1 op d' _ _ _ _ H. change (worker_create_do_apply d1 op = Ok d') in H. unfold conserves. unfold worker_create_do_apply in H. pose proof (flow_next_vote_id d1 vote_worker) as F0.
  destruct (get_next_vote_id d1 vote_worker) as [d2 for_id]. pose proof (flow_next_vote_id d2 vote_worker) as F1.
  destruct (get_next_vote_id d2 vote_worker) as [d3 against_id]. cbn in F0, F1. inv_ok.
  match goal with H : init_worker _ _ = Ok _ |- _ => apply flow_init_worker in H end. solve_flow.
Qed.

Lemma one_each_insert {V} (key : V → Z) (i : index V) v k j : one_each key i.(objs) → no_other key i (key v) = true →
  index_create i v = Ok (k, j) → one_each key j.(objs).
Proof.
  unfold no_other. intros Hone Hno%bool_decide_eq_true H a b x y. apply index_create_Ok in H as (-> & _ & ->). cbn.
  rewrite !lookup_insert_Some. intros [[<- <-]|[Ha Hx]] [[<- <-]|[Hb Hy]] E; [done| | |by apply (Hone _ _ x y)].
  - symmetry in E. by destruct (Hno _ _ Hy).
  - by destruct (Hno _ _ Hx).
Qed.

(** The vote identifiers in use, and that they are different and below the next. *)
Definition vote_names (d : database) : list Z :=
  ((λ x, vote_instance x.2.(wit_vote_id)) <$> map_to_list d.(d_witnesses).(objs)) ++
  ((λ x, vote_instance x.2.(cm_vote_id)) <$> map_to_list d.(d_committee_members).(objs)) ++
  ((λ x, vote_instance x.2.(wk_vote_for)) <$> map_to_list d.(d_workers).(objs)) ++
  ((λ x, vote_instance x.2.(wk_vote_against)) <$> map_to_list d.(d_workers).(objs)).
Record candidates_ok (d : database) : Prop := {
  cn_witnesses : one_each wit_witness_account d.(d_witnesses).(objs);
  cn_committee : one_each cm_committee_member_account d.(d_committee_members).(objs);
  cn_names : NoDup (vote_names d) ∧ Forall (λ n, 0 ≤ n < d.(d_gpo).(gpo_next_available_vote_id)) (vote_names d) }.

Lemma vote_instance_of type n : 0 ≤ type < 256 → 0 ≤ n < 16777216 → vote_instance (vote_id_of type n) = n.
Proof.
  intros Ht Hn. unfold vote_instance, vote_id_of, u32.
  assert (Z.shiftl n 8 = n * 256) as E by (rewrite Z.shiftl_mul_pow2; lia). rewrite E, (Z.mod_small (n * 256)), <-E, Z.lor_comm by lia.
  rewrite lor_shiftl_add by (change (2 ^ 8) with 256; lia). change (2 ^ 8) with 256. rewrite Z.mod_small by lia.
  rewrite Z.shiftr_div_pow2 by lia. change (2 ^ 8) with 256. rewrite Z.div_add by lia. rewrite Z.div_small by lia. lia.
Qed.
Lemma fmap_inserted {V} (f : Z * V → Z) (i : index V) v k j : index_create i v = Ok (k, j) →
  f <$> map_to_list j.(objs) ≡ₚ f (k, v) :: (f <$> map_to_list i.(objs)).
Proof. intros H. apply index_create_Ok in H as (-> & Hn & ->). cbn. by rewrite map_to_list_insert. Qed.

(** A new name at the end of the names in use. *)
Lemma fresh_name n l l' : NoDup l ∧ Forall (λ x, 0 ≤ x < n) l → 0 ≤ n → l' ≡ₚ n :: l → NoDup l' ∧ Forall (λ x, 0 ≤ x < n + 1) l'.
Proof.
  intros [Hnd Hall] Hn ->. split.
  - constructor; [|done]. intros Hin. rewrite Forall_forall in Hall. specialize (Hall _ Hin). lia.
  - constructor; [lia|]. eapply Forall_impl; [exact Hall|]. cbn. lia.
Qed.

Lemma two_names (a b : Z) w c f g : w ++ c ++ (a :: f) ++ b :: g ≡ₚ b :: a :: w ++ c ++ f ++ g.
Proof.
  rewrite !app_assoc, <-(Permutation_middle _ _ b). apply perm_skip. change (a :: ((w ++ c) ++ f) ++ g) with ((a :: (w ++ c) ++ f) ++ g).
  apply Permutation_app_tail. symmetry. apply Permutation_middle.
Qed.

Lemma init_worker_frame d op d' w : init_worker d op = Ok (d', w) →
  d'.(d_workers) = d.(d_workers) ∧ d'.(d_witnesses) = d.(d_witnesses) ∧ d'.(d_committee_members) = d.(d_committee_members) ∧ d'.(d_gpo) = d.(d_gpo).
Proof. unfold init_worker. intros H. destruct op.(wkc_initializer); inv_ok; done. Qed.

Definition room_for_names (d : database) : Prop := 0 ≤ d.(d_gpo).(gpo_next_available_vote_id) < 16777214.
Lemma witness_create_candidates d op d' : candidates_ok d → room_for_names d → witness_create_do_apply d op = Ok d' → candidates_ok d'.
Proof.
  unfold room_for_names. intros [C1 C2 C3] Hr H. unfold witness_create_do_apply, get_next_vote_id in H. cbn [d_witnesses] in H.
  apply bind_Ok in H as (? & Hno & H). apply FC_ASSERT_Ok, andb_true_iff in Hno as [Hno _]. apply bind_Ok in H as ([k i] & Hi & H). apply Ok_inj in H as <-.
  split; [eapply one_each_insert; [exact C1| |exact Hi]; exact Hno|done|]. cbn. unfold u32. rewrite Z.mod_small by lia.
  apply (fresh_name _ _ _ C3); [lia|]. unfold vote_names. cbn. rewrite (fmap_inserted _ _ _ _ _ Hi). cbn. by rewrite vote_instance_of by (unfold vote_witness; lia).
Qed.
Lemma committee_create_candidates d op d' : candidates_ok d → room_for_names d → committee_member_create_do_apply d op = Ok d' → candidates_ok d'.
Proof.
  unfold room_for_names. intros [C1 C2 C3] Hr H. unfold committee_member_create_do_apply, get_next_vote_id in H. cbn [d_committee_members] in H.
  apply bind_Ok in H as (? & Hno & H). apply FC_ASSERT_Ok, andb_true_iff in Hno as [Hno _]. apply bind_Ok in H as ([k i] & Hi & H). apply Ok_inj in H as <-.
  split; [done|eapply one_each_insert; [exact C2| |exact Hi]; exact Hno|]. cbn. unfold u32. rewrite Z.mod_small by lia.
  apply (fresh_name _ _ _ C3); [lia|]. unfold vote_names. cbn. rewrite (fmap_inserted _ _ _ _ _ Hi). cbn. rewrite vote_instance_of by (unfold vote_committee; lia).
  symmetry. apply Permutation_middle.
Qed.
Lemma worker_create_candidates d op d' : candidates_ok d → room_for_names d → worker_create_do_apply d op = Ok d' → candidates_ok d'.
Proof.
  unfold room_for_names. intros [C1 C2 C3] Hr H. unfold worker_create_do_apply, get_next_vote_id in H. cbn [d_gpo gpo_next_available_vote_id] in H.
  apply bind_Ok in H as ([d3 w] & Hw & H). apply init_worker_frame in Hw as (W1 & W2 & W3 & W4). cbn in W1, W2, W3, W4.
  apply bind_Ok in H as (? & _ & H). apply bind_Ok in H as ([k i] & Hi & H). apply Ok_inj in H as <-. rewrite W1 in Hi.
  split; [by cbn; rewrite W2|by cbn; rewrite W3|]. cbn. rewrite W4. cbn. unfold u32 in *. cbn in Hi.
  set (n := d.(d_gpo).(gpo_next_available_vote_id)) in *. rewrite (Z.mod_small (n + 1)) in Hi by lia.
  rewrite (Z.mod_small (n + 1)) by lia. rewrite (Z.mod_small (n + 1 + 1)) by lia.
  eapply fresh_name; [eapply (fresh_name _ _ _ C3); [lia|reflexivity]|lia|].
  unfold vote_names. cbn. rewrite W2, W3, !(fmap_inserted _ _ _ _ _ Hi). cbn. rewrite !vote_instance_of by (unfold vote_worker; lia).
  apply (two_names n (n + 1)).
Qed.

(** ** An election

    Account 6 votes for two witnesses and a committee member, account 7 through it,
    account 8 for one witness. *)
Definition sample_candidate (account n : Z) : witness_object := Witness account 0 None 0 0 (vote_id_of vote_witness n) 0.
Definition sample_member (account n : Z) : committee_member_object := CommitteeMember account (vote_id_of vote_committee n) 0.
Definition voter (proxy witnesses : Z) (votes : gset Z) : account_object :=
  (sample_account 5) <| acc_options := AccountOptions proxy witnesses 1 votes |>.
Definition votes_db : database :=
  sample_db
    <| d_witnesses := Index {[0 := sample_candidate 3 0; 1 := sample_candidate 6 1; 2 := sample_candidate 7 2; 3 := sample_candidate 8 3]} 4 |>
    <| d_committee_members := Index {[0 := sample_member 6 4; 1 := sample_member 7 5]} 2 |>
    <| d_accounts ::= λ i, Index (<[6 := voter 5 3 {[257; 513; 1024]}]> (<[7 := voter 6 0 ∅]> (<[8 := voter 5 1 {[257]}]> i.(objs)))) i.(next_id) |>
    <| d_gpo ::= λ g, g <| gpo_next_available_vote_id := 6 |> |> <| d_chain_properties := ChainProperties 1 1 |>.
Definition votes_voters : list (account_object * account_statistics_object) :=
  (λ x, (default (sample_account 5) (votes_db.(d_accounts).(objs) !! x.1), new_statistics <| st_core_in_balance := x.2 |>)) <$>
    [(6, 1000000); (7, 500000); (8, 300000)].
Definition votes_tally : vote_tally := VoteTally [0; 1800000; 1500000; 0; 1500000; 0] [300000; 1500000; 0; 0; 0; 0] [1800000; 0; 0; 0; 0; 0] 1800000.

#[export] Instance votes_wf_dec o : Decision (votes_wf o).
Proof.
  refine (cast_if (decide (set_Forall (λ id, 0 ≤ id) o.(opt_votes) ∧
    set_Forall (λ a, set_Forall (λ b, vote_instance a = vote_instance b → a = b) o.(opt_votes)) o.(opt_votes))));
    unfold votes_wf, set_Forall in *; naive_solver.
Defined.
#[export] Instance opinion_ok_dec o : Decision (opinion_ok o).
Proof.
  refine (cast_if (decide (votes_wf o ∧ (0 ≤ o.(opt_num_witness) ∧ 0 ≤ o.(opt_num_committee)))));
    first [by split; tauto|by intros []; tauto].
Defined.
#[export] Instance opinions_ok_dec d : Decision (opinions_ok d).
Proof. unfold opinions_ok. apply _. Defined.
#[export] Instance tally_ok_dec t : Decision (tally_ok t).
Proof.
  refine (cast_if (decide (Forall (λ x, 0 ≤ x ≤ t.(vt_total)) t.(vt_votes) ∧
    (Forall (λ x, 0 ≤ x) t.(vt_witness_histogram) ∧ lsum id t.(vt_witness_histogram) ≤ t.(vt_total)) ∧
    (Forall (λ x, 0 ≤ x) t.(vt_committee_histogram) ∧ lsum id t.(vt_committee_histogram) ≤ t.(vt_total)) ∧ 0 ≤ t.(vt_total) ≤ int64_max)));
    first [by split; tauto|by intros []; tauto].
Defined.

Lemma votes_run : foldM (λ t x, tally votes_db t x.1 x.2) (new_tally votes_db) votes_voters = Ok votes_tally.
Proof. vm_compute. reflexivity. Qed.
Lemma tally_counts_witness : tally_ok votes_tally ∧ adds_stakes votes_db votes_voters (new_tally votes_db) votes_tally.
Proof.
  apply (tally_counts votes_db votes_voters); [apply (bool_decide_unpack _); vm_compute; exact I..|vm_compute; discriminate|exact votes_run].
Defined.

Lemma votes_distinct {V} (key : V → Z) (m : gmap Z V) : NoDup (key <$> (snd <$> map_to_list m)) → one_each key m.
Proof.
  intros Hnd j k v w Hv Hw E. rewrite <-list_fmap_compose in Hnd.
  apply elem_of_map_to_list in Hv, Hw. apply list_elem_of_lookup in Hv as [a Ha], Hw as [b Hb].
  assert (a = b) as ->; [|congruence].
  apply (proj1 (NoDup_alt _) Hnd a b (key v)); rewrite list_lookup_fmap; [by rewrite Ha|rewrite Hb; cbn; by rewrite E].
Qed.
Lemma votes_election : election_ok wit_witness_account wit_vote_id votes_db votes_tally votes_tally.(vt_witness_histogram) votes_db.(d_witnesses).(objs) ∧
  election_ok cm_committee_member_account cm_vote_id votes_db votes_tally votes_tally.(vt_committee_histogram) votes_db.(d_committee_members).(objs).
Proof.
  split; (split; [apply (bool_decide_unpack _); vm_compute; exact I|apply votes_distinct; apply (bool_decide_unpack _); vm_compute; exact I|vm_compute; discriminate|vm_compute; reflexivity]).
Qed.

(** Three witnesses: the two with votes, and the older one of the others. *)
Lemma update_active_witnesses_elects_witness : ∃ d', update_active_witnesses true votes_db votes_tally = Ok d' ∧
  d'.(d_gpo).(gpo_active_witnesses) = [0; 1; 2] ∧ ∃ k, median_pairs 1800000 votes_tally.(vt_witness_histogram) k.
Proof.
  destruct (update_active_witnesses true votes_db votes_tally) as [d'|e] eqn:E; [|by vm_compute in E].
  exists d'. split; [done|]. split; [vm_compute in E; injection E as <-; vm_compute; reflexivity|].
  destruct (update_active_witnesses_elects true votes_db votes_tally d' (proj1 votes_election) ltac:(vm_compute; discriminate) E) as (k & ? & ? & ? & Hk & _).
  exists k. exact Hk.
Defined.
Lemma update_active_committee_elects_witness : ∃ d', update_active_committee_members true votes_db votes_tally = Ok d' ∧
  d'.(d_gpo).(gpo_active_committee_members) = [0] ∧ ∃ k, median_pairs 1800000 votes_tally.(vt_committee_histogram) k.
Proof.
  destruct (update_active_committee_members true votes_db votes_tally) as [d'|e] eqn:E; [|by vm_compute in E].
  exists d'. split; [done|]. split; [vm_compute in E; injection E as <-; vm_compute; reflexivity|].
  destruct (update_active_committee_elects true votes_db votes_tally d' (proj2 votes_election) ltac:(vm_compute; discriminate)) as (k & ? & ? & ? & ? & Hk & _);
    [intros F; by vm_compute in F|exact E|exists k; exact Hk].
Defined.
