(* ===== verification/Maintenance.v ===== *)
(** * The maintenance of the accounts

    [db_maint.cpp]: the walk over the accounts that vote or have pending fees
    ([perform_account_maintenance]), the ratings and incomes of a month, the votes on the
    interest of stakes ([count_poc_votes]) and the clocks of [perform_chain_maintenance].
    The names of the accounts, which order the walk, are an argument: they are given when
    an account is created and never change. *)
From stdpp Require Import sorting pretty.
From Stdlib Require Import OrderedTypeEx.
From S2P Require Import Prelude Safe Asset Objects Database Ledger Vesting Balance Evaluator Sample Referral Poc GreatRace Race Budget Votes.

(** ** Who needs maintenance *)
Definition has_some_core_voting (s : account_statistics_object) : bool :=
  s.(st_is_voting) && ((0 <? s.(st_total_core_in_orders)) || (0 <? s.(st_core_in_balance)) || s.(st_has_cashback_vb)).
Definition has_pending_fees (s : account_statistics_object) : bool := (0 <? s.(st_pending_fees)) || (0 <? s.(st_pending_vested_fees)).
Definition need_maintenance (s : account_statistics_object) : bool := has_some_core_voting s || has_pending_fees s.

(** Balances that have changed are at the end of their index, and leave it one by one. *)
Definition flagged_balances (d : database) : list (Z * Z) := fst <$> filter (λ x, x.2.(abo_maintenance_flag) = true) (map_to_list d.(d_balances)).
Definition refresh_balance (d : database) (key : Z * Z) : result database :=
  b ← from_option_exn assert_exception (d.(d_balances) !! key);
  d' ← modify_statistics d key.1 (λ s, Ok (s <| st_core_in_balance := b.(abo_balance) |>));
  Ok (d' <| d_balances ::= <[key := b <| abo_maintenance_flag := false |>]> |>).
Definition refresh_balances (d : database) : result database := foldM refresh_balance d (flagged_balances d).

(** ** The walk *)
Section walk.
Context (name : Z → string).

(** The index [by_maintenance_seq]: first those that need no maintenance, then the others, each by name. *)
Definition seq_ltb (x y : bool * string) : bool := (negb x.1 && y.1) || (Bool.eqb x.1 y.1 && String.ltb x.2 y.2).
Definition seq_key (d : database) (owner : Z) : bool * string :=
  (match d.(d_statistics) !! owner with Some s => need_maintenance s | None => false end, name owner).
Definition seq_le (d : database) (x y : Z) : Prop := seq_ltb (seq_key d y) (seq_key d x) = false.
#[export] Instance seq_le_dec d : RelDecision (seq_le d).
Proof using Type. intros x y. unfold seq_le. apply _. Defined.
Definition by_maintenance_seq (d : database) : list Z := merge_sort (seq_le d) (fst <$> map_to_list d.(d_statistics)).
Definition first_from (d : database) (p : bool * string → bool) : option Z :=
  head (filter (λ o, p (seq_key d o) = true) (by_maintenance_seq d)).

(** The iterator has moved on before the account is processed. *)
Fixpoint walk (fuel : nat) (d : database) (t : vote_tally) (itr : option Z) : result (database * vote_tally) :=
  match itr with
  | None => Ok (d, t)
  | Some o =>
      match fuel with
      | O => Err out_of_fuel
      | S fuel =>
          acc_stat ← get_statistics d o;
          acc_obj ← get_account d o;
          let next := first_from d (λ k, seq_ltb (seq_key d o) k) in
          t' ← (if has_some_core_voting acc_stat then tally d t acc_obj acc_stat else Ok t);
          d' ← (if has_pending_fees acc_stat then process_fees d o else Ok d);
          walk fuel d' t' next
      end
  end.
Definition perform_account_maintenance (d : database) (t : vote_tally) : result (database * vote_tally) :=
  d1 ← refresh_balances d;
  walk (size d1.(d_statistics)) d1 t (first_from d1 (λ k, k.1)).
End walk.

(** ** The month *)
Definition has_network_income (s : account_statistics_object) : bool :=
  (0 <? s.(st_first_month_income)) || (0 <? s.(st_second_month_income)) || (0 <? s.(st_third_month_income)) || (0 <? s.(st_current_month_income)).
Definition perform_credit_maintenance (d : database) : database :=
  d <| d_statistics ::= fmap (λ s, if has_network_income s
         then s <| st_first_month_income := s.(st_second_month_income) |> <| st_second_month_income := s.(st_third_month_income) |>
                <| st_third_month_income := s.(st_current_month_income) |> <| st_current_month_income := 0 |> else s) |>.
Definition has_p2p_rating (s : account_statistics_object) : bool :=
  (0 <? s.(st_p2p_first_month_rating)) || (0 <? s.(st_p2p_current_month_rating)).
Definition perform_p2p_maintenance (d : database) : database :=
  d <| d_statistics ::= fmap (λ s, if has_p2p_rating s
         then s <| st_p2p_first_month_rating := s.(st_p2p_current_month_rating) |> <| st_p2p_current_month_rating := 0 |> else s) |>.

(** ** The votes on the interest of stakes *)
Definition has_poc_vote (s : account_statistics_object) : bool :=
  (0 <? s.(st_poc3_vote)) || (0 <? s.(st_poc6_vote)) || (0 <? s.(st_poc12_vote)).
Definition poc_votes (f : account_statistics_object → Z) (d : database) : list Z :=
  filter (λ v, 0 < v) (f <$> filter (λ s, has_poc_vote s = true) (snd <$> map_to_list d.(d_statistics))).
Definition clear_poc_votes (d : database) : database :=
  d <| d_statistics ::= fmap (λ s, if has_poc_vote s
         then s <| st_poc3_vote := 0 |> <| st_poc6_vote := 0 |> <| st_poc12_vote := 0 |> else s) |>.

(** The mean of what is left without the extremes, in whole coins, in percent. *)
Definition poc_filter (sp : staking_parameters) (n : Z) : Z := (n * sp.(sp_poc_filter_percent)) `div` GRAPHENE_100_PERCENT.
Definition poc_filtered (sp : staking_parameters) (votes : list Z) : list Z :=
  let n := length votes in
  let k := Z.to_nat (poc_filter sp (Z.of_nat n)) in
  drop k (take (n - k) (merge_sort Z.le votes)).
Definition poc_mean (sp : staking_parameters) (votes : list Z) : result Z :=
  let filtered := poc_filtered sp votes in
  sum ← foldM safe_add 0 filtered;
  let n := Z.of_nat (length filtered) in
  if n =? 0 then Err divide_by_zero_exception
  else to_uint64 (uint128_mul ((uint128_of_int64 sum `div` n) `div` 100000) 100).
Definition poc_result (sp : staking_parameters) (votes : list Z) (old : Z) : result Z :=
  if sp.(sp_poc_min_votes) <=? Z.of_nat (length votes) then poc_mean sp votes else Ok old.
Definition count_poc_votes (d : database) : result database :=
  let sp := d.(d_gpo).(gpo_staking_parameters) in
  let g := d.(d_dgpo) in
  p3 ← poc_result sp (poc_votes st_poc3_vote d) g.(dgp_poc3_percent);
  p6 ← poc_result sp (poc_votes st_poc6_vote d) g.(dgp_poc6_percent);
  p12 ← poc_result sp (poc_votes st_poc12_vote d) g.(dgp_poc12_percent);
  Ok ((clear_poc_votes d) <| d_dgpo ::= λ g, g <| dgp_poc3_percent := p3 |> <| dgp_poc6_percent := p6 |> <| dgp_poc12_percent := p12 |> |>).

(** ** The clocks of the maintenance

    The first block rounds up to the interval; later the smallest number of intervals
    that leads past the head is added. *)
Definition next_time (num timestamp now t interval : Z) : Z :=
  if t <=? timestamp then
    if num =? 1 then u32 ((timestamp `div` interval + 1) * interval)
    else time_add t ((Z.quot (now - t) interval + 1) * interval)
  else t.

(** [num] and [timestamp] are those of the new block. *)
Definition monthly_maintenance (num timestamp : Z) (d : database) : database * Z :=
  let t := d.(d_dgpo).(dgp_next_monthly_maintenance_time) in
  let t' := next_time num timestamp (head_block_time d) t 2592000 in
  (if t <=? timestamp then perform_p2p_maintenance (perform_credit_maintenance d) else d, t').

(** The clock of the votes: next vote, end of the vote, a vote is open. *)
Definition poc_clock (timestamp : Z) (d : database) : result (database * (Z * Z * bool)) :=
  let g := d.(d_dgpo) in
  let sp := d.(d_gpo).(gpo_staking_parameters) in
  let '(next_vote, end_vote, active) :=
    (if g.(dgp_next_poc_vote_time) <=? timestamp
     then (time_add g.(dgp_next_poc_vote_time) (days sp.(sp_poc_vote_interval_days)), time_add timestamp sp.(sp_poc_vote_duration), true)
     else (g.(dgp_next_poc_vote_time), g.(dgp_end_poc_vote_time), g.(dgp_poc_vote_is_active))) in
  if (end_vote <=? timestamp) && active then
    d' ← count_poc_votes d; Ok (d', (next_vote, end_vote, false))
  else Ok (d, (next_vote, end_vote, active)).

(** ** The order of the walk *)
Lemma ltb_lt x y : String.ltb x y = true ↔ String_as_OT.lt x y.
Proof. rewrite <-String_as_OT.cmp_lt. unfold String_as_OT.cmp, String.ltb. destruct (String.compare x y); split; congruence. Qed.
Lemma ltb_irrefl x : String.ltb x x = false.
Proof. apply not_true_is_false. intros H%ltb_lt. by apply String_as_OT.lt_not_eq in H. Qed.
Lemma ltb_trans x y z : String.ltb x y = true → String.ltb y z = true → String.ltb x z = true.
Proof. rewrite !ltb_lt. apply String_as_OT.lt_trans. Qed.
Lemma ltb_total x y : String.ltb x y = true ∨ x = y ∨ String.ltb y x = true.
Proof.
  unfold String.ltb. rewrite (String.compare_antisym y x). destruct (String.compare x y) eqn:E; cbn; [|by left|by right; right].
  right; left. by apply String.compare_eq_iff.
Qed.

Lemma seq_irrefl x : seq_ltb x x = false.
Proof. destruct x as [[] s]; unfold seq_ltb; cbn; apply ltb_irrefl. Qed.
Lemma seq_trans x y z : seq_ltb x y = true → seq_ltb y z = true → seq_ltb x z = true.
Proof. destruct x as [[] s], y as [[] s'], z as [[] s'']; unfold seq_ltb; cbn; try done; apply ltb_trans. Qed.
Lemma seq_total x y : seq_ltb x y = true ∨ x = y ∨ seq_ltb y x = true.
Proof.
  destruct x as [[] s], y as [[] s']; unfold seq_ltb; cbn; [|by right; right|by left|];
    (destruct (ltb_total s s') as [?|[->|?]]; [by left|by right; left|by right; right]).
Qed.
Lemma seq_not_lt x y z : seq_ltb y x = false → seq_ltb z y = false → seq_ltb z x = false.
Proof.
  intros H1 H2. apply not_true_is_false. intros H. destruct (seq_total x y) as [E|[->|E]]; [|congruence|congruence].
  rewrite (seq_trans _ _ _ H E) in H2. done.
Qed.
Lemma due_ltb s y : seq_ltb (true, s) y = true ↔ y.1 = true ∧ String.ltb s y.2 = true.
Proof. destruct y as [[] s']; unfold seq_ltb; cbn; split; [auto|by intros []|done|by intros []]. Qed.

Section order.
Context (name : Z → string).
#[local] Instance seq_le_total d : Total (seq_le name d).
Proof using Type. intros x y. unfold seq_le. destruct (seq_ltb (seq_key name d y) (seq_key name d x)) eqn:E; [right|by left].
  apply not_true_is_false. intros H. pose proof (seq_trans _ _ _ E H) as F. by rewrite seq_irrefl in F. Qed.
#[local] Instance seq_le_trans d : Transitive (seq_le name d).
Proof using Type. intros x y z. unfold seq_le. intros H1 H2. by eapply seq_not_lt. Qed.

(** The least owner that satisfies [p]. *)
Lemma first_from_spec d p :
  match first_from name d p with
  | Some o => is_Some (d.(d_statistics) !! o) ∧ p (seq_key name d o) = true ∧
      ∀ x, is_Some (d.(d_statistics) !! x) → p (seq_key name d x) = true → seq_ltb (seq_key name d x) (seq_key name d o) = false
  | None => ∀ x, is_Some (d.(d_statistics) !! x) → p (seq_key name d x) = false
  end.
Proof using Type.
  unfold first_from. set (l := by_maintenance_seq name d).
  assert (StronglySorted (seq_le name d) l) as Hs by (apply StronglySorted_merge_sort; apply _).
  assert (∀ x, x ∈ l ↔ is_Some (d.(d_statistics) !! x)) as Hl.
  { intros x. unfold l, by_maintenance_seq. rewrite merge_sort_Permutation, list_elem_of_fmap. split.
    - intros ([y s] & -> & Hy%elem_of_map_to_list). by exists s.
    - intros [s Hx]. exists (x, s). split; [done|]. by apply elem_of_map_to_list. }
  clearbody l. assert (∀ x, x ∈ l → is_Some (d.(d_statistics) !! x)) as Hl1 by (intros x; apply Hl).
  assert (∀ x, is_Some (d.(d_statistics) !! x) → x ∈ l) as Hl2 by (intros x; apply Hl). clear Hl.
  assert (∀ x, x ∈ l → p (seq_key name d x) = true →
    match head (filter (λ o, p (seq_key name d o) = true) l) with Some o => seq_ltb (seq_key name d x) (seq_key name d o) = false | None => False end) as Hmin.
  { clear Hl1 Hl2. induction Hs as [|y l Hs IH Hy]; intros x Hx Hp; [by apply elem_of_nil in Hx|]. rewrite filter_cons.
    apply elem_of_cons in Hx as [->|Hx].
    - rewrite decide_True by done. cbn. apply seq_irrefl.
    - destruct (decide _); cbn; [|by apply IH]. rewrite Forall_forall in Hy. by apply Hy. }
  destruct (head _) as [o|] eqn:E.
  - assert (o ∈ filter (λ o, p (seq_key name d o) = true) l) as [Hp Ho]%list_elem_of_filter.
    { destruct (filter _ l) as [|z r]; [done|]. injection E as ->. by left. }
    split; [by apply Hl1|]. split; [done|]. intros x Hx. by apply Hmin, Hl2.
  - intros x Hx. apply not_true_is_false. intros Hp. by apply (Hmin x (Hl2 x Hx)).
Qed.
End order.

(** ** What the payment of fees leaves to the walk

    Nobody stops voting, and nobody's fees change but those that are paid out. *)
Definition votes_on (s s' : account_statistics_object) : Prop :=
  s'.(st_is_voting) = s.(st_is_voting) ∧ s'.(st_total_core_in_orders) = s.(st_total_core_in_orders) ∧
  s'.(st_core_in_balance) = s.(st_core_in_balance) ∧ (s.(st_has_cashback_vb) = true → s'.(st_has_cashback_vb) = true).
Definition stats_on (m m' : gmap Z account_statistics_object) : Prop := ∀ o s, m !! o = Some s → ∃ s', m' !! o = Some s' ∧ votes_on s s'.
#[export] Instance stats_on_preorder : PreOrder stats_on.
Proof.
  split; [intros d o s Hs; by exists s|]. intros d1 d2 d3 H1 H2 o s Hs. destruct (H1 _ _ Hs) as (s1 & Hs1 & A1 & A2 & A3 & A4).
  destruct (H2 _ _ Hs1) as (s2 & Hs2 & B1 & B2 & B3 & B4). exists s2. split; [done|]. split_and!; [congruence..|auto].
Qed.
Definition voters_on (d d' : database) : Prop := stats_on d.(d_statistics) d'.(d_statistics).
#[export] Instance voters_on_preorder : PreOrder voters_on.
Proof. split; [by intros d; unfold voters_on|]. intros d1 d2 d3 H1 H2. unfold voters_on in *. by etransitivity. Qed.
Class VotersOn (P : Prop) (d d' : database) : Prop := on : P → voters_on d d'.
#[export] Hint Mode VotersOn + - - : typeclass_instances.
Class VotesOn (f : account_statistics_object → result account_statistics_object) : Prop := keeps_votes : ∀ s s', f s = Ok s' → votes_on s s'.
#[export] Hint Extern 0 (VotesOn _) =>
  let s := fresh "s" in let H := fresh "H" in
  intros s ? H; cbn beta in H; inv_ok; by split_and! : typeclass_instances.
Lemma voters_same d d' : d'.(d_statistics) = d.(d_statistics) → voters_on d d'.
Proof. intros E. unfold voters_on. by rewrite E. Qed.
Ltac solve_on :=
  repeat match goal with
  | H : ?P |- _ => lazymatch P with _ = Ok _ => idtac end; apply (on (P:=P)) in H
  end;
  unfold push_applied_operation, voters_on in *; cbn in *;
  repeat match goal with
  | H : stats_on ?d ?d' |- stats_on ?d _ => etransitivity; [exact H|clear H]
  end;
  reflexivity.

#[export] Instance on_adjust d acc x d' : VotersOn (adjust_balance d acc x = Ok d') d d'.
Proof. intros H. rewrite (adjust_balance_frame _ _ _ _ H). by apply voters_same. Qed.
#[export] Instance on_statistics d o f d' `{!VotesOn f} : VotersOn (modify_statistics d o f = Ok d') d d'.
Proof.
  intros H. apply modify_statistics_Ok in H as (s & s' & Hs & Hf & ->). intros x y Hy. cbn. destruct (decide (x = o)) as [->|Hne].
  - rewrite lookup_insert_eq. exists s'. split; [done|]. assert (y = s) as -> by congruence. by apply keeps_votes.
  - rewrite lookup_insert_ne by done. by exists y.
Qed.
#[export] Instance on_account d o f d' : VotersOn (modify_account d o f = Ok d') d d'.
Proof. intros H. apply modify_account_Ok in H as (? & ? & _ & _ & ->). by apply voters_same. Qed.
#[export] Instance on_dynamic_data d k f d' : VotersOn (modify_dynamic_data d k f = Ok d') d d'.
Proof. intros H. rewrite (modify_dynamic_data_frame _ _ _ _ H). by apply voters_same. Qed.
#[export] Instance on_sub_supply d k z d' : VotersOn (sub_supply d k z = Ok d') d d'.
Proof. apply on_dynamic_data. Qed.
#[export] Instance on_add_fees d k z d' : VotersOn (add_accumulated_fees d k z = Ok d') d d'.
Proof. apply on_dynamic_data. Qed.
#[export] Instance on_lazy d o amt secs owner rv o' d' : VotersOn (deposit_lazy_vesting d o amt secs owner rv = Ok (o', d')) d d'.
Proof. intros H. unfold deposit_lazy_vesting in H. inv_ok; solve_on. Qed.
#[export] Instance on_repay d acct amt d' rest : VotersOn (repay_credit d acct amt = Ok (d', rest)) d d'.
Proof. intros H. unfold repay_credit, close_credit in H. inv_ok; solve_on. Qed.
#[export] Instance on_cashback d acct amt rv ci d' : VotersOn (deposit_cashback d acct amt rv ci = Ok d') d d'.
Proof. intros H. unfold deposit_cashback in H. inv_ok; solve_on. Qed.
#[export] Instance on_pay_reward d ref cut rv reward d' : VotersOn (pay_reward d ref cut rv = Ok (reward, d')) d d'.
Proof. intros H. unfold pay_reward in H. inv_ok; solve_on. Qed.
#[export] Instance on_gr_reward d ref reward team d' : VotersOn (gr_reward d ref reward team = Ok d') d d'.
Proof. intros H. unfold gr_reward in H. inv_ok; solve_on. Qed.
Lemma on_pay_ref F rv n ref st st' : pay_ref F rv n ref st = Ok st' → voters_on st.(po_db) st'.(po_db).
Proof.
  intros H. unfold pay_ref in H. apply bind_Ok in H as (a & _ & H). case_match; [|by apply Ok_inj in H as <-].
  apply bind_Ok in H as (? & _ & H). apply bind_Ok in H as ([? ?] & _ & H). apply bind_Ok in H as ([r d1] & H1 & H).
  apply bind_Ok in H as (d2 & H2 & H). apply bind_Ok in H as (? & _ & H). apply Ok_inj in H as <-. cbn.
  etransitivity; [exact (on (P:=_ = Ok _) H1)|]. destruct (n =? 1); [exact (on (P:=_ = Ok _) H2)|by apply Ok_inj in H2 as ->].
Qed.
Lemma on_pay_refs F rv levels prev ref st st' : pay_refs F rv levels prev ref st = Ok st' → voters_on st.(po_db) st'.(po_db).
Proof.
  revert prev ref st. induction levels as [|n levels IH]; intros prev ref st H; cbn in H; [by apply Ok_inj in H as <-|].
  case_match; [|by apply Ok_inj in H as <-]. apply bind_Ok in H as (st1 & H1%on_pay_ref & H). etransitivity; [exact H1|].
  destruct levels; [by apply Ok_inj in H as <-|]. apply bind_Ok in H as (? & _ & H). apply bind_Ok in H as (? & _ & H). by eapply IH.
Qed.
#[export] Instance on_pay_out d acct F rv d' : VotersOn (pay_out_fees d acct F rv = Ok d') d d'.
Proof.
  intros H. unfold pay_out_fees in H. apply bind_Ok in H as (? & _ & H). apply bind_Ok in H as (? & _ & H). apply bind_Ok in H as (? & _ & H).
  apply bind_Ok in H as (st & H1%on_pay_refs & H). etransitivity; [exact H1|exact (on (P:=_ = Ok _) H)].
Qed.
#[export] Instance on_process_fees d acct d' : VotersOn (process_fees d acct = Ok d') d d'.
Proof.
  intros H. unfold process_fees in H. apply bind_Ok in H as (s & _ & H). destruct (_ || _); [|by apply Ok_inj in H as <-].
  apply bind_Ok in H as (d1 & H1 & H). apply bind_Ok in H as (s1 & _ & H). apply bind_Ok in H as (d2 & H2 & H).
  assert (voters_on d d1) as F1 by (destruct (0 <? s.(st_pending_fees)); [exact (on (P:=_ = Ok _) H1)|by apply Ok_inj in H1 as <-]).
  assert (voters_on d1 d2) as F2 by (destruct (0 <? s1.(st_pending_vested_fees)); [exact (on (P:=_ = Ok _) H2)|by apply Ok_inj in H2 as <-]).
  etransitivity; [exact F1|]. etransitivity; [exact F2|exact (on (P:=_ = Ok _) H)].
Qed.

(** ** One account *)
Definition due (d : database) (x : Z) : Prop := ∃ s, d.(d_statistics) !! x = Some s ∧ need_maintenance s = true.
Definition pend_ok (d : database) : Prop := map_Forall (λ _ p, amount_ok p.1 ∧ amount_ok p.2) (pendings d).
Record walk_ok (d : database) : Prop := {
  wo_fees : fees_wf d;
  wo_levels : levels_wf d;
  wo_pending : pend_ok d }.

(** What the walk changes of an account: its fees are paid out, and it may vote with more. *)
Record walked (d d' : database) : Prop := {
  wk_rules : d'.(d_gpo) = d.(d_gpo) ∧ d'.(d_dgpo) = d.(d_dgpo) ∧ standings d' = standings d;
  wk_voters : voters_on d d';
  wk_pending : ∀ x p', pendings d' !! x = Some p' → ∃ p, pendings d !! x = Some p ∧ (p' = p ∨ p' = (0, 0)) }.
#[export] Instance walked_preorder : PreOrder walked.
Proof.
  split; [intros d; split; [done..|]; intros x p Hp; exists p; auto|].
  intros d1 d2 d3 [(A1 & A2 & A3) A4 A5] [(B1 & B2 & B3) B4 B5]. split; [split_and!; congruence|by etransitivity|].
  intros x p Hp. destruct (B5 _ _ Hp) as (q & Hq & E1). destruct (A5 _ _ Hq) as (r & Hr & E2). exists r. split; [done|].
  destruct E1 as [->| ->]; [exact E2|by right].
Qed.
Lemma walked_owners d d' x : walked d d' → is_Some (d'.(d_statistics) !! x) ↔ is_Some (d.(d_statistics) !! x).
Proof.
  intros [_ H1 H2]. split; intros [s Hs].
  - destruct (H2 x (pending s)) as (p & Hp & _); [unfold pendings; by rewrite lookup_fmap, Hs|]. unfold pendings in Hp. rewrite lookup_fmap in Hp.
    by destruct (d.(d_statistics) !! x).
  - destruct (H1 _ _ Hs) as (s' & -> & _). by eexists.
Qed.
Lemma walked_ok d d' : walked d d' → walk_ok d → walk_ok d'.
Proof.
  intros [(A1 & A2 & A3) _ A5] [[F1 F2] [L1 L2] P]. split.
  - split; unfold parameters in *; rewrite ?A1, ?A3; done.
  - split; unfold parameters in *; rewrite ?A1; done.
  - intros x p Hp. destruct (A5 _ _ Hp) as (q & Hq & [->| ->]); [exact (P _ _ Hq)|]. by split.
Qed.

(** The fees of one account are paid, those of the others stay. *)
Lemma process_fees_walked d o s d' : walk_ok d → get_statistics d o = Ok s → has_pending_fees s = true → process_fees d o = Ok d' →
  walked d d' ∧ pendings d' !! o = Some (0, 0) ∧ ∀ x, x ≠ o → pendings d' !! x = pendings d !! x.
Proof.
  intros [Hf Hl Hp] Hs Hpend H. pose proof (on (P:=process_fees d o = Ok d') H) as Hon.
  pose proof H as H0. unfold process_fees in H0. rewrite Hs in H0. cbn [mbind result_bind] in H0. unfold has_pending_fees in Hpend. rewrite Hpend in H0.
  apply bind_Ok in H0 as (d1 & H1 & H0). apply bind_Ok in H0 as (s1 & Hs1 & H0). apply bind_Ok in H0 as (d2 & H2 & H3).
  assert (same_globals d d1) as G1 by (destruct (0 <? s.(st_pending_fees)); [exact (globals (P:=_ = Ok _) H1)|by apply Ok_inj in H1 as <-]).
  assert (same_globals d1 d2) as G2 by (destruct (0 <? s1.(st_pending_vested_fees)); [exact (globals (P:=_ = Ok _) H2)|by apply Ok_inj in H2 as <-]).
  assert (same_globals d d2) as (A1 & A2 & A3 & A4 & _) by (by etransitivity).
  apply modify_statistics_Ok in H3 as (s2 & s3 & Hs2 & Hs3 & ->). apply bind_Ok in Hs3 as (fees & _ & Hs3). apply bind_Ok in Hs3 as (paid & _ & Hs3). apply Ok_inj in Hs3 as <-.
  unfold pendings in *. cbn in *. rewrite fmap_insert in *. assert (∀ x, x ≠ o → (<[o:=(0, 0)]> (pending <$> d2.(d_statistics)) : gmap Z (Z * Z)) !! x = (pending <$> d.(d_statistics)) !! x) as Hx.
  { intros x Hne. rewrite lookup_insert_ne by done. by rewrite A4. }
  split; [|split; [apply lookup_insert_eq|exact Hx]].
  split; [done|exact Hon|]. unfold pendings. cbn. rewrite fmap_insert. intros y p Hxp. destruct (decide (y = o)) as [->|Hne].
  - exists (pending s). apply from_option_Ok in Hs. rewrite lookup_fmap, Hs. split; [done|right]. by rewrite lookup_insert_eq in Hxp; injection Hxp as <-.
  - exists p. split; [|by left]. by rewrite <-Hx.
Qed.

Lemma votes_on_core s s' : votes_on s s' → has_some_core_voting s = true → has_some_core_voting s' = true.
Proof.
  intros (E1 & E2 & E3 & E4). unfold has_some_core_voting. rewrite E1, E2, E3. intros [-> H]%andb_true_iff. cbn.
  apply orb_true_iff in H as [->|H]; [done|]. rewrite (E4 H). apply orb_true_r.
Qed.
Lemma due_stays d d' x : voters_on d d' → pendings d' !! x = pendings d !! x → due d x → due d' x.
Proof.
  intros Hon Hp (s & Hs & Hn). destruct (Hon _ _ Hs) as (s' & Hs' & Hv). exists s'. split; [done|]. unfold need_maintenance in *.
  apply orb_true_iff in Hn as [Hn|Hn]; [by rewrite (votes_on_core _ _ Hv Hn)|]. apply orb_true_iff. right.
  unfold pendings in Hp. rewrite !lookup_fmap, Hs, Hs' in Hp. apply Some_inj in Hp. unfold has_pending_fees, pending in *. congruence.
Qed.
Lemma not_pending d o s : pend_ok d → get_statistics d o = Ok s → has_pending_fees s = false → pendings d !! o = Some (0, 0).
Proof.
  intros Hp Hs Hn. apply from_option_Ok in Hs. assert (pendings d !! o = Some (pending s)) as E by (unfold pendings; by rewrite lookup_fmap, Hs).
  rewrite E. destruct (Hp _ _ E) as [H1 H2]. unfold has_pending_fees, pending, amount_ok in *. cbn in *. apply orb_false_iff in Hn as [?%Z.ltb_ge ?%Z.ltb_ge]. f_equal. f_equal; lia.
Qed.

(** ** The whole walk *)
Definition vote_of (t : vote_tally) (x : database * Z) : result vote_tally :=
  s ← get_statistics x.1 x.2; a ← get_account x.1 x.2;
  if has_some_core_voting s then tally x.1 t a s else Ok t.

Section walks.
Context (name : Z → string) (Hname : ∀ x y, name x = name y → x = y).

Definition ahead (d : database) (o : Z) : gset Z := filter (λ x, String.ltb (name x) (name o) = false) (dom d.(d_statistics)).
Definition at_due (d : database) (itr : option Z) (fuel : nat) : Prop :=
  match itr with Some o => due d o ∧ (size (ahead d o) ≤ fuel)%nat | None => True end.
(** Whether the walk still comes to [x]. *)
Definition to_come (itr : option Z) (x : Z) : Prop := match itr with Some o => String.ltb (name x) (name o) = false | None => False end.

(** A run of the walk: the accounts it visits, in the order of their names, each in
    the state in which it is visited; its fees are paid and its vote is counted. *)
Record walks (d : database) (t : vote_tally) (itr : option Z) (d' : database) (t' : vote_tally) (visits : list (database * Z)) : Prop := {
  ws_walked : walked d d';
  ws_flow : ∃ loss, 0 ≤ loss ≤ 16 * Z.of_nat (length visits) ∧ (head_block_num d < HARDFORK_CORE_1480_BLOCK_NUM → loss = 0) ∧
      flow d d' (λ a, core_only a (- loss));
  ws_votes : foldM vote_of t visits = Ok t';
  ws_states : Forall (λ x, walked d x.1) visits;
  ws_order : StronglySorted (λ x y, String.ltb (name x.2) (name y.2) = true) visits ∧ Forall (λ x, to_come itr x.2) visits;
  ws_all : ∀ x, due d x → to_come itr x → x ∈ snd <$> visits;
  ws_paid : ∀ x, x ∈ snd <$> visits → pendings d' !! x = Some (0, 0) }.

Lemma walked_zero d d' x : walked d d' → pendings d !! x = Some (0, 0) → pendings d' !! x = Some (0, 0).
Proof using Type.
  intros H Hx. assert (is_Some (pendings d' !! x)) as [p Hp].
  { unfold pendings in *. rewrite lookup_fmap in *. rewrite fmap_is_Some. apply (walked_owners _ _ _ H). by destruct (d.(d_statistics) !! x). }
  destruct (wk_pending _ _ H _ _ Hp) as (q & Hq & [->| ->]); congruence.
Qed.

(** The iterator moves on to the next account that is due. *)
Lemma next_due d o : due d o →
  match first_from name d (λ k, seq_ltb (seq_key name d o) k) with
  | Some n => due d n ∧ String.ltb (name o) (name n) = true ∧
      ∀ x, due d x → String.ltb (name o) (name x) = true → String.ltb (name x) (name n) = false
  | None => ∀ x, due d x → String.ltb (name o) (name x) = false
  end.
Proof using Type.
  intros (s & Hs & Hn). pose proof (first_from_spec name d (λ k, seq_ltb (seq_key name d o) k)) as H.
  assert (∀ x, due d x → seq_key name d x = (true, name x)) as Hk by (intros x (s' & Hs' & Hn'); unfold seq_key; by rewrite Hs', Hn').
  rewrite (Hk o) in * by (by exists s). destruct (first_from _ _ _) as [n|].
  - destruct H as ([s' Hs'] & Hlt & Hmin). apply due_ltb in Hlt as [Hd Hlt]. cbn in Hlt.
    assert (due d n) as Hdn by (exists s'; unfold seq_key in Hd; rewrite Hs' in Hd; by split).
    split; [done|]. split; [done|]. intros x Hx Hox. rewrite (Hk n Hdn) in Hmin.
    assert (seq_ltb (seq_key name d x) (true, name n) = false) as Hm.
    { apply Hmin; [destruct Hx as (? & -> & _); by eexists|]. rewrite (Hk x Hx). by apply due_ltb. }
    rewrite (Hk x Hx) in Hm. exact Hm.
  - intros x Hx. apply not_true_is_false. intros Hlt. assert (seq_ltb (true, name o) (seq_key name d x) = false) as Hf.
    { apply H. destruct Hx as (? & -> & _). by eexists. }
    rewrite (Hk x Hx) in Hf. by rewrite (proj2 (due_ltb _ _)) in Hf.
Qed.
Lemma ahead_less d d' o n : walked d d' → due d o → String.ltb (name o) (name n) = true → (size (ahead d' n) < size (ahead d o))%nat.
Proof using Type.
  intros Hw (s & Hs & _) Hlt. apply subset_size. split.
  - intros x. unfold ahead. rewrite !elem_of_filter, !elem_of_dom, (walked_owners _ _ _ Hw). intros [Hx ?]. split; [|done].
    apply not_true_is_false. intros Hxo. by rewrite (ltb_trans _ _ _ Hxo Hlt) in Hx.
  - intros Hsub. specialize (Hsub o). unfold ahead in Hsub. rewrite !elem_of_filter, !elem_of_dom in Hsub.
    destruct Hsub as [Hf _]; [split; [apply ltb_irrefl|by eexists]|]. congruence.
Qed.

Lemma terminates_tally d t a s : terminates (tally d t a s).
Proof using Type. unfold tally, opinion_of, voting_stake. solve_terminates. Qed.

(** What a visit does to the state, and where it leads. *)
Lemma visit_spec d t o s a fuel d1 t1 : walk_ok d → due d o → get_statistics d o = Ok s → get_account d o = Ok a → (size (ahead d o) ≤ S fuel)%nat →
  (if has_some_core_voting s then tally d t a s else Ok t) = Ok t1 →
  (if has_pending_fees s then process_fees d o else Ok d) = Ok d1 →
  let next := first_from name d (λ k, seq_ltb (seq_key name d o) k) in
  walked d d1 ∧ pendings d1 !! o = Some (0, 0) ∧ at_due d1 next fuel ∧ vote_of t (d, o) = Ok t1 ∧
  (∃ loss, 0 ≤ loss ≤ 16 ∧ (head_block_num d < HARDFORK_CORE_1480_BLOCK_NUM → loss = 0) ∧ flow d d1 (λ a, core_only a (- loss))) ∧
  (∀ x, x ≠ o → due d x → due d1 x) ∧ ∀ x, due d x → x ≠ o → String.ltb (name x) (name o) = false → to_come next x.
Proof using Hname.
  intros Hok Hdue Hs Ha Hsz Ht Hd next.
  assert (walked d d1 ∧ pendings d1 !! o = Some (0, 0) ∧ (∀ x, x ≠ o → pendings d1 !! x = pendings d !! x) ∧
    ∃ loss, 0 ≤ loss ≤ 16 ∧ (head_block_num d < HARDFORK_CORE_1480_BLOCK_NUM → loss = 0) ∧ flow d d1 (λ a, core_only a (- loss))) as (W & P & Q & F).
  { destruct (has_pending_fees s) eqn:Hp.
    - destruct (process_fees_walked _ _ _ _ Hok Hs Hp Hd) as (W & P & Q). split; [done|]. split; [done|]. split; [done|].
      assert (amount_ok s.(st_pending_fees) ∧ amount_ok s.(st_pending_vested_fees)) as [A1 A2].
      { apply (wo_pending _ Hok o (pending s)). apply from_option_Ok in Hs. unfold pendings. by rewrite lookup_fmap, Hs. }
      by destruct (process_fees_lossy _ _ _ _ Hd Hs (wo_fees _ Hok) A1 A2) as [F _].
    - apply Ok_inj in Hd as <-. split; [done|]. split; [by apply (not_pending _ _ _ (wo_pending _ Hok) Hs)|]. split; [done|].
      exists 0. split; [lia|]. split; [done|]. eapply flow_ext; [apply flow_refl|]. flow_arith. }
  assert (∀ x, x ≠ o → due d x → due d1 x) as Hstill.
  { intros x Hx. apply due_stays; [apply W|by apply Q]. }
  assert (∀ x, String.ltb (name o) (name x) = true → x ≠ o) as Hne by (intros x Hx ->; by rewrite ltb_irrefl in Hx).
  pose proof (next_due d o Hdue) as Hn. fold next in Hn. clearbody next. split; [done|]. split; [done|]. split; [|split; [|split; [exact F|split; [exact Hstill|]]]].
  - destruct next as [n|]; [|done]. destruct Hn as (Hn & Hlt & _). split; [apply Hstill; [by apply Hne|done]|].
    pose proof (ahead_less _ _ _ _ W Hdue Hlt). lia.
  - unfold vote_of. cbn. rewrite Hs, Ha. exact Ht.
  - intros x Hx Hxo Hge. assert (String.ltb (name o) (name x) = true) as Hlt.
    { destruct (ltb_total (name o) (name x)) as [?|[E|E]]; [done|by apply Hname in E as ->|congruence]. }
    destruct next as [n|]; cbn; [by apply Hn|]. rewrite (Hn x Hx) in Hlt. done.
Qed.

Lemma walk_spec fuel d t itr : walk_ok d → at_due d itr fuel →
  terminates (walk name fuel d t itr) ∧ ∀ d' t', walk name fuel d t itr = Ok (d', t') → ∃ visits, walks d t itr d' t' visits.
Proof using Hname.
  revert d t itr. induction fuel as [|fuel IH]; intros d t itr Hok Hitr; (destruct itr as [o|]; [destruct Hitr as [Hdue Hsz]|]; cbn [walk]).
  2, 4: split; [discriminate|]; intros d' t' H; apply Ok_inj in H; injection H as <- <-; exists []; split;
    [done|exists 0; split; [cbn; lia|split; [done|eapply flow_ext; [apply flow_refl|flow_arith]]]|done|constructor|split; constructor|done|intros x Hx; by apply elem_of_nil in Hx].
  { exfalso. assert (o ∈ ahead d o) as Ho.
    { destruct Hdue as (s & Hs & _). unfold ahead. rewrite elem_of_filter, elem_of_dom. split; [apply ltb_irrefl|by eexists]. }
    assert (ahead d o = ∅) as E by (apply leibniz_equiv, size_empty_iff; lia). rewrite E in Ho. by apply elem_of_empty in Ho. }
  set (next := first_from name d (λ k, seq_ltb (seq_key name d o) k)).
  split.
  - apply terminates_bind; [apply terminates_get_statistics|intros s Hs]. apply terminates_bind; [apply terminates_get_account|intros a Ha].
    apply terminates_bind; [destruct (has_some_core_voting s); [apply terminates_tally|discriminate]|intros t1 Ht].
    apply terminates_bind; [destruct (has_pending_fees s); [apply terminates_process_fees, Hok|discriminate]|intros d1 Hd].
    destruct (visit_spec _ _ _ _ _ _ _ _ Hok Hdue Hs Ha Hsz Ht Hd) as (W & _ & Hat & _). apply IH; [by apply (walked_ok _ _ W)|done].
  - intros d' t' H. apply bind_Ok in H as (s & Hs & H). apply bind_Ok in H as (a & Ha & H). apply bind_Ok in H as (t1 & Ht & H).
    apply bind_Ok in H as (d1 & Hd & H). fold next in H.
    destruct (visit_spec _ _ _ _ _ _ _ _ Hok Hdue Hs Ha Hsz Ht Hd) as (W & P & Hat & Hv & (l1 & L1 & Z1 & F1) & Hstill & Hnext). fold next in Hat, Hnext.
    destruct (IH d1 t1 next (walked_ok _ _ W Hok) Hat) as [_ Hrun]. destruct (Hrun _ _ H) as (visits & [V1 (l2 & L2 & Z2 & F2) V3 V3' [V4 V5] V6 V7]).
    assert (∀ x, to_come next x → String.ltb (name o) (name x) = true) as Hafter.
    { intros x Hx. pose proof (next_due d o Hdue) as Hn. fold next in Hn. destruct next as [n|]; [|done]. cbn in Hx. destruct Hn as (_ & Hlt & _).
      destruct (ltb_total (name n) (name x)) as [E|[E|E]]; [by apply (ltb_trans _ _ _ Hlt)|by rewrite <-E|congruence]. }
    exists ((d, o) :: visits). split.
    + by etransitivity.
    + exists (l1 + l2). split; [cbn [length]; lia|]. split.
      * intros Hb. rewrite (Z1 Hb), Z2; [done|]. unfold head_block_num in *. destruct (wk_rules _ _ W) as (_ & -> & _). exact Hb.
      * eapply flow_ext; [exact (flow_trans _ _ _ _ _ F1 F2)|]. flow_arith.
    + cbn. by rewrite Hv.
    + constructor; [done|]. eapply Forall_impl; [exact V3'|]. intros x Hx. by etransitivity.
    + split.
      * constructor; [exact V4|]. eapply Forall_impl; [exact V5|]. intros x Hx. by apply Hafter.
      * constructor; [apply ltb_irrefl|]. eapply Forall_impl; [exact V5|]. intros x Hx%Hafter. cbn in *.
        apply not_true_is_false. intros Hf. pose proof (ltb_trans _ _ _ Hx Hf) as Hb. by rewrite ltb_irrefl in Hb.
    + intros x Hx Hc. cbn in *. destruct (decide (x = o)) as [->|Hne]; [by left|right]. apply V6; [by apply Hstill|by apply Hnext].
    + intros x [->|Hx]%elem_of_cons; [|by apply V7]. by apply (walked_zero _ _ _ V1).
Qed.
End walks.

(** ** The balances before the walk *)
Lemma refresh_balance_spec d key d' : refresh_balance d key = Ok d' → ∃ b s,
  d.(d_balances) !! key = Some b ∧ d.(d_statistics) !! key.1 = Some s ∧ flow d d' (λ _, 0) ∧ same_globals d d' ∧
  d'.(d_balances) = <[key := b <| abo_maintenance_flag := false |>]> d.(d_balances) ∧
  d'.(d_statistics) = <[key.1 := s <| st_core_in_balance := b.(abo_balance) |>]> d.(d_statistics).
Proof.
  intros H. unfold refresh_balance in H. apply bind_Ok in H as (b & Hb & H). apply from_option_Ok in Hb. apply bind_Ok in H as (d1 & H1 & H).
  apply Ok_inj in H as <-. pose proof (flows (P:=_ = Ok _) H1) as F1. pose proof (globals (P:=_ = Ok _) H1) as G1.
  apply modify_statistics_Ok in H1 as (s & s' & Hs & Hf & ->). apply Ok_inj in Hf as <-. exists b, s. split; [done|]. split; [done|]. split; [|done].
  set (d1 := d <| d_statistics := _ |>) in *. assert (flow d1 (d1 <| d_balances := <[key := b <| abo_maintenance_flag := false |>]> d1.(d_balances) |>) (λ _, 0)) as F2.
  { intros Hd. assert (d1.(d_balances) !! key = Some b) as Hb1 by exact Hb. clearbody d1. pose proof (lok_balances _ Hd _ _ Hb1) as Hnn.
    destruct Hd as [Hbal Hcr Hor Hfl Hlo]. split; [split; [|done..]; by apply map_Forall_insert_2|]. intros a.
    rewrite imb_balances, msum_insert, Hb1. unfold balance_held. cbn. repeat case_match; lia. }
  eapply flow_ext; [exact (flow_trans _ _ _ _ _ F1 F2)|]. flow_arith.
Qed.

(** Only balances of the core asset are flagged. *)
Definition flags_ok (d : database) : Prop := map_Forall (λ k b, b.(abo_maintenance_flag) = true → k.2 = CORE) d.(d_balances).
Lemma refresh_list l d d' : NoDup l → Forall (λ k, k.2 = CORE) l → foldM refresh_balance d l = Ok d' →
  flow d d' (λ _, 0) ∧ same_globals d d' ∧
  (∀ k b', d'.(d_balances) !! k = Some b' → ∃ b, d.(d_balances) !! k = Some b ∧ b'.(abo_balance) = b.(abo_balance) ∧
     b'.(abo_maintenance_flag) = (if decide (k ∈ l) then false else b.(abo_maintenance_flag))) ∧
  (∀ o, is_Some (d.(d_statistics) !! o) → is_Some (d'.(d_statistics) !! o)) ∧
  (∀ o s', (o, CORE) ∉ l → d'.(d_statistics) !! o = Some s' → d.(d_statistics) !! o = Some s') ∧
  (∀ o b, (o, CORE) ∈ l → d.(d_balances) !! (o, CORE) = Some b → ∃ s', d'.(d_statistics) !! o = Some s' ∧ s'.(st_core_in_balance) = b.(abo_balance)).
Proof.
  intros Hnd Hall. revert d. induction Hall as [|[o i] l Hx Hl IH]; intros d H; cbn [foldM] in H.
  { apply Ok_inj in H as <-. split; [eapply flow_ext; [apply flow_refl|flow_arith]|]. split; [done|]. split; [intros k b Hb; by exists b|].
    split; [done|]. split; [done|]. intros o b Ho. by apply elem_of_nil in Ho. }
  cbn in Hx. subst i. apply NoDup_cons in Hnd as [Hn Hnd]. apply bind_Ok in H as (d1 & H1 & H).
  apply refresh_balance_spec in H1 as (b0 & s0 & Hb0 & Hs0 & F1 & G1 & Eb & Es). cbn in Es, Hs0. apply (IH Hnd) in H as (F2 & G2 & C1 & C2 & C3 & C4).
  split; [eapply flow_ext; [exact (flow_trans _ _ _ _ _ F1 F2)|flow_arith]|]. split; [by etransitivity|]. split; [|split; [|split]].
  - intros k b' Hk. destruct (C1 _ _ Hk) as (b & Hb & E1 & E2). rewrite Eb in Hb. destruct (decide (k = (o, CORE))) as [->|Hne].
    + rewrite lookup_insert_eq in Hb. injection Hb as <-. exists b0. split; [done|]. split; [done|]. rewrite decide_True by (by left).
      rewrite E2. by destruct (decide _).
    + rewrite lookup_insert_ne in Hb by done. exists b. split; [done|]. split; [done|]. rewrite E2.
      destruct (decide (k ∈ l)); [by rewrite decide_True by (by right)|]. rewrite decide_False; [done|]. by rewrite elem_of_cons; intros [?|?].
  - intros x Hx. apply C2. rewrite Es. destruct (decide (x = o)) as [->|]; [rewrite lookup_insert_eq; by eexists|by rewrite lookup_insert_ne].
  - intros x s' Hx Hs'. apply not_elem_of_cons in Hx as [Hne Hx]. apply C3 in Hs'; [|done]. rewrite Es in Hs'. by rewrite lookup_insert_ne in Hs' by congruence.
  - intros x b Hin Hb. destruct (decide (x = o)) as [->|Hne].
    + assert (b = b0) as -> by congruence. destruct (C2 o) as [s' Hs']; [rewrite Es, lookup_insert_eq; by eexists|]. exists s'. split; [done|].
      apply C3 in Hs'; [|done]. rewrite Es, lookup_insert_eq in Hs'. by injection Hs' as <-.
    + apply elem_of_cons in Hin as [E|Hin]; [congruence|]. apply C4; [done|]. rewrite Eb, lookup_insert_ne; [done|congruence].
Qed.
Lemma flagged_elem d k : k ∈ flagged_balances d ↔ ∃ b, d.(d_balances) !! k = Some b ∧ b.(abo_maintenance_flag) = true.
Proof.
  unfold flagged_balances. rewrite list_elem_of_fmap. split.
  - intros ([k' b] & -> & [Hf Hb%elem_of_map_to_list]%list_elem_of_filter). by exists b.
  - intros (b & Hb & Hf). exists (k, b). split; [done|]. apply list_elem_of_filter. split; [done|]. by apply elem_of_map_to_list.
Qed.

(** What the refreshed statistics say: the core balances as they are. *)
Record refreshed (d d1 : database) : Prop := {
  rf_flow : flow d d1 (λ _, 0);
  rf_globals : same_globals d d1;
  rf_flags : map_Forall (λ _ b, b.(abo_maintenance_flag) = false) d1.(d_balances);
  rf_core : ∀ o b, d.(d_balances) !! (o, CORE) = Some b → b.(abo_maintenance_flag) = true →
    ∃ s, d1.(d_statistics) !! o = Some s ∧ s.(st_core_in_balance) = b.(abo_balance) }.
Lemma refresh_balances_spec d d1 : flags_ok d → refresh_balances d = Ok d1 → refreshed d d1.
Proof.
  intros Hf H. apply refresh_list in H as (F & G & C1 & _ & _ & C4).
  - split; [done|done| |].
    + intros k b' Hk. destruct (C1 _ _ Hk) as (b & Hb & _ & ->). destruct (decide (k ∈ flagged_balances d)) as [|Hn]; [done|].
      destruct b.(abo_maintenance_flag) eqn:E; [|done]. destruct Hn. apply flagged_elem. by exists b.
    + intros o b Hb Hfl. apply C4; [|done]. apply flagged_elem. by exists b.
  - unfold flagged_balances. apply NoDup_fmap_fst.
    + intros x y1 y2 [_ H1%elem_of_map_to_list]%list_elem_of_filter [_ H2%elem_of_map_to_list]%list_elem_of_filter. congruence.
    + apply NoDup_filter, NoDup_map_to_list.
  - apply Forall_forall. intros k (b & Hb & Hfl)%flagged_elem. exact (Hf _ _ Hb Hfl).
Qed.

(** The maintenance of the accounts ends, whoever starts to need it on the way; it
    visits everybody who votes or has pending fees once, by name, with the core balance
    as it is; all pending fees are paid out, up to sixteen units of rounding for a visit,
    and every visited voter's stake goes into the tally. *)
Theorem account_maintenance name d t (Hname : ∀ x y, name x = name y → x = y) (Hok : walk_ok d) (Hl : ledger_ok d) (Hf : flags_ok d) :
  perform_account_maintenance name d t ≠ Err out_of_fuel ∧
  ∀ d' t', perform_account_maintenance name d t = Ok (d', t') → ∃ d1 visits loss,
    refreshed d d1 ∧ StronglySorted (λ x y, String.ltb (name x.2) (name y.2) = true) visits ∧ Forall (λ x, walked d1 x.1) visits ∧
    (∀ x, due d1 x → x ∈ snd <$> visits) ∧ foldM vote_of t visits = Ok t' ∧
    (∀ x p, pendings d' !! x = Some p → p = (0, 0)) ∧ ledger_ok d' ∧
    0 ≤ loss ≤ 16 * Z.of_nat (length visits) ∧ (head_block_num d < HARDFORK_CORE_1480_BLOCK_NUM → loss = 0) ∧
    ∀ a, imbalance d' a = imbalance d a - (if CORE =? a then loss else 0).
Proof.
  assert (∀ d1, refresh_balances d = Ok d1 → walk_ok d1 ∧ at_due name d1 (first_from name d1 (λ k, k.1)) (size d1.(d_statistics)) ∧
    ∀ x, due d1 x → to_come name (first_from name d1 (λ k, k.1)) x) as Hstart.
  { intros d1 H1. apply refresh_balances_spec in H1 as [_ G _ _]; [|done]. pose proof G as (_ & _ & _ & G4 & _). destruct Hok as [W1 W2 W3].
    split; [split; [exact (fees_wf_globals _ _ G W1)|exact (levels_wf_globals _ _ G W2)|unfold pend_ok; by rewrite G4]|].
    pose proof (first_from_spec name d1 (λ k, k.1)) as Hn.
    assert (∀ x, due d1 x → seq_key name d1 x = (true, name x)) as Hk by (intros x (s & Hs & Hx); unfold seq_key; by rewrite Hs, Hx).
    destruct (first_from _ _ _) as [o|]; [destruct Hn as ([s Hs] & Hd & Hmin)|]; cbn.
    - assert (due d1 o) as Hdue by (exists s; unfold seq_key in Hd; rewrite Hs in Hd; by split). split; [split; [done|]|].
      + rewrite <-(size_dom (D:=gset Z)). apply subseteq_size. intros x. unfold ahead. by intros [_ ?]%elem_of_filter.
      + intros x Hx. specialize (Hmin x). rewrite (Hk o Hdue), (Hk x Hx) in Hmin. apply Hmin; [destruct Hx as (? & -> & _); by eexists|done].
    - split; [done|]. intros x Hx. specialize (Hn x). rewrite (Hk x Hx) in Hn. cbn in Hn. discriminate Hn. destruct Hx as (? & -> & _). by eexists. }
  split.
  - apply terminates_bind.
    + unfold refresh_balances. apply terminates_foldM. intros d0 k. unfold refresh_balance. solve_terminates.
    + intros d1 H1. destruct (Hstart _ H1) as (W & A & _). by apply walk_spec.
  - intros d' t' H. apply bind_Ok in H as (d1 & H1 & H). destruct (Hstart _ H1) as (W & A & Hall). apply refresh_balances_spec in H1 as R; [|done].
    destruct (walk_spec name Hname _ _ t _ W A) as [_ Hrun]. destruct (Hrun _ _ H) as (visits & [V1 (loss & L & Z0 & F) V3 V3' [V4 _] V6 V7]).
    exists d1, visits, loss. destruct (rf_flow _ _ R Hl) as [Hl1 E1]. destruct (F Hl1) as [Hl2 E2].
    split; [exact R|]. split; [exact V4|]. split; [exact V3'|]. split; [intros x Hx; apply V6; [done|by apply Hall]|]. split; [exact V3|]. split; [|split; [exact Hl2|]].
    + intros x p Hp. destruct (wk_pending _ _ V1 _ _ Hp) as (q & Hq & [->| ->]); [|done].
      destruct (decide (q = (0, 0))) as [|Hne]; [done|]. assert (due d1 x) as Hx.
      { unfold pendings in Hq. rewrite lookup_fmap in Hq. destruct (d1.(d_statistics) !! x) as [s|] eqn:Hs; [|done]. injection Hq as <-. exists s. split; [done|].
        unfold need_maintenance. apply orb_true_iff. right. destruct (has_pending_fees s) eqn:E; [done|].
        assert (pendings d1 !! x = Some (0, 0)) as F0 by (apply (not_pending _ _ s); [apply W|by apply (proj2 (from_option_Ok _ _ _))|done]).
        destruct Hne. unfold pendings in F0. rewrite lookup_fmap, Hs in F0. cbn in F0. congruence. }
      assert (x ∈ snd <$> visits) as Hv by (apply V6; [done|by apply Hall]). rewrite (V7 _ Hv) in Hp. by injection Hp as <-.
    + split; [exact L|]. split; [|intros a; rewrite E2, E1; flow_arith].
      intros Hb. apply Z0. unfold head_block_num in *. destruct (rf_globals _ _ R) as (_ & -> & _). exact Hb.
Qed.

(** ** The votes on the interest

    [k] votes on each side are dropped: as few votes that are out of all reason cannot
    move the result. *)
Definition count_above (hi : Z) (l : list Z) : nat := length (filter (λ v, hi < v) l).
Definition count_below (lo : Z) (l : list Z) : nat := length (filter (λ v, v < lo) l).
Lemma sorted_above s i x hi : StronglySorted Z.le s → s !! i = Some x → hi < x → (length s - i ≤ count_above hi s)%nat.
Proof.
  intros Hs Hi Hx. pose proof (take_drop_middle _ _ _ Hi) as E. rewrite <-E in Hs. apply StronglySorted_app in Hs as (_ & _ & Hs).
  apply StronglySorted_inv in Hs as [_ Hf]. unfold count_above. rewrite <-E at 2. rewrite filter_app, length_app.
  assert (filter (λ v, hi < v) (x :: drop (S i) s) = x :: drop (S i) s) as ->.
  { apply filter_all. apply Forall_cons. split; [done|]. eapply Forall_impl; [exact Hf|]. cbn. lia. }
  cbn. rewrite length_drop. lia.
Qed.
Lemma sorted_below s i x lo : StronglySorted Z.le s → s !! i = Some x → x < lo → (S i ≤ count_below lo s)%nat.
Proof.
  intros Hs Hi Hx. pose proof (take_drop_middle _ _ _ Hi) as E. rewrite <-E in Hs. apply StronglySorted_app in Hs as (Hc & _ & _).
  unfold count_below. rewrite <-E. rewrite filter_app, length_app, filter_cons_True by done.
  assert (filter (λ v, v < lo) (take i s) = take i s) as ->.
  { apply filter_all. apply Forall_forall. intros y Hy. assert (y ≤ x) by (apply Hc; [done|by left]). lia. }
  cbn. rewrite length_take. apply lookup_lt_Some in Hi. lia.
Qed.

(** Enough votes stay, and their sum is an amount. *)
Record term_ok (sp : staking_parameters) (votes : list Z) : Prop := {
  tm_positive : Forall (λ v, 0 < v) votes;
  tm_sum : lsum id votes ≤ int64_max;
  tm_filter : 0 ≤ sp.(sp_poc_filter_percent);
  tm_some : 2 * poc_filter sp (Z.of_nat (length votes)) < Z.of_nat (length votes) }.

Lemma poc_filtered_spec sp votes : term_ok sp votes →
  let k := poc_filter sp (Z.of_nat (length votes)) in let l := poc_filtered sp votes in
  0 ≤ k ∧ 0 < Z.of_nat (length l) ∧ 0 ≤ lsum id l ≤ lsum id votes ∧
  (∀ lo hi, Z.of_nat (count_below lo votes) ≤ k → Z.of_nat (count_above hi votes) ≤ k → Forall (λ v, lo ≤ v ≤ hi) l).
Proof.
  intros [T1 T2 T3 T4] k l. assert (0 ≤ k) as Hk by (unfold k, poc_filter, GRAPHENE_100_PERCENT; apply Z.div_pos; lia).
  unfold l, poc_filtered. fold k. set (n := length votes) in *. set (s := merge_sort Z.le votes).
  assert (s ≡ₚ votes) as Hp by apply merge_sort_Permutation. assert (length s = n) as Hlen by (by rewrite Hp).
  assert (StronglySorted Z.le s) as Hs by (apply StronglySorted_merge_sort; intros ??; lia).
  set (m := drop (Z.to_nat k) (take (n - Z.to_nat k) s)). fold k in T4.
  split; [done|]. split; [unfold m; rewrite length_drop, length_take; lia|]. split.
  - assert (Forall (λ v, 0 < v) s) as Hpos by (by rewrite Hp).
    rewrite <-(lsum_proper id _ _ Hp). rewrite <-(take_drop (n - Z.to_nat k) s) at 1. rewrite <-(take_drop (Z.to_nat k) (take _ s)) at 1. fold m.
    rewrite !lsum_app. rewrite <-(take_drop (n - Z.to_nat k) s), <-(take_drop (Z.to_nat k) (take _ s)) in Hpos. fold m in Hpos.
    apply Forall_app in Hpos as [[P1 P2]%Forall_app P3].
    assert (∀ l, Forall (λ v, 0 < v) l → 0 ≤ lsum id l) as Hnn by (intros l0 Hl0; apply lsum_id_nonneg; eapply Forall_impl; [exact Hl0|]; cbn; lia).
    pose proof (Hnn _ P1). pose proof (Hnn _ P2). pose proof (Hnn _ P3). lia.
  - intros lo hi Hlo Hhi. assert (count_below lo s = count_below lo votes ∧ count_above hi s = count_above hi votes) as [E1 E2].
    { unfold count_below, count_above. split; by rewrite Hp. }
    apply Forall_lookup. intros i x Hx. unfold m in Hx. rewrite lookup_drop in Hx. apply lookup_take_Some in Hx as [Hx Hi].
    split; apply Z.nlt_ge; intros Hout.
    + pose proof (sorted_below _ _ _ _ Hs Hx Hout). lia.
    + pose proof (sorted_above _ _ _ _ Hs Hx Hout). lia.
Qed.
Lemma sum_votes_Ok l acc : Forall (λ v, 0 ≤ v) l → 0 ≤ acc → acc + lsum id l ≤ int64_max → foldM safe_add acc l = Ok (acc + lsum id l).
Proof.
  intros Hall. revert acc. induction Hall as [|x l Hx Hl IH]; intros acc Ha Hm; cbn [foldM]; [by rewrite Z.add_0_r|].
  change (lsum id (x :: l)) with (x + lsum id l) in *. pose proof (lsum_id_nonneg _ Hl). rewrite safe_add_in by (unfold in_int64, int64_min, int64_max in *; lia).
  cbn [mbind result_bind]. rewrite IH by lia. f_equal. lia.
Qed.

Lemma sum_bounds lo hi l : Forall (λ v, lo ≤ v ≤ hi) l → lo * Z.of_nat (length l) ≤ lsum id l ≤ hi * Z.of_nat (length l).
Proof. induction 1 as [|x l Hx _ IH]; [cbn; lia|]. change (lsum id (x :: l)) with (x + lsum id l). cbn [length]. lia. Qed.
(** Whole coins, in percent. *)
Definition in_percent (v : Z) : Z := v `div` 100000 * 100.
Lemma poc_mean_spec sp votes : term_ok sp votes → ∃ p, poc_mean sp votes = Ok p ∧ 0 ≤ p ∧
  ∀ lo hi, Z.of_nat (count_below lo votes) ≤ poc_filter sp (Z.of_nat (length votes)) →
    Z.of_nat (count_above hi votes) ≤ poc_filter sp (Z.of_nat (length votes)) → in_percent lo ≤ p ≤ in_percent hi.
Proof.
  intros Ht. destruct (poc_filtered_spec sp votes Ht) as (Hk & Hn & Hsum & Hin). destruct Ht as [T1 T2 _ _]. unfold poc_mean.
  set (l := poc_filtered sp votes) in *. set (n := Z.of_nat (length l)) in *.
  assert (Forall (λ v, 0 ≤ v) l) as Hl.
  { unfold l, poc_filtered. apply Forall_drop, Forall_take. rewrite merge_sort_Permutation. eapply Forall_impl; [exact T1|]. cbn. lia. }
  rewrite sum_votes_Ok by (done || lia). cbn [mbind result_bind]. rewrite Z.add_0_l. set (s := lsum id l) in *.
  rewrite (proj2 (Z.eqb_neq n 0)) by lia. unfold uint128_of_int64. rewrite (Z.mod_small s) by (unfold uint128_mod, int64_max in *; lia).
  assert (0 ≤ s `div` n ≤ s) as Hm by (split; [apply Z.div_pos; lia|apply Z.div_le_upper_bound; nia]).
  assert (0 ≤ (s `div` n) `div` 100000 ≤ s) as Hq by (split; [apply Z.div_pos; lia|apply Z.div_le_upper_bound; lia]).
  assert ((s `div` n) `div` 100000 * 100 ≤ s) as Hq' by (pose proof (Z.mul_div_le (s `div` n) 100000 ltac:(lia)); lia).
  exists (in_percent (s `div` n)). unfold uint128_mul. rewrite Z.mod_small by (unfold uint128_mod, int64_max in *; lia). split; [|split].
  - unfold to_uint64, uint64_mod, int64_max in *. by rewrite (proj2 (Z.ltb_lt _ _)) by lia.
  - unfold in_percent. lia.
  - intros lo hi Hlo Hhi. pose proof (sum_bounds lo hi l (Hin lo hi Hlo Hhi)) as B. fold n s in B.
    assert (lo ≤ s `div` n ≤ hi) as [B1 B2] by (split; [apply Z.div_le_lower_bound; lia|apply Z.div_le_upper_bound; lia]).
    unfold in_percent. split; apply Z.mul_le_mono_nonneg_r; try lia; by apply Z.div_le_mono.
Qed.

(** The percent after a count: the old one when there are too few votes, otherwise one
    that all but the dropped extremes bound. *)
Definition robust_percent (sp : staking_parameters) (votes : list Z) (old new : Z) : Prop :=
  if sp.(sp_poc_min_votes) <=? Z.of_nat (length votes) then
    ∀ lo hi, Z.of_nat (count_below lo votes) ≤ poc_filter sp (Z.of_nat (length votes)) →
      Z.of_nat (count_above hi votes) ≤ poc_filter sp (Z.of_nat (length votes)) → in_percent lo ≤ new ≤ in_percent hi
  else new = old.
Definition counts (sp : staking_parameters) (votes : list Z) : Prop := sp.(sp_poc_min_votes) ≤ Z.of_nat (length votes) → term_ok sp votes.
Lemma poc_result_robust sp votes old : counts sp votes → ∃ p, poc_result sp votes old = Ok p ∧ robust_percent sp votes old p.
Proof.
  intros Hc. unfold poc_result, robust_percent. destruct (Z.leb_spec sp.(sp_poc_min_votes) (Z.of_nat (length votes))) as [Hle|]; [|by exists old].
  destruct (poc_mean_spec sp votes (Hc Hle)) as (p & Hp & _ & Hr). by exists p.
Qed.

(** The votes on the interest: the count succeeds and clears the votes, and each
    interest that gets enough votes lies between any two bounds that no more votes
    miss than are dropped as extremes on that side. *)
Theorem count_poc_votes_robust d
  (H3 : counts d.(d_gpo).(gpo_staking_parameters) (poc_votes st_poc3_vote d))
  (H6 : counts d.(d_gpo).(gpo_staking_parameters) (poc_votes st_poc6_vote d))
  (H12 : counts d.(d_gpo).(gpo_staking_parameters) (poc_votes st_poc12_vote d)) :
  let sp := d.(d_gpo).(gpo_staking_parameters) in
  ∃ d', count_poc_votes d = Ok d' ∧
    robust_percent sp (poc_votes st_poc3_vote d) d.(d_dgpo).(dgp_poc3_percent) d'.(d_dgpo).(dgp_poc3_percent) ∧
    robust_percent sp (poc_votes st_poc6_vote d) d.(d_dgpo).(dgp_poc6_percent) d'.(d_dgpo).(dgp_poc6_percent) ∧
    robust_percent sp (poc_votes st_poc12_vote d) d.(d_dgpo).(dgp_poc12_percent) d'.(d_dgpo).(dgp_poc12_percent) ∧
    map_Forall (λ _ s, has_poc_vote s = false) d'.(d_statistics).
Proof.
  intros sp. destruct (poc_result_robust sp _ d.(d_dgpo).(dgp_poc3_percent) H3) as (p3 & E3 & R3).
  destruct (poc_result_robust sp _ d.(d_dgpo).(dgp_poc6_percent) H6) as (p6 & E6 & R6).
  destruct (poc_result_robust sp _ d.(d_dgpo).(dgp_poc12_percent) H12) as (p12 & E12 & R12).
  unfold count_poc_votes. fold sp. rewrite E3. cbn [mbind result_bind]. rewrite E6. cbn [mbind result_bind]. rewrite E12. cbn [mbind result_bind].
  eexists. split; [reflexivity|]. split; [exact R3|]. split; [exact R6|]. split; [exact R12|].
  cbn. intros o s Hs. apply lookup_fmap_Some in Hs as (s0 & <- & _). destruct (has_poc_vote s0) eqn:E; [done|exact E].
Qed.

(** A count without votes, when none are needed, divides by zero and stops the chain. *)
Theorem empty_count_throws d : (d.(d_gpo).(gpo_staking_parameters)).(sp_poc_min_votes) = 0 → poc_votes st_poc3_vote d = [] →
  count_poc_votes d = Err divide_by_zero_exception.
Proof. intros E1 E2. unfold count_poc_votes, poc_result. rewrite E2, E1. reflexivity. Qed.

(** ** The clocks *)
Lemma next_time_next num timestamp now t interval : 0 < interval → num ≠ 1 → t ≤ timestamp → 0 ≤ t ≤ now → now + interval < 4294967296 →
  let t' := next_time num timestamp now t interval in now < t' ≤ now + interval ∧ (interval | t' - t).
Proof.
  intros Hi Hn Hts Ht Hb. unfold next_time. rewrite (proj2 (Z.leb_le _ _) Hts), (proj2 (Z.eqb_neq _ _) Hn), Z.quot_div_nonneg by lia.
  set (q := (now - t) `div` interval). pose proof (Z.div_mod (now - t) interval ltac:(lia)) as E. pose proof (Z.mod_pos_bound (now - t) interval Hi) as Hm. fold q in E.
  assert (0 ≤ q) by (apply Z.div_pos; lia). cbv zeta.
  assert (time_add t ((q + 1) * interval) = t + (q + 1) * interval) as -> by (unfold time_add; rewrite ?u32_small; [done|nia..]).
  split; [nia|]. exists (q + 1). lia.
Qed.

(** ** A maintenance

    The election of Votes.v, found by the walk: accounts 6, 7 and 8 vote with their
    balances, account 8 has fees to pay out. *)
Definition walk_db : database :=
  votes_db <| d_statistics ::= λ m, <[6 := new_statistics <| st_is_voting := true |>]> (<[7 := new_statistics <| st_is_voting := true |>]>
    (<[8 := new_statistics <| st_is_voting := true |> <| st_pending_fees := 3333 |>]> m)) |>.
Definition sample_name (x : Z) : string := pretty x.

Lemma walk_db_ledger : ledger_ok walk_db.
Proof. split; apply (bool_decide_unpack _); vm_compute; exact I. Qed.
Lemma walk_db_ok : walk_ok walk_db.
Proof.
  split.
  - split; apply (bool_decide_unpack _); vm_compute; exact I.
  - split; vm_compute; (split; [discriminate|reflexivity]).
  - unfold pend_ok. intros x p Hp. assert (map_Forall (λ _ p, 0 ≤ p.1 ≤ int64_max ∧ 0 ≤ p.2 ≤ int64_max) (pendings walk_db)) as H
      by (apply (bool_decide_unpack _); vm_compute; exact I). exact (H _ _ Hp).
Qed.
Lemma walk_db_flags : flags_ok walk_db.
Proof. apply (bool_decide_unpack _). vm_compute. exact I. Qed.

Lemma account_maintenance_witness :
  (snd <$> match perform_account_maintenance sample_name walk_db (new_tally walk_db) with Ok x => Some x | Err _ => None end) = Some votes_tally ∧
  perform_account_maintenance sample_name walk_db (new_tally walk_db) ≠ Err out_of_fuel.
Proof.
  split; [vm_compute; reflexivity|].
  apply (account_maintenance sample_name walk_db (new_tally walk_db)); [intros x y; apply pretty_Z_inj|exact walk_db_ok|exact walk_db_ledger|exact walk_db_flags].
Defined.

(** Ten votes, of which one is out of all reason and dropped. *)
Definition poc_vote_of (v : Z) : account_statistics_object := new_statistics <| st_poc3_vote := v |>.
Definition poc_db : database :=
  sample_db <| d_statistics := list_to_map ((λ x, (x, poc_vote_of (if x =? 3 then 100000000000000 else 4500000 + x))) <$> [0; 1; 2; 3; 4; 5; 6; 7; 8; 9]) |>.
Lemma count_poc_votes_robust_witness : ∃ d', count_poc_votes poc_db = Ok d' ∧ d'.(d_dgpo).(dgp_poc3_percent) = 4500 ∧
  map_Forall (λ _ s, has_poc_vote s = false) d'.(d_statistics).
Proof.
  destruct (count_poc_votes_robust poc_db) as (d' & E & _ & _ & _ & Hc).
  - intros _. split; [apply (bool_decide_unpack _); vm_compute; exact I|vm_compute; discriminate..|vm_compute; reflexivity].
  - intros H. exfalso. revert H. vm_compute. intros H. by apply H.
  - intros H. exfalso. revert H. vm_compute. intros H. by apply H.
  - exists d'. split; [exact E|]. split; [vm_compute in E; injection E as <-; reflexivity|exact Hc].
Defined.
