(* ===== verification/Chain.v ===== *)
(** * Operations one after the other

    [database::apply_operation] and the loop of [_apply_transaction] (db_block.cpp):
    the evaluator of an operation is chosen by its tag and run.  What one operation
    needs of the chain to conserve value is kept by every other, so a transaction
    of any length keeps the books balanced. *)
From S2P Require Import Prelude Safe Asset Objects Pricing Database Ledger Vesting Balance Evaluator Sample Referral GameZone Exchange Financial Transfer Market Fills Margin Settle Book MarketOps Poc GreatRace Withdraw Votes.

(** ** What most operations leave alone *)
Definition transfers_pending (d : database) : Prop := map_Forall (λ _ t, t.(at_status) ≠ 2) d.(d_approved_transfers).(objs).
Record quiet (d d' : database) : Prop := {
  q_assets : d'.(d_assets) = d.(d_assets);
  q_bitasset : d'.(d_bitasset_data) = d.(d_bitasset_data);
  q_calls : d'.(d_call_orders) = d.(d_call_orders);
  q_clock : clock d' = clock d;
  q_transfers : transfers_pending d → transfers_pending d' }.
#[export] Instance quiet_preorder : PreOrder quiet.
Proof.
  split; [by split|]. intros d1 d2 d3 [A1 A2 A3 A4 A5] [B1 B2 B3 B4 B5]. split; [congruence..|auto].
Qed.
Lemma quiet_chain d d' : quiet d d' → chain_ok d → chain_ok d'.
Proof.
  intros [A1 A2 A3 A4 A5] [B1 B2 B3 B4 B5 B6]. split.
  - unfold assets_ok. by rewrite A1.
  - by apply A5.
  - unfold funds_ok. by rewrite A2.
  - unfold backed, backing_of. by rewrite A1, A2, A3.
  - unfold modern. by injection A4 as _ ->.
  - unfold linked, link_ok, bitasset_of. by rewrite A1, A2.
Qed.

(** The state a result carries, if it does. *)
Class HasState (A : Type) : Type := state_of : A → option database.
#[export] Instance state_database : HasState database := Some.
#[export] Instance state_pair {A B} `{!HasState A, !HasState B} : HasState (A * B) :=
  λ x, match state_of x.1 with Some d => Some d | None => state_of x.2 end.
#[export] Instance state_none {A} : HasState A | 100 := λ _, None.

Definition stays {A} `{!HasState A} (d : database) (m : result A) : Prop :=
  ∀ a, m = Ok a → match state_of a with Some d' => quiet d d' | None => True end.

Section stays.
Context (d0 : database).

Lemma stays_Ok d : quiet d0 d → stays d0 (Ok d).
Proof using Type. intros H a E. injection E as <-. exact H. Qed.
Lemma stays_pair {A} `{!HasState A} d (x : A) : quiet d0 d → stays d0 (Ok (d, x)).
Proof using Type. intros H a E. injection E as <-. exact H. Qed.
Lemma stays_Err {A} `{!HasState A} e : stays d0 (Err e : result A).
Proof using Type. by intros a H. Qed.
Lemma stays_bind {A B} `{!HasState A, !HasState B} (m : result A) (k : A → result B) :
  stays d0 m → (∀ a, m = Ok a → match state_of a with Some d' => quiet d0 d' | None => True end → stays d0 (k a)) → stays d0 (m ≫= k).
Proof using Type. intros Hm Hk b H. apply bind_Ok in H as (a & Ha & H). exact (Hk a Ha (Hm a Ha) b H). Qed.
Lemma stays_pure {A} (m : result A) : @stays A state_none d0 m.
Proof using Type. by intros a _. Qed.
Lemma stays_step d m : quiet d0 d → (∀ d', m = Ok d' → quiet d d') → stays d0 m.
Proof using Type. intros H Hm d' E. change (quiet d0 d'). etransitivity; [exact H|]. by apply Hm. Qed.
Lemma stays_foldM {A S} `{!HasState S} (f : S → A → result S) l s :
  match state_of s with Some d => quiet d0 d | None => True end →
  (∀ s x, match state_of s with Some d => quiet d0 d | None => True end → stays d0 (f s x)) → stays d0 (foldM f s l).
Proof using Type.
  intros Hs Hf. revert s Hs. induction l as [|x l IH]; intros s Hs; cbn; [intros a E; injection E as <-; exact Hs|].
  apply stays_bind; [by apply Hf|]. intros a _ Ha. by apply IH.
Qed.

Lemma stays_table d d' : quiet d0 d →
  d'.(d_assets) = d.(d_assets) → d'.(d_bitasset_data) = d.(d_bitasset_data) → d'.(d_call_orders) = d.(d_call_orders) →
  clock d' = clock d → d'.(d_approved_transfers) = d.(d_approved_transfers) → quiet d0 d'.
Proof using Type.
  intros [A1 A2 A3 A4 A5] E1 E2 E3 E4 E5. split; [congruence..|]. intros H. unfold transfers_pending. rewrite E5. by apply A5.
Qed.
Lemma stays_frame d d' : quiet d0 d → account_step d d' → quiet d0 d'.
Proof using Type. intros H (m1 & m2 & m3 & ops & ->). by eapply stays_table. Qed.
End stays.

Lemma stays_adjust_balance d0 d acc x : quiet d0 d → stays d0 (adjust_balance d acc x).
Proof. intros H d' E. exact (stays_frame _ _ _ H (accounts (P:=_ = Ok _) E)). Qed.
Lemma stays_debit d0 d acc x : quiet d0 d → stays d0 (debit d acc x).
Proof. intros H d' E. exact (stays_frame _ _ _ H (accounts (P:=_ = Ok _) E)). Qed.
Lemma stays_modify_statistics d0 d o f : quiet d0 d → stays d0 (modify_statistics d o f).
Proof. intros H d' E. exact (stays_frame _ _ _ H (accounts (P:=_ = Ok _) E)). Qed.
Lemma stays_modify_dynamic_data d0 d o f : quiet d0 d → stays d0 (modify_dynamic_data d o f).
Proof. intros H d' E. exact (stays_frame _ _ _ H (accounts (P:=_ = Ok _) E)). Qed.
Lemma stays_modify_account d0 d o f : quiet d0 d → stays d0 (modify_account d o f).
Proof. intros H d' E. apply modify_account_Ok in E as (? & ? & ? & ? & ->). by eapply stays_table. Qed.

(** [solve_stays]: no step of the computation touches what a quiet run leaves alone. *)
Create HintDb stays.
#[export] Hint Resolve stays_adjust_balance stays_debit stays_modify_statistics stays_modify_dynamic_data stays_modify_account : stays.
Ltac quiet_state := solve [assumption | reflexivity | match goal with |- quiet ?d0 _ => eapply (stays_table d0); [eassumption|reflexivity..] end
  | eapply stays_table; [reflexivity|reflexivity..]].
#[export] Hint Extern 5 (quiet _ _) => quiet_state : stays.
Ltac stays_step :=
  first
  [ progress intros
  | match goal with |- context [match ?x with _ => _ end] => is_var x; destruct x end
  | match goal with H : match state_of ?a with _ => _ end |- _ => progress cbn in H end
  | apply stays_Err | apply stays_pure
  | lazymatch goal with |- stays _ (Ok _) => let E := fresh in intros ? E; injection E as <-; cbn; first [exact I|quiet_state] end
  | solve [eauto 3 with stays nocore]
  | refine (stays_bind _ _ _ _ _)
  | match goal with |- stays _ (match ?x with _ => _ end) => destruct x end
  | refine (stays_foldM _ _ _ _ _ _); [cbn; first [exact I|quiet_state]|] ].
Ltac solve_stays := repeat stays_step.

(** ** The parts the operations share *)
Section parts.
Context (d0 : database).
Implicit Types (d : database).

Lemma stays_push d op : quiet d0 d → quiet d0 (push_applied_operation d op).
Proof using Type. intros H. by eapply stays_table. Qed.
#[local] Hint Resolve stays_push : stays.
Lemma stays_add_supply d k z : quiet d0 d → stays d0 (add_supply d k z).
Proof using Type. unfold add_supply. solve_stays. Qed.
Lemma stays_sub_supply d k z : quiet d0 d → stays d0 (sub_supply d k z).
Proof using Type. unfold sub_supply. solve_stays. Qed.
Lemma stays_add_fees d k z : quiet d0 d → stays d0 (add_accumulated_fees d k z).
Proof using Type. unfold add_accumulated_fees. solve_stays. Qed.
#[local] Hint Resolve stays_add_supply stays_sub_supply stays_add_fees : stays.
Lemma stays_lazy_vesting d o amt secs owner rv : quiet d0 d → stays d0 (deposit_lazy_vesting d o amt secs owner rv).
Proof using Type. unfold deposit_lazy_vesting. solve_stays. Qed.
#[local] Hint Resolve stays_lazy_vesting : stays.
Lemma stays_close_credit d acct s : quiet d0 d → stays d0 (close_credit d acct s).
Proof using Type. unfold close_credit. solve_stays. Qed.
#[local] Hint Resolve stays_close_credit : stays.
Lemma stays_repay_credit d acct amt : quiet d0 d → stays d0 (repay_credit d acct amt).
Proof using Type. unfold repay_credit. solve_stays. Qed.
#[local] Hint Resolve stays_repay_credit : stays.
Lemma stays_deposit_cashback d acct amt rv ci : quiet d0 d → stays d0 (deposit_cashback d acct amt rv ci).
Proof using Type. unfold deposit_cashback. solve_stays. Qed.
Lemma stays_deposit_witness_pay d w amt : quiet d0 d → stays d0 (deposit_witness_pay d w amt).
Proof using Type. unfold deposit_witness_pay. solve_stays. Qed.
End parts.

#[export] Hint Resolve stays_push stays_add_supply stays_sub_supply stays_add_fees stays_lazy_vesting stays_close_credit stays_repay_credit
  stays_deposit_cashback stays_deposit_witness_pay : stays.

(** ** The operations that touch none of it *)
Class Quiet (OP : Type) `{!Evaluator OP} : Prop :=
  stays_apply : ∀ d d1 (op : OP), do_evaluate d op = Ok tt → stays d1 (do_apply d1 op).

#[export] Instance create_p2p_adv_quiet : Quiet create_p2p_adv_operation.
Proof. intros d d1 op _. cbn. unfold create_p2p_adv_do_apply. solve_stays. Qed.
#[export] Instance edit_p2p_adv_quiet : Quiet edit_p2p_adv_operation.
Proof. intros d d1 op _. cbn. unfold edit_p2p_adv_do_apply. solve_stays. Qed.
#[export] Instance clear_p2p_adv_black_list_quiet : Quiet clear_p2p_adv_black_list_operation.
Proof. intros d d1 op _. cbn. unfold clear_p2p_adv_black_list_do_apply. solve_stays. Qed.
#[export] Instance remove_from_p2p_adv_black_list_quiet : Quiet remove_from_p2p_adv_black_list_operation.
Proof. intros d d1 op _. cbn. unfold remove_from_p2p_adv_black_list_do_apply. solve_stays. Qed.
#[export] Instance create_p2p_order_quiet : Quiet create_p2p_order_operation.
Proof. intros d d1 op _. cbn. unfold create_p2p_order_do_apply. solve_stays. Qed.
#[export] Instance cancel_p2p_order_quiet : Quiet cancel_p2p_order_operation.
Proof. intros d d1 op _. cbn. unfold cancel_p2p_order_do_apply. solve_stays. Qed.
#[export] Instance call_p2p_order_quiet : Quiet call_p2p_order_operation.
Proof. intros d d1 op _. cbn. unfold call_p2p_order_do_apply. solve_stays. Qed.
#[export] Instance payment_p2p_order_quiet : Quiet payment_p2p_order_operation.
Proof. intros d d1 op _. cbn. unfold payment_p2p_order_do_apply. solve_stays. Qed.
#[export] Instance release_p2p_order_quiet : Quiet release_p2p_order_operation.
Proof. intros d d1 op _. cbn. unfold release_p2p_order_do_apply. solve_stays. Qed.
#[export] Instance open_p2p_dispute_quiet : Quiet open_p2p_dispute_operation.
Proof. intros d d1 op _. cbn. unfold open_p2p_dispute_do_apply. solve_stays. Qed.
#[export] Instance reply_p2p_dispute_quiet : Quiet reply_p2p_dispute_operation.
Proof. intros d d1 op _. cbn. unfold reply_p2p_dispute_do_apply. solve_stays. Qed.
#[export] Instance resolve_p2p_dispute_quiet : Quiet resolve_p2p_dispute_operation.
Proof. intros d d1 op _. cbn. unfold resolve_p2p_dispute_do_apply. solve_stays. Qed.
#[export] Instance credit_system_get_quiet : Quiet credit_system_get_operation.
Proof. intros d d1 op _. cbn. unfold credit_system_get_do_apply. solve_stays. Qed.
#[export] Instance credit_repay_quiet : Quiet credit_repay_operation.
Proof. intros d d1 op _. cbn. unfold credit_repay_do_apply. solve_stays. Qed.
#[export] Instance credit_offer_create_quiet : Quiet credit_offer_create_operation.
Proof. intros d d1 op _. cbn. unfold credit_offer_create_do_apply. solve_stays. Qed.
#[export] Instance credit_offer_cancel_quiet : Quiet credit_offer_cancel_operation.
Proof. intros d d1 op _. cbn. unfold credit_offer_cancel_do_apply. solve_stays. Qed.
#[export] Instance credit_offer_fill_quiet : Quiet credit_offer_fill_operation.
Proof. intros d d1 op _. cbn. unfold credit_offer_fill_do_apply. solve_stays. Qed.
#[export] Instance pledge_offer_give_create_quiet : Quiet pledge_offer_give_create_operation.
Proof. intros d d1 op _. cbn. unfold pledge_offer_give_create_do_apply. solve_stays. Qed.
#[export] Instance pledge_offer_take_create_quiet : Quiet pledge_offer_take_create_operation.
Proof. intros d d1 op _. cbn. unfold pledge_offer_take_create_do_apply. solve_stays. Qed.
#[export] Instance pledge_offer_cancel_quiet : Quiet pledge_offer_cancel_operation.
Proof. intros d d1 op _. cbn. unfold pledge_offer_cancel_do_apply. solve_stays. Qed.
#[export] Instance pledge_offer_fill_quiet : Quiet pledge_offer_fill_operation.
Proof. intros d d1 op _. cbn. unfold pledge_offer_fill_do_apply. solve_stays. Qed.
#[export] Instance pledge_offer_repay_quiet : Quiet pledge_offer_repay_operation.
Proof. intros d d1 op _. cbn. unfold pledge_offer_repay_do_apply. solve_stays. Qed.
#[export] Instance buy_gcwd_quiet : Quiet buy_gcwd_operation.
Proof. intros d d1 op _. cbn. unfold buy_gcwd_do_apply. solve_stays. Qed.
(** Approved transfers are created and disputed before they are settled. *)
Lemma stays_transfers d0 d i :
  quiet d0 d → (transfers_pending d → map_Forall (λ _ t, t.(at_status) ≠ 2) i.(objs)) → quiet d0 (d <| d_approved_transfers := i |>).
Proof. intros [A1 A2 A3 A4 A5] H. split; [exact A1|exact A2|exact A3|exact A4|]. intros H0. by apply H, A5. Qed.
#[export] Instance approved_transfer_create_quiet : Quiet approved_transfer_create_operation.
Proof.
  intros d d1 op _. cbn. unfold approved_transfer_create_do_apply. solve_stays.
  apply stays_Ok, stays_transfers; [assumption|]. intros Hall.
  match goal with H : index_create _ _ = Ok _ |- _ => apply index_create_Ok in H as (-> & _ & ->) end. by apply map_Forall_insert_2.
Qed.
Lemma stays_remove_ato d0 d id : quiet d0 d → stays d0 (remove_ato d id).
Proof.
  unfold remove_ato. solve_stays. apply stays_Ok, stays_transfers; [assumption|]. intros Hall.
  match goal with H : index_remove _ _ = Ok _ |- _ => apply index_remove_Ok in H as (? & _ & ->) end. by apply map_Forall_delete.
Qed.
#[export] Hint Resolve stays_remove_ato : stays.
#[export] Instance approved_transfer_approve_quiet : Quiet approved_transfer_approve_operation.
Proof. intros d d1 op _. cbn. unfold approved_transfer_approve_do_apply. solve_stays. Qed.
#[export] Instance approved_transfer_open_dispute_quiet : Quiet approved_transfer_open_dispute_operation.
Proof.
  intros d d1 op _. cbn. unfold approved_transfer_open_dispute_do_apply. solve_stays. apply stays_Ok, stays_transfers; [reflexivity|]. intros Hall.
  match goal with H : index_modify _ _ _ = Ok _ |- _ => apply index_modify_Ok in H as (? & ? & _ & E & ->) end.
  apply Ok_inj in E as <-. by apply map_Forall_insert_2.
Qed.
#[export] Instance approved_transfer_resolve_dispute_quiet : Quiet approved_transfer_resolve_dispute_operation.
Proof. intros d d1 op _. cbn. unfold approved_transfer_resolve_dispute_do_apply. solve_stays. Qed.
#[export] Instance mass_payment_quiet : Quiet mass_payment_operation.
Proof. intros d d1 op _. cbn. unfold mass_payment_do_apply. solve_stays. Qed.
#[export] Instance flipcoin_bet_quiet : Quiet flipcoin_bet_operation.
Proof. intros d d1 op _. cbn. unfold flipcoin_bet_do_apply. solve_stays. Qed.
#[export] Instance flipcoin_call_quiet : Quiet flipcoin_call_operation.
Proof. intros d d1 op _. cbn. unfold flipcoin_call_do_apply. solve_stays. Qed.
#[export] Instance lottery_goods_create_lot_quiet : Quiet lottery_goods_create_lot_operation.
Proof. intros d d1 op _. cbn. unfold lottery_goods_create_lot_do_apply. solve_stays. Qed.
#[export] Instance lottery_goods_buy_ticket_quiet : Quiet lottery_goods_buy_ticket_operation.
Proof. intros d d1 op _. cbn. unfold lottery_goods_buy_ticket_do_apply. solve_stays. Qed.
#[export] Instance lottery_goods_send_contacts_quiet : Quiet lottery_goods_send_contacts_operation.
Proof. intros d d1 op _. cbn. unfold lottery_goods_send_contacts_do_apply. solve_stays. Qed.
#[export] Instance lottery_goods_confirm_delivery_quiet : Quiet lottery_goods_confirm_delivery_operation.
Proof. intros d d1 op _. cbn. unfold lottery_goods_confirm_delivery_do_apply. solve_stays. Qed.
#[export] Instance transfer_quiet : Quiet transfer_operation.
Proof. intros d d1 op _. cbn. unfold transfer_do_apply. solve_stays. Qed.
#[export] Instance override_transfer_quiet : Quiet override_transfer_operation.
Proof. intros d d1 op _. cbn. unfold override_transfer_do_apply. solve_stays. Qed.
#[export] Instance vesting_balance_create_quiet : Quiet vesting_balance_create_operation.
Proof. intros d d1 op _. cbn. unfold vesting_balance_create_do_apply. solve_stays. Qed.
#[export] Instance vesting_balance_withdraw_quiet : Quiet vesting_balance_withdraw_operation.
Proof. intros d d1 op _. cbn. unfold vesting_balance_withdraw_do_apply. solve_stays. Qed.

(** *** Staking and votes *)
Section staking.
Context (d0 : database).
Implicit Types (d : database).

Lemma stays_reward_after_credit d ref r : quiet d0 d → stays d0 (reward_after_credit d ref r).
Proof using Type. unfold reward_after_credit. solve_stays. Qed.
Lemma stays_gr_reward d ref r t : quiet d0 d → stays d0 (gr_reward d ref r t).
Proof using Type. unfold gr_reward. solve_stays. Qed.
#[local] Hint Resolve stays_reward_after_credit stays_gr_reward : stays.
Lemma stays_pay_staking_reward d a ref stake level p : quiet d0 d → stays d0 (pay_staking_reward d a ref stake level p).
Proof using Type. unfold pay_staking_reward. solve_stays. Qed.
#[local] Hint Resolve stays_pay_staking_reward : stays.
Lemma stays_lock_stake d o b t n : quiet d0 d → stays d0 (lock_stake d o b t n).
Proof using Type. unfold lock_stake. solve_stays. Qed.
#[local] Hint Resolve stays_lock_stake : stays.
Lemma stays_lock_staking d op : quiet d0 d → stays d0 (lock_staking d op).
Proof using Type. unfold lock_staking. solve_stays. Qed.
Lemma stays_pay_staking_line op line level seen d z : quiet d0 d → stays d0 (pay_staking_line op line level seen d z).
Proof using Type.
  revert level seen d z. induction line as [|ref line IH]; intros level seen d z H; cbn [pay_staking_line]; [by apply stays_pair|].
  destruct (_ && _); [|by apply IH]. refine (stays_bind _ _ _ _ _); [by apply stays_pay_staking_reward|].
  intros [d1 r] _ H1. refine (stays_bind _ _ _ _ _); [apply stays_pure|]. intros z' _ _. by apply IH.
Qed.
Lemma stays_pay_apostolos d stake z : quiet d0 d → stays d0 (pay_apostolos d stake z).
Proof using Type. unfold pay_apostolos. solve_stays. Qed.
End staking.
#[export] Hint Resolve stays_gr_reward stays_lock_staking stays_pay_staking_line stays_pay_apostolos : stays.
#[export] Instance poc_vote_quiet : Quiet poc_vote_operation.
Proof. intros d d1 op _. cbn. unfold poc_vote_do_apply. solve_stays. Qed.
#[export] Instance poc_stak_quiet : Quiet poc_stak_operation.
Proof. intros d d1 op _. cbn. unfold poc_stak_do_apply. solve_stays. Qed.

(** *** Silver, referrals and the matrix *)
#[export] Instance exchange_silver_quiet : Quiet exchange_silver_operation.
Proof. intros d d1 op _. cbn. unfold exchange_silver_do_apply. solve_stays. Qed.

#[export] Instance state_payout : HasState payout := λ st, Some st.(po_db).

Section referral.
Context (d0 : database).
Implicit Types (d : database).

Lemma stays_update_pv d a v : quiet d0 d → stays d0 (update_pv d a v).
Proof using Type. unfold update_pv. solve_stays. Qed.
Lemma stays_count_nv d a v : quiet d0 d → stays d0 (count_nv d a v).
Proof using Type. unfold count_nv. solve_stays. Qed.
#[local] Hint Resolve stays_count_nv : stays.
Lemma stays_update_nv fuel d a v level m paid : quiet d0 d → stays d0 (update_nv fuel d a v level m paid).
Proof using Type.
  revert d a level m paid. induction fuel as [|fuel IH]; intros d a level m paid H; cbn [update_nv]; [apply stays_Err|].
  solve_stays.
Qed.
Lemma stays_pay_reward d ref cut rv : quiet d0 d → stays d0 (pay_reward d ref cut rv).
Proof using Type. unfold pay_reward. solve_stays. Qed.
#[local] Hint Resolve stays_pay_reward : stays.
Lemma stays_pay_ref F rv n ref st : quiet d0 st.(po_db) → stays d0 (pay_ref F rv n ref st).
Proof using Type. intros H. unfold pay_ref. solve_stays. Qed.
Lemma stays_pay_refs F rv levels prev ref st : quiet d0 st.(po_db) → stays d0 (pay_refs F rv levels prev ref st).
Proof using Type.
  revert prev ref st. induction levels as [|n levels IH]; intros prev ref st H; cbn [pay_refs]; [intros a E; injection E as <-; exact H|].
  destruct (_ && _); [|intros a E; injection E as <-; exact H]. refine (stays_bind _ _ _ _ _); [by apply stays_pay_ref|].
  intros st' _ H'. cbn in H'. destruct levels; [intros a E; injection E as <-; exact H'|].
  do 2 (refine (stays_bind _ _ _ _ _); [apply stays_pure|intros ? _ _]). by apply IH.
Qed.
Lemma stays_pay_out_fees d a F rv : quiet d0 d → stays d0 (pay_out_fees d a F rv).
Proof using Type.
  intros H. unfold pay_out_fees. do 3 (refine (stays_bind _ _ _ _ _); [apply stays_pure|intros ? _ _]).
  refine (stays_bind _ _ _ _ _); [by apply stays_pay_refs|]. intros st _ H'. by apply stays_add_fees.
Qed.
#[local] Hint Resolve stays_pay_out_fees : stays.
Lemma stays_process_fees d a : quiet d0 d → stays d0 (process_fees d a).
Proof using Type. unfold process_fees. solve_stays. Qed.
End referral.
#[export] Hint Resolve stays_update_pv stays_update_nv stays_process_fees : stays.
#[export] Instance change_referrer_quiet : Quiet change_referrer_operation.
Proof. intros d d1 op _. cbn. unfold change_referrer_do_apply. solve_stays. Qed.
#[export] Instance account_status_upgrade_quiet : Quiet account_status_upgrade_operation.
Proof. intros d d1 op _. cbn. unfold account_status_upgrade_do_apply. solve_stays. Qed.

Section matrix.
Context (d0 : database).
Implicit Types (d : database).
Lemma stays_modify_matrix d id f : quiet d0 d → stays d0 (modify_matrix d id f).
Proof using Type. unfold modify_matrix. solve_stays. Qed.
#[local] Hint Resolve stays_modify_matrix : stays.
Lemma stays_enter_matrix d op : quiet d0 d → stays d0 (enter_matrix d op).
Proof using Type. unfold enter_matrix. solve_stays. Qed.
Lemma stays_open_referrer_cells d op ref : quiet d0 d → stays d0 (open_referrer_cells d op ref).
Proof using Type. unfold open_referrer_cells, open_rooms_of. solve_stays. Qed.
Lemma stays_close_room d op room winner : quiet d0 d → stays d0 (close_room d op room winner).
Proof using Type. unfold close_room. solve_stays. Qed.
#[local] Hint Resolve stays_close_room : stays.
Lemma stays_fill_room d op room : quiet d0 d → stays d0 (fill_room d op room).
Proof using Type. unfold fill_room. solve_stays. Qed.
Lemma stays_open_room d op : quiet d0 d → stays d0 (open_room d op).
Proof using Type. unfold open_room. solve_stays. Qed.
End matrix.
#[export] Hint Resolve stays_modify_matrix stays_enter_matrix stays_open_referrer_cells stays_fill_room stays_open_room : stays.
#[export] Instance matrix_open_room_quiet : Quiet matrix_open_room_operation.
Proof. intros d d1 op _. cbn. unfold matrix_open_room_do_apply. solve_stays. Qed.

(** *** The great race *)
Section great_race.
Context (d0 : database).
Implicit Types (d : database).
Lemma stays_modify_team d id f : quiet d0 d → stays d0 (modify_team d id f).
Proof using Type. unfold modify_team. solve_stays. Qed.
Lemma stays_set_team d acct t : quiet d0 d → stays d0 (set_team d acct t).
Proof using Type. unfold set_team. solve_stays. Qed.
#[local] Hint Resolve stays_modify_team stays_set_team : stays.
Lemma stays_drop_member d player t : quiet d0 d → stays d0 (drop_member d player t).
Proof using Type. unfold drop_member. solve_stays. Qed.
End great_race.
#[export] Hint Resolve stays_modify_team stays_set_team stays_drop_member : stays.
#[export] Instance gr_team_create_quiet : Quiet gr_team_create_operation.
Proof. intros d d1 op _. cbn. unfold gr_team_create_do_apply. solve_stays. Qed.
#[export] Instance gr_team_delete_quiet : Quiet gr_team_delete_operation.
Proof. intros d d1 op _. cbn. unfold gr_team_delete_do_apply. solve_stays. Qed.
#[export] Instance gr_invite_send_quiet : Quiet gr_invite_send_operation.
Proof. intros d d1 op _. cbn. unfold gr_invite_send_do_apply. solve_stays. Qed.
#[export] Instance gr_invite_accept_quiet : Quiet gr_invite_accept_operation.
Proof. intros d d1 op _. cbn. unfold gr_invite_accept_do_apply. solve_stays. Qed.
#[export] Instance gr_player_remove_quiet : Quiet gr_player_remove_operation.
Proof. intros d d1 op _. cbn. unfold gr_player_remove_do_apply. solve_stays. Qed.
#[export] Instance gr_team_leave_quiet : Quiet gr_team_leave_operation.
Proof. intros d d1 op _. cbn. unfold gr_team_leave_do_apply. solve_stays. Qed.
#[export] Instance gr_vote_quiet : Quiet gr_vote_operation.
Proof. intros d d1 op _. cbn. unfold gr_vote_do_apply. solve_stays. Qed.
#[export] Instance gr_range_bet_quiet : Quiet gr_range_bet_operation.
Proof. intros d d1 op _. cbn. unfold gr_range_bet_do_apply. solve_stays. Qed.
#[export] Instance gr_team_bet_quiet : Quiet gr_team_bet_operation.
Proof. intros d d1 op _. cbn. unfold gr_team_bet_do_apply. solve_stays. Qed.

(** *** Withdraw permissions *)
#[export] Instance withdraw_permission_create_quiet : Quiet withdraw_permission_create_operation.
Proof. intros d d1 op _. cbn. unfold withdraw_permission_create_do_apply. solve_stays. Qed.
#[export] Instance withdraw_permission_claim_quiet : Quiet withdraw_permission_claim_operation.
Proof. intros d d1 op _. cbn. unfold withdraw_permission_claim_do_apply. solve_stays. Qed.
#[export] Instance withdraw_permission_update_quiet : Quiet withdraw_permission_update_operation.
Proof. intros d d1 op _. cbn. unfold withdraw_permission_update_do_apply. solve_stays. Qed.
#[export] Instance withdraw_permission_delete_quiet : Quiet withdraw_permission_delete_operation.
Proof. intros d d1 op _. cbn. unfold withdraw_permission_delete_do_apply, remove_permission. solve_stays. Qed.

(** ** The creation of candidates *)
Lemma quiet_next_vote_id d0 d type : quiet d0 d → quiet d0 (get_next_vote_id d type).1.
Proof. intros H. by eapply stays_table. Qed.
#[export] Instance witness_create_quiet : Quiet witness_create_operation.
Proof.
  intros d d1 op _. change (stays d1 (witness_create_do_apply d1 op)). unfold witness_create_do_apply.
  pose proof (quiet_next_vote_id d1 d1 vote_witness (reflexivity _)) as Q. destruct (get_next_vote_id d1 vote_witness). solve_stays.
Qed.
#[export] Instance committee_member_create_quiet : Quiet committee_member_create_operation.
Proof.
  intros d d1 op _. change (stays d1 (committee_member_create_do_apply d1 op)). unfold committee_member_create_do_apply.
  pose proof (quiet_next_vote_id d1 d1 vote_committee (reflexivity _)) as Q. destruct (get_next_vote_id d1 vote_committee). solve_stays.
Qed.
#[export] Instance worker_create_quiet : Quiet worker_create_operation.
Proof.
  intros d d1 op _. change (stays d1 (worker_create_do_apply d1 op)). unfold worker_create_do_apply, init_worker.
  pose proof (quiet_next_vote_id d1 d1 vote_worker (reflexivity _)) as Q1. destruct (get_next_vote_id d1 vote_worker) as [d2 ?].
  pose proof (quiet_next_vote_id d1 d2 vote_worker Q1) as Q2. destruct (get_next_vote_id d2 vote_worker). solve_stays.
Qed.

(** ** From one operation to the next *)
#[export] Instance quiet_steady {OP} `{!Evaluator OP, !Quiet OP} : Steady OP.
Proof.
  intros d d1 op d' Hd Hst _ Heval H. pose proof (stays_apply d d1 op Heval d' H) as Q. cbn in Q.
  split; [exact (quiet_chain _ _ Q (fee_chain_ok _ _ Hst Hd))|apply Q].
Qed.

Lemma step_clock d d0 d' : clock d = clock d0 → account_step d d' → chain_ok d → chain_ok d' ∧ clock d' = clock d0.
Proof. intros E H. apply chain_clock_market; [done|]. by apply market_of_step. Qed.
Lemma fee_clock d d1 : same_but_fees d d1 → clock d1 = clock d.
Proof. by intros (m1 & m2 & -> & _). Qed.

Lemma start_evaluate_steady {OP} `{!Evaluator OP, !Steady OP} st req d op d' :
  skip_fee st = false → chain_ok d → start_evaluate st req d op = Ok d' → chain_ok d' ∧ clock d' = clock d.
Proof.
  intros Hst Hd H. apply start_evaluate_Ok in H as (d2 & d3 & _ & S2 & Hval & Heval & H3 & H4); [|done|by apply co_assets].
  destruct (steady _ _ _ _ Hd S2 Hval Heval H3) as [Hd3 E3].
  apply (step_clock _ d _ (eq_trans E3 (fee_clock _ _ S2)) (accounts (P:=_ = Ok _) H4) Hd3).
Qed.

(** A new order, whatever the book it meets. *)
Lemma limit_order_create_chain {fs : FeeSchedule} st req d op d' :
  skip_fee st = false → chain_ok d → limit_order_create_start_evaluate st req d op = Ok d' →
  conserves d d' ∧ chain_ok d' ∧ clock d' = clock d.
Proof.
  intros Hst Hd H. unfold limit_order_create_start_evaluate, evaluate, limit_order_create_apply in H.
  apply bind_Ok in H as ([] & _ & H). apply bind_Ok in H as (c & He & H).
  apply bind_Ok in He as (c' & Hp & He). apply bind_Ok in He as (? & _ & He). apply bind_Ok in He as ([] & _ & [= ->]).
  apply bind_Ok in H as (d1 & H1 & H). apply bind_Ok in H as ([[d2 fee] paid] & H2 & H). apply bind_Ok in H as (d3 & H3 & H4).
  apply prepare_fee_nonneg in Hp as (P1 & P2 & P3).
  destruct (deferred_spec _ _ _ _ _ _ _ _ _ (co_assets _ Hd) Hst P1 P2 P3 H1 H2) as (A & Q1 & Q2 & F2).
  destruct (step_clock _ d _ eq_refl A Hd) as [Hd2 E2].
  destruct (limit_order_placed _ _ _ _ _ (co_modern _ Hd2) Q1 Q2 H3) as (d2' & filled & A2 & F3 & _ & H5 & _).
  set (d2'' := d2' <| d_limit_orders := _ |>) in *.
  assert (chain_ok d2'' ∧ clock d2'' = clock d) as [Hd3 E3].
  { destruct (step_clock _ d _ E2 A2 Hd2) as [[B1 B2 B3 B4 B5] E]. split; [by split|exact E]. }
  pose proof (apply_order_traded _ _ _ _ _ Hd3 H5) as T. destruct (traded_clock _ d _ E3 T Hd3) as [Hd4 E4].
  split; [|apply (step_clock _ d _ E4 (accounts (P:=_ = Ok _) H4) Hd4)].
  apply flows in H4. pose proof (td_conserves _ _ T) as F4. unfold conserves in *.
  eapply flow_ext; [exact (flow_trans _ _ _ _ _ F2 (flow_trans _ _ _ _ _ F3 (flow_trans _ _ _ _ _ F4 H4)))|]. intros a. cbn. lia.
Qed.
