(* ===== verification/Transaction.v ===== *)
(** * Transactions

    [database::apply_operation] and [_apply_transaction] (db_block.cpp): the
    evaluator of an operation is chosen by its tag, a transaction is checked
    against its expiration, its reference block, its signatures and the
    transactions already there, and its operations are applied in order.
    [clear_expired_transactions] (db_update.cpp) forgets the transactions that can
    no longer be repeated. *)
From stdpp Require Import sorting.
From S2P Require Import Prelude Safe Asset Authority Objects Pricing Database Ledger Vesting Balance Evaluator Sample Referral GameZone Exchange Financial Transfer Market Fills Margin Settle Book Feeds MarketOps AssetOps Poc GreatRace Withdraw Votes Cursor Chain.

(** ** Operations

    The variants of [operation] whose evaluators are modelled, under the names of their types. *)
Inductive operation : Type :=
  | op_limit_order_create (o : limit_order_create_operation)
  | op_transfer (o : transfer_operation)
  | op_limit_order_cancel (o : limit_order_cancel_operation)
  | op_call_order_update (o : call_order_update_operation)
  | op_asset_update (o : asset_update_operation)
  | op_asset_update_feed_producers (o : asset_update_feed_producers_operation)
  | op_asset_issue (o : asset_issue_operation)
  | op_asset_reserve (o : asset_reserve_operation)
  | op_asset_fund_fee_pool (o : asset_fund_fee_pool_operation)
  | op_asset_settle (o : asset_settle_operation)
  | op_asset_global_settle (o : asset_global_settle_operation)
  | op_asset_publish_feed (o : asset_publish_feed_operation)
  | op_asset_claim_fees (o : asset_claim_fees_operation)
  | op_asset_claim_pool (o : asset_claim_pool_operation)
  | op_asset_update_issuer (o : asset_update_issuer_operation)
  | op_withdraw_permission_create (o : withdraw_permission_create_operation)
  | op_withdraw_permission_claim (o : withdraw_permission_claim_operation)
  | op_withdraw_permission_update (o : withdraw_permission_update_operation)
  | op_withdraw_permission_delete (o : withdraw_permission_delete_operation)
  | op_witness_create (o : witness_create_operation)
  | op_committee_member_create (o : committee_member_create_operation)
  | op_worker_create (o : worker_create_operation)
  | op_vesting_balance_create (o : vesting_balance_create_operation)
  | op_vesting_balance_withdraw (o : vesting_balance_withdraw_operation)
  | op_override_transfer (o : override_transfer_operation)
  | op_bid_collateral (o : bid_collateral_operation)
  | op_account_status_upgrade (o : account_status_upgrade_operation)
  | op_flipcoin_bet (o : flipcoin_bet_operation)
  | op_flipcoin_call (o : flipcoin_call_operation)
  | op_lottery_goods_create_lot (o : lottery_goods_create_lot_operation)
  | op_lottery_goods_buy_ticket (o : lottery_goods_buy_ticket_operation)
  | op_lottery_goods_send_contacts (o : lottery_goods_send_contacts_operation)
  | op_lottery_goods_confirm_delivery (o : lottery_goods_confirm_delivery_operation)
  | op_matrix_open_room (o : matrix_open_room_operation)
  | op_create_p2p_adv (o : create_p2p_adv_operation)
  | op_edit_p2p_adv (o : edit_p2p_adv_operation)
  | op_clear_p2p_adv_black_list (o : clear_p2p_adv_black_list_operation)
  | op_remove_from_p2p_adv_black_list (o : remove_from_p2p_adv_black_list_operation)
  | op_create_p2p_order (o : create_p2p_order_operation)
  | op_cancel_p2p_order (o : cancel_p2p_order_operation)
  | op_call_p2p_order (o : call_p2p_order_operation)
  | op_payment_p2p_order (o : payment_p2p_order_operation)
  | op_release_p2p_order (o : release_p2p_order_operation)
  | op_open_p2p_dispute (o : open_p2p_dispute_operation)
  | op_reply_p2p_dispute (o : reply_p2p_dispute_operation)
  | op_resolve_p2p_dispute (o : resolve_p2p_dispute_operation)
  | op_credit_system_get (o : credit_system_get_operation)
  | op_credit_repay (o : credit_repay_operation)
  | op_credit_offer_create (o : credit_offer_create_operation)
  | op_credit_offer_cancel (o : credit_offer_cancel_operation)
  | op_credit_offer_fill (o : credit_offer_fill_operation)
  | op_pledge_offer_give_create (o : pledge_offer_give_create_operation)
  | op_pledge_offer_take_create (o : pledge_offer_take_create_operation)
  | op_pledge_offer_cancel (o : pledge_offer_cancel_operation)
  | op_pledge_offer_fill (o : pledge_offer_fill_operation)
  | op_pledge_offer_repay (o : pledge_offer_repay_operation)
  | op_poc_vote (o : poc_vote_operation)
  | op_poc_stak (o : poc_stak_operation)
  | op_gr_team_create (o : gr_team_create_operation)
  | op_gr_team_delete (o : gr_team_delete_operation)
  | op_gr_invite_send (o : gr_invite_send_operation)
  | op_gr_invite_accept (o : gr_invite_accept_operation)
  | op_gr_player_remove (o : gr_player_remove_operation)
  | op_gr_team_leave (o : gr_team_leave_operation)
  | op_gr_vote (o : gr_vote_operation)
  | op_gr_range_bet (o : gr_range_bet_operation)
  | op_gr_team_bet (o : gr_team_bet_operation)
  | op_exchange_silver (o : exchange_silver_operation)
  | op_buy_gcwd (o : buy_gcwd_operation)
  | op_approved_transfer_create (o : approved_transfer_create_operation)
  | op_approved_transfer_approve (o : approved_transfer_approve_operation)
  | op_approved_transfer_open_dispute (o : approved_transfer_open_dispute_operation)
  | op_approved_transfer_resolve_dispute (o : approved_transfer_resolve_dispute_operation)
  | op_mass_payment (o : mass_payment_operation)
  | op_change_referrer (o : change_referrer_operation).

Section operations.
Context {fs : FeeSchedule} {nth : NthElement}.

(** [P] of the operation inside the variant, with the evaluator of its type. *)
Definition visit {A : Type} (P : ∀ OP, Evaluator OP → OP → A) (op : operation) : A :=
  match op with
  | op_limit_order_create o => P _ _ o
  | op_transfer o => P _ _ o
  | op_limit_order_cancel o => P _ _ o
  | op_call_order_update o => P _ _ o
  | op_asset_update o => P _ _ o
  | op_asset_update_feed_producers o => P _ _ o
  | op_asset_issue o => P _ _ o
  | op_asset_reserve o => P _ _ o
  | op_asset_fund_fee_pool o => P _ _ o
  | op_asset_settle o => P _ _ o
  | op_asset_global_settle o => P _ _ o
  | op_asset_publish_feed o => P _ _ o
  | op_asset_claim_fees o => P _ _ o
  | op_asset_claim_pool o => P _ _ o
  | op_asset_update_issuer o => P _ _ o
  | op_withdraw_permission_create o => P _ _ o
  | op_withdraw_permission_claim o => P _ _ o
  | op_withdraw_permission_update o => P _ _ o
  | op_withdraw_permission_delete o => P _ _ o
  | op_witness_create o => P _ _ o
  | op_committee_member_create o => P _ _ o
  | op_worker_create o => P _ _ o
  | op_vesting_balance_create o => P _ _ o
  | op_vesting_balance_withdraw o => P _ _ o
  | op_override_transfer o => P _ _ o
  | op_bid_collateral o => P _ _ o
  | op_account_status_upgrade o => P _ _ o
  | op_flipcoin_bet o => P _ _ o
  | op_flipcoin_call o => P _ _ o
  | op_lottery_goods_create_lot o => P _ _ o
  | op_lottery_goods_buy_ticket o => P _ _ o
  | op_lottery_goods_send_contacts o => P _ _ o
  | op_lottery_goods_confirm_delivery o => P _ _ o
  | op_matrix_open_room o => P _ _ o
  | op_create_p2p_adv o => P _ _ o
  | op_edit_p2p_adv o => P _ _ o
  | op_clear_p2p_adv_black_list o => P _ _ o
  | op_remove_from_p2p_adv_black_list o => P _ _ o
  | op_create_p2p_order o => P _ _ o
  | op_cancel_p2p_order o => P _ _ o
  | op_call_p2p_order o => P _ _ o
  | op_payment_p2p_order o => P _ _ o
  | op_release_p2p_order o => P _ _ o
  | op_open_p2p_dispute o => P _ _ o
  | op_reply_p2p_dispute o => P _ _ o
  | op_resolve_p2p_dispute o => P _ _ o
  | op_credit_system_get o => P _ _ o
  | op_credit_repay o => P _ _ o
  | op_credit_offer_create o => P _ _ o
  | op_credit_offer_cancel o => P _ _ o
  | op_credit_offer_fill o => P _ _ o
  | op_pledge_offer_give_create o => P _ _ o
  | op_pledge_offer_take_create o => P _ _ o
  | op_pledge_offer_cancel o => P _ _ o
  | op_pledge_offer_fill o => P _ _ o
  | op_pledge_offer_repay o => P _ _ o
  | op_poc_vote o => P _ _ o
  | op_poc_stak o => P _ _ o
  | op_gr_team_create o => P _ _ o
  | op_gr_team_delete o => P _ _ o
  | op_gr_invite_send o => P _ _ o
  | op_gr_invite_accept o => P _ _ o
  | op_gr_player_remove o => P _ _ o
  | op_gr_team_leave o => P _ _ o
  | op_gr_vote o => P _ _ o
  | op_gr_range_bet o => P _ _ o
  | op_gr_team_bet o => P _ _ o
  | op_exchange_silver o => P _ _ o
  | op_buy_gcwd o => P _ _ o
  | op_approved_transfer_create o => P _ _ o
  | op_approved_transfer_approve o => P _ _ o
  | op_approved_transfer_open_dispute o => P _ _ o
  | op_approved_transfer_resolve_dispute o => P _ _ o
  | op_mass_payment o => P _ _ o
  | op_change_referrer o => P _ _ o
  end.

(** [operation_validate] and [operation_get_required_authorities]: none of these
    operations asks for more than the active authority of who pays its fee, but for a
    new issuer of an asset the owner authority is needed too. *)
Definition operation_validate (op : operation) : result unit := visit (λ OP ev o, validate o) op.
Definition operation_get_required_authorities (op : operation) : required_authorities :=
  Required {[visit (λ OP ev o, fee_payer o) op]}
    match op with op_asset_update_issuer o => {[o.(aui_issuer)]} | _ => ∅ end [].

Definition apply_operation (calculate_fee : database → operation → Z) (st : transaction_evaluation_state) (d : database) (op : operation) :
    result database :=
  match op with
  | op_limit_order_create o => limit_order_create_start_evaluate st (calculate_fee d op) d o
  | _ => visit (λ OP ev o, start_evaluate st (calculate_fee d op) d o) op
  end.

(** ** What an operation keeps *)

(** The operations that bring new value into the books, or lose some of it by
    rounding: a paid status and a change of referrer distribute fees, the exchange of
    silver mints, a flipcoin may be called with another asset, a room may be opened in
    a matrix that is over. *)
Definition books_neutral (op : operation) : bool :=
  match op with
  | op_account_status_upgrade _ | op_flipcoin_call _ | op_matrix_open_room _ | op_exchange_silver _ | op_change_referrer _ => false
  | _ => true
  end.

Lemma visit_steady calculate_fee st d op d' :
  skip_fee st = false → chain_ok d → apply_operation calculate_fee st d op = Ok d' → chain_ok d' ∧ clock d' = clock d.
Proof.
  intros Hst Hd H. destruct op; cbn [apply_operation visit] in H; [by apply (limit_order_create_chain _ _ _ _ _ Hst Hd) in H as [_ H]|..];
    exact (start_evaluate_steady st _ d o d' Hst Hd H).
Qed.
Lemma visit_conserving calculate_fee st d op d' :
  skip_fee st = false → chain_ok d → books_neutral op = true → apply_operation calculate_fee st d op = Ok d' → conserves d d'.
Proof.
  intros Hst Hd Hn H. destruct op; cbn [apply_operation visit] in H; [by apply (limit_order_create_chain _ _ _ _ _ Hst Hd) in H as [H _]|..];
    first [discriminate Hn|exact (start_evaluate_flow st _ d o d' Hst Hd H)].
Qed.
End operations.

(** ** Transactions *)
Record transaction : Type := Trx {
  ref_block_num : Z;
  ref_block_prefix : Z;
  trx_expiration : Z;
  operations : list operation;
  signatures : list Z }.

(** The database, the index of transactions by their identifier ([transaction_index]), and
    the second word of the block identifiers that [block_summary_object] keeps. *)
Record chain_state : Type := ChainState {
  cs_db : database;
  cs_transactions : gmap Z transaction;
  cs_summaries : gmap Z Z }.
#[export] Instance eta_chain_state : Eta chain_state := λ x, ChainState x.(cs_db) x.(cs_transactions) x.(cs_summaries).

Record skip_flags : Type := SkipFlags {
  skip_transaction_dupe_check : bool;
  skip_transaction_signatures : bool;
  skip_tapos_check : bool }.

(** What the code calls but does not define: the hash of a transaction without its
    signatures, the key a signature was made with, the addresses of a key, the fee
    schedule. *)
Record environment : Type := Environment {
  env_id : transaction → Z;
  env_key : transaction → Z → Z;
  env_addresses : Z → list Z;
  env_fee : database → operation → Z }.

Section transactions.
Context {fs : FeeSchedule} {nth : NthElement} (env : environment).

Definition transaction_validate (trx : transaction) : result unit :=
  _ ← FC_ASSERT (0 <? Z.of_nat (length trx.(operations)));
  foldM (λ _ op, operation_validate op) tt trx.(operations).

(** [signed_transaction::get_signature_keys] *)
Definition get_signature_keys (trx : transaction) : result (gset Z) :=
  foldM (λ keys sig,
    let k := env.(env_key) trx sig in
    _ ← GRAPHENE_ASSERT (bool_decide (k ∉ keys)) tx_duplicate_sig; Ok ({[k]} ∪ keys)) ∅ trx.(signatures).

Definition trx_verify_authority (d : database) (trx : transaction) : result unit :=
  keys ← get_signature_keys trx;
  verify_authority env.(env_addresses) (λ id, a ← get_account d id; Ok (Some a.(acc_active)))
    (λ id, a ← get_account d id; Ok (Some a.(acc_owner))) operation_get_required_authorities trx.(operations) keys
    (Z.to_nat (parameters d).(cp_max_authority_depth)) false ∅ ∅.

(** The expiration and the reference block, from the second block on. *)
Definition check_expiration (skip : skip_flags) (c : chain_state) (trx : transaction) : result unit :=
  if 0 <? head_block_num c.(cs_db) then
    _ ← (if skip.(skip_tapos_check) then Ok tt
         else
           prefix ← from_option_exn assert_exception (c.(cs_summaries) !! trx.(ref_block_num));
           FC_ASSERT (trx.(ref_block_prefix) =? prefix));
    let now := head_block_time c.(cs_db) in
    _ ← FC_ASSERT (trx.(trx_expiration) <=? time_add now (parameters c.(cs_db)).(cp_maximum_time_until_expiration));
    FC_ASSERT (now <=? trx.(trx_expiration))
  else Ok tt.

Definition apply_operations (d : database) (ops : list operation) : result database :=
  foldM (apply_operation env.(env_fee) (EvaluationState false false)) d ops.

(** [_apply_transaction]; the index of transactions is unique by [trx_id]. *)
Definition _apply_transaction (skip : skip_flags) (c : chain_state) (trx : transaction) : result chain_state :=
  _ ← transaction_validate trx;
  let id := env.(env_id) trx in
  _ ← (if skip.(skip_transaction_dupe_check) then Ok tt else FC_ASSERT (bool_decide (c.(cs_transactions) !! id = None)));
  _ ← (if skip.(skip_transaction_signatures) then Ok tt else trx_verify_authority c.(cs_db) trx);
  _ ← check_expiration skip c trx;
  let c1 := if skip.(skip_transaction_dupe_check) then c else c <| cs_transactions ::= insert id trx |> in
  d ← apply_operations c1.(cs_db) trx.(operations);
  Ok (c1 <| cs_db := d |>).

(** ** clear_expired_transactions *)
Definition without_transaction (c : chain_state) (id : Z) : chain_state := c <| cs_transactions ::= delete id |>.
Fixpoint clear_expired (fuel : nat) (c : chain_state) : chain_state :=
  match fuel, least trx_expiration (λ _, true) c.(cs_transactions) with
  | S fuel, Some (expiration, id) =>
      if expiration <? head_block_time c.(cs_db) then clear_expired fuel (without_transaction c id) else c
  | _, _ => c
  end.
Definition clear_expired_transactions (c : chain_state) : chain_state := clear_expired (size c.(cs_transactions)) c.

(** [create_block_summary]: the slot of the block's number, of 2^16, gets the second word of its identifier. *)
Definition create_block_summary (c : chain_state) (block_num hash1 : Z) : result chain_state :=
  let sid := Z.land block_num 65535 in
  _ ← from_option_exn assert_exception (c.(cs_summaries) !! sid);
  Ok (c <| cs_summaries ::= insert sid hash1 |>).
End transactions.

(** ** Lemmas *)
Section soundness.
Context {fs : FeeSchedule} {nth : NthElement} (env : environment).

Lemma apply_operations_steady ops d d' : chain_ok d → apply_operations env d ops = Ok d' → chain_ok d' ∧ clock d' = clock d.
Proof.
  intros Hd H. apply (foldM_inv _ (λ x, chain_ok x ∧ clock x = clock d)) in H; [done| |done].
  intros x op x' [Hx Ex] H1. apply visit_steady in H1 as [Hx' Ex']; [|done|done]. split; [done|congruence].
Qed.
Lemma apply_operations_conserves ops d d' :
  chain_ok d → Forall (λ op, books_neutral op = true) ops → apply_operations env d ops = Ok d' → conserves d d'.
Proof.
  intros Hd Hall. revert d Hd. induction Hall as [|op ops Hop Hops IH]; intros d Hd H; cbn in H; [injection H as <-; apply flow_refl|].
  apply bind_Ok in H as (d1 & H1 & H). pose proof (visit_conserving _ (EvaluationState false false) _ _ _ eq_refl Hd Hop H1) as F.
  apply visit_steady in H1 as [Hd1 _]; [|done|done]. etransitivity; [exact F|]. by apply IH.
Qed.

Lemma apply_transaction_Ok skip c trx c' : _apply_transaction env skip c trx = Ok c' →
  apply_operations env c.(cs_db) trx.(operations) = Ok c'.(cs_db) ∧ check_expiration skip c trx = Ok tt ∧
  c'.(cs_transactions) = (if skip.(skip_transaction_dupe_check) then c.(cs_transactions) else <[env.(env_id) trx := trx]> c.(cs_transactions)) ∧
  (skip.(skip_transaction_dupe_check) = false → c.(cs_transactions) !! env.(env_id) trx = None).
Proof.
  unfold _apply_transaction. cbv zeta. intros H. apply bind_Ok in H as (? & _ & H). apply bind_Ok in H as (? & Hdup & H). apply bind_Ok in H as (? & _ & H).
  apply bind_Ok in H as ([] & He & H). apply bind_Ok in H as (d & Hd & [= <-]).
  destruct (skip_transaction_dupe_check skip); (split; [exact Hd|split; [exact He|split; [done|]]]); [done|].
  intros _. by apply FC_ASSERT_Ok, bool_decide_eq_true in Hdup.
Qed.
Lemma check_expiration_Ok skip c trx : 0 < head_block_num c.(cs_db) → check_expiration skip c trx = Ok tt → head_block_time c.(cs_db) <= trx.(trx_expiration).
Proof.
  intros Hn H. unfold check_expiration in H. rewrite (proj2 (Z.ltb_lt _ _) Hn) in H. apply bind_Ok in H as (? & _ & H). cbv zeta in H.
  apply bind_Ok in H as (? & _ & H). by apply FC_ASSERT_Ok, Z.leb_le in H.
Qed.

(** The loop removes the expired transactions and no other. *)
Lemma clear_expired_db n c : (clear_expired n c).(cs_db) = c.(cs_db).
Proof.
  revert c. induction n as [|n IH]; intros c; cbn; [done|]. destruct (least _ _ _) as [[e id]|]; [|done]. destruct (_ <? _); [|done]. by rewrite IH.
Qed.
Lemma clear_expired_spec n c : (size c.(cs_transactions) ≤ n)%nat →
  (clear_expired n c).(cs_transactions) = filter (λ x, head_block_time c.(cs_db) ≤ x.2.(trx_expiration)) c.(cs_transactions).
Proof.
  revert c. induction n as [|n IH]; intros c Hn.
  { assert (c.(cs_transactions) = ∅) as E by (apply map_size_empty_inv; lia). cbn. by rewrite E, map_filter_empty. }
  cbn. pose proof (least_spec trx_expiration (λ _, true) c.(cs_transactions)) as L. destruct (least _ _ _) as [[e id]|].
  - destruct L as (t & Ht & <- & _ & Hmin). destruct (Z.ltb_spec t.(trx_expiration) (head_block_time c.(cs_db))).
    + rewrite IH by (cbn; rewrite map_size_delete_Some by done; lia). cbn. apply map_eq. intros k.
      destruct (decide (k = id)) as [->|Hne].
      * rewrite map_lookup_filter, map_lookup_filter, lookup_delete_eq, Ht. cbn. case_guard; [lia|done].
      * by rewrite !map_lookup_filter, lookup_delete_ne.
    + symmetry. apply map_filter_id. intros j t' Hj. cbn. specialize (Hmin j t' Hj eq_refl). unfold pair_ltb in Hmin. cbn in Hmin.
      apply orb_false_iff in Hmin as [Hmin _]. apply Z.ltb_ge in Hmin. lia.
  - symmetry. apply map_filter_id. intros j t' Hj. specialize (L j t' Hj). done.
Qed.

(** ** Runs of the chain *)
Inductive chain_step : chain_state → chain_state → Prop :=
  | step_transaction skip c trx c' : _apply_transaction env skip c trx = Ok c' → chain_step c c'
  | step_clear c : chain_step c (clear_expired_transactions c)
  | step_summary c n h c' : create_block_summary c n h = Ok c' → chain_step c c'
  | step_rest c d : chain_ok d → head_block_time c.(cs_db) ≤ head_block_time d → chain_step c (c <| cs_db := d |>).

(** The transaction is remembered, or it is too late for it. *)
Definition remembered (id expiration : Z) (c : chain_state) : Prop :=
  chain_ok c.(cs_db) ∧
  ((∃ t, c.(cs_transactions) !! id = Some t ∧ t.(trx_expiration) = expiration) ∨ expiration < head_block_time c.(cs_db)).

Lemma step_remembers id expiration c c' : chain_step c c' → remembered id expiration c → remembered id expiration c'.
Proof.
  intros [skip c1 trx c2 H|c1|c1 n h c2 H|c1 d Hd Ht] [Hc Hr].
  - apply apply_transaction_Ok in H as (Ho & _ & Et & Hn). apply apply_operations_steady in Ho as [Hc' E]; [|done]. split; [done|].
    injection E as E _. rewrite E, Et. destruct Hr as [(t & Hl & He)|]; [left|by right].
    destruct (skip_transaction_dupe_check skip); [by exists t|]. specialize (Hn eq_refl).
    rewrite lookup_insert_ne; [by exists t|]. intros Eid. congruence.
  - unfold remembered, clear_expired_transactions. rewrite clear_expired_db, clear_expired_spec by done. split; [done|].
    destruct Hr as [(t & Hl & He)|]; [|by right]. destruct (Z.lt_ge_cases expiration (head_block_time c1.(cs_db))); [by right|left].
    exists t. split; [|done]. apply map_lookup_filter_Some. split; [done|]. cbn. lia.
  - unfold create_block_summary in H. cbv zeta in H. apply bind_Ok in H as (? & _ & [= <-]). by split.
  - split; [done|]. cbn. destruct Hr as [|]; [by left|right; lia].
Qed.
End soundness.

(** C2. A transaction that goes through leaves the books of every asset balanced, the
    ledger well formed and the chain in the state the next one needs, when it starts
    from such a state and each of its operations is of a kind that neither mints nor
    loses: all kinds of [operation] but the upgrade of a status, the change of a
    referrer, the call of a bet, a room of the matrix and the exchange of silver. *)
Theorem transaction_balanced {fs : FeeSchedule} {nth : NthElement} env skip c trx c'
  (Hchain : chain_ok c.(cs_db)) (Hledger : ledger_ok c.(cs_db)) (Hbalanced : balanced c.(cs_db))
  (Hneutral : Forall (λ op, books_neutral op = true) trx.(operations))
  (H : _apply_transaction env skip c trx = Ok c') :
  chain_ok c'.(cs_db) ∧ ledger_ok c'.(cs_db) ∧ balanced c'.(cs_db).
Proof.
  apply apply_transaction_Ok in H as (H & _). pose proof (apply_operations_conserves _ _ _ _ Hchain Hneutral H) as F.
  split; [by apply apply_operations_steady in H as [? _]|]. split; [by apply F|by eapply flow_balanced].
Qed.

(** C3. No transaction is applied twice with the check of duplicates on: after any
    sequence of [chain_step]s (other transactions, the removal of expired ones, block
    summaries, forward moves of the clock past the first block), a transaction with the
    same identifier and expiration, whatever its signatures, is rejected, first as a
    duplicate, later as expired. *)
Theorem no_transaction_twice {fs : FeeSchedule} {nth : NthElement} env skip skip' c0 trx c1 c2 trx'
  (Hchain : chain_ok c0.(cs_db)) (Hskip : skip.(skip_transaction_dupe_check) = false) (Hskip' : skip'.(skip_transaction_dupe_check) = false)
  (H : _apply_transaction env skip c0 trx = Ok c1) (Hsteps : rtc (chain_step env) c1 c2)
  (Hnum : 0 < head_block_num c2.(cs_db))
  (Hid : env.(env_id) trx' = env.(env_id) trx) (Hexpiration : trx'.(trx_expiration) = trx.(trx_expiration)) :
  is_ok (_apply_transaction env skip' c2 trx') = false.
Proof.
  assert (remembered (env.(env_id) trx) trx.(trx_expiration) c1) as Hr.
  { apply apply_transaction_Ok in H as (Ho & _ & Et & _). apply apply_operations_steady in Ho as [Hc _]; [|done]. split; [done|left].
    exists trx. split; [|done]. rewrite Et, Hskip. apply lookup_insert_eq. }
  clear H. induction Hsteps as [c|c c1 c2 Hs _ IH]; [|apply (IH Hnum), (step_remembers env _ _ _ _ Hs Hr)].
  destruct (_apply_transaction env skip' c trx') as [c'|] eqn:E; [exfalso|done]. apply apply_transaction_Ok in E as (_ & He & _ & Hn).
  destruct Hr as [_ [(t & Hl & _)|Hr]].
  - specialize (Hn Hskip'). rewrite Hid in Hn. congruence.
  - apply check_expiration_Ok in He; [|done]. lia.
Qed.

(** ** Instances *)
Definition sample_fee_schedule : FeeSchedule := 0.
Definition sample_environment : environment := Environment ref_block_prefix (λ _ sig, sig) (λ _, []) (λ _ _, 20).
Definition sample_chain : chain_state := ChainState sample_db ∅ {[ 7 := 77 ]}.
Definition no_skip : skip_flags := SkipFlags false false false.
Definition two_transfers : transaction :=
  Trx 7 77 1650000600 [op_transfer sample_transfer; op_transfer (TransferOp (Asset 100 0) 7 8 (Asset 30 0))] [2].

Definition sample_after : chain_state :=
  ok_or sample_chain (_apply_transaction (fs := sample_fee_schedule) sample_environment no_skip sample_chain two_transfers).

Lemma transaction_balanced_witness :
  get_balance sample_after.(cs_db) 7 0 = Asset 502370 0 ∧ balanced sample_after.(cs_db).
Proof.
  destruct (_apply_transaction (fs := sample_fee_schedule) sample_environment no_skip sample_chain two_transfers) as [c'|] eqn:E;
    [|exfalso; vm_compute in E; discriminate E].
  destruct (transaction_balanced (fs := sample_fee_schedule) sample_environment no_skip sample_chain two_transfers c' sample_chain_ok sample_ledger_ok sample_balanced) as (_ & _ & B).
  - repeat constructor.
  - exact E.
  - unfold sample_after. rewrite E. split; [|exact B]. replace c' with sample_after by (unfold sample_after; rewrite E; reflexivity).
    vm_compute. reflexivity.
Defined.

(** The same transaction, with another signature, an hour and a block later. *)
Lemma no_transaction_twice_witness :
  let trx := Trx 7 77 1650000600 two_transfers.(operations) [2; 1] in
  let later := sample_after <| cs_db ::= λ d, d <| d_dgpo ::= λ g, g <| dgp_time := 1650000500 |> |> |> in
  is_ok (_apply_transaction (fs := sample_fee_schedule) sample_environment (SkipFlags false true false) later trx) = false.
Proof.
  cbv zeta. destruct (_apply_transaction (fs := sample_fee_schedule) sample_environment no_skip sample_chain two_transfers) as [c'|] eqn:E;
    [|exfalso; vm_compute in E; discriminate E].
  apply (no_transaction_twice (fs := sample_fee_schedule) sample_environment no_skip (SkipFlags false true false) sample_chain two_transfers c' _ _
    sample_chain_ok eq_refl eq_refl E); [|vm_compute; reflexivity|reflexivity|reflexivity].
  replace c' with sample_after by (unfold sample_after; rewrite E; reflexivity). apply rtc_once, step_rest; [|vm_compute; discriminate].
  assert (chain_ok sample_after.(cs_db)) as [A1 A2 A3 A4 A5 A6].
  { unfold sample_after. rewrite E. apply apply_transaction_Ok in E as (Ho & _). by apply apply_operations_steady in Ho as [? _]; [|exact sample_chain_ok]. }
  split; [exact A1|exact A2|exact A3|exact A4|exact A5|exact A6].
Defined.
